(* ===== verification/_CoqProject ===== *)
-Q . S2P
Prelude.v
Alloc.v
Heap.v
Memory.v
Paging.v
Sched.v
Effects.v
Disk.v
Ata.v
AtaProps.v
AtaSim.v
StrLib.v
PathParser.v
Fat.v
FatWrite.v
FatData.v
FatFile.v
FatFail.v
FatProps.v
FatDir.v
FatDirScan.v
FatOpen.v
FatMount.v
Vfs.v
Elf.v
UserMem.v
Process.v
AddrSpace.v
ProcLoad.v
ProcArgs.v
ProcLife.v
System.v
Isolation.v
Descriptors.v
Tty.v
Panic.v
Rtc.v
Keyboard.v
Readline.v
UserLib.v
Syscall.v
SysFrame.v
SysCalls.v
SysProps.v
Interrupt.v
IntProps.v
Boot.v
