(* ===== verification/Prelude.v ===== *)
(** * RorthOX: a verification development of the kernel

    RorthOX is a 32-bit x86 kernel: a block heap, paging with one directory of 4 GB per process, a
    FAT16 file system behind a small file layer, an ELF loader, processes with a round-robin
    scheduler, and system calls that copy between programs and the kernel. This library is a shallow
    embedding of its C sources: a function of the source is a Rocq function of the same name, a struct
    a [Record], an enum or tagged union an [Inductive], a loop a [Fixpoint]. The definitions run, and
    the theorems marked with a claim number say what they compute.

    ** Conventions

    Machine integers are [Z] with the conversions [u8] ... [i32] written where the code converts or
    can wrap; addresses are [Z] below 2^32. Physical memory is a finite map from addresses to bytes
    ([Memory.mem]). Error codes are negative numbers as in include/rorthox/status.h, or [Err] of the
    monad [Effects.io], which threads state through calls that can fail. The state of the kernel is
    passed explicitly.

    ** The parts, from the bottom to the top

    - Prelude.v (this file): machine integers, error codes, tactics, lemmas on lists and flags.
    - Alloc.v: what the kernel expects of an allocator, as the classes [Allocator] and
      [AllocatorLaws], and the bookkeeping of what a client owns ([owned_by]).
    - Heap.v: memory/heap/heap.c and kheap.c. The block table refines first-fit allocation on a map of
      live runs; the instance of the classes of Alloc.v is at its end.
    - Memory.v: memory/memory.c and kzalloc over byte memory.
    - Paging.v: memory/paging/paging.c. Directories and tables are words of memory; what a directory
      maps is a function of them ([pte]), and mapping, switching, creation and release are described
      through it.
    - Sched.v: the list, the scheduler and the sleepers of task/task.c and the tick of
      arch/i686/pit.c: round robin, fairness, waking at the deadline, leaving the idle loop.
    - Effects.v: the state and error monad, its loops and its two program logics ([preserves] for
      invariants, [hoare] for results).
    - Disk.v: disk/streamer.c over the class [BlockDevice] of sector devices.
    - StrLib.v: string/string.c with the formatted output of vsnprintf.
    - PathParser.v: fs/pparser.c over an allocator.
    - Fat.v, FatWrite.v: the definitions of fs/fat/fat16.c for reading and for writing; FatData.v,
      FatFile.v, FatFail.v, FatProps.v: what writes, reads and truncation do to the files of a volume,
      also when they fail; FatDir.v:
      its directories, opening, creating and mounting; FatDirScan.v, FatOpen.v, FatMount.v: what
      lookup, creation, opening and mounting do.
    - Vfs.v: fs/file.c and the start of disk/disk.c: path validation, the descriptor table, every
      call through the table of operations of a file system.
    - Elf.v: loader/formats/elfloader.c: validation and loading of an ELF image.
    - UserMem.v: the checked copies of task/task.c and the ownership lookup of task/process.c.
    - Process.v: the rest of task/process.c and task/task.c: loading, mapping, memory, arguments,
      handles and termination of processes.
    - AddrSpace.v: the invariant of the address space of a process and that the memory calls keep it;
      ProcLoad.v, ProcArgs.v, ProcLife.v: what loading, arguments and termination do.
    - System.v: the invariant [system] of the whole process table, kept by every operation in any
      order; Isolation.v: what a program can reach in every state that this gives.
    - Descriptors.v: gdt/gdt.c, the tables of kernel.c and the gates of idt/idt.c.
    - Tty.v: arch/i686/tty.c, against an endless tape with a window; Panic.v: the stop screen of
      arch/i686/sys.c; Keyboard.v: keyboard/keyboard.c and classic.c.
    - Rtc.v: time/rtc/rtc.h over the class [CmosClock].
    - Ata.v: disk/disk.c and the ATA protocol as the class [AtaDrive]; AtaProps.v: the driver is a
      [BlockDevice] with its laws on every such drive; AtaSim.v: a drive, and the theorems.
    - Syscall.v: isr80h/*.c, the whole handler; SysFrame.v, SysCalls.v: what a call leaves alone and
      what every command does to the invariant; SysProps.v: the theorems.
    - Interrupt.v: the dispatch, the exceptions and the callbacks of idt/idt.c, pit.c and the
      keyboard; IntProps.v: the theorems.
    - Boot.v: kernel_main of kernel.c, which establishes the invariants.
    - Readline.v, UserLib.v: the line editor, the tokens, commands and printf of
      programs/stdlib/src, and a round of programs/shell/src/shell.c.

    ** What the theorems show

    The heap refines an abstract first-fit allocator, for every sequence of operations. A new
    directory is the identity, and a mapping changes exactly its range. A copy between kernel and
    program happens exactly when the program owns every byte and has every page mapped, and moves
    exactly those bytes. A FAT16 write replaces the requested bytes of one file, leaves the others
    alone even when it fails, fails only for want of room and can be read back; chains are collected on every image, also
    on a corrupt one; lookup finds exactly the entry that the directories name. Opening and closing
    through the file layer restores heap and tables, and so does every failure. The ELF loader accepts
    exactly the well-formed images and fills every segment from the file. The scheduler is fair, sleepers wake
    exactly at their deadline. Formatted output equals a reference rendering and stays in its buffer.

    The kernel as a whole: [kernel_main] ends with the invariant of System.v and the shell running, or
    on the stop screen; from there every system call but the file commands, every interrupt and every
    fault, with any registers and any memory of the program, leads back to that invariant, and no
    other process changes. In every state of every history a user access goes to memory of its own
    process. The driver of the disk, on any drive that follows the ATA protocol, reads and writes
    exactly the sectors asked for, and carries out every request in range on a drive in working order.
    Printing does to the screen what the reference does to a tape; the keyboard types what the key
    events mean; the clock is read at one moment; the line editor and the shell turn keys into the
    line on the screen and its words into the arguments of the command.

    ** Bounds and fuel

    Loops that are not structural take a number of rounds that the code cannot exceed: the entries of a
    table (1024 for paging, the block count for the heap), the bytes left to copy (every round takes
    one), the clusters of a volume (a cluster visited twice ends the loop of the code), the members of a
    list. Where the code itself can loop for ever the result is [None] (fs_insert_filesystem with a
    full table) or the theorem states the rounds needed (the idle loop, the polls of the clock). The
    poll limits of the ATA driver are those of the code, as binary numbers. The bounds are proved, not
    assumed: each theorem about such a loop is about its result.

    ** Parameters

    The block device is a class with laws for the sectors it reads and writes, which the ATA driver
    discharges and a device in memory instantiates for the examples. The ATA drive and the CMOS clock
    are classes with the laws that their documentation gives; [sim_drive] and [sim_clock] satisfy
    them. The allocator is a class that Heap.v discharges, the file system one that FatMount.v and
    Vfs.v discharge. What the processor does with a directory is [paging_user_translate] of the sources
    and the record [paging_cpu]. Interrupts that arrive while the kernel is idle are an argument of the
    idle loop. The addresses of locals on the kernel stack and what the stack holds are arguments. The
    shell takes the system calls that allocate and that run a command as variables.

    ** Not modelled

    The assembly files (boot, entry stubs, port and control register instructions, the return to
    user mode), which are represented by the state they set up. getformattedtime and gettime of
    rtc.h and the accessors of ELF section headers, which no code calls. The functions of the user
    library with the text of a kernel function of the same name (strings, memory, itoa), the system
    call stubs that only pass registers, and the test programs. The file commands of the system call
    handler are modelled, but the safety theorem is about the other commands: its invariant is that of
    processes without open files. Concurrency is that of the code: interrupts are disabled in the
    kernel except in the idle loop. *)

From stdpp Require Import base numbers list gmap.
From Stdlib Require Import ZArith Lia.

#[export] Set Default Goal Selector "!".
#[global] Open Scope Z_scope.

(** lia also reasons about division and remainder by constants. *)
Ltac Zify.zify_post_hook ::= Z.to_euclidean_division_equations.

(** ** Machine integers *)

Definition u8 (z : Z) : Z := z mod 2 ^ 8.
Definition u16 (z : Z) : Z := z mod 2 ^ 16.
Definition u32 (z : Z) : Z := z mod 2 ^ 32.
Definition u64 (z : Z) : Z := z mod 2 ^ 64.

(** Conversion of a value to a signed type of 8 or 32 bits (two's complement). *)
Definition i8 (z : Z) : Z := (z + 2 ^ 7) mod 2 ^ 8 - 2 ^ 7.
Definition i32 (z : Z) : Z := (z + 2 ^ 31) mod 2 ^ 32 - 2 ^ 31.

Definition UINT32_MAX : Z := 4294967295.
Definition INT_MAX : Z := 2147483647.

(** [x & f] is not zero, the C truth value of a flag test. *)
Definition has_flag (x f : Z) : bool := negb (Z.land x f =? 0).

(** ** Status codes (include/rorthox/status.h) *)

Definition RORTHOX_ALL_OK : Z := 0.
Definition EIO : Z := 1.
Definition EINVARG : Z := 2.
Definition ENOMEM : Z := 3.
Definition EBADPATH : Z := 4.
Definition EFSNOTUS : Z := 5.
Definition ERDONLY : Z := 6.
Definition EUNIMP : Z := 7.
Definition EISTKN : Z := 8.
Definition EINFORMAT : Z := 9.
Definition ENOENT : Z := 10.
Definition EBADF : Z := 11.
Definition ENOSPC : Z := 12.
Definition EMFILE : Z := 13.
Definition EFBIG : Z := 14.

(** ** C-style error propagation

    [try (r, s) := e in k] runs [e]; a negative status [r] is returned at once together with the
    state [s] reached, as [if (res < 0) return res;] does in the source. *)

Declare Scope rorthox_scope.
Notation "'try' ( r , s ) := e 'in' k" :=
  (let '(r, s) := e in if Z.ltb r 0 then (r, s) else k)
  (at level 10, r name, s name, e at level 100, k at level 200,
   format "'[v' 'try'  ( r ,  s )  :=  e  'in' '/' k ']'") : rorthox_scope.
#[global] Open Scope rorthox_scope.

(** ** Automation *)

(** Case analysis on every boolean comparison of integers in the goal. *)
Ltac case_Zb :=
  repeat match goal with
  | |- context [?a <? ?b] => destruct (Z.ltb_spec a b)
  | |- context [?a <=? ?b] => destruct (Z.leb_spec a b)
  | |- context [?a =? ?b] => destruct (Z.eqb_spec a b)
  end.

(** The same for the hypotheses. *)
Ltac case_Zb_in H :=
  repeat match type of H with
  | context [?a <? ?b] => destruct (Z.ltb_spec a b)
  | context [?a <=? ?b] => destruct (Z.leb_spec a b)
  | context [?a =? ?b] => destruct (Z.eqb_spec a b)
  end.

Create HintDb rorthox discriminated.
Create Rewrite HintDb rorthox.

(** ** Lemmas on machine integers *)

Lemma u32_small z : 0 <= z < 2 ^ 32 -> u32 z = z.
Proof. apply Z.mod_small. Qed.

Lemma u32_range z : 0 <= u32 z < 2 ^ 32.
Proof. apply Z.mod_pos_bound. lia. Qed.

Lemma u64_small z : 0 <= z < 2 ^ 64 -> u64 z = z.
Proof. intros. unfold u64. by apply Z.mod_small. Qed.

Lemma u8_range z : 0 <= u8 z < 256.
Proof. apply (Z.mod_pos_bound z 256). lia. Qed.

Lemma u16_range z : 0 <= u16 z < 65536.
Proof. apply (Z.mod_pos_bound z 65536). lia. Qed.

Lemma u8_small z : 0 <= z < 256 -> u8 z = z.
Proof. apply Z.mod_small. Qed.

Lemma u16_small z : 0 <= z < 65536 -> u16 z = z.
Proof. apply Z.mod_small. Qed.

Lemma i32_small z : - 2 ^ 31 <= z < 2 ^ 31 -> i32 z = z.
Proof. unfold i32. intros. rewrite Z.mod_small; lia. Qed.

Lemma i32_range z : - 2 ^ 31 <= i32 z < 2 ^ 31.
Proof. unfold i32. pose proof (Z.mod_pos_bound (z + 2 ^ 31) (2 ^ 32)). lia. Qed.

#[export] Hint Resolve u32_range u8_range u16_range i32_range : rorthox.
#[export] Hint Rewrite u32_small u8_small u16_small i32_small using lia : rorthox.

(** Removes the wrap-around of values known to be in range. *)
Ltac unwrap := autorewrite with rorthox in *.

(** ** Bit fields

    A flag word below [2 ^ k] and a multiple of [2 ^ k] do not overlap: their bitwise or is their
    sum, and masking gives each part back. *)

Lemma lor_add_disjoint a b k :
  0 <= k -> a mod 2 ^ k = 0 -> 0 <= b < 2 ^ k -> Z.lor a b = a + b.
Proof.
  intros Hk Ha Hb. rewrite Z.add_comm, Z.lor_comm.
  apply Z.bits_inj'. intros n Hn. rewrite Z.lor_spec.
  assert (Hl : Z.land b a = 0).
  { apply Z.bits_inj'. intros i Hi. rewrite Z.land_spec, Z.bits_0.
    destruct (Z.lt_ge_cases i k).
    - rewrite (Z.div_mod a (2 ^ k)) by lia. rewrite Ha, Z.add_0_r, Z.mul_comm.
      rewrite <- Z.shiftl_mul_pow2, Z.shiftl_spec_low by lia. apply andb_false_r.
    - assert (Z.testbit b i = false) as ->; [|done].
      destruct (Z.eq_dec b 0) as [->|]; [apply Z.bits_0|].
      apply Z.bits_above_log2; [lia|].
      assert (Z.log2 b < k) by (apply Z.log2_lt_pow2; lia). lia. }
  rewrite Z.add_nocarry_lxor by done.
  rewrite Z.lxor_spec. apply (f_equal (fun z => Z.testbit z n)) in Hl.
  rewrite Z.land_spec, Z.bits_0 in Hl.
  destruct (Z.testbit b n), (Z.testbit a n); done.
Qed.

Lemma lor_range a b k : 0 < k -> 0 <= a < 2 ^ k -> 0 <= b < 2 ^ k -> 0 <= Z.lor a b < 2 ^ k.
Proof.
  intros Hk Ha Hb. split; [apply Z.lor_nonneg; lia|].
  assert (Z.lor a b = 0 \/ 0 < Z.lor a b) as [->|Hp]
    by (assert (0 <= Z.lor a b) by (apply Z.lor_nonneg; lia); lia); [lia|].
  apply Z.log2_lt_pow2; [done|]. rewrite Z.log2_lor by lia.
  assert (Hl : forall c, 0 <= c < 2 ^ k -> Z.log2 c < k).
  { intros c Hc. destruct (Z.eq_dec c 0) as [->|]; [by simpl; lia|]. apply Z.log2_lt_pow2; lia. }
  pose proof (Hl a Ha). pose proof (Hl b Hb). lia.
Qed.

Lemma land_low_mask a k : 0 <= k -> Z.land a (Z.ones k) = a mod 2 ^ k.
Proof. intros. by apply Z.land_ones. Qed.

(** [0xFFFFF000], the frame mask of page tables. *)
Definition FRAME_MASK : Z := 4294963200.

Lemma land_frame_mask a : 0 <= a < 2 ^ 32 -> Z.land a FRAME_MASK = a - a mod 4096.
Proof.
  intros Ha.
  assert (Hsplit : Z.lor (Z.land a FRAME_MASK) (Z.land a (Z.ones 12)) = a).
  { rewrite <- Z.land_lor_distr_r. change (Z.lor FRAME_MASK (Z.ones 12)) with (Z.ones 32).
    rewrite Z.land_ones by lia. by apply Z.mod_small. }
  rewrite Z.land_ones in Hsplit by lia.
  assert (Hm : Z.land a FRAME_MASK mod 2 ^ 12 = 0).
  { rewrite <- Z.land_ones by lia. rewrite <- Z.land_assoc.
    change (Z.land FRAME_MASK (Z.ones 12)) with 0. by rewrite Z.land_0_r. }
  rewrite (lor_add_disjoint _ _ 12) in Hsplit; [|lia|done|apply Z.mod_pos_bound; lia].
  change (2 ^ 12) with 4096 in *. lia.
Qed.
Lemma list_filter_fmap {A B} (f : A -> B) (P : B -> Prop) `{!forall x, Decision (P x)} (l : list A) :
  filter P (f <$> l) = f <$> filter (fun x => P (f x)) l.
Proof.
  induction l as [|x l IH]; [done|]. rewrite fmap_cons. destruct (decide (P (f x))) as [Hp|Hp].
  - by rewrite !filter_cons_True, fmap_cons, IH.
  - by rewrite !filter_cons_False.
Qed.

