(* ===== verification/Alloc.v ===== *)
(** * The allocator interface

    What the kernel heap promises to the code that allocates from it (paging, the path parser, the
    file systems, processes). [kmalloc] and [kfree] are the calls; [live h A] relates an allocator
    state to the abstract state [A], the map from the address of each live allocation to its number
    of 4 KiB blocks. The components that allocate are defined and proved against this interface;
    Heap.v discharges it for the block allocator of heap.c. *)

From stdpp Require Import base numbers list gmap.
From Stdlib Require Import ZArith Lia.
From S2P Require Import Prelude.

#[local] Set Default Goal Selector "!".

(** Blocks needed for [size] bytes. *)
Definition blocks_for (size : Z) : Z := (size + 4095) / 4096.

(** The byte ranges of two allocations do not meet. *)
Definition apart (p n q m : Z) : Prop := p + 4096 * n <= q \/ q + 4096 * m <= p.

(** [p] is a possible address of a new allocation of [n] blocks beside the live ones. *)
Definition fresh_run (A : gmap Z Z) (p n : Z) : Prop :=
  0 < p /\ p mod 4096 = 0 /\ 1 <= n /\ p + 4096 * n <= 2 ^ 32 /\
  forall q m, A !! q = Some m -> apart p n q m.

(** Blocks in use. *)
Definition used (A : gmap Z Z) : Z := map_fold (fun _ n s => n + s) 0 A.

Class Allocator (H : Type) : Type := {
  kmalloc : H -> Z -> Z * H;
  kfree : H -> Z -> H
}.

Class AllocatorLaws (H : Type) `{Allocator H} : Type := {
  live : H -> gmap Z Z -> Prop;
  (** the address range managed, which no operation changes *)
  arena : H -> Z * Z;
  capacity : H -> Z;
  arena_malloc h size : arena (snd (kmalloc h size)) = arena h;
  arena_free h p : arena (kfree h p) = arena h;
  capacity_arena h h' : arena h = arena h' -> capacity h = capacity h';
  live_bounds h A p n : live h A -> A !! p = Some n ->
    0 < p /\ p mod 4096 = 0 /\ 1 <= n /\ p + 4096 * n <= 2 ^ 32;
  live_apart h A p n q m : live h A -> A !! p = Some n -> A !! q = Some m -> p <> q ->
    apart p n q m;
  live_malloc h A size p h' : live h A -> 0 <= size < 2 ^ 32 -> kmalloc h size = (p, h') ->
    (p = 0 /\ h' = h) \/
    (0 < size /\ fresh_run A p (blocks_for size) /\ live h' (<[p := blocks_for size]> A));
  live_room h A size : live h A -> 0 < size <= 4096 -> used A < capacity h ->
    fst (kmalloc h size) <> 0;
  live_free h A p n : live h A -> A !! p = Some n -> live (kfree h p) (delete p A);
  free_none h A p : live h A -> A !! p = None -> kfree h p = h;
  live_ext h1 h2 A : live h1 A -> live h2 A -> arena h1 = arena h2 -> h1 = h2;
  live_fun h A B : live h A -> live h B -> A = B;
  live_arena h A p n : live h A -> A !! p = Some n ->
    fst (arena h) <= p /\ p + 4096 * n <= fst (arena h) + 4096 * capacity h
}.

(** ** Facts shared by the clients *)

Lemma used_insert A p n : A !! p = None -> used (<[p := n]> A) = n + used A.
Proof.
  intros Hp. unfold used. rewrite map_fold_insert_L; [done|intros; lia|done].
Qed.

Lemma used_delete A p n : A !! p = Some n -> used A = n + used (delete p A).
Proof.
  intros Hp. rewrite <- (insert_delete_id A p n Hp) at 1. apply used_insert, lookup_delete_eq.
Qed.

Section laws.
Context `{AllocatorLaws H}.
Implicit Types h : H.

Lemma fresh_none h A p n : live h A -> fresh_run A p n -> A !! p = None.
Proof.
  intros Hl (Hp & _ & Hn & _ & Hd). destruct (A !! p) as [m|] eqn:E; [|done].
  pose proof (live_bounds _ _ _ _ Hl E). destruct (Hd p m E); lia.
Qed.

Lemma live_null h A : live h A -> A !! 0 = None.
Proof.
  intros Hl. destruct (A !! 0) as [n|] eqn:E; [|done].
  pose proof (live_bounds _ _ _ _ Hl E). lia.
Qed.

Lemma kfree_null h A : live h A -> kfree h 0 = h.
Proof. intros Hl. eapply free_none; [done|]. by eapply live_null. Qed.

(** Releasing what was just allocated gives the former state back. *)
Lemma malloc_free_inverse h A size p h' :
  live h A -> 0 <= size < 2 ^ 32 -> kmalloc h size = (p, h') -> kfree h' p = h.
Proof.
  intros Hl Hs Hm. destruct (live_malloc _ _ _ _ _ Hl Hs Hm) as [[-> ->]|(_ & Hf & Hl')].
  - by eapply kfree_null.
  - pose proof (fresh_none _ _ _ _ Hl Hf) as Hn.
    eapply live_ext; [|done|].
    + rewrite <- (delete_insert_id A p (blocks_for size)) by done.
      eapply live_free; [done|]. apply lookup_insert_eq.
    + rewrite arena_free. pose proof (arena_malloc h size) as Ha. by rewrite Hm in Ha.
Qed.

(** A failed allocation changes nothing. *)
Lemma malloc_null h A size h' :
  live h A -> 0 <= size < 2 ^ 32 -> kmalloc h size = (0, h') -> h' = h.
Proof.
  intros Hl Hs Hm. destruct (live_malloc _ _ _ _ _ Hl Hs Hm) as [[_ ->]|(_ & (? & _) & _)]; [done|lia].
Qed.

(** ** Ownership *)

(** The state [h] is the state [h0] with exactly the allocations of [l] added: what a component that
    started in [h0], with the allocations [A], owns. The numbers of blocks of these allocations satisfy [P]. *)
Definition owned_by (P : Z -> Prop) (A : gmap Z Z) (h0 : H) (l : list Z) (h : H) : Prop :=
  arena h = arena h0 /\ exists B : gmap Z Z, live h0 A /\ live h (B ∪ A) /\ A ##ₘ B /\ NoDup l /\
    (forall p, p ∈ l <-> is_Some (B !! p)) /\ map_Forall (fun _ n => P n) B.

#[export] Instance owned_perm P A h0 : Proper (Permutation ==> eq ==> iff) (owned_by P A h0).
Proof.
  assert (Hone : forall l l' h, l ≡ₚ l' -> owned_by P A h0 l h -> owned_by P A h0 l' h).
  { intros l l' h E (Ha & B & Hl0 & Hl & Hd & Hn & He & HP). split; [done|]. exists B.
    do 3 (split; [done|]). split; [by rewrite <- E|]. split; [|done]. intros p. by rewrite <- E. }
  intros l l' E h ? <-. split; apply Hone; [done|by symmetry].
Qed.

Lemma owned_nil P h A : live h A -> owned_by P A h [] h.
Proof.
  intros Hl. split; [done|]. exists ∅. rewrite map_empty_union. split; [done|]. split; [done|].
  split; [apply map_disjoint_empty_r|]. split; [constructor|].
  split; [|apply map_Forall_empty]. intros p. rewrite lookup_empty. split; [set_solver|by intros []].
Qed.

Lemma owned_null P A h0 l h : owned_by P A h0 l h -> (0 ∉ l) /\ kfree h 0 = h.
Proof.
  intros (_ & B & _ & Hl & _ & _ & He & _). pose proof (live_null _ _ Hl) as Hz. split; [|by eapply kfree_null].
  intros [n Hn]%He. apply lookup_union_None in Hz as [Hz _]. congruence.
Qed.

Lemma owned_weaken (P Q : Z -> Prop) A h0 l h : (forall n, P n -> Q n) -> owned_by P A h0 l h -> owned_by Q A h0 l h.
Proof.
  intros HPQ (Ha & B & Hl0 & Hl & Hd & Hn & He & HP). split; [done|]. exists B. do 5 (split; [done|]).
  by eapply map_Forall_impl; [exact HP|intros ??; apply HPQ].
Qed.

(** Nothing owned: the state is the one at the start. *)
Lemma owned_done P A h0 h : owned_by P A h0 [] h -> h = h0.
Proof.
  intros (Ha & B & Hl0 & Hl & _ & _ & He & _). eapply live_ext; [|done|done].
  replace (B ∪ A) with A in Hl; [done|]. symmetry. replace B with (∅ : gmap Z Z); [apply map_empty_union|].
  symmetry. apply map_empty. intros p. apply eq_None_not_Some. rewrite <- He. set_solver.
Qed.

Lemma owned_malloc P A h0 l h size p h' :
  owned_by P A h0 l h -> 0 <= size < 2 ^ 32 -> (0 < size -> P (blocks_for size)) -> kmalloc h size = (p, h') ->
  (p = 0 /\ h' = h) \/ (p <> 0 /\ (p ∉ l) /\ owned_by P A h0 (p :: l) h').
Proof.
  intros (Ha & B & Hl0 & Hl & Hd & Hn & He & HP) Hs HPs Hm.
  destruct (live_malloc _ _ _ _ _ Hl Hs Hm) as [?|(Hpos & Hf & Hl')]; [by left|right].
  pose proof (fresh_none _ _ _ _ Hl Hf) as Hnone. apply lookup_union_None in Hnone as [HB HA].
  assert (Hpl : p ∉ l) by (rewrite He, HB; by intros []).
  split; [destruct Hf; lia|]. split; [done|]. split.
  { pose proof (arena_malloc h size) as Hm'. rewrite Hm in Hm'. simpl in Hm'. congruence. }
  exists (<[p := blocks_for size]> B). split; [done|]. split; [by rewrite <- insert_union_l|].
  split; [by apply map_disjoint_insert_r_2|]. split; [by constructor|].
  split; [|apply map_Forall_insert_2; [by apply HPs|done]].
  intros q. rewrite elem_of_cons, He. destruct (decide (q = p)) as [->|Hne].
  - rewrite lookup_insert_eq. split; [eauto|by left].
  - rewrite lookup_insert_ne by done. split; [by intros [?|?]|by right].
Qed.

Lemma owned_free P A h0 l h p : owned_by P A h0 (p :: l) h -> owned_by P A h0 l (kfree h p).
Proof.
  intros (Ha & B & Hl0 & Hl & Hd & Hn & He & HP). apply NoDup_cons in Hn as [Hp Hn].
  destruct (proj1 (He p) ltac:(set_solver)) as [n HB].
  assert (HA : A !! p = None) by (by eapply map_disjoint_Some_r).
  split; [by rewrite arena_free|]. exists (delete p B). split; [done|].
  assert (Hu : (B ∪ A) !! p = Some n) by (by apply lookup_union_Some_l).
  split; [pose proof (live_free _ _ _ _ Hl Hu) as Hl'; by rewrite delete_union, (delete_id A) in Hl' by done|].
  split; [by apply map_disjoint_delete_r|]. split; [done|]. split; [|by apply map_Forall_delete].
  intros q. destruct (decide (q = p)) as [->|Hne].
  - rewrite lookup_delete_eq. split; [done|by intros []].
  - rewrite lookup_delete_ne by done. rewrite <- He. set_solver.
Qed.

Lemma used_union (A B : gmap Z Z) : A ##ₘ B -> map_Forall (fun _ n => 1 = n) B ->
  used (B ∪ A) = used A + Z.of_nat (size B).
Proof.
  revert A. induction B as [|p n B Hp IH] using map_ind; intros A Hd HB.
  - rewrite map_empty_union, map_size_empty. lia.
  - apply map_disjoint_insert_r in Hd as [HA Hd]. apply map_Forall_insert in HB as [<- HB]; [|done].
    rewrite <- insert_union_l, used_insert, IH, map_size_insert_None by (done || by apply lookup_union_None). lia.
Qed.

(** With one-block allocations the room left can be counted. *)
Lemma owned_room A h0 l h size : owned_by (eq 1) A h0 l h ->
  0 < size <= 4096 -> used A + Z.of_nat (length l) < capacity h0 -> fst (kmalloc h size) <> 0.
Proof.
  intros (Ha & B & Hl0 & Hl & Hd & Hn & He & HP) Hs Hu.
  assert (Hsize : length l = base.size B).
  { rewrite <- size_dom, <- (size_list_to_set (C := gset Z) l Hn). f_equal. apply set_eq. intros p.
    by rewrite elem_of_list_to_set, elem_of_dom. }
  eapply live_room; [done|done|]. rewrite used_union by done. rewrite (capacity_arena h h0 Ha). lia.
Qed.
(** ** Runs *)

(** [n] blocks from [q] on are one live allocation. *)
Definition run (h : H) (q n : Z) : Prop := exists A, live h A /\ A !! q = Some n.

Lemma run_bounds h q n : run h q n -> 0 < q /\ q mod 4096 = 0 /\ 1 <= n /\ q + 4096 * n <= 2 ^ 32.
Proof. intros (A & Hl & Hq). by eapply live_bounds. Qed.

Lemma run_arena h q n : run h q n -> fst (arena h) <= q /\ q + 4096 * n <= fst (arena h) + 4096 * capacity h.
Proof. intros (A & Hl & Hq). by eapply live_arena. Qed.

Lemma run_apart h p n q m : run h p n -> run h q m -> p <> q -> apart p n q m.
Proof. intros (A & Hl & Hp) (B & Hl' & Hq). rewrite (live_fun _ _ _ Hl' Hl) in Hq. exact (live_apart _ _ _ _ _ _ Hl Hp Hq). Qed.

Lemma run_fun h q n m : run h q n -> run h q m -> n = m.
Proof. intros (A & Hl & Hq) (B & Hl' & Hq'). rewrite (live_fun _ _ _ Hl' Hl) in Hq'. congruence. Qed.

Lemma run_malloc h size p h' A : live h A -> 0 <= size < 2 ^ 32 -> kmalloc h size = (p, h') -> p <> 0 ->
  0 < size /\ run h' p (blocks_for size) /\ forall q n, run h q n -> run h' q n /\ apart p (blocks_for size) q n.
Proof.
  intros Hl Hs Hm Hp. destruct (live_malloc _ _ _ _ _ Hl Hs Hm) as [[? _]|(Hpos & Hf & Hl')]; [done|].
  split; [done|]. split; [exists (<[p := blocks_for size]> A); by rewrite lookup_insert_eq|].
  intros q n (B & HlB & Hq). rewrite (live_fun _ _ _ HlB Hl) in Hq. split; [|by apply Hf].
  exists (<[p := blocks_for size]> A). split; [done|]. rewrite lookup_insert_ne; [done|].
  intros ->. rewrite (fresh_none _ _ _ _ Hl Hf) in Hq. done.
Qed.

Lemma run_free h q n p : run h q n -> q <> p -> run (kfree h p) q n.
Proof.
  intros (A & Hl & Hq) Hne. destruct (A !! p) as [k|] eqn:Hp.
  - exists (delete p A). split; [by eapply live_free|]. by rewrite lookup_delete_ne.
  - exists A. by rewrite (free_none _ _ _ Hl Hp).
Qed.

(** What is owned is a run. *)
Lemma owned_run P A h0 l h p : owned_by P A h0 l h -> p ∈ l -> exists n, run h p n.
Proof.
  intros (_ & B & _ & Hl & _ & _ & He & _) Hp. apply He in Hp as [n Hn]. exists n, (B ∪ A). split; [done|].
  by apply lookup_union_Some_l.
Qed.

Lemma owned_live P A h0 l h : owned_by P A h0 l h -> exists B, live h B.
Proof. intros (_ & B & _ & Hl & _). eauto. Qed.

Lemma owned_trans P A h0 l1 h1 M l2 h2 :
  owned_by P A h0 l1 h1 -> live h1 M -> owned_by P M h1 l2 h2 -> owned_by P A h0 (l2 ++ l1) h2.
Proof.
  intros (Ha1 & B1 & Hl0 & Hl1 & Hd1 & Hn1 & He1 & HP1) HM (Ha2 & B2 & _ & Hl2 & Hd2 & Hn2 & He2 & HP2).
  rewrite (live_fun _ _ _ HM Hl1) in *. apply map_disjoint_union_l in Hd2 as [HdB HdA].
  split; [congruence|]. exists (B2 ∪ B1). split; [done|]. split; [by rewrite <- (assoc_L _)|].
  split; [by apply map_disjoint_union_r_2|]. split.
  - apply NoDup_app. split; [done|]. split; [|done]. intros p [n2 Hp2]%He2 [n1 Hp1]%He1.
    by rewrite (map_disjoint_Some_l _ _ _ _ HdB Hp1) in Hp2.
  - split; [|by apply map_Forall_union_2]. intros p. rewrite elem_of_app, He1, He2, lookup_union_is_Some. done.
Qed.

(** The state without some of what is owned, as a new start. *)
Lemma owned_rebase P A h0 l1 : forall l2 h, owned_by P A h0 (l1 ++ l2) h ->
  exists A' h0', owned_by (fun _ => True) A' h0' l1 h /\ owned_by P A h0 l2 h0' /\
    forall q n, run h q n -> q ∉ l1 -> A' !! q = Some n.
Proof.
  induction l1 as [|p l1 IH]; intros l2 h Ho.
  - destruct (owned_live _ _ _ _ _ Ho) as [M HM]. exists M, h. split; [by apply owned_nil|]. split; [done|].
    intros q n (B & HB & Hq) _. by rewrite (live_fun _ _ _ HM HB).
  - destruct (IH (p :: l2) h) as (A1 & h1 & Ho1 & Ho2 & Hr1); [by rewrite <- Permutation_middle|].
    assert (Hp : p ∉ l1). { destruct Ho as (_ & _ & _ & _ & _ & Hn & _). apply NoDup_cons in Hn as [Hn _]. set_solver. }
    destruct (owned_run _ _ _ _ _ p Ho ltac:(set_solver)) as [np Hnp]. pose proof (Hr1 _ _ Hnp Hp) as HA1.
    pose proof Ho1 as (Ha & B & Hl0 & Hl & Hd & Hn & He & _). exists (delete p A1), (kfree h1 p). split.
    + split; [by rewrite arena_free|]. exists (<[p := np]> B). split; [by eapply live_free|]. split.
      { replace (<[p := np]> B ∪ delete p A1) with (B ∪ A1); [done|]. rewrite <- (insert_delete_id A1 p np HA1) at 1.
        rewrite <- insert_union_l, insert_union_r; [done|]. apply eq_None_not_Some. by rewrite <- He. }
      split; [apply map_disjoint_insert_r_2; [apply lookup_delete_eq|by apply map_disjoint_delete_l]|].
      split; [by constructor|]. split; [|done]. intros q. rewrite elem_of_cons, He. destruct (decide (q = p)) as [->|Hne].
      * rewrite lookup_insert_eq. split; [eauto|by left].
      * rewrite lookup_insert_ne by done. split; [by intros [?|?]|by right].
    + split; [by apply owned_free|]. intros q n Hq Hqn. rewrite lookup_delete_ne by set_solver. apply Hr1; [done|set_solver].
Qed.

(** The allocations at the start stay. *)
Lemma owned_old P A h0 l h q n : owned_by P A h0 l h -> A !! q = Some n -> run h q n.
Proof. intros (_ & B & _ & Hl & Hd & _) Hq. exists (B ∪ A). split; [done|]. by apply lookup_union_Some_r. Qed.
End laws.
