(* ===== verification/Heap.v ===== *)
(** * The block allocator (kernel/memory/heap/heap.c, kheap.c)

    The heap hands out runs of 4 KiB blocks. One byte per block, the block table, holds the state:
    the low nibble tells taken from free, bit 7 ([HAS_NEXT]) that the run goes on in the next
    block, bit 6 ([IS_FIRST]) that the run starts here. [heap_repr h L] relates a heap to the
    abstract allocator state [L], the finite map from the first block of each live allocation to
    its number of blocks; the theorems show that the table operations implement first-fit
    allocation and exact release on [L], and that the table is determined by [L]. *)

From stdpp Require Import base numbers list gmap.
From Stdlib Require Import ZArith Lia.
From S2P Require Import Prelude Alloc.

#[local] Set Default Goal Selector "!".

(** ** Data and constants (heap.h, config.h) *)

Definition HEAP_BLOCK_TABLE_ENTRY_TAKEN : Z := 1.
Definition HEAP_BLOCK_TABLE_ENTRY_FREE : Z := 0.
Definition HEAP_BLOCK_HAS_NEXT : Z := 128.
Definition HEAP_BLOCK_IS_FIRST : Z := 64.

Definition RORTHOX_HEAP_SIZE_BYTES : Z := 104857600.
Definition RORTHOX_HEAP_BLOCK_SIZE : Z := 4096.
Definition RORTHOX_HEAP_ADDRESS : Z := 16777216.

Record heap_table := HeapTable { entries : list Z; total : Z }.
Record heap := Heap { table : heap_table; saddr : Z }.

Definition set_entries (h : heap) (es : list Z) : heap :=
  Heap (HeapTable es (total (table h))) (saddr h).

(** ** Operations *)

Definition heap_validate_table (ptr end_ : Z) (tbl : heap_table) : Z :=
  let table_size := u32 (end_ - ptr) in
  let total_blocks := table_size / RORTHOX_HEAP_BLOCK_SIZE in
  if negb (total tbl =? total_blocks) then - EINVARG else 0.

Definition heap_validate_alignment (ptr : Z) : bool :=
  ptr mod RORTHOX_HEAP_BLOCK_SIZE =? 0.

(** [memset(table->entries, FREE, total)] overwrites the first [total] entries. *)
Definition heap_create (hp : heap) (ptr end_ : Z) (tbl : heap_table) : Z * heap :=
  if negb (heap_validate_alignment ptr) || negb (heap_validate_alignment end_)
  then (- EINVARG, hp)
  else
    let res := heap_validate_table ptr end_ tbl in
    if res <? 0 then (res, Heap tbl ptr)
    else
      let n := Z.to_nat (total tbl) in
      let es := replicate n HEAP_BLOCK_TABLE_ENTRY_FREE ++ drop n (entries tbl) in
      (res, Heap (HeapTable es (total tbl)) ptr).

Definition heap_align_value_to_upper (val : Z) : Z :=
  if val mod RORTHOX_HEAP_BLOCK_SIZE =? 0 then val
  else
    let val := u32 (val - val mod RORTHOX_HEAP_BLOCK_SIZE) in
    u32 (val + RORTHOX_HEAP_BLOCK_SIZE).

Definition heap_get_entry_type (entry : Z) : Z := Z.land entry 15.

(** The loop of [heap_get_start_block]: [i] is the index of the head of [es], [bc] and [bs] the
    length and start of the free run seen so far. *)
Fixpoint heap_scan (es : list Z) (i bc bs total_blocks : Z) : Z * Z :=
  match es with
  | [] => (bc, bs)
  | e :: es =>
    if negb (heap_get_entry_type e =? HEAP_BLOCK_TABLE_ENTRY_FREE)
    then heap_scan es (i + 1) 0 (-1) total_blocks
    else
      let bs := if bs =? -1 then i else bs in
      let bc := bc + 1 in
      if bc =? total_blocks then (bc, bs)
      else heap_scan es (i + 1) bc bs total_blocks
  end.

Definition heap_get_start_block (h : heap) (total_blocks : Z) : Z :=
  let es := take (Z.to_nat (total (table h))) (entries (table h)) in
  let '(bc, bs) := heap_scan es 0 0 (-1) total_blocks in
  if (bs =? -1) || negb (bc =? total_blocks) then - ENOMEM else bs.

Definition heap_block_to_address (h : heap) (block : Z) : Z :=
  u32 (saddr h + block * RORTHOX_HEAP_BLOCK_SIZE).

(** The loop of [heap_mark_blocks_taken], [n] iterations left at index [i]. *)
Fixpoint heap_mark_loop (n : nat) (i end_block entry : Z) (es : list Z) : list Z :=
  match n with
  | O => es
  | S n =>
    let es := <[Z.to_nat i := entry]> es in
    let entry := HEAP_BLOCK_TABLE_ENTRY_TAKEN in
    let entry := if negb (i =? end_block - 1) then Z.lor entry HEAP_BLOCK_HAS_NEXT else entry in
    heap_mark_loop n (i + 1) end_block entry es
  end.

Definition heap_mark_blocks_taken (h : heap) (start_block total_blocks : Z) : heap :=
  let end_block := start_block + total_blocks - 1 in
  let entry := Z.lor HEAP_BLOCK_TABLE_ENTRY_TAKEN HEAP_BLOCK_IS_FIRST in
  let entry := if 1 <? total_blocks then Z.lor entry HEAP_BLOCK_HAS_NEXT else entry in
  set_entries h
    (heap_mark_loop (Z.to_nat (end_block - start_block + 1)) start_block end_block entry
       (entries (table h))).

Definition heap_malloc_blocks (h : heap) (total_blocks : Z) : Z * heap :=
  let start_block := heap_get_start_block h total_blocks in
  if start_block <? 0 then (0, h)
  else (heap_block_to_address h start_block, heap_mark_blocks_taken h start_block total_blocks).

(** The loop of [heap_mark_blocks_free], at most [n] iterations, at index [i]. *)
Fixpoint heap_unmark_loop (n : nat) (i : Z) (es : list Z) : list Z :=
  match n with
  | O => es
  | S n =>
    let entry := es !!! Z.to_nat i in
    let es := <[Z.to_nat i := HEAP_BLOCK_TABLE_ENTRY_FREE]> es in
    if negb (has_flag entry HEAP_BLOCK_HAS_NEXT) then es else heap_unmark_loop n (i + 1) es
  end.

Definition heap_mark_blocks_free (h : heap) (starting_block : Z) : heap :=
  set_entries h
    (heap_unmark_loop (Z.to_nat (total (table h) - starting_block)) starting_block
       (entries (table h))).

Definition heap_malloc (h : heap) (size : Z) : Z * heap :=
  if UINT32_MAX - (RORTHOX_HEAP_BLOCK_SIZE - 1) <? size then (0, h)
  else
    let aligned_size := heap_align_value_to_upper size in
    let total_blocks := aligned_size / RORTHOX_HEAP_BLOCK_SIZE in
    if total_blocks =? 0 then (0, h) else heap_malloc_blocks h total_blocks.

Definition heap_free (h : heap) (ptr : Z) : heap :=
  if (ptr =? 0) || negb (heap_validate_alignment ptr) then h
  else if ptr <? saddr h then h
  else
    let block := (ptr - saddr h) / RORTHOX_HEAP_BLOCK_SIZE in
    if total (table h) <=? block then h
    else
      let entry := entries (table h) !!! Z.to_nat block in
      if negb (heap_get_entry_type entry =? HEAP_BLOCK_TABLE_ENTRY_TAKEN)
         || negb (has_flag entry HEAP_BLOCK_IS_FIRST)
      then h
      else heap_mark_blocks_free h block.

(** ** The kernel heap (kheap.c)

    [table_bytes] is what memory holds at the table address before [kheap_init]. *)
Definition kheap_init (hp : heap) (table_bytes : list Z) : Z * heap :=
  let total_table_entries := RORTHOX_HEAP_SIZE_BYTES / RORTHOX_HEAP_BLOCK_SIZE in
  let end_ := RORTHOX_HEAP_ADDRESS + RORTHOX_HEAP_SIZE_BYTES in
  heap_create hp RORTHOX_HEAP_ADDRESS end_ (HeapTable table_bytes total_table_entries).

Definition kernel_kmalloc (h : heap) (size : Z) : Z * heap := heap_malloc h size.
Definition kernel_kfree (h : heap) (ptr : Z) : heap := heap_free h ptr.

#[export] Instance heap_allocator : Allocator heap :=
  {| kmalloc := kernel_kmalloc; kfree := kernel_kfree |}.

(** ** The abstract allocator state *)

(** The table byte of block [k] of a run of [n] blocks. *)
Definition run_entry (n k : Z) : Z :=
  1 + (if k =? 0 then 64 else 0) + (if k =? n - 1 then 0 else 128).

(** Block [i] lies in the live run that starts at [b]. *)
Definition covers (L : gmap Z Z) (b i : Z) : Prop :=
  exists n, L !! b = Some n /\ b <= i < b + n.

Record heap_repr (h : heap) (L : gmap Z Z) : Prop := HeapRepr {
  repr_total : Z.of_nat (length (entries (table h))) = total (table h);
  repr_addr : 0 < saddr h /\ saddr h mod RORTHOX_HEAP_BLOCK_SIZE = 0 /\
              saddr h + total (table h) * RORTHOX_HEAP_BLOCK_SIZE <= 2 ^ 32 /\
              total (table h) < 2 ^ 31;
  repr_range b n : L !! b = Some n -> 0 <= b /\ 1 <= n /\ b + n <= total (table h);
  repr_disjoint b1 b2 i : covers L b1 i -> covers L b2 i -> b1 = b2;
  repr_taken b n k : L !! b = Some n -> 0 <= k < n ->
    entries (table h) !! Z.to_nat (b + k) = Some (run_entry n k);
  repr_free i : 0 <= i < total (table h) -> (forall b, ~ covers L b i) ->
    entries (table h) !! Z.to_nat i = Some 0
}.

(** A run of [n] blocks from [b] on is free. *)
Definition free_run (blocks : Z) (L : gmap Z Z) (b n : Z) : Prop :=
  0 <= b /\ b + n <= blocks /\ forall i b', b <= i < b + n -> ~ covers L b' i.

(** The abstract allocator: first fit on the map of live runs, and exact release. [base] is the
    address of block 0 and [blocks] the number of blocks. *)
Inductive malloc_spec (base blocks : Z) (L : gmap Z Z) (size : Z) : Z -> gmap Z Z -> Prop :=
| malloc_null :
    (size = 0 \/ forall b, ~ free_run blocks L b (blocks_for size)) ->
    malloc_spec base blocks L size 0 L
| malloc_run b :
    0 < size -> free_run blocks L b (blocks_for size) ->
    (forall b', 0 <= b' < b -> ~ free_run blocks L b' (blocks_for size)) ->
    malloc_spec base blocks L size (base + b * 4096) (<[b := blocks_for size]> L).

Inductive free_spec (base : Z) (L : gmap Z Z) (ptr : Z) : gmap Z Z -> Prop :=
| free_live b n : L !! b = Some n -> ptr = base + b * 4096 -> free_spec base L ptr (delete b L)
| free_other : (forall b n, L !! b = Some n -> ptr <> base + b * 4096) -> free_spec base L ptr L.

(** ** Covered and free blocks *)

Lemma covers_decide L i : (exists b, covers L b i) \/ (forall b, ~ covers L b i).
Proof.
  destruct (decide (map_Exists (fun b n => b <= i < b + n) L)) as [H|H].
  - left. destruct H as (b & n & Hb & Hi). exists b, n. done.
  - right. intros b (n & Hb & Hi). apply H. exists b, n. done.
Qed.

Lemma covers_insert L b n b' i :
  covers (<[b := n]> L) b' i <->
  (b' = b /\ b <= i < b + n) \/ (b' <> b /\ covers L b' i).
Proof.
  unfold covers. destruct (decide (b = b')) as [<-|Hne].
  - rewrite lookup_insert_eq. naive_solver.
  - rewrite lookup_insert_ne by done. naive_solver.
Qed.

Lemma covers_delete L b b' i :
  covers (delete b L) b' i <-> b' <> b /\ covers L b' i.
Proof.
  unfold covers. destruct (decide (b = b')) as [<-|Hne].
  - rewrite lookup_delete_eq. naive_solver.
  - rewrite lookup_delete_ne by done. naive_solver.
Qed.

Lemma run_entry_type n k : heap_get_entry_type (run_entry n k) = 1.
Proof. unfold run_entry, heap_get_entry_type. by repeat case_match. Qed.

Lemma run_entry_first n k : has_flag (run_entry n k) HEAP_BLOCK_IS_FIRST = (k =? 0).
Proof. unfold run_entry, has_flag. by repeat case_match. Qed.

Lemma run_entry_next n k : has_flag (run_entry n k) HEAP_BLOCK_HAS_NEXT = negb (k =? n - 1).
Proof. unfold run_entry, has_flag. by repeat case_match. Qed.

(** The low nibble of a table byte tells exactly whether the block is in a live run. *)
Lemma repr_type h L i e :
  heap_repr h L -> entries (table h) !! i = Some e ->
  (heap_get_entry_type e = 0 <-> forall b, ~ covers L b (Z.of_nat i)).
Proof.
  intros R He. pose proof (lookup_lt_Some _ _ _ He). pose proof (repr_total _ _ R).
  destruct (covers_decide L (Z.of_nat i)) as [(b & n & Hb & Hi)|Hfree].
  - pose proof (repr_taken _ _ R b n (Z.of_nat i - b) Hb ltac:(lia)) as Ht.
    replace (Z.to_nat _) with i in Ht by lia. rewrite He in Ht. injection Ht as ->.
    rewrite run_entry_type. split; [done|]. intros Hn. destruct (Hn b). by exists n.
  - pose proof (repr_free _ _ R (Z.of_nat i) ltac:(lia) Hfree) as Ht.
    rewrite Nat2Z.id, He in Ht. injection Ht as ->. done.
Qed.

(** ** The first-fit scan *)

Definition run_of (F : Z -> Prop) (b n : Z) : Prop := forall k, b <= k < b + n -> F k.

Lemma heap_scan_spec (F : Z -> Prop) n es : 0 < n -> forall i bc bs bc' bs',
  0 <= i ->
  (forall j e, es !! j = Some e -> heap_get_entry_type e = 0 <-> F (i + Z.of_nat j)) ->
  (bs = -1 /\ bc = 0 /\ (0 < i -> ~ F (i - 1)) \/
   0 < bc < n /\ bs = i - bc /\ 0 <= bs /\ run_of F bs bc /\ (0 < bs -> ~ F (bs - 1))) ->
  (forall b, 0 <= b -> b + n <= i -> ~ run_of F b n) ->
  heap_scan es i bc bs n = (bc', bs') ->
  (0 <= bs' /\ bc' = n /\ bs' + n <= i + Z.of_nat (length es) /\ run_of F bs' n /\
   forall b, 0 <= b < bs' -> ~ run_of F b n) \/
  (bc' <> n /\ forall b, 0 <= b -> b + n <= i + Z.of_nat (length es) -> ~ run_of F b n).
Proof.
  intros Hn. induction es as [|e es IH]; intros i bc bs bc' bs' Hi HF Hst Hno Hs; simpl in Hs.
  { injection Hs as <- <-. right. split; [lia|]. intros b ??. apply Hno; simpl in *; lia. }
  pose proof (HF 0%nat e eq_refl) as He. rewrite Z.add_0_r in He.
  assert (HF' : forall j x, es !! j = Some x ->
            heap_get_entry_type x = 0 <-> F (i + 1 + Z.of_nat j)).
  { intros j x Hj. rewrite (HF (S j) x Hj).
    by replace (i + Z.of_nat (S j)) with (i + 1 + Z.of_nat j) by lia. }
  simpl length. replace (i + Z.of_nat (S (length es))) with (i + 1 + Z.of_nat (length es)) by lia.
  destruct (Z.eqb_spec (heap_get_entry_type e) HEAP_BLOCK_TABLE_ENTRY_FREE) as [Hf|Hf];
    simpl in Hs; unfold HEAP_BLOCK_TABLE_ENTRY_FREE in Hf.
  - apply He in Hf.
    set (bs0 := if bs =? -1 then i else bs) in *.
    assert (Hbs0 : 0 <= bs0 /\ bs0 = i - bc /\ 0 <= bc < n /\ run_of F bs0 (bc + 1) /\
                   (0 < bs0 -> ~ F (bs0 - 1))).
    { subst bs0. destruct Hst as [(-> & -> & Hp)|(Hb & -> & Hb0 & Hr & Hp)].
      - simpl. split_and!; try lia; [|done]. intros k Hk. by replace k with i by lia.
      - destruct (Z.eqb_spec (i - bc) (-1)); [lia|]. split_and!; try lia; [|done].
        intros k Hk. destruct (Z.eq_dec k i) as [->|]; [done|]. apply Hr. lia. }
    clearbody bs0. clear Hst. destruct Hbs0 as (Hb0 & Hbs & Hbc & Hr & Hp).
    assert (Hmax : forall b, 0 <= b < bs0 -> i + 1 <= b + n -> ~ run_of F b n).
    { intros b Hb Hbn Hrun. apply Hp; [lia|]. apply Hrun. lia. }
    destruct (Z.eqb_spec (bc + 1) n) as [<-|Hne].
    + injection Hs as <- <-. left. split_and!; try lia; [done|].
      intros b Hb. destruct (Z.le_gt_cases (b + (bc + 1)) i); [apply Hno; lia|apply Hmax; lia].
    + eapply (IH (i + 1)); [lia|exact HF'| |..|exact Hs].
      * right. split_and!; try lia; done.
      * intros b Hb Hbn. destruct (Z.le_gt_cases (b + n) i); [apply Hno; lia|apply Hmax; lia].
  - assert (HnF : ~ F i) by (by rewrite <- He).
    eapply (IH (i + 1)); [lia|exact HF'| |..|exact Hs].
    * left. split_and!; [done..|]. by replace (i + 1 - 1) with i by lia.
    * intros b Hb Hbn Hrun. destruct (Z.le_gt_cases (b + n) i); [by eapply (Hno b)|].
      apply HnF, Hrun. lia.
Qed.

Lemma start_block_spec h L n :
  heap_repr h L -> 0 < n ->
  (exists b, heap_get_start_block h n = b /\ free_run (total (table h)) L b n /\
     forall b', 0 <= b' < b -> ~ free_run (total (table h)) L b' n) \/
  (heap_get_start_block h n = - ENOMEM /\ forall b, ~ free_run (total (table h)) L b n).
Proof.
  intros R Hn. unfold heap_get_start_block. pose proof (repr_total _ _ R) as Ht.
  rewrite take_ge by lia.
  destruct (heap_scan _ _ _ _ _) as [bc bs] eqn:Hs.
  apply (heap_scan_spec (fun i => forall b, ~ covers L b i)) in Hs; try lia.
  - destruct Hs as [(Hb & -> & Hl & Hr & Hf)|(Hbc & Hf)].
    + left. exists bs. rewrite Z.eqb_refl. destruct (Z.eqb_spec bs (-1)); [lia|].
      split_and!; [done|split_and!; [lia|lia|]|].
      * intros i b' Hi. by apply Hr.
      * intros b' Hb' (Hf1 & Hf2 & Hf3). apply (Hf b'); [lia|]. intros k Hk b''. by apply Hf3.
    + right. rewrite (proj2 (Z.eqb_neq bc n) Hbc), orb_true_r. split; [done|].
      intros b (Hf1 & Hf2 & Hf3). apply (Hf b); [lia|lia|]. intros k Hk b''. by apply Hf3.
  - intros j e Hj. simpl. by apply (repr_type h).
Qed.

(** ** Marking and unmarking runs *)

Lemma heap_mark_loop_length m i e entry es :
  length (heap_mark_loop m i e entry es) = length es.
Proof.
  revert i entry es. induction m as [|m IH]; intros; simpl; [done|].
  by rewrite IH, length_insert.
Qed.

Lemma heap_mark_loop_lookup m : forall i e entry es j,
  0 <= i -> e = i + Z.of_nat m - 1 -> i + Z.of_nat m <= Z.of_nat (length es) ->
  heap_mark_loop m i e entry es !! j =
  if decide (i <= Z.of_nat j < i + Z.of_nat m)
  then Some (if Z.of_nat j =? i then entry else if Z.of_nat j =? e then 1 else 129)
  else es !! j.
Proof.
  induction m as [|m IH]; intros i e entry es j Hi He Hl; simpl.
  { rewrite decide_False by lia. done. }
  rewrite IH; [|lia|lia|rewrite length_insert; lia].
  destruct (decide (i <= Z.of_nat j < i + Z.of_nat (S m))) as [Hj|Hj].
  - destruct (Z.eqb_spec (Z.of_nat j) i) as [Hji|Hji].
    + rewrite decide_False by lia. replace (Z.to_nat i) with j by lia.
      rewrite list_lookup_insert_eq by lia. done.
    + rewrite decide_True by lia. f_equal.
      destruct (Z.eqb_spec (Z.of_nat j) (i + 1)) as [Hj1|Hj1]; [|done].
      destruct (Z.eqb_spec i (e - 1)), (Z.eqb_spec (Z.of_nat j) e); try lia; done.
  - rewrite decide_False by lia. rewrite list_lookup_insert_ne by lia. done.
Qed.

Lemma mark_taken_lookup h b n j :
  0 <= b -> 0 < n -> b + n <= Z.of_nat (length (entries (table h))) ->
  entries (table (heap_mark_blocks_taken h b n)) !! j =
  if decide (b <= Z.of_nat j < b + n) then Some (run_entry n (Z.of_nat j - b))
  else entries (table h) !! j.
Proof.
  intros Hb Hn Hl. unfold heap_mark_blocks_taken. cbn [entries table set_entries].
  rewrite heap_mark_loop_lookup by lia.
  replace (b + Z.of_nat (Z.to_nat (b + n - 1 - b + 1))) with (b + n) by lia.
  case_decide as Hj; [|done]. f_equal. unfold run_entry.
  destruct (Z.eqb_spec (Z.of_nat j) b), (Z.eqb_spec (Z.of_nat j - b) 0),
    (Z.eqb_spec (Z.of_nat j - b) (n - 1)), (Z.eqb_spec (Z.of_nat j) (b + n - 1)),
    (Z.ltb_spec 1 n); try lia; done.
Qed.

Lemma heap_unmark_loop_length m i es : length (heap_unmark_loop m i es) = length es.
Proof.
  revert i es. induction m as [|m IH]; intros; simpl; [done|].
  case_match; [by rewrite length_insert|by rewrite IH, length_insert].
Qed.

(** Unmarking from block [i] of a run that starts at [b] clears the rest of the run. *)
Lemma heap_unmark_loop_lookup m : forall i b n es j,
  0 <= b <= i -> i < b + n -> b + n <= i + Z.of_nat m ->
  (forall k, i - b <= k < n -> es !! Z.to_nat (b + k) = Some (run_entry n k)) ->
  heap_unmark_loop m i es !! j =
  if decide (i <= Z.of_nat j < b + n) then Some 0 else es !! j.
Proof.
  induction m as [|m IH]; intros i b n es j Hb Hi Hm Hes; [lia|]. simpl.
  pose proof (Hes (i - b) ltac:(lia)) as Hei. replace (b + (i - b)) with i in Hei by lia.
  rewrite (list_lookup_total_correct _ _ _ Hei), run_entry_next, negb_involutive.
  pose proof (lookup_lt_Some _ _ _ Hei).
  destruct (Z.eqb_spec (i - b) (n - 1)) as [Hlast|Hlast].
  - case_decide; [|rewrite list_lookup_insert_ne by lia; done].
    replace (Z.to_nat i) with j by lia. by rewrite list_lookup_insert_eq by lia.
  - rewrite (IH (i + 1) b n) by
      (try lia; intros k Hk; rewrite list_lookup_insert_ne by lia; apply Hes; lia).
    case_decide; [by rewrite decide_True by lia|]. case_decide.
    + replace (Z.to_nat i) with j by lia. by rewrite list_lookup_insert_eq by lia.
    + by rewrite list_lookup_insert_ne by lia.
Qed.

(** ** The block operations on the abstract state *)

Lemma mark_taken_repr h L b n :
  heap_repr h L -> 0 < n -> free_run (total (table h)) L b n ->
  heap_repr (heap_mark_blocks_taken h b n) (<[b := n]> L).
Proof.
  intros R Hn (Hb & Hbn & Hfree). pose proof (repr_total _ _ R) as Ht.
  pose proof (fun j => mark_taken_lookup h b n j Hb Hn ltac:(lia)) as Hlk.
  constructor.
  - unfold heap_mark_blocks_taken. simpl. by rewrite heap_mark_loop_length.
  - apply (repr_addr _ _ R).
  - intros b' n' Hb'. simpl. destruct (decide (b = b')) as [<-|Hne].
    + rewrite lookup_insert_eq in Hb'. injection Hb' as <-. lia.
    + rewrite lookup_insert_ne in Hb' by done. by apply (repr_range _ _ R).
  - intros b1 b2 i. rewrite !covers_insert.
    intros [(-> & Hi)|(H1 & H1')] [(-> & Hi2)|(H2 & H2')]; try done.
    + by destruct (Hfree i b2 Hi).
    + by destruct (Hfree i b1 Hi2).
    + by eapply (repr_disjoint _ _ R).
  - intros b' n' k Hb' Hk. rewrite Hlk. destruct (decide (b = b')) as [<-|Hne].
    + rewrite lookup_insert_eq in Hb'. injection Hb' as <-.
      rewrite decide_True by lia. do 2 f_equal. lia.
    + rewrite lookup_insert_ne in Hb' by done.
      pose proof (repr_range _ _ R _ _ Hb').
      rewrite decide_False; [by apply (repr_taken _ _ R)|].
      intros Hin. apply (Hfree (b' + k) b'); [lia|]. exists n'. split; [done|lia].
  - intros i Hi Hno. rewrite Hlk. rewrite decide_False.
    + apply (repr_free _ _ R); [done|]. intros b' Hc. apply (Hno b').
      apply covers_insert. right. split; [|done]. intros ->.
      destruct (Hno b). apply covers_insert. destruct Hc as (n' & Hc1 & Hc2).
      exfalso. apply (Hfree b b); [lia|]. exists n'. split; [done|lia].
    + intros Hin. apply (Hno b), covers_insert. left. lia.
Qed.

Lemma mark_free_lookup h L b n j :
  heap_repr h L -> L !! b = Some n ->
  entries (table (heap_mark_blocks_free h b)) !! j =
  if decide (b <= Z.of_nat j < b + n) then Some 0 else entries (table h) !! j.
Proof.
  intros R Hb. pose proof (repr_range _ _ R _ _ Hb). pose proof (repr_total _ _ R).
  unfold heap_mark_blocks_free. cbn [entries table set_entries].
  apply heap_unmark_loop_lookup; try lia. intros k Hk. apply (repr_taken _ _ R); [done|lia].
Qed.

Lemma mark_free_repr h L b n :
  heap_repr h L -> L !! b = Some n -> heap_repr (heap_mark_blocks_free h b) (delete b L).
Proof.
  intros R Hb. pose proof (fun j => mark_free_lookup h L b n j R Hb) as Hlk.
  pose proof (repr_range _ _ R _ _ Hb).
  constructor.
  - unfold heap_mark_blocks_free. simpl. rewrite heap_unmark_loop_length. apply (repr_total _ _ R).
  - apply (repr_addr _ _ R).
  - intros b' n' [_ Hb']%lookup_delete_Some. by apply (repr_range _ _ R).
  - intros b1 b2 i. rewrite !covers_delete. intros [_ ?] [_ ?]. by eapply (repr_disjoint _ _ R).
  - intros b' n' k [Hne Hb']%lookup_delete_Some Hk. rewrite Hlk.
    pose proof (repr_range _ _ R _ _ Hb').
    rewrite decide_False; [by apply (repr_taken _ _ R)|]. intros Hin. apply Hne.
    apply (repr_disjoint _ _ R b b' (b' + k)); [exists n|exists n']; split; (done || lia).
  - intros i Hi Hno. rewrite Hlk. case_decide as Hin; [done|].
    apply (repr_free _ _ R); [done|]. intros b' Hc. apply (Hno b'), covers_delete.
    split; [|done]. intros ->. destruct Hc as (n' & Hc & ?). simplify_eq. lia.
Qed.

(** The table byte at [b] carries the [IS_FIRST] flag of a taken block exactly when a live run
    starts there. *)
Lemma first_entry_iff h L b e :
  heap_repr h L -> 0 <= b -> entries (table h) !! Z.to_nat b = Some e ->
  (heap_get_entry_type e = 1 /\ has_flag e HEAP_BLOCK_IS_FIRST = true <-> is_Some (L !! b)).
Proof.
  intros R Hb He. pose proof (lookup_lt_Some _ _ _ He). pose proof (repr_total _ _ R).
  destruct (covers_decide L b) as [(b' & n & Hb' & Hin)|Hno].
  - pose proof (repr_taken _ _ R b' n (b - b') Hb' ltac:(lia)) as Ht.
    replace (b' + (b - b')) with b in Ht by lia. rewrite He in Ht. injection Ht as ->.
    rewrite run_entry_type, run_entry_first. split.
    + intros [_ ?]. replace b' with b in Hb' by lia. by exists n.
    + intros [n' Hn']. split; [done|]. pose proof (repr_range _ _ R _ _ Hn').
      rewrite (repr_disjoint _ _ R b' b b); [lia|by exists n|exists n'; split; [done|lia]].
  - pose proof (repr_free _ _ R b ltac:(lia) Hno) as Ht. rewrite He in Ht. injection Ht as ->.
    split; [intros [? _]; done|]. intros [n Hn]. pose proof (repr_range _ _ R _ _ Hn).
    destruct (Hno b). exists n. split; [done|lia].
Qed.

(** ** Allocation, release and their composition *)

Lemma heap_align_blocks size :
  0 <= size <= UINT32_MAX - 4095 ->
  heap_align_value_to_upper size / RORTHOX_HEAP_BLOCK_SIZE = blocks_for size.
Proof.
  unfold heap_align_value_to_upper, RORTHOX_HEAP_BLOCK_SIZE, UINT32_MAX, blocks_for. intros.
  destruct (Z.eqb_spec (size mod 4096) 0).
  - lia.
  - rewrite (u32_small (size - size mod 4096)), u32_small by lia. lia.
Qed.

Lemma free_run_bound h L b n : heap_repr h L -> free_run (total (table h)) L b n -> n < 2 ^ 20.
Proof.
  intros R (? & ? & _). pose proof (repr_addr _ _ R). unfold RORTHOX_HEAP_BLOCK_SIZE in *. lia.
Qed.

Lemma block_address h L b n :
  heap_repr h L -> 0 <= b -> 0 < n -> b + n <= total (table h) ->
  heap_block_to_address h b = saddr h + b * 4096.
Proof.
  intros R ???. pose proof (repr_addr _ _ R). unfold heap_block_to_address.
  unfold RORTHOX_HEAP_BLOCK_SIZE in *. rewrite u32_small; lia.
Qed.

Lemma heap_malloc_spec h L size p h' :
  heap_repr h L -> 0 <= size < 2 ^ 32 -> heap_malloc h size = (p, h') ->
  (p = 0 /\ h' = h /\ (size = 0 \/ forall b, ~ free_run (total (table h)) L b (blocks_for size))) \/
  (exists b, p = saddr h + b * 4096 /\ 0 < size /\ free_run (total (table h)) L b (blocks_for size) /\
     (forall b', 0 <= b' < b -> ~ free_run (total (table h)) L b' (blocks_for size)) /\
     h' = heap_mark_blocks_taken h b (blocks_for size) /\
     heap_repr h' (<[b := blocks_for size]> L)).
Proof.
  intros R Hs Hm. unfold heap_malloc in Hm.
  destruct (Z.ltb_spec (UINT32_MAX - (RORTHOX_HEAP_BLOCK_SIZE - 1)) size) as [Hbig|Hbig].
  { injection Hm as <- <-. left. split_and!; [done..|]. right. intros b Hf.
    apply (free_run_bound _ _ _ _ R) in Hf. unfold blocks_for, UINT32_MAX,
      RORTHOX_HEAP_BLOCK_SIZE in *. lia. }
  rewrite heap_align_blocks in Hm by (unfold UINT32_MAX, RORTHOX_HEAP_BLOCK_SIZE in *; lia).
  destruct (Z.eqb_spec (blocks_for size) 0) as [H0|H0].
  { injection Hm as <- <-. left. split_and!; [done..|]. left. unfold blocks_for in H0. lia. }
  assert (Hn : 0 < blocks_for size /\ 0 < size) by (unfold blocks_for in *; lia).
  unfold heap_malloc_blocks in Hm.
  destruct (start_block_spec h L (blocks_for size) R ltac:(lia)) as
    [(b & Hb & Hf & Hfirst)|(Hb & Hno)]; rewrite Hb in Hm.
  - pose proof Hf as (Hb0 & Hbn & _). rewrite (proj2 (Z.ltb_ge b 0) Hb0) in Hm.
    injection Hm as <- <-. right. exists b.
    rewrite (block_address h L b (blocks_for size)) by (done || lia).
    split; [done|]. split; [lia|]. split; [done|]. split; [done|]. split; [done|].
    apply mark_taken_repr; (done || lia).
  - injection Hm as <- <-. left. split_and!; [done..|]. by right.
Qed.

Lemma heap_free_live h L b n :
  heap_repr h L -> L !! b = Some n ->
  heap_free h (saddr h + b * 4096) = heap_mark_blocks_free h b.
Proof.
  intros R Hb. pose proof (repr_range _ _ R _ _ Hb). pose proof (repr_addr _ _ R) as Ha.
  pose proof (repr_taken _ _ R b n 0 Hb ltac:(lia)) as He. rewrite Z.add_0_r in He.
  unfold heap_free, heap_validate_alignment. unfold RORTHOX_HEAP_BLOCK_SIZE in *.
  replace ((saddr h + b * 4096 - saddr h) / 4096) with b by lia.
  rewrite (list_lookup_total_correct _ _ _ He), run_entry_type, run_entry_first.
  destruct (Z.eqb_spec (saddr h + b * 4096) 0); [lia|].
  destruct (Z.eqb_spec ((saddr h + b * 4096) mod 4096) 0); [|lia].
  destruct (Z.ltb_spec (saddr h + b * 4096) (saddr h)); [lia|].
  destruct (Z.leb_spec (total (table h)) b); [lia|]. done.
Qed.

Lemma heap_free_other h L ptr :
  heap_repr h L -> (forall b n, L !! b = Some n -> ptr <> saddr h + b * 4096) ->
  heap_free h ptr = h.
Proof.
  intros R Hno. pose proof (repr_addr _ _ R) as Ha. pose proof (repr_total _ _ R) as Ht.
  unfold heap_free, heap_validate_alignment. unfold RORTHOX_HEAP_BLOCK_SIZE in *.
  destruct (Z.eqb_spec ptr 0); [done|].
  destruct (Z.eqb_spec (ptr mod 4096) 0) as [Hal|]; [|done].
  destruct (Z.ltb_spec ptr (saddr h)) as [|Hge]; [done|]. simpl.
  set (b := (ptr - saddr h) / 4096).
  assert (Hb : 0 <= b /\ ptr = saddr h + b * 4096) by (subst b; lia).
  destruct (Z.leb_spec (total (table h)) b) as [|Hlt]; [done|].
  destruct (lookup_lt_is_Some_2 (entries (table h)) (Z.to_nat b) ltac:(lia)) as [e He].
  rewrite (list_lookup_total_correct _ _ _ He). unfold HEAP_BLOCK_TABLE_ENTRY_TAKEN.
  destruct (Z.eqb_spec (heap_get_entry_type e) 1) as [Hty|]; [|done].
  destruct (has_flag e HEAP_BLOCK_IS_FIRST) eqn:Hfl; [|done].
  destruct (proj1 (first_entry_iff h L b e R ltac:(lia) He) (conj Hty Hfl)) as [n' Hn].
  exfalso. apply (Hno b n' Hn). lia.
Qed.

(** The table is determined by the live allocations. *)
Lemma heap_repr_functional h1 h2 L :
  heap_repr h1 L -> heap_repr h2 L -> saddr h1 = saddr h2 ->
  total (table h1) = total (table h2) -> h1 = h2.
Proof.
  intros R1 R2 Hs Ht.
  assert (He : entries (table h1) = entries (table h2)).
  { apply list_eq. intros j. pose proof (repr_total _ _ R1). pose proof (repr_total _ _ R2).
    destruct (decide (Z.of_nat j < total (table h1))) as [Hj|Hj].
    - destruct (covers_decide L (Z.of_nat j)) as [(b & n & Hb & Hin)|Hno].
      + pose proof (repr_taken _ _ R1 b n (Z.of_nat j - b) Hb ltac:(lia)) as E1.
        pose proof (repr_taken _ _ R2 b n (Z.of_nat j - b) Hb ltac:(lia)) as E2.
        replace (Z.to_nat (b + (Z.of_nat j - b))) with j in * by lia. congruence.
      + pose proof (repr_free _ _ R1 (Z.of_nat j) ltac:(lia) Hno) as E1.
        pose proof (repr_free _ _ R2 (Z.of_nat j) ltac:(lia) Hno) as E2.
        rewrite Nat2Z.id in *. congruence.
    - rewrite !lookup_ge_None_2 by lia. done. }
  destruct h1 as [[e1 t1] s1], h2 as [[e2 t2] s2]. simpl in *. congruence.
Qed.

(** The set of blocks covered by live runs, and its size. *)
Definition covered (L : gmap Z Z) : gset Z :=
  map_fold (fun b n s => list_to_set (seqZ b n) ∪ s) ∅ L.

Lemma covered_insert L b n :
  L !! b = None -> covered (<[b := n]> L) = list_to_set (seqZ b n) ∪ covered L.
Proof.
  intros Hb. unfold covered. rewrite map_fold_insert_L; [done|set_solver|done].
Qed.

Lemma elem_of_covered L i : i ∈ covered L <-> exists b, covers L b i.
Proof.
  induction L as [|b n L Hb IH] using map_ind.
  - split; [unfold covered; rewrite map_fold_empty; set_solver|]. intros (b & n & Hb & _). by rewrite lookup_empty in Hb.
  - rewrite covered_insert, elem_of_union, IH, elem_of_list_to_set, elem_of_seqZ by done.
    setoid_rewrite covers_insert. split.
    + intros [Hi|[b' Hb']]; [exists b; by left|]. exists b'. right. split; [|done].
      intros ->. destruct Hb' as (? & ? & _). congruence.
    + intros (b' & [(-> & Hi)|(_ & Hc)]); [by left|right; eauto].
Qed.

Lemma covered_size L :
  (forall b n, L !! b = Some n -> 0 <= n) -> Z.of_nat (size (covered L)) <= used L.
Proof.
  induction L as [|b n L Hb IH] using map_ind; intros Hpos; [done|].
  rewrite covered_insert, used_insert by done.
  assert (Hn : 0 <= n) by (apply (Hpos b), lookup_insert_eq).
  assert (IH' : Z.of_nat (size (covered L)) <= used L).
  { apply IH. intros b' n' Hb'. apply (Hpos b'). rewrite lookup_insert_ne; congruence. }
  pose proof (size_union_alt (list_to_set (C := gset Z) (seqZ b n)) (covered L)) as Hu.
  assert (size (covered L ∖ list_to_set (seqZ b n)) <= size (covered L))%nat
    by (apply subseteq_size; set_solver).
  assert (size (list_to_set (C := gset Z) (seqZ b n)) <= Z.to_nat n)%nat; [|lia].
  rewrite size_list_to_set by apply NoDup_seqZ. by rewrite length_seqZ.
Qed.

(** A block is free as long as fewer blocks are in use than the table has. *)
Lemma free_block_exists h L :
  heap_repr h L -> used L < total (table h) -> exists b, free_run (total (table h)) L b 1.
Proof.
  intros R Hu.
  destruct (decide (list_to_set (seqZ 0 (total (table h))) ⊆ covered L)) as [Hs|Hs].
  - apply subseteq_size in Hs. rewrite size_list_to_set, length_seqZ in Hs by apply NoDup_seqZ.
    assert (Z.of_nat (size (covered L)) <= used L).
    { apply covered_size. intros b n Hb. pose proof (repr_range _ _ R _ _ Hb). lia. }
    pose proof (repr_total _ _ R). lia.
  - assert (exists i, i ∈ list_to_set (C := gset Z) (seqZ 0 (total (table h))) ∖ covered L)
      as [i Hi].
    { apply set_choose_L. intros Hempty. apply Hs. set_solver. }
    apply elem_of_difference in Hi as [Hi Hc]. apply elem_of_list_to_set, elem_of_seqZ in Hi.
    exists i. split_and!; [lia..|]. intros j b Hj Hcov. apply Hc, elem_of_covered.
    exists b. by replace i with j by lia.
Qed.

(** ** The heap implements the allocator interface *)

Definition block_addr (h : heap) (b : Z) : Z := saddr h + b * 4096.

#[export] Instance block_addr_inj h : Inj (=) (=) (block_addr h).
Proof. intros b1 b2. unfold block_addr. lia. Qed.

Definition heap_live (h : heap) (A : gmap Z Z) : Prop :=
  exists L, heap_repr h L /\ A = kmap (block_addr h) L.

Lemma heap_malloc_geometry h size :
  saddr (snd (heap_malloc h size)) = saddr h /\
  total (table (snd (heap_malloc h size))) = total (table h).
Proof. unfold heap_malloc, heap_malloc_blocks. by repeat case_match. Qed.

Lemma heap_free_geometry h p :
  saddr (heap_free h p) = saddr h /\ total (table (heap_free h p)) = total (table h).
Proof. unfold heap_free. by repeat case_match. Qed.

Lemma used_kmap (f : Z -> Z) `{!Inj (=) (=) f} (L : gmap Z Z) :
  used (kmap f L : gmap Z Z) = used L.
Proof.
  induction L as [|b n L Hb IH] using map_ind; [by rewrite kmap_empty|].
  rewrite kmap_insert by done.
  rewrite !used_insert; [by rewrite IH|done|by rewrite (lookup_kmap f)].
Qed.

Lemma live_lookup h (L : gmap Z Z) p n :
  (kmap (block_addr h) L : gmap Z Z) !! p = Some n <-> exists b, p = block_addr h b /\ L !! b = Some n.
Proof. apply lookup_kmap_Some, _. Qed.

Lemma repr_apart h L b n b' n' :
  heap_repr h L -> L !! b = Some n -> L !! b' = Some n' -> b <> b' ->
  b + n <= b' \/ b' + n' <= b.
Proof.
  intros R Hb Hb' Hne. pose proof (repr_range _ _ R _ _ Hb). pose proof (repr_range _ _ R _ _ Hb').
  destruct (Z.le_gt_cases (b + n) b'); [by left|]. destruct (Z.le_gt_cases (b' + n') b); [by right|].
  destruct Hne. apply (repr_disjoint _ _ R b b' (Z.max b b'));
    [exists n|exists n']; split; (done || lia).
Qed.

Lemma heap_live_malloc h A sz p h' :
  heap_live h A -> 0 <= sz < 2 ^ 32 -> heap_malloc h sz = (p, h') ->
  (p = 0 /\ h' = h) \/
  (0 < sz /\ fresh_run A p (blocks_for sz) /\ heap_live h' (<[p := blocks_for sz]> A)).
Proof.
  intros (L & R & ->) Hs Hm. pose proof (repr_addr _ _ R) as Ha.
  pose proof (heap_malloc_geometry h sz) as [Hg _]. rewrite Hm in Hg. simpl in Hg.
  destruct (heap_malloc_spec _ _ _ _ _ R Hs Hm)
    as [(-> & -> & _)|(b & -> & Hpos & Hf & _ & _ & R')]; [by left|right].
  assert (1 <= blocks_for sz) by (unfold blocks_for; lia).
  destruct Hf as (Hb & Hbn & Hf). unfold RORTHOX_HEAP_BLOCK_SIZE in *.
  split; [done|]. split.
  - split_and!; try lia. intros q m (b' & -> & Hb')%live_lookup.
    pose proof (repr_range _ _ R _ _ Hb'). unfold apart, block_addr.
    destruct (Z.le_gt_cases (b + blocks_for sz) b'); [lia|].
    destruct (Z.le_gt_cases (b' + m) b); [lia|].
    destruct (Hf (Z.max b b') b'); [lia|]. exists m. split; [done|lia].
  - exists (<[b := blocks_for sz]> L). split; [done|].
    rewrite kmap_insert by apply _. unfold block_addr. by rewrite Hg.
Qed.

(** The table determines the runs. *)
Lemma heap_repr_runs h L1 L2 b n : heap_repr h L1 -> heap_repr h L2 -> L1 !! b = Some n -> L2 !! b = Some n.
Proof.
  intros R1 R2 Hb. pose proof (repr_range _ _ R1 _ _ Hb) as Hr.
  assert (Hb2 : exists m, L2 !! b = Some m).
  { pose proof (repr_taken _ _ R1 b n 0 Hb ltac:(lia)) as E1. rewrite Z.add_0_r in E1.
    destruct (covers_decide L2 b) as [(b' & m & Hb' & Hin)|Hno].
    - pose proof (repr_taken _ _ R2 b' m (b - b') Hb' ltac:(lia)) as E2. replace (b' + (b - b')) with b in E2 by lia.
      rewrite E1 in E2. injection E2 as E2. unfold run_entry in E2. replace b with b'; [eauto|].
      destruct (Z.eqb_spec (b - b') 0); [lia|]. change (0 =? 0) with true in E2. cbv iota in E2.
      destruct (0 =? n - 1), (b - b' =? m - 1); lia.
    - pose proof (repr_free _ _ R2 b ltac:(lia) Hno) as E2. rewrite E1 in E2. injection E2 as E2. unfold run_entry in E2.
      change (0 =? 0) with true in E2. cbv iota in E2. destruct (0 =? n - 1); lia. }
  destruct Hb2 as [m Hm]. pose proof (repr_range _ _ R2 _ _ Hm) as Hr2. rewrite Hm. f_equal.
  assert (Hend : forall L L' n m, heap_repr h L -> heap_repr h L' -> L !! b = Some n -> L' !! b = Some m -> 1 <= n -> ~ n < m).
  { intros L L' n' m' R R' Hn' Hm' H1 Hlt. pose proof (repr_taken _ _ R b n' (n' - 1) Hn' ltac:(lia)) as E1.
    pose proof (repr_taken _ _ R' b m' (n' - 1) Hm' ltac:(lia)) as E2. rewrite E1 in E2. injection E2 as E2. unfold run_entry in E2.
    rewrite Z.eqb_refl, (proj2 (Z.eqb_neq (n' - 1) (m' - 1))) in E2 by lia. destruct (n' - 1 =? 0); lia. }
  pose proof (Hend L1 L2 n m R1 R2 Hb Hm ltac:(lia)). pose proof (Hend L2 L1 m n R2 R1 Hm Hb ltac:(lia)). lia.
Qed.

#[export] Instance heap_allocator_laws : AllocatorLaws heap.
Proof.
  refine {| live := heap_live; arena h := (saddr h, total (table h));
            capacity h := total (table h) |}; simpl; unfold kernel_kmalloc, kernel_kfree.
  - intros h sz. destruct (heap_malloc_geometry h sz) as [-> ->]. done.
  - intros h p. destruct (heap_free_geometry h p) as [-> ->]. done.
  - congruence.
  - intros h A p n (L & R & ->) (b & -> & Hb)%live_lookup.
    pose proof (repr_range _ _ R _ _ Hb). pose proof (repr_addr _ _ R).
    unfold block_addr, RORTHOX_HEAP_BLOCK_SIZE in *. lia.
  - intros h A p n q m (L & R & ->) (b & -> & Hb)%live_lookup (b' & -> & Hb')%live_lookup Hne.
    destruct (repr_apart h L b n b' m R Hb Hb'); [congruence|..]; unfold apart, block_addr; lia.
  - apply heap_live_malloc.
  - intros h A sz (L & R & ->) Hs Hu. rewrite used_kmap in Hu by apply _.
    destruct (free_block_exists h L R Hu) as [b Hf].
    destruct (heap_malloc h sz) as [p h'] eqn:Hm. simpl.
    assert (Hbl : blocks_for sz = 1) by (unfold blocks_for; lia).
    pose proof (repr_addr _ _ R).
    destruct (heap_malloc_spec h L sz p h' R ltac:(lia) Hm) as
      [(_ & _ & [Hz|Hno])|(b' & -> & _ & (? & _) & _)]; [lia| |lia].
    rewrite Hbl in Hno. by destruct (Hno b).
  - intros h A p n (L & R & ->) (b & -> & Hb)%live_lookup.
    assert (heap_free h (block_addr h b) = heap_mark_blocks_free h b) as ->
      by apply (heap_free_live _ _ _ _ R Hb).
    exists (delete b L). split; [by apply (mark_free_repr _ _ _ n)|].
    change (block_addr (heap_mark_blocks_free h b)) with (block_addr h).
    by rewrite kmap_delete by apply _.
  - intros h A p (L & R & ->) Hp. apply (heap_free_other h L); [done|].
    intros b n Hb ->. change (saddr h + b * 4096) with (block_addr h b) in Hp.
    rewrite lookup_kmap in Hp by apply _. congruence.
  - intros h1 h2 A (L1 & R1 & ->) (L2 & R2 & HL) [= Hs Ht].
    assert (block_addr h1 = block_addr h2) as Hba by (unfold block_addr; by rewrite Hs).
    assert (L1 = L2) as ->.
    { apply map_eq. intros b. rewrite <- (lookup_kmap (block_addr h1) L1 b), HL, Hba.
      apply lookup_kmap, _. }
    by apply (heap_repr_functional h1 h2 L2).
  - intros h A B (L1 & R1 & ->) (L2 & R2 & ->). f_equal. apply map_eq. intros b.
    destruct (L1 !! b) as [n|] eqn:E1; [by rewrite (heap_repr_runs h L1 L2 b n)|].
    destruct (L2 !! b) as [n|] eqn:E2; [|done]. by rewrite (heap_repr_runs h L2 L1 b n) in E1.
  - intros h A p n (L & R & ->) (b & -> & Hb)%live_lookup. pose proof (repr_range _ _ R _ _ Hb). unfold block_addr. lia.
Defined.

(** ** Creation, and every sequence of operations *)

Inductive heap_op := Malloc (size : Z) | Free (ptr : Z).

Definition heap_run_op (h : heap) (op : heap_op) : heap :=
  match op with
  | Malloc size => snd (heap_malloc h size)
  | Free ptr => heap_free h ptr
  end.

(** Sizes and pointers are 32-bit unsigned values. *)
Definition heap_op_ok (op : heap_op) : Prop :=
  match op with
  | Malloc size => 0 <= size < 2 ^ 32
  | Free ptr => 0 <= ptr < 2 ^ 32
  end.

Lemma empty_repr n base es :
  0 < base -> base mod 4096 = 0 -> base + n * 4096 <= 2 ^ 32 -> 0 <= n < 2 ^ 31 ->
  es = replicate (Z.to_nat n) 0 -> heap_repr (Heap (HeapTable es n) base) ∅.
Proof.
  intros Hb Hal Hend Hn ->. constructor; simpl.
  - rewrite length_replicate. lia.
  - unfold RORTHOX_HEAP_BLOCK_SIZE. lia.
  - intros b m. by rewrite lookup_empty.
  - intros b1 b2 i (m & Hm & _). by rewrite lookup_empty in Hm.
  - intros b m k. by rewrite lookup_empty.
  - intros i Hi _. apply lookup_replicate. split; [done|lia].
Qed.

Lemma heap_create_repr hp ptr end_ tbl :
  0 < ptr <= end_ -> end_ < 2 ^ 32 -> ptr mod 4096 = 0 -> end_ mod 4096 = 0 ->
  total tbl = (end_ - ptr) / 4096 -> Z.of_nat (length (entries tbl)) = total tbl ->
  exists h, heap_create hp ptr end_ tbl = (0, h) /\ heap_repr h ∅ /\ saddr h = ptr /\
    total (table h) = total tbl.
Proof.
  intros Hp Hend Ha1 Ha2 Ht Hl. unfold heap_create, heap_validate_alignment, heap_validate_table,
    RORTHOX_HEAP_BLOCK_SIZE. rewrite Ha1, Ha2, u32_small, <- Ht, !Z.eqb_refl by lia. simpl.
  eexists. split; [done|]. split; [|done]. apply empty_repr; try lia.
  rewrite drop_ge, app_nil_r by lia. done.
Qed.

Lemma kheap_init_repr hp bytes :
  Z.of_nat (length bytes) = 25600 ->
  exists h, kheap_init hp bytes = (0, h) /\ heap_repr h ∅ /\ saddr h = RORTHOX_HEAP_ADDRESS /\
    total (table h) = 25600.
Proof.
  intros Hl. unfold kheap_init. unfold RORTHOX_HEAP_ADDRESS, RORTHOX_HEAP_SIZE_BYTES,
    RORTHOX_HEAP_BLOCK_SIZE. apply heap_create_repr; simpl; (done || lia).
Qed.

Lemma heap_run_op_repr h L op :
  heap_repr h L -> heap_op_ok op -> exists L', heap_repr (heap_run_op h op) L'.
Proof.
  intros R Hop. destruct op as [size|ptr]; simpl in *.
  - destruct (heap_malloc h size) as [p h'] eqn:Hm.
    destruct (heap_malloc_spec _ _ _ _ _ R Hop Hm) as [(_ & -> & _)|(b & _ & _ & _ & _ & _ & R')];
      simpl; eauto.
  - destruct (decide (map_Exists (fun b _ => ptr = saddr h + b * 4096) L)) as [Hex|Hno].
    + destruct Hex as (b & n & Hb & ->). rewrite (heap_free_live _ _ _ _ R Hb).
      eauto using mark_free_repr.
    + exists L. rewrite (heap_free_other _ L); [done|done|]. intros b n Hb ->. apply Hno.
      by exists b, n.
Qed.

(** C12: [heap_malloc] implements first-fit allocation: on a heap whose live runs are [L] it returns
    0 and changes nothing exactly when no run of enough free blocks exists (or the size is 0), and
    otherwise marks the lowest free run of [ceil (size / 4096)] blocks as one new allocation,
    which meets no live run. *)
Theorem heap_malloc_refines h L size p h' :
  heap_repr h L -> 0 <= size < 2 ^ 32 -> heap_malloc h size = (p, h') ->
  exists L', malloc_spec (saddr h) (total (table h)) L size p L' /\ heap_repr h' L'.
Proof.
  intros R Hs Hm. destruct (heap_malloc_spec _ _ _ _ _ R Hs Hm)
    as [(-> & -> & Hno)|(b & -> & Hpos & Hf & Hfirst & _ & R')].
  - exists L. split; [by constructor|done].
  - eexists. split; [by apply malloc_run|done].
Qed.

Lemma heap_malloc_refines_witness :
  exists L', malloc_spec 4096 4 ∅ 5000 4096 L' /\
    heap_repr (Heap (HeapTable [193; 1; 0; 0] 4) 4096) L'.
Proof.
  apply (heap_malloc_refines (Heap (HeapTable [0; 0; 0; 0] 4) 4096) ∅ 5000).
  - apply empty_repr; (done || lia).
  - lia.
  - reflexivity.
Defined.

(** C13: [heap_free] of the address of a live allocation removes exactly that allocation, and of any
    other pointer (null, unaligned, outside the heap, inside a run, already freed) changes
    nothing. *)
Theorem heap_free_refines h L ptr :
  heap_repr h L ->
  exists L', free_spec (saddr h) L ptr L' /\ heap_repr (heap_free h ptr) L'.
Proof.
  intros R. destruct (decide (map_Exists (fun b _ => ptr = saddr h + b * 4096) L)) as [Hex|Hno].
  - destruct Hex as (b & n & Hb & ->). exists (delete b L). split; [by econstructor|].
    rewrite (heap_free_live _ _ _ _ R Hb). by apply (mark_free_repr _ _ _ n).
  - assert (forall b n, L !! b = Some n -> ptr <> saddr h + b * 4096) as Ho.
    { intros b n Hb ->. apply Hno. by exists b, n. }
    exists L. split; [by constructor|]. by rewrite (heap_free_other _ L).
Qed.

Lemma heap_free_refines_witness :
  exists L', free_spec 4096 ∅ 8192 L' /\
    heap_repr (heap_free (Heap (HeapTable [0; 0; 0; 0] 4) 4096) 8192) L'.
Proof.
  apply (heap_free_refines (Heap (HeapTable [0; 0; 0; 0] 4) 4096) ∅ 8192).
  apply empty_repr; (done || lia).
Defined.

(** freeing what [heap_malloc] returned restores the block table byte for byte, also when the
    allocation failed. *)
Theorem heap_malloc_free_roundtrip h L size p h' :
  heap_repr h L -> 0 <= size < 2 ^ 32 -> heap_malloc h size = (p, h') -> heap_free h' p = h.
Proof.
  intros R Hs Hm.
  change (heap_free h' p) with (kfree h' p).
  apply (malloc_free_inverse h (kmap (block_addr h) L) size p h'); [|done|done].
  exact (ex_intro _ L (conj R eq_refl)).
Qed.

Lemma heap_malloc_free_roundtrip_witness :
  heap_free (Heap (HeapTable [193; 1; 0; 0] 4) 4096) 4096 = Heap (HeapTable [0; 0; 0; 0] 4) 4096.
Proof.
  apply (heap_malloc_free_roundtrip (Heap (HeapTable [0; 0; 0; 0] 4) 4096) ∅ 5000).
  - apply empty_repr; (done || lia).
  - lia.
  - reflexivity.
Defined.

(** from [kheap_init] on, after any sequence of allocations and frees with arbitrary arguments,
    the block table is well formed: it is the table of some set of pairwise disjoint runs inside
    the 25600 blocks of the heap. *)
Theorem kheap_always_well_formed hp bytes ops :
  Z.of_nat (length bytes) = 25600 -> Forall heap_op_ok ops ->
  exists L, heap_repr (foldl heap_run_op (snd (kheap_init hp bytes)) ops) L.
Proof.
  intros Hl Hops. destruct (kheap_init_repr hp bytes Hl) as (h & -> & R & _). simpl.
  assert (exists L, heap_repr h L) as HR by eauto. clear R. revert h HR.
  induction Hops as [|op ops Hop Hops IH]; intros h [L R]; simpl; [eauto|].
  apply IH. by eapply heap_run_op_repr.
Qed.

Lemma kheap_always_well_formed_witness :
  exists L, heap_repr
    (foldl heap_run_op (snd (kheap_init (Heap (HeapTable [] 0) 0) (replicate (Z.to_nat 25600) 255)))
       [Malloc 5000; Free 16777216; Free 16781312; Malloc 1]) L.
Proof.
  apply kheap_always_well_formed.
  - rewrite length_replicate. reflexivity.
  - repeat constructor; simpl; lia.
Defined.
