(* ===== verification/Memory.v ===== *)
(** * Byte memory (kernel/memory/memory.c) and zeroed allocation (kzalloc)

    Physical memory is a finite map from addresses to byte values; a byte never written reads as 0.
    Multi-byte values are little endian, as on i386. [memset], [memcmp] and [memcpy] are the loops
    of memory.c. *)

From stdpp Require Import base numbers list gmap.
From Stdlib Require Import ZArith Lia.
From S2P Require Import Prelude Alloc.

#[local] Set Default Goal Selector "!".

Abbreviation mem := (gmap Z Z).

Definition load8 (m : mem) (a : Z) : Z := default 0 (m !! a) mod 256.
Definition store8 (m : mem) (a v : Z) : mem := <[a := v mod 256]> m.

Definition load32 (m : mem) (a : Z) : Z :=
  load8 m a + 256 * load8 m (a + 1) + 65536 * load8 m (a + 2) + 16777216 * load8 m (a + 3).

Definition store32 (m : mem) (a v : Z) : mem :=
  store8 (store8 (store8 (store8 m a v) (a + 1) (v / 256)) (a + 2) (v / 65536)) (a + 3)
    (v / 16777216).

(** ** memory.c *)

Fixpoint memset_loop (n : nat) (m : mem) (c_ptr i c : Z) : mem :=
  match n with
  | O => m
  | S n => memset_loop n (store8 m (c_ptr + i) c) c_ptr (i + 1) c
  end.

Definition memset (m : mem) (ptr c size : Z) : mem := memset_loop (Z.to_nat size) m ptr 0 c.

(** [char] is signed: the order of two bytes is the order of their signed values. *)
Fixpoint memcmp_loop (n : nat) (m : mem) (c1 c2 : Z) : Z :=
  match n with
  | O => 0
  | S n =>
    let x := load8 m c1 in
    let y := load8 m c2 in
    if negb (x =? y) then (if i8 x <? i8 y then -1 else 1)
    else memcmp_loop n m (c1 + 1) (c2 + 1)
  end.

Definition memcmp (m : mem) (s1 s2 count : Z) : Z := memcmp_loop (Z.to_nat count) m s1 s2.

(** Copies forward, byte by byte ([len >= 0]; the loop counts [len] down to 0). *)
Fixpoint memcpy_loop (n : nat) (m : mem) (d s : Z) : mem :=
  match n with
  | O => m
  | S n => memcpy_loop n (store8 m d (load8 m s)) (d + 1) (s + 1)
  end.

Definition memcpy (m : mem) (dest src len : Z) : mem := memcpy_loop (Z.to_nat len) m dest src.

(** ** kzalloc (kheap.c) *)

Definition kzalloc `{Allocator H} (s : H * mem) (size : Z) : Z * (H * mem) :=
  let '(h, m) := s in
  let '(ptr, h) := kmalloc h size in
  if ptr =? 0 then (0, (h, m)) else (ptr, (h, memset m ptr 0 size)).

(** [n] bytes from [a] on. *)
Definition bytes_at (m : mem) (a : Z) (n : nat) : list Z :=
  map (fun i => load8 m (a + Z.of_nat i)) (seq 0 n).

(** ** Loads and stores *)

Lemma load8_range m a : 0 <= load8 m a < 256.
Proof. unfold load8. lia. Qed.

Lemma load8_store8 m a v b :
  load8 (store8 m a v) b = if decide (a = b) then v mod 256 else load8 m b.
Proof.
  unfold load8, store8. case_decide as E.
  - subst. rewrite lookup_insert_eq. simpl. lia.
  - by rewrite lookup_insert_ne.
Qed.

Lemma load32_range m a : 0 <= load32 m a < 2 ^ 32.
Proof.
  unfold load32. pose proof (load8_range m a). pose proof (load8_range m (a + 1)).
  pose proof (load8_range m (a + 2)). pose proof (load8_range m (a + 3)). lia.
Qed.

Lemma load32_ext m m' a :
  (forall i, a <= i < a + 4 -> load8 m' i = load8 m i) -> load32 m' a = load32 m a.
Proof. intros E. unfold load32. rewrite !E by lia. done. Qed.

Lemma load8_store32_ne m a v b :
  b < a \/ a + 4 <= b -> load8 (store32 m a v) b = load8 m b.
Proof. intros Hb. unfold store32. rewrite !load8_store8, !decide_False by lia. done. Qed.

Lemma load32_store32_eq m a v : load32 (store32 m a v) a = v mod 2 ^ 32.
Proof.
  unfold load32, store32. rewrite !load8_store8.
  repeat first [rewrite decide_True by lia|rewrite decide_False by lia]. lia.
Qed.

Lemma load32_store32_ne m a v b :
  b + 4 <= a \/ a + 4 <= b -> load32 (store32 m a v) b = load32 m b.
Proof. intros Hb. apply load32_ext. intros i Hi. apply load8_store32_ne. lia. Qed.

(** ** Unchanged memory *)

(** [m'] agrees with [m] on the bytes from [p] up to [q]. *)
Definition same_on (m m' : mem) (p q : Z) : Prop := forall a, p <= a < q -> load8 m' a = load8 m a.

Lemma same_on_refl m p q : same_on m m p q.
Proof. by intros a _. Qed.

Lemma same_on_trans m1 m2 m3 p q : same_on m1 m2 p q -> same_on m2 m3 p q -> same_on m1 m3 p q.
Proof. intros H1 H2 a Ha. by rewrite H2, H1. Qed.

Lemma same_on_store32 m a v p q : q <= a \/ a + 4 <= p -> same_on m (store32 m a v) p q.
Proof. intros Hd b Hb. apply load8_store32_ne. lia. Qed.

Lemma same_on_store8 m a v p q : a < p \/ q <= a -> same_on m (store8 m a v) p q.
Proof. intros Hd b Hb. rewrite load8_store8. by rewrite decide_False by lia. Qed.

Lemma same_on_load32 m m' p q a : same_on m m' p q -> p <= a -> a + 4 <= q -> load32 m' a = load32 m a.
Proof. intros Hs Hp Hq. apply load32_ext. intros i Hi. apply Hs. lia. Qed.

#[export] Hint Resolve same_on_refl : rorthox.

(** ** memset and memcpy *)

Lemma memset_loop_load8 n : forall m p i c a,
  load8 (memset_loop n m p i c) a =
  if decide (p + i <= a < p + i + Z.of_nat n) then c mod 256 else load8 m a.
Proof.
  induction n as [|n IH]; intros m p i c a; simpl.
  - by rewrite decide_False by lia.
  - rewrite IH, load8_store8. repeat case_decide; try lia; done.
Qed.

Lemma memset_load8 m p c n a :
  0 <= n ->
  load8 (memset m p c n) a = if decide (p <= a < p + n) then c mod 256 else load8 m a.
Proof.
  intros Hn. unfold memset. rewrite memset_loop_load8, Z.add_0_r, Z2Nat.id by done. done.
Qed.

Lemma same_on_memset m p c n x y :
  0 <= n -> y <= p \/ p + n <= x -> same_on m (memset m p c n) x y.
Proof. intros Hn Hd a Ha. rewrite memset_load8 by done. by rewrite decide_False by lia. Qed.

(** Copying between areas that do not overlap. *)
Lemma memcpy_loop_load8 n : forall m d s a,
  d + Z.of_nat n <= s \/ s + Z.of_nat n <= d ->
  load8 (memcpy_loop n m d s) a =
  if decide (d <= a < d + Z.of_nat n) then load8 m (s + (a - d)) else load8 m a.
Proof.
  induction n as [|n IH]; intros m d s a Hd; simpl.
  - by rewrite decide_False by lia.
  - rewrite IH by lia. destruct (decide (d <= a < d + Z.of_nat (S n))) as [Ha|Ha].
    + case_decide as E; rewrite load8_store8.
      * rewrite decide_False by lia. f_equal. lia.
      * rewrite decide_True by lia. pose proof (load8_range m s).
        replace (s + (a - d)) with s by lia. rewrite Z.mod_small; done.
    + rewrite decide_False, load8_store8, decide_False by lia. done.
Qed.

Lemma memcpy_load8 m d s n a :
  0 <= n -> d + n <= s \/ s + n <= d ->
  load8 (memcpy m d s n) a =
  if decide (d <= a < d + n) then load8 m (s + (a - d)) else load8 m a.
Proof. intros Hn Hd. unfold memcpy. rewrite memcpy_loop_load8, Z2Nat.id by lia. done. Qed.

(** ** kzalloc *)

Section kzalloc.
Context `{AllocatorLaws H}.

Lemma kzalloc_spec (h : H) m A size p h' m' :
  live h A -> 0 <= size < 2 ^ 32 -> kzalloc (h, m) size = (p, (h', m')) ->
  arena h' = arena h /\
  ((p = 0 /\ h' = h /\ m' = m) \/
   (0 < size /\ fresh_run A p (blocks_for size) /\ live h' (<[p := blocks_for size]> A) /\
    m' = memset m p 0 size)).
Proof.
  intros Hl Hs Hz. unfold kzalloc in Hz. pose proof (arena_malloc h size) as Ha.
  destruct (kmalloc h size) as [q h1] eqn:Hm. simpl in Ha.
  destruct (live_malloc _ _ _ _ _ Hl Hs Hm) as [[-> ->]|(Hpos & Hf & Hl')].
  - simpl in Hz. injection Hz as <- <- <-. auto.
  - pose proof Hf as (Hq & _). rewrite (proj2 (Z.eqb_neq q 0)) in Hz by lia.
    injection Hz as <- <- <-. auto 10.
Qed.

Lemma kzalloc_room (h : H) m A size p h' m' :
  live h A -> 0 < size <= 4096 -> used A < capacity h -> kzalloc (h, m) size = (p, (h', m')) ->
  p <> 0.
Proof.
  intros Hl Hs Hu Hz. unfold kzalloc in Hz. pose proof (live_room _ _ _ Hl Hs Hu) as Hr.
  destruct (kmalloc h size) as [q h1]. simpl in Hr.
  destruct (Z.eqb_spec q 0); [done|]. congruence.
Qed.
End kzalloc.
