(* ===== verification/Paging.v ===== *)
(** * Paging (kernel/memory/paging/paging.c)

    A directory is a page of 1024 words, each pointing to a page table of 1024 words; both live in
    kernel memory allocated from the heap. The operations walk and change these words in byte
    memory. [pd_wf] is the invariant of a directory, [pte m dir p] the leaf entry of page [p]; the
    theorems give each operation's effect on the leaves, the identity mapping of a fresh directory,
    the exact release of all its memory, and the two-level permission check of user
    translations. *)

From stdpp Require Import base numbers list gmap.
From Stdlib Require Import ZArith Lia.
From S2P Require Import Prelude Alloc Heap Memory.

#[local] Set Default Goal Selector "!".

(** ** Constants (paging.h) *)

Definition PAGING_PAGE_SIZE_FLAG : Z := 128.
Definition PAGING_ACCESS_FROM_ALL : Z := 4.
Definition PAGING_IS_WRITEABLE : Z := 2.
Definition PAGING_IS_PRESENT : Z := 1.
Definition PAGING_TOTAL_ENTRIES_PER_TABLE : Z := 1024.
Definition PAGING_PAGE_SIZE : Z := 4096.

(** [current_directory] and CR3, which [paging_load_directory] writes. *)
Record paging_cpu := PagingCpu { current_directory : Z; cr3 : Z }.

(** ** Creating and destroying a directory *)

(** The inner loop: entry [b] of the table at [entry] maps page [offset + b * 4096]. *)
Fixpoint paging_fill (n : nat) (b entry offset flags : Z) (m : mem) : mem :=
  match n with
  | O => m
  | S n =>
    let val := Z.lor (u32 (offset + u32 (b * PAGING_PAGE_SIZE))) flags in
    paging_fill n (b + 1) entry offset flags (store32 m (entry + 4 * b) val)
  end.

Section with_allocator.
Context `{Allocator H}.

(** The outer loop, [n] tables left at index [i]. The first component tells whether all tables were
    allocated, the second is [total_tables]. *)
Fixpoint paging_new_tables (n : nat) (i offset directory flags : Z) (s : H * mem)
  : bool * Z * (H * mem) :=
  match n with
  | O => (true, i, s)
  | S n =>
    let '(entry, (h, m)) := kzalloc s (4 * PAGING_TOTAL_ENTRIES_PER_TABLE) in
    if entry =? 0 then (false, i, (h, m))
    else
      let m := paging_fill (Z.to_nat PAGING_TOTAL_ENTRIES_PER_TABLE) 0 entry offset flags m in
      let offset := u32 (offset + PAGING_TOTAL_ENTRIES_PER_TABLE * PAGING_PAGE_SIZE) in
      let m := store32 m (directory + 4 * i) (Z.lor (Z.lor entry flags) PAGING_IS_WRITEABLE) in
      paging_new_tables n (i + 1) offset directory flags (h, m)
  end.

(** [for (i...) kfree(directory[i] & 0xfffff000)], [n] entries from index [i] on. *)
Fixpoint paging_free_tables (n : nat) (i directory : Z) (m : mem) (h : H) : H :=
  match n with
  | O => h
  | S n =>
    let table := Z.land (load32 m (directory + 4 * i)) FRAME_MASK in
    paging_free_tables n (i + 1) directory m (kfree h table)
  end.

Definition paging_new_4gb (s : H * mem) (flags : Z) : Z * (H * mem) :=
  let '(directory, s) := kzalloc s (4 * PAGING_TOTAL_ENTRIES_PER_TABLE) in
  if directory =? 0 then (0, s)
  else
    let out (total_tables : Z) (s : H * mem) :=
      let '(h, m) := s in
      let h := paging_free_tables (Z.to_nat total_tables) 0 directory m h in
      (0, (kfree h directory, m)) in
    let '(ok, total_tables, s) :=
      paging_new_tables (Z.to_nat PAGING_TOTAL_ENTRIES_PER_TABLE) 0 0 directory flags s in
    if negb ok then out total_tables s
    else
      let '(chunk_4gb, (h, m)) := kzalloc s 4 in
      if chunk_4gb =? 0 then out total_tables (h, m)
      else (chunk_4gb, (h, store32 m chunk_4gb directory)).

Definition paging_free_4gb (s : H * mem) (chunk : Z) : H * mem :=
  let '(h, m) := s in
  let directory := load32 m chunk in
  let h := paging_free_tables (Z.to_nat 1024) 0 directory m h in
  let h := kfree h directory in
  (kfree h chunk, m).
End with_allocator.

Definition paging_4gb_chunk_get_directory (m : mem) (chunk : Z) : Z := load32 m chunk.

Definition paging_switch (m : mem) (chunk : Z) : paging_cpu :=
  PagingCpu (load32 m chunk) (load32 m chunk).

(** ** Addresses *)

Definition paging_is_aligned (addr : Z) : bool := addr mod PAGING_PAGE_SIZE =? 0.

(** Returns the status and the two indexes; on an error these keep their former values. *)
Definition paging_get_indexes (virtual_address d0 t0 : Z) : Z * Z * Z :=
  if negb (paging_is_aligned virtual_address) then (- EINVARG, d0, t0)
  else
    (0, virtual_address / (PAGING_TOTAL_ENTRIES_PER_TABLE * PAGING_PAGE_SIZE),
     virtual_address mod (PAGING_TOTAL_ENTRIES_PER_TABLE * PAGING_PAGE_SIZE) / PAGING_PAGE_SIZE).

Definition paging_align_address (ptr : Z) : Z :=
  if negb (ptr mod PAGING_PAGE_SIZE =? 0)
  then u32 (ptr + PAGING_PAGE_SIZE - ptr mod PAGING_PAGE_SIZE)
  else ptr.

Definition paging_align_to_lower_page (addr : Z) : Z := addr - addr mod PAGING_PAGE_SIZE.

(** ** Changing and reading mappings

    [cur] is [current_directory]. *)

Definition paging_set (cur : Z) (m : mem) (directory virt val : Z) : Z * mem :=
  if (directory =? cur) || negb (paging_is_aligned virt) then (- EINVARG, m)
  else
    let '(res, directory_index, table_index) := paging_get_indexes virt 0 0 in
    if res <? 0 then (res, m)
    else
      let entry := load32 m (directory + 4 * directory_index) in
      let user := Z.lor PAGING_IS_PRESENT PAGING_ACCESS_FROM_ALL in
      let is_user := Z.land val user =? user in
      if is_user && (negb (has_flag entry PAGING_IS_PRESENT) || has_flag entry PAGING_PAGE_SIZE_FLAG)
      then (- EINVARG, m)
      else
        let m := if is_user
                 then store32 m (directory + 4 * directory_index)
                        (Z.lor entry PAGING_ACCESS_FROM_ALL)
                 else m in
        let table := Z.land entry FRAME_MASK in
        (0, store32 m (table + 4 * table_index) val).

Definition paging_map (cur : Z) (m : mem) (chunk virt phys flags : Z) : Z * mem :=
  if negb (virt mod PAGING_PAGE_SIZE =? 0) || negb (phys mod PAGING_PAGE_SIZE =? 0)
  then (- EINVARG, m)
  else paging_set cur m (load32 m chunk) virt (u32 (Z.lor phys flags)).

Fixpoint paging_map_range_loop (n : nat) (cur res : Z) (m : mem) (chunk virt phys flags : Z)
  : Z * mem :=
  match n with
  | O => (res, m)
  | S n =>
    let '(res, m) := paging_map cur m chunk virt phys flags in
    if res <? 0 then (res, m)
    else paging_map_range_loop n cur res m chunk (u32 (virt + PAGING_PAGE_SIZE))
           (u32 (phys + PAGING_PAGE_SIZE)) flags
  end.

Definition paging_map_range (cur : Z) (m : mem) (chunk virt phys count flags : Z) : Z * mem :=
  paging_map_range_loop (Z.to_nat count) cur 0 m chunk virt phys flags.

Definition paging_map_to (cur : Z) (m : mem) (chunk virt phys phys_end flags : Z) : Z * mem :=
  if negb (virt mod PAGING_PAGE_SIZE =? 0) then (- EINVARG, m)
  else if negb (phys mod PAGING_PAGE_SIZE =? 0) then (- EINVARG, m)
  else if negb (phys_end mod PAGING_PAGE_SIZE =? 0) then (- EINVARG, m)
  else if phys_end <? phys then (- EINVARG, m)
  else
    let total_bytes := phys_end - phys in
    let total_pages := total_bytes / PAGING_PAGE_SIZE in
    paging_map_range cur m chunk virt phys total_pages flags.

Definition paging_get (m : mem) (directory virt : Z) : Z :=
  let '(_, directory_index, table_index) := paging_get_indexes virt 0 0 in
  let entry := load32 m (directory + 4 * directory_index) in
  let table := Z.land entry FRAME_MASK in
  load32 m (table + 4 * table_index).

Definition paging_get_physical_address (m : mem) (directory virt : Z) : Z :=
  let virt_addr_new := paging_align_to_lower_page virt in
  let difference := u32 (virt - virt_addr_new) in
  u32 (Z.land (paging_get m directory virt_addr_new) FRAME_MASK + difference).

(** The status and the physical address stored through the out parameter (not null here). *)
Definition paging_user_translate (m : mem) (directory address : Z) (write : bool) : Z * option Z :=
  if directory =? 0 then (- EINVARG, None)
  else
    let required := Z.lor PAGING_IS_PRESENT PAGING_ACCESS_FROM_ALL in
    let required := if write then Z.lor required PAGING_IS_WRITEABLE else required in
    let entry := load32 m (directory + 4 * Z.shiftr address 22) in
    if negb (Z.land entry required =? required) || has_flag entry PAGING_PAGE_SIZE_FLAG
    then (- EINVARG, None)
    else
      let table := Z.land entry FRAME_MASK in
      let entry := load32 m (table + 4 * Z.land (Z.shiftr address 12) 1023) in
      if negb (Z.land entry required =? required) then (- EINVARG, None)
      else (0, Some (Z.lor (Z.land entry FRAME_MASK) (Z.land address (PAGING_PAGE_SIZE - 1)))).

(** ** The invariant of a directory *)

Definition pde (m : mem) (dir d : Z) : Z := load32 m (dir + 4 * d).
Definition table_of (m : mem) (dir d : Z) : Z := Z.land (pde m dir d) FRAME_MASK.
(** The leaf entry of page [p], the address [p * 4096]. *)
Definition pte (m : mem) (dir p : Z) : Z := load32 m (table_of m dir (p / 1024) + 4 * (p mod 1024)).

Record pd_wf (m : mem) (dir : Z) : Prop := PdWf {
  wf_dir : 0 < dir /\ dir mod 4096 = 0 /\ dir + 4096 <= 2 ^ 32;
  wf_present d : 0 <= d < 1024 ->
    Z.land (pde m dir d) PAGING_IS_PRESENT = PAGING_IS_PRESENT /\
    Z.land (pde m dir d) PAGING_IS_WRITEABLE = PAGING_IS_WRITEABLE /\
    Z.land (pde m dir d) PAGING_PAGE_SIZE_FLAG = 0;
  wf_table d : 0 <= d < 1024 -> table_of m dir d <> dir;
  wf_distinct d1 d2 : 0 <= d1 < 1024 -> 0 <= d2 < 1024 ->
    table_of m dir d1 = table_of m dir d2 -> d1 = d2;
  (** a leaf that grants user access has it granted by the directory, too *)
  wf_user p : 0 <= p < 2 ^ 20 -> Z.land (pte m dir p) 5 = 5 ->
    Z.land (pde m dir (p / 1024)) PAGING_ACCESS_FROM_ALL = PAGING_ACCESS_FROM_ALL
}.

(** The bytes of a directory and its tables. *)
Definition in_pd (m : mem) (dir a : Z) : Prop :=
  dir <= a < dir + 4096 \/
  exists d, 0 <= d < 1024 /\ table_of m dir d <= a < table_of m dir d + 4096.

(** The effect of an operation on a directory: the leaves of the pages in the domain of [upd]
    change to its values, all other leaves and all memory outside the directory stay. *)
Record pd_update (m m' : mem) (dir : Z) (upd : Z -> option Z) : Prop := PdUpdate {
  upd_wf : pd_wf m' dir;
  upd_tables d : 0 <= d < 1024 -> table_of m' dir d = table_of m dir d;
  upd_leaf p : 0 <= p < 2 ^ 20 -> pte m' dir p = default (pte m dir p) (upd p);
  upd_frame a : ~ in_pd m dir a -> load8 m' a = load8 m a
}.

(** ** Entries and tables *)

Lemma table_of_range m dir d :
  0 <= table_of m dir d /\ table_of m dir d mod 4096 = 0 /\ table_of m dir d + 4096 <= 2 ^ 32.
Proof.
  unfold table_of, pde. pose proof (load32_range m (dir + 4 * d)).
  rewrite land_frame_mask by done. lia.
Qed.

Lemma lor_user_table e : Z.land (Z.lor e PAGING_ACCESS_FROM_ALL) FRAME_MASK = Z.land e FRAME_MASK.
Proof. rewrite Z.land_lor_distr_l. change (Z.land _ FRAME_MASK) with 0 at 2. apply Z.lor_0_r. Qed.

Lemma lor_user_flag e f :
  Z.land PAGING_ACCESS_FROM_ALL f = 0 -> Z.land (Z.lor e PAGING_ACCESS_FROM_ALL) f = Z.land e f.
Proof. intros Hf. rewrite Z.land_lor_distr_l, Hf. apply Z.lor_0_r. Qed.

Lemma lor_land_same e f : Z.land (Z.lor e f) f = f.
Proof.
  apply Z.bits_inj'. intros n _. rewrite Z.land_spec, Z.lor_spec.
  by destruct (Z.testbit e n), (Z.testbit f n).
Qed.

Lemma lor_user_range e : 0 <= e < 2 ^ 32 -> 0 <= Z.lor e PAGING_ACCESS_FROM_ALL < 2 ^ 32.
Proof. intros He. apply lor_range; [lia|done|unfold PAGING_ACCESS_FROM_ALL; lia]. Qed.

Lemma land_sub v a b : Z.land a b = b -> Z.land v a = a -> Z.land v b = b.
Proof. intros Hb Ha. rewrite <- Hb at 1. rewrite Z.land_assoc, Ha. done. Qed.

Lemma get_indexes_page virt :
  0 <= virt < 2 ^ 32 -> virt mod 4096 = 0 ->
  paging_get_indexes virt 0 0 = (0, virt / 4096 / 1024, (virt / 4096) mod 1024).
Proof.
  intros Hv Ha. unfold paging_get_indexes, paging_is_aligned, PAGING_PAGE_SIZE,
    PAGING_TOTAL_ENTRIES_PER_TABLE. rewrite Ha.
  change (1024 * 4096) with 4194304. rewrite Z.eqb_refl. cbn [negb].
  f_equal; [f_equal|]; lia.
Qed.

(** [paging_get] of a page address is the leaf. *)
Lemma paging_get_pte m dir p : 0 <= p < 2 ^ 20 -> paging_get m dir (p * 4096) = pte m dir p.
Proof.
  intros Hp. unfold paging_get. rewrite get_indexes_page by lia.
  rewrite Z.div_mul by lia. done.
Qed.

(** ** paging_set *)

(** The word stores of [paging_set] after its checks. *)
Lemma paging_set_update m dir virt val m' :
  pd_wf m dir -> 0 <= virt < 2 ^ 32 -> virt mod 4096 = 0 -> 0 <= val < 2 ^ 32 ->
  let d := virt / 4096 / 1024 in
  m' = store32
         (if Z.land val 5 =? 5
          then store32 m (dir + 4 * d) (Z.lor (pde m dir d) PAGING_ACCESS_FROM_ALL) else m)
         (table_of m dir d + 4 * ((virt / 4096) mod 1024)) val ->
  pd_update m m' dir (fun p => if p =? virt / 4096 then Some val else None).
Proof.
  intros W Hv Ha Hval d ->. set (t := (virt / 4096) mod 1024).
  set (m1 := if _ =? 5 then _ else m). set (T := table_of m dir).
  assert (Hd : 0 <= d < 1024 /\ 0 <= t < 1024) by (subst d t; lia).
  pose proof (wf_dir _ _ W) as Hdir. pose proof (wf_table _ _ W d ltac:(lia)) as Hne.
  pose proof (table_of_range m dir d) as Ht. fold T in Hne, Ht.
  assert (Hpde : forall d', 0 <= d' < 1024 ->
    pde (store32 m1 (T d + 4 * t) val) dir d' =
    if (Z.land val 5 =? 5) && (d' =? d) then Z.lor (pde m dir d') PAGING_ACCESS_FROM_ALL
    else pde m dir d').
  { intros d' Hd'. unfold pde. rewrite load32_store32_ne by lia. subst m1.
    destruct (Z.eqb_spec (Z.land val 5) 5), (Z.eqb_spec d' d) as [->|]; simpl; try done.
    - rewrite load32_store32_eq. apply Z.mod_small, lor_user_range, load32_range.
    - rewrite load32_store32_ne by lia. done. }
  assert (Htab : forall d', 0 <= d' < 1024 ->
    table_of (store32 m1 (T d + 4 * t) val) dir d' = T d').
  { intros d' Hd'. unfold table_of at 1. rewrite Hpde by done.
    destruct (_ && _); [apply lor_user_table|done]. }
  assert (Hleaf : forall p, 0 <= p < 2 ^ 20 ->
    pte (store32 m1 (T d + 4 * t) val) dir p =
    default (pte m dir p) (if p =? virt / 4096 then Some val else None)).
  { intros p Hp. unfold pte. rewrite Htab by lia. fold T.
    pose proof (table_of_range m dir (p / 1024)) as Hr. fold T in Hr.
    pose proof (wf_table _ _ W (p / 1024) ltac:(lia)) as Hne'. fold T in Hne'.
    destruct (Z.eqb_spec p (virt / 4096)) as [->|Hpv].
    - fold d t. rewrite load32_store32_eq. by apply Z.mod_small.
    - assert (T (p / 1024) = T d \/ T (p / 1024) + 4096 <= T d \/ T d + 4096 <= T (p / 1024)) by lia.
      assert (T (p / 1024) = T d -> p / 1024 = d) by (apply (wf_distinct _ _ W); lia).
      rewrite load32_store32_ne by (subst d t; lia).
      subst m1. case_match; [|done]. rewrite load32_store32_ne by lia. done. }
  constructor; [constructor|done|done|].
  - done.
  - intros d' Hd'. rewrite Hpde by done. pose proof (wf_present _ _ W d' Hd').
    destruct (_ && _); [|done]. rewrite !lor_user_flag by done. done.
  - intros d' Hd'. rewrite Htab by done. by apply (wf_table _ _ W).
  - intros d1 d2 H1 H2. rewrite !Htab by done. by apply (wf_distinct _ _ W).
  - intros p Hp. rewrite Hleaf, Hpde by lia.
    destruct (Z.eqb_spec p (virt / 4096)) as [->|Hpv]; simpl.
    + intros Hu. rewrite Hu. fold d. rewrite !Z.eqb_refl. cbn [andb].
      apply lor_land_same.
    + intros Hu. pose proof (wf_user _ _ W p Hp Hu). destruct (_ && _); [|done].
      apply lor_land_same.
  - intros a Hno. rewrite load8_store32_ne.
    + subst m1. case_match; [|done]. apply load8_store32_ne. unfold in_pd in Hno. lia.
    + destruct (Z.lt_ge_cases a (T d)); [lia|]. destruct (Z.le_gt_cases (T d + 4096) a); [lia|].
      destruct Hno. right. exists d. fold T. lia.
Qed.

Lemma wf_flags m dir d :
  pd_wf m dir -> 0 <= d < 1024 ->
  has_flag (pde m dir d) PAGING_IS_PRESENT = true /\
  has_flag (pde m dir d) PAGING_PAGE_SIZE_FLAG = false.
Proof.
  intros W Hd. destruct (wf_present _ _ W d Hd) as (Hp & _ & Hs). unfold has_flag.
  by rewrite Hp, Hs.
Qed.

Lemma paging_set_ok cur m dir virt val :
  pd_wf m dir -> dir <> cur -> 0 <= virt < 2 ^ 32 -> virt mod 4096 = 0 -> 0 <= val < 2 ^ 32 ->
  exists m', paging_set cur m dir virt val = (0, m') /\
    pd_update m m' dir (fun p => if p =? virt / 4096 then Some val else None).
Proof.
  intros W Hc Hv Ha Hval.
  pose proof (wf_flags _ _ (virt / 4096 / 1024) W ltac:(lia)) as [Hp Hs].
  eexists. split; [|by eapply paging_set_update].
  unfold paging_set, paging_is_aligned. rewrite (proj2 (Z.eqb_neq _ _) Hc).
  unfold PAGING_PAGE_SIZE at 1. rewrite Ha, get_indexes_page by done. cbn [Z.eqb negb orb].
  change (0 <? 0) with false. cbn [negb]. unfold table_of. fold (pde m dir (virt / 4096 / 1024)).
  rewrite Hp, Hs. rewrite andb_false_r. done.
Qed.

(** ** Mapping a range *)

Lemma in_pd_update m m' dir upd a : pd_update m m' dir upd -> in_pd m' dir a <-> in_pd m dir a.
Proof.
  intros U. unfold in_pd. split; (intros [?|(d & Hd & ?)]; [by left|right; exists d]).
  - by rewrite <- (upd_tables _ _ _ _ U d Hd).
  - by rewrite (upd_tables _ _ _ _ U d Hd).
Qed.

Lemma pd_update_trans m1 m2 m3 dir u1 u2 u :
  pd_update m1 m2 dir u1 -> pd_update m2 m3 dir u2 ->
  (forall p, 0 <= p < 2 ^ 20 -> u p = match u2 p with Some v => Some v | None => u1 p end) ->
  pd_update m1 m3 dir u.
Proof.
  intros U1 U2 Hu. constructor.
  - apply U2.
  - intros d Hd. rewrite (upd_tables _ _ _ _ U2) by done. by apply (upd_tables _ _ _ _ U1).
  - intros p Hp. rewrite (upd_leaf _ _ _ _ U2), (upd_leaf _ _ _ _ U1), Hu by done.
    by destruct (u2 p).
  - intros a Ha. rewrite (upd_frame _ _ _ _ U2) by by rewrite (in_pd_update _ _ _ _ _ U1).
    by apply (upd_frame _ _ _ _ U1).
Qed.

Lemma pd_update_ext m m' dir u u' :
  (forall p, 0 <= p < 2 ^ 20 -> u' p = u p) -> pd_update m m' dir u -> pd_update m m' dir u'.
Proof.
  intros Hu U. constructor; try apply U. intros p Hp. rewrite Hu by done.
  by apply (upd_leaf _ _ _ _ U).
Qed.

Lemma pd_update_none m dir u :
  pd_wf m dir -> (forall p, 0 <= p < 2 ^ 20 -> u p = None) -> pd_update m m dir u.
Proof. intros W Hu. constructor; try done. intros p Hp. by rewrite Hu. Qed.

(** The leaf of page [p] after mapping [n] pages from [virt] to [phys] with [flags]. *)
Definition mapped (virt phys n flags p : Z) : option Z :=
  if (virt / 4096 <=? p) && (p <? virt / 4096 + n)
  then Some (Z.lor (phys + (p - virt / 4096) * 4096) flags) else None.

(** The chunk that [paging_map] reads the directory from lies outside the directory. *)
Definition chunk_ok (m : mem) (chunk dir : Z) : Prop :=
  load32 m chunk = dir /\ forall a, chunk <= a < chunk + 4 -> ~ in_pd m dir a.

Lemma chunk_ok_update m m' chunk dir upd :
  pd_update m m' dir upd -> chunk_ok m chunk dir -> chunk_ok m' chunk dir.
Proof.
  intros U [Hl Hc]. split.
  - rewrite <- Hl. apply load32_ext. intros k Hk. by apply (upd_frame _ _ _ _ U), Hc.
  - intros a Ha. rewrite (in_pd_update _ _ _ _ _ U). by apply Hc.
Qed.

Lemma leaf_range phys flags :
  0 <= phys < 2 ^ 32 -> phys mod 4096 = 0 -> 0 <= flags < 4096 -> 0 <= Z.lor phys flags < 2 ^ 32.
Proof. intros. apply lor_range; lia. Qed.

Lemma paging_map_ok cur m chunk dir virt phys flags :
  pd_wf m dir -> chunk_ok m chunk dir -> dir <> cur ->
  0 <= virt < 2 ^ 32 -> virt mod 4096 = 0 -> 0 <= phys < 2 ^ 32 -> phys mod 4096 = 0 ->
  0 <= flags < 4096 ->
  exists m', paging_map cur m chunk virt phys flags = (0, m') /\
    pd_update m m' dir (mapped virt phys 1 flags).
Proof.
  intros W [Hl _] Hc Hv Hva Hp Hpa Hf.
  destruct (paging_set_ok cur m dir virt (Z.lor phys flags)) as (m' & Hset & U);
    [done..|by apply leaf_range|].
  exists m'. split.
  - unfold paging_map, PAGING_PAGE_SIZE. rewrite Hva, Hpa, Hl. cbn [Z.eqb negb orb].
    rewrite u32_small by by apply leaf_range. done.
  - eapply pd_update_ext; [|exact U]. intros p _. unfold mapped.
    case_Zb; simpl; (done || lia || (f_equal; f_equal; lia)).
Qed.

(** Each page of the range is mapped in turn; the addresses wrap only after the last one. *)
Lemma paging_map_range_loop_ok n : forall cur res m chunk dir virt phys flags,
  pd_wf m dir -> chunk_ok m chunk dir -> dir <> cur -> 0 <= flags < 4096 -> 0 <= res ->
  0 <= virt -> virt mod 4096 = 0 -> virt + Z.of_nat n * 4096 <= 2 ^ 32 ->
  0 <= phys -> phys mod 4096 = 0 -> phys + Z.of_nat n * 4096 <= 2 ^ 32 ->
  exists res' m', paging_map_range_loop n cur res m chunk virt phys flags = (res', m') /\
    res' = (if decide (n = 0%nat) then res else 0) /\
    pd_update m m' dir (mapped virt phys (Z.of_nat n) flags).
Proof.
  induction n as [|n IH]; intros cur res m chunk dir virt phys flags W C Hc Hf Hr Hv Hva Hve Hp Hpa Hpe.
  - exists res, m. split; [done|]. split; [done|]. apply pd_update_none; [done|].
    intros p _. unfold mapped. case_Zb; done || lia.
  - destruct (paging_map_ok cur m chunk dir virt phys flags) as (m1 & E1 & U1); [done || lia..|].
    cbn [paging_map_range_loop]. rewrite E1. change (0 <? 0) with false. cbv iota.
    destruct (decide (n = 0%nat)) as [->|Hn].
    { exists 0, m1. split; [done|]. split; [done|]. done. }
    unfold PAGING_PAGE_SIZE. rewrite !u32_small by lia.
    destruct (IH cur 0 m1 chunk dir (virt + 4096) (phys + 4096) flags) as (r2 & m2 & E2 & Hr2 & U2);
      [apply U1|by eapply chunk_ok_update|done || lia..|].
    exists r2, m2. split; [done|]. split; [by case_decide|].
    eapply pd_update_trans; [done..|]. intros p _. unfold mapped.
    replace ((virt + 4096) / 4096) with (virt / 4096 + 1) by lia.
    case_Zb; simpl; (done || lia || (f_equal; f_equal; lia)).
Qed.

(** ** Memory outside a directory *)

(** A directory depends on its own bytes only. *)
Lemma pd_same m m' dir :
  pd_wf m dir -> (forall a, in_pd m dir a -> load8 m' a = load8 m a) ->
  pd_wf m' dir /\ (forall d, 0 <= d < 1024 -> table_of m' dir d = table_of m dir d) /\
  forall p, 0 <= p < 2 ^ 20 -> pte m' dir p = pte m dir p.
Proof.
  intros W Hs.
  assert (Hd : forall d, 0 <= d < 1024 -> pde m' dir d = pde m dir d).
  { intros d Hd. apply load32_ext. intros i Hi. apply Hs. left. lia. }
  assert (Ht : forall d, 0 <= d < 1024 -> table_of m' dir d = table_of m dir d).
  { intros d Hr. unfold table_of. by rewrite Hd. }
  assert (Hp : forall p, 0 <= p < 2 ^ 20 -> pte m' dir p = pte m dir p).
  { intros p Hr. unfold pte. rewrite Ht by lia. apply load32_ext. intros i Hi. apply Hs. right.
    exists (p / 1024). lia. }
  split; [|done]. destruct W as [W1 W2 W3 W4 W5]. constructor; [done|..].
  - intros d Hr. rewrite Hd by done. by apply W2.
  - intros d Hr. rewrite Ht by done. by apply W3.
  - intros d1 d2 Hr1 Hr2. rewrite !Ht by done. by apply W4.
  - intros p Hr. rewrite Hp, Hd by lia. by apply W5.
Qed.

(** ** Translating user addresses *)

Definition user_flags (write : bool) : Z := if write then 7 else 5.

Lemma translate_indexes addr :
  0 <= addr < 2 ^ 32 ->
  Z.shiftr addr 22 = addr / 4096 / 1024 /\
  Z.land (Z.shiftr addr 12) 1023 = (addr / 4096) mod 1024 /\
  Z.land addr 4095 = addr mod 4096.
Proof.
  intros Ha. rewrite !Z.shiftr_div_pow2 by lia.
  change 1023 with (Z.ones 10). change 4095 with (Z.ones 12). rewrite !land_low_mask by lia. lia.
Qed.

(** A leaf with the flags of a user access lies in a table whose directory entry has them. *)
Lemma wf_user_entry m dir p write :
  pd_wf m dir -> 0 <= p < 2 ^ 20 ->
  Z.land (pte m dir p) (user_flags write) = user_flags write ->
  Z.land (pde m dir (p / 1024)) (user_flags write) = user_flags write.
Proof.
  intros W Hp Hl.
  assert (Hu : Z.land (pte m dir p) 5 = 5) by (by apply (land_sub _ (user_flags write)); destruct write).
  pose proof (wf_user _ _ W p Hp Hu) as H4.
  destruct (wf_present _ _ W (p / 1024) ltac:(lia)) as (H1 & H2 & _).
  assert (H7 : Z.land (pde m dir (p / 1024)) 7 = 7).
  { change 7 with (Z.lor (Z.lor PAGING_IS_PRESENT PAGING_IS_WRITEABLE) PAGING_ACCESS_FROM_ALL).
    rewrite !Z.land_lor_distr_r, H1, H2, H4. done. }
  by apply (land_sub _ 7); destruct write.
Qed.

Lemma paging_user_translate_leaf m dir addr write :
  pd_wf m dir -> 0 <= addr < 2 ^ 32 ->
  paging_user_translate m dir addr write =
    (let leaf := pte m dir (addr / 4096) in
     if Z.land leaf (user_flags write) =? user_flags write
     then (0, Some (Z.land leaf FRAME_MASK + addr mod 4096)) else (- EINVARG, None)).
Proof.
  intros W Ha. pose proof (wf_dir _ _ W) as Hd.
  destruct (translate_indexes addr Ha) as (E1 & E2 & E3).
  unfold paging_user_translate. rewrite (proj2 (Z.eqb_neq dir 0)) by lia.
  change (PAGING_PAGE_SIZE - 1) with 4095. rewrite E1, E2, E3. cbv zeta.
  change (Z.lor PAGING_IS_PRESENT PAGING_ACCESS_FROM_ALL) with 5.
  change (Z.lor 5 PAGING_IS_WRITEABLE) with 7. fold (user_flags write).
  fold (pde m dir (addr / 4096 / 1024)). fold (table_of m dir (addr / 4096 / 1024)).
  fold (pte m dir (addr / 4096)). pose proof (wf_flags m dir (addr / 4096 / 1024) W ltac:(lia)) as [_ ->].
  rewrite orb_false_r.
  destruct (Z.eqb_spec (Z.land (pte m dir (addr / 4096)) (user_flags write)) (user_flags write)) as [Hl|Hl].
  - rewrite wf_user_entry, Z.eqb_refl by (done || lia). cbn [negb].
    do 2 f_equal. pose proof (load32_range m (table_of m dir (addr / 4096 / 1024) + 4 * ((addr / 4096) mod 1024))).
    fold (pte m dir (addr / 4096)) in *. rewrite land_frame_mask by done.
    apply (lor_add_disjoint _ _ 12); lia.
  - by destruct (negb _).
Qed.

(** ** A fresh directory *)

Lemma land_aligned_low t f : t mod 4096 = 0 -> 0 <= f < 4096 -> Z.land t f = 0.
Proof.
  intros Ht Hf. assert (Hl : Z.land f (Z.ones 12) = f) by (rewrite land_low_mask; lia).
  rewrite <- Hl, (Z.land_comm f), Z.land_assoc, land_low_mask by lia.
  change (2 ^ 12) with 4096. rewrite Ht. apply Z.land_0_l.
Qed.

(** The directory entry that [paging_new_4gb] writes for table [t]. *)
Definition new_entry (t flags : Z) : Z := Z.lor (Z.lor t flags) PAGING_IS_WRITEABLE.

Lemma new_entry_table t flags :
  0 <= t < 2 ^ 32 -> t mod 4096 = 0 -> 0 <= flags < 4096 ->
  0 <= new_entry t flags < 2 ^ 32 /\ Z.land (new_entry t flags) FRAME_MASK = t.
Proof.
  intros Ht Ha Hf. unfold new_entry, PAGING_IS_WRITEABLE.
  assert (Hr : 0 <= Z.lor flags 2 < 4096) by (apply (lor_range _ _ 12); lia).
  rewrite <- Z.lor_assoc. rewrite (lor_add_disjoint _ _ 12) by lia.
  rewrite land_frame_mask by lia. lia.
Qed.

Lemma new_entry_flag t flags f :
  t mod 4096 = 0 -> 0 <= f < 4096 ->
  Z.land (new_entry t flags) f = Z.lor (Z.land flags f) (Z.land PAGING_IS_WRITEABLE f).
Proof.
  intros Ht Hf. unfold new_entry. rewrite !Z.land_lor_distr_l, (land_aligned_low t) by done. done.
Qed.

Lemma paging_fill_spec n : forall b entry offset flags m,
  0 <= b -> 0 <= offset -> offset + (b + Z.of_nat n) * 4096 <= 2 ^ 32 -> offset mod 4096 = 0 ->
  0 <= flags < 4096 ->
  let m' := paging_fill n b entry offset flags m in
  (forall a, a < entry + 4 * b \/ entry + 4 * (b + Z.of_nat n) <= a -> load8 m' a = load8 m a) /\
  (forall j, b <= j < b + Z.of_nat n ->
     load32 m' (entry + 4 * j) = Z.lor (offset + j * 4096) flags).
Proof.
  induction n as [|n IH]; intros b entry offset flags m Hb Ho He Ha Hf m'; [split; [done|lia]|].
  subst m'. cbn [paging_fill]. unfold PAGING_PAGE_SIZE.
  rewrite (u32_small (b * 4096)), u32_small by lia.
  destruct (IH (b + 1) entry offset flags
    (store32 m (entry + 4 * b) (Z.lor (offset + b * 4096) flags))) as [Hout Hin]; [lia..|].
  split.
  - intros a Hr. rewrite Hout by lia. apply load8_store32_ne. lia.
  - intros j Hj. destruct (Z.eq_dec j b) as [->|]; [|apply Hin; lia].
    erewrite load32_ext by (intros i Hi; apply Hout; lia). rewrite load32_store32_eq.
    apply Z.mod_small, leaf_range; lia.
Qed.

(** The entries of one table. *)
Definition fill_table (entry offset flags : Z) (m : mem) : mem :=
  paging_fill (Z.to_nat PAGING_TOTAL_ENTRIES_PER_TABLE) 0 entry offset flags m.

Lemma fill_table_spec entry offset flags m :
  0 <= offset -> offset + 4194304 <= 2 ^ 32 -> offset mod 4096 = 0 -> 0 <= flags < 4096 ->
  (forall a, a < entry \/ entry + 4096 <= a -> load8 (fill_table entry offset flags m) a = load8 m a) /\
  (forall j, 0 <= j < 1024 ->
     load32 (fill_table entry offset flags m) (entry + 4 * j) = Z.lor (offset + j * 4096) flags).
Proof.
  intros Ho He Ha Hf. unfold fill_table, PAGING_TOTAL_ENTRIES_PER_TABLE.
  destruct (paging_fill_spec (Z.to_nat 1024) 0 entry offset flags m) as [Hout Hin]; [lia..|].
  rewrite Z2Nat.id in Hout, Hin by lia. split; intros; [apply Hout|apply Hin]; lia.
Qed.

Lemma fill_table_eq entry offset flags m :
  paging_fill (Z.to_nat PAGING_TOTAL_ENTRIES_PER_TABLE) 0 entry offset flags m =
  fill_table entry offset flags m.
Proof. unfold fill_table. reflexivity. Qed.

#[local] Opaque fill_table.

(** The abstract heap with the pages [ts] added. *)
Definition add_pages (A : gmap Z Z) (ts : list Z) : gmap Z Z := foldr (fun t => <[t := 1]>) A ts.

Lemma add_pages_lookup A ts x :
  add_pages A ts !! x = if decide (x ∈ ts) then Some 1 else A !! x.
Proof.
  induction ts as [|t ts IH].
  - by rewrite decide_False by apply not_elem_of_nil.
  - cbn [add_pages foldr]. fold (add_pages A ts). destruct (decide (x = t)) as [->|].
    + rewrite lookup_insert_eq, decide_True by set_solver. done.
    + rewrite lookup_insert_ne, IH by done.
      apply decide_ext. rewrite elem_of_cons. naive_solver.
Qed.

Lemma add_pages_snoc A ts t : add_pages A (ts ++ [t]) = <[t := 1]> (add_pages A ts).
Proof.
  apply map_eq. intros x. rewrite add_pages_lookup. destruct (decide (x = t)) as [->|].
  - by rewrite lookup_insert_eq, decide_True by set_solver.
  - rewrite lookup_insert_ne, add_pages_lookup by done.
    apply decide_ext. rewrite elem_of_app, list_elem_of_singleton. naive_solver.
Qed.

Lemma used_add_pages A ts :
  NoDup ts -> (forall t, t ∈ ts -> A !! t = None) -> used (add_pages A ts) = Z.of_nat (length ts) + used A.
Proof.
  induction ts as [|t ts IH]; intros Hd Hn; [done|]. apply NoDup_cons in Hd as [Ht Hd].
  cbn [add_pages foldr]. fold (add_pages A ts). rewrite used_insert.
  - rewrite IH; [simpl; lia|done|]. intros x Hx. apply Hn. set_solver.
  - rewrite add_pages_lookup, decide_False by done. apply Hn. set_solver.
Qed.

Section fresh.
Context `{AllocatorLaws H}.
Implicit Types h : H.

(** The first [length ts] entries of the directory, as [paging_new_4gb] leaves them. *)
Definition tables_ok (m : mem) (dir flags : Z) (ts : list Z) : Prop :=
  forall (d : nat) t, ts !! d = Some t ->
    load32 m (dir + 4 * Z.of_nat d) = new_entry t flags /\
    forall j, 0 <= j < 1024 -> load32 m (t + 4 * j) = Z.lor (Z.of_nat d * 4194304 + j * 4096) flags.

(** Inside the loop of [paging_new_4gb], started with the live allocations [A], the directory among
    them: the tables [ts] are allocated and filled, nothing else has changed. *)
Record new_inv (m0 : mem) (A : gmap Z Z) (dir flags : Z) (ts : list Z) (h : H) (m : mem) : Prop := {
  new_live : live h (add_pages A ts);
  new_dup : NoDup ts;
  new_fresh t : t ∈ ts -> A !! t = None;
  new_tables : tables_ok m dir flags ts;
  new_frame a : ~ (dir <= a < dir + 4096) -> (forall t, t ∈ ts -> ~ (t <= a < t + 4096)) ->
    load8 m a = load8 m0 a
}.

Lemma new_inv_page m0 A dir flags ts h m t :
  A !! dir = Some 1 -> new_inv m0 A dir flags ts h m -> t ∈ ts ->
  0 < t /\ t mod 4096 = 0 /\ t + 4096 <= 2 ^ 32 /\ apart t 1 dir 1 /\ t <> dir.
Proof.
  intros Hdir I Ht. pose proof (new_live _ _ _ _ _ _ _ I) as Hl.
  assert (Hne : t <> dir) by (intros ->; pose proof (new_fresh _ _ _ _ _ _ _ I _ Ht); congruence).
  assert (Ht1 : add_pages A ts !! t = Some 1) by by rewrite add_pages_lookup, decide_True.
  assert (Hd1 : add_pages A ts !! dir = Some 1)
    by (rewrite add_pages_lookup; by case_decide).
  pose proof (live_bounds _ _ _ _ Hl Ht1). pose proof (live_apart _ _ _ _ _ _ Hl Ht1 Hd1 Hne).
  unfold apart in *. lia.
Qed.

(** Filling table [t] and entering it in the directory keeps the earlier tables. *)
Lemma tables_ok_snoc m0 A dir flags ts h m t :
  A !! dir = Some 1 -> dir + 4096 <= 2 ^ 32 -> new_inv m0 A dir flags ts h m ->
  fresh_run (add_pages A ts) t 1 -> Z.of_nat (length ts) < 1024 -> 0 <= flags < 4096 ->
  let m1 := fill_table t (Z.of_nat (length ts) * 4194304) flags (memset m t 0 4096) in
  tables_ok (store32 m1 (dir + 4 * Z.of_nat (length ts)) (new_entry t flags)) dir flags (ts ++ [t]).
Proof.
  intros Hdir Hend I (Ht & Hta & _ & Hte & Hap) Hn Hf m1.
  destruct (fill_table_spec t (Z.of_nat (length ts) * 4194304) flags (memset m t 0 4096))
    as [Hout Hin]; [lia..|]. fold m1 in Hout, Hin.
  assert (Hsame : forall a, a < t \/ t + 4096 <= a -> load8 m1 a = load8 m a).
  { intros a Ha. rewrite Hout by lia. rewrite memset_load8, decide_False by lia. done. }
  assert (Htd : apart t 1 dir 1)
    by (apply Hap; rewrite add_pages_lookup; by case_decide).
  assert (Hext : forall a, a + 4 <= t \/ t + 4096 <= a -> load32 m1 a = load32 m a)
    by (intros a Ha; apply load32_ext; intros i Hi; apply Hsame; lia).
  unfold apart in Htd. intros d x Hx. apply lookup_app_Some in Hx as [Hx|[Hge Hx]].
  - pose proof (lookup_lt_Some _ _ _ Hx) as Hlt.
    pose proof (list_elem_of_lookup_2 _ _ _ Hx) as Hel.
    destruct (new_inv_page _ _ _ _ _ _ _ _ Hdir I Hel) as (? & ? & ? & Hxd & ?).
    assert (Htx : apart t 1 x 1) by (apply Hap; by rewrite add_pages_lookup, decide_True).
    unfold apart in Hxd, Htx. destruct (new_tables _ _ _ _ _ _ _ I d x Hx) as [Hde Hle].
    split; [|intros j Hj]; rewrite load32_store32_ne, Hext by lia; [done|by apply Hle].
  - apply list_lookup_singleton_Some in Hx as [Hd <-]. assert (d = length ts) as -> by lia.
    pose proof (new_entry_table t flags ltac:(lia) Hta Hf) as [Hr _]. split.
    + rewrite load32_store32_eq. by apply Z.mod_small.
    + intros j Hj. rewrite load32_store32_ne by lia. apply Hin. lia.
Qed.

(** The table pages do not meet the live allocations other than the directory. *)
Lemma new_inv_step m0 A dir flags ts h m t h1 m1 :
  A !! dir = Some 1 -> dir + 4096 <= 2 ^ 32 -> new_inv m0 A dir flags ts h m ->
  Z.of_nat (length ts) < 1024 -> 0 <= flags < 4096 ->
  kzalloc (h, m) 4096 = (t, (h1, m1)) -> t <> 0 ->
  let m2 := fill_table t (Z.of_nat (length ts) * 4194304) flags m1 in
  new_inv m0 A dir flags (ts ++ [t]) h1
    (store32 m2 (dir + 4 * Z.of_nat (length ts)) (new_entry t flags)).
Proof.
  intros Hdir Hend I Hn Hf Hz Ht m2. pose proof (new_live _ _ _ _ _ _ _ I) as Hl.
  destruct (kzalloc_spec h m _ 4096 _ _ _ Hl ltac:(lia) Hz) as (_ & [(-> & _)|(_ & Hfr & Hl1 & ->)]); [done|].
  change (blocks_for 4096) with 1 in Hfr, Hl1.
  pose proof (fresh_none _ _ _ _ Hl Hfr) as Hnone. rewrite add_pages_lookup in Hnone.
  case_decide as Hin; [done|].
  constructor.
  - by rewrite add_pages_snoc.
  - apply NoDup_app. split; [apply I|]. split; [set_solver|apply NoDup_singleton].
  - intros x [Hx|Hx%list_elem_of_singleton]%elem_of_app; [by apply (new_fresh _ _ _ _ _ _ _ I)|by subst].
  - by eapply tables_ok_snoc.
  - intros a Ha Hts. destruct (fill_table_spec t (Z.of_nat (length ts) * 4194304) flags
      (memset m t 0 4096)) as [Hout _]; [lia..|].
    pose proof (Hts t ltac:(set_solver)) as Hat.
    rewrite load8_store32_ne by lia. subst m2. rewrite Hout by lia.
    rewrite memset_load8, decide_False by lia.
    apply (new_frame _ _ _ _ _ _ _ I); [done|]. intros x Hx. apply Hts. set_solver.
Qed.

Lemma paging_new_tables_spec n : forall m0 A dir flags ts h m,
  A !! dir = Some 1 -> dir + 4096 <= 2 ^ 32 -> new_inv m0 A dir flags ts h m ->
  Z.of_nat (length ts + n) <= 1024 -> 0 <= flags < 4096 ->
  exists ok ts' h' m',
    paging_new_tables n (Z.of_nat (length ts)) (u32 (Z.of_nat (length ts) * 4194304)) dir flags (h, m)
      = (ok, Z.of_nat (length ts'), (h', m')) /\
    new_inv m0 A dir flags ts' h' m' /\ arena h' = arena h /\
    (if ok : bool then length ts' = (length ts + n)%nat
     else (length ts' < length ts + n)%nat /\ capacity h < used A + Z.of_nat (length ts + n)).
Proof.
  induction n as [|n IH]; intros m0 A dir flags ts h m Hdir Hend I Hn Hf.
  { exists true, ts, h, m. split; [done|]. auto with lia. }
  cbn [paging_new_tables]. 
  change (4 * PAGING_TOTAL_ENTRIES_PER_TABLE) with 4096.
  change (PAGING_TOTAL_ENTRIES_PER_TABLE * PAGING_PAGE_SIZE) with 4194304.
  destruct (kzalloc (h, m) 4096) as [t [h1 m1]] eqn:Hz.
  pose proof (new_live _ _ _ _ _ _ _ I) as Hl.
  destruct (kzalloc_spec h m _ 4096 _ _ _ Hl ltac:(lia) Hz) as [Har Hcase].
  destruct (Z.eqb_spec t 0) as [->|Ht].
  - destruct Hcase as [(_ & -> & ->)|(_ & (? & _) & _)]; [|lia].
    exists false, ts, h, m. split; [done|]. split; [done|]. split; [done|]. split; [lia|].
    pose proof (used_add_pages A ts (new_dup _ _ _ _ _ _ _ I) (new_fresh _ _ _ _ _ _ _ I)).
    destruct (Z.lt_ge_cases (used (add_pages A ts)) (capacity h)) as [Hlt|]; [|lia].
    by destruct (kzalloc_room h m _ 4096 _ _ _ Hl ltac:(lia) Hlt Hz).
  - rewrite fill_table_eq, (u32_small (Z.of_nat (length ts) * 4194304)) by lia.
    pose proof (new_inv_step _ _ _ _ _ _ _ _ _ _ Hdir Hend I ltac:(lia) Hf Hz Ht) as I'. cbv zeta in I'.
    destruct (IH _ _ _ _ _ _ _ Hdir Hend I') as (ok & ts' & h' & m' & Hrun & If & Harf & Hok);
      [rewrite length_app; simpl; lia|done|].
    rewrite length_app in Hrun, Hok. cbn [length] in Hrun, Hok.
    replace (Z.of_nat (length ts + 1)) with (Z.of_nat (length ts) + 1) in Hrun by lia.
    replace ((Z.of_nat (length ts) + 1) * 4194304)
      with (Z.of_nat (length ts) * 4194304 + 4194304) in Hrun by lia.
    exists ok, ts', h', m'. split; [exact Hrun|]. split; [done|]. split; [congruence|].
    rewrite (capacity_arena h1 h Har) in Hok.
    destruct ok; [lia|]. split; [lia|]. destruct Hok as [_ Hok].
    replace (length ts + S n)%nat with (length ts + 1 + n)%nat by lia. done.
Qed.

(** ** Releasing a directory *)

Lemma paging_free_tables_spec ts : forall i dir m h A,
  live h (add_pages A ts) -> NoDup ts -> (forall t, t ∈ ts -> A !! t = None) ->
  (forall (k : nat) t, ts !! k = Some t -> table_of m dir (i + Z.of_nat k) = t) ->
  live (paging_free_tables (length ts) i dir m h) A /\
  arena (paging_free_tables (length ts) i dir m h) = arena h.
Proof.
  induction ts as [|t ts IH]; intros i dir m h A Hl Hd Hn Ht; [done|].
  apply NoDup_cons in Hd as [Hnin Hd]. cbn [length paging_free_tables].
  fold (pde m dir i). fold (table_of m dir i).
  pose proof (Ht 0%nat t eq_refl) as Ht0. rewrite Z.add_0_r in Ht0. rewrite Ht0.
  destruct (IH (i + 1) dir m (kfree h t) A) as [Hl' Ha'].
  - assert (Hnone : add_pages A ts !! t = None).
    { rewrite add_pages_lookup, decide_False by done. apply Hn. set_solver. }
    rewrite <- (delete_insert_id (add_pages A ts) t 1) by done.
    eapply live_free; [exact Hl|]. apply lookup_insert_eq.
  - done.
  - intros x Hx. apply Hn. set_solver.
  - intros k x Hx. rewrite <- (Ht (S k) x Hx). f_equal. lia.
  - split; [done|]. rewrite Ha'. apply arena_free.
Qed.

(** The chunk at [c] owns exactly its own page, the directory's and the tables', beside the live
    allocations [A]. *)
Definition owns_directory (A : gmap Z Z) (h : H) (m : mem) (c : Z) : Prop :=
  exists ts : list Z,
    let dir := load32 m c in
    length ts = Z.to_nat 1024 /\ NoDup (c :: dir :: ts) /\
    (forall x, x ∈ c :: dir :: ts -> A !! x = None) /\
    live h (<[c := 1]> (add_pages (<[dir := 1]> A) ts)) /\
    forall (k : nat) t, ts !! k = Some t -> table_of m dir (Z.of_nat k) = t.

Lemma free_directory A h m dir ts :
  live h (add_pages (<[dir := 1]> A) ts) -> NoDup (dir :: ts) ->
  (forall x, x ∈ dir :: ts -> A !! x = None) ->
  (forall (k : nat) t, ts !! k = Some t -> table_of m dir (Z.of_nat k) = t) ->
  let h' := kfree (paging_free_tables (length ts) 0 dir m h) dir in
  live h' A /\ arena h' = arena h.
Proof.
  intros Hl [Hnd Hd]%NoDup_cons Hn Ht h'.
  destruct (paging_free_tables_spec ts 0 dir m h (<[dir := 1]> A)) as [Hl1 Ha1]; [done..| |done|].
  - intros t Hin. rewrite lookup_insert_ne by (intros ->; done). apply Hn. set_solver.
  - subst h'. rewrite arena_free. split; [|done].
    rewrite <- (delete_insert_id A dir 1) by (apply Hn; set_solver).
    eapply live_free; [exact Hl1|]. apply lookup_insert_eq.
Qed.

Lemma owns_directory_free A h m c :
  owns_directory A h m c ->
  exists h', paging_free_4gb (h, m) c = (h', m) /\ live h' A /\ arena h' = arena h.
Proof.
  intros (ts & Hlen & Hd & Hn & Hl & Ht). apply NoDup_cons in Hd as [Hc Hd].
  set (dir := load32 m c) in *.
  assert (Hl' : live h (add_pages (<[dir := 1]> (<[c := 1]> A)) ts)).
  { replace (add_pages _ ts) with (<[c := 1]> (add_pages (<[dir := 1]> A) ts)); [done|].
    apply map_eq. intros x. rewrite add_pages_lookup.
    destruct (decide (x = c)) as [->|]; rewrite ?lookup_insert_eq, ?lookup_insert_ne by done.
    - rewrite decide_False by set_solver. rewrite lookup_insert_ne by set_solver.
      by rewrite lookup_insert_eq.
    - rewrite add_pages_lookup. case_decide; [done|].
      destruct (decide (x = dir)) as [->|]; rewrite ?lookup_insert_eq; [done|].
      by rewrite !lookup_insert_ne by done. }
  destruct (free_directory (<[c := 1]> A) h m dir ts) as [Hl1 Ha1]; [done..| |done|].
  { intros x Hx. rewrite lookup_insert_ne by set_solver. apply Hn. set_solver. }
  eexists. split; [reflexivity|]. fold dir. rewrite <- Hlen, arena_free. split; [|done].
  rewrite <- (delete_insert_id A c 1) by (apply Hn; set_solver).
  eapply live_free; [exact Hl1|]. apply lookup_insert_eq.
Qed.

(** ** Creating a directory *)

Lemma tables_ok_table m dir flags ts (k : nat) t :
  tables_ok m dir flags ts -> 0 <= t < 2 ^ 32 -> t mod 4096 = 0 -> 0 <= flags < 4096 ->
  ts !! k = Some t -> table_of m dir (Z.of_nat k) = t.
Proof.
  intros Ht Hr Ha Hf Hk. unfold table_of, pde. rewrite (proj1 (Ht k t Hk)).
  by apply new_entry_table.
Qed.

Lemma new_inv_table m0 A dir flags ts h m (k : nat) t :
  A !! dir = Some 1 -> 0 <= flags < 4096 -> new_inv m0 A dir flags ts h m -> ts !! k = Some t ->
  table_of m dir (Z.of_nat k) = t.
Proof.
  intros Hdir Hf I Hk.
  destruct (new_inv_page _ _ _ _ _ _ _ _ Hdir I (list_elem_of_lookup_2 _ _ _ Hk)) as (? & ? & ? & _).
  eapply tables_ok_table; [apply I|lia|done..].
Qed.

Section creation.
Context (A : gmap Z Z) (h0 : H) (m0 : mem) (dir flags : Z).
Hypothesis live0 : live h0 A.
Hypothesis dir_fresh : fresh_run A dir 1.
Hypothesis flags_ok : 0 <= flags < 4096.

Lemma creation_dir : A !! dir = None.
Proof. by eapply fresh_none. Qed.

(** Memory of other live allocations keeps its contents. *)
Lemma new_inv_same ts h m q n :
  new_inv m0 (<[dir := 1]> A) dir flags ts h m -> A !! q = Some n -> same_on m0 m q (q + 4096 * n).
Proof.
  intros I Hq a Ha. pose proof creation_dir as Hd.
  assert (Hqd : q <> dir) by congruence.
  assert (Hin : add_pages (<[dir := 1]> A) ts !! q = Some n).
  { rewrite add_pages_lookup, lookup_insert_ne, decide_False; [done| |done].
    intros Hts. pose proof (new_fresh _ _ _ _ _ _ _ I q Hts) as Hn.
    rewrite lookup_insert_ne in Hn by done. congruence. }
  pose proof (new_live _ _ _ _ _ _ _ I) as Hl.
  apply (new_frame _ _ _ _ _ _ _ I).
  - destruct dir_fresh as (_ & _ & _ & _ & Hap). specialize (Hap q n Hq). unfold apart in Hap. lia.
  - intros t Ht. assert (Htl : add_pages (<[dir := 1]> A) ts !! t = Some 1)
      by by rewrite add_pages_lookup, decide_True.
    assert (t <> q).
    { intros ->. pose proof (new_fresh _ _ _ _ _ _ _ I _ Ht) as Hn.
      rewrite lookup_insert_ne in Hn by done. congruence. }
    pose proof (live_apart _ _ _ _ _ _ Hl Htl Hin) as Hap. unfold apart in Hap. lia.
Qed.

(** The clean-up of a creation that fails restores the allocator. *)
Lemma new_inv_abort ts h m :
  new_inv m0 (<[dir := 1]> A) dir flags ts h m -> arena h = arena h0 ->
  kfree (paging_free_tables (length ts) 0 dir m h) dir = h0.
Proof.
  intros I Ha. pose proof creation_dir as Hd.
  destruct (free_directory A h m dir ts) as [Hl' Ha'].
  - apply I.
  - constructor; [|apply I]. intros Hin. pose proof (new_fresh _ _ _ _ _ _ _ I _ Hin) as Hn.
    by rewrite lookup_insert_eq in Hn.
  - intros x [-> | Hx]%elem_of_cons; [done|]. pose proof (new_fresh _ _ _ _ _ _ _ I _ Hx) as Hn.
    destruct (decide (x = dir)) as [->|]; [done|]. by rewrite lookup_insert_ne in Hn.
  - intros k t Hk. eapply new_inv_table; [apply lookup_insert_eq|done..].
  - eapply live_ext; [done..|congruence].
Qed.

(** The chunk allocated last and pointed at the directory completes the creation. *)
Lemma new_inv_chunk ts h m c h' m1 :
  new_inv m0 (<[dir := 1]> A) dir flags ts h m -> length ts = Z.to_nat 1024 ->
  kzalloc (h, m) 4 = (c, (h', m1)) -> c <> 0 ->
  let m' := store32 m1 c dir in
  load32 m' c = dir /\ owns_directory A h' m' c /\ tables_ok m' dir flags ts /\
  (forall a, a < c \/ c + 4096 <= a -> load8 m' a = load8 m a) /\ A !! c = None.
Proof.
  intros I Hlen Hz Hc m'. pose proof (new_live _ _ _ _ _ _ _ I) as Hl.
  destruct (kzalloc_spec h m _ 4 _ _ _ Hl ltac:(lia) Hz)
    as (_ & [(-> & _)|(_ & Hfr & Hl1 & ->)]); [done|].
  change (blocks_for 4) with 1 in Hfr, Hl1.
  pose proof (fresh_none _ _ _ _ Hl Hfr) as Hcn. rewrite add_pages_lookup in Hcn.
  case_decide as Hcts; [done|]. apply lookup_insert_None in Hcn as [HcA Hcd].
  pose proof creation_dir as Hd. destruct dir_fresh as (? & ? & _ & ? & _).
  assert (Hload : load32 m' c = dir)
    by (subst m'; rewrite load32_store32_eq; apply Z.mod_small; lia).
  assert (Hout : forall a, a < c \/ c + 4096 <= a -> load8 m' a = load8 m a).
  { intros a Ha. subst m'. rewrite load8_store32_ne by lia. by rewrite memset_load8, decide_False by lia. }
  assert (Hext : forall a, a + 4 <= c \/ c + 4096 <= a -> load32 m' a = load32 m a)
    by (intros a Ha; apply load32_ext; intros i Hi; apply Hout; lia).
  destruct Hfr as (_ & _ & _ & _ & Hap).
  assert (Hapd : apart c 1 dir 1)
    by (apply Hap; rewrite add_pages_lookup, lookup_insert_eq; by case_decide).
  assert (Htab : tables_ok m' dir flags ts).
  { intros d t Ht. pose proof (list_elem_of_lookup_2 _ _ _ Ht) as Hel.
    pose proof (lookup_lt_Some _ _ _ Ht).
    assert (Hapt : apart c 1 t 1) by (apply Hap; by rewrite add_pages_lookup, decide_True).
    destruct (new_tables _ _ _ _ _ _ _ I d t Ht) as [Hde Hle]. unfold apart in *.
    split; [|intros j Hj]; rewrite Hext by lia; [done|by apply Hle]. }
  split; [done|]. split; [|done]. exists ts. cbv zeta. rewrite Hload. split; [done|].
  split; [|split; [|split; [exact Hl1|]]].
  - constructor; [set_solver|]. constructor; [|apply I].
    intros Hin. pose proof (new_fresh _ _ _ _ _ _ _ I _ Hin) as Hn. by rewrite lookup_insert_eq in Hn.
  - intros x [-> | [-> | Hx]%elem_of_cons]%elem_of_cons; [done..|].
    pose proof (new_fresh _ _ _ _ _ _ _ I _ Hx) as Hn.
    by apply lookup_insert_None in Hn as [? _].
  - intros k t Hk. destruct (new_inv_page _ _ _ _ _ _ _ _ (lookup_insert_eq _ _ _) I
      (list_elem_of_lookup_2 _ _ _ Hk)) as (? & ? & ? & _).
    eapply tables_ok_table; [done|lia|done..].
Qed.
End creation.

(** Every page mapped to itself. *)
Definition identity_mapped (m : mem) (dir flags : Z) : Prop :=
  pd_wf m dir /\ forall p, 0 <= p < 2 ^ 20 -> pte m dir p = Z.lor (p * 4096) flags.

Lemma tables_ok_identity m dir flags ts :
  tables_ok m dir flags ts -> length ts = Z.to_nat 1024 -> NoDup ts ->
  0 < dir /\ dir mod 4096 = 0 /\ dir + 4096 <= 2 ^ 32 ->
  (forall t, t ∈ ts -> 0 < t /\ t mod 4096 = 0 /\ t + 4096 <= 2 ^ 32 /\ t <> dir) ->
  0 <= flags < 4096 -> Z.land flags PAGING_IS_PRESENT = PAGING_IS_PRESENT ->
  Z.land flags PAGING_PAGE_SIZE_FLAG = 0 ->
  identity_mapped m dir flags.
Proof.
  intros Ht Hlen Hnd Hdir Hpage Hf Hp Hs.
  assert (Hget : forall d, 0 <= d < 1024 -> exists t, ts !! Z.to_nat d = Some t /\ t mod 4096 = 0 /\
    t <> dir /\ pde m dir d = new_entry t flags /\ table_of m dir d = t).
  { intros d Hd. destruct (lookup_lt_is_Some_2 ts (Z.to_nat d) ltac:(lia)) as [t Hk].
    destruct (Hpage t (list_elem_of_lookup_2 _ _ _ Hk)) as (? & ? & ? & ?).
    pose proof (proj1 (Ht _ _ Hk)) as He. rewrite Z2Nat.id in He by lia.
    pose proof (tables_ok_table m dir flags ts _ t Ht ltac:(lia) ltac:(done) Hf Hk) as Htt.
    rewrite Z2Nat.id in Htt by lia. eauto 10. }
  assert (Hleaf : forall p, 0 <= p < 2 ^ 20 -> pte m dir p = Z.lor (p * 4096) flags).
  { intros p Hpr. destruct (Hget (p / 1024) ltac:(lia)) as (t & Hk & _ & _ & _ & Htt).
    unfold pte. rewrite Htt. rewrite (proj2 (Ht _ _ Hk)), Z2Nat.id by lia. f_equal. lia. }
  split; [|done]. constructor; [done|..].
  - intros d Hd. destruct (Hget d Hd) as (t & _ & Hta & _ & He & _).
    rewrite He, !new_entry_flag by (done || (unfold PAGING_IS_PRESENT, PAGING_IS_WRITEABLE,
      PAGING_PAGE_SIZE_FLAG; lia)).
    rewrite Hp, Hs, Z.land_diag, Z.lor_comm. split; [done|]. split; [|done].
    apply Z.bits_inj'. intros n _. rewrite Z.lor_spec, Z.land_spec.
    by destruct (Z.testbit flags n), (Z.testbit PAGING_IS_WRITEABLE n).
  - intros d Hd. destruct (Hget d Hd) as (t & _ & _ & Hne & _ & ->). done.
  - intros d1 d2 Hd1 Hd2 E. destruct (Hget d1 Hd1) as (t1 & K1 & _ & _ & _ & E1).
    destruct (Hget d2 Hd2) as (t2 & K2 & _ & _ & _ & E2). assert (t1 = t2) as -> by congruence.
    pose proof (NoDup_lookup _ _ _ _ Hnd K1 K2). lia.
  - intros p Hpr Hu. rewrite Hleaf in Hu by done.
    destruct (Hget (p / 1024) ltac:(lia)) as (t & _ & Hta & _ & -> & _).
    rewrite new_entry_flag by (done || (unfold PAGING_ACCESS_FROM_ALL; lia)).
    rewrite Z.land_lor_distr_l, (land_aligned_low (p * 4096)), Z.lor_0_l in Hu by lia.
    rewrite (land_sub flags 5 PAGING_ACCESS_FROM_ALL) by done. done.
Qed.

(** All that a successful creation promises, from the loop's invariant and the last allocation. *)
Lemma creation_done m0 A dir flags h0 ts h m c h' m1 :
  live h0 A -> fresh_run A dir 1 -> 0 <= flags < 4096 ->
  Z.land flags PAGING_IS_PRESENT = PAGING_IS_PRESENT -> Z.land flags PAGING_PAGE_SIZE_FLAG = 0 ->
  new_inv m0 (<[dir := 1]> A) dir flags ts h m -> length ts = Z.to_nat 1024 ->
  kzalloc (h, m) 4 = (c, (h', m1)) -> c <> 0 ->
  let m' := store32 m1 c dir in
  (forall q n, A !! q = Some n -> same_on m0 m' q (q + 4096 * n)) /\
  owns_directory A h' m' c /\ identity_mapped m' (load32 m' c) flags /\ chunk_ok m' c (load32 m' c).
Proof.
  intros Hl Hfr Hf Hp Hs I Hlen Hz Hc m'. pose proof Hfr as (Hd0 & Hda & _ & Hde & _).
  destruct (new_inv_chunk _ _ m0 _ _ Hl Hfr Hf _ _ _ _ _ _ I Hlen Hz Hc)
    as (Hload & Hown & Htab & Hout & HcA). fold m' in Hload, Hown, Htab, Hout.
  destruct (kzalloc_spec h m _ 4 _ _ _ (new_live _ _ _ _ _ _ _ I) ltac:(lia) Hz)
    as (_ & [(-> & _)|(_ & (Hc0 & Hca & _ & Hce & Hcap) & _)]); [done|].
  change (blocks_for 4) with 1 in Hcap, Hce.
  assert (Hpage : forall t, t ∈ ts -> 0 < t /\ t mod 4096 = 0 /\ t + 4096 <= 2 ^ 32 /\ t <> dir).
  { intros t Ht. destruct (new_inv_page _ _ _ _ _ _ _ _ (lookup_insert_eq _ _ _) I Ht) as (?&?&?&_&?). done. }
  split; [|split; [done|rewrite Hload; split]].
  - intros q n Hq. eapply same_on_trans; [by eapply new_inv_same|]. intros a Ha. apply Hout.
    assert (Hin : add_pages (<[dir := 1]> A) ts !! q = Some n).
    { rewrite add_pages_lookup. case_decide as Hts.
      - pose proof (new_fresh _ _ _ _ _ _ _ I _ Hts) as [? _]%lookup_insert_None. congruence.
      - rewrite lookup_insert_ne; [done|]. intros ->. pose proof (creation_dir _ _ _ Hl Hfr). congruence. }
    pose proof (Hcap q n Hin) as Hap. unfold apart in Hap. lia.
  - apply (tables_ok_identity _ _ _ ts); [done|done|apply I|done..].
  - split; [done|]. intros a Ha [Hin|(d & Hd & Hin)].
    + assert (Hap : apart c 1 dir 1)
        by (apply Hcap; rewrite add_pages_lookup, lookup_insert_eq; by case_decide).
      unfold apart in Hap. lia.
    + destruct (lookup_lt_is_Some_2 ts (Z.to_nat d) ltac:(lia)) as [t Hk].
      pose proof (list_elem_of_lookup_2 _ _ _ Hk) as Hel. destruct (Hpage t Hel) as (? & ? & ? & ?).
      pose proof (tables_ok_table m' dir flags ts _ t Htab ltac:(lia) ltac:(done) Hf Hk) as Htt.
      rewrite Z2Nat.id in Htt by lia.
      assert (Hap : apart c 1 t 1) by (apply Hcap; by rewrite add_pages_lookup, decide_True).
      unfold apart in Hap. lia.
Qed.

Lemma paging_new_4gb_spec h m A flags :
  live h A -> 0 <= flags < 4096 -> Z.land flags PAGING_IS_PRESENT = PAGING_IS_PRESENT ->
  Z.land flags PAGING_PAGE_SIZE_FLAG = 0 ->
  exists c h' m', paging_new_4gb (h, m) flags = (c, (h', m')) /\
    (forall q n, A !! q = Some n -> same_on m m' q (q + 4096 * n)) /\
    ((c = 0 /\ h' = h /\ capacity h < used A + 1026) \/
     (c <> 0 /\ arena h' = arena h /\ owns_directory A h' m' c /\
      identity_mapped m' (load32 m' c) flags /\ chunk_ok m' c (load32 m' c))).
Proof.
  intros Hl Hf Hp Hs. unfold paging_new_4gb.
  change (4 * PAGING_TOTAL_ENTRIES_PER_TABLE) with 4096.
  destruct (kzalloc (h, m) 4096) as [dir [h1 m1]] eqn:Hz.
  destruct (kzalloc_spec h m A 4096 _ _ _ Hl ltac:(lia) Hz) as [Ha1 [(-> & -> & ->)|(_ & Hfr & Hl1 & ->)]].
  { exists 0, h, m. split; [done|]. split; [done|]. left. split; [done|]. split; [done|].
    destruct (Z.lt_ge_cases (used A) (capacity h)) as [Hlt|]; [|lia].
    by destruct (kzalloc_room h m A 4096 _ _ _ Hl ltac:(lia) Hlt Hz). }
  change (blocks_for 4096) with 1 in Hfr, Hl1.
  pose proof Hfr as (Hd0 & Hda & _ & Hde & Hdap). pose proof (creation_dir _ _ _ Hl Hfr) as HdA.
  rewrite (proj2 (Z.eqb_neq dir 0)) by lia.

  assert (I0 : new_inv (memset m dir 0 4096) (<[dir := 1]> A) dir flags [] h1 (memset m dir 0 4096))
    by (constructor; [done|constructor|set_solver|by intros d t|done]).
  assert (Hold : forall m', (forall q n, A !! q = Some n -> same_on (memset m dir 0 4096) m' q (q + 4096 * n)) ->
    forall q n, A !! q = Some n -> same_on m m' q (q + 4096 * n)).
  { intros m' Hm q n Hq. eapply same_on_trans; [|by apply Hm]. apply same_on_memset; [lia|].
    pose proof (Hdap q n Hq) as Hap. unfold apart in Hap. lia. }
  destruct (paging_new_tables_spec (Z.to_nat 1024) _ _ _ _ _ _ _ (lookup_insert_eq A dir 1) Hde I0)
    as (ok & ts & h2 & m2 & Hrun & I & Ha2 & Hok); [simpl length; lia|done|].
  change (u32 (Z.of_nat (length []) * 4194304)) with 0 in Hrun.
  change (Z.of_nat (length [])) with 0 in Hrun. fold PAGING_TOTAL_ENTRIES_PER_TABLE in Hrun.
  rewrite Hrun, Nat2Z.id. clear Hrun.
  assert (Hcap : capacity h2 = capacity h /\ capacity h1 = capacity h)
    by (split; apply capacity_arena; congruence).
  assert (HuB : used (<[dir := 1]> A) = 1 + used A) by by apply used_insert.
  assert (Hab : kfree (paging_free_tables (length ts) 0 dir m2 h2) dir = h)
    by (eapply new_inv_abort; [done..|exact I|congruence]).
  assert (Hsame : forall q n, A !! q = Some n -> same_on (memset m dir 0 4096) m2 q (q + 4096 * n))
    by (intros q n Hq; eapply new_inv_same; [exact Hl|exact Hfr|exact Hf|exact I|exact Hq]).
  destruct ok; cbn [negb]. 2: { rewrite Hab. exists 0, h, m2. split; [done|]. split; [by apply Hold|]. left.
    split; [done|]. split; [done|]. simpl length in Hok. lia. }
  destruct (kzalloc (h2, m2) 4) as [c [h3 m3]] eqn:Hz3. pose proof (new_live _ _ _ _ _ _ _ I) as Hl2.
  pose proof (used_add_pages (<[dir := 1]> A) ts (new_dup _ _ _ _ _ _ _ I) (new_fresh _ _ _ _ _ _ _ I)) as Hu2.
  destruct (kzalloc_spec h2 m2 _ 4 _ _ _ Hl2 ltac:(lia) Hz3) as [Ha3 Hcase].
  destruct (Z.eqb_spec c 0) as [->|Hc].
  { destruct Hcase as [(_ & -> & ->)|(_ & (? & _) & _)]; [|lia].
    rewrite Hab. exists 0, h, m2. split; [done|]. split; [by apply Hold|]. left.
    split; [done|]. split; [done|]. destruct (Z.lt_ge_cases (used (add_pages (<[dir := 1]> A) ts)) (capacity h2)) as [Hlt|]; [|simpl length in Hok; lia].
    by destruct (kzalloc_room h2 m2 _ 4 _ _ _ Hl2 ltac:(lia) Hlt Hz3). }
  exists c, h3, (store32 m3 c dir). split; [done|].
  destruct (creation_done _ _ _ _ _ _ _ _ _ _ _ Hl Hfr Hf Hp Hs I Hok Hz3 Hc) as (? & ? & ? & ?).
  split; [by apply Hold|]. right. split; [done|]. split; [congruence|]. auto.
Qed.
End fresh.

(** ** Owned directories under updates *)

Lemma owns_directory_update `{AllocatorLaws H} A (h : H) m m' c upd :
  owns_directory A h m c -> chunk_ok m c (load32 m c) -> pd_update m m' (load32 m c) upd ->
  owns_directory A h m' c.
Proof.
  intros (ts & Hlen & Hd & Hn & Hl & Ht) C U.
  destruct (chunk_ok_update _ _ _ _ _ U C) as [Hload _].
  exists ts. cbv zeta. rewrite Hload. split; [done|]. split; [done|]. split; [done|]. split; [done|].
  intros k t Hk. rewrite (upd_tables _ _ _ _ U); [by apply Ht|].
  apply lookup_lt_Some in Hk. lia.
Qed.

Lemma paging_map_to_ok cur m chunk dir virt phys phys_end flags :
  pd_wf m dir -> chunk_ok m chunk dir -> dir <> cur -> 0 <= flags < 4096 ->
  0 <= virt -> virt mod 4096 = 0 -> virt + (phys_end - phys) <= 2 ^ 32 ->
  0 <= phys <= phys_end -> phys mod 4096 = 0 -> phys_end mod 4096 = 0 -> phys_end <= 2 ^ 32 ->
  exists m', paging_map_to cur m chunk virt phys phys_end flags = (0, m') /\
    pd_update m m' dir (mapped virt phys ((phys_end - phys) / 4096) flags).
Proof.
  intros W C Hc Hf Hv Hva Hve Hp Hpa Hpea Hpe.
  destruct (paging_map_range_loop_ok (Z.to_nat ((phys_end - phys) / 4096)) cur 0 m chunk dir virt phys flags)
    as (r & m' & E & Hr & U); [done || lia..|].
  exists m'. rewrite Z2Nat.id in U by lia. split; [|done].
  unfold paging_map_to, PAGING_PAGE_SIZE. rewrite Hva, Hpa, Hpea, (proj2 (Z.ltb_ge _ _)) by lia.
  cbn [Z.eqb negb]. unfold paging_map_range. rewrite E. f_equal. by case_decide.
Qed.

(** The kernel heap right after [kheap_init]. *)
Lemma kheap_room : exists h : heap, live h ∅ /\ capacity h = 25600.
Proof.
  destruct (kheap_init_repr (Heap (HeapTable [] 0) 0) (replicate (Z.to_nat 25600) 0))
    as (h & _ & R & _ & Ht); [by rewrite length_replicate|].
  exists h. split; [|done]. exists ∅. by rewrite kmap_empty.
Qed.

(** ** Theorems *)

(** C14: [paging_new_4gb] leaves the contents of every live allocation unchanged and either fails,
    with the allocator exactly as before, or returns a chunk that owns exactly 1026 new pages and
    whose directory is well formed and maps every one of the 2^20 pages to itself with the given
    flags. It does not fail when 1026 blocks are free. *)
Theorem paging_new_4gb_identity `{AllocatorLaws H} (h : H) m A flags :
  live h A -> 0 <= flags < 256 -> Z.land flags PAGING_IS_PRESENT = PAGING_IS_PRESENT ->
  Z.land flags PAGING_PAGE_SIZE_FLAG = 0 ->
  exists c h' m', paging_new_4gb (h, m) flags = (c, (h', m')) /\
    (forall q n, A !! q = Some n -> same_on m m' q (q + 4096 * n)) /\
    ((c = 0 /\ h' = h /\ capacity h < used A + 1026) \/
     (c <> 0 /\ owns_directory A h' m' c /\ chunk_ok m' c (load32 m' c) /\
      pd_wf m' (load32 m' c) /\
      forall p, 0 <= p < 2 ^ 20 -> pte m' (load32 m' c) p = Z.lor (p * 4096) flags)).
Proof.
  intros Hl Hf Hp Hs.
  destruct (paging_new_4gb_spec h m A flags) as (c & h' & m' & E & Hsame & Hres); [done || lia..|].
  exists c, h', m'. split; [done|]. split; [done|].
  destruct Hres as [?|(? & _ & ? & [? ?] & ?)]; auto 10.
Qed.

Lemma paging_new_4gb_identity_witness :
  exists (h : heap) c h' m', paging_new_4gb (h, ∅) 3 = (c, (h', m')) /\ c <> 0 /\
    pte m' (load32 m' c) 1024 = 4194307.
Proof.
  destruct kheap_room as (h & Hl & Hcap).
  destruct (paging_new_4gb_identity h ∅ ∅ 3 Hl) as (c & h' & m' & E & _ & [(_ & _ & Hu)|(Hc & _ & _ & _ & Hp)]);
    [lia|reflexivity|reflexivity|exfalso; change (used ∅) with 0 in Hu; lia|].
  exists h, c, h', m'. split; [exact E|]. split; [exact Hc|]. rewrite Hp by lia. reflexivity.
Defined.

(** the memory of a directory has no leak and no double free: after [paging_new_4gb], and any
    remapping of pages since, [paging_free_4gb] brings the allocator back to the state before the
    creation. *)
Theorem paging_new_free_roundtrip `{AllocatorLaws H} (h : H) m A flags c h' m' m2 upd :
  live h A -> 0 <= flags < 256 -> Z.land flags PAGING_IS_PRESENT = PAGING_IS_PRESENT ->
  Z.land flags PAGING_PAGE_SIZE_FLAG = 0 ->
  paging_new_4gb (h, m) flags = (c, (h', m')) -> c <> 0 ->
  pd_update m' m2 (load32 m' c) upd ->
  paging_free_4gb (h', m2) c = (h, m2).
Proof.
  intros Hl Hf Hp Hs E Hc U.
  destruct (paging_new_4gb_spec h m A flags) as (? & ? & ? & E' & _ & Hres); [done || lia..|].
  rewrite E in E'. injection E' as <- <- <-.
  destruct Hres as [(? & _)|(_ & Ha & Hown & _ & C)]; [done|].
  destruct (owns_directory_free A h' m2 c) as (h2 & -> & Hl2 & Ha2); [by eapply owns_directory_update|].
  f_equal. eapply live_ext; [done..|congruence].
Qed.

Lemma paging_new_free_roundtrip_witness :
  exists (h : heap) c h' m', paging_new_4gb (h, ∅) 3 = (c, (h', m')) /\ c <> 0 /\
    paging_free_4gb (h', m') c = (h, m').
Proof.
  destruct kheap_room as (h & Hl & Hcap).
  destruct (paging_new_4gb_spec h ∅ ∅ 3 Hl) as (c & h' & m' & E & _ & [(_ & _ & Hu)|(Hc & _ & _ & [W _] & _)]);
    [lia|reflexivity|reflexivity|exfalso; change (used ∅) with 0 in Hu; lia|].
  exists h, c, h', m'. split; [exact E|]. split; [exact Hc|].
  apply (paging_new_free_roundtrip h ∅ ∅ 3 c h' m' m' (fun _ => None) Hl);
    [lia|reflexivity|reflexivity|exact E|exact Hc|by apply pd_update_none].
Defined.

(** [paging_map_to] changes exactly the leaves of the pages of the range, each to its physical
    page with the given flags, keeps the directory well formed and touches no memory outside the
    directory; a misaligned or reversed range is refused and nothing changes. *)
Theorem paging_map_to_effect cur m chunk dir virt phys phys_end flags :
  pd_wf m dir -> chunk_ok m chunk dir -> dir <> cur -> 0 <= flags < 4096 ->
  0 <= virt -> 0 <= phys -> 0 <= phys_end < 2 ^ 32 ->
  (if (virt mod 4096 =? 0) && (phys mod 4096 =? 0) && (phys_end mod 4096 =? 0) && (phys <=? phys_end)
   then virt + (phys_end - phys) <= 2 ^ 32 ->
     exists m', paging_map_to cur m chunk virt phys phys_end flags = (0, m') /\
       pd_update m m' dir (mapped virt phys ((phys_end - phys) / 4096) flags)
   else paging_map_to cur m chunk virt phys phys_end flags = (- EINVARG, m)).
Proof.
  intros W C Hc Hf Hv Hp Hpe. destruct (_ && _) eqn:Hb.
  - intros Hend. rewrite !andb_true_iff, !Z.eqb_eq, Z.leb_le in Hb. apply paging_map_to_ok; (done || lia).
  - unfold paging_map_to, PAGING_PAGE_SIZE. rewrite Z.ltb_antisym.
    destruct (virt mod 4096 =? 0), (phys mod 4096 =? 0), (phys_end mod 4096 =? 0), (phys <=? phys_end);
      done.
Qed.

Lemma paging_map_to_effect_witness :
  exists m chunk dir m', pd_wf m dir /\ paging_map_to 0 m chunk 4194304 8192 16384 7 = (0, m') /\
    pte m' dir 1025 = 12295.
Proof.
  destruct kheap_room as (h & Hl & Hcap).
  destruct (paging_new_4gb_spec h ∅ ∅ 3 Hl) as (c & h' & m & E & _ & [(_ & _ & Hu)|(Hc & _ & _ & [W _] & C)]);
    [lia|reflexivity|reflexivity|exfalso; change (used ∅) with 0 in Hu; lia|].
  pose proof (wf_dir _ _ W).
  destruct (paging_map_to_effect 0 m c (load32 m c) 4194304 8192 16384 7 W C) as (m' & E' & U); [lia..|].
  exists m, c, (load32 m c), m'. split; [exact W|]. split; [exact E'|].
  rewrite (upd_leaf _ _ _ _ U) by lia. reflexivity.
Defined.

(** the user address space of a task starts empty and grows only by mapping: in a directory
    made for kernel access and then extended by one user range, [paging_user_translate] succeeds
    for exactly the addresses of that range (for writing only if it was mapped writable) and gives
    the corresponding physical address. *)
Theorem user_translate_isolated `{AllocatorLaws H} (h : H) m A c h' m' cur virt phys n w m2 write addr :
  live h A -> paging_new_4gb (h, m) 3 = (c, (h', m')) -> c <> 0 -> load32 m' c <> cur ->
  0 <= virt -> virt mod 4096 = 0 -> 0 <= phys -> phys mod 4096 = 0 -> 0 <= n ->
  virt + n * 4096 <= 2 ^ 32 -> phys + n * 4096 <= 2 ^ 32 ->
  paging_map_to cur m' c virt phys (phys + n * 4096) (user_flags w) = (0, m2) ->
  0 <= addr < 2 ^ 32 ->
  paging_user_translate m2 (load32 m' c) addr write =
    if (virt <=? addr) && (addr <? virt + n * 4096) && implb write w
    then (0, Some (phys + (addr - virt))) else (- EINVARG, None).
Proof.
  intros Hl E Hc Hcur Hv Hva Hp Hpa Hn Hve Hpe Emap Haddr.
  destruct (paging_new_4gb_spec h m A 3) as (? & ? & ? & E' & _ & Hres); [done || lia..|].
  rewrite E in E'. injection E' as <- <- <-.
  destruct Hres as [(? & _)|(_ & _ & _ & [W Hid] & C)]; [done|].
  assert (Hw : 0 <= user_flags w < 4096) by (destruct w; simpl; lia).
  destruct (paging_map_to_ok cur m' c (load32 m' c) virt phys (phys + n * 4096) (user_flags w))
    as (? & E2 & U); [done || lia..|].
  rewrite Emap in E2. injection E2 as <-.
  rewrite paging_user_translate_leaf by (apply U || done). cbv zeta.
  rewrite (upd_leaf _ _ _ _ U) by lia. unfold mapped.
  replace ((phys + n * 4096 - phys) / 4096) with n by lia.
  destruct ((virt / 4096 <=? addr / 4096) && (addr / 4096 <? virt / 4096 + n)) eqn:Hin.
  - rewrite andb_true_iff, Z.leb_le, Z.ltb_lt in Hin. cbn [default from_option id].
    rewrite (proj2 (Z.leb_le virt addr)), (proj2 (Z.ltb_lt addr _)) by lia. cbn [andb].
    set (f := phys + (addr / 4096 - virt / 4096) * 4096).
    assert (Hf : f mod 4096 = 0 /\ 0 <= f < 2 ^ 32) by lia.
    rewrite !Z.land_lor_distr_l, (land_aligned_low f) by (destruct write; simpl; lia). rewrite Z.lor_0_l.
    replace (Z.land (user_flags w) FRAME_MASK) with 0 by by destruct w.
    rewrite Z.lor_0_r, land_frame_mask by lia.
    replace (f - f mod 4096 + addr mod 4096) with (phys + (addr - virt)) by lia.
    by destruct write, w.
  - cbn [default from_option id]. rewrite Hid by lia.
    rewrite Z.land_lor_distr_l, land_aligned_low by (destruct write; simpl; lia).
    replace (Z.lor 0 (Z.land 3 (user_flags write)) =? user_flags write) with false by by destruct write.
    apply andb_false_iff in Hin. rewrite Z.leb_gt, Z.ltb_ge in Hin.
    case_Zb; cbn [andb]; (done || lia).
Qed.

Lemma user_translate_isolated_witness :
  exists m2 dir, paging_user_translate m2 dir 4202500 true = (0, Some 24580) /\
    paging_user_translate m2 dir 4096 false = (- EINVARG, None).
Proof.
  destruct kheap_room as (h & Hl & Hcap).
  destruct (paging_new_4gb_spec h ∅ ∅ 3 Hl) as (c & h' & m & E & _ & [(_ & _ & Hu)|(Hc & _ & _ & [W _] & C)]);
    [lia|reflexivity|reflexivity|exfalso; change (used ∅) with 0 in Hu; lia|].
  pose proof (wf_dir _ _ W).
  destruct (paging_map_to_ok 0 m c (load32 m c) 4194304 16384 (16384 + 4 * 4096) 7 W C)
    as (m2 & E2 & _); [lia..|].
  exists m2, (load32 m c).
  split; [rewrite (user_translate_isolated h ∅ ∅ c h' m 0 4194304 16384 4 true m2 true 4202500);
            [reflexivity|(done || lia)..]|].
  rewrite (user_translate_isolated h ∅ ∅ c h' m 0 4194304 16384 4 true m2 false 4096);
    [reflexivity|(done || lia)..].
Defined.
