(* ===== verification/Sched.v ===== *)
(** * Tasks, scheduling and sleeping (kernel/task/task.c, kernel/arch/i686/pit.c)

    Task structures live in a typed store, the map from their address to their contents; the list of
    published tasks is threaded through their [next] and [prev] pointers. Operations that follow a
    pointer return [None] where the pointer is not the address of a task, so that a theorem that
    gives a [Some] result also says that every dereference is valid. [sched_wf s ts] relates a state
    to the list [ts] of published tasks; the theorems show that publishing and removing tasks
    implement list operations, that the scheduler is a round robin over the runnable tasks, and that
    sleepers wake when their deadline is reached, also across the wrap of the tick counter, and never
    earlier. *)

From stdpp Require Import base numbers list gmap.
From Stdlib Require Import ZArith Lia.
From S2P Require Import Prelude Alloc Heap Memory Paging.

#[local] Set Default Goal Selector "!".

(** ** Data *)

Record registers := Registers {
  r_edi : Z; r_esi : Z; r_ebp : Z; r_ebx : Z; r_edx : Z; r_ecx : Z; r_eax : Z;
  r_ip : Z; r_cs : Z; r_flags : Z; r_esp : Z; r_ss : Z
}.

Record interrupt_frame := InterruptFrame {
  f_edi : Z; f_esi : Z; f_ebp : Z; f_reserved : Z; f_ebx : Z; f_edx : Z; f_ecx : Z; f_eax : Z;
  f_error_code : Z; f_ip : Z; f_cs : Z; f_flags : Z; f_esp : Z; f_ss : Z
}.

Inductive task_state := TASK_RUNNABLE | TASK_SLEEPING.

#[export] Instance task_state_eq_dec : EqDecision task_state.
Proof. solve_decision. Defined.

Record task := Task {
  id : Z;
  page_directory : Z;
  regs : registers;
  process : Z;
  burstTime : Z;
  remainingTime : Z;
  next : Z;
  prev : Z;
  state : task_state;
  wake_tick : Z
}.

Definition set_next (q : Z) (t : task) : task :=
  Task (id t) (page_directory t) (regs t) (process t) (burstTime t) (remainingTime t) q (prev t)
    (state t) (wake_tick t).
Definition set_prev (q : Z) (t : task) : task :=
  Task (id t) (page_directory t) (regs t) (process t) (burstTime t) (remainingTime t) (next t) q
    (state t) (wake_tick t).
Definition set_state (x : task_state) (t : task) : task :=
  Task (id t) (page_directory t) (regs t) (process t) (burstTime t) (remainingTime t) (next t)
    (prev t) x (wake_tick t).
Definition set_wake_tick (w : Z) (t : task) : task :=
  Task (id t) (page_directory t) (regs t) (process t) (burstTime t) (remainingTime t) (next t)
    (prev t) (state t) w.
Definition set_regs (r : registers) (t : task) : task :=
  Task (id t) (page_directory t) r (process t) (burstTime t) (remainingTime t) (next t)
    (prev t) (state t) (wake_tick t).

(** The statics of task.c and pit.c, the kernel's chunk, and of the processor: the loaded page
    directory, whether the user's data segments are loaded, and the port writes so far, the latest
    first. *)
Record sched := Sched {
  task_store : gmap Z task;
  task_head : Z;
  task_tail : Z;
  current_task : Z;
  tasks : Z;
  jiffies : Z;
  kernel_chunk : Z;
  cpu : paging_cpu;
  user_segments : bool;
  ports : list (Z * Z)
}.

Definition with_store (st : gmap Z task) (s : sched) : sched :=
  Sched st (task_head s) (task_tail s) (current_task s) (tasks s) (jiffies s) (kernel_chunk s)
    (cpu s) (user_segments s) (ports s).
Definition with_head (p : Z) (s : sched) : sched :=
  Sched (task_store s) p (task_tail s) (current_task s) (tasks s) (jiffies s) (kernel_chunk s)
    (cpu s) (user_segments s) (ports s).
Definition with_tail (p : Z) (s : sched) : sched :=
  Sched (task_store s) (task_head s) p (current_task s) (tasks s) (jiffies s) (kernel_chunk s)
    (cpu s) (user_segments s) (ports s).
Definition with_current (p : Z) (s : sched) : sched :=
  Sched (task_store s) (task_head s) (task_tail s) p (tasks s) (jiffies s) (kernel_chunk s)
    (cpu s) (user_segments s) (ports s).
Definition with_tasks (n : Z) (s : sched) : sched :=
  Sched (task_store s) (task_head s) (task_tail s) (current_task s) n (jiffies s) (kernel_chunk s)
    (cpu s) (user_segments s) (ports s).
Definition with_jiffies (j : Z) (s : sched) : sched :=
  Sched (task_store s) (task_head s) (task_tail s) (current_task s) (tasks s) j (kernel_chunk s)
    (cpu s) (user_segments s) (ports s).
Definition with_cpu (c : paging_cpu) (u : bool) (s : sched) : sched :=
  Sched (task_store s) (task_head s) (task_tail s) (current_task s) (tasks s) (jiffies s)
    (kernel_chunk s) c u (ports s).
Definition outb (port v : Z) (s : sched) : sched :=
  Sched (task_store s) (task_head s) (task_tail s) (current_task s) (tasks s) (jiffies s)
    (kernel_chunk s) (cpu s) (user_segments s) ((port, v) :: ports s).

(** A store through the pointer [p]. *)
Definition update (p : Z) (f : task -> task) (s : sched) : option sched :=
  t ← task_store s !! p; Some (with_store (<[p := f t]> (task_store s)) s).

(** ** The task list *)

Definition task_publish (p : Z) (s : sched) : option sched :=
  if task_head s =? 0 then Some (with_current p (with_tail p (with_head p s)))
  else
    s ← update (task_tail s) (set_next p) s;
    s ← update p (set_prev (task_tail s)) s;
    Some (with_tail p s).

(** The loop of [task_get_next]. It visits each task at most once, so the number of tasks is enough
    fuel. *)
Fixpoint get_next_loop (fuel : nat) (start p : Z) (s : sched) : option Z :=
  match fuel with
  | O => None
  | S fuel =>
    if p =? 0 then Some 0
    else
      t ← task_store s !! p;
      if decide (state t = TASK_RUNNABLE) then Some p
      else
        let p := if next t =? 0 then task_head s else next t in
        if p =? start then Some 0 else get_next_loop fuel start p s
  end.

Definition task_get_next (s : sched) : option Z :=
  start ← (if current_task s =? 0 then Some (task_head s)
           else t ← task_store s !! current_task s;
                Some (if next t =? 0 then task_head s else next t));
  get_next_loop (S (size (task_store s))) start start s.

Definition task_list_remove (p : Z) (s : sched) : option sched :=
  t ← task_store s !! p;
  s ← (if prev t =? 0 then Some s else update (prev t) (set_next (next t)) s);
  s ← (if next t =? 0 then Some s else update (next t) (set_prev (prev t)) s);
  let s := if p =? task_head s then with_head (next t) s else s in
  let s := if p =? task_tail s then with_tail (prev t) s else s in
  let s := if p =? current_task s
           then with_current (if next t =? 0 then task_head s else next t) s else s in
  s ← update p (set_prev 0) s;
  update p (set_next 0) s.

(** ** Switching *)

Section switching.
(** Kernel memory, which holds the chunks the directories are read from. *)
Context (m : mem).

Definition kernel_page (s : sched) : sched :=
  with_cpu (paging_switch m (kernel_chunk s)) false s.

Definition task_switch (p : Z) (s : sched) : option sched :=
  t ← task_store s !! p;
  Some (with_cpu (paging_switch m (page_directory t)) (user_segments s) (with_current p s)).

Definition task_page (s : sched) : option sched :=
  let s := with_cpu (cpu s) true s in
  task_switch (current_task s) s.

Definition task_page_task (p : Z) (s : sched) : option sched :=
  t ← task_store s !! p;
  Some (with_cpu (paging_switch m (page_directory t)) true s).

(** ** Sleeping *)

Fixpoint wake_loop (fuel : nat) (p now : Z) (s : sched) : option sched :=
  match fuel with
  | O => None
  | S fuel =>
    if p =? 0 then Some s
    else
      t ← task_store s !! p;
      let due := u32 (now - wake_tick t) <? 2147483648 in
      s ← (if bool_decide (state t = TASK_SLEEPING) && due
           then update p (set_state TASK_RUNNABLE) s else Some s);
      t ← task_store s !! p;
      wake_loop fuel (next t) now s
  end.

Definition task_wake_sleepers (now : Z) (s : sched) : option sched :=
  wake_loop (S (size (task_store s))) (task_head s) now s.

(** ** The timer *)

Definition PIT_FREQUENCY_HZ : Z := 100.
Definition INPUT_CLOCK_FREQUENCY : Z := 1193182.
Definition PIT_COMMAND : Z := 0x43.
Definition PIT_COUNTER0 : Z := 0x40.
Definition PIT_MODE : Z := 0x36.
Definition PIT_DIVISOR : Z := (INPUT_CLOCK_FREQUENCY + PIT_FREQUENCY_HZ - 1) / PIT_FREQUENCY_HZ.
Definition PIT_SLEEP_GUARD_TICKS : Z := 2.
Definition RORTHOX_PIC_MASTER_VECTOR_BASE : Z := 32.
Definition RORTHOX_PIC_SLAVE_VECTOR_BASE : Z := 40.

Definition pit_set_frequency (s : sched) : sched :=
  let divisor := u16 PIT_DIVISOR in
  let s := outb PIT_COMMAND PIT_MODE s in
  let s := outb PIT_COUNTER0 (Z.land divisor 0xFF) s in
  outb PIT_COUNTER0 (Z.land (Z.shiftr divisor 8) 0xFF) s.

Definition pit_get_ticks (s : sched) : Z := jiffies s.

Definition PIT_MS_TO_TICKS (ms : Z) : Z :=
  u32 (u32 (ms / 1000 * PIT_FREQUENCY_HZ) + u32 (ms mod 1000 * PIT_FREQUENCY_HZ + 999) / 1000
       + PIT_SLEEP_GUARD_TICKS).

Definition pit_ms_to_ticks (milliseconds : Z) : Z :=
  if milliseconds =? 0 then 0 else PIT_MS_TO_TICKS milliseconds.

Definition pic_send_eoi (interrupt : Z) (s : sched) : sched :=
  let slave := (RORTHOX_PIC_SLAVE_VECTOR_BASE <=? interrupt) &&
               (interrupt <? RORTHOX_PIC_SLAVE_VECTOR_BASE + 8) in
  let master := (RORTHOX_PIC_MASTER_VECTOR_BASE <=? interrupt) &&
                (interrupt <? RORTHOX_PIC_MASTER_VECTOR_BASE + 8) in
  let s := if slave then outb 0xA0 0x20 s else s in
  if master || slave then outb 0x20 0x20 s else s.

(** The part of [pit_tick] for an interrupt of the idle loop, the first branch. *)
Definition pit_tick_idle (s : sched) : option sched :=
  let s := with_jiffies (u32 (jiffies s + 1)) s in
  task_wake_sleepers (jiffies s) s.

(** ** task_next

    The idle loop halts until an interrupt has been handled. [halts] lists, for each return from the
    halt, the interrupts handled during it: the timer's, the keyboard's with the byte of its controller, and those of
    other vectors. The handler of the keyboard leaves the tasks as they are; what it does is outside the scheduler,
    so the bytes that came in while the loop ran are a part of the result. *)
Inductive irq := IrqTimer | IrqKeyboard (scancode : Z) | IrqOther (interrupt : Z).

(** [interrupt_handler] for an interrupt taken in ring 0. *)
Definition irq_idle (e : irq) (s : sched) : option sched :=
  let s := kernel_page s in
  match e with
  | IrqTimer => s ← pit_tick_idle s; Some (pic_send_eoi RORTHOX_PIC_MASTER_VECTOR_BASE s)
  | IrqKeyboard _ => Some (pic_send_eoi (RORTHOX_PIC_MASTER_VECTOR_BASE + 1) s)
  | IrqOther interrupt => Some (pic_send_eoi interrupt s)
  end.

Definition scancodes (es : list irq) : list Z := omap (fun e => match e with IrqKeyboard c => Some c | _ => None end) es.

Fixpoint irqs_idle (es : list irq) (s : sched) : option sched :=
  match es with
  | [] => Some s
  | e :: es => s ← irq_idle e s; irqs_idle es s
  end.

Inductive next_outcome :=
  | NextPanic
  (** the processor still halts in the idle loop *)
  | NextHalted (s : sched)
  (** user mode entered with the registers given *)
  | NextRun (p : Z) (r : registers) (s : sched).

Fixpoint task_idle (halts : list (list irq)) (s : sched) : option (Z * sched * list Z) :=
  p ← task_get_next s;
  if p =? 0 then
    match halts with
    | [] => Some (0, s, [])
    | es :: halts => s ← irqs_idle es s; '(p, s, keys) ← task_idle halts s; Some (p, s, scancodes es ++ keys)
    end
  else Some (p, s, []).

Definition task_return (p : Z) (s : sched) : option next_outcome :=
  t ← task_store s !! p; Some (NextRun p (regs t) s).

(** The outcome, and the bytes of the keyboard. *)
Definition task_next (halts : list (list irq)) (s : sched) : option (next_outcome * list Z) :=
  if task_head s =? 0 then Some (NextPanic, [])
  else
    next_task ← task_get_next s;
    '(next_task, s, keys) ← (if next_task =? 0 then task_idle halts (kernel_page s)
                             else Some (next_task, s, []));
    if next_task =? 0 then Some (NextHalted s, keys)
    else s ← task_switch next_task s; o ← task_return next_task s; Some (o, keys).

Definition task_sleep_until (deadline : Z) (halts : list (list irq)) (s : sched) : option (next_outcome * list Z) :=
  if current_task s =? 0 then Some (NextPanic, [])
  else
    let p := current_task s in
    s ← update p (set_wake_tick deadline) s;
    s ← update p (set_state TASK_SLEEPING) s;
    task_next halts s.

(** [pit_tick] for an interrupt taken in user mode ([frame->cs & 3 == 3]) and in the idle loop. *)
Definition pit_tick (frame : interrupt_frame) (halts : list (list irq)) (s : sched)
  : option (sched + next_outcome * list Z) :=
  if negb (Z.land (f_cs frame) 3 =? 3) then s ← pit_tick_idle s; Some (inl s)
  else
    let s := pic_send_eoi RORTHOX_PIC_MASTER_VECTOR_BASE s in
    let s := with_jiffies (u32 (jiffies s + 1)) s in
    s ← task_wake_sleepers (jiffies s) s;
    o ← task_next halts s; Some (inr o).

Definition task_run_first_ever_task (s : sched) : option next_outcome :=
  if current_task s =? 0 then Some NextPanic
  else s ← task_switch (task_head s) s; task_return (task_head s) s.

(** ** Saving the user's registers *)

Definition task_save_state (p : Z) (frame : interrupt_frame) (s : sched) : option sched :=
  update p (set_regs (Registers (f_edi frame) (f_esi frame) (f_ebp frame) (f_ebx frame)
    (f_edx frame) (f_ecx frame) (f_eax frame) (f_ip frame) (f_cs frame) (f_flags frame)
    (f_esp frame) (f_ss frame))) s.

(** [None] also where the kernel panics, when there is no current task. *)
Definition task_current_save_state (frame : interrupt_frame) (s : sched) : option sched :=
  if current_task s =? 0 then None else task_save_state (current_task s) frame s.
End switching.

(** ** The invariant *)

(** The pointers of the task at position [i] of the list. *)
Definition link_next (ts : list Z) (i : nat) : Z := default 0 (ts !! S i).
Definition link_prev (ts : list Z) (i : nat) : Z :=
  match i with O => 0 | S j => default 0 (ts !! j) end.

(** The tasks of [ts] are linked in this order. *)
Definition linked (st : gmap Z task) (ts : list Z) : Prop :=
  forall i p, ts !! i = Some p ->
    exists t, st !! p = Some t /\ next t = link_next ts i /\ prev t = link_prev ts i.

Record sched_wf (s : sched) (ts : list Z) : Prop := SchedWf {
  wf_nodup : NoDup ts;
  wf_null : 0 ∉ ts;
  wf_store : task_store s !! 0 = None;
  wf_head : task_head s = default 0 (ts !! 0%nat);
  wf_tail : task_tail s = default 0 (last ts);
  wf_linked : linked (task_store s) ts;
  wf_current : match ts with [] => current_task s = 0 | _ => current_task s ∈ ts end
}.

(** A task that [task_new] made and nobody has published. *)
Definition detached (s : sched) (p : Z) : Prop :=
  p <> 0 /\ exists t, task_store s !! p = Some t /\ next t = 0 /\ prev t = 0.

(** ** Publishing *)

Lemma wf_empty s ts : sched_wf s ts -> task_head s = 0 <-> ts = [].
Proof.
  intros W. rewrite (wf_head _ _ W). split; [|by intros ->].
  destruct ts as [|p ts]; [done|]. simpl. intros ->. destruct (wf_null _ _ W). set_solver.
Qed.

Lemma linked_size st ts : NoDup ts -> linked st ts -> (length ts <= size st)%nat.
Proof.
  intros Hd Hl. rewrite <- (size_list_to_set (C := gset Z) ts Hd), <- size_dom.
  apply subseteq_size. intros p Hp. apply elem_of_list_to_set, list_elem_of_lookup_1 in Hp as [i Hi].
  destruct (Hl i p Hi) as (t & Ht & _). by eapply elem_of_dom_2.
Qed.

Lemma link_next_snoc ts p i :
  (i < length ts)%nat ->
  link_next (ts ++ [p]) i = if decide (S i = length ts) then p else link_next ts i.
Proof.
  intros Hi. unfold link_next. destruct (decide (S i = length ts)) as [E|E].
  - by rewrite E, lookup_app_r, Nat.sub_diag by lia.
  - by rewrite lookup_app_l by lia.
Qed.

Lemma link_prev_snoc ts p i : (i < length ts)%nat -> link_prev (ts ++ [p]) i = link_prev ts i.
Proof. intros Hi. destruct i; [done|]. simpl. by rewrite lookup_app_l by lia. Qed.

Lemma link_prev_end ts p : link_prev (ts ++ [p]) (length ts) = default 0 (last ts).
Proof.
  destruct (length ts) as [|n] eqn:E; simpl.
  - apply nil_length_inv in E. by subst.
  - rewrite lookup_app_l, last_lookup, E by lia. done.
Qed.

Lemma last_index (ts : list Z) q : last ts = Some q -> ts !! pred (length ts) = Some q.
Proof. by rewrite last_lookup. Qed.

Lemma NoDup_index (ts : list Z) i j p : NoDup ts -> ts !! i = Some p -> ts !! j = Some p -> i = j.
Proof. intros Hd Hi Hj. by eapply NoDup_lookup. Qed.

(** Appending task [p] to a list that is not empty. *)
Lemma linked_snoc st ts p q tq tp :
  NoDup (ts ++ [p]) -> linked st ts -> last ts = Some q -> st !! q = Some tq -> st !! p = Some tp ->
  next tp = 0 ->
  linked (<[p := set_prev q tp]> (<[q := set_next p tq]> st)) (ts ++ [p]).
Proof.
  intros Hd Hl Hlast Hq Hp Hn i x Hx. pose proof (last_index _ _ Hlast) as Hqi.
  apply NoDup_app in Hd as (Hd & Hdis & _).
  apply lookup_app_Some in Hx as [Hx|[Hge Hx]].
  - assert (Hxp : x <> p) by (intros ->; apply list_elem_of_lookup_2 in Hx; set_solver).
    pose proof (lookup_lt_Some _ _ _ Hx). destruct (Hl i x Hx) as (t & Ht & Hnx & Hpv).
    rewrite lookup_insert_ne, link_next_snoc, link_prev_snoc by (done || lia).
    destruct (decide (x = q)) as [->|Hxq].
    + pose proof (NoDup_index _ _ _ _ Hd Hx Hqi). exists (set_next p tq).
      rewrite lookup_insert_eq, decide_True by lia. assert (t = tq) as -> by congruence. done.
    + exists t. rewrite lookup_insert_ne by done. rewrite decide_False; [done|].
      intros E. destruct Hxq. rewrite <- E in Hqi. simpl in Hqi. congruence.
  - apply list_lookup_singleton_Some in Hx as [Hi <-]. assert (i = length ts) as -> by lia.
    exists (set_prev q tp). rewrite lookup_insert_eq. split; [done|]. simpl. split.
    + rewrite Hn. unfold link_next. rewrite lookup_ge_None_2; [done|]. rewrite length_app. simpl. lia.
    + by rewrite link_prev_end, Hlast.
Qed.

Lemma task_publish_spec s ts p :
  sched_wf s ts -> detached s p -> p ∉ ts ->
  exists s', task_publish p s = Some s' /\ sched_wf s' (ts ++ [p]) /\
    current_task s' = (if decide (ts = []) then p else current_task s).
Proof.
  intros W (Hp0 & tp & Htp & Hn & Hpv) Hnin. unfold task_publish.
  assert (Hd : NoDup (ts ++ [p])).
  { apply NoDup_app. split; [apply W|]. split; [set_solver|apply NoDup_singleton]. }
  assert (H0 : 0 ∉ ts ++ [p]).
  { intros [Hin|Hin%list_elem_of_singleton]%elem_of_app; [by apply (wf_null _ _ W)|done]. }
  destruct (Z.eqb_spec (task_head s) 0) as [E|E].
  - apply (wf_empty _ _ W) in E as ->. eexists. split; [done|]. split; [|by rewrite decide_True].
    constructor; simpl; try done; [..|set_solver].
    + apply W.
    + intros [|i] x Hx; [|done]. injection Hx as <-. exists tp. done.
  - assert (Hne : ts <> []) by by rewrite <- (wf_empty _ _ W).
    destruct (last ts) as [q|] eqn:Hlast; [|by apply last_None in Hlast].
    assert (Hqin : q ∈ ts) by by apply last_Some_elem_of.
    destruct (wf_linked _ _ W _ _ (last_index _ _ Hlast)) as (tq & Htq & _).
    assert (Htail : task_tail s = q) by by rewrite (wf_tail _ _ W), Hlast.
    unfold update. rewrite Htail, Htq. simpl. rewrite lookup_insert_ne by (intros ->; done).
    rewrite Htp. simpl. rewrite Htail.
    eexists. split; [done|]. split; [|by rewrite decide_False].
    constructor; simpl; try done.
    + rewrite !lookup_insert_ne; [apply W|intros ->; by apply (wf_null _ _ W)|done].
    + rewrite lookup_app_l by (destruct ts; [done|simpl; lia]). apply W.
    + by rewrite last_snoc.
    + apply linked_snoc; [done|apply W|done..].
    + pose proof (wf_current _ _ W) as Hc. destruct ts; [done|]. simpl in *. set_solver.
Qed.

(** ** Removing *)

Lemma update_alter q f s t :
  task_store s !! q = Some t -> update q f s = Some (with_store (alter f q (task_store s)) s).
Proof.
  intros Hq. unfold update. rewrite Hq. simpl. do 2 f_equal. apply map_eq. intros x.
  destruct (decide (x = q)) as [->|].
  - by rewrite lookup_insert_eq, lookup_alter_eq, Hq.
  - by rewrite lookup_insert_ne, lookup_alter_ne.
Qed.

(** An update behind a null check. *)
Lemma update_if q f s :
  task_store s !! 0 = None -> q = 0 \/ is_Some (task_store s !! q) ->
  (if q =? 0 then Some s else update q f s) = Some (with_store (alter f q (task_store s)) s).
Proof.
  intros H0 Hq. destruct (Z.eqb_spec q 0) as [->|Hne].
  - f_equal. destruct s. unfold with_store. simpl in *. f_equal. symmetry. apply map_eq. intros x.
    destruct (decide (x = 0)) as [->|]; [by rewrite lookup_alter_eq, H0|by rewrite lookup_alter_ne].
  - destruct Hq as [?|[t Ht]]; [done|]. by eapply update_alter.
Qed.

(** The store after unlinking the task at [p], whose pointers are [pv] and [nx]. *)
Definition unlinked_store (st : gmap Z task) (p pv nx : Z) : gmap Z task :=
  alter (set_next 0) p (alter (set_prev 0) p (alter (set_prev pv) nx (alter (set_next nx) pv st))).

Lemma unlinked_lookup st p pv nx x t :
  x <> p -> st !! x = Some t ->
  exists t', unlinked_store st p pv nx !! x = Some t' /\
    next t' = (if decide (x = pv) then nx else next t) /\
    prev t' = (if decide (x = nx) then pv else prev t) /\
    state t' = state t /\ wake_tick t' = wake_tick t /\ page_directory t' = page_directory t /\
    regs t' = regs t.
Proof.
  intros Hx Ht. unfold unlinked_store. rewrite !(lookup_alter_ne _ _ p) by done.
  destruct (decide (x = nx)) as [->|Hn].
  - rewrite lookup_alter_eq. destruct (decide (nx = pv)) as [->|].
    + rewrite lookup_alter_eq, Ht. simpl. eexists. split; [done|]. simpl. auto 10.
    + rewrite lookup_alter_ne, Ht by done. simpl. eexists. split; [done|]. simpl. auto 10.
  - rewrite lookup_alter_ne by done. destruct (decide (x = pv)) as [->|].
    + rewrite lookup_alter_eq, Ht. simpl. eexists. split; [done|]. simpl. auto 10.
    + rewrite lookup_alter_ne, Ht by done. eexists. split; [done|]. auto 10.
Qed.

(** Positions in the list with and without the element [p] between [l1] and [l2]. *)
Lemma lookup_without (l1 l2 : list Z) p i :
  (l1 ++ l2) !! i = (l1 ++ p :: l2) !! (if decide (i < length l1)%nat then i else S i).
Proof.
  case_decide.
  - by rewrite !lookup_app_l by lia.
  - rewrite !lookup_app_r by lia. replace (S i - length l1)%nat with (S (i - length l1)) by lia. done.
Qed.

Lemma link_next_without l1 l2 p i :
  link_next (l1 ++ l2) i =
  if decide (S i < length l1)%nat then link_next (l1 ++ p :: l2) i else link_next (l1 ++ p :: l2) (S i).
Proof. unfold link_next. rewrite (lookup_without l1 l2 p (S i)). by repeat case_decide. Qed.

Lemma link_prev_without l1 l2 p i :
  link_prev (l1 ++ l2) i =
  if decide (i <= length l1)%nat then link_prev (l1 ++ p :: l2) i else link_prev (l1 ++ p :: l2) (S i).
Proof.
  destruct i as [|i]; [by rewrite decide_True by lia|].
  simpl. rewrite (lookup_without l1 l2 p i). repeat case_decide; simpl; done || lia.
Qed.

Lemma linked_without st l1 l2 p pv nx :
  NoDup (l1 ++ p :: l2) -> 0 ∉ l1 ++ p :: l2 -> linked st (l1 ++ p :: l2) ->
  pv = link_prev (l1 ++ p :: l2) (length l1) -> nx = link_next (l1 ++ p :: l2) (length l1) ->
  linked (unlinked_store st p pv nx) (l1 ++ l2).
Proof.
  set (ts := l1 ++ p :: l2). intros Hd H0 Hl Hpv Hnx i x Hx.
  rewrite (lookup_without l1 l2 p) in Hx. fold ts in Hx.
  set (j := if decide (i < length l1)%nat then i else S i) in Hx.
  assert (Hp : ts !! length l1 = Some p) by (unfold ts; by rewrite lookup_app_r, Nat.sub_diag by lia).
  assert (Hj : j <> length l1) by (subst j; case_decide; lia).
  assert (Hxp : x <> p) by (intros ->; by destruct Hj; eapply NoDup_index).
  assert (Hx0 : x <> 0) by (intros ->; destruct H0; by eapply list_elem_of_lookup_2).
  destruct (Hl j x Hx) as (t & Ht & Hn & Hpr).
  destruct (unlinked_lookup st p pv nx x t Hxp Ht) as (t' & Ht' & Hn' & Hpr' & _).
  exists t'. split; [done|]. rewrite Hn', Hpr', (link_next_without l1 l2 p), (link_prev_without l1 l2 p).
  fold ts. rewrite Hn, Hpr. split.
  - assert (Hiff : x = pv <-> S j = length l1).
    { rewrite Hpv. destruct (length l1) as [|k] eqn:E; simpl; [by split|].
      assert (Hk : (k < length ts)%nat) by (unfold ts; rewrite length_app, E; lia).
      destruct (lookup_lt_is_Some_2 ts k Hk) as [y Hy].
      rewrite Hy. simpl. split; [intros <-|intros [= ->]; congruence].
      f_equal. by eapply NoDup_index. }
    destruct (decide (x = pv)) as [Hxe|Hxe].
    + apply Hiff in Hxe. assert (Hi : S i = length l1) by (subst j; case_decide; lia).
      rewrite decide_False, Hi by lia. done.
    + subst j. repeat case_decide; try done; lia.
  - assert (Hiff : x = nx <-> j = S (length l1)).
    { rewrite Hnx. unfold link_next. split.
      - intros ->. destruct (ts !! S (length l1)) as [y|] eqn:Hy; [|done]. by eapply NoDup_index.
      - intros ->. by rewrite Hx. }
    destruct (decide (x = nx)) as [Hxe|Hxe].
    + apply Hiff in Hxe. assert (i = length l1) as -> by (subst j; case_decide; lia).
      rewrite decide_True by lia. done.
    + subst j. repeat case_decide; try done; lia.
Qed.

Lemma update_pair p f g s t :
  task_store s !! p = Some t ->
  (s1 ← update p f s; update p g s1) = Some (with_store (alter g p (alter f p (task_store s))) s).
Proof.
  intros Ht. rewrite (update_alter p f _ t) by done. simpl.
  rewrite (update_alter p g _ (f t)) by (simpl; by rewrite lookup_alter_eq, Ht). done.
Qed.

Lemma alter_is_Some (f : task -> task) q x (st : gmap Z task) :
  is_Some (st !! x) -> is_Some (alter f q st !! x).
Proof.
  intros [t Ht]. destruct (decide (x = q)) as [->|].
  - rewrite lookup_alter_eq, Ht. by eexists.
  - rewrite lookup_alter_ne by done. by eexists.
Qed.

Lemma link_zero_or_linked st ts q i :
  linked st ts -> q = link_next ts i \/ q = link_prev ts i -> q = 0 \/ is_Some (st !! q).
Proof.
  intros Hl Hq.
  assert (H : forall k, q = default 0 (ts !! k) -> q = 0 \/ is_Some (st !! q)).
  { intros k ->. destruct (ts !! k) as [x|] eqn:E; [|by left]. simpl.
    destruct (Hl k x E) as (t & Ht & _). right. by eexists. }
  destruct Hq as [Hq|Hq]; [by apply (H (S i))|]. destruct i; [by left|]. by apply (H i).
Qed.

(** The fields after the removal. *)
Lemma task_list_remove_run s l1 l2 p :
  sched_wf s (l1 ++ p :: l2) ->
  let pv := link_prev (l1 ++ p :: l2) (length l1) in
  let nx := link_next (l1 ++ p :: l2) (length l1) in
  let head := if p =? task_head s then nx else task_head s in
  task_list_remove p s =
    Some (Sched (unlinked_store (task_store s) p pv nx) head
      (if p =? task_tail s then pv else task_tail s)
      (if p =? current_task s then (if nx =? 0 then head else nx) else current_task s)
      (tasks s) (jiffies s) (kernel_chunk s) (cpu s) (user_segments s) (ports s)).
Proof.
  intros W pv nx head. pose proof (wf_linked _ _ W) as Hl. pose proof (wf_store _ _ W) as H0.
  assert (Hp : (l1 ++ p :: l2) !! length l1 = Some p) by by rewrite lookup_app_r, Nat.sub_diag by lia.
  destruct (Hl _ _ Hp) as (t & Ht & Hn & Hpv). fold nx in Hn. fold pv in Hpv.
  unfold task_list_remove. rewrite Ht. cbn [mbind option_bind]. rewrite Hn, Hpv.
  pose proof (link_zero_or_linked _ _ pv (length l1) Hl (or_intror eq_refl)) as Hpv0.
  pose proof (link_zero_or_linked _ _ nx (length l1) Hl (or_introl eq_refl)) as Hnx0.
  rewrite update_if by done. cbn [mbind option_bind]. rewrite update_if.
  2: { simpl. destruct (decide (pv = 0)) as [->|]; [by rewrite lookup_alter_eq, H0|by rewrite lookup_alter_ne]. }
  2: { destruct Hnx0; [by left|right]. by apply alter_is_Some. }
  cbn [mbind option_bind]. destruct (alter_is_Some (set_prev pv) nx p (alter (set_next nx) pv (task_store s)))
    as [tp Htp]; [apply alter_is_Some; by eexists|].
  subst head. destruct s as [st hd tl cur n j kc c u ps]. simpl in *.
  rewrite (update_pair p _ _ _ tp) by (destruct (p =? hd); simpl; destruct (p =? tl); simpl;
    by destruct (p =? cur)).
  f_equal. destruct (p =? hd); simpl; destruct (p =? tl); simpl; by destruct (p =? cur).
Qed.

Lemma list_middle (l1 l2 : list Z) p : (l1 ++ p :: l2) !! length l1 = Some p.
Proof. by rewrite lookup_app_r, Nat.sub_diag by lia. Qed.

Lemma middle_next l1 l2 p : link_next (l1 ++ p :: l2) (length l1) = default 0 (l2 !! 0%nat).
Proof.
  unfold link_next. rewrite lookup_app_r by lia.
  by replace (S (length l1) - length l1)%nat with 1%nat by lia.
Qed.

Lemma middle_prev l1 l2 p : link_prev (l1 ++ p :: l2) (length l1) = default 0 (last l1).
Proof.
  rewrite last_lookup. destruct (length l1) as [|n] eqn:E; simpl.
  - apply nil_length_inv in E. by subst.
  - by rewrite lookup_app_l by lia.
Qed.

Lemma default_hd_null (l : list Z) : 0 ∉ l -> default 0 (l !! 0%nat) = 0 <-> l = [].
Proof. intros H0. destruct l; [done|]. simpl. split; [intros ->; set_solver|done]. Qed.

(** The task that runs next when [p] is removed: the one after it, or the first one. *)
Definition successor (l1 l2 : list Z) : Z := default 0 ((l2 ++ l1) !! 0%nat).

Lemma removed_current s l1 l2 p :
  sched_wf s (l1 ++ p :: l2) ->
  (if p =? current_task s
   then (if default 0 (l2 !! 0%nat) =? 0
         then (if p =? task_head s then default 0 (l2 !! 0%nat) else task_head s)
         else default 0 (l2 !! 0%nat))
   else current_task s) =
  if decide (current_task s = p) then successor l1 l2 else current_task s.
Proof.
  intros W. pose proof (wf_null _ _ W) as H0. rewrite (wf_head _ _ W). unfold successor.
  destruct (Z.eqb_spec p (current_task s)) as [<-|]; [|by rewrite decide_False].
  rewrite decide_True by done. destruct l2 as [|q l2]; simpl.
  - destruct l1 as [|q l1]; simpl; [by rewrite Z.eqb_refl|].
    pose proof (wf_nodup _ _ W) as [Hq _]%NoDup_cons.
    rewrite (proj2 (Z.eqb_neq p q)); [done|]. intros ->. set_solver.
  - rewrite (proj2 (Z.eqb_neq q 0)); [done|]. intros ->. set_solver.
Qed.

Lemma removed_current_in s l1 l2 p :
  sched_wf s (l1 ++ p :: l2) ->
  match l1 ++ l2 with
  | [] => (if decide (current_task s = p) then successor l1 l2 else current_task s) = 0
  | _ => (if decide (current_task s = p) then successor l1 l2 else current_task s) ∈ l1 ++ l2
  end.
Proof.
  intros W. assert (Hc : current_task s ∈ l1 ++ p :: l2)
    by (pose proof (wf_current _ _ W) as Hc; by destruct l1).
  assert (Hin : current_task s <> p -> current_task s ∈ l1 ++ l2) by set_solver.
  unfold successor. destruct (l1 ++ l2) as [|x l] eqn:E.
  - apply app_nil in E as [-> ->]. simpl. case_decide; [done|]. set_solver.
  - case_decide; [|by apply Hin]. rewrite <- E. destruct l2 as [|q l2]; simpl; [|set_solver].
    destruct l1 as [|q l1]; [done|]. simpl. set_solver.
Qed.

Lemma task_list_remove_spec s l1 l2 p :
  sched_wf s (l1 ++ p :: l2) ->
  exists s', task_list_remove p s = Some s' /\ sched_wf s' (l1 ++ l2) /\ detached s' p /\
    current_task s' =
      (if decide (current_task s = p) then successor l1 l2 else current_task s) /\
    (forall x t, x <> p -> task_store s !! x = Some t -> exists t', task_store s' !! x = Some t' /\
       state t' = state t /\ wake_tick t' = wake_tick t /\ page_directory t' = page_directory t /\
       regs t' = regs t).
Proof.
  intros W. pose proof (task_list_remove_run _ _ _ _ W) as E. cbv zeta in E.
  pose proof (wf_nodup _ _ W) as Hd. pose proof (wf_null _ _ W) as H0.
  pose proof (list_middle l1 l2 p) as Hp. destruct (wf_linked _ _ W _ _ Hp) as (t & Ht & _).
  rewrite middle_next, middle_prev in E.
  eexists. split; [exact E|]. clear E.
  assert (Hp0 : p <> 0) by (intros ->; set_solver).
  assert (Hhead : task_head s = p <-> l1 = []).
  { rewrite (wf_head _ _ W). destruct l1 as [|q l1]; [done|]. simpl. split; [|done]. intros ->.
    apply NoDup_cons in Hd as [Hn _]. set_solver. }
  assert (Htail : task_tail s = p <-> l2 = []).
  { rewrite (wf_tail _ _ W), last_app_cons. destruct l2 as [|q l2 _] using rev_ind; [done|].
    change (p :: l2 ++ [q]) with ((p :: l2) ++ [q]). rewrite last_snoc. simpl. split.
    - intros ->. apply NoDup_app in Hd as (_ & _ & [Hn _]%NoDup_cons). set_solver.
    - by destruct l2. }
  assert (Hnx0 : default 0 (l2 !! 0%nat) = 0 <-> l2 = []) by (apply default_hd_null; set_solver).
  simpl current_task. rewrite (removed_current s l1 l2 p W).
  split; [|split; [|split]].
  - constructor; simpl.
    + apply NoDup_app in Hd as (? & Hdis & [? ?]%NoDup_cons). apply NoDup_app. set_solver.
    + set_solver.
    + unfold unlinked_store. rewrite !(lookup_alter_ne _ _ p) by done.
      assert (H0' : forall f q (st : gmap Z task), st !! 0 = None -> alter f q st !! 0 = None).
      { intros f q st Hs. by apply lookup_alter_None. }
      apply H0', H0', W.
    + rewrite Z.eqb_sym. destruct (Z.eqb_spec (task_head s) p) as [Eh|Eh].
      * apply Hhead in Eh as ->. done.
      * rewrite (wf_head _ _ W). destruct l1; [by destruct Eh; apply Hhead|done].
    + rewrite Z.eqb_sym. destruct (Z.eqb_spec (task_tail s) p) as [Et|Et].
      * apply Htail in Et as ->. by rewrite app_nil_r.
      * rewrite (wf_tail _ _ W). destruct l2 as [|q l2]; [by destruct Et; apply Htail|].
        rewrite !last_app_cons. done.
    + apply linked_without; [done|done|apply W|by rewrite middle_prev|by rewrite middle_next].
    + by apply removed_current_in.
  - split; [done|]. simpl. unfold unlinked_store. rewrite !lookup_alter_eq.
    destruct (alter_is_Some (set_prev (default 0 (last l1))) (default 0 (l2 !! 0%nat)) p
      (alter (set_next (default 0 (l2 !! 0%nat))) (default 0 (last l1)) (task_store s))) as [t1 ->];
      [apply alter_is_Some; by eexists|]. simpl. by eexists.
  - done.
  - intros x tx Hx Htx. destruct (unlinked_lookup (task_store s) p (default 0 (last l1))
      (default 0 (l2 !! 0%nat)) x tx Hx Htx) as (t' & ? & _ & _ & ? & ? & ? & ?). eauto 10.
Qed.

(** ** Choosing the next task *)

(** The first runnable task of a list of tasks, 0 if there is none. *)
Fixpoint first_runnable (st : gmap Z task) (l : list Z) : Z :=
  match l with
  | [] => 0
  | p :: l =>
    match st !! p with
    | Some t => if decide (state t = TASK_RUNNABLE) then p else first_runnable st l
    | None => first_runnable st l
    end
  end.

Lemma first_runnable_app st l1 l2 :
  0 ∉ l1 -> first_runnable st (l1 ++ l2) =
  if first_runnable st l1 =? 0 then first_runnable st l2 else first_runnable st l1.
Proof.
  induction l1 as [|p l1 IH]; intros H0; [done|]. simpl.
  destruct (st !! p) as [t|]; [|apply IH; set_solver].
  case_decide; [|apply IH; set_solver]. rewrite (proj2 (Z.eqb_neq p 0)); [done|]. set_solver.
Qed.

(** The task after the last one of the segment [x ++ seg], cyclically. *)
Definition after (s : sched) (y : list Z) : Z := default (task_head s) (y !! 0%nat).

(** The loop runs through a segment of the list and goes on behind it. *)
Lemma get_next_seg seg : forall x y s p fuel start,
  sched_wf s (x ++ p :: seg ++ y) -> start ∉ seg ->
  get_next_loop (length (p :: seg) + fuel) start p s =
    let r := first_runnable (task_store s) (p :: seg) in
    if negb (r =? 0) then Some r
    else if after s y =? start then Some 0
    else get_next_loop fuel start (after s y) s.
Proof.
  induction seg as [|q seg IH]; intros x y s p fuel start W Hs.
  all: assert (Hp0 : p <> 0) by (pose proof (wf_null _ _ W); set_solver).
  all: destruct (wf_linked _ _ W _ _ (list_middle x _ p)) as (t & Ht & Hn & _).
  all: rewrite middle_next in Hn; cbn [length Nat.add get_next_loop first_runnable].
  all: rewrite (proj2 (Z.eqb_neq p 0)) by done; rewrite Ht; cbn [mbind option_bind].
  all: case_decide; [cbv zeta; by rewrite (proj2 (Z.eqb_neq p 0)) by done|].
  - simpl in Hn. cbv zeta. rewrite Hn. change (negb (0 =? 0)) with false. cbv iota. unfold after.
    destruct y as [|z y]; simpl; [done|].
    rewrite (proj2 (Z.eqb_neq z 0)); [done|]. pose proof (wf_null _ _ W). set_solver.
  - simpl in Hn. rewrite Hn, (proj2 (Z.eqb_neq q 0)) by (pose proof (wf_null _ _ W); set_solver).
    rewrite (proj2 (Z.eqb_neq q start)) by set_solver.
    apply (IH (x ++ [p]) y); [by rewrite <- app_assoc|set_solver].
Qed.

(** The order in which the tasks get their turn: the current one comes last. *)
Definition turn_order (l1 l2 : list Z) (c : Z) : list Z := l2 ++ l1 ++ [c].

Lemma loop_more_fuel n : forall k start p s r,
  get_next_loop n start p s = Some r -> get_next_loop (n + k) start p s = Some r.
Proof.
  induction n as [|n IH]; intros k start p s r E; [done|]. cbn [Nat.add get_next_loop] in *.
  destruct (p =? 0); [done|]. destruct (task_store s !! p) as [t|]; [|done]. simpl in *.
  case_decide; [done|]. destruct (_ =? start); [done|]. by apply IH.
Qed.

Lemma get_next_loop_turns s l1 l2 c :
  sched_wf s (l1 ++ c :: l2) ->
  let start := after s l2 in
  get_next_loop (length (l1 ++ c :: l2)) start start s =
    Some (first_runnable (task_store s) (turn_order l1 l2 c)).
Proof.
  intros W start. pose proof (wf_nodup _ _ W) as Hd. pose proof (wf_null _ _ W) as H0.
  assert (Hseg : exists h tl, l1 ++ [c] = h :: tl /\ task_head s = h).
  { rewrite (wf_head _ _ W). destruct l1; simpl; eauto. }
  destruct Hseg as (h & tl & Htl & Hh).
  assert (Hts : l1 ++ c :: l2 = [] ++ h :: tl ++ l2)
    by (change (h :: tl ++ l2) with ((h :: tl) ++ l2); by rewrite <- Htl, <- app_assoc).
  rewrite Hts in W.
  unfold turn_order. rewrite Htl. destruct l2 as [|q l2].
  - unfold start, after. simpl default. rewrite Hh, Htl.
    replace (length (h :: tl)) with (length (h :: tl) + 0)%nat by lia.
    rewrite (get_next_seg tl [] []); [|done|].
    + cbv zeta. unfold after. simpl default. rewrite Hh, Z.eqb_refl. simpl app.
      by destruct (Z.eqb_spec (first_runnable (task_store s) (h :: tl)) 0) as [->|].
    + rewrite Htl in Hd. by apply NoDup_cons in Hd as [? _].
  - assert (Hq : (q ∉ (h :: tl)) /\ (q ∉ l2) /\ (h ∉ l2) /\ q <> h).
    { rewrite Hts in Hd. change (NoDup ((h :: tl) ++ q :: l2)) in Hd.
      apply NoDup_app in Hd as (_ & Hdis & [? _]%NoDup_cons). set_solver. }
    unfold start, after. simpl default.
    replace (length (l1 ++ c :: q :: l2)) with (length (q :: l2) + (length (h :: tl) + 0))%nat
      by (rewrite Hts; simpl; rewrite length_app; simpl; lia).
    rewrite (get_next_seg l2 (h :: tl) []); [|by rewrite app_nil_r|tauto].
    cbv zeta. rewrite first_runnable_app by set_solver.
    destruct (Z.eqb_spec (first_runnable (task_store s) (q :: l2)) 0) as [_|]; [|done].
    cbn [negb]. change (after s []) with (task_head s). rewrite Hh.
    rewrite (proj2 (Z.eqb_neq h q)) by naive_solver.
    rewrite (get_next_seg tl [] (q :: l2)); [|done|set_solver].
    cbv zeta. unfold after. simpl default. rewrite Z.eqb_refl.
    by destruct (Z.eqb_spec (first_runnable (task_store s) (h :: tl)) 0) as [->|].
Qed.

Lemma task_get_next_turns s l1 l2 :
  sched_wf s (l1 ++ current_task s :: l2) ->
  task_get_next s = Some (first_runnable (task_store s) (turn_order l1 l2 (current_task s))).
Proof.
  intros W. pose proof (wf_null _ _ W) as H0.
  destruct (wf_linked _ _ W _ _ (list_middle l1 l2 (current_task s))) as (t & Ht & Hn & _).
  rewrite middle_next in Hn. unfold task_get_next.
  rewrite (proj2 (Z.eqb_neq (current_task s) 0)) by set_solver. rewrite Ht. cbn [mbind option_bind].
  replace (if next t =? 0 then task_head s else next t) with (after s l2).
  - pose proof (linked_size _ _ (wf_nodup _ _ W) (wf_linked _ _ W)) as Hsz.
    replace (S (size (task_store s))) with (length (l1 ++ current_task s :: l2) +
      (S (size (task_store s)) - length (l1 ++ current_task s :: l2)))%nat by lia.
    apply loop_more_fuel. by apply get_next_loop_turns.
  - rewrite Hn. unfold after. destruct l2 as [|q l2]; [done|]. simpl.
    by rewrite (proj2 (Z.eqb_neq q 0)) by set_solver.
Qed.

Lemma task_get_next_empty s : sched_wf s [] -> task_get_next s = Some 0.
Proof.
  intros W. unfold task_get_next. rewrite (wf_current _ _ W). simpl. by rewrite (wf_head _ _ W).
Qed.

(** The list split at the current task. *)
Lemma wf_split s ts :
  sched_wf s ts -> ts = [] \/ exists l1 l2, ts = l1 ++ current_task s :: l2.
Proof.
  intros W. pose proof (wf_current _ _ W) as Hc. destruct ts as [|p ts]; [by left|right].
  by apply list_elem_of_split in Hc.
Qed.

Lemma first_runnable_elem st l : first_runnable st l = 0 \/ first_runnable st l ∈ l.
Proof.
  induction l as [|p l IH]; simpl; [by left|].
  destruct (st !! p); [case_decide|]; set_solver.
Qed.

Lemma first_runnable_none st l :
  0 ∉ l -> first_runnable st l = 0 <->
  forall p t, p ∈ l -> st !! p = Some t -> state t <> TASK_RUNNABLE.
Proof.
  induction l as [|p l IH]; intros H0; simpl; [set_solver|].
  assert (IH' := IH ltac:(set_solver)). split.
  - intros E q t Hq Hst. apply elem_of_cons in Hq as [-> |Hq].
    + rewrite Hst in E. case_decide; [set_solver|done].
    + eapply (proj1 IH'); [|done..]. destruct (st !! p); [|done]. case_decide; set_solver.
  - intros Hall. destruct (st !! p) as [t|] eqn:Hp.
    + rewrite decide_False by (eapply Hall; [|done]; set_solver).
      apply IH'. intros q tq Hq. apply Hall. set_solver.
    + apply IH'. intros q tq Hq. apply Hall. set_solver.
Qed.

(** ** Waking *)

(** The tick [w] is at or before [now], less than 2^31 ticks ago. *)
Definition due (now w : Z) : bool := u32 (now - w) <? 2147483648.

Definition wake_task (now : Z) (t : task) : task :=
  if bool_decide (state t = TASK_SLEEPING) && due now (wake_tick t)
  then set_state TASK_RUNNABLE t else t.

Lemma wake_task_links now t : next (wake_task now t) = next t /\ prev (wake_task now t) = prev t.
Proof. unfold wake_task. by case_match. Qed.

Definition wake_store (now : Z) (l : list Z) (st : gmap Z task) : gmap Z task :=
  foldl (fun st p => alter (wake_task now) p st) st l.

Lemma wake_store_lookup now l : forall st p,
  NoDup l -> wake_store now l st !! p =
  if decide (p ∈ l) then wake_task now <$> st !! p else st !! p.
Proof.
  induction l as [|q l IH]; intros st p Hd; cbn [wake_store foldl].
  - by rewrite decide_False by set_solver.
  - apply NoDup_cons in Hd as [Hq Hd]. fold (wake_store now l (alter (wake_task now) q st)).
    rewrite IH by done. destruct (decide (p = q)) as [->|Hne].
    + by rewrite lookup_alter_eq, decide_False, decide_True by set_solver.
    + rewrite lookup_alter_ne by done. apply decide_ext. set_solver.
Qed.

(** A change of tasks that keeps their pointers keeps the list. *)
Lemma sched_wf_store s ts st :
  sched_wf s ts -> (forall p, match task_store s !! p with
    | Some t => exists t', st !! p = Some t' /\ next t' = next t /\ prev t' = prev t
    | None => st !! p = None end) ->
  sched_wf (with_store st s) ts.
Proof.
  intros W Hst. constructor; simpl; try apply W.
  - pose proof (Hst 0) as H0. by rewrite (wf_store _ _ W) in H0.
  - intros i p Hp. destruct (wf_linked _ _ W i p Hp) as (t & Ht & <- & <-).
    specialize (Hst p). rewrite Ht in Hst. done.
Qed.

Lemma wake_loop_spec seg : forall fuel x s now,
  sched_wf s (x ++ seg) -> (length seg < fuel)%nat ->
  wake_loop fuel (default 0 (seg !! 0%nat)) now s =
    Some (with_store (wake_store now seg (task_store s)) s).
Proof.
  induction seg as [|p seg IH]; intros fuel x s now W Hf; (destruct fuel as [|fuel]; [simpl in Hf; lia|]).
  { simpl. by destruct s. }
  cbn [wake_loop]. simpl default.
  rewrite (proj2 (Z.eqb_neq p 0)) by (pose proof (wf_null _ _ W); set_solver).
  destruct (wf_linked _ _ W _ _ (list_middle x seg p)) as (t & Ht & Hn & _).
  rewrite middle_next in Hn. rewrite Ht. cbn [mbind option_bind].
  assert (E : (if bool_decide (state t = TASK_SLEEPING) && (u32 (now - wake_tick t) <? 2147483648)
               then update p (set_state TASK_RUNNABLE) s else Some s) =
              Some (with_store (alter (wake_task now) p (task_store s)) s)).
  { unfold update. rewrite Ht. simpl. destruct (bool_decide _ && _) eqn:Hb; f_equal.
    - f_equal. apply map_eq. intros q. destruct (decide (q = p)) as [->|].
      + rewrite lookup_insert_eq, lookup_alter_eq, Ht. simpl. unfold wake_task, due. by rewrite Hb.
      + by rewrite lookup_insert_ne, lookup_alter_ne.
    - destruct s as [st]. unfold with_store. simpl in *. f_equal. symmetry. apply map_eq. intros q.
      destruct (decide (q = p)) as [->|]; [|by rewrite lookup_alter_ne].
      rewrite lookup_alter_eq, Ht. simpl. unfold wake_task, due. by rewrite Hb. }
  rewrite E. cbn [mbind option_bind]. simpl task_store. rewrite lookup_alter_eq, Ht.
  cbn [fmap option_fmap option_map mbind option_bind].
  rewrite (proj1 (wake_task_links now t)), Hn.
  rewrite (IH fuel (x ++ [p])); [done| |simpl in Hf; lia].
  rewrite <- app_assoc. apply sched_wf_store; [done|]. intros q.
  destruct (decide (q = p)) as [->|].
  - rewrite lookup_alter_eq, Ht. eexists. split; [done|]. apply wake_task_links.
  - rewrite lookup_alter_ne by done. destruct (task_store s !! q); eauto.
Qed.

Lemma task_wake_sleepers_spec s ts now :
  sched_wf s ts ->
  task_wake_sleepers now s = Some (with_store (wake_store now ts (task_store s)) s) /\
  sched_wf (with_store (wake_store now ts (task_store s)) s) ts.
Proof.
  intros W. split.
  - unfold task_wake_sleepers. rewrite (wf_head _ _ W). apply (wake_loop_spec ts _ []); [done|].
    pose proof (linked_size _ _ (wf_nodup _ _ W) (wf_linked _ _ W)). lia.
  - apply sched_wf_store; [done|]. intros p. rewrite wake_store_lookup by apply W.
    destruct (task_store s !! p) as [t|]; [|by case_decide]. case_decide; simpl; eauto using wake_task_links.
Qed.

(** The list does not depend on the clock, the processor and the ports. *)
Lemma sched_wf_fields s s' ts :
  sched_wf s ts -> task_store s' = task_store s -> task_head s' = task_head s ->
  task_tail s' = task_tail s -> current_task s' = current_task s -> sched_wf s' ts.
Proof.
  intros W E1 E2 E3 E4. constructor; rewrite ?E1, ?E2, ?E3, ?E4; apply W.
Qed.

(** Task [p] runs or its deadline is [d] ticks ahead. *)
Definition pending (s : sched) (p d : Z) : Prop :=
  exists t, task_store s !! p = Some t /\
    (state t = TASK_RUNNABLE \/
     (state t = TASK_SLEEPING /\ wake_tick t = u32 (jiffies s + d) /\ 0 < d < 2 ^ 31)).

Lemma due_at j d : 0 < d < 2 ^ 31 -> due (u32 (j + 1)) (u32 (j + d)) = (d =? 1).
Proof.
  intros Hd. unfold due, u32. destruct (Z.eqb_spec d 1) as [->|].
  - apply Z.ltb_lt. rewrite Z.sub_diag. done.
  - apply Z.ltb_ge. rewrite <- Zminus_mod.
    replace (j + 1 - (j + d)) with (- (d - 1)) by lia. rewrite Z_mod_nz_opp_full; lia.
Qed.

Lemma u32_succ j d : u32 (u32 (j + 1) + (d - 1)) = u32 (j + d).
Proof. unfold u32. rewrite Zplus_mod_idemp_l. f_equal. lia. Qed.

(** One timer interrupt of the idle loop. *)
Lemma pit_tick_idle_spec s ts :
  sched_wf s ts ->
  exists s', pit_tick_idle s = Some s' /\ sched_wf s' ts /\ jiffies s' = u32 (jiffies s + 1) /\
    current_task s' = current_task s /\
    forall p t, p ∈ ts -> task_store s !! p = Some t ->
      task_store s' !! p = Some (wake_task (u32 (jiffies s + 1)) t).
Proof.
  intros W. unfold pit_tick_idle.
  set (s1 := with_jiffies (u32 (jiffies s + 1)) s).
  assert (W1 : sched_wf s1 ts) by by apply (sched_wf_fields s).
  destruct (task_wake_sleepers_spec s1 ts (jiffies s1) W1) as [-> W2].
  eexists. split; [done|]. split; [done|]. split; [done|]. split; [done|].
  intros p t Hp Ht. simpl. by rewrite wake_store_lookup, decide_True, Ht by (done || apply W).
Qed.

Lemma tick_pending s s' (ts : list Z) p d :
  (forall q t, q ∈ ts -> task_store s !! q = Some t ->
     task_store s' !! q = Some (wake_task (u32 (jiffies s + 1)) t)) ->
  jiffies s' = u32 (jiffies s + 1) -> p ∈ ts -> pending s p d -> pending s' p (d - 1).
Proof.
  intros Hst Hj Hp (t & Ht & Hs). exists (wake_task (u32 (jiffies s + 1)) t).
  split; [by apply Hst|]. unfold wake_task. destruct Hs as [Hr|(Hsl & Hw & Hd)].
  - left. rewrite Hr. by rewrite bool_decide_false.
  - rewrite Hsl, Hw, bool_decide_true, due_at by done. simpl.
    destruct (Z.eqb_spec d 1); [by left|right]. rewrite Hj, u32_succ. split; [done|]. split; [done|lia].
Qed.

Definition is_timer (e : irq) : bool := match e with IrqTimer => true | IrqKeyboard _ | IrqOther _ => false end.

(** The number of timer interrupts. *)
Fixpoint timers (es : list irq) : Z :=
  match es with [] => 0 | e :: es => (if is_timer e then 1 else 0) + timers es end.

Lemma irqs_idle_pending m es : forall s ts p d,
  sched_wf s ts -> p ∈ ts -> pending s p d ->
  exists s', irqs_idle m es s = Some s' /\ sched_wf s' ts /\ pending s' p (d - timers es).
Proof.
  induction es as [|e es IH]; intros s ts p d W Hp P; simpl.
  { exists s. by rewrite Z.sub_0_r. }
  assert (Hk : sched_wf (kernel_page m s) ts) by by apply (sched_wf_fields s).
  assert (Hother : forall v, exists s', irqs_idle m es (pic_send_eoi v (kernel_page m s)) = Some s' /\ sched_wf s' ts /\ pending s' p (d - timers es)).
  { intros v. set (s2 := pic_send_eoi v (kernel_page m s)).
    assert (Hs2 : task_store s2 = task_store s /\ task_head s2 = task_head s /\
      task_tail s2 = task_tail s /\ current_task s2 = current_task s /\ jiffies s2 = jiffies s).
    { unfold s2, pic_send_eoi. by repeat case_match. }
    destruct Hs2 as (? & ? & ? & ? & Hj).
    apply IH; [by apply (sched_wf_fields s)|done|]. unfold pending. by rewrite Hj, H. }
  destruct e as [|c|v]; simpl; [|apply Hother..].
  - destruct (pit_tick_idle_spec _ ts Hk) as (s1 & E & W1 & Hj & _ & Hst). rewrite E. simpl.
    assert (P1 : pending s1 p (d - 1)) by by eapply (tick_pending (kernel_page m s)).
    set (s2 := pic_send_eoi _ s1).
    destruct (IH s2 ts p (d - 1)) as (s' & E' & W' & P'); [by apply (sched_wf_fields s1)|done|done|].
    exists s'. split; [done|]. split; [done|]. by replace (d - (1 + timers es)) with (d - 1 - timers es) by lia.
Qed.

Definition runs (s : sched) (p : Z) : Prop :=
  exists t, task_store s !! p = Some t /\ state t = TASK_RUNNABLE.

Lemma first_runnable_runs st l p :
  p <> 0 -> first_runnable st l = p -> exists t, st !! p = Some t /\ state t = TASK_RUNNABLE.
Proof.
  intros Hp. induction l as [|q l IH]; simpl; [done|].
  destruct (st !! q) as [t|] eqn:E; [|done]. case_decide; [|done]. intros <-. eauto.
Qed.

Lemma turn_order_elem l1 l2 c p : p ∈ turn_order l1 l2 c <-> p ∈ l1 ++ c :: l2.
Proof. unfold turn_order. set_solver. Qed.

(** [task_get_next] gives a runnable task if there is one. *)
Lemma task_get_next_choice s ts :
  sched_wf s ts ->
  exists q, task_get_next s = Some q /\
    ((q = 0 /\ forall p, p ∈ ts -> ~ runs s p) \/ (q <> 0 /\ q ∈ ts /\ runs s q)).
Proof.
  intros W. destruct (wf_split _ _ W) as [-> |(l1 & l2 & Hts)].
  { exists 0. split; [by apply task_get_next_empty|left; set_solver]. }
  rewrite Hts in W. rewrite (task_get_next_turns _ _ _ W). pose proof (wf_null _ _ W) as H0.
  set (order := turn_order l1 l2 (current_task s)).
  assert (Horder : forall p, p ∈ order <-> p ∈ ts) by (intros p; rewrite Hts; apply turn_order_elem).
  exists (first_runnable (task_store s) order). split; [done|].
  destruct (Z.eq_dec (first_runnable (task_store s) order) 0) as [E|E].
  - left. split; [done|]. intros p Hp (t & Ht & Hr).
    rewrite first_runnable_none in E by (rewrite Horder, Hts; done).
    apply (E p t); [by apply Horder|done..].
  - right. split; [done|]. split; [|by eapply first_runnable_runs].
    apply Horder. by destruct (first_runnable_elem (task_store s) order).
Qed.

Lemma timers_concat es halts : timers (concat (es :: halts)) = timers es + timers (concat halts).
Proof.
  simpl. generalize (concat halts). induction es as [|e es IH]; intros l; simpl; [lia|]. rewrite IH. lia.
Qed.

Lemma task_idle_progress m halts : forall s ts p d,
  sched_wf s ts -> p ∈ ts -> pending s p d -> d <= timers (concat halts) ->
  exists q s' keys, task_idle m halts s = Some (q, s', keys) /\ q <> 0 /\ sched_wf s' ts /\ q ∈ ts /\ runs s' q.
Proof.
  induction halts as [|es halts IH]; intros s ts p d W Hp P Hd;
    destruct (task_get_next_choice s ts W) as (q & E & [(-> & Hno)|(Hq & Hin & Hr)]).
  2, 4: exists q, s, []; simpl; rewrite E; simpl; rewrite (proj2 (Z.eqb_neq q 0)) by done; done.
  all: assert (Hpos : 0 < d)
    by (destruct P as (t & Ht & [Hr|(_ & _ & ?)]); [by destruct (Hno p Hp); eexists|lia]).
  - simpl in Hd. lia.
  - rewrite timers_concat in Hd. destruct (irqs_idle_pending m es s ts p d W Hp P) as (s1 & E1 & W1 & P1).
    destruct (IH s1 ts p (d - timers es) W1 Hp P1) as (q & s' & keys & E' & Hrest); [lia|].
    exists q, s', (scancodes es ++ keys). split; [|done]. simpl. rewrite E. simpl. rewrite E1. simpl. by rewrite E'.
Qed.

(** ** Turns *)

Lemma runs_lookup s p : runs s p <-> exists t, task_store s !! p = Some t /\ state t = TASK_RUNNABLE.
Proof. done. Qed.

(** One turn: the next task is chosen and becomes the current one. *)
Definition turn (m : mem) (s : sched) : option (Z * sched) :=
  p ← task_get_next s; s ← task_switch m p s; Some (p, s).

Fixpoint turns (m : mem) (n : nat) (s : sched) : option (list Z * sched) :=
  match n with
  | O => Some ([], s)
  | S n => '(p, s) ← turn m s; '(ps, s) ← turns m n s; Some (p :: ps, s)
  end.

Lemma switch_wf m s ts p :
  sched_wf s ts -> p ∈ ts ->
  exists s', task_switch m p s = Some s' /\ sched_wf s' ts /\ current_task s' = p /\
    task_store s' = task_store s.
Proof.
  intros W Hp. destruct (list_elem_of_lookup_1 _ _ Hp) as [i Hi].
  destruct (wf_linked _ _ W i p Hi) as (t & Ht & _). unfold task_switch. rewrite Ht. simpl.
  eexists. split; [done|]. split; [|done]. constructor; simpl; try apply W. by destruct ts; set_solver.
Qed.

(** [o] is the order of the turns to come. *)
Definition order (s : sched) (ts o : list Z) : Prop :=
  exists l1 l2, ts = l1 ++ current_task s :: l2 /\ o = turn_order l1 l2 (current_task s).

Lemma order_exists s ts x : sched_wf s ts -> x ∈ ts -> exists a b, order s ts (a ++ x :: b) /\
  (length a < length ts)%nat.
Proof.
  intros W Hx. destruct (wf_split _ _ W) as [-> |(l1 & l2 & Hts)]; [set_solver|].
  assert (Hin : x ∈ turn_order l1 l2 (current_task s)) by (apply turn_order_elem; by rewrite <- Hts).
  apply list_elem_of_split in Hin as (a & b & E). exists a, b. split; [by exists l1, l2|].
  apply (f_equal length) in E. unfold turn_order in E. rewrite Hts.
  rewrite !length_app in *. simpl in *. lia.
Qed.

(** The task chosen goes to the end of the order. *)
Lemma order_switch s s' ts u p v :
  order s ts (u ++ p :: v) -> current_task s' = p -> order s' ts (v ++ u ++ [p]).
Proof.
  intros (l1 & l2 & Hts & Ho) Hc. unfold turn_order in Ho. symmetry in Ho.
  assert (Hex : forall l1' l2', ts = l1' ++ p :: l2' -> v ++ u ++ [p] = l2' ++ l1' ++ [p] ->
    order s' ts (v ++ u ++ [p])) by (intros; exists l1', l2'; by rewrite Hc).
  apply app_eq_app in Ho as [w [[-> Hw]|[-> Hw]]].
  - destruct w as [|q w]; simpl in Hw.
    + rewrite app_nil_r in Hts. destruct l1 as [|q l1]; simpl in Hw; injection Hw as -> ->.
      * by apply (Hex [] u).
      * apply (Hex [] (l1 ++ current_task s :: u)); [done|]. simpl. by rewrite <- !app_assoc.
    + injection Hw as -> Hv. apply (Hex (l1 ++ current_task s :: u) w); subst; simpl;
        by rewrite <- !app_assoc.
  - apply app_eq_app in Hw as [w' [[-> Hw]|[-> Hw]]].
    + destruct w' as [|q w']; simpl in Hw.
      * injection Hw as -> ->. rewrite app_nil_r in Hts. by apply (Hex w l2); rewrite ?app_assoc.
      * injection Hw as -> Hv. apply (Hex w (w' ++ current_task s :: l2)); subst; simpl;
          by rewrite <- !app_assoc.
    + destruct w' as [|q w']; simpl in Hw; [|by destruct w'].
      injection Hw as Hp <-. rewrite app_nil_r in *. apply (Hex l1 l2); [by rewrite Hts, Hp|].
      by rewrite <- ?app_assoc.
Qed.

Lemma first_runnable_split st l x a b :
  l = a ++ x :: b -> 0 ∉ l -> (exists t, st !! x = Some t /\ state t = TASK_RUNNABLE) ->
  exists u p v, l = u ++ p :: v /\ first_runnable st l = p /\
    (p = x \/ exists a2, a = u ++ p :: a2 /\ v = a2 ++ x :: b).
Proof.
  revert a. induction l as [|q l IH]; intros a E H0 Hx; [by destruct a|].
  destruct a as [|q' a]; simplify_eq/=.
  - destruct Hx as (t & Ht & Hr). exists [], x, b. rewrite Ht, decide_True by done. auto.
  - destruct (IH a eq_refl) as (u & p & v & Hl & Hf & Hp); [set_solver|done|].
    destruct (st !! q') as [t|]; [case_decide|].
    + exists [], q', (a ++ x :: b). split; [done|]. split; [done|]. right. by exists a.
    + exists (q' :: u), p, v. split; [by rewrite Hl|]. split; [done|].
      destruct Hp as [?|(a2 & -> & ?)]; [by left|right]. by exists a2.
    + exists (q' :: u), p, v. split; [by rewrite Hl|]. split; [done|].
      destruct Hp as [?|(a2 & -> & ?)]; [by left|right]. by exists a2.
Qed.

(** In one turn [x] is chosen or comes nearer to the front. *)
Lemma turn_step m s ts x a b :
  sched_wf s ts -> runs s x -> order s ts (a ++ x :: b) ->
  exists p s', turn m s = Some (p, s') /\ sched_wf s' ts /\ task_store s' = task_store s /\
    (p = x \/ exists a' b', (length a' < length a)%nat /\ order s' ts (a' ++ x :: b')).
Proof.
  intros W Hx Ho. pose proof Ho as (l1 & l2 & Hts & E).
  assert (Hel : forall q, q ∈ a ++ x :: b <-> q ∈ ts) by (intros q; rewrite E, Hts; apply turn_order_elem).
  assert (H0 : 0 ∉ a ++ x :: b) by (rewrite Hel; apply W).
  destruct (first_runnable_split (task_store s) _ x a b eq_refl H0 Hx) as (u & p & v & Hl & Hf & Hp).
  unfold turn. rewrite Hts in W. rewrite (task_get_next_turns _ _ _ W), <- E, Hf. rewrite <- Hts in W.
  cbn [mbind option_bind].
  destruct (switch_wf m s ts p W) as (s' & -> & W' & Hc & Hst); [apply Hel; rewrite Hl; set_solver|].
  exists p, s'. split; [done|]. split; [done|]. split; [done|].
  destruct Hp as [?|(a2 & -> & ->)]; [by left|right].
  rewrite Hl in Ho. apply (order_switch s s') in Ho; [|done].
  exists a2, (b ++ u ++ [p]). split; [rewrite length_app; simpl; lia|].
  by rewrite <- app_assoc in Ho.
Qed.

Lemma turns_reach m n : forall s ts x a b,
  sched_wf s ts -> x ∈ ts -> runs s x -> order s ts (a ++ x :: b) ->
  exists ps s', turns m n s = Some (ps, s') /\ sched_wf s' ts /\ ((length a < n)%nat -> x ∈ ps).
Proof.
  induction n as [|n IH]; intros s ts x a b W Hin Hx Ho; simpl; [exists [], s; auto with lia|].
  destruct (turn_step m s ts x a b W Hx Ho) as (p & s1 & E1 & W1 & Hst & Hp).
  rewrite E1. cbn [mbind option_bind].
  assert (Hx1 : runs s1 x) by (unfold runs; by rewrite Hst).
  destruct (order_exists s1 ts x W1 Hin) as (a1 & b1 & Ho1 & _).
  destruct Hp as [-> |(a' & b' & Hlen & Ho')].
  - destruct (IH s1 ts x a1 b1 W1 Hin Hx1 Ho1) as (ps & s' & -> & W' & _).
    exists (x :: ps), s'. split; [done|]. split; [done|]. set_solver.
  - destruct (IH s1 ts x a' b' W1 Hin Hx1 Ho') as (ps & s' & -> & W' & Hps).
    exists (p :: ps), s'. split; [done|]. split; [done|]. intros. apply elem_of_cons. right.
    apply Hps. lia.
Qed.

Lemma pit_ms_to_ticks_eq ms :
  0 < ms < 2 ^ 31 ->
  pit_ms_to_ticks ms = ms / 1000 * 100 + (ms mod 1000 * 100 + 999) / 1000 + 2.
Proof.
  intros Hms. unfold pit_ms_to_ticks, PIT_MS_TO_TICKS, PIT_FREQUENCY_HZ, PIT_SLEEP_GUARD_TICKS.
  rewrite (proj2 (Z.eqb_neq ms 0)) by lia.
  rewrite (u32_small (ms / 1000 * 100)), (u32_small (ms mod 1000 * 100 + 999)), u32_small; lia.
Qed.

Fixpoint pit_ticks (n : nat) (s : sched) : option sched :=
  match n with
  | O => Some s
  | S n => s ← pit_tick_idle s; pit_ticks n s
  end.

Lemma wake_task_asleep j d t :
  state t = TASK_SLEEPING -> wake_tick t = u32 (j + d) -> 0 < d < 2 ^ 31 ->
  wake_task (u32 (j + 1)) t = if d =? 1 then set_state TASK_RUNNABLE t else t.
Proof.
  intros Hs Hw Hd. unfold wake_task. by rewrite Hs, Hw, bool_decide_true, due_at by done.
Qed.

Lemma pit_ticks_asleep n : forall s ts p t d,
  sched_wf s ts -> p ∈ ts -> task_store s !! p = Some t -> state t = TASK_SLEEPING ->
  wake_tick t = u32 (jiffies s + d) -> 0 < d < 2 ^ 31 -> Z.of_nat n <= d ->
  exists s', pit_ticks n s = Some s' /\ sched_wf s' ts /\
    task_store s' !! p = Some (if Z.of_nat n =? d then set_state TASK_RUNNABLE t else t).
Proof.
  induction n as [|n IH]; intros s ts p t d W Hp Ht Hs Hw Hd Hn; cbn [pit_ticks].
  { exists s. rewrite (proj2 (Z.eqb_neq (Z.of_nat 0) d)) by lia. done. }
  destruct (pit_tick_idle_spec s ts W) as (s1 & -> & W1 & Hj & _ & Hst). cbn [mbind option_bind].
  pose proof (Hst p t Hp Ht) as Ht1. rewrite (wake_task_asleep _ d) in Ht1 by done.
  destruct (Z.eqb_spec d 1) as [->|Hd1].
  - assert (n = 0%nat) as -> by lia. exists s1. done.
  - destruct (IH s1 ts p t (d - 1)) as (s' & E & W' & Ht'); [done..| |lia|lia|].
    + by rewrite Hj, u32_succ.
    + exists s'. split; [done|]. split; [done|]. rewrite Ht'. f_equal.
      replace (Z.of_nat n =? d - 1) with (Z.of_nat (S n) =? d); [done|].
      destruct (Z.eqb_spec (Z.of_nat (S n)) d), (Z.eqb_spec (Z.of_nat n) (d - 1)); done || lia.
Qed.

(** ** Theorems *)

(** publishing a detached task appends it to the list, with every pointer valid; the first task
    published becomes the current one. *)
Theorem task_publish_appends s ts p :
  sched_wf s ts -> detached s p -> p ∉ ts ->
  exists s', task_publish p s = Some s' /\ sched_wf s' (ts ++ [p]) /\
    current_task s' = (if decide (ts = []) then p else current_task s).
Proof. apply task_publish_spec. Qed.

Definition example_regs : registers := Registers 0 0 0 0 0 0 0 4194304 27 0 4190208 35.
Definition example_task (n pv : Z) (x : task_state) (w : Z) : task :=
  Task 0 0 example_regs 0 1000 1000 n pv x w.
Definition example_sched : sched :=
  Sched {[4096 := example_task 8192 0 TASK_RUNNABLE 0; 8192 := example_task 0 4096 TASK_SLEEPING 1;
          12288 := example_task 0 0 TASK_RUNNABLE 0]}
    4096 8192 4096 3 4294967294 0 (PagingCpu 0 0) false [].

Lemma example_wf : sched_wf example_sched [4096; 8192].
Proof.
  constructor; try done.
  - repeat constructor; set_solver.
  - set_solver.
  - intros [|[|i]] p Hp; simplify_eq/=; eexists; done.
  - simpl. set_solver.
Qed.

Lemma task_publish_appends_witness :
  exists s', task_publish 12288 example_sched = Some s' /\ sched_wf s' [4096; 8192; 12288].
Proof.
  destruct (task_publish_appends example_sched [4096; 8192] 12288) as (s' & E & W & _).
  - exact example_wf.
  - split; [lia|]. eexists. split; reflexivity || (split; reflexivity).
  - set_solver.
  - exists s'. split; [exact E|exact W].
Defined.

(** removing a published task deletes it from the list with every pointer valid, leaves it
    detached, keeps the state of all other tasks, and if it was the current task makes the next one,
    or the first one, current. *)
Theorem task_list_remove_deletes s l1 l2 p :
  sched_wf s (l1 ++ p :: l2) ->
  exists s', task_list_remove p s = Some s' /\ sched_wf s' (l1 ++ l2) /\ detached s' p /\
    current_task s' = (if decide (current_task s = p) then successor l1 l2 else current_task s) /\
    (forall x t, x <> p -> task_store s !! x = Some t -> exists t', task_store s' !! x = Some t' /\
       state t' = state t /\ wake_tick t' = wake_tick t /\ page_directory t' = page_directory t /\
       regs t' = regs t).
Proof. apply task_list_remove_spec. Qed.

Lemma task_list_remove_deletes_witness :
  exists s', task_list_remove 4096 example_sched = Some s' /\ sched_wf s' [8192] /\
    current_task s' = 8192.
Proof.
  destruct (task_list_remove_deletes example_sched [] [8192] 4096 example_wf) as (s' & E & W & _ & Hc & _).
  exists s'. split; [exact E|]. split; [exact W|exact Hc].
Defined.

(** [task_get_next] terminates and gives the first runnable task after the current one, reading
    the list cyclically with the current task last; 0 exactly when no task is runnable. *)
Theorem task_get_next_round_robin s l1 l2 :
  sched_wf s (l1 ++ current_task s :: l2) ->
  task_get_next s = Some (first_runnable (task_store s) (l2 ++ l1 ++ [current_task s])) /\
  (task_get_next s = Some 0 <-> forall p, p ∈ l1 ++ current_task s :: l2 -> ~ runs s p).
Proof.
  intros W. pose proof (task_get_next_turns s l1 l2 W) as E. split; [done|]. rewrite E.
  assert (H0 : 0 ∉ turn_order l1 l2 (current_task s)) by (rewrite turn_order_elem; apply W).
  split.
  - intros [= Hf] p Hp (t & Ht & Hr). rewrite first_runnable_none in Hf by done.
    apply (Hf p t); [by apply turn_order_elem|done..].
  - intros Hno. f_equal. apply first_runnable_none; [done|]. intros p t Hp Ht Hr.
    apply (Hno p); [by apply (turn_order_elem l1 l2)|by exists t].
Qed.

Lemma task_get_next_round_robin_witness : task_get_next example_sched = Some 4096.
Proof.
  rewrite (proj1 (task_get_next_round_robin example_sched [] [8192] example_wf)). reflexivity.
Defined.

(** C15: the scheduler is fair: while the set of runnable tasks does not change, every runnable task is
    chosen in as many turns as there are tasks, and no turn fails. *)
Theorem round_robin_fair m s ts x :
  sched_wf s ts -> x ∈ ts -> runs s x ->
  exists ps s', turns m (length ts) s = Some (ps, s') /\ sched_wf s' ts /\ x ∈ ps.
Proof.
  intros W Hin Hx. destruct (order_exists s ts x W Hin) as (a & b & Ho & Hlen).
  destruct (turns_reach m (length ts) s ts x a b W Hin Hx Ho) as (ps & s' & E & W' & Hps).
  exists ps, s'. auto.
Qed.

Lemma round_robin_fair_witness :
  exists ps s', turns ∅ 2 example_sched = Some (ps, s') /\ 4096 ∈ ps.
Proof.
  destruct (round_robin_fair ∅ example_sched [4096; 8192] 4096 example_wf) as (ps & s' & E & _ & Hin).
  - set_solver.
  - eexists. split; reflexivity.
  - exists ps, s'. split; [exact E|exact Hin].
Defined.

(** C37: a sleep is exact and wrap-safe: a task put to sleep for [ms] milliseconds, with its deadline
    computed modulo 2^32, still sleeps after any smaller number of timer ticks than
    [pit_ms_to_ticks ms] and is runnable at that tick; the ticks after the two guard ticks cover [ms]
    milliseconds at the nominal 10 ms per tick, rounded up. *)
Theorem sleep_wakes_at_deadline s ts p t ms n :
  sched_wf s ts -> p ∈ ts -> task_store s !! p = Some t -> state t = TASK_SLEEPING ->
  0 < ms < 2 ^ 31 -> wake_tick t = u32 (pit_get_ticks s + pit_ms_to_ticks ms) ->
  Z.of_nat n <= pit_ms_to_ticks ms ->
  (exists s' t', pit_ticks n s = Some s' /\ sched_wf s' ts /\ task_store s' !! p = Some t' /\
     state t' = if Z.of_nat n <? pit_ms_to_ticks ms then TASK_SLEEPING else TASK_RUNNABLE) /\
  10 * (pit_ms_to_ticks ms - 3) < ms <= 10 * (pit_ms_to_ticks ms - 2).
Proof.
  intros W Hp Ht Hs Hms Hw Hn. pose proof (pit_ms_to_ticks_eq ms Hms) as Hd. split; [|rewrite Hd; lia].
  destruct (pit_ticks_asleep n s ts p t (pit_ms_to_ticks ms)) as (s' & E & W' & Ht'); [done..|lia|done|].
  exists s'. eexists. split; [done|]. split; [done|]. split; [done|].
  destruct (Z.eqb_spec (Z.of_nat n) (pit_ms_to_ticks ms)), (Z.ltb_spec (Z.of_nat n) (pit_ms_to_ticks ms));
    done || lia.
Qed.

Lemma sleep_wakes_at_deadline_witness :
  exists s' t', pit_ticks 3 example_sched = Some s' /\ task_store s' !! 8192 = Some t' /\
    state t' = TASK_RUNNABLE.
Proof.
  destruct (sleep_wakes_at_deadline example_sched [4096; 8192] 8192
    (example_task 0 4096 TASK_SLEEPING 1) 10 3 example_wf) as [(s' & t' & E & _ & Ht & Hs) _];
    [set_solver|reflexivity|reflexivity|lia|reflexivity|vm_compute; discriminate|].
  exists s', t'. split; [exact E|]. split; [exact Ht|exact Hs].
Defined.

(** the idle loop of [task_next] is left: if some task sleeps and its deadline is less than 2^31
    ticks ahead, then [task_next] enters a runnable task of the list as soon as that many timer
    interrupts have arrived, whatever other interrupts come in between; it neither panics nor
    follows an invalid pointer. *)
Theorem task_next_leaves_idle m halts s ts p d :
  sched_wf s ts -> p ∈ ts -> pending s p d -> d <= timers (concat halts) ->
  exists q r s' keys, task_next m halts s = Some (NextRun q r s', keys) /\ q ∈ ts /\ runs s' q /\
    current_task s' = q /\ sched_wf s' ts.
Proof.
  intros W Hp P Hd. unfold task_next.
  rewrite (proj2 (Z.eqb_neq (task_head s) 0)) by (rewrite (wf_empty _ _ W); intros ->; by apply not_elem_of_nil in Hp).
  assert (Hgo : forall q s1 (keys : list Z), q ∈ ts -> runs s1 q -> sched_wf s1 ts -> q <> 0 ->
    exists r s', (if q =? 0 then Some (NextHalted s1, keys)
                  else s2 ← task_switch m q s1; o ← task_return q s2; Some (o, keys)) = Some (NextRun q r s', keys) /\
      runs s' q /\ current_task s' = q /\ sched_wf s' ts).
  { intros q s1 keys Hq (t & Ht & Hr) W1 H0. rewrite (proj2 (Z.eqb_neq q 0)) by done.
    destruct (switch_wf m s1 ts q W1 Hq) as (s2 & -> & W2 & Hc & Hst). cbn [mbind option_bind].
    unfold task_return. rewrite Hst, Ht. cbn [mbind option_bind]. exists (regs t), s2.
    split; [done|]. split; [|done]. exists t. by rewrite Hst. }
  destruct (task_get_next_choice s ts W) as (q & -> & [(-> & _)|(Hq & Hin & Hr)]); cbn [mbind option_bind].
  - change (0 =? 0) with true. cbv iota.
    destruct (task_idle_progress m halts (kernel_page m s) ts p d) as (q & s1 & keys & -> & Hq & W1 & Hin & Hr);
      [by apply (sched_wf_fields s)|done..|]. cbn [mbind option_bind].
    destruct (Hgo q s1 keys Hin Hr W1 Hq) as (r & s' & ? & ? & ? & ?). exists q, r, s', keys. auto.
  - rewrite (proj2 (Z.eqb_neq q 0)) by done. cbn [mbind option_bind].
    destruct (Hgo q s [] Hin Hr W Hq) as (r & s' & E & ? & ? & ?).
    rewrite (proj2 (Z.eqb_neq q 0)) in E by done. exists q, r, s', [].
    rewrite (proj2 (Z.eqb_neq q 0)) by done. auto.
Qed.

Lemma task_next_leaves_idle_witness :
  exists q r s' keys, task_next ∅ [[IrqKeyboard 30]; [IrqTimer; IrqTimer]; [IrqTimer]] example_sched
    = Some (NextRun q r s', keys) /\ runs s' q.
Proof.
  destruct (task_next_leaves_idle ∅ [[IrqKeyboard 30]; [IrqTimer; IrqTimer]; [IrqTimer]] example_sched
    [4096; 8192] 8192 3 example_wf) as (q & r & s' & keys & E & _ & Hr & _).
  - set_solver.
  - eexists. split; [reflexivity|]. right. split; [reflexivity|]. split; [reflexivity|lia].
  - vm_compute. discriminate.
  - exists q, r, s', keys. split; [exact E|exact Hr].
Defined.
