(* ===== verification/Effects.v ===== *)
(** * A state and error monad

    The file system code threads a state through calls that may fail; a negative status returned by a
    callee is returned at once by its caller. [io S A] is a computation on states [S] that gives a
    value of [A] or a negative status, in both cases with the state reached. *)

From stdpp Require Import base numbers list gmap.
From Stdlib Require Import ZArith Lia.
From S2P Require Import Prelude.

#[local] Set Default Goal Selector "!".

Inductive result (A : Type) : Type :=
  | Ok (a : A)
  | Err (e : Z).
Arguments Ok {A} a.
Arguments Err {A} e.

Definition io (S A : Type) : Type := S -> result A * S.

#[export] Instance io_ret S : MRet (io S) := fun A a s => (Ok a, s).
#[export] Instance io_bind S : MBind (io S) := fun A B k m s =>
  match m s with
  | (Ok a, s) => k a s
  | (Err e, s) => (Err e, s)
  end.

(** [return -e;] *)
Definition fail {S A} (e : Z) : io S A := fun s => (Err (- e), s).
Definition gets {S A} (f : S -> A) : io S A := fun s => (Ok (f s), s).
(** A loop whose fuel ran out. The statuses of the code are negative, so [Err 0] is none of them. *)
Definition diverge {S A} : io S A := fun s => (Err 0, s).
Definition modify {S} (f : S -> S) : io S unit := fun s => (Ok tt, f s).

(** [if (b) return -e;] *)
Definition fail_if {S} (b : bool) (e : Z) : io S unit := if b then fail e else mret tt.

(** A call by its status: the status is returned as it is when negative. *)
Definition status {S} (r : Z) : io S Z := fun s => if r <? 0 then (Err r, s) else (Ok r, s).

(** [goto out] clean-up: [c] runs in the state reached, whatever the outcome. *)
Definition finally {S A} (m : io S A) (c : S -> S) : io S A := fun s => let '(r, s) := m s in (r, c s).

(** Clean-up of an error only. *)
Definition on_error {S A} (m : io S A) (c : S -> S) : io S A := fun s =>
  match m s with
  | (Ok a, s) => (Ok a, s)
  | (Err e, s) => (Err e, c s)
  end.

(** The null pointer for any error. *)
Definition attempt {S A} (m : io S A) : io S (option A) := fun s =>
  match m s with
  | (Ok a, s) => (Ok (Some a), s)
  | (Err _, s) => (Ok None, s)
  end.

(** A loop whose body goes on with [inl] or leaves with [inr], [fuel] rounds. The fuel is a binary number:
    a bound of millions of rounds costs nothing when the loop leaves early. *)
Fixpoint io_iter {S A B} (fuel : positive) (body : A -> io S (A + B)) (a : A) : io S (A + B) :=
  match fuel with
  | xH => body a
  | xO f => r ← io_iter f body a; match r with inl a => io_iter f body a | inr b => mret (inr b) end
  | xI f =>
    r ← body a;
    match r with
    | inl a => r ← io_iter f body a; match r with inl a => io_iter f body a | inr b => mret (inr b) end
    | inr b => mret (inr b)
    end
  end.

(** Out of fuel is the status 0, which no code returns as an error. *)
Definition io_loop {S A B} (fuel : positive) (body : A -> io S (A + B)) (a : A) : io S B :=
  r ← io_iter fuel body a;
  match r return io S B with
  | inl _ => fun s => (Err 0, s)
  | inr b => mret b
  end.

(** ** Inversion *)

Lemma io_bind_inv {S A B} (m : io S A) (k : A -> io S B) s r s' :
  (x ← m; k x) s = (r, s') ->
  (exists e, m s = (Err e, s') /\ r = Err e) \/ (exists x s1, m s = (Ok x, s1) /\ k x s1 = (r, s')).
Proof.
  unfold mbind, io_bind. destruct (m s) as [[x|e] s1]; intros E; [right; eauto|left].
  injection E as <- <-. eauto.
Qed.

Lemma io_bind_ok {S A B} (m : io S A) (k : A -> io S B) s b s' :
  (x ← m; k x) s = (Ok b, s') -> exists x s1, m s = (Ok x, s1) /\ k x s1 = (Ok b, s').
Proof. intros [(? & _ & [=])|?]%io_bind_inv. done. Qed.

Lemma io_bind_run {S A B} (m : io S A) (k : A -> io S B) s x s1 :
  m s = (Ok x, s1) -> (x ← m; k x) s = k x s1.
Proof. unfold mbind, io_bind. by intros ->. Qed.

Lemma io_bind_stop {S A B} (m : io S A) (k : A -> io S B) s e s1 :
  m s = (Err e, s1) -> (x ← m; k x) s = (Err e, s1).
Proof. unfold mbind, io_bind. by intros ->. Qed.

Lemma fail_if_ok {S} b e (s s' : S) u : fail_if b e s = (Ok u, s') -> b = false /\ s' = s.
Proof. unfold fail_if, fail. destruct b; [done|]. intros E. by injection E. Qed.

Lemma fail_if_state {S} b e (s s' : S) r : fail_if b e s = (r, s') -> s' = s.
Proof. unfold fail_if, fail. destruct b; intros E; by injection E. Qed.

Lemma gets_inv {S A} (f : S -> A) s r s' : gets f s = (r, s') -> r = Ok (f s) /\ s' = s.
Proof. unfold gets. intros E. by injection E as <- <-. Qed.

Lemma modify_inv {S} (f : S -> S) s r s' : modify f s = (r, s') -> r = Ok tt /\ s' = f s.
Proof. unfold modify. intros E. by injection E as <- <-. Qed.

Lemma mret_inv {S A} (a : A) (s : S) r s' : mret (M := io S) a s = (r, s') -> r = Ok a /\ s' = s.
Proof. intros E. by injection E as <- <-. Qed.

Lemma fail_inv {S A} e (s : S) (r : result A) s' : fail e s = (r, s') -> r = Err (- e) /\ s' = s.
Proof. unfold fail. intros E. by injection E as <- <-. Qed.

Lemma status_ok {S} r (s s' : S) v : status r s = (Ok v, s') -> v = r /\ 0 <= r /\ s' = s.
Proof. unfold status. destruct (Z.ltb_spec r 0); intros E; [done|]. injection E as <- <-. done. Qed.

Lemma on_error_inv {S A} (m : io S A) c s r s' :
  on_error m c s = (r, s') ->
  exists s1, m s = (r, s1) /\ s' = match r with Ok _ => s1 | Err _ => c s1 end.
Proof. unfold on_error. destruct (m s) as [[a|e] s1]; intros E; injection E as <- <-; eauto. Qed.

Lemma finally_inv {S A} (m : io S A) c s r s' :
  finally m c s = (r, s') -> exists s1, m s = (r, s1) /\ s' = c s1.
Proof. unfold finally. destruct (m s) as [r1 s1]; intros E; injection E as <- <-; eauto. Qed.

Lemma attempt_inv {S A} (m : io S A) s r s' :
  attempt m s = (r, s') ->
  (exists a, m s = (Ok a, s') /\ r = Ok (Some a)) \/ (exists e, m s = (Err e, s') /\ r = Ok None).
Proof. unfold attempt. destruct (m s) as [[a|e] s1]; intros E; injection E as <- <-; eauto. Qed.

(** ** Loops *)

Section loops.
Context {S A B : Type} (body : A -> io S (A + B)).

(** [inv n a s]: before a round, with [n] rounds to go at most; [post]: when the loop is left. *)
Variable inv : Z -> A -> S -> Prop.
Variable post : result B -> S -> Prop.

Definition round_ok (n : Z) (r : result (A + B)) (s : S) : Prop :=
  match r with
  | Ok (inl a) => exists m, 0 <= m <= n /\ inv m a s
  | Ok (inr b) => post (Ok b) s
  | Err e => post (Err e) s
  end.

Hypothesis body_ok : forall n a s r s', inv n a s -> body a s = (r, s') -> round_ok (n - 1) r s'.

Lemma round_ok_seq n k (m : io S (A + B)) f s r s' :
  (forall r s', m s = (r, s') -> round_ok (n - k) r s') ->
  (forall n a s r s', inv n a s -> io_iter f body a s = (r, s') -> round_ok (n - Zpos f) r s') ->
  (x ← m; match x with inl a => io_iter f body a | inr b => mret (inr b) end) s = (r, s') ->
  round_ok (n - k - Zpos f) r s'.
Proof.
  intros Hm Hf [(e & E & ->)|([a|b] & s1 & E & E')]%io_bind_inv; apply Hm in E; simpl in E.
  - done.
  - destruct E as (j & Hj & E). apply (Hf _ _ _ _ _ E) in E'. destruct r as [[a'|b]|e]; simpl in *; [|done..].
    destruct E' as (i & Hi & E'). exists i. split; [lia|done].
  - apply mret_inv in E' as [-> ->]. done.
Qed.

Lemma io_iter_ok fuel : forall n a s r s',
  inv n a s -> io_iter fuel body a s = (r, s') -> round_ok (n - Zpos fuel) r s'.
Proof using body_ok.
  induction fuel as [f IH|f IH|]; intros n a s r s' Hi E; cbn [io_iter] in E.
  - replace (n - Zpos f~1) with (n - 1 - (Zpos f + Zpos f)) by lia.
    apply io_bind_inv in E as [(e & E & ->)|([a1|b] & s1 & E & E')]; apply (body_ok _ _ _ _ _ Hi) in E; simpl in E.
    + done.
    + destruct E as (j & Hj & E). apply (round_ok_seq j (Zpos f)) in E'; [|by intros ?? Ei; eapply IH|done].
      destruct r as [[a'|b]|e]; simpl in *; [|done..]. destruct E' as (i & Hi' & E'). exists i. split; [lia|done].
    + apply mret_inv in E' as [-> ->]. done.
  - replace (n - Zpos f~0) with (n - Zpos f - Zpos f) by lia.
    eapply round_ok_seq; [|exact IH|exact E]. intros ?? Ei. by eapply IH.
  - by eapply body_ok.
Qed.

(** The loop rule: with enough fuel for the measure the loop is left by its body. *)
Lemma io_loop_ok fuel n a s r s' :
  inv n a s -> n < Zpos fuel -> io_loop fuel body a s = (r, s') -> post r s'.
Proof using body_ok.
  intros Hi Hn [(e & E & ->)|([a1|b] & s1 & E & E')]%io_bind_inv; apply (io_iter_ok _ _ _ _ _ _ Hi) in E; simpl in E.
  - done.
  - destruct E as (m & Hm & _). lia.
  - apply mret_inv in E' as [-> ->]. done.
Qed.
End loops.

(** ** Invariants *)

Section preserves.
Context {S : Type} (R : S -> Prop).

Definition preserves {A} (m : io S A) : Prop := forall s r s', R s -> m s = (r, s') -> R s'.

Lemma preserves_bind {A B} (m : io S A) (k : A -> io S B) :
  preserves m -> (forall a, preserves (k a)) -> preserves (x ← m; k x).
Proof. intros Hm Hk s r s' Hs [(e & E & _)|(x & s1 & E & E1)]%io_bind_inv; [by eapply Hm|]. eapply Hk, E1. by eapply Hm. Qed.

Lemma preserves_ret {A} (a : A) : preserves (mret a).
Proof. by intros s r s' Hs [= _ <-]. Qed.

Lemma preserves_fail {A} e : preserves (fail (A := A) e).
Proof. by intros s r s' Hs [= _ <-]. Qed.

Lemma preserves_fail_if b e : preserves (fail_if b e).
Proof. destruct b; [apply preserves_fail|apply preserves_ret]. Qed.

Lemma preserves_gets {A} (f : S -> A) : preserves (gets f).
Proof. by intros s r s' Hs [= _ <-]. Qed.

Lemma preserves_gets_bind {A B} (f : S -> A) (k : A -> io S B) :
  (forall s, R s -> preserves (k (f s))) -> preserves (x ← gets f; k x).
Proof. intros Hk s r s' Hs E. exact (Hk s Hs s r s' Hs E). Qed.

Lemma preserves_modify f : (forall s, R s -> R (f s)) -> preserves (modify f).
Proof. intros Hf s r s' Hs [= _ <-]. by apply Hf. Qed.

Lemma preserves_iter {A B} fuel (body : A -> io S (A + B)) :
  (forall a, preserves (body a)) -> forall a, preserves (io_iter fuel body a).
Proof.
  intros Hb. assert (Hk : forall f, (forall a, preserves (io_iter f body a)) -> forall r : A + B,
    preserves (match r with inl a => io_iter f body a | inr b => mret (inr b) end)).
  { intros f Hf [a|b]; [apply Hf|apply preserves_ret]. }
  induction fuel as [f IH|f IH|]; intros a; cbn [io_iter]; [| |apply Hb].
  - apply preserves_bind; [apply Hb|]. intros [a1|b]; [|apply preserves_ret]. apply preserves_bind; [apply IH|by apply Hk].
  - apply preserves_bind; [apply IH|by apply Hk].
Qed.

Lemma preserves_loop {A B} fuel (body : A -> io S (A + B)) a :
  (forall a, preserves (body a)) -> preserves (io_loop fuel body a).
Proof.
  intros Hb. apply preserves_bind; [by apply preserves_iter|]. intros [a1|b]; [|apply preserves_ret].
  by intros s r s' Hs [= _ <-].
Qed.
End preserves.

(** Triples with a postcondition for errors. *)
Definition hoare {S A} (P : S -> Prop) (m : io S A) (Q : A -> S -> Prop) (E : S -> Prop) : Prop :=
  forall s r s', P s -> m s = (r, s') -> match r with Ok a => Q a s' | Err _ => E s' end.

Section hoare.
Context {S : Type}.
Implicit Types P E : S -> Prop.

Lemma hoare_bind {A B} P (m : io S A) (k : A -> io S B) R Q E :
  hoare P m R E -> (forall a, hoare (R a) (k a) Q E) -> hoare P (x ← m; k x) Q E.
Proof.
  intros Hm Hk s r s' Hs [(e & Em & ->)|(x & s1 & Em & Ek)]%io_bind_inv; apply (Hm _ _ _ Hs) in Em; [done|].
  by apply (Hk _ _ _ _ Em) in Ek.
Qed.

Lemma hoare_ret {A} P (a : A) Q E : (forall s, P s -> Q a s) -> hoare P (mret a) Q E.
Proof. intros Hq s r s' Hs [= <- <-]. by apply Hq. Qed.

Lemma hoare_fail {A} P e (Q : A -> S -> Prop) E : (forall s, P s -> E s) -> hoare P (fail e) Q E.
Proof. intros He s r s' Hs [= <- <-]. by apply He. Qed.

Lemma hoare_fail_if P b e E : (forall s, P s -> b = true -> E s) -> hoare P (fail_if b e) (fun _ s => P s /\ b = false) E.
Proof. intros He. destruct b; [apply hoare_fail; auto|by apply hoare_ret]. Qed.

Lemma hoare_gets {A} P (f : S -> A) E : hoare P (gets f) (fun a s => P s /\ a = f s) E.
Proof. by intros s r s' Hs [= <- <-]. Qed.

Lemma hoare_modify P f Q E : (forall s, P s -> Q tt (f s)) -> hoare P (modify f) Q E.
Proof. intros Hq s r s' Hs [= <- <-]. by apply Hq. Qed.

Lemma hoare_status P x E : (forall s, P s -> E s) -> hoare P (status x) (fun _ => P) E.
Proof. intros He s r s' Hs. unfold status. destruct (x <? 0); intros [= <- <-]; [by apply He|done]. Qed.

Lemma hoare_conseq {A} P P' (m : io S A) Q Q' E :
  (forall s, P s -> P' s) -> (forall a s, Q' a s -> Q a s) -> hoare P' m Q' E -> hoare P m Q E.
Proof. intros Hp Hq Hm s r s' Hs Es. apply Hp in Hs. apply (Hm _ _ _ Hs) in Es. destruct r; [by apply Hq|done]. Qed.

(** Rounds with the invariant [I]. *)
Lemma hoare_iter {A B} (body : A -> io S (A + B)) (I : A -> S -> Prop) (Q : B -> S -> Prop) E :
  let R := fun (r : A + B) s => match r with inl a => I a s | inr b => Q b s end in
  (forall a, hoare (I a) (body a) R E) -> forall fuel a, hoare (I a) (io_iter fuel body a) R E.
Proof.
  intros R Hb. assert (Hk : forall f, (forall a, hoare (I a) (io_iter f body a) R E) -> forall r : A + B,
    hoare (R r) (match r with inl a => io_iter f body a | inr b => mret (inr b) end) R E).
  { intros f Hf [a1|b]; [apply Hf|by apply hoare_ret]. }
  induction fuel as [f IH|f IH|]; intros a1; cbn [io_iter]; [| |apply Hb].
  - eapply hoare_bind; [apply Hb|]. intros [a2|b]; [|by apply hoare_ret]. eapply hoare_bind; [apply IH|by apply Hk].
  - eapply hoare_bind; [apply IH|by apply Hk].
Qed.

(** A loop with the invariant [I]; running out of fuel is an error. *)
Lemma hoare_loop {A B} fuel (body : A -> io S (A + B)) (I : A -> S -> Prop) Q E a :
  (forall a, hoare (I a) (body a) (fun r s => match r with inl a => I a s | inr b => Q b s end) E) ->
  (forall a s, I a s -> E s) -> hoare (I a) (io_loop fuel body a) Q E.
Proof.
  intros Hb He. eapply hoare_bind; [by apply (hoare_iter body I Q E)|]. intros [a1|b]; [|by apply hoare_ret].
  intros s r s' Hs [= <- <-]. by apply (He a1).
Qed.

Lemma hoare_keeps {A} P (m : io S A) : preserves P m -> hoare P m (fun _ => P) P.
Proof. intros Hm s r s' Hs E. apply (Hm _ _ _ Hs) in E. by destruct r. Qed.
End hoare.

(** ** Running *)

Lemma io_bind_assoc {S A B C} (m : io S A) (k : A -> io S B) (l : B -> io S C) s :
  (x ← (y ← m; k y); l x) s = (y ← m; x ← k y; l x) s.
Proof. unfold mbind, io_bind. by destruct (m s) as [[a|e] s1]. Qed.

Lemma io_bind_ext {S A B} (m m' : io S A) (k k' : A -> io S B) s :
  m s = m' s -> (forall a s1, m s = (Ok a, s1) -> k a s1 = k' a s1) -> (x ← m; k x) s = (x ← m'; k' x) s.
Proof. unfold mbind, io_bind. intros <- Hk. destruct (m s) as [[a|e] s1]; [by apply Hk|done]. Qed.

Lemma io_gets {S A B} (f : S -> A) (k : A -> io S B) s : (x ← gets f; k x) s = k (f s) s.
Proof. done. Qed.

Lemma io_modify {S B} (f : S -> S) (k : unit -> io S B) s : (x ← modify f; k x) s = k tt (f s).
Proof. done. Qed.

Lemma io_mret {S A B} (a : A) (k : A -> io S B) s : (x ← mret a; k x) s = k a s.
Proof. done. Qed.

Lemma io_fail_if {S B} b e (k : unit -> io S B) s :
  (x ← fail_if b e; k x) s = if b then (Err (- e), s) else k tt s.
Proof. by destruct b. Qed.

Lemma io_passes {S B} b e (k : unit -> io S B) s : b = false -> (x ← fail_if b e; k x) s = k tt s.
Proof. by intros ->. Qed.

Lemma io_status {S B} r (k : Z -> io S B) s :
  (x ← status r; k x) s = if r <? 0 then (Err r, s) else k r s.
Proof. unfold mbind, io_bind, status. by destruct (r <? 0). Qed.

#[export] Hint Rewrite @io_gets @io_modify @io_mret @io_fail_if @io_status : rorthox.

(** Inverts a successful run: every call in it succeeded. *)
Ltac io_ok H :=
  lazymatch type of H with
  | (mbind _ _) _ = (Ok _, _) =>
    let x := fresh "x" in let s := fresh "s" in let E := fresh "E" in
    apply io_bind_ok in H as (x & s & E & H); io_ok E; io_ok H
  | fail_if _ _ _ = (Ok _, _) => apply fail_if_ok in H as [? ->]
  | gets _ _ = (Ok _, _) => apply gets_inv in H as [H ->]; injection H as ->
  | modify _ _ = (Ok _, _) => apply modify_inv in H as [_ ->]
  | mret _ _ = (Ok _, _) => apply mret_inv in H as [H ->]; injection H as ->
  | fail _ _ = (Ok _, _) => apply fail_inv in H as [H _]; discriminate H
  | status _ _ = (Ok _, _) => apply status_ok in H as (-> & ? & ->)
  | _ => idtac
  end.
