(* ===== verification/Disk.v ===== *)
(** * Block device and disk streams (kernel/disk/disk.h, kernel/disk/streamer.c)

    The drive and its port driver appear to the file system as a block device, an interface with
    operations on whole sectors ([BlockDevice]) and what their results say about the image, the
    bytes stored ([BlockDeviceLaws]). The streamer turns it into a stream of bytes at a position.
    The theorems show that a stream read returns exactly the image's bytes, that a write changes
    exactly the bytes asked for, with read-modify-write of partial sectors, and what is known of the
    image when the drive fails midway. [ram_disk] is an instance of the interface. *)

From stdpp Require Import base numbers list gmap.
From Stdlib Require Import ZArith Lia.
From S2P Require Import Prelude Alloc Memory.

#[local] Set Default Goal Selector "!".

Definition RORTHOX_SECTOR_SIZE : Z := 512.

(** ** The interface (disk.h) *)

Class BlockDevice (D : Type) : Type := {
  (** [disk_read_block]: the status, the bytes stored in the buffer *)
  disk_read_block : D -> Z -> Z -> Z * list Z * D;
  disk_write_block : D -> Z -> Z -> list Z -> Z * D;
  disk_flush : D -> Z * D;
  (** [disk_write_capacity]: the status and the number of sectors *)
  disk_write_capacity : D -> Z * Z * D
}.

(** Bytes of an image. *)
Definition slice (f : Z -> Z) (p n : Z) : list Z := (fun i => f (p + i)) <$> seqZ 0 n.

(** An image with the bytes [bs] at [p]. *)
Definition splice (f : Z -> Z) (p : Z) (bs : list Z) : Z -> Z :=
  fun a => if (p <=? a) && (a <? p + Z.of_nat (length bs)) then default 0 (bs !! Z.to_nat (a - p))
           else f a.

(** What the drive can be asked to do. *)
Inductive access := Sector (lba : Z) | Flush | Capacity.
Coercion Sector : Z >-> access.

Definition is_byte (v : Z) : Prop := 0 <= v < 256.

Class BlockDeviceLaws (D : Type) `{BlockDevice D} : Type := {
  (** the byte at an offset of the disk *)
  img : D -> Z -> Z;
  img_byte d a : is_byte (img d a);
  read_img d lba n r buf d' a : disk_read_block d lba n = (r, buf, d') -> img d' a = img d a;
  read_data d lba r buf d' : disk_read_block d lba 1 = (r, buf, d') -> 0 <= r ->
    buf = slice (img d) (lba * 512) 512;
  write_frame d lba buf r d' a : disk_write_block d lba 1 buf = (r, d') ->
    a < lba * 512 \/ lba * 512 + 512 <= a -> img d' a = img d a;
  write_data d lba buf r d' a : disk_write_block d lba 1 buf = (r, d') -> 0 <= r ->
    length buf = Z.to_nat 512 -> Forall is_byte buf -> img d' a = splice (img d) (lba * 512) buf a;
  write_refused d lba buf d' a : disk_write_block d lba 1 buf = (- EINVARG, d') -> img d' a = img d a;
  flush_img d r d' a : disk_flush d = (r, d') -> img d' a = img d a;
  capacity_img d r n d' a : disk_write_capacity d = (r, n, d') -> img d' a = img d a;
  (** the accesses that succeed, which no operation changes *)
  good : D -> access -> Prop;
  flush_good d r d' : good d Flush -> disk_flush d = (r, d') -> 0 <= r;
  capacity_good d r n d' : good d Capacity -> disk_write_capacity d = (r, n, d') -> 0 <= r;
  read_good d (lba : Z) r buf d' : good d lba -> disk_read_block d lba 1 = (r, buf, d') -> 0 <= r;
  write_good d (lba : Z) buf r d' : good d lba -> length buf = Z.to_nat 512 ->
    disk_write_block d lba 1 buf = (r, d') -> 0 <= r;
  good_read d lba n r buf d' s : disk_read_block d lba n = (r, buf, d') -> good d s -> good d' s;
  good_write d lba n buf r d' s : disk_write_block d lba n buf = (r, d') -> good d s -> good d' s;
  good_flush d r d' s : disk_flush d = (r, d') -> good d s -> good d' s;
  good_capacity d r n d' s : disk_write_capacity d = (r, n, d') -> good d s -> good d' s
}.

(** ** Streams (streamer.c) *)

Section streamer.
Context `{BlockDevice D}.

(** The read loop: [total] bytes left at [pos]. Returns the status, the bytes copied out, and the
    stream's position. Each round reads at least one byte, so [total] is enough fuel. *)
Fixpoint streamer_read_loop (fuel : nat) (pos total : Z) (out : list Z) (d : D)
  : Z * list Z * Z * D :=
  match fuel with
  | O => (0, out, pos, d)
  | S fuel =>
    if 0 <? total then
      let sector := pos / RORTHOX_SECTOR_SIZE in
      let offset := pos mod RORTHOX_SECTOR_SIZE in
      let total_to_read := RORTHOX_SECTOR_SIZE - offset in
      let total_to_read := if total <? total_to_read then total else total_to_read in
      let '(res, buf, d) := disk_read_block d sector 1 in
      if res <? 0 then (res, out, pos, d)
      else
        streamer_read_loop fuel (pos + total_to_read) (total - total_to_read)
          (out ++ take (Z.to_nat total_to_read) (drop (Z.to_nat offset) buf)) d
    else (0, out, pos, d)
  end.

Definition diskstreamer_read (pos total : Z) (d : D) : Z * list Z * Z * D :=
  if (total <? 0) || (pos <? 0) || (INT_MAX - pos <? total) then (- EINVARG, [], pos, d)
  else streamer_read_loop (Z.to_nat total) pos total [] d.

Fixpoint streamer_write_loop (fuel : nat) (pos total : Z) (inp : list Z) (d : D) : Z * Z * D :=
  match fuel with
  | O => (0, pos, d)
  | S fuel =>
    if 0 <? total then
      let sector := pos / RORTHOX_SECTOR_SIZE in
      let offset := pos mod RORTHOX_SECTOR_SIZE in
      let bytes := RORTHOX_SECTOR_SIZE - offset in
      let bytes := if total <? bytes then total else bytes in
      let finish (data : list Z) (d : D) :=
        let '(res, d) := disk_write_block d sector 1 data in
        if res <? 0 then (res, pos, d)
        else streamer_write_loop fuel (pos + bytes) (total - bytes) (drop (Z.to_nat bytes) inp) d in
      if negb (offset =? 0) || negb (bytes =? RORTHOX_SECTOR_SIZE) then
        let '(res, buf, d) := disk_read_block d sector 1 in
        if res <? 0 then (res, pos, d)
        else
          finish (take (Z.to_nat offset) buf ++ take (Z.to_nat bytes) inp ++
                  drop (Z.to_nat (offset + bytes)) buf) d
      else finish (take (Z.to_nat RORTHOX_SECTOR_SIZE) inp) d
    else (0, pos, d)
  end.

(** The stream and the buffer are not null. *)
Definition diskstreamer_write (pos : Z) (buffer : list Z) (total : Z) (d : D) : Z * Z * D :=
  if (total <? 0) || (pos <? 0) || (INT_MAX - pos <? total) then (- EINVARG, pos, d)
  else streamer_write_loop (Z.to_nat total) pos total buffer d.
End streamer.

(** Returns the status and the stream's new position. *)
Definition diskstreamer_seek (cur pos : Z) : Z * Z :=
  if pos <? 0 then (- EINVARG, cur) else (0, pos).

Section streamer_alloc.
Context `{Allocator H}.

Definition sizeof_disk_stream : Z := 8.

(** The new stream's address; its position is 0. The kernel has one disk, number 0. *)
Definition diskstreamer_new (disk_id : Z) (s : H * mem) : Z * (H * mem) :=
  if negb (disk_id =? 0) then (0, s) else kzalloc s sizeof_disk_stream.

Definition diskstreamer_close (stream : Z) (h : H) : H := kfree h stream.
End streamer_alloc.

(** ** A drive in memory *)

(** [sectors] sectors with the contents [bytes]; accesses to a sector of [bad] fail. *)
Record ram_disk := RamDisk { bytes : gmap Z Z; sectors : Z; bad : gset Z }.

Fixpoint put (m : gmap Z Z) (p : Z) (bs : list Z) : gmap Z Z :=
  match bs with [] => m | b :: bs => put (<[p := b]> m) (p + 1) bs end.

Definition ram_img (d : ram_disk) (a : Z) : Z := default 0 (bytes d !! a) mod 256.

Definition ram_ok (d : ram_disk) (lba n : Z) : bool :=
  (0 <=? lba) && (lba + n <=? sectors d) && bool_decide (lba ∉ bad d).

#[export] Instance ram_block_device : BlockDevice ram_disk := {|
  disk_read_block d lba n :=
    if ram_ok d lba n then (0, slice (ram_img d) (lba * 512) (n * 512), d) else (- EIO, [], d);
  disk_write_block d lba n buf :=
    if ram_ok d lba n && (Z.of_nat (length buf) =? n * 512)
    then (0, RamDisk (put (bytes d) (lba * 512) buf) (sectors d) (bad d)) else (- EIO, d);
  disk_flush d := (0, d);
  disk_write_capacity d := (0, sectors d, d)
|}.

(** ** Slices *)

Lemma slice_length f p n : length (slice f p n) = Z.to_nat n.
Proof. unfold slice. by rewrite length_fmap, length_seqZ. Qed.

Lemma slice_lookup f p n (i : nat) : Z.of_nat i < n -> slice f p n !! i = Some (f (p + Z.of_nat i)).
Proof.
  intros Hi. unfold slice. rewrite list_lookup_fmap, lookup_seqZ_lt by lia. simpl. do 2 f_equal.
Qed.

Lemma slice_ext f g p n : (forall a, p <= a < p + n -> f a = g a) -> slice f p n = slice g p n.
Proof.
  intros E. apply list_eq. intros i. destruct (Z.lt_ge_cases (Z.of_nat i) n) as [Hi|Hi].
  - rewrite !slice_lookup by done. f_equal. apply E. lia.
  - rewrite !lookup_ge_None_2 by (rewrite slice_length; lia). done.
Qed.

Lemma slice_app f p n k :
  0 <= n -> 0 <= k -> slice f p (n + k) = slice f p n ++ slice f (p + n) k.
Proof.
  intros Hn Hk. apply list_eq. intros i.
  destruct (Z.lt_ge_cases (Z.of_nat i) n) as [Hi|Hi].
  - rewrite lookup_app_l by (rewrite slice_length; lia). by rewrite !slice_lookup by lia.
  - rewrite lookup_app_r, slice_length by (rewrite slice_length; lia).
    destruct (Z.lt_ge_cases (Z.of_nat i) (n + k)) as [Hi'|Hi'].
    + rewrite !slice_lookup by lia. do 2 f_equal. lia.
    + rewrite !lookup_ge_None_2 by (rewrite slice_length; lia). done.
Qed.

Lemma slice_sub f p n o k :
  0 <= o -> 0 <= k -> o + k <= n ->
  take (Z.to_nat k) (drop (Z.to_nat o) (slice f p n)) = slice f (p + o) k.
Proof.
  intros Ho Hk Hn. apply list_eq. intros i.
  destruct (Z.lt_ge_cases (Z.of_nat i) k) as [Hi|Hi].
  - rewrite lookup_take_lt, lookup_drop, !slice_lookup by lia. do 2 f_equal. lia.
  - rewrite lookup_take_ge by lia. rewrite lookup_ge_None_2 by (rewrite slice_length; lia). done.
Qed.

Lemma slice_bytes f p n : (forall a, is_byte (f a)) -> Forall is_byte (slice f p n).
Proof. intros Hf. unfold slice. apply Forall_fmap, Forall_forall. intros i _. apply Hf. Qed.

Lemma slice_nil f p : slice f p 0 = [].
Proof. done. Qed.

Lemma splice_out f p bs a : a < p \/ p + Z.of_nat (length bs) <= a -> splice f p bs a = f a.
Proof. intros Ha. unfold splice. case_Zb; simpl; (done || lia). Qed.

Lemma splice_in f p bs (i : nat) v : bs !! i = Some v -> splice f p bs (p + Z.of_nat i) = v.
Proof.
  intros Hi. pose proof (lookup_lt_Some _ _ _ Hi). unfold splice.
  rewrite (proj2 (Z.leb_le _ _)), (proj2 (Z.ltb_lt _ _)) by lia. simpl.
  by replace (Z.to_nat (p + Z.of_nat i - p)) with i by lia; rewrite Hi.
Qed.

Lemma splice_ext f g p bs a : f a = g a -> splice f p bs a = splice g p bs a.
Proof. intros E. unfold splice. by rewrite E. Qed.

(** Writing a list in two parts. *)
Lemma splice_app f p b1 b2 a :
  splice f p (b1 ++ b2) a = splice (splice f p b1) (p + Z.of_nat (length b1)) b2 a.
Proof.
  unfold splice. rewrite length_app.
  destruct (Z.lt_ge_cases a p); [by case_Zb; simpl; (done || lia)|].
  destruct (Z.lt_ge_cases a (p + Z.of_nat (length b1))).
  - rewrite lookup_app_l by lia. case_Zb; simpl; (done || lia).
  - rewrite lookup_app_r by lia.
    replace (Z.to_nat (a - p) - length b1)%nat with (Z.to_nat (a - (p + Z.of_nat (length b1)))) by lia.
    case_Zb; simpl; (done || lia).
Qed.

(** Writing back what is there changes nothing. *)
Lemma splice_slice f p n a : splice f p (slice f p n) a = f a.
Proof.
  unfold splice. rewrite slice_length. case_Zb; simpl; [|done..].
  rewrite slice_lookup by lia. simpl. f_equal. lia.
Qed.

(** A sector read, modified in the middle and written back. *)
Lemma splice_modify f p o bs a :
  0 <= o -> o + Z.of_nat (length bs) <= 512 ->
  splice f p (take (Z.to_nat o) (slice f p 512) ++ bs ++
              drop (Z.to_nat (o + Z.of_nat (length bs))) (slice f p 512)) a = splice f (p + o) bs a.
Proof.
  intros Ho Hn. set (e := o + Z.of_nat (length bs)).
  replace (take (Z.to_nat o) (slice f p 512)) with (slice f p o).
  2: { pose proof (slice_sub f p 512 0 o) as E. rewrite drop_0, Z.add_0_r in E. by rewrite E by lia. }
  replace (drop (Z.to_nat e) (slice f p 512)) with (slice f (p + e) (512 - e)).
  2: { rewrite <- (slice_sub f p 512 e (512 - e)) by lia. apply take_ge.
       rewrite length_drop, slice_length. lia. }
  rewrite splice_app, slice_length, Z2Nat.id by lia.
  rewrite (splice_ext _ f) by apply splice_slice.
  rewrite splice_app. replace (p + o + Z.of_nat (length bs)) with (p + e) by lia.
  rewrite (slice_ext f (splice f (p + o) bs)); [apply splice_slice|].
  intros x Hx. symmetry. apply splice_out. lia.
Qed.

(** ** Reading *)

Section streams.
Context `{BlockDeviceLaws D}.
Implicit Types d : D.

Lemma streamer_read_loop_spec fuel : forall pos total out d r out' pos' d',
  0 <= pos -> 0 <= total -> total <= Z.of_nat fuel ->
  streamer_read_loop fuel pos total out d = (r, out', pos', d') ->
  (forall a, img d' a = img d a) /\ (forall s, good d s -> good d' s) /\
  exists k, 0 <= k <= total /\ pos' = pos + k /\ out' = out ++ slice (img d) pos k /\
    ((r = 0 /\ k = total) \/
     (r < 0 /\ k < total /\ ~ good d (pos' / 512))).
Proof.
  induction fuel as [|fuel IH]; intros pos total out d r out' pos' d' Hp Ht Hf E; cbn [streamer_read_loop] in E.
  { injection E as <- <- <- <-. split; [done|]. split; [done|]. exists 0.
    rewrite slice_nil, app_nil_r. split; [lia|]. split; [lia|]. split; [done|]. left. lia. }
  unfold RORTHOX_SECTOR_SIZE in E. destruct (Z.ltb_spec 0 total) as [Hpos|Hpos]; cycle 1.
  { injection E as <- <- <- <-. split; [done|]. split; [done|]. exists 0.
    rewrite slice_nil, app_nil_r. split; [lia|]. split; [lia|]. split; [done|]. left. lia. }
  destruct (disk_read_block d (pos / 512) 1) as [[res buf] d1] eqn:Hr.
  set (n := if total <? 512 - pos mod 512 then total else 512 - pos mod 512) in E.
  assert (Hn : 0 < n <= 512 - pos mod 512 /\ n <= total) by (subst n; case_Zb; lia).
  destruct (Z.ltb_spec res 0) as [Hneg|Hok].
  { injection E as <- <- <- <-. split; [by intros a; eapply read_img|]. split; [by intros s; eapply good_read|].
    exists 0. rewrite slice_nil, app_nil_r. split; [lia|]. split; [lia|]. split; [done|]. right.
    split; [done|]. split; [lia|]. intros Hg. pose proof (read_good _ _ _ _ _ Hg Hr). lia. }
  rewrite (read_data _ _ _ _ _ Hr Hok), slice_sub in E by lia.
  replace (pos / 512 * 512 + pos mod 512) with pos in E by lia.
  apply IH in E as (Himg & Hgood & k & Hk & -> & -> & Hres); [|lia..].
  assert (Hi : forall a, img d1 a = img d a) by (intros a; by eapply read_img).
  split; [intros a; by rewrite Himg|]. split; [eauto using good_read|].
  exists (n + k). split; [lia|]. split; [lia|].
  rewrite slice_app, <- app_assoc by lia. split.
  - f_equal. f_equal. apply slice_ext. intros a _. apply Hi.
  - destruct Hres as [?|(? & ? & Hg)]; [left; lia|right]. split; [done|]. split; [lia|].
    replace (pos + (n + k)) with (pos + n + k) by lia. eauto using good_read.
Qed.

(** ** Writing *)

(** The image after [k] of the bytes have been written and a sector write may have failed. *)
Definition written (d d' : D) (pos k : Z) (bs : list Z) (r : Z) : Prop :=
  forall a, (r < 0 -> a < (pos + k) / 512 * 512 \/ (pos + k) / 512 * 512 + 512 <= a) ->
    img d' a = splice (img d) pos (take (Z.to_nat k) bs) a.

Lemma write_sector_img d1 d d2 sector offset bs res :
  (forall a, img d1 a = img d a) -> 0 <= offset -> offset + Z.of_nat (length bs) <= 512 ->
  Forall is_byte bs ->
  disk_write_block d1 sector 1
    (take (Z.to_nat offset) (slice (img d) (sector * 512) 512) ++ bs ++
     drop (Z.to_nat (offset + Z.of_nat (length bs))) (slice (img d) (sector * 512) 512)) = (res, d2) ->
  0 <= res -> forall a, img d2 a = splice (img d) (sector * 512 + offset) bs a.
Proof.
  intros Hi Ho Hb Hbs Hw Hres a.
  rewrite (write_data _ _ _ _ _ a Hw Hres).
  - rewrite (splice_ext _ (img d)) by done. by apply splice_modify.
  - rewrite !length_app, length_take, length_drop, slice_length. lia.
  - apply Forall_app. split; [apply Forall_take, slice_bytes, img_byte|].
    apply Forall_app. split; [done|apply Forall_drop, slice_bytes, img_byte].
Qed.

(** One round of the write loop. *)
Definition write_round (pos n : Z) (inp : list Z) (d : D) : Z * D :=
  let offset := pos mod 512 in
  if negb (offset =? 0) || negb (n =? 512) then
    let '(res, buf, d) := disk_read_block d (pos / 512) 1 in
    if res <? 0 then (res, d)
    else disk_write_block d (pos / 512) 1
           (take (Z.to_nat offset) buf ++ take (Z.to_nat n) inp ++ drop (Z.to_nat (offset + n)) buf)
  else disk_write_block d (pos / 512) 1 (take (Z.to_nat 512) inp).

Lemma streamer_write_loop_round fuel pos total inp d :
  0 < total ->
  streamer_write_loop (S fuel) pos total inp d =
    (let n := if total <? 512 - pos mod 512 then total else 512 - pos mod 512 in
     let '(res, d1) := write_round pos n inp d in
     if res <? 0 then (res, pos, d1)
     else streamer_write_loop fuel (pos + n) (total - n) (drop (Z.to_nat n) inp) d1).
Proof.
  intros Ht. cbn [streamer_write_loop]. unfold write_round, RORTHOX_SECTOR_SIZE.
  rewrite (proj2 (Z.ltb_lt 0 total)) by done. cbv zeta.
  set (n := if total <? 512 - pos mod 512 then total else 512 - pos mod 512).
  destruct (negb _ || negb _); [|done].
  destruct (disk_read_block d (pos / 512) 1) as [[res buf] d1]. destruct (Z.ltb_spec res 0); [|done].
  by rewrite (proj2 (Z.ltb_lt res 0)).
Qed.

Lemma write_round_spec pos n inp d res d1 :
  0 <= pos -> 0 < n <= 512 - pos mod 512 -> n <= Z.of_nat (length inp) -> Forall is_byte inp ->
  write_round pos n inp d = (res, d1) ->
  (forall s, good d s -> good d1 s) /\ (res < 0 -> ~ good d (pos / 512)) /\
  (forall a, a < pos / 512 * 512 \/ pos / 512 * 512 + 512 <= a -> img d1 a = img d a) /\
  (0 <= res -> forall a, img d1 a = splice (img d) pos (take (Z.to_nat n) inp) a).
Proof.
  intros Hp Hn Hlen Hb E. unfold write_round in E.
  assert (Hl : length (take (Z.to_nat n) inp) = Z.to_nat n) by (rewrite length_take; lia).
  assert (Hbn : Forall is_byte (take (Z.to_nat n) inp)) by by apply Forall_take.
  assert (Hpos : pos / 512 * 512 + pos mod 512 = pos) by lia.
  destruct (negb (pos mod 512 =? 0) || negb (n =? 512)) eqn:Hpart.
  - destruct (disk_read_block d (pos / 512) 1) as [[r buf] d0] eqn:Hr.
    assert (Hi : forall a, img d0 a = img d a) by (intros a; by eapply read_img).
    destruct (Z.ltb_spec r 0) as [Hneg|Hok].
    + injection E as <- <-. split; [eauto using good_read|]. split; [|split; [auto|lia]].
      intros _ Hg. pose proof (read_good _ _ _ _ _ Hg Hr). lia.
    + rewrite (read_data _ _ _ _ _ Hr Hok) in E.
      split; [eauto using good_read, good_write|]. split; [|split].
      * intros Hneg Hg. apply (good_read _ _ _ _ _ _ _ Hr) in Hg.
        eapply write_good in E; [lia|done|].
        rewrite !length_app, Hl, length_take, length_drop, slice_length. lia.
      * intros a Ha. rewrite (write_frame _ _ _ _ _ a E) by done. apply Hi.
      * intros Hres a. rewrite <- Hpos at 1.
        apply (write_sector_img d0 d d1 (pos / 512) (pos mod 512) _ res Hi); [lia|rewrite Hl; lia|done| |done].
        by rewrite Hl, Z2Nat.id by lia.
  - apply orb_false_iff in Hpart as [Ho%negb_false_iff%Z.eqb_eq Hn5%negb_false_iff%Z.eqb_eq].
    subst n. split; [eauto using good_write|]. split; [|split].
    + intros Hneg Hg. pose proof (write_good _ _ _ _ _ Hg Hl E). lia.
    + intros a Ha. by apply (write_frame _ _ _ _ _ a E).
    + intros Hres a. rewrite (write_data _ _ _ _ _ a E Hres Hl Hbn). by replace (pos / 512 * 512) with pos by lia.
Qed.

Lemma streamer_write_loop_spec fuel : forall pos total inp d r pos' d',
  0 <= pos -> 0 <= total -> total <= Z.of_nat fuel -> total <= Z.of_nat (length inp) ->
  Forall is_byte inp ->
  streamer_write_loop fuel pos total inp d = (r, pos', d') ->
  (forall s, good d s -> good d' s) /\
  exists k, 0 <= k <= total /\ pos' = pos + k /\ written d d' pos k inp r /\
    ((r = 0 /\ k = total) \/ (r < 0 /\ k < total /\ ~ good d (pos' / 512))).
Proof.
  induction fuel as [|fuel IH]; intros pos total inp d r pos' d' Hp Ht Hf Hlen Hb E;
    (destruct (Z.lt_ge_cases 0 total) as [Hpos|Hpos];
      [|assert (total = 0) as -> by lia; cbn in E; injection E as <- <- <-;
        split; [done|]; exists 0; split; [lia|]; split; [lia|];
        split; [by intros a _; rewrite splice_out by (simpl; lia)|left; lia]]); [lia|].
  rewrite streamer_write_loop_round in E by done. cbv zeta in E.
  set (n := if total <? 512 - pos mod 512 then total else 512 - pos mod 512) in E.
  assert (Hn : 0 < n <= 512 - pos mod 512 /\ n <= total) by (subst n; case_Zb; lia).
  destruct (write_round pos n inp d) as [res d1] eqn:Hw.
  destruct (write_round_spec pos n inp d res d1) as (Hg & Hbad & Hframe & Hdata); [done || lia..|].
  destruct (Z.ltb_spec res 0) as [Hneg|Hok].
  - injection E as <- <- <-. split; [done|]. exists 0. split; [lia|]. split; [lia|].
    split; [|right; auto]. intros a Ha. rewrite splice_out by (simpl; lia). apply Hframe.
    rewrite Z.add_0_r in Ha. by apply Ha.
  - apply IH in E as (Hg' & k & Hk & -> & Hwr & Hres); [|lia|lia|lia|rewrite length_drop; lia|by apply Forall_drop].
    split; [eauto|]. exists (n + k). split; [lia|]. split; [lia|]. split.
    + intros a Ha. rewrite Hwr by (intros; rewrite <- Z.add_assoc; auto).
      replace (Z.to_nat (n + k)) with (Z.to_nat n + Z.to_nat k)%nat by lia.
      rewrite <- take_take_drop, splice_app, length_take.
      replace (pos + Z.of_nat (Z.to_nat n `min` length inp)) with (pos + n) by lia.
      apply splice_ext. by apply Hdata.
    + destruct Hres as [?|(? & ? & Hbad')]; [left; lia|right]. split; [done|]. split; [lia|].
      replace (pos + (n + k)) with (pos + n + k) by lia. eauto.
Qed.

(** A refusal with the position unmoved has left the disk alone. *)
Lemma streamer_write_refused fuel pos total inp d d' :
  0 <= pos -> 0 <= total -> total <= Z.of_nat fuel -> total <= Z.of_nat (length inp) ->
  Forall is_byte inp -> streamer_write_loop fuel pos total inp d = (- EINVARG, pos, d') ->
  forall a, img d' a = img d a.
Proof.
  intros Hp Ht Hf Hlen Hb E a. destruct (Z.eq_dec total 0) as [->|Hz].
  { destruct fuel; cbn in E; by injection E as _ <-. }
  destruct fuel as [|fuel]; [lia|]. rewrite streamer_write_loop_round in E by lia. cbv zeta in E.
  set (n := if total <? 512 - pos mod 512 then total else 512 - pos mod 512) in E.
  assert (Hn : 0 < n <= total) by (subst n; case_Zb; lia).
  destruct (write_round pos n inp d) as [res d1] eqn:Hw. destruct (Z.ltb_spec res 0) as [Hneg|Hok].
  - injection E as -> ->. unfold write_round in Hw. destruct (_ || _).
    + destruct (disk_read_block d (pos / 512) 1) as [[res' buf] d2] eqn:Er.
      destruct (Z.ltb_spec res' 0); [injection Hw as -> ->; by eapply read_img|].
      rewrite (write_refused _ _ _ _ _ Hw). by eapply read_img.
    + by eapply write_refused.
  - apply streamer_write_loop_spec in E as (_ & k & Hk & He & _);
      [lia|lia|lia|lia|rewrite length_drop; lia|by apply Forall_drop].
Qed.
End streams.

(** ** The drive in memory satisfies the laws *)

Lemma put_lookup bs : forall m p a,
  default 0 (put m p bs !! a) = splice (fun a => default 0 (m !! a)) p bs a.
Proof.
  induction bs as [|b bs IH]; intros m p a; simpl.
  { by rewrite splice_out by (simpl; lia). }
  rewrite IH. change (b :: bs) with ([b] ++ bs). rewrite splice_app. simpl length. apply splice_ext.
  destruct (Z.eq_dec a p) as [->|Hne].
  - rewrite lookup_insert_eq. pose proof (splice_in (fun a => default 0 (m !! a)) p [b] 0 b eq_refl) as E.
    rewrite Z.add_0_r in E. by rewrite E.
  - rewrite lookup_insert_ne by done. by rewrite splice_out by (simpl; lia).
Qed.

Lemma ram_write_img d lba buf sz bd a :
  Forall is_byte buf ->
  ram_img (RamDisk (put (bytes d) (lba * 512) buf) sz bd) a = splice (ram_img d) (lba * 512) buf a.
Proof.
  intros Hb. unfold ram_img. simpl. rewrite put_lookup. unfold splice.
  destruct (_ && _) eqn:Hin; [|done]. apply andb_true_iff in Hin as [H1%Z.leb_le H2%Z.ltb_lt].
  destruct (lookup_lt_is_Some_2 buf (Z.to_nat (a - lba * 512))) as [v Hv]; [lia|].
  rewrite Hv. simpl. apply Z.mod_small. by eapply (Forall_lookup_1 _ _ _ _ Hb).
Qed.

#[export] Instance ram_block_device_laws : BlockDeviceLaws ram_disk.
Proof.
  refine {| img := ram_img; good d x := match x with Sector lba => 0 <= lba < sectors d /\ lba ∉ bad d | _ => True end |};
    simpl.
  - intros d a. unfold is_byte, ram_img. lia.
  - intros d lba n r buf d' a E. by case_match; simplify_eq.
  - intros d lba r buf d' E Hr. case_match; simplify_eq; [done|unfold EIO in Hr; lia].
  - intros d lba buf r d' a E Ha. case_match eqn:Hc; simplify_eq; [|done].
    apply andb_true_iff in Hc as [_ Hlen%Z.eqb_eq]. unfold ram_img. simpl. rewrite put_lookup.
    by rewrite splice_out by lia.
  - intros d lba buf r d' a E Hr _ Hb. case_match; simplify_eq; [by apply ram_write_img|unfold EIO in Hr; lia].
  - intros d lba buf d' a E. by case_match; simplify_eq.
  - intros d r d' a E. by simplify_eq.
  - intros d r n d' a E. by simplify_eq.
  - intros d r d' _ E. by simplify_eq.
  - intros d r n d' _ E. by simplify_eq.
  - intros d lba r buf d' [Hl Hb] E. unfold ram_ok in E.
    rewrite (proj2 (Z.leb_le 0 lba)), (proj2 (Z.leb_le (lba + 1) _)), bool_decide_true in E by (done || lia).
    simpl in E. simplify_eq. lia.
  - intros d lba buf r d' [Hl Hb] Hlen E. unfold ram_ok in E.
    rewrite (proj2 (Z.leb_le 0 lba)), (proj2 (Z.leb_le (lba + 1) _)), bool_decide_true, Hlen in E by (done || lia).
    simpl in E. simplify_eq. lia.
  - intros d lba n r buf d' s E. by case_match; simplify_eq.
  - intros d lba n buf r d' s E. by case_match; simplify_eq.
  - intros d r d' s E. by simplify_eq.
  - intros d r n d' s E. by simplify_eq.
Defined.

(** ** Theorems *)

(** a stream read changes nothing on the disk; if it succeeds it has copied exactly the [total]
    bytes of the image at the position and advanced by them, and it fails only at a sector the drive
    cannot read, having copied the bytes before it. Out-of-range requests are refused. *)
Theorem diskstreamer_read_slice `{BlockDeviceLaws D} (d : D) pos total r out pos' d' :
  diskstreamer_read pos total d = (r, out, pos', d') ->
  (forall a, img d' a = img d a) /\
  (if (0 <=? total) && (0 <=? pos) && (total <=? INT_MAX - pos) then
     (r = 0 /\ out = slice (img d) pos total /\ pos' = pos + total) \/
     (r < 0 /\ ~ good d (pos' / 512) /\ exists k, 0 <= k < total /\ pos' = pos + k /\
        out = slice (img d) pos k)
   else r = - EINVARG /\ out = [] /\ pos' = pos).
Proof.
  unfold diskstreamer_read. intros E.
  destruct ((0 <=? total) && (0 <=? pos) && (total <=? INT_MAX - pos)) eqn:Hb.
  - rewrite !andb_true_iff, !Z.leb_le in Hb. destruct Hb as [[Ht Hp] Hm].
    rewrite (proj2 (Z.ltb_ge total 0)), (proj2 (Z.ltb_ge pos 0)), (proj2 (Z.ltb_ge _ total)) in E by done.
    apply streamer_read_loop_spec in E as (Hi & _ & k & Hk & -> & -> & Hr); [|lia..].
    split; [done|]. simpl. destruct Hr as [[-> ->]|(? & ? & ?)]; [by left|right].
    split; [done|]. split; [done|]. exists k. auto with lia.
  - replace ((total <? 0) || (pos <? 0) || (INT_MAX - pos <? total)) with true in E.
    + by simplify_eq.
    + rewrite !Z.ltb_antisym. destruct (0 <=? total), (0 <=? pos), (total <=? INT_MAX - pos); done.
Qed.

Lemma diskstreamer_read_slice_witness :
  diskstreamer_read 510 4 (RamDisk {[510 := 7; 513 := 9]} 4 ∅) = (0, [7; 0; 0; 9], 514, RamDisk {[510 := 7; 513 := 9]} 4 ∅) /\
  (forall a, img (RamDisk {[510 := 7; 513 := 9]} 4 ∅) a = img (RamDisk {[510 := 7; 513 := 9]} 4 ∅) a).
Proof.
  split; [vm_compute; reflexivity|].
  apply (diskstreamer_read_slice (RamDisk {[510 := 7; 513 := 9]} 4 ∅) 510 4 0 [7; 0; 0; 9] 514).
  vm_compute. reflexivity.
Defined.

(** a stream write of bytes inside the [int] range: on success the image is the old one with
    exactly these bytes replaced, partial sectors merged; if the drive fails the bytes before the
    failing sector are written and nothing outside that sector is damaged. *)
Theorem diskstreamer_write_splice `{BlockDeviceLaws D} (d : D) pos total buffer r pos' d' :
  0 <= pos -> 0 <= total <= INT_MAX - pos -> total <= Z.of_nat (length buffer) ->
  Forall is_byte buffer ->
  diskstreamer_write pos buffer total d = (r, pos', d') ->
  exists k, 0 <= k <= total /\ pos' = pos + k /\
    ((r = 0 /\ k = total /\ forall a, img d' a = splice (img d) pos (take (Z.to_nat total) buffer) a) \/
     (r < 0 /\ k < total /\ ~ good d (pos' / 512) /\
      forall a, a < pos' / 512 * 512 \/ pos' / 512 * 512 + 512 <= a ->
        img d' a = splice (img d) pos (take (Z.to_nat k) buffer) a)).
Proof.
  intros Hp Ht Hlen Hb E. unfold diskstreamer_write in E.
  rewrite (proj2 (Z.ltb_ge total 0)), (proj2 (Z.ltb_ge pos 0)), (proj2 (Z.ltb_ge _ total)) in E by lia.
  apply streamer_write_loop_spec in E as (_ & k & Hk & -> & Hw & Hr); [|done || lia..].
  exists k. split; [done|]. split; [done|].
  destruct Hr as [[-> ->]|(? & ? & ?)]; [left|right].
  - split; [done|]. split; [done|]. intros a. by apply Hw.
  - split; [done|]. split; [done|]. split; [done|]. intros a Ha. by apply Hw.
Qed.

Lemma diskstreamer_write_splice_witness :
  exists k, k = 4 /\ exists d', diskstreamer_write 510 [1; 2; 3; 4] 4 (RamDisk ∅ 4 ∅) = (0, 514, d') /\
    img d' 512 = 3.
Proof.
  destruct (diskstreamer_write 510 [1; 2; 3; 4] 4 (RamDisk ∅ 4 ∅)) as [[r pos'] d'] eqn:E.
  destruct (diskstreamer_write_splice (RamDisk ∅ 4 ∅) 510 4 [1; 2; 3; 4] r pos' d')
    as (k & Hk & -> & [(-> & -> & Hi)|(Hr & _)]).
  - lia.
  - unfold INT_MAX. lia.
  - simpl. lia.
  - repeat constructor; unfold is_byte; lia.
  - exact E.
  - exists 4. split; [reflexivity|]. exists d'. split; [reflexivity|]. rewrite Hi. reflexivity.
  - exfalso. assert (E0 : fst (fst (diskstreamer_write 510 [1; 2; 3; 4] 4 (RamDisk ∅ 4 ∅))) = 0)
      by (vm_compute; reflexivity).
    rewrite E in E0. simpl in E0. lia.
Defined.
