(* ===== verification/Ata.v ===== *)
(** * The ATA driver (kernel/disk/disk.c)

    The driver of the primary master drive over the ports of the channel. The drive is the class [AtaDrive]: its ports,
    and what the ATA protocol documents about them, as a view of the drive's state (what it is doing, the registers of
    the task file, the bytes on its media). The driver implements the block device that the file system is proved
    against; [sim_drive] is a drive that obeys the protocol. *)

From stdpp Require Import base numbers list gmap.
From Stdlib Require Import ZArith Lia.
From S2P Require Import Prelude Alloc Memory Effects Disk.

#[local] Set Default Goal Selector "!".

Definition ATA_DATA : Z := 0x1F0.
Definition ATA_ERROR : Z := 0x1F1.
Definition ATA_SECTOR_COUNT : Z := 0x1F2.
Definition ATA_LBA_LOW : Z := 0x1F3.
Definition ATA_LBA_MID : Z := 0x1F4.
Definition ATA_LBA_HIGH : Z := 0x1F5.
Definition ATA_DRIVE_HEAD : Z := 0x1F6.
Definition ATA_STATUS : Z := 0x1F7.
Definition ATA_COMMAND : Z := 0x1F7.
Definition ATA_ALT_STATUS : Z := 0x3F6.

Definition ATA_SR_ERR : Z := 0x01.
Definition ATA_SR_DRQ : Z := 0x08.
Definition ATA_SR_DF : Z := 0x20.
Definition ATA_SR_DRDY : Z := 0x40.
Definition ATA_SR_BSY : Z := 0x80.
Definition ATA_ER_ABRT : Z := 0x04.

Definition ATA_CMD_READ_SECTORS : Z := 0x20.
Definition ATA_CMD_WRITE_SECTORS : Z := 0x30.
Definition ATA_CMD_FLUSH_CACHE : Z := 0xE7.
Definition ATA_CMD_IDENTIFY : Z := 0xEC.
Definition ATA_DRIVE_MASTER_LBA : Z := 0xE0.
Definition ATA_LBA28_LIMIT : Z := 0x10000000.
Definition ATA_MAX_SECTORS : Z := 256.
Definition ATA_POLL_LIMIT : positive := 1000000.
Definition ATA_FLUSH_POLL_LIMIT : positive := 100000000.
Definition ATA_LBA28_SECTORS : Z := 0x0FFFFFFF.

(** ** The driver *)

(** Port reads and writes of the processor. *)
Class AtaPorts (D : Type) : Type := {
  insb : Z -> D -> Z * D;
  insw : Z -> D -> Z * D;
  outb : Z -> Z -> D -> D;
  outw : Z -> Z -> D -> D
}.

Definition has_bit (v mask : Z) : bool := negb (Z.land v mask =? 0).

Section driver.
Context {D : Type} `{AtaPorts D}.

Definition in_byte (port : Z) : io D Z := fun d => let '(v, d) := insb port d in (Ok v, d).
Definition out_byte (port v : Z) : io D unit := modify (outb port v).

Definition ata_pause : io D unit :=
  _ ← in_byte ATA_ALT_STATUS; _ ← in_byte ATA_ALT_STATUS; _ ← in_byte ATA_ALT_STATUS; _ ← in_byte ATA_ALT_STATUS; mret tt.

(** Reads the status until [accept] gives a result, [limit] times. *)
Definition poll (limit : positive) (accept : Z -> option Z) : io D unit :=
  r ← io_iter limit (fun _ => status ← in_byte ATA_STATUS;
                              mret (match accept status with Some res => inr res | None => inl tt end)) tt;
  match r with
  | inl _ => fail EIO
  | inr res => _ ← status res; mret tt
  end.

Definition ata_wait_idle : io D unit :=
  poll ATA_POLL_LIMIT (fun status => if negb (has_bit status (Z.lor ATA_SR_BSY ATA_SR_DRQ)) then Some 0 else None).

Definition ata_wait_data : io D unit :=
  poll ATA_POLL_LIMIT (fun status =>
    if has_bit status ATA_SR_BSY then None
    else if has_bit status (Z.lor ATA_SR_ERR ATA_SR_DF) then Some (- EIO)
    else if has_bit status ATA_SR_DRQ then Some 0
    else None).

Definition ata_wait_end (limit : positive) : io D unit :=
  poll limit (fun status =>
    if has_bit status ATA_SR_BSY then None
    else if has_bit status (Z.lor (Z.lor ATA_SR_ERR ATA_SR_DF) ATA_SR_DRQ) then Some (- EIO)
    else Some 0).

Definition ata_wait_done : io D unit := ata_wait_end ATA_POLL_LIMIT.

Definition ata_wait_ready : io D unit :=
  poll ATA_POLL_LIMIT (fun status =>
    if negb (has_bit status (Z.lor ATA_SR_BSY ATA_SR_DRQ)) && has_bit status ATA_SR_DRDY then Some 0 else None).

Definition ata_select (lba : Z) : io D unit :=
  _ ← ata_wait_idle;
  _ ← out_byte ATA_DRIVE_HEAD (Z.lor ATA_DRIVE_MASTER_LBA (Z.land (Z.shiftr lba 24) 0x0F));
  _ ← ata_pause;
  ata_wait_ready.

(** The registers of a transfer, then the command. *)
Definition task_file (lba total command : Z) : io D unit :=
  _ ← out_byte ATA_SECTOR_COUNT (u8 (Z.land total 0xFF));
  _ ← out_byte ATA_LBA_LOW (u8 (Z.land lba 0xFF));
  _ ← out_byte ATA_LBA_MID (u8 (Z.land (Z.shiftr lba 8) 0xFF));
  _ ← out_byte ATA_LBA_HIGH (u8 (Z.land (Z.shiftr lba 16) 0xFF));
  _ ← out_byte ATA_COMMAND command;
  ata_pause.

(** [n] words, as the bytes in memory. *)
Fixpoint read_words (n : nat) (d : D) : list Z * D :=
  match n with
  | O => ([], d)
  | S n =>
    let '(w, d) := insw ATA_DATA d in
    let '(ws, d) := read_words n d in (w :: ws, d)
  end.

Definition word_bytes (ws : list Z) : list Z := concat (map (fun w => [u8 w; u8 (Z.shiftr w 8)]) ws).

(** The sectors still to come, behind those in [buf]: the status and the bytes that the buffer has got. *)
Fixpoint read_sectors (total : nat) (buf : list Z) (d : D) : Z * list Z * D :=
  match total with
  | O =>
    match ata_wait_done d with
    | (Ok _, d) => (0, buf, d)
    | (Err e, d) => (e, buf, d)
    end
  | S total =>
    match ata_wait_data d with
    | (Err e, d) => (e, buf, d)
    | (Ok _, d) =>
      let '(ws, d) := read_words (Z.to_nat (RORTHOX_SECTOR_SIZE / 2)) d in
      let '(_, d) := ata_pause d in
      read_sectors total (buf ++ word_bytes ws) d
    end
  end.

Definition read_start (lba total : Z) : io D unit :=
  _ ← ata_wait_idle;
  _ ← out_byte ATA_DRIVE_HEAD (Z.lor ATA_DRIVE_MASTER_LBA (Z.land (Z.shiftr lba 24) 0x0F));
  _ ← ata_pause;
  _ ← ata_wait_idle;
  task_file lba total ATA_CMD_READ_SECTORS.

(** The buffer is not null. *)
Definition disk_read_sector (lba total : Z) (d : D) : Z * list Z * D :=
  if (total <? 1) || (ATA_MAX_SECTORS <? total) then (- EINVARG, [], d)
  else if (ATA_LBA28_LIMIT <=? lba) || (ATA_LBA28_LIMIT - 1 - lba <? total - 1) then (- EINVARG, [], d)
  else
    match read_start lba total d with
    | (Err e, d) => (e, [], d)
    | (Ok _, d) => read_sectors (Z.to_nat total) [] d
    end.

(** The checks of the words of IDENTIFY DEVICE; the number of sectors. *)
Definition identify_words (ws : list Z) : result Z :=
  let word i := default 0 (ws !! i) in
  let general := word 0%nat in
  let capabilities := word 49%nat in
  let command_set := word 83%nat in
  let sector_size := word 106%nat in
  if has_bit general 0x8004 || negb (has_bit capabilities 0x0200) then Err (- ERDONLY)
  else
    let sectors := Z.lor (word 60%nat) (u32 (Z.shiftl (word 61%nat) 16)) in
    if sectors =? 0 then Err (- ERDONLY)
    else
      let sectors := if ATA_LBA28_SECTORS <? sectors then ATA_LBA28_SECTORS else sectors in
      if negb (Z.land command_set 0xC000 =? 0x4000) || negb (has_bit command_set 0x1000) then Err (- ERDONLY)
      else if (Z.land sector_size 0xC000 =? 0x4000) && has_bit sector_size 0x1000 &&
              negb (Z.lor (word 117%nat) (u32 (Z.shiftl (word 118%nat) 16)) =? RORTHOX_SECTOR_SIZE / 2)
      then Err (- ERDONLY)
      else Ok sectors.

(** The answer to IDENTIFY DEVICE. *)
Definition identify_data : io D Z := fun d =>
  match ata_wait_data d with
  | (Err e, d) =>
    let '(status, d) := insb ATA_ALT_STATUS d in
    if Z.land status (Z.lor (Z.lor ATA_SR_BSY ATA_SR_DF) ATA_SR_ERR) =? ATA_SR_ERR then
      let '(error, d) := insb ATA_ERROR d in
      if has_bit error ATA_ER_ABRT then (Err (- ERDONLY), d) else (Err e, d)
    else (Err e, d)
  | (Ok _, d) =>
    let '(ws, d) := read_words (Z.to_nat (RORTHOX_SECTOR_SIZE / 2)) d in
    (_ ← ata_pause; _ ← ata_wait_done; ((fun d => (identify_words ws, d)) : io D Z)) d
  end.

Definition identify_start : io D unit :=
  _ ← ata_wait_idle;
  _ ← out_byte ATA_DRIVE_HEAD ATA_DRIVE_MASTER_LBA;
  _ ← ata_pause;
  status ← in_byte ATA_STATUS;
  _ ← fail_if ((status =? 0x00) || (status =? 0xFF)) ERDONLY;
  _ ← ata_wait_ready;
  _ ← out_byte ATA_COMMAND ATA_CMD_IDENTIFY;
  ata_pause.

Definition ata_identify : io D Z := _ ← identify_start; identify_data.

(** The words of a buffer from its front. *)
Fixpoint write_words (n : nat) (ptr : list Z) (d : D) : list Z * D :=
  match n with
  | O => (ptr, d)
  | S n =>
    let byte i := default 0 (ptr !! i) in
    write_words n (drop 2 ptr) (outw ATA_DATA (u16 (Z.lor (byte 0%nat) (Z.shiftl (byte 1%nat) 8))) d)
  end.

Fixpoint write_sectors (total : nat) (ptr : list Z) : io D unit :=
  match total with
  | O => ata_wait_done
  | S total =>
    _ ← ata_wait_data;
    ptr ← ((fun d => let '(ptr, d) := write_words (Z.to_nat (RORTHOX_SECTOR_SIZE / 2)) ptr d in (Ok ptr, d)) : io D (list Z));
    _ ← ata_pause;
    write_sectors total ptr
  end.

Definition ata_write_sectors (lba total : Z) (buf : list Z) : io D unit :=
  _ ← ata_select lba;
  _ ← task_file lba total ATA_CMD_WRITE_SECTORS;
  write_sectors (Z.to_nat total) buf.

(** *** The disk *)

(** The drive and the fields of the disk struct that the driver keeps. *)
Record ata := Ata { drive : D; write_checked : bool; write_status : Z; write_sectors_of : Z }.

Definition disk_check_writable (x : ata) : Z * ata :=
  if negb (write_checked x) then
    let '(r, d) := ata_identify (drive x) in
    let x := match r with Ok sectors => Ata d true 0 sectors | Err e => Ata d true e 0 end in
    (write_status x, x)
  else (write_status x, x).

Definition ata_write_capacity (x : ata) : Z * Z * ata :=
  let '(res, x) := disk_check_writable x in
  if res <? 0 then (res, 0, x) else (0, write_sectors_of x, x).

Definition with_drive (d : D) (x : ata) : ata := Ata d (write_checked x) (write_status x) (write_sectors_of x).

(** A status for an outcome. *)
Definition outcome (r : result unit) : Z := match r with Ok _ => 0 | Err e => e end.

Definition ata_write_block (x : ata) (lba total : Z) (buf : list Z) : Z * ata :=
  if (total <? 1) || (ATA_MAX_SECTORS <? total) then (- EINVARG, x)
  else if (ATA_LBA28_LIMIT <=? lba) || (ATA_LBA28_LIMIT - 1 - lba <? total - 1) then (- EINVARG, x)
  else
    let '(res, x) := disk_check_writable x in
    if res <? 0 then (res, x)
    else if (write_sectors_of x <=? lba) || (write_sectors_of x - lba <? total) then (- EINVARG, x)
    else let '(r, d) := ata_write_sectors lba total buf (drive x) in (outcome r, with_drive d x).

Definition flush_cache : io D unit :=
  _ ← ata_select 0;
  _ ← out_byte ATA_COMMAND ATA_CMD_FLUSH_CACHE;
  _ ← ata_pause;
  ata_wait_end ATA_FLUSH_POLL_LIMIT.

Definition ata_flush (x : ata) : Z * ata :=
  let '(res, x) := disk_check_writable x in
  if res <? 0 then (res, x)
  else
    let '(r, d) := flush_cache (drive x) in (outcome r, with_drive d x).

Definition ata_read_block (x : ata) (lba total : Z) : Z * list Z * ata :=
  let '(r, buf, d) := disk_read_sector lba total (drive x) in (r, buf, with_drive d x).
End driver.

Arguments ata D : clear implicits.

(** ** The protocol *)

(** The registers of the task file. *)
Record taskfile := Taskfile { tf_count : Z; tf_low : Z; tf_mid : Z; tf_high : Z; tf_head : Z }.

Definition tf_set (port v : Z) (tf : taskfile) : taskfile :=
  if port =? ATA_SECTOR_COUNT then Taskfile v (tf_low tf) (tf_mid tf) (tf_high tf) (tf_head tf)
  else if port =? ATA_LBA_LOW then Taskfile (tf_count tf) v (tf_mid tf) (tf_high tf) (tf_head tf)
  else if port =? ATA_LBA_MID then Taskfile (tf_count tf) (tf_low tf) v (tf_high tf) (tf_head tf)
  else if port =? ATA_LBA_HIGH then Taskfile (tf_count tf) (tf_low tf) (tf_mid tf) v (tf_head tf)
  else Taskfile (tf_count tf) (tf_low tf) (tf_mid tf) (tf_high tf) v.

Definition tf_port (port : Z) : Prop :=
  port = ATA_SECTOR_COUNT \/ port = ATA_LBA_LOW \/ port = ATA_LBA_MID \/ port = ATA_LBA_HIGH \/ port = ATA_DRIVE_HEAD.

(** The 28-bit address and the number of sectors that the registers name; 0 is 256. *)
Definition tf_lba (tf : taskfile) : Z := tf_low tf + 2 ^ 8 * tf_mid tf + 2 ^ 16 * tf_high tf + 2 ^ 24 * (tf_head tf mod 16).
Definition tf_total (tf : taskfile) : Z := if tf_count tf =? 0 then 256 else tf_count tf.

(** What the drive is doing. [ready] says that it has asked for the transfer of a sector's words. *)
Inductive phase :=
| Idle
(** READ SECTORS: the words of sector [lba] still to come, and the number of sectors after it *)
| Input (ready : bool) (lba : Z) (more : nat) (words : list Z)
(** IDENTIFY DEVICE *)
| Answer (ready : bool) (words : list Z)
(** WRITE SECTORS: the words got of sector [lba]; [kept] is false when the sector before it will be reported as lost *)
| Output (ready : bool) (lba : Z) (more : nat) (got : list Z) (kept : bool)
(** no more data; [kept] is false when an error will be reported *)
| Finish (kept : bool).

(** The 256 words of a sector of an image, low byte first. *)
Definition sector_words (f : Z -> Z) (lba : Z) : list Z :=
  (fun i => f (lba * 512 + 2 * i) + 2 ^ 8 * f (lba * 512 + 2 * i + 1)) <$> seqZ 0 256.

Definition failed (status : Z) : bool := has_bit status (Z.lor ATA_SR_ERR ATA_SR_DF).

(** The effect of a read of the status register. While the drive is busy the other bits mean nothing. A clear data
    request outside of that means that no command is in progress any more. *)
Definition after_status (status : Z) (p p' : phase) : Prop :=
  if has_bit status ATA_SR_BSY then p' = p
  else if has_bit status ATA_SR_DRQ then
    match p with
    | Input _ lba more ws => p' = Input true lba more ws
    | Answer _ ws => p' = Answer true ws
    | Output _ lba more got kept => p' = Output true lba more got kept /\ (failed status = false -> kept = true)
    | Idle | Finish _ => False
    end
  else p' = Idle /\ (failed status = false -> forall kept, p = Finish kept -> kept = true).

(** The phase that a command starts. *)
Definition command_phase (command : Z) (tf : taskfile) (identity : list Z) (f : Z -> Z) : option phase :=
  let more := Z.to_nat (tf_total tf - 1) in
  if command =? ATA_CMD_READ_SECTORS then Some (Input false (tf_lba tf) more (sector_words f (tf_lba tf)))
  else if command =? ATA_CMD_WRITE_SECTORS then Some (Output false (tf_lba tf) more [] true)
  else if command =? ATA_CMD_IDENTIFY then Some (Answer false identity)
  else if command =? ATA_CMD_FLUSH_CACHE then Some (Finish true)
  else None.

(** After a word of a sector has been taken. *)
Definition after_word (f : Z -> Z) (lba : Z) (more : nat) (ws : list Z) : phase :=
  match ws, more with
  | _ :: _, _ => Input true lba more ws
  | [], S more => Input false (lba + 1) more (sector_words f (lba + 1))
  | [], O => Finish true
  end.

(** After the last word of a sector has been given. *)
Definition after_sector (lba : Z) (more : nat) (kept : bool) : phase :=
  match more with S more => Output false (lba + 1) more [] kept | O => Finish kept end.

(** What a drive in working order answers when it is not busy: it is ready, and asks for the sectors that it has. *)
Definition answers (capacity : Z) (p : phase) (status : Z) : Prop :=
  has_bit status ATA_SR_DRDY = true /\
  match p with
  | Idle => has_bit status ATA_SR_DRQ = false
  | Finish _ => has_bit status ATA_SR_DRQ = false /\ failed status = false
  | Answer _ _ => has_bit status ATA_SR_DRQ = true /\ failed status = false
  | Input _ lba _ _ | Output _ lba _ _ _ =>
    if lba <? capacity then has_bit status ATA_SR_DRQ = true /\ failed status = false
    else has_bit status ATA_SR_DRQ = false /\ failed status = true
  end.

(** What is known about the state of a drive. *)
Class AtaView (D : Type) : Type := {
  (** the byte at an offset of the disk *)
  media : D -> Z -> Z;
  phase_of : D -> phase;
  task_file_of : D -> taskfile;
  (** the words of IDENTIFY DEVICE *)
  identity : D -> list Z;
  capacity : D -> Z;
  (** a drive in working order, and for how many status reads it may be busy *)
  working : D -> Prop;
  busy : D -> Z
}.

(** Nothing changes what the drive is, and nothing but the data of a write changes the media. *)
Definition same_drive `{AtaView D} (d d' : D) : Prop :=
  identity d' = identity d /\ capacity d' = capacity d /\ (working d -> working d').
Definition same_media `{AtaView D} (d d' : D) : Prop := same_drive d d' /\ forall a, media d' a = media d a.

Class AtaDrive (D : Type) `{AtaPorts D, AtaView D} : Type := {
  media_byte d a : is_byte (media d a);
  identity_length d : length (identity d) = 256%nat;
  busy_bound d : working d -> 0 <= busy d < Zpos ATA_POLL_LIMIT;
  alt_law port d : port = ATA_ALT_STATUS \/ port = ATA_ERROR ->
    let d' := snd (insb port d) in same_media d d' /\ phase_of d' = phase_of d /\ task_file_of d' = task_file_of d /\ busy d' = busy d;
  status_law d : let '(status, d') := insb ATA_STATUS d in
    same_media d d' /\ after_status status (phase_of d) (phase_of d') /\ (phase_of d = Idle -> task_file_of d' = task_file_of d);
  status_working d : working d -> let '(status, d') := insb ATA_STATUS d in
    status <> 0xFF /\ if has_bit status ATA_SR_BSY then busy d' < busy d else answers (capacity d) (phase_of d) status;
  register_law port v d : tf_port port -> is_byte v -> phase_of d = Idle ->
    let d' := outb port v d in same_media d d' /\ phase_of d' = Idle /\ task_file_of d' = tf_set port v (task_file_of d);
  command_law command d p : phase_of d = Idle -> Z.land (tf_head (task_file_of d)) 0xF0 = ATA_DRIVE_MASTER_LBA ->
    command_phase command (task_file_of d) (identity d) (media d) = Some p ->
    let d' := outb ATA_COMMAND command d in same_media d d' /\ phase_of d' = p;
  input_law d lba more w ws : phase_of d = Input true lba more (w :: ws) ->
    let '(v, d') := insw ATA_DATA d in v = w /\ same_media d d' /\ phase_of d' = after_word (media d) lba more ws;
  answer_law d w ws : phase_of d = Answer true (w :: ws) ->
    let '(v, d') := insw ATA_DATA d in
    v = w /\ same_media d d' /\ phase_of d' = match ws with [] => Finish true | _ => Answer true ws end;
  (** a word that does not complete a sector *)
  word_law d lba more got kept w : phase_of d = Output true lba more got kept -> (length got < 255)%nat -> 0 <= w < 2 ^ 16 ->
    let d' := outw ATA_DATA w d in same_media d d' /\ phase_of d' = Output true lba more (got ++ [w]) kept;
  (** the word that does: the media may change in this sector only, and has the words if they are not lost *)
  sector_law d lba more got kept w : phase_of d = Output true lba more got kept -> length got = 255%nat -> 0 <= w < 2 ^ 16 ->
    let d' := outw ATA_DATA w d in same_drive d d' /\ exists kept',
    phase_of d' = after_sector lba more kept' /\
    (forall a, a < lba * 512 \/ lba * 512 + 512 <= a -> media d' a = media d a) /\
    (kept' = true -> forall a, media d' a = splice (media d) (lba * 512) (word_bytes (got ++ [w])) a)
}.
