(* ===== verification/AtaProps.v ===== *)
(** * The ATA driver implements the block device (kernel/disk/disk.c)

    On every drive that follows the protocol, whatever it answers and however long it is busy, a read that succeeds gives
    the bytes of the media, a write changes only the sectors asked for, and a write that succeeds has changed them; a
    drive in working order carries out every request for sectors it has. So the driver is a [BlockDevice] with the laws
    that the stream and file system theorems rest on. *)

From stdpp Require Import base numbers list gmap.
From Stdlib Require Import ZArith Lia.
From S2P Require Import Prelude Alloc Memory Effects Disk Ata.

#[local] Set Default Goal Selector "!".

(** ** Waiting *)

Section waiting.
Context `{AtaDrive D}.
Implicit Types d : D.

#[export] Instance same_drive_preorder : PreOrder (same_drive (D := D)).
Proof. split; [by intros d|]. intros a b c (E1 & E2 & W1) (E3 & E4 & W2). split; [congruence|]. split; [congruence|auto]. Qed.

#[export] Instance same_media_preorder : PreOrder (same_media (D := D)).
Proof.
  split; [intros d; split; [reflexivity|done]|]. intros a b c (E1 & M1) (E2 & M2). split; [by etrans|]. intros i. by rewrite M2, M1.
Qed.

Definition poll_body (accept : Z -> option Z) (_ : unit) : io D (unit + Z) :=
  status ← in_byte ATA_STATUS; mret (match accept status with Some res => inr res | None => inl tt end).

Section poll.
(** [W] is what makes sure that the drive answers in time. *)
Context (limit : positive) (accept : Z -> option Z) (W : Prop) (P Q E : D -> Prop).
Hypothesis Hlimit : Zpos ATA_POLL_LIMIT <= Zpos limit.
Hypothesis Hworking : forall d, P d -> W -> working d.
Hypothesis Hstatus : forall d, P d -> let '(s, d') := insb ATA_STATUS d in
  match accept s with None => P d' /\ (W -> busy d' < busy d) | Some r => if r <? 0 then E d' else Q d' end.
Hypothesis Htimeout : forall d, P d -> ~ W -> E d.

Lemma poll_round d : P d -> exists r d', poll_body accept tt d = (Ok r, d') /\
  match r with inl _ => P d' /\ (W -> busy d' < busy d) | inr v => if v <? 0 then E d' else Q d' end.
Proof.
  intros HP. specialize (Hstatus d HP). unfold poll_body, in_byte, mbind, io_bind. destruct (insb ATA_STATUS d) as [s d'].
  destruct (accept s) as [v|]; by do 2 eexists.
Qed.

Lemma poll_rounds d r d' : P d -> io_iter limit (poll_body accept) tt d = (r, d') ->
  match r with Ok (inl _) => P d' | Ok (inr v) => if v <? 0 then E d' else Q d' | Err _ => False end.
Proof.
  intros HP Ei. pose proof (hoare_iter (poll_body accept) (fun _ => P) (fun v d => if v <? 0 then E d else Q d) (fun _ => False)) as Hh.
  cbv zeta in Hh. refine (_ (Hh _ limit tt d r d' HP Ei)); [by destruct r as [[[]|v]|e]|].
  intros [] d1 r1 d1' HP1 E1. destruct (poll_round d1 HP1) as (r2 & d2 & E2 & Hr2). rewrite E2 in E1. injection E1 as <- <-.
  destruct r2; [by destruct Hr2|done].
Qed.

Lemma poll_in_time d d' : P d -> W -> io_iter limit (poll_body accept) tt d <> (Ok (inl tt), d').
Proof.
  intros HP HW Ei. pose proof (busy_bound d (Hworking d HP HW)) as Hb.
  refine (_ (io_iter_ok (poll_body accept) (fun n _ d => P d /\ 0 <= busy d <= n) (fun _ _ => True) _ limit (busy d) tt d _ d' _ Ei)).
  - intros (k & Hk & _). lia.
  - intros n [] d1 r1 d1' [HP1 Hn] E1. destruct (poll_round d1 HP1) as (r2 & d2 & E2 & Hr2). rewrite E2 in E1. injection E1 as <- <-.
    destruct r2 as [[]|v]; [|done]. destruct Hr2 as [HP2 Hb2]. specialize (Hb2 HW). pose proof (busy_bound d2 (Hworking d2 HP2 HW)).
    exists (n - 1). split; [lia|]. split; [done|lia].
  - split; [done|lia].
Qed.

(** A wait ends as [accept] says. *)
Lemma poll_rule : hoare P (poll limit accept) (fun _ => Q) E.
Proof.
  intros d r d' HP Ep. unfold poll in Ep. apply io_bind_inv in Ep as [(e & Ei & ->)|([[]|v] & d1 & Ei & Ek)].
  - by apply (poll_rounds _ _ _ HP) in Ei.
  - apply fail_inv in Ek as [-> ->]. apply Htimeout; [by apply (poll_rounds _ _ _ HP) in Ei|]. intros HW. by apply (poll_in_time _ _ HP HW) in Ei.
  - apply (poll_rounds _ _ _ HP) in Ei. cbv beta iota in Ei. unfold mbind, io_bind, Effects.status in Ek.
    destruct (v <? 0); injection Ek as <- <-; done.
Qed.
End poll.
End waiting.

Lemma has_bit_lor v a b : has_bit v (Z.lor a b) = has_bit v a || has_bit v b.
Proof.
  unfold has_bit. rewrite Z.land_lor_distr_r. destruct (Z.eqb_spec (Z.land v a) 0) as [->|Ha]; [by rewrite Z.lor_0_l|].
  cbn [negb orb]. apply negb_true_iff, Z.eqb_neq. by intros [? _]%Z.lor_eq_0_iff.
Qed.

Section phases.
Context `{AtaDrive D} (d0 : D).
Implicit Types d : D.

Definition at_phase (p : phase) (d : D) : Prop := same_media d0 d /\ phase_of d = p.
Definition idle_with (tf : taskfile) (d : D) : Prop := at_phase Idle d /\ task_file_of d = tf.
(** The wait took too long. *)
Definition too_long (d : D) : Prop := same_media d0 d /\ ~ working d0.

Lemma same_working d : same_media d0 d -> working d0 -> working d.
Proof. intros [(_ & _ & Hw) _]. exact Hw. Qed.

Lemma same_capacity d : same_media d0 d -> capacity d = capacity d0.
Proof. by intros [(_ & E & _) _]. Qed.

(** One read of the status in the phase [p]. *)
Lemma status_step p d : at_phase p d -> let '(s, d') := insb ATA_STATUS d in
  same_media d0 d' /\ after_status s p (phase_of d') /\ (p = Idle -> task_file_of d' = task_file_of d) /\
  (working d0 -> s <> 0xFF /\ if has_bit s ATA_SR_BSY then busy d' < busy d else answers (capacity d0) p s).
Proof.
  intros [S <-]. pose proof (status_law d) as Hl. pose proof (fun Hw => status_working d (same_working d S Hw)) as Hw.
  destruct (insb ATA_STATUS d) as [s d']. rewrite (same_capacity d S) in Hw. destruct Hl as (S' & Ha & Ht). split; [by etrans|done].
Qed.

(** A wait in an idle drive for a status that a drive in working order gives. *)
Lemma idle_poll (accept : Z -> option Z) tf :
  (forall s r, accept s = Some r -> r = 0 /\ has_bit s ATA_SR_BSY = false) ->
  (forall s, has_bit s ATA_SR_BSY = false -> has_bit s ATA_SR_DRQ = false -> has_bit s ATA_SR_DRDY = true -> accept s <> None) ->
  hoare (idle_with tf) (poll ATA_POLL_LIMIT accept) (fun _ => idle_with tf) too_long.
Proof.
  intros Ha Hn. apply (poll_rule _ _ (working d0)); [lia|by intros d [[S _] _]; apply same_working| |by intros d [[S _] _]].
  intros d [A Ht]. pose proof (status_step Idle d A) as Hs. destruct (insb ATA_STATUS d) as [s d']. destruct Hs as (S & Hp & Ht' & Hw).
  assert (I : idle_with tf d').
  { split; [|by rewrite Ht']. split; [done|]. unfold after_status in Hp. destruct (has_bit s ATA_SR_BSY); [done|].
    by destruct (has_bit s ATA_SR_DRQ); [|destruct Hp]. }
  destruct (accept s) as [r|] eqn:E; [by apply Ha in E as [-> _]|]. split; [done|]. intros [_ Hw']%Hw.
  destruct (has_bit s ATA_SR_BSY) eqn:Eb; [done|]. destruct Hw' as [Hr Hq]. by apply (Hn s) in E.
Qed.

Lemma wait_idle_rule tf : hoare (idle_with tf) ata_wait_idle (fun _ => idle_with tf) too_long.
Proof.
  apply idle_poll; intros s.
  - intros r E. rewrite has_bit_lor in E. destruct (has_bit s ATA_SR_BSY); [done|]. destruct (has_bit s ATA_SR_DRQ); [done|]. by injection E as <-.
  - intros Hb Hq _. by rewrite has_bit_lor, Hb, Hq.
Qed.

Lemma wait_ready_rule tf : hoare (idle_with tf) ata_wait_ready (fun _ => idle_with tf) too_long.
Proof.
  apply idle_poll; intros s.
  - intros r E. rewrite has_bit_lor in E. destruct (has_bit s ATA_SR_BSY); [done|]. destruct (has_bit s ATA_SR_DRQ); [done|].
    destruct (has_bit s ATA_SR_DRDY); [|done]. by injection E as <-.
  - intros Hb Hq Hr. by rewrite has_bit_lor, Hb, Hq, Hr.
Qed.

(** The first wait: the drive may be in any state. *)
Definition unready (d : D) : Prop := same_media d0 d /\ ~ (working d0 /\ phase_of d0 = Idle).

Lemma first_wait_rule : hoare (fun d => d = d0) ata_wait_idle (fun _ => at_phase Idle) unready.
Proof.
  apply hoare_conseq with (P' := fun d => same_media d0 d /\ (phase_of d0 = Idle -> phase_of d = Idle)) (Q' := fun _ => at_phase Idle);
    [intros d ->; split; [reflexivity|done]|done|]. unfold ata_wait_idle.
  apply (poll_rule _ _ (working d0 /\ phase_of d0 = Idle)); [lia|by intros d [S _] [Hw _]; apply same_working| |by intros d [S _]].
  intros d [S Hi]. pose proof (status_step _ d (conj S eq_refl)) as Hs. destruct (insb ATA_STATUS d) as [s d1]. destruct Hs as (S1 & Hp & _ & Hw).
  rewrite has_bit_lor. unfold after_status in Hp. destruct (has_bit s ATA_SR_BSY) eqn:Eb; cbn [orb negb].
  { split; [split; [done|]; by rewrite Hp|]. intros [W _]. by destruct (Hw W). }
  destruct (has_bit s ATA_SR_DRQ) eqn:Eq; cbn [orb negb].
  { split; [|intros [_ Hi0]; by rewrite (Hi Hi0) in Hp]. split; [done|]. intros Hi0. by rewrite (Hi Hi0) in Hp. }
  split; [done|by destruct Hp].
Qed.

(** *** Data *)

Definition ready_phase (p : phase) : phase :=
  match p with
  | Input _ lba more ws => Input true lba more ws
  | Answer _ ws => Answer true ws
  | Output _ lba more got kept => Output true lba more got kept
  | p => p
  end.

Definition is_data (p : phase) : Prop := match p with Input _ _ _ _ | Answer _ _ | Output _ _ _ _ _ => True | _ => False end.

(** The drive has the sector. *)
Definition has_sector (p : phase) : Prop :=
  match p with Input _ lba _ _ | Output _ lba _ _ _ => lba < capacity d0 | _ => True end.

Definition confirmed (p : phase) : Prop := match p with Output _ _ _ _ kept => kept = true | _ => True end.

(** The drive does not have the sector, or is out of order. *)
Definition no_data (p : phase) (d : D) : Prop := same_media d0 d /\ (working d0 -> ~ has_sector p /\ phase_of d = Idle).

Lemma answers_data p s : is_data p -> answers (capacity d0) p s ->
  if failed s then has_bit s ATA_SR_DRQ = false /\ ~ has_sector p else has_bit s ATA_SR_DRQ = true /\ has_sector p.
Proof.
  unfold answers, has_sector. intros Hp [_ Ha]. destruct p; [done| | | |done]; [| by destruct Ha as [-> ->]|];
    (destruct (Z.ltb_spec lba (capacity d0)); destruct Ha as [-> ->]; (split; [done|]); lia).
Qed.

Lemma wait_data_rule p : is_data p ->
  hoare (at_phase p) ata_wait_data (fun _ d => at_phase (ready_phase p) d /\ confirmed p) (no_data p).
Proof.
  intros Hp. set (P := fun d => same_media d0 d /\ (phase_of d = p \/ phase_of d = Idle /\ ~ working d0)).
  apply hoare_conseq with (P' := P) (Q' := fun _ d => at_phase (ready_phase p) d /\ confirmed p); [by intros d []; split; [|left]|done|].
  unfold ata_wait_data. apply (poll_rule _ _ (working d0)); [lia|by intros d [S _]; apply same_working| |by intros d [S _]].
  intros d [S Hd]. pose proof (status_step _ d (conj S eq_refl)) as Hs. destruct (insb ATA_STATUS d) as [s d1]. destruct Hs as (S1 & Ha & _ & Hw).
  fold (failed s). unfold after_status in Ha. destruct (has_bit s ATA_SR_BSY) eqn:Eb; [split; [split; [done|]; by rewrite Ha|intros W; by destruct (Hw W)]|].
  destruct Hd as [Hd|[Hd Hn]]; rewrite Hd in Ha, Hw.
  - assert (Hd' : working d0 -> if failed s then has_bit s ATA_SR_DRQ = false /\ ~ has_sector p else has_bit s ATA_SR_DRQ = true /\ has_sector p).
    { intros W. by apply answers_data, Hw. }
    destruct (failed s) eqn:Ef; [split; [done|]; intros W; destruct (Hd' W) as [Eq Hn]; rewrite Eq in Ha; split; [done|by destruct Ha]|].
    destruct (has_bit s ATA_SR_DRQ) eqn:Eq.
    + clear P Hd Hd' Hw. cbn. unfold at_phase, confirmed, ready_phase. destruct p; [done| | | |done]; [by rewrite Ha..|]. destruct Ha as [-> Hk]. auto.
    + destruct Ha as [Ha _]. split; [split; [done|right; split; [done|]]|]; intros W; by destruct (Hd' W).
  - destruct (has_bit s ATA_SR_DRQ); [done|]. destruct Ha as [Ha _]. destruct (failed s); [by split|]. split; [split; [done|by right]|done].
Qed.

(** The end of a command. *)
Lemma wait_end_rule limit kept : Zpos ATA_POLL_LIMIT <= Zpos limit ->
  hoare (at_phase (Finish kept)) (ata_wait_end limit) (fun _ d => at_phase Idle d /\ kept = true) too_long.
Proof.
  intros Hl. unfold ata_wait_end. apply (poll_rule _ _ (working d0)); [done|by intros d [S _]; apply same_working| |by intros d [S _]].
  intros d A. pose proof (status_step _ d A) as Hs. destruct (insb ATA_STATUS d) as [s d1]. destruct Hs as (S1 & Ha & _ & Hw).
  rewrite has_bit_lor. fold (failed s). unfold after_status in Ha. destruct (has_bit s ATA_SR_BSY) eqn:Eb.
  { split; [by split|]. intros W. by destruct (Hw W). }
  destruct (has_bit s ATA_SR_DRQ) eqn:Eq; [done|]. destruct Ha as [Ha Hk]. rewrite orb_false_r. destruct (failed s) eqn:Ef; cbn.
  - split; [done|]. intros W. destruct (Hw W) as [_ (_ & _ & ?)]. congruence.
  - split; [by split|]. by apply (Hk eq_refl).
Qed.
End phases.

Section steps.
Context `{AtaDrive D}.
Implicit Types d : D.

(** What the reads of the alternate status leave alone. *)
Lemma pause_rule (R E : D -> Prop) :
  (forall d d', same_media d d' -> phase_of d' = phase_of d -> task_file_of d' = task_file_of d -> R d -> R d') ->
  hoare R ata_pause (fun _ => R) E.
Proof.
  intros HR. assert (Hi : hoare R (in_byte ATA_ALT_STATUS) (fun _ => R) E).
  { intros d r d' Hd. unfold in_byte. pose proof (alt_law ATA_ALT_STATUS d (or_introl eq_refl)) as Hl. cbv zeta in Hl.
    destruct (insb ATA_ALT_STATUS d) as [v d1]. intros [= <- <-]. destruct Hl as (S & Ep & Et & _). by eapply HR. }
  unfold ata_pause. do 4 (eapply hoare_bind; [exact Hi|intros ?]). by apply hoare_ret.
Qed.

Lemma pause_run d0 p d : at_phase d0 p d -> exists d', ata_pause d = (Ok tt, d') /\ at_phase d0 p d'.
Proof.
  intros A. assert (Hp : hoare (at_phase d0 p) ata_pause (fun _ => at_phase d0 p) (fun _ => False)).
  { apply pause_rule. intros d1 d' S Ep _ [S0 Hp]. split; [by etrans|congruence]. }
  destruct (ata_pause d) as [r d'] eqn:E. specialize (Hp _ _ _ A E). destruct r as [[]|e]; [by exists d'|done].
Qed.

Lemma at_phase_alt d0 p E : hoare (at_phase d0 p) (ata_pause (D := D)) (fun _ => at_phase d0 p) E.
Proof. apply pause_rule. intros d d' S Ep _ [S0 Hp]. split; [by etrans|congruence]. Qed.

Lemma idle_with_alt d0 tf E : hoare (idle_with d0 tf) (ata_pause (D := D)) (fun _ => idle_with d0 tf) E.
Proof. apply pause_rule. intros d d' S Ep Et [[S0 Hp] Ht]. split; [split; [by etrans|congruence]|congruence]. Qed.

Lemma register_rule d0 tf port v E : tf_port port -> is_byte v ->
  hoare (idle_with d0 tf) (out_byte port v) (fun _ => idle_with (D := D) d0 (tf_set port v tf)) E.
Proof.
  intros Hp Hv. apply hoare_modify. intros d [[S Hi] Ht]. destruct (register_law port v d Hp Hv Hi) as (S' & Hi' & Ht').
  split; [split; [by etrans|done]|]. by rewrite Ht', Ht.
Qed.

Lemma hoare_error {X} (P : D -> Prop) (m : io D X) Q (E E' : D -> Prop) : (forall d, E d -> E' d) -> hoare P m Q E -> hoare P m Q E'.
Proof. intros He Hm d r d' Hd Em. apply (Hm _ _ _ Hd) in Em. destruct r; [done|by apply He]. Qed.

Lemma too_long_unready d0 d : too_long d0 d -> unready (D := D) d0 d.
Proof. intros [S Hn]. split; [done|]. by intros [? _]. Qed.

(** ** Starting a command *)

Definition head (lba : Z) : Z := Z.lor ATA_DRIVE_MASTER_LBA (Z.land (Z.shiftr lba 24) 0x0F).

Lemma idle_any {X} d0 (m : io D X) Q (E : D -> Prop) : (forall tf, hoare (idle_with d0 tf) m Q E) -> hoare (at_phase d0 Idle) m Q E.
Proof. intros Hm d r d' A. by apply (Hm (task_file_of d)). Qed.

Lemma head_ok lba : 0 <= lba < 2 ^ 28 -> is_byte (head lba) /\ Z.land (head lba) 0xF0 = ATA_DRIVE_MASTER_LBA /\ head lba mod 16 = lba / 2 ^ 24.
Proof.
  intros Hl. unfold head. rewrite Z.shiftr_div_pow2 by lia. change 0x0F with (Z.ones 4). rewrite Z.land_ones, (Z.mod_small (lba / 2 ^ 24)) by lia.
  assert (Hn : 0 <= lba / 2 ^ 24 < 16) by lia. revert Hn. generalize (lba / 2 ^ 24). intros n Hn.
  assert (Hf : Forall (fun n => is_byte (Z.lor ATA_DRIVE_MASTER_LBA n) /\ Z.land (Z.lor ATA_DRIVE_MASTER_LBA n) 0xF0 = ATA_DRIVE_MASTER_LBA /\
    Z.lor ATA_DRIVE_MASTER_LBA n mod 16 = n) (seqZ 0 16)).
  { unfold is_byte. repeat constructor; vm_compute; done. }
  rewrite Forall_forall in Hf. apply Hf, elem_of_seqZ. lia.
Qed.

Lemma byte_land v k : 0 <= k -> is_byte (u8 (Z.land (Z.shiftr v k) 0xFF)) /\ u8 (Z.land (Z.shiftr v k) 0xFF) = v / 2 ^ k mod 2 ^ 8.
Proof.
  intros Hk. change 0xFF with (Z.ones 8). rewrite Z.land_ones, Z.shiftr_div_pow2 by lia. unfold u8, is_byte. rewrite Z.mod_mod by lia. lia.
Qed.

Lemma sector_words_ext (f g : Z -> Z) lba : (forall a, f a = g a) -> sector_words f lba = sector_words g lba.
Proof. intros E. apply list_fmap_ext. intros i x _. by rewrite !E. Qed.

Lemma command_rule d0 tf command p (E : D -> Prop) : Z.land (tf_head tf) 0xF0 = ATA_DRIVE_MASTER_LBA ->
  command_phase command tf (identity d0) (media d0) = Some p ->
  hoare (idle_with d0 tf) (out_byte ATA_COMMAND command) (fun _ => at_phase d0 p) E.
Proof.
  intros Hh Hc. apply hoare_modify. intros d [[S Hi] Ht]. rewrite <- Ht in Hh. pose proof S as [(Ed & _) Hm].
  assert (Hc' : command_phase command (task_file_of d) (identity d) (media d) = Some p).
  { rewrite Ht, Ed. rewrite <- Hc. unfold command_phase. by rewrite (sector_words_ext (media d) (media d0)). }
  destruct (command_law command d p Hi Hh Hc') as [S' Hp]. split; [by etrans|done].
Qed.

Lemma lba_parts v : v / 2 ^ 0 mod 2 ^ 8 + 2 ^ 8 * (v / 2 ^ 8 mod 2 ^ 8) + 2 ^ 16 * (v / 2 ^ 16 mod 2 ^ 8) + 2 ^ 24 * (v / 2 ^ 24) = v.
Proof.
  change (2 ^ 24) with (2 ^ 16 * 2 ^ 8). change (2 ^ 16) with (2 ^ 8 * 2 ^ 8). rewrite <- !Z.div_div by lia. rewrite Z.div_1_r.
  pose proof (Z.div_mod v (2 ^ 8)). pose proof (Z.div_mod (v / 2 ^ 8) (2 ^ 8)). pose proof (Z.div_mod (v / 2 ^ 8 / 2 ^ 8) (2 ^ 8)). lia.
Qed.

Lemma count_parts total : 1 <= total <= 256 -> (if total / 2 ^ 0 mod 2 ^ 8 =? 0 then 256 else total / 2 ^ 0 mod 2 ^ 8) = total.
Proof.
  intros Ht. rewrite Z.div_1_r. destruct (Z.eq_dec total 256) as [->|Hn]; [done|]. rewrite Z.mod_small by lia.
  by rewrite (proj2 (Z.eqb_neq total 0)) by lia.
Qed.

Lemma tf_set_all tf v0 v1 v2 v3 :
  tf_set ATA_LBA_HIGH v3 (tf_set ATA_LBA_MID v2 (tf_set ATA_LBA_LOW v1 (tf_set ATA_SECTOR_COUNT v0 tf))) = Taskfile v0 v1 v2 v3 (tf_head tf).
Proof. reflexivity. Qed.

Lemma task_file_rule d0 tf lba total command p (E : D -> Prop) :
  0 <= lba < 2 ^ 28 -> 1 <= total <= 256 -> tf_head tf = head lba ->
  (forall tf', tf_lba tf' = lba -> tf_total tf' = total -> command_phase command tf' (identity d0) (media d0) = Some p) ->
  hoare (idle_with d0 tf) (task_file lba total command) (fun _ => at_phase d0 p) E.
Proof.
  intros Hl Ht Hh Hc. destruct (head_ok lba Hl) as (Hb & Hm & H16).
  destruct (byte_land total 0 ltac:(lia)) as [B0 E0], (byte_land lba 0 ltac:(lia)) as [B1 E1], (byte_land lba 8 ltac:(lia)) as [B2 E2], (byte_land lba 16 ltac:(lia)) as [B3 E3].
  rewrite Z.shiftr_0_r in B0, E0, B1, E1. unfold task_file.
  eapply hoare_bind; [apply register_rule; [by left|exact B0]|intros ?].
  eapply hoare_bind; [apply register_rule; [by right; left|exact B1]|intros ?].
  eapply hoare_bind; [apply register_rule; [by do 2 right; left|exact B2]|intros ?].
  eapply hoare_bind; [apply register_rule; [by do 3 right; left|exact B3]|intros ?].
  eapply hoare_bind; [|intros ?; apply at_phase_alt]. rewrite tf_set_all, Hh. apply command_rule; [exact Hm|].
  apply Hc; unfold tf_lba, tf_total; cbn [tf_count tf_low tf_mid tf_high tf_head]; rewrite ?H16, ?E0, ?E1, ?E2, ?E3.
  - apply lba_parts.
  - by apply count_parts.
Qed.

(** *** The only error *)

Definition only_eio {X} (m : io D X) : Prop := forall d e d', m d = (Err e, d') -> e = - EIO.

Lemma eio_bind {X Y} (m : io D X) (k : X -> io D Y) : only_eio m -> (forall x, only_eio (k x)) -> only_eio (x ← m; k x).
Proof. intros Hm Hk d e d' [(e' & E & [= ->])|(x & d1 & _ & E)]%io_bind_inv; [by eapply Hm|by eapply Hk]. Qed.

Lemma eio_out port v : only_eio (out_byte port v).
Proof. by intros d e d' [=]. Qed.

Lemma eio_in port : only_eio (in_byte port).
Proof. intros d e d'. unfold in_byte. destruct (insb port d). by intros [=]. Qed.

Lemma eio_pause : only_eio ata_pause.
Proof. repeat (apply eio_bind; [apply eio_in|intros _]). by intros d e d' [=]. Qed.

Lemma eio_poll limit accept : (forall s r, accept s = Some r -> r = 0 \/ r = - EIO) -> only_eio (poll limit accept).
Proof.
  intros Ha d e d' Ep. unfold poll in Ep. fold (poll_body accept) in Ep.
  assert (Hb : forall x, hoare (fun _ => True) (poll_body accept x) (fun r _ => match r with inl _ => True | inr v => v = 0 \/ v = - EIO end) (fun _ => False)).
  { intros [] d2 r2 d2' _. unfold poll_body, in_byte, mbind, io_bind. destruct (insb ATA_STATUS d2) as [s d3]. intros [= <- <-].
    destruct (accept s) as [v|] eqn:Ea; [by apply Ha in Ea|done]. }
  pose proof (fun r d' => hoare_iter (poll_body accept) (fun _ _ => True) (fun v _ => v = 0 \/ v = - EIO) (fun _ => False) Hb limit tt d r d' I) as Hi.
  apply io_bind_inv in Ep as [(e' & Ei & _)|([[]|v] & d1 & Ei & Ek)]; apply Hi in Ei; [done|by injection Ek|].
  unfold mbind, io_bind, Effects.status in Ek. destruct Ei as [->| ->]; cbn in Ek; by injection Ek.
Qed.

Lemma eio_waits : only_eio ata_wait_idle /\ only_eio ata_wait_data /\ (forall limit, only_eio (ata_wait_end limit)) /\ only_eio ata_wait_ready.
Proof.
  split; [|split; [|split]]; [| |intros limit|]; apply eio_poll; intros s r; repeat (destruct (has_bit _ _)); intros E; try discriminate E;
    injection E as <-; auto.
Qed.
End steps.

(** ** Words and bytes *)

Lemma pairs_slice (g : Z -> Z) (n : nat) :
  concat (map (fun i => [g (2 * i); g (2 * i + 1)]) (seqZ 0 (Z.of_nat n))) = map g (seqZ 0 (2 * Z.of_nat n)).
Proof.
  induction n as [|n IH]; [done|]. replace (Z.of_nat (S n)) with (Z.of_nat n + 1) by lia.
  rewrite seqZ_app, map_app, concat_app, IH by lia. replace (2 * (Z.of_nat n + 1)) with (2 * Z.of_nat n + 2) by lia.
  rewrite (seqZ_app 0 (2 * Z.of_nat n) 2) by lia. rewrite map_app. f_equal.
  unfold seqZ. change (seq 0 (Z.to_nat 1)) with [0%nat]. change (seq 0 (Z.to_nat 2)) with [0%nat; 1%nat]. cbn [fmap list_fmap map concat app].
  replace (2 * (Z.of_nat 0 + (0 + Z.of_nat n))) with (Z.of_nat 0 + (0 + 2 * Z.of_nat n)) by lia.
  replace (Z.of_nat 1 + (0 + 2 * Z.of_nat n)) with (Z.of_nat 0 + (0 + 2 * Z.of_nat n) + 1) by lia. done.
Qed.

Lemma word_split a b : is_byte a -> is_byte b -> u8 (a + 2 ^ 8 * b) = a /\ u8 (Z.shiftr (a + 2 ^ 8 * b) 8) = b.
Proof. unfold is_byte, u8. intros Ha Hb. rewrite Z.shiftr_div_pow2 by lia. lia. Qed.

Lemma fmap_is_map (g : Z -> Z) l : g <$> l = map g l.
Proof. reflexivity. Qed.

Lemma sector_bytes f lba : (forall a, is_byte (f a)) -> word_bytes (sector_words f lba) = slice f (lba * 512) 512.
Proof.
  intros Hf. unfold word_bytes, sector_words, slice. rewrite !fmap_is_map, map_map.
  rewrite (map_ext _ (fun i => [f (lba * 512 + 2 * i); f (lba * 512 + (2 * i + 1))])).
  - exact (pairs_slice (fun i => f (lba * 512 + i)) 256).
  - intros i. rewrite <- Z.add_assoc. destruct (word_split (f (lba * 512 + 2 * i)) (f (lba * 512 + (2 * i + 1)))) as [-> ->]; [apply Hf..|done].
Qed.

(** ** Reading *)

Section reading.
Context `{AtaDrive D}.
Implicit Types d : D.

Lemma after_word_ext (f g : Z -> Z) lba more ws : (forall a, f a = g a) -> after_word f lba more ws = after_word g lba more ws.
Proof. intros E. unfold after_word. destruct ws; [|done]. destruct more; [done|]. by rewrite (sector_words_ext f g). Qed.

Lemma read_input d0 lba more ws : forall d, ws <> [] -> at_phase d0 (Input true lba more ws) d ->
  let '(vs, d') := read_words (length ws) d in vs = ws /\ at_phase d0 (after_word (media d0) lba more []) d'.
Proof.
  induction ws as [|w ws IH]; intros d Hne [S Hp]; [done|]. cbn [length read_words]. pose proof (input_law d lba more w ws Hp) as Hl.
  destruct (insw ATA_DATA d) as [v d1]. destruct Hl as (-> & S1 & Hp1). rewrite (after_word_ext _ (media d0)) in Hp1 by apply S.
  assert (S2 : same_media d0 d1) by (by etrans). destruct ws as [|w' ws]; [by split|].
  specialize (IH d1 ltac:(done) (conj S2 Hp1)). destruct (read_words (length (w' :: ws)) d1) as [vs d2]. by destruct IH as [-> IH].
Qed.

Lemma read_answer d0 ws : forall d, ws <> [] -> at_phase d0 (Answer true ws) d ->
  let '(vs, d') := read_words (length ws) d in vs = ws /\ at_phase d0 (Finish true) d'.
Proof.
  induction ws as [|w ws IH]; intros d Hne [S Hp]; [done|]. cbn [length read_words]. pose proof (answer_law d w ws Hp) as Hl.
  destruct (insw ATA_DATA d) as [v d1]. destruct Hl as (-> & S1 & Hp1). assert (S2 : same_media d0 d1) by (by etrans).
  destruct ws as [|w' ws]; [by split|].
  specialize (IH d1 ltac:(done) (conj S2 Hp1)). destruct (read_words (length (w' :: ws)) d1) as [vs d2]. by destruct IH as [-> IH].
Qed.

Lemma sector_words_length (f : Z -> Z) lba : length (sector_words f lba) = Z.to_nat (RORTHOX_SECTOR_SIZE / 2).
Proof. unfold sector_words. by rewrite length_fmap, length_seqZ. Qed.

(** The phase before a sector of [n] is asked for. *)
Definition before_input (f : Z -> Z) (lba : Z) (n : nat) : phase :=
  match n with S more => Input false lba more (sector_words f lba) | O => Finish true end.

Lemma read_sectors_rule d0 n : forall lba buf d, at_phase d0 (before_input (media d0) lba n) d ->
  let '(r, buf', d') := read_sectors n buf d in same_media d0 d' /\
  (r = 0 /\ phase_of d' = Idle /\ buf' = buf ++ slice (media d0) (lba * 512) (Z.of_nat n * 512) \/
   r = - EIO /\ (working d0 -> capacity d0 < lba + Z.of_nat n /\ phase_of d' = Idle)).
Proof.
  induction n as [|n IH]; intros lba buf d A; cbn [read_sectors].
  - pose proof (fun r d' => wait_end_rule d0 ATA_POLL_LIMIT true ltac:(lia) d r d' A) as Hw. unfold ata_wait_done.
    destruct (ata_wait_end ATA_POLL_LIMIT d) as [[u|e] d1] eqn:E; specialize (Hw _ _ eq_refl); cbv beta iota in Hw.
    + destruct Hw as [[S Hp] _]. split; [done|]. left. split; [done|]. split; [done|]. by rewrite app_nil_r.
    + apply (proj1 (proj2 (proj2 eio_waits))) in E as ->. destruct Hw as [S Hn]. split; [done|]. right. split; [done|]. by intros ?%Hn.
  - pose proof (fun r d' => wait_data_rule d0 (Input false lba n (sector_words (media d0) lba)) I d r d' A) as Hw.
    destruct (ata_wait_data d) as [[u|e] d1] eqn:E; specialize (Hw _ _ eq_refl); cbv beta iota in Hw.
    + destruct Hw as [A1 _]. pose proof (read_input d0 lba n (sector_words (media d0) lba) d1) as Hr. rewrite sector_words_length in Hr.
      destruct (read_words _ d1) as [ws d2]. destruct Hr as [-> A2]; [by intros E0%(f_equal length)|exact A1|].
      destruct (pause_run d0 _ d2 A2) as (d3 & -> & A3).
      specialize (IH (lba + 1) (buf ++ word_bytes (sector_words (media d0) lba)) d3 A3). destruct (read_sectors n _ d3) as [[r buf'] d4].
      destruct IH as [S4 Hr]. split; [done|]. destruct Hr as [(-> & Hp & ->)|[-> Hn]]; [left|right].
      * split; [done|]. split; [done|]. rewrite <- app_assoc. f_equal. rewrite sector_bytes by apply media_byte.
        replace (Z.of_nat (S n) * 512) with (512 + Z.of_nat n * 512) by lia. rewrite slice_app by lia.
        by replace ((lba + 1) * 512) with (lba * 512 + 512) by lia.
      * split; [done|]. intros W. destruct (Hn W). split; [lia|done].
    + apply (proj1 (proj2 eio_waits)) in E as ->. destruct Hw as [S Hn]. split; [done|]. right. split; [done|]. intros W.
      destruct (Hn W) as [Hc Hi]. cbn in Hc. split; [lia|done].
Qed.

(** The request can be put in the registers. *)
Definition request_ok (lba total : Z) : Prop := 1 <= total <= 256 /\ 0 <= lba /\ lba + total <= 2 ^ 28.

Lemma request_check lba total : 0 <= lba ->
  ((total <? 1) || (ATA_MAX_SECTORS <? total) = true \/ (ATA_LBA28_LIMIT <=? lba) || (ATA_LBA28_LIMIT - 1 - lba <? total - 1) = true) /\
    ~ request_ok lba total \/
  (total <? 1) || (ATA_MAX_SECTORS <? total) = false /\ (ATA_LBA28_LIMIT <=? lba) || (ATA_LBA28_LIMIT - 1 - lba <? total - 1) = false /\ request_ok lba total.
Proof.
  intros Hl. unfold request_ok, ATA_MAX_SECTORS, ATA_LBA28_LIMIT. case_Zb; cbn [orb]; try (left; split; [tauto|lia]). right. split; [done|]. split; [done|lia].
Qed.

Lemma read_start_rule d0 lba total : request_ok lba total ->
  hoare (fun d => d = d0) (read_start lba total) (fun _ => at_phase d0 (before_input (media d0) lba (Z.to_nat total))) (unready d0).
Proof.
  intros (Ht & Hl & Hs). destruct (head_ok lba ltac:(lia)) as (Hb & _ & _). unfold read_start. fold (head lba).
  eapply hoare_bind; [apply first_wait_rule|intros ?]. apply idle_any. intros tf.
  eapply hoare_bind; [apply register_rule; [by do 4 right|exact Hb]|intros ?].
  eapply hoare_bind; [apply idle_with_alt|intros ?].
  eapply hoare_bind; [eapply hoare_error; [apply too_long_unready|apply wait_idle_rule]|intros ?].
  apply task_file_rule; [lia|lia|done|]. intros tf' E1 E2. unfold command_phase. cbn [Z.eqb ATA_CMD_READ_SECTORS Pos.eqb]. rewrite E1, E2.
  replace (Z.to_nat total) with (S (Z.to_nat (total - 1))) by lia. done.
Qed.

Lemma eio_task_file lba total command : only_eio (D := D) (task_file lba total command).
Proof. unfold task_file. repeat (apply eio_bind; [apply eio_out|intros ?]). apply eio_pause. Qed.

Lemma eio_read_start lba total : only_eio (D := D) (read_start lba total).
Proof.
  apply eio_bind; [exact (proj1 eio_waits)|intros ?]. apply eio_bind; [apply eio_out|intros ?]. apply eio_bind; [apply eio_pause|intros ?].
  apply eio_bind; [exact (proj1 eio_waits)|intros ?; apply eio_task_file].
Qed.

Lemma read_sector_spec lba total d0 : 0 <= lba ->
  let '(r, buf, d) := disk_read_sector lba total d0 in same_media d0 d /\
  (r = 0 /\ request_ok lba total /\ phase_of d = Idle /\ buf = slice (media d0) (lba * 512) (total * 512) \/
   r = - EINVARG /\ d = d0 /\ ~ request_ok lba total \/
   r = - EIO /\ request_ok lba total /\ (working d0 -> phase_of d0 = Idle -> capacity d0 < lba + total /\ phase_of d = Idle)).
Proof.
  intros Hl. unfold disk_read_sector. destruct (request_check lba total Hl) as [[[E|E] Hn]|(E1 & E2 & Hr)].
  1: rewrite E; split; [reflexivity|]; right; left; done.
  1: destruct ((total <? 1) || (ATA_MAX_SECTORS <? total)); rewrite ?E; (split; [reflexivity|]; right; left; done).
  rewrite E1, E2. pose proof (fun r d' => read_start_rule d0 lba total Hr d0 r d' eq_refl) as Hs. cbv zeta.
  destruct (read_start lba total d0) as [[u|e] d1] eqn:Es; specialize (Hs _ _ eq_refl); cbv beta iota in Hs.
  - pose proof (read_sectors_rule d0 (Z.to_nat total) lba [] d1 Hs) as Hrd. destruct (read_sectors _ _ d1) as [[r buf] d2].
    rewrite Z2Nat.id in Hrd by (unfold request_ok in Hr; lia). destruct Hrd as [S [(-> & Hp & ->)|[-> Hn]]]; (split; [done|]); [by left|].
    right; right. split; [done|]. split; [done|]. intros W _. by apply Hn.
  - assert (He : e = - EIO) by exact (eio_read_start lba total d0 e d1 Es).
    destruct Hs as [S Hn]. split; [done|]. right; right. split; [done|]. split; [done|]. intros W Hi. by destruct Hn.
Qed.
End reading.

(** ** Writing *)

(** The words that the driver sends from a buffer. *)
Fixpoint buffer_words (n : nat) (ptr : list Z) : list Z :=
  match n with
  | O => []
  | S n => u16 (Z.lor (default 0 (ptr !! 0%nat)) (Z.shiftl (default 0 (ptr !! 1%nat)) 8)) :: buffer_words n (drop 2 ptr)
  end.

Lemma join_bytes a b : is_byte a -> is_byte b -> u16 (Z.lor a (Z.shiftl b 8)) = a + 2 ^ 8 * b.
Proof.
  unfold is_byte, u16. intros Ha Hb. rewrite Z.shiftl_mul_pow2 by lia.
  assert (Hz : Z.land a (b * 2 ^ 8) = 0).
  { apply Z.bits_inj'. intros i Hi. rewrite Z.land_spec, Z.bits_0. destruct (Z.ltb_spec i 8).
    - rewrite Z.mul_pow2_bits_low by lia. apply andb_false_r.
    - rewrite (Z.bits_above_log2 a i); [done|lia|]. destruct (Z.eq_dec a 0) as [->|]; [cbn; lia|]. apply Z.log2_lt_pow2; [lia|].
      assert (2 ^ 8 <= 2 ^ i) by (apply Z.pow_le_mono_r; lia). lia. }
  pose proof (Z.add_lor_land a (b * 2 ^ 8)) as E. rewrite Hz in E. rewrite Z.mod_small; lia.
Qed.

Lemma word_bytes_cons w ws : word_bytes (w :: ws) = u8 w :: u8 (Z.shiftr w 8) :: word_bytes ws.
Proof. reflexivity. Qed.

Lemma buffer_bytes n : forall ptr, Forall is_byte ptr -> (2 * n <= length ptr)%nat -> word_bytes (buffer_words n ptr) = take (2 * n) ptr.
Proof.
  induction n as [|n IH]; intros ptr Hb Hl; [done|]. destruct ptr as [|a [|b ptr]]; [cbn in Hl; lia|cbn in Hl; lia|].
  apply Forall_cons in Hb as [Ha [Hb Hr]%Forall_cons]. replace (2 * S n)%nat with (S (S (2 * n))) by lia.
  cbn [buffer_words drop take]. rewrite word_bytes_cons, drop_0, IH; [|done|cbn in Hl; lia].
  change (default 0 ((a :: b :: ptr) !! 0%nat)) with a. change (default 0 ((a :: b :: ptr) !! 1%nat)) with b. rewrite join_bytes by done.
  destruct (word_split a b Ha Hb) as [-> ->]. done.
Qed.

Section writing.
Context `{AtaDrive D}.
Implicit Types d : D.

(** A range of the media may have changed. *)
Definition same_outside (p q : Z) d d' : Prop := same_drive d d' /\ forall a, a < p \/ q <= a -> media d' a = media d a.

Lemma write_words_rule d0 lba more kept n : forall ptr got d, (length got + S n = 256)%nat -> at_phase d0 (Output true lba more got kept) d ->
  let '(ptr', d') := write_words (S n) ptr d in ptr' = drop (2 * S n) ptr /\ same_outside (lba * 512) (lba * 512 + 512) d0 d' /\
  exists kept', phase_of d' = after_sector lba more kept' /\
    (kept' = true -> forall a, media d' a = splice (media d0) (lba * 512) (word_bytes (got ++ buffer_words (S n) ptr)) a).
Proof.
  induction n as [|n IH]; intros ptr got d Hg [S Hp].
  - cbn [write_words buffer_words]. set (w := u16 _). assert (Hw : 0 <= w < 2 ^ 16) by (unfold w, u16; lia).
    destruct (sector_law d lba more got kept w Hp ltac:(lia) Hw) as (S' & kept' & Hp' & Hf & Hk). split; [done|].
    split; [split; [etrans; [apply S|exact S']|]; intros a Ha; by rewrite Hf, (proj2 S)|]. exists kept'. split; [done|]. intros E a.
    rewrite (Hk E). apply splice_ext, S.
  - cbn [buffer_words]. set (w := u16 _). assert (Hw : 0 <= w < 2 ^ 16) by (unfold w, u16; lia).
    destruct (word_law d lba more got kept w Hp ltac:(lia) Hw) as (S' & Hp').
    specialize (IH (drop 2 ptr) (got ++ [w]) (outw ATA_DATA w d)). change (write_words (Datatypes.S (Datatypes.S n)) ptr d) with (write_words (Datatypes.S n) (drop 2 ptr) (outw ATA_DATA w d)).
    destruct (write_words (Datatypes.S n) (drop 2 ptr) (outw ATA_DATA w d)) as [ptr' d']. rewrite <- app_assoc in IH.
    destruct IH as (-> & IH); [rewrite length_app; cbn; lia|split; [by etrans|done]|]. split; [|done]. rewrite drop_drop. f_equal. lia.
Qed.

Definition before_output (lba : Z) (n : nat) (kept : bool) : phase :=
  match n with S more => Output false lba more [] kept | O => Finish kept end.

Lemma same_outside_trans p q r d1 d2 d3 : p <= q <= r -> same_outside p q d1 d2 -> same_outside q r d2 d3 -> same_outside p r d1 d3.
Proof. intros Hq [S1 M1] [S2 M2]. split; [by etrans|]. intros a Ha. rewrite M2, M1 by lia. done. Qed.

Lemma same_media_outside p q d1 d2 : same_media d1 d2 -> same_outside p q d1 d2.
Proof. intros [S M]. split; [done|]. intros a _. apply M. Qed.

(** What a write of [n] sectors leaves. *)
Definition written (lba : Z) (n : nat) (ptr : list Z) (kept : bool) d (r : result unit) d' : Prop :=
  same_outside (lba * 512) ((lba + Z.of_nat n) * 512) d d' /\
  match r with
  | Ok _ => kept = true /\ phase_of d' = Idle /\ (Forall is_byte ptr -> (n * 512 <= length ptr)%nat ->
      forall a, media d' a = splice (media d) (lba * 512) (take (n * 512) ptr) a)
  | Err e => e = - EIO /\ (working d -> capacity d < lba + Z.of_nat n /\ phase_of d' = Idle)
  end.

Lemma write_sectors_end kept lba ptr d : phase_of d = Finish kept -> let '(r, d') := ata_wait_done d in written lba 0 ptr kept d r d'.
Proof.
  intros Hp. assert (A : at_phase d (Finish kept) d) by (split; [reflexivity|done]).
  pose proof (fun r d' => wait_end_rule d ATA_POLL_LIMIT kept ltac:(lia) d r d' A) as Hw. unfold ata_wait_done.
  destruct (ata_wait_end ATA_POLL_LIMIT d) as [[u|e] d1] eqn:E; specialize (Hw _ _ eq_refl); cbv beta iota in Hw.
  - destruct Hw as [[S Hi] Hk]. split; [by apply same_media_outside|]. split; [done|]. split; [done|]. intros _ _ a.
    change (take (0 * 512) ptr) with (@nil Z). rewrite splice_out by (cbn [length]; lia). apply S.
  - destruct Hw as [S Hn]. split; [by apply same_media_outside|]. split; [exact (proj1 (proj2 (proj2 eio_waits)) ATA_POLL_LIMIT d e d1 E)|]. by intros ?%Hn.
Qed.

Lemma write_sectors_rule n : forall lba kept ptr d, phase_of d = before_output lba n kept ->
  let '(r, d') := write_sectors n ptr d in written lba n ptr kept d r d'.
Proof.
  induction n as [|n IH]; intros lba kept ptr d Hp; [by apply write_sectors_end|]. cbn [write_sectors]. unfold mbind at 1, io_bind at 1.
  assert (A : at_phase d (Output false lba n [] kept) d) by (split; [reflexivity|done]).
  pose proof (fun r d' => wait_data_rule d (Output false lba n [] kept) I d r d' A) as Hw.
  destruct (ata_wait_data d) as [[u|e] d1] eqn:E; specialize (Hw _ _ eq_refl); cbv beta iota in Hw.
  2:{ destruct Hw as [S Hn]. split; [by apply same_media_outside|]. split; [exact (proj1 (proj2 eio_waits) d e d1 E)|]. intros W.
      destruct (Hn W) as [Hc Hi]. cbn in Hc. split; [lia|done]. }
  destruct Hw as [A1 Hk]. cbn in Hk. pose proof (write_words_rule d lba n kept 255 ptr [] d1 eq_refl A1) as Hww.
  change (Z.to_nat (RORTHOX_SECTOR_SIZE / 2)) with 256%nat. unfold mbind at 1, io_bind at 1.
  destruct (write_words 256 ptr d1) as [ptr' d2]. destruct Hww as (-> & S2 & kept' & Hp2 & Hm2). cbn [app] in Hm2.
  destruct (pause_run d2 _ d2 (conj (PreOrder_Reflexive d2) Hp2)) as (d3 & E3 & [S3 Hp3]). unfold mbind, io_bind. rewrite E3.
  specialize (IH (lba + 1) kept' (drop (2 * 256) ptr) d3 Hp3). destruct (write_sectors n (drop (2 * 256) ptr) d3) as [r d4]. destruct IH as [S4 Hr].
  assert (S03 : same_outside (lba * 512) ((lba + 1) * 512) d d3).
  { destruct S2 as [D2 M2]. split; [by etrans; [|apply S3]|]. intros a Ha. rewrite (proj2 S3). apply M2. lia. }
  split; [replace (lba + Z.of_nat (S n)) with (lba + 1 + Z.of_nat n) by lia; eapply same_outside_trans; [|exact S03|exact S4]; lia|].
  destruct r as [[]|e].
  - destruct Hr as (Hk' & Hi & Hm4). split; [done|]. split; [done|]. intros Hb Hl a. rewrite Hm4; [|by apply Forall_drop|rewrite length_drop; lia].
    rewrite (splice_ext _ (splice (media d) (lba * 512) (take 512 ptr))) by
      (rewrite (proj2 S3), (Hm2 Hk'), (buffer_bytes 256) by (done || lia); done).
    replace (take (S n * 512) ptr) with (take 512 ptr ++ take (n * 512) (drop (2 * 256) ptr)).
    + rewrite splice_app. rewrite length_take, Nat.min_l by lia. by replace ((lba + 1) * 512) with (lba * 512 + Z.of_nat 512) by lia.
    + change (2 * 256)%nat with 512%nat. rewrite take_take_drop. f_equal.
  - destruct Hr as [-> Hn]. split; [done|]. intros W. destruct S03 as [(_ & Ec & Hw3) _]. destruct (Hn (Hw3 W)) as [Hc Hi]. rewrite Ec in Hc. split; [lia|done].
Qed.
End writing.

Section commands.
Context `{AtaDrive D}.
Implicit Types d : D.

Lemma select_rule d0 lba : 0 <= lba < 2 ^ 28 ->
  hoare (fun d => d = d0) (ata_select lba) (fun _ d => at_phase d0 Idle d /\ tf_head (task_file_of d) = head lba) (unready d0).
Proof.
  intros Hl. destruct (head_ok lba Hl) as (Hb & _ & _). unfold ata_select. fold (head lba).
  eapply hoare_bind; [apply first_wait_rule|intros ?]. apply idle_any. intros tf.
  eapply hoare_bind; [apply register_rule; [by do 4 right|exact Hb]|intros ?]. eapply hoare_bind; [apply idle_with_alt|intros ?].
  eapply hoare_error; [apply too_long_unready|]. eapply hoare_conseq; [intros d Hd; exact Hd| |apply wait_ready_rule]. by intros ? d [A ->].
Qed.

Lemma eio_select lba : only_eio (D := D) (ata_select lba).
Proof.
  apply eio_bind; [exact (proj1 eio_waits)|intros ?]. apply eio_bind; [apply eio_out|intros ?]. apply eio_bind; [apply eio_pause|intros ?].
  exact (proj2 (proj2 (proj2 eio_waits))).
Qed.

(** Starting a command on the selected drive. *)
Lemma write_start_rule d0 lba total : request_ok lba total ->
  hoare (fun d => d = d0) (_ ← ata_select lba; task_file lba total ATA_CMD_WRITE_SECTORS)
    (fun _ => at_phase d0 (before_output lba (Z.to_nat total) true)) (unready d0).
Proof.
  intros (Ht & Hl & Hs). eapply hoare_bind; [apply select_rule; lia|intros ?]. intros d r d' [A Hh].
  refine (task_file_rule d0 (task_file_of d) lba total ATA_CMD_WRITE_SECTORS _ _ _ _ Hh _ d r d' (conj A eq_refl)); [lia|lia|].
  intros tf' E1 E2. unfold command_phase. cbn [Z.eqb ATA_CMD_READ_SECTORS ATA_CMD_WRITE_SECTORS Pos.eqb]. rewrite E1, E2.
  replace (Z.to_nat total) with (S (Z.to_nat (total - 1))) by lia. done.
Qed.

Lemma write_spec lba total buf d0 : request_ok lba total ->
  let '(r, d) := ata_write_sectors lba total buf d0 in
  same_outside (lba * 512) ((lba + total) * 512) d0 d /\
  match r with
  | Ok _ => phase_of d = Idle /\ (Forall is_byte buf -> total * 512 <= Z.of_nat (length buf) ->
      forall a, media d a = splice (media d0) (lba * 512) (take (Z.to_nat (total * 512)) buf) a)
  | Err e => e = - EIO /\ (working d0 -> phase_of d0 = Idle -> capacity d0 < lba + total /\ phase_of d = Idle)
  end.
Proof.
  intros Hr. pose proof (fun r d' => write_start_rule d0 lba total Hr d0 r d' eq_refl) as Hs. unfold ata_write_sectors. rewrite <- io_bind_assoc.
  unfold mbind at 1, io_bind at 1. destruct ((_ ← ata_select lba; task_file lba total ATA_CMD_WRITE_SECTORS) d0) as [[u|e] d1] eqn:Es;
    specialize (Hs _ _ eq_refl); cbv beta iota in Hs.
  - destruct Hs as [S1 Hp]. pose proof (write_sectors_rule (Z.to_nat total) lba true buf d1 Hp) as Hw.
    destruct (write_sectors (Z.to_nat total) buf d1) as [r d2]. destruct Hw as [[D2 M2] Hw]. rewrite Z2Nat.id in M2, Hw by (unfold request_ok in Hr; lia).
    split; [split; [etrans; [apply S1|done]|]; intros a Ha; rewrite M2 by done; apply S1|]. destruct r as [u'|e].
    + destruct Hw as (_ & Hi & Hm). split; [done|]. intros Hb Hl a. rewrite Hm by (done || lia). rewrite (splice_ext _ (media d0)) by apply S1.
      do 3 f_equal. lia.
    + destruct Hw as [-> Hn]. split; [done|]. intros W _. destruct (Hn (proj2 (proj2 (proj1 S1)) W)) as [Hc Hi].
      rewrite (proj1 (proj2 (proj1 S1))) in Hc. split; [exact Hc|exact Hi].
  - destruct Hs as [S1 Hn]. split; [by apply same_media_outside|].
    split; [|intros W Hi; by destruct Hn]. refine (eio_bind _ _ (eio_select lba) _ d0 e d1 Es). intros ?. apply eio_task_file.
Qed.

(** *** IDENTIFY DEVICE *)

Lemma side_read port d : port = ATA_ALT_STATUS \/ port = ATA_ERROR -> same_media d (snd (insb port d)).
Proof. intros Hp. by destruct (alt_law port d Hp). Qed.

Lemma identify_data_spec d0 d : at_phase d0 (Answer false (identity d0)) d ->
  let '(r, d') := identify_data d in same_media d0 d' /\
  (r = identify_words (identity d0) /\ phase_of d' = Idle \/ exists e, r = Err e /\ (e = - EIO \/ e = - ERDONLY) /\ ~ working d0).
Proof.
  intros A. unfold identify_data. pose proof (fun r d' => wait_data_rule d0 (Answer false (identity d0)) I d r d' A) as Hw.
  destruct (ata_wait_data d) as [[u|e] d1] eqn:E; specialize (Hw _ _ eq_refl); cbv beta iota in Hw.
  - destruct Hw as [A1 _]. pose proof (read_answer d0 (identity d0) d1) as Hr. rewrite identity_length in Hr.
    change (Z.to_nat (RORTHOX_SECTOR_SIZE / 2)) with 256%nat. destruct (read_words 256 d1) as [ws d2].
    destruct Hr as [-> A2]; [intros E0; by pose proof (f_equal length E0) as E1; rewrite identity_length in E1|exact A1|].
    destruct (pause_run d0 _ d2 A2) as (d3 & E3 & A3). unfold mbind at 1, io_bind at 1. rewrite E3. unfold mbind, io_bind.
    pose proof (fun r d' => wait_end_rule d0 ATA_POLL_LIMIT true ltac:(lia) d3 r d' A3) as Hd. unfold ata_wait_done.
    destruct (ata_wait_end ATA_POLL_LIMIT d3) as [[u'|e] d4] eqn:E4; specialize (Hd _ _ eq_refl); cbv beta iota in Hd.
    + destruct Hd as [[S4 Hi] _]. split; [done|by left].
    + destruct Hd as [S4 Hn]. split; [done|]. right. exists e. split; [done|]. split; [left; exact (proj1 (proj2 (proj2 eio_waits)) ATA_POLL_LIMIT d3 e d4 E4)|done].
  - assert (He : e = - EIO) by exact (proj1 (proj2 eio_waits) d e d1 E). destruct Hw as [S1 Hn].
    assert (Hnw : ~ working d0) by (intros W; destruct (Hn W) as [Hc _]; by apply Hc).
    pose proof (side_read ATA_ALT_STATUS d1 ltac:(by left)) as S2. destruct (insb ATA_ALT_STATUS d1) as [s2 d2]. cbn [snd] in S2.
    assert (S02 : same_media d0 d2) by (by etrans). destruct (_ =? _); [|split; [done|]; right; exists e; auto].
    pose proof (side_read ATA_ERROR d2 ltac:(by right)) as S3. destruct (insb ATA_ERROR d2) as [s3 d3]. cbn [snd] in S3.
    assert (S03 : same_media d0 d3) by (by etrans). destruct (has_bit s3 ATA_ER_ABRT); (split; [done|]); right; eexists; auto.
Qed.

(** The status read between selecting and waiting. *)
Lemma idle_status_rule d0 tf : hoare (idle_with d0 tf) (in_byte ATA_STATUS)
  (fun s d => idle_with d0 tf d /\ (working d0 -> (s =? 0x00) || (s =? 0xFF) = false)) (unready d0).
Proof.
  intros d r d' [A Ht] E. unfold in_byte in E. pose proof (status_step d0 Idle d A) as Hs. destruct (insb ATA_STATUS d) as [s d1].
  injection E as <- <-. destruct Hs as (S & Hp & Ht' & Hw). split.
  - split; [split; [done|]|by rewrite Ht']. unfold after_status in Hp. destruct (has_bit s ATA_SR_BSY); [done|]. by destruct (has_bit s ATA_SR_DRQ); [|destruct Hp].
  - intros W. destruct (Hw W) as [Hff Ha]. rewrite (proj2 (Z.eqb_neq s 0xFF) Hff), orb_false_r. apply Z.eqb_neq. intros ->. by destruct Ha.
Qed.

Lemma identify_start_rule d0 : hoare (fun d => d = d0) identify_start
  (fun _ => at_phase d0 (Answer false (identity d0))) (unready d0).
Proof.
  eapply hoare_bind; [apply first_wait_rule|intros ?]. apply idle_any. intros tf.
  eapply hoare_bind; [apply register_rule; [by do 4 right|unfold is_byte, ATA_DRIVE_MASTER_LBA; lia]|intros ?].
  eapply hoare_bind; [apply idle_with_alt|intros ?]. eapply hoare_bind; [apply idle_status_rule|intros s].
  eapply hoare_bind; [apply hoare_fail_if; intros d [[[S _] _] Hs] Et; split; [done|]; intros [W _]; by rewrite (Hs W) in Et|intros ?].
  eapply hoare_bind; [eapply hoare_conseq; [intros d [[Hd _] _]; exact Hd|intros ? d Hd; exact Hd|eapply hoare_error; [apply too_long_unready|apply wait_ready_rule]]|intros ?].
  eapply hoare_bind; [|intros ?; apply at_phase_alt]. by apply command_rule.
Qed.

Lemma identify_spec d0 : let '(r, d) := ata_identify d0 in same_media d0 d /\
  (r = identify_words (identity d0) /\ phase_of d = Idle \/ (exists e, r = Err e) /\ ~ (working d0 /\ phase_of d0 = Idle)).
Proof.
  pose proof (fun r d' => identify_start_rule d0 d0 r d' eq_refl) as Hs. unfold ata_identify, mbind, io_bind.
  destruct (identify_start d0) as [[u|e] d1]; specialize (Hs _ _ eq_refl); cbv beta iota in Hs.
  - pose proof (identify_data_spec d0 d1 Hs) as Hi. destruct (identify_data d1) as [r d2]. destruct Hi as [S [Hr|(e & -> & _ & Hn)]]; (split; [done|]); [by left|].
    right. split; [by exists e|]. by intros [W _].
  - destruct Hs as [S Hn]. split; [done|]. right. split; [by exists e|done].
Qed.

(** *** FLUSH CACHE *)

Lemma flush_rule d0 : hoare (fun d => d = d0) flush_cache (fun _ => at_phase d0 Idle) (unready d0).
Proof.
  eapply hoare_bind; [apply (select_rule d0 0); lia|intros ?].
  eapply hoare_bind with (R := fun _ => at_phase d0 (Finish true)).
  { intros d r d' [A Hh]. refine (command_rule d0 (task_file_of d) ATA_CMD_FLUSH_CACHE (Finish true) _ _ _ d r d' (conj A eq_refl)); [by rewrite Hh|done]. }
  intros ?. eapply hoare_bind; [apply at_phase_alt|intros ?]. eapply hoare_error; [apply too_long_unready|].
  eapply hoare_conseq; [intros d Hd; exact Hd| |apply (wait_end_rule d0 ATA_FLUSH_POLL_LIMIT true); unfold ATA_FLUSH_POLL_LIMIT, ATA_POLL_LIMIT; lia].
  by intros ? d [A _].
Qed.
End commands.

(** ** The block device *)

Section device.
Context `{AtaDrive D}.
Implicit Types x : ata D.

(** The address is unsigned in the code. *)
#[export] Instance ata_block_device : BlockDevice (ata D) := {|
  disk_read_block x lba n := if lba <? 0 then (- EINVARG, [], x) else ata_read_block x lba n;
  disk_write_block x lba n buf := if lba <? 0 then (- EINVARG, x) else ata_write_block x lba n buf;
  disk_flush := ata_flush;
  disk_write_capacity := ata_write_capacity
|}.

(** A drive in working order that can be written, which the driver has found out or not yet. *)
Record sound x (n : Z) : Prop := Sound {
  so_working : working (drive x);
  so_idle : phase_of (drive x) = Idle;
  so_identity : identify_words (identity (drive x)) = Ok n;
  so_capacity : n <= capacity (drive x);
  so_checked : write_checked x = true -> write_status x = 0 /\ write_sectors_of x = n
}.

Definition ata_good x (a : access) : Prop := exists n, sound x n /\ match a with Sector lba => 0 <= lba < n | _ => True end.

Lemma identify_bound ws n : identify_words ws = Ok n -> n < 2 ^ 28.
Proof.
  unfold identify_words. cbv zeta. repeat (destruct (_ || _) || destruct (_ && _) || destruct (_ =? 0)); try done.
  all: intros [= <-]; unfold ATA_LBA28_SECTORS; case_Zb; lia.
Qed.

Lemma sound_drive x n d : sound x n -> same_drive (drive x) d -> phase_of d = Idle -> sound (with_drive d x) n.
Proof. intros [W Hi Hn Hc Hk] (E1 & E2 & W2) Hp. constructor; cbn; [by apply W2|done|by rewrite E1|by rewrite E2|done]. Qed.

Lemma check_spec x : let '(res, x') := disk_check_writable x in
  same_media (drive x) (drive x') /\ (forall n, sound x n -> res = 0 /\ sound x' n /\ write_checked x' = true).
Proof.
  unfold disk_check_writable. destruct (write_checked x) eqn:Ec; cbn [negb].
  { split; [reflexivity|]. intros n S. by destruct (so_checked _ _ S Ec) as [-> _]. }
  pose proof (identify_spec (drive x)) as Hi. destruct (ata_identify (drive x)) as [r d]. destruct Hi as [S Hr].
  assert (Hd : drive (match r with Ok sectors => Ata d true 0 sectors | Err e => Ata d true e 0 end) = d) by (by destruct r).
  rewrite Hd. split; [done|]. intros n Sn. destruct Hr as [[-> Hp]|[_ Hn]]; [|destruct Hn; split; [apply Sn|apply (so_idle _ _ Sn)]].
  rewrite (so_identity _ _ Sn). split; [done|]. split; [|done]. destruct S as [(E1 & E2 & W2) _], Sn as [W Hi Hid Hc _].
  constructor; cbn; [by apply W2|done|by rewrite E1|by rewrite E2|done].
Qed.

Lemma ata_read_spec x lba total : 0 <= lba -> let '(r, buf, x') := ata_read_block x lba total in
  same_media (drive x) (drive x') /\ (0 <= r -> buf = slice (media (drive x)) (lba * 512) (total * 512)) /\
  (forall n, sound x n -> sound x' n) /\ (forall n, sound x n -> request_ok lba total -> lba + total <= n -> r = 0).
Proof.
  intros Hl. unfold ata_read_block. pose proof (read_sector_spec lba total (drive x) Hl) as Hr.
  destruct (disk_read_sector lba total (drive x)) as [[r buf] d]. destruct Hr as [S Hr]. cbn [drive with_drive]. split; [done|].
  destruct Hr as [(-> & _ & Hp & ->)|[(-> & -> & Hn)|(-> & _ & Hw)]].
  - split; [done|]. split; [|done]. intros n Sn. by apply sound_drive; [|apply S|].
  - split; [done|]. split; [|by intros n _ ?]. intros n Sn. by apply sound_drive; [| |apply (so_idle _ _ Sn)].
  - split; [done|]. split; intros n Sn; destruct (Hw (so_working _ _ Sn) (so_idle _ _ Sn)) as [Hc Hp]; [by apply sound_drive; [|apply S|]|].
    intros _ Hle. pose proof (so_capacity _ _ Sn). lia.
Qed.

(** What a write may do, and does. *)
Record write_done x (lba total : Z) (buf : list Z) (r : Z) x' : Prop := WriteDone {
  wd_outside : same_outside (lba * 512) ((lba + total) * 512) (drive x) (drive x');
  wd_refused : r = - EINVARG -> same_media (drive x) (drive x');
  wd_data : 0 <= r -> Forall is_byte buf -> total * 512 <= Z.of_nat (length buf) ->
    forall a, media (drive x') a = splice (media (drive x)) (lba * 512) (take (Z.to_nat (total * 512)) buf) a;
  wd_sound n : sound x n -> sound x' n;
  wd_succeeds n : sound x n -> request_ok lba total -> lba + total <= n -> r = 0
}.

(** Nothing has been written. *)
Lemma write_none x lba total buf r x' :
  r < 0 -> same_media (drive x) (drive x') -> (forall n, sound x n -> sound x' n) ->
  (forall n, sound x n -> request_ok lba total -> lba + total <= n -> False) -> write_done x lba total buf r x'.
Proof. intros Hr S Hs Hf. constructor; [by apply same_media_outside|done|lia|done|]. intros n Sn Ho Hn. destruct (Hf n Sn Ho Hn). Qed.

Lemma ata_write_spec x lba total buf : 0 <= lba ->
  let '(r, x') := ata_write_block x lba total buf in write_done x lba total buf r x'.
Proof.
  intros Hl. unfold ata_write_block. destruct (request_check lba total Hl) as [[[E|E] Hn]|(E1 & E2 & Hr)].
  1: rewrite E; apply write_none; [done|reflexivity|done|done].
  1: destruct ((total <? 1) || (ATA_MAX_SECTORS <? total)); rewrite ?E; (apply write_none; [done|reflexivity|done|done]).
  rewrite E1, E2. pose proof (check_spec x) as Hc. destruct (disk_check_writable x) as [res x1].
  destruct Hc as [S1 Hs1]. destruct (Z.ltb_spec res 0) as [Hlt|Hge].
  { apply write_none; [done|done|intros n Sn; by apply Hs1|intros n Sn]. destruct (Hs1 n Sn) as [-> _]. lia. }
  destruct ((write_sectors_of x1 <=? lba) || (write_sectors_of x1 - lba <? total)) eqn:Eb.
  { apply write_none; [done|done|intros n Sn; by apply Hs1|intros n Sn _ Hle]. destruct (Hs1 n Sn) as (_ & Sn1 & Ek).
    destruct (so_checked _ _ Sn1 Ek) as [_ En]. rewrite En in Eb. destruct Hr as [Ht _]. apply orb_true_iff in Eb as [Eb%Z.leb_le|Eb%Z.ltb_lt]; lia. }
  pose proof (write_spec lba total buf (drive x1) Hr) as Hw. destruct (ata_write_sectors lba total buf (drive x1)) as [r d].
  destruct Hw as [[D2 M2] Hw]. assert (So : same_outside (lba * 512) ((lba + total) * 512) (drive x) d).
  { split; [etrans; [apply S1|done]|]. intros a Ha. rewrite M2 by done. apply S1. }
  destruct r as [u|e]; cbn [outcome].
  - destruct Hw as [Hp Hm]. constructor; [exact So|done| |intros n Sn; destruct (Hs1 n Sn) as (_ & Sn1 & _); by apply sound_drive|done].
    intros _ Hb Hlen a. cbn [drive with_drive]. rewrite Hm by done. apply splice_ext, S1.
  - destruct Hw as [-> Hw]. constructor; [exact So|done|done| |].
    + intros n Sn. destruct (Hs1 n Sn) as (_ & Sn1 & _). apply sound_drive; [done..|]. by apply Hw; [apply Sn1|apply (so_idle _ _ Sn1)].
    + intros n Sn _ Hle. destruct (Hs1 n Sn) as (_ & Sn1 & _). destruct (Hw (so_working _ _ Sn1) (so_idle _ _ Sn1)) as [Hcap _].
      pose proof (so_capacity _ _ Sn1). lia.
Qed.

Lemma ata_flush_spec x : let '(r, x') := ata_flush x in
  same_media (drive x) (drive x') /\ forall n, sound x n -> r = 0 /\ sound x' n.
Proof.
  unfold ata_flush. pose proof (check_spec x) as Hc. destruct (disk_check_writable x) as [res x1]. destruct Hc as [S1 Hs1].
  destruct (Z.ltb_spec res 0) as [Hlt|Hge]; [split; [done|]; intros n Sn; destruct (Hs1 n Sn) as [-> _]; lia|].
  pose proof (fun r d' => flush_rule (drive x1) (drive x1) r d' eq_refl) as Hf. destruct (flush_cache (drive x1)) as [[u|e] d]; specialize (Hf _ _ eq_refl);
    cbv beta iota in Hf; cbn [drive with_drive outcome].
  - destruct Hf as [S2 Hp]. split; [by etrans|]. intros n Sn. split; [done|]. destruct (Hs1 n Sn) as (_ & Sn1 & _). by apply sound_drive; [|apply S2|].
  - destruct Hf as [S2 Hn]. split; [by etrans|]. intros n Sn. destruct (Hs1 n Sn) as (_ & Sn1 & _). destruct Hn. split; [apply Sn1|apply (so_idle _ _ Sn1)].
Qed.

Lemma read_block_eq x lba n : disk_read_block x lba n = if lba <? 0 then (- EINVARG, [], x) else ata_read_block x lba n.
Proof. reflexivity. Qed.

Lemma write_block_eq x lba n buf : disk_write_block x lba n buf = if lba <? 0 then (- EINVARG, x) else ata_write_block x lba n buf.
Proof. reflexivity. Qed.

(** A drive that follows the protocol, behind the driver, is a device of the file system. *)
#[export] Instance ata_block_laws : BlockDeviceLaws (ata D).
Proof.
  refine {| img := fun x => media (drive x); good := ata_good |}.
  - intros x a. apply media_byte.
  - intros x lba n r buf x' a. rewrite read_block_eq. destruct (Z.ltb_spec lba 0) as [Hl|Hl]; [by intros [= _ _ <-]|]. intros E.
    pose proof (ata_read_spec x lba n Hl) as Hr. rewrite E in Hr. by destruct Hr as [[_ M] _].
  - intros x lba r buf x'. rewrite read_block_eq. destruct (Z.ltb_spec lba 0) as [Hl|Hl]; [by intros [= <- _ _]|]. intros E Hr0.
    pose proof (ata_read_spec x lba 1 Hl) as Hr. rewrite E in Hr. by destruct Hr as (_ & Hd & _); apply Hd.
  - intros x lba buf r x' a. rewrite write_block_eq. destruct (Z.ltb_spec lba 0) as [Hl|Hl]; [by intros [= _ <-]|]. intros E Ha.
    pose proof (ata_write_spec x lba 1 buf Hl) as Hw. rewrite E in Hw. apply (wd_outside _ _ _ _ _ _ Hw). lia.
  - intros x lba buf r x' a. rewrite write_block_eq. destruct (Z.ltb_spec lba 0) as [Hl|Hl]; [by intros [= <- _]|]. intros E Hr Hlen Hb.
    pose proof (ata_write_spec x lba 1 buf Hl) as Hw. rewrite E in Hw. rewrite (wd_data _ _ _ _ _ _ Hw Hr Hb) by lia.
    change (Z.to_nat (1 * 512)) with (Z.to_nat 512). by rewrite <- Hlen, firstn_all.
  - intros x lba buf x' a. rewrite write_block_eq. destruct (Z.ltb_spec lba 0) as [Hl|Hl]; [by intros [= <-]|]. intros E.
    pose proof (ata_write_spec x lba 1 buf Hl) as Hw. rewrite E in Hw. by apply (wd_refused _ _ _ _ _ _ Hw).
  - intros x r x' a E. pose proof (ata_flush_spec x) as Hf. change (ata_flush x = (r, x')) in E. rewrite E in Hf. by destruct Hf as [[_ M] _].
  - intros x r n x' a E. unfold disk_write_capacity, ata_block_device, ata_write_capacity in E. pose proof (check_spec x) as Hc. destruct (disk_check_writable x) as [res x1].
    destruct Hc as [[_ M] _]. by destruct (res <? 0); injection E as _ _ <-.
  - intros x r x' (n & Sn & _) E. pose proof (ata_flush_spec x) as Hf. change (ata_flush x = (r, x')) in E. rewrite E in Hf. by destruct (proj2 Hf n Sn) as [-> _].
  - intros x r k x' (n & Sn & _) E. unfold disk_write_capacity, ata_block_device, ata_write_capacity in E. pose proof (check_spec x) as Hc. destruct (disk_check_writable x) as [res x1].
    destruct (proj2 Hc n Sn) as [-> _]. by injection E as <-.
  - intros x lba r buf x' (n & Sn & Hlba) E. rewrite read_block_eq in E. destruct (Z.ltb_spec lba 0) as [Hl|Hl]; [lia|].
    pose proof (ata_read_spec x lba 1 Hl) as Hr. rewrite E in Hr. destruct Hr as (_ & _ & _ & Hok). pose proof (identify_bound _ _ (so_identity _ _ Sn)).
    rewrite (Hok n Sn); [done|unfold request_ok; lia|lia].
  - intros x lba buf r x' (n & Sn & Hlba) Hlen E. rewrite write_block_eq in E. destruct (Z.ltb_spec lba 0) as [Hl|Hl]; [lia|].
    pose proof (ata_write_spec x lba 1 buf Hl) as Hw. rewrite E in Hw. pose proof (identify_bound _ _ (so_identity _ _ Sn)).
    rewrite (wd_succeeds _ _ _ _ _ _ Hw n Sn); [done|unfold request_ok; lia|lia].
  - intros x lba n r buf x' a E (k & Sk & Ha). exists k. split; [|done]. rewrite read_block_eq in E. destruct (Z.ltb_spec lba 0) as [Hl|Hl]; [by injection E as _ _ <-|].
    pose proof (ata_read_spec x lba n Hl) as Hr. rewrite E in Hr. by apply (proj1 (proj2 (proj2 Hr))).
  - intros x lba n buf r x' a E (k & Sk & Ha). exists k. split; [|done]. rewrite write_block_eq in E. destruct (Z.ltb_spec lba 0) as [Hl|Hl]; [by injection E as _ <-|].
    pose proof (ata_write_spec x lba n buf Hl) as Hw. rewrite E in Hw. by apply (wd_sound _ _ _ _ _ _ Hw).
  - intros x r x' a E (k & Sk & Ha). exists k. split; [|done]. pose proof (ata_flush_spec x) as Hf. change (ata_flush x = (r, x')) in E. rewrite E in Hf. by apply (proj2 Hf k Sk).
  - intros x r n x' a E (k & Sk & Ha). exists k. split; [|done]. unfold disk_write_capacity, ata_block_device, ata_write_capacity in E. pose proof (check_spec x) as Hc.
    destruct (disk_check_writable x) as [res x1]. destruct (proj2 Hc k Sk) as (-> & S1 & _). by injection E as _ _ <-.
Defined.
End device.
