(* ===== verification/AtaSim.v ===== *)
(** * A drive that follows the ATA protocol

    [sim_drive] is a drive whose sectors are in memory and that is busy for [sim_delay] status reads before each sector: an
    instance of the class [AtaDrive], so the laws that the driver rests on can hold. The theorems about the driver are
    here, with their examples on it. *)

From stdpp Require Import base numbers list gmap.
From Stdlib Require Import ZArith Lia.
From S2P Require Import Prelude Alloc Memory Effects Disk Ata AtaProps.

#[local] Set Default Goal Selector "!".

Definition sim_delay : Z := 2.

Record sim_drive := Sim { sim_disk : ram_disk; sim_phase : phase; sim_file : taskfile; sim_busy : Z }.

(** The words of IDENTIFY DEVICE for a disk with [n] sectors, LBA and FLUSH CACHE. *)
Definition sim_identity (n : Z) : list Z :=
  (fun i => if i =? 49 then 0x0200 else if i =? 60 then n mod 2 ^ 16 else if i =? 61 then n / 2 ^ 16 else if i =? 83 then 0x5000 else 0) <$> seqZ 0 256.

Definition sim_status (n : Z) (p : phase) : Z * phase :=
  match p with
  | Idle => (0x40, Idle)
  | Finish kept => (if kept then 0x40 else 0x41, Idle)
  | Answer _ ws => (0x48, Answer true ws)
  | Input _ lba more ws => if lba <? n then (0x48, Input true lba more ws) else (0x41, Idle)
  | Output _ lba more got kept => if (lba <? n) && kept then (0x48, Output true lba more got kept) else (0x41, Idle)
  end.

Definition sim_insb (port : Z) (d : sim_drive) : Z * sim_drive :=
  if port =? ATA_STATUS then
    if 0 <? sim_busy d then (0x80, Sim (sim_disk d) (sim_phase d) (sim_file d) (sim_busy d - 1))
    else let '(s, p) := sim_status (sectors (sim_disk d)) (sim_phase d) in (s, Sim (sim_disk d) p (sim_file d) (sim_busy d))
  else (0, d).

Definition sim_insw (port : Z) (d : sim_drive) : Z * sim_drive :=
  match sim_phase d with
  | Input true lba more (w :: ws) => (w, Sim (sim_disk d) (after_word (ram_img (sim_disk d)) lba more ws) (sim_file d) (if ws is [] then sim_delay else 0))
  | Answer true (w :: ws) => (w, Sim (sim_disk d) (match ws with [] => Finish true | _ => Answer true ws end) (sim_file d) 0)
  | _ => (0, d)
  end.

Definition sim_outb (port v : Z) (d : sim_drive) : sim_drive :=
  match sim_phase d with
  | Idle =>
    if port =? ATA_COMMAND then
      match command_phase v (sim_file d) (sim_identity (sectors (sim_disk d))) (ram_img (sim_disk d)) with
      | Some p => Sim (sim_disk d) p (sim_file d) sim_delay
      | None => d
      end
    else Sim (sim_disk d) Idle (tf_set port v (sim_file d)) (sim_busy d)
  | _ => d
  end.

Definition sim_outw (port w : Z) (d : sim_drive) : sim_drive :=
  match sim_phase d with
  | Output true lba more got kept =>
    if (length got <? 255)%nat then Sim (sim_disk d) (Output true lba more (got ++ [w]) kept) (sim_file d) 0
    else
      Sim (RamDisk (put (bytes (sim_disk d)) (lba * 512) (word_bytes (got ++ [w]))) (sectors (sim_disk d)) (bad (sim_disk d)))
        (after_sector lba more true) (sim_file d) sim_delay
  | _ => d
  end.

#[export] Instance sim_ports : AtaPorts sim_drive := {| insb := sim_insb; insw := sim_insw; outb := sim_outb; outw := sim_outw |}.

Definition sim_kept (p : phase) : Prop := match p with Output _ _ _ _ kept | Finish kept => kept = true | _ => True end.

#[export] Instance sim_view : AtaView sim_drive := {|
  media d := ram_img (sim_disk d);
  phase_of := sim_phase;
  task_file_of := sim_file;
  identity d := sim_identity (sectors (sim_disk d));
  capacity d := sectors (sim_disk d);
  working d := 0 <= sim_busy d <= sim_delay /\ sim_kept (sim_phase d);
  busy := sim_busy
|}.

Lemma word_bytes_ok ws : Forall is_byte (word_bytes ws) /\ length (word_bytes ws) = (2 * length ws)%nat.
Proof.
  induction ws as [|w ws [IH1 IH2]]; [done|]. rewrite word_bytes_cons. split; [|cbn [length]; lia].
  constructor; [unfold is_byte, u8; lia|]. constructor; [unfold is_byte, u8; lia|done].
Qed.

(** Another phase, with the same sectors. *)
Lemma sim_same d p tf b : 0 <= b <= sim_delay -> (sim_kept (sim_phase d) -> sim_kept p) -> same_media d (Sim (sim_disk d) p tf b).
Proof. intros Hb Hk. split; [|done]. split; [done|]. split; [done|]. intros [_ Hw]. split; [done|by apply Hk]. Qed.

Lemma sim_status_law d : let '(status, d') := insb ATA_STATUS d in
  same_media d d' /\ after_status status (phase_of d) (phase_of d') /\ (phase_of d = Idle -> task_file_of d' = task_file_of d).
Proof.
  cbn [insb sim_ports]. unfold sim_insb. rewrite Z.eqb_refl. destruct (Z.ltb_spec 0 (sim_busy d)) as [Hb|Hb].
  { split; [|done]. split; [|done]. split; [done|]. split; [done|]. intros [Hw1 Hw2]. split; [cbn; lia|done]. }
  unfold sim_status. cbn [phase_of sim_view task_file_of].
  assert (Hs : forall p, sim_kept p -> same_media d (Sim (sim_disk d) p (sim_file d) (sim_busy d))).
  { intros p Hp. split; [|done]. split; [done|]. split; [done|]. by intros [Hw _]. }
  destruct (sim_phase d) as [|r lba more ws|r ws|r lba more got kept|kept]; cbn.
  - by split; [apply Hs|].
  - destruct (lba <? _); by split; [apply Hs|].
  - by split; [apply Hs|].
  - destruct (lba <? _), kept; cbn; by split; [apply Hs|].
  - destruct kept; cbn; (split; [by apply Hs|]); (split; [|done]); (split; [done|]); [by intros _ kept [= <-]|done].
Qed.

Lemma sim_working d : working d -> let '(status, d') := insb ATA_STATUS d in
  status <> 0xFF /\ if has_bit status ATA_SR_BSY then busy d' < busy d else answers (capacity d) (phase_of d) status.
Proof.
  intros [Hb Hk]. cbn [insb sim_ports]. unfold sim_insb. rewrite Z.eqb_refl. destruct (Z.ltb_spec 0 (sim_busy d)).
  { split; [done|]. change (sim_busy d - 1 < sim_busy d). lia. }
  unfold sim_status. cbn [phase_of sim_view capacity]. cbn [sim_view phase_of] in Hk.
  destruct (sim_phase d) as [|r lba more ws|r ws|r lba more got kept|kept]; cbn in *; subst; cbn; [done| |done| |done].
  - destruct (lba <? _) eqn:E; (split; [done|]); (split; [done|]); by rewrite E.
  - rewrite andb_true_r. destruct (lba <? _) eqn:E; (split; [done|]); (split; [done|]); by rewrite E.
Qed.

Lemma sim_command command d p : phase_of d = Idle -> command_phase command (task_file_of d) (identity d) (media d) = Some p ->
  let d' := outb ATA_COMMAND command d in same_media d d' /\ phase_of d' = p.
Proof.
  cbn [phase_of sim_view task_file_of identity media outb sim_ports]. intros HI HC. unfold sim_outb. rewrite HI, Z.eqb_refl, HC.
  split; [|done]. apply sim_same; [done|]. intros _. unfold command_phase in HC. repeat case_match; by simplify_eq.
Qed.

Lemma sim_sector d lba more got kept w : phase_of d = Output true lba more got kept -> length got = 255%nat ->
  let d' := outw ATA_DATA w d in same_drive d d' /\ exists kept',
  phase_of d' = after_sector lba more kept' /\
  (forall a, a < lba * 512 \/ lba * 512 + 512 <= a -> media d' a = media d a) /\
  (kept' = true -> forall a, media d' a = splice (media d) (lba * 512) (word_bytes (got ++ [w])) a).
Proof.
  cbn [phase_of sim_view outw sim_ports]. intros HP HL. unfold sim_outw. rewrite HP, HL. cbn [Nat.ltb Nat.leb].
  destruct (word_bytes_ok (got ++ [w])) as [Hb Hl]. rewrite length_app, HL in Hl. cbn [media sim_view sim_disk phase_of sim_phase].
  split; [split; [done|split; [done|]]; intros _; split; [done|by destruct more]|].
  exists true. split; [done|]. split; [|intros _ a; exact (ram_write_img _ _ _ _ _ a Hb)].
  intros a Ha. rewrite ram_write_img by done. apply splice_out. rewrite Hl. cbn. lia.
Qed.

#[export] Instance sim_laws : AtaDrive sim_drive.
Proof.
  split.
  - intros d a. cbn. unfold ram_img, is_byte. destruct (_ !! _); cbn; lia.
  - intros d. cbn. unfold sim_identity. by rewrite length_fmap, length_seqZ.
  - intros d [Hb _]. unfold sim_delay in Hb. unfold ATA_POLL_LIMIT. cbn. lia.
  - intros port d [->| ->]; (split; [change (same_media d d); reflexivity|done]).
  - exact sim_status_law.
  - exact sim_working.
  - intros port v d Hp _ HI. cbn in HI |- *. unfold sim_outb. rewrite HI. destruct (Z.eqb_spec port ATA_COMMAND) as [->|]; [by destruct Hp as [?|[?|[?|[?|?]]]]|].
    split; [|done]. split; [|done]. split; [done|]. split; [done|]. by intros [Hb _].
  - intros command d p HI _. exact (sim_command command d p HI).
  - intros d lba more w ws HI. cbn in HI |- *. unfold sim_insw. rewrite HI. split; [done|]. split; [|done].
    apply sim_same; [by destruct ws|]. intros _. by destruct ws, more.
  - intros d w ws HI. cbn in HI |- *. unfold sim_insw. rewrite HI. split; [done|]. split; [|done].
    apply sim_same; [done|]. intros _. by destruct ws.
  - intros d lba more got kept w HI HL _. cbn in HI |- *. unfold sim_outw. rewrite HI.
    rewrite (proj2 (Nat.ltb_lt _ _) HL). split; [|done]. apply sim_same; [done|]. by rewrite HI.
  - intros d lba more got kept w HI HL _. exact (sim_sector d lba more got kept w HI HL).
Qed.

(** ** What the driver guarantees *)

Section guarantees.
Context `{AtaDrive D}.
Implicit Types x : ata D.

(** C23: the disk access of the ATA driver on any drive that follows the protocol, in working order or not. A read never changes the
    media; when it reports success its buffer holds exactly the sectors asked for, and it refuses exactly the requests
    that are out of its address range, without touching the drive. A write changes no byte outside of its sectors, changes
    nothing at all when it refuses its request, and when it reports success the media holds the bytes of its buffer there. *)
Theorem ata_access_contained x lba total buf : 0 <= lba -> Forall is_byte buf -> total * 512 <= Z.of_nat (length buf) ->
  (let '(r, data, x') := ata_read_block x lba total in same_media (drive x) (drive x') /\
    (r = 0 /\ request_ok lba total /\ data = slice (media (drive x)) (lba * 512) (total * 512) \/
     r = - EINVARG /\ ~ request_ok lba total /\ drive x' = drive x \/
     r = - EIO /\ request_ok lba total)) /\
  (let '(r, x') := ata_write_block x lba total buf in
    (forall a, a < lba * 512 \/ (lba + total) * 512 <= a -> media (drive x') a = media (drive x) a) /\
    (r = - EINVARG -> forall a, media (drive x') a = media (drive x) a) /\
    (0 <= r -> forall a, media (drive x') a = splice (media (drive x)) (lba * 512) (take (Z.to_nat (total * 512)) buf) a)).
Proof.
  intros Hl Hb Hlen. split.
  - unfold ata_read_block. pose proof (read_sector_spec lba total (drive x) Hl) as Hr.
    destruct (disk_read_sector lba total (drive x)) as [[r data] d]. destruct Hr as [S Hr]. split; [exact S|].
    destruct Hr as [(-> & Hr & _ & ->)|[(-> & -> & Hn)|(-> & Hr & _)]]; [left|right; left|right; right]; done.
  - pose proof (ata_write_spec x lba total buf Hl) as Hw. destruct (ata_write_block x lba total buf) as [r x'].
    split; [apply (wd_outside _ _ _ _ _ _ Hw)|]. split; [apply (wd_refused _ _ _ _ _ _ Hw)|].
    intros Hr. exact (wd_data _ _ _ _ _ _ Hw Hr Hb Hlen).
Qed.

(** C22: on a drive in working order that identifies itself as a writable LBA disk of [n] sectors, the driver carries out
    every request inside of those sectors within its poll limits: a write of up to 256 sectors succeeds, and so does the
    flush after it; every read after that, of any sectors in range, succeeds with the written bytes where they were
    written and with the old bytes everywhere else. *)
Theorem ata_write_read x n lba total buf : sound x n -> Forall is_byte buf -> total * 512 <= Z.of_nat (length buf) ->
  0 <= lba -> 1 <= total <= 256 -> lba + total <= n -> exists x1 x2,
  ata_write_block x lba total buf = (0, x1) /\ ata_flush x1 = (0, x2) /\ sound x2 n /\
  forall lba' total', 0 <= lba' -> 1 <= total' <= 256 -> lba' + total' <= n -> exists x3,
  ata_read_block x2 lba' total' =
    (0, slice (splice (media (drive x)) (lba * 512) (take (Z.to_nat (total * 512)) buf)) (lba' * 512) (total' * 512), x3) /\ sound x3 n.
Proof.
  intros Sx Hb Hlen Hl Ht Hn. pose proof (identify_bound _ _ (so_identity _ _ Sx)).
  pose proof (ata_write_spec x lba total buf Hl) as Hw. destruct (ata_write_block x lba total buf) as [r x1] eqn:Ew.
  pose proof (wd_succeeds _ _ _ _ _ _ Hw n Sx ltac:(unfold request_ok; lia) Hn) as ->. pose proof (wd_sound _ _ _ _ _ _ Hw n Sx) as S1.
  pose proof (ata_flush_spec x1) as Hf. destruct (ata_flush x1) as [r x2] eqn:Ef. destruct Hf as [M2 Hf]. destruct (Hf n S1) as [-> S2].
  exists x1, x2. split; [done|]. split; [exact Ef|]. split; [done|]. intros lba' total' Hl' Ht' Hn'.
  pose proof (ata_read_spec x2 lba' total' Hl') as Hr. destruct (ata_read_block x2 lba' total') as [[r data] x3].
  destruct Hr as (_ & Hd & Hs & Hok). pose proof (Hok n S2 ltac:(unfold request_ok; lia) Hn') as ->.
  exists x3. split; [|by apply Hs]. rewrite Hd by done. f_equal. f_equal. apply slice_ext. intros a _.
  rewrite (proj2 M2 a). by apply (wd_data _ _ _ _ _ _ Hw).
Qed.
End guarantees.

(** A drive of 1000 sectors, not yet identified. *)
Definition sim_example : ata sim_drive := Ata (Sim (RamDisk ∅ 1000 ∅) Idle (Taskfile 0 0 0 0 0) 0) false 0 0.

Lemma sim_example_sound : sound sim_example 1000.
Proof. constructor; [done|done|by vm_compute|done|done]. Qed.

Lemma sim_buffer : Forall is_byte (replicate 1024 7) /\ 2 * 512 <= Z.of_nat (length (replicate 1024 7)).
Proof. split; [by apply Forall_replicate|]. rewrite length_replicate. lia. Qed.

Lemma ata_access_contained_witness : let '(r, x') := ata_write_block sim_example 5 2 (replicate 1024 7) in
  forall a, a < 5 * 512 \/ (5 + 2) * 512 <= a -> media (drive x') a = media (drive sim_example) a.
Proof.
  pose proof (ata_access_contained sim_example 5 2 (replicate 1024 7) ltac:(lia) (proj1 sim_buffer) (proj2 sim_buffer)) as Hw.
  apply proj2 in Hw. destruct (ata_write_block sim_example 5 2 (replicate 1024 7)) as [r x']. exact (proj1 Hw).
Defined.

Lemma ata_write_read_witness : exists x1, ata_write_block sim_example 5 2 (replicate 1024 7) = (0, x1).
Proof.
  pose proof (ata_write_read sim_example 1000 5 2 (replicate 1024 7) sim_example_sound (proj1 sim_buffer) (proj2 sim_buffer)
    ltac:(lia) ltac:(lia) ltac:(lia)) as (x1 & x2 & E & _).
  exists x1. exact E.
Defined.
