(* ===== verification/StrLib.v ===== *)
(** * Strings and formatting (kernel/string/string.c)

    A C string is the list of the bytes from its pointer on; reading past the end of the list gives the
    terminator. Destination buffers are lists too, and a write outside the buffer makes the copying
    functions undefined ([None]). [vsnprintf] is compared with a reference rendering. *)

From stdpp Require Import base numbers list.
From Stdlib Require Import ZArith Lia.
From S2P Require Import Prelude Effects.

#[local] Set Default Goal Selector "!".

(** ** Characters *)

Definition tolower (c : Z) : Z := if (65 <=? c) && (c <=? 90) then c + 32 else c.
Definition isdigit (c : Z) : bool := (48 <=? c) && (c <=? 57).
Definition tonumericdigit (c : Z) : Z := c - 48.

(** ** Length *)

Fixpoint strlen (s : list Z) : Z :=
  match s with
  | [] => 0
  | c :: s => if negb (c =? 0) then 1 + strlen s else 0
  end.

(** The loop from index [i]; the list is the rest of the string. *)
Fixpoint strnlen_loop (i max : Z) (s : list Z) : Z :=
  match s with
  | [] => i
  | c :: s => if i <? max then (if c =? 0 then i else strnlen_loop (i + 1) max s) else i
  end.
Definition strnlen (s : list Z) (max : Z) : Z := strnlen_loop 0 max s.

Fixpoint strnlen_terminator_loop (i max terminator : Z) (s : list Z) : Z :=
  match s with
  | [] => i
  | c :: s =>
    if i <? max then
      (if (c =? 0) || (c =? terminator) then i else strnlen_terminator_loop (i + 1) max terminator s)
    else i
  end.
Definition strnlen_terminator (s : list Z) (max terminator : Z) : Z :=
  strnlen_terminator_loop 0 max terminator s.

(** ** Comparison *)

(** The character at the pointer and the pointer behind it. *)
Definition next_char (s : list Z) : Z * list Z :=
  match s with [] => (0, []) | c :: s => (c, s) end.

(** [n] rounds at most. *)
Fixpoint istrncmp_loop (n : nat) (s1 s2 : list Z) : Z :=
  match n with
  | O => 0
  | S n =>
    let '(u1, s1) := next_char s1 in
    let '(u2, s2) := next_char s2 in
    if negb (u1 =? u2) && negb (tolower u1 =? tolower u2) then u1 - u2
    else if u1 =? 0 then 0
    else istrncmp_loop n s1 s2
  end.
Definition istrncmp (s1 s2 : list Z) (n : Z) : Z := istrncmp_loop (Z.to_nat n) s1 s2.

Fixpoint strncmp_loop (n : nat) (s1 s2 : list Z) : Z :=
  match n with
  | O => 0
  | S n =>
    let '(u1, s1) := next_char s1 in
    let '(u2, s2) := next_char s2 in
    if negb (u1 =? u2) then u1 - u2
    else if u1 =? 0 then 0
    else strncmp_loop n s1 s2
  end.
Definition strncmp (s1 s2 : list Z) (n : Z) : Z := strncmp_loop (Z.to_nat n) s1 s2.

(** ** Searching: the rest of the string from the match on *)

Fixpoint strstr (haystack needle : list Z) : option (list Z) :=
  match haystack with
  | [] => None
  | c :: rest =>
    if c =? 0 then None
    else if strncmp haystack needle (strlen needle) =? 0 then Some haystack
    else strstr rest needle
  end.

Fixpoint strchr (s : list Z) (c : Z) : option (list Z) :=
  match s with
  | [] => None
  | x :: rest => if x =? 0 then None else if x =? u8 c then Some s else strchr rest c
  end.

(** ** Copying into a buffer *)

(** Writes byte [i] of the buffer. *)
Definition put_char (dest : list Z) (i : nat) (c : Z) : option (list Z) :=
  if (i <? length dest)%nat then Some (<[i := c]> dest) else None.

Fixpoint strcpy_loop (dest : list Z) (i : nat) (src : list Z) : option (list Z) :=
  match src with
  | [] => put_char dest i 0
  | c :: src => if c =? 0 then put_char dest i 0
                else d ← put_char dest i c; strcpy_loop d (S i) src
  end.
Definition strcpy (dest src : list Z) : option (list Z) := strcpy_loop dest 0 src.

(** [n] more characters may be copied. *)
Fixpoint strncpy_loop (n : nat) (dest : list Z) (i : nat) (src : list Z) : option (list Z) :=
  match n with
  | O => put_char dest i 0
  | S n =>
    let '(c, src) := next_char src in
    if c =? 0 then put_char dest i 0 else d ← put_char dest i c; strncpy_loop n d (S i) src
  end.
Definition strncpy (dest src : list Z) (count : Z) : option (list Z) :=
  strncpy_loop (Z.to_nat (count - 1)) dest 0 src.

Definition strcat (dest src : list Z) : option (list Z) :=
  strcpy_loop dest (Z.to_nat (strlen dest)) src.

(** ** Numbers *)

(** The digits of [i], which is not positive, from the last one on, in front of [text]. Ten rounds are
    enough for 32 bits. *)
Fixpoint itoa_loop (fuel : nat) (i : Z) (text : list Z) : list Z :=
  match fuel with
  | O => text
  | S fuel => if i =? 0 then text else itoa_loop fuel (Z.quot i 10) (48 - Z.rem i 10 :: text)
  end.

(** The contents of the static buffer from the pointer returned on. *)
Definition itoa (i : Z) : list Z :=
  let neg := negb (0 <=? i) in
  let i := if 0 <=? i then - i else i in
  let text := itoa_loop 10 i [] in
  let text := if bool_decide (text = []) then [48] else text in
  if neg then 45 :: text else text.

Definition hex_digit (remainder : Z) : Z := if remainder <? 10 then remainder + 48 else remainder + 65 - 10.

(** The digits as the first loop stores them, the last one first; 32 rounds are enough for 32 bits. *)
Fixpoint itoa_hex_loop (fuel : nat) (value base : Z) : list Z :=
  match fuel with
  | O => []
  | S fuel =>
    let rest := value / base in
    hex_digit (value mod base) :: (if negb (rest =? 0) then itoa_hex_loop fuel rest base else [])
  end.

(** The swapping loop reverses the digits. *)
Definition itoa_hex (value base : Z) : list Z :=
  if (base <? 2) || (36 <? base) then []
  else if value <? 0 then 45 :: rev (itoa_hex_loop 32 (u32 (0 - u32 value)) base)
  else rev (itoa_hex_loop 32 (u32 value) base).

(** [int] arithmetic. *)
Fixpoint atoi_loop (res : Z) (s : list Z) : Z :=
  match s with
  | [] => res
  | c :: s => if c =? 0 then res else atoi_loop (i32 (res * 10 + c - 48)) s
  end.
Definition atoi (s : list Z) : Z := atoi_loop 0 s.

(** ** Formatting *)

(** The variable arguments: an [int] or a pointer, which may be null, to a string. *)
Inductive va_arg := VaInt (z : Z) | VaStr (s : option (list Z)).

(** The buffer and the number of characters so far. *)
Definition format_state : Type := list Z * Z.

Definition format_putc (size c : Z) : io format_state unit := fun '(str, count) =>
  if count =? INT_MAX then (Err (-1), (str, count))
  else
    let str := if negb (size =? 0) && (count <? size - 1) then <[Z.to_nat count := c]> str else str in
    (Ok tt, (str, count + 1)).

Fixpoint format_puts (size : Z) (s : list Z) : io format_state unit :=
  match s with
  | [] => mret tt
  | c :: s => if c =? 0 then mret tt else _ ← format_putc size c; format_puts size s
  end.

(** The digits of a number, the last one first; 32 rounds are enough for 32 bits. *)
Definition format_digit (upper : bool) (d : Z) : Z :=
  if d <? 10 then 48 + d else if upper then 65 + (d - 10) else 97 + (d - 10).

Fixpoint format_number (fuel : nat) (upper : bool) (base value : Z) : list Z :=
  match fuel with
  | O => []
  | S fuel =>
    format_digit upper (value mod base) ::
      (if negb (value / base =? 0) then format_number fuel upper base (value / base) else [])
  end.

(** The zeros in front of the digits; [width] is at most 2. *)
Fixpoint format_pad (fuel : nat) (size length negative width : Z) : io format_state unit :=
  match fuel with
  | O => mret tt
  | S fuel =>
    if length + negative <? width then
      _ ← format_putc size 48; format_pad fuel size length negative (width - 1)
    else mret tt
  end.

(** The characters of the array [number] from its end. *)
Fixpoint format_emit (size : Z) (number : list Z) : io format_state unit :=
  match number with
  | [] => mret tt
  | c :: number => _ ← format_putc size c; format_emit size number
  end.

(** A conversion [conv] with its argument [z]. *)
Definition format_int (size conv width z : Z) : io format_state unit :=
  let signed := (conv =? 100) || (conv =? 105) in
  let negative := signed && (i32 z <? 0) in
  let value := if signed then (if negative then u32 (0 - u32 (i32 z)) else u32 (i32 z)) else u32 z in
  let base := if (conv =? 120) || (conv =? 88) then 16 else 10 in
  let number := format_number 32 (conv =? 88) base value in
  let length := Z.of_nat (length number) in
  _ ← (if negative then format_putc size 45 else mret tt);
  _ ← format_pad 2 size length (if negative then 1 else 0) width;
  format_emit size (rev number).

(** One conversion, the character behind the per cent sign and the width; returns the arguments left. A
    missing argument or one of another type is undefined behaviour, [Err 0]. *)
Definition format_conv (size conv width : Z) (args : list va_arg) : io format_state (list va_arg) :=
  if conv =? 37 then _ ← format_putc size 37; mret args
  else if conv =? 99 then
    match args with
    | VaInt z :: args => _ ← format_putc size (u8 z); mret args
    | _ => fun st => (Err 0, st)
    end
  else if conv =? 115 then
    match args with
    | VaStr s :: args => _ ← format_puts size (default [40; 110; 117; 108; 108; 41] s); mret args
    | _ => fun st => (Err 0, st)
    end
  else if (conv =? 100) || (conv =? 105) || (conv =? 117) || (conv =? 120) || (conv =? 88) then
    match args with
    | VaInt z :: args => _ ← format_int size conv width z; mret args
    | _ => fun st => (Err 0, st)
    end
  else fail 1.

Fixpoint format_loop (size : Z) (format : list Z) (args : list va_arg) : io format_state unit :=
  match format with
  | [] => mret tt
  | c :: f1 =>
    if c =? 0 then mret tt
    else if negb (c =? 37) then _ ← format_putc size c; format_loop size f1 args
    else
      match f1 with
      | [] => format_putc size 37
      | d :: f2 =>
        if d =? 0 then format_putc size 37
        else if d =? 48 then
          match f2 with
          | a :: b :: f3 =>
            if (a =? 50) && (b =? 100) then args ← format_conv size 100 2 args; format_loop size f3 args
            else fail 1
          | _ => fail 1
          end
        else args ← format_conv size d 0 args; format_loop size f2 args
      end
  end.

(** The status and the buffer; [None] is undefined behaviour. *)
Definition vsnprintf (str : option (list Z)) (size : Z) (format : option (list Z)) (args : list va_arg)
  : option (Z * list Z) :=
  if negb (size =? 0) && bool_decide (str = None) then Some (-1, [])
  else
    let buf := default [] str in
    let '(r, (buf, count)) :=
      match format with
      | None => (Err (-1), (buf, 0))
      | Some f => format_loop size f args (buf, 0)
      end in
    let buf := if negb (size =? 0) then <[Z.to_nat (if count <? size then count else size - 1) := 0]> buf
               else buf in
    match r with
    | Ok _ => Some (count, buf)
    | Err e => if e =? 0 then None else Some (-1, buf)
    end.

Definition vsprintf (str : option (list Z)) (format : option (list Z)) (args : list va_arg)
  : option (Z * list Z) := vsnprintf str INT_MAX format args.

(** The variadic entry points pass their arguments on. *)
Definition snprintf (str : option (list Z)) (size : Z) (format : option (list Z)) (args : list va_arg)
  : option (Z * list Z) := vsnprintf str size format args.
Definition sprintf (str : option (list Z)) (format : option (list Z)) (args : list va_arg)
  : option (Z * list Z) := vsprintf str format args.

(** ** Reference rendering *)

(** The digits 0 to 9 and a to f (A to F for [upper]). *)
Definition digit_chars (upper : bool) : list Z :=
  [48; 49; 50; 51; 52; 53; 54; 55; 56; 57] ++
  (if upper then [65; 66; 67; 68; 69; 70] else [97; 98; 99; 100; 101; 102]).

(** The numeral of [value] in base [base], by place values: the digit of place [i] is the coefficient of
    [base ^ i], and the places written are the units and every power of the base the value reaches. A
    value of 32 bits has no place beyond the 32nd. *)
Definition place_char (upper : bool) (base value : Z) (i : nat) : Z :=
  nth (Z.to_nat ((value / base ^ Z.of_nat i) mod base)) (digit_chars upper) 0.
Definition places (n : nat) (base value : Z) : list nat :=
  filter (fun i => i = 0%nat \/ base ^ Z.of_nat i <= value) (seq 0 n).
Definition numeral (upper : bool) (base value : Z) : list Z :=
  rev (place_char upper base value <$> places 32 base value).

Definition render_int (conv width z : Z) : list Z :=
  let signed := (conv =? 100) || (conv =? 105) in
  let negative := signed && (i32 z <? 0) in
  let value := if signed then Z.abs (i32 z) else u32 z in
  let digits := numeral (conv =? 88) (if (conv =? 120) || (conv =? 88) then 16 else 10) value in
  let sign := if negative then [45] else [] in
  sign ++ (if Z.of_nat (length (sign ++ digits)) <? width then [48] else []) ++ digits.

(** The characters of a string, up to its terminator. *)
Fixpoint c_text (s : list Z) : list Z :=
  match s with
  | [] => []
  | c :: s => if c =? 0 then [] else c :: c_text s
  end.

Definition render_conv (conv width : Z) (args : list va_arg) : option (list Z * list va_arg) :=
  if conv =? 37 then Some ([37], args)
  else if conv =? 99 then
    match args with VaInt z :: args => Some ([u8 z], args) | _ => None end
  else if conv =? 115 then
    match args with
    | VaStr s :: args => Some (c_text (default [40; 110; 117; 108; 108; 41] s), args)
    | _ => None
    end
  else if (conv =? 100) || (conv =? 105) || (conv =? 117) || (conv =? 120) || (conv =? 88) then
    match args with VaInt z :: args => Some (render_int conv width z, args) | _ => None end
  else None.

(** The text a format denotes; [None] for a format the function rejects or a missing argument. *)
Fixpoint render (format : list Z) (args : list va_arg) : option (list Z) :=
  match format with
  | [] => Some []
  | c :: f1 =>
    if c =? 0 then Some []
    else if negb (c =? 37) then cons c <$> render f1 args
    else
      match f1 with
      | [] => Some [37]
      | d :: f2 =>
        if d =? 0 then Some [37]
        else if d =? 48 then
          match f2 with
          | a :: b :: f3 =>
            if (a =? 50) && (b =? 100)
            then '(t, args) ← render_conv 100 2 args; app t <$> render f3 args
            else None
          | _ => None
          end
        else '(t, args) ← render_conv d 0 args; app t <$> render f2 args
      end
  end.

(** ** Emitting text *)

(** The buffer after [out] has been put at [count]. *)
Fixpoint put_text (size : Z) (str : list Z) (count : Z) (out : list Z) : list Z :=
  match out with
  | [] => str
  | c :: out =>
    put_text size (if negb (size =? 0) && (count <? size - 1) then <[Z.to_nat count := c]> str else str)
      (count + 1) out
  end.

Lemma put_text_app size out1 : forall str count out2,
  put_text size str count (out1 ++ out2) =
  put_text size (put_text size str count out1) (count + Z.of_nat (length out1)) out2.
Proof.
  induction out1 as [|c out1 IH]; intros str count out2; simpl; [by rewrite Z.add_0_r|].
  rewrite IH. f_equal. lia.
Qed.

(** The computation emits [out] and returns [a]. *)
Definition emits {A} (size : Z) (m : io format_state A) (out : list Z) (a : A) : Prop :=
  forall str count, 0 <= count -> count + Z.of_nat (length out) <= INT_MAX ->
    m (str, count) = (Ok a, (put_text size str count out, count + Z.of_nat (length out))).

Lemma emits_ret {A} size (a : A) : emits size (mret a) [] a.
Proof. intros str count _ _. simpl. by rewrite Z.add_0_r. Qed.

Lemma emits_bind {A B} size (m : io format_state A) (k : A -> io format_state B) out1 out2 a b :
  emits size m out1 a -> emits size (k a) out2 b -> emits size (x ← m; k x) (out1 ++ out2) b.
Proof.
  intros E1 E2 str count Hc Hl. rewrite length_app in *. rewrite (io_bind_run _ _ _ _ _ (E1 str count Hc ltac:(lia))).
  rewrite E2 by lia. rewrite put_text_app. do 2 f_equal. lia.
Qed.

Lemma emits_putc size c : emits size (format_putc size c) [c] tt.
Proof.
  intros str count Hc Hl. simpl in *. unfold format_putc. rewrite (proj2 (Z.eqb_neq count INT_MAX)) by lia. done.
Qed.

Lemma emits_puts size s : emits size (format_puts size s) (c_text s) tt.
Proof.
  induction s as [|c s IH]; simpl; [apply emits_ret|]. destruct (Z.eqb_spec c 0) as [->|Hc]; [apply emits_ret|].
  apply (emits_bind _ _ _ [c] _ tt); [apply emits_putc|done].
Qed.

Lemma emits_emit size l : emits size (format_emit size l) l tt.
Proof.
  induction l as [|c l IH]; [apply emits_ret|]. apply (emits_bind _ _ _ [c] _ tt); [apply emits_putc|done].
Qed.

Lemma format_number_length fuel upper base value : (length (format_number fuel upper base value) <= fuel)%nat.
Proof.
  revert value. induction fuel as [|fuel IH]; intros value; simpl; [lia|].
  destruct (negb _); simpl; [specialize (IH (value / base))|]; lia.
Qed.

Lemma format_number_nonempty fuel upper base value : (0 < length (format_number (S fuel) upper base value))%nat.
Proof. simpl. lia. Qed.

Lemma format_digit_char upper d : 0 <= d < 16 -> format_digit upper d = nth (Z.to_nat d) (digit_chars upper) 0.
Proof.
  intros Hd. assert (H : Forall (fun d => format_digit upper d = nth (Z.to_nat d) (digit_chars upper) 0) (seqZ 0 16)).
  { destruct upper; repeat constructor. }
  rewrite Forall_forall in H. apply H, elem_of_seqZ. lia.
Qed.

Lemma place_char_S upper base value i :
  2 <= base -> place_char upper base value (S i) = place_char upper base (value / base) i.
Proof.
  intros Hb. unfold place_char. rewrite Nat2Z.inj_succ, Z.pow_succ_r, Z.div_div by lia. done.
Qed.

Lemma places_S n base value :
  2 <= base -> 0 <= value ->
  places (S n) base value = 0%nat :: (if value / base =? 0 then [] else S <$> places n base (value / base)).
Proof.
  intros Hb Hv. unfold places. cbn [seq]. rewrite filter_cons_True by auto. f_equal.
  rewrite <- fmap_S_seq, list_filter_fmap. destruct (Z.eqb_spec (value / base) 0) as [Hz|Hz].
  - assert (Hlt : value < base) by (apply Z.div_small_iff in Hz; lia).
    assert (Hnil : forall l, filter (fun i => S i = 0%nat \/ base ^ Z.of_nat (S i) <= value) l = []).
    { induction l as [|i l IH]; [done|]. rewrite filter_cons_False; [done|]. intros [?|Hle]; [done|].
      rewrite Nat2Z.inj_succ, Z.pow_succ_r in Hle by lia. pose proof (Z.pow_pos_nonneg base (Z.of_nat i)). nia. }
    by rewrite Hnil.
  - f_equal. apply list_filter_iff. intros i. rewrite Nat2Z.inj_succ, Z.pow_succ_r by lia.
    assert (Hd : base * base ^ Z.of_nat i <= value <-> base ^ Z.of_nat i <= value / base).
    { split; intros Hle; [apply Z.div_le_lower_bound; lia|]. pose proof (Z.mul_div_le value base). nia. }
    rewrite Hd. split; [intros [?|?]; [lia|auto]|]. intros [->|?]; [|auto]. right. pose proof (Z.div_pos value base). cbn. lia.
Qed.

(** The digits of the code are the digits of the numeral, the last one first. *)
Lemma format_number_places upper base : 2 <= base <= 16 -> forall fuel value, 0 <= value ->
  format_number fuel upper base value = place_char upper base value <$> places fuel base value.
Proof.
  intros Hb. induction fuel as [|fuel IH]; intros value Hv; [done|]. cbn [format_number].
  rewrite places_S, fmap_cons by lia. f_equal.
  - unfold place_char. rewrite Z.pow_0_r, Z.div_1_r. apply format_digit_char.
    pose proof (Z.mod_pos_bound value base). lia.
  - destruct (Z.eqb_spec (value / base) 0) as [Hz|Hz]; [done|]. cbn [negb].
    rewrite IH, <- list_fmap_compose by (apply Z.div_pos; lia). apply list_fmap_ext. intros _ i _. cbn [compose].
    rewrite place_char_S by lia. done.
Qed.

Lemma format_number_numeral upper base value :
  2 <= base <= 16 -> 0 <= value -> rev (format_number 32 upper base value) = numeral upper base value.
Proof. intros Hb Hv. unfold numeral. by rewrite format_number_places. Qed.

Lemma emits_pad size len neg width :
  0 < len -> (neg = 0 \/ neg = 1) -> width = 0 \/ width = 2 ->
  emits size (format_pad 2 size len neg width) (if len + neg <? width then [48] else []) tt.
Proof.
  intros Hl Hn Hw. cbn [format_pad]. destruct (Z.ltb_spec (len + neg) width) as [Hlt|Hge]; [|apply emits_ret].
  rewrite (proj2 (Z.ltb_ge (len + neg) (width - 1))) by lia.
  rewrite <- (app_nil_r [48]). apply (emits_bind _ _ _ [48] _ tt); [apply emits_putc|apply emits_ret].
Qed.

Lemma i32_abs_value z : i32 z < 0 -> u32 (0 - u32 (i32 z)) = Z.abs (i32 z).
Proof. intros Hn. pose proof (i32_range z). unfold u32. lia. Qed.

Lemma emits_int size conv width z :
  width = 0 \/ width = 2 -> emits size (format_int size conv width z) (render_int conv width z) tt.
Proof.
  intros Hw. unfold format_int, render_int. cbv zeta.
  set (signed := (conv =? 100) || (conv =? 105)). set (negative := signed && (i32 z <? 0)).
  assert (Hv : (if signed then if negative then u32 (0 - u32 (i32 z)) else u32 (i32 z) else u32 z) =
    (if signed then Z.abs (i32 z) else u32 z)).
  { subst negative. destruct signed; [|done]. simpl. pose proof (i32_range z). destruct (Z.ltb_spec (i32 z) 0).
    - by apply i32_abs_value.
    - rewrite u32_small by lia. lia. }
  rewrite Hv, <- format_number_numeral by (try destruct ((conv =? 120) || (conv =? 88)); try destruct signed; try (unfold u32); lia).
  set (number := format_number 32 _ _ _).
  assert (Hnum : (0 < length number)%nat) by apply format_number_nonempty. clearbody number.
  apply (emits_bind _ _ _ (if negative then [45] else []) _ tt).
  { destruct negative; [apply emits_putc|apply emits_ret]. }
  apply (emits_bind _ _ _ _ _ tt); [|apply emits_emit].
  replace (Z.of_nat (length ((if negative then [45] else []) ++ rev number))) with
    (Z.of_nat (length number) + (if negative then 1 else 0)) by (rewrite length_app, length_rev; destruct negative; simpl; lia).
  apply emits_pad; [lia|destruct negative; auto|done].
Qed.

Lemma emits_conv size conv width args out args' :
  width = 0 \/ width = 2 -> render_conv conv width args = Some (out, args') ->
  emits size (format_conv size conv width args) out args'.
Proof.
  intros Hw. unfold render_conv, format_conv.
  destruct (conv =? 37); [|destruct (conv =? 99); [|destruct (conv =? 115); [|destruct (_ || _)]]]; try done.
  - intros [= <- <-]. rewrite <- (app_nil_r [37]). apply (emits_bind _ _ _ [37] _ tt); [apply emits_putc|apply emits_ret].
  - destruct args as [|[z|s] args]; try done. intros [= <- <-]. rewrite <- (app_nil_r [u8 z]).
    apply (emits_bind _ _ _ [u8 z] _ tt); [apply emits_putc|apply emits_ret].
  - destruct args as [|[z|s] args]; try done. intros [= <- <-]. rewrite <- (app_nil_r (c_text _)).
    apply (emits_bind _ _ _ _ _ tt); [apply emits_puts|apply emits_ret].
  - destruct args as [|[z|s] args]; try done. intros [= <- <-]. rewrite <- (app_nil_r (render_int _ _ _)).
    apply (emits_bind _ _ _ _ _ tt); [by apply emits_int|apply emits_ret].
Qed.

Lemma emits_format size format : forall args out,
  render format args = Some out -> emits size (format_loop size format args) out tt.
Proof.
  assert (Hind : forall n format args out, (length format <= n)%nat ->
    render format args = Some out -> emits size (format_loop size format args) out tt).
  2: { intros args out. by apply (Hind (length format)). }
  clear format. induction n as [|n IH]; intros [|c f1] args out Hn Hr; simpl in Hn; try lia; try (injection Hr as <-; apply emits_ret).
  cbn [render format_loop] in *. destruct (c =? 0); [injection Hr as <-; apply emits_ret|].
  destruct (c =? 37); cbn [negb] in *.
  2: { destruct (render f1 args) as [o|] eqn:E; [|done]. injection Hr as <-.
       apply (emits_bind _ _ _ [c] _ tt); [apply emits_putc|]. apply IH; [lia|done]. }
  destruct f1 as [|d f2]; [injection Hr as <-; apply emits_putc|].
  destruct (d =? 0); [injection Hr as <-; apply emits_putc|].
  assert (Hstep : forall conv width f args, width = 0 \/ width = 2 -> (length f <= n)%nat ->
    ('(t, args) ← render_conv conv width args; app t <$> render f args) = Some out ->
    emits size (args ← format_conv size conv width args; format_loop size f args) out tt).
  { intros conv width f args' Hw Hf. destruct (render_conv conv width args') as [[t args2]|] eqn:Ec; simpl; [|done].
    destruct (render f args2) as [o|] eqn:Ef; simpl; [|done]. intros [= <-].
    apply (emits_bind _ _ _ _ _ args2); [by apply emits_conv|by apply IH]. }
  destruct (d =? 48).
  - destruct f2 as [|a [|b f3]]; try done. destruct (_ && _); [|done]. apply Hstep; [by right|simpl in *; lia|done].
  - apply Hstep; [by left|simpl in *; lia|done].
Qed.

(** ** The buffer *)

Lemma put_text_length size out : forall str count, length (put_text size str count out) = length str.
Proof.
  induction out as [|c out IH]; intros str count; simpl; [done|]. rewrite IH. destruct (_ && _); [apply length_insert|done].
Qed.

Lemma put_text_lookup size out : forall str count (i : nat),
  0 <= count -> 0 < size -> (i < length str)%nat ->
  put_text size str count out !! i =
    if decide (count <= Z.of_nat i < count + Z.of_nat (length out) /\ Z.of_nat i < size - 1)
    then out !! Z.to_nat (Z.of_nat i - count) else str !! i.
Proof.
  induction out as [|c out IH]; intros str count i Hc Hs Hi; simpl.
  { rewrite decide_False by lia. done. }
  rewrite (proj2 (Z.eqb_neq size 0)) by lia. cbn [negb andb]. rewrite IH by (try destruct (_ <? _); rewrite ?length_insert; lia).
  destruct (Z.eq_dec (Z.of_nat i) count) as [Hic|Hne].
  - rewrite decide_False by lia. replace (Z.of_nat i - count) with 0 by lia. simpl.
    destruct (Z.ltb_spec count (size - 1)).
    + rewrite decide_True by lia. replace (Z.to_nat count) with i by lia. by rewrite list_lookup_insert_eq.
    + by rewrite decide_False by lia.
  - destruct (decide (count + 1 <= Z.of_nat i < count + 1 + Z.of_nat (length out) /\ Z.of_nat i < size - 1)) as [Hd|Hd].
    + rewrite decide_True by lia. by replace (Z.to_nat (Z.of_nat i - count)) with (S (Z.to_nat (Z.of_nat i - (count + 1)))) by lia.
    + rewrite decide_False by lia. destruct (_ <? _); [|done]. by rewrite list_lookup_insert_ne by lia.
Qed.

(** A text and its terminator in a buffer of [size] bytes. *)
Definition terminated (size : Z) (out str : list Z) : list Z :=
  if size =? 0 then str
  else take (Z.to_nat (size - 1)) out ++ [0] ++ drop (S (length out `min` Z.to_nat (size - 1))) str.

Lemma put_text_terminated size out str :
  0 <= size <= Z.of_nat (length str) ->
  (if negb (size =? 0)
   then <[Z.to_nat (if Z.of_nat (length out) <? size then Z.of_nat (length out) else size - 1) := 0]> (put_text size str 0 out)
   else put_text size str 0 out) = terminated size out str.
Proof.
  intros Hs. unfold terminated. destruct (Z.eqb_spec size 0) as [->|Hz]; cbn [negb].
  { generalize 0 at 2 as count. revert str Hs. induction out as [|c out IH]; intros str Hs count; simpl; [done|].
    by apply IH. }
  set (k := Z.to_nat _). assert (Hk : k = (length out `min` Z.to_nat (size - 1))%nat) by (subst k; case_Zb; lia).
  rewrite <- Hk. clearbody k. apply list_eq. intros i.
  assert (Hlt : length (take (Z.to_nat (size - 1)) out) = k) by (rewrite length_take; lia).
  destruct (decide (i < length str)%nat) as [Hi|Hi].
  2: { rewrite !lookup_ge_None_2; [done|..].
       - rewrite length_app, Hlt. simpl. rewrite length_drop. lia.
       - rewrite length_insert, put_text_length. lia. }
  destruct (Nat.eq_dec i k) as [->|Hne].
  { rewrite list_lookup_insert_eq by (rewrite put_text_length; lia).
    rewrite lookup_app_r by lia. by replace (k - _)%nat with 0%nat by lia. }
  rewrite list_lookup_insert_ne, put_text_lookup by lia. destruct (decide (i < k)%nat) as [Hik|Hik].
  - rewrite decide_True, lookup_app_l, lookup_take_lt by lia. f_equal. lia.
  - rewrite decide_False, lookup_app_r by lia. rewrite Hlt. replace (i - k)%nat with (S (i - S k)) by lia. simpl.
    rewrite lookup_drop. f_equal. lia.
Qed.

(** A computation that stays inside the buffer. *)
Definition inside {A} (size : Z) (m : io format_state A) : Prop :=
  forall str count r str' count', 0 <= count -> m (str, count) = (r, (str', count')) ->
    0 <= count' /\ length str' = length str /\
    forall i : nat, size - 1 <= Z.of_nat i -> str' !! i = str !! i.

Lemma inside_bind {A B} size (m : io format_state A) (k : A -> io format_state B) :
  inside size m -> (forall a, inside size (k a)) -> inside size (x ← m; k x).
Proof.
  intros I1 I2 str count r str' count' Hc E. apply io_bind_inv in E as [(e & E & ->)|(a & [str1 count1] & E & E1)].
  - by apply I1 in E.
  - apply I1 in E as (Hc1 & Hl1 & Hi1); [|done]. apply I2 in E1 as (Hc2 & Hl2 & Hi2); [|done].
    split; [done|]. split; [congruence|]. intros i Hi. by rewrite Hi2, Hi1.
Qed.

Lemma inside_pure {A} size (r : result A) : inside size (fun st => (r, st)).
Proof. intros str count r' str' count' Hc [= _ <- <-]. done. Qed.

Lemma inside_putc size c : inside size (format_putc size c).
Proof.
  intros str count r str' count' Hc E. unfold format_putc in E. destruct (count =? INT_MAX); [by injection E as _ <- <-|].
  injection E as _ <- <-. split; [lia|]. destruct (Z.eqb_spec size 0) as [->|Hs]; simpl; [done|].
  destruct (Z.ltb_spec count (size - 1)); [|done]. split; [apply length_insert|]. intros i Hi.
  by rewrite list_lookup_insert_ne by lia.
Qed.

Create HintDb inside discriminated.
#[export] Hint Resolve inside_pure inside_putc : inside.

Lemma inside_ret {A} size (a : A) : inside size (mret a).
Proof. apply inside_pure. Qed.

Lemma inside_puts size s : inside size (format_puts size s).
Proof.
  induction s as [|c s IH]; simpl; [apply inside_ret|]. destruct (c =? 0); [apply inside_ret|].
  apply inside_bind; [apply inside_putc|done].
Qed.

Lemma inside_emit size l : inside size (format_emit size l).
Proof. induction l as [|c l IH]; [apply inside_ret|]. apply inside_bind; [apply inside_putc|done]. Qed.

Lemma inside_pad size n : forall len neg width, inside size (format_pad n size len neg width).
Proof.
  induction n as [|n IH]; intros len neg width; simpl; [apply inside_ret|]. destruct (_ <? _); [|apply inside_ret].
  apply inside_bind; [apply inside_putc|done].
Qed.
#[export] Hint Resolve inside_ret inside_puts inside_emit inside_pad : inside.

Lemma inside_conv size conv width args : inside size (format_conv size conv width args).
Proof.
  unfold format_conv. destruct (conv =? 37); [apply inside_bind; eauto with inside|].
  destruct (conv =? 99); [destruct args as [|[z|s] args]; try apply inside_pure; apply inside_bind; eauto with inside|].
  destruct (conv =? 115); [destruct args as [|[z|s] args]; try apply inside_pure; apply inside_bind; eauto with inside|].
  destruct (_ || _); [|apply inside_pure]. destruct args as [|[z|s] args]; try apply inside_pure.
  apply inside_bind; [|eauto with inside]. unfold format_int. cbv zeta.
  apply inside_bind; [destruct (_ && _); eauto with inside|]. intros _. apply inside_bind; eauto with inside.
Qed.

Lemma inside_format size format args : inside size (format_loop size format args).
Proof.
  assert (Hind : forall n format args, (length format <= n)%nat -> inside size (format_loop size format args)).
  2: { by apply (Hind (length format)). }
  clear format args. induction n as [|n IH]; intros [|c f1] args Hn; simpl in Hn; try lia; cbn [format_loop]; try apply inside_ret.
  destruct (c =? 0); [apply inside_ret|]. destruct (c =? 37); cbn [negb].
  2: { apply inside_bind; [apply inside_putc|]. intros _. apply IH. lia. }
  destruct f1 as [|d f2]; [apply inside_putc|]. destruct (d =? 0); [apply inside_putc|].
  simpl in Hn. destruct (d =? 48).
  - destruct f2 as [|a [|b f3]]; try apply inside_pure. simpl in Hn. destruct (_ && _); [|apply inside_pure].
    apply inside_bind; [apply inside_conv|]. intros args'. apply IH. lia.
  - apply inside_bind; [apply inside_conv|]. intros args'. apply IH. lia.
Qed.

(** ** Numbers *)

(** The value of a list of digit characters, the first one the most significant. *)
Definition digit_value (c : Z) : Z := if c <? 65 then c - 48 else if c <? 97 then c - 55 else c - 87.
Definition number_value (base : Z) (l : list Z) : Z := foldl (fun v c => v * base + digit_value c) 0 l.

Lemma number_value_snoc base l c : number_value base (l ++ [c]) = number_value base l * base + digit_value c.
Proof. unfold number_value. by rewrite foldl_snoc. Qed.

Lemma format_digit_value upper d : 0 <= d < 16 -> digit_value (format_digit upper d) = d.
Proof.
  intros Hd. unfold digit_value, format_digit.
  destruct (Z.ltb_spec d 10); [|destruct upper]; repeat case_Zb; lia.
Qed.

Lemma format_number_value fuel upper base : 2 <= base <= 16 -> forall value,
  0 <= value < base ^ Z.of_nat fuel -> number_value base (rev (format_number fuel upper base value)) = value.
Proof.
  intros Hb. induction fuel as [|fuel IH]; intros value Hv; [simpl in *; unfold number_value; simpl; lia|].
  rewrite Nat2Z.inj_succ, Z.pow_succ_r in Hv by lia. cbn [format_number rev].
  pose proof (Z.mod_pos_bound value base ltac:(lia)). pose proof (Z.div_mod value base ltac:(lia)).
  rewrite number_value_snoc, format_digit_value by lia. destruct (Z.eqb_spec (value / base) 0) as [Hz|Hz]; cbn [negb].
  - change (number_value base (rev [])) with 0. nia.
  - rewrite IH; [nia|]. split; [apply Z.div_pos; lia|]. apply Z.div_lt_upper_bound; lia.
Qed.

(** No leading zero. *)
Lemma format_number_last fuel upper base : 2 <= base <= 16 -> forall value,
  0 < value < base ^ Z.of_nat fuel -> last (format_number fuel upper base value) <> Some 48.
Proof.
  intros Hb. induction fuel as [|fuel IH]; intros value Hv; [simpl in *; lia|].
  rewrite Nat2Z.inj_succ, Z.pow_succ_r in Hv by lia. cbn [format_number].
  pose proof (Z.div_mod value base ltac:(lia)). pose proof (Z.mod_pos_bound value base ltac:(lia)).
  destruct (Z.eqb_spec (value / base) 0) as [Hz|Hz]; cbn [negb].
  - simpl. intros [= Hd]. unfold format_digit in Hd. destruct upper; repeat case_Zb_in Hd; lia.
  - assert (Hd : 0 < value / base < base ^ Z.of_nat fuel).
    { split; [|apply Z.div_lt_upper_bound; lia]. pose proof (Z.div_pos value base). lia. }
    specialize (IH _ Hd). destruct (format_number fuel upper base (value / base)) as [|x l] eqn:E; [|done].
    destruct fuel; [simpl in Hd; lia|]. cbn [format_number] in E. done.
Qed.

Lemma itoa_loop_digits fuel : forall n text, 0 < n < 10 ^ Z.of_nat fuel ->
  itoa_loop fuel (- n) text = rev (format_number fuel false 10 n) ++ text.
Proof.
  induction fuel as [|fuel IH]; intros n text Hn; [simpl in Hn; lia|].
  rewrite Nat2Z.inj_succ, Z.pow_succ_r in Hn by lia. cbn [itoa_loop format_number rev].
  rewrite (proj2 (Z.eqb_neq (- n) 0)), Z.quot_opp_l, Z.rem_opp_l, Z.quot_div_nonneg, Z.rem_mod_nonneg by lia.
  assert (Hd : 48 - - (n mod 10) = format_digit false (n mod 10)).
  { unfold format_digit. rewrite (proj2 (Z.ltb_lt _ _)) by (apply Z.mod_pos_bound; lia). lia. }
  rewrite Hd. destruct (Z.eqb_spec (n / 10) 0) as [Hz|Hz]; cbn [negb].
  - rewrite Hz. simpl. destruct fuel; done.
  - rewrite IH; [by rewrite <- app_assoc|]. split; [pose proof (Z.div_pos n 10); lia|].
    apply Z.div_lt_upper_bound; lia.
Qed.

(** More rounds than necessary do not change the digits. *)
Lemma format_number_fuel upper base : 2 <= base -> forall f1 f2 value,
  0 <= value < base ^ Z.of_nat f1 -> (0 < f1 <= f2)%nat ->
  format_number f2 upper base value = format_number f1 upper base value.
Proof.
  intros Hb f1. induction f1 as [|f1 IH]; intros f2 value Hv Hf; [lia|]. destruct f2 as [|f2]; [lia|].
  rewrite Nat2Z.inj_succ, Z.pow_succ_r in Hv by lia. cbn [format_number]. f_equal.
  destruct (Z.eqb_spec (value / base) 0) as [Hz|Hz]; [done|]. cbn [negb].
  assert (Hd : 0 < value / base < base ^ Z.of_nat f1).
  { split; [pose proof (Z.div_pos value base); lia|]. apply Z.div_lt_upper_bound; lia. }
  apply IH; [lia|]. destruct f1; [simpl in Hd; lia|lia].
Qed.

(** ** Strings *)

(** The characters before the terminator. *)
Definition cstring (s : list Z) : list Z := take (Z.to_nat (strlen s)) s.

Lemma strlen_nonneg s : 0 <= strlen s.
Proof. induction s as [|c s IH]; simpl; [lia|destruct (negb (c =? 0)); lia]. Qed.

Lemma cstring_cons c s : cstring (c :: s) = if c =? 0 then [] else c :: cstring s.
Proof.
  unfold cstring. simpl. pose proof (strlen_nonneg s). destruct (c =? 0); simpl; [done|].
  by replace (Z.to_nat (1 + strlen s)) with (S (Z.to_nat (strlen s))) by lia.
Qed.

Lemma cstring_next s :
  cstring s = let '(c, rest) := next_char s in if c =? 0 then [] else c :: cstring rest.
Proof. destruct s as [|c s]; [done|]. simpl. apply cstring_cons. Qed.

Lemma cstring_length s : Z.of_nat (length (cstring s)) = strlen s.
Proof.
  induction s as [|c s IH]; [done|]. rewrite cstring_cons. simpl. destruct (c =? 0); simpl; lia.
Qed.

Lemma strnlen_loop_spec s : forall i max, 0 <= i -> strnlen_loop i max s = Z.max i (Z.min (i + strlen s) max).
Proof.
  induction s as [|c s IH]; intros i max Hi; simpl; [lia|]. pose proof (strlen_nonneg s).
  destruct (Z.ltb_spec i max); [|destruct (c =? 0); simpl; lia].
  destruct (c =? 0); simpl; [lia|]. rewrite IH by lia. lia.
Qed.

Lemma strnlen_spec s max : 0 <= max -> strnlen s max = Z.min (strlen s) max.
Proof. intros Hm. unfold strnlen. rewrite strnlen_loop_spec by lia. pose proof (strlen_nonneg s). lia. Qed.

(** Bounded comparison sees the strings up to [n] characters. *)
Lemma strncmp_loop_zero n : forall s1 s2,
  strncmp_loop n s1 s2 = 0 <-> take n (cstring s1) = take n (cstring s2).
Proof.
  induction n as [|n IH]; intros s1 s2; [done|]. rewrite (cstring_next s1), (cstring_next s2).
  simpl. destruct (next_char s1) as [u1 r1], (next_char s2) as [u2 r2].
  destruct (Z.eqb_spec u1 u2) as [->|Hne]; cbn [negb].
  - destruct (u2 =? 0); [done|]. rewrite IH. simpl. split; [by intros ->|by intros [= ->]].
  - split; [lia|]. intros E. destruct (Z.eqb_spec u1 0), (Z.eqb_spec u2 0); try done; try lia.
    by injection E.
Qed.

Lemma strncmp_zero s1 s2 n : strncmp s1 s2 n = 0 <->
  take (Z.to_nat n) (cstring s1) = take (Z.to_nat n) (cstring s2).
Proof. apply strncmp_loop_zero. Qed.

Lemma tolower_zero c : tolower c = 0 <-> c = 0.
Proof. unfold tolower. destruct (Z.leb_spec 65 c), (Z.leb_spec c 90); simpl; lia. Qed.

Lemma istrncmp_loop_zero n : forall s1 s2,
  istrncmp_loop n s1 s2 = 0 <-> tolower <$> take n (cstring s1) = tolower <$> take n (cstring s2).
Proof.
  induction n as [|n IH]; intros s1 s2; [done|]. rewrite (cstring_next s1), (cstring_next s2).
  simpl. destruct (next_char s1) as [u1 r1], (next_char s2) as [u2 r2].
  destruct (Z.eqb_spec (tolower u1) (tolower u2)) as [Heq|Hne].
  - rewrite andb_false_r. destruct (Z.eqb_spec u1 0) as [->|H1].
    + assert (u2 = 0) as -> by (by apply tolower_zero). done.
    + rewrite (proj2 (Z.eqb_neq u2 0)) by (intros ->; by apply H1, tolower_zero). rewrite IH. cbn [take].
      rewrite !fmap_cons, Heq. split; [by intros ->|by intros [= ->]].
  - assert (u1 <> u2) by congruence. rewrite (proj2 (Z.eqb_neq u1 u2)) by done. cbn [negb andb].
    split; [lia|]. intros E. destruct (Z.eqb_spec u1 0) as [->|], (Z.eqb_spec u2 0) as [->|]; try done.
    by injection E.
Qed.

(** ** Copies *)

Lemma strcpy_loop_spec src : forall dest i,
  strcpy_loop dest i src =
    if decide (i + length (cstring src) < length dest)%nat
    then Some (take i dest ++ cstring src ++ [0] ++ drop (i + length (cstring src) + 1) dest) else None.
Proof.
  assert (Hput : forall dest i, put_char dest i 0 =
    if decide (i + 0 < length dest)%nat then Some (take i dest ++ [] ++ [0] ++ drop (i + 0 + 1) dest) else None).
  { intros dest i. unfold put_char. destruct (Nat.ltb_spec i (length dest)).
    - rewrite Nat.add_0_r, Nat.add_1_r, decide_True by done. by rewrite insert_take_drop.
    - by rewrite decide_False by lia. }
  induction src as [|c src IH]; intros dest i; cbn [strcpy_loop]; [apply Hput|]. rewrite cstring_cons.
  destruct (c =? 0); [apply Hput|]. unfold put_char. destruct (Nat.ltb_spec i (length dest)) as [Hi|Hi].
  2: { rewrite decide_False by lia. done. }
  simpl. rewrite IH, length_insert.
  replace (S i + length (cstring src))%nat with (i + S (length (cstring src)))%nat by lia.
  destruct (decide _); [|done]. f_equal. rewrite drop_insert_lt by lia.
  rewrite (take_S_r _ _ c) by (by apply list_lookup_insert_eq). rewrite take_insert_ge by lia. by rewrite <- app_assoc.
Qed.

Lemma strncpy_loop_spec n : forall dest i src,
  strncpy_loop n dest i src =
    let t := take n (cstring src) in
    if decide (i + length t < length dest)%nat
    then Some (take i dest ++ t ++ [0] ++ drop (i + length t + 1) dest) else None.
Proof.
  assert (Hput : forall dest i, put_char dest i 0 =
    if decide (i + 0 < length dest)%nat then Some (take i dest ++ [] ++ [0] ++ drop (i + 0 + 1) dest) else None).
  { intros dest i. unfold put_char. rewrite Nat.add_0_r, Nat.add_1_r. destruct (Nat.ltb_spec i (length dest)).
    - rewrite decide_True by done. by rewrite insert_take_drop.
    - by rewrite decide_False by lia. }
  induction n as [|n IH]; intros dest i src; cbn [strncpy_loop]; [apply Hput|]. rewrite (cstring_next src).
  destruct (next_char src) as [c rest]. destruct (c =? 0); [apply Hput|]. cbn [take length]. cbv zeta.
  unfold put_char. destruct (Nat.ltb_spec i (length dest)) as [Hi|Hi].
  2: { rewrite decide_False by lia. done. }
  simpl. rewrite IH, length_insert. cbv zeta. set (t := take n (cstring rest)).
  replace (S i + length t)%nat with (i + S (length t))%nat by lia.
  destruct (decide _); [|done]. f_equal. rewrite drop_insert_lt by lia.
  rewrite (take_S_r _ _ c) by (by apply list_lookup_insert_eq). rewrite take_insert_ge by lia. by rewrite <- app_assoc.
Qed.

(** ** Decimal numbers *)

Lemma format_number_digits fuel : forall value, 0 <= value ->
  Forall (fun c => 48 <= c <= 57) (format_number fuel false 10 value).
Proof.
  induction fuel as [|fuel IH]; intros value Hv; cbn [format_number]; constructor.
  - unfold format_digit. pose proof (Z.mod_pos_bound value 10 ltac:(lia)). rewrite (proj2 (Z.ltb_lt _ _)) by lia. lia.
  - destruct (negb _); [|constructor]. apply IH. lia.
Qed.

Lemma foldl_digits_mono l : forall v, 0 <= v -> Forall (fun c => 48 <= c <= 57) l ->
  v <= foldl (fun v c => v * 10 + digit_value c) v l.
Proof.
  induction l as [|c l IH]; intros v Hv Hl; simpl; [lia|]. apply Forall_cons in Hl as [Hc Hl].
  assert (0 <= digit_value c) by (unfold digit_value; repeat case_Zb; lia).
  specialize (IH (v * 10 + digit_value c) ltac:(lia) Hl). lia.
Qed.

Lemma atoi_digits l : forall v, 0 <= v -> Forall (fun c => 48 <= c <= 57) l ->
  foldl (fun v c => v * 10 + digit_value c) v l <= INT_MAX ->
  atoi_loop v l = foldl (fun v c => v * 10 + digit_value c) v l.
Proof.
  induction l as [|c l IH]; intros v Hv Hl Hm; [done|]. apply Forall_cons in Hl as [Hc Hl]. cbn [atoi_loop foldl] in *.
  assert (Hd : digit_value c = c - 48) by (unfold digit_value; by rewrite (proj2 (Z.ltb_lt _ _)) by lia).
  pose proof (foldl_digits_mono l (v * 10 + digit_value c) ltac:(lia) Hl). unfold INT_MAX in *.
  rewrite (proj2 (Z.eqb_neq c 0)), i32_small by lia.
  replace (v * 10 + c - 48) with (v * 10 + digit_value c) by lia. apply IH; [lia|done|done].
Qed.

Lemma itoa_render i : - 2 ^ 31 <= i < 2 ^ 31 -> itoa i = render_int 100 0 i.
Proof.
  intros Hi. unfold itoa, render_int. cbn [Z.eqb Pos.eqb orb andb]. rewrite (i32_small i) by done. cbv zeta.
  rewrite <- format_number_numeral by lia.
  assert (Hl : forall n, 0 < n <= 2 ^ 31 -> itoa_loop 10 (- n) [] = rev (format_number 32 false 10 n)).
  { intros n Hn. rewrite itoa_loop_digits, app_nil_r by lia.
    by rewrite (format_number_fuel false 10 ltac:(lia) 10 32 n) by lia. }
  rewrite (proj2 (Z.ltb_ge (Z.of_nat _) 0)) by lia. rewrite app_nil_l.
  assert (Hne : forall n, 0 < n <= 2 ^ 31 -> rev (format_number 32 false 10 n) <> []).
  { intros n Hn Hr. apply (f_equal length) in Hr. rewrite length_rev in Hr.
    pose proof (format_number_nonempty 31 false 10 n) as Hp. change (length []) with 0%nat in Hr. lia. }
  destruct (Z.leb_spec 0 i) as [Hp|Hp]; cbn [negb].
  - rewrite (proj2 (Z.ltb_ge i 0)), Z.abs_eq by lia. destruct (Z.eq_dec i 0) as [->|Hz]; [done|].
    rewrite Hl by lia. rewrite bool_decide_false by (apply Hne; lia). done.
  - rewrite (proj2 (Z.ltb_lt i 0)), Z.abs_neq by lia. 
    assert (Hi' : itoa_loop 10 i [] = rev (format_number 32 false 10 (- i))) by (rewrite <- Hl by lia; f_equal; lia).
    rewrite Hi'.
    rewrite bool_decide_false by (apply Hne; lia). done.
Qed.

Lemma vsnprintf_text str size format args out :
  0 <= size <= Z.of_nat (length str) -> render format args = Some out -> Z.of_nat (length out) <= INT_MAX ->
  vsnprintf (Some str) size (Some format) args = Some (Z.of_nat (length out), terminated size out str).
Proof.
  intros Hs Hr Hl. unfold vsnprintf. rewrite andb_comm, bool_decide_false by done. cbn [andb default from_option id].
  rewrite (emits_format size format args out Hr str 0) by lia. rewrite Z.add_0_l.
  by rewrite (put_text_terminated size out str Hs).
Qed.

Lemma itoa_loop_length fuel : forall i text, (length (itoa_loop fuel i text) <= fuel + length text)%nat.
Proof.
  induction fuel as [|fuel IH]; intros i text; cbn [itoa_loop]; [lia|]. destruct (i =? 0); [lia|].
  etransitivity; [apply IH|]. cbn [length]. lia.
Qed.

Lemma itoa_length i : (length (itoa i) <= 11)%nat.
Proof.
  unfold itoa. set (text := itoa_loop 10 _ []). assert (H : (length text <= 10)%nat) by apply (itoa_loop_length 10 _ []).
  clearbody text. case_bool_decide; destruct (negb _); cbn [length] in *; lia.
Qed.

(** A sign or a digit. *)
Lemma itoa_chars i : - 2 ^ 31 <= i < 2 ^ 31 -> Forall (fun c => 45 <= c <= 57) (itoa i).
Proof.
  intros Hi. rewrite itoa_render by done. unfold render_int. cbn [Z.eqb Pos.eqb orb andb]. cbv zeta.
  rewrite <- format_number_numeral by lia.
  rewrite (proj2 (Z.ltb_ge (Z.of_nat _) 0)) by lia. rewrite app_nil_l.
  apply Forall_app. split; [destruct (_ <? 0); repeat constructor; lia|]. apply Forall_rev.
  eapply Forall_impl; [apply format_number_digits; lia|]. cbn. lia.
Qed.

(** ** Theorems *)

(** C38: [vsnprintf] prints what the format denotes, cut to the buffer: for a supported format it returns
    the length of the whole text and leaves in the buffer as much of it as fits with its terminator; the
    bytes behind the terminator are untouched. *)
Theorem vsnprintf_renders str size format args out :
  0 <= size <= Z.of_nat (length str) -> render format args = Some out -> Z.of_nat (length out) <= INT_MAX ->
  vsnprintf (Some str) size (Some format) args = Some (Z.of_nat (length out), terminated size out str).
Proof. apply vsnprintf_text. Qed.

Lemma vsnprintf_renders_witness :
  vsnprintf (Some (repeat 170 12)) 10 (Some [37; 48; 50; 100; 58; 37; 120; 58; 37; 115; 33])
    [VaInt 7; VaInt 43981; VaStr (Some [97; 98; 99])] =
  Some (12, [48; 55; 58; 97; 98; 99; 100; 58; 97; 0; 170; 170]).
Proof.
  apply (vsnprintf_renders (repeat 170 12) 10 _ _ [48; 55; 58; 97; 98; 99; 100; 58; 97; 98; 99; 33]); [simpl; lia|reflexivity|done].
Defined.

(** whatever the format and the arguments, [vsnprintf] stays inside the buffer: if its behaviour is
    defined it writes no byte at or behind [size], and a buffer of nonzero size ends up terminated. *)
Theorem vsnprintf_bounded str size format args r buf :
  0 <= size <= Z.of_nat (length str) -> vsnprintf (Some str) size format args = Some (r, buf) ->
  length buf = length str /\ drop (Z.to_nat size) buf = drop (Z.to_nat size) str /\
  (0 < size -> strlen buf < size).
Proof.
  intros Hs E. unfold vsnprintf in E. rewrite andb_comm, bool_decide_false in E by done. cbn [andb default from_option id] in E.
  destruct (match format with None => _ | Some _ => _ end) as [r0 [b count]] eqn:Ef.
  assert (I : 0 <= count /\ length b = length str /\ forall i : nat, size - 1 <= Z.of_nat i -> b !! i = str !! i).
  { destruct format as [f|]; [by apply inside_format in Ef|]. by injection Ef as _ <- <-. }
  destruct I as (Hc & Hl & Hi). set (k := Z.to_nat _) in E.
  assert (Hbuf : buf = if negb (size =? 0) then <[k := 0]> b else b) by (destruct r0 as [u|e]; [|destruct (e =? 0)]; by simplify_eq).
  clear E. assert (Hk : 0 < size -> Z.of_nat k < size) by (subst k; case_Zb; lia). clearbody k. subst buf.
  destruct (Z.eqb_spec size 0) as [->|Hz]; cbn [negb].
  { split; [done|]. split; [|lia]. f_equal. apply list_eq. intros i. apply Hi. lia. }
  split; [by rewrite length_insert|]. split.
  - apply list_eq. intros i. rewrite !lookup_drop, list_lookup_insert_ne by lia. apply Hi. lia.
  - intros _. apply Z.le_lt_trans with (Z.of_nat k); [|lia].
    assert (Hz0 : <[k := 0]> b !! k = Some 0) by (apply list_lookup_insert_eq; lia).
    revert Hz0. generalize (<[k := 0]> b) as l. clear. induction k as [|k IH]; intros [|c l] Hk; try done; simpl in *.
    + by injection Hk as ->.
    + destruct (c =? 0); simpl; [lia|]. specialize (IH l Hk). lia.
Qed.

Lemma vsnprintf_bounded_witness :
  vsnprintf (Some (repeat 170 4)) 3 (Some [97; 98; 37; 113]) [] = Some (-1, [97; 98; 0; 170]) /\
  strlen [97; 98; 0; 170] < 3.
Proof.
  split; [reflexivity|].
  apply (vsnprintf_bounded (repeat 170 4) 3 (Some [97; 98; 37; 113]) [] (-1) [97; 98; 0; 170]); [simpl; lia|reflexivity|lia].
Defined.

(** [itoa] prints every [int], the smallest included, as [%d] does; the digits denote its absolute
    value and have no leading zero, and [atoi] reads a number that is not negative back. *)
Theorem itoa_decimal i :
  - 2 ^ 31 <= i < 2 ^ 31 ->
  itoa i = (if i <? 0 then [45] else []) ++ numeral false 10 (Z.abs i) /\
  number_value 10 (numeral false 10 (Z.abs i)) = Z.abs i /\
  (i <> 0 -> head (numeral false 10 (Z.abs i)) <> Some 48) /\
  (0 <= i -> atoi (itoa i) = i).
Proof.
  intros Hi. rewrite <- format_number_numeral by lia. assert (Hi32 : itoa i = (if i <? 0 then [45] else []) ++ rev (format_number 32 false 10 (Z.abs i))).
  { rewrite itoa_render by done. unfold render_int. cbn [Z.eqb Pos.eqb orb andb]. rewrite (i32_small i) by done. cbv zeta.
    rewrite <- format_number_numeral by lia.
    rewrite (proj2 (Z.ltb_ge (Z.of_nat _) 0)) by lia. done. }
  assert (Hv : number_value 10 (rev (format_number 32 false 10 (Z.abs i))) = Z.abs i).
  { apply format_number_value; [lia|]. split; [lia|]. apply Z.le_lt_trans with (2 ^ 31); [lia|reflexivity]. }
  split; [done|]. split; [done|]. split.
  - intros Hz. rewrite rev_alt. change (rev_append ?l []) with (reverse l). rewrite head_reverse.
    apply format_number_last; [lia|]. split; [lia|]. apply Z.le_lt_trans with (2 ^ 31); [lia|reflexivity].
  - intros Hp. rewrite Hi32, (proj2 (Z.ltb_ge i 0)) by done. rewrite app_nil_l, Z.abs_eq in * by done.
    unfold atoi. rewrite atoi_digits; [done|done| |].
    + apply Forall_rev, format_number_digits. lia.
    + unfold number_value in Hv. rewrite Hv. unfold INT_MAX. lia.
Qed.

Lemma itoa_decimal_witness : itoa (- 2147483648) = [45; 50; 49; 52; 55; 52; 56; 51; 54; 52; 56] /\ atoi (itoa 4095) = 4095.
Proof. split; [reflexivity|]. apply (itoa_decimal 4095); lia. Defined.

(** The name comparison of the file system: [istrncmp] is zero exactly for strings that agree up to
    case on their first [n] characters, the terminator included. *)
Theorem istrncmp_spec s1 s2 n :
  istrncmp s1 s2 n = 0 <->
  tolower <$> take (Z.to_nat n) (cstring s1) = tolower <$> take (Z.to_nat n) (cstring s2).
Proof. apply istrncmp_loop_zero. Qed.

(** The bounded copy: into a buffer of at least [count] bytes, [strncpy] stores at most [count - 1]
    characters of the string and a terminator and leaves the rest of the buffer alone. *)
Theorem strncpy_bounded dest src count :
  0 < count <= Z.of_nat (length dest) ->
  let t := take (Z.to_nat (count - 1)) (cstring src) in
  strncpy dest src count = Some (t ++ [0] ++ drop (length t + 1) dest).
Proof.
  intros Hc t. unfold strncpy. rewrite strncpy_loop_spec. cbv zeta. fold t.
  rewrite decide_True; [done|]. subst t. rewrite length_take. lia.
Qed.

Lemma strncpy_bounded_witness : strncpy [9; 9; 9; 9] [65; 66; 67; 68] 3 = Some [65; 66; 0; 9].
Proof. apply (strncpy_bounded [9; 9; 9; 9] [65; 66; 67; 68] 3). simpl. lia. Defined.
