(* ===== verification/PathParser.v ===== *)
(** * Paths (kernel/fs/pparser.c)

    Parsing a path such as 0:/bin/shell.elf into its drive and its parts. A part is the address of its
    node, the address of its name and the name; the linked list of parts is a list. *)

From stdpp Require Import base numbers list gmap.
From Stdlib Require Import ZArith Lia.
From S2P Require Import Prelude Alloc Heap Effects StrLib.

#[local] Set Default Goal Selector "!".

Definition RORTHOX_MAX_PATH : Z := 108.
Definition sizeof_path_root : Z := 8.
Definition sizeof_path_part : Z := 8.

Record path_part := PathPart { part_addr : Z; name_addr : Z; part : list Z }.
Record path_root := PathRoot { root_addr : Z; drive_no : Z; first : list path_part }.

(** The character at an index of a string. *)
Definition char_at (s : list Z) (i : nat) : Z := default 0 (s !! i).

Section parser.
Context {H : Type} `{Allocator H}.

Definition alloc (size : Z) : io H Z := fun h => let '(p, h) := kmalloc h size in (Ok p, h).

Definition pathparser_path_valid_format (filename : list Z) : bool :=
  let len := strnlen filename RORTHOX_MAX_PATH in
  (3 <=? len) && isdigit (char_at filename 0) && ((char_at filename 1 =? 58) && (char_at filename 2 =? 47)).

(** The drive and the rest of the path. *)
Definition pathparser_get_drive_by_path (path : list Z) : io H (Z * list Z) :=
  _ ← fail_if (negb (pathparser_path_valid_format path)) EBADPATH;
  let drive_no := tonumericdigit (char_at path 0) in
  mret (drive_no, drop 3 path).

Definition pathparser_create_root (drive_number : Z) : io H (option path_root) :=
  p ← alloc sizeof_path_root;
  mret (if p =? 0 then None else Some (PathRoot p drive_number [])).

(** The copying loop; [None] when the part does not fit. *)
Fixpoint part_loop (i : Z) (path acc : list Z) : option (list Z * list Z) :=
  match path with
  | [] => Some (acc, [])
  | c :: rest =>
    if (c =? 47) || (c =? 0) then Some (acc, path)
    else if RORTHOX_MAX_PATH - 1 <=? i then None
    else part_loop (i + 1) rest (acc ++ [c])
  end.

Definition skip_slash (path : list Z) : list Z :=
  match path with c :: rest => if c =? 47 then rest else path | [] => [] end.

(** The address of the name and the name, or null; the rest of the path. *)
Definition pathparser_get_path_part (path : list Z) : io H (option (Z * list Z) * list Z) :=
  if (char_at path 0 =? 47) || (char_at path 0 =? 0) then mret (None, skip_slash path)
  else
    p ← alloc RORTHOX_MAX_PATH;
    _ ← fail_if (p =? 0) ENOMEM;
    match part_loop 0 path [] with
    | None => _ ← modify (fun h => kfree h p); fail EBADPATH
    | Some (name, rest) => mret (Some (p, name), skip_slash rest)
    end.

Definition pathparser_parse_path_part (path : list Z) : io H (option path_part * list Z) :=
  '(s, path) ← pathparser_get_path_part path;
  match s with
  | None => mret (None, path)
  | Some (a, name) =>
    p ← alloc sizeof_path_part;
    if p =? 0 then _ ← modify (fun h => kfree h a); fail ENOMEM
    else mret (Some (PathPart p a name), path)
  end.

Fixpoint free_parts (l : list path_part) (h : H) : H :=
  match l with
  | [] => h
  | x :: l => free_parts l (kfree (kfree h (name_addr x)) (part_addr x))
  end.

Definition pathparser_free (root : option path_root) (h : H) : H :=
  match root with
  | None => h
  | Some root => kfree (free_parts (first root) h) (root_addr root)
  end.

(** The loop over the parts; the root grows with each of them, and is released on an error. A part
    takes at least a character, so the length of the path is enough fuel. *)
Fixpoint parse_loop (fuel : nat) (root : path_root) (path : list Z) (h : H) : option path_root * H :=
  match fuel with
  | O => (None, h)
  | S fuel =>
    match pathparser_parse_path_part path h with
    | (Err _, h) => (None, pathparser_free (Some root) h)
    | (Ok (None, _), h) => (Some root, h)
    | (Ok (Some x, path), h) =>
      parse_loop fuel (PathRoot (root_addr root) (drive_no root) (first root ++ [x])) path h
    end
  end.

(** [None] is the null pointer. *)
Definition pathparser_parse (path : list Z) (h : H) : option path_root * H :=
  if RORTHOX_MAX_PATH <? strnlen path (RORTHOX_MAX_PATH + 1) then (None, h)
  else
    match pathparser_get_drive_by_path path h with
    | (Err _, h) => (None, h)
    | (Ok (drive, tmp_path), h) =>
      match pathparser_create_root drive h with
      | (Ok (Some root), h) => parse_loop (S (length tmp_path)) root tmp_path h
      | (_, h) => (None, h)
      end
    end.
End parser.

(** ** Names *)

(** A part: not empty, at most 107 characters, no slash and no terminator. *)
Definition name_ok (s : list Z) : Prop :=
  s <> [] /\ Z.of_nat (length s) < RORTHOX_MAX_PATH /\ Forall (fun c => c <> 0 /\ c <> 47) s.

(** The path of the parts. *)
Fixpoint join (l : list (list Z)) : list Z :=
  match l with
  | [] => []
  | [s] => s
  | s :: l => s ++ 47 :: join l
  end.

Lemma part_loop_spec s : forall i acc name rest,
  part_loop i s acc = Some (name, rest) ->
  exists n, name = acc ++ n /\ s = n ++ rest /\ Forall (fun c => c <> 0 /\ c <> 47) n /\
    (n = [] \/ i + Z.of_nat (length n) < RORTHOX_MAX_PATH) /\ (char_at rest 0 = 0 \/ char_at rest 0 = 47).
Proof.
  induction s as [|c s IH]; intros i acc name rest E; cbn [part_loop] in E.
  { injection E as <- <-. exists []. rewrite app_nil_r. split; [done|]. split; [done|]. split; [constructor|]. split; by left. }
  destruct (Z.eqb_spec c 47) as [->|H47]; [|destruct (Z.eqb_spec c 0) as [->|H0]]; cbn [orb] in E.
  1, 2: injection E as <- <-; exists []; rewrite app_nil_r; split; [done|]; split; [done|]; split; [constructor|];
    split; [by left|by (left + right)].
  destruct (Z.leb_spec (RORTHOX_MAX_PATH - 1) i) as [|Hi]; [done|].
  apply IH in E as (n & -> & -> & Hn & Hl & Hr). exists (c :: n). rewrite <- app_assoc.
  split; [done|]. split; [done|]. split; [by constructor|]. split; [|done]. right. simpl. destruct Hl as [->|Hl]; simpl; lia.
Qed.

Lemma part_loop_name n : forall i acc rest,
  Forall (fun c => c <> 0 /\ c <> 47) n -> i + Z.of_nat (length n) < RORTHOX_MAX_PATH ->
  char_at rest 0 = 0 \/ char_at rest 0 = 47 -> part_loop i (n ++ rest) acc = Some (acc ++ n, rest).
Proof.
  induction n as [|c n IH]; intros i acc rest Hn Hl Hr.
  - rewrite app_nil_r. simpl. destruct rest as [|c rest]; [done|]. simpl in *.
    change (char_at (c :: rest) 0) with c in Hr. destruct Hr; by subst c.
  - apply Forall_cons in Hn as [[H0 H47] Hn]. simpl in *. rewrite (proj2 (Z.eqb_neq c 47)), (proj2 (Z.eqb_neq c 0)) by done. simpl.
    rewrite (proj2 (Z.leb_gt _ i)), IH by (done || lia). by rewrite <- app_assoc.
Qed.

(** A short enough path has no part that does not fit. *)
Lemma part_loop_total s : forall i acc, i + strlen s < RORTHOX_MAX_PATH ->
  exists name rest, part_loop i s acc = Some (name, rest).
Proof.
  induction s as [|c s IH]; intros i acc Hl; simpl in *; [eauto|]. destruct (c =? 47); [eauto|].
  destruct (c =? 0); simpl in *; [eauto|]. pose proof (strlen_nonneg s).
  rewrite (proj2 (Z.leb_gt _ i)) by lia. apply IH. lia.
Qed.

Lemma strlen_name n rest : Forall (fun c => c <> 0 /\ c <> 47) n -> strlen (n ++ rest) = Z.of_nat (length n) + strlen rest.
Proof.
  induction 1 as [|c n [H0 _] _ IH]; simpl; [lia|]. rewrite (proj2 (Z.eqb_neq c 0)) by done. simpl. lia.
Qed.

Lemma strlen_skip_slash s : strlen (skip_slash s) <= strlen s.
Proof.
  destruct s as [|c s]; simpl; [lia|]. destruct (Z.eqb_spec c 47) as [->|]; simpl; lia.
Qed.

Lemma strlen_drop k : forall s, Z.of_nat k <= strlen s -> strlen (drop k s) = strlen s - Z.of_nat k.
Proof.
  induction k as [|k IH]; intros s Hk; [rewrite drop_0; lia|]. destruct s as [|c s]; simpl in *; [lia|].
  destruct (c =? 0); simpl in *; [lia|]. rewrite IH; lia.
Qed.

(** The text between slashes, up to the terminator. *)
Fixpoint fields (s : list Z) : list (list Z) :=
  match s with
  | [] => [[]]
  | c :: s =>
    if c =? 0 then [[]]
    else if c =? 47 then [] :: fields s
    else match fields s with f :: fs => (c :: f) :: fs | [] => [[c]] end
  end.

(** The fields before the first empty one. *)
Fixpoint leading (l : list (list Z)) : list (list Z) :=
  match l with
  | (c :: s) :: l => (c :: s) :: leading l
  | _ => []
  end.

(** What a path should be parsed into. *)
Definition parts_of (path : list Z) : list (list Z) := leading (fields (drop 3 path)).

(** A path the parser accepts: d:/ and at most 108 characters. *)
Definition path_ok (path : list Z) : Prop :=
  3 <= strlen path <= RORTHOX_MAX_PATH /\ (exists d, 0 <= d < 10 /\ char_at path 0 = 48 + d) /\
  char_at path 1 = 58 /\ char_at path 2 = 47.

Lemma fields_name n rest : Forall (fun c => c <> 0 /\ c <> 47) n -> n <> [] ->
  char_at rest 0 = 0 \/ char_at rest 0 = 47 -> leading (fields (n ++ rest)) = n :: leading (fields (skip_slash rest)).
Proof.
  intros Hn Hne Hr. assert (E : exists fs, fields (n ++ rest) = n :: fs /\ leading fs = leading (fields (skip_slash rest))).
  { clear Hne. induction Hn as [|c n [H0 H47] Hn IH]; simpl.
    - destruct rest as [|c rest]; simpl; [by exists []|]. change (char_at (c :: rest) 0) with c in Hr.
      destruct Hr as [->| ->]; simpl; eauto.
    - rewrite (proj2 (Z.eqb_neq c 0)), (proj2 (Z.eqb_neq c 47)) by done.
      destruct IH as (fs & -> & IH). eauto. }
  destruct E as (fs & -> & <-). by destruct n.
Qed.

Lemma fields_stop s : char_at s 0 = 0 \/ char_at s 0 = 47 -> leading (fields s) = [].
Proof.
  destruct s as [|c s]; [done|]. change (char_at (c :: s) 0) with c. by intros [-> | ->].
Qed.

Lemma fields_join l : Forall name_ok l -> leading (fields (join l)) = l.
Proof.
  induction 1 as [|s l (Hne & _ & Hs) Hl IH]; [done|]. destruct l as [|s' l].
  - simpl. rewrite <- (app_nil_r s) at 1. rewrite fields_name by (done || by left). done.
  - change (join (s :: s' :: l)) with (s ++ 47 :: join (s' :: l)). rewrite fields_name by (done || by right).
    change (skip_slash (47 :: join (s' :: l))) with (join (s' :: l)). by rewrite IH.
Qed.

Lemma skip_slash_length s : (length (skip_slash s) <= length s)%nat.
Proof. destruct s as [|c s]; simpl; [done|]. destruct (c =? 47); simpl; lia. Qed.

Lemma valid_format_iff path :
  strnlen path (RORTHOX_MAX_PATH + 1) <= RORTHOX_MAX_PATH -> pathparser_path_valid_format path = true <-> path_ok path.
Proof.
  unfold pathparser_path_valid_format, path_ok, RORTHOX_MAX_PATH, isdigit. rewrite !strnlen_spec by lia. intros Hl.
  rewrite !andb_true_iff, !Z.leb_le, !Z.eqb_eq. split.
  - intros ((? & ? & ?) & ? & ?). split; [lia|]. split; [|done]. exists (char_at path 0 - 48). lia.
  - intros (? & (d & ? & ?) & ? & ?). lia.
Qed.

(** ** What is owned *)

Definition cells (l : list path_part) : list Z := flat_map (fun x => [name_addr x; part_addr x]) l.

Lemma cells_snoc l x : cells (l ++ [x]) ≡ₚ name_addr x :: part_addr x :: cells l.
Proof. unfold cells. rewrite flat_map_app. simpl. by rewrite Permutation_app_comm. Qed.

Lemma cells_length l : length (cells l) = (2 * length l)%nat.
Proof. induction l as [|x l IH]; [done|]. unfold cells in *. simpl. lia. Qed.

Lemma pathparser_free_owns `{AllocatorLaws H} P A h0 root k (h : H) :
  owned_by P A h0 (root_addr root :: cells (first root) ++ k) h -> owned_by P A h0 k (pathparser_free (Some root) h).
Proof.
  assert (Hparts : forall l k h, owned_by P A h0 (cells l ++ k) h -> owned_by P A h0 k (free_parts l h)).
  { induction l as [|x l IH]; intros k' h' Ho; simpl in *; [done|]. by apply IH, owned_free, owned_free. }
  intros Ho. simpl. eapply owned_free, Hparts. by rewrite <- Permutation_middle.
Qed.

Section owned.
Context `{AllocatorLaws H} (A : gmap Z Z) (h0 : H).
Local Abbreviation owned := (owned_by (eq 1) A h0).

Lemma alloc_owned l h size r h' : owned l h -> 0 < size <= 4096 -> alloc size h = (r, h') ->
  exists p, r = Ok p /\ ((p = 0 /\ h' = h /\ capacity h0 <= used A + Z.of_nat (length l)) \/ (p <> 0 /\ owned (p :: l) h')).
Proof.
  intros Ho Hs. unfold alloc. destruct (kmalloc h size) as [p h1] eqn:Hm. intros E. injection E as <- <-. exists p.
  split; [done|]. destruct (owned_malloc (eq 1) A h0 l h size p h1) as [[-> ->]|(? & _ & ?)];
    [done|lia|unfold blocks_for; lia|done|..].
  - left. split; [done|]. split; [done|]. destruct (Z.le_gt_cases (capacity h0) (used A + Z.of_nat (length l))) as [|Hr]; [done|].
    by destruct (owned_room _ _ _ _ _ Ho Hs Hr); rewrite Hm.
  - by right.
Qed.

Lemma parse_path_part_owned l h path r h' :
  owned l h -> strlen path < RORTHOX_MAX_PATH -> pathparser_parse_path_part path h = (r, h') ->
  match r with
  | Err _ => owned l h' /\ capacity h0 <= used A + Z.of_nat (length l) + 1 /\ leading (fields path) <> []
  | Ok (None, _) => h' = h /\ leading (fields path) = []
  | Ok (Some x, rest) => owned (name_addr x :: part_addr x :: l) h' /\ name_ok (part x) /\
      leading (fields path) = part x :: leading (fields rest) /\
      (length rest < length path)%nat /\ strlen rest < RORTHOX_MAX_PATH
  end.
Proof.
  intros Ho Hlen. unfold pathparser_parse_path_part, pathparser_get_path_part.
  destruct ((char_at path 0 =? 47) || (char_at path 0 =? 0)) eqn:Ec.
  { rewrite io_mret. intros [-> ->]%mret_inv. split; [done|]. apply fields_stop.
    apply orb_true_iff in Ec as [E|E]; apply Z.eqb_eq in E; auto. }
  apply orb_false_iff in Ec as [E47 E0]. apply Z.eqb_neq in E47, E0. rewrite !io_bind_assoc.
  assert (Hname : exists name rest, part_loop 0 path [] = Some (name, rest) /\ name_ok name /\
    path = name ++ rest /\ (char_at rest 0 = 0 \/ char_at rest 0 = 47)).
  { destruct (part_loop_total path 0 []) as (name & rest & Ep); [lia|].
    pose proof (part_loop_spec _ _ _ _ _ Ep) as (n & -> & -> & Hn & _ & Hr). exists n, rest. simpl in Ep.
    split; [done|]. split; [|done]. rewrite strlen_name in Hlen by done.
    pose proof (strlen_nonneg rest). split; [|split; [lia|done]].
    intros ->. simpl in *. lia. }
  destruct Hname as (name & rest & Ep & Hok & Hpath & Hr). pose proof Hok as (Hne & _ & Hn).
  assert (Hf : leading (fields path) = name :: leading (fields (skip_slash rest))) by (subst path; by apply fields_name).
  intros [(e & Ea & ->)|(p & h1 & Ea & E)]%io_bind_inv.
  { apply (alloc_owned l) in Ea as (? & ? & _); [done|done|]. unfold RORTHOX_MAX_PATH. lia. }
  apply (alloc_owned l) in Ea as (p' & [= <-] & Ha); [|done|unfold RORTHOX_MAX_PATH; lia].
  rewrite io_bind_assoc, io_fail_if in E. destruct (Z.eqb_spec p 0) as [->|Hp].
  { injection E as <- <-. destruct Ha as [(_ & -> & Hc)|[? _]]; [|done]. split; [done|]. split; [lia|]. by rewrite Hf. }
  destruct Ha as [[? _]|[_ Ho1]]; [done|]. rewrite Ep, io_mret in E.
  apply io_bind_inv in E as [(e & Ea & ->)|(q & h2 & Ea & E)].
  { apply (alloc_owned (p :: l)) in Ea as (? & ? & _); [done|done|]. unfold sizeof_path_part. lia. }
  apply (alloc_owned (p :: l)) in Ea as (q' & [= <-] & Ha); [|done|unfold sizeof_path_part; lia].
  destruct (Z.eqb_spec q 0) as [->|Hq].
  - destruct Ha as [(_ & -> & Hc)|[? _]]; [|done]. rewrite io_modify in E. injection E as <- <-.
    split; [by apply owned_free|]. simpl in Hc. split; [lia|]. by rewrite Hf.
  - destruct Ha as [[? _]|[_ Ho2]]; [done|]. injection E as <- <-. simpl.
    split; [by rewrite Permutation_swap|]. split; [done|]. split; [done|]. pose proof (strlen_skip_slash rest).
    rewrite Hpath, length_app. rewrite Hpath, strlen_name in Hlen by done.
    pose proof (skip_slash_length rest). destruct name; [done|]. simpl in *. lia.
Qed.

Lemma pathparser_free_owned root h : owned (root_addr root :: cells (first root)) h -> pathparser_free (Some root) h = h0.
Proof. intros Ho. eapply owned_done, pathparser_free_owns. by rewrite app_nil_r. Qed.

(** The loop reads the parts of the rest of the path, or releases everything for lack of memory. *)
Lemma parse_loop_owned fuel : forall root path h r h',
  owned (root_addr root :: cells (first root)) h -> (length path < fuel)%nat ->
  strlen path < RORTHOX_MAX_PATH -> parse_loop fuel root path h = (r, h') ->
  match r with
  | None => h' = h0 /\ capacity h0 <= used A + 2 * Z.of_nat (length (first root) + length (leading (fields path)))
  | Some root' => owned (root_addr root' :: cells (first root')) h' /\ drive_no root' = drive_no root /\
      map part (first root') = map part (first root) ++ leading (fields path)
  end.
Proof.
  induction fuel as [|fuel IH]; intros root path h r h' Ho Hf Hlen; [lia|]. cbn [parse_loop].
  destruct (pathparser_parse_path_part path h) as [[[[x|] rest]|e] h1] eqn:Ep;
    apply (parse_path_part_owned _ _ _ _ _ Ho Hlen) in Ep.
  - destruct Ep as (Ho1 & _ & Hfs & Hl & Hl'). intros E. apply IH in E; [| |lia|done].
    + simpl in E. rewrite Hfs. destruct r as [root'|].
      * destruct E as (? & ? & ->). split; [done|]. split; [done|]. rewrite map_app. simpl. by rewrite <- app_assoc.
      * rewrite length_app in E. simpl in *. destruct E. split; [done|]. lia.
    + pose proof (Permutation_middle [name_addr x; part_addr x] (cells (first root)) (root_addr root)) as Hp.
      simpl in *. by rewrite cells_snoc, Hp.
  - destruct Ep as [-> Hfs]. intros E. injection E as <- <-. rewrite Hfs, app_nil_r. done.
  - destruct Ep as (Ho1 & Hc & Hne). intros E. injection E as <- <-. split; [by apply pathparser_free_owned|].
    simpl in Hc. rewrite cells_length in Hc. destruct (leading (fields path)); [done|]. simpl. lia.
Qed.
End owned.

(** The result with what is allocated for it. *)
Lemma parse_owned `{AllocatorLaws H} (h : H) A path r h' :
  live h A -> pathparser_parse path h = (r, h') ->
  match r with
  | Some root => path_ok path /\ char_at path 0 = 48 + drive_no root /\ map part (first root) = parts_of path /\
      owned_by (eq 1) A h (root_addr root :: cells (first root)) h'
  | None => h' = h /\ (path_ok path -> capacity h <= used A + 2 * Z.of_nat (length (parts_of path)))
  end.
Proof.
  intros Hl. unfold pathparser_parse.
  destruct (Z.ltb_spec RORTHOX_MAX_PATH (strnlen path (RORTHOX_MAX_PATH + 1))) as [Hlong|Hshort].
  { intros E. injection E as <- <-. split; [done|]. intros [Hlen _]. rewrite strnlen_spec in Hlong by done. lia. }
  pose proof (valid_format_iff path Hshort) as Hv. unfold pathparser_get_drive_by_path. rewrite io_fail_if.
  destruct (pathparser_path_valid_format path); cbn -[parse_loop drop].
  2:{ intros E. injection E as <- <-. split; [done|]. intros Hok. by apply Hv in Hok. }
  pose proof (proj1 Hv eq_refl) as Hok. pose proof Hok as (Hlen & (d & Hd & Hd0) & _).
  unfold pathparser_create_root. destruct (alloc sizeof_path_root h) as [rp h1] eqn:Ea. pose proof Ea as Er.
  apply (alloc_owned A h []) in Ea as (p & -> & Ha); [|by apply owned_nil|unfold sizeof_path_root; lia].
  rewrite (io_bind_run _ _ _ _ _ Er). destruct (Z.eqb_spec p 0) as [->|Hp]; cbn -[parse_loop drop].
  - intros E. injection E as <- <-. destruct Ha as [(_ & -> & Hc)|[? _]]; [|done]. simpl in Hc. split; [done|]. lia.
  - destruct Ha as [[? _]|[_ Ho]]; [done|]. intros E. apply (parse_loop_owned A h) in E; [|done|simpl; lia|].
    + simpl in E. destruct r as [root|]; [|by destruct E]. destruct E as (Ho' & -> & E). unfold tonumericdigit.
      split; [done|]. split; [lia|]. done.
    + rewrite strlen_drop by lia. lia.
Qed.

Lemma parse_spec `{AllocatorLaws H} (h : H) A path r h' :
  live h A -> pathparser_parse path h = (r, h') ->
  match r with
  | Some root => path_ok path /\ char_at path 0 = 48 + drive_no root /\ map part (first root) = parts_of path /\
      pathparser_free r h' = h
  | None => h' = h /\ (path_ok path -> capacity h <= used A + 2 * Z.of_nat (length (parts_of path)))
  end.
Proof.
  intros Hl E. apply (parse_owned _ A) in E; [|done]. destruct r as [root|]; [|done]. destruct E as (? & ? & ? & Ho).
  do 3 (split; [done|]). by eapply pathparser_free_owned.
Qed.

Lemma strlen_join names : Forall name_ok names -> strlen (join names) = Z.of_nat (length (join names)).
Proof.
  induction 1 as [|s l (_ & _ & Hs) Hl IH]; [done|]. destruct l as [|s' l].
  - simpl. rewrite <- (app_nil_r s), strlen_name by done. rewrite app_nil_r. simpl. lia.
  - change (join (s :: s' :: l)) with (s ++ 47 :: join (s' :: l)). rewrite strlen_name, length_app by done.
    change (strlen (47 :: join (s' :: l))) with (1 + strlen (join (s' :: l))). rewrite IH. simpl length. lia.
Qed.

(** C39: Parsing a path. An accepted path has the form d:/... with at most 108 characters; the result
    has its drive and the names between its slashes up to the first empty one, and releasing it
    gives the heap back exactly. A path that is not accepted leaves the heap unchanged (whatever was
    allocated on the way is released), and a well-formed path is refused only when the heap has no
    room for one node, and two blocks for every name. *)
Theorem pathparser_parse_correct `{AllocatorLaws H} (h : H) A path r h' :
  live h A -> pathparser_parse path h = (r, h') ->
  match r with
  | Some root => path_ok path /\ char_at path 0 = 48 + drive_no root /\ map part (first root) = parts_of path /\
      pathparser_free r h' = h
  | None => h' = h /\ (path_ok path -> capacity h <= used A + 2 * Z.of_nat (length (parts_of path)))
  end.
Proof. apply parse_spec. Qed.

(** "0:/a/bc", then a path with an empty part: the parts behind it are not seen. *)
Lemma pathparser_parse_correct_witness :
  let h := Heap.Heap (HeapTable (replicate 8 0) 8) 4096 in
  let '(r, h') := pathparser_parse [48; 58; 47; 97; 47; 98; 99] h in
  (exists root, r = Some root /\ map part (first root) = [[97]; [98; 99]] /\ pathparser_free r h' = h) /\
  parts_of [49; 58; 47; 97; 47; 47; 98] = [[97]].
Proof.
  intros h. assert (Hl : live h ∅).
  { exists ∅. split; [|done]. apply empty_repr; (done || lia). }
  pose proof (pathparser_parse_correct h ∅ [48; 58; 47; 97; 47; 98; 99] _ _ Hl (surjective_pairing _)) as Hp.
  vm_compute in Hp |- *. destruct Hp as (_ & _ & _ & Hf). split; [|done]. eexists. split; [done|]. split; done.
Defined.

(** Printing names as a path d:/n1/n2/... and parsing it gives the drive and the names back, when
    the path is not longer than 108 characters and the heap has room. *)
Theorem pathparser_roundtrip `{AllocatorLaws H} (h : H) A d names :
  live h A -> 0 <= d < 10 -> Forall name_ok names -> Z.of_nat (length (join names)) <= 105 ->
  used A + 2 * Z.of_nat (length names) < capacity h ->
  exists root h', pathparser_parse (48 + d :: 58 :: 47 :: join names) h = (Some root, h') /\ drive_no root = d /\
    map part (first root) = names /\ pathparser_free (Some root) h' = h.
Proof.
  intros Hl Hd Hn Hlen Hroom. set (path := 48 + d :: 58 :: 47 :: join names).
  assert (Hparts : parts_of path = names) by (by apply fields_join).
  destruct (pathparser_parse path h) as [r h'] eqn:E. apply (parse_spec _ A) in E; [|done]. destruct r as [root|].
  - exists root, h'. destruct E as (_ & Hdr & Hp & Hf). rewrite Hparts in Hp. unfold path, char_at in Hdr. simpl in Hdr.
    split; [done|]. split; [lia|done].
  - destruct E as [_ E]. rewrite Hparts in E. enough (path_ok path) by (apply E in H2; lia).
    split; [|split; [by exists d|done]]. unfold path, RORTHOX_MAX_PATH. cbn [strlen].
    rewrite (proj2 (Z.eqb_neq (48 + d) 0)) by lia. simpl. rewrite strlen_join by done. lia.
Qed.

Lemma pathparser_roundtrip_witness :
  let h := Heap.Heap (HeapTable (replicate 8 0) 8) 4096 in
  exists root h', pathparser_parse [50; 58; 47; 97; 47; 98; 99] h = (Some root, h') /\ drive_no root = 2 /\
    map part (first root) = [[97]; [98; 99]] /\ pathparser_free (Some root) h' = h.
Proof.
  intros h. apply (pathparser_roundtrip h ∅ 2 [[97]; [98; 99]]).
  - exists ∅. split; [|done]. apply empty_repr; (done || lia).
  - lia.
  - repeat constructor; done.
  - simpl. lia.
  - vm_compute. done.
Defined.
