(* ===== verification/Fat.v ===== *)
(** * FAT16: structures, cluster chains and reading (kernel/fs/fat/fat16.c)

    The on-disk structures with their byte layout, the mounted volume's state, and the code that
    follows cluster chains through the file allocation table and reads file data. The disk's sector
    size is 512 (disk.c sets nothing else). Kernel objects that the code allocates are Rocq values
    here; their addresses come from the allocator, so that allocation failure and release are
    modelled. The theorems say what a chain is, that reading a file returns the bytes of its chain,
    and that chain walks end on any table contents. *)

From stdpp Require Import base numbers list gmap.
From Stdlib Require Import ZArith Lia.
From S2P Require Import Prelude Alloc Memory Effects Disk.

#[local] Set Default Goal Selector "!".

(** ** Byte layout *)

Definition byte_at (bs : list Z) (i : nat) : Z := default 0 (bs !! i).
Definition le16 (bs : list Z) (i : nat) : Z := byte_at bs i + 256 * byte_at bs (S i).
Definition le32 (bs : list Z) (i : nat) : Z := le16 bs i + 65536 * le16 bs (2 + i).
Definition to_le16 (v : Z) : list Z := [v mod 256; v / 256 mod 256].
Definition to_le32 (v : Z) : list Z := to_le16 (v mod 65536) ++ to_le16 (v / 65536).

(** [struct fat_directory_item], 32 bytes. *)
Record fat_directory_item := FatItem {
  filename : list Z;
  ext : list Z;
  attribute : Z;
  reserved : Z;
  creation_time_tenths_of_a_sec : Z;
  creation_time : Z;
  creation_date : Z;
  last_access : Z;
  high_16_bits_first_cluster : Z;
  last_mod_time : Z;
  last_mod_date : Z;
  low_16_bits_first_cluster : Z;
  filesize : Z
}.

Definition decode_item (bs : list Z) : fat_directory_item :=
  FatItem (byte_at bs <$> seq 0 8) (byte_at bs <$> seq 8 3) (byte_at bs 11) (byte_at bs 12)
    (byte_at bs 13) (le16 bs 14) (le16 bs 16) (le16 bs 18) (le16 bs 20) (le16 bs 22) (le16 bs 24)
    (le16 bs 26) (le32 bs 28).

Definition encode_item (it : fat_directory_item) : list Z :=
  filename it ++ ext it ++ [attribute it; reserved it; creation_time_tenths_of_a_sec it] ++
  to_le16 (creation_time it) ++ to_le16 (creation_date it) ++ to_le16 (last_access it) ++
  to_le16 (high_16_bits_first_cluster it) ++ to_le16 (last_mod_time it) ++
  to_le16 (last_mod_date it) ++ to_le16 (low_16_bits_first_cluster it) ++ to_le32 (filesize it).

(** [struct fat_header] and the signature of [struct fat_header_extended], which follows it. *)
Record fat_h := FatH {
  byte_per_secotr : Z;
  sectors_per_cluster : Z;
  reserved_sectors : Z;
  fat_copies : Z;
  root_dir_entries : Z;
  number_of_sectors : Z;
  media_type : Z;
  sectors_per_fat : Z;
  sectors_per_track : Z;
  number_of_heads : Z;
  hidden_sectors : Z;
  sectors_big : Z;
  signatur : Z
}.

(** The header's 62 bytes. *)
Definition decode_header (bs : list Z) : fat_h :=
  FatH (le16 bs 11) (byte_at bs 13) (le16 bs 14) (byte_at bs 16) (le16 bs 17) (le16 bs 19)
    (byte_at bs 21) (le16 bs 22) (le16 bs 24) (le16 bs 26) (le32 bs 28) (le32 bs 32) (byte_at bs 38).

(** ** The mounted volume *)

(** [item_ptr] is the address of the array [item]. *)
Record fat_directory := FatDirectory {
  item_ptr : Z;
  item : list fat_directory_item;
  first_cluster : Z;
  total : Z;
  sector_pos : Z;
  ending_sector_pos : Z
}.

(** The union of [struct fat_item] with its tag; [ptr] is the address of the object it points to. *)
Inductive fat_item_body :=
  | FAT_ITEM_TYPE_DIRECTORY (ptr : Z) (directory : fat_directory)
  | FAT_ITEM_TYPE_FILE (ptr : Z) (it : fat_directory_item).

Record fat_item := FatItemOf { item_addr : Z; body : fat_item_body; entry_pos : Z }.

Record fat_file_descriptor := FatFd { desc_item : fat_item; pos : Z; mode : Z }.

(** [descriptors] is the linked list of open descriptors, by their addresses; the streams are the
    positions of the three disk streams. *)
Record fat_private := FatPrivate {
  header : fat_h;
  root_directory : fat_directory;
  cluster_read_stream : Z;
  fat_read_stream : Z;
  directory_stream : Z;
  descriptors : list Z;
  desc_store : gmap Z fat_file_descriptor;
  write_ready : bool;
  mutation_disabled : bool;
  max_writable : Z
}.

Definition with_cluster_stream (x : Z) (p : fat_private) : fat_private :=
  FatPrivate (header p) (root_directory p) x (fat_read_stream p) (directory_stream p)
    (descriptors p) (desc_store p) (write_ready p) (mutation_disabled p) (max_writable p).
Definition with_fat_stream (x : Z) (p : fat_private) : fat_private :=
  FatPrivate (header p) (root_directory p) (cluster_read_stream p) x (directory_stream p)
    (descriptors p) (desc_store p) (write_ready p) (mutation_disabled p) (max_writable p).
Definition with_directory_stream (x : Z) (p : fat_private) : fat_private :=
  FatPrivate (header p) (root_directory p) (cluster_read_stream p) (fat_read_stream p) x
    (descriptors p) (desc_store p) (write_ready p) (mutation_disabled p) (max_writable p).
Definition with_root (x : fat_directory) (p : fat_private) : fat_private :=
  FatPrivate (header p) x (cluster_read_stream p) (fat_read_stream p) (directory_stream p)
    (descriptors p) (desc_store p) (write_ready p) (mutation_disabled p) (max_writable p).
Definition with_descriptors (x : list Z) (y : gmap Z fat_file_descriptor) (p : fat_private)
  : fat_private :=
  FatPrivate (header p) (root_directory p) (cluster_read_stream p) (fat_read_stream p)
    (directory_stream p) x y (write_ready p) (mutation_disabled p) (max_writable p).
Definition with_write_ready (x : bool) (p : fat_private) : fat_private :=
  FatPrivate (header p) (root_directory p) (cluster_read_stream p) (fat_read_stream p)
    (directory_stream p) (descriptors p) (desc_store p) x (mutation_disabled p) (max_writable p).
Definition with_mutation_disabled (x : bool) (p : fat_private) : fat_private :=
  FatPrivate (header p) (root_directory p) (cluster_read_stream p) (fat_read_stream p)
    (directory_stream p) (descriptors p) (desc_store p) (write_ready p) x (max_writable p).
Definition with_max_writable (x : Z) (p : fat_private) : fat_private :=
  FatPrivate (header p) (root_directory p) (cluster_read_stream p) (fat_read_stream p)
    (directory_stream p) (descriptors p) (desc_store p) (write_ready p) (mutation_disabled p) x.

(** The state of the file system code: the drive, the kernel heap, the volume. *)
Record fs (D H : Type) := Fs { dev : D; heap : H; priv : fat_private }.
Arguments Fs {D H} dev heap priv.
Arguments dev {D H} f.
Arguments heap {D H} f.
Arguments priv {D H} f.

(** ** Geometry *)

Definition RORTHOX_FAT16_BAD_SECTOR : Z := 0xFFF7.
Definition RORTHOX_FAT16_EOC_START : Z := 0xFFF8.
Definition RORTHOX_FAT16_FAT_ENTRY_SIZE : Z := 2.

Definition fat16_sector_to_absolute (sector : Z) : Z := i32 (sector * RORTHOX_SECTOR_SIZE).

Definition fat16_cluster_limit (p : fat_private) : Z :=
  let h := header p in
  let sectors := if negb (number_of_sectors h =? 0) then number_of_sectors h else sectors_big h in
  let data := u32 (ending_sector_pos (root_directory p)) in
  if (sectors_per_cluster h =? 0) || (sectors <=? data) then 0
  else
    let count := (sectors - data) / sectors_per_cluster h in
    let entries := u32 (sectors_per_fat h * RORTHOX_SECTOR_SIZE) / 2 in
    if (count <? 4085) || (65525 <=? count) || (entries <? count + 2) then 0
    else count + 1.

Definition fat16_valid_cluster (p : fat_private) (cluster : Z) : bool :=
  (2 <=? cluster) && (cluster <=? fat16_cluster_limit p) &&
  negb (cluster =? RORTHOX_FAT16_BAD_SECTOR) && (cluster <? RORTHOX_FAT16_EOC_START).

Definition fat16_get_first_cluster (it : fat_directory_item) : Z := low_16_bits_first_cluster it.

Definition fat16_cluster_to_sector (p : fat_private) (cluster : Z) : Z :=
  i32 (ending_sector_pos (root_directory p) + (cluster - 2) * sectors_per_cluster (header p)).

Definition fat16_get_first_fat_sector (p : fat_private) : Z := reserved_sectors (header p).

(** Bytes of a cluster. *)
Definition cluster_bytes (p : fat_private) : Z :=
  sectors_per_cluster (header p) * RORTHOX_SECTOR_SIZE.

(** ** Reading *)

Section fat.
Context {D H : Type} `{BlockDevice D} `{Allocator H}.
Abbreviation fsio := (io (fs D H)).

(** Reads [n] bytes through the stream selected by [get] and [set], after a seek to [where_]. *)
Definition stream_read_at (get : fat_private -> Z) (set : Z -> fat_private -> fat_private)
    (where_ n : Z) : fsio (list Z) := fun s =>
  let '(res, p) := diskstreamer_seek (get (priv s)) where_ in
  let s := Fs (dev s) (heap s) (set p (priv s)) in
  if res <? 0 then (Err res, s)
  else
    let '(res, out, p, d) := diskstreamer_read (get (priv s)) n (dev s) in
    let s := Fs d (heap s) (set p (priv s)) in
    if res <? 0 then (Err res, s) else (Ok out, s).

Definition fat16_get_fat_entry (cluster : Z) : fsio Z :=
  p ← gets priv;
  let fat_table_position := u32 (fat16_get_first_fat_sector p * RORTHOX_SECTOR_SIZE) in
  bs ← stream_read_at fat_read_stream with_fat_stream
         (i32 (u32 (fat_table_position + cluster * RORTHOX_FAT16_FAT_ENTRY_SIZE))) 2;
  mret (le16 bs 0).

(** The walk of [fat16_get_cluster_for_offset], [ahead] steps. *)
Fixpoint cluster_walk (ahead : nat) (cluster : Z) : fsio Z :=
  match ahead with
  | O => mret cluster
  | S ahead =>
    next ← fat16_get_fat_entry cluster;
    p ← gets priv;
    _ ← fail_if (negb (fat16_valid_cluster p next)) EIO;
    cluster_walk ahead next
  end.

Definition fat16_get_cluster_for_offset (starting_cluster offset : Z) : fsio Z :=
  p ← gets priv;
  let bytes := cluster_bytes p in
  _ ← fail_if ((offset <? 0) || (bytes =? 0) || negb (fat16_valid_cluster p starting_cluster)) EIO;
  let ahead := offset / bytes in
  _ ← fail_if (fat16_cluster_limit p - 1 <=? ahead) EIO;
  cluster_walk (Z.to_nat ahead) starting_cluster.

(** The loop of [fat16_read_internal_from_stream]. Each round reads at least one byte, so [total] is
    enough fuel. *)
Fixpoint read_internal_loop (fuel : nat) (current within traversed total : Z) (out : list Z)
  : fsio (list Z) :=
  match fuel with
  | O => mret out
  | S fuel =>
    if 0 <? total then
      p ← gets priv;
      let part := cluster_bytes p - within in
      let part := if total <? part then total else part in
      let pos := u64 (u64 (fat16_cluster_to_sector p current) * RORTHOX_SECTOR_SIZE + within) in
      _ ← fail_if ((INT_MAX <? pos) || (INT_MAX - pos <? part)) EIO;
      bs ← stream_read_at cluster_read_stream with_cluster_stream pos part;
      let total := total - part in
      let out := out ++ bs in
      if negb (total =? 0) then
        current ← fat16_get_fat_entry current;
        p ← gets priv;
        _ ← fail_if (negb (fat16_valid_cluster p current)
                     || (fat16_cluster_limit p - 1 <? traversed + 1)) EIO;
        read_internal_loop fuel current 0 (traversed + 1) total out
      else read_internal_loop fuel current 0 traversed total out
    else mret out
  end.

Definition fat16_read_internal (starting_cluster offset total : Z) : fsio (list Z) :=
  p ← gets priv;
  let bytes := cluster_bytes p in
  _ ← fail_if ((total <? 0) || (offset <? 0) || (INT_MAX - offset <? total) || (bytes =? 0)) EIO;
  current ← fat16_get_cluster_for_offset starting_cluster offset;
  read_internal_loop (Z.to_nat total) current (offset mod bytes) (offset / bytes + 1) total [].
End fat.

(** ** The image *)

(** The table entry of a cluster in the first copy of the table. *)
Definition fat_entry (f : Z -> Z) (p : fat_private) (c : Z) : Z :=
  let a := reserved_sectors (header p) * 512 + 2 * c in f a + 256 * f (a + 1).

(** The cluster [n] steps along the chain from [c]. *)
Fixpoint nth_cluster (f : Z -> Z) (p : fat_private) (n : nat) (c : Z) : Z :=
  match n with O => c | S n => nth_cluster f p n (fat_entry f p c) end.

(** The disk offset of cluster [c]. *)
Definition cluster_pos (p : fat_private) (c : Z) : Z :=
  (ending_sector_pos (root_directory p) + (c - 2) * sectors_per_cluster (header p)) * 512.

(** Byte [i] of the data of the chain from [c]. *)
Definition chain_byte (f : Z -> Z) (p : fat_private) (c i : Z) : Z :=
  f (cluster_pos p (nth_cluster f p (Z.to_nat (i / cluster_bytes p)) c) + i mod cluster_bytes p).

(** The first [n + 1] clusters of the chain are data clusters. *)
Definition chain_valid (f : Z -> Z) (p : fat_private) (n : Z) (c : Z) : Prop :=
  forall k, 0 <= k <= n -> fat16_valid_cluster p (nth_cluster f p (Z.to_nat k) c) = true.

(** What mounting establishes: header fields in the range of their types, the layout of the root
    directory behind the tables. *)
Record geometry (p : fat_private) : Prop := Geometry {
  geo_spc : 0 <= sectors_per_cluster (header p) < 256;
  geo_reserved : 0 <= reserved_sectors (header p) < 65536;
  geo_copies : 0 <= fat_copies (header p) < 256;
  geo_fat : 0 <= sectors_per_fat (header p) < 65536;
  geo_root : 0 <= root_dir_entries (header p) < 65536;
  geo_sectors : 0 <= number_of_sectors (header p) < 65536;
  geo_big : 0 <= sectors_big (header p) < 2 ^ 32;
  geo_pos : sector_pos (root_directory p) =
    fat_copies (header p) * sectors_per_fat (header p) + reserved_sectors (header p);
  geo_end : ending_sector_pos (root_directory p) =
    sector_pos (root_directory p) + (root_dir_entries (header p) * 32 + 511) / 512;
  geo_first : first_cluster (root_directory p) = 0
}.

(** The volumes agree in everything but the positions of the streams. *)
Record same_volume (p q : fat_private) : Prop := SameVolume {
  sv_header : header q = header p;
  sv_root : root_directory q = root_directory p;
  sv_descriptors : descriptors q = descriptors p;
  sv_store : desc_store q = desc_store p;
  sv_ready : write_ready q = write_ready p;
  sv_disabled : mutation_disabled q = mutation_disabled p;
  sv_writable : max_writable q = max_writable p
}.

#[export] Instance same_volume_preorder : PreOrder same_volume.
Proof. split; [done|]. intros p q r [] []. constructor; congruence. Qed.

Lemma limit_same p q : same_volume p q -> fat16_cluster_limit q = fat16_cluster_limit p.
Proof. intros S. unfold fat16_cluster_limit. by rewrite (sv_header _ _ S), (sv_root _ _ S). Qed.

Lemma valid_same p q c : same_volume p q -> fat16_valid_cluster q c = fat16_valid_cluster p c.
Proof. intros S. unfold fat16_valid_cluster. by rewrite (limit_same _ _ S). Qed.

Lemma geometry_same p q : same_volume p q -> geometry p -> geometry q.
Proof. intros [E1 E2 _ _ _ _ _] []. constructor; rewrite ?E1, ?E2; done. Qed.

Lemma fat_entry_same f p q c : same_volume p q -> fat_entry f q c = fat_entry f p c.
Proof. intros S. unfold fat_entry. by rewrite (sv_header _ _ S). Qed.

Lemma nth_cluster_same f p q n : forall c, same_volume p q -> nth_cluster f q n c = nth_cluster f p n c.
Proof.
  induction n as [|n IH]; intros c S; simpl; [done|]. by rewrite (fat_entry_same _ _ _ _ S), IH.
Qed.

Lemma cluster_pos_same p q c : same_volume p q -> cluster_pos q c = cluster_pos p c.
Proof. intros S. unfold cluster_pos. by rewrite (sv_header _ _ S), (sv_root _ _ S). Qed.

Lemma cluster_bytes_same p q : same_volume p q -> cluster_bytes q = cluster_bytes p.
Proof. intros S. unfold cluster_bytes. by rewrite (sv_header _ _ S). Qed.

Lemma valid_range p c : fat16_valid_cluster p c = true -> 2 <= c <= fat16_cluster_limit p /\ c < 65528.
Proof.
  unfold fat16_valid_cluster, RORTHOX_FAT16_EOC_START. rewrite !andb_true_iff, !Z.leb_le, Z.ltb_lt. lia.
Qed.

Lemma limit_spc p : 0 < fat16_cluster_limit p -> sectors_per_cluster (header p) <> 0.
Proof. unfold fat16_cluster_limit. destruct (Z.eqb_spec (sectors_per_cluster (header p)) 0); simpl; [lia|done]. Qed.

(** The cluster arithmetic stays inside [int]. *)
Lemma cluster_to_sector_eq p c :
  geometry p -> 0 <= c < 65536 ->
  fat16_cluster_to_sector p c * 512 = cluster_pos p c /\
  (2 <= c -> 0 <= fat16_cluster_to_sector p c < 2 ^ 31).
Proof.
  intros G Hc. unfold fat16_cluster_to_sector, cluster_pos.
  pose proof (geo_spc _ G). pose proof (geo_reserved _ G). pose proof (geo_copies _ G).
  pose proof (geo_fat _ G). pose proof (geo_root _ G). rewrite (geo_end _ G), (geo_pos _ G).
  set (spc := sectors_per_cluster (header p)) in *. set (n := fat_copies (header p)) in *.
  set (spf := sectors_per_fat (header p)) in *.
  assert (0 <= n * spf <= 255 * 65535) by nia. assert (-600 <= (c - 2) * spc <= 65535 * 255) by nia.
  assert (2 <= c -> 0 <= (c - 2) * spc) by nia. rewrite i32_small by lia. lia.
Qed.

Section reading.
Context {D H : Type} `{BlockDeviceLaws D} `{Allocator H}.
Implicit Types s : fs D H.
Abbreviation im s := (img (dev s)).

(** [s'] differs from [s] only in what reading changes. *)
Record reads (s s' : fs D H) : Prop := Reads {
  rd_img a : im s' a = im s a;
  rd_heap : heap s' = heap s;
  rd_volume : same_volume (priv s) (priv s');
  rd_good n : good (dev s) n -> good (dev s') n
}.

#[export] Instance reads_preorder : PreOrder reads.
Proof.
  split.
  - intros s. by constructor.
  - intros s1 s2 s3 R1 R2. constructor.
    + intros a. by rewrite (rd_img _ _ R2), (rd_img _ _ R1).
    + by rewrite (rd_heap _ _ R2), (rd_heap _ _ R1).
    + etrans; [apply R1|apply R2].
    + intros n Hn. by apply (rd_good _ _ R2), (rd_good _ _ R1).
Qed.

(** A stream of the volume. *)
Record stream_lens (get : fat_private -> Z) (set : Z -> fat_private -> fat_private) : Prop := {
  lens_get x p : get (set x p) = x;
  lens_same x p : same_volume p (set x p)
}.

Lemma fat_lens : stream_lens fat_read_stream with_fat_stream.
Proof. by constructor. Qed.
Lemma cluster_lens : stream_lens cluster_read_stream with_cluster_stream.
Proof. by constructor. Qed.
Lemma directory_lens : stream_lens directory_stream with_directory_stream.
Proof. by constructor. Qed.

(** All sectors of the byte range are good. *)
Definition range_good (d : D) (w n : Z) : Prop := forall k, w / 512 <= k <= (w + n - 1) / 512 -> good d k.

Definition in_int (w n : Z) : Prop := 0 <= w /\ 0 <= n /\ w + n <= INT_MAX.

Lemma stream_read_at_spec get set w n s r s' :
  stream_lens get set -> stream_read_at get set w n s = (r, s') ->
  reads s s' /\
  match r with
  | Ok bs => in_int w n /\ bs = slice (im s) w n
  | Err e => e < 0 /\ (in_int w n -> ~ range_good (dev s) w n)
  end.
Proof.
  intros L E. unfold stream_read_at, diskstreamer_seek in E.
  destruct (Z.ltb_spec w 0) as [Hw|Hw].
  { change (- EINVARG <? 0) with true in E. injection E as <- <-. split.
    - constructor; simpl; try done. by apply (lens_same _ _ L).
    - unfold EINVARG, in_int. lia. }
  change (0 <? 0) with false in E. cbn [dev heap priv] in E. rewrite (lens_get _ _ L) in E.
  destruct (diskstreamer_read w n (dev s)) as [[[res out] q] d'] eqn:Hr.
  assert (R : reads s (Fs d' (heap s) (set q (set w (priv s))))).
  { constructor; simpl; try done.
    - intros a. unfold diskstreamer_read in Hr. destruct (_ || _) eqn:Hb; [by simplify_eq|].
      rewrite !orb_false_iff, !Z.ltb_ge in Hb.
      by apply streamer_read_loop_spec in Hr as (Hi & _); [|lia..].
    - etrans; apply (lens_same _ _ L).
    - intros k Hk. unfold diskstreamer_read in Hr. destruct (_ || _) eqn:Hb; [by simplify_eq|].
      rewrite !orb_false_iff, !Z.ltb_ge in Hb.
      apply streamer_read_loop_spec in Hr as (_ & Hg & _); [auto|lia..]. }
  unfold diskstreamer_read in Hr. destruct (_ || _) eqn:Hb.
  { injection Hr as <- <- <- <-. change (- EINVARG <? 0) with true in E. injection E as <- <-.
    split; [done|]. rewrite !orb_true_iff, !Z.ltb_lt in Hb. unfold EINVARG, in_int. lia. }
  rewrite !orb_false_iff, !Z.ltb_ge in Hb.
  apply streamer_read_loop_spec in Hr as (_ & _ & k & Hk & -> & -> & Hres); [|lia..].
  destruct Hres as [[-> ->]|(Hneg & Hlt & Hbad)].
  - change (0 <? 0) with false in E. injection E as <- <-. unfold in_int. auto with lia.
  - rewrite (proj2 (Z.ltb_lt res 0)) in E by done. injection E as <- <-. split; [done|]. split; [done|].
    intros _ Hg. apply Hbad, Hg. split; apply Z.div_le_mono; lia.
Qed.

(** ** Table entries *)

Lemma fat_entry_position p c :
  geometry p -> 0 <= c < 65536 ->
  i32 (u32 (u32 (fat16_get_first_fat_sector p * RORTHOX_SECTOR_SIZE) + c * RORTHOX_FAT16_FAT_ENTRY_SIZE))
  = reserved_sectors (header p) * 512 + 2 * c.
Proof.
  intros G Hc. pose proof (geo_reserved _ G). unfold fat16_get_first_fat_sector, RORTHOX_SECTOR_SIZE,
    RORTHOX_FAT16_FAT_ENTRY_SIZE. rewrite (u32_small (_ * 512)) by lia.
  rewrite u32_small, i32_small by lia. lia.
Qed.

(** The sectors of the first table are good. *)
Definition table_good s : Prop :=
  forall k, reserved_sectors (header (priv s)) <= k <
    reserved_sectors (header (priv s)) + sectors_per_fat (header (priv s)) -> good (dev s) k.

Lemma reads_table_good s s' : reads s s' -> table_good s -> table_good s'.
Proof.
  intros R T k Hk. rewrite (sv_header _ _ (rd_volume _ _ R)) in Hk. by apply (rd_good _ _ R), T.
Qed.

Lemma get_fat_entry_spec c s r s' :
  geometry (priv s) -> 0 <= c < 65536 -> fat16_get_fat_entry c s = (r, s') ->
  reads s s' /\
  match r with
  | Ok v => v = fat_entry (im s) (priv s) c /\ 0 <= v < 65536
  | Err e => e < 0 /\ (2 * c + 2 <= sectors_per_fat (header (priv s)) * 512 -> ~ table_good s)
  end.
Proof.
  intros G Hc E. unfold fat16_get_fat_entry in E. rewrite io_gets, fat_entry_position in E by done.
  apply io_bind_inv in E as [(e & E & ->)|(bs & s1 & E & Ev)].
  - apply stream_read_at_spec in E as (R & He & Hbad); [|apply fat_lens]. split; [done|]. split; [done|].
    intros Hin T. pose proof (geo_reserved _ G). apply Hbad; [unfold in_int, INT_MAX; lia|].
    intros k Hk. apply T. lia.
  - apply mret_inv in Ev as [-> ->].
    apply stream_read_at_spec in E as (R & _ & ->); [|apply fat_lens]. split; [done|].
    unfold le16, byte_at. rewrite !slice_lookup by lia. simpl. unfold fat_entry.
    set (a := reserved_sectors (header (priv s)) * 512 + 2 * c). rewrite Z.add_0_r.
    pose proof (img_byte (dev s) a). pose proof (img_byte (dev s) (a + 1)). unfold is_byte in *.
    change (Z.of_nat 1) with 1. split; [done|lia].
Qed.

Lemma valid_in_table p c :
  geometry p -> fat16_valid_cluster p c = true -> 2 * c + 2 <= sectors_per_fat (header p) * 512.
Proof.
  intros G [Hv _]%valid_range. pose proof (geo_fat _ G). revert Hv. unfold fat16_cluster_limit.
  cbv zeta. unfold RORTHOX_SECTOR_SIZE. rewrite (u32_small (_ * 512)) by lia.
  set (sectors := if negb _ then _ else _). destruct (_ || (sectors <=? _)); [lia|].
  set (count := (sectors - _) / _). destruct (_ || _ || _) eqn:Hb; [lia|].
  rewrite !orb_false_iff, !Z.ltb_ge in Hb. lia.
Qed.

(** ** Walking the chain *)

Lemma nth_cluster_succ f p n c : nth_cluster f p (S n) c = fat_entry f p (nth_cluster f p n c).
Proof. revert c. induction n as [|n IH]; intros c; [done|]. cbn [nth_cluster] in *. by rewrite IH. Qed.

Lemma nth_cluster_img s s' n c : reads s s' ->
  nth_cluster (im s') (priv s') n c = nth_cluster (im s) (priv s) n c.
Proof.
  intros R. revert c. induction n as [|n IH]; intros c; [done|]. cbn [nth_cluster]. rewrite IH. f_equal.
  rewrite (fat_entry_same _ _ _ _ (rd_volume _ _ R)). unfold fat_entry. by rewrite !(rd_img _ _ R).
Qed.

Lemma fat_entry_reads s s' c : reads s s' ->
  fat_entry (im s') (priv s') c = fat_entry (im s) (priv s) c.
Proof. intros R. apply (nth_cluster_img s s' 1 c R). Qed.

(** The chain has [n + 1] data clusters and the drive can read the table. *)
Definition chain_readable s (n c : Z) : Prop := table_good s /\ chain_valid (im s) (priv s) n c.

Lemma chain_valid_reads s s' n c : reads s s' ->
  chain_valid (im s) (priv s) n c -> chain_valid (im s') (priv s') n c.
Proof.
  intros R C k Hk. rewrite (nth_cluster_img _ _ _ _ R), (valid_same _ _ _ (rd_volume _ _ R)). by apply C.
Qed.

Lemma chain_valid_step f p n c :
  0 <= n -> fat16_valid_cluster p c = true ->
  chain_valid f p (n + 1) c <-> chain_valid f p n (fat_entry f p c).
Proof.
  intros Hn Hc. split; intros C k Hk.
  - specialize (C (k + 1) ltac:(lia)). by rewrite Z2Nat.inj_add, Nat.add_comm in C by lia.
  - destruct (Z.eq_dec k 0) as [->|]; [done|]. specialize (C (k - 1) ltac:(lia)).
    by replace (Z.to_nat k) with (S (Z.to_nat (k - 1))) by lia.
Qed.

Lemma cluster_walk_spec n : forall c s r s',
  geometry (priv s) -> fat16_valid_cluster (priv s) c = true -> cluster_walk n c s = (r, s') ->
  reads s s' /\
  match r with
  | Ok v => v = nth_cluster (im s) (priv s) n c /\ chain_valid (im s) (priv s) (Z.of_nat n) c
  | Err e => e < 0 /\ ~ chain_readable s (Z.of_nat n) c
  end.
Proof.
  induction n as [|n IH]; intros c s r s' G Hc E; cbn [cluster_walk] in E.
  { apply mret_inv in E as [-> ->]. split; [done|]. split; [done|].
    intros k Hk. by assert (k = 0) as -> by lia. }
  pose proof (valid_range _ _ Hc) as Hcr.
  apply io_bind_inv in E as [(e & E & ->)|(next & s1 & E & E1)].
  { apply get_fat_entry_spec in E as (R & He & Hbad); [|done|lia]. split; [done|]. split; [done|].
    intros [T _]. apply Hbad; [by apply valid_in_table|done]. }
  apply get_fat_entry_spec in E as (R & Hv & Hvr); [|done|lia]. rewrite io_gets, io_fail_if in E1.
  assert (G1 : geometry (priv s1)) by (eapply geometry_same; [apply R|done]).
  replace (Z.of_nat (S n)) with (Z.of_nat n + 1) by lia.
  destruct (fat16_valid_cluster (priv s1) next) eqn:Hnext; simpl in E1.
  - apply IH in E1 as (R1 & Hr); [|done..]. split; [by etrans|].
    assert (Hiff : chain_valid (im s) (priv s) (Z.of_nat n + 1) c <-> chain_valid (im s1) (priv s1) (Z.of_nat n) next).
    { rewrite chain_valid_step by (done || lia). rewrite <- Hv. unfold chain_valid.
      split; intros C k Hk; specialize (C k Hk);
        by rewrite (nth_cluster_img _ _ _ _ R), (valid_same _ _ _ (rd_volume _ _ R)) in *. }
    destruct r as [v|e].
    + destruct Hr as [-> Hr]. split; [|by apply Hiff]. by rewrite (nth_cluster_img _ _ _ _ R), Hv.
    + destruct Hr as [He Hr]. split; [done|]. intros [T C]. apply Hr. split; [by eapply reads_table_good|].
      by apply Hiff.
  - injection E1 as <- <-. split; [done|]. split; [unfold EIO; lia|]. intros [_ C].
    specialize (C 1 ltac:(lia)). simpl in C. rewrite <- Hv in C.
    rewrite (valid_same _ _ _ (rd_volume _ _ R)) in Hnext. congruence.
Qed.

(** ** Reading file data *)

Lemma chain_byte_first f p c i :
  0 <= i < cluster_bytes p -> chain_byte f p c i = f (cluster_pos p c + i).
Proof. intros Hi. unfold chain_byte. by rewrite Z.div_small, Z.mod_small by lia. Qed.

Lemma chain_byte_next f p c i :
  0 < cluster_bytes p -> 0 <= i ->
  chain_byte f p c (cluster_bytes p + i) = chain_byte f p (fat_entry f p c) i.
Proof.
  intros Hb Hi. unfold chain_byte. set (b := cluster_bytes p) in *.
  replace (b + i) with (i + 1 * b) by lia. rewrite Z.div_add, Z_mod_plus_full by lia.
  assert (0 <= i / b) by (apply Z.div_pos; lia).
  by replace (Z.to_nat (i / b + 1)) with (S (Z.to_nat (i / b))) by lia.
Qed.

Lemma chain_slice_next f p c n :
  0 < cluster_bytes p -> slice (chain_byte f p c) (cluster_bytes p) n = slice (chain_byte f p (fat_entry f p c)) 0 n.
Proof.
  intros Hb. unfold slice. apply list_fmap_ext. intros i x Hx.
  apply lookup_seqZ in Hx as [-> Hx]. rewrite chain_byte_next by lia. by rewrite Z.add_0_l.
Qed.

(** The drive can read cluster [c], which lies inside the range of [int]. *)
Definition cluster_readable s (c : Z) : Prop :=
  range_good (dev s) (cluster_pos (priv s) c) (cluster_bytes (priv s)) /\
  cluster_pos (priv s) c + cluster_bytes (priv s) <= INT_MAX.

(** The first [n + 1] clusters of the chain can be read. *)
Definition data_readable s (n c : Z) : Prop :=
  chain_readable s n c /\
  forall k, 0 <= k <= n -> cluster_readable s (nth_cluster (im s) (priv s) (Z.to_nat k) c).

Lemma cluster_readable_reads s s' c : reads s s' -> cluster_readable s c -> cluster_readable s' c.
Proof.
  intros R [Hg Hi]. pose proof (rd_volume _ _ R) as V. unfold cluster_readable.
  rewrite (cluster_pos_same _ _ _ V), (cluster_bytes_same _ _ V). split; [|done].
  intros k Hk. by apply (rd_good _ _ R), Hg.
Qed.

(** The rest of the chain, from the second cluster on, in a later state. *)
Lemma data_readable_step s s' n c :
  reads s s' -> 0 <= n -> fat16_valid_cluster (priv s) c = true ->
  data_readable s (n + 1) c -> data_readable s' n (fat_entry (im s) (priv s) c).
Proof.
  intros R Hn Hc [[T C] Dg]. split; [split|].
  - by eapply reads_table_good.
  - eapply chain_valid_reads; [done|]. by apply chain_valid_step.
  - intros k Hk. rewrite (nth_cluster_img _ _ _ _ R).
    apply (cluster_readable_reads s); [done|]. specialize (Dg (k + 1) ltac:(lia)).
    by replace (Z.to_nat (k + 1)) with (S (Z.to_nat k)) in Dg by lia.
Qed.

(** The bytes read in one round. *)
Lemma read_round s current within part :
  geometry (priv s) -> fat16_valid_cluster (priv s) current = true ->
  0 <= within -> 0 <= part -> within + part <= cluster_bytes (priv s) ->
  u64 (u64 (fat16_cluster_to_sector (priv s) current) * RORTHOX_SECTOR_SIZE + within)
    = cluster_pos (priv s) current + within /\
  slice (im s) (cluster_pos (priv s) current + within) part =
  slice (chain_byte (im s) (priv s) current) within part /\
  0 <= cluster_pos (priv s) current.
Proof.
  intros G Hc Hw Hp Hb. pose proof (valid_range _ _ Hc) as Hr.
  destruct (cluster_to_sector_eq (priv s) current G ltac:(lia)) as [Hs Hn]. specialize (Hn ltac:(lia)).
  pose proof (geo_spc _ G). unfold cluster_bytes, RORTHOX_SECTOR_SIZE in Hb. split; [|split; [|lia]].
  - unfold RORTHOX_SECTOR_SIZE. rewrite (u64_small (fat16_cluster_to_sector _ _)) by lia. rewrite u64_small by lia. lia.
  - unfold slice. apply list_fmap_ext. intros i x Hx. apply lookup_seqZ in Hx as [-> Hx].
    rewrite chain_byte_first; [f_equal; lia|]. unfold cluster_bytes, RORTHOX_SECTOR_SIZE. lia.
Qed.

(** The last cluster, counted from the current one, that a read of [total] bytes touches. *)
Definition last_cluster (p : fat_private) (within total : Z) : Z := (within + total - 1) / cluster_bytes p.

Lemma last_cluster_same p q w t : same_volume p q -> last_cluster q w t = last_cluster p w t.
Proof. intros V. unfold last_cluster. by rewrite (cluster_bytes_same _ _ V). Qed.

Lemma chain_byte_reads s s' c i : reads s s' ->
  chain_byte (im s') (priv s') c i = chain_byte (im s) (priv s) c i.
Proof.
  intros R. unfold chain_byte. rewrite (rd_img _ _ R), (nth_cluster_img _ _ _ _ R).
  by rewrite (cluster_pos_same _ _ _ (rd_volume _ _ R)), (cluster_bytes_same _ _ (rd_volume _ _ R)).
Qed.

Lemma last_cluster_step p within total :
  0 < cluster_bytes p -> 0 <= within < cluster_bytes p -> cluster_bytes p - within < total ->
  last_cluster p within total = last_cluster p 0 (total - (cluster_bytes p - within)) + 1 /\
  0 <= last_cluster p 0 (total - (cluster_bytes p - within)).
Proof.
  intros Hb Hw Ht. unfold last_cluster. set (b := cluster_bytes p) in *. split.
  - replace (within + total - 1) with (0 + (total - (b - within)) - 1 + 1 * b) by lia.
    by rewrite Z.div_add by lia.
  - apply Z.div_pos; lia.
Qed.

Lemma last_cluster_small p within total :
  0 <= within -> 0 < total -> within + total <= cluster_bytes p -> last_cluster p within total = 0.
Proof. intros. unfold last_cluster. apply Z.div_small. lia. Qed.

Lemma range_good_sub d w n w' n' :
  range_good d w n -> w <= w' -> w' + n' <= w + n -> range_good d w' n'.
Proof.
  intros Hg Hw Hn k Hk. apply Hg.
  pose proof (Z.div_le_mono w w' 512). pose proof (Z.div_le_mono (w' + n' - 1) (w + n - 1) 512). lia.
Qed.

Lemma read_internal_loop_done fuel c w t out s :
  read_internal_loop fuel c w t 0 out s = (Ok out, s).
Proof. by destruct fuel. Qed.

Lemma read_internal_loop_spec fuel : forall current within traversed total out s r s',
  geometry (priv s) -> fat16_valid_cluster (priv s) current = true ->
  0 <= within < cluster_bytes (priv s) -> 0 < total <= Z.of_nat fuel ->
  read_internal_loop fuel current within traversed total out s = (r, s') ->
  let n := last_cluster (priv s) within total in
  reads s s' /\
  match r with
  | Ok o => o = out ++ slice (chain_byte (im s) (priv s) current) within total /\
            chain_valid (im s) (priv s) n current
  | Err e => e < 0 /\ ~ (data_readable s n current /\
                         traversed + n <= fat16_cluster_limit (priv s) - 1)
  end.
Proof.
  induction fuel as [|fuel IH]; intros current within traversed total out s r s' G Hc Hw Ht E n; [lia|].
  cbn [read_internal_loop] in E. rewrite (proj2 (Z.ltb_lt 0 total)) in E by lia.
  rewrite io_gets, io_fail_if in E.
  set (b := cluster_bytes (priv s)) in *.
  set (part := if total <? b - within then total else b - within) in E.
  assert (Hpart : 0 < part <= total /\ within + part <= b /\ (part < total -> part = b - within))
    by (subst part; case_Zb; lia).
  destruct (read_round s current within part G Hc) as (Epos & Eslice & Hcp); [lia|lia|unfold b in *; lia|].
  rewrite Epos in E. set (cp := cluster_pos (priv s) current) in *.
  assert (Hn0 : 0 <= n) by (apply Z.div_pos; lia).
  assert (Hcr : data_readable s n current -> range_good (dev s) (cp + within) part /\ cp + within + part <= INT_MAX).
  { intros [_ Hd]. destruct (Hd 0 ltac:(lia)) as [Hg Hi]. simpl in Hg, Hi. fold cp b in Hg, Hi.
    split; [|lia]. eapply range_good_sub; [done|lia..]. }
  destruct (_ || _) eqn:Hbound.
  { injection E as <- <-. split; [done|]. split; [unfold EIO; lia|]. intros [Hd _].
    apply Hcr in Hd as [_ Hd]. rewrite orb_true_iff, !Z.ltb_lt in Hbound. lia. }
  rewrite orb_false_iff, !Z.ltb_ge in Hbound.
  apply io_bind_inv in E as [(e & E & ->)|(bs & s1 & E & E1)].
  { apply stream_read_at_spec in E as (R & He & Hbad); [|apply cluster_lens].
    split; [done|]. split; [done|]. intros [Hd _]. apply Hcr in Hd as [Hg Hi].
    apply Hbad; [unfold in_int; lia|done]. }
  apply stream_read_at_spec in E as (R & _ & ->); [|apply cluster_lens]. rewrite Eslice in E1.
  pose proof (rd_volume _ _ R) as V.
  destruct (Z.eqb_spec (total - part) 0) as [Hz|Hz]; cbn [negb] in E1.
  { rewrite Hz, read_internal_loop_done in E1. injection E1 as <- <-. split; [done|].
    assert (Htp : part = total) by lia. split; [by rewrite Htp|].
    intros k Hk. unfold n in Hk. rewrite last_cluster_small in Hk by (unfold b in *; lia).
    by assert (k = 0) as -> by lia. }
  destruct (last_cluster_step (priv s) within total) as [Hlast Hlast0]; [unfold b in *; lia..|].
  fold n in Hlast. fold b in Hlast, Hlast0. replace (b - within) with part in Hlast, Hlast0 by lia.
  pose proof (valid_range _ _ Hc) as Hcrange.
  apply io_bind_inv in E1 as [(e & E & ->)|(next & s2 & E & E2)].
  { apply get_fat_entry_spec in E as (R1 & He & Hbad); [|by eapply geometry_same|lia].
    split; [by etrans|]. split; [done|]. intros [[[T _] _] _].
    apply Hbad; [|by eapply reads_table_good]. rewrite (sv_header _ _ V). by apply valid_in_table. }
  apply get_fat_entry_spec in E as (R1 & Hv & Hvr); [|by eapply geometry_same|lia].
  rewrite (fat_entry_reads _ _ _ R) in Hv. rewrite io_gets, io_fail_if in E2.
  assert (R2 : reads s s2) by by etrans. pose proof (rd_volume _ _ R2) as V2.
  rewrite (valid_same _ _ _ V2), (limit_same _ _ V2) in E2.
  destruct (negb _ || _) eqn:Hbad.
  { injection E2 as <- <-. split; [done|]. split; [unfold EIO; lia|]. intros [[[_ C] _] Hlim].
    specialize (C 1 ltac:(lia)). simpl in C. rewrite <- Hv in C. rewrite C in Hbad. simpl in Hbad.
    apply Z.ltb_lt in Hbad. lia. }
  apply orb_false_iff in Hbad as [Hnext%negb_false_iff Hlim%Z.ltb_ge].
  apply IH in E2 as (R3 & Hr); [|by eapply geometry_same|by rewrite (valid_same _ _ _ V2)
    |rewrite (cluster_bytes_same _ _ V2); unfold b in *; lia|lia].
  split; [by etrans|]. rewrite (last_cluster_same _ _ _ _ V2) in Hr. destruct r as [o|e].
  - destruct Hr as [-> Hch]. split.
    + rewrite <- app_assoc. f_equal.
      rewrite (slice_ext (chain_byte (im s2) (priv s2) next) (chain_byte (im s) (priv s) next))
        by (intros; apply (chain_byte_reads _ _ _ _ R2)).
      rewrite Hv, <- chain_slice_next by (unfold b in *; lia).
      replace total with (part + (total - part)) at 2 by lia. rewrite slice_app by lia.
      f_equal. f_equal. unfold b in *. lia.
    + rewrite Hlast. apply chain_valid_step; [done|done|]. rewrite <- Hv.
      intros k Hk. specialize (Hch k Hk). by rewrite (nth_cluster_img _ _ _ _ R2), (valid_same _ _ _ V2) in Hch.
  - destruct Hr as [He Hr]. split; [done|]. intros [Hd Hl]. apply Hr. rewrite (limit_same _ _ V2).
    split; [|lia]. rewrite Hv. apply (data_readable_step s); [done|done|done|]. by rewrite <- Hlast.
Qed.

Lemma nth_cluster_add f p n k c : nth_cluster f p (n + k) c = nth_cluster f p k (nth_cluster f p n c).
Proof. revert c. induction n as [|n IH]; intros c; simpl; [done|]. by rewrite IH. Qed.

Lemma chain_byte_skip f p n c i :
  0 < cluster_bytes p -> 0 <= n -> 0 <= i ->
  chain_byte f p (nth_cluster f p (Z.to_nat n) c) i = chain_byte f p c (n * cluster_bytes p + i).
Proof.
  intros Hb Hn Hi. unfold chain_byte. set (b := cluster_bytes p) in *.
  replace (n * b + i) with (i + n * b) by lia. rewrite Z.div_add, Z_mod_plus_full by lia.
  assert (0 <= i / b) by (apply Z.div_pos; lia).
  replace (Z.to_nat (i / b + n)) with (Z.to_nat n + Z.to_nat (i / b))%nat by lia.
  by rewrite nth_cluster_add.
Qed.

(** What [fat16_read_internal] needs to succeed. *)
Definition file_readable s (start offset total : Z) : Prop :=
  0 <= offset /\ 0 < total /\ offset + total <= INT_MAX /\ 0 < cluster_bytes (priv s) /\
  let n := last_cluster (priv s) offset total in
  data_readable s n start /\ n < fat16_cluster_limit (priv s) - 1.

Lemma data_readable_skip s s' n k c :
  reads s s' -> 0 <= n -> 0 <= k -> data_readable s (n + k) c ->
  data_readable s' k (nth_cluster (im s) (priv s) (Z.to_nat n) c).
Proof.
  intros R Hn Hk [[T C] Dg]. assert (Hadd : forall j, 0 <= j -> nth_cluster (im s') (priv s') (Z.to_nat j)
    (nth_cluster (im s) (priv s) (Z.to_nat n) c) = nth_cluster (im s) (priv s) (Z.to_nat (n + j)) c).
  { intros j Hj. rewrite (nth_cluster_img _ _ _ _ R), <- nth_cluster_add. f_equal. lia. }
  split; [split|].
  - by eapply reads_table_good.
  - intros j Hj. rewrite Hadd, (valid_same _ _ _ (rd_volume _ _ R)) by lia. apply C. lia.
  - intros j Hj. rewrite Hadd by lia. apply (cluster_readable_reads s); [done|]. apply Dg. lia.
Qed.

Lemma chain_readable_le s n k c : k <= n -> chain_readable s n c -> chain_readable s k c.
Proof. intros Hk [T C]. split; [done|]. intros j Hj. apply C. lia. Qed.

Lemma get_cluster_for_offset_spec start offset s r s' :
  geometry (priv s) -> fat16_get_cluster_for_offset start offset s = (r, s') ->
  reads s s' /\
  match r with
  | Ok c => let n := offset / cluster_bytes (priv s) in
      0 <= offset /\ 0 < cluster_bytes (priv s) /\ n < fat16_cluster_limit (priv s) - 1 /\
      c = nth_cluster (im s) (priv s) (Z.to_nat n) start /\ chain_valid (im s) (priv s) n start
  | Err e => e < 0 /\ (0 <= offset -> 0 < cluster_bytes (priv s) ->
      offset / cluster_bytes (priv s) < fat16_cluster_limit (priv s) - 1 ->
      ~ chain_readable s (offset / cluster_bytes (priv s)) start)
  end.
Proof.
  intros G E. unfold fat16_get_cluster_for_offset in E. rewrite io_gets, io_fail_if in E.
  pose proof (geo_spc _ G) as Hspc.
  assert (Hb : 0 <= cluster_bytes (priv s)) by (unfold cluster_bytes, RORTHOX_SECTOR_SIZE; lia).
  destruct ((offset <? 0) || _ || _) eqn:Hchk.
  { injection E as <- <-. split; [done|]. split; [unfold EIO; lia|]. intros Ho Hcb Hn [_ C].
    assert (0 <= offset / cluster_bytes (priv s)) by (apply Z.div_pos; lia).
    specialize (C 0 ltac:(lia)). simpl in C. rewrite C in Hchk. simpl in Hchk.
    rewrite orb_false_r, orb_true_iff, Z.ltb_lt, Z.eqb_eq in Hchk. lia. }
  rewrite !orb_false_iff, negb_false_iff, Z.ltb_ge, Z.eqb_neq in Hchk. destruct Hchk as [[Ho Hb0] Hv].
  assert (0 <= offset / cluster_bytes (priv s)) by (apply Z.div_pos; lia).
  rewrite io_fail_if in E. destruct (Z.leb_spec (fat16_cluster_limit (priv s) - 1) (offset / cluster_bytes (priv s))).
  { injection E as <- <-. split; [done|]. split; [unfold EIO; lia|]. lia. }
  apply cluster_walk_spec in E as (R & Hr); [|done..]. rewrite Z2Nat.id in Hr by done.
  split; [done|]. destruct r as [c|e]; [|split; [apply Hr|intros _ _ _; apply Hr]].
  destruct Hr as [-> Hr]. repeat split; (done || lia).
Qed.

Lemma read_internal_spec start offset total s r s' :
  geometry (priv s) -> fat16_read_internal start offset total s = (r, s') ->
  reads s s' /\
  match r with
  | Ok out => out = slice (chain_byte (im s) (priv s) start) offset total /\ 0 <= offset /\ 0 <= total
  | Err e => e < 0 /\ ~ file_readable s start offset total
  end.
Proof.
  intros G E. unfold fat16_read_internal in E. rewrite io_gets, io_fail_if in E.
  set (b := cluster_bytes (priv s)) in *. destruct (_ || _ || _ || _) eqn:Hchk.
  { injection E as <- <-. split; [done|]. split; [unfold EIO; lia|]. intros (? & ? & ? & Hb & _).
    rewrite !orb_true_iff, !Z.ltb_lt, Z.eqb_eq in Hchk. fold b in Hb. lia. }
  rewrite !orb_false_iff, !Z.ltb_ge, Z.eqb_neq in Hchk. destruct Hchk as [[[Ht Ho] Hi] Hb0].
  assert (Hlast : 0 < total -> 0 < b ->
    last_cluster (priv s) offset total = offset / b + last_cluster (priv s) (offset mod b) total /\
    0 <= last_cluster (priv s) (offset mod b) total).
  { intros Htp Hb. unfold last_cluster. fold b. pose proof (Z.div_mod offset b) as Hdm.
    pose proof (Z.mod_pos_bound offset b Hb). split; [|apply Z.div_pos; lia].
    replace (offset + total - 1) with (offset mod b + total - 1 + offset / b * b) by lia.
    rewrite Z.div_add by lia. lia. }
  apply io_bind_inv in E as [(e & E & ->)|(c & s1 & E & E1)].
  { apply get_cluster_for_offset_spec in E as (R & He & Hbad); [|done]. split; [done|]. split; [done|].
    intros (_ & Htp & _ & Hb & [Hd Hn]). fold b in Hb, Hbad. destruct (Hlast Htp Hb) as [Hl0 Hl1].
    apply Hbad; [done|done|lia|]. eapply chain_readable_le; [|apply Hd]. lia. }
  apply get_cluster_for_offset_spec in E as (R & _ & Hb & Hn & -> & Hc); [|done]. fold b in Hb, Hn, Hc.
  pose proof (rd_volume _ _ R) as V. assert (0 <= offset / b) by (apply Z.div_pos; lia).
  pose proof (Z.mod_pos_bound offset b Hb) as Hmod. pose proof (Z.div_mod offset b) as Hdm.
  destruct (Z.eq_dec total 0) as [->|Htz].
  { rewrite read_internal_loop_done in E1. injection E1 as <- <-. done. }
  apply read_internal_loop_spec in E1 as (R1 & Hr); [|by eapply geometry_same| |
    by rewrite (cluster_bytes_same _ _ V)|lia].
  2: { rewrite (valid_same _ _ _ V). apply Hc. fold b. lia. }
  split; [by etrans|]. rewrite (last_cluster_same _ _ _ _ V) in Hr. destruct r as [out|e].
  - destruct Hr as [-> _]. split; [|lia]. simpl. unfold slice. apply list_fmap_ext. intros i x Hx.
    apply lookup_seqZ in Hx as [-> Hx]. rewrite (chain_byte_reads _ _ _ _ R), chain_byte_skip by (fold b; lia).
    f_equal. fold b. lia.
  - destruct Hr as [He Hr]. split; [done|]. intros (_ & Htp & _ & _ & [Hd Hlim]).
    destruct (Hlast Htp Hb) as [Hl0 Hl1]. apply Hr. rewrite (limit_same _ _ V). split; [|lia].
    apply (data_readable_skip s); [done|fold b; lia|done|]. fold b. by rewrite <- Hl0.
Qed.
End reading.
