(* ===== verification/FatWrite.v ===== *)
(** * FAT16: changing the volume (kernel/fs/fat/fat16.c)

    Preparing a volume for writing, writes through the directory stream, table entries, directory
    entries, collecting, reclaiming and allocating clusters, and writing file data. *)

From stdpp Require Import base numbers list gmap.
From Stdlib Require Import ZArith Lia.
From S2P Require Import Prelude Alloc Memory Effects Disk Fat.

#[local] Set Default Goal Selector "!".

Definition FILE_MODE_READ : Z := 0.
Definition FILE_MODE_WRITE : Z := 1.
Definition FILE_MODE_APPEND : Z := 2.
Definition FAT_FILE_ARCHIVED : Z := 0x20.

Section fat_write.
Context {D H : Type} `{BlockDevice D} `{Allocator H}.
Abbreviation fsio := (io (fs D H)).

Definition with_dev (d : D) (s : fs D H) : fs D H := Fs d (heap s) (priv s).
Definition with_heap (h : H) (s : fs D H) : fs D H := Fs (dev s) h (priv s).
Definition with_priv (p : fat_private) (s : fs D H) : fs D H := Fs (dev s) (heap s) p.

(** [kzalloc] of an object whose contents are a value of the model: only the address. *)
Definition zalloc (size : Z) : fsio Z := fun s =>
  let '(p, h) := kmalloc (heap s) size in (Ok p, with_heap h s).
Definition free (p : Z) (s : fs D H) : fs D H := with_heap (kfree (heap s) p) s.

Definition read_block (lba : Z) : fsio (list Z) := fun s =>
  let '(res, buf, d) := disk_read_block (dev s) lba 1 in
  if res <? 0 then (Err res, with_dev d s) else (Ok buf, with_dev d s).

(** ** Preparing *)

(** The comparison of the two tables, [n] sectors from sector [i] on. *)
Fixpoint compare_tables (n : nat) (i : Z) : fsio unit :=
  match n with
  | O => mret tt
  | S n =>
    p ← gets priv;
    first ← read_block (reserved_sectors (header p) + i);
    second ← read_block (reserved_sectors (header p) + sectors_per_fat (header p) + i);
    _ ← fail_if (bool_decide (first <> second)) EIO;
    compare_tables n (i + 1)
  end.

Definition write_capacity : fsio Z := fun s =>
  let '(res, sectors, d) := disk_write_capacity (dev s) in
  if res <? 0 then (Err res, with_dev d s) else (Ok sectors, with_dev d s).

Definition fat16_prepare_write : fsio unit :=
  p ← gets priv;
  if mutation_disabled p then fail EIO
  else if write_ready p then mret tt
  else
    capacity ← write_capacity;
    let h := header p in
    let root := reserved_sectors h + fat_copies h * sectors_per_fat h in
    let data := root + (u32 (root_dir_entries h * 32) + 511) / 512 in
    let limit := fat16_cluster_limit p in
    _ ← fail_if (negb (byte_per_secotr h =? 512) || (sectors_per_cluster h =? 0) ||
                 has_flag (sectors_per_cluster h) (sectors_per_cluster h - 1) ||
                 negb (fat_copies h =? 2) || (reserved_sectors h =? 0) || (sectors_per_fat h =? 0) ||
                 (root_dir_entries h =? 0) || negb (hidden_sectors h =? 0) || (limit =? 0) ||
                 negb (data =? u64 (ending_sector_pos (root_directory p))) || (capacity <? data) ||
                 (INT_MAX <? data * 512)) EIO;
    let sectors := if INT_MAX / 512 <? capacity then INT_MAX / 512 else capacity in
    let sectors := if 0x10000000 <? sectors then 0x10000000 else sectors in
    let available := if data <? sectors then (sectors - data) / sectors_per_cluster h else 0 in
    _ ← modify (fun s => with_priv (with_max_writable
           (if available + 1 <? limit then available + 1 else limit) (priv s)) s);
    _ ← compare_tables (Z.to_nat (sectors_per_fat h)) 0;
    modify (fun s => with_priv (with_write_ready true (priv s)) s).

(** ** Writing *)

Definition disable_mutation (s : fs D H) : fs D H :=
  with_priv (with_mutation_disabled true (priv s)) s.

Definition fat16_write_at (where_ : Z) (data : list Z) : fsio unit := fun s =>
  let '(res, q) := diskstreamer_seek (directory_stream (priv s)) where_ in
  let s := with_priv (with_directory_stream q (priv s)) s in
  let '(res, s) :=
    if res =? 0 then
      let '(res, q, d) := diskstreamer_write q data (Z.of_nat (length data)) (dev s) in
      (res, Fs d (heap s) (with_directory_stream q (priv s)))
    else (res, s) in
  if res <? 0 then
    let s := if negb (res =? - EINVARG) || negb (directory_stream (priv s) =? where_)
             then disable_mutation s else s in
    (Err (- EIO), s)
  else (Ok tt, s).

Definition fat16_flush : fsio unit := fun s =>
  let '(res, d) := disk_flush (dev s) in
  if res <? 0 then (Err (- EIO), disable_mutation (with_dev d s)) else (Ok tt, with_dev d s).

Definition fat16_set_entry (copy cluster value : Z) : fsio unit :=
  p ← gets priv;
  let h := header p in
  let pos := i32 ((reserved_sectors h + copy * sectors_per_fat h) * RORTHOX_SECTOR_SIZE + cluster * 2) in
  fat16_write_at pos (to_le16 value).

(** The in-memory copies of a directory entry follow the disk. *)
Definition publish_root (pos : Z) (it : fat_directory_item) (p : fat_private) : fat_private :=
  let root := root_directory p in
  let start := i32 (sector_pos root * RORTHOX_SECTOR_SIZE) in
  let offset := pos - start in
  if (0 <=? offset) && (offset <? root_dir_entries (header p) * 32) && (offset mod 32 =? 0) then
    let slot := offset / 32 in
    with_root (FatDirectory (item_ptr root) (<[Z.to_nat slot := it]> (item root)) (first_cluster root)
      (if total root <=? slot then slot + 1 else total root) (sector_pos root) (ending_sector_pos root)) p
  else p.

Definition publish_desc (pos : Z) (it : fat_directory_item) (d : fat_file_descriptor)
  : fat_file_descriptor :=
  match body (desc_item d) with
  | FAT_ITEM_TYPE_FILE ptr _ =>
    if entry_pos (desc_item d) =? pos
    then FatFd (FatItemOf (item_addr (desc_item d)) (FAT_ITEM_TYPE_FILE ptr it) (entry_pos (desc_item d)))
           (Fat.pos d) (mode d)
    else d
  | FAT_ITEM_TYPE_DIRECTORY _ _ => d
  end.

Fixpoint publish_descs (l : list Z) (pos : Z) (it : fat_directory_item)
    (st : gmap Z fat_file_descriptor) : gmap Z fat_file_descriptor :=
  match l with
  | [] => st
  | a :: l => publish_descs l pos it (alter (publish_desc pos it) a st)
  end.

Definition fat16_publish (pos : Z) (it : fat_directory_item) (p : fat_private) : fat_private :=
  let p := publish_root pos it p in
  with_descriptors (descriptors p) (publish_descs (descriptors p) pos it (desc_store p)) p.

Definition fat16_commit_item (pos : Z) (it : fat_directory_item) : fsio unit :=
  _ ← fat16_write_at pos (encode_item it);
  _ ← fat16_flush;
  modify (fun s => with_priv (fat16_publish pos it (priv s)) s).

Definition fat16_modified (it : fat_directory_item) : fat_directory_item :=
  FatItem (filename it) (ext it) (Z.lor (attribute it) FAT_FILE_ARCHIVED) (reserved it)
    (creation_time_tenths_of_a_sec it) (creation_time it) (creation_date it) 0x0021
    (high_16_bits_first_cluster it) 0 0x0021 (low_16_bits_first_cluster it) (filesize it).

(** [size] bytes in clusters. *)
Definition clusters_needed (size bytes : Z) : Z :=
  size / bytes + (if negb (size mod bytes =? 0) then 1 else 0).

(** ** Collecting a chain *)

(** The bitmap of the clusters seen, a byte array. *)
Definition seen_test (seen : list Z) (c : Z) : bool :=
  has_flag (byte_at seen (Z.to_nat (c / 8))) (Z.shiftl 1 (c mod 8)).
Definition seen_mark (seen : list Z) (c : Z) : list Z :=
  <[Z.to_nat (c / 8) := u8 (Z.lor (byte_at seen (Z.to_nat (c / 8))) (Z.shiftl 1 (c mod 8)))]> seen.

(** The loop. A round adds a cluster to the chain, which holds at most [capacity]: one round more is
    enough fuel. *)
Fixpoint collect_loop (fuel : nat) (capacity current : Z) (chain seen : list Z) : fsio (list Z) :=
  match fuel with
  | O => diverge
  | S fuel =>
    if current =? 0 then mret chain
    else
      p ← gets priv;
      _ ← fail_if (negb (fat16_valid_cluster p current) || (max_writable p <? current) ||
                   (capacity <=? Z.of_nat (length chain)) || seen_test seen current) EIO;
      let seen := seen_mark seen current in
      let chain := chain ++ [current] in
      next ← fat16_get_fat_entry current;
      if RORTHOX_FAT16_EOC_START <=? next then mret chain
      else
        _ ← fail_if (negb (fat16_valid_cluster p next)) EIO;
        collect_loop fuel capacity next chain seen
  end.

(** The address of the chain's buffer and the chain. *)
Definition fat16_collect_chain (it : fat_directory_item) : fsio (Z * list Z) :=
  p ← gets priv;
  _ ← fail_if (negb (high_16_bits_first_cluster it =? 0)) EIO;
  _ ← fail_if (INT_MAX <? filesize it) EFBIG;
  let capacity := max_writable p - 1 in
  chain ← (if 0 <? capacity
           then c ← zalloc (capacity * 2 + (max_writable p + 8) / 8); _ ← fail_if (c =? 0) ENOMEM; mret c
           else mret 0);
  on_error
    (l ← collect_loop (S (Z.to_nat capacity)) capacity (low_16_bits_first_cluster it) []
           (replicate (Z.to_nat ((max_writable p + 8) / 8)) 0);
     let bytes := cluster_bytes p in
     _ ← fail_if (Z.of_nat (length l) <? clusters_needed (filesize it) bytes) EIO;
     mret (chain, l))
    (free chain).

Definition fat16_check_file_chain (it : fat_directory_item) : fsio unit :=
  p ← gets priv;
  '(chain, l) ← fat16_collect_chain it;
  finally
    (fail_if (negb (Z.of_nat (length l) =? clusters_needed (filesize it) (cluster_bytes p))) EIO)
    (free chain).

(** ** Truncating *)

Fixpoint set_entries (copy : Z) (l : list Z) (value : Z) : fsio unit :=
  match l with
  | [] => mret tt
  | c :: l => _ ← fat16_set_entry copy c value; set_entries copy l value
  end.

Definition empty_item (it : fat_directory_item) : fat_directory_item :=
  fat16_modified (FatItem (filename it) (ext it) (attribute it) (reserved it)
    (creation_time_tenths_of_a_sec it) (creation_time it) (creation_date it) (last_access it)
    (high_16_bits_first_cluster it) (last_mod_time it) (last_mod_date it) 0 0).

(** Returns the new contents of the caller's copy of the entry. *)
Definition fat16_truncate (it : fat_directory_item) (entry_pos : Z) : fsio fat_directory_item :=
  '(chain, l) ← fat16_collect_chain it;
  finally
    (_ ← fat16_commit_item entry_pos (empty_item it);
     if bool_decide (l = []) then mret (empty_item it)
     else
       _ ← set_entries 0 l 0;
       _ ← fat16_flush;
       _ ← set_entries 1 l 0;
       _ ← fat16_flush;
       mret (empty_item it))
    (free chain).

(** ** Allocating *)

(** The scan of both tables for free clusters, [n] clusters from [cluster] on; [first] and [second]
    hold sector [loaded] of the tables. *)
Fixpoint allocate_loop (n : nat) (cluster loaded needed : Z) (first second chain : list Z)
  : fsio (list Z) :=
  match n with
  | O => mret chain
  | S n =>
    if Z.of_nat (length chain) <? needed then
      p ← gets priv;
      let sector := cluster / 256 in
      '(first, second) ←
        (if negb (sector =? loaded) then
           a ← read_block (reserved_sectors (header p) + sector);
           b ← read_block (reserved_sectors (header p) + sectors_per_fat (header p) + sector);
           mret (a, b)
         else mret (first, second));
      let i := Z.to_nat (2 * (cluster mod 256)) in
      let chain := if (le16 first i =? 0) && (le16 second i =? 0) then chain ++ [cluster] else chain in
      allocate_loop n (cluster + 1) sector needed first second chain
    else mret chain
  end.

Definition fat16_allocate (chain : list Z) (needed : Z) : fsio (list Z) :=
  p ← gets priv;
  _ ← fail_if (max_writable p - 1 <? needed) ENOSPC;
  chain ← allocate_loop (Z.to_nat (max_writable p - 1)) 2 (-1) needed [] [] chain;
  _ ← fail_if (negb (Z.of_nat (length chain) =? needed)) ENOSPC;
  mret chain.

(** ** Writing file data *)

(** Zeroes [n] sectors from [pos] on. *)
Fixpoint zero_sectors (n : nat) (pos : Z) : fsio unit :=
  match n with
  | O => mret tt
  | S n => _ ← fat16_write_at pos (replicate (Z.to_nat 512) 0); zero_sectors n (pos + 512)
  end.

Fixpoint zero_clusters (l : list Z) : fsio unit :=
  match l with
  | [] => mret tt
  | c :: l =>
    p ← gets priv;
    _ ← zero_sectors (Z.to_nat (cluster_bytes p / 512))
          (i32 (fat16_cluster_to_sector p c * RORTHOX_SECTOR_SIZE));
    zero_clusters l
  end.

(** The loop that writes the data along the chain; each round writes at least one byte, so the number
    of bytes is enough fuel. *)
Fixpoint write_data_loop (fuel : nat) (chain : list Z) (position left : Z) (inp : list Z) : fsio unit :=
  match fuel with
  | O => mret tt
  | S fuel =>
    if negb (left =? 0) then
      p ← gets priv;
      let bytes := cluster_bytes p in
      let offset := position mod bytes in
      let part := bytes - offset in
      let part := if left <? part then left else part in
      let c := default 0 (chain !! Z.to_nat (position / bytes)) in
      let pos := i32 (fat16_cluster_to_sector p c * RORTHOX_SECTOR_SIZE + offset) in
      _ ← fat16_write_at pos (take (Z.to_nat part) inp);
      write_data_loop fuel chain (position + part) (left - part) (drop (Z.to_nat part) inp)
    else mret tt
  end.

(** Links each cluster of [l] to the next one and marks the last as the end. *)
Fixpoint link_chain (copy : Z) (l : list Z) : fsio unit :=
  match l with
  | [] => mret tt
  | c :: l =>
    _ ← fat16_set_entry copy c (match l with [] => 0xFFFF | next :: _ => next end);
    link_chain copy l
  end.

Definition written_item (it : fat_directory_item) (cluster size : Z) : fat_directory_item :=
  fat16_modified (FatItem (filename it) (ext it) (attribute it) (reserved it)
    (creation_time_tenths_of_a_sec it) (creation_time it) (creation_date it) (last_access it)
    (high_16_bits_first_cluster it) (last_mod_time it) (last_mod_date it) (u16 cluster) size).

(** Attaches the new clusters [ext] behind the old ones. *)
Definition attach_chain (old ext : list Z) (needed : Z) : fsio unit :=
  if Z.of_nat (length old) <? needed then
    _ ← link_chain 0 ext;
    _ ← fat16_flush;
    _ ← link_chain 1 ext;
    _ ← fat16_flush;
    match last old with
    | None => mret tt
    | Some tail =>
      _ ← fat16_set_entry 0 tail (default 0 (head ext));
      _ ← fat16_flush;
      _ ← fat16_set_entry 1 tail (default 0 (head ext));
      fat16_flush
    end
  else mret tt.

(** The part of [fat16_write_bytes] after the chain has been collected. *)
Definition write_chain (it : fat_directory_item) (entry_pos start count : Z) (inp old : list Z)
  : fsio unit :=
  p ← gets priv;
  let bytes := cluster_bytes p in
  let fin := start + count in
  let size := if filesize it <? fin then fin else filesize it in
  let needed := clusters_needed size bytes in
  _ ← fail_if (negb (Z.of_nat (length old) =? clusters_needed (filesize it) bytes)) EIO;
  chain ← fat16_allocate old needed;
  let ext := drop (length old) chain in
  _ ← zero_clusters ext;
  _ ← write_data_loop (Z.to_nat count) chain start count inp;
  _ ← fat16_flush;
  _ ← attach_chain old ext needed;
  fat16_commit_item entry_pos (written_item it (default 0 (head chain)) size).

Definition set_desc_pos (a x : Z) (s : fs D H) : fs D H :=
  let p := priv s in
  with_priv (with_descriptors (descriptors p)
    (alter (fun d => FatFd (desc_item d) x (mode d)) a (desc_store p)) p) s.

(** [desc] is the address of the open descriptor, [inp] the [count] bytes to write. The two branches
    that end in [EINVARG] are not reached from the code: the caller passes a descriptor [fat16_open]
    returned, and a descriptor of a directory is never open for writing. *)
Definition fat16_write_bytes (desc : Z) (inp : list Z) : fsio Z :=
  p ← gets priv;
  match desc_store p !! desc with
  | None => fail EINVARG
  | Some d =>
    let count := Z.of_nat (length inp) in
    _ ← fail_if (mode d =? FILE_MODE_READ) EBADF;
    if count =? 0 then mret 0
    else
      _ ← fat16_prepare_write;
      match body (desc_item d) with
      | FAT_ITEM_TYPE_DIRECTORY _ _ => fail EINVARG
      | FAT_ITEM_TYPE_FILE _ it =>
        let start := if mode d =? FILE_MODE_APPEND then filesize it else pos d in
        _ ← fail_if (filesize it <? start) EINVARG;
        _ ← fail_if ((INT_MAX <? start) || (INT_MAX - start <? count)) EFBIG;
        '(chain, old) ← fat16_collect_chain it;
        _ ← finally (write_chain it (entry_pos (desc_item d)) start count inp old) (free chain);
        _ ← modify (set_desc_pos desc (start + count));
        mret count
      end
  end.
End fat_write.

(** ** The bitmap *)

Lemma has_flag_bit x k : 0 <= k -> has_flag x (Z.shiftl 1 k) = Z.testbit x k.
Proof.
  intros Hk. unfold has_flag. rewrite Z.shiftl_1_l.
  destruct (Z.eqb_spec (Z.land x (2 ^ k)) 0) as [E|E]; simpl.
  - assert (Hb : Z.testbit (Z.land x (2 ^ k)) k = false) by (rewrite E; apply Z.bits_0).
    rewrite Z.land_spec, Z.pow2_bits_true, andb_true_r in Hb by done. done.
  - destruct (Z.testbit x k) eqn:Hb; [done|]. destruct E. apply Z.bits_inj'. intros n Hn.
    rewrite Z.land_spec, Z.pow2_bits_eqb, Z.bits_0 by done. destruct (Z.eqb_spec k n) as [<-|]; [|by rewrite andb_false_r].
    by rewrite Hb.
Qed.

Lemma seen_test_bit seen c : seen_test seen c = Z.testbit (byte_at seen (Z.to_nat (c / 8))) (c mod 8).
Proof. unfold seen_test. apply has_flag_bit. lia. Qed.

Lemma seen_mark_test seen c x :
  0 <= c -> 0 <= x -> c / 8 < Z.of_nat (length seen) ->
  seen_test (seen_mark seen c) x = (x =? c) || seen_test seen x.
Proof.
  intros Hc Hx Hlen. rewrite !seen_test_bit. unfold seen_mark, byte_at at 1.
  destruct (Z.eq_dec (x / 8) (c / 8)) as [E|E].
  - rewrite E, list_lookup_insert_eq by lia. simpl. unfold u8.
    rewrite Z.mod_pow2_bits_low, Z.lor_spec, Z.shiftl_1_l, Z.pow2_bits_eqb by lia.
    rewrite orb_comm. f_equal. destruct (Z.eqb_spec (c mod 8) (x mod 8)), (Z.eqb_spec x c); done || lia.
  - rewrite list_lookup_insert_ne by lia. rewrite (proj2 (Z.eqb_neq x c)) by congruence. done.
Qed.

Lemma seen_mark_length seen c : length (seen_mark seen c) = length seen.
Proof. apply length_insert. Qed.

Lemma seen_empty n c : seen_test (replicate n 0) c = false.
Proof.
  rewrite seen_test_bit. unfold byte_at.
  destruct (replicate n 0 !! Z.to_nat (c / 8)) eqn:E; simpl; [|apply Z.bits_0].
  apply lookup_replicate in E as [-> _]. apply Z.bits_0.
Qed.

(** ** Chains *)

(** [l] is the chain of clusters that starts with [first], up to its end mark. *)
Record is_chain (f : Z -> Z) (p : fat_private) (first : Z) (l : list Z) : Prop := IsChain {
  ch_nth k c : l !! k = Some c -> c = nth_cluster f p k first;
  ch_valid c : c ∈ l -> fat16_valid_cluster p c = true /\ c <= max_writable p;
  ch_nodup : NoDup l;
  ch_end : match last l with
           | None => first = 0
           | Some c => RORTHOX_FAT16_EOC_START <= fat_entry f p c
           end
}.

Section collecting.
Context {D H : Type} `{BlockDeviceLaws D} `{AllocatorLaws H}.
Implicit Types s : fs D H.
Abbreviation im s := (img (dev s)).

(** The loop's invariant: [chain] is the beginning of the chain, [seen] marks its clusters. *)
Record collect_inv (f : Z -> Z) (p : fat_private) (first : Z) (chain seen : list Z) : Prop := {
  ci_size : max_writable p / 8 < Z.of_nat (length seen);
  ci_seen c : 0 <= c <= max_writable p -> seen_test seen c = bool_decide (c ∈ chain);
  ci_nth k c : chain !! k = Some c -> c = nth_cluster f p k first;
  ci_valid c : c ∈ chain -> fat16_valid_cluster p c = true /\ c <= max_writable p;
  ci_nodup : NoDup chain
}.

Lemma collect_inv_step f p first chain seen :
  let c := nth_cluster f p (length chain) first in
  collect_inv f p first chain seen -> fat16_valid_cluster p c = true -> c <= max_writable p ->
  c ∉ chain -> collect_inv f p first (chain ++ [c]) (seen_mark seen c).
Proof.
  intros c I Hv Hm Hn. pose proof (valid_range _ _ Hv) as Hr.
  constructor.
  - rewrite seen_mark_length. apply I.
  - intros x Hx. pose proof (ci_size _ _ _ _ _ I).
    rewrite seen_mark_test, (ci_seen _ _ _ _ _ I) by lia.
    destruct (Z.eqb_spec x c) as [->|]; simpl; [by rewrite bool_decide_true by set_solver|].
    apply bool_decide_ext. set_solver.
  - intros k x [Hk|[Hge Hk]]%lookup_app_Some; [by apply (ci_nth _ _ _ _ _ I)|].
    apply list_lookup_singleton_Some in Hk as [Hk <-]. subst c. f_equal. lia.
  - intros x [Hx|Hx%list_elem_of_singleton]%elem_of_app; [by apply (ci_valid _ _ _ _ _ I)|by subst].
  - apply NoDup_app. split; [apply I|]. split; [|apply NoDup_singleton].
    intros x Hx ->%list_elem_of_singleton. done.
Qed.

Lemma collect_inv_reads s s' first chain seen :
  reads s s' -> collect_inv (im s) (priv s) first chain seen ->
  collect_inv (im s') (priv s') first chain seen.
Proof.
  intros R [C1 C2 C3 C4 C5]. pose proof (rd_volume _ _ R) as V.
  constructor; rewrite ?(sv_writable _ _ V); try done.
  - intros k c Hk. rewrite (nth_cluster_img _ _ _ _ R). by apply C3.
  - intros c Hc. rewrite (valid_same _ _ _ V). by apply C4.
Qed.

Lemma is_chain_reads s s' first l :
  reads s s' -> is_chain (im s') (priv s') first l -> is_chain (im s) (priv s) first l.
Proof.
  intros R [C1 C2 C3 C4]. pose proof (rd_volume _ _ R) as V. constructor; [| |done|].
  - intros k c Hk. rewrite <- (nth_cluster_img _ _ _ _ R). by apply C1.
  - intros c Hc. rewrite <- (valid_same _ _ _ V), <- (sv_writable _ _ V). by apply C2.
  - destruct (last l); [|done]. by rewrite (fat_entry_reads _ _ _ R) in C4.
Qed.

Lemma reads_is_chain s s' first l :
  reads s s' -> is_chain (im s) (priv s) first l -> is_chain (im s') (priv s') first l.
Proof.
  intros R [C1 C2 C3 C4]. pose proof (rd_volume _ _ R) as V. constructor; [| |done|].
  - intros k c Hk. rewrite (nth_cluster_img _ _ _ _ R). by apply C1.
  - intros c Hc. rewrite (valid_same _ _ _ V), (sv_writable _ _ V). by apply C2.
  - destruct (last l); [|done]. by rewrite (fat_entry_reads _ _ _ R).
Qed.

Lemma collect_loop_spec fuel : forall capacity chain seen s r s' first,
  let current := nth_cluster (im s) (priv s) (length chain) first in
  geometry (priv s) -> 0 <= current < 65536 -> (current = 0 -> chain = []) ->
  collect_inv (im s) (priv s) first chain seen ->
  Z.of_nat (length chain) <= Z.max 0 capacity < Z.of_nat (length chain + fuel) ->
  collect_loop fuel capacity current chain seen s = (r, s') ->
  reads s s' /\
  match r with
  | Ok l => is_chain (im s) (priv s) first l
  | Err e => e < 0
  end.
Proof.
  induction fuel as [|fuel IH]; intros capacity chain seen s r s' first current G Hcur Hz I Hfu E;
    [lia|]; cbn [collect_loop] in E.
  destruct (Z.eqb_spec current 0) as [Hc0|Hc0].
  { apply mret_inv in E as [-> ->]. split; [done|]. rewrite (Hz Hc0). subst current.
    rewrite (Hz Hc0) in Hc0. constructor; [done|set_solver|constructor|done]. }
  rewrite io_gets, io_fail_if in E. destruct (_ || _ || _ || _) eqn:Hchk.
  { injection E as <- <-. split; [done|unfold EIO; lia]. }
  rewrite !orb_false_iff, negb_false_iff, Z.ltb_ge, Z.leb_gt in Hchk. destruct Hchk as [[[Hv Hmax] Hcap] Hns].
  rewrite (ci_seen _ _ _ _ _ I) in Hns by (pose proof (valid_range _ _ Hv); lia).
  apply bool_decide_eq_false in Hns.
  pose proof (collect_inv_step _ _ _ _ _ I Hv Hmax Hns) as I'. fold current in I'.
  apply io_bind_inv in E as [(e & E & ->)|(next & s1 & E & E1)].
  { by apply get_fat_entry_spec in E as (R & He & _). }
  apply get_fat_entry_spec in E as (R & Hn & Hnr); [|done..].
  destruct (Z.leb_spec RORTHOX_FAT16_EOC_START next) as [Heoc|Heoc].
  { apply mret_inv in E1 as [-> ->]. split; [done|]. destruct I'. constructor; try done.
    rewrite last_snoc. by rewrite <- Hn. }
  rewrite io_fail_if in E1. destruct (fat16_valid_cluster (priv s) next) eqn:Hnv; simpl in E1.
  2: { injection E1 as <- <-. split; [done|unfold EIO; lia]. }
  assert (Hnext : next = nth_cluster (im s1) (priv s1) (length (chain ++ [current])) first).
  { rewrite (nth_cluster_img _ _ _ _ R), length_app. simpl. rewrite Nat.add_1_r, nth_cluster_succ. done. }
  rewrite Hnext in E1. apply IH in E1 as [R1 Hr].
  - split; [by etrans|]. destruct r; [by eapply is_chain_reads|done].
  - by apply (geometry_same _ _ (rd_volume _ _ R)).
  - by rewrite <- Hnext.
  - rewrite <- Hnext. intros ->. apply valid_range in Hnv. lia.
  - by eapply collect_inv_reads.
  - rewrite length_app. cbn [length]. lia.
Qed.

(** A chain that ends properly is collected whole. *)
Lemma collect_loop_complete rest : forall fuel capacity chain seen s first,
  let current := nth_cluster (im s) (priv s) (length chain) first in
  geometry (priv s) -> table_good s -> is_chain (im s) (priv s) first (chain ++ rest) ->
  (rest = [] -> chain = []) -> Z.of_nat (length (chain ++ rest)) <= capacity -> (length rest < fuel)%nat ->
  collect_inv (im s) (priv s) first chain seen ->
  exists s', collect_loop fuel capacity current chain seen s = (Ok (chain ++ rest), s') /\ reads s s'.
Proof.
  induction rest as [|c rest IH]; intros fuel capacity chain seen s first current G T C Hrest Hcap Hfuel I;
    (destruct fuel as [|fuel]; [lia|]); cbn [collect_loop].
  { pose proof (Hrest eq_refl) as ->. exists s. subst current. simpl. pose proof (ch_end _ _ _ _ C) as Hf.
    simpl in Hf. rewrite Hf. split; reflexivity. }
  assert (Hc : current = c).
  { symmetry. apply (ch_nth _ _ _ _ C). by rewrite lookup_app_r, Nat.sub_diag by lia. }
  destruct (ch_valid _ _ _ _ C c ltac:(set_solver)) as [Hv Hm]. pose proof (valid_range _ _ Hv) as Hr.
  rewrite length_app in Hcap. simpl in Hcap.
  assert (Hn : c ∉ chain).
  { pose proof (ch_nodup _ _ _ _ C) as (_ & Hdis & _)%NoDup_app. intros Hin. apply (Hdis c Hin). set_solver. }
  rewrite Hc. rewrite (proj2 (Z.eqb_neq c 0)) by lia. rewrite io_gets, io_fail_if, Hv.
  rewrite (proj2 (Z.ltb_ge (max_writable (priv s)) c)), (proj2 (Z.leb_gt capacity _)) by lia.
  rewrite (ci_seen _ _ _ _ _ I), bool_decide_false by (done || lia). cbn [negb orb].
  destruct (fat16_get_fat_entry c s) as [r s1] eqn:E.
  pose proof (get_fat_entry_spec c s r s1 G ltac:(lia) E) as [R Hres].
  destruct r as [v|e]; [|by destruct Hres as [_ Hbad]; destruct Hbad; [apply valid_in_table|]].
  destruct Hres as [Hv' Hvr]. rewrite (io_bind_run _ _ _ _ _ E).
  assert (Hlast : match rest with
    | [] => RORTHOX_FAT16_EOC_START <= v
    | d :: _ => v = d
    end).
  { rewrite Hv'. destruct rest as [|d rest].
    - pose proof (ch_end _ _ _ _ C) as He. by rewrite last_snoc in He.
    - rewrite <- Hc. subst current. rewrite <- nth_cluster_succ. symmetry. apply (ch_nth _ _ _ _ C).
      by rewrite lookup_app_r, Nat.sub_succ_l, Nat.sub_diag by lia. }
  destruct rest as [|d rest].
  - rewrite (proj2 (Z.leb_le _ v)) by done. exists s1. split; [reflexivity|done].
  - rewrite Hlast in *. destruct (ch_valid _ _ _ _ C d ltac:(set_solver)) as [Hvd Hmd]. pose proof (valid_range _ _ Hvd).
    rewrite (proj2 (Z.leb_gt RORTHOX_FAT16_EOC_START d)) by (unfold RORTHOX_FAT16_EOC_START; lia).
    rewrite io_fail_if, Hvd. cbn [negb].
    assert (Hcur : nth_cluster (im s1) (priv s1) (length (chain ++ [c])) first = d).
    { rewrite (nth_cluster_img _ _ _ _ R), length_app. simpl. rewrite Nat.add_1_r, nth_cluster_succ.
      fold current. by rewrite Hc. }
    assert (Happ : (chain ++ [c]) ++ d :: rest = chain ++ c :: d :: rest) by by rewrite <- app_assoc.
    destruct (IH fuel capacity (chain ++ [c]) (seen_mark seen c) s1 first) as (s' & E' & R').
    + by apply (geometry_same _ _ (rd_volume _ _ R)).
    + by eapply reads_table_good.
    + rewrite Happ. by eapply reads_is_chain.
    + done.
    + rewrite Happ, length_app. simpl in *. lia.
    + simpl in *. lia.
    + eapply collect_inv_reads; [done|]. rewrite <- Hc. apply collect_inv_step; rewrite ?Hc; (done || fold current; by rewrite Hc).
    + rewrite Hcur, Happ in E'. exists s'. split; [done|by etrans].
Qed.

(** ** Buffers *)

Lemma zalloc_inv size s r s1 A :
  live (heap s) A -> 0 <= size < 2 ^ 32 -> zalloc size s = (r, s1) ->
  exists c, r = Ok c /\ free c s1 = s /\ dev s1 = dev s /\ priv s1 = priv s /\ (c = 0 -> s1 = s).
Proof.
  intros Hl Hs E. unfold zalloc in E. destruct (kmalloc (heap s) size) as [c h] eqn:Hm.
  injection E as <- <-. exists c. pose proof (malloc_free_inverse _ _ _ _ _ Hl Hs Hm) as Hf.
  destruct s as [d h0 p]. unfold free, with_heap in *. simpl in *. rewrite Hf. repeat split.
  intros ->. rewrite (malloc_null h0 A size h Hl Hs Hm). done.
Qed.

Lemma reads_free c s s1 s2 : free c s1 = s -> reads s1 s2 -> reads s (free c s2).
Proof.
  intros <- R. constructor; simpl.
  - apply R.
  - by rewrite (rd_heap _ _ R).
  - apply R.
  - apply R.
Qed.

(** The range of the fields that [fat16_collect_chain] uses. *)
Definition writable_range (p : fat_private) : Prop := 0 <= max_writable p < 65536.
Definition item_range (it : fat_directory_item) : Prop :=
  0 <= low_16_bits_first_cluster it < 65536 /\ 0 <= filesize it < 2 ^ 32.

Lemma collect_inv_start f p first :
  writable_range p -> collect_inv f p first [] (replicate (Z.to_nat ((max_writable p + 8) / 8)) 0).
Proof.
  intros Hw. unfold writable_range in Hw. constructor.
  - rewrite length_replicate. lia.
  - intros c _. by rewrite seen_empty.
  - done.
  - set_solver.
  - constructor.
Qed.

Lemma collect_chain_spec it s r s' A :
  geometry (priv s) -> live (heap s) A -> writable_range (priv s) -> item_range it ->
  fat16_collect_chain it s = (r, s') ->
  match r with
  | Ok (c, l) => reads s (free c s') /\
      is_chain (im s) (priv s) (low_16_bits_first_cluster it) l /\
      clusters_needed (filesize it) (cluster_bytes (priv s)) <= Z.of_nat (length l) /\
      filesize it <= INT_MAX
  | Err e => reads s s' /\ e < 0
  end.
Proof.
  intros G Hl Hw [Hlow _] E. unfold fat16_collect_chain in E. rewrite io_gets, io_fail_if in E.
  destruct (negb _) in E; [injection E as <- <-; split; [done|unfold EIO; lia]|].
  rewrite io_fail_if in E. destruct (Z.ltb_spec INT_MAX (filesize it)) as [Hbig|Hbig].
  { injection E as <- <-. split; [done|unfold EFBIG; lia]. }
  apply io_bind_inv in E as [(e & E & ->)|(c & s1 & E & E1)].
  { destruct (Z.ltb_spec 0 (max_writable (priv s) - 1)); [|done]. apply io_bind_inv in E as [(e' & E & _)|(c & s1 & E & E1)].
    - apply (zalloc_inv _ _ _ _ A) in E as (? & [=] & _); [done|unfold writable_range in Hw; lia].
    - apply (zalloc_inv _ _ _ _ A) in E as (c' & [= <-] & _ & _ & _ & Hz); [|done|unfold writable_range in Hw; lia].
      rewrite io_fail_if in E1. destruct (Z.eqb_spec c 0); [|done]. injection E1 as <- <-.
      rewrite Hz by done. split; [done|unfold ENOMEM; lia]. }
  assert (Ha : free c s1 = s /\ dev s1 = dev s /\ priv s1 = priv s).
  { destruct (Z.ltb_spec 0 (max_writable (priv s) - 1)).
    - apply io_bind_ok in E as (c' & s2 & E & E2).
      apply (zalloc_inv _ _ _ _ A) in E as (c'' & [= <-] & Hf & Hd & Hp & _); [|done|unfold writable_range in Hw; lia].
      rewrite io_fail_if in E2. destruct (c' =? 0); [done|]. by apply mret_inv in E2 as [[= ->] ->].
    - apply mret_inv in E as [[= ->] ->]. split; [|done]. destruct s as [d h p]. unfold free, with_heap. simpl in *.
      by rewrite (kfree_null h A). }
  destruct Ha as (Hf & Hd & Hp). rewrite <- Hp, <- Hd.
  apply on_error_inv in E1 as (s2 & E2 & ->).
  assert (Hmid : reads s1 s2 /\ match r with
    | Ok (c', l) => c' = c /\ is_chain (im s1) (priv s1) (low_16_bits_first_cluster it) l /\
        clusters_needed (filesize it) (cluster_bytes (priv s1)) <= Z.of_nat (length l)
    | Err e => e < 0 end).
  { apply io_bind_inv in E2 as [(e & E2 & ->)|(l & s3 & E2 & E3)].
    - by apply (collect_loop_spec _ _ []) in E2; [|by rewrite Hp|done|done|rewrite <- Hp in *; by apply collect_inv_start|cbn [length]; lia].
    - apply (collect_loop_spec _ _ []) in E2 as [R C]; [|by rewrite Hp|done|done|rewrite <- Hp in *; by apply collect_inv_start|cbn [length]; lia].
      rewrite io_fail_if in E3. destruct (Z.ltb_spec (Z.of_nat (length l)) (clusters_needed (filesize it) (cluster_bytes (priv s)))) as [Hlt|Hge].
      + injection E3 as <- <-. split; [done|unfold EIO; lia].
      + apply mret_inv in E3 as [-> ->]. rewrite Hp. rewrite Hp in C. auto. }
  destruct Hmid as [R Hr]. destruct r as [[c' l]|e].
  - destruct Hr as (-> & C & Hn). split; [by eapply reads_free|]. done.
  - split; [by eapply reads_free|done].
Qed.

(** ** Free clusters *)

(** The entry of cluster [c] in table [copy]. *)
Definition entry_addr (p : fat_private) (copy c : Z) : Z :=
  (reserved_sectors (header p) + copy * sectors_per_fat (header p)) * 512 + 2 * c.
Definition table_entry (f : Z -> Z) (p : fat_private) (copy c : Z) : Z :=
  f (entry_addr p copy c) + 256 * f (entry_addr p copy c + 1).

Definition is_free (f : Z -> Z) (p : fat_private) (c : Z) : Prop :=
  table_entry f p 0 c = 0 /\ table_entry f p 1 c = 0.

#[export] Instance is_free_dec f p c : Decision (is_free f p c).
Proof. unfold is_free. apply _. Defined.

Lemma table_entry_first f p c : table_entry f p 0 c = fat_entry f p c.
Proof. unfold table_entry, entry_addr, fat_entry. by rewrite Z.mul_0_l, Z.add_0_r. Qed.

Lemma read_block_spec lba s r s' :
  read_block lba s = (r, s') ->
  reads s s' /\ match r with
  | Ok bs => bs = slice (im s) (lba * 512) 512
  | Err e => e < 0 /\ ~ good (dev s) lba
  end.
Proof.
  unfold read_block. destruct (disk_read_block (dev s) lba 1) as [[res buf] d] eqn:E.
  assert (R : reads s (with_dev d s)).
  { constructor; simpl; [intros a; by eapply read_img|done|done|]. intros n. by eapply good_read. }
  destruct (Z.ltb_spec res 0) as [Hn|Hn]; intros E'; injection E' as <- <-; (split; [done|]).
  - split; [done|]. intros Hg. pose proof (read_good _ _ _ _ _ Hg E). lia.
  - by eapply read_data.
Qed.

(** A sector of the table holds the entries of 256 clusters. *)
Lemma sector_entry f p copy c :
  0 <= c ->
  le16 (slice f ((reserved_sectors (header p) + copy * sectors_per_fat (header p) + c / 256) * 512) 512)
    (Z.to_nat (2 * (c mod 256))) = table_entry f p copy c.
Proof.
  intros Hc. unfold le16, byte_at, table_entry, entry_addr. rewrite !slice_lookup by lia. cbn [default from_option id].
  f_equal; [f_equal; lia|]. f_equal. f_equal. lia.
Qed.

(** The buffers hold sector [loaded] of both tables. *)
Definition tables_loaded s (loaded : Z) (first second : list Z) : Prop :=
  0 <= loaded ->
  first = slice (im s) ((reserved_sectors (header (priv s)) + 0 * sectors_per_fat (header (priv s)) + loaded) * 512) 512 /\
  second = slice (im s) ((reserved_sectors (header (priv s)) + 1 * sectors_per_fat (header (priv s)) + loaded) * 512) 512.

Lemma slice_reads s s' p n : reads s s' -> slice (im s') p n = slice (im s) p n.
Proof. intros R. apply slice_ext. intros a _. apply R. Qed.

Lemma tables_loaded_reads s s' loaded first second :
  reads s s' -> tables_loaded s loaded first second -> tables_loaded s' loaded first second.
Proof.
  intros R T Hl. destruct (T Hl) as [-> ->]. by rewrite (sv_header _ _ (rd_volume _ _ R)), !(slice_reads _ _ _ _ R).
Qed.

Lemma is_free_reads s s' c : reads s s' -> is_free (im s') (priv s') c <-> is_free (im s) (priv s) c.
Proof.
  intros R. unfold is_free, table_entry, entry_addr. by rewrite (sv_header _ _ (rd_volume _ _ R)), !(rd_img _ _ R).
Qed.

Lemma filter_free_reads s s' (l : list Z) : reads s s' ->
  filter (is_free (im s') (priv s')) l = filter (is_free (im s) (priv s)) l.
Proof. intros R. apply list_filter_iff. intros c. by apply is_free_reads. Qed.

(** Loading the sectors of a cluster's entries. *)
Definition load_tables (cluster loaded : Z) (first second : list Z) : io (fs D H) (list Z * list Z) :=
  p ← gets priv;
  if negb (cluster / 256 =? loaded) then
    a ← read_block (reserved_sectors (header p) + cluster / 256);
    b ← read_block (reserved_sectors (header p) + sectors_per_fat (header p) + cluster / 256);
    mret (a, b)
  else mret (first, second).

(** The sectors of both tables are good. *)
Definition tables_good s : Prop :=
  forall k : Z, reserved_sectors (header (priv s)) <= k <
    reserved_sectors (header (priv s)) + 2 * sectors_per_fat (header (priv s)) -> good (dev s) k.

Lemma reads_tables_good s s' : reads s s' -> tables_good s -> tables_good s'.
Proof.
  intros R T k Hk. rewrite (sv_header _ _ (rd_volume _ _ R)) in Hk. by apply (rd_good _ _ R), T.
Qed.

Lemma load_tables_spec cluster loaded first second s r s' :
  0 <= cluster -> 2 * cluster + 2 <= sectors_per_fat (header (priv s)) * 512 -> tables_loaded s loaded first second ->
  load_tables cluster loaded first second s = (r, s') ->
  reads s s' /\ match r with
  | Ok (a, b) => tables_loaded s' (cluster / 256) a b
  | Err e => e < 0 /\ ~ tables_good s
  end.
Proof.
  intros Hc Hin T E. unfold load_tables in E. rewrite io_gets in E.
  destruct (Z.eqb_spec (cluster / 256) loaded) as [<-|Hne]; cbn [negb] in E.
  { apply mret_inv in E as [-> ->]. done. }
  apply io_bind_inv in E as [(e & E & ->)|(a & s1 & E & E1)].
  { apply read_block_spec in E as (R & ? & Hbad). split; [done|]. split; [done|]. intros T'. apply Hbad, T'. lia. }
  apply read_block_spec in E as [R ->].
  apply io_bind_inv in E1 as [(e & E & ->)|(b & s2 & E & E2)].
  { apply read_block_spec in E as (R1 & ? & Hbad). split; [by etrans|]. split; [done|].
    intros T'. apply Hbad, (rd_good _ _ R), T'. lia. }
  apply read_block_spec in E as [R1 ->]. apply mret_inv in E2 as [-> ->].
  assert (R2 : reads s s2) by by etrans. split; [done|]. intros _.
  rewrite (sv_header _ _ (rd_volume _ _ R2)), !(slice_reads _ _ _ _ R2), (slice_reads _ _ _ _ R).
  by rewrite Z.mul_0_l, Z.add_0_r, Z.mul_1_l.
Qed.

Lemma allocate_loop_spec n : forall cluster loaded needed first second chain s r s',
  0 <= cluster -> 2 * (cluster + Z.of_nat n) <= sectors_per_fat (header (priv s)) * 512 ->
  tables_loaded s loaded first second ->
  allocate_loop n cluster loaded needed first second chain s = (r, s') ->
  reads s s' /\
  match r with
  | Ok l => l = chain ++ take (Z.to_nat needed - length chain)
                  (filter (is_free (im s) (priv s)) (seqZ cluster (Z.of_nat n)))
  | Err e => e < 0 /\ ~ tables_good s
  end.
Proof.
  induction n as [|n IH]; intros cluster loaded needed first second chain s r s' Hc Hin T E; cbn [allocate_loop] in E.
  { apply mret_inv in E as [-> ->]. split; [done|]. rewrite seqZ_nil, filter_nil, take_nil, app_nil_r by done. done. }
  destruct (Z.ltb_spec (Z.of_nat (length chain)) needed) as [Hlt|Hge].
  2: { apply mret_inv in E as [-> ->]. split; [done|].
       replace (Z.to_nat needed - length chain)%nat with 0%nat by lia. by rewrite take_0, app_nil_r. }
  change (('(a, b) ← load_tables cluster loaded first second;
    (let i := Z.to_nat (2 * (cluster mod 256)) in
     allocate_loop n (cluster + 1) (cluster / 256) needed a b
      (if (le16 a i =? 0) && (le16 b i =? 0) then chain ++ [cluster] else chain))) s = (r, s')) in E.
  apply io_bind_inv in E as [(e & E & ->)|([a b] & s1 & E & E1)].
  { apply load_tables_spec in E as [R He]; [done|done|lia|done]. }
  apply load_tables_spec in E as [R T1]; [|done|lia|done]. cbv zeta in E1.
  assert (Hfree : ((le16 a (Z.to_nat (2 * (cluster mod 256))) =? 0) &&
    (le16 b (Z.to_nat (2 * (cluster mod 256))) =? 0)) = bool_decide (is_free (im s) (priv s) cluster)).
  { destruct (T1 ltac:(lia)) as [-> ->]. rewrite !sector_entry by done.
    rewrite <- (bool_decide_ext _ _ (is_free_reads _ _ cluster R)).
    apply eq_true_iff_eq. rewrite andb_true_iff, !Z.eqb_eq, bool_decide_eq_true. done. }
  rewrite Hfree in E1. apply IH in E1 as [R1 Hr]; [|lia|rewrite (sv_header _ _ (rd_volume _ _ R)); lia|done]. split; [by etrans|].
  destruct r as [l|e].
  2: { destruct Hr as [He Hbad]. split; [done|]. intros T'. by apply Hbad, (reads_tables_good s). }
  rewrite Hr, (filter_free_reads _ _ _ R).
  rewrite (seqZ_cons cluster (Z.of_nat (S n))) by lia.
  replace (Z.pred (Z.of_nat (S n))) with (Z.of_nat n) by lia. rewrite <- Z.add_1_r, filter_cons.
  destruct (decide (is_free (im s) (priv s) cluster)) as [Hf|Hf].
  - rewrite bool_decide_true by done. rewrite length_app. simpl. rewrite <- app_assoc. f_equal. simpl.
    replace (Z.to_nat needed - length chain)%nat with (S (Z.to_nat needed - (length chain + 1))) by lia. done.
  - by rewrite bool_decide_false by done.
Qed.
End collecting.
