(* ===== verification/FatData.v ===== *)
(** * FAT16: what writing does to a volume (kernel/fs/fat/fat16.c)

    The effect on the disk image of the operations of FatWrite.v: entries of the two tables, zeroed
    clusters, data written along a chain, and the whole of [fat16_write_bytes]. *)

From stdpp Require Import base numbers list gmap.
From Stdlib Require Import ZArith Lia.
From S2P Require Import Prelude Alloc Memory Effects Disk Fat FatWrite.

#[local] Set Default Goal Selector "!".

(** ** Layout *)

(** The first sector behind the clusters that may be written. *)
Definition data_end (p : fat_private) : Z :=
  ending_sector_pos (root_directory p) + (max_writable p - 1) * sectors_per_cluster (header p).

(** What [fat16_prepare_write] establishes. *)
Record ready_volume (p : fat_private) : Prop := ReadyVolume {
  rv_geometry : geometry p;
  rv_copies : fat_copies (header p) = 2;
  rv_spc : 0 < sectors_per_cluster (header p);
  rv_limit : 1 <= max_writable p <= fat16_cluster_limit p;
  rv_end : data_end p * 512 <= INT_MAX
}.

Lemma ready_volume_same p q : same_volume p q -> ready_volume p -> ready_volume q.
Proof.
  intros S [G C Sp L E]. constructor.
  - by eapply geometry_same.
  - by rewrite (sv_header _ _ S).
  - by rewrite (sv_header _ _ S).
  - by rewrite (sv_writable _ _ S), (limit_same _ _ S).
  - unfold data_end in *. by rewrite (sv_writable _ _ S), (sv_header _ _ S), (sv_root _ _ S).
Qed.

Lemma limit_bound p : 0 < fat16_cluster_limit p -> fat16_cluster_limit p <= 65525.
Proof.
  unfold fat16_cluster_limit. cbv zeta. destruct (_ || (_ <=? _)); [lia|].
  set (count := (_ - _) / _). destruct (_ || _ || _) eqn:Hb; [lia|].
  rewrite !orb_false_iff, !Z.ltb_ge, Z.leb_gt in Hb. lia.
Qed.

(** A cluster that may be written. *)
Definition writable (p : fat_private) (c : Z) : Prop := 2 <= c <= max_writable p.

Section layout.
Context (p : fat_private) (R : ready_volume p).

Lemma writable_valid c : writable p c -> fat16_valid_cluster p c = true.
Proof.
  intros Hc. unfold writable in Hc. pose proof (rv_limit _ R). pose proof (limit_bound p ltac:(lia)).
  unfold fat16_valid_cluster, RORTHOX_FAT16_BAD_SECTOR, RORTHOX_FAT16_EOC_START.
  rewrite !andb_true_iff, !Z.leb_le, negb_true_iff, Z.eqb_neq, Z.ltb_lt. lia.
Qed.

Lemma cluster_bytes_pos : 0 < cluster_bytes p /\ cluster_bytes p = sectors_per_cluster (header p) * 512.
Proof. pose proof (rv_spc _ R). unfold cluster_bytes, RORTHOX_SECTOR_SIZE. lia. Qed.

Lemma sector_pos_eq :
  sector_pos (root_directory p) = 2 * sectors_per_fat (header p) + reserved_sectors (header p) /\
  sector_pos (root_directory p) <= ending_sector_pos (root_directory p).
Proof.
  pose proof (rv_geometry _ R) as G. rewrite (geo_end _ G), (geo_pos _ G), (rv_copies _ R).
  pose proof (geo_root _ G). lia.
Qed.

(** A writable cluster lies behind the directory and inside the drive. *)
Lemma cluster_pos_range c : writable p c ->
  ending_sector_pos (root_directory p) * 512 <= cluster_pos p c /\
  cluster_pos p c + cluster_bytes p <= data_end p * 512 /\ cluster_pos p c mod 512 = 0.
Proof.
  intros Hc. unfold writable in Hc. pose proof (rv_spc _ R). destruct cluster_bytes_pos as [_ ->].
  unfold cluster_pos, data_end. nia.
Qed.

(** Different clusters do not overlap. *)
Lemma cluster_pos_disjoint c d o o' :
  0 <= o < cluster_bytes p -> 0 <= o' < cluster_bytes p ->
  cluster_pos p c + o = cluster_pos p d + o' -> c = d /\ o = o'.
Proof.
  intros Ho Ho' E. destruct cluster_bytes_pos as [Hb Heq]. unfold cluster_pos in E.
  assert (E' : (c - 2) * cluster_bytes p + o = (d - 2) * cluster_bytes p + o') by (rewrite Heq; lia).
  destruct (Z.lt_trichotomy c d) as [Hl|[->|Hl]]; [nia|lia|nia].
Qed.

(** The table entries lie in front of the directory. *)
Lemma entry_addr_range copy c : writable p c -> 0 <= copy < 2 ->
  0 <= entry_addr p copy c /\ entry_addr p copy c + 2 <= sector_pos (root_directory p) * 512.
Proof.
  intros Hc Hcopy. pose proof (rv_geometry _ R) as G.
  pose proof (valid_in_table _ _ G (writable_valid _ Hc)). unfold entry_addr, writable in *.
  pose proof (geo_fat _ G). pose proof (geo_reserved _ G). destruct sector_pos_eq as [-> _].
  assert (copy = 0 \/ copy = 1) as [->| ->] by lia; lia.
Qed.

Lemma entry_addr_disjoint copy copy' c c' :
  writable p c -> writable p c' -> 0 <= copy < 2 -> 0 <= copy' < 2 ->
  (copy, c) <> (copy', c') -> Z.abs (entry_addr p copy c - entry_addr p copy' c') >= 2.
Proof.
  intros Hc Hc' Hcopy Hcopy' Hne. pose proof (rv_geometry _ R) as G.
  pose proof (valid_in_table _ _ G (writable_valid _ Hc)).
  pose proof (valid_in_table _ _ G (writable_valid _ Hc')). unfold entry_addr, writable in *.
  assert (copy = 0 \/ copy = 1) as [->| ->] by lia; assert (copy' = 0 \/ copy' = 1) as [->| ->] by lia;
    try lia; (assert (c <> c') by congruence; lia).
Qed.
End layout.

(** ** Directory entries *)

(** A directory entry whose fields fit their types. *)
Record item_wf (it : fat_directory_item) : Prop := ItemWf {
  iw_name : length (filename it) = 8%nat /\ Forall is_byte (filename it);
  iw_ext : length (ext it) = 3%nat /\ Forall is_byte (ext it);
  iw_bytes : is_byte (attribute it) /\ is_byte (reserved it) /\ is_byte (creation_time_tenths_of_a_sec it);
  iw_words : Forall (fun v => 0 <= v < 65536)
    [creation_time it; creation_date it; last_access it; high_16_bits_first_cluster it;
     last_mod_time it; last_mod_date it; low_16_bits_first_cluster it];
  iw_size : 0 <= filesize it < 2 ^ 32
}.

Lemma to_le16_bytes v : Forall is_byte (to_le16 v).
Proof. repeat constructor; lia. Qed.

Lemma encode_item_length it : item_wf it -> length (encode_item it) = 32%nat.
Proof. intros [[Hn _] [He _] _ _ _]. unfold encode_item. rewrite !length_app, Hn, He. done. Qed.

Lemma encode_item_bytes it : item_wf it -> Forall is_byte (encode_item it).
Proof.
  intros [[_ Hn] [_ He] (Ha & Hr & Hc) _ _]. unfold encode_item, to_le32.
  rewrite !Forall_app, !Forall_cons. auto 20 using to_le16_bytes.
Qed.

Lemma to_le16_value v : 0 <= v < 65536 -> v mod 256 + 256 * (v / 256 mod 256) = v.
Proof. lia. Qed.

Lemma decode_encode_item it : item_wf it -> decode_item (encode_item it) = it.
Proof.
  intros [[Hn _] [He _] _ Hw Hs]. destruct it as [n e a b c w1 w2 w3 w4 w5 w6 w7 sz]; cbn in Hn, He, Hw, Hs.
  destruct n as [|n0 [|n1 [|n2 [|n3 [|n4 [|n5 [|n6 [|n7 [|]]]]]]]]]; try done.
  destruct e as [|e0 [|e1 [|e2 [|]]]]; try done.
  rewrite !Forall_cons in Hw. destruct Hw as (? & ? & ? & ? & ? & ? & ? & _).
  unfold decode_item, encode_item, le32, le16, byte_at, to_le32. cbn -[Z.mul Z.add Z.div Z.modulo].
  f_equal; try (by apply to_le16_value). lia.
Qed.

Section writing.
Context {D H : Type} `{BlockDeviceLaws D} `{AllocatorLaws H}.
Implicit Types s : fs D H.
Abbreviation im s := (img (dev s)).

(** ** Single writes *)

(** [s'] differs from [s] only in the image and the positions of the streams. *)
Record quiet (s s' : fs D H) : Prop := Quiet {
  q_heap : heap s' = heap s;
  q_volume : same_volume (priv s) (priv s');
  q_good n : good (dev s) n -> good (dev s') n
}.

#[export] Instance quiet_preorder : PreOrder quiet.
Proof.
  split; [by intros s; constructor|]. intros s1 s2 s3 [H1' V1 G1] [H2' V2 G2].
  constructor; [congruence|by etrans|auto].
Qed.

Lemma reads_quiet s s' : reads s s' -> quiet s s'.
Proof. intros [_ ? ? ?]. by constructor. Qed.

Lemma write_at_spec w data s r s' :
  Forall is_byte data -> fat16_write_at w data s = (r, s') ->
  match r with
  | Ok _ => quiet s s' /\ forall a, im s' a = splice (im s) w data a
  | Err e => e = - EIO /\
      ~ (in_int w (Z.of_nat (length data)) /\ range_good (dev s) w (Z.of_nat (length data))) /\
      (mutation_disabled (priv s') = true \/ forall a, im s' a = im s a)
  end.
Proof.
  intros Hb E. unfold fat16_write_at, diskstreamer_seek, diskstreamer_write in E.
  destruct (Z.ltb_spec w 0) as [Hw|Hw].
  { simpl in E. destruct (negb _); injection E as <- <-; simpl;
      (split; [done|]); (split; [unfold in_int; lia|]); auto. }
  simpl in E. rewrite (proj2 (Z.ltb_ge _ 0)), (proj2 (Z.ltb_ge w 0)) in E by lia. simpl in E.
  destruct (Z.ltb_spec (INT_MAX - w) (Z.of_nat (length data))) as [Hr|Hr].
  { simpl in E. rewrite Z.eqb_refl in E. simpl in E. injection E as <- <-. simpl.
    split; [done|]. split; [unfold in_int; lia|]. auto. }
  destruct (streamer_write_loop _ w _ data (dev s)) as [[res q] d] eqn:El.
  pose proof El as Hsp. apply streamer_write_loop_spec in Hsp as (Hg & k & Hk & -> & Hwr & Hres); [|done || lia..].
  simpl in E. destruct Hres as [[-> ->]|(Hneg & Hkt & Hbad)].
  - simpl in E. injection E as <- <-. split; [by constructor|]. intros a. simpl. rewrite Hwr by lia.
    by rewrite firstn_all2 by lia.
  - rewrite (proj2 (Z.ltb_lt res 0)) in E by done. destruct (_ || _) eqn:Hc; injection E as <- <-.
    + split; [done|]. split; [|by left]. intros [_ Hgood]. apply Hbad, Hgood. lia.
    + rewrite orb_false_iff, !negb_false_iff, !Z.eqb_eq in Hc. destruct Hc as [-> Hk0].
      split; [done|]. split; [intros [_ Hgood]; apply Hbad, Hgood; lia|]. right. simpl.
      rewrite Hk0 in El. eapply streamer_write_refused; [..|apply El]; done || lia.
Qed.

Lemma flush_spec s r s' :
  fat16_flush s = (r, s') ->
  match r with
  | Ok _ => reads s s'
  | Err e => e = - EIO /\ ~ good (dev s) Flush /\ mutation_disabled (priv s') = true
  end.
Proof.
  unfold fat16_flush. destruct (disk_flush (dev s)) as [res d] eqn:E.
  destruct (Z.ltb_spec res 0); intros [= <- <-].
  - split; [done|]. split; [|done]. intros Hg. pose proof (flush_good _ _ _ Hg E). lia.
  - constructor; simpl; [intros a; by eapply flush_img|done|done|]. intros n. by eapply good_flush.
Qed.

(** The drive works for the whole volume. *)
Definition volume_good s : Prop :=
  (forall k : Z, 0 <= k < data_end (priv s) -> good (dev s) k) /\ good (dev s) Flush.

Lemma volume_good_quiet s s' : quiet s s' -> volume_good s -> volume_good s'.
Proof.
  intros [_ V G] [Hs Hf]. split; [|auto]. intros k Hk. apply G, Hs. revert Hk. unfold data_end.
  by rewrite (sv_writable _ _ V), (sv_header _ _ V), (sv_root _ _ V).
Qed.

Lemma volume_good_range s w n :
  volume_good s -> 0 <= w -> 0 < n -> w + n <= data_end (priv s) * 512 -> range_good (dev s) w n.
Proof. intros [Hs _] Hw Hn Hd k Hk. apply Hs. lia. Qed.

(** A write inside the volume. *)
Lemma write_in_volume w data s r s' :
  ready_volume (priv s) -> Forall is_byte data -> 0 <= w -> (0 < length data)%nat ->
  w + Z.of_nat (length data) <= data_end (priv s) * 512 -> fat16_write_at w data s = (r, s') ->
  match r with
  | Ok _ => quiet s s' /\ forall a, im s' a = splice (im s) w data a
  | Err e => e = - EIO /\ ~ volume_good s
  end.
Proof.
  intros R Hb Hw Hl Hd E. apply write_at_spec in E; [|done]. destruct r; [done|].
  destruct E as (-> & Hbad & _). split; [done|]. intros Hg. apply Hbad. pose proof (rv_end _ R).
  split; [unfold in_int; lia|]. apply volume_good_range; [done|lia..].
Qed.

(** ** Table entries *)

Lemma table_entry_same f p q copy c : same_volume p q -> table_entry f q copy c = table_entry f p copy c.
Proof. intros V. unfold table_entry, entry_addr. by rewrite (sv_header _ _ V). Qed.

Lemma entry_addr_same p q copy c : same_volume p q -> entry_addr q copy c = entry_addr p copy c.
Proof. intros V. unfold entry_addr. by rewrite (sv_header _ _ V). Qed.

Lemma writable_same p q c : same_volume p q -> writable q c <-> writable p c.
Proof. intros V. unfold writable. by rewrite (sv_writable _ _ V). Qed.

Lemma to_le16_splice f a v : 0 <= v < 65536 ->
  splice f a (to_le16 v) a + 256 * splice f a (to_le16 v) (a + 1) = v.
Proof.
  intros Hv. unfold to_le16.
  pose proof (splice_in f a (to_le16 v) 0 (v mod 256) eq_refl) as E0. rewrite Z.add_0_r in E0.
  pose proof (splice_in f a (to_le16 v) 1 (v / 256 mod 256) eq_refl) as E1. change (Z.of_nat 1) with 1 in E1.
  unfold to_le16 in E0, E1. rewrite E0, E1. lia.
Qed.

Lemma set_entry_spec copy c v s r s' :
  ready_volume (priv s) -> writable (priv s) c -> 0 <= copy < 2 -> 0 <= v < 65536 ->
  fat16_set_entry copy c v s = (r, s') ->
  match r with
  | Ok _ => quiet s s' /\ table_entry (im s') (priv s) copy c = v /\
      forall a, a < entry_addr (priv s) copy c \/ entry_addr (priv s) copy c + 2 <= a -> im s' a = im s a
  | Err e => e = - EIO /\ ~ volume_good s
  end.
Proof.
  intros R Hc Hcopy Hv E. unfold fat16_set_entry in E. rewrite io_gets in E.
  destruct (entry_addr_range _ R copy c Hc Hcopy) as [Ha Hend].
  destruct (sector_pos_eq _ R) as [_ Hroot]. pose proof (rv_end _ R) as Hmax.
  assert (Hde : ending_sector_pos (root_directory (priv s)) <= data_end (priv s)).
  { unfold data_end. pose proof (rv_limit _ R). pose proof (rv_spc _ R). nia. }
  replace (i32 _) with (entry_addr (priv s) copy c) in E.
  2: { symmetry. unfold entry_addr, RORTHOX_SECTOR_SIZE, INT_MAX in *. rewrite i32_small; lia. }
  assert (Hl : length (to_le16 v) = 2%nat) by done.
  apply write_in_volume in E; [|done| |done|by rewrite Hl; lia|rewrite Hl; lia].
  2: { repeat constructor; lia. }
  destruct r as [u|]; [|done]. destruct E as [Q Hi]. split; [done|]. split.
  - unfold table_entry. rewrite !Hi. by apply to_le16_splice.
  - intros a Haa. rewrite Hi. apply splice_out. rewrite Hl. lia.
Qed.

(** A sequence of table entries to set. *)
Fixpoint put_entries (copy : Z) (l : list (Z * Z)) : io (fs D H) unit :=
  match l with
  | [] => mret tt
  | (c, v) :: l => _ ← fat16_set_entry copy c v; put_entries copy l
  end.

(** The values [link_chain] stores. *)
Definition links (l : list Z) : list (Z * Z) := zip l (tail l ++ [0xFFFF]).

Lemma link_chain_put copy l s : link_chain copy l s = put_entries copy (links l) s.
Proof.
  revert s. induction l as [|c l IH]; intros s; [done|]. destruct l as [|d l]; [done|].
  cbn [link_chain]. change (links (c :: d :: l)) with ((c, d) :: links (d :: l)). cbn [put_entries].
  unfold mbind, io_bind. destruct (fat16_set_entry copy c d s) as [[u|e] s1]; [apply IH|done].
Qed.

Lemma set_entries_put copy l v s : set_entries copy l v s = put_entries copy ((., v) <$> l) s.
Proof.
  revert s. induction l as [|c l IH]; intros s; [done|]. simpl.
  unfold mbind, io_bind. destruct (fat16_set_entry copy c v s) as [[u|e] s1]; [apply IH|done].
Qed.

Lemma put_entries_spec copy l : forall s r s',
  ready_volume (priv s) -> 0 <= copy < 2 -> NoDup l.*1 ->
  Forall (fun '(c, v) => writable (priv s) c /\ 0 <= v < 65536) l ->
  put_entries copy l s = (r, s') ->
  match r with
  | Ok _ => quiet s s' /\ (forall c v, (c, v) ∈ l -> table_entry (im s') (priv s) copy c = v) /\
      forall a, (forall c, c ∈ l.*1 -> a < entry_addr (priv s) copy c \/ entry_addr (priv s) copy c + 2 <= a) ->
        im s' a = im s a
  | Err e => e = - EIO /\ ~ volume_good s
  end.
Proof.
  induction l as [|[c v] l IH]; intros s r s' R Hcopy Hnd Hall E; cbn [put_entries] in E.
  { apply mret_inv in E as [-> ->]. split; [done|]. split; [set_solver|done]. }
  inversion Hnd as [|? ? Hnin Hnd']; subst. apply Forall_cons in Hall as [Hcv0 Hall'].
  cbv beta iota in Hcv0. destruct Hcv0 as [Hc Hv].
  apply io_bind_inv in E as [(e & E & ->)|(u & s1 & E & E1)].
  { by apply set_entry_spec in E. }
  apply set_entry_spec in E as (Q & Hcv & Hout); [|done..]. pose proof (q_volume _ _ Q) as V.
  apply IH in E1; [|by eapply ready_volume_same|done|done|].
  2: { eapply Forall_impl; [done|]. intros [c' v'] [? ?]. by rewrite (writable_same _ _ _ V). }
  destruct r as [u'|e].
  2: { destruct E1 as [-> Hbad]. split; [done|]. intros Hg. by apply Hbad, (volume_good_quiet s). }
  destruct E1 as (Q1 & Hin & Hout1). split; [by etrans|]. split.
  - intros c' v' [[= -> ->]|Hin']%elem_of_cons.
    + rewrite <- Hcv. unfold table_entry.
      assert (Hx : forall a, entry_addr (priv s) copy c <= a < entry_addr (priv s) copy c + 2 -> im s' a = im s1 a).
      { intros a Ha. apply Hout1. intros c' Hc'. rewrite (entry_addr_same _ _ _ _ V).
        assert (Hw : writable (priv s) c').
        { apply list_elem_of_fmap in Hc' as ([c'' v'] & -> & Hin'). eapply Forall_forall in Hall'; [|done]. by destruct Hall'. }
        pose proof (entry_addr_disjoint _ R copy copy c c' Hc Hw Hcopy Hcopy) as Hdis.
        assert (c <> c') by (intros ->; done). specialize (Hdis ltac:(congruence)). lia. }
      rewrite !Hx by lia. done.
    + rewrite <- (table_entry_same _ _ _ _ _ V). by apply Hin.
  - intros a Ha. simpl in Ha. rewrite Hout1, Hout; [done|apply Ha; set_solver|].
    intros c' Hc'. rewrite (entry_addr_same _ _ _ _ V). apply Ha. set_solver.
Qed.

(** ** Zeroed clusters *)

Lemma zero_sectors_spec n : forall pos s r s',
  ready_volume (priv s) -> 0 <= pos -> pos + 512 * Z.of_nat n <= data_end (priv s) * 512 ->
  zero_sectors n pos s = (r, s') ->
  match r with
  | Ok _ => quiet s s' /\ forall a, im s' a = if (pos <=? a) && (a <? pos + 512 * Z.of_nat n) then 0 else im s a
  | Err e => e = - EIO /\ ~ volume_good s
  end.
Proof.
  induction n as [|n IH]; intros pos s r s' R Hp Hend E; cbn [zero_sectors] in E.
  { apply mret_inv in E as [-> ->]. split; [done|]. intros a. rewrite Z.mul_0_r, Z.add_0_r.
    destruct (Z.leb_spec pos a), (Z.ltb_spec a pos); simpl; done || lia. }
  assert (Hl : length (replicate (Z.to_nat 512) 0) = Z.to_nat 512) by apply length_replicate.
  apply io_bind_inv in E as [(e & E & ->)|(u & s1 & E & E1)].
  { apply write_in_volume in E; [done|done|by apply Forall_replicate; unfold is_byte; lia|done|lia|lia]. }
  apply write_in_volume in E as [Q Hi]; [|done|by apply Forall_replicate; unfold is_byte; lia|done|lia|lia].
  pose proof (q_volume _ _ Q) as V. apply IH in E1; [|by eapply ready_volume_same|lia|].
  2: { unfold data_end. rewrite (sv_writable _ _ V), (sv_header _ _ V), (sv_root _ _ V). fold (data_end (priv s)). lia. }
  destruct r as [u'|e].
  2: { destruct E1 as [-> Hbad]. split; [done|]. intros Hg. by apply Hbad, (volume_good_quiet s). }
  destruct E1 as [Q1 Hi1]. split; [by etrans|]. intros a. rewrite Hi1, Hi.
  destruct (Z.lt_ge_cases a (pos + 512)) as [Hlt|Hge].
  - rewrite (proj2 (Z.leb_gt (pos + 512) a)) by done. cbn [andb].
    destruct (Z.leb_spec pos a) as [Hpa|Hpa]; cbn [andb].
    + rewrite (proj2 (Z.ltb_lt _ _)) by lia. replace a with (pos + Z.of_nat (Z.to_nat (a - pos))) by lia.
      apply splice_in. apply lookup_replicate. lia.
    + apply splice_out. lia.
  - rewrite splice_out by lia. rewrite (proj2 (Z.leb_le (pos + 512) a)), (proj2 (Z.leb_le pos a)) by lia. cbn [andb].
    replace (pos + 512 + 512 * Z.of_nat n) with (pos + 512 * Z.of_nat (S n)) by lia. done.
Qed.

Definition in_cluster (p : fat_private) (c a : Z) : Prop := cluster_pos p c <= a < cluster_pos p c + cluster_bytes p.

Lemma in_cluster_same p q c a : same_volume p q -> in_cluster q c a <-> in_cluster p c a.
Proof. intros V. unfold in_cluster. by rewrite (cluster_pos_same _ _ _ V), (cluster_bytes_same _ _ V). Qed.

(** The position the code computes for a byte of a cluster. *)
Lemma cluster_position p c o :
  ready_volume p -> writable p c -> 0 <= o < cluster_bytes p ->
  i32 (fat16_cluster_to_sector p c * RORTHOX_SECTOR_SIZE + o) = cluster_pos p c + o.
Proof.
  intros R Hc Ho. pose proof (rv_geometry _ R) as G. pose proof (rv_limit _ R). pose proof (limit_bound p ltac:(lia)).
  unfold RORTHOX_SECTOR_SIZE. destruct (cluster_to_sector_eq p c G) as [-> _]; [unfold writable in Hc; lia|].
  destruct (cluster_pos_range _ R c Hc) as (Hlo & Hhi & _). pose proof (rv_end _ R) as He. unfold INT_MAX in He.
  destruct (sector_pos_eq _ R) as [Hsp Hse]. pose proof (geo_fat _ G). pose proof (geo_reserved _ G).
  apply i32_small. lia.
Qed.

Lemma cluster_pos_nonneg p c : ready_volume p -> writable p c -> 0 <= cluster_pos p c.
Proof.
  intros R Hc. destruct (cluster_pos_range _ R c Hc) as (Hlo & _). destruct (sector_pos_eq _ R) as [Hsp Hse].
  pose proof (rv_geometry _ R) as G. pose proof (geo_fat _ G). pose proof (geo_reserved _ G). lia.
Qed.

Lemma zero_clusters_spec l : forall s r s',
  ready_volume (priv s) -> Forall (writable (priv s)) l -> zero_clusters l s = (r, s') ->
  match r with
  | Ok _ => quiet s s' /\ (forall c a, c ∈ l -> in_cluster (priv s) c a -> im s' a = 0) /\
      (forall a, (forall c, c ∈ l -> ~ in_cluster (priv s) c a) -> im s' a = im s a)
  | Err e => e = - EIO /\ ~ volume_good s
  end.
Proof.
  induction l as [|c l IH]; intros s r s' R Hall E; cbn [zero_clusters] in E.
  { apply mret_inv in E as [-> ->]. split; [done|]. split; [set_solver|done]. }
  apply Forall_cons in Hall as [Hc Hall]. rewrite io_gets in E.
  destruct (cluster_bytes_pos _ R) as [Hbp Hb]. destruct (cluster_pos_range _ R c Hc) as (Hlo & Hhi & _).
  pose proof (cluster_pos_nonneg _ _ R Hc) as Hnn.
  pose proof (cluster_position _ c 0 R Hc ltac:(lia)) as Hpos. rewrite !Z.add_0_r in Hpos. rewrite Hpos in E.
  set (n := Z.to_nat (cluster_bytes (priv s) / 512)) in E.
  assert (Hn : 512 * Z.of_nat n = cluster_bytes (priv s)) by (subst n; lia).
  apply io_bind_inv in E as [(e & E & ->)|(u & s1 & E & E1)].
  { apply zero_sectors_spec in E; [done|done|done|lia]. }
  apply zero_sectors_spec in E as [Q Hi]; [|done|done|lia]. rewrite Hn in Hi. pose proof (q_volume _ _ Q) as V.
  apply IH in E1; [|by eapply ready_volume_same|].
  2: { eapply Forall_impl; [done|]. intros x Hx. by apply (writable_same _ _ _ V). }
  destruct r as [u'|e].
  2: { destruct E1 as [-> Hbad]. split; [done|]. intros Hg. by apply Hbad, (volume_good_quiet s). }
  destruct E1 as (Q1 & Hin & Hout). split; [by etrans|]. split.
  - intros d a Hd Ha. destruct (decide (d ∈ l)) as [Hdl|Hdl].
    { apply (Hin d); [done|]. by apply (in_cluster_same _ _ _ _ V). }
    assert (d = c) as -> by set_solver. rewrite Hout.
    + rewrite Hi. unfold in_cluster in Ha. by rewrite (proj2 (Z.leb_le _ _)), (proj2 (Z.ltb_lt _ _)) by lia.
    + intros x Hx Hxa. apply (in_cluster_same _ _ _ _ V) in Hxa. unfold in_cluster in *.
      destruct (cluster_pos_disjoint _ R x c (a - cluster_pos (priv s) x) (a - cluster_pos (priv s) c)) as [-> _];
        [lia|lia|lia|done].
  - intros a Ha. rewrite Hout, Hi.
    + assert (Hna : ~ in_cluster (priv s) c a) by (apply Ha; set_solver). unfold in_cluster in Hna.
      destruct (Z.leb_spec (cluster_pos (priv s) c) a), (Z.ltb_spec a (cluster_pos (priv s) c + cluster_bytes (priv s)));
        simpl; done || lia.
    + intros x Hx. rewrite (in_cluster_same _ _ _ _ V). apply Ha. set_solver.
Qed.

(** ** Data along a chain *)

(** The disk offset of byte [i] of the data of a chain. *)
Definition chain_addr (p : fat_private) (chain : list Z) (i : Z) : Z :=
  cluster_pos p (default 0 (chain !! Z.to_nat (i / cluster_bytes p))) + i mod cluster_bytes p.

Lemma chain_addr_same p q chain i : same_volume p q -> chain_addr q chain i = chain_addr p chain i.
Proof. intros V. unfold chain_addr. by rewrite (cluster_pos_same _ _ _ V), (cluster_bytes_same _ _ V). Qed.

Section chain.
Context (p : fat_private) (R : ready_volume p) (chain : list Z).
Abbreviation b := (cluster_bytes p).
Abbreviation size := (Z.of_nat (length chain) * cluster_bytes p).

Lemma chain_index i : 0 <= i < size -> 0 <= i / b < Z.of_nat (length chain).
Proof.
  intros Hi. destruct (cluster_bytes_pos _ R) as [Hb _].
  split; [apply Z.div_pos; lia|apply Z.div_lt_upper_bound; lia].
Qed.

Lemma chain_addr_cluster i : 0 <= i < size ->
  exists c, chain !! Z.to_nat (i / b) = Some c /\ chain_addr p chain i = cluster_pos p c + i mod b /\
    in_cluster p c (chain_addr p chain i).
Proof.
  intros Hi. pose proof (chain_index i Hi). destruct (cluster_bytes_pos _ R) as [Hb _].
  destruct (lookup_lt_is_Some_2 chain (Z.to_nat (i / b))) as [c Hc]; [lia|].
  exists c. split; [done|]. unfold chain_addr, in_cluster. rewrite Hc. simpl.
  pose proof (Z.mod_pos_bound i b Hb). lia.
Qed.

Lemma chain_addr_inj i j :
  NoDup chain -> 0 <= i < size -> 0 <= j < size -> chain_addr p chain i = chain_addr p chain j -> i = j.
Proof.
  intros Hnd Hi Hj E. destruct (chain_addr_cluster i Hi) as (c & Hc & Ec & _).
  destruct (chain_addr_cluster j Hj) as (d & Hd & Ed & _). rewrite Ec, Ed in E.
  destruct (cluster_bytes_pos _ R) as [Hb _].
  pose proof (Z.mod_pos_bound i b Hb). pose proof (Z.mod_pos_bound j b Hb).
  apply (cluster_pos_disjoint _ R) in E as [-> Hm]; [|done..].
  pose proof (NoDup_lookup _ _ _ _ Hnd Hc Hd). pose proof (chain_index i Hi). pose proof (chain_index j Hj).
  pose proof (Z.div_mod i b ltac:(lia)) as Hdi. pose proof (Z.div_mod j b ltac:(lia)) as Hdj.
  assert (Hq : i / b = j / b) by lia. rewrite Hq in Hdi. lia.
Qed.

(** Bytes in the same cluster are consecutive. *)
Lemma chain_addr_shift i k : 0 <= i -> 0 <= k -> i mod b + k < b ->
  chain_addr p chain (i + k) = chain_addr p chain i + k.
Proof.
  intros Hi Hk Hlt. destruct (cluster_bytes_pos _ R) as [Hb _].
  pose proof (Z.div_mod i b ltac:(lia)) as Hdi. pose proof (Z.mod_pos_bound i b Hb).
  assert (Hm : i + k = b * (i / b) + (i mod b + k)) by lia.
  unfold chain_addr. rewrite <- (Z.div_unique (i + k) b (i / b) (i mod b + k)) by lia.
  rewrite <- (Z.mod_unique (i + k) b (i / b) (i mod b + k)) by lia. lia.
Qed.
End chain.

Lemma write_data_step chain position left inp part s s1 s' :
  ready_volume (priv s) -> NoDup chain -> 0 <= position -> 0 < part <= left -> left = Z.of_nat (length inp) ->
  position mod cluster_bytes (priv s) + part <= cluster_bytes (priv s) ->
  position + left <= Z.of_nat (length chain) * cluster_bytes (priv s) ->
  (forall a, im s1 a = splice (im s) (chain_addr (priv s) chain position) (take (Z.to_nat part) inp) a) ->
  (forall i, 0 <= i < left - part -> im s' (chain_addr (priv s) chain (position + part + i)) =
     byte_at (drop (Z.to_nat part) inp) (Z.to_nat i)) ->
  (forall a, (forall i, 0 <= i < left - part -> a <> chain_addr (priv s) chain (position + part + i)) -> im s' a = im s1 a) ->
  (forall i, 0 <= i < left -> im s' (chain_addr (priv s) chain (position + i)) = byte_at inp (Z.to_nat i)) /\
  (forall a, (forall i, 0 <= i < left -> a <> chain_addr (priv s) chain (position + i)) -> im s' a = im s a).
Proof.
  intros R Hnd Hp Hpart Hlen Hmod Hend Hi1 Hin Hout. split.
  - intros i Hi. destruct (Z.lt_ge_cases i part) as [Hlt|Hge].
    + rewrite Hout.
      2: { intros j Hj E. apply (chain_addr_inj _ R) in E; [lia|done|lia|lia]. }
      rewrite Hi1, (chain_addr_shift _ R) by lia.
      destruct (lookup_lt_is_Some_2 inp (Z.to_nat i)) as [v Hv]; [lia|].
      unfold byte_at. rewrite Hv. simpl.
      replace i with (Z.of_nat (Z.to_nat i)) at 1 by lia. apply splice_in.
      rewrite lookup_take_lt by lia. done.
    + specialize (Hin (i - part) ltac:(lia)). replace (position + part + (i - part)) with (position + i) in Hin by lia.
      rewrite Hin. unfold byte_at. rewrite lookup_drop. do 2 f_equal. lia.
  - intros a Ha. rewrite Hout.
    + rewrite Hi1. destruct (Z.lt_ge_cases a (chain_addr (priv s) chain position)); [apply splice_out; lia|].
      destruct (Z.lt_ge_cases a (chain_addr (priv s) chain position + part)).
      * exfalso. apply (Ha (a - chain_addr (priv s) chain position)); [lia|]. rewrite (chain_addr_shift _ R) by lia. lia.
      * apply splice_out. rewrite length_take. lia.
    + intros i Hi. rewrite <- Z.add_assoc. apply Ha. lia.
Qed.

Lemma write_data_loop_spec fuel chain : forall position left inp s r s',
  ready_volume (priv s) -> Forall (writable (priv s)) chain -> NoDup chain ->
  0 <= position -> 0 <= left <= Z.of_nat fuel -> left = Z.of_nat (length inp) -> Forall is_byte inp ->
  position + left <= Z.of_nat (length chain) * cluster_bytes (priv s) ->
  write_data_loop fuel chain position left inp s = (r, s') ->
  match r with
  | Ok _ => quiet s s' /\
      (forall i, 0 <= i < left -> im s' (chain_addr (priv s) chain (position + i)) = byte_at inp (Z.to_nat i)) /\
      (forall a, (forall i, 0 <= i < left -> a <> chain_addr (priv s) chain (position + i)) -> im s' a = im s a)
  | Err e => e = - EIO /\ ~ volume_good s
  end.
Proof.
  induction fuel as [|fuel IH]; intros position left inp s r s' R Hw Hnd Hp Hf Hlen Hb Hend E; cbn [write_data_loop] in E.
  { apply mret_inv in E as [-> ->]. split; [done|]. split; [lia|done]. }
  destruct (Z.eqb_spec left 0) as [Hz|Hz].
  { apply mret_inv in E as [-> ->]. split; [done|]. split; [lia|done]. }
  cbn [negb] in E. rewrite io_gets in E. cbv zeta in E. destruct (cluster_bytes_pos _ R) as [Hbp _].
  set (b := cluster_bytes (priv s)) in *. pose proof (Z.mod_pos_bound position b Hbp) as Hm.
  set (part := if left <? b - position mod b then left else b - position mod b) in *.
  assert (Hpart : 0 < part <= left /\ position mod b + part <= b) by (subst part; case_Zb; lia).
  destruct (chain_addr_cluster _ R chain position) as (c & Hc & Hca & _); [lia|]. fold b in Hc, Hca.
  assert (Hwc : writable (priv s) c) by (eapply Forall_lookup in Hw; done).
  rewrite Hc in E. cbn [default from_option id] in E. rewrite cluster_position, <- Hca in E by (done || lia).
  destruct (cluster_pos_range _ R c Hwc) as (Hlo & Hhi & _). pose proof (cluster_pos_nonneg _ _ R Hwc).
  assert (Hl : length (take (Z.to_nat part) inp) = Z.to_nat part) by (rewrite length_take; lia).
  assert (Hwrite : forall r1 s1, fat16_write_at (chain_addr (priv s) chain position) (take (Z.to_nat part) inp) s = (r1, s1) ->
    match r1 with
    | Ok _ => quiet s s1 /\ forall a, im s1 a = splice (im s) (chain_addr (priv s) chain position) (take (Z.to_nat part) inp) a
    | Err e => e = - EIO /\ ~ volume_good s end).
  { intros r1 s1. apply write_in_volume; [done|by apply Forall_take|lia|lia|]. fold b in Hhi. lia. }
  apply io_bind_inv in E as [(e & E & ->)|(u & s1 & E & E1)]; [by apply Hwrite in E|].
  apply Hwrite in E as [Q Hi1]. pose proof (q_volume _ _ Q) as V.
  apply IH in E1; [|by eapply ready_volume_same| |done|lia|lia|rewrite length_drop; lia|by apply Forall_drop|].
  2: { eapply Forall_impl; [done|]. intros x Hx. by apply (writable_same _ _ _ V). }
  2: { rewrite (cluster_bytes_same _ _ V). fold b. lia. }
  destruct r as [u'|e].
  2: { destruct E1 as [-> Hbad]. split; [done|]. intros Hg. by apply Hbad, (volume_good_quiet s). }
  destruct E1 as (Q1 & Hin & Hout). split; [by etrans|].
  apply (write_data_step chain position left inp part s s1 s'); [done|done|done|lia|done|fold b; lia|fold b; lia|done|..].
  - intros i Hi. rewrite <- (chain_addr_same _ _ _ _ V). by apply Hin.
  - intros a Ha. apply Hout. intros i Hi. rewrite (chain_addr_same _ _ _ _ V). by apply Ha.
Qed.

(** ** Allocation *)

(** The clusters marked free in both tables, in order. *)
Definition free_clusters (f : Z -> Z) (p : fat_private) : list Z :=
  filter (is_free f p) (seqZ 2 (max_writable p - 1)).

Lemma free_clusters_elem f p c : c ∈ free_clusters f p <-> is_free f p c /\ writable p c.
Proof.
  unfold free_clusters, writable. rewrite list_elem_of_filter, elem_of_seqZ. split; intros []; (split; [done|lia]).
Qed.

Lemma free_clusters_nodup f p : NoDup (free_clusters f p).
Proof. apply NoDup_filter, NoDup_seqZ. Qed.

Lemma chain_entry f p first l k c :
  is_chain f p first l -> l !! k = Some c ->
  match l !! S k with
  | Some d => fat_entry f p c = d
  | None => RORTHOX_FAT16_EOC_START <= fat_entry f p c
  end.
Proof.
  intros C Hk. destruct (l !! S k) as [d|] eqn:Hd.
  - rewrite (ch_nth _ _ _ _ C _ _ Hd), nth_cluster_succ. by rewrite <- (ch_nth _ _ _ _ C _ _ Hk).
  - apply lookup_ge_None in Hd. pose proof (lookup_lt_Some _ _ _ Hk). pose proof (ch_end _ _ _ _ C) as He.
    rewrite last_lookup in He. replace (pred (length l)) with k in He by lia. by rewrite Hk in He.
Qed.

(** The clusters of a chain are not free. *)
Lemma chain_not_free f p first l c : is_chain f p first l -> c ∈ l -> ~ is_free f p c.
Proof.
  intros C [k Hk]%list_elem_of_lookup [Hf _]. rewrite table_entry_first in Hf.
  pose proof (chain_entry _ _ _ _ _ _ C Hk) as He. unfold RORTHOX_FAT16_EOC_START in He.
  destruct (l !! S k) as [d|] eqn:Hd; [|lia].
  destruct (ch_valid _ _ _ _ C d) as [Hv _]; [by eapply list_elem_of_lookup_2|]. apply valid_range in Hv. lia.
Qed.

Lemma chain_writable f p first l : is_chain f p first l -> Forall (writable p) l.
Proof.
  intros C. apply Forall_forall. intros c Hc. destruct (ch_valid _ _ _ _ C c Hc) as [Hv Hm].
  apply valid_range in Hv. unfold writable. lia.
Qed.

Lemma chain_fits f p first l :
  is_chain f p first l -> Z.of_nat (length l + length (free_clusters f p)) <= Z.max 0 (max_writable p - 1).
Proof.
  intros C. rewrite <- length_app. transitivity (Z.of_nat (length (seqZ 2 (max_writable p - 1)))).
  2: { rewrite length_seqZ. lia. }
  apply Nat2Z.inj_le, submseteq_length, NoDup_submseteq.
  - apply NoDup_app. split; [apply C|]. split; [|apply free_clusters_nodup].
    intros c Hc [Hf _]%free_clusters_elem. by eapply chain_not_free.
  - intros c. rewrite elem_of_app, free_clusters_elem, elem_of_seqZ. pose proof (chain_writable _ _ _ _ C) as Hw.
    rewrite Forall_forall in Hw. unfold writable in *. intros [Hc%Hw|[_ Hc]]; lia.
Qed.

Lemma limit_in_table p : geometry p -> 0 < fat16_cluster_limit p ->
  2 * fat16_cluster_limit p + 2 <= sectors_per_fat (header p) * 512.
Proof.
  intros G Hl. apply valid_in_table; [done|]. pose proof (limit_bound p Hl).
  assert (4086 <= fat16_cluster_limit p).
  { revert Hl. unfold fat16_cluster_limit. cbv zeta. destruct (_ || (_ <=? _)); [lia|].
    set (count := (_ - _) / _). destruct (_ || _ || _) eqn:Hb; [lia|]. rewrite !orb_false_iff, !Z.ltb_ge in Hb. lia. }
  unfold fat16_valid_cluster, RORTHOX_FAT16_BAD_SECTOR, RORTHOX_FAT16_EOC_START.
  rewrite !andb_true_iff, !Z.leb_le, negb_true_iff, Z.eqb_neq, Z.ltb_lt. lia.
Qed.

Lemma allocate_spec first old needed s r s' :
  ready_volume (priv s) -> is_chain (im s) (priv s) first old -> Z.of_nat (length old) <= needed ->
  fat16_allocate old needed s = (r, s') ->
  reads s s' /\
  match r with
  | Ok chain => Z.of_nat (length chain) = needed /\
      chain = old ++ take (Z.to_nat needed - length old) (free_clusters (im s) (priv s))
  | Err e => e < 0 /\ (tables_good s -> e = - ENOSPC /\
      Z.of_nat (length old + length (free_clusters (im s) (priv s))) < needed)
  end.
Proof.
  intros R C Hn E. unfold fat16_allocate in E. rewrite io_gets, io_fail_if in E.
  pose proof (chain_fits _ _ _ _ C) as Hfit. pose proof (rv_limit _ R) as Hlim.
  destruct (Z.ltb_spec (max_writable (priv s) - 1) needed) as [Hbig|Hbig].
  { injection E as <- <-. split; [done|]. split; [unfold ENOSPC; lia|]. intros _. split; [done|lia]. }
  pose proof (limit_in_table _ (rv_geometry _ R) ltac:(lia)) as Htab.
  apply io_bind_inv in E as [(e & E & ->)|(chain & s1 & E & E1)].
  { apply allocate_loop_spec in E as (Rd & He & Hbad); [|lia|lia|unfold tables_loaded; lia]. done. }
  apply allocate_loop_spec in E as (Rd & Hc); [|lia|lia|unfold tables_loaded; lia].
  rewrite Z2Nat.id in Hc by lia. fold (free_clusters (im s) (priv s)) in Hc.
  rewrite io_fail_if in E1. destruct (Z.eqb_spec (Z.of_nat (length chain)) needed) as [Heq|Hne]; cbn [negb] in E1.
  - apply mret_inv in E1 as [-> ->]. done.
  - injection E1 as <- <-. split; [done|]. split; [unfold ENOSPC; lia|]. intros _. split; [done|].
    rewrite Hc, length_app, length_take in Hne. lia.
Qed.

(** ** The stages of a write *)

(** Table entries go to both copies, each made durable before the next. *)
Definition put_both (l : list (Z * Z)) : io (fs D H) unit :=
  _ ← put_entries 0 l;
  _ ← fat16_flush;
  _ ← put_entries 1 l;
  fat16_flush.

Lemma flush_quiet s r s' :
  fat16_flush s = (r, s') ->
  match r with
  | Ok _ => quiet s s' /\ forall a, im s' a = im s a
  | Err e => e = - EIO /\ ~ volume_good s
  end.
Proof.
  intros E%flush_spec. destruct r; [split; [by apply reads_quiet|apply E]|].
  destruct E as (-> & Hbad & _). split; [done|]. by intros [_ Hf].
Qed.

(** The addresses of the entries of [l] in both tables. *)
Definition in_entries (p : fat_private) (l : list Z) (a : Z) : Prop :=
  exists copy c, 0 <= copy < 2 /\ c ∈ l /\ entry_addr p copy c <= a < entry_addr p copy c + 2.

Lemma table_entry_ext f g p copy c :
  (forall a, entry_addr p copy c <= a < entry_addr p copy c + 2 -> f a = g a) ->
  table_entry f p copy c = table_entry g p copy c.
Proof. intros E. unfold table_entry. rewrite !E by lia. done. Qed.

Lemma put_both_spec l s r s' :
  ready_volume (priv s) -> NoDup l.*1 -> Forall (fun '(c, v) => writable (priv s) c /\ 0 <= v < 65536) l ->
  put_both l s = (r, s') ->
  match r with
  | Ok _ => quiet s s' /\
      (forall copy c v, 0 <= copy < 2 -> (c, v) ∈ l -> table_entry (im s') (priv s) copy c = v) /\
      (forall a, ~ in_entries (priv s) l.*1 a -> im s' a = im s a)
  | Err e => e = - EIO /\ ~ volume_good s
  end.
Proof.
  intros R Hnd Hall E. unfold put_both in E.
  apply io_bind_inv in E as [(e & E & ->)|(u & s1 & E & E1)]; [by apply put_entries_spec in E|].
  apply put_entries_spec in E as (Q1 & Hin1 & Hout1); [|done || lia..].
  apply io_bind_inv in E1 as [(e & E & ->)|(u1 & s2 & E & E2)]; apply flush_quiet in E.
  { destruct E as [-> Hbad]. split; [done|]. intros Hg. by apply Hbad, (volume_good_quiet s). }
  destruct E as [Q2 Hi2]. assert (Q12 : quiet s s2) by by etrans. pose proof (q_volume _ _ Q12) as V.
  assert (Hall2 : Forall (fun '(c, v) => writable (priv s2) c /\ 0 <= v < 65536) l).
  { eapply Forall_impl; [done|]. intros [c v] [? ?]. by rewrite (writable_same _ _ _ V). }
  assert (R2 : ready_volume (priv s2)) by by eapply ready_volume_same.
  apply io_bind_inv in E2 as [(e & E & ->)|(u2 & s3 & E & E3)].
  { apply put_entries_spec in E; [|done || lia..]. destruct E as [-> Hbad].
    split; [done|]. intros Hg. by apply Hbad, (volume_good_quiet s). }
  apply put_entries_spec in E as (Q3 & Hin3 & Hout3); [|done || lia..]. apply flush_quiet in E3.
  destruct r as [u3|e].
  2: { destruct E3 as [-> Hbad]. split; [done|]. intros Hg. apply Hbad.
       apply (volume_good_quiet s); [|done]. by etrans. }
  destruct E3 as [Q4 Hi4]. split; [by do 2 (etrans; [done|])|].
  assert (Hw : forall c, c ∈ l.*1 -> writable (priv s) c).
  { intros c ([c' v] & -> & Hc)%list_elem_of_fmap. eapply Forall_forall in Hall; [|done]. by destruct Hall. }
  split.
  - intros copy c v Hcopy Hcv. assert (Hc : c ∈ l.*1) by (apply list_elem_of_fmap; by exists (c, v)).
    rewrite (table_entry_ext _ (im s3)) by auto. destruct (Z.eq_dec copy 1) as [->|Hne].
    { rewrite <- (table_entry_same _ _ _ _ _ V). by apply Hin3. }
    assert (copy = 0) as -> by lia. rewrite <- (Hin1 c v Hcv). apply table_entry_ext. intros a Ha.
    rewrite Hout3, Hi2; [done|]. intros d Hd. rewrite (entry_addr_same _ _ _ _ V).
    pose proof (entry_addr_disjoint _ R 0 1 c d (Hw _ Hc) (Hw _ Hd) ltac:(lia) ltac:(lia) ltac:(congruence)).
    lia.
  - intros a Ha. rewrite Hi4, Hout3, Hi2, Hout1; [done|..].
    + intros c Hc. destruct (Z.lt_ge_cases a (entry_addr (priv s) 0 c)); [by left|].
      destruct (Z.lt_ge_cases a (entry_addr (priv s) 0 c + 2)); [|by right].
      destruct Ha. exists 0, c. split; [lia|]. done.
    + intros c Hc. rewrite (entry_addr_same _ _ _ _ V). destruct (Z.lt_ge_cases a (entry_addr (priv s) 1 c)); [by left|].
      destruct (Z.lt_ge_cases a (entry_addr (priv s) 1 c + 2)); [|by right].
      destruct Ha. exists 1, c. split; [lia|]. done.
Qed.

(** The entries [attach_chain] sets. *)
Definition attached (old ext : list Z) : list (Z * Z) :=
  links ext ++ match last old, head ext with Some t, Some h => [(t, h)] | _, _ => [] end.

Lemma links_fst l : (links l).*1 = l.
Proof. unfold links. apply fst_zip. rewrite length_app. destruct l; simpl; lia. Qed.

Lemma links_lookup l k c : l !! k = Some c -> links l !! k = Some (c, default 0xFFFF (l !! S k)).
Proof.
  intros Hk. unfold links. apply lookup_zip_with_Some. exists c. eexists. split; [done|]. split; [done|].
  destruct l as [|x l]; [done|]. simpl. destruct (l !! k) as [d|] eqn:Hd; simpl.
  - by apply lookup_app_l_Some.
  - apply lookup_ge_None in Hd. pose proof (lookup_lt_Some _ _ _ Hk). simpl in *.
    rewrite lookup_app_r by lia. by replace (k - length l)%nat with 0%nat by lia.
Qed.

Lemma links_range p l : Forall (writable p) l -> max_writable p < 65536 ->
  Forall (fun '(c, v) => writable p c /\ 0 <= v < 65536) (links l).
Proof.
  intros Hw Hm. apply Forall_lookup. intros k [c v] Hk. assert (Hc : l !! k = Some c).
  { apply lookup_zip_with_Some in Hk as (? & ? & [= -> ->] & ? & _). done. }
  rewrite (links_lookup _ _ _ Hc) in Hk. injection Hk as <-. rewrite Forall_lookup in Hw.
  split; [by eapply Hw|]. destruct (l !! S k) as [d|] eqn:Hd; simpl; [|lia].
  apply Hw in Hd. unfold writable in Hd. lia.
Qed.

Lemma attach_chain_put old h ext s :
  attach_chain old (h :: ext) (Z.of_nat (length (old ++ h :: ext))) s =
  (_ ← put_both (links (h :: ext));
   match last old with None => mret tt | Some t => put_both [(t, h)] end) s.
Proof.
  unfold attach_chain, put_both.
  rewrite (proj2 (Z.ltb_lt (Z.of_nat (length old)) _)) by (rewrite length_app; simpl; lia). rewrite io_bind_assoc.
  apply io_bind_ext; [apply link_chain_put|]. intros [] s1 _. rewrite io_bind_assoc.
  apply io_bind_ext; [done|]. intros [] s2 _. rewrite io_bind_assoc.
  apply io_bind_ext; [apply link_chain_put|]. intros [] s3 _.
  apply io_bind_ext; [done|]. intros [] s4 _. destruct (last old) as [t|]; [|done].
  cbn [put_entries head default from_option id]. rewrite io_bind_assoc.
  apply io_bind_ext; [done|]. intros [] s5 _. rewrite io_mret. apply io_bind_ext; [done|]. intros [] s6 _.
  rewrite io_bind_assoc. apply io_bind_ext; [done|]. intros [] s7 _. by rewrite io_mret.
Qed.

Lemma attach_chain_spec old ext needed s r s' :
  ready_volume (priv s) -> Forall (writable (priv s)) (old ++ ext) -> NoDup (old ++ ext) ->
  needed = Z.of_nat (length (old ++ ext)) ->
  attach_chain old ext needed s = (r, s') ->
  match r with
  | Ok _ => quiet s s' /\
      (forall copy c v, 0 <= copy < 2 -> (c, v) ∈ attached old ext -> table_entry (im s') (priv s) copy c = v) /\
      (forall a, ~ in_entries (priv s) (attached old ext).*1 a -> im s' a = im s a)
  | Err e => e = - EIO /\ ~ volume_good s
  end.
Proof.
  intros R Hw (Hno & Hdis & Hne)%NoDup_app -> E. destruct ext as [|h ext].
  { unfold attach_chain in E. rewrite app_nil_r, Z.ltb_irrefl in E. apply mret_inv in E as [-> ->].
    split; [done|]. split; [|done]. unfold attached. simpl. intros copy c v _. destruct (last old); set_solver. }
  rewrite attach_chain_put in E. apply Forall_app in Hw as [Hwo Hwe].
  pose proof (rv_limit _ R). pose proof (limit_bound (priv s) ltac:(lia)).
  apply io_bind_inv in E as [(e & E & ->)|(u & s1 & E & E1)].
  { apply put_both_spec in E; [done|done|by rewrite links_fst|apply links_range; [done|lia]]. }
  apply put_both_spec in E as (Q & Hin & Hout); [|done|by rewrite links_fst|apply links_range; [done|lia]].
  unfold attached. destruct (last old) as [t|] eqn:Hlast.
  2: { apply mret_inv in E1 as [-> ->]. rewrite app_nil_r. done. }
  pose proof (q_volume _ _ Q) as V. assert (Ht : t ∈ old) by by apply last_Some_elem_of.
  assert (Hwt : writable (priv s) t) by (rewrite Forall_forall in Hwo; auto).
  assert (Hth : t ∉ h :: ext) by by apply Hdis.
  apply put_both_spec in E1; [|by eapply ready_volume_same|by apply NoDup_singleton|].
  2: { apply Forall_singleton. apply Forall_cons in Hwe as [Hwh _]. rewrite (writable_same _ _ _ V).
       unfold writable in *. lia. }
  destruct r as [u'|e].
  2: { destruct E1 as [-> Hbad]. split; [done|]. intros Hg. by apply Hbad, (volume_good_quiet s). }
  destruct E1 as (Q1 & Hin1 & Hout1). split; [by etrans|]. simpl head. cbv iota beta. split.
  - intros copy c v Hcopy [Hc|Hc%list_elem_of_singleton]%elem_of_app.
    2: { rewrite <- (table_entry_same _ _ _ _ _ V). apply Hin1; [done|]. rewrite Hc. set_solver. }
    rewrite <- (Hin copy c v Hcopy Hc). apply table_entry_ext. intros a Ha. apply Hout1.
    intros (copy' & d & Hcopy' & Hd & Had). assert (d = t) as -> by set_solver.
    rewrite (entry_addr_same _ _ _ _ V) in Had. assert (Hce : c ∈ h :: ext).
    { rewrite <- links_fst. apply list_elem_of_fmap. by exists (c, v). }
    assert (Hwc : writable (priv s) c) by (rewrite Forall_forall in Hwe; auto).
    pose proof (entry_addr_disjoint _ R copy copy' c t Hwc Hwt Hcopy Hcopy') as Hd'.
    assert (c <> t) by (intros ->; done). specialize (Hd' ltac:(congruence)). lia.
  - intros a Ha. rewrite fmap_app in Ha. rewrite Hout1, Hout; [done|..].
    + intros (copy & c & ? & Hc & ?). apply Ha. exists copy, c. set_solver.
    + intros (copy & c & ? & Hc & Hac). rewrite (entry_addr_same _ _ _ _ V) in Hac. apply Ha. exists copy, c. set_solver.
Qed.
End writing.
