(* ===== verification/FatFile.v ===== *)
(** * FAT16: the contents of a file after a write (kernel/fs/fat/fat16.c)

    [fat16_prepare_write] establishes the invariant of a writable volume; [fat16_write_bytes] replaces
    exactly the requested bytes of the file, extends its chain with free clusters, keeps the two tables
    equal and leaves every other file alone. *)

From stdpp Require Import base numbers list gmap.
From Stdlib Require Import ZArith Lia.
From S2P Require Import Prelude Alloc Memory Effects Disk Fat FatWrite FatData.

#[local] Set Default Goal Selector "!".

(** ** Volumes with the same layout *)

Record same_layout (p q : fat_private) : Prop := SameLayout {
  sl_header : header q = header p;
  sl_pos : sector_pos (root_directory q) = sector_pos (root_directory p);
  sl_end : ending_sector_pos (root_directory q) = ending_sector_pos (root_directory p);
  sl_first : first_cluster (root_directory q) = first_cluster (root_directory p);
  sl_writable : max_writable q = max_writable p
}.

#[export] Instance same_layout_equivalence : Equivalence same_layout.
Proof. split; [done|intros p q []; by constructor|intros p q r [] []; constructor; congruence]. Qed.

Lemma same_volume_layout p q : same_volume p q -> same_layout p q.
Proof. intros []. constructor; congruence. Qed.

Lemma publish_layout pos it p : same_layout p (fat16_publish pos it p).
Proof. unfold fat16_publish, publish_root. constructor; simpl; by case_match. Qed.

(** A definition that depends on the layout only is the same for both volumes. *)
Ltac layout L :=
  repeat progress (rewrite ?(sl_header _ _ L), ?(sl_pos _ _ L), ?(sl_end _ _ L), ?(sl_first _ _ L),
    ?(sl_writable _ _ L)).

Section layouts.
Context (p q : fat_private) (L : same_layout p q).

Lemma limit_layout : fat16_cluster_limit q = fat16_cluster_limit p.
Proof using L. unfold fat16_cluster_limit. by layout L. Qed.

Lemma valid_layout c : fat16_valid_cluster q c = fat16_valid_cluster p c.
Proof using L. unfold fat16_valid_cluster. by rewrite limit_layout. Qed.

Lemma cluster_bytes_layout : cluster_bytes q = cluster_bytes p.
Proof using L. unfold cluster_bytes. by layout L. Qed.

Lemma cluster_pos_layout c : cluster_pos q c = cluster_pos p c.
Proof using L. unfold cluster_pos. by layout L. Qed.

Lemma fat_entry_layout f c : fat_entry f q c = fat_entry f p c.
Proof using L. unfold fat_entry. by layout L. Qed.

Lemma table_entry_layout f copy c : table_entry f q copy c = table_entry f p copy c.
Proof using L. unfold table_entry, entry_addr. by layout L. Qed.

Lemma nth_cluster_layout f n : forall c, nth_cluster f q n c = nth_cluster f p n c.
Proof using L. induction n as [|n IH]; intros c; simpl; [done|]. by rewrite fat_entry_layout, IH. Qed.

Lemma chain_byte_layout f c i : chain_byte f q c i = chain_byte f p c i.
Proof using L. unfold chain_byte. by rewrite cluster_bytes_layout, nth_cluster_layout, cluster_pos_layout. Qed.

Lemma is_chain_layout f first l : is_chain f p first l -> is_chain f q first l.
Proof using L.
  intros [C1 C2 C3 C4]. constructor; [|intros c Hc; rewrite valid_layout, (sl_writable _ _ L); by apply C2|done|].
  - intros k c Hk. rewrite nth_cluster_layout. by apply C1.
  - destruct (last l); [by rewrite fat_entry_layout|done].
Qed.
End layouts.

(** ** Images *)

Lemma fat_entry_ext f g p c : table_entry f p 0 c = table_entry g p 0 c -> fat_entry f p c = fat_entry g p c.
Proof. by rewrite !table_entry_first. Qed.

(** A chain is determined by the entries of its clusters. *)
Lemma is_chain_intro f p first l :
  NoDup l -> (forall c, c ∈ l -> fat16_valid_cluster p c = true /\ c <= max_writable p) ->
  first = default 0 (head l) ->
  (forall k c, l !! k = Some c -> match l !! S k with
     | Some d => fat_entry f p c = d
     | None => RORTHOX_FAT16_EOC_START <= fat_entry f p c end) ->
  is_chain f p first l.
Proof.
  intros Hnd Hv Hf He. constructor; [|done|done|].
  - intros k. induction k as [|k IH]; intros c Hk.
    + rewrite <- head_lookup in Hk. by rewrite Hk in Hf.
    + destruct (l !! k) as [d|] eqn:Hd.
      2: { apply lookup_ge_None in Hd. apply lookup_lt_Some in Hk. lia. }
      specialize (He k d Hd). rewrite Hk in He. by rewrite nth_cluster_succ, <- (IH d eq_refl).
  - destruct (last l) as [c|] eqn:Hl.
    + rewrite last_lookup in Hl. specialize (He _ _ Hl). by rewrite lookup_ge_None_2 in He by lia.
    + by apply last_None in Hl as ->.
Qed.

(** The data of a chain, by the positions of its clusters. *)
Lemma chain_byte_addr f p first l i :
  ready_volume p -> is_chain f p first l -> 0 <= i < Z.of_nat (length l) * cluster_bytes p ->
  chain_byte f p first i = f (chain_addr p l i).
Proof.
  intros R C Hi. destruct (chain_addr_cluster _ R l i Hi) as (c & Hc & -> & _).
  unfold chain_byte. by rewrite <- (ch_nth _ _ _ _ C _ _ Hc).
Qed.

(** ** The image of a write *)

(** The bytes of a directory entry lie behind the tables, inside the volume and outside the clusters. *)
Record entry_clear (p : fat_private) (entry : Z) (clusters : Z -> Prop) : Prop := EntryClear {
  ec_low : sector_pos (root_directory p) * 512 <= entry;
  ec_high : entry + 32 <= data_end p * 512;
  ec_clusters c a : clusters c -> entry <= a < entry + 32 -> ~ in_cluster p c a
}.

(** The image [f'] is [f] with the [count] bytes [inp] at byte [start] of the chain [old ++ ext], the new
    clusters attached and the directory entry [bs] at [entry]. *)
Record write_image (p : fat_private) (old ext : list Z) (start : Z) (inp : list Z) (entry : Z) (bs : list Z)
    (f f' : Z -> Z) : Prop := WriteImage {
  wi_data i : 0 <= i < Z.of_nat (length inp) ->
    f' (chain_addr p (old ++ ext) (start + i)) = byte_at inp (Z.to_nat i);
  wi_item : slice f' entry 32 = bs;
  wi_entries copy c v : 0 <= copy < 2 -> (c, v) ∈ attached old ext -> table_entry f' p copy c = v;
  wi_frame a :
    (forall c, c ∈ ext -> ~ in_cluster p c a) ->
    (forall i, 0 <= i < Z.of_nat (length inp) -> a <> chain_addr p (old ++ ext) (start + i)) ->
    ~ in_entries p (attached old ext).*1 a ->
    (a < entry \/ entry + 32 <= a) -> f' a = f a
}.

Lemma in_cluster_behind p c a :
  ready_volume p -> writable p c -> in_cluster p c a -> ending_sector_pos (root_directory p) * 512 <= a.
Proof. intros R Hc Ha. destruct (cluster_pos_range _ R c Hc) as (? & _). unfold in_cluster in Ha. lia. Qed.

Lemma in_entries_front p l a :
  ready_volume p -> (forall c, c ∈ l -> writable p c) -> in_entries p l a ->
  a < sector_pos (root_directory p) * 512.
Proof.
  intros R Hl (copy & c & Hcopy & Hc & Ha). destruct (entry_addr_range _ R copy c (Hl _ Hc) Hcopy). lia.
Qed.

Lemma attached_elem old ext c : c ∈ (attached old ext).*1 <-> c ∈ ext \/ ext <> [] /\ last old = Some c.
Proof.
  unfold attached. rewrite fmap_app, elem_of_app, links_fst.
  destruct (last old) as [t|], ext as [|h l]; simpl; set_solver.
Qed.

Section image.
Context (p : fat_private) (R : ready_volume p) (old ext : list Z) (start : Z) (inp : list Z).
Context (Hw : Forall (writable p) (old ++ ext)) (Hnd : NoDup (old ++ ext)) (Hstart : 0 <= start).
Context (Hend : start + Z.of_nat (length inp) <= Z.of_nat (length (old ++ ext)) * cluster_bytes p).
Implicit Types f : Z -> Z.

Lemma elem_writable c : c ∈ old ++ ext -> writable p c.
Proof using Hw. rewrite Forall_forall in Hw. apply Hw. Qed.

Lemma chain_addr_in i : 0 <= i < Z.of_nat (length (old ++ ext)) * cluster_bytes p ->
  exists c, c ∈ old ++ ext /\ in_cluster p c (chain_addr p (old ++ ext) i).
Proof using R.
  intros Hi. destruct (chain_addr_cluster _ R (old ++ ext) i Hi) as (c & Hc & _ & Hin).
  exists c. split; [by eapply list_elem_of_lookup_2|done].
Qed.

Lemma attached_writable c : c ∈ (attached old ext).*1 -> writable p c.
Proof using Hw.
  rewrite attached_elem. intros [Hc|[_ Hc%last_Some_elem_of]]; apply elem_writable, elem_of_app; [by right|by left].
Qed.

(** The three stages of a write give its image. *)
Lemma write_image_intro f f1 f2 f3 entry bs :
  entry_clear p entry (fun c => c ∈ old ++ ext) -> length bs = 32%nat ->
  (forall i, 0 <= i < Z.of_nat (length inp) -> f1 (chain_addr p (old ++ ext) (start + i)) = byte_at inp (Z.to_nat i)) ->
  (forall a, (forall c, c ∈ ext -> ~ in_cluster p c a) ->
     (forall i, 0 <= i < Z.of_nat (length inp) -> a <> chain_addr p (old ++ ext) (start + i)) -> f1 a = f a) ->
  (forall copy c v, 0 <= copy < 2 -> (c, v) ∈ attached old ext -> table_entry f2 p copy c = v) ->
  (forall a, ~ in_entries p (attached old ext).*1 a -> f2 a = f1 a) ->
  (forall a, f3 a = splice f2 entry bs a) ->
  write_image p old ext start inp entry bs f f3.
Proof using R Hw Hstart Hend.
  intros Cl Hbs HD1 HD3 HT1 HT3 HC. pose proof (cluster_bytes_pos _ R) as [Hb _].
  destruct (sector_pos_eq _ R) as [_ Hse]. constructor.
  - intros i Hi. destruct (chain_addr_in (start + i)) as (c & Hc & Ha); [lia|].
    pose proof (in_cluster_behind _ _ _ R (elem_writable _ Hc) Ha).
    rewrite HC, splice_out, HT3, HD1; [done|done|..].
    + intros He%in_entries_front; [lia|done|apply attached_writable].
    + destruct (Z.lt_ge_cases (chain_addr p (old ++ ext) (start + i)) entry); [by left|].
      destruct (Z.lt_ge_cases (chain_addr p (old ++ ext) (start + i)) (entry + 32)); [|right; lia].
      exfalso. by eapply (ec_clusters _ _ _ Cl).
  - apply list_eq. intros i. destruct (decide (i < 32)%nat) as [Hi|Hi].
    + rewrite slice_lookup, HC by lia. destruct (lookup_lt_is_Some_2 bs i) as [v Hv]; [lia|].
      by rewrite Hv, (splice_in _ _ _ _ _ Hv).
    + rewrite !lookup_ge_None_2; [done|lia|rewrite slice_length; lia].
  - intros copy c v Hcopy Hcv. rewrite <- (HT1 copy c v Hcopy Hcv). apply table_entry_ext. intros a Ha.
    assert (Hc : writable p c) by (apply attached_writable, list_elem_of_fmap; by exists (c, v)).
    destruct (entry_addr_range _ R copy c Hc Hcopy). pose proof (ec_low _ _ _ Cl).
    rewrite HC. apply splice_out. lia.
  - intros a Ha1 Ha2 Ha3 Ha4. rewrite HC, splice_out, HT3, HD3; (done || lia).
Qed.
End image.

(** The two tables agree. *)
Definition mirrored (f : Z -> Z) (p : fat_private) : Prop :=
  forall c, writable p c -> table_entry f p 0 c = table_entry f p 1 c.

Section consequences.
Context (p : fat_private) (R : ready_volume p) (old ext : list Z) (start : Z) (inp : list Z) (entry : Z) (bs : list Z).
Context (Hstart : 0 <= start).
Context (Hend : start + Z.of_nat (length inp) <= Z.of_nat (length (old ++ ext)) * cluster_bytes p).
Context (f f' : Z -> Z) (W : write_image p old ext start inp entry bs f f').
Context (first : Z) (C : is_chain f p first old).
Context (Hext : forall c, c ∈ ext -> is_free f p c /\ writable p c) (Hnde : NoDup ext).

Lemma all_writable : Forall (writable p) (old ++ ext).
Proof using C Hext.
  apply Forall_app. split; [by eapply chain_writable|]. apply Forall_forall. intros c Hc. by apply Hext.
Qed.

Lemma all_nodup : NoDup (old ++ ext).
Proof using C Hext Hnde.
  apply NoDup_app. split; [apply C|]. split; [|done]. intros c Hc He%Hext. by eapply chain_not_free; [..|apply He].
Qed.

(** Entries that are not attached keep their value. *)
Lemma wi_table copy c :
  entry_clear p entry (fun c => c ∈ old ++ ext) -> writable p c -> 0 <= copy < 2 ->
  c ∉ (attached old ext).*1 -> table_entry f' p copy c = table_entry f p copy c.
Proof using R Hstart Hend W C Hext.
  intros Cl Hc Hcopy Hn. apply table_entry_ext. intros a Ha.
  destruct (entry_addr_range _ R copy c Hc Hcopy). destruct (sector_pos_eq _ R) as [_ Hse].
  apply (wi_frame _ _ _ _ _ _ _ _ _ W).
  - intros d [_ Hd]%Hext Hin. pose proof (in_cluster_behind _ _ _ R Hd Hin). lia.
  - intros i Hi ->. destruct (chain_addr_in p R old ext (start + i)) as (d & Hd & Hin); [lia|].
    pose proof all_writable as Hall. rewrite Forall_forall in Hall.
    pose proof (in_cluster_behind _ _ _ R (Hall _ Hd) Hin). lia.
  - intros (copy' & d & Hcopy' & Hd & Had).
    pose proof (attached_writable p old ext all_writable d Hd) as Hwd.
    pose proof (entry_addr_disjoint _ R copy copy' c d Hc Hwd Hcopy Hcopy') as Hdis.
    assert (c <> d) by (intros ->; done). specialize (Hdis ltac:(congruence)). lia.
  - pose proof (ec_low _ _ _ Cl). lia.
Qed.

Lemma attached_lookup k c :
  (old ++ ext) !! k = Some c -> c ∈ (attached old ext).*1 ->
  (c, default 0xFFFF ((old ++ ext) !! S k)) ∈ attached old ext.
Proof using C Hext Hnde.
  clear W Hend f'. intros Hk Hc. apply attached_elem in Hc. pose proof all_nodup as Hnd.
  destruct Hc as [Hc|[Hne Hl]].
  - apply list_elem_of_lookup in Hc as [j Hj].
    assert (k = length old + j)%nat as ->.
    { eapply NoDup_lookup; [done|done|]. by rewrite lookup_app_r, Nat.add_sub' by lia. }
    rewrite lookup_app_r by lia. replace (S (length old + j) - length old)%nat with (S j) by lia.
    apply elem_of_app. left. eapply list_elem_of_lookup_2, links_lookup, Hj.
  - unfold attached. rewrite Hl. destruct ext as [|h l]; [done|]. clear Hext Hnde. simpl head.
    rewrite last_lookup in Hl. pose proof (lookup_lt_Some _ _ _ Hl).
    assert (k = pred (length old)) as ->.
    { eapply NoDup_lookup; [done|done|]. by apply lookup_app_l_Some. }
    rewrite lookup_app_r by lia. replace (S (pred (length old)) - length old)%nat with 0%nat by lia.
    simpl. apply elem_of_app. right. by apply list_elem_of_singleton.
Qed.

(** The new chain. *)
Lemma wi_chain :
  entry_clear p entry (fun c => c ∈ old ++ ext) ->
  is_chain f' p (default 0 (head (old ++ ext))) (old ++ ext).
Proof using R Hstart Hend W C Hext Hnde.
  intros Cl. pose proof all_writable as Hall. rewrite Forall_forall in Hall.
  apply is_chain_intro; [apply all_nodup| |done|].
  { intros c Hc%Hall. split; [by apply writable_valid|unfold writable in Hc; lia]. }
  intros k c Hk. rewrite <- table_entry_first. destruct (decide (c ∈ (attached old ext).*1)) as [Ha|Ha].
  - pose proof (attached_lookup k c Hk Ha) as Hin. rewrite (wi_entries _ _ _ _ _ _ _ _ _ W 0 c _ ltac:(lia) Hin).
    destruct ((old ++ ext) !! S k); simpl; [done|unfold RORTHOX_FAT16_EOC_START; lia].
  - assert (Hc : writable p c) by (eapply Hall, list_elem_of_lookup_2, Hk).
    rewrite wi_table, table_entry_first by (done || lia). rewrite attached_elem in Ha.
    assert (Ho : old !! k = Some c).
    { apply lookup_app_Some in Hk as [Hk|[_ Hk]]; [done|]. destruct Ha. left. by eapply list_elem_of_lookup_2. }
    pose proof (chain_entry _ _ _ _ _ _ C Ho) as He. destruct (old !! S k) as [d|] eqn:Hd.
    { by rewrite (lookup_app_l_Some _ _ _ _ Hd). }
    apply lookup_ge_None in Hd. pose proof (lookup_lt_Some _ _ _ Ho).
    assert (Hnil : ext = []).
    { destruct ext as [|h l]; [done|]. destruct Ha. right. split; [done|]. rewrite last_lookup.
      by replace (pred (length old)) with k by lia. }
    rewrite lookup_ge_None_2; [done|]. rewrite Hnil, app_nil_r. lia.
Qed.

(** The tables stay equal. *)
Lemma wi_mirrored :
  entry_clear p entry (fun c => c ∈ old ++ ext) -> mirrored f p -> mirrored f' p.
Proof using R Hstart Hend W C Hext Hnde.
  intros Cl M c Hc. destruct (decide (c ∈ (attached old ext).*1)) as [Ha|Ha].
  - apply list_elem_of_fmap in Ha as ([c' v] & -> & Hin). simpl.
    rewrite !(wi_entries _ _ _ _ _ _ _ _ _ W _ c' v) by (done || lia). done.
  - rewrite !wi_table by (done || lia). by apply M.
Qed.

Lemma chain_addr_old i : 0 <= i < Z.of_nat (length old) * cluster_bytes p ->
  chain_addr p (old ++ ext) i = chain_addr p old i.
Proof using R.
  clear Hend W f'. intros Hi. unfold chain_addr. rewrite lookup_app_l; [done|].
  pose proof (chain_index _ R old i Hi). lia.
Qed.

(** The old bytes that were not overwritten. *)
Lemma wi_old i :
  entry_clear p entry (fun c => c ∈ old ++ ext) ->
  0 <= i < Z.of_nat (length old) * cluster_bytes p -> i < start \/ start + Z.of_nat (length inp) <= i ->
  f' (chain_addr p old i) = f (chain_addr p old i).
Proof using R Hstart Hend W C Hext Hnde.
  intros Cl Hi Ho. pose proof all_nodup as Hnd. destruct (cluster_bytes_pos _ R) as [Hb _].
  destruct (chain_addr_cluster _ R old i Hi) as (c & Hc & _ & Hin).
  assert (Hco : c ∈ old) by by eapply list_elem_of_lookup_2.
  assert (Hwc : writable p c) by (pose proof (chain_writable _ _ _ _ C) as Hall; rewrite Forall_forall in Hall; auto).
  pose proof (in_cluster_behind _ _ _ R Hwc Hin). destruct (sector_pos_eq _ R) as [_ Hse].
  apply (wi_frame _ _ _ _ _ _ _ _ _ W).
  - intros d Hd Hind. unfold in_cluster in Hin, Hind. set (a := chain_addr p old i) in *.
    destruct (cluster_pos_disjoint _ R c d (a - cluster_pos p c) (a - cluster_pos p d)) as [-> _]; [lia|lia|lia|].
    apply NoDup_app in Hnd as (_ & Hdis & _). by apply (Hdis d).
  - intros j Hj. rewrite <- (chain_addr_old i Hi). intros E.
    apply (chain_addr_inj _ R) in E; [lia|done| |lia]. rewrite length_app. nia.
  - intros He%in_entries_front; [lia|done|]. apply attached_writable, all_writable.
  - destruct (Z.lt_ge_cases (chain_addr p old i) entry); [by left|].
    destruct (Z.lt_ge_cases (chain_addr p old i) (entry + 32)); [|right; lia].
    exfalso. eapply (ec_clusters _ _ _ Cl); [|by split|done]. set_solver.
Qed.

(** The other chains of the volume are not touched. *)
Lemma wi_other first2 l :
  entry_clear p entry (fun c => c ∈ old ++ ext) -> entry_clear p entry (fun c => c ∈ l) ->
  is_chain f p first2 l -> (forall c, c ∈ l -> c ∉ old) ->
  is_chain f' p first2 l /\
  forall i, 0 <= i < Z.of_nat (length l) * cluster_bytes p -> f' (chain_addr p l i) = f (chain_addr p l i).
Proof using R Hstart Hend W C Hext Hnde.
  intros Cl Cl2 C2 Hdis. pose proof (chain_writable _ _ _ _ C2) as Hall. rewrite Forall_forall in Hall.
  assert (Hnext : forall c, c ∈ l -> c ∉ ext).
  { intros c Hc He. by apply (chain_not_free _ _ _ _ _ C2 Hc), Hext. }
  assert (Hent : forall c, c ∈ l -> fat_entry f' p c = fat_entry f p c).
  { intros c Hc. apply fat_entry_ext, wi_table; [done|by apply Hall|lia|]. rewrite attached_elem.
    intros [He|[_ Hl%last_Some_elem_of]]; [by eapply Hnext|by eapply Hdis]. }
  split.
  - apply is_chain_intro; [apply C2|apply C2| |].
    + destruct l as [|c l]; [by pose proof (ch_end _ _ _ _ C2)|]. simpl.
      by rewrite (ch_nth _ _ _ _ C2 0%nat c eq_refl).
    + intros k c Hk. rewrite Hent by (by eapply list_elem_of_lookup_2). by eapply chain_entry.
  - intros i Hi. destruct (chain_addr_cluster _ R l i Hi) as (c & Hc & _ & Hin).
    assert (Hcl : c ∈ l) by by eapply list_elem_of_lookup_2.
    pose proof (in_cluster_behind _ _ _ R (Hall _ Hcl) Hin). destruct (sector_pos_eq _ R) as [_ Hse].
    assert (Honly : forall d, in_cluster p d (chain_addr p l i) -> d = c).
    { intros d Hd. unfold in_cluster in Hin, Hd. set (a := chain_addr p l i) in *.
      by destruct (cluster_pos_disjoint _ R d c (a - cluster_pos p d) (a - cluster_pos p c)) as [-> _]; [lia|lia|lia|]. }
    apply (wi_frame _ _ _ _ _ _ _ _ _ W).
    + intros d Hd ->%Honly. by eapply Hnext.
    + intros j Hj E. destruct (chain_addr_in p R old ext (start + j)) as (d & Hd & Hdin); [lia|].
      rewrite <- E in Hdin. apply Honly in Hdin as ->. apply elem_of_app in Hd as [Hd|Hd]; [by eapply Hdis|by eapply Hnext].
    + intros He%in_entries_front; [lia|done|]. apply attached_writable, all_writable.
    + destruct (Z.lt_ge_cases (chain_addr p l i) entry); [by left|].
      destruct (Z.lt_ge_cases (chain_addr p l i) (entry + 32)); [|right; lia].
      exfalso. by eapply (ec_clusters _ _ _ Cl2).
Qed.
End consequences.

(** ** Numbers of clusters *)

Lemma clusters_needed_bounds size b : 0 <= size -> 0 < b ->
  size <= clusters_needed size b * b < size + b /\ 0 <= clusters_needed size b.
Proof.
  intros Hs Hb. unfold clusters_needed. pose proof (Z.div_mod size b ltac:(lia)).
  pose proof (Z.mod_pos_bound size b Hb). pose proof (Z.div_pos size b Hs Hb).
  destruct (Z.eqb_spec (size mod b) 0); cbn [negb]; nia.
Qed.

Lemma clusters_needed_mono x y b : 0 <= x <= y -> 0 < b -> clusters_needed x b <= clusters_needed y b.
Proof.
  intros Hxy Hb. destruct (clusters_needed_bounds x b) as [? ?]; [lia..|].
  destruct (clusters_needed_bounds y b) as [? ?]; [lia..|]. nia.
Qed.

Lemma clusters_needed_pos size b : 0 < size -> 0 < b -> 0 < clusters_needed size b.
Proof. intros Hs Hb. destruct (clusters_needed_bounds size b) as [? ?]; [lia..|]. nia. Qed.

Lemma written_item_wf it c size :
  item_wf it -> 0 <= c < 65536 -> 0 <= size < 2 ^ 32 -> item_wf (written_item it c size).
Proof.
  intros [Hn He (Ha & Hr & Ht) Hw Hs] Hc Hz. rewrite !Forall_cons in Hw.
  destruct Hw as (? & ? & ? & ? & ? & ? & ? & _). constructor; try done; simpl.
  - split; [|done]. unfold is_byte in *. apply (lor_range _ _ 8); unfold FAT_FILE_ARCHIVED; lia.
  - rewrite u16_small by done. repeat constructor; lia.
Qed.

Section stateful.
Context {D H : Type} `{BlockDeviceLaws D} `{AllocatorLaws H}.
Implicit Types s : fs D H.
Abbreviation im s := (img (dev s)).

(** [s'] is [s] with a directory entry published. *)
Record committed (entry : Z) (it : fat_directory_item) (s s' : fs D H) : Prop := Committed {
  cm_heap : heap s' = heap s;
  cm_good n : good (dev s) n -> good (dev s') n;
  cm_priv : exists q, same_volume (priv s) q /\ priv s' = fat16_publish entry it q
}.

Lemma committed_quiet entry it s s1 s' : quiet s s1 -> committed entry it s1 s' -> committed entry it s s'.
Proof.
  intros [Hh V G] [Hh' G' (q & V' & Hp)]. constructor; [congruence|auto|]. exists q. split; [by etrans|done].
Qed.

Lemma commit_item_spec entry it s r s' :
  ready_volume (priv s) -> item_wf it -> 0 <= entry -> entry + 32 <= data_end (priv s) * 512 ->
  fat16_commit_item entry it s = (r, s') ->
  match r with
  | Ok _ => committed entry it s s' /\ forall a, im s' a = splice (im s) entry (encode_item it) a
  | Err e => e = - EIO /\ ~ volume_good s
  end.
Proof.
  intros R Hit He Hend E. unfold fat16_commit_item in E.
  pose proof (encode_item_length _ Hit) as Hl. pose proof (encode_item_bytes _ Hit) as Hb.
  apply io_bind_inv in E as [(e & E & ->)|(u & s1 & E & E1)].
  { apply write_in_volume in E; [done|done|done|done|lia|lia]. }
  apply write_in_volume in E as [Q Hi]; [|done|done|done|lia|lia].
  apply io_bind_inv in E1 as [(e & E & ->)|(u1 & s2 & E & E2)]; apply flush_quiet in E.
  { destruct E as [-> Hbad]. split; [done|]. intros Hg. by apply Hbad, (volume_good_quiet s). }
  destruct E as [Q2 Hi2]. apply modify_inv in E2 as [-> ->]. split.
  - eapply committed_quiet; [by etrans|]. constructor; [done|done|]. by exists (priv s2).
  - intros a. simpl. by rewrite Hi2, Hi.
Qed.

Lemma volume_tables_good s : ready_volume (priv s) -> volume_good s -> tables_good s.
Proof.
  intros R [Hs _] k Hk. apply Hs. destruct (sector_pos_eq _ R) as [Hp He].
  pose proof (rv_spc _ R). pose proof (rv_limit _ R). pose proof (geo_reserved _ (rv_geometry _ R)).
  unfold data_end. nia.
Qed.

(** Zeroing the new clusters and writing the data. *)
Lemma fill_spec {A} old ext start inp (k : io (fs D H) A) s r s' :
  ready_volume (priv s) -> Forall (writable (priv s)) (old ++ ext) -> NoDup (old ++ ext) ->
  0 <= start -> Forall is_byte inp ->
  start + Z.of_nat (length inp) <= Z.of_nat (length (old ++ ext)) * cluster_bytes (priv s) ->
  (_ ← zero_clusters ext;
   _ ← write_data_loop (Z.to_nat (Z.of_nat (length inp))) (old ++ ext) start (Z.of_nat (length inp)) inp;
   _ ← fat16_flush; k) s = (r, s') ->
  (exists e, r = Err e /\ e = - EIO /\ ~ volume_good s) \/
  exists s1, k s1 = (r, s') /\ quiet s s1 /\
    (forall i, 0 <= i < Z.of_nat (length inp) ->
       im s1 (chain_addr (priv s) (old ++ ext) (start + i)) = byte_at inp (Z.to_nat i)) /\
    (forall a, (forall c, c ∈ ext -> ~ in_cluster (priv s) c a) ->
       (forall i, 0 <= i < Z.of_nat (length inp) -> a <> chain_addr (priv s) (old ++ ext) (start + i)) ->
       im s1 a = im s a).
Proof.
  intros R Hw Hnd Hst Hb Hend E. apply Forall_app in Hw as Hw2. destruct Hw2 as [_ Hwe].
  apply io_bind_inv in E as [(e & E & ->)|(u & s1 & E & E1)].
  { apply zero_clusters_spec in E; [|done..]. left. by exists e. }
  apply zero_clusters_spec in E as (Q1 & _ & Hz); [|done..]. pose proof (q_volume _ _ Q1) as V1.
  apply io_bind_inv in E1 as [(e & E & ->)|(u1 & s2 & E & E2)];
    (apply write_data_loop_spec in E; [|by eapply ready_volume_same| |done|done|lia|done|done|by rewrite (cluster_bytes_same _ _ V1)];
     [|eapply Forall_impl; [done|]; intros x Hx; by apply (writable_same _ _ _ V1)]).
  { destruct E as [-> Hbad]. left. eexists. split; [done|]. split; [done|]. intros Hg. by apply Hbad, (volume_good_quiet s). }
  destruct E as (Q2 & Hin & Hout). assert (Q12 : quiet s s2) by by etrans.
  apply io_bind_inv in E2 as [(e & E & ->)|(u2 & s3 & E & E3)]; apply flush_quiet in E.
  { destruct E as [-> Hbad]. left. eexists. split; [done|]. split; [done|]. intros Hg. by apply Hbad, (volume_good_quiet s). }
  destruct E as [Q3 Hi3]. right. exists s3. split; [done|]. split; [by etrans|]. split.
  - intros i Hi. rewrite Hi3, <- (chain_addr_same _ _ _ _ V1). by apply Hin.
  - intros a Ha1 Ha2. rewrite Hi3, Hout, Hz; [done|done|]. intros i Hi. rewrite (chain_addr_same _ _ _ _ V1). by apply Ha2.
Qed.

(** The size of a file after a write of [n] bytes at [start]. *)
Definition new_size (it : fat_directory_item) (start n : Z) : Z :=
  if filesize it <? start + n then start + n else filesize it.

Lemma clear_quiet p q entry P : same_volume p q -> entry_clear p entry P -> entry_clear q entry P.
Proof.
  intros V [Hl Hh Hc]. constructor.
  - by rewrite (sv_root _ _ V).
  - unfold data_end. by rewrite (sv_writable _ _ V), (sv_header _ _ V), (sv_root _ _ V).
  - intros c a Hp Ha. rewrite (in_cluster_same _ _ _ _ V). by apply Hc.
Qed.

Lemma clear_impl p entry (P Q : Z -> Prop) : (forall c, Q c -> P c) -> entry_clear p entry P -> entry_clear p entry Q.
Proof. intros HPQ [Hl Hh Hc]. constructor; [done|done|]. intros c a HQ. apply Hc. auto. Qed.

Lemma head_range p l : ready_volume p -> Forall (writable p) l -> 0 <= default 0 (head l) < 65536.
Proof.
  intros R Hw. pose proof (rv_limit _ R). pose proof (limit_bound p ltac:(lia)).
  destruct l as [|c l]; simpl; [lia|]. apply Forall_cons in Hw as [Hc _]. unfold writable in Hc. lia.
Qed.

(** The arithmetic of a write request. *)
Record request (it : fat_directory_item) (start : Z) (inp : list Z) : Prop := Request {
  rq_bytes : Forall is_byte inp;
  rq_count : 0 < Z.of_nat (length inp);
  rq_start : 0 <= start <= filesize it;
  rq_end : start + Z.of_nat (length inp) <= INT_MAX;
  rq_size : filesize it <= INT_MAX
}.

(** The directory entry of the file after the write. *)
Definition new_item (it : fat_directory_item) (start : Z) (inp chain : list Z) : fat_directory_item :=
  written_item it (default 0 (head chain)) (new_size it start (Z.of_nat (length inp))).

(** The result of a successful write: the new clusters and the new image. *)
Record write_done (it : fat_directory_item) (entry start : Z) (inp old ext : list Z) (s s' : fs D H) : Prop := WriteDone {
  wd_old : Z.of_nat (length old) = clusters_needed (filesize it) (cluster_bytes (priv s));
  wd_length : Z.of_nat (length (old ++ ext)) =
    clusters_needed (new_size it start (Z.of_nat (length inp))) (cluster_bytes (priv s));
  wd_ext c : c ∈ ext -> is_free (im s) (priv s) c /\ writable (priv s) c;
  wd_nodup : NoDup ext;
  wd_image : write_image (priv s) old ext start inp entry (encode_item (new_item it start inp (old ++ ext))) (im s) (im s');
  wd_commit : committed entry (new_item it start inp (old ++ ext)) s s'
}.

Lemma attach_commit_spec it entry start inp old ext s s1 r s' :
  ready_volume (priv s) -> item_wf it -> request it start inp ->
  Forall (writable (priv s)) (old ++ ext) -> NoDup (old ++ ext) ->
  entry_clear (priv s) entry (fun c => c ∈ old ++ ext) ->
  start + Z.of_nat (length inp) <= Z.of_nat (length (old ++ ext)) * cluster_bytes (priv s) -> quiet s s1 ->
  (forall i, 0 <= i < Z.of_nat (length inp) ->
     im s1 (chain_addr (priv s) (old ++ ext) (start + i)) = byte_at inp (Z.to_nat i)) ->
  (forall a, (forall c, c ∈ ext -> ~ in_cluster (priv s) c a) ->
     (forall i, 0 <= i < Z.of_nat (length inp) -> a <> chain_addr (priv s) (old ++ ext) (start + i)) -> im s1 a = im s a) ->
  (_ ← attach_chain old ext (Z.of_nat (length (old ++ ext)));
   fat16_commit_item entry (new_item it start inp (old ++ ext))) s1 = (r, s') ->
  match r with
  | Ok _ => write_image (priv s) old ext start inp entry (encode_item (new_item it start inp (old ++ ext))) (im s) (im s') /\
      committed entry (new_item it start inp (old ++ ext)) s s'
  | Err e => e = - EIO /\ ~ volume_good s
  end.
Proof.
  intros R Hit Rq Hw Hnd Cl Hend Q HD1 HD3 E. pose proof (q_volume _ _ Q) as V.
  assert (R1 : ready_volume (priv s1)) by by eapply ready_volume_same.
  assert (Hw1 : Forall (writable (priv s1)) (old ++ ext)).
  { eapply Forall_impl; [done|]. intros x Hx. by apply (writable_same _ _ _ V). }
  assert (Hwf : item_wf (new_item it start inp (old ++ ext))).
  { destruct Rq. apply written_item_wf; [done|by eapply head_range|]. unfold new_size, INT_MAX in *. case_Zb; lia. }
  apply io_bind_inv in E as [(e & E & ->)|(u & s2 & E & E2)]; apply attach_chain_spec in E; try done.
  { destruct E as [-> Hbad]. split; [done|]. intros Hg. by apply Hbad, (volume_good_quiet s). }
  destruct E as (Q2 & HT1 & HT3). assert (Q12 : quiet s s2) by by etrans. pose proof (q_volume _ _ Q12) as V2.
  pose proof (clear_quiet _ _ _ _ V2 Cl) as Cl2. pose proof (geo_reserved _ (rv_geometry _ R)).
  destruct (sector_pos_eq _ R) as [Hp _]. pose proof (geo_fat _ (rv_geometry _ R)).
  apply commit_item_spec in E2; [|by eapply ready_volume_same|done|pose proof (ec_low _ _ _ Cl); lia|apply Cl2].
  destruct r as [u'|e].
  2: { destruct E2 as [-> Hbad]. split; [done|]. intros Hg. by apply Hbad, (volume_good_quiet s). }
  destruct E2 as [Cm HC]. split; [|by eapply committed_quiet].
  eapply (write_image_intro _ R _ _ _ _ Hw (proj1 (rq_start _ _ _ Rq)) Hend _ (im s1) (im s2)); [done|by apply encode_item_length|done|done| | |done].
  - intros copy c v Hcopy Hcv. rewrite <- (table_entry_same _ _ _ _ _ V). by apply HT1.
  - intros a Ha. apply HT3. intros (copy & c & Hcopy & Hc & Hac). apply Ha. exists copy, c.
    by rewrite <- (entry_addr_same _ _ _ _ V).
Qed.

Lemma write_chain_spec it entry start inp old s r s' :
  ready_volume (priv s) -> item_wf it -> request it start inp ->
  is_chain (im s) (priv s) (low_16_bits_first_cluster it) old ->
  entry_clear (priv s) entry (fun c => c ∈ old \/ is_free (im s) (priv s) c /\ writable (priv s) c) ->
  write_chain it entry start (Z.of_nat (length inp)) inp old s = (r, s') ->
  match r with
  | Ok _ => exists ext, write_done it entry start inp old ext s s'
  | Err e => e < 0 /\ (volume_good s -> Z.of_nat (length old) = clusters_needed (filesize it) (cluster_bytes (priv s)) ->
      e = - ENOSPC /\ Z.of_nat (length old + length (free_clusters (im s) (priv s))) <
        clusters_needed (new_size it start (Z.of_nat (length inp))) (cluster_bytes (priv s)))
  end.
Proof.
  intros R Hit Rq C Cl E. unfold write_chain in E. rewrite io_gets in E. cbv zeta in E.
  fold (new_size it start (Z.of_nat (length inp))) in E. destruct (cluster_bytes_pos _ R) as [Hb _].
  set (b := cluster_bytes (priv s)) in *. set (size := new_size it start (Z.of_nat (length inp))) in *.
  assert (Hsize : filesize it <= size /\ start + Z.of_nat (length inp) <= size) by (subst size; unfold new_size; case_Zb; lia).
  pose proof (iw_size _ Hit) as Hfs. rewrite io_fail_if in E.
  destruct (Z.eqb_spec (Z.of_nat (length old)) (clusters_needed (filesize it) b)) as [Hlen|Hlen]; cbn [negb] in E.
  2: { injection E as <- <-. split; [unfold EIO; lia|done]. }
  assert (Hle : Z.of_nat (length old) <= clusters_needed size b) by (rewrite Hlen; apply clusters_needed_mono; lia).
  apply io_bind_inv in E as [(e & E & ->)|(chain & s1 & E & E1)].
  { eapply allocate_spec in E as (_ & He & Hno); [|done..]. split; [done|]. intros Hg _. by apply Hno, volume_tables_good. }
  eapply allocate_spec in E as (Rd & Hcl & ->); [|done..].
  set (ext := take _ (free_clusters _ _)) in *. rewrite drop_app_length in E1.
  assert (Hext : forall c, c ∈ ext -> is_free (im s) (priv s) c /\ writable (priv s) c).
  { intros c Hc. apply free_clusters_elem. subst ext. by eapply subseteq_take. }
  assert (Hnde : NoDup ext) by (eapply sublist_NoDup; [apply free_clusters_nodup|apply sublist_take]).
  pose proof (all_writable _ _ _ _ _ C Hext) as Hw. pose proof (all_nodup _ _ _ _ _ C Hext Hnde) as Hnd.
  assert (Hend : start + Z.of_nat (length inp) <= Z.of_nat (length (old ++ ext)) * b).
  { rewrite Hcl. destruct (clusters_needed_bounds size b) as [? _]; lia. }
  pose proof (reads_quiet _ _ Rd) as Q1. pose proof (q_volume _ _ Q1) as V1.
  apply fill_spec in E1; [|by eapply ready_volume_same| |done|apply Rq|apply Rq|by rewrite (cluster_bytes_same _ _ V1)].
  2: { eapply Forall_impl; [done|]. intros x Hx. by apply (writable_same _ _ _ V1). }
  destruct E1 as [(e & -> & -> & Hbad)|(s2 & E2 & Q2 & HD1 & HD3)].
  { split; [unfold EIO; lia|]. intros Hg _. destruct Hbad. by apply (volume_good_quiet s). }
  rewrite <- Hcl in E2. fold (new_item it start inp (old ++ ext)) in E2.
  eapply (attach_commit_spec it entry start inp old ext s s2) in E2; [|done..| | | | |].
  - destruct r as [u|e]; [|destruct E2 as [-> Hbad]; split; [unfold EIO; lia|done]].
    exists ext. by destruct E2.
  - eapply clear_impl; [|done]. intros c [Hc|Hc]%elem_of_app; [by left|right; by apply Hext].
  - done.
  - by etrans.
  - intros i Hi. rewrite <- (chain_addr_same _ _ _ _ V1). by apply HD1.
  - intros a Ha1 Ha2. rewrite HD3; [apply Rd| |].
    + intros c Hc. rewrite (in_cluster_same _ _ _ _ V1). by apply Ha1.
    + intros i Hi. rewrite (chain_addr_same _ _ _ _ V1). by apply Ha2.
Qed.

(** ** Preparing *)

Lemma compare_tables_spec n : forall i s r s',
  compare_tables n i s = (r, s') ->
  reads s s' /\
  match r with
  | Ok _ => forall k, i <= k < i + Z.of_nat n ->
      slice (im s) ((reserved_sectors (header (priv s)) + k) * 512) 512 =
      slice (im s) ((reserved_sectors (header (priv s)) + sectors_per_fat (header (priv s)) + k) * 512) 512
  | Err e => e < 0
  end.
Proof.
  induction n as [|n IH]; intros i s r s' E; cbn [compare_tables] in E.
  { apply mret_inv in E as [-> ->]. split; [done|]. lia. }
  rewrite io_gets in E. apply io_bind_inv in E as [(e & E & ->)|(x & s1 & E & E1)]; apply read_block_spec in E.
  { by destruct E as (R & ? & _). }
  destruct E as [R1 ->]. apply io_bind_inv in E1 as [(e & E & ->)|(y & s2 & E & E2)]; apply read_block_spec in E.
  { destruct E as (R2 & ? & _). split; [by etrans|done]. }
  destruct E as [R2 ->]. assert (R12 : reads s s2) by by etrans. rewrite io_fail_if in E2.
  case_bool_decide as Hne; [injection E2 as <- <-; split; [done|unfold EIO; lia]|].
  apply IH in E2 as [R3 Hr]. split; [by etrans|]. destruct r as [u|e]; [|done]. intros k Hk.
  rewrite (slice_reads _ _ _ _ R1) in Hne.
  destruct (Z.eq_dec k i) as [->|Hki]; [done|]. specialize (Hr k ltac:(lia)).
  by rewrite (sv_header _ _ (rd_volume _ _ R12)), !(slice_reads _ _ _ _ R12) in Hr.
Qed.

Lemma mirrored_sectors f p :
  ready_volume p -> (forall k, 0 <= k < sectors_per_fat (header p) ->
    slice f ((reserved_sectors (header p) + k) * 512) 512 =
    slice f ((reserved_sectors (header p) + sectors_per_fat (header p) + k) * 512) 512) -> mirrored f p.
Proof.
  intros R Heq c Hc. pose proof (valid_in_table _ _ (rv_geometry _ R) (writable_valid _ R _ Hc)) as Ht.
  unfold writable in Hc. rewrite <- !sector_entry by lia. f_equal.
  rewrite Z.mul_0_l, Z.add_0_r, Z.mul_1_l. apply Heq. lia.
Qed.

(** The fields [fat16_prepare_write] leaves alone. *)
Record same_files (p q : fat_private) : Prop := SameFiles {
  sf_header : header q = header p;
  sf_root : root_directory q = root_directory p;
  sf_descriptors : descriptors q = descriptors p;
  sf_store : desc_store q = desc_store p;
  sf_disabled : mutation_disabled q = mutation_disabled p
}.

(** The invariant of a mounted volume. *)
Record mounted (s : fs D H) : Prop := Mounted {
  mo_geometry : geometry (priv s);
  mo_ready : write_ready (priv s) = true -> ready_volume (priv s) /\ mirrored (im s) (priv s)
}.

(** What the checks of [fat16_prepare_write] and the new bound establish. *)
Lemma prepared_volume p capacity data sectors :
  geometry p -> fat_copies (header p) = 2 -> sectors_per_cluster (header p) <> 0 -> fat16_cluster_limit p <> 0 ->
  data = ending_sector_pos (root_directory p) -> data * 512 <= INT_MAX ->
  sectors * 512 <= INT_MAX ->
  let available := if data <? sectors then (sectors - data) / sectors_per_cluster (header p) else 0 in
  ready_volume (with_write_ready capacity (with_max_writable
    (if available + 1 <? fat16_cluster_limit p then available + 1 else fat16_cluster_limit p) p)).
Proof.
  intros G Hc Hs Hl Hd Hdm Hsec available. pose proof (geo_spc _ G) as Hspc.
  assert (Hl0 : 0 <= fat16_cluster_limit p).
  { unfold fat16_cluster_limit. cbv zeta. destruct (_ || _); [lia|]. set (n := (_ - _) / _). destruct (_ || _ || _) eqn:Hn; [lia|].
    rewrite !orb_false_iff, !Z.ltb_ge in Hn. lia. }
  assert (Ha : 0 <= available /\ (available = 0 \/ data + available * sectors_per_cluster (header p) <= sectors)).
  { subst available. destruct (Z.ltb_spec data sectors); [|lia]. split; [apply Z.div_pos; lia|]. right.
    pose proof (Z.mul_div_le (sectors - data) (sectors_per_cluster (header p)) ltac:(lia)). lia. }
  constructor; simpl; [|done|lia| |].
  - destruct G. by constructor.
  - change (fat16_cluster_limit (with_write_ready _ _)) with (fat16_cluster_limit p).
    destruct (Z.ltb_spec (available + 1) (fat16_cluster_limit p)); lia.
  - unfold data_end. simpl. rewrite <- Hd.
    destruct (Z.ltb_spec (available + 1) (fat16_cluster_limit p)); nia.
Qed.

Lemma clamped_sectors capacity :
  let x := if INT_MAX / 512 <? capacity then INT_MAX / 512 else capacity in
  (if 0x10000000 <? x then 0x10000000 else x) * 512 <= INT_MAX.
Proof.
  intros x. assert (x <= INT_MAX / 512) by (subst x; destruct (Z.ltb_spec (INT_MAX / 512) capacity); lia).
  destruct (Z.ltb_spec 0x10000000 x); unfold INT_MAX in *; lia.
Qed.

Lemma write_capacity_spec s r s' :
  write_capacity s = (r, s') ->
  reads s s' /\ match r with Ok n => True | Err e => e < 0 end.
Proof.
  unfold write_capacity. destruct (disk_write_capacity (dev s)) as [[res n] d] eqn:E.
  assert (R : reads s (with_dev d s)).
  { constructor; simpl; [intros a; by eapply capacity_img|done|done|]. intros k. by eapply good_capacity. }
  destruct (Z.ltb_spec res 0); intros [= <- <-]; done.
Qed.

Lemma prepare_write_spec s r s' :
  mounted s -> fat16_prepare_write s = (r, s') ->
  mounted s' /\ heap s' = heap s /\ same_files (priv s) (priv s') /\ (forall a, im s' a = im s a) /\
  (forall n, good (dev s) n -> good (dev s') n) /\
  match r with
  | Ok _ => write_ready (priv s') = true /\ mutation_disabled (priv s) = false /\
      (write_ready (priv s) = true -> s' = s)
  | Err e => e < 0
  end.
Proof.
  intros Mo E. pose proof (mo_geometry _ Mo) as G. unfold fat16_prepare_write in E. rewrite io_gets in E.
  destruct (mutation_disabled (priv s)) eqn:Hdis.
  { apply fail_inv in E as [-> ->]. do 5 (split; [done|]). unfold EIO. lia. }
  destruct (write_ready (priv s)) eqn:Hrd.
  { apply mret_inv in E as [-> ->]. done. }
  assert (Hsame : forall s1, reads s s1 -> mounted s1 /\ heap s1 = heap s /\ same_files (priv s) (priv s1) /\
    (forall a, im s1 a = im s a) /\ (forall n, good (dev s) n -> good (dev s1) n)).
  { intros s1 R. pose proof (rd_volume _ _ R) as V. split.
    - constructor; [by eapply geometry_same|]. rewrite (sv_ready _ _ V), Hrd. done.
    - split; [apply R|]. split; [by destruct V; constructor|]. split; apply R. }
  apply io_bind_inv in E as [(e & E & ->)|(capacity & s1 & E & E1)]; apply write_capacity_spec in E as [R1 Hr].
  { destruct (Hsame _ R1) as (? & ? & ? & ? & ?). done. }
  cbv zeta in E1. rewrite io_fail_if in E1. destruct (negb _ || _ || _ || _ || _ || _ || _ || _ || _ || _ || _ || _) eqn:Hchk.
  { injection E1 as <- <-. destruct (Hsame _ R1) as (? & ? & ? & ? & ?). do 5 (split; [done|]). unfold EIO. lia. }
  rewrite !orb_false_iff, !negb_false_iff, !Z.eqb_eq, !Z.eqb_neq, !Z.ltb_ge in Hchk.
  destruct Hchk as [[[[[[[[[[[_ Hspc] _] Hcop] _] _] _] _] Hlim] Hdata] _] Hint].
  pose proof (geo_end _ G) as Hge. pose proof (geo_pos _ G) as Hgp. pose proof (geo_root _ G). pose proof (geo_fat _ G).
  pose proof (geo_reserved _ G). rewrite Hcop in Hgp, Hdata, Hint, E1. rewrite (u32_small (_ * 32)) in Hdata, Hint, E1 by lia.
  assert (Hde : reserved_sectors (header (priv s)) + 2 * sectors_per_fat (header (priv s)) +
    (root_dir_entries (header (priv s)) * 32 + 511) / 512 = ending_sector_pos (root_directory (priv s))).
  { rewrite Hge, Hgp. lia. }
  rewrite Hde in Hint, E1. clear Hdata.
  set (sectors := if 0x10000000 <? _ then _ else _) in E1.
  assert (Hsec : sectors * 512 <= INT_MAX) by (apply clamped_sectors).
  pose proof (prepared_volume (priv s) true _ sectors G Hcop Hspc Hlim eq_refl Hint Hsec) as RV. cbv zeta in RV.
  set (m := if _ <? fat16_cluster_limit (priv s) then _ else _) in E1, RV. rewrite io_modify in E1.
  pose proof (rd_volume _ _ R1) as V1. destruct (Hsame _ R1) as (M1 & Hh1 & F1 & Hi1 & Hg1).
  set (s2 := with_priv (with_max_writable m (priv s1)) s1) in E1.
  assert (F2 : same_files (priv s) (priv s2)) by by destruct F1; constructor.
  assert (G2 : geometry (priv s2)) by (destruct (mo_geometry _ M1); by constructor).
  apply io_bind_inv in E1 as [(e & E & ->)|(u & s3 & E & E2)]; apply compare_tables_spec in E as [R3 Hc];
    pose proof (rd_volume _ _ R3) as V3.
  - split; [constructor; [by eapply geometry_same|]; rewrite (sv_ready _ _ V3); simpl;
      by rewrite (sv_ready _ _ V1), Hrd|].
    split; [by rewrite (rd_heap _ _ R3)|]. split; [destruct F2, V3; constructor; congruence|].
    split; [intros a; rewrite (rd_img _ _ R3); apply Hi1|]. split; [intros n Hn; by apply (rd_good _ _ R3), Hg1|done].
  - apply modify_inv in E2 as [-> ->]. simpl.
    assert (V : same_volume (with_write_ready true (with_max_writable m (priv s))) (with_write_ready true (priv s3))).
    { destruct V1, V3. constructor; simpl in *; congruence. }
    split; [|split; [by rewrite (rd_heap _ _ R3)|]].
    + constructor; simpl; [apply (ready_volume_same _ _ V RV)|]. intros _. split; [by eapply ready_volume_same|].
      apply mirrored_sectors; [by eapply ready_volume_same|]. simpl. intros k Hk.
      rewrite (sv_header _ _ V3) in *. rewrite !(slice_reads _ _ _ _ R3). apply Hc.
      change (header (priv s2)) with (header (priv s1)) in Hk. rewrite (sv_header _ _ V1) in Hk. lia.
    + split; [destruct F2, V3; constructor; simpl; congruence|].
      split; [intros a; rewrite (rd_img _ _ R3); apply Hi1|]. split; [intros n Hn; by apply (rd_good _ _ R3), Hg1|]. done.
Qed.

(** ** [fat16_write_bytes] *)

Lemma write_done_free c it entry start inp old ext s s' :
  write_done it entry start inp old ext s s' -> write_done it entry start inp old ext (free c s) (free c s').
Proof.
  intros [Ho Hl He Hn Hi [Hh Hg Hp]]. constructor; try done. constructor; [|done|done]. simpl. by rewrite Hh.
Qed.

Lemma write_image_same p q f g f' old ext start inp entry bs :
  same_volume p q -> (forall a, g a = f a) -> write_image q old ext start inp entry bs g f' ->
  write_image p old ext start inp entry bs f f'.
Proof.
  intros V E [Hd Hi He Hf]. constructor; [|done| |].
  - intros i Hi'. rewrite <- (chain_addr_same _ _ _ _ V). by apply Hd.
  - intros copy c v Hc Hcv. rewrite <- (table_entry_same _ _ _ _ _ V). by apply He.
  - intros a H1a H2a H3a H4a. rewrite Hf, E; [done|..|done].
    + intros c Hc. rewrite (in_cluster_same _ _ _ _ V). by apply H1a.
    + intros i Hi'. rewrite (chain_addr_same _ _ _ _ V). by apply H2a.
    + intros (copy & c & Hcopy & Hc & Ha). apply H3a. exists copy, c. by rewrite <- (entry_addr_same _ _ _ _ V).
Qed.

Lemma write_done_reads it entry start inp old ext s s1 s' :
  reads s s1 -> write_done it entry start inp old ext s1 s' -> write_done it entry start inp old ext s s'.
Proof.
  intros R [Ho Hl He Hn Hi Hc]. pose proof (rd_volume _ _ R) as V. constructor.
  - by rewrite <- (cluster_bytes_same _ _ V).
  - by rewrite <- (cluster_bytes_same _ _ V).
  - intros c [Hf Hw]%He. split; [by apply (is_free_reads _ _ _ R)|by apply (writable_same _ _ _ V)].
  - done.
  - by eapply write_image_same; [|apply R|].
  - eapply committed_quiet; [by apply reads_quiet|done].
Qed.

Lemma free_clusters_reads s s' : reads s s' -> free_clusters (im s') (priv s') = free_clusters (im s) (priv s).
Proof.
  intros R. unfold free_clusters. rewrite (sv_writable _ _ (rd_volume _ _ R)). by apply filter_free_reads.
Qed.

(** A chain is determined by its first cluster. *)
Lemma chain_unique f p first l1 l2 : is_chain f p first l1 -> is_chain f p first l2 -> l1 = l2.
Proof.
  assert (Hle : forall l1 l2, is_chain f p first l1 -> is_chain f p first l2 -> (length l2 <= length l1)%nat).
  { clear l1 l2. intros l1 l2 C1 C2. destruct (decide (length l2 <= length l1)%nat) as [|Hlt]; [done|exfalso].
    destruct (lookup_lt_is_Some_2 l2 (length l1)) as [d Hd]; [lia|].
    destruct (ch_valid _ _ _ _ C2 d) as [Hv _]; [by eapply list_elem_of_lookup_2|]. apply valid_range in Hv.
    pose proof (ch_end _ _ _ _ C1) as He. destruct (last l1) as [c|] eqn:Hl.
    - rewrite last_lookup in Hl. pose proof (lookup_lt_Some _ _ _ Hl).
      pose proof (ch_nth _ _ _ _ C2 _ _ Hd) as Hn. replace (length l1) with (S (pred (length l1))) in Hn by lia.
      rewrite nth_cluster_succ, <- (ch_nth _ _ _ _ C1 _ _ Hl) in Hn. unfold RORTHOX_FAT16_EOC_START in He. lia.
    - apply last_None in Hl as ->. pose proof (ch_nth _ _ _ _ C2 _ _ Hd) as Hn. simpl in Hn. lia. }
  intros C1 C2. pose proof (Hle _ _ C1 C2). pose proof (Hle _ _ C2 C1). apply list_eq. intros k.
  destruct (l1 !! k) as [c|] eqn:H1k.
  - pose proof (lookup_lt_Some _ _ _ H1k). destruct (lookup_lt_is_Some_2 l2 k) as [d Hd]; [lia|].
    by rewrite Hd, (ch_nth _ _ _ _ C1 _ _ H1k), (ch_nth _ _ _ _ C2 _ _ Hd).
  - apply lookup_ge_None in H1k. symmetry. apply lookup_ge_None. lia.
Qed.

(** The kernel heap has no room for the list of the clusters of a file and the bitmap, two bytes and one bit for each
    cluster of the volume. *)
Definition no_list_memory (s : fs D H) : Prop :=
  fst (kmalloc (heap s) ((max_writable (priv s) - 1) * 2 + (max_writable (priv s) + 8) / 8)) = 0.

(** Collecting a well-formed chain fails only for want of memory. *)
Lemma collect_chain_complete it l s r s' A :
  ready_volume (priv s) -> live (heap s) A -> table_good s ->
  is_chain (im s) (priv s) (low_16_bits_first_cluster it) l -> high_16_bits_first_cluster it = 0 ->
  filesize it <= INT_MAX -> clusters_needed (filesize it) (cluster_bytes (priv s)) <= Z.of_nat (length l) ->
  fat16_collect_chain it s = (r, s') -> r = Err (- ENOMEM) /\ no_list_memory s \/ exists c, r = Ok (c, l).
Proof.
  intros R Hlv T C Hh Hsz Hn E. pose proof (rv_limit _ R). pose proof (limit_bound (priv s) ltac:(lia)).
  assert (Hwr : writable_range (priv s)) by (unfold writable_range; lia).
  pose proof (chain_fits _ _ _ _ C) as Hfit. unfold fat16_collect_chain in E.
  rewrite io_gets, io_fail_if, Hh in E. cbn [Z.eqb negb] in E. rewrite io_fail_if in E. rewrite (proj2 (Z.ltb_ge INT_MAX _)) in E by done.
  assert (Hrun : forall s1, dev s1 = dev s -> priv s1 = priv s ->
    exists s2, collect_loop (S (Z.to_nat (max_writable (priv s) - 1))) (max_writable (priv s) - 1)
      (low_16_bits_first_cluster it) [] (replicate (Z.to_nat ((max_writable (priv s) + 8) / 8)) 0) s1 = (Ok l, s2)).
  { intros s1 Hd Hp. destruct (collect_loop_complete l (S (Z.to_nat (max_writable (priv s) - 1))) (max_writable (priv s) - 1)
      [] (replicate (Z.to_nat ((max_writable (priv s) + 8) / 8)) 0) s1 (low_16_bits_first_cluster it)) as (s2 & E2 & _);
      rewrite ?Hd, ?Hp; try done; try (simpl; lia).
    - apply R.
    - intros k Hk. rewrite Hp in Hk. rewrite Hd. by apply T.
    - by apply collect_inv_start.
    - by exists s2. }
  assert (Hend : forall c s1, dev s1 = dev s -> priv s1 = priv s ->
    on_error (l0 ← collect_loop (S (Z.to_nat (max_writable (priv s) - 1))) (max_writable (priv s) - 1)
      (low_16_bits_first_cluster it) [] (replicate (Z.to_nat ((max_writable (priv s) + 8) / 8)) 0);
      _ ← fail_if (Z.of_nat (length l0) <? clusters_needed (filesize it) (cluster_bytes (priv s))) EIO; mret (c, l0))
      (free c) s1 = (r, s') -> r = Ok (c, l)).
  { intros c s1 Hd Hp Eo. apply on_error_inv in Eo as (s2 & Eo & _). destruct (Hrun s1 Hd Hp) as [s3 E3].
    rewrite (io_bind_run _ _ _ _ _ E3), io_fail_if, (proj2 (Z.ltb_ge _ _)) in Eo by lia. by apply mret_inv in Eo as [-> _]. }
  destruct (Z.ltb_spec 0 (max_writable (priv s) - 1)) as [Hpos|Hpos].
  - rewrite io_bind_assoc in E.
    destruct (zalloc ((max_writable (priv s) - 1) * 2 + (max_writable (priv s) + 8) / 8) s) as [rz s1] eqn:Ez.
    pose proof Ez as Ez'. apply (zalloc_inv _ _ _ _ A) in Ez' as (c & -> & _ & Hd & Hp & _); [|done|lia].
    rewrite (io_bind_run _ _ _ _ _ Ez), io_bind_assoc, io_fail_if in E.
    destruct (Z.eqb_spec c 0) as [Hc0|_].
    { injection E as <- <-. left. split; [done|]. unfold zalloc in Ez. unfold no_list_memory.
      destruct (kmalloc _ _) as [c' h']. by injection Ez as -> _. }
    rewrite io_mret in E. right. exists c. by eapply Hend.
  - rewrite io_mret in E. right. exists 0. by eapply Hend.
Qed.

(** The reasons for which a write to a well-formed file on a working drive may fail. *)
Definition no_room (it : fat_directory_item) (start : Z) (inp old : list Z) (s : fs D H) (e : Z) : Prop :=
  e = - ENOMEM /\ no_list_memory s \/
  e = - ENOSPC /\ Z.of_nat (length old + length (free_clusters (im s) (priv s))) <
    clusters_needed (new_size it start (Z.of_nat (length inp))) (cluster_bytes (priv s)).

Lemma volume_table_good s : ready_volume (priv s) -> volume_good s -> table_good s.
Proof.
  intros R Hg k Hk. apply (volume_tables_good s R Hg). pose proof (geo_fat _ (rv_geometry _ R)). lia.
Qed.

Lemma ready_writable_range p : ready_volume p -> writable_range p.
Proof. intros R. pose proof (rv_limit _ R). pose proof (limit_bound p ltac:(lia)). unfold writable_range. lia. Qed.

Lemma item_wf_range it : item_wf it -> item_range it.
Proof.
  intros [_ _ _ Hw Hs]. rewrite !Forall_cons in Hw. split; [|done]. by destruct Hw as (_ & _ & _ & _ & _ & _ & ? & _).
Qed.

(** A chain collected, a write along it, the buffer released. *)
Lemma collect_write_spec it entry start inp s r s' A :
  ready_volume (priv s) -> live (heap s) A -> item_wf it -> request it start inp ->
  (forall old, is_chain (im s) (priv s) (low_16_bits_first_cluster it) old ->
     entry_clear (priv s) entry (fun c => c ∈ old \/ is_free (im s) (priv s) c /\ writable (priv s) c)) ->
  ('(chain, old) ← fat16_collect_chain it;
   finally (write_chain it entry start (Z.of_nat (length inp)) inp old) (free chain)) s = (r, s') ->
  match r with
  | Ok _ => exists old ext, is_chain (im s) (priv s) (low_16_bits_first_cluster it) old /\
      write_done it entry start inp old ext s s'
  | Err e => e < 0 /\ forall old, volume_good s -> high_16_bits_first_cluster it = 0 ->
      is_chain (im s) (priv s) (low_16_bits_first_cluster it) old ->
      Z.of_nat (length old) = clusters_needed (filesize it) (cluster_bytes (priv s)) -> no_room it start inp old s e
  end.
Proof.
  intros R Hlv Hit Rq Hcl E. pose proof (ready_writable_range _ R) as Hwr. pose proof (item_wf_range _ Hit) as Hir.
  apply io_bind_inv in E as [(e & E & ->)|([c old] & s1 & E & E1)].
  { pose proof E as E'. eapply collect_chain_spec in E'; [|apply R|done..]. split; [apply E'|]. intros old Hg Hh C Hn.
    eapply collect_chain_complete in E as [[[= ->] Hm]|[c Hbad]]; [by left|done|done|done|by apply volume_table_good|done|done|apply Rq|lia]. }
  eapply collect_chain_spec in E as (Rd & C & _ & _); [|apply R|done..].
  pose proof (rd_volume _ _ Rd) as V. apply finally_inv in E1 as (s2 & E1 & ->).
  assert (Cl : entry_clear (priv s1) entry (fun c => c ∈ old \/ is_free (im s1) (priv s1) c /\ writable (priv s1) c)).
  { apply (clear_quiet (priv s)); [apply V|]. eapply clear_impl; [|by apply Hcl]. intros x [Hx|[Hf Hx]]; [by left|right].
    split; [by apply (is_free_reads _ _ _ Rd)|by apply (writable_same _ _ _ V)]. }
  apply write_chain_spec in E1; [|by eapply ready_volume_same|done|done|exact (reads_is_chain _ _ _ _ Rd C)|done].
  destruct r as [u|e].
  - destruct E1 as [ext W]. exists old, ext. split; [done|]. eapply write_done_reads; [done|]. by apply write_done_free.
  - destruct E1 as [He Hno]. split; [done|]. intros old' Hg _ C' Hn. rewrite (chain_unique _ _ _ _ _ C' C) in *.
    rewrite <- (cluster_bytes_same _ _ V) in Hn. right. unfold no_room.
    rewrite <- (free_clusters_reads _ _ Rd), <- (cluster_bytes_same _ _ V). apply Hno; [|done].
    apply (volume_good_quiet _ _ (reads_quiet _ _ Rd)), Hg.
Qed.
End stateful.
