(* ===== verification/FatFail.v ===== *)
(** * What a write can reach, whatever its outcome (kernel/fs/fat/fat16.c)

    A sector write that fails may leave anything in its sector. The bytes [K] of the image survive a sequence of writes,
    successful or not, if each of them stays out of the sectors of [K], or can only succeed and stays out of [K]. *)

From stdpp Require Import base numbers list gmap.
From Stdlib Require Import ZArith Lia.
From S2P Require Import Prelude Alloc Effects Disk StrLib Fat FatWrite FatData FatFile.

#[local] Set Default Goal Selector "!".

Lemma ready_volume_layout p q : same_layout p q -> ready_volume p -> ready_volume q.
Proof.
  intros L [G C Sp Lm E]. constructor.
  - destruct G. constructor; by layout L.
  - by layout L.
  - by layout L.
  - by rewrite (limit_layout _ _ L), (sl_writable _ _ L).
  - unfold data_end in *. by layout L.
Qed.

Section reach.
Context {D H : Type} `{BlockDeviceLaws D} `{AllocatorLaws H}.
Implicit Types s : fs D H.
Abbreviation im s := (img (dev s)).

(** The bytes to keep, and the state at the start. *)
Context (K : Z -> Prop) (s0 : fs D H).
Hypothesis R0 : ready_volume (priv s0).

Record intact s : Prop := Intact {
  in_layout : same_layout (priv s0) (priv s);
  in_heap : heap s = heap s0;
  in_good n : good (dev s0) n -> good (dev s) n;
  in_img a : K a -> im s a = im s0 a
}.

(** A byte in one of the sectors of a range. *)
Definition near (w n a : Z) : Prop := exists b, w <= b < w + n /\ a / 512 = b / 512.

(** A write that cannot harm the bytes of [K]. *)
Definition harmless (w n : Z) : Prop :=
  (forall a, K a -> ~ near w n a) \/
  (in_int w n /\ range_good (dev s0) w n /\ forall a, K a -> a < w \/ w + n <= a).

Lemma near_self w n a : w <= a < w + n -> near w n a.
Proof. intros Ha. by exists a. Qed.

Lemma intact_reads s s' : reads s s' -> intact s -> intact s'.
Proof.
  intros [Hi Hh V G] [L Hh' G' Hi']. constructor; [|congruence|auto|].
  - etrans; [exact L|by apply same_volume_layout].
  - intros a Ha. by rewrite Hi, Hi'.
Qed.

Lemma flush_intact : preserves intact fat16_flush.
Proof.
  intros s r s' [L Hh G Hi] E. unfold fat16_flush in E. destruct (disk_flush (dev s)) as [res d] eqn:Ef.
  assert (Hg : forall n, good (dev s0) n -> good d n) by (intros n Hn; eapply good_flush; [exact Ef|by apply G]).
  assert (Hd : forall a, K a -> img d a = im s0 a) by (intros a Ha; rewrite <- (Hi a Ha); by eapply flush_img).
  destruct (res <? 0); injection E as <- <-; (constructor; simpl; [by destruct L|done..]).
Qed.

Lemma write_at_intact w data : Forall is_byte data -> harmless w (Z.of_nat (length data)) -> preserves intact (fat16_write_at w data).
Proof.
  intros Hb Hk s r s' [L Hh G Hi] E. unfold fat16_write_at, diskstreamer_seek, diskstreamer_write in E.
  assert (Hdone : forall x q, intact (Fs (dev s) (heap s) (with_mutation_disabled x (with_directory_stream q (priv s)))) /\
    intact (Fs (dev s) (heap s) (with_directory_stream q (priv s)))).
  { intros x q. split; (constructor; simpl; [by destruct L|done..]). }
  destruct (Z.ltb_spec w 0) as [Hw|Hw].
  { simpl in E. destruct (negb _); injection E as <- <-; first [apply (proj1 (Hdone true _))|apply (proj2 (Hdone true _))]. }
  simpl in E. rewrite (proj2 (Z.ltb_ge _ 0)), (proj2 (Z.ltb_ge w 0)) in E by lia. simpl in E.
  destruct (Z.ltb_spec (INT_MAX - w) (Z.of_nat (length data))) as [Hr|Hr].
  { simpl in E. destruct (negb _); injection E as <- <-; first [apply (proj1 (Hdone true _))|apply (proj2 (Hdone true _))]. }
  destruct (streamer_write_loop _ w _ data (dev s)) as [[res q] d] eqn:El.
  apply streamer_write_loop_spec in El as (Hg & k & Hkt & -> & Hwr & Hres); [|done || lia..]. simpl in E.
  assert (Hd : forall a, K a -> img d a = im s a).
  { intros a Ha. rewrite Hwr.
    - apply splice_out. rewrite length_take. destruct Hk as [Hfar|(_ & _ & Hout)]; [|specialize (Hout a Ha); lia].
      specialize (Hfar a Ha). destruct (Z.lt_ge_cases a w); [by left|right].
      destruct (Z.lt_ge_cases a (w + Z.of_nat (length data))); [|lia]. destruct Hfar. by apply near_self.
    - intros Hneg. destruct Hres as [[-> _]|(_ & Hlt & Hbad)]; [lia|]. destruct Hk as [Hfar|(_ & Hgood & _)].
      + destruct (Z.lt_ge_cases a ((w + k) / 512 * 512)); [by left|]. right.
        destruct (Z.lt_ge_cases a ((w + k) / 512 * 512 + 512)); [|done]. destruct (Hfar a Ha). exists (w + k). lia.
      + destruct Hbad. apply G, Hgood. lia. }
  assert (Hfin : forall x q, intact (Fs d (heap s) (with_mutation_disabled x (with_directory_stream q (priv s)))) /\
    intact (Fs d (heap s) (with_directory_stream q (priv s)))).
  { intros x q. split; (constructor; simpl; [by destruct L|done|auto|]); intros a Ha; by rewrite Hd, Hi. }
  destruct (res <? 0); [destruct (_ || _)|]; injection E as <- <-; first [apply (proj1 (Hfin true _))|apply (proj2 (Hfin true _))].
Qed.

(** ** Table entries *)

Lemma set_entry_intact copy c v :
  writable (priv s0) c -> 0 <= copy < 2 -> harmless (entry_addr (priv s0) copy c) 2 ->
  preserves intact (fat16_set_entry copy c v).
Proof using R0.
  intros Hc Hcopy Hk. apply preserves_gets_bind. intros s I. cbv zeta.
  destruct (entry_addr_range _ R0 copy c Hc Hcopy) as [Ha Hend]. destruct (sector_pos_eq _ R0) as [_ Hroot].
  pose proof (rv_end _ R0) as Hmax.
  assert (Hde : ending_sector_pos (root_directory (priv s0)) <= data_end (priv s0)).
  { unfold data_end. pose proof (rv_limit _ R0). pose proof (rv_spc _ R0). nia. }
  replace (i32 _) with (entry_addr (priv s0) copy c).
  - apply write_at_intact; [repeat constructor; lia|done].
  - symmetry. rewrite (sl_header _ _ (in_layout _ I)). unfold entry_addr, RORTHOX_SECTOR_SIZE, INT_MAX in *. rewrite i32_small; lia.
Qed.

Lemma put_entries_intact copy l : 0 <= copy < 2 ->
  (forall c, c ∈ l.*1 -> writable (priv s0) c /\ harmless (entry_addr (priv s0) copy c) 2) ->
  preserves intact (put_entries copy l).
Proof using R0.
  intros Hcopy. induction l as [|[c v] l IH]; intros Hl; cbn [put_entries]; [apply preserves_ret|].
  apply preserves_bind; [|intros _; apply IH; intros d Hd; apply Hl; by apply list_elem_of_further].
  destruct (Hl c); [apply list_elem_of_here|]. by apply set_entry_intact.
Qed.

Lemma attach_chain_intact old ext needed :
  (forall c, c ∈ ext \/ last old = Some c -> writable (priv s0) c /\
     forall copy, 0 <= copy < 2 -> harmless (entry_addr (priv s0) copy c) 2) ->
  preserves intact (attach_chain old ext needed).
Proof using R0.
  intros Hc. unfold attach_chain. destruct (_ <? needed); [|apply preserves_ret].
  assert (Hlink : forall copy, 0 <= copy < 2 -> preserves intact (link_chain copy ext)).
  { intros copy Hcopy s r s' I E. rewrite link_chain_put in E. eapply put_entries_intact; [done| |exact I|exact E].
    intros c. rewrite links_fst. intros Hin. destruct (Hc c) as [? Hk]; [by left|]. split; [done|by apply Hk]. }
  apply preserves_bind; [by apply Hlink|]. intros _. apply preserves_bind; [apply flush_intact|]. intros _.
  apply preserves_bind; [by apply Hlink|]. intros _. apply preserves_bind; [apply flush_intact|]. intros _.
  destruct (last old) as [t|]; [|apply preserves_ret]. destruct (Hc t) as [Ht Hk]; [by right|].
  apply preserves_bind; [by apply set_entry_intact, Hk|]. intros _. apply preserves_bind; [apply flush_intact|]. intros _.
  apply preserves_bind; [by apply set_entry_intact, Hk|]. intros _. apply flush_intact.
Qed.

Lemma commit_item_intact entry it : item_wf it -> harmless entry 32 -> preserves intact (fat16_commit_item entry it).
Proof.
  intros Hit Hk. unfold fat16_commit_item.
  apply preserves_bind; [apply write_at_intact; [by apply encode_item_bytes|by rewrite encode_item_length]|]. intros _.
  apply preserves_bind; [apply flush_intact|]. intros _. apply preserves_modify. intros s [L Hh G Hi]. constructor; try done.
  simpl. etrans; [exact L|apply publish_layout].
Qed.

(** ** Data *)

(** The sectors of a range inside a cluster belong to the cluster. *)
Lemma cluster_near c w n a :
  writable (priv s0) c -> cluster_pos (priv s0) c <= w -> w + n <= cluster_pos (priv s0) c + cluster_bytes (priv s0) ->
  near w n a -> in_cluster (priv s0) c a.
Proof using K R0.
  intros Hc Hlo Hhi (b & Hb & E). destruct (cluster_pos_range _ R0 c Hc) as (_ & _ & Hm).
  destruct (cluster_bytes_pos _ R0) as [_ Hcb]. unfold in_cluster. lia.
Qed.

Definition apart (l : list Z) : Prop := forall c a, c ∈ l -> K a -> ~ in_cluster (priv s0) c a.

Lemma cluster_harmless l c w n :
  apart l -> c ∈ l -> writable (priv s0) c -> cluster_pos (priv s0) c <= w ->
  w + n <= cluster_pos (priv s0) c + cluster_bytes (priv s0) -> harmless w n.
Proof using R0. intros Ha Hin Hc Hlo Hhi. left. intros a Hk Hn. apply (Ha c a Hin Hk). by eapply cluster_near. Qed.

Lemma zero_sectors_intact l c n : apart l -> c ∈ l -> writable (priv s0) c -> forall w,
  cluster_pos (priv s0) c <= w -> w + 512 * Z.of_nat n <= cluster_pos (priv s0) c + cluster_bytes (priv s0) ->
  preserves intact (zero_sectors n w).
Proof using R0.
  intros Ha Hin Hc. induction n as [|n IH]; intros w Hlo Hhi; cbn [zero_sectors]; [apply preserves_ret|].
  apply preserves_bind; [|intros _; apply IH; lia]. apply write_at_intact; [apply Forall_replicate; unfold is_byte; lia|].
  rewrite length_replicate. eapply (cluster_harmless l c); [done..|lia|lia].
Qed.

Lemma intact_position s c o : intact s -> writable (priv s0) c -> 0 <= o < cluster_bytes (priv s0) ->
  i32 (fat16_cluster_to_sector (priv s) c * RORTHOX_SECTOR_SIZE + o) = cluster_pos (priv s0) c + o.
Proof using R0.
  intros I Hc Ho. pose proof (in_layout _ I) as L. rewrite <- (cluster_pos_layout _ _ L). apply cluster_position.
  - by eapply ready_volume_layout.
  - unfold writable. by rewrite (sl_writable _ _ L).
  - by rewrite (cluster_bytes_layout _ _ L).
Qed.

Lemma zero_clusters_intact l : forall l', apart l -> l' ⊆ l -> Forall (writable (priv s0)) l' -> preserves intact (zero_clusters l').
Proof using R0.
  induction l' as [|c l' IH]; intros Ha Hsub Hw; cbn [zero_clusters]; [apply preserves_ret|]. apply Forall_cons in Hw as [Hc Hw].
  apply preserves_gets_bind. intros s I. destruct (cluster_bytes_pos _ R0) as [Hbp Hb].
  pose proof (intact_position s c 0 I Hc ltac:(lia)) as Hp. rewrite !Z.add_0_r in Hp. rewrite Hp, (cluster_bytes_layout _ _ (in_layout _ I)).
  apply preserves_bind; [|intros _; apply IH; [done|set_solver|done]]. apply (zero_sectors_intact l c); [done|set_solver|done|lia|lia].
Qed.

Lemma write_data_intact chain : apart chain -> Forall (writable (priv s0)) chain -> forall fuel position left inp,
  0 <= position -> 0 <= left -> left = Z.of_nat (length inp) -> Forall is_byte inp ->
  position + left <= Z.of_nat (length chain) * cluster_bytes (priv s0) ->
  preserves intact (write_data_loop fuel chain position left inp).
Proof using R0.
  intros Ha Hw. induction fuel as [|fuel IH]; intros position left inp Hp Hl Hlen Hb Hend; cbn [write_data_loop]; [apply preserves_ret|].
  destruct (Z.eqb_spec left 0) as [Hz|Hz]; cbn [negb]; [apply preserves_ret|]. apply preserves_gets_bind. intros s I. cbv zeta.
  rewrite (cluster_bytes_layout _ _ (in_layout _ I)). destruct (cluster_bytes_pos _ R0) as [Hbp _].
  set (b := cluster_bytes (priv s0)) in *. pose proof (Z.mod_pos_bound position b Hbp) as Hm.
  set (part := if left <? b - position mod b then left else b - position mod b) in *.
  assert (Hpart : 0 < part <= left /\ position mod b + part <= b) by (subst part; case_Zb; lia).
  destruct (chain_addr_cluster _ R0 chain position) as (c & Hc & _ & _); [fold b; lia|]. fold b in Hc. rewrite Hc. cbn [default from_option id].
  assert (Hwc : writable (priv s0) c) by (eapply Forall_lookup in Hw; done).
  rewrite (intact_position s c _ I Hwc) by (fold b; lia). apply preserves_bind.
  - apply write_at_intact; [by apply Forall_take|]. rewrite length_take.
    apply (cluster_harmless chain c); [done|by eapply list_elem_of_lookup_2|done|lia|fold b; lia].
  - intros _. apply IH; [lia|lia|rewrite length_drop; lia|by apply Forall_drop|lia].
Qed.

(** The part of a write after the new clusters have been chosen. *)
Lemma write_rest_intact old ext start inp needed entry it :
  apart (old ++ ext) -> Forall (writable (priv s0)) (old ++ ext) -> 0 <= start -> Forall is_byte inp ->
  start + Z.of_nat (length inp) <= Z.of_nat (length (old ++ ext)) * cluster_bytes (priv s0) ->
  (forall c, c ∈ old ++ ext -> forall copy, 0 <= copy < 2 -> harmless (entry_addr (priv s0) copy c) 2) ->
  item_wf it -> harmless entry 32 ->
  preserves intact
    (_ ← zero_clusters ext;
     _ ← write_data_loop (Z.to_nat (Z.of_nat (length inp))) (old ++ ext) start (Z.of_nat (length inp)) inp;
     _ ← fat16_flush;
     _ ← attach_chain old ext needed;
     fat16_commit_item entry it).
Proof using R0.
  intros Ha Hw Hst Hb Hend Hent Hit Hk. apply preserves_bind.
  { apply (zero_clusters_intact (old ++ ext)); [done|set_solver|]. by apply Forall_app in Hw as [_ Hw]. }
  intros _. apply preserves_bind; [apply write_data_intact; try done; lia|]. intros _. apply preserves_bind; [apply flush_intact|].
  intros _. apply preserves_bind; [|intros _; by apply commit_item_intact]. apply attach_chain_intact.
  rewrite Forall_forall in Hw. intros c Hc. assert (Hin : c ∈ old ++ ext).
  { apply elem_of_app. destruct Hc as [?|?%last_Some_elem_of]; auto. }
  split; [by apply Hw|by apply Hent].
Qed.
End reach.
