(* ===== verification/FatProps.v ===== *)
(** * FAT16: theorems (kernel/fs/fat/fat16.c)

    What the volume's operations promise: reading returns the bytes of the chain, writing replaces
    exactly the requested bytes of one file, keeps the two tables equal and the other files intact,
    and fails only for the reasons it reports. *)

From stdpp Require Import base numbers list gmap.
From Stdlib Require Import ZArith Lia.
From S2P Require Import Prelude Alloc Heap Memory Effects Disk Fat FatWrite FatData FatFile FatFail.

#[local] Set Default Goal Selector "!".

(** The contents of a file, by its directory entry. *)
Definition file_bytes (f : Z -> Z) (p : fat_private) (it : fat_directory_item) : list Z :=
  slice (chain_byte f p (low_16_bits_first_cluster it)) 0 (filesize it).

(** [l] with the bytes [bs] at [k], extended if necessary. *)
Definition overwrite (l : list Z) (k : Z) (bs : list Z) : list Z :=
  take (Z.to_nat k) l ++ bs ++ drop (Z.to_nat k + length bs) l.

(** Where a write through the descriptor begins. *)
Definition write_start (d : fat_file_descriptor) (it : fat_directory_item) : Z :=
  if mode d =? FILE_MODE_APPEND then filesize it else pos d.

Lemma overwrite_lookup l k bs i : (0 <= k <= Z.of_nat (length l)) ->
  overwrite l k bs !! i =
    if decide (Z.of_nat i < k) then l !! i
    else if decide (Z.of_nat i < k + Z.of_nat (length bs)) then bs !! (i - Z.to_nat k)%nat else l !! i.
Proof.
  intros Hk. unfold overwrite. case_decide as H1; [rewrite lookup_app_l, lookup_take_lt; [done|lia|rewrite length_take; lia]|].
  assert (Hl : length (take (Z.to_nat k) l) = Z.to_nat k) by (rewrite length_take; lia).
  rewrite lookup_app_r, Hl by lia. case_decide as H2; [by rewrite lookup_app_l by lia|].
  rewrite lookup_app_r, lookup_drop by lia. f_equal. lia.
Qed.

Lemma file_bytes_length f p it : length (file_bytes f p it) = Z.to_nat (filesize it).
Proof. apply slice_length. Qed.

Section theorems.
Context {D H : Type} `{BlockDeviceLaws D} `{AllocatorLaws H}.
Implicit Types s : fs D H.
Abbreviation im s := (img (dev s)).

(** [desc] is an open descriptor of the file [it] of a volume prepared for writing. *)
Record open_file (s : fs D H) (desc : Z) (d : fat_file_descriptor) (ptr : Z) (it : fat_directory_item) : Prop := OpenFile {
  of_mounted : mounted s;
  of_ready : write_ready (priv s) = true;
  of_live : exists A, live (heap s) A;
  of_store : desc_store (priv s) !! desc = Some d;
  of_body : body (desc_item d) = FAT_ITEM_TYPE_FILE ptr it;
  of_item : item_wf it;
  of_pos : 0 <= pos d;
  of_clear old : is_chain (im s) (priv s) (low_16_bits_first_cluster it) old ->
    entry_clear (priv s) (entry_pos (desc_item d))
      (fun c => c ∈ old \/ is_free (im s) (priv s) c /\ writable (priv s) c)
}.

(** The clusters that a write to the file may use. *)
Definition may_write (s : fs D H) (it : fat_directory_item) (c : Z) : Prop :=
  (exists old, is_chain (im s) (priv s) (low_16_bits_first_cluster it) old /\ c ∈ old) \/
  (is_free (im s) (priv s) c /\ writable (priv s) c).

Lemma collect_chain_big it s : INT_MAX < filesize it ->
  exists e s1, fat16_collect_chain it s = (Err e, s1) /\ e < 0.
Proof.
  intros Hb. unfold fat16_collect_chain. rewrite io_gets, io_fail_if. destruct (negb _).
  - exists (- EIO), s. split; [done|unfold EIO; lia].
  - rewrite io_fail_if, (proj2 (Z.ltb_lt _ _)) by done. exists (- EFBIG), s. split; [done|unfold EFBIG; lia].
Qed.

(** The end of [fat16_write_bytes]. *)
Lemma write_bytes_tail it entry start inp desc r s s' :
  ('(chain, old) ← fat16_collect_chain it;
   _ ← finally (write_chain it entry start (Z.of_nat (length inp)) inp old) (free chain);
   _ ← modify (set_desc_pos desc (start + Z.of_nat (length inp)));
   mret (Z.of_nat (length inp))) s = (r, s') ->
  exists r1 s1,
    ('(chain, old) ← fat16_collect_chain it;
     finally (write_chain it entry start (Z.of_nat (length inp)) inp old) (free chain)) s = (r1, s1) /\
    match r1 with
    | Ok _ => r = Ok (Z.of_nat (length inp)) /\ s' = set_desc_pos desc (start + Z.of_nat (length inp)) s1
    | Err e => r = Err e /\ s' = s1
    end.
Proof.
  intros E. apply io_bind_inv in E as [(e & E & ->)|([c old] & s1 & E & E1)].
  { exists (Err e), s'. by rewrite (io_bind_stop _ _ _ _ _ E). }
  rewrite (io_bind_run _ _ _ _ _ E).
  apply io_bind_inv in E1 as [(e & E1 & ->)|(u & s2 & E1 & E2)]; [by exists (Err e), s'|].
  rewrite io_modify in E2. apply mret_inv in E2 as [-> ->]. by exists (Ok u), s2.
Qed.

Lemma write_bytes_inv s desc d ptr it inp r s' :
  open_file s desc d ptr it -> Forall is_byte inp -> inp <> [] ->
  fat16_write_bytes desc inp s = (r, s') ->
  match r with
  | Ok n => n = Z.of_nat (length inp) /\ request it (write_start d it) inp /\
      exists old ext s1, is_chain (im s) (priv s) (low_16_bits_first_cluster it) old /\
        write_done it (entry_pos (desc_item d)) (write_start d it) inp old ext s s1 /\
        s' = set_desc_pos desc (write_start d it + Z.of_nat (length inp)) s1
  | Err e => e < 0 /\ forall old, mode d <> FILE_MODE_READ -> mutation_disabled (priv s) = false ->
      request it (write_start d it) inp -> volume_good s -> high_16_bits_first_cluster it = 0 ->
      is_chain (im s) (priv s) (low_16_bits_first_cluster it) old ->
      Z.of_nat (length old) = clusters_needed (filesize it) (cluster_bytes (priv s)) ->
      no_room it (write_start d it) inp old s e
  end.
Proof.
  intros [Mo Hrd [A Hlv] Hst Hbd Hit Hpos Hcl] Hb Hne E. destruct (mo_ready _ Mo Hrd) as [R _].
  unfold fat16_write_bytes in E. rewrite io_gets, Hst, io_fail_if in E.
  destruct (Z.eqb_spec (mode d) FILE_MODE_READ) as [Hm|Hm]; [injection E as <- <-; split; [unfold EBADF; lia|done]|].
  assert (Hlen : 0 < Z.of_nat (length inp)) by (destruct inp; [done|simpl; lia]).
  rewrite (proj2 (Z.eqb_neq (Z.of_nat (length inp)) 0)), Hbd in E by lia.
  apply io_bind_inv in E as [(e & E & ->)|(u & s0 & E & E1)].
  { split; [by eapply prepare_write_spec in E as (_ & _ & _ & _ & _ & ?)|]. intros old _ Hd.
    unfold fat16_prepare_write in E. by rewrite io_gets, Hd, Hrd in E. }
  eapply prepare_write_spec in E as (_ & _ & _ & _ & _ & _ & _ & Hs); [|done]. rewrite (Hs Hrd) in E1.
  fold (write_start d it) in E1. rewrite io_fail_if in E1. pose proof (iw_size _ Hit) as Hfs.
  destruct (Z.ltb_spec (filesize it) (write_start d it)) as [Hlt|Hge].
  { injection E1 as <- <-. split; [unfold EINVARG; lia|]. intros old _ _ Rq. destruct (rq_start _ _ _ Rq). lia. }
  rewrite io_fail_if in E1. destruct (_ || _) eqn:Hchk.
  { injection E1 as <- <-. split; [unfold EFBIG; lia|]. intros old _ _ [_ _ ? ? ?].
    rewrite orb_true_iff, !Z.ltb_lt in Hchk. lia. }
  rewrite orb_false_iff, !Z.ltb_ge in Hchk. assert (0 <= write_start d it) by (unfold write_start; case_Zb; lia).
  destruct (Z.le_gt_cases (filesize it) INT_MAX) as [Hsz|Hsz].
  2: { destruct (collect_chain_big it s Hsz) as (e & s1 & Ec & He). rewrite (io_bind_stop _ _ _ _ _ Ec) in E1.
       injection E1 as <- <-. split; [done|]. intros old _ _ [_ _ _ _ ?]. lia. }
  assert (Rq : request it (write_start d it) inp) by (constructor; done || lia).
  destruct (write_bytes_tail _ _ _ _ _ _ _ _ E1) as (r1 & s1 & E2 & Hr).
  eapply collect_write_spec in E2; [|done..]. destruct r1 as [u1|e].
  - destruct Hr as [-> ->]. split; [done|]. split; [done|]. destruct E2 as (old & ext & C & W). by exists old, ext, s1.
  - destruct Hr as [-> ->]. destruct E2 as [He Hno]. split; [done|]. intros old _ _ _ ? ? ? ?. by apply Hno.
Qed.

Lemma file_bytes_layout f p q it : same_layout p q -> file_bytes f q it = file_bytes f p it.
Proof. intros L. apply slice_ext. intros a _. by apply chain_byte_layout. Qed.

Lemma committed_layout entry it s s' : committed entry it s s' -> same_layout (priv s) (priv s').
Proof.
  intros [_ _ (q & V & ->)]. etrans; [by apply same_volume_layout|]. apply publish_layout.
Qed.

Section written.
Context (s s' : fs D H) (it : fat_directory_item) (entry start : Z) (inp old ext : list Z).
Context (R : ready_volume (priv s)) (Rq : request it start inp) (Hit : item_wf it).
Context (C : is_chain (im s) (priv s) (low_16_bits_first_cluster it) old).
Context (Cl : entry_clear (priv s) entry (fun c => c ∈ old \/ is_free (im s) (priv s) c /\ writable (priv s) c)).
Context (W : write_done it entry start inp old ext s s').

Lemma done_end :
  start + Z.of_nat (length inp) <= Z.of_nat (length (old ++ ext)) * cluster_bytes (priv s) /\
  filesize it <= Z.of_nat (length old) * cluster_bytes (priv s) /\
  new_size it start (Z.of_nat (length inp)) <= Z.of_nat (length (old ++ ext)) * cluster_bytes (priv s) /\
  0 < Z.of_nat (length (old ++ ext)).
Proof using R Rq Hit W.
  destruct (cluster_bytes_pos _ R) as [Hb _]. destruct Rq as [_ Hc Hs _ _]. pose proof (iw_size _ Hit).
  rewrite (wd_length _ _ _ _ _ _ _ _ W), (wd_old _ _ _ _ _ _ _ _ W).
  set (size := new_size it start (Z.of_nat (length inp))).
  assert (Hsize : filesize it <= size /\ start + Z.of_nat (length inp) <= size) by (subst size; unfold new_size; case_Zb; lia).
  destruct (clusters_needed_bounds size _ ltac:(lia) Hb). destruct (clusters_needed_bounds (filesize it) _ ltac:(lia) Hb).
  pose proof (clusters_needed_pos size _ ltac:(lia) Hb). lia.
Qed.

Lemma done_clear : entry_clear (priv s) entry (fun c => c ∈ old ++ ext).
Proof using Cl W.
  eapply clear_impl; [|done]. intros c [Hc|Hc]%elem_of_app; [by left|right]. by apply (wd_ext _ _ _ _ _ _ _ _ W).
Qed.

Lemma done_chain : is_chain (im s') (priv s) (low_16_bits_first_cluster (new_item it start inp (old ++ ext))) (old ++ ext).
Proof using R Rq Hit C Cl W.
  destruct done_end as (He & _). destruct W as [_ _ Hext Hnd Hi _].
  pose proof (wi_chain _ R _ _ _ _ _ _ (proj1 (rq_start _ _ _ Rq)) He _ _ Hi _ C Hext Hnd done_clear) as Hch.
  unfold new_item, written_item. simpl. rewrite u16_small; [done|].
  eapply head_range; [done|]. by eapply all_writable.
Qed.

Lemma done_content :
  file_bytes (im s') (priv s) (new_item it start inp (old ++ ext)) =
  overwrite (file_bytes (im s) (priv s) it) start inp.
Proof using R Rq Hit C Cl W.
  pose proof done_end as (He & Ho & Hn & _). pose proof done_chain as C'. pose proof done_clear as Cl'.
  pose proof (iw_size _ Hit) as Hfs. pose proof (rq_start _ _ _ Rq) as Hst. destruct (cluster_bytes_pos _ R) as [Hb _].
  destruct W as [_ _ Hext Hnd Hi _]. set (it' := new_item it start inp (old ++ ext)) in *.
  assert (Hsz : filesize it' = new_size it start (Z.of_nat (length inp))) by done.
  assert (Hin : forall i, 0 <= i < filesize it -> chain_byte (im s) (priv s) (low_16_bits_first_cluster it) i =
    im s (chain_addr (priv s) old i)) by (intros i Hi'; apply chain_byte_addr; [done|done|lia]).
  apply list_eq. intros i. rewrite overwrite_lookup by (rewrite file_bytes_length; lia).
  destruct (decide (Z.of_nat i < filesize it')) as [Hlt|Hge].
  2: { rewrite lookup_ge_None_2 by (rewrite file_bytes_length; lia). rewrite Hsz in Hge. unfold new_size in Hge.
       assert (Hge' : start + Z.of_nat (length inp) <= Z.of_nat i /\ filesize it <= Z.of_nat i) by (case_Zb_in Hge; lia).
       rewrite !decide_False, lookup_ge_None_2 by (rewrite ?file_bytes_length; lia). done. }
  unfold file_bytes at 1. rewrite slice_lookup, Z.add_0_l by done.
  rewrite (chain_byte_addr _ _ _ _ _ R C') by lia. rewrite Hsz in Hlt.
  destruct (decide (start <= Z.of_nat i < start + Z.of_nat (length inp))) as [Hr|Hr].
  - rewrite decide_False, decide_True by lia. pose proof (wi_data _ _ _ _ _ _ _ _ _ Hi (Z.of_nat i - start) ltac:(lia)) as Hd.
    replace (start + (Z.of_nat i - start)) with (Z.of_nat i) in Hd by lia. rewrite Hd. unfold byte_at.
    replace (Z.to_nat (Z.of_nat i - start)) with (i - Z.to_nat start)%nat by lia.
    by destruct (lookup_lt_is_Some_2 inp (i - Z.to_nat start)) as [v ->]; [lia|].
  - assert (Hif : Z.of_nat i < filesize it) by (unfold new_size in Hlt; case_Zb_in Hlt; lia).
    assert (Hres : Some (im s' (chain_addr (priv s) (old ++ ext) (Z.of_nat i))) = file_bytes (im s) (priv s) it !! i).
    { unfold file_bytes. rewrite slice_lookup, Z.add_0_l, Hin by lia. f_equal.
      rewrite (chain_addr_old _ R) by lia.
      eapply (wi_old _ R _ _ _ _ _ _ (proj1 Hst) He _ _ Hi _ C Hext Hnd); [done|lia|lia]. }
    rewrite Hres. repeat case_decide; done || lia.
Qed.
End written.

Lemma set_desc_pos_layout desc x s : same_layout (priv s) (priv (set_desc_pos desc x s)).
Proof. done. Qed.

Lemma done_mounted s s' it entry start inp old ext desc x :
  mounted s -> write_ready (priv s) = true -> request it start inp -> item_wf it ->
  is_chain (im s) (priv s) (low_16_bits_first_cluster it) old ->
  entry_clear (priv s) entry (fun c => c ∈ old \/ is_free (im s) (priv s) c /\ writable (priv s) c) ->
  write_done it entry start inp old ext s s' -> mounted (set_desc_pos desc x s').
Proof.
  intros Mo Hrd Rq Hit C Cl W. destruct (mo_ready _ Mo Hrd) as [R Mi].
  pose proof (committed_layout _ _ _ _ (wd_commit _ _ _ _ _ _ _ _ W)) as L.
  assert (R' : ready_volume (priv s')) by by eapply ready_volume_layout.
  assert (M' : mirrored (im s') (priv s')).
  { destruct (done_end _ _ _ _ _ _ _ _ R Rq Hit W) as (He & _). pose proof (done_clear _ _ _ _ _ _ _ _ Cl W) as Cl'.
    destruct W as [_ _ Hext Hnd Hi _]. intros c Hc. rewrite !(table_entry_layout _ _ L).
    eapply (wi_mirrored _ R _ _ _ _ _ _ (proj1 (rq_start _ _ _ Rq)) He _ _ Hi _ C Hext Hnd Cl' Mi).
    unfold writable in *. by rewrite <- (sl_writable _ _ L). }
  constructor; [apply (ready_volume_layout (priv s') (priv (set_desc_pos desc x s')) ltac:(done) R')|].
  intros _. split; [by apply (ready_volume_layout (priv s'))|]. done.
Qed.

Lemma done_item s s' it entry start inp old ext :
  ready_volume (priv s) -> request it start inp -> item_wf it ->
  is_chain (im s) (priv s) (low_16_bits_first_cluster it) old ->
  write_done it entry start inp old ext s s' ->
  decode_item (slice (im s') entry 32) = new_item it start inp (old ++ ext).
Proof.
  intros R Rq Hit C [_ _ Hext _ Hi _]. rewrite (wi_item _ _ _ _ _ _ _ _ _ Hi). apply decode_encode_item.
  destruct Rq. apply written_item_wf; [done|eapply head_range; [done|by eapply all_writable]|].
  unfold new_size, INT_MAX in *. case_Zb; lia.
Qed.

Lemma chain_file_readable s first l o t :
  ready_volume (priv s) -> volume_good s -> is_chain (im s) (priv s) first l ->
  0 <= o -> 0 < t -> o + t <= Z.of_nat (length l) * cluster_bytes (priv s) -> o + t <= INT_MAX ->
  file_readable s first o t.
Proof.
  intros R Hg C Ho Ht Hend Hmax. destruct (cluster_bytes_pos _ R) as [Hb _]. pose proof (rv_limit _ R).
  assert (Hlast : 0 <= last_cluster (priv s) o t < Z.of_nat (length l)).
  { unfold last_cluster. split; [apply Z.div_pos; lia|]. apply Z.div_lt_upper_bound; lia. }
  pose proof (chain_fits _ _ _ _ C) as Hfit. pose proof (chain_writable _ _ _ _ C) as Hw. rewrite Forall_lookup in Hw.
  assert (Hnth : forall k, 0 <= k <= last_cluster (priv s) o t ->
    writable (priv s) (nth_cluster (im s) (priv s) (Z.to_nat k) first)).
  { intros k Hk. destruct (lookup_lt_is_Some_2 l (Z.to_nat k)) as [c Hc]; [lia|].
    rewrite <- (ch_nth _ _ _ _ C _ _ Hc). by eapply Hw. }
  split; [done|]. split; [done|]. split; [done|]. split; [done|]. cbv zeta. split; [|lia]. split; [split|].
  - by apply volume_table_good.
  - intros k Hk. by apply writable_valid, Hnth.
  - intros k Hk. destruct (cluster_pos_range _ R _ (Hnth k Hk)) as (_ & Hhi & _). pose proof (rv_end _ R).
    split; [|lia]. apply volume_good_range; [done|by apply cluster_pos_nonneg, Hnth|done|done].
Qed.

Lemma slice_take_drop f n o t : 0 <= o -> 0 <= t -> o + t <= n ->
  take (Z.to_nat t) (drop (Z.to_nat o) (slice f 0 n)) = slice f o t.
Proof. intros Ho Ht Hn. rewrite slice_sub by lia. done. Qed.

Lemma empty_item_wf it : item_wf it -> item_wf (empty_item it).
Proof.
  intros [Hn He (Ha & Hr & Ht) Hw Hs]. rewrite !Forall_cons in Hw.
  destruct Hw as (? & ? & ? & ? & ? & ? & ? & _). constructor; try done; simpl.
  - split; [|done]. unfold is_byte in *. apply (lor_range _ _ 8); unfold FAT_FILE_ARCHIVED; lia.
  - repeat constructor; lia.
Qed.

(** The entries of a chain cleared in both tables. *)
Definition clear_chain (l : list Z) (it : fat_directory_item) : io (fs D H) fat_directory_item :=
  if bool_decide (l = []) then mret it
  else
    _ ← FatWrite.set_entries 0 l 0;
    _ ← fat16_flush;
    _ ← FatWrite.set_entries 1 l 0;
    _ ← fat16_flush;
    mret it.

Lemma clear_chain_spec l it s it' s' :
  ready_volume (priv s) -> Forall (writable (priv s)) l -> NoDup l -> clear_chain l it s = (Ok it', s') ->
  it' = it /\ quiet s s' /\ (forall c, c ∈ l -> is_free (im s') (priv s) c) /\
  (forall a, ~ in_entries (priv s) l a -> im s' a = im s a).
Proof.
  intros R Hw Hnd E. unfold clear_chain in E. case_bool_decide as Hl.
  { apply mret_inv in E as [[= ->] ->]. subst l. split; [done|]. split; [done|]. split; [set_solver|done]. }
  assert (Eq : (_ ← put_both ((., 0) <$> l); mret it) s = (Ok it', s')).
  { rewrite <- E. unfold put_both. rewrite io_bind_assoc. apply io_bind_ext; [by rewrite set_entries_put|]. intros [] s1 _.
    rewrite io_bind_assoc. apply io_bind_ext; [done|]. intros [] s2 _. rewrite io_bind_assoc.
    apply io_bind_ext; [by rewrite set_entries_put|done]. }
  apply io_bind_ok in Eq as (u & s1 & Ep & Em). apply mret_inv in Em as [[= ->] ->].
  assert (Hfst : ((., 0) <$> l).*1 = l) by (rewrite <- list_fmap_compose; apply list_fmap_id).
  apply put_both_spec in Ep as (Q & Hin & Hout); [|done|by rewrite Hfst|].
  2: { apply Forall_fmap. eapply Forall_impl; [done|]. intros c Hc. simpl. split; [done|lia]. }
  rewrite Hfst in Hout. split; [done|]. split; [done|]. split; [|done].
  intros c Hc. split; apply Hin; try lia; apply list_elem_of_fmap; by exists c.
Qed.

(** C16: a successful write through an open descriptor replaces exactly the requested bytes of the
    file, extending it where it must: the directory entry now on the disk describes the old contents
    overwritten at the descriptor's position (at the end in append mode). The heap is as before and the
    invariant of the volume, the equality of the two tables included, still holds. *)
Theorem write_bytes_content s desc d ptr it inp n s' :
  open_file s desc d ptr it -> Forall is_byte inp -> inp <> [] ->
  fat16_write_bytes desc inp s = (Ok n, s') ->
  n = Z.of_nat (length inp) /\ mounted s' /\ heap s' = heap s /\
  let it' := decode_item (slice (im s') (entry_pos (desc_item d)) 32) in
  filename it' = filename it /\ ext it' = ext it /\
  filesize it' = Z.max (filesize it) (write_start d it + Z.of_nat (length inp)) /\
  file_bytes (im s') (priv s') it' = overwrite (file_bytes (im s) (priv s) it) (write_start d it) inp.
Proof.
  intros O Hb Hne E. apply (write_bytes_inv _ _ _ _ _ _ _ _ O Hb Hne) in E as (-> & Rq & old & ex & s1 & C & W & ->).
  destruct O as [Mo Hrd _ _ _ Hit _ Hcl]. pose proof (proj1 (mo_ready _ Mo Hrd)) as R.
  split; [done|]. split; [by eapply done_mounted; [..|apply Hcl|]|].
  split; [apply (cm_heap _ _ _ _ (wd_commit _ _ _ _ _ _ _ _ W))|].
  cbv zeta. change (im (set_desc_pos _ _ s1)) with (im s1). rewrite (done_item _ _ _ _ _ _ _ _ R Rq Hit C W).
  split; [done|]. split; [done|]. split; [unfold new_item, written_item, new_size; simpl; case_Zb; lia|].
  rewrite (file_bytes_layout _ (priv s)), <- (done_content s s1 it (entry_pos (desc_item d)) (write_start d it) inp old ex); try done.
  - by apply Hcl.
  - etrans; [apply (committed_layout _ _ _ _ (wd_commit _ _ _ _ _ _ _ _ W))|apply set_desc_pos_layout].
Qed.

(** ** Writes that fail *)

(** What the write of a file may touch: its clusters and the free ones, their entries in both tables, and its directory
    entry. *)
Record spares (K : Z -> Prop) (s : fs D H) (it : fat_directory_item) (entry : Z) : Prop := Spares {
  sp_clusters c a : may_write s it c -> K a -> ~ in_cluster (priv s) c a;
  sp_entries c copy : may_write s it c -> 0 <= copy < 2 -> harmless K s (entry_addr (priv s) copy c) 2;
  sp_entry : harmless K s entry 32
}.

Lemma data_end_behind p : ready_volume p -> sector_pos (root_directory p) <= data_end p.
Proof.
  intros R. destruct (sector_pos_eq _ R) as [_ Hse]. unfold data_end. pose proof (rv_limit _ R). pose proof (rv_spc _ R). nia.
Qed.

Lemma intact_refl K s : intact K s s.
Proof. by constructor. Qed.

Lemma intact_free K s c s1 s2 : free c s1 = s -> intact K s1 s2 -> intact K s (free c s2).
Proof. intros <- [L Hh G Hi]. constructor; try done. simpl. by rewrite Hh. Qed.

Lemma intact_trans_reads K s s1 s2 : reads s s1 -> intact K s1 s2 -> intact K s s2.
Proof.
  intros [Hi Hh V G] [L Hh' G' Hi']. constructor; [|congruence|auto|].
  - etrans; [by apply same_volume_layout|exact L].
  - intros a Ha. by rewrite Hi', Hi.
Qed.

Lemma harmless_reads K s s1 w n : reads s s1 -> harmless K s w n -> harmless K s1 w n.
Proof.
  intros Rd [Hf|(Hi & Hg & Ho)]; [by left|right]. split; [done|]. split; [|done]. intros k Hk. by apply (rd_good _ _ Rd), Hg.
Qed.

Lemma write_chain_reach K it entry start inp old s r s' :
  ready_volume (priv s) -> item_wf it -> request it start inp ->
  is_chain (im s) (priv s) (low_16_bits_first_cluster it) old -> spares K s it entry ->
  write_chain it entry start (Z.of_nat (length inp)) inp old s = (r, s') -> intact K s s'.
Proof.
  intros R Hit Rq C [Sc Se Sn] E. unfold write_chain in E. rewrite io_gets in E. cbv zeta in E.
  destruct (cluster_bytes_pos _ R) as [Hb _]. pose proof (iw_size _ Hit) as Hfs. destruct Rq as [Rb Rl [Rs1 Rs2] Rm Rf].
  fold (new_size it start (Z.of_nat (length inp))) in E. set (size := new_size _ _ _) in *.
  assert (Hsize : filesize it <= size /\ start + Z.of_nat (length inp) <= size <= INT_MAX)
    by (subst size; unfold new_size; case_Zb; lia).
  rewrite io_fail_if in E. destruct (Z.eqb_spec (Z.of_nat (length old)) (clusters_needed (filesize it) (cluster_bytes (priv s)))) as [Hlen|Hlen];
    cbn [negb] in E; [|injection E as <- <-; apply intact_refl].
  assert (Hle : Z.of_nat (length old) <= clusters_needed size (cluster_bytes (priv s))) by (rewrite Hlen; apply clusters_needed_mono; lia).
  apply io_bind_inv in E as [(e & E & ->)|(chain & s1 & E & E1)].
  { eapply allocate_spec in E as (Rd & _); [|done..]. eapply intact_reads; [exact Rd|apply intact_refl]. }
  eapply allocate_spec in E as (Rd & Hcl & ->); [|done..]. set (ext := take _ (free_clusters _ _)) in *. rewrite drop_app_length in E1.
  assert (Hext : forall c, c ∈ ext -> is_free (im s) (priv s) c /\ writable (priv s) c).
  { intros c Hc. apply free_clusters_elem. subst ext. by eapply subseteq_take. }
  pose proof (all_writable _ _ _ _ _ C Hext) as Hw. pose proof (rd_volume _ _ Rd) as V.
  assert (Hmay : forall c, c ∈ old ++ ext -> may_write s it c) by (intros c [Hc|Hc]%elem_of_app; [left; by exists old|right; by apply Hext]).
  eapply intact_trans_reads; [exact Rd|]. eapply write_rest_intact; [by eapply ready_volume_same|..|apply intact_refl|exact E1].
  - intros c a Hc Ha. rewrite (in_cluster_same _ _ _ _ V). by apply Sc; [apply Hmay|].
  - eapply Forall_impl; [exact Hw|]. intros c Hc. by apply (writable_same _ _ _ V).
  - done.
  - done.
  - rewrite (cluster_bytes_same _ _ V), Hcl. destruct (clusters_needed_bounds size (cluster_bytes (priv s))) as [? _]; lia.
  - intros c Hc copy Hcopy. rewrite (entry_addr_same _ _ _ _ V). apply (harmless_reads K s); [done|]. by apply Se; [apply Hmay|].
  - apply written_item_wf; [done|by eapply head_range|unfold INT_MAX in *; lia].
  - by apply (harmless_reads K s).
Qed.

Lemma write_bytes_reach K s desc d ptr it inp r s' :
  open_file s desc d ptr it -> Forall is_byte inp -> spares K s it (entry_pos (desc_item d)) ->
  fat16_write_bytes desc inp s = (r, s') -> intact K s s'.
Proof.
  intros [Mo Hrd [A Hlv] Hst Hbd Hit Hpos _] Hb Sp E. destruct (mo_ready _ Mo Hrd) as [R _].
  unfold fat16_write_bytes in E. rewrite io_gets, Hst, io_fail_if in E.
  destruct (mode d =? FILE_MODE_READ); [injection E as <- <-; apply intact_refl|].
  destruct (Z.eqb_spec (Z.of_nat (length inp)) 0) as [Hz|Hz]; [apply mret_inv in E as [_ ->]; apply intact_refl|].
  assert (Hprep : fat16_prepare_write s = ((if mutation_disabled (priv s) then Err (- EIO) else Ok tt), s)).
  { unfold fat16_prepare_write. rewrite io_gets, Hrd. by destruct (mutation_disabled _). }
  destruct (mutation_disabled (priv s)); [rewrite (io_bind_stop _ _ _ _ _ Hprep) in E; injection E as <- <-; apply intact_refl|].
  rewrite (io_bind_run _ _ _ _ _ Hprep), Hbd in E. fold (write_start d it) in E. rewrite io_fail_if in E. pose proof (iw_size _ Hit) as Hfs.
  destruct (Z.ltb_spec (filesize it) (write_start d it)) as [Hlt|Hge]; [injection E as <- <-; apply intact_refl|].
  rewrite io_fail_if in E. destruct (_ || _) eqn:Hchk; [injection E as <- <-; apply intact_refl|].
  rewrite orb_false_iff, !Z.ltb_ge in Hchk. assert (0 <= write_start d it) by (unfold write_start; case_Zb; lia).
  pose proof (ready_writable_range _ R) as Hwr. pose proof (item_wf_range _ Hit) as Hir.
  apply io_bind_inv in E as [(e & E & ->)|([c old] & s1 & E & E1)]; (eapply collect_chain_spec in E; [|apply R|done..]).
  { destruct E as [Rd _]. eapply intact_reads; [exact Rd|apply intact_refl]. }
  destruct E as (Rd & C & _ & Hsz). pose proof (rd_volume _ _ Rd) as V. set (sc := free c s1) in *.
  assert (Hmay : forall x, may_write sc it x -> may_write s it x).
  { intros x [(o & Ho & Hx)|[Hf Hx]]; [left; exists o; split; [by eapply is_chain_reads|done]|right].
    split; [by apply (is_free_reads _ _ _ Rd)|by apply (writable_same _ _ _ V)]. }
  assert (Sp1 : spares K s1 it (entry_pos (desc_item d))).
  { destruct Sp as [Sc Se Sn]. constructor.
    - intros x a Hx Ha. change (priv s1) with (priv sc). rewrite (in_cluster_same _ _ _ _ V). by apply Sc; [apply Hmay|].
    - intros x copy Hx Hcopy. change (priv s1) with (priv sc). rewrite (entry_addr_same _ _ _ _ V).
      apply (harmless_reads K s sc); [done|]. by apply Se; [apply Hmay|].
    - by apply (harmless_reads K s sc). }
  assert (Hfin : forall r1 s2, finally (write_chain it (entry_pos (desc_item d)) (write_start d it) (Z.of_nat (length inp)) inp old) (free c) s1 = (r1, s2) ->
    intact K s s2).
  { intros r1 s2 Ef. apply finally_inv in Ef as (s3 & Ef & ->). apply (write_chain_reach K) in Ef; [|by eapply ready_volume_same|done| |exact (reads_is_chain _ _ _ _ Rd C)|done].
    - eapply intact_trans_reads; [exact Rd|]. by apply (intact_free K sc c s1).
    - constructor; done || lia. }
  apply io_bind_inv in E1 as [(e & E1 & ->)|(u & s2 & E1 & E2)]; [by eapply Hfin|].
  rewrite io_modify in E2. apply mret_inv in E2 as [_ ->]. destruct (Hfin _ _ E1) as [L Hh G Hi]. constructor; [etrans; [exact L|apply set_desc_pos_layout]|exact Hh|exact G|exact Hi].
Qed.

(** The bytes of another file: those of its clusters, and, where the sectors of the tables work, its entries there. *)
Definition file_area (s : fs D H) (l : list Z) (tables : bool) (a : Z) : Prop :=
  (exists c, c ∈ l /\ in_cluster (priv s) c a) \/ (tables = true /\ in_entries (priv s) l a).

(** A write that succeeds. *)
Lemma write_ok_other_files s desc d ptr it inp n s' it2 l :
  open_file s desc d ptr it -> Forall is_byte inp ->
  is_chain (im s) (priv s) (low_16_bits_first_cluster it2) l ->
  filesize it2 <= Z.of_nat (length l) * cluster_bytes (priv s) ->
  (forall old, is_chain (im s) (priv s) (low_16_bits_first_cluster it) old -> forall c, c ∈ l -> c ∉ old) ->
  entry_clear (priv s) (entry_pos (desc_item d)) (fun c => c ∈ l) ->
  fat16_write_bytes desc inp s = (Ok n, s') ->
  is_chain (im s') (priv s') (low_16_bits_first_cluster it2) l /\
  file_bytes (im s') (priv s') it2 = file_bytes (im s) (priv s) it2.
Proof.
  intros O Hb C2 Hsz Hdis Cl2 E. destruct (decide (inp = [])) as [->|Hne].
  { unfold fat16_write_bytes in E. rewrite io_gets, (of_store _ _ _ _ _ O), io_fail_if in E.
    destruct (mode d =? FILE_MODE_READ); [done|]. by apply mret_inv in E as [_ ->]. }
  apply (write_bytes_inv _ _ _ _ _ _ _ _ O Hb Hne) in E as (-> & Rq & old & ex & s1 & C & W & ->).
  destruct O as [Mo Hrd _ _ _ Hit _ Hcl]. pose proof (proj1 (mo_ready _ Mo Hrd)) as R.
  pose proof (transitivity (committed_layout _ _ _ _ (wd_commit _ _ _ _ _ _ _ _ W))
    (set_desc_pos_layout desc (write_start d it + Z.of_nat (length inp)) s1)) as L.
  destruct (done_end _ _ _ _ _ _ _ _ R Rq Hit W) as (He & _). pose proof (done_clear _ _ _ _ _ _ _ _ (Hcl _ C) W) as Cl'.
  destruct W as [_ _ Hext Hnd Hi _].
  destruct (wi_other _ R _ _ _ _ _ _ (proj1 (rq_start _ _ _ Rq)) He _ _ Hi _ C Hext Hnd _ l Cl' Cl2 C2 (Hdis _ C)) as [C2' Hd].
  split; [by apply (is_chain_layout (priv s) _ L)|]. rewrite (file_bytes_layout _ (priv s)) by done. apply slice_ext. intros i Hi'.
  rewrite (chain_byte_addr _ _ _ l) by (done || lia). rewrite (chain_byte_addr _ _ _ l) by (done || lia). apply Hd. lia.
Qed.

Lemma other_spared s it entry first2 l tables :
  ready_volume (priv s) -> is_chain (im s) (priv s) first2 l ->
  (forall old, is_chain (im s) (priv s) (low_16_bits_first_cluster it) old -> forall c, c ∈ l -> c ∉ old) ->
  entry_clear (priv s) entry (fun c => c ∈ l) -> (tables = true -> tables_good s) ->
  spares (file_area s l tables) s it entry.
Proof.
  intros R C2 Hdis Cl HT. pose proof (chain_writable _ _ _ _ C2) as Hall. rewrite Forall_forall in Hall.
  assert (Hmay : forall c, may_write s it c -> writable (priv s) c /\ c ∉ l).
  { intros c [(old & C & Hc)|[Hf Hw]].
    - split; [|by intros Hl; eapply Hdis]. pose proof (chain_writable _ _ _ _ C) as Hw. rewrite Forall_forall in Hw. by apply Hw.
    - split; [done|]. intros Hl. by eapply chain_not_free. }
  destruct (sector_pos_eq _ R) as [Hsp Hse].
  assert (Hnear : forall w n a c, c ∈ l -> in_cluster (priv s) c a -> near w n a -> exists b, w <= b < w + n /\ in_cluster (priv s) c b).
  { intros w n a c Hc Ha (b & Hb & E). exists b. split; [done|]. destruct (cluster_pos_range _ R c (Hall _ Hc)) as (_ & _ & Hm).
    destruct (cluster_bytes_pos _ R) as [_ Hcb]. unfold in_cluster in *. lia. }
  constructor.
  - intros c a [Hw Hn]%Hmay [(d & Hd & Ha)|[_ He]] Hin.
    + unfold in_cluster in *. destruct (cluster_pos_disjoint _ R c d (a - cluster_pos (priv s) c) (a - cluster_pos (priv s) d)) as [-> _]; [lia..|done].
    + apply in_entries_front in He; [|done|by apply Hall]. pose proof (in_cluster_behind _ _ _ R Hw Hin). lia.
  - intros c copy [Hw Hn]%Hmay Hcopy. destruct (entry_addr_range _ R copy c Hw Hcopy) as [Hlo Hhi].
    assert (Hcl : forall a d, d ∈ l -> in_cluster (priv s) d a -> ending_sector_pos (root_directory (priv s)) * 512 <= a).
    { intros a e He. apply in_cluster_behind; [done|by apply Hall]. }
    destruct tables; [right|left].
    + split; [pose proof (rv_end _ R); pose proof (data_end_behind _ R); unfold in_int; lia|]. split.
      * intros k Hk. apply HT; [done|]. unfold entry_addr in *. pose proof (geo_fat _ (rv_geometry _ R)).
        pose proof (valid_in_table _ _ (rv_geometry _ R) (writable_valid _ R c Hw)). unfold writable in Hw. lia.
      * intros a [(e & He & Ha)|[_ (copy' & e & Hcopy' & He & Ha)]]; [specialize (Hcl a e He Ha); lia|].
        pose proof (entry_addr_disjoint _ R copy copy' c e Hw (Hall _ He) Hcopy Hcopy') as Hd.
        assert (c <> e) by (intros ->; done). specialize (Hd ltac:(congruence)). lia.
    + intros a [(e & He & Ha)|[? _]] Hn'; [|done]. destruct (Hnear _ _ _ _ He Ha Hn') as (b & Hb & Hin).
      specialize (Hcl b e He Hin). lia.
  - left. pose proof (ec_low _ _ _ Cl) as Hlow. intros a [(e & He & Ha)|[_ Ha]] Hn.
    + destruct (Hnear _ _ _ _ He Ha Hn) as (b & Hb & Hin). by eapply (ec_clusters _ _ _ Cl).
    + apply in_entries_front in Ha; [|done|by apply Hall]. destruct Hn as (b & Hb & E). lia.
Qed.

Lemma area_kept s s' it2 l :
  ready_volume (priv s) -> is_chain (im s) (priv s) (low_16_bits_first_cluster it2) l ->
  filesize it2 <= Z.of_nat (length l) * cluster_bytes (priv s) -> intact (file_area s l true) s s' ->
  is_chain (im s') (priv s') (low_16_bits_first_cluster it2) l /\
  file_bytes (im s') (priv s') it2 = file_bytes (im s) (priv s) it2.
Proof.
  intros R C2 Hsz [L _ _ Hi].
  assert (C2' : is_chain (im s') (priv s) (low_16_bits_first_cluster it2) l).
  { apply is_chain_intro; [apply C2|apply C2| |].
    - destruct l as [|c l]; [by pose proof (ch_end _ _ _ _ C2)|]. simpl. by rewrite (ch_nth _ _ _ _ C2 0%nat c eq_refl).
    - intros k c Hk. rewrite (fat_entry_ext _ (im s)); [by eapply chain_entry|]. apply table_entry_ext. intros a Ha.
      apply Hi. right. split; [done|]. exists 0, c. split; [lia|]. split; [by eapply list_elem_of_lookup_2|done]. }
  split; [by apply (is_chain_layout (priv s))|]. rewrite (file_bytes_layout _ (priv s)) by done. apply slice_ext. intros i Hi'.
  rewrite !(chain_byte_addr _ _ _ l) by (done || lia). apply Hi. left.
  destruct (chain_addr_cluster _ R l i) as (c & Hc & _ & Hin); [lia|]. exists c. split; [by eapply list_elem_of_lookup_2|done].
Qed.


(** C19: a write to a well-formed file on a working drive writes every byte, unless the kernel heap cannot give the
    memory for the list of clusters, or the volume has fewer free clusters than the file needs. *)
Theorem write_bytes_succeeds s desc d ptr it inp old r s' :
  open_file s desc d ptr it -> Forall is_byte inp -> inp <> [] ->
  mode d <> FILE_MODE_READ -> mutation_disabled (priv s) = false -> volume_good s ->
  write_start d it <= filesize it -> filesize it <= INT_MAX -> write_start d it + Z.of_nat (length inp) <= INT_MAX ->
  high_16_bits_first_cluster it = 0 -> is_chain (im s) (priv s) (low_16_bits_first_cluster it) old ->
  Z.of_nat (length old) = clusters_needed (filesize it) (cluster_bytes (priv s)) ->
  fat16_write_bytes desc inp s = (r, s') ->
  r = Ok (Z.of_nat (length inp)) \/ r = Err (- ENOMEM) /\ no_list_memory s \/
  r = Err (- ENOSPC) /\ Z.of_nat (length old + length (free_clusters (im s) (priv s))) <
    clusters_needed (Z.max (filesize it) (write_start d it + Z.of_nat (length inp))) (cluster_bytes (priv s)).
Proof.
  intros O Hb Hne Hm Hd Hg Hst Hsz Hmax Hh C Hl E. apply (write_bytes_inv _ _ _ _ _ _ _ _ O Hb Hne) in E.
  destruct r as [n|e]; [left; f_equal; apply E|right]. destruct E as [_ Hno].
  assert (Rq : request it (write_start d it) inp).
  { pose proof (of_pos _ _ _ _ _ O). pose proof (iw_size _ (of_item _ _ _ _ _ O)).
    constructor; [done|destruct inp; [done|simpl; lia]|unfold write_start in *; destruct (mode d =? _); lia|done|done]. }
  destruct (Hno old) as [[-> Hnm]|[-> Hlt]]; [done..|by left|right]. split; [done|].
  replace (Z.max _ _) with (new_size it (write_start d it) (Z.of_nat (length inp))); [done|].
  unfold new_size. case_Zb; lia.
Qed.

(** C20: reading a byte range of a chain changes nothing on the disk and returns the bytes of the chain's
    clusters in order; it fails only if the range is outside the chain or a sector cannot be read. *)
Theorem read_internal_correct start offset total s r s' :
  geometry (priv s) -> fat16_read_internal start offset total s = (r, s') ->
  (forall a, im s' a = im s a) /\ heap s' = heap s /\
  (r = Ok (slice (chain_byte (im s) (priv s) start) offset total) \/
   exists e, r = Err e /\ e < 0 /\ ~ file_readable s start offset total).
Proof.
  intros G E. apply read_internal_spec in E as [R Hr]; [|done].
  split; [apply R|]. split; [apply R|]. destruct r as [out|e]; [left; by destruct Hr as [-> _]|right; by exists e].
Qed.

(** C17: what has been written is read back: after a successful write on a working drive, reading any
    range of the file succeeds and returns the overwritten contents. *)
Theorem write_then_read s desc d ptr it inp n s' o t r s'' :
  open_file s desc d ptr it -> Forall is_byte inp -> inp <> [] -> volume_good s ->
  fat16_write_bytes desc inp s = (Ok n, s') ->
  let it' := decode_item (slice (im s') (entry_pos (desc_item d)) 32) in
  0 <= o -> 0 < t -> o + t <= filesize it' ->
  fat16_read_internal (low_16_bits_first_cluster it') o t s' = (r, s'') ->
  r = Ok (take (Z.to_nat t) (drop (Z.to_nat o) (overwrite (file_bytes (im s) (priv s) it) (write_start d it) inp))).
Proof.
  intros O Hb Hne Hg E it' Ho Ht Hot Er. subst it'.
  apply (write_bytes_inv _ _ _ _ _ _ _ _ O Hb Hne) in E as (-> & Rq & old & ex & s1 & C & W & ->).
  destruct O as [Mo Hrd _ _ _ Hit _ Hcl]. pose proof (proj1 (mo_ready _ Mo Hrd)) as R.
  pose proof (transitivity (committed_layout _ _ _ _ (wd_commit _ _ _ _ _ _ _ _ W))
    (set_desc_pos_layout desc (write_start d it + Z.of_nat (length inp)) s1)) as L.
  set (s2 := set_desc_pos desc _ s1) in *. change (im s2) with (im s1) in *.
  rewrite (done_item _ _ _ _ _ _ _ _ R Rq Hit C W) in Er, Hot.
  pose proof (done_chain s s1 it _ _ _ _ _ R Rq Hit C (Hcl _ C) W) as C'.
  destruct (done_end _ _ _ _ _ _ _ _ R Rq Hit W) as (_ & _ & Hsz & _).
  pose proof (done_content s s1 it _ _ _ _ _ R Rq Hit C (Hcl _ C) W) as Hc.
  set (it' := new_item it (write_start d it) inp (old ++ ex)) in *. change (filesize it') with (new_size it (write_start d it) (Z.of_nat (length inp))) in Hot.
  assert (R2 : ready_volume (priv s2)) by by eapply ready_volume_layout.
  apply read_internal_spec in Er as [_ Hr]; [|apply R2]. destruct r as [out|e].
  - destruct Hr as [-> _]. f_equal. rewrite <- Hc. unfold file_bytes. rewrite slice_take_drop; [|lia..|done].
    apply slice_ext. intros a _. by apply chain_byte_layout.
  - destruct Hr as [_ Hbad]. destruct Hbad. eapply (chain_file_readable s2 _ (old ++ ex)); [done| |by eapply is_chain_layout|done|done| |].
    + destruct Hg as [Hgs Hgf]. pose proof (cm_good _ _ _ _ (wd_commit _ _ _ _ _ _ _ _ W)) as Hgm.
      split; [|by apply Hgm]. intros k Hk. apply Hgm, Hgs. revert Hk. unfold data_end. by layout L.
    + rewrite (cluster_bytes_layout _ _ L). lia.
    + destruct Rq. unfold new_size in Hot. case_Zb_in Hot; lia.
Qed.

(** C21: truncating a file publishes an empty directory entry and returns every cluster of its chain to
    the free clusters in both tables; the entries of all other clusters, the heap and the data area stay
    as they were. *)
Theorem truncate_frees s it entry it' s' A :
  mounted s -> write_ready (priv s) = true -> live (heap s) A -> item_wf it ->
  entry_clear (priv s) entry (fun _ => False) ->
  fat16_truncate it entry s = (Ok it', s') ->
  heap s' = heap s /\ filesize it' = 0 /\ low_16_bits_first_cluster it' = 0 /\
  decode_item (slice (im s') entry 32) = it' /\
  exists l, is_chain (im s) (priv s) (low_16_bits_first_cluster it) l /\
    (forall c, c ∈ l -> is_free (im s') (priv s') c) /\
    (forall copy c, 0 <= copy < 2 -> writable (priv s) c -> c ∉ l ->
       table_entry (im s') (priv s') copy c = table_entry (im s) (priv s) copy c) /\
    (forall a, ending_sector_pos (root_directory (priv s)) * 512 <= a -> a < entry \/ entry + 32 <= a ->
       im s' a = im s a).
Proof.
  intros Mo Hrd Hlv Hit Cl E. destruct (mo_ready _ Mo Hrd) as [R _]. unfold fat16_truncate in E.
  pose proof (ready_writable_range _ R) as Hwr. pose proof (item_wf_range _ Hit) as Hir.
  apply io_bind_ok in E as ([c l] & s1 & E & E1). eapply collect_chain_spec in E as (Rd & C & _); [|apply R|done..].
  apply finally_inv in E1 as (s2 & E1 & ->). apply io_bind_ok in E1 as (u & s3 & E2 & E3).
  pose proof (rd_volume _ _ Rd : same_volume (priv s) (priv s1)) as V. pose proof (ready_volume_same _ _ V R) as R1.
  pose proof (clear_quiet _ _ _ _ V Cl) as Cl1. pose proof (empty_item_wf _ Hit) as Hwf.
  destruct (sector_pos_eq _ R) as [Hsp Hse]. pose proof (geo_reserved _ (rv_geometry _ R)). pose proof (geo_fat _ (rv_geometry _ R)).
  apply commit_item_spec in E2 as [Cm Hi]; [|done|done|pose proof (ec_low _ _ _ Cl); lia|apply Cl1].
  pose proof (committed_layout _ _ _ _ Cm) as L3. pose proof (transitivity (same_volume_layout _ _ V) L3) as L.
  fold (clear_chain l (empty_item it)) in E3. pose proof (chain_writable _ _ _ _ C) as Hw.
  apply clear_chain_spec in E3 as (-> & Q & Hfree & Hout); [|by eapply ready_volume_layout| |apply C].
  2: { eapply Forall_impl; [done|]. intros x Hx. unfold writable in *. by rewrite (sl_writable _ _ L). }
  pose proof (q_volume _ _ Q) as V2. pose proof (transitivity L (same_volume_layout _ _ V2)) as L'.
  assert (Hin : forall a, in_entries (priv s3) l a -> a < sector_pos (root_directory (priv s)) * 512).
  { intros a Ha. rewrite <- (sl_pos _ _ L). eapply in_entries_front; [by eapply ready_volume_layout| |done].
    intros x Hx. unfold writable in *. rewrite (sl_writable _ _ L). rewrite Forall_forall in Hw. by apply Hw. }
  pose proof (ec_low _ _ _ Cl) as Hlow. pose proof (encode_item_length _ Hwf) as Hel.
  split; [simpl; rewrite (q_heap _ _ Q), (cm_heap _ _ _ _ Cm); apply (rd_heap _ _ Rd)|].
  split; [done|]. split; [done|]. split.
  - rewrite <- (decode_encode_item _ Hwf). f_equal. apply list_eq. intros i. destruct (decide (i < 32)%nat) as [Hi32|Hi32].
    + rewrite slice_lookup by lia. simpl. rewrite Hout, Hi; [|intros Ha%Hin; lia].
      destruct (lookup_lt_is_Some_2 (encode_item (empty_item it)) i) as [v Hv]; [lia|].
      by rewrite Hv, (splice_in _ _ _ _ _ Hv).
    + rewrite !lookup_ge_None_2; [done|lia|rewrite slice_length; lia].
  - exists l. split; [done|]. split; [|split].
    + intros x Hx. destruct (Hfree x Hx) as [F0 F1]. unfold is_free. simpl. by rewrite !(table_entry_layout _ _ (same_volume_layout _ _ V2)).
    + intros copy x Hcopy Hx Hn. rewrite (table_entry_layout _ _ L'). apply table_entry_ext. intros a Ha. simpl.
      destruct (entry_addr_range _ R copy x Hx Hcopy). rewrite Hout, Hi, splice_out; [apply Rd|lia|].
      intros (copy' & y & Hcopy' & Hy & Hya). rewrite Forall_forall in Hw.
      assert (Hea : entry_addr (priv s3) copy' y = entry_addr (priv s) copy' y) by (unfold entry_addr; by layout L).
      pose proof (entry_addr_disjoint _ R copy copy' x y Hx (Hw _ Hy) Hcopy Hcopy') as Hdis.
      assert (x <> y) by (intros ->; done). specialize (Hdis ltac:(congruence)). lia.
    + intros a Ha Hae. simpl. rewrite Hout, Hi, splice_out; [apply Rd|lia|intros Hx%Hin; lia].
Qed.

(** a write to the disk that fails either has left the image alone or disables mutation, and then
    every later write through a descriptor is refused and changes nothing. *)
Theorem failed_write_disables w data s e s1 :
  Forall is_byte data -> fat16_write_at w data s = (Err e, s1) ->
  e = - EIO /\
  ((forall a, im s1 a = im s a) \/
   forall desc inp r s2, inp <> [] -> fat16_write_bytes desc inp s1 = (r, s2) -> s2 = s1 /\ exists e', r = Err e').
Proof.
  intros Hb E. apply write_at_spec in E as (-> & _ & Hd); [|done]. split; [done|].
  destruct Hd as [Hd|Hi]; [right|by left]. intros desc inp r s2 Hne E2. unfold fat16_write_bytes in E2.
  rewrite io_gets in E2. destruct (desc_store (priv s1) !! desc) as [d|].
  2: { apply fail_inv in E2 as [-> ->]. eauto. }
  rewrite io_fail_if in E2. destruct (mode d =? FILE_MODE_READ); [injection E2 as <- <-; eauto|].
  rewrite (proj2 (Z.eqb_neq (Z.of_nat (length inp)) 0)) in E2 by (destruct inp; [done|simpl; lia]).
  assert (Ep : fat16_prepare_write s1 = (Err (- EIO), s1)) by (unfold fat16_prepare_write; by rewrite io_gets, Hd).
  rewrite (io_bind_stop _ _ _ _ _ Ep) in E2. injection E2 as <- <-. eauto.
Qed.

(** preparing a mounted volume for writing changes nothing on the disk; when it succeeds the volume
    has two equal tables and every cluster up to [max_writable] lies inside the drive and inside the
    range of [int], which all later writes rely on. *)
Theorem prepare_write_establishes s r s' :
  mounted s -> fat16_prepare_write s = (r, s') ->
  (forall a, im s' a = im s a) /\ heap s' = heap s /\ mounted s' /\
  match r with
  | Ok _ => write_ready (priv s') = true /\ mirrored (im s') (priv s') /\
      forall c, writable (priv s') c -> fat16_valid_cluster (priv s') c = true /\
        0 <= cluster_pos (priv s') c /\ cluster_pos (priv s') c + cluster_bytes (priv s') <= INT_MAX
  | Err e => e < 0
  end.
Proof.
  intros Mo E. eapply prepare_write_spec in E as (Mo' & Hh & _ & Hi & _ & Hr); [|done].
  split; [done|]. split; [done|]. split; [done|]. destruct r as [u|e]; [|done]. destruct Hr as (Hrd & _ & _).
  split; [done|]. destruct (mo_ready _ Mo' Hrd) as [R M]. split; [done|]. intros c Hc.
  split; [by apply writable_valid|]. split; [by apply cluster_pos_nonneg|].
  destruct (cluster_pos_range _ R c Hc) as (_ & Hhi & _). pose proof (rv_end _ R). lia.
Qed.

(** C36: collecting the clusters of a file terminates on every image, cyclic chains included, and leaks nothing: it either
    returns the whole chain up to its end mark, without repetition, every cluster valid and enough of them for the size,
    or it fails with one of the statuses of the code and the heap as before. A loop that went on would end in [Err 0],
    which is none of them. *)
Theorem collect_chain_sound it s r s' A :
  mounted s -> write_ready (priv s) = true -> live (heap s) A -> item_wf it ->
  fat16_collect_chain it s = (r, s') ->
  (forall a, im s' a = im s a) /\
  match r with
  | Ok (c, l) => kfree (heap s') c = heap s /\
      is_chain (im s) (priv s) (low_16_bits_first_cluster it) l /\
      filesize it <= Z.of_nat (length l) * cluster_bytes (priv s)
  | Err e => e < 0 /\ heap s' = heap s
  end.
Proof.
  intros Mo Hrd Hlv Hit E. destruct (mo_ready _ Mo Hrd) as [R _].
  pose proof (ready_writable_range _ R) as Hwr. pose proof (item_wf_range _ Hit) as Hir.
  eapply collect_chain_spec in E; [|apply R|done..]. destruct r as [[c l]|e].
  - destruct E as (Rd & C & Hn & _). split; [apply Rd|]. split; [apply (rd_heap _ _ Rd)|]. split; [done|].
    destruct (cluster_bytes_pos _ R) as [Hb _].
    destruct (clusters_needed_bounds (filesize it) (cluster_bytes (priv s))) as [Hbd _]; [apply Hir|done|]. nia.
  - destruct E as [Rd He]. split; [apply Rd|]. split; [done|apply Rd].
Qed.

(** allocation extends a chain with the first clusters that are free in both tables, as many as
    are needed; it changes nothing, and on a drive whose tables can be read it fails only when there are
    too few. *)
Theorem allocate_first_free s first old needed r s' :
  mounted s -> write_ready (priv s) = true -> is_chain (im s) (priv s) first old ->
  Z.of_nat (length old) <= needed -> fat16_allocate old needed s = (r, s') ->
  (forall a, im s' a = im s a) /\ heap s' = heap s /\
  match r with
  | Ok chain => Z.of_nat (length chain) = needed /\ NoDup chain /\
      chain = old ++ take (Z.to_nat needed - length old)
        (filter (is_free (im s) (priv s)) (seqZ 2 (max_writable (priv s) - 1)))
  | Err e => tables_good s -> e = - ENOSPC /\ Z.of_nat (length old +
      length (filter (is_free (im s) (priv s)) (seqZ 2 (max_writable (priv s) - 1)))) < needed
  end.
Proof.
  intros Mo Hrd C Hn E. destruct (mo_ready _ Mo Hrd) as [R _]. eapply allocate_spec in E as [Rd Hr]; [|done..].
  split; [apply Rd|]. split; [apply Rd|]. destruct r as [chain|e]; [|apply Hr]. destruct Hr as [Hl ->].
  split; [done|]. split; [|done]. eapply all_nodup; [done| |].
  - intros c Hc. apply free_clusters_elem. by eapply subseteq_take.
  - eapply sublist_NoDup; [apply free_clusters_nodup|apply sublist_take].
Qed.
End theorems.

(** ** A small volume *)

Lemma root_entry_clear p e (P : Z -> Prop) :
  ready_volume p -> sector_pos (root_directory p) * 512 <= e -> e + 32 <= ending_sector_pos (root_directory p) * 512 ->
  (forall c, P c -> writable p c) -> entry_clear p e P.
Proof.
  intros R Hl Hh HP. pose proof (rv_limit _ R). pose proof (rv_spc _ R). constructor; [done|unfold data_end; nia|].
  intros c a Hc Ha Hin. pose proof (in_cluster_behind _ _ _ R (HP _ Hc) Hin). lia.
Qed.

(** A volume of 4200 sectors with the files HELLO.TXT, the five bytes 1 2 3 4 5 in cluster 2, and
    WORLD.TXT, two bytes in cluster 3. *)
Definition demo_item : fat_directory_item :=
  FatItem [72; 69; 76; 76; 79; 32; 32; 32] [84; 88; 84] 0x20 0 0 0 0 0 0 0 0 2 5.
Definition demo_other : fat_directory_item :=
  FatItem [87; 79; 82; 76; 68; 32; 32; 32] [84; 88; 84] 0x20 0 0 0 0 0 0 0 0 3 2.
Definition demo_root : list fat_directory_item :=
  [demo_item; demo_other] ++ replicate 14 (decode_item (replicate 32 0)).
Definition demo_table : list Z := [0xF8; 0xFF; 0xFF; 0xFF; 0xFF; 0xFF; 0xFF; 0xFF].
Definition demo_disk : ram_disk :=
  RamDisk (put (put (put (put (put ∅ 512 demo_table) 9216 demo_table)
    17920 (encode_item demo_item ++ encode_item demo_other)) 18432 [1; 2; 3; 4; 5]) 18944 [8; 9]) 4200 ∅.
Definition demo_desc : fat_file_descriptor :=
  FatFd (FatItemOf 8 (FAT_ITEM_TYPE_FILE 16 demo_item) 17920) 3 FILE_MODE_WRITE.
Definition demo_private : fat_private :=
  FatPrivate (FatH 512 1 1 2 16 4200 0xF8 17 0 0 0 0 0x29) (FatDirectory 16793600 demo_root 0 2 35 36) 0 0 0
    [100] {[100 := demo_desc]} false false 0.
Definition demo_heap : Heap.heap := Heap.Heap (Heap.HeapTable (replicate 8 0) 8) 16777216.
Definition demo_fs : fs ram_disk Heap.heap := Fs demo_disk demo_heap demo_private.
(** The same volume prepared for writing. *)
Definition demo_ready : fs ram_disk Heap.heap :=
  Fs demo_disk demo_heap (with_write_ready true (with_max_writable 4165 demo_private)).

Lemma demo_mounted : mounted demo_fs.
Proof. constructor; [constructor; vm_compute; (done || (split; congruence))|done]. Qed.

Lemma demo_prepare : fat16_prepare_write demo_fs = (Ok tt, demo_ready).
Proof. vm_compute. reflexivity. Qed.

Lemma demo_ready_mounted : mounted demo_ready /\ write_ready (priv demo_ready) = true.
Proof.
  pose proof (prepare_write_spec _ _ _ demo_mounted demo_prepare) as (M & _ & _ & _ & _ & Hr & _).
  exact (conj M Hr).
Qed.

Lemma demo_live : live (heap demo_ready) ∅.
Proof.
  change (heap demo_ready) with demo_heap. exists ∅. rewrite kmap_empty. split; [|done].
  apply Heap.empty_repr; (done || lia).
Qed.

Lemma demo_item_wf : item_wf demo_item.
Proof. constructor; simpl; repeat constructor; unfold is_byte; lia. Qed.

Lemma demo_open : open_file demo_ready 100 demo_desc 16 demo_item.
Proof.
  destruct demo_ready_mounted as [M Hr]. pose proof (proj1 (mo_ready _ M Hr)) as R.
  constructor; [exact M|exact Hr|exists ∅; apply demo_live|vm_compute; reflexivity|reflexivity|apply demo_item_wf|simpl; lia|].
  intros old C. apply root_entry_clear; [exact R|vm_compute; congruence|vm_compute; congruence|].
  intros c [Hc|[_ Hc]]; [|exact Hc]. pose proof (chain_writable _ _ _ _ C) as Hw. rewrite Forall_forall in Hw. auto.
Qed.

Lemma demo_chains c : c = 2 \/ c = 3 -> is_chain (img (dev demo_ready)) (priv demo_ready) c [c].
Proof.
  intros Hc. constructor.
  - intros [|k] x Hk; [by injection Hk|done].
  - intros x ->%list_elem_of_singleton. destruct Hc as [->| ->]; vm_compute; (split; [reflexivity|congruence]).
  - apply NoDup_singleton.
  - destruct Hc as [->| ->]; vm_compute; congruence.
Qed.

(** 600 bytes written at offset 3: the file gets a second cluster. *)
Definition demo_input : list Z := replicate 600 7.
Definition demo_after : fs ram_disk Heap.heap := snd (fat16_write_bytes 100 demo_input demo_ready).

Lemma demo_write : fat16_write_bytes 100 demo_input demo_ready = (Ok 600, demo_after).
Proof.
  unfold demo_after. destruct (fat16_write_bytes 100 demo_input demo_ready) as [r s'] eqn:E. cbn [snd]. f_equal.
  change r with (fst (r, s')). rewrite <- E. vm_compute. reflexivity.
Qed.

Lemma demo_after_item : decode_item (slice (img (dev demo_after)) 17920 32) = written_item demo_item 2 603.
Proof. vm_compute. reflexivity. Qed.

Lemma demo_input_bytes : Forall is_byte demo_input /\ demo_input <> [].
Proof. split; [apply Forall_replicate; unfold is_byte; lia|discriminate]. Qed.

Lemma write_bytes_content_witness :
  exists s' : fs ram_disk Heap.heap, fat16_write_bytes 100 demo_input demo_ready = (Ok 600, s') /\
    file_bytes (img (dev s')) (priv s') (decode_item (slice (img (dev s')) 17920 32)) = [1; 2; 3] ++ replicate 600 7.
Proof.
  exists demo_after. split; [apply demo_write|].
  destruct (write_bytes_content demo_ready 100 demo_desc 16 demo_item demo_input 600 demo_after
    demo_open (proj1 demo_input_bytes) (proj2 demo_input_bytes) demo_write) as (_ & _ & _ & _ & _ & _ & E).
  change (entry_pos (desc_item demo_desc)) with 17920 in E. rewrite E. vm_compute. reflexivity.
Defined.

(** The same drive with a sector that cannot be written. *)
Definition demo_broken : fs ram_disk Heap.heap :=
  Fs (RamDisk (bytes (dev demo_ready)) 4200 {[36]}) (heap demo_ready) (priv demo_ready).

Lemma demo_broken_open : open_file demo_broken 100 demo_desc 16 demo_item.
Proof. destruct demo_open as [M Hr Hl Hs Hb Hi Hp Hc]. constructor; [destruct M as [G Mr]; constructor; [exact G|exact Mr]|assumption..]. Qed.

Lemma demo_broken_tables : tables_good demo_broken.
Proof.
  intros k Hk. assert (Hk' : 1 <= k < 35) by exact Hk.
  change (0 <= k < 4200 /\ k ∉ ({[36]} : gset Z)). split; [lia|]. rewrite elem_of_singleton. lia.
Qed.


Lemma demo_volume_good : volume_good demo_ready.
Proof.
  split; [|exact I]. intros k Hk.
  assert (Hd : data_end (priv demo_ready) = 4200) by (vm_compute; reflexivity). rewrite Hd in Hk.
  assert (Hs : sectors (dev demo_ready) = 4200) by (vm_compute; reflexivity).
  assert (Hb : bad (dev demo_ready) = ∅) by (vm_compute; reflexivity).
  change (0 <= k < sectors (dev demo_ready) /\ k ∉ bad (dev demo_ready)). rewrite Hs, Hb. split; [exact Hk|apply not_elem_of_empty].
Qed.

Lemma demo_free : (1 <= length (free_clusters (img (dev demo_ready)) (priv demo_ready)))%nat.
Proof.
  assert (H4 : 4 ∈ free_clusters (img (dev demo_ready)) (priv demo_ready)).
  { apply free_clusters_elem. split; vm_compute; split; congruence. }
  destruct (free_clusters _ _); [by apply not_elem_of_nil in H4|simpl; lia].
Qed.

(** The heap has the room and the volume the clusters, so the write succeeds. *)
Lemma write_bytes_succeeds_witness :
  exists s' : fs ram_disk Heap.heap, fat16_write_bytes 100 demo_input demo_ready = (Ok 600, s').
Proof.
  destruct (fat16_write_bytes 100 demo_input demo_ready) as [r s'] eqn:E0. exists s'. f_equal.
  destruct (write_bytes_succeeds demo_ready 100 demo_desc 16 demo_item demo_input [2] r s')
    as [E|[[_ E]|[_ E]]].
  - apply demo_open.
  - apply demo_input_bytes.
  - apply demo_input_bytes.
  - vm_compute. congruence.
  - vm_compute. reflexivity.
  - apply demo_volume_good.
  - vm_compute. congruence.
  - vm_compute. congruence.
  - vm_compute. congruence.
  - reflexivity.
  - apply demo_chains. by left.
  - vm_compute. reflexivity.
  - exact E0.
  - exact E.
  - exfalso. vm_compute in E. discriminate.
  - exfalso. pose proof demo_free as Hf. set (n := length (free_clusters _ _)) in *.
    replace (clusters_needed _ _) with 2 in E by (vm_compute; reflexivity). cbn [length] in E. lia.
Defined.

Lemma read_internal_correct_witness :
  fat16_read_internal 2 1 3 demo_ready = (Ok [2; 3; 4], snd (fat16_read_internal 2 1 3 demo_ready)) /\
  heap (snd (fat16_read_internal 2 1 3 demo_ready)) = heap demo_ready.
Proof.
  destruct (fat16_read_internal 2 1 3 demo_ready) as [r s'] eqn:E.
  destruct (read_internal_correct 2 1 3 demo_ready r s') as (_ & Hh & Hr).
  - apply (mo_geometry _ (proj1 demo_ready_mounted)).
  - exact E.
  - split; [|exact Hh]. destruct Hr as [->|(e & -> & _)].
    + assert (Hs : slice (chain_byte (img (dev demo_ready)) (priv demo_ready) 2) 1 3 = [2; 3; 4]) by (vm_compute; reflexivity).
      rewrite Hs. reflexivity.
    + exfalso. assert (Hok : fst (fat16_read_internal 2 1 3 demo_ready) = Ok [2; 3; 4]) by (vm_compute; reflexivity).
      rewrite E in Hok. discriminate.
Defined.

Lemma write_then_read_witness :
  exists s'' : fs ram_disk Heap.heap, fat16_read_internal 2 2 2 demo_after = (Ok [3; 7], s'').
Proof.
  destruct (fat16_read_internal 2 2 2 demo_after) as [r s''] eqn:E. exists s''. f_equal.
  rewrite (write_then_read demo_ready 100 demo_desc 16 demo_item demo_input 600 demo_after 2 2 r s'').
  - vm_compute. reflexivity.
  - apply demo_open.
  - apply demo_input_bytes.
  - apply demo_input_bytes.
  - apply demo_volume_good.
  - apply demo_write.
  - lia.
  - lia.
  - change (entry_pos (desc_item demo_desc)) with 17920. rewrite demo_after_item. simpl. lia.
  - change (entry_pos (desc_item demo_desc)) with 17920. rewrite demo_after_item. exact E.
Defined.

Lemma truncate_frees_witness :
  exists s' : fs ram_disk Heap.heap, fat16_truncate demo_item 17920 demo_ready = (Ok (empty_item demo_item), s') /\
    is_free (img (dev s')) (priv s') 2.
Proof.
  destruct (fat16_truncate demo_item 17920 demo_ready) as [r s'] eqn:E.
  assert (Hr : r = Ok (empty_item demo_item)).
  { change r with (fst (r, s')). rewrite <- E. vm_compute. reflexivity. }
  rewrite Hr in E |- *. exists s'. split; [reflexivity|].
  destruct (truncate_frees demo_ready demo_item 17920 (empty_item demo_item) s' ∅) as (_ & _ & _ & _ & l & C & Hf & _).
  - apply demo_ready_mounted.
  - apply demo_ready_mounted.
  - apply demo_live.
  - apply demo_item_wf.
  - apply root_entry_clear; [exact (proj1 (mo_ready _ (proj1 demo_ready_mounted) (proj2 demo_ready_mounted)))|
      vm_compute; congruence|vm_compute; congruence|intros c []].
  - exact E.
  - apply Hf. rewrite (chain_unique _ _ _ _ _ C (demo_chains 2 ltac:(by left))). by apply list_elem_of_singleton.
Defined.

Lemma failed_write_disables_witness :
  exists s1 : fs ram_disk Heap.heap, fat16_write_at 18432 [1] demo_broken = (Err (- EIO), s1) /\
    mutation_disabled (priv s1) = true /\
    ((forall a, img (dev s1) a = img (dev demo_broken) a) \/
     forall desc inp r s2, inp <> [] -> fat16_write_bytes desc inp s1 = (r, s2) -> s2 = s1 /\ exists e', r = Err e').
Proof.
  destruct (fat16_write_at 18432 [1] demo_broken) as [r s1] eqn:E.
  assert (Hr : r = Err (- EIO)).
  { change r with (fst (r, s1)). rewrite <- E. vm_compute. reflexivity. }
  rewrite Hr in E |- *. exists s1. split; [reflexivity|]. split.
  - change s1 with (snd (Err (A := unit) (- EIO), s1)). rewrite <- E. vm_compute. reflexivity.
  - apply (failed_write_disables 18432 [1] demo_broken (- EIO) s1); [|exact E].
    repeat constructor; unfold is_byte; lia.
Defined.

Lemma prepare_write_establishes_witness :
  fat16_prepare_write demo_fs = (Ok tt, demo_ready) /\ mirrored (img (dev demo_ready)) (priv demo_ready).
Proof.
  split; [apply demo_prepare|].
  apply (prepare_write_establishes demo_fs (Ok tt) demo_ready demo_mounted demo_prepare).
Defined.

Lemma collect_chain_sound_witness :
  exists c (s' : fs ram_disk Heap.heap), fat16_collect_chain demo_item demo_ready = (Ok (c, [2]), s') /\
    kfree (heap s') c = heap demo_ready.
Proof.
  destruct (fat16_collect_chain demo_item demo_ready) as [r s'] eqn:E.
  assert (Hr : r = Ok (16777216, [2])).
  { change r with (fst (r, s')). rewrite <- E. vm_compute. reflexivity. }
  rewrite Hr in E |- *. exists 16777216, s'. split; [reflexivity|].
  destruct (collect_chain_sound demo_item demo_ready _ s' ∅ (proj1 demo_ready_mounted) (proj2 demo_ready_mounted)
    demo_live demo_item_wf E) as (_ & Hf & _). exact Hf.
Defined.

Lemma allocate_first_free_witness :
  exists s' : fs ram_disk Heap.heap, fat16_allocate [2] 3 demo_ready = (Ok [2; 4; 5], s') /\ heap s' = heap demo_ready.
Proof.
  destruct (fat16_allocate [2] 3 demo_ready) as [r s'] eqn:E.
  assert (Hr : r = Ok [2; 4; 5]).
  { change r with (fst (r, s')). rewrite <- E. vm_compute. reflexivity. }
  rewrite Hr in E |- *. exists s'. split; [reflexivity|].
  destruct (allocate_first_free demo_ready 2 [2] 3 _ s' (proj1 demo_ready_mounted) (proj2 demo_ready_mounted)
    (demo_chains 2 ltac:(by left)) ltac:(simpl; lia) E) as (_ & Hh & _). exact Hh.
Defined.
