(* ===== verification/FatDir.v ===== *)
(** * FAT16: directories and open files (kernel/fs/fat/fat16.c)

    Mounting, the cursor over the slots of a directory, loading a directory, finding an entry by name,
    following a path, creating an entry, and the operations on open descriptors. *)

From stdpp Require Import base numbers list gmap.
From Stdlib Require Import ZArith Lia.
From S2P Require Import Prelude Alloc Memory Effects Disk StrLib PathParser Fat FatWrite.

#[local] Set Default Goal Selector "!".

Definition FAT_FILE_READ_ONLY : Z := 0x01.
Definition FAT_FILE_VOLUME_LABEL : Z := 0x08.
Definition FAT_FILE_SUBDIRECTORY : Z := 0x10.
Definition RORTHOX_FAT16_SIGNATURE : Z := 0x29.

Definition SEEK_SET : Z := 0.
Definition SEEK_CUR : Z := 1.
Definition SEEK_END : Z := 2.
Definition FILE_STAT_READ_ONLY : Z := 1.

Definition sizeof_fat_private : Z := 112.
Definition sizeof_fat_directory : Z := 20.
Definition sizeof_fat_directory_item : Z := 32.
Definition sizeof_fat_item : Z := 12.
Definition sizeof_fat_file_descriptor : Z := 20.

Record fat_directory_cursor := Cursor {
  cur_cluster : Z;
  cur_sector : Z;
  cur_slots : Z;
  cur_index : Z;
  cur_clusters : Z;
  loaded_sector : Z;
  cur_buffer : list Z
}.

(** [filename\[0\]] and [ext\[0\]] *)
Definition first_char (it : fat_directory_item) : Z := byte_at (filename it) 0.
Definition first_ext (it : fat_directory_item) : Z := byte_at (ext it) 0.

(** More rounds than a directory has slots: 65524 clusters of 4080 slots at most. *)
Definition SLOT_FUEL : positive := 2 ^ 28.
(** More rounds than a 32-bit count. *)
Definition COUNT_FUEL : positive := 2 ^ 33.

Lemma slot_fuel_eq : Zpos SLOT_FUEL = 2 ^ 28.
Proof. reflexivity. Qed.
Lemma count_fuel_eq : Zpos COUNT_FUEL = 2 ^ 33.
Proof. reflexivity. Qed.
#[global] Opaque SLOT_FUEL COUNT_FUEL.

(** ** Names *)

(** The loop that copies characters up to a space or a terminator, [size] at most. *)
Fixpoint proper_loop (i size : Z) (inp : list Z) : list Z :=
  match inp with
  | [] => []
  | c :: inp => if negb (c =? 0) && negb (c =? 32)
                then c :: (if size - 1 <=? i then [] else proper_loop (i + 1) size inp) else []
  end.
Definition fat16_to_proper_string (inp : list Z) (size : Z) : list Z := proper_loop 0 size inp.

Definition fat16_get_full_relative_filename (it : fat_directory_item) : list Z :=
  fat16_to_proper_string (filename it) 8 ++
  (if negb (first_ext it =? 0) && negb (first_ext it =? 32)
   then 46 :: fat16_to_proper_string (ext it) 3 else []).

Definition fat16_is_lfn (it : fat_directory_item) : bool :=
  negb (first_char it =? 0) && negb (first_char it =? 0xE5) && (Z.land (attribute it) 0x3F =? 0x0F).

(** The characters of the name of a new entry, split at the dot, in capitals; [None] when they do not
    fit. *)
Fixpoint create_name (name base ext : list Z) (dot : bool) : option (list Z * list Z) :=
  match name with
  | [] => Some (base, ext)
  | c :: name =>
    if c =? 0 then Some (base, ext)
    else if c =? 46 then create_name name base ext true
    else
      let c := if (97 <=? c) && (c <=? 122) then c - 97 + 65 else c in
      if (negb dot && (8 <=? Z.of_nat (length base))) || (dot && (3 <=? Z.of_nat (length ext))) then None
      else if dot then create_name name base (ext ++ [c]) dot
      else create_name name (base ++ [c]) ext dot
  end.

Definition pad_spaces (n : nat) (l : list Z) : list Z := l ++ replicate (n - length l) 32.

(** The entry [fat16_create] builds. *)
Definition create_entry (base ext : list Z) : fat_directory_item :=
  fat16_modified (FatItem (pad_spaces 8 base) (pad_spaces 3 ext) 0 0 0 0 0x0021 0 0 0 0 0 0).

(** The items of a directory image. *)
Definition decode_items (n : nat) (bs : list Z) : list fat_directory_item :=
  (fun i => decode_item (take 32 (drop (32 * i) bs))) <$> seq 0 n.

(** The items in front of the first one that was never used. *)
Fixpoint count_items (l : list fat_directory_item) : Z :=
  match l with
  | [] => 0
  | it :: l => if negb (first_char it =? 0) then 1 + count_items l else 0
  end.

Definition blank_private : fat_private :=
  FatPrivate (FatH 0 0 0 0 0 0 0 0 0 0 0 0 0) (FatDirectory 0 [] 0 0 0 0) 0 0 0 [] ∅ false false 0.

(** The addresses of the volume's structure and of its three streams. *)
Record fat_mount := FatMount { private_addr : Z; cluster_addr : Z; fat_addr : Z; directory_addr : Z }.

Section fat_dir.
Context {D H : Type} `{BlockDevice D} `{Allocator H}.
Abbreviation fsio := (io (fs D H)).

(** ** The cursor *)

Definition fat16_directory_start (cluster : Z) : fsio fat_directory_cursor :=
  p ← gets priv;
  if negb (cluster =? 0) then
    _ ← fail_if (negb (fat16_valid_cluster p cluster)) EIO;
    mret (Cursor cluster (fat16_cluster_to_sector p cluster) (cluster_bytes p / 32) 0 1 (-1) [])
  else mret (Cursor 0 (sector_pos (root_directory p)) (root_dir_entries (header p)) 0 0 (-1) []).

(** The step to the next cluster at the end of one; [None] at the end of the directory. *)
Definition next_cluster (c : fat_directory_cursor) : fsio (option fat_directory_cursor) :=
  if cur_index c =? cur_slots c then
    if cur_cluster c =? 0 then mret None
    else
      next ← fat16_get_fat_entry (cur_cluster c);
      p ← gets priv;
      if RORTHOX_FAT16_EOC_START <=? next then mret None
      else
        _ ← fail_if (negb (fat16_valid_cluster p next) || (fat16_cluster_limit p - 1 <? cur_clusters c + 1)) EIO;
        mret (Some (Cursor next (fat16_cluster_to_sector p next) (cur_slots c) 0 (cur_clusters c + 1)
                      (loaded_sector c) (cur_buffer c)))
  else mret (Some c).

(** The sector of the slot, read unless it is in the buffer. *)
Definition load_sector (c : fat_directory_cursor) (sector : Z) : fsio (list Z) :=
  if negb (loaded_sector c =? sector) then
    stream_read_at directory_stream with_directory_stream (i32 (sector * RORTHOX_SECTOR_SIZE)) RORTHOX_SECTOR_SIZE
  else mret (cur_buffer c).

(** One raw slot with its position on the disk, and the cursor behind it; [None] is the value 0. The
    cursor is not used again after an error or the end. *)
Definition fat16_directory_next (c : fat_directory_cursor)
  : fsio (option (fat_directory_item * Z * fat_directory_cursor)) :=
  r ← next_cluster c;
  match r with
  | None => mret None
  | Some c =>
    let location := u64 (u64 (cur_sector c) * RORTHOX_SECTOR_SIZE + cur_index c * 32) in
    _ ← fail_if (INT_MAX - 32 <? location) EIO;
    let pos := location in
    if cur_cluster c =? 0 then
      p ← gets priv;
      let it := default (decode_item []) (item (root_directory p) !! Z.to_nat (cur_index c)) in
      mret (Some (it, pos, Cursor (cur_cluster c) (cur_sector c) (cur_slots c) (cur_index c + 1) (cur_clusters c)
                             (loaded_sector c) (cur_buffer c)))
    else
      let sector := pos / RORTHOX_SECTOR_SIZE in
      buf ← load_sector c sector;
      let it := decode_item (take 32 (drop (Z.to_nat (pos mod RORTHOX_SECTOR_SIZE)) buf)) in
      mret (Some (it, pos, Cursor (cur_cluster c) (cur_sector c) (cur_slots c) (cur_index c + 1) (cur_clusters c)
                             sector buf))
  end.

(** ** Loading directories *)

Definition total_body (st : fat_directory_cursor * Z) : fsio (fat_directory_cursor * Z + Z) :=
  let '(cursor, total) := st in
  r ← fat16_directory_next cursor;
  match r with
  | None => mret (inr total)
  | Some (it, _, cursor) =>
    if first_char it =? 0 then mret (inr total)
    else
      _ ← fail_if (total =? INT_MAX / 32) EIO;
      mret (inl (cursor, total + 1))
  end.

Definition fat16_get_total_items_for_directory (directory_start_sector : Z) : fsio Z :=
  p ← gets priv;
  let data := u32 (ending_sector_pos (root_directory p)) in
  let sectors := sectors_per_cluster (header p) in
  _ ← fail_if ((sectors =? 0) || (directory_start_sector <? data) ||
               negb ((directory_start_sector - data) mod sectors =? 0)) EIO;
  let cluster := u32 (2 + (directory_start_sector - data) / sectors) in
  _ ← fail_if (negb (fat16_valid_cluster p (i32 cluster))) EIO;
  cursor ← fat16_directory_start (i32 cluster);
  io_loop SLOT_FUEL total_body (cursor, 0).

Definition free_nonnull (a : Z) (s : fs D H) : fs D H := if negb (a =? 0) then free a s else s.

Definition fat16_free_directory (ptr : Z) (d : fat_directory) (s : fs D H) : fs D H :=
  if ptr =? 0 then s else free ptr (free_nonnull (item_ptr d) s).

Definition fat16_fat_item_free (f : fat_item) (s : fs D H) : fs D H :=
  free (item_addr f)
    (match body f with
     | FAT_ITEM_TYPE_DIRECTORY ptr d => fat16_free_directory ptr d s
     | FAT_ITEM_TYPE_FILE ptr _ => free ptr s
     end).

(** The [n] items from the cursor on. *)
Fixpoint load_items (n : nat) (cursor : fat_directory_cursor) : fsio (list fat_directory_item) :=
  match n with
  | O => mret []
  | S n => fun s =>
    match fat16_directory_next cursor s with
    | (Ok (Some (it, _, cursor)), s) => (l ← load_items n cursor; mret (it :: l)) s
    | (_, s) => fail EIO s
    end
  end.

(** The contents of the directory that is at address [directory]. *)
Definition load_contents (it : fat_directory_item) (directory : Z) : fsio (Z * fat_directory) :=
  p ← gets priv;
  let cluster := fat16_get_first_cluster it in
  _ ← fail_if (negb (fat16_valid_cluster p cluster)) EIO;
  let cluster_sector := fat16_cluster_to_sector p cluster in
  total_items ← fat16_get_total_items_for_directory (u32 cluster_sector);
  _ ← fail_if (0x7FFFFFFF / sizeof_fat_directory_item <? total_items) EIO;
  if total_items =? 0 then mret (directory, FatDirectory 0 [] cluster 0 0 0)
  else
    items ← zalloc (total_items * sizeof_fat_directory_item);
    _ ← fail_if (items =? 0) ENOMEM;
    on_error
      (cursor ← fat16_directory_start cluster;
       l ← load_items (Z.to_nat total_items) cursor;
       mret (directory, FatDirectory items l cluster total_items 0 0))
      (free items).

(** The address of the new directory and its contents, or the null pointer. *)
Definition fat16_load_fat_directory (it : fat_directory_item) : fsio (option (Z * fat_directory)) :=
  attempt
    (_ ← fail_if (negb (has_flag (attribute it) FAT_FILE_SUBDIRECTORY)) EINVARG;
     directory ← zalloc sizeof_fat_directory;
     _ ← fail_if (directory =? 0) ENOMEM;
     on_error (load_contents it directory) (free directory)).

Definition fat_16_clone_directory_item (it : fat_directory_item) (size : Z) : fsio Z :=
  if size <? sizeof_fat_directory_item then mret 0 else zalloc size.

(** A null pointer when anything fails. *)
Definition fat16_new_fat_item_for_directory_item (it : fat_directory_item) : fsio (option fat_item) :=
  f_item ← zalloc sizeof_fat_item;
  if f_item =? 0 then mret None
  else if has_flag (attribute it) FAT_FILE_SUBDIRECTORY then
    d ← fat16_load_fat_directory it;
    match d with
    | None => _ ← modify (free f_item); mret None
    | Some (ptr, d) => mret (Some (FatItemOf f_item (FAT_ITEM_TYPE_DIRECTORY ptr d) 0))
    end
  else
    c ← fat_16_clone_directory_item it sizeof_fat_directory_item;
    if c =? 0 then _ ← modify (free f_item); mret None
    else mret (Some (FatItemOf f_item (FAT_ITEM_TYPE_FILE c it) 0)).

(** ** Finding an entry *)

(** The disk position of item [i] of a directory. *)
Definition item_position (directory : fat_directory) (i : Z) : fsio Z :=
  if negb (first_cluster directory =? 0) then
    p ← gets priv;
    let bytes := cluster_bytes p in
    cluster ← fat16_get_cluster_for_offset (first_cluster directory) (i * 32);
    let location := u64 (u64 (fat16_cluster_to_sector p cluster) * RORTHOX_SECTOR_SIZE + (i * 32) mod bytes) in
    _ ← fail_if (INT_MAX - 32 <? location) EIO;
    mret location
  else mret (i32 (sector_pos directory * RORTHOX_SECTOR_SIZE + i * 32)).

(** An entry that the search does not look at. *)
Definition skipped (it : fat_directory_item) : bool :=
  (first_char it =? 0xE5) || has_flag (attribute it) FAT_FILE_VOLUME_LABEL.

Definition name_matches (it : fat_directory_item) (name : list Z) : bool :=
  istrncmp (fat16_get_full_relative_filename it) name RORTHOX_MAX_PATH =? 0.

(** The loop over the items from index [i] on. *)
Fixpoint find_loop (directory : fat_directory) (name : list Z) (i : Z) (l : list fat_directory_item)
  : fsio fat_item :=
  match l with
  | [] => fail ENOENT
  | it :: l =>
    if first_char it =? 0 then fail ENOENT
    else if skipped it then find_loop directory name (i + 1) l
    else if name_matches it name then
      pos ← item_position directory i;
      f ← fat16_new_fat_item_for_directory_item it;
      match f with
      | None => fail EIO
      | Some f => mret (FatItemOf (item_addr f) (body f) pos)
      end
    else find_loop directory name (i + 1) l
  end.

Definition fat16_find_item_in_directory (directory : fat_directory) (name : list Z) : fsio fat_item :=
  find_loop directory name 0 (take (Z.to_nat (total directory)) (item directory)).

(** The parts behind the first one. *)
Fixpoint entry_walk (current : fat_item) (parts : list (list Z)) : fsio fat_item :=
  match parts with
  | [] => mret current
  | part :: parts =>
    match body current with
    | FAT_ITEM_TYPE_FILE _ _ => _ ← modify (fat16_fat_item_free current); fail EIO
    | FAT_ITEM_TYPE_DIRECTORY _ d =>
      tmp ← finally (fat16_find_item_in_directory d part) (fat16_fat_item_free current);
      entry_walk tmp parts
    end
  end.

(** A path is its first part and the others. *)
Definition fat16_get_directory_entry (part : list Z) (parts : list (list Z)) : fsio fat_item :=
  p ← gets priv;
  root_item ← fat16_find_item_in_directory (root_directory p) part;
  entry_walk root_item parts.

(** ** Creating an entry *)

Definition free_parent (parent : option fat_item) (s : fs D H) : fs D H :=
  match parent with
  | Some f => fat16_fat_item_free f s
  | None => s
  end.

(** The walk to the directory of the last part: the item that owns the directory, unless it is the root,
    the directory and the last part. *)
Fixpoint create_walk (directory : fat_directory) (parent : option fat_item) (part : list Z)
    (parts : list (list Z)) : fsio (option fat_item * fat_directory * list Z) :=
  match parts with
  | [] => mret (parent, directory, part)
  | part' :: parts =>
    next ← finally (fat16_find_item_in_directory directory part) (free_parent parent);
    match body next with
    | FAT_ITEM_TYPE_DIRECTORY _ d => create_walk d (Some next) part' parts
    | FAT_ITEM_TYPE_FILE _ _ => _ ← modify (fat16_fat_item_free next); fail EINVARG
    end
  end.

(** The slot behind the new end of the directory is unused or does not exist. *)
Definition check_next_slot (cursor : fat_directory_cursor) : fsio unit := fun s =>
  match fat16_directory_next cursor s with
  | (Err _, s) => fail EIO s
  | (Ok (Some (entry, _, _)), s) => fail_if (negb (first_char entry =? 0)) EIO s
  | (Ok None, s) => (Ok tt, s)
  end.

(** The state of the scan: the cursor, the slot found or -1, whether the last slot belongs to a long name. *)
Definition slot_body (st : fat_directory_cursor * Z * bool) : fsio (fat_directory_cursor * Z * bool + Z) :=
  let '(cursor, slot, previous_lfn) := st in
  r ← fat16_directory_next cursor;
  match r with
  | None => mret (inr slot)
  | Some (entry, pos, cursor) =>
    if first_char entry =? 0 then
      _ ← fail_if ((slot <? 0) && previous_lfn) EIO;
      if slot <? 0 then _ ← check_next_slot cursor; mret (inr pos)
      else mret (inr slot)
    else
      let slot := if (slot <? 0) && (first_char entry =? 0xE5) && negb (attribute entry =? 0x0F)
                     && negb previous_lfn then pos else slot in
      mret (inl (cursor, slot, fat16_is_lfn entry))
  end.

Definition find_slot (cluster : Z) : fsio Z :=
  cursor ← fat16_directory_start cluster;
  slot ← io_loop SLOT_FUEL slot_body (cursor, -1, false);
  _ ← fail_if (slot <? 0) ENOSPC;
  mret slot.

(** The slot and the new item in memory. *)
Definition create_item (directory : fat_directory) (part : list Z) : fsio (Z * fat_directory_item * fat_item) :=
  slot ← find_slot (first_cluster directory);
  match create_name part [] [] false with
  | None => fail EINVARG
  | Some (base, ext) =>
    let entry := create_entry base ext in
    f ← fat16_new_fat_item_for_directory_item entry;
    match f with
    | None => fail ENOMEM
    | Some f => mret (slot, entry, FatItemOf (item_addr f) (body f) slot)
    end
  end.

(** The commit of a new entry and the clean-up behind it. *)
Definition create_commit (parent : option fat_item) (slot : Z) (entry : fat_directory_item) (f : fat_item)
  : fsio fat_item := fun s =>
  match fat16_commit_item slot entry s with
  | (Ok _, s) => (Ok f, free_parent parent s)
  | (Err e, s) => (Err e, fat16_fat_item_free f (free_parent parent s))
  end.

Definition fat16_create (part : list Z) (parts : list (list Z)) : fsio fat_item :=
  p ← gets priv;
  '(parent, directory, part) ← create_walk (root_directory p) None part parts;
  '(slot, entry, f) ← on_error (create_item directory part) (free_parent parent);
  create_commit parent slot entry f.

(** ** Open files *)

Definition add_descriptor (a : Z) (d : fat_file_descriptor) (s : fs D H) : fs D H :=
  let p := priv s in with_priv (with_descriptors (a :: descriptors p) (<[a := d]> (desc_store p)) p) s.

(** What opening an existing entry for writing or appending does with it; the item with its contents
    afterwards. *)
Definition open_existing (mode : Z) (f : fat_item) : fsio fat_item :=
  match body f with
  | FAT_ITEM_TYPE_DIRECTORY _ _ => fail EINVARG
  | FAT_ITEM_TYPE_FILE ptr it =>
    _ ← fail_if (has_flag (attribute it) FAT_FILE_READ_ONLY) ERDONLY;
    if mode =? FILE_MODE_WRITE then
      it ← fat16_truncate it (entry_pos f);
      mret (FatItemOf (item_addr f) (FAT_ITEM_TYPE_FILE ptr it) (entry_pos f))
    else
      _ ← fat16_check_file_chain it;
      mret f
  end.

(** The item of the path, which is created when it does not exist. *)
Definition open_item (mode : Z) (part : list Z) (parts : list (list Z)) : fsio fat_item := fun s =>
  match fat16_get_directory_entry part parts s with
  | (Err e, s) => if (e =? - ENOENT) && negb (mode =? FILE_MODE_READ) then fat16_create part parts s else (Err e, s)
  | (Ok f, s) =>
    if negb (mode =? FILE_MODE_READ) then on_error (open_existing mode f) (fat16_fat_item_free f) s else (Ok f, s)
  end.

Definition item_size (f : fat_item) : Z :=
  match body f with
  | FAT_ITEM_TYPE_FILE _ it => filesize it
  | FAT_ITEM_TYPE_DIRECTORY _ _ => 0
  end.

(** The address of the new descriptor. The item of a descriptor that is not opened for reading is a
    file, so that [item_size] is its size. *)
Definition fat16_open (part : list Z) (parts : list (list Z)) (mode : Z) : fsio Z :=
  _ ← fail_if (FILE_MODE_APPEND <? mode) EINVARG;
  _ ← (if negb (mode =? FILE_MODE_READ) then fat16_prepare_write else mret tt);
  descriptor ← zalloc sizeof_fat_file_descriptor;
  _ ← fail_if (descriptor =? 0) ENOMEM;
  on_error
    (f ← open_item mode part parts;
     let pos := if mode =? FILE_MODE_APPEND then item_size f else 0 in
     _ ← modify (add_descriptor descriptor (FatFd f pos mode));
     mret descriptor)
    (free descriptor).

(** Unlinking from the list. *)
Fixpoint unlink (a : Z) (l : list Z) : list Z :=
  match l with
  | [] => []
  | x :: l => if negb (x =? a) then x :: unlink a l else l
  end.

(** A descriptor that is not open cannot be passed in C. *)
Definition fat16_free_file_descriptor (desc : Z) (s : fs D H) : fs D H :=
  let p := priv s in
  match desc_store p !! desc with
  | None => s
  | Some d =>
    let s := with_priv (with_descriptors (unlink desc (descriptors p)) (delete desc (desc_store p)) p) s in
    free desc (fat16_fat_item_free (desc_item d) s)
  end.

Definition fat16_close (desc : Z) (s : fs D H) : Z * fs D H := (0, fat16_free_file_descriptor desc s).

(** The descriptor at an address, and its file; [EINVARG] for a directory. *)
Definition with_file {A} (desc : Z) (k : fat_file_descriptor -> fat_directory_item -> fsio A) : fsio A :=
  p ← gets priv;
  match desc_store p !! desc with
  | None => fail EINVARG
  | Some d =>
    match body (desc_item d) with
    | FAT_ITEM_TYPE_DIRECTORY _ _ => fail EINVARG
    | FAT_ITEM_TYPE_FILE _ it => k d it
    end
  end.

(** The size, a 32-bit field, and the flags. *)
Definition fat16_stat (desc : Z) : fsio (Z * Z) :=
  with_file desc (fun _ it =>
    mret (u32 (filesize it), if has_flag (attribute it) FAT_FILE_READ_ONLY then FILE_STAT_READ_ONLY else 0)).

(** The state of the read loop: the index, the number of members read and the bytes. *)
Definition read_body (desc size nmemb : Z) (st : Z * Z * list Z) : fsio (Z * Z * list Z + Z * list Z) :=
  let '(i, count, out) := st in
  if negb (i <? nmemb) then mret (inr (count, out))
  else
    with_file desc (fun d it =>
      let left := u32 (filesize it - pos d) in
      if left =? 0 then mret (inr (count, out))
      else
        let bytes := if size <? left then size else left in
        _ ← fail_if ((0x7FFFFFFF <? pos d) || (0x7FFFFFFF - pos d <? bytes)) EIO;
        bs ← fat16_read_internal (fat16_get_first_cluster it) (pos d) bytes;
        _ ← modify (set_desc_pos desc (pos d + bytes));
        if negb (bytes =? size) then mret (inr (count, out ++ bs))
        else mret (inl (i + 1, count + 1, out ++ bs))).

(** The number of members read, and the bytes. *)
Definition fat16_read (desc size nmemb : Z) : fsio (Z * list Z) :=
  with_file desc (fun d it =>
    _ ← fail_if (filesize it <? pos d) EIO;
    io_loop COUNT_FUEL (read_body desc size nmemb) (0, 0, [])).

Definition fat16_seek (desc offset seek_mode : Z) : fsio unit :=
  with_file desc (fun d it =>
    if seek_mode =? SEEK_SET then
      _ ← fail_if (filesize it <? offset) EIO;
      modify (set_desc_pos desc offset)
    else if seek_mode =? SEEK_END then fail EUNIMP
    else if seek_mode =? SEEK_CUR then
      _ ← fail_if ((filesize it <? pos d) || (filesize it - pos d <? offset)) EIO;
      modify (set_desc_pos desc (pos d + offset))
    else fail EINVARG).

(** The bytes read; the value is their number. *)
Definition fat16_read_bytes (desc count : Z) : fsio (list Z) :=
  p ← gets priv;
  match desc_store p !! desc with
  | None => fail EINVARG
  | Some d =>
    _ ← fail_if (negb (mode d =? FILE_MODE_READ)) EBADF;
    with_file desc (fun d it =>
      if (count =? 0) || (filesize it <=? pos d) then mret []
      else
        let left := filesize it - pos d in
        let count := if left <? count then left else count in
        _ ← fail_if ((INT_MAX <? pos d) || (INT_MAX - pos d <? count)) EIO;
        bs ← fat16_read_internal (fat16_get_first_cluster it) (pos d) count;
        _ ← modify (set_desc_pos desc (pos d + count));
        mret bs)
  end.

Definition fat16_seek_signed (desc offset whence : Z) : fsio Z :=
  with_file desc (fun d it =>
    base ← (if whence =? SEEK_SET then mret 0
            else if whence =? SEEK_CUR then mret (pos d)
            else if whence =? SEEK_END then mret (filesize it)
            else fail EINVARG);
    let pos := base + offset in
    _ ← fail_if ((pos <? 0) || (INT_MAX <? pos) || (filesize it <? pos)) EINVARG;
    _ ← modify (set_desc_pos desc pos);
    mret pos).

(** ** Mounting *)

(** The status and the addresses of the streams allocated. *)
Definition fat16_init_private : fsio (bool * (Z * Z * Z)) :=
  _ ← modify (with_priv blank_private);
  a ← zalloc sizeof_disk_stream;
  if a =? 0 then mret (false, (0, 0, 0))
  else
    b ← zalloc sizeof_disk_stream;
    if b =? 0 then mret (false, (a, 0, 0))
    else
      c ← zalloc sizeof_disk_stream;
      if c =? 0 then mret (false, (a, b, 0)) else mret (true, (a, b, c)).

Definition with_header (h : fat_h) (p : fat_private) : fat_private :=
  FatPrivate h (root_directory p) (cluster_read_stream p) (fat_read_stream p) (directory_stream p)
    (descriptors p) (desc_store p) (write_ready p) (mutation_disabled p) (max_writable p).

Definition fat16_get_root_directory : fsio fat_directory :=
  p ← gets priv;
  let h := header p in
  let root_dir_sector_pos := fat_copies h * sectors_per_fat h + reserved_sectors h in
  let root_dir_size := root_dir_entries h * sizeof_fat_directory_item in
  let total_sectors := root_dir_size / RORTHOX_SECTOR_SIZE in
  let total_sectors := if negb (root_dir_size mod RORTHOX_SECTOR_SIZE =? 0) then total_sectors + 1 else total_sectors in
  dir ← zalloc root_dir_size;
  _ ← fail_if (dir =? 0) ENOMEM;
  on_error
    (r ← attempt (stream_read_at directory_stream with_directory_stream
                    (fat16_sector_to_absolute root_dir_sector_pos) root_dir_size);
     match r with
     | None => fail EIO
     | Some bs =>
       let items := decode_items (Z.to_nat (root_dir_entries h)) bs in
       mret (FatDirectory dir items 0 (count_items items) root_dir_sector_pos (root_dir_sector_pos + total_sectors))
     end)
    (free dir).

(** The part of [fat16_resolve] that reads the disk; the stream is at position 0. *)
Definition resolve_volume : fsio unit :=
  bs ← (fun s => let '(res, out, _, d) := diskstreamer_read 0 62 (dev s) in
                 if negb (res =? 0) then fail EIO (with_dev d s) else (Ok out, with_dev d s));
  _ ← modify (fun s => with_priv (with_header (decode_header bs) (priv s)) s);
  p ← gets priv;
  _ ← fail_if (negb (signatur (header p) =? RORTHOX_FAT16_SIGNATURE)) EFSNOTUS;
  r ← attempt fat16_get_root_directory;
  match r with
  | None => fail EIO
  | Some root => modify (fun s => with_priv (with_root root (priv s)) s)
  end.

(** The addresses of what stays allocated while the volume is mounted; an error releases everything, and the
    volume in the state is then without meaning ([fs_private] is null). *)
Definition fat16_resolve : fsio fat_mount :=
  a ← zalloc sizeof_fat_private;
  _ ← fail_if (a =? 0) ENOMEM;
  '(ok, (c, f, d)) ← fat16_init_private;
  on_error
    (_ ← fail_if (negb ok) ENOMEM;
     stream ← zalloc sizeof_disk_stream;
     _ ← fail_if (stream =? 0) ENOMEM;
     _ ← finally resolve_volume (free stream);
     mret (FatMount a c f d))
    (fun s => free a (free_nonnull c (free_nonnull f (free_nonnull d
                (free (item_ptr (root_directory (priv s))) s))))).
End fat_dir.
