(* ===== verification/FatDirScan.v ===== *)
(** * FAT16: what a directory scan sees

    The slots of a directory as a function of the image, and the proof that the cursor, the count, the
    loading of a directory, the search and the walk along a path see exactly these slots, end on every
    table, and keep the heap balanced. *)

From stdpp Require Import base numbers list gmap.
From Stdlib Require Import ZArith Lia.
From S2P Require Import Prelude Alloc Memory Effects Disk StrLib PathParser Fat FatWrite FatData FatDir.

#[local] Set Default Goal Selector "!".

(** ** Slots of a directory

    [c] is the first cluster of the directory, 0 for the root. *)

Section geometry.
Context (p : fat_private).

(** Slots of a cluster. *)
Definition cluster_slots : Z := cluster_bytes p / 32.

Lemma cluster_slots_eq : cluster_slots = 16 * sectors_per_cluster (header p) /\ cluster_bytes p = 32 * cluster_slots.
Proof. unfold cluster_slots, cluster_bytes, RORTHOX_SECTOR_SIZE. lia. Qed.

Lemma cluster_slots_pos c : geometry p -> fat16_valid_cluster p c = true -> 0 < cluster_slots < 4096.
Proof.
  intros G [Hv _]%valid_range. pose proof (geo_spc _ G). pose proof (limit_spc p ltac:(lia)).
  destruct cluster_slots_eq. lia.
Qed.

(** A directory has fewer slots than the fuel of the loops. *)
Definition max_slots (c : Z) : Z :=
  if c =? 0 then root_dir_entries (header p) else (fat16_cluster_limit p - 1) * cluster_slots.

Lemma max_slots_fuel c : geometry p -> max_slots c < Zpos SLOT_FUEL.
Proof.
  intros G. unfold max_slots. pose proof (geo_root _ G). rewrite slot_fuel_eq. destruct (c =? 0); [lia|].
  destruct (Z.le_gt_cases (fat16_cluster_limit p) 0) as [|Hl].
  - pose proof (geo_spc _ G). destruct cluster_slots_eq. nia.
  - pose proof (limit_bound p Hl). pose proof (geo_spc _ G). destruct cluster_slots_eq. nia.
Qed.

Lemma limit_large : 0 < fat16_cluster_limit p -> 4086 <= fat16_cluster_limit p.
Proof.
  unfold fat16_cluster_limit. cbv zeta. destruct (_ || (_ <=? _)); [lia|]. set (n := (_ - _) / _).
  destruct (_ || _ || _) eqn:Hb; [lia|]. rewrite !orb_false_iff, !Z.ltb_ge in Hb. lia.
Qed.
(** The first sector of a cluster leads back to the cluster. *)
Lemma cluster_of_sector c : geometry p -> fat16_valid_cluster p c = true ->
  let data := u32 (ending_sector_pos (root_directory p)) in
  let spc := sectors_per_cluster (header p) in
  let sector := u32 (fat16_cluster_to_sector p c) in
  spc <> 0 /\ data <= sector /\ (sector - data) mod spc = 0 /\ i32 (u32 (2 + (sector - data) / spc)) = c.
Proof.
  intros G Hv data spc sector. pose proof (valid_range _ _ Hv) as Hr.
  destruct (cluster_to_sector_eq p c G ltac:(lia)) as [Hcp Hcr]. specialize (Hcr ltac:(lia)).
  unfold cluster_pos in Hcp. pose proof (limit_spc p ltac:(lia)) as Hspc. pose proof (geo_spc _ G).
  assert (He : 0 <= ending_sector_pos (root_directory p) < 2 ^ 26).
  { rewrite (geo_end _ G), (geo_pos _ G). pose proof (geo_copies _ G). pose proof (geo_fat _ G).
    pose proof (geo_reserved _ G). pose proof (geo_root _ G). nia. }
  subst data sector. rewrite !u32_small by lia. fold spc in Hcp, Hspc |- *.
  replace (fat16_cluster_to_sector p c - ending_sector_pos (root_directory p)) with ((c - 2) * spc) by lia.
  rewrite Z.mod_mul, Z.div_mul by done. split; [done|]. split; [nia|]. split; [done|].
  rewrite u32_small, i32_small by lia. lia.
Qed.
End geometry.

Section slots.
Context (f : Z -> Z) (p : fat_private).

Definition slot_cluster (c k : Z) : Z := nth_cluster f p (Z.to_nat (k / (cluster_slots p))) c.

Definition slot_pos (c k : Z) : Z :=
  if c =? 0 then sector_pos (root_directory p) * 512 + 32 * k
  else cluster_pos p (slot_cluster c k) + 32 * (k mod (cluster_slots p)).

Definition slot_item (c k : Z) : fat_directory_item :=
  if c =? 0 then default (decode_item []) (item (root_directory p) !! Z.to_nat k)
  else decode_item (slice f (slot_pos c k) 32).

(** The directory has a slot [k]. *)
Definition slot_exists (c k : Z) : Prop :=
  if c =? 0 then k < root_dir_entries (header p) else fat16_valid_cluster p (slot_cluster c k) = true.

(** The slots of the directory end in front of [k]. *)
Definition slots_end (c k : Z) : Prop :=
  if c =? 0 then k = root_dir_entries (header p)
  else 0 < k /\ k mod (cluster_slots p) = 0 /\ RORTHOX_FAT16_EOC_START <= slot_cluster c k.

(** [n] slots are in use, up to the end or the first one that was never used. *)
Record dir_size (c n : Z) : Prop := DirSize {
  ds_nonneg : 0 <= n;
  ds_used j : 0 <= j < n -> slot_exists c j /\ first_char (slot_item c j) <> 0;
  ds_end : slots_end c n \/ (slot_exists c n /\ first_char (slot_item c n) = 0)
}.

Definition dir_listing (c : Z) (l : list fat_directory_item) : Prop :=
  dir_size c (Z.of_nat (length l)) /\ l = slot_item c <$> seqZ 0 (Z.of_nat (length l)).

Lemma slots_end_exists c k : slots_end c k -> ~ slot_exists c k.
Proof.
  unfold slots_end, slot_exists. destruct (c =? 0); [lia|].
  intros (_ & _ & He) [_ Hv]%valid_range. unfold RORTHOX_FAT16_EOC_START in He. lia.
Qed.

Lemma dir_size_unique c n m : dir_size c n -> dir_size c m -> n = m.
Proof.
  assert (Hlt : forall n m, dir_size c n -> dir_size c m -> ~ n < m).
  { intros a b [Ha _ Hae] [Hb Hbu _] Hab. destruct (Hbu a ltac:(lia)) as [Hx Hy].
    destruct Hae as [He|[_ He]]; [by eapply slots_end_exists|done]. }
  intros Hn Hm. pose proof (Hlt _ _ Hn Hm). pose proof (Hlt _ _ Hm Hn). lia.
Qed.

Lemma dir_listing_unique c l l' : dir_listing c l -> dir_listing c l' -> l = l'.
Proof. intros [Hn ->] [Hm ->]. by rewrite (dir_size_unique _ _ _ Hn Hm). Qed.

(** ** The cursor *)

(** The cursor stands in front of slot [k] of the directory [c]. *)
Inductive cur_at : Z -> Z -> fat_directory_cursor -> Prop :=
  | at_root k l b : 0 <= k <= root_dir_entries (header p) ->
    cur_at 0 k (Cursor 0 (sector_pos (root_directory p)) (root_dir_entries (header p)) k 0 l b)
  | at_sub c n i l b : c <> 0 -> 0 <= n < fat16_cluster_limit p - 1 -> chain_valid f p n c ->
    0 <= i <= (cluster_slots p) -> (l = -1 \/ b = slice f (l * 512) 512) ->
    cur_at c (n * (cluster_slots p) + i)
      (Cursor (nth_cluster f p (Z.to_nat n) c) (fat16_cluster_to_sector p (nth_cluster f p (Z.to_nat n) c))
         (cluster_slots p) i (n + 1) l b).

Lemma cur_at_bound c k cur : geometry p -> cur_at c k cur -> 0 <= k <= max_slots p c.
Proof.
  intros G [k' l b Hk|c' n i l b Hc Hn Hv Hi Hl]; unfold max_slots; [done|].
  rewrite (proj2 (Z.eqb_neq c' 0)) by done. pose proof (cluster_slots_pos p _ G (Hv 0 ltac:(lia))). nia.
Qed.

(** Slot [i] of the [n]-th cluster. *)
Lemma slot_cluster_eq c n i : 0 <= n -> 0 <= i < (cluster_slots p) ->
  slot_cluster c (n * (cluster_slots p) + i) = nth_cluster f p (Z.to_nat n) c /\
  (n * (cluster_slots p) + i) mod (cluster_slots p) = i.
Proof.
  intros Hn Hi. unfold slot_cluster. rewrite Z.div_add_l, Z.div_small, Z.add_0_r by lia. split; [done|].
  rewrite Z.add_comm, Z.mod_add, Z.mod_small by lia. done.
Qed.
End slots.

(** ** The slots depend on the image, the header and the root directory *)

Section slots_ext.
Context (f g : Z -> Z) (p q : fat_private).
Hypothesis Hf : forall a, g a = f a.
Hypothesis Hh : header q = header p.
Hypothesis Hr : root_directory q = root_directory p.

Lemma valid_ext c : fat16_valid_cluster q c = fat16_valid_cluster p c.
Proof using Hh Hr. unfold fat16_valid_cluster, fat16_cluster_limit. by rewrite Hh, Hr. Qed.

Lemma cluster_slots_ext : cluster_slots q = cluster_slots p.
Proof using Hh. unfold cluster_slots, cluster_bytes. by rewrite Hh. Qed.

Lemma slot_cluster_ext c k : slot_cluster g q c k = slot_cluster f p c k.
Proof using Hf Hh.
  unfold slot_cluster. rewrite cluster_slots_ext. generalize (Z.to_nat (k / cluster_slots p)) as n. intros n. revert c.
  induction n as [|n IH]; intros c; simpl; [done|]. rewrite <- IH. f_equal. unfold fat_entry. by rewrite Hh, !Hf.
Qed.

Lemma slot_pos_ext c k : slot_pos g q c k = slot_pos f p c k.
Proof using Hf Hh Hr.
  unfold slot_pos, cluster_pos. by rewrite slot_cluster_ext, cluster_slots_ext, Hh, Hr.
Qed.

Lemma slot_item_ext c k : slot_item g q c k = slot_item f p c k.
Proof using Hf Hh Hr.
  unfold slot_item. rewrite slot_pos_ext, Hr. destruct (c =? 0); [done|]. f_equal. apply slice_ext. intros a _. apply Hf.
Qed.

Lemma slot_exists_ext c k : slot_exists g q c k <-> slot_exists f p c k.
Proof using Hf Hh Hr. unfold slot_exists. by rewrite slot_cluster_ext, valid_ext, Hh. Qed.

Lemma slots_end_ext c k : slots_end g q c k <-> slots_end f p c k.
Proof using Hf Hh. unfold slots_end. by rewrite slot_cluster_ext, cluster_slots_ext, Hh. Qed.

Lemma dir_listing_ext c l : dir_listing f p c l -> dir_listing g q c l.
Proof using Hf Hh Hr.
  intros [[Hn Hu He] Hl]. split.
  - constructor; [done| |].
    + intros j Hj. rewrite slot_item_ext, slot_exists_ext. by apply Hu.
    + by rewrite slot_item_ext, slot_exists_ext, slots_end_ext.
  - rewrite Hl at 1. apply list_fmap_ext. intros i x _. by rewrite slot_item_ext.
Qed.
End slots_ext.

(** ** The root directory *)

Lemma count_items_spec l :
  0 <= count_items l <= Z.of_nat (length l) /\
  (forall k it, (Z.of_nat k < count_items l) -> l !! k = Some it -> first_char it <> 0) /\
  (count_items l = Z.of_nat (length l) \/ exists it, l !! Z.to_nat (count_items l) = Some it /\ first_char it = 0).
Proof.
  induction l as [|it l (Hr & Hu & He)]; simpl; [split; [lia|]; split; [done|by left]|].
  destruct (Z.eqb_spec (first_char it) 0) as [Hz|Hz]; simpl.
  - split; [lia|]. split; [lia|]. right. by exists it.
  - split; [lia|]. split.
    + intros [|k] x Hk Hx; simpl in Hx; [congruence|]. by apply (Hu k); [lia|].
    + destruct He as [He|(x & He & Hx)]; [left; lia|right]. exists x.
      by replace (Z.to_nat (1 + count_items l)) with (S (Z.to_nat (count_items l))) by lia.
Qed.

(** The listing of a root directory held in memory. *)
Lemma root_listing f p :
  total (root_directory p) = count_items (item (root_directory p)) ->
  Z.of_nat (length (item (root_directory p))) = root_dir_entries (header p) ->
  dir_listing f p 0 (take (Z.to_nat (total (root_directory p))) (item (root_directory p))).
Proof.
  intros Ht Hl. set (l := item (root_directory p)) in *. destruct (count_items_spec l) as (Hr & Hu & He).
  assert (Hlen : Z.of_nat (length (take (Z.to_nat (total (root_directory p))) l)) = count_items l) by (rewrite length_take; lia).
  split; rewrite Hlen.
  - constructor; [lia| |].
    + intros j Hj. unfold slot_exists, slot_item. simpl. split; [lia|]. fold l.
      destruct (l !! Z.to_nat j) as [it|] eqn:E; simpl; [by apply (Hu (Z.to_nat j)); [lia|]|].
      apply lookup_ge_None in E. lia.
    + unfold slots_end, slot_exists, slot_item. simpl. fold l. destruct He as [He|(it & He & Hz)]; [left; lia|right].
      rewrite He. split; [|done]. apply lookup_lt_Some in He. lia.
  - apply list_eq. intros i. destruct (decide (Z.of_nat i < count_items l)) as [Hi|Hi].
    + rewrite lookup_take_lt, list_lookup_fmap, lookup_seqZ_lt by lia.
      destruct (lookup_lt_is_Some_2 l i ltac:(lia)) as [x Hx]. rewrite Hx. cbn [fmap option_fmap option_map].
      unfold slot_item. change (0 =? 0) with true. cbv iota. fold l.
      replace (Z.to_nat (0 + Z.of_nat i)) with i by lia. by rewrite Hx.
    + rewrite !lookup_ge_None_2; [done| |rewrite length_take; lia]. rewrite length_fmap, length_seqZ. lia.
Qed.

(** ** Names

    What the format says: a field ends at the first blank or null byte, and the name of an entry is its first field and,
    if the second one is not empty, a dot and the second one. *)

Fixpoint field_text (field : list Z) : list Z :=
  match field with
  | [] => []
  | c :: field => if (c =? 0) || (c =? 32) then [] else c :: field_text field
  end.

Definition entry_name (it : fat_directory_item) : list Z :=
  let ext := field_text (take 3 (ext it)) in
  field_text (take 8 (filename it)) ++ match ext with [] => [] | _ => 46 :: ext end.

Definition lower (c : Z) : Z := if (65 <=? c) && (c <=? 90) then c + 32 else c.

(** An entry that is neither deleted nor a volume label and has the name, case ignored. *)
Definition named (name : list Z) (it : fat_directory_item) : Prop :=
  filename it !! 0%nat <> Some 0xE5 /\ Z.testbit (attribute it) 3 = false /\
  (lower <$> entry_name it) = (lower <$> c_text name).

#[export] Instance named_dec name it : Decision (named name it).
Proof. unfold named. apply _. Defined.

Lemma proper_loop_field size inp : forall i, 0 <= i < size -> proper_loop i size inp = field_text (take (Z.to_nat (size - i)) inp).
Proof.
  induction inp as [|c inp IH]; intros i Hi; [by rewrite take_nil|].
  replace (Z.to_nat (size - i)) with (S (Z.to_nat (size - (i + 1)))) by lia. cbn [proper_loop take field_text].
  destruct (c =? 0), (c =? 32); cbn [negb andb orb]; try done. f_equal.
  destruct (Z.leb_spec (size - 1) i) as [Hle|Hgt]; [|apply IH; lia].
  replace (Z.to_nat (size - (i + 1))) with 0%nat by lia. done.
Qed.

Lemma field_text_head field : (field_text field = []) <-> match field with [] => True | c :: _ => c = 0 \/ c = 32 end.
Proof.
  destruct field as [|c field]; [done|]. cbn [field_text]. destruct (Z.eqb_spec c 0), (Z.eqb_spec c 32); cbn [orb]; naive_solver.
Qed.

Lemma full_filename_name it : fat16_get_full_relative_filename it = entry_name it.
Proof.
  unfold fat16_get_full_relative_filename, fat16_to_proper_string, entry_name. rewrite !proper_loop_field by lia. f_equal.
  change (Z.to_nat (3 - 0)) with 3%nat. unfold first_ext, byte_at. destruct (ext it) as [|c e]; [done|].
  change (default 0 ((c :: e) !! 0%nat)) with c. cbn [take]. pose proof (field_text_head (c :: take 2 e)) as Hh. cbn [field_text] in *.
  destruct (Z.eqb_spec c 0), (Z.eqb_spec c 32); cbn [negb andb orb] in *; done.
Qed.

Lemma field_text_clean field : c_text (field_text field) = field_text field.
Proof.
  induction field as [|c field IH]; [done|]. cbn [field_text]. destruct (Z.eqb_spec c 0); [done|]. destruct (c =? 32); [done|].
  cbn [orb c_text]. rewrite (proj2 (Z.eqb_neq c 0)) by done. by rewrite IH.
Qed.

Lemma field_text_length field : (length (field_text field) <= length field)%nat.
Proof. induction field as [|c field IH]; [done|]. cbn [field_text]. destruct (_ || _); cbn [length]; lia. Qed.

Lemma c_text_cstring s : cstring s = c_text s.
Proof. induction s as [|c s IH]; [done|]. rewrite cstring_cons. cbn [c_text]. by rewrite IH. Qed.

Lemma c_text_app s t : c_text s = s -> c_text (s ++ t) = s ++ c_text t.
Proof.
  induction s as [|c s IH]; [done|]. cbn [c_text app]. destruct (c =? 0); [done|]. intros [= E]. by rewrite IH.
Qed.

Lemma entry_name_clean it : c_text (entry_name it) = entry_name it /\ (length (entry_name it) <= 12)%nat.
Proof.
  unfold entry_name. cbv zeta. split.
  - rewrite c_text_app by apply field_text_clean. f_equal. pose proof (field_text_clean (take 3 (ext it))) as Hc.
    destruct (field_text (take 3 (ext it))) as [|c e]; [done|]. change (c_text (46 :: c :: e)) with (46 :: c_text (c :: e)). by rewrite Hc.
  - rewrite length_app. pose proof (field_text_length (take 8 (filename it))). pose proof (field_text_length (take 3 (ext it))).
    rewrite length_take in *. destruct (field_text (take 3 (ext it))); cbn [length] in *; lia.
Qed.

Lemma name_matches_spec it name : name_matches it name = true <-> (lower <$> entry_name it) = (lower <$> c_text name).
Proof.
  unfold name_matches, istrncmp. rewrite Z.eqb_eq, istrncmp_loop_zero, full_filename_name, !c_text_cstring.
  destruct (entry_name_clean it) as [-> Hl]. change (Z.to_nat RORTHOX_MAX_PATH) with 108%nat. rewrite (firstn_all2 (n := 108)) by lia.
  change tolower with lower. split; intros E; [|by rewrite fmap_take, <- E, <- fmap_take, firstn_all2 by lia].
  assert (Hn : (length (c_text name) < 108)%nat).
  { apply (f_equal length) in E. rewrite !length_fmap, length_take in E. lia. }
  by rewrite firstn_all2 in E by lia.
Qed.

Lemma skipped_spec it : skipped it = false <-> filename it !! 0%nat <> Some 0xE5 /\ Z.testbit (attribute it) 3 = false.
Proof.
  unfold skipped, first_char, byte_at. rewrite orb_false_iff, Z.eqb_neq. change FAT_FILE_VOLUME_LABEL with (Z.shiftl 1 3).
  rewrite has_flag_bit by lia. destruct (filename it !! 0%nat) as [c|]; simpl; intuition congruence.
Qed.

Lemma named_spec name it : named name it <-> skipped it = false /\ name_matches it name = true.
Proof. unfold named. rewrite skipped_spec, name_matches_spec. tauto. Qed.

(** ** Searching a directory

    The slots that exist and what they hold are given. *)

Section search.
Context (exists_slot : Z -> Z -> Prop) (slot : Z -> Z -> fat_directory_item) (pos : Z -> Z -> Z).

(** The first entry of directory [c] with the name, and its index: all slots before it are in use. *)
Definition finds_in (c : Z) (name : list Z) (i : nat) (it : fat_directory_item) : Prop :=
  it = slot c (Z.of_nat i) /\ named name it /\
  forall j, 0 <= j <= Z.of_nat i -> exists_slot c j /\ first_char (slot c j) <> 0 /\ (j < Z.of_nat i -> ~ named name (slot c j)).

(** The path leads from directory [c] to the entry [it], which is stored at [a]. *)
Inductive resolves_in : Z -> list Z -> list (list Z) -> fat_directory_item -> Z -> Prop :=
  | resolves_last c name i it : finds_in c name i it ->
    resolves_in c name [] it (i32 (pos c (Z.of_nat i)))
  | resolves_step c name name' rest i it it' a : finds_in c name i it ->
    has_flag (attribute it) FAT_FILE_SUBDIRECTORY = true -> low_16_bits_first_cluster it <> 0 ->
    resolves_in (low_16_bits_first_cluster it) name' rest it' a -> resolves_in c name (name' :: rest) it' a.

Lemma finds_in_unique c name i it i' it' : finds_in c name i it -> finds_in c name i' it' -> i = i' /\ it = it'.
Proof using.
  clear pos. assert (Hlt : forall i it i' it', finds_in c name i it -> finds_in c name i' it' -> ~ (i < i')%nat).
  { clear. intros i it i' it' (-> & Hn & _) (_ & _ & Hj) Hl. destruct (Hj (Z.of_nat i)) as (_ & _ & Hj'); [lia|]. by apply Hj'; [lia|]. }
  intros F F'. pose proof (Hlt _ _ _ _ F F'). pose proof (Hlt _ _ _ _ F' F). assert (i = i') as -> by lia.
  destruct F as (-> & _), F' as (-> & _). done.
Qed.
End search.

Lemma finds_in_ext ex slot slot' c name i it :
  (forall c j, 0 <= j -> ex c j -> slot' c j = slot c j) -> finds_in ex slot c name i it -> finds_in ex slot' c name i it.
Proof.
  intros E (-> & Hn & Hj). assert (Hs : forall j, 0 <= j <= Z.of_nat i -> slot' c j = slot c j).
  { intros j Hb. apply E; [lia|]. by apply Hj. }
  split; [by rewrite Hs by lia|]. split; [done|]. intros j Hb. rewrite Hs by done. by apply Hj.
Qed.

Lemma resolves_in_ext ex slot slot' pos c name rest it a :
  (forall c j, 0 <= j -> ex c j -> slot' c j = slot c j) ->
  resolves_in ex slot pos c name rest it a -> resolves_in ex slot' pos c name rest it a.
Proof.
  intros E R. induction R as [c name i it F|c name name' rest i it it' a F Hd Hz _ IH].
  - by eapply resolves_last, finds_in_ext.
  - by eapply resolves_step; [eapply finds_in_ext|..].
Qed.

(** ** States that show the image and the volume *)

Section scan.
Context {D H : Type} `{BlockDeviceLaws D} `{AllocatorLaws H}.
Implicit Types s : fs D H.
Abbreviation im s := (img (dev s)).

(** [s'] differs from [s] only in what reading changes, and in the heap. *)
Definition looks (s s' : fs D H) : Prop := reads s (with_heap (heap s) s').

#[export] Instance looks_preorder : PreOrder looks.
Proof.
  split; [by intros s; constructor|]. intros s1 s2 s3 [I1 _ V1 G1] [I2 _ V2 G2]. simpl in *.
  constructor; simpl; [|done|by etrans|auto]. intros a. by rewrite I2, I1.
Qed.

Lemma reads_looks s s' : reads s s' -> looks s s'.
Proof. intros [I E V Gd]. constructor; simpl; done. Qed.

Lemma looks_heap s s' h : looks s s' -> looks s (with_heap h s').
Proof. intros [I E V Gd]. constructor; simpl in *; done. Qed.

(** ** Allocations *)

Section owned.
Context (A : gmap Z Z) (h0 : H).

(** What has been allocated since [h0] is [l]. *)
Definition owns (l : list Z) (s : fs D H) : Prop := owned_by (fun _ => True) A h0 l (heap s).

Lemma owns_perm l l' s : l ≡ₚ l' -> owns l s -> owns l' s.
Proof. unfold owns. intros E. by rewrite E. Qed.

Lemma owns_reads l s s' : reads s s' -> owns l s -> owns l s'.
Proof. intros R. unfold owns. by rewrite (rd_heap _ _ R). Qed.

Lemma zalloc_owns l size s r s' :
  owns l s -> 0 <= size < 2 ^ 32 -> zalloc size s = (r, s') ->
  exists a, r = Ok a /\ looks s s' /\ ((a = 0 /\ s' = s) \/ (a <> 0 /\ owns (a :: l) s')).
Proof.
  intros Ho Hs. unfold zalloc. destruct (kmalloc (heap s) size) as [a h] eqn:Hm. intros E. injection E as <- <-.
  exists a. split; [done|]. split; [by apply looks_heap|].
  destruct (owned_malloc (fun _ => True) A h0 l (heap s) size a h) as [[-> ->]|(Ha & _ & Ho')]; [done..| |].
  - left. by destruct s.
  - by right.
Qed.

Lemma free_owns a l s : owns (a :: l) s -> owns l (free a s).
Proof. apply owned_free. Qed.

Lemma free_looks a s : looks s (free a s).
Proof. by apply looks_heap. Qed.

(** An allocation with the code that uses it and releases it on an error. *)
Lemma alloc_scope {B} size e (m : Z -> io (fs D H) B) l s r s' :
  owns l s -> 0 <= size < 2 ^ 32 ->
  (a ← zalloc size; _ ← fail_if (a =? 0) e; on_error (m a) (free a)) s = (r, s') ->
  (r = Err (- e) /\ s' = s) \/
  exists a s1 s2, a <> 0 /\ looks s s1 /\ owns (a :: l) s1 /\ m a s1 = (r, s2) /\
    s' = match r with Ok _ => s2 | Err _ => free a s2 end.
Proof.
  intros Ho Hs [(e' & E & ->)|(a & s1 & E & E1)]%io_bind_inv;
    apply (zalloc_owns _ _ _ _ _ Ho Hs) in E as (a' & [=] & L & Ha). subst a'. rewrite io_fail_if in E1.
  destruct Ha as [[-> ->]|[Ha Ho1]]; [injection E1 as <- <-; by left|]. right.
  rewrite (proj2 (Z.eqb_neq a 0)) in E1 by done. apply on_error_inv in E1 as (s2 & E1 & ->).
  exists a, s1, s2. done.
Qed.

Definition directory_cells (ptr : Z) (d : fat_directory) : list Z :=
  ptr :: (if item_ptr d =? 0 then [] else [item_ptr d]).

Definition item_cells (x : fat_item) : list Z :=
  item_addr x :: match body x with
                 | FAT_ITEM_TYPE_DIRECTORY ptr d => directory_cells ptr d
                 | FAT_ITEM_TYPE_FILE ptr _ => [ptr]
                 end.

Lemma item_free_looks x s : looks s (fat16_fat_item_free x s).
Proof.
  unfold fat16_fat_item_free, fat16_free_directory, free_nonnull. destruct (body x) as [ptr d|ptr it].
  - destruct (ptr =? 0), (item_ptr d =? 0); by repeat apply looks_heap.
  - by repeat apply looks_heap.
Qed.

Lemma item_free_owns x l s : owns (item_cells x ++ l) s -> owns l (fat16_fat_item_free x s).
Proof.
  intros Ho. unfold fat16_fat_item_free, item_cells in *. simpl in Ho. apply free_owns.
  destruct (body x) as [ptr d|ptr it]; simpl in *.
  - unfold fat16_free_directory, free_nonnull, directory_cells in *. destruct (Z.eqb_spec ptr 0) as [->|Hp].
    { apply owned_null in Ho as [Ho _]. set_solver. }
    apply free_owns. destruct (item_ptr d =? 0); simpl in *; [|apply free_owns]; (eapply owns_perm; [|exact Ho]); solve_Permutation.
  - apply free_owns. eapply owns_perm; [|exact Ho]. solve_Permutation.
Qed.
End owned.

Section view.
Context (f : Z -> Z) (p : fat_private) (G : geometry p).

(** The image is [f] and the volume is [p], up to the positions of the streams. *)
Record view (s : fs D H) : Prop := View { vw_img a : im s a = f a; vw_volume : same_volume p (priv s) }.

Lemma view_looks s s' : looks s s' -> view s -> view s'.
Proof using.
  intros [I _ V _] [Vi Vv]. simpl in *. constructor; [intros a; by rewrite I|by etrans].
Qed.

Lemma view_reads s s' : reads s s' -> view s -> view s'.
Proof using. intros R. by apply view_looks, reads_looks. Qed.

Lemma view_entry s c : view s -> fat_entry (im s) (priv s) c = fat_entry f p c.
Proof using. intros [I V]. rewrite (fat_entry_same _ _ _ _ V). unfold fat_entry. by rewrite !I. Qed.

Lemma view_nth s n c : view s -> nth_cluster (im s) (priv s) n c = nth_cluster f p n c.
Proof using.
  intros V. revert c. induction n as [|n IH]; intros c; [done|]. cbn [nth_cluster]. by rewrite (view_entry _ _ V), IH.
Qed.

Lemma view_chain s n c : view s -> chain_valid (im s) (priv s) n c <-> chain_valid f p n c.
Proof using.
  intros V. unfold chain_valid. by setoid_rewrite (view_nth s _ _ V); setoid_rewrite (valid_same _ _ _ (vw_volume _ V)).
Qed.

Lemma view_geometry s : view s -> geometry (priv s).
Proof using G. intros V. eapply geometry_same; [apply V|done]. Qed.

Lemma get_fat_entry_view c s r s' :
  view s -> 0 <= c < 65536 -> fat16_get_fat_entry c s = (r, s') ->
  reads s s' /\ match r with Ok v => v = fat_entry f p c /\ 0 <= v < 65536 | Err e => e < 0 end.
Proof using G.
  intros V Hc E. apply get_fat_entry_spec in E as [R Hr]; [|by apply view_geometry|done].
  split; [done|]. destruct r as [v|e]; [by rewrite (view_entry _ _ V) in Hr|apply Hr].
Qed.

Lemma next_cluster_view c k cur s r s' :
  cur_at f p c k cur -> view s -> next_cluster cur s = (r, s') ->
  reads s s' /\
  match r with
  | Err e => e < 0
  | Ok None => slots_end f p c k
  | Ok (Some cur') => cur_at f p c k cur' /\ cur_index cur' < cur_slots cur'
  end.
Proof using G.
  intros [k' l b Hk|c' n i l b Hc Hn Hv Hi Hl] V E; unfold next_cluster in E;
    cbn [cur_index cur_slots cur_cluster cur_clusters loaded_sector cur_buffer] in E.
  - destruct (Z.eqb_spec k' (root_dir_entries (header p))) as [->|Hne]; injection E as <- <-; split; [done|done|done|].
    split; [by constructor|]. simpl. lia.
  - destruct (Z.eqb_spec i (cluster_slots p)) as [->|Hne]; cycle 1.
    { injection E as <- <-. split; [done|]. split; [by constructor|]. simpl. lia. }
    pose proof (Hv n ltac:(lia)) as Hnv. pose proof (valid_range _ _ Hnv).
    pose proof (cluster_slots_pos _ _ G Hnv) as Hs.
    rewrite (proj2 (Z.eqb_neq _ 0)) in E by lia.
    apply io_bind_inv in E as [(e & E & ->)|(next & s1 & E & E1)];
      (apply get_fat_entry_view in E as [R Hr]; [|done|lia]).
    { split; [done|]. apply Hr. }
    destruct Hr as [Hnext Hr]. rewrite <- nth_cluster_succ in Hnext.
    pose proof (view_reads _ _ R V) as V1. rewrite io_gets in E1.
    assert (Hk : n * cluster_slots p + cluster_slots p = (n + 1) * cluster_slots p + 0) by lia.
    assert (Hnth : nth_cluster f p (Z.to_nat (n + 1)) c' = next)
      by (by replace (Z.to_nat (n + 1)) with (S (Z.to_nat n)) by lia).
    destruct (Z.leb_spec RORTHOX_FAT16_EOC_START next) as [He|He].
    { injection E1 as <- <-. split; [done|]. unfold slots_end. rewrite (proj2 (Z.eqb_neq c' 0)) by done.
      rewrite Hk. destruct (slot_cluster_eq f p c' (n + 1) 0) as [-> ->]; [lia|lia|]. split; [lia|]. split; [done|].
      by rewrite Hnth. }
    rewrite io_fail_if, (valid_same _ _ _ (vw_volume _ V1)), (limit_same _ _ (vw_volume _ V1)) in E1.
    destruct (negb (fat16_valid_cluster p next) || _) eqn:Hchk; injection E1 as <- <-; split; [done| |done|].
    { unfold EIO. lia. }
    apply orb_false_iff in Hchk as [Hval Hlim]. apply negb_false_iff in Hval. apply Z.ltb_ge in Hlim.
    split; [|simpl; lia]. rewrite Hk. unfold fat16_cluster_to_sector.
    rewrite (sv_header _ _ (vw_volume _ V1)), (sv_root _ _ (vw_volume _ V1)), <- Hnth.
    constructor; [done|lia| |lia|done]. intros j Hj. destruct (Z.eq_dec j (n + 1)) as [->|]; [by rewrite Hnth|].
    apply Hv. lia.
Qed.

Lemma load_sector_view cur sector s r s' :
  view s -> 0 <= sector -> sector * 512 <= INT_MAX ->
  (loaded_sector cur = -1 \/ cur_buffer cur = slice f (loaded_sector cur * 512) 512) ->
  load_sector cur sector s = (r, s') ->
  reads s s' /\ match r with Ok b => b = slice f (sector * 512) 512 | Err e => e < 0 end.
Proof using.
  intros V Hs Hm Hl E. unfold load_sector, RORTHOX_SECTOR_SIZE, INT_MAX in *.
  destruct (Z.eqb_spec (loaded_sector cur) sector) as [<-|Hne]; simpl in E.
  { apply mret_inv in E as [-> ->]. split; [done|]. destruct Hl as [Hl|Hl]; [lia|done]. }
  rewrite i32_small in E by lia. apply stream_read_at_spec in E as [R Hr]; [|apply directory_lens].
  split; [done|]. destruct r as [b|e]; [|apply Hr]. destruct Hr as [_ ->]. apply slice_ext. intros a _. apply V.
Qed.

Lemma slot_aligned c k : c <> 0 -> slot_pos f p c k mod 512 mod 32 = 0.
Proof using.
  intros Hc. unfold slot_pos. rewrite (proj2 (Z.eqb_neq c 0)) by done. unfold cluster_pos. lia.
Qed.

Lemma directory_next_view c k cur s r s' :
  cur_at f p c k cur -> view s -> fat16_directory_next cur s = (r, s') ->
  reads s s' /\
  match r with
  | Err e => e < 0
  | Ok None => slots_end f p c k
  | Ok (Some (it, pos, cur')) => it = slot_item f p c k /\ pos = slot_pos f p c k /\ 0 <= pos <= INT_MAX - 32 /\
      slot_exists f p c k /\ cur_at f p c (k + 1) cur'
  end.
Proof using G.
  intros Hat V E. unfold fat16_directory_next in E. apply io_bind_inv in E as [(e & E & ->)|(r1 & s1 & E & E1)];
    apply (next_cluster_view _ _ _ _ _ _ Hat V) in E as [R Hr]; [done|].
  destruct r1 as [cur1|]; [|by apply mret_inv in E1 as [-> ->]].
  clear Hat cur. destruct Hr as [Hat Hlt]. pose proof (view_reads _ _ R V) as V1.
  rewrite io_fail_if in E1. destruct Hat as [k' l b Hk|c' n i l b Hc Hn Hv Hi Hl];
    cbn [cur_index cur_slots cur_cluster cur_sector cur_clusters loaded_sector cur_buffer] in *.
  - assert (Hsp : 0 <= sector_pos (root_directory p) < 2 ^ 25).
    { rewrite (geo_pos _ G). pose proof (geo_copies _ G). pose proof (geo_fat _ G). pose proof (geo_reserved _ G). nia. }
    pose proof (geo_root _ G). unfold RORTHOX_SECTOR_SIZE in E1. rewrite (u64_small (sector_pos _)), u64_small in E1 by lia.
    destruct (Z.ltb_spec (INT_MAX - 32) (sector_pos (root_directory p) * 512 + k' * 32)) as [|Hloc].
    { injection E1 as <- <-. split; [done|]. unfold EIO. lia. }
    change (0 =? 0) with true in E1. cbv iota in E1. rewrite io_gets in E1. apply mret_inv in E1 as [-> ->].
    split; [done|]. unfold slot_item, slot_pos, slot_exists. simpl. rewrite (sv_root _ _ (vw_volume _ V1)).
    split; [done|]. split; [lia|]. split; [lia|]. split; [done|]. constructor. lia.
  - pose proof (Hv n ltac:(lia)) as Hnv. pose proof (valid_range _ _ Hnv) as Hnr.
    set (cl := nth_cluster f p (Z.to_nat n) c') in *. pose proof (cluster_slots_pos _ _ G Hnv) as Hs.
    destruct (cluster_to_sector_eq p cl G ltac:(lia)) as [Hcp Hcr]. specialize (Hcr ltac:(lia)).
    destruct (slot_cluster_eq f p c' n i ltac:(lia) ltac:(lia)) as [Hsc Hsm].
    assert (Hpos : slot_pos f p c' (n * cluster_slots p + i) = fat16_cluster_to_sector p cl * 512 + i * 32).
    { unfold slot_pos. rewrite (proj2 (Z.eqb_neq c' 0)), Hsc, Hsm by done. fold cl. lia. }
    unfold RORTHOX_SECTOR_SIZE in E1. rewrite (u64_small (fat16_cluster_to_sector p cl)), u64_small, <- Hpos in E1 by lia.
    destruct (Z.ltb_spec (INT_MAX - 32) (slot_pos f p c' (n * cluster_slots p + i))) as [|Hloc].
    { injection E1 as <- <-. split; [done|]. unfold EIO. lia. }
    rewrite (proj2 (Z.eqb_neq cl 0)) in E1 by lia. pose proof (slot_aligned c' (n * cluster_slots p + i) Hc) as Hal.
    assert (Hex : slot_exists f p c' (n * cluster_slots p + i)).
    { unfold slot_exists. rewrite (proj2 (Z.eqb_neq c' 0)), Hsc by done. done. }
    set (w := slot_pos f p c' (n * cluster_slots p + i)) in *.
    assert (Hw : 0 <= w) by lia. assert (Hfit : w / 512 * 512 <= INT_MAX) by (unfold INT_MAX in *; lia).
    apply io_bind_inv in E1 as [(e & E1 & ->)|(buf & s2 & E1 & E2)];
      (apply load_sector_view in E1 as [R1 Hr]; [|done|lia|done|done]).
    { split; [by etrans|done]. }
    apply mret_inv in E2 as [-> ->]. split; [by etrans|]. subst buf.
    replace 32%nat with (Z.to_nat 32) by done.
    rewrite slice_sub by lia. replace (w / 512 * 512 + w mod 512) with w by lia.
    unfold slot_item. rewrite (proj2 (Z.eqb_neq c' 0)) by done. fold w. split; [done|]. split; [done|]. split; [lia|].
    split; [done|]. rewrite <- Z.add_assoc. apply at_sub; [done|done|done|lia|by right].
Qed.

Lemma directory_start_view c s r s' :
  view s -> fat16_directory_start c s = (r, s') ->
  s' = s /\ match r with
            | Ok cur => cur_at f p c 0 cur
            | Err e => e = - EIO /\ c <> 0 /\ fat16_valid_cluster p c = false
            end.
Proof using G.
  intros V E. unfold fat16_directory_start in E. rewrite io_gets in E. pose proof (vw_volume _ V) as Vv.
  destruct (Z.eqb_spec c 0) as [->|Hc]; simpl in E.
  - apply mret_inv in E as [-> ->]. split; [done|]. rewrite (sv_header _ _ Vv), (sv_root _ _ Vv). constructor.
    pose proof (geo_root _ G). lia.
  - rewrite io_fail_if, (valid_same _ _ _ Vv) in E. destruct (fat16_valid_cluster p c) eqn:Hv; simpl in E.
    2:{ injection E as <- <-. done. }
    injection E as <- <-. split; [done|]. unfold fat16_cluster_to_sector. rewrite (cluster_bytes_same _ _ Vv).
    rewrite (sv_header _ _ Vv), (sv_root _ _ Vv). pose proof (cluster_slots_pos _ _ G Hv).
    apply (at_sub f p c 0 0); [done| | |lia|by left].
    + pose proof (valid_range _ _ Hv). pose proof (limit_large p). lia.
    + intros j Hj. by assert (j = 0) as -> by lia.
Qed.

(** Before a round of the count: [total] slots have been seen, all in use. *)
Definition counting (s0 : fs D H) (c n : Z) (st : fat_directory_cursor * Z) (s : fs D H) : Prop :=
  let '(cur, total) := st in
  reads s0 s /\ cur_at f p c total cur /\ n = max_slots p c - total /\
  forall j, 0 <= j < total -> slot_exists f p c j /\ first_char (slot_item f p c j) <> 0.

Definition counted (s0 : fs D H) (c : Z) (r : result Z) (s : fs D H) : Prop :=
  reads s0 s /\ match r with Ok n => dir_size f p c n | Err e => e < 0 end.

Lemma total_body_view s0 c n st s r s' :
  view s0 -> counting s0 c n st s -> total_body st s = (r, s') ->
  round_ok (counting s0 c) (counted s0 c) (n - 1) r s'.
Proof using G.
  destruct st as [cur total]. intros V (R & Hat & Hn & Hused) E. unfold total_body in E.
  pose proof (view_reads _ _ R V) as V1. pose proof (cur_at_bound _ _ _ _ _ G Hat) as Hb.
  apply io_bind_inv in E as [(e & E & ->)|(r1 & s1 & E & E1)];
    apply (directory_next_view _ _ _ _ _ _ Hat V1) in E as [R1 Hr]; [split; [by etrans|done]|].
  assert (R2 : reads s0 s1) by (by etrans). destruct r1 as [[[it pos] cur']|].
  2:{ apply mret_inv in E1 as [-> ->]. split; [done|]. constructor; [lia|done|by left]. }
  destruct Hr as (-> & -> & _ & Hex & Hat'). destruct (Z.eqb_spec (first_char (slot_item f p c total)) 0) as [Hz|Hz].
  { apply mret_inv in E1 as [-> ->]. split; [done|]. constructor; [lia|done|by right]. }
  rewrite io_fail_if in E1. destruct (total =? INT_MAX / 32); injection E1 as <- <-.
  { split; [done|]. unfold EIO. lia. }
  pose proof (cur_at_bound _ _ _ _ _ G Hat') as Hb'. exists (max_slots p c - (total + 1)).
  split; [lia|]. split; [done|]. split; [done|]. split; [done|]. intros j Hj.
  destruct (Z.eq_dec j total) as [->|]; [done|]. apply Hused. lia.
Qed.

Lemma total_items_view c s r s' :
  view s -> fat16_valid_cluster p c = true ->
  fat16_get_total_items_for_directory (u32 (fat16_cluster_to_sector p c)) s = (r, s') -> counted s c r s'.
Proof using G.
  intros V Hv E. pose proof (vw_volume _ V) as Vv. destruct (cluster_of_sector p c G Hv) as (Hspc & Hle & Hmod & Hc).
  unfold fat16_get_total_items_for_directory in E. cbv zeta in *. rewrite io_gets in E.
  rewrite (sv_header _ _ Vv), (sv_root _ _ Vv), Hc in E.
  rewrite io_passes in E by (by rewrite (proj2 (Z.eqb_neq _ 0) Hspc), (proj2 (Z.ltb_ge _ _) Hle), Hmod).
  rewrite io_passes in E by (by rewrite (valid_same _ _ _ Vv), Hv).
  apply io_bind_inv in E as [(e & E & ->)|(cur & s1 & E & E1)];
    apply directory_start_view in E as [-> Hs]; [|done| |done].
  { destruct Hs as (_ & _ & Hs). congruence. }
  eapply (io_loop_ok total_body (counting s c) (counted s c)); [| | |exact E1].
  - intros n st s2 r2 s2' Hi Eb. by eapply total_body_view.
  - split; [done|]. split; [done|]. split; [done|]. intros j Hj. lia.
  - rewrite Z.sub_0_r. by apply max_slots_fuel.
Qed.

(** The items from a cursor on. *)
Lemma load_items_view n : forall c k cur s r s',
  cur_at f p c k cur -> view s -> load_items n cur s = (r, s') ->
  reads s s' /\ match r with Ok l => l = slot_item f p c <$> seqZ k (Z.of_nat n) | Err e => e = - EIO end.
Proof using G.
  induction n as [|n IH]; intros c k cur s r s' Hat V E; cbn [load_items] in E.
  { apply mret_inv in E as [-> ->]. done. }
  destruct (fat16_directory_next cur s) as [r1 s1] eqn:E1. apply (directory_next_view _ _ _ _ _ _ Hat V) in E1 as [R Hr].
  destruct r1 as [[[[it pos] cur1]|]|e]; [|by injection E as <- <-..].
  destruct Hr as (-> & _ & _ & _ & Hat1). pose proof (view_reads _ _ R V) as V1.
  apply io_bind_inv in E as [(e & E & ->)|(l & s2 & E & E2)]; apply (IH _ _ _ _ _ _ Hat1 V1) in E as [R1 Hr].
  - split; [by etrans|done].
  - apply mret_inv in E2 as [-> ->]. split; [by etrans|]. rewrite seqZ_cons by lia. rewrite fmap_cons, Hr.
    do 3 f_equal; lia.
Qed.


(** ** Directories in memory *)

(** [d] shows what is on the disk. *)
Record shows (d : fat_directory) : Prop := Shows {
  sh_listing : dir_listing f p (first_cluster d) (take (Z.to_nat (total d)) (item d));
  sh_root : first_cluster d = 0 -> sector_pos d = sector_pos (root_directory p);
  sh_valid : first_cluster d = 0 \/ fat16_valid_cluster p (first_cluster d) = true
}.

(** ** The position of an item *)

Lemma cluster_walk_error n : forall c s e s',
  view s -> fat16_valid_cluster p c = true -> table_good s -> cluster_walk n c s = (Err e, s') -> e = - EIO.
Proof using G.
  induction n as [|n IH]; intros c s e s' V Hv T E; cbn [cluster_walk] in E; [done|].
  pose proof (valid_range _ _ Hv). apply io_bind_inv in E as [(e' & E & [= ->])|(next & s1 & E & E1)].
  - apply get_fat_entry_spec in E as (_ & _ & Hbad); [|by apply view_geometry|lia]. destruct Hbad; [|done].
    rewrite (sv_header _ _ (vw_volume _ V)). by apply valid_in_table.
  - apply get_fat_entry_view in E as [R Hn]; [|done|lia]. pose proof (view_reads _ _ R V) as V1.
    rewrite io_gets, io_fail_if, (valid_same _ _ _ (vw_volume _ V1)) in E1.
    destruct (fat16_valid_cluster p next) eqn:Hvn; cbn [negb] in E1; [|by injection E1 as <- <-].
    eapply IH; [exact V1|done|by eapply reads_table_good|done].
Qed.

Lemma item_position_view d i s r s' :
  shows d -> view s -> 0 <= i -> item_position d i s = (r, s') ->
  reads s s' /\
  match r with
  | Ok v => v = i32 (slot_pos f p (first_cluster d) i)
  | Err e => e < 0 /\ (table_good s -> e = - EIO)
  end.
Proof using G.
  intros Sd V Hi E. unfold item_position in E. destruct (Z.eqb_spec (first_cluster d) 0) as [Hz|Hz]; cbn [negb] in E.
  { apply mret_inv in E as [-> ->]. split; [done|]. rewrite (sh_root _ Sd Hz), Hz. unfold slot_pos, RORTHOX_SECTOR_SIZE. simpl.
    f_equal. lia. }
  destruct (sh_valid _ Sd) as [?|Hv]; [done|]. pose proof (cluster_slots_pos _ _ G Hv) as Hs.
  destruct (cluster_slots_eq p) as [_ Hcb]. rewrite io_gets in E.
  apply io_bind_inv in E as [(e & E & ->)|(c & s1 & E & E1)].
  - pose proof E as E'. apply get_cluster_for_offset_spec in E as (R & He & _); [|by apply view_geometry]. split; [done|].
    split; [done|]. intros T. unfold fat16_get_cluster_for_offset in E'. rewrite io_gets, !io_fail_if, (valid_same _ _ _ (vw_volume _ V)) in E'.
    destruct (_ || _ || _); [by injection E' as <- <-|]. destruct (_ <=? _); [by injection E' as <- <-|].
    by eapply cluster_walk_error.
  - apply get_cluster_for_offset_spec in E as (R & _ & _ & _ & Hc & Hcv); [|by apply view_geometry].
    rewrite (cluster_bytes_same _ _ (vw_volume _ V)), Hcb in *. rewrite (view_nth _ _ _ V) in Hc.
    rewrite (Z.mul_comm i 32), Z.div_mul_cancel_l, Z.mul_mod_distr_l in * by lia.
    apply (view_chain _ _ _ V) in Hcv. assert (Hq : 0 <= i / cluster_slots p) by (apply Z.div_pos; lia).
    specialize (Hcv (i / cluster_slots p) ltac:(lia)). rewrite <- Hc in Hcv. pose proof (valid_range _ _ Hcv) as Hcr.
    destruct (cluster_to_sector_eq p c G ltac:(lia)) as [Hcp Hcs]. specialize (Hcs ltac:(lia)).
    pose proof (Z.mod_pos_bound i (cluster_slots p) ltac:(lia)) as Hm.
    replace (fat16_cluster_to_sector (priv s) c) with (fat16_cluster_to_sector p c) in E1.
    2:{ unfold fat16_cluster_to_sector. by rewrite (sv_header _ _ (vw_volume _ V)), (sv_root _ _ (vw_volume _ V)). }
    unfold RORTHOX_SECTOR_SIZE in E1. rewrite (u64_small (fat16_cluster_to_sector p c)), u64_small in E1 by lia.
    rewrite io_fail_if in E1. destruct (Z.ltb_spec (INT_MAX - 32) (fat16_cluster_to_sector p c * 512 + 32 * (i mod cluster_slots p))) as [|Hloc];
      injection E1 as <- <-; (split; [done|]); [split; [unfold EIO; lia|done]|].
    unfold slot_pos, slot_cluster. rewrite (proj2 (Z.eqb_neq _ 0)) by done. rewrite <- Hc, <- Hcp.
    unfold INT_MAX in Hloc. rewrite i32_small; lia.
Qed.

(** ** The slot of a new entry *)

(** A deleted entry that does not belong to a long name. *)
Definition reusable (c k : Z) : Prop :=
  first_char (slot_item f p c k) = 0xE5 /\ attribute (slot_item f p c k) <> 0x0F /\
  ~ (0 < k /\ fat16_is_lfn (slot_item f p c (k - 1)) = true).

(** The slots before [k] are in use and not reusable. *)
Definition taken (c k : Z) : Prop :=
  forall j, 0 <= j < k -> slot_exists f p c j /\ first_char (slot_item f p c j) <> 0 /\ ~ reusable c j.

(** The first slot that can hold a new entry: a reusable one, or the end of the directory, behind which
    nothing follows. *)
Record free_slot (c k : Z) : Prop := FreeSlot {
  fr_nonneg : 0 <= k;
  fr_taken : taken c k;
  fr_exists : slot_exists f p c k;
  fr_slot : reusable c k \/
    (first_char (slot_item f p c k) = 0 /\ ~ (0 < k /\ fat16_is_lfn (slot_item f p c (k - 1)) = true) /\
     (slots_end f p c (k + 1) \/ (slot_exists f p c (k + 1) /\ first_char (slot_item f p c (k + 1)) = 0)))
}.

(** Before a round of the scan, at slot [k]. *)
Definition scanning (s0 : fs D H) (c n : Z) (st : fat_directory_cursor * Z * bool) (s : fs D H) : Prop :=
  let '(cur, slot, lfn) := st in
  exists k, reads s0 s /\ cur_at f p c k cur /\ n = max_slots p c - k /\
    (lfn = true <-> 0 < k /\ fat16_is_lfn (slot_item f p c (k - 1)) = true) /\
    ((slot = -1 /\ taken c k) \/
     (exists j, 0 <= j < k /\ free_slot c j /\ slot = slot_pos f p c j /\ 0 <= slot <= INT_MAX - 32)).

Definition scanned (s0 : fs D H) (c : Z) (r : result Z) (s : fs D H) : Prop :=
  reads s0 s /\
  match r with
  | Ok slot => (slot = -1 /\ exists k, taken c k /\ slots_end f p c k) \/
      (exists k, free_slot c k /\ slot = slot_pos f p c k /\ 0 <= slot <= INT_MAX - 32)
  | Err e => e < 0
  end.

Lemma check_next_slot_view c k cur s r s' :
  cur_at f p c k cur -> view s -> check_next_slot cur s = (r, s') ->
  reads s s' /\
  match r with
  | Ok _ => slots_end f p c k \/ (slot_exists f p c k /\ first_char (slot_item f p c k) = 0)
  | Err e => e = - EIO
  end.
Proof using G.
  intros Hat V E. unfold check_next_slot in E. destruct (fat16_directory_next cur s) as [r1 s1] eqn:E1.
  apply (directory_next_view _ _ _ _ _ _ Hat V) in E1 as [R Hr]. destruct r1 as [[[[it pos] cur1]|]|e].
  - destruct Hr as (-> & _ & _ & Hex & _). unfold fail_if in E.
    destruct (Z.eqb_spec (first_char (slot_item f p c k)) 0); injection E as <- <-; split; [done|by right|done|done].
  - injection E as <- <-. split; [done|by left].
  - injection E as <- <-. done.
Qed.

Lemma slot_body_view s0 c n st s r s' :
  view s0 -> scanning s0 c n st s -> slot_body st s = (r, s') ->
  round_ok (scanning s0 c) (scanned s0 c) (n - 1) r s'.
Proof using G.
  destruct st as [[cur slot] lfn]. intros V (k & R & Hat & Hn & Hlfn & Hslot) E. unfold slot_body in E.
  pose proof (view_reads _ _ R V) as V1. pose proof (cur_at_bound _ _ _ _ _ G Hat) as Hb.
  assert (Hneg : (slot <? 0) = true -> slot = -1 /\ taken c k).
  { intros Hlt%Z.ltb_lt. destruct Hslot as [?|(j & _ & _ & _ & Hr)]; [done|lia]. }
  assert (Hpos : (slot <? 0) = false -> exists j, 0 <= j < k /\ free_slot c j /\ slot = slot_pos f p c j /\ 0 <= slot <= INT_MAX - 32).
  { intros Hge%Z.ltb_ge. destruct Hslot as [[-> _]|?]; [lia|done]. }
  apply io_bind_inv in E as [(e & E & ->)|(r1 & s1 & E & E1)];
    apply (directory_next_view _ _ _ _ _ _ Hat V1) in E as [R1 Hr]; [split; [by etrans|done]|].
  assert (R2 : reads s0 s1) by (by etrans). destruct r1 as [[[it pos] cur']|].
  2:{ apply mret_inv in E1 as [-> ->]. split; [done|]. destruct Hslot as [[-> Ht]|(j & _ & ?)]; [left|right; by exists j].
      split; [done|]. by exists k. }
  destruct Hr as (-> & -> & Hpr & Hex & Hat'). set (it := slot_item f p c k) in *.
  destruct (Z.eqb_spec (first_char it) 0) as [Hz|Hz].
  - rewrite io_fail_if in E1. destruct (slot <? 0) eqn:Hs; cbn [andb] in E1; cycle 1.
    { injection E1 as <- <-. split; [done|]. right. destruct (Hpos eq_refl) as (j & _ & ?). by exists j. }
    destruct lfn; [injection E1 as <- <-; split; [done|unfold EIO; lia]|].
    pose proof (view_reads _ _ R2 V) as V2.
    apply io_bind_inv in E1 as [(e & E1 & ->)|(u & s2 & E1 & E2)];
      apply (check_next_slot_view _ _ _ _ _ _ Hat' V2) in E1 as [R3 Hc]; [split; [by etrans|subst; unfold EIO; lia]|].
    injection E2 as <- <-. split; [by etrans|]. right. exists k. split; [|done]. destruct (Hneg eq_refl) as [_ Ht].
    constructor; [lia|done|done|]. right. split; [done|]. split; [|done]. intros Hl%Hlfn. done.
  - injection E1 as <- <-. pose proof (cur_at_bound _ _ _ _ _ G Hat') as Hb'. exists (max_slots p c - (k + 1)).
    split; [lia|]. exists (k + 1). split; [done|]. split; [done|]. split; [done|].
    replace (k + 1 - 1) with k by lia. fold it. split; [split; [intros; split; [lia|done]|by intros [_ ?]]|].
    assert (Hre : (first_char it =? 0xE5) && negb (attribute it =? 0x0F) && negb lfn = true <-> reusable c k).
    { unfold reusable. fold it. rewrite !andb_true_iff, !negb_true_iff, Z.eqb_eq, Z.eqb_neq.
      rewrite <- Hlfn. destruct lfn; split; [naive_solver..|by intros [[? ?] _]|by intros (? & ? & _)]. }
    destruct (slot <? 0) eqn:Hs; cbn [andb].
    + destruct (Hneg eq_refl) as [-> Ht]. destruct (_ && _ && _) eqn:Hc.
      * right. exists k. split; [lia|]. split; [|done]. constructor; [lia|done|done|]. left. by apply Hre.
      * left. split; [done|]. intros j Hj. destruct (Z.eq_dec j k) as [->|]; [|apply Ht; lia].
        split; [done|]. split; [done|]. intros Hr%Hre. congruence.
    + right. destruct (Hpos eq_refl) as (j & Hj & ?). exists j. split; [lia|done].
Qed.

Lemma find_slot_view c s r s' :
  view s -> find_slot c s = (r, s') ->
  reads s s' /\
  match r with
  | Ok slot => exists k, free_slot c k /\ slot = slot_pos f p c k /\ 0 <= slot <= INT_MAX - 32
  | Err e => e < 0
  end.
Proof using G.
  intros V E. unfold find_slot in E.
  apply io_bind_inv in E as [(e & E & ->)|(cur & s1 & E & E1)]; apply directory_start_view in E as [-> Hs]; [|done| |done].
  { split; [done|]. destruct Hs as [-> _]. unfold EIO. lia. }
  assert (Hloop : forall r s', io_loop SLOT_FUEL slot_body (cur, -1, false) s = (r, s') -> scanned s c r s').
  { intros r1 s2 El. eapply (io_loop_ok slot_body (scanning s c) (scanned s c)); [| | |exact El].
    - intros. by eapply slot_body_view.
    - exists 0. split; [done|]. split; [done|]. split; [done|]. split; [split; [done|lia]|]. left. split; [done|].
      intros j Hj. lia.
    - rewrite Z.sub_0_r. by apply max_slots_fuel. }
  apply io_bind_inv in E1 as [(e & E1 & ->)|(slot & s2 & E1 & E2)]; apply Hloop in E1 as [R Hr]; [done|].
  rewrite io_fail_if in E2. destruct (Z.ltb_spec slot 0) as [Hneg|Hpos]; injection E2 as <- <-; (split; [done|]).
  - unfold ENOSPC. lia.
  - destruct Hr as [[-> _]|Hr]; [lia|done].
Qed.

Lemma view_self s : priv s = p -> (forall a, im s a = f a) -> view s.
Proof using. intros Hp Hi. constructor; [done|by rewrite Hp]. Qed.

Section loading.
Context (A : gmap Z Z) (h0 : H).
Local Abbreviation owns := (owns A h0).

Lemma load_listing c items total s r s' dir l :
  view s -> fat16_valid_cluster p c = true -> dir_size f p c total -> owns l s ->
  (cursor ← fat16_directory_start c; l ← load_items (Z.to_nat total) cursor;
   mret (dir, FatDirectory items l c total 0 0) : io (fs D H) (Z * fat_directory)) s = (r, s') ->
  looks s s' /\ owns l s' /\
  forall ptr d, r = Ok (ptr, d) -> ptr = dir /\ item_ptr d = items /\ first_cluster d = c /\ shows d.
Proof using G.
  intros V Hv Hn Ho E. pose proof (valid_range _ _ Hv) as Hr. pose proof (ds_nonneg _ _ _ _ Hn) as Hn0.
  apply io_bind_inv in E as [(e & E & ->)|(cur & s1 & E & E1)]; apply directory_start_view in E as [-> Hc]; [|done| |done].
  { done. }
  apply io_bind_inv in E1 as [(e & E1 & ->)|(li & s2 & E1 & E2)]; apply (load_items_view _ _ _ _ _ _ _ Hc V) in E1 as [R Hl].
  { split; [by apply reads_looks|]. split; [by eapply owns_reads|]. intros. done. }
  apply mret_inv in E2 as [-> ->]. split; [by apply reads_looks|]. split; [by eapply owns_reads|].
  intros ptr d [= <- <-]. do 3 (split; [done|]). rewrite Z2Nat.id in Hl by done.
  assert (Hlen : length li = Z.to_nat total) by (by rewrite Hl, length_fmap, length_seqZ).
  constructor; cbn [Fat.item Fat.total first_cluster sector_pos]; [|lia|by right].
  rewrite take_ge by lia. split; [|by rewrite Hlen, Z2Nat.id]. by rewrite Hlen, Z2Nat.id.
Qed.

(** What a directory just loaded is. *)
Record loaded (it : fat_directory_item) (l : list Z) (s : fs D H) (ptr : Z) (d : fat_directory) : Prop := Loaded {
  ld_owns : owns (directory_cells ptr d ++ l) s;
  ld_shows : shows d;
  ld_cluster : first_cluster d = low_16_bits_first_cluster it;
  ld_nonzero : first_cluster d <> 0
}.

Lemma load_contents_view it dir l s r s' :
  owns (dir :: l) s -> view s -> load_contents it dir s = (r, s') ->
  looks s s' /\ match r with Ok (ptr, d) => loaded it l s' ptr d | Err _ => owns (dir :: l) s' end.
Proof using G.
  intros Ho V E. unfold load_contents in E. rewrite io_gets, io_fail_if, (valid_same _ _ _ (vw_volume _ V)) in E.
  destruct (fat16_valid_cluster p (fat16_get_first_cluster it)) eqn:Hv; cbn [negb] in E; [|by injection E as <- <-].
  pose proof (valid_range _ _ Hv) as Hr. unfold fat16_get_first_cluster in *. set (c := low_16_bits_first_cluster it) in *.
  assert (Ec : fat16_cluster_to_sector (priv s) c = fat16_cluster_to_sector p c).
  { unfold fat16_cluster_to_sector. by rewrite (sv_header _ _ (vw_volume _ V)), (sv_root _ _ (vw_volume _ V)). }
  rewrite Ec in E. apply io_bind_inv in E as [(e & E & ->)|(n & s1 & E & E1)]; apply total_items_view in E as [R Hn]; try done.
  { split; [by apply reads_looks|]. by eapply owns_reads. }
  pose proof (owns_reads _ _ _ _ _ R Ho) as Ho1. pose proof (view_reads _ _ R V) as V1.
  pose proof (reads_looks _ _ R) as L1. pose proof (ds_nonneg _ _ _ _ Hn).
  rewrite io_fail_if in E1. destruct (Z.ltb_spec (0x7FFFFFFF / sizeof_fat_directory_item) n) as [|Hsmall]; [by injection E1 as <- <-|].
  unfold sizeof_fat_directory_item in *. destruct (Z.eqb_spec n 0) as [->|Hn0].
  { injection E1 as <- <-. split; [done|]. constructor; [done| |done|simpl; lia].
    constructor; simpl; [|lia|by right]. by split. }
  apply (alloc_scope A h0 _ _ _ (dir :: l)) in E1 as [[-> ->]|(items & s2 & s3 & Hi & L2 & Ho2 & E1 & ->)]; [done| |done|lia].
  pose proof (view_looks _ _ L2 V1) as V2. apply (load_listing _ _ _ _ _ _ _ (items :: dir :: l)) in E1 as (L3 & Ho3 & Hd); [|done..].
  assert (L : looks s s3) by (etrans; [exact L1|]; etrans; [exact L2|done]). destruct r as [[ptr d]|e].
  - split; [done|]. destruct (Hd _ _ eq_refl) as (-> & Hp & Hc & Hsh). constructor; [|done|done|rewrite Hc; lia].
    unfold directory_cells. rewrite Hp, (proj2 (Z.eqb_neq items 0)) by done. eapply owns_perm; [|exact Ho3]. apply perm_swap.
  - split; [etrans; [exact L|apply free_looks]|]. by apply free_owns.
Qed.

Lemma load_fat_directory_view it l s r s' :
  owns l s -> view s -> fat16_load_fat_directory it s = (r, s') ->
  looks s s' /\
  ((r = Ok None /\ owns l s') \/
   (exists ptr d, r = Ok (Some (ptr, d)) /\ loaded it l s' ptr d)).
Proof using G.
  intros Ho V E. unfold fat16_load_fat_directory in E.
  apply attempt_inv in E as [([ptr d] & E & ->)|(e & E & ->)]; rewrite io_fail_if in E; (destruct (negb _); [try done|]).
  - apply (alloc_scope A h0 _ _ _ l) in E as [[? _]|(dir & s1 & s2 & _ & L1 & Ho1 & E & ->)]; [done| |done|unfold sizeof_fat_directory; lia].
    apply (load_contents_view _ _ l) in E as [L2 Hd]; [|done|by eapply view_looks]. split; [by etrans|]. right. by exists ptr, d.
  - injection E as _ ->. split; [done|]. by left.
  - apply (alloc_scope A h0 _ _ _ l) in E as [[_ ->]|(dir & s1 & s2 & _ & L1 & Ho1 & E & ->)]; [split; [done|by left]| |done|unfold sizeof_fat_directory; lia].
    apply (load_contents_view _ _ l) in E as [L2 Hd]; [|done|by eapply view_looks].
    split; [etrans; [exact L1|]; etrans; [exact L2|apply free_looks]|]. left. split; [done|]. by apply free_owns.
Qed.

(** ** Items *)

(** The item in memory [x] is for the directory entry [it]. *)
Definition item_for (it : fat_directory_item) (x : fat_item) : Prop :=
  match body x with
  | FAT_ITEM_TYPE_FILE _ it' => it' = it /\ has_flag (attribute it) FAT_FILE_SUBDIRECTORY = false
  | FAT_ITEM_TYPE_DIRECTORY _ d => has_flag (attribute it) FAT_FILE_SUBDIRECTORY = true /\ shows d /\
      first_cluster d = low_16_bits_first_cluster it /\ first_cluster d <> 0
  end.

Lemma new_item_view it l s r s' :
  owns l s -> view s -> fat16_new_fat_item_for_directory_item it s = (r, s') ->
  looks s s' /\
  ((r = Ok None /\ owns l s') \/
   (exists x, r = Ok (Some x) /\ owns (item_cells x ++ l) s' /\ item_for it x)).
Proof using G.
  intros Ho V E. unfold fat16_new_fat_item_for_directory_item in E.
  apply io_bind_inv in E as [(e & E & ->)|(a & s1 & E & E1)];
    (apply (zalloc_owns A h0 l) in E as (a' & [=] & L1 & Ha); [..|done|unfold sizeof_fat_item; lia]).
  subst a'. destruct Ha as [[-> ->]|[Ha Ho1]]; [injection E1 as <- <-; split; [done|by left]|].
  rewrite (proj2 (Z.eqb_neq a 0)) in E1 by done. pose proof (view_looks _ _ L1 V) as V1.
  assert (Hfail : forall s2, looks s1 s2 -> owns (a :: l) s2 -> looks s (free a s2) /\ owns l (free a s2)).
  { intros s2 L2 Ho2. split; [|by apply free_owns]. etrans; [exact L1|]. etrans; [exact L2|apply free_looks]. }
  destruct (has_flag (attribute it) FAT_FILE_SUBDIRECTORY) eqn:Hf.
  - apply io_bind_inv in E1 as [(e & E1 & ->)|(o & s2 & E1 & E2)];
      apply (load_fat_directory_view _ (a :: l)) in E1 as [L2 Hd]; try done;
      destruct Hd as [[Ho2 Hn]|(ptr & d & Hd & Hl)]; try done.
    + injection Ho2 as ->. rewrite io_modify in E2. injection E2 as <- <-. destruct (Hfail s2 L2 Hn). split; [done|by left].
    + injection Hd as ->. injection E2 as <- <-. split; [by etrans|]. right. eexists. split; [done|]. destruct Hl as [Ho2 Hs Hc Hz].
      unfold item_cells, item_for. simpl. split; [|done]. eapply owns_perm; [|exact Ho2]. simpl.
      destruct (item_ptr d =? 0); simpl; solve_Permutation.
  - unfold fat_16_clone_directory_item, sizeof_fat_directory_item in E1. change (32 <? 32) with false in E1. cbv iota in E1.
    apply io_bind_inv in E1 as [(e & E1 & ->)|(b & s2 & E1 & E2)];
      (apply (zalloc_owns A h0 (a :: l)) in E1 as (b' & [=] & L2 & Hb); [..|done|lia]).
    subst b'. destruct Hb as [[-> ->]|[Hb Ho2]].
    + change (0 =? 0) with true in E2. cbv iota in E2. rewrite io_modify in E2. injection E2 as <- <-. destruct (Hfail s1 ltac:(done) Ho1). split; [done|by left].
    + rewrite (proj2 (Z.eqb_neq b 0)) in E2 by done. injection E2 as <- <-. split; [by etrans|]. right. eexists. split; [done|].
      unfold item_cells, item_for. simpl. split; [|done]. eapply owns_perm; [|exact Ho2]. apply perm_swap.
Qed.

(** ** Searching *)

(** The first entry of directory [c] with the name, and its index. *)
Definition finds : Z -> list Z -> nat -> fat_directory_item -> Prop := finds_in (slot_exists f p) (slot_item f p).

Definition missing (c : Z) (name : list Z) : Prop :=
  exists l, dir_listing f p c l /\ Forall (fun it => ~ named name it) l.

Lemma listing_lookup c l i it : dir_listing f p c l -> l !! i = Some it -> it = slot_item f p c (Z.of_nat i).
Proof using.
  intros [_ ->] Hi. rewrite list_lookup_fmap in Hi. destruct (seqZ _ _ !! i) as [k|] eqn:E; [|done].
  apply lookup_seqZ in E as [-> _]. injection Hi as <-. by rewrite Z.add_0_l.
Qed.

Lemma listing_finds c name l i it :
  dir_listing f p c l -> l !! i = Some it -> named name it -> (forall j y, (j < i)%nat -> l !! j = Some y -> ~ named name y) ->
  finds c name i it.
Proof using.
  intros L Hi Hn Hb. pose proof (lookup_lt_Some _ _ _ Hi) as Hlt. split; [by eapply listing_lookup|]. split; [done|].
  intros j Hj. destruct (ds_used _ _ _ _ (proj1 L) j) as [He Hu]; [lia|]. split; [done|]. split; [done|]. intros Hji.
  destruct (lookup_lt_is_Some_2 l (Z.to_nat j)) as [y Hy]; [lia|]. pose proof (listing_lookup _ _ _ _ L Hy) as Ey.
  rewrite Z2Nat.id in Ey by lia. rewrite <- Ey. apply (Hb (Z.to_nat j)); [lia|done].
Qed.

Lemma missing_finds c name i it : missing c name -> ~ finds c name i it.
Proof using.
  intros (l & L & Hl) (-> & Hn & Hj). destruct (decide (i < length l)%nat) as [Hi|Hi].
  - destruct (lookup_lt_is_Some_2 l i Hi) as [y Hy]. rewrite (listing_lookup _ _ _ _ L Hy) in Hy.
    rewrite Forall_lookup in Hl. by apply (Hl _ _ Hy).
  - destruct (Hj (Z.of_nat (length l))) as (He & Hu & _); [lia|].
    destruct (ds_end _ _ _ _ (proj1 L)) as [Hend|[_ Hz]]; [by eapply slots_end_exists|done].
Qed.

(** What a search that returns [x] or an error has found. *)
Definition search_post (c : Z) (name : list Z) (l : list Z) (s : fs D H) (r : result fat_item) (s' : fs D H) : Prop :=
  looks s s' /\
  match r with
  | Ok x => owns (item_cells x ++ l) s' /\
      exists i it, finds c name i it /\ item_for it x /\ entry_pos x = i32 (slot_pos f p c (Z.of_nat i))
  | Err e => owns l s' /\ e < 0 /\ (e = - ENOENT -> table_good s -> missing c name)
  end.

Lemma find_loop_view d name l items : forall done s r s',
  shows d -> view s -> owns l s -> take (Z.to_nat (total d)) (item d) = done ++ items ->
  Forall (fun it => ~ named name it) done ->
  find_loop d name (Z.of_nat (length done)) items s = (r, s') -> search_post (first_cluster d) name l s r s'.
Proof using G.
  induction items as [|it items IH]; intros done s r s' Sd V Ho Hit Hd E; cbn [find_loop] in E.
  { injection E as <- <-. split; [done|]. split; [done|]. split; [unfold ENOENT; lia|]. intros _ _.
    exists done. rewrite app_nil_r in Hit. split; [rewrite <- Hit; apply Sd|done]. }
  assert (Hu : first_char it <> 0).
  { destruct (sh_listing _ Sd) as [[_ Hu _] Hl]. rewrite Hit in Hl, Hu. rewrite length_app in *. simpl in *.
    assert (Hlk : (done ++ it :: items) !! length done = Some it) by (by rewrite lookup_app_r, Nat.sub_diag by lia).
    rewrite Hl, list_lookup_fmap, lookup_seqZ_lt in Hlk by lia. injection Hlk as <-.
    apply (Hu (0 + Z.of_nat (length done))). lia. }
  rewrite (proj2 (Z.eqb_neq (first_char it) 0)) in E by done.
  assert (Hskip : ~ named name it -> find_loop d name (Z.of_nat (length done) + 1) items s = (r, s') ->
    search_post (first_cluster d) name l s r s').
  { intros Hn E'. eapply (IH (done ++ [it])); [done..| | |].
    - by rewrite <- app_assoc.
    - by apply Forall_app_2; [|constructor].
    - rewrite length_app. by replace (Z.of_nat (length done + length [it])) with (Z.of_nat (length done) + 1) by (simpl; lia). }
  destruct (skipped it) eqn:Hs; [apply Hskip; [rewrite named_spec; intros [? _]; congruence|done]|].
  destruct (name_matches it name) eqn:Hm; [|apply Hskip; [rewrite named_spec; intros [_ ?]; congruence|done]]. clear Hskip IH.
  assert (Hf : finds (first_cluster d) name (length done) it).
  { pose proof (sh_listing _ Sd) as L. rewrite Hit in L. eapply listing_finds; [exact L|by rewrite lookup_app_r, Nat.sub_diag by lia| |].
    - by apply named_spec.
    - intros j y Hlt Hj. rewrite lookup_app_l in Hj by done. by eapply Forall_lookup_1 in Hd. }
  assert (Herr : forall e s2, looks s s2 -> owns l s2 -> e < 0 -> (table_good s -> e = - EIO) ->
    search_post (first_cluster d) name l s (Err e) s2).
  { intros e s2 L Ho2 He Hg. split; [done|]. split; [done|]. split; [done|]. intros -> T. by apply Hg in T. }
  apply io_bind_inv in E as [(e & E & ->)|(v & s1 & E & E1)];
    (apply item_position_view in E as [R Hr]; [|done|done|lia]); pose proof (owns_reads _ _ _ _ _ R Ho) as Ho1;
    pose proof (reads_looks _ _ R) as L1.
  { destruct Hr. by apply Herr. }
  subst v. apply io_bind_inv in E1 as [(e & E1 & ->)|(o & s2 & E1 & E2)];
    apply (new_item_view _ l) in E1 as [L2 Hn]; try done; try (by eapply view_reads);
    destruct Hn as [[Hn Ho2]|(x & Hn & Ho2 & Hx)]; try done; injection Hn as ->.
  - injection E2 as <- <-. apply Herr; [by etrans|done|unfold EIO; lia|done].
  - injection E2 as <- <-. split; [by etrans|]. split; [done|]. exists (length done), it. done.
Qed.

Lemma find_item_view d name l s r s' :
  shows d -> view s -> owns l s -> fat16_find_item_in_directory d name s = (r, s') ->
  search_post (first_cluster d) name l s r s'.
Proof using G. intros Sd V Ho E. by eapply (find_loop_view _ _ _ _ []). Qed.

(** ** Paths *)

(** The path leads from directory [c] to an entry. *)
Definition resolves : Z -> list Z -> list (list Z) -> fat_directory_item -> Z -> Prop :=
  resolves_in (slot_exists f p) (slot_item f p) (slot_pos f p).

Definition walk_post (c : Z) (name : list Z) (rest : list (list Z)) (l : list Z) (s : fs D H) (r : result fat_item)
    (s' : fs D H) : Prop :=
  looks s s' /\
  match r with
  | Ok x => owns (item_cells x ++ l) s' /\ exists it, resolves c name rest it (entry_pos x) /\ item_for it x
  | Err e => owns l s' /\ e < 0 /\ (e = - ENOENT -> table_good s -> forall it pos, ~ resolves c name rest it pos)
  end.

Lemma looks_table_good s s' : looks s s' -> table_good s -> table_good s'.
Proof using. apply (reads_table_good s (with_heap (heap s) s')). Qed.

Lemma entry_walk_view parts : forall c name i it x l s r s',
  view s -> owns (item_cells x ++ l) s -> finds c name i it -> item_for it x ->
  entry_pos x = i32 (slot_pos f p c (Z.of_nat i)) ->
  entry_walk x parts s = (r, s') -> walk_post c name parts l s r s'.
Proof using G.
  induction parts as [|part parts IH]; intros c name i it x l s r s' V Ho Hf Hx Hp E; cbn [entry_walk] in E.
  { injection E as <- <-. split; [done|]. split; [done|]. exists it. rewrite Hp. split; [by constructor|done]. }
  unfold item_for in Hx. destruct (body x) as [ptr d|ptr it'] eqn:Hb; cycle 1.
  { rewrite io_modify in E. injection E as <- <-. split; [apply item_free_looks|]. split; [by apply item_free_owns|].
    split; [unfold EIO; lia|done]. }
  destruct Hx as (Hdir & Sd & Hc & Hz).
  assert (Hstep : forall it' pos, resolves c name (part :: parts) it' pos -> resolves (first_cluster d) part parts it' pos).
  { intros it' pos Hr. inversion Hr; subst. destruct (finds_in_unique _ _ _ _ _ _ _ _ Hf ltac:(eassumption)) as [_ ->]. by rewrite Hc. }
  apply io_bind_inv in E as [(e & E & ->)|(y & s1 & E & E1)]; apply finally_inv in E as (s2 & E & ->);
    apply (find_item_view _ _ (item_cells x ++ l)) in E as [L Hs]; try done.
  - destruct Hs as (Ho2 & He & Hm). split; [etrans; [exact L|apply item_free_looks]|]. split; [by apply item_free_owns|].
    split; [done|]. intros Hne T it' pos Hr%Hstep. specialize (Hm Hne T). inversion Hr; subst; by eapply missing_finds.
  - destruct Hs as (Ho2 & i' & it' & Hf' & Hx' & Hp').
    assert (L2 : looks s (fat16_fat_item_free x s2)) by (etrans; [exact L|apply item_free_looks]).
    eapply (IH _ _ _ _ _ l) in E1 as [L3 Hw]; [|by eapply view_looks| |done..].
    2:{ apply item_free_owns. eapply owns_perm; [|exact Ho2]. solve_Permutation. }
    split; [by etrans|]. destruct r as [z|e].
    + destruct Hw as (Hoz & it2 & Hr2 & Hz2). split; [done|]. exists it2. split; [|done]. rewrite Hc in *.
      by eapply resolves_step.
    + destruct Hw as (Hoz & He & Hw). split; [done|]. split; [done|]. intros Hne T it2 pos Hr%Hstep.
      eapply Hw; [done|by eapply looks_table_good|exact Hr].
Qed.

(** Following a path from the root. *)
Lemma get_directory_entry_view name parts l s r s' :
  shows (root_directory p) -> view s -> owns l s ->
  fat16_get_directory_entry name parts s = (r, s') -> walk_post 0 name parts l s r s'.
Proof using G.
  intros Sr V Ho E. unfold fat16_get_directory_entry in E. rewrite io_gets, (sv_root _ _ (vw_volume _ V)) in E.
  apply io_bind_inv in E as [(e & E & ->)|(x & s1 & E & E1)];
    apply (find_item_view _ _ l) in E as [L Hs]; try done; rewrite (geo_first _ G) in Hs.
  - destruct Hs as (Ho2 & He & Hm). split; [done|]. split; [done|]. split; [done|]. intros Hne T it pos Hr.
    specialize (Hm Hne T). inversion Hr; subst; by eapply missing_finds.
  - destruct Hs as (Ho2 & i & it & Hf & Hx & Hp). eapply (entry_walk_view _ _ _ _ _ _ l) in E1 as [L1 Hw]; [|by eapply view_looks|done..].
    split; [by etrans|]. destruct r as [y|e]; [done|]. destruct Hw as (Hy & He & Hw). split; [done|]. split; [done|].
    intros Hne T. apply Hw; [done|]. by eapply looks_table_good.
Qed.
End loading.
End view.
End scan.
