(* ===== verification/FatOpen.v ===== *)
(** * FAT16: opening and closing files

    Which computations keep the heap and the list of open files, the balance of [fat16_open] and
    [fat16_close], and the properties of lookup. *)

From stdpp Require Import base numbers list gmap.
From Stdlib Require Import ZArith Lia.
From S2P Require Import Prelude Alloc Heap Memory Effects Disk StrLib PathParser Fat FatWrite FatData FatFile FatProps.
From S2P Require Import FatDir FatDirScan.

#[local] Set Default Goal Selector "!".

(** ** Computations that keep a part of the state *)

Section keeps.
Context {S T : Type} (g : S -> T).

Definition keeps {A} (m : io S A) : Prop := forall s r s', m s = (r, s') -> g s' = g s.

Lemma keeps_bind {A B} (m : io S A) (k : A -> io S B) : keeps m -> (forall a, keeps (k a)) -> keeps (x ← m; k x).
Proof.
  intros Hm Hk s r s' [(e & E & _)|(x & s1 & E & E1)]%io_bind_inv; [by eapply Hm|].
  rewrite (Hk _ _ _ _ E1). by eapply Hm.
Qed.

Lemma keeps_ret {A} (a : A) : keeps (mret a).
Proof. by intros s r s' [= _ <-]. Qed.

Lemma keeps_gets {A} (h : S -> A) : keeps (gets h).
Proof. by intros s r s' [= _ <-]. Qed.

Lemma keeps_fail {A} e : keeps (fail (A := A) e).
Proof. by intros s r s' [= _ <-]. Qed.

Lemma keeps_diverge {A} : keeps (diverge (A := A)).
Proof. intros s r s' E. by injection E as _ <-. Qed.

Lemma keeps_fail_if b e : keeps (fail_if b e).
Proof. intros s r s' E. by apply fail_if_state in E as ->. Qed.

Lemma keeps_modify h : (forall s, g (h s) = g s) -> keeps (modify h).
Proof. intros Hh s r s' [= _ <-]. apply Hh. Qed.

Lemma keeps_finally {A} (m : io S A) c : keeps m -> (forall s, g (c s) = g s) -> keeps (finally m c).
Proof. intros Hm Hc s r s' (s1 & E & ->)%finally_inv. rewrite Hc. by eapply Hm. Qed.
End keeps.

Create HintDb keeps.
#[export] Hint Resolve keeps_bind keeps_ret keeps_gets keeps_fail keeps_diverge keeps_fail_if : keeps.

(** Goes through a computation: its parts keep [g] by the hints. *)
Ltac keeps_step :=
  match goal with
  | |- forall _, _ => intro
  | |- keeps _ (match ?x with _ => _ end) => destruct x
  | |- keeps _ (let _ := _ in _) => cbv zeta
  | |- keeps _ (mbind _ _) => apply keeps_bind
  | |- keeps _ _ => solve [eauto with keeps]
  end.
Ltac keeps_solve := repeat keeps_step.

(** The heap and the list of open files. *)
Definition held {D H} (s : fs D H) : H * list Z := (heap s, descriptors (priv s)).

Section frame.
Context {D H : Type} `{BlockDevice D} `{Allocator H}.
Local Abbreviation keeps := (keeps (@held D H)).

Lemma stream_read_at_keeps get set w n :
  (forall x p, descriptors (set x p) = descriptors p) -> keeps (stream_read_at get set w n).
Proof.
  intros Hd s r s' E. unfold stream_read_at in E. destruct (diskstreamer_seek _ _) as [res q].
  destruct (res <? 0); [injection E as <- <-; unfold held; simpl; by rewrite Hd|].
  destruct (diskstreamer_read _ _ _) as [[[res' out] q'] d]. destruct (res' <? 0); injection E as <- <-; unfold held; simpl; by rewrite !Hd.
Qed.

Lemma get_fat_entry_keeps c : keeps (fat16_get_fat_entry c).
Proof. unfold fat16_get_fat_entry. keeps_solve. by apply stream_read_at_keeps. Qed.

Lemma read_block_keeps lba : keeps (read_block lba).
Proof.
  intros s r s' E. unfold read_block in E. destruct (disk_read_block (dev s) lba 1) as [[res b] d].
  destruct (res <? 0); injection E as <- <-; done.
Qed.

Lemma write_capacity_keeps : keeps write_capacity.
Proof.
  intros s r s' E. unfold write_capacity in E. destruct (disk_write_capacity (dev s)) as [[res b] d].
  destruct (res <? 0); injection E as <- <-; done.
Qed.

Lemma write_at_keeps w data : keeps (fat16_write_at w data).
Proof.
  intros s r s' E. unfold fat16_write_at in E. destruct (diskstreamer_seek _ w) as [res q].
  destruct (res =? 0).
  - destruct (diskstreamer_write _ _ _ _) as [[res' q'] d]. destruct (res' <? 0); [|by injection E as <- <-].
    destruct (negb _ || negb _); by injection E as <- <-.
  - destruct (res <? 0); [|by injection E as <- <-]. destruct (negb _ || negb _); by injection E as <- <-.
Qed.

Lemma flush_keeps : keeps fat16_flush.
Proof.
  intros s r s' E. unfold fat16_flush in E. destruct (disk_flush (dev s)) as [res d].
  destruct (res <? 0); by injection E as <- <-.
Qed.

#[local] Hint Resolve get_fat_entry_keeps read_block_keeps write_capacity_keeps write_at_keeps flush_keeps : keeps.

Lemma compare_tables_keeps n : forall i, keeps (compare_tables n i).
Proof. induction n as [|n IH]; intros i; simpl; keeps_solve. Qed.

Lemma prepare_write_keeps : keeps fat16_prepare_write.
Proof.
  unfold fat16_prepare_write. pose proof compare_tables_keeps. keeps_solve; by apply keeps_modify.
Qed.

Lemma publish_descriptors pos it p : descriptors (fat16_publish pos it p) = descriptors p.
Proof. unfold fat16_publish, publish_root. simpl. by destruct (_ && _ && _). Qed.

Lemma commit_item_keeps pos it : keeps (fat16_commit_item pos it).
Proof.
  unfold fat16_commit_item. keeps_solve. apply keeps_modify. intros s. unfold held, with_priv. cbn [heap priv].
  by rewrite publish_descriptors.
Qed.

Lemma set_entries_keeps copy l v : keeps (set_entries copy l v).
Proof. induction l as [|c l IH]; simpl; unfold fat16_set_entry; keeps_solve. Qed.

Lemma collect_loop_keeps fuel cap : forall c chain seen, keeps (collect_loop fuel cap c chain seen).
Proof. induction fuel as [|fuel IH]; intros c chain seen; simpl; keeps_solve. Qed.
End frame.

(** ** The name of a new entry *)

Definition upper (c : Z) : Z := if (97 <=? c) && (c <=? 122) then c - 97 + 65 else c.

Lemma create_name_wf name : forall base ext dot b e,
  create_name name base ext dot = Some (b, e) -> Forall is_byte name ->
  (length base <= 8)%nat /\ Forall is_byte base -> (length ext <= 3)%nat /\ Forall is_byte ext ->
  ((length b <= 8)%nat /\ Forall is_byte b) /\ (length e <= 3)%nat /\ Forall is_byte e.
Proof.
  induction name as [|c name IH]; intros base ext dot b e E Hn Hb He; simpl in E.
  { by injection E as <- <-. }
  apply Forall_cons in Hn as [Hc Hn]. destruct (c =? 0); [by injection E as <- <-|].
  destruct (c =? 46); [by eapply IH|].
  assert (Hu : is_byte (if (97 <=? c) && (c <=? 122) then c - 97 + 65 else c)).
  { unfold is_byte in *. case_Zb; simpl; lia. }
  destruct (_ || _) eqn:Hlim; [done|]. rewrite orb_false_iff, !andb_false_iff, !Z.leb_gt in Hlim. destruct Hlim as [H1 H2].
  destruct dot; eapply IH; try done; rewrite length_app, Forall_app, Forall_singleton; simpl; destruct Hb, He;
    (split; [|done]); destruct H1, H2; (done || lia).
Qed.

Lemma create_entry_wf base ext :
  (length base <= 8)%nat /\ Forall is_byte base -> (length ext <= 3)%nat /\ Forall is_byte ext -> item_wf (create_entry base ext).
Proof.
  intros [Hbl Hb] [Hel He]. assert (Hp : forall n l, (length l <= n)%nat -> Forall is_byte l ->
    length (pad_spaces n l) = n /\ Forall is_byte (pad_spaces n l)).
  { intros n l Hn Hl. unfold pad_spaces. rewrite length_app, length_replicate. split; [lia|].
    apply Forall_app. split; [done|]. apply Forall_replicate. unfold is_byte. lia. }
  constructor; [by apply Hp|by apply Hp|vm_compute; repeat split; congruence|simpl|simpl; lia].
  rewrite !Forall_cons. repeat split; (lia || constructor).
Qed.

(** A character of a short name. *)
Definition name_char (c : Z) : Prop := 32 < c < 127 /\ c <> 46.

(** A name of the form base or base.ext with at most 8 and 3 characters. *)
Inductive short_name : list Z -> list Z -> list Z -> Prop :=
  | short_base b : b <> [] -> (length b <= 8)%nat -> Forall name_char b -> short_name b b []
  | short_ext b e : b <> [] -> e <> [] -> (length b <= 8)%nat -> (length e <= 3)%nat ->
    Forall name_char b -> Forall name_char e -> short_name (b ++ 46 :: e) b e.

Lemma create_name_base b : forall acc ext rest, Forall name_char b -> (length acc + length b <= 8)%nat ->
  create_name (b ++ rest) acc ext false = create_name rest (acc ++ map upper b) ext false.
Proof.
  induction b as [|c b IH]; intros acc ext rest Hb Hl; simpl; [by rewrite app_nil_r|].
  apply Forall_cons in Hb as [[Hc H46] Hb]. simpl in Hl.
  rewrite (proj2 (Z.eqb_neq c 0)), (proj2 (Z.eqb_neq c 46)) by lia. rewrite (proj2 (Z.leb_gt _ _)) by lia. simpl.
  rewrite IH, <- app_assoc; [done|done|]. rewrite length_app. simpl. lia.
Qed.

Lemma create_name_ext e : forall base acc, Forall name_char e -> (length acc + length e <= 3)%nat ->
  create_name e base acc true = Some (base, acc ++ map upper e).
Proof.
  induction e as [|c e IH]; intros base acc He Hl; simpl; [by rewrite app_nil_r|].
  apply Forall_cons in He as [[Hc H46] He]. simpl in Hl.
  rewrite (proj2 (Z.eqb_neq c 0)), (proj2 (Z.eqb_neq c 46)) by lia. rewrite (proj2 (Z.leb_gt _ _)) by lia. simpl.
  rewrite IH, <- app_assoc; [done|done|]. rewrite length_app. simpl. lia.
Qed.

Lemma create_name_short name b e : short_name name b e ->
  create_name name [] [] false = Some (map upper b, map upper e).
Proof.
  intros [b' Hne Hl Hb|b' e' Hne He Hlb Hle Hb Hc].
  - rewrite <- (app_nil_r b') at 1. by rewrite create_name_base.
  - rewrite create_name_base by done. simpl. by rewrite create_name_ext.
Qed.

Lemma upper_char c : name_char c -> upper c <> 0 /\ upper c <> 32 /\ tolower (upper c) = tolower c.
Proof.
  intros [Hc _]. unfold upper. destruct (Z.leb_spec 97 c), (Z.leb_spec c 122); simpl; unfold tolower; case_Zb; simpl; lia.
Qed.

Lemma proper_loop_pad b : forall i size k, Forall name_char b -> 0 <= i -> i + Z.of_nat (length b) <= size ->
  proper_loop i size (map upper b ++ replicate k 32) = map upper b.
Proof.
  induction b as [|c b IH]; intros i size k Hb Hi Hl; simpl; [by destruct k|]. apply Forall_cons in Hb as [Hc Hb].
  destruct (upper_char c Hc) as (H0 & H32 & _). rewrite (proj2 (Z.eqb_neq _ 0)), (proj2 (Z.eqb_neq _ 32)) by done. simpl.
  f_equal. simpl in Hl. destruct (Z.leb_spec (size - 1) i) as [Hs|Hs]; [|apply IH; [done|lia|lia]].
  destruct b; [done|]. simpl in Hl. lia.
Qed.

Lemma istrncmp_upper n s : istrncmp_loop n (map upper s) s = 0 \/ ~ Forall (fun c => name_char c \/ c = 46) s.
Proof.
  revert s. induction n as [|n IH]; intros s; simpl; [by left|]. destruct s as [|c s]; simpl; [by left|].
  destruct (decide (Forall (fun c => name_char c \/ c = 46) (c :: s))) as [Hs|]; [|by right]. left.
  apply Forall_cons in Hs as [Hc Hs].
  assert (Hl : tolower (upper c) = tolower c) by (destruct Hc as [Hc| ->]; [by apply upper_char|done]).
  rewrite Hl, Z.eqb_refl, andb_false_r. destruct (_ =? 0); [done|]. by destruct (IH s).
Qed.

(** The entry made for a short name is found under this name. *)
Lemma created_name_matches name b e : short_name name b e ->
  name_matches (create_entry (map upper b) (map upper e)) name = true.
Proof.
  intros Hn. assert (Hfull : fat16_get_full_relative_filename (create_entry (map upper b) (map upper e)) = map upper name).
  { unfold fat16_get_full_relative_filename, fat16_to_proper_string, first_ext, create_entry, pad_spaces, fat16_modified.
    cbn [filename ext]. destruct Hn as [b' Hne Hl Hb|b' e' Hne He Hlb Hle Hb Hc]; rewrite proper_loop_pad by (done || lia).
    - simpl. by rewrite app_nil_r.
    - rewrite proper_loop_pad by (done || lia). destruct e' as [|c e']; [done|]. apply Forall_cons in Hc as [Hc _].
      destruct (upper_char c Hc) as (H0 & H32 & _). unfold byte_at. simpl.
      rewrite (proj2 (Z.eqb_neq _ 0)), (proj2 (Z.eqb_neq _ 32)) by done. simpl. by rewrite map_app. }
  unfold name_matches. rewrite Hfull. unfold istrncmp. apply Z.eqb_eq.
  destruct (istrncmp_upper (Z.to_nat RORTHOX_MAX_PATH) name) as [|Hbad]; [done|]. destruct Hbad.
  destruct Hn as [b' _ _ Hb|b' e' _ _ _ _ Hb Hc].
  - eapply Forall_impl; [exact Hb|]. by left.
  - apply Forall_app. split; [|constructor; [by right|]]; (eapply Forall_impl; [eassumption|]); by left.
Qed.

(** ** Balance *)

Section balance.
Context {D H : Type} `{BlockDeviceLaws D} `{AllocatorLaws H}.
Implicit Types s : fs D H.
Context (A : gmap Z Z) (h0 : H).
Local Abbreviation owns := (owns A h0).

(** [m] may allocate: the cells of its value are added to what is owned, nothing is after an error. *)
Definition yields {B} (cells : B -> list Z) (m : io (fs D H) B) (s : fs D H) : Prop :=
  forall l r s', owns l s -> m s = (r, s') ->
    descriptors (priv s') = descriptors (priv s) /\
    match r with Ok b => owns (cells b ++ l) s' | Err _ => owns l s' end.

Lemma keeps_yields {B} (m : io (fs D H) B) s : keeps held m -> yields (fun _ => []) m s.
Proof.
  intros Hm l r s' Ho E. apply Hm in E. injection E as Eh Ed. split; [done|]. unfold FatDirScan.owns. by destruct r; rewrite Eh.
Qed.

Lemma yields_bind {B C} cb cc (m : io (fs D H) B) (k : B -> io (fs D H) C) s :
  yields cb m s ->
  (forall b s1 l r s', m s = (Ok b, s1) -> owns (cb b ++ l) s1 -> k b s1 = (r, s') ->
     descriptors (priv s') = descriptors (priv s1) /\ match r with Ok c => owns (cc c ++ l) s' | Err _ => owns l s' end) ->
  yields cc (x ← m; k x) s.
Proof.
  intros Hm Hk l r s' Ho [(e & E & ->)|(b & s1 & E & E1)]%io_bind_inv.
  - by apply (Hm l) in E.
  - pose proof E as E'. apply (Hm l) in E' as [Ed Ho1]; [|done]. apply (Hk _ _ l) in E1 as [Ed1 Ho2]; [|done|done].
    split; [congruence|done].
Qed.

(** A pointer that may be null. *)
Definition cell (a : Z) : list Z := if a =? 0 then [] else [a].

Lemma free_cell a l s : owns (cell a ++ l) s -> owns l (free a s).
Proof.
  unfold cell. destruct (Z.eqb_spec a 0) as [->|]; simpl; [|apply free_owns]. intros Ho.
  unfold FatDirScan.owns, free, with_heap. simpl. by rewrite (proj2 (owned_null _ _ _ _ _ Ho)).
Qed.

Lemma collect_chain_yields it s : max_writable (priv s) < 2 ^ 30 ->
  yields (fun x => cell (fst x)) (fat16_collect_chain it) s.
Proof.
  intros Hm l r s' Ho E. unfold fat16_collect_chain in E. rewrite io_gets, !io_fail_if in E.
  destruct (negb _); [by injection E as <- <-|]. destruct (INT_MAX <? _); [by injection E as <- <-|].
  set (cap := max_writable (priv s) - 1) in *.
  assert (Hstep : forall chain s1 r s', owns (cell chain ++ l) s1 -> descriptors (priv s1) = descriptors (priv s) ->
    on_error (l ← collect_loop (S (Z.to_nat cap)) cap (low_16_bits_first_cluster it) []
             (replicate (Z.to_nat ((max_writable (priv s) + 8) / 8)) 0);
       _ ← fail_if (Z.of_nat (length l) <? clusters_needed (filesize it) (cluster_bytes (priv s))) EIO;
       mret (chain, l)) (free chain) s1 = (r, s') ->
    descriptors (priv s') = descriptors (priv s) /\
    match r with Ok b => owns (cell b.1 ++ l) s' | Err _ => owns l s' end).
  { clear E r s'. intros chain s1 r s' Ho1 Hd1 E. apply on_error_inv in E as (s2 & E & ->).
    assert (Hk : held s2 = held s1).
    { assert (Hk : keeps held (l ← collect_loop (S (Z.to_nat cap)) cap (low_16_bits_first_cluster it) []
             (replicate (Z.to_nat ((max_writable (priv s) + 8) / 8)) 0);
         _ ← fail_if (Z.of_nat (length l) <? clusters_needed (filesize it) (cluster_bytes (priv s))) EIO;
         mret (chain, l) : io (fs D H) (Z * list Z))); [|by eapply Hk].
      pose proof (collect_loop_keeps (D := D) (H := H)). keeps_solve. }
    injection Hk as Eh Ed.
    assert (Ho2 : owns (cell chain ++ l) s2) by (unfold FatDirScan.owns; by rewrite Eh).
    destruct r as [[b l']|e].
    - split; [congruence|]. enough (b = chain) as -> by done. io_ok E. congruence.
    - split; [simpl; congruence|]. by apply free_cell. }
  destruct (Z.ltb_spec 0 cap) as [Hc|Hc].
  - apply io_bind_inv in E as [(e & E & ->)|(c & s1 & E & E1)].
    + apply io_bind_inv in E as [(e' & E & _)|(c & s1 & E & E1)];
        (apply (zalloc_owns A h0 l) in E as (a & [=] & L & Ha); [..|done|lia]).
      subst a. rewrite io_fail_if in E1. destruct Ha as [[-> ->]|[Ha Ho1]]; [by injection E1 as _ <-|].
      rewrite (proj2 (Z.eqb_neq c 0)) in E1 by done. done.
    + apply io_bind_inv in E as [(e' & E & [=])|(c' & s2 & E & E2)].
      apply (zalloc_owns A h0 l) in E as (a & [=] & L & Ha); [..|done|lia]. subst a.
      rewrite io_fail_if in E2. destruct Ha as [[-> ->]|[Ha Ho1]]; [done|].
      rewrite (proj2 (Z.eqb_neq c' 0)) in E2 by done. injection E2 as <- <-. eapply Hstep; [..|exact E1].
      * unfold cell. by rewrite (proj2 (Z.eqb_neq c' 0)).
      * apply (sv_descriptors _ _ (rd_volume _ _ L)).
  - rewrite io_mret in E. by eapply (Hstep 0).
Qed.

(** The chain is collected, used and released. *)
Lemma chain_scope_yields {B} it (m : list Z -> io (fs D H) B) s :
  max_writable (priv s) < 2 ^ 30 -> (forall l, keeps held (m l)) ->
  yields (fun _ => []) ('(chain, l) ← fat16_collect_chain it; finally (m l) (free chain)) s.
Proof.
  intros Hw Hm. eapply yields_bind; [by apply collect_chain_yields|].
  intros [chain l'] s1 l r s' _ Ho E. apply finally_inv in E as (s2 & E & ->). apply Hm in E. injection E as Eh Ed.
  split; [done|]. assert (owns l (free chain s2)); [|by destruct r].
  apply free_cell. unfold FatDirScan.owns in *. by rewrite Eh.
Qed.

Lemma truncate_yields it pos s : max_writable (priv s) < 2 ^ 30 -> yields (fun _ => []) (fat16_truncate it pos) s.
Proof.
  intros Hw. apply (chain_scope_yields _ (fun l => _) _ Hw). intros l.
  pose proof (commit_item_keeps (D := D) (H := H)). pose proof (set_entries_keeps (D := D) (H := H)).
  pose proof (flush_keeps (D := D) (H := H)). keeps_solve.
Qed.

Lemma check_file_chain_yields it s : max_writable (priv s) < 2 ^ 30 -> yields (fun _ => []) (fat16_check_file_chain it) s.
Proof.
  intros Hw l r s' Ho E. unfold fat16_check_file_chain in E. rewrite io_gets in E.
  eapply (chain_scope_yields it (fun l => _) s Hw); [|done|exact E]. intros. apply keeps_fail_if.
Qed.

(** ** Creating an entry *)

Definition parent_cells (parent : option fat_item) : list Z :=
  match parent with Some x => item_cells x | None => [] end.

Lemma free_parent_owns parent l s : owns (parent_cells parent ++ l) s -> owns l (free_parent parent s).
Proof. destruct parent; simpl; [apply item_free_owns|done]. Qed.

Lemma free_parent_looks parent s : looks s (free_parent parent s).
Proof. destruct parent; simpl; [apply item_free_looks|done]. Qed.

Lemma looks_descriptors s s' : looks s s' -> descriptors (priv s') = descriptors (priv s).
Proof. intros [_ _ V _]. apply (sv_descriptors _ _ V). Qed.

(** The path leads from directory [c] to the directory [c'] in which its last part is to be looked up. *)
Inductive leads (f : Z -> Z) (p : fat_private) : Z -> list Z -> list (list Z) -> Z -> list Z -> Prop :=
  | leads_here c name : leads f p c name [] c name
  | leads_down c name name' rest i it c' last : finds f p c name i it ->
    has_flag (attribute it) FAT_FILE_SUBDIRECTORY = true ->
    leads f p (low_16_bits_first_cluster it) name' rest c' last -> leads f p c name (name' :: rest) c' last.

Lemma create_walk_view f p : geometry p -> forall parts d parent part l s r s',
  shows f p d -> view f p s -> owns (parent_cells parent ++ l) s ->
  create_walk d parent part parts s = (r, s') ->
  looks s s' /\
  match r with
  | Ok (parent', d', last) => owns (parent_cells parent' ++ l) s' /\ shows f p d' /\
      leads f p (first_cluster d) part parts (first_cluster d') last
  | Err e => owns l s' /\ e < 0
  end.
Proof.
  intros G. induction parts as [|part' parts IH]; intros d parent part l s r s' Sd V Ho E; cbn [create_walk] in E.
  { injection E as <- <-. split; [done|]. split; [done|]. split; [done|constructor]. }
  apply io_bind_inv in E as [(e & E & ->)|(x & s1 & E & E1)]; apply finally_inv in E as (s2 & E & ->);
    apply (find_item_view f p G A h0 _ _ (parent_cells parent ++ l)) in E as [L Hs]; try done.
  - destruct Hs as (Ho2 & He & _). split; [etrans; [exact L|apply free_parent_looks]|]. split; [by apply free_parent_owns|done].
  - destruct Hs as (Ho2 & i & it & Hf & Hx & _).
    assert (L2 : looks s (free_parent parent s2)) by (etrans; [exact L|apply free_parent_looks]).
    assert (Ho3 : owns (item_cells x ++ l) (free_parent parent s2)).
    { apply free_parent_owns. eapply owns_perm; [|exact Ho2]. solve_Permutation. }
    unfold item_for in Hx. destruct (body x) as [ptr d'|ptr it'] eqn:Hb.
    + destruct Hx as (Hdir & Sd' & Hc & _). apply (IH _ _ _ l) in E1 as [L3 Hr]; [|done|by eapply view_looks|done].
      split; [by etrans|]. destruct r as [[[parent' d2] last]|e]; [|done]. destruct Hr as (? & ? & Hr).
      split; [done|]. split; [done|]. rewrite Hc in Hr. by eapply leads_down.
    + rewrite io_modify in E1. injection E1 as <- <-. split; [etrans; [exact L2|apply item_free_looks]|].
      split; [by apply item_free_owns|unfold EINVARG; lia].
Qed.

(** A successful commit stores the entry and publishes it. *)
Lemma commit_item_ok entry it s u s' :
  Forall is_byte (encode_item it) -> fat16_commit_item entry it s = (Ok u, s') ->
  committed entry it s s' /\ forall a, img (dev s') a = splice (img (dev s)) entry (encode_item it) a.
Proof.
  intros Hb E. unfold fat16_commit_item in E. apply io_bind_ok in E as (u1 & s1 & E & E1).
  apply write_at_spec in E as [Q Hi]; [|done].
  apply io_bind_ok in E1 as (u2 & s2 & E2 & E3). apply flush_quiet in E2 as [Q2 Hi2].
  apply modify_inv in E3 as [_ ->]. split.
  - eapply committed_quiet; [by etrans|]. constructor; [done|done|]. by exists (priv s2).
  - intros a. simpl. by rewrite Hi2, Hi.
Qed.

Definition created (f : Z -> Z) (p : fat_private) (part : list Z) (parts : list (list Z)) (s s' : fs D H) (x : fat_item) : Prop :=
  exists c last k base ext ptr,
    leads f p 0 part parts c last /\ free_slot f p c k /\ create_name last [] [] false = Some (base, ext) /\
    body x = FAT_ITEM_TYPE_FILE ptr (create_entry base ext) /\ entry_pos x = slot_pos f p c k /\
    (Forall is_byte last -> forall a, img (dev s') a = splice (img (dev s)) (entry_pos x) (encode_item (create_entry base ext)) a).

Lemma create_item_view f p d last l s r s' :
  geometry p -> view f p s -> owns l s -> create_item d last s = (r, s') ->
  looks s s' /\
  match r with
  | Ok (slot, entry, x) => owns (item_cells x ++ l) s' /\ exists k base ext ptr,
      free_slot f p (first_cluster d) k /\ create_name last [] [] false = Some (base, ext) /\
      entry = create_entry base ext /\ slot = slot_pos f p (first_cluster d) k /\
      entry_pos x = slot /\ body x = FAT_ITEM_TYPE_FILE ptr entry
  | Err e => owns l s' /\ e < 0
  end.
Proof.
  intros G V Ho E. unfold create_item in E.
  apply io_bind_inv in E as [(e & E & ->)|(slot & s1 & E & E1)]; apply (find_slot_view f p G) in E as [R Hs]; try done;
    pose proof (owns_reads _ _ _ _ _ R Ho) as Ho1; pose proof (reads_looks _ _ R) as L1; [done|].
  destruct Hs as (k & Hk & -> & _). destruct (create_name last [] [] false) as [[base ext]|] eqn:Hn.
  2:{ injection E1 as <- <-. split; [done|]. split; [done|]. unfold EINVARG. lia. }
  apply io_bind_inv in E1 as [(e & E1 & ->)|(o & s2 & E1 & E2)];
    apply (new_item_view f p G A h0 _ l) in E1 as [L2 Hx]; try done; try (by eapply view_reads);
    destruct Hx as [[Hx Ho2]|(x & Hx & Ho2 & Hi)]; try done; injection Hx as ->; injection E2 as <- <-; (split; [by etrans|]).
  - split; [done|]. unfold ENOMEM. lia.
  - unfold item_for in Hi. destruct (body x) as [ptr dd|ptr it] eqn:Hb.
    { destruct Hi as [Hi _]. vm_compute in Hi. done. }
    destruct Hi as [-> _]. split; [unfold item_cells in *; cbn [item_addr body] in *; by rewrite Hb in *|].
    exists k, base, ext, ptr. done.
Qed.

Lemma create_view f p part parts l s r s' :
  geometry p -> shows f p (root_directory p) -> view f p s -> owns l s -> fat16_create part parts s = (r, s') ->
  descriptors (priv s') = descriptors (priv s) /\
  match r with
  | Ok x => owns (item_cells x ++ l) s' /\ created f p part parts s s' x
  | Err e => owns l s'
  end.
Proof.
  intros G Sr V Ho E. unfold fat16_create in E. rewrite io_gets, (sv_root _ _ (vw_volume _ _ _ V)) in E.
  apply io_bind_inv in E as [(e & E & ->)|([[parent d] last] & s1 & E & E1)];
    apply (create_walk_view f p G _ _ _ _ l) in E as [L1 Hw]; try done.
  { destruct Hw as [Hw _]. split; [by apply looks_descriptors|done]. }
  destruct Hw as (Ho1 & Sd & Hl). rewrite (geo_first _ G) in Hl.
  apply io_bind_inv in E1 as [(e & E1 & ->)|([[slot entry] x] & s2 & E1 & E2)]; apply on_error_inv in E1 as (s3 & E1 & ->);
    apply (create_item_view f p _ _ (parent_cells parent ++ l)) in E1 as [L2 Hi]; try done; try (by eapply view_looks).
  { destruct Hi as [Ho2 _]. split; [|by apply free_parent_owns].
    apply looks_descriptors. etrans; [exact L1|]. etrans; [exact L2|apply free_parent_looks]. }
  destruct Hi as (Ho2 & k & base & ext & ptr & Hk & Hn & -> & -> & Hp & Hb). unfold create_commit in E2.
  destruct (fat16_commit_item _ _ s3) as [rc s4] eqn:Ec. pose proof (commit_item_keeps _ _ _ _ _ Ec) as Hk4.
  injection Hk4 as Eh Ed. assert (Ho4 : owns (item_cells x ++ parent_cells parent ++ l) s4) by (unfold FatDirScan.owns in *; by rewrite Eh).
  assert (Ho5 : owns (item_cells x ++ l) (free_parent parent s4)).
  { apply free_parent_owns. eapply owns_perm; [|exact Ho4]. solve_Permutation. }
  assert (Hd : descriptors (priv (free_parent parent s4)) = descriptors (priv s)).
  { rewrite (looks_descriptors _ _ (free_parent_looks parent s4)), Ed. apply looks_descriptors. by etrans. }
  destruct rc as [u|e]; injection E2 as <- <-.
  - split; [done|]. split; [done|]. exists (first_cluster d), last, k, base, ext, ptr. do 5 (split; [done|]).
    intros Hbytes. destruct (create_name_wf _ _ _ _ _ _ Hn Hbytes) as [Hwb Hwe]; [by split; [simpl; lia|constructor]..|].
    apply commit_item_ok in Ec as [_ Hi]; [|by apply encode_item_bytes, create_entry_wf]. intros a.
    rewrite (rd_img _ _ (free_parent_looks parent s4)). simpl. rewrite Hi, Hp. apply splice_ext.
    rewrite (rd_img _ _ (transitivity L1 L2)). done.
  - split; [|by apply item_free_owns]. by rewrite (looks_descriptors _ _ (item_free_looks x _)).
Qed.

(** ** Opening *)

Lemma shows_ext (f g : Z -> Z) p q d :
  (forall a, g a = f a) -> header q = header p -> root_directory q = root_directory p -> shows f p d -> shows g q d.
Proof.
  intros Hf Hh Hr [Hl Hz Hv]. constructor; [by eapply dir_listing_ext|by rewrite Hr|]. by rewrite (valid_ext p q Hh Hr).
Qed.

(** What a slot holds on the disk, and the entry that a path names there. *)
Definition disk_item (f : Z -> Z) (p : fat_private) (c k : Z) : fat_directory_item := decode_item (slice f (slot_pos f p c k) 32).
Definition disk_resolves (f : Z -> Z) (p : fat_private) : Z -> list Z -> list (list Z) -> fat_directory_item -> Z -> Prop :=
  resolves_in (slot_exists f p) (disk_item f p) (slot_pos f p).

(** The copy of the root directory in memory is that of the disk. *)
Definition root_cached (f : Z -> Z) (p : fat_private) : Prop :=
  forall k, 0 <= k < root_dir_entries (header p) -> item (root_directory p) !! Z.to_nat k = Some (disk_item f p 0 k).

Lemma cached_item f p c k : root_cached f p -> 0 <= k -> slot_exists f p c k -> slot_item f p c k = disk_item f p c k.
Proof.
  intros Hc Hk He. unfold slot_exists, slot_item, disk_item in *. destruct (Z.eqb_spec c 0) as [->|]; [|done].
  rewrite Hc by lia. done.
Qed.

(** The volume and its root directory as the file system code finds them between two calls. *)
Record browsable (s : fs D H) : Prop := Browsable {
  br_mounted : mounted s;
  br_root : shows (img (dev s)) (priv s) (root_directory (priv s))
}.

Lemma browsable_view s : browsable s -> view (img (dev s)) (priv s) s.
Proof. intros _. by apply view_self. Qed.

(** The invariant depends on the image, the header, the root directory and the state of preparation only. *)
Lemma browsable_ext s s' :
  (forall a, img (dev s') a = img (dev s) a) -> header (priv s') = header (priv s) ->
  root_directory (priv s') = root_directory (priv s) -> write_ready (priv s') = write_ready (priv s) ->
  max_writable (priv s') = max_writable (priv s) -> browsable s -> browsable s'.
Proof.
  intros Hi Hh Hr Hw Hm [[G R] Sh]. constructor; [|rewrite Hr; by eapply shows_ext].
  assert (Hg : forall p q, header q = header p -> root_directory q = root_directory p -> geometry p -> geometry q).
  { intros p q E1 E2 []. constructor; rewrite ?E1, ?E2; done. }
  assert (Hl : fat16_cluster_limit (priv s') = fat16_cluster_limit (priv s)) by (unfold fat16_cluster_limit; by rewrite Hh, Hr).
  constructor; [by eapply Hg|]. rewrite Hw. intros Hw'. destruct (R Hw') as [[Rg Rc Rs Rl Re] M]. split.
  - constructor; [by eapply Hg|by rewrite Hh..|by rewrite Hm, Hl|]. unfold data_end. by rewrite Hm, Hh, Hr.
  - intros c Hc. unfold table_entry, entry_addr. rewrite Hh, !Hi. apply M. unfold writable in *. by rewrite <- Hm.
Qed.

Lemma looks_browsable s s' : looks s s' -> browsable s -> browsable s'.
Proof. intros [Hi _ V _]. apply browsable_ext; [apply Hi|apply V..]. Qed.

Lemma open_existing_yields md x s :
  max_writable (priv s) < 2 ^ 30 -> forall l r s', owns (item_cells x ++ l) s -> open_existing md x s = (r, s') ->
  descriptors (priv s') = descriptors (priv s) /\
  match r with Ok y => owns (item_cells y ++ l) s' | Err _ => owns (item_cells x ++ l) s' end.
Proof.
  intros Hw l r s' Ho E. unfold open_existing in E. destruct (body x) as [ptr d|ptr it] eqn:Hb; [by injection E as <- <-|].
  rewrite io_fail_if in E. destruct (has_flag _ _); [by injection E as <- <-|]. destruct (md =? _).
  - apply io_bind_inv in E as [(e & E & ->)|(it' & s1 & E & E1)]; apply (truncate_yields _ _ _ Hw _ _ _ Ho) in E as [Hd Ho1]; [done|].
    injection E1 as <- <-. split; [done|]. unfold item_cells in *. simpl. by rewrite Hb in Ho1.
  - apply io_bind_inv in E as [(e & E & ->)|(u & s1 & E & E1)]; apply (check_file_chain_yields _ _ Hw _ _ _ Ho) in E as [Hd Ho1]; [done|].
    by injection E1 as <- <-.
Qed.

Lemma open_item_yields md part parts l s r s' :
  browsable s -> (md <> FILE_MODE_READ -> max_writable (priv s) < 2 ^ 30) -> owns l s ->
  open_item md part parts s = (r, s') ->
  descriptors (priv s') = descriptors (priv s) /\
  match r with Ok x => owns (item_cells x ++ l) s' | Err _ => owns l s' end.
Proof.
  intros B Hw Ho E. pose proof (browsable_view _ B) as V. pose proof (mo_geometry _ (br_mounted _ B)) as G.
  unfold open_item in E. destruct (fat16_get_directory_entry part parts s) as [r1 s1] eqn:E1.
  destruct (get_directory_entry_view _ _ G A h0 _ _ l _ _ _ (br_root _ B) V Ho E1) as [L Hw1].
  pose proof (looks_descriptors _ _ L) as Hd. destruct r1 as [x|e].
  - destruct Hw1 as [Ho1 _]. destruct (Z.eqb_spec md FILE_MODE_READ) as [|Hm]; cbn [negb] in E; [by injection E as <- <-|].
    apply on_error_inv in E as (s2 & E & ->).
    apply (open_existing_yields _ _ _) with (l := l) in E as [Hd2 Ho2]; [..|done].
    + destruct r as [y|e]; [split; [congruence|done]|]. split; [|by apply item_free_owns].
      rewrite (looks_descriptors _ _ (item_free_looks x s2)). congruence.
    + pose proof (sv_writable _ _ (rd_volume _ _ L)) as Hmw. simpl in Hmw. rewrite Hmw. by apply Hw.
  - destruct Hw1 as [Ho1 _]. destruct (_ && _); [|by injection E as <- <-].
    destruct (create_view _ _ _ _ l _ _ _ G (br_root _ B) (view_looks _ _ _ _ L V) Ho1 E) as [Hd2 Hr2].
    split; [congruence|]. destruct r; [apply Hr2|done].
Qed.

Lemma prepare_browsable s r s1 : browsable s -> fat16_prepare_write s = (r, s1) -> browsable s1.
Proof.
  intros [M Sh] E. apply (prepare_write_spec _ _ _ M) in E as (M1 & _ & F & Hi & _). constructor; [done|].
  rewrite (sf_root _ _ F). eapply shows_ext; [exact Hi|apply F|apply F|done].
Qed.

Lemma ready_bound s : mounted s -> write_ready (priv s) = true -> max_writable (priv s) < 2 ^ 30.
Proof.
  intros M Hr. destruct (mo_ready _ M Hr) as [R _]. pose proof (rv_limit _ R). pose proof (limit_bound (priv s)). lia.
Qed.

(** The state when the file is looked up: the volume prepared unless the file is opened for reading. *)
Lemma open_prepare md s r s1 :
  browsable s -> ((if negb (md =? FILE_MODE_READ) then fat16_prepare_write else mret tt) : io (fs D H) unit) s = (r, s1) ->
  browsable s1 /\ held s1 = held s /\ match r with Ok _ => md <> FILE_MODE_READ -> max_writable (priv s1) < 2 ^ 30 | Err _ => True end.
Proof.
  intros B E. destruct (Z.eqb_spec md FILE_MODE_READ) as [Hm|Hm]; cbn [negb] in E; [by injection E as <- <-|].
  pose proof (prepare_browsable _ _ _ B E) as B1. split; [done|]. split; [by apply prepare_write_keeps in E|].
  apply (prepare_write_spec _ _ _ (br_mounted _ B)) in E as (M & _ & _ & _ & _ & Hr). destruct r; [|done].
  intros _. apply ready_bound; [done|apply Hr].
Qed.

Lemma open_yields part parts md l s r s' :
  browsable s -> owns l s -> fat16_open part parts md s = (r, s') ->
  match r with
  | Ok a => exists x pos, descriptors (priv s') = a :: descriptors (priv s) /\ a <> 0 /\
      desc_store (priv s') !! a = Some (FatFd x pos md) /\ owns (a :: item_cells x ++ l) s'
  | Err _ => descriptors (priv s') = descriptors (priv s) /\ owns l s'
  end.
Proof.
  intros B Ho E. unfold fat16_open in E. rewrite io_fail_if in E. destruct (_ <? _); [by injection E as <- <-|].
  apply io_bind_inv in E as [(e & E & ->)|(u & s1 & E & E1)]; apply (open_prepare _ _ _ _ B) in E as (B1 & Hh & Hw);
    injection Hh as Eh Ed.
  { split; [done|]. unfold FatDirScan.owns. by rewrite Eh. }
  assert (Ho1 : owns l s1) by (unfold FatDirScan.owns; by rewrite Eh).
  apply (alloc_scope A h0 _ _ _ l) in E1 as [[-> ->]|(a & s2 & s3 & Ha & L & Ho2 & E1 & ->)];
    [by rewrite Ed| |done|unfold sizeof_fat_file_descriptor; lia].
  pose proof (looks_browsable _ _ L B1) as B2.
  assert (Hw2 : md <> FILE_MODE_READ -> max_writable (priv s2) < 2 ^ 30).
  { pose proof (sv_writable _ _ (rd_volume _ _ L)) as Hmw. simpl in Hmw. by rewrite Hmw. }
  apply io_bind_inv in E1 as [(e & E1 & ->)|(x & s4 & E1 & E2)];
    destruct (open_item_yields _ _ _ (a :: l) _ _ _ B2 Hw2 Ho2 E1) as [Hd Hr]; rewrite (looks_descriptors _ _ L), Ed in Hd.
  - split; [done|]. by apply free_owns.
  - rewrite io_modify in E2. injection E2 as <- <-. eexists x, _. unfold add_descriptor, with_priv. cbn [priv descriptors desc_store with_descriptors].
    rewrite Hd, lookup_insert_eq. split; [done|]. split; [done|]. split; [done|].
    eapply owns_perm; [|exact Hr]. solve_Permutation.
Qed.

Lemma close_owns a d l s s' :
  desc_store (priv s) !! a = Some d -> owns (a :: item_cells (desc_item d) ++ l) s -> fat16_close a s = (0, s') ->
  owns l s' /\ descriptors (priv s') = unlink a (descriptors (priv s)).
Proof.
  intros Hs Ho E. unfold fat16_close, fat16_free_file_descriptor in E. rewrite Hs in E. injection E as <-.
  set (s1 := with_priv _ s). split.
  - apply free_owns, item_free_owns. eapply owns_perm; [|exact Ho]. solve_Permutation.
  - pose proof (looks_descriptors _ _ (item_free_looks (desc_item d) s1)) as Hd. simpl in *. by rewrite Hd.
Qed.
End balance.

(** ** Properties *)

Section properties.
Context {D H : Type} `{BlockDeviceLaws D} `{AllocatorLaws H}.
Implicit Types s : fs D H.
Abbreviation im s := (img (dev s)).

(** Opening a file in any mode and closing it again gives the heap and the list of open files
    back: a failed open releases everything it has allocated (the descriptor, the items of the
    directories on the way, the lists of clusters) and adds no descriptor; a successful one adds
    exactly one descriptor in front of the list, with the mode asked for, and fat16_close releases
    it together with its item. *)
Theorem open_close_balance part parts md s A r s' :
  browsable s -> live (heap s) A -> fat16_open part parts md s = (r, s') ->
  match r with
  | Ok a => descriptors (priv s') = a :: descriptors (priv s) /\
      (exists d, desc_store (priv s') !! a = Some d /\ mode d = md) /\
      exists s'', fat16_close a s' = (0, s'') /\ heap s'' = heap s /\ descriptors (priv s'') = descriptors (priv s)
  | Err _ => heap s' = heap s /\ descriptors (priv s') = descriptors (priv s)
  end.
Proof.
  intros B Hl E. apply (open_yields A (heap s) _ _ _ []) in E; [|done|by apply owned_nil]. destruct r as [a|e].
  - destruct E as (x & pos & Hd & Ha & Hs & Ho). split; [done|]. split; [eauto|].
    destruct (close_owns A (heap s) a _ [] s' _ Hs Ho eq_refl) as [Ho' Hd'].
    eexists. split; [done|]. split; [by eapply owned_done|]. rewrite Hd', Hd. simpl. by rewrite Z.eqb_refl.
  - destruct E as [Hd Ho]. split; [by eapply owned_done|done].
Qed.

(** C34: Following a path through the directories of the disk. The disk image is unchanged. An item found is the entry
    that the path names on the disk: at each level, the first of the entries in front of the end mark, along the cluster
    chain of the directory, that is neither deleted nor a volume label and whose name, as the format spells it and with
    case ignored, is the part of the path. The position stored is the entry's position on the disk, and releasing the
    item gives the heap back. An error leaves the heap unchanged, and the error ENOENT, on which opening for writing
    creates a new entry, is returned only when no such entry exists, provided the drive can read the table. The copy of
    the root directory in memory is assumed to be what the disk holds, as mounting makes it. *)
Theorem lookup_resolves part parts s A r s' :
  browsable s -> root_cached (im s) (priv s) -> live (heap s) A -> fat16_get_directory_entry part parts s = (r, s') ->
  (forall a, im s' a = im s a) /\
  match r with
  | Ok x => (exists it, disk_resolves (im s) (priv s) 0 part parts it (entry_pos x) /\ item_for (im s) (priv s) it x) /\
      heap (fat16_fat_item_free x s') = heap s
  | Err e => e < 0 /\ heap s' = heap s /\
      (e = - ENOENT -> table_good s -> forall it pos, ~ disk_resolves (im s) (priv s) 0 part parts it pos)
  end.
Proof.
  intros B Hc Hl E. pose proof (browsable_view _ B) as V. pose proof (mo_geometry _ (br_mounted _ B)) as G.
  destruct (get_directory_entry_view _ _ G A (heap s) _ _ [] _ _ _ (br_root _ B) V (owned_nil _ _ _ Hl) E) as [L Hr].
  split; [apply L|]. destruct r as [x|e].
  - destruct Hr as [Ho (it & Hr & Hx)]. split; [|eapply owned_done, item_free_owns, Ho]. exists it. split; [|done].
    eapply resolves_in_ext; [|exact Hr]. intros c j Hj He. symmetry. by apply cached_item.
  - destruct Hr as (Ho & He & Hn). split; [done|]. split; [by eapply owned_done|]. intros Hne T it pos Hr.
    apply (Hn Hne T it pos). eapply resolves_in_ext; [|exact Hr]. intros c j Hj Hex. by apply cached_item.
Qed.

(** Counting the slots of a directory ends on every table, also one whose chain of clusters is
    cyclic or leaves the volume, and returns an error or exactly the number of slots in use: every
    slot before it exists and is in use, and the next one was never used or is behind the end of the
    chain. The disk and the heap are unchanged. *)
Theorem total_items_counts c s r s' :
  geometry (priv s) -> fat16_valid_cluster (priv s) c = true ->
  fat16_get_total_items_for_directory (u32 (fat16_cluster_to_sector (priv s) c)) s = (r, s') ->
  heap s' = heap s /\ (forall a, im s' a = im s a) /\
  ((exists n, r = Ok n /\ dir_size (im s) (priv s) c n) \/ (exists e, r = Err e /\ e < 0)).
Proof.
  intros G Hv E. apply (total_items_view (im s) (priv s) G) in E as [R Hr]; [|by apply view_self|done].
  split; [apply R|]. split; [apply R|]. destruct r; eauto.
Qed.

(** A created entry goes into the first slot of the directory of the path that may be used: a
    deleted one that does not belong to a long name, or the end of the directory, behind which
    nothing follows. Its 32 bytes are the only bytes of the disk that change, and hold the name in
    capitals padded with spaces; a name of the form base or base.ext is found again by the search. *)
Theorem create_fills_free_slot part parts s A x s' :
  browsable s -> live (heap s) A -> fat16_create part parts s = (Ok x, s') ->
  exists c last k base ext ptr,
    leads (im s) (priv s) 0 part parts c last /\ free_slot (im s) (priv s) c k /\
    create_name last [] [] false = Some (base, ext) /\
    body x = FAT_ITEM_TYPE_FILE ptr (create_entry base ext) /\ entry_pos x = slot_pos (im s) (priv s) c k /\
    (forall b e, short_name last b e -> name_matches (create_entry base ext) last = true) /\
    (Forall is_byte last -> forall a, im s' a = splice (im s) (entry_pos x) (encode_item (create_entry base ext)) a).
Proof.
  intros B Hl E. pose proof (mo_geometry _ (br_mounted _ B)) as G.
  destruct (create_view A (heap s) _ _ _ _ [] _ _ _ G (br_root _ B) (browsable_view _ B) (owned_nil _ _ _ Hl) E)
    as (_ & _ & c & last & k & base & ext & ptr & Hc1 & Hc2 & Hn & Hc4 & Hc5 & Hc6).
  exists c, last, k, base, ext, ptr. do 5 (split; [done|]). split; [|done]. intros b e Hs.
  rewrite (create_name_short _ _ _ Hs) in Hn. injection Hn as <- <-. by eapply created_name_matches.
Qed.
End properties.

(** ** Examples: the volume of FatProps.v *)

Lemma demo_browsable : browsable demo_fs.
Proof.
  constructor; [apply demo_mounted|]. constructor; [|reflexivity|by left].
  apply (root_listing (img (dev demo_fs)) (priv demo_fs)); reflexivity.
Qed.

Lemma demo_root_cached : root_cached (img (dev demo_fs)) (priv demo_fs).
Proof.
  assert (H : Forall (fun k => item (root_directory (priv demo_fs)) !! Z.to_nat k = Some (disk_item (img (dev demo_fs)) (priv demo_fs) 0 k)) (seqZ 0 16)).
  { repeat (constructor; [vm_compute; reflexivity|]). constructor. }
  rewrite Forall_forall in H. intros k Hk. apply H, elem_of_seqZ. exact Hk.
Qed.

Lemma demo_heap_live : live (heap demo_fs) ∅.
Proof. exact demo_live. Qed.

(** The result of a computation by its evaluation. *)
Ltac eval_result E := let H := fresh in
  match type of E with ?m = (?r, ?s) => assert (H : r = fst m) by (by rewrite E); vm_compute in H; subst r end.

Lemma open_close_balance_witness :
  exists a s', fat16_open [104; 101; 108; 108; 111; 46; 116; 120; 116] [] FILE_MODE_READ demo_fs = (Ok a, s') /\
    descriptors (priv s') = [a; 100] /\
    exists s'', fat16_close a s' = (0, s'') /\ heap s'' = heap demo_fs /\ descriptors (priv s'') = [100].
Proof.
  destruct (fat16_open [104; 101; 108; 108; 111; 46; 116; 120; 116] [] FILE_MODE_READ demo_fs) as [r s'] eqn:E.
  pose proof (open_close_balance _ _ _ _ _ _ _ demo_browsable demo_heap_live E) as Hr. eval_result E.
  destruct Hr as (Hd & _ & Hc). eexists _, s'. split; [reflexivity|]. split; [exact Hd|exact Hc].
Defined.

(** The path hello.txt names the first entry of the root directory. *)
Lemma lookup_resolves_witness :
  exists x s', fat16_get_directory_entry [104; 101; 108; 108; 111; 46; 116; 120; 116] [] demo_fs = (Ok x, s') /\
    entry_pos x = 17920 /\
    exists it, disk_resolves (img (dev demo_fs)) (priv demo_fs) 0 [104; 101; 108; 108; 111; 46; 116; 120; 116] [] it (entry_pos x) /\
      entry_name it = [72; 69; 76; 76; 79; 46; 84; 88; 84].
Proof.
  destruct (fat16_get_directory_entry [104; 101; 108; 108; 111; 46; 116; 120; 116] [] demo_fs) as [r s'] eqn:E.
  pose proof (lookup_resolves _ _ _ _ _ _ demo_browsable demo_root_cached demo_heap_live E) as [_ Hr]. eval_result E.
  destruct Hr as [(it & Hr & Hx) _]. eexists _, s'. split; [reflexivity|]. split; [reflexivity|]. exists it. split; [exact Hr|].
  destruct Hx as [<- _]. vm_compute. reflexivity.
Defined.

(** Cluster 2 read as a directory has one slot in use. *)
Lemma total_items_counts_witness :
  exists s', fat16_get_total_items_for_directory (u32 (fat16_cluster_to_sector (priv demo_fs) 2)) demo_fs = (Ok 1, s') /\
    dir_size (img (dev demo_fs)) (priv demo_fs) 2 1.
Proof.
  destruct (fat16_get_total_items_for_directory (u32 (fat16_cluster_to_sector (priv demo_fs) 2)) demo_fs) as [r s'] eqn:E.
  pose proof (total_items_counts 2 demo_fs r s' (mo_geometry _ demo_mounted) ltac:(vm_compute; reflexivity) E) as (_ & _ & Hr).
  eval_result E. exists s'. split; [reflexivity|]. destruct Hr as [(n & Hn & Hd)|(e & He & _)]; [|discriminate He].
  injection Hn as <-. exact Hd.
Defined.

(** A new entry goes to the third slot of the root directory. *)
Lemma create_fills_free_slot_witness :
  exists x s', fat16_create [110; 101; 119] [] demo_fs = (Ok x, s') /\ entry_pos x = 17984 /\
    exists c k, free_slot (img (dev demo_fs)) (priv demo_fs) c k /\ 17984 = slot_pos (img (dev demo_fs)) (priv demo_fs) c k.
Proof.
  destruct (fat16_create [110; 101; 119] [] demo_fs) as [r s'] eqn:E. pose proof E as E'. eval_result E.
  destruct (create_fills_free_slot _ _ _ _ _ _ demo_browsable demo_heap_live E') as (c & _ & k & _ & _ & _ & _ & Hk & _ & _ & Hp & _).
  eexists _, s'. split; [reflexivity|]. split; [reflexivity|]. exists c, k. split; [exact Hk|exact Hp].
Defined.
