(* ===== verification/FatMount.v ===== *)
(** * FAT16: mounting a volume, reading and seeking in open files

    [fat16_resolve] establishes what the other theorems assume of a mounted volume, or leaves no trace;
    reads through a descriptor return the bytes of the file at its position. *)

From stdpp Require Import base numbers list gmap.
From Stdlib Require Import ZArith Lia.
From S2P Require Import Prelude Alloc Heap Memory Effects Disk StrLib PathParser Fat FatWrite FatData FatFile FatProps.
From S2P Require Import FatDir FatDirScan FatOpen.

#[local] Set Default Goal Selector "!".

(** ** The header *)

Lemma byte_at_range bs i : Forall is_byte bs -> 0 <= byte_at bs i < 256.
Proof.
  intros Hb. unfold byte_at. destruct (bs !! i) as [v|] eqn:E; simpl; [|lia]. by eapply Forall_lookup_1 in Hb.
Qed.

Lemma le16_range bs i : Forall is_byte bs -> 0 <= le16 bs i < 65536.
Proof. intros Hb. unfold le16. pose proof (byte_at_range bs i Hb). pose proof (byte_at_range bs (S i) Hb). lia. Qed.

Lemma le32_range bs i : Forall is_byte bs -> 0 <= le32 bs i < 2 ^ 32.
Proof. intros Hb. unfold le32. pose proof (le16_range bs i Hb). pose proof (le16_range bs (2 + i) Hb). lia. Qed.

(** ** The root directory *)

Lemma decode_items_lookup n bs k : (k < n)%nat -> decode_items n bs !! k = Some (decode_item (take 32 (drop (32 * k) bs))).
Proof. intros Hk. unfold decode_items. rewrite list_lookup_fmap, lookup_seq_lt by done. done. Qed.

Lemma decode_items_length n bs : length (decode_items n bs) = n.
Proof. unfold decode_items. by rewrite length_fmap, length_seq. Qed.

(** ** Mounting *)

Section mount.
Context {D H : Type} `{BlockDeviceLaws D} `{AllocatorLaws H}.
Implicit Types s : fs D H.
Abbreviation im s := (img (dev s)).
Context (A : gmap Z Z) (h0 : H).
Local Abbreviation owns := (owns A h0).

(** The image and the drive are as they were; volume and heap may differ. *)
Record same_disk (s s' : fs D H) : Prop := SameDisk {
  sd_img a : im s' a = im s a;
  sd_good n : good (dev s) n -> good (dev s') n
}.

#[export] Instance same_disk_preorder : PreOrder same_disk.
Proof. split; [by intros s; constructor|]. intros s1 s2 s3 [I1 G1] [I2 G2]. constructor; [intros a; by rewrite I2, I1|auto]. Qed.

Lemma looks_same_disk s s' : looks s s' -> same_disk s s'.
Proof. intros [I _ _ Gd]. by constructor. Qed.

Lemma root_directory_view s l r s' :
  owns l s -> 0 <= root_dir_entries (header (priv s)) < 65536 -> fat16_get_root_directory s = (r, s') ->
  looks s s' /\
  match r with
  | Ok root => owns (item_ptr root :: l) s' /\ item_ptr root <> 0 /\ first_cluster root = 0 /\
      Z.of_nat (length (item root)) = root_dir_entries (header (priv s)) /\ total root = count_items (item root) /\
      sector_pos root = fat_copies (header (priv s)) * sectors_per_fat (header (priv s)) + reserved_sectors (header (priv s)) /\
      ending_sector_pos root = sector_pos root + (root_dir_entries (header (priv s)) * 32 + 511) / 512 /\
      item root = decode_items (length (item root))
        (slice (im s) (fat16_sector_to_absolute (sector_pos root)) (root_dir_entries (header (priv s)) * 32))
  | Err _ => owns l s'
  end.
Proof.
  intros Ho Hn E. unfold fat16_get_root_directory, sizeof_fat_directory_item in E. rewrite io_gets in E.
  set (n := root_dir_entries (header (priv s))) in *.
  apply (alloc_scope A h0 _ _ _ l) in E as [[-> ->]|(dir & s1 & s2 & Hd & L1 & Ho1 & E & ->)]; [done| |done|lia].
  apply io_bind_inv in E as [(e & E & ->)|(o & s3 & E & E1)]; apply attempt_inv in E as [(bs & E & Hx)|(e' & E & Hx)]; try done;
    injection Hx as ->; (apply stream_read_at_spec in E as [R Hr]; [|apply directory_lens]);
    pose proof (owns_reads _ _ _ _ _ R Ho1) as Ho3; pose proof (transitivity L1 (reads_looks _ _ R)) as L3; injection E1 as <- <-.
  - split; [done|]. simpl. rewrite decode_items_length. split; [done|]. split; [done|]. split; [done|]. split; [lia|]. split; [done|].
    split; [done|]. split.
    { unfold RORTHOX_SECTOR_SIZE. destruct (Z.eqb_spec (n * 32 mod 512) 0); simpl; lia. }
    destruct Hr as [_ ->]. f_equal. apply slice_ext. intros a _. apply (rd_img _ _ L1).
  - split; [etrans; [exact L3|apply free_looks]|]. by apply free_owns.
Qed.

(** What mounting has established of the volume. *)
Record fresh_volume (f : Z -> Z) (p : fat_private) : Prop := FreshVolume {
  fv_header : header p = decode_header (slice f 0 62);
  fv_signature : signatur (header p) = RORTHOX_FAT16_SIGNATURE;
  fv_geometry : geometry p;
  fv_root : shows f p (root_directory p);
  fv_items k : 0 <= k < root_dir_entries (header p) -> item (root_directory p) !! Z.to_nat k =
    Some (decode_item (slice f (fat16_sector_to_absolute (sector_pos (root_directory p)) + 32 * k) 32));
  fv_closed : descriptors p = [] /\ desc_store p = ∅ /\ write_ready p = false /\ mutation_disabled p = false
}.

(** The root directory in memory is the one on the disk. *)
Lemma fresh_cached f p : fresh_volume f p -> sector_pos (root_directory p) * 512 < 2 ^ 31 -> root_cached f p.
Proof.
  intros V Hs k Hk. rewrite (fv_items _ _ V) by done. unfold disk_item, slot_pos. simpl. do 3 f_equal.
  unfold fat16_sector_to_absolute, RORTHOX_SECTOR_SIZE. f_equal. apply i32_small. pose proof (fv_geometry _ _ V) as G.
  rewrite (geo_pos _ G) in *. pose proof (geo_copies _ G). pose proof (geo_fat _ G). pose proof (geo_reserved _ G). nia.
Qed.

Lemma read_header_view s r s' :
  ((fun s => let '(res, out, _, d) := diskstreamer_read 0 62 (dev s) in
     if negb (res =? 0) then fail EIO (with_dev d s) else (Ok out, with_dev d s)) : io (fs D H) (list Z)) s = (r, s') ->
  same_disk s s' /\ heap s' = heap s /\ priv s' = priv s /\
  match r with Ok bs => bs = slice (im s) 0 62 | Err e => e < 0 end.
Proof.
  unfold diskstreamer_read. change ((62 <? 0) || (0 <? 0) || (INT_MAX - 0 <? 62)) with false. cbv iota.
  destruct (streamer_read_loop (Z.to_nat 62) 0 62 [] (dev s)) as [[[res out] pos] d] eqn:El.
  apply streamer_read_loop_spec in El as (Hi & Hg & k & Hk & _ & -> & Hres); [|lia..].
  intros E. destruct (Z.eqb_spec res 0) as [->|Hne]; injection E as <- <-; (split; [by constructor|]); (split; [done|]); (split; [done|]).
  - destruct Hres as [[_ ->]|[? _]]; [done|lia].
  - unfold EIO. lia.
Qed.

Lemma header_ranges bs : Forall is_byte bs -> let h := decode_header bs in
  0 <= sectors_per_cluster h < 256 /\ 0 <= reserved_sectors h < 65536 /\ 0 <= fat_copies h < 256 /\
  0 <= sectors_per_fat h < 65536 /\ 0 <= root_dir_entries h < 65536 /\ 0 <= number_of_sectors h < 65536 /\
  0 <= sectors_big h < 2 ^ 32.
Proof using.
  intros Hb h. subst h. cbn [sectors_per_cluster reserved_sectors fat_copies sectors_per_fat root_dir_entries number_of_sectors sectors_big decode_header].
  repeat match goal with |- _ /\ _ => split end;
    solve [by apply byte_at_range | by apply le16_range | by apply le32_range
          | apply (le16_range bs _ Hb) | apply (byte_at_range bs _ Hb) | apply (le32_range bs _ Hb)].
Qed.

Lemma resolve_volume_view l s r s' :
  owns l s -> priv s = blank_private -> resolve_volume s = (r, s') ->
  same_disk s s' /\
  match r with
  | Ok _ => owns (item_ptr (root_directory (priv s')) :: l) s' /\ fresh_volume (im s) (priv s')
  | Err e => e < 0 /\ owns l s' /\ item_ptr (root_directory (priv s')) = 0
  end.
Proof.
  intros Ho Hp E. unfold resolve_volume in E. apply io_bind_inv in E as [(e & E & ->)|(bs & s1 & E & E1)];
    apply read_header_view in E as (S1 & Hh1 & Hp1 & Hr); rewrite Hp in Hp1;
    (assert (Ho1 : FatDirScan.owns A h0 l (with_heap (heap s) s)) by done); unfold FatDirScan.owns in Ho1; cbn [with_heap heap] in Ho1;
    rewrite <- Hh1 in Ho1.
  { split; [done|]. split; [done|]. split; [done|]. by rewrite Hp1. }
  subst bs. set (h := decode_header (slice (im s) 0 62)) in *. rewrite io_modify, io_gets in E1.
  set (s2 := with_priv (with_header h (priv s1)) s1) in *.
  assert (Hs2 : same_disk s s2) by (destruct S1; by constructor). assert (Ho2 : owns l s2) by exact Ho1.
  assert (Hp2 : priv s2 = with_header h blank_private) by (unfold s2; simpl; by rewrite Hp1).
  rewrite io_fail_if in E1. change (header (priv s2)) with h in E1.
  destruct (Z.eqb_spec (signatur h) RORTHOX_FAT16_SIGNATURE) as [Hsig|]; cbn [negb] in E1.
  2:{ injection E1 as <- <-. split; [done|]. split; [unfold EFSNOTUS; lia|]. split; [done|]. by rewrite Hp2. }
  destruct (header_ranges (slice (im s) 0 62)) as (R1 & R2 & R3 & R4 & R5 & R6 & R7); [apply slice_bytes, img_byte|]. fold h in R1, R2, R3, R4, R5, R6, R7.
  apply io_bind_inv in E1 as [(e & E1 & ->)|(o & s3 & E1 & E2)]; apply attempt_inv in E1 as [(root & E1 & Hx)|(e' & E1 & Hx)]; try done;
    injection Hx as ->; apply (root_directory_view _ l) in E1 as [L Hr]; try done; try exact R5.
  - destruct Hr as (Ho3 & Hnz & Hfc & Hlen & Htot & Hpos & Hend & Hitems). apply modify_inv in E2 as [-> ->].
    split; [etrans; [exact Hs2|destruct (looks_same_disk _ _ L); by constructor]|]. split; [done|]. pose proof (rd_volume _ _ L) as V.
    cbn [with_heap priv] in V. rewrite Hp2 in V. change (header (priv s2)) with h in *.
    assert (Hh : header (with_root root (priv s3)) = h) by (apply (sv_header _ _ V)).
    assert (Hext : forall a, im s2 a = im s a) by apply Hs2.
    cbn [priv with_priv]. constructor.
    + exact Hh.
    + by rewrite Hh.
    + constructor; rewrite ?Hh; done.
    + constructor; [|done|by left]. cbn [root_directory with_root]. rewrite Hfc.
      apply (root_listing (im s) (with_root root (priv s3))); [done|]. rewrite Hh. exact Hlen.
    + intros k Hk. rewrite Hh in Hk. cbn [root_directory with_root]. rewrite Hitems, decode_items_lookup by lia. f_equal.
      replace (32 * Z.to_nat k)%nat with (Z.to_nat (32 * k)) by lia. replace 32%nat with (Z.to_nat 32) by done.
      rewrite slice_sub by lia. f_equal. apply slice_ext. intros a _. apply Hext.
    + cbn [descriptors desc_store write_ready mutation_disabled with_root].
      rewrite (sv_descriptors _ _ V), (sv_store _ _ V), (sv_ready _ _ V), (sv_disabled _ _ V). done.
  - apply fail_inv in E2 as [-> ->]. split; [etrans; [exact Hs2|by apply looks_same_disk]|]. split; [unfold EIO; lia|].
    split; [done|]. pose proof (sv_root _ _ (rd_volume _ _ L)) as Hroot. simpl in Hroot. by rewrite Hroot, Hp1.
Qed.

(** An allocation of a stream or of the volume's structure. *)
Lemma zalloc_mount l size s r s' :
  owns l s -> 0 <= size < 2 ^ 32 -> zalloc size s = (r, s') ->
  exists a, r = Ok a /\ dev s' = dev s /\ priv s' = priv s /\ owns (cell a ++ l) s' /\ (a = 0 -> s' = s).
Proof.
  intros Ho Hs E. assert (Hd : dev s' = dev s /\ priv s' = priv s).
  { unfold zalloc in E. destruct (kmalloc _ _). by injection E as _ <-. }
  destruct (zalloc_owns _ _ _ _ _ _ _ Ho Hs E) as (a & -> & _ & Ha). exists a. split; [done|]. split; [apply Hd|]. split; [apply Hd|].
  unfold cell. destruct Ha as [[-> ->]|[Ha Ho']]; [done|]. by rewrite (proj2 (Z.eqb_neq a 0)).
Qed.

Lemma same_disk_dev s s' : dev s' = dev s -> same_disk s s'.
Proof. intros E. constructor; rewrite E; done. Qed.

Lemma init_private_view l s r s' :
  owns l s -> fat16_init_private s = (r, s') ->
  exists ok a b c, r = Ok (ok, (a, b, c)) /\ dev s' = dev s /\ priv s' = blank_private /\
    owns (cell a ++ cell b ++ cell c ++ l) s' /\ (ok = true -> a <> 0 /\ b <> 0 /\ c <> 0).
Proof.
  intros Ho E. unfold fat16_init_private, sizeof_disk_stream in E. rewrite io_modify in E. set (s0 := with_priv _ _) in E.
  assert (Ho0 : owns l s0) by exact Ho.
  apply io_bind_inv in E as [(e & E & ->)|(a & s1 & E & E1)]; (apply (zalloc_mount l) in E as (a' & [=] & Hd1 & Hp1 & Ho1 & _); [..|done|lia]).
  subst a'. destruct (Z.eqb_spec a 0) as [->|Ha].
  { injection E1 as <- <-. exists false, 0, 0, 0. by rewrite Hd1, Hp1. }
  apply io_bind_inv in E1 as [(e & E & ->)|(b & s2 & E & E2)];
    (apply (zalloc_mount (cell a ++ l)) in E as (b' & [=] & Hd2 & Hp2 & Ho2 & _); [..|done|lia]).
  subst b'. destruct (Z.eqb_spec b 0) as [->|Hb].
  { injection E2 as <- <-. exists false, a, 0, 0. by rewrite Hd2, Hp2, Hd1, Hp1. }
  apply io_bind_inv in E2 as [(e & E & ->)|(c & s3 & E & E3)];
    (apply (zalloc_mount (cell b ++ cell a ++ l)) in E as (c' & [=] & Hd3 & Hp3 & Ho3 & _); [..|done|lia]).
  subst c'. assert (Hres : dev s3 = dev s /\ priv s3 = blank_private /\ owns (cell a ++ cell b ++ cell c ++ l) s3).
  { rewrite Hd3, Hp3, Hd2, Hp2, Hd1, Hp1. split; [done|]. split; [done|]. eapply owns_perm; [|exact Ho3]. solve_Permutation. }
  destruct (Z.eqb_spec c 0) as [->|Hc]; injection E3 as <- <-; eexists _, a, b, _; (split; [done|]); destruct Hres as (? & ? & ?); done.
Qed.

Lemma free_nonnull_owns a l s : owns (cell a ++ l) s -> owns l (free_nonnull a s).
Proof. unfold free_nonnull. unfold cell. destruct (Z.eqb_spec a 0); simpl; [done|apply free_owns]. Qed.

(** The clean-up of a failed mount. *)
Lemma resolve_cleanup a b c d l s :
  a <> 0 -> item_ptr (root_directory (priv s)) = 0 -> owns (cell b ++ cell c ++ cell d ++ a :: l) s ->
  let s' := free a (free_nonnull b (free_nonnull c (free_nonnull d (free (item_ptr (root_directory (priv s))) s)))) in
  same_disk s s' /\ owns l s'.
Proof.
  intros Ha Hp Ho s'. split; [apply same_disk_dev; unfold s', free_nonnull; by destruct (negb _), (negb _), (negb _)|].
  unfold s'. rewrite Hp. apply free_owns, free_nonnull_owns, free_nonnull_owns, free_nonnull_owns, (free_cell A h0 0).
  eapply owns_perm; [|exact Ho]. unfold cell at 5. simpl. solve_Permutation.
Qed.

Lemma resolve_spec l s r s' :
  owns l s -> fat16_resolve s = (r, s') ->
  same_disk s s' /\
  match r with
  | Ok m => owns (item_ptr (root_directory (priv s')) :: cluster_addr m :: fat_addr m :: directory_addr m :: private_addr m :: l) s' /\
      fresh_volume (im s) (priv s')
  | Err e => e < 0 /\ owns l s'
  end.
Proof.
  intros Ho E. unfold fat16_resolve in E.
  apply io_bind_inv in E as [(e & E & ->)|(a & s1 & E & E1)];
    (apply (zalloc_mount l) in E as (a' & [=] & Hd1 & Hp1 & Ho1 & Hz); [..|done|unfold sizeof_fat_private; lia]).
  subst a'. rewrite io_fail_if in E1. destruct (Z.eqb_spec a 0) as [->|Ha].
  { rewrite (Hz eq_refl) in E1. injection E1 as <- <-. split; [done|]. split; [unfold ENOMEM; lia|done]. }
  apply io_bind_inv in E1 as [(e & E1 & ->)|([ok [[b c] d]] & s2 & E1 & E2)];
    (apply (init_private_view (cell a ++ l)) in E1 as (ok' & b' & c' & d' & [=] & Hd2 & Hp2 & Ho2 & Hok); [..|done]). subst ok' b' c' d'.
  replace (cell a) with [a] in Ho2 by (unfold cell; by rewrite (proj2 (Z.eqb_neq a 0))).
  set (l2 := cell b ++ cell c ++ cell d ++ a :: l) in *. assert (Ho2' : owns l2 s2) by exact Ho2. clear Ho2.
  assert (Hsd : same_disk s s2) by (apply same_disk_dev; congruence).
  apply on_error_inv in E2 as (s3 & E2 & ->). rewrite io_fail_if in E2. destruct ok; cbn [negb] in E2.
  2:{ injection E2 as <- <-. destruct (resolve_cleanup a b c d l s2) as [Hs3 Ho3]; [done|by rewrite Hp2|done|].
      split; [by etrans|]. split; [unfold ENOMEM; lia|done]. }
  apply io_bind_inv in E2 as [(e & E2 & ->)|(st & s4 & E2 & E3)];
    (apply (zalloc_mount l2) in E2 as (st' & [=] & Hd4 & Hp4 & Ho4 & Hz4); [..|done|unfold sizeof_disk_stream; lia]). subst st'.
  rewrite io_fail_if in E3. destruct (Z.eqb_spec st 0) as [->|Hst].
  { rewrite (Hz4 eq_refl) in E3. injection E3 as <- <-.
    destruct (resolve_cleanup a b c d l s2) as [Hs3 Ho3]; [done|by rewrite Hp2|done|].
    split; [by etrans|]. split; [unfold ENOMEM; lia|done]. }
  assert (Hsd4 : same_disk s s4) by (apply same_disk_dev; congruence).
  apply io_bind_inv in E3 as [(e & E3 & ->)|(u & s5 & E3 & E4)]; apply finally_inv in E3 as (s6 & E3 & ->);
    (apply (resolve_volume_view (cell st ++ l2)) in E3 as [S6 Hr]; [|done|congruence]).
  - destruct Hr as (He & Ho6 & Hip). destruct (resolve_cleanup a b c d l (free st s6)) as [Hs3 Ho3]; [done|done|by apply free_cell|].
    split; [|done]. etrans; [exact Hsd4|]. etrans; [exact S6|]. etrans; [|exact Hs3]. by constructor.
  - destruct Hr as [Ho6 Hf]. injection E4 as <- <-. split; [etrans; [exact Hsd4|]; destruct S6; by constructor|]. split.
    + assert (Ho7 : owns (item_ptr (root_directory (priv s6)) :: l2) (free st s6)).
      { apply free_cell. eapply owns_perm; [|exact Ho6]. solve_Permutation. }
      destruct (Hok eq_refl) as (Hb & Hc & Hdd). unfold l2, cell in Ho7. rewrite !(proj2 (Z.eqb_neq _ 0)) in Ho7 by done. exact Ho7.
    + replace (im s) with (im s4) by (f_equal; congruence). exact Hf.
Qed.
End mount.

(** ** Reading and seeking in an open file *)

Section files.
Context {D H : Type} `{BlockDeviceLaws D} `{AllocatorLaws H}.
Implicit Types s : fs D H.
Abbreviation im s := (img (dev s)).

(** [desc] is a descriptor of the file [it], open for reading. *)
Record reading_file (s : fs D H) (desc : Z) (d : fat_file_descriptor) (it : fat_directory_item) : Prop := ReadingFile {
  rf_geometry : geometry (priv s);
  rf_store : desc_store (priv s) !! desc = Some d;
  rf_body : exists ptr, body (desc_item d) = FAT_ITEM_TYPE_FILE ptr it;
  rf_pos : 0 <= pos d;
  rf_size : 0 <= filesize it < 2 ^ 32
}.

Lemma with_file_run {B} desc d it (k : fat_file_descriptor -> fat_directory_item -> io (fs D H) B) s :
  desc_store (priv s) !! desc = Some d -> (exists ptr, body (desc_item d) = FAT_ITEM_TYPE_FILE ptr it) ->
  with_file desc k s = k d it s.
Proof. intros Hs (ptr & Hb). unfold with_file. rewrite io_gets, Hs, Hb. done. Qed.

(** The position of the descriptor has moved to [x], and nothing else but what reading changes. *)
Definition moved (desc x : Z) (s s' : fs D H) : Prop := reads (set_desc_pos desc x s) s'.

Lemma moved_move desc x y s s' : moved desc x s s' -> moved desc y s (set_desc_pos desc y s').
Proof.
  intros [I Hh V Gd]. constructor; simpl in *; [done|done| |done]. destruct V as [V1 V2 V3 V4 V5 V6 V7]. simpl in *.
  constructor; simpl; try done. rewrite V4. apply map_eq. intros k. destruct (decide (k = desc)) as [->|Hk].
  - rewrite !lookup_alter_eq. by destruct (desc_store (priv s) !! desc).
  - by rewrite !lookup_alter_ne.
Qed.

Lemma moved_reads desc x s s1 s2 : moved desc x s s1 -> reads s1 s2 -> moved desc x s s2.
Proof. intros M R. unfold moved in *. by etrans. Qed.

Lemma moved_start desc d s : desc_store (priv s) !! desc = Some d -> moved desc (pos d) s s.
Proof.
  intros Hs. constructor; simpl; [done|done| |done]. constructor; simpl; try done. symmetry. apply map_eq. intros k.
  destruct (decide (k = desc)) as [->|Hk]; [rewrite lookup_alter_eq, Hs; by destruct d|by rewrite lookup_alter_ne].
Qed.

Lemma moved_file desc x s s' d it : reading_file s desc d it -> moved desc x s s' -> 0 <= x ->
  reading_file s' desc (FatFd (desc_item d) x (mode d)) it /\
  (forall o n, slice (chain_byte (im s') (priv s') (fat16_get_first_cluster it)) o n =
     slice (chain_byte (im s) (priv s) (fat16_get_first_cluster it)) o n).
Proof.
  intros [G Hs Hb Hp Hsz] M Hx. pose proof (rd_volume _ _ M) as V. split.
  - constructor; [|rewrite (sv_store _ _ V); simpl; by rewrite lookup_alter_eq, Hs|done|done|done].
    eapply geometry_same; [exact V|]. destruct G. by constructor.
  - intros o n. apply slice_ext. intros a _. rewrite (chain_byte_reads _ _ _ _ M). simpl.
    apply (chain_byte_layout _ _ (set_desc_pos_layout desc x s)).
Qed.

(** Bytes of a file from a position on. *)
Lemma file_slice f p it o n : 0 <= o -> 0 <= n -> o <= filesize it ->
  slice (chain_byte f p (fat16_get_first_cluster it)) o (Z.min n (filesize it - o)) =
  take (Z.to_nat n) (drop (Z.to_nat o) (file_bytes f p it)).
Proof.
  intros Ho Hn Hsz. unfold file_bytes, fat16_get_first_cluster. set (g := chain_byte f p _).
  rewrite <- (slice_take_drop g (filesize it) o (Z.min n (filesize it - o))) by lia.
  destruct (Z.le_gt_cases n (filesize it - o)); [by rewrite Z.min_l by lia|].
  rewrite Z.min_r by lia. rewrite !take_ge; [done|rewrite length_drop, slice_length; lia..].
Qed.

Lemma read_internal_at s desc d it n r s' :
  reading_file s desc d it -> fat16_read_internal (fat16_get_first_cluster it) (pos d) n s = (r, s') ->
  reads s s' /\
  match r with
  | Ok bs => bs = slice (chain_byte (im s) (priv s) (fat16_get_first_cluster it)) (pos d) n
  | Err e => e < 0 /\ ~ file_readable s (fat16_get_first_cluster it) (pos d) n
  end.
Proof.
  intros F E. apply read_internal_spec in E as [R Hr]; [|apply F]. split; [done|]. destruct r; [apply Hr|done].
Qed.

(** Before a round of the loop of [fat16_read]: [i] members of [size] bytes have been read. *)
Definition reading (s : fs D H) (desc : Z) (d : fat_file_descriptor) (it : fat_directory_item) (size nmemb m : Z)
    (st : Z * Z * list Z) (s1 : fs D H) : Prop :=
  let '(i, count, out) := st in
  count = i /\ 0 <= i <= nmemb /\ m = nmemb - i /\ pos d + i * size <= filesize it /\ moved desc (pos d + i * size) s s1 /\
  out = slice (chain_byte (im s) (priv s) (fat16_get_first_cluster it)) (pos d) (i * size).

Definition read_done (s : fs D H) (desc : Z) (d : fat_file_descriptor) (it : fat_directory_item) (size nmemb : Z)
    (r : result (Z * list Z)) (s1 : fs D H) : Prop :=
  match r with
  | Ok (count, out) => out = take (Z.to_nat (size * nmemb)) (drop (Z.to_nat (pos d)) (file_bytes (im s) (priv s) it)) /\
      count = Z.of_nat (length out) / size /\ moved desc (pos d + Z.of_nat (length out)) s s1
  | Err e => e < 0 /\ exists x, pos d <= x <= filesize it /\ moved desc x s s1
  end.

Lemma read_finished s desc d it size nmemb i n s1 :
  reading_file s desc d it -> pos d <= filesize it -> 0 < size -> 0 <= i <= nmemb -> 0 <= n < size ->
  i * size + n = Z.min (size * nmemb) (filesize it - pos d) -> moved desc (pos d + (i * size + n)) s s1 ->
  read_done s desc d it size nmemb
    (Ok (i, slice (chain_byte (im s) (priv s) (fat16_get_first_cluster it)) (pos d) (i * size + n))) s1.
Proof.
  intros F Hle Hs Hi Hn E M. pose proof (rf_pos _ _ _ _ F). rewrite E, file_slice by (done || nia). split; [done|].
  rewrite <- file_slice, slice_length, <- E by (done || nia). rewrite Z2Nat.id by nia. split; [|done].
  rewrite Z.div_add_l, Z.div_small by lia. lia.
Qed.

Lemma read_body_ok s desc d it size nmemb m st s1 r s2 :
  reading_file s desc d it -> pos d <= filesize it -> 0 < size -> reading s desc d it size nmemb m st s1 ->
  read_body desc size nmemb st s1 = (r, s2) ->
  round_ok (reading s desc d it size nmemb) (read_done s desc d it size nmemb) (m - 1) r s2.
Proof.
  destruct st as [[i count] out]. intros F Hle Hs (-> & Hi & -> & Hp & M & ->) E. unfold read_body in E.
  pose proof (rf_pos _ _ _ _ F) as Hp0. pose proof (rf_size _ _ _ _ F) as Hsz.
  destruct (Z.ltb_spec i nmemb) as [Hlt|Hge]; cbn [negb] in E.
  2:{ injection E as <- <-. assert (i = nmemb) as -> by lia.
      replace (nmemb * size) with (nmemb * size + 0) in * by lia. apply read_finished; (done || lia). }
  destruct (moved_file _ _ _ _ _ _ F M ltac:(nia)) as [F1 Hb1]. rewrite (with_file_run _ _ _ _ _ (rf_store _ _ _ _ F1) (rf_body _ _ _ _ F1)) in E.
  cbn [pos] in E. set (x := pos d + i * size) in *. rewrite u32_small in E by nia.
  destruct (Z.eqb_spec (filesize it - x) 0) as [Hz|Hz].
  { injection E as <- <-. replace (i * size) with (i * size + 0) in * by lia. apply read_finished; try (done || lia).
    - nia.
    - by replace (pos d + (i * size + 0)) with x by lia. }
  set (n := if size <? filesize it - x then size else filesize it - x) in *.
  assert (Hn : n = Z.min size (filesize it - x)) by (subst n; destruct (Z.ltb_spec size (filesize it - x)); lia). clearbody n.
  assert (Hok : forall e, e < 0 -> moved desc x s s2 -> round_ok (reading s desc d it size nmemb) (read_done s desc d it size nmemb) (nmemb - i - 1) (Err e) s2).
  { intros e He M2. split; [done|]. exists x. split; [nia|done]. }
  rewrite io_fail_if in E. destruct (_ || _); [injection E as <- <-; apply Hok; [unfold EIO; lia|done]|].
  apply io_bind_inv in E as [(e & E & ->)|(bs & s3 & E & E1)];
    apply (read_internal_at _ _ _ _ _ _ _ F1) in E as [R Hr]; cbn [pos] in Hr; pose proof (moved_reads _ _ _ _ _ M R) as M3.
  { apply Hok; [apply Hr|done]. }
  subst bs. rewrite Hb1 in E1. rewrite io_modify in E1.
  assert (Hsl : slice (chain_byte (im s) (priv s) (fat16_get_first_cluster it)) (pos d) (i * size) ++
    slice (chain_byte (im s) (priv s) (fat16_get_first_cluster it)) x n =
    slice (chain_byte (im s) (priv s) (fat16_get_first_cluster it)) (pos d) (i * size + n)) by (rewrite slice_app by nia; done).
  assert (M4 : moved desc (pos d + (i * size + n)) s (set_desc_pos desc (x + n) s3)).
  { replace (pos d + (i * size + n)) with (x + n) by lia. by eapply moved_move. }
  destruct (Z.eqb_spec n size) as [En|En]; cbn [negb] in E1; injection E1 as <- <-; rewrite Hsl.
  - exists (nmemb - (i + 1)). split; [lia|]. split; [done|]. split; [lia|]. split; [done|]. split; [nia|].
    replace ((i + 1) * size) with (i * size + n) by lia. done.
  - apply read_finished; (done || nia).
Qed.
Lemma read_loop_done s desc d it size nmemb r s' :
  reading_file s desc d it -> pos d <= filesize it -> 0 < size < 2 ^ 32 -> 0 <= nmemb < 2 ^ 32 ->
  fat16_read desc size nmemb s = (r, s') -> read_done s desc d it size nmemb r s'.
Proof.
  intros F Hle Hs Hn E. unfold fat16_read in E. rewrite (with_file_run _ _ _ _ _ (rf_store _ _ _ _ F) (rf_body _ _ _ _ F)) in E.
  rewrite io_passes in E by (apply Z.ltb_ge; done).
  eapply (io_loop_ok _ (reading s desc d it size nmemb) (read_done s desc d it size nmemb)); [| | |exact E].
  - intros. eapply read_body_ok; (done || lia).
  - split; [done|]. split; [lia|]. split; [done|]. rewrite !Z.mul_0_l, Z.add_0_r. split; [lia|]. split; [|done].
    by apply moved_start, F.
  - rewrite count_fuel_eq. lia.
Qed.
End files.

Lemma fresh_browsable {D H} `{BlockDeviceLaws D} (s s' : fs D H) :
  same_disk s s' -> fresh_volume (img (dev s)) (priv s') -> browsable s'.
Proof.
  intros Sd Hf. constructor.
  - constructor; [apply Hf|]. destruct (fv_closed _ _ Hf) as (_ & _ & Hw & _). by rewrite Hw.
  - eapply shows_ext; [apply Sd|done|done|apply Hf].
Qed.

(** ** Calls that only read *)

Section calm.
Context {D H : Type} `{BlockDeviceLaws D} `{AllocatorLaws H}.
Implicit Types s : fs D H.
Local Abbreviation im s := (img (dev s)).

(** [s'] differs from [s] in what reading changes, and in the positions in open files. *)
Record calm s s' : Prop := Calm {
  ca_img a : img (dev s') a = img (dev s) a;
  ca_heap : heap s' = heap s;
  ca_header : header (priv s') = header (priv s);
  ca_root : root_directory (priv s') = root_directory (priv s);
  ca_ready : write_ready (priv s') = write_ready (priv s);
  ca_writable : max_writable (priv s') = max_writable (priv s);
  ca_item a : desc_item <$> desc_store (priv s') !! a = desc_item <$> desc_store (priv s) !! a
}.

#[export] Instance calm_preorder : PreOrder calm.
Proof.
  split; [by constructor|]. intros s1 s2 s3 [I1 Q1 E1 R1 W1 M1 D1] [I2 Q2 E2 R2 W2 M2 D2].
  constructor; [intros a; by rewrite I2, I1|congruence..|intros a; by rewrite D2, D1].
Qed.

Lemma reads_calm s s' : reads s s' -> calm s s'.
Proof. intros [I E [] _]. constructor; [done..|]. intros a. congruence. Qed.

Lemma set_pos_calm desc x s : calm s (set_desc_pos desc x s).
Proof.
  constructor; [done..|]. intros a. simpl. destruct (decide (a = desc)) as [->|Hn].
  - rewrite lookup_alter_eq. by destruct (desc_store (priv s) !! desc).
  - by rewrite lookup_alter_ne.
Qed.

Lemma calm_browsable s s' : calm s s' -> browsable s -> browsable s'.
Proof. intros []. by apply browsable_ext. Qed.

Lemma with_file_calm {B} s0 desc (k : fat_file_descriptor -> fat_directory_item -> io (fs D H) B) :
  (forall d it, preserves (calm s0) (k d it)) -> preserves (calm s0) (with_file desc k).
Proof.
  intros Hk. apply preserves_bind; [apply preserves_gets|]. intros p. destruct (_ !! _) as [d|]; [|apply preserves_fail].
  destruct (body _); [apply preserves_fail|apply Hk].
Qed.

Lemma read_internal_calm s0 start offset total :
  geometry (priv s0) -> preserves (calm s0) (fat16_read_internal start offset total).
Proof.
  intros G s r s' C E. etrans; [exact C|]. apply reads_calm. apply read_internal_spec in E as [R _]; [done|].
  destruct G. constructor; rewrite ?(ca_header _ _ C), ?(ca_root _ _ C); done.
Qed.

Lemma set_pos_preserves s0 desc x : preserves (calm s0) (modify (set_desc_pos desc x)).
Proof. apply preserves_modify. intros s C. etrans; [exact C|apply set_pos_calm]. Qed.

Lemma read_calm desc size nmemb s r s' :
  geometry (priv s) -> fat16_read desc size nmemb s = (r, s') -> calm s s'.
Proof.
  intros G E. refine (with_file_calm s desc _ _ s r s' _ E); [|done]. intros d it.
  apply preserves_bind; [apply preserves_fail_if|]. intros _. apply preserves_loop. intros [[i count] out].
  unfold read_body. destruct (negb _); [apply preserves_ret|]. apply with_file_calm. intros d1 it1. cbv zeta.
  destruct (_ =? 0); [apply preserves_ret|]. apply preserves_bind; [apply preserves_fail_if|]. intros _.
  apply preserves_bind; [by apply read_internal_calm|]. intros bs. apply preserves_bind; [apply set_pos_preserves|]. intros _.
  destruct (negb _); apply preserves_ret.
Qed.

(** No more bytes than asked for; a failure is a negative status. *)
Lemma read_bounds desc size nmemb s r s' :
  geometry (priv s) -> 0 <= size -> 0 <= nmemb < 2 ^ 32 -> fat16_read desc size nmemb s = (r, s') ->
  match r with Ok (_, bs) => Z.of_nat (length bs) <= size * nmemb | Err e => e < 0 end.
Proof.
  intros G Hs Hn E. unfold fat16_read, with_file in E. rewrite io_gets in E.
  destruct (_ !! desc) as [d|]; [|by injection E as <- <-]. destruct (body _) as [|ptr it]; [by injection E as <- <-|].
  rewrite io_fail_if in E. destruct (_ <? _); [by injection E as <- <-|].
  apply (io_loop_ok (read_body desc size nmemb)
    (fun n '(i, _, out) s1 => calm s s1 /\ 0 <= i <= nmemb /\ n = nmemb - i /\ Z.of_nat (length out) <= size * i)
    (fun r _ => match r with Ok (_, out) => Z.of_nat (length out) <= size * nmemb | Err e => e < 0 end)) with (n := nmemb) in E;
    [done| |split; [done|simpl; lia]|rewrite count_fuel_eq; lia].
  clear E. intros n [[i count] out] s1 r1 s2 (C & Hin & -> & Hout) E. unfold read_body in E. unfold round_ok.
  destruct (Z.ltb_spec i nmemb) as [Hi|Hi]; cbn [negb] in E; [|injection E as <- <-; nia].
  unfold with_file in E. rewrite io_gets in E. destruct (_ !! desc) as [d1|]; [|by injection E as <- <-].
  destruct (body _) as [|ptr1 it1]; [by injection E as <- <-|]. cbv zeta in E. pose proof (u32_range (filesize it1 - pos d1)) as Hu.
  destruct (_ =? 0); [injection E as <- <-; nia|]. rewrite io_fail_if in E. destruct (_ || _); [by injection E as <- <-|].
  assert (G1 : geometry (priv s1)) by (destruct G; constructor; rewrite ?(ca_header _ _ C), ?(ca_root _ _ C); done).
  apply io_bind_inv in E as [(e & E & ->)|(b & s3 & E & E1)]; [by apply read_internal_spec in E as [_ [? _]]|]. pose proof E as Er.
  apply (read_internal_calm s _ _ _ G _ _ _ C) in E as C3. apply read_internal_spec in Er as [_ [-> _]]; [|done].
  rewrite io_modify in E1. set (left := u32 _) in *.
  assert (Hl : Z.of_nat (length (slice (chain_byte (img (dev s1)) (priv s1) (fat16_get_first_cluster it1)) (pos d1)
    (if size <? left then size else left))) <= size).
  { rewrite slice_length. destruct (Z.ltb_spec size left); lia. }
  destruct (negb _); injection E1 as <- <-; rewrite length_app, Nat2Z.inj_add; [nia|].
  exists (nmemb - (i + 1)). split; [lia|]. split; [etrans; [exact C3|apply set_pos_calm]|]. nia.
Qed.

(** Opening for reading: the item of the path, with the position 0. *)
Lemma open_read_found A h0 l part parts s r s' :
  browsable s -> owns A h0 l s -> fat16_open part parts FILE_MODE_READ s = (r, s') ->
  browsable s' /\
  match r with
  | Ok a => exists x it s1, looks s s1 /\ resolves (im s) (priv s) 0 part parts it (entry_pos x) /\
      item_for (im s) (priv s) it x /\ s' = add_descriptor a (FatFd x 0 FILE_MODE_READ) s1
  | Err _ => True
  end.
Proof.
  intros B Ho E. unfold fat16_open in E. rewrite io_fail_if in E. change (FILE_MODE_APPEND <? FILE_MODE_READ) with false in E.
  cbn [negb] in E. change (FILE_MODE_READ =? FILE_MODE_READ) with true in E. cbn [negb] in E. rewrite io_mret in E.
  apply (alloc_scope A h0 _ _ _ l) in E as [[-> ->]|(a & s2 & s3 & Ha & L & Ho2 & E & ->)]; [done| |done|unfold sizeof_fat_file_descriptor; lia].
  pose proof (looks_browsable _ _ L B) as B2. assert (V2 : view (im s) (priv s) s2) by (eapply view_looks; [exact L|by apply browsable_view]).
  assert (Hitem : forall r1 s4, open_item FILE_MODE_READ part parts s2 = (r1, s4) -> looks s s4 /\
    forall x, r1 = Ok x -> exists it, resolves (im s) (priv s) 0 part parts it (entry_pos x) /\ item_for (im s) (priv s) it x).
  { intros r1 s4 E1. unfold open_item in E1. destruct (fat16_get_directory_entry part parts s2) as [r2 s5] eqn:E2.
    destruct (get_directory_entry_view _ _ (mo_geometry _ (br_mounted _ B)) A h0 _ _ (a :: l) _ _ _ (br_root _ B) V2 Ho2 E2) as [L2 Hr].
    change (negb (FILE_MODE_READ =? FILE_MODE_READ)) with false in E1.
    destruct r2; [|rewrite andb_false_r in E1]; injection E1 as <- <-; (split; [by etrans|]); [|done].
    intros x [= <-]. apply Hr. }
  apply io_bind_inv in E as [(e & E & ->)|(x & s4 & E & E2)]; apply Hitem in E as [L4 Hx].
  - split; [|done]. eapply looks_browsable; [apply free_looks|]. by eapply looks_browsable.
  - change (FILE_MODE_READ =? FILE_MODE_APPEND) with false in E2. rewrite io_modify in E2. injection E2 as <- <-.
    destruct (Hx x eq_refl) as (it & Hr & Hi). split; [|by exists x, it, s4].
    eapply browsable_ext; [..|eapply looks_browsable; [exact L4|exact B]]; done.
Qed.

(** [a] is open on a file with the contents [c], at the position [o]. *)
Definition fat_stream s (a : Z) (c : list Z) (o : Z) : Prop :=
  exists d it, reading_file s a d it /\ c = file_bytes (im s) (priv s) it /\ o = pos d.

(** The disk holds a file with the contents [c] under the path. *)
Definition fat_stored s (part : list Z) (parts : list (list Z)) (c : list Z) : Prop :=
  exists it pos, disk_resolves (im s) (priv s) 0 part parts it pos /\
    has_flag (attribute it) FAT_FILE_SUBDIRECTORY = false /\ c = file_bytes (im s) (priv s) it.

Definition fat_directory_open s (a : Z) : Prop :=
  exists d ptr dir, desc_store (priv s) !! a = Some d /\ body (desc_item d) = FAT_ITEM_TYPE_DIRECTORY ptr dir.

Lemma decode_size bs : Forall is_byte bs -> 0 <= filesize (decode_item bs) < 2 ^ 32.
Proof.
  intros Hb. assert (Hat : forall i, 0 <= byte_at bs i < 256).
  { intros i. unfold byte_at. destruct (bs !! i) as [b|] eqn:E; [|simpl; lia]. by apply (Forall_lookup_1 _ _ _ _ Hb E). }
  unfold decode_item, filesize, le32, le16.
  pose proof (Hat 28%nat); pose proof (Hat 29%nat); pose proof (Hat 30%nat); pose proof (Hat 31%nat). simpl. lia.
Qed.

Lemma disk_resolves_size s c part parts it pos : disk_resolves (im s) (priv s) c part parts it pos -> 0 <= filesize it < 2 ^ 32.
Proof.
  intros Hr. induction Hr as [c name i it (-> & _)|]; [|done]. apply decode_size. apply Forall_forall. intros b Hb.
  apply list_elem_of_fmap in Hb as (a & -> & _). apply img_byte.
Qed.

Lemma file_bytes_byte s it : Forall is_byte (file_bytes (im s) (priv s) it).
Proof. apply Forall_forall. intros b Hb. apply list_elem_of_fmap in Hb as (a & -> & _). apply img_byte. Qed.

Lemma open_read_stream A h0 l part parts s a s' :
  browsable s -> root_cached (im s) (priv s) -> owns A h0 l s -> fat16_open part parts FILE_MODE_READ s = (Ok a, s') ->
  fat_directory_open s' a \/ exists c, fat_stored s part parts c /\ fat_stream s' a c 0.
Proof.
  intros B Hc Ho E. destruct (open_read_found _ _ _ _ _ _ _ _ B Ho E) as [B' (x & it & s1 & L & Hr & Hx & ->)].
  assert (Hd : desc_store (priv (add_descriptor a (FatFd x 0 FILE_MODE_READ) s1)) !! a = Some (FatFd x 0 FILE_MODE_READ)) by (simpl; apply lookup_insert_eq).
  unfold item_for in Hx. destruct (body x) as [ptr dir|ptr it'] eqn:Eb; [left; by exists (FatFd x 0 FILE_MODE_READ), ptr, dir|right].
  destruct Hx as [-> Hf]. assert (Hr' : disk_resolves (im s) (priv s) 0 part parts it (entry_pos x)).
  { eapply resolves_in_ext; [|exact Hr]. intros c j Hj He. symmetry. by apply cached_item. }
  exists (file_bytes (im s) (priv s) it). split; [by exists it, (entry_pos x)|]. exists (FatFd x 0 FILE_MODE_READ), it.
  split; [constructor; [apply B'|done|by exists ptr|done|by eapply disk_resolves_size]|]. split; [|done].
  apply slice_ext. intros i _. symmetry. etrans; [|apply (chain_byte_reads _ _ _ i L)]. simpl.
  apply (chain_byte_layout (priv s1)). by constructor.
Qed.

Lemma fat_stream_read a c o size n s k bs s' :
  fat_stream s a c o -> o <= Z.of_nat (length c) -> 0 < size < 2 ^ 32 -> 0 <= n < 2 ^ 32 ->
  fat16_read a size n s = (Ok (k, bs), s') ->
  bs = take (Z.to_nat (size * n)) (drop (Z.to_nat o) c) /\ k = Z.of_nat (length bs) / size /\
  fat_stream s' a c (o + Z.of_nat (length bs)).
Proof.
  intros (d & it & F & -> & ->) Hle Hs Hn E. pose proof (rf_pos _ _ _ _ F). pose proof (rf_size _ _ _ _ F).
  rewrite file_bytes_length in Hle. apply (read_loop_done _ _ _ _ _ _ _ _ F) in E as (Hb & Hk & M); [|lia|done..].
  split; [done|]. split; [done|]. destruct (moved_file _ _ _ _ _ _ F M ltac:(lia)) as [F' Hc].
  eexists _, it. split; [exact F'|]. split; [symmetry; apply Hc|done].
Qed.

Lemma close_browsable a s r s' : browsable s -> fat16_close a s = (r, s') -> browsable s'.
Proof.
  intros B E. unfold fat16_close, fat16_free_file_descriptor in E. destruct (_ !! a) as [d|]; injection E as _ <-; [|done].
  eapply looks_browsable; [apply free_looks|]. eapply looks_browsable; [apply item_free_looks|]. by eapply browsable_ext, B.
Qed.
End calm.

(** ** Properties *)

Section properties.
Context {D H : Type} `{BlockDeviceLaws D} `{AllocatorLaws H}.
Implicit Types s : fs D H.
Abbreviation im s := (img (dev s)).


(** fat16_read reads members of size bytes in a loop: it returns the same bytes as one read of
    size times nmemb bytes cut to the end of the file, counts the members that are complete, and
    moves the position by the bytes read. On an error the position is between the old one and the
    end of the file. *)
Theorem fread_reads s desc d it size nmemb r s' :
  reading_file s desc d it -> pos d <= filesize it -> 0 < size < 2 ^ 32 -> 0 <= nmemb < 2 ^ 32 ->
  fat16_read desc size nmemb s = (r, s') ->
  match r with
  | Ok (count, out) => out = take (Z.to_nat (size * nmemb)) (drop (Z.to_nat (pos d)) (file_bytes (im s) (priv s) it)) /\
      count = Z.of_nat (length out) / size /\ moved desc (pos d + Z.of_nat (length out)) s s'
  | Err e => e < 0 /\ exists x, pos d <= x <= filesize it /\ moved desc x s s'
  end.
Proof. apply read_loop_done. Qed.

(** fat16_read_bytes returns the bytes of the file from its position on, at most count and up to
    the end of the file, and moves the position behind them; it fails, with the position unchanged,
    only if the bytes cannot be read from the drive or do not lie in the chain. *)
Theorem read_bytes_returns s desc d it count r s' :
  reading_file s desc d it -> mode d = FILE_MODE_READ -> 0 <= count ->
  fat16_read_bytes desc count s = (r, s') ->
  match r with
  | Ok bs => bs = take (Z.to_nat count) (drop (Z.to_nat (pos d)) (file_bytes (im s) (priv s) it)) /\
      moved desc (pos d + Z.of_nat (length bs)) s s'
  | Err e => e < 0 /\ moved desc (pos d) s s' /\
      (filesize it <= INT_MAX -> ~ file_readable s (fat16_get_first_cluster it) (pos d) (Z.min count (filesize it - pos d)))
  end.
Proof.
  intros F Hm Hc E. pose proof (rf_store _ _ _ _ F) as Hst. pose proof (rf_pos _ _ _ _ F) as Hp.
  unfold fat16_read_bytes in E. rewrite io_gets, Hst in E. rewrite io_passes in E by (by rewrite Hm).
  rewrite (with_file_run _ _ _ _ _ Hst (rf_body _ _ _ _ F)) in E.
  destruct ((count =? 0) || (filesize it <=? pos d)) eqn:Hz.
  { injection E as <- <-. rewrite Z.add_0_r. split; [|by apply moved_start].
    apply orb_true_iff in Hz as [->%Z.eqb_eq|Hz%Z.leb_le]; [done|].
    rewrite drop_ge, take_nil; [done|]. rewrite file_bytes_length. lia. }
  apply orb_false_iff in Hz as [Hc0%Z.eqb_neq Hlt%Z.leb_gt].
  set (n := if filesize it - pos d <? count then filesize it - pos d else count) in *.
  assert (Hn : n = Z.min count (filesize it - pos d)) by (subst n; destruct (Z.ltb_spec (filesize it - pos d) count); lia). clearbody n.
  rewrite io_fail_if in E. destruct (_ || _) eqn:Hbig.
  { injection E as <- <-. split; [unfold EIO; lia|]. split; [by apply moved_start|]. intros Hmax (_ & _ & Hsum & _).
    rewrite orb_true_iff, !Z.ltb_lt in Hbig. lia. }
  apply io_bind_inv in E as [(e & E & ->)|(bs & s1 & E & E1)]; apply (read_internal_at _ _ _ _ _ _ _ F) in E as [R Hr].
  - destruct Hr as [He Hr]. split; [done|]. split; [eapply moved_reads; [by apply moved_start|done]|]. intros _. by rewrite <- Hn.
  - rewrite io_modify in E1. injection E1 as <- <-. subst bs. rewrite slice_length, Hn, file_slice by lia. split; [done|].
    rewrite Z2Nat.id by lia. eapply moved_move, moved_reads; [by apply moved_start|done].
Qed.

(** Fat16_seek_signed moves the position to base plus offset exactly if that lies in the file
    and fits in an int; else it is refused with EINVARG and nothing changes. *)
Theorem seek_signed_moves s desc d it offset whence r s' :
  reading_file s desc d it -> fat16_seek_signed desc offset whence s = (r, s') ->
  let base := if whence =? SEEK_SET then Some 0 else if whence =? SEEK_CUR then Some (pos d)
              else if whence =? SEEK_END then Some (filesize it) else None in
  match r with
  | Ok x => base = Some (x - offset) /\ 0 <= x <= Z.min INT_MAX (filesize it) /\ s' = set_desc_pos desc x s
  | Err e => e = - EINVARG /\ s' = s /\ forall b, base = Some b -> ~ 0 <= b + offset <= Z.min INT_MAX (filesize it)
  end.
Proof.
  intros F E. unfold fat16_seek_signed in E. rewrite (with_file_run _ _ _ _ _ (rf_store _ _ _ _ F) (rf_body _ _ _ _ F)) in E.
  assert (Hgo : forall b, ((_ ← fail_if ((b + offset <? 0) || (INT_MAX <? b + offset) || (filesize it <? b + offset)) EINVARG;
      _ ← modify (set_desc_pos desc (b + offset)); mret (b + offset)) : io (fs D H) Z) s = (r, s') ->
    match r with
    | Ok x => Some b = Some (x - offset) /\ 0 <= x <= Z.min INT_MAX (filesize it) /\ s' = set_desc_pos desc x s
    | Err e => e = - EINVARG /\ s' = s /\ forall b', Some b = Some b' -> ~ 0 <= b' + offset <= Z.min INT_MAX (filesize it)
    end).
  { intros b Eb. rewrite io_fail_if in Eb. destruct (_ || _ || _) eqn:Hchk.
    - injection Eb as <- <-. split; [done|]. split; [done|]. intros b' [= <-]. rewrite !orb_true_iff, !Z.ltb_lt in Hchk. lia.
    - rewrite io_modify in Eb. injection Eb as <- <-. rewrite !orb_false_iff, !Z.ltb_ge in Hchk.
      split; [f_equal; lia|]. split; [lia|done]. }
  destruct (whence =? SEEK_SET); [by apply Hgo|]. destruct (whence =? SEEK_CUR); [by apply Hgo|].
  destruct (whence =? SEEK_END); [by apply Hgo|]. injection E as <- <-. done.
Qed.
End properties.

(** ** Examples *)

(** The volume of FatProps.v with its boot sector, not mounted yet. *)
Definition demo_boot : fs ram_disk Heap.heap :=
  Fs (RamDisk (put (bytes demo_disk) 11
        ([0; 2; 1; 1; 0; 2; 16; 0; 104; 16; 248; 17; 0] ++ replicate 14 0 ++ [0x29])) 4200 ∅) demo_heap blank_private.


(** HELLO.TXT opened for reading, at position 1. *)
Definition demo_reading : fs ram_disk Heap.heap :=
  Fs demo_disk demo_heap
    (with_descriptors [100]
       {[100 := FatFd (FatItemOf 8 (FAT_ITEM_TYPE_FILE 16 demo_item) 17920) 1 FILE_MODE_READ]} demo_private).

Lemma demo_reading_file :
  reading_file demo_reading 100 (FatFd (FatItemOf 8 (FAT_ITEM_TYPE_FILE 16 demo_item) 17920) 1 FILE_MODE_READ) demo_item.
Proof.
  constructor; [|reflexivity|by exists 16|simpl; lia|simpl; lia].
  destruct (mo_geometry _ demo_mounted). by constructor.
Qed.

Lemma demo_file_bytes : file_bytes (img (dev demo_reading)) (priv demo_reading) demo_item = [1; 2; 3; 4; 5].
Proof. vm_compute. reflexivity. Qed.

(** Members of two bytes: two whole ones are left behind position 1. *)
Lemma fread_reads_witness :
  exists s', fat16_read 100 2 3 demo_reading = (Ok (2, [2; 3; 4; 5]), s') /\ moved 100 5 demo_reading s'.
Proof.
  destruct (fat16_read 100 2 3 demo_reading) as [r s'] eqn:E.
  pose proof (fread_reads demo_reading 100 _ demo_item 2 3 r s' demo_reading_file ltac:(simpl; lia) ltac:(lia) ltac:(lia) E) as Hr.
  eval_result E. exists s'. split; [reflexivity|]. destruct Hr as (_ & _ & Hm). exact Hm.
Defined.

Lemma read_bytes_returns_witness :
  exists s', fat16_read_bytes 100 9 demo_reading = (Ok [2; 3; 4; 5], s') /\ moved 100 5 demo_reading s'.
Proof.
  destruct (fat16_read_bytes 100 9 demo_reading) as [r s'] eqn:E.
  pose proof (read_bytes_returns demo_reading 100 _ demo_item 9 r s' demo_reading_file eq_refl ltac:(lia) E) as Hr.
  eval_result E. exists s'. split; [reflexivity|]. destruct Hr as (_ & Hm). exact Hm.
Defined.

Lemma seek_signed_moves_witness :
  fat16_seek_signed 100 (-2) SEEK_END demo_reading = (Ok 3, set_desc_pos 100 3 demo_reading) /\
  fat16_seek_signed 100 1 SEEK_END demo_reading = (Err (- EINVARG), demo_reading).
Proof.
  destruct (fat16_seek_signed 100 (-2) SEEK_END demo_reading) as [r s'] eqn:E.
  pose proof (seek_signed_moves demo_reading 100 _ demo_item (-2) SEEK_END r s' demo_reading_file E) as Hr. eval_result E.
  destruct Hr as (_ & _ & ->). split; [reflexivity|].
  destruct (fat16_seek_signed 100 1 SEEK_END demo_reading) as [r s'] eqn:E'.
  pose proof (seek_signed_moves demo_reading 100 _ demo_item 1 SEEK_END r s' demo_reading_file E') as Hr. eval_result E'.
  destruct Hr as (_ & -> & _). reflexivity.
Defined.
