(* ===== verification/Vfs.v ===== *)
(** * The file layer (kernel/fs/file.c, kernel/fs/file.h, kernel/disk/disk.c)

    The table of file systems, the table of open files and the calls that reach a file system through
    its table of operations. The file system is a record of operations, [fat16_fs] is the only one of
    the kernel; the theorems on opening and closing are proved from what [FilesystemLaws] promises. *)

From stdpp Require Import base numbers list gmap.
From Stdlib Require Import ZArith Lia.
From S2P Require Import Prelude Alloc Heap Memory Effects Disk StrLib PathParser Fat FatWrite FatData FatFile FatProps.
From S2P Require Import FatDir FatDirScan FatOpen FatMount.

#[local] Set Default Goal Selector "!".

Definition RORTHOX_MAX_FILESYSTEMS : Z := 12.
Definition RORTHOX_MAX_FILE_DESCRIPTORS : Z := 512.
Definition FILE_MODE_INVALID : Z := 3.
Definition sizeof_file_descriptor : Z := 16.

(** ** Paths of the file interface *)

(** The characters that a name must not have, besides the dot and the slash. *)
Definition bad_chars : list Z := [34; 42; 43; 44; 58; 59; 60; 61; 62; 63; 91; 92; 93; 124].

(** The loop over the characters of one name: the numbers of characters before and behind the dot,
    whether there is one, and the rest of the path; [None] is the return of [-EINVARG]. *)
Fixpoint validate_name (p : list Z) (base ext : Z) (dot : bool) : option (Z * Z * bool * list Z) :=
  match p with
  | [] => Some (base, ext, dot, [])
  | c :: rest =>
    if (c =? 0) || (c =? 47) then Some (base, ext, dot, p)
    else if c =? 46 then
      if dot || (base =? 0) then None else validate_name rest base ext true
    else if (c <=? 0x20) || (0x7F <=? c) then None
    else if existsb (Z.eqb c) bad_chars then None
    else
      let base := if dot then base else base + 1 in
      let ext := if dot then ext + 1 else ext in
      if (negb dot && (8 <? base)) || (dot && (3 <? ext)) then None
      else validate_name rest base ext dot
  end.

(** The loop over the names; a name and its slash take at least two characters. *)
Fixpoint validate_loop (fuel : nat) (p : list Z) : Z :=
  match fuel with
  | O => - EINVARG
  | S fuel =>
    match validate_name p 0 0 false with
    | None => - EINVARG
    | Some (base, ext, dot, p) =>
      if (base =? 0) || (dot && (ext =? 0)) then - EINVARG
      else if char_at p 0 =? 0 then 0
      else
        let p := drop 1 p in
        if negb (char_at p 0 =? 0) then validate_loop fuel p else - EINVARG
    end
  end.

(** [None] is the null pointer. *)
Definition file_validate_path (filename : option (list Z)) : Z :=
  match filename with
  | None => - EINVARG
  | Some filename =>
    if (RORTHOX_MAX_PATH <=? strnlen filename RORTHOX_MAX_PATH) || negb (strncmp filename [48; 58; 47] 3 =? 0)
    then - EINVARG
    else validate_loop (S (length filename)) (drop 3 filename)
  end.

Definition file_get_mode_by_string (str : list Z) : Z :=
  if strncmp str [114] 1 =? 0 then FILE_MODE_READ
  else if strncmp str [119] 1 =? 0 then FILE_MODE_WRITE
  else if strncmp str [97] 1 =? 0 then FILE_MODE_APPEND
  else FILE_MODE_INVALID.

(** ** File systems and open files *)

(** The operations of a file system on the disk. The pointers that the code tests before a call are
    options; [open] has the first name of the path and the others. *)
Record filesystem (D H : Type) := Filesystem {
  resolve : io (fs D H) unit;
  open : list Z -> list (list Z) -> Z -> io (fs D H) Z;
  read : Z -> Z -> Z -> io (fs D H) (Z * list Z);
  seek : Z -> Z -> Z -> io (fs D H) unit;
  stat : Z -> io (fs D H) (Z * Z);
  close : Z -> fs D H -> Z * fs D H;
  read_bytes : option (Z -> Z -> io (fs D H) (list Z));
  write_bytes : option (Z -> list Z -> io (fs D H) Z);
  seek_signed : option (Z -> Z -> Z -> io (fs D H) Z)
}.
Arguments Filesystem {D H}.
Arguments resolve {D H}.
Arguments open {D H}.
Arguments read {D H}.
Arguments seek {D H}.
Arguments stat {D H}.
Arguments close {D H}.
Arguments read_bytes {D H}.
Arguments write_bytes {D H}.
Arguments seek_signed {D H}.

(** A descriptor and its address. Its file system is null only while the file is being opened. *)
Record file_descriptor (D H : Type) := FileDescriptor {
  fd_addr : Z;
  index : Z;
  fd_filesystem : option (filesystem D H);
  private : Z
}.
Arguments FileDescriptor {D H}.
Arguments fd_addr {D H}.
Arguments index {D H}.
Arguments fd_filesystem {D H}.
Arguments private {D H}.

(** The disk with its volume and the heap, the file system of the disk, and the two tables. *)
Record vfs (D H : Type) := Vfs {
  vol : fs D H;
  disk_filesystem : option (filesystem D H);
  filesystems : list (option (filesystem D H));
  file_descriptors : list (option (file_descriptor D H))
}.
Arguments Vfs {D H}.
Arguments vol {D H}.
Arguments disk_filesystem {D H}.
Arguments filesystems {D H}.
Arguments file_descriptors {D H}.

Section vfs.
Context {D H : Type} `{BlockDevice D} `{Allocator H}.
Local Abbreviation vio := (io (vfs D H)).

Definition with_vol (s : fs D H) (v : vfs D H) : vfs D H :=
  Vfs s (disk_filesystem v) (filesystems v) (file_descriptors v).
Definition with_table (t : list (option (file_descriptor D H))) (v : vfs D H) : vfs D H :=
  Vfs (vol v) (disk_filesystem v) (filesystems v) t.
Definition with_filesystems (t : list (option (filesystem D H))) (v : vfs D H) : vfs D H :=
  Vfs (vol v) (disk_filesystem v) t (file_descriptors v).
Definition with_disk_filesystem (f : option (filesystem D H)) (v : vfs D H) : vfs D H :=
  Vfs (vol v) f (filesystems v) (file_descriptors v).

(** A call of the file system. *)
Definition lift {A} (m : io (fs D H) A) : vio A := fun v =>
  let '(r, s) := m (vol v) in (r, with_vol s v).

Definition fat16_init : filesystem D H :=
  Filesystem (_ ← fat16_resolve; mret tt) fat16_open fat16_read fat16_seek fat16_stat fat16_close
    (Some fat16_read_bytes) (Some fat16_write_bytes) (Some fat16_seek_signed).

(** The index of the first null pointer of a table. *)
Fixpoint free_index {A} (t : list (option A)) : option nat :=
  match t with
  | [] => None
  | None :: _ => Some O
  | Some _ :: t => S <$> free_index t
  end.

Definition fs_get_free_filesystem (v : vfs D H) : option nat := free_index (filesystems v).

(** [None] is the endless loop behind the message that there is no room. *)
Definition fs_insert_filesystem (f : filesystem D H) (v : vfs D H) : option (vfs D H) :=
  i ← fs_get_free_filesystem v;
  Some (with_filesystems (<[i := Some f]> (filesystems v)) v).

Definition fs_static_load (v : vfs D H) : option (vfs D H) := fs_insert_filesystem fat16_init v.

Definition fs_load (v : vfs D H) : option (vfs D H) :=
  fs_static_load (with_filesystems (replicate (Z.to_nat RORTHOX_MAX_FILESYSTEMS) None) v).

Definition fs_init (v : vfs D H) : option (vfs D H) :=
  fs_load (with_table (replicate (Z.to_nat RORTHOX_MAX_FILE_DESCRIPTORS) None) v).

(** The first file system of the table that recognises the disk. *)
Fixpoint resolve_loop (t : list (option (filesystem D H))) (s : fs D H) : option (filesystem D H) * fs D H :=
  match t with
  | [] => (None, s)
  | None :: t => resolve_loop t s
  | Some f :: t =>
    match resolve f s with
    | (Ok _, s) => (Some f, s)
    | (Err _, s) => resolve_loop t s
    end
  end.

Definition fs_resolve (v : vfs D H) : option (filesystem D H) * vfs D H :=
  let '(f, s) := resolve_loop (filesystems v) (vol v) in (f, with_vol s v).

(** The disk is the only one; its type, sector size and number are constants. *)
Definition disk_search_and_init (v : vfs D H) : vfs D H :=
  let v := with_disk_filesystem None v in
  let '(f, v) := fs_resolve v in with_disk_filesystem f v.

(** Whether there is a disk of this number. *)
Definition disk_get (index : Z) : bool := negb (negb (index =? 0)).

Definition file_free_descriptor (desc : file_descriptor D H) (v : vfs D H) : vfs D H :=
  let v := with_table (<[Z.to_nat (index desc - 1) := None]> (file_descriptors v)) v in
  with_vol (free (fd_addr desc) (vol v)) v.

Definition file_new_descriptor : vio (file_descriptor D H) :=
  t ← gets file_descriptors;
  match free_index t with
  | None => fail ENOMEM
  | Some i =>
    a ← lift (zalloc sizeof_file_descriptor);
    _ ← fail_if (a =? 0) ENOMEM;
    let desc := FileDescriptor a (Z.of_nat i + 1) None 0 in
    _ ← modify (with_table (<[i := Some desc]> t));
    mret desc
  end.

(** [None] is the null pointer. *)
Definition file_get_descriptor (fd : Z) (v : vfs D H) : option (file_descriptor D H) :=
  if (fd <=? 0) || (RORTHOX_MAX_FILE_DESCRIPTORS <? fd) then None
  else mjoin (file_descriptors v !! Z.to_nat (fd - 1)).

(** ** Opening *)

(** The descriptor is filled in; its index is returned. *)
Definition set_descriptor (desc : file_descriptor D H) (f : filesystem D H) (p : Z) : vio Z :=
  _ ← modify (fun v => with_table
        (<[Z.to_nat (index desc - 1) := Some (FileDescriptor (fd_addr desc) (index desc) (Some f) p)]>
           (file_descriptors v)) v);
  mret (index desc).

(** [fopen_status] from the parsed path on. A file opened for writing has its descriptor before the file
    system is called, so that nothing is created or truncated when the table is full. *)
Definition fopen_root (mode : Z) (root : path_root) : vio Z :=
  match first root with
  | [] => fail EINVARG
  | x :: l =>
    _ ← fail_if (negb (disk_get (drive_no root))) EIO;
    f ← gets disk_filesystem;
    match f with
    | None => fail EIO
    | Some f =>
      _ ← fail_if (mode =? FILE_MODE_INVALID) EINVARG;
      desc ← (if negb (mode =? FILE_MODE_READ) then d ← file_new_descriptor; mret (Some d) else mret None);
      on_error
        (p ← lift (open f (part x) (map part l) mode);
         desc ← match desc return vio (file_descriptor D H) with
                | Some d => mret d
                | None => on_error file_new_descriptor (fun v => with_vol (snd (close f p (vol v))) v)
                end;
         set_descriptor desc f p)
        (fun v => match desc with Some d => file_free_descriptor d v | None => v end)
    end
  end.

Definition free_path (root : option path_root) (v : vfs D H) : vfs D H :=
  with_vol (with_heap (pathparser_free root (heap (vol v))) (vol v)) v.

Definition fopen_status (filename mode_str : list Z) : vio Z :=
  let mode := file_get_mode_by_string mode_str in
  _ ← fail_if (negb (mode =? FILE_MODE_READ) && (file_validate_path (Some filename) <? 0)) EINVARG;
  root ← (fun v => let '(r, h) := pathparser_parse filename (heap (vol v)) in
                   (Ok r, with_vol (with_heap h (vol v)) v));
  finally (match root with None => fail EINVARG | Some root => fopen_root mode root end) (free_path root).

Definition fopen (filename mode_str : list Z) (v : vfs D H) : Z * vfs D H :=
  match fopen_status filename mode_str v with
  | (Ok fd, v) => (fd, v)
  | (Err _, v) => (0, v)
  end.

(** ** Open files *)

(** A call through the descriptor; a call through a null file system is not defined in C. *)
Definition with_descriptor {A} (fd e : Z) (k : file_descriptor D H -> filesystem D H -> vio A) : vio A :=
  d ← gets (file_get_descriptor fd);
  match d with
  | None => fail e
  | Some d =>
    match fd_filesystem d with
    | None => fail e
    | Some f => k d f
    end
  end.

(** The size and the flags. *)
Definition fstat (fd : Z) : vio (Z * Z) :=
  with_descriptor fd EIO (fun d f => lift (stat f (private d))).

(** The status of the file system; the descriptor stays when it is not zero. *)
Definition fclose (fd : Z) : vio Z :=
  with_descriptor fd EIO (fun d f v =>
    let '(res, s) := close f (private d) (vol v) in
    let v := with_vol s v in
    status res (if res =? 0 then file_free_descriptor d v else v)).

Definition fseek (fd offset whence : Z) : vio unit :=
  with_descriptor fd EIO (fun d f => lift (seek f (private d) (u32 offset) whence)).

(** The number of members read, and the bytes. *)
Definition fread (size nmemb fd : Z) : vio (Z * list Z) :=
  _ ← fail_if ((size =? 0) || (nmemb =? 0) || (fd <? 1)) EINVARG;
  with_descriptor fd EINVARG (fun d f => lift (read f (private d) size nmemb)).

Definition file_open (filename : list Z) (mode : Z) : vio Z :=
  _ ← fail_if ((FILE_MODE_APPEND <? mode) || (file_validate_path (Some filename) <? 0)) EINVARG;
  let mode_str := if mode =? FILE_MODE_READ then [114] else if mode =? FILE_MODE_WRITE then [119] else [97] in
  fd ← fopen_status filename mode_str;
  if 0 <? fd then
    _ ← on_error (fstat fd) (fun v => snd (fclose fd v));
    mret fd
  else mret fd.

(** The bytes read; the value is their number. *)
Definition file_read (fd buffer count : Z) : vio (list Z) :=
  with_descriptor fd EBADF (fun d f =>
    match read_bytes f with
    | None => fail EBADF
    | Some op =>
      _ ← fail_if ((0x7FFFFFFF <? count) || (negb (count =? 0) && (buffer =? 0))) EINVARG;
      lift (op (private d) count)
    end).

(** [data] are the bytes at [buffer]; their number is the count. *)
Definition file_write (fd buffer : Z) (data : list Z) : vio Z :=
  let count := Z.of_nat (length data) in
  with_descriptor fd EBADF (fun d f =>
    match write_bytes f with
    | None => fail EBADF
    | Some op =>
      _ ← fail_if ((0x7FFFFFFF <? count) || (negb (count =? 0) && (buffer =? 0))) EINVARG;
      lift (op (private d) data)
    end).

Definition file_seek (fd offset whence : Z) : vio Z :=
  with_descriptor fd EBADF (fun d f =>
    match seek_signed f with
    | None => fail EBADF
    | Some op => lift (op (private d) offset whence)
    end).
End vfs.

(** ** The paths accepted *)

(** A character of a name. *)
Definition file_char (c : Z) : Prop := 32 < c < 127 /\ c <> 46 /\ c <> 47 /\ c ∉ bad_chars.

(** A name of one to eight characters, with an extension of one to three or without. *)
Definition valid_name (n : list Z) : Prop :=
  exists b, b <> [] /\ (length b <= 8)%nat /\ Forall file_char b /\
    (n = b \/ exists e, n = b ++ 46 :: e /\ e <> [] /\ (length e <= 3)%nat /\ Forall file_char e).

Definition plain (n : list Z) : Prop := Forall (fun c => c <> 0 /\ c <> 47) n.
Definition stops (rest : list Z) : Prop := char_at rest 0 = 0 \/ char_at rest 0 = 47.

#[local] Instance file_char_dec c : Decision (file_char c).
Proof. unfold file_char. apply _. Defined.

Lemma char_stops c rest : stops (c :: rest) -> c = 0 \/ c = 47.
Proof. done. Qed.

(** The tests on one character. *)
Lemma char_test c : c <> 0 -> c <> 47 -> c <> 46 ->
  ((c <=? 0x20) || (0x7F <=? c)) = false /\ existsb (Z.eqb c) bad_chars = false <-> file_char c.
Proof.
  intros H0 H47 H46. rewrite orb_false_iff, !Z.leb_gt. unfold file_char.
  assert (existsb (Z.eqb c) bad_chars = false <-> c ∉ bad_chars) as ->; [|intuition lia].
  rewrite <- not_true_iff_false, existsb_exists, list_elem_of_In. split; intros Hn Hi; apply Hn.
  - exists c. split; [done|apply Z.eqb_refl].
  - destruct Hi as (x & Hx & ->%Z.eqb_eq). done.
Qed.

(** One more character of a name. *)
Lemma validate_char c p base ext dot : c <> 0 -> c <> 47 -> c <> 46 ->
  validate_name (c :: p) base ext dot =
    if decide (file_char c) then
      (if dot then if 3 <=? ext then None else validate_name p base (ext + 1) true
       else if 8 <=? base then None else validate_name p (base + 1) ext false)
    else None.
Proof.
  intros H0 H47 H46. pose proof (char_test c H0 H47 H46) as Ht. cbn [validate_name].
  rewrite (proj2 (Z.eqb_neq c 0)), (proj2 (Z.eqb_neq c 47)), (proj2 (Z.eqb_neq c 46)) by done. cbn [orb].
  destruct (decide (file_char c)) as [Hc|Hc].
  - destruct (proj2 Ht Hc) as [-> ->]. destruct dot; cbn [negb andb orb]; rewrite ?orb_false_r;
      [destruct (Z.ltb_spec 3 (ext + 1)), (Z.leb_spec 3 ext)|destruct (Z.ltb_spec 8 (base + 1)), (Z.leb_spec 8 base)]; done || lia.
  - destruct (_ || _); [done|]. destruct (existsb _ _); [done|]. by destruct Hc; apply Ht.
Qed.

Lemma validate_stop rest base ext dot : stops rest -> validate_name rest base ext dot = Some (base, ext, dot, rest).
Proof. destruct rest as [|c rest]; [done|]. by intros [-> | ->]%char_stops. Qed.

Lemma validate_ext e : forall base ext rest, plain e -> stops rest -> ext <= 3 ->
  validate_name (e ++ rest) base ext true =
    if decide (Forall file_char e /\ ext + Z.of_nat (length e) <= 3) then Some (base, ext + Z.of_nat (length e), true, rest)
    else None.
Proof.
  induction e as [|c e IH]; intros base ext rest Hp Hr He.
  - cbn [app length]. rewrite validate_stop by done. rewrite decide_True by (split; [constructor|lia]). do 4 f_equal. lia.
  - apply Forall_cons in Hp as [[H0 H47] Hp]. cbn [app]. destruct (decide (c = 46)) as [->|H46].
    { rewrite decide_False; [done|]. intros [Hf _]. apply Forall_cons in Hf as [(_ & ? & _) _]. done. }
    rewrite validate_char by done. destruct (decide (file_char c)) as [Hc|Hc].
    + cbn [length]. destruct (Z.leb_spec 3 ext).
      { rewrite decide_False; [done|]. lia. }
      rewrite IH by (done || lia). destruct (decide _) as [[Hf Hl]|Hn]; [rewrite decide_True|rewrite decide_False]; [|split; [by constructor|lia]|done|].
      * do 4 f_equal. lia.
      * intros [[_ Hf]%Forall_cons Hl]. apply Hn. split; [done|lia].
    + rewrite decide_False; [done|]. by intros [[? _]%Forall_cons _].
Qed.

(** The name up to its dot: what is read, or why nothing is. *)
Lemma validate_base n : forall base rest, plain n -> stops rest -> 0 <= base <= 8 ->
  match validate_name (n ++ rest) base 0 false with
  | Some (b, x, d, rest') => rest' = rest /\ exists m, Forall file_char m /\ b = base + Z.of_nat (length m) /\ b <= 8 /\
      ((d = false /\ n = m) \/
       (d = true /\ b <> 0 /\ exists e, n = m ++ 46 :: e /\ x = Z.of_nat (length e) /\ x <= 3 /\ Forall file_char e))
  | None => forall m, Forall file_char m -> base + Z.of_nat (length m) <> 0 -> base + Z.of_nat (length m) <= 8 ->
      n <> m /\ forall e, Forall file_char e -> (length e <= 3)%nat -> n <> m ++ 46 :: e
  end.
Proof.
  induction n as [|c n IH]; intros base rest Hp Hr Hb; cbn [app].
  { rewrite validate_stop by done. split; [done|]. exists []. split; [constructor|]. simpl. split; [lia|]. split; [lia|]. by left. }
  apply Forall_cons in Hp as [[H0 H47] Hp]. destruct (decide (c = 46)) as [->|H46].
  - cbn [validate_name Z.eqb orb Pos.eqb]. destruct (Z.eqb_spec base 0) as [->|Hz]; cbn [orb].
    { intros m Hm Hz _. split; [intros <-; by apply Forall_cons in Hm as [(_ & ? & _) _]|].
      intros e _ _. destruct m as [|c m]; [done|]. intros [= <- _]. by apply Forall_cons in Hm as [(_ & ? & _) _]. }
    rewrite validate_ext by (done || lia). destruct (decide _) as [[Hf Hl]|Hn].
    + split; [done|]. exists []. split; [constructor|]. simpl. split; [lia|]. split; [lia|]. right. split; [done|].
      split; [lia|]. exists n. split; [done|]. split; [lia|]. split; [lia|done].
    + intros m Hm _ _. split; [intros <-; by apply Forall_cons in Hm as [(_ & ? & _) _]|].
      intros e He Hl E. destruct m as [|c m]; [|injection E as <- _; by apply Forall_cons in Hm as [(_ & ? & _) _]].
      injection E as ->. apply Hn. split; [done|lia].
  - rewrite validate_char by done. destruct (decide (file_char c)) as [Hc|Hc].
    + destruct (Z.leb_spec 8 base).
      { intros m Hm _ Hl. destruct m as [|c' m]; [|simpl in Hl; lia]. split; [done|]. intros e _ _ [= -> _]. done. }
      specialize (IH (base + 1) rest Hp Hr ltac:(lia)). destruct (validate_name _ _ _ _) as [[[[b x] d] rest']|].
      * destruct IH as (-> & m & Hm & Hbm & Hb8 & Hd). split; [done|]. exists (c :: m). split; [by constructor|]. simpl.
        split; [lia|]. split; [done|]. destruct Hd as [[-> ->]|(-> & Hz & e & -> & Hx)]; [by left|]. right. split; [done|]. split; [done|]. by exists e.
      * intros m Hm _ Hl. destruct m as [|c' m]; [split; [done|]; intros e _ _ [= -> _]; done|].
        apply Forall_cons in Hm as [_ Hm]. simpl in Hl. destruct (IH m Hm) as [I1 I2]; [lia..|]. split; [congruence|].
        intros e He Hle [= _ E]. by apply (I2 e).
    + intros m Hm _ _. destruct m as [|c' m]; [split; [done|]; intros e _ _ [= -> _]; done|].
      split; [intros [= <- _]|intros e _ _ [= <- _]]; by apply Forall_cons in Hm as [? _].
Qed.

(** The first dot splits a name. *)
Lemma dot_split (m m' e e' : list Z) : 46 ∉ m -> 46 ∉ m' -> m ++ 46 :: e = m' ++ 46 :: e' -> m = m' /\ e = e'.
Proof.
  revert m'. induction m as [|c m IH]; intros [|c' m'] Hm Hm' E; simplify_eq/=; [done|by destruct Hm'; left|by destruct Hm; left|].
  apply not_elem_of_cons in Hm as [_ Hm], Hm' as [_ Hm']. by destruct (IH m') as [-> ->].
Qed.

Lemma validate_field n rest : plain n -> stops rest ->
  match validate_name (n ++ rest) 0 0 false with
  | Some (b, x, d, rest') => rest' = rest /\ (((b =? 0) || (d && (x =? 0))) = false <-> valid_name n)
  | None => ~ valid_name n
  end.
Proof.
  intros Hp Hr. pose proof (validate_base n 0 rest Hp Hr ltac:(lia)) as Hb. destruct (validate_name _ _ _ _) as [[[[b x] d] rest']|].
  - destruct Hb as (-> & m & Hm & -> & Hm8 & Hd). split; [done|]. rewrite orb_false_iff, Z.eqb_neq. split.
    + intros [Hz Hx]. exists m. split; [by intros ->|]. split; [lia|]. split; [done|].
      destruct Hd as [[-> ->]|(-> & _ & e & -> & -> & Hl & He)]; [by left|]. right. exists e. split; [done|].
      apply Z.eqb_neq in Hx. split; [by intros ->|]. split; [lia|done].
    + intros (m' & Hne & _ & Hm' & Hv). assert (Hdot : (46 ∉ m) /\ (46 ∉ m')).
      { split; intros Hi; [eapply Forall_forall in Hm as (_ & ? & _)|eapply Forall_forall in Hm' as (_ & ? & _)]; done. }
      destruct Hd as [[-> ->]|(-> & Hz & e & -> & -> & _ & He)], Hv as [<-|(e' & E & Hne' & _)].
      * split; [|done]. destruct m; [done|]. simpl. lia.
      * destruct Hdot as [Hdot _]. subst m. destruct Hdot. set_solver.
      * destruct Hdot as [_ Hdot]. destruct Hdot. set_solver.
      * split; [done|]. cbn [andb]. apply Z.eqb_neq. intros Hl. destruct e; [|done]. destruct Hne', Hdot.
        by destruct (dot_split m m' [] e') as [_ <-].
  - intros (m & Hne & Hl & Hm & Hv). destruct (Hb m Hm) as [H1 H2]; [destruct m; [done|simpl; lia]|lia|].
    destruct Hv as [->|(e & -> & _ & Hle & He)]; [done|]. by apply (H2 e).
Qed.

(** A path is its first field and the rest. *)
Lemma split_field p : exists n rest, p = n ++ rest /\ plain n /\ stops rest.
Proof.
  induction p as [|c p (n & rest & -> & Hn & Hr)]; [exists [], []; split; [done|split; [constructor|by left]]|].
  destruct (decide (c = 0 \/ c = 47)) as [Hc|Hc].
  - exists [], (c :: n ++ rest). split; [done|]. split; [constructor|done].
  - exists (c :: n), rest. split; [done|]. split; [|done]. constructor; [|done]. split; intros ->; auto.
Qed.

Lemma fields_split n rest : plain n -> stops rest ->
  fields (n ++ rest) = n :: (if char_at rest 0 =? 0 then [] else fields (drop 1 rest)).
Proof.
  intros Hn Hr. induction Hn as [|c n [H0 H47] Hn IH]; cbn [app fields].
  - destruct rest as [|c rest]; [done|]. by destruct (char_stops _ _ Hr) as [-> | ->].
  - rewrite (proj2 (Z.eqb_neq c 0)), (proj2 (Z.eqb_neq c 47)) by done. by rewrite IH.
Qed.

Lemma validate_loop_spec fuel : forall p, (length p < fuel)%nat ->
  (validate_loop fuel p = 0 <-> Forall valid_name (fields p)) /\ (validate_loop fuel p = 0 \/ validate_loop fuel p = - EINVARG).
Proof.
  induction fuel as [|fuel IH]; intros p Hf; [lia|]. destruct (split_field p) as (n & rest & -> & Hn & Hr).
  cbn [validate_loop]. rewrite fields_split by done. pose proof (validate_field n rest Hn Hr) as Hv.
  destruct (validate_name _ _ _ _) as [[[[b x] d] rest']|].
  - destruct Hv as [-> Hv]. destruct ((b =? 0) || (d && (x =? 0))).
    { split; [|by right]. split; [done|]. intros [Hc _]%Forall_cons. by apply Hv in Hc. }
    assert (Hval : valid_name n) by (by apply Hv). destruct (Z.eqb_spec (char_at rest 0) 0) as [|Hz].
    { split; [|by left]. split; [|done]. intros _. by constructor. }
    destruct (Z.eqb_spec (char_at (drop 1 rest) 0) 0) as [Hz1|Hz1]; cbn [negb].
    + split; [|by right]. split; [done|]. intros [_ Hc]%Forall_cons. pose proof (fields_split [] (drop 1 rest)) as E. cbn [app] in E.
      rewrite E in Hc by (apply Forall_nil_2 || by left). apply Forall_cons in Hc as [(m & Hm & _ & _ & [<-|(e & E' & _)]) _]; [done|by destruct m].
    + destruct rest as [|c rest]; [done|]. destruct (IH (drop 1 (c :: rest))) as [I1 I2].
      { rewrite length_app in Hf. simpl in *. rewrite drop_0. lia. }
      split; [|done]. rewrite I1, Forall_cons. split; [done|by intros [_ ?]].
  - split; [|by right]. split; [done|]. by intros [? _]%Forall_cons.
Qed.

Lemma validate_path_spec p :
  (file_validate_path (Some p) = 0 <->
     strlen p < RORTHOX_MAX_PATH /\ take 3 p = [48; 58; 47] /\ Forall valid_name (fields (drop 3 p))) /\
  (file_validate_path (Some p) = 0 \/ file_validate_path (Some p) = - EINVARG).
Proof.
  unfold file_validate_path. rewrite strnlen_spec by done. pose proof (strncmp_zero p [48; 58; 47] 3) as Hc.
  assert (Htake : strncmp p [48; 58; 47] 3 = 0 <-> take 3 p = [48; 58; 47]).
  { rewrite Hc. clear. split.
    - change (take (Z.to_nat 3) (cstring [48; 58; 47])) with [48; 58; 47]. change (Z.to_nat 3) with 3%nat.
      destruct p as [|a p]; [done|]. rewrite cstring_cons. destruct (a =? 0); [done|]. intros [= -> E]. revert E.
      destruct p as [|b p]; [done|]. rewrite cstring_cons. destruct (b =? 0); [done|]. intros [= -> E]. revert E.
      destruct p as [|c p]; [done|]. rewrite cstring_cons. destruct (c =? 0); [done|]. by intros [= ->].
    - destruct p as [|a [|b [|c p]]]; intros E; simplify_eq/=. by rewrite !cstring_cons. }
  destruct (validate_loop_spec (S (length p)) (drop 3 p)) as [V1 V2]; [rewrite length_drop; lia|].
  destruct (Z.leb_spec RORTHOX_MAX_PATH (Z.min (strlen p) RORTHOX_MAX_PATH)); cbn [orb].
  { split; [|by right]. split; [done|lia]. }
  destruct (Z.eqb_spec (strncmp p [48; 58; 47] 3) 0) as [Hz|Hz]; cbn [negb].
  - split; [|done]. rewrite V1. apply Htake in Hz. intuition lia.
  - split; [|by right]. split; [done|]. intros (_ & Ht & _). by apply Htake in Ht.
Qed.

Lemma leading_full l : Forall valid_name l -> leading l = l.
Proof.
  induction 1 as [|n l (m & Hm & _ & _ & Hn) _ IH]; [done|]. destruct n as [|c n]; simpl; [|by rewrite IH].
  destruct Hn as [<-|(e & E & _)]; [done|]. by destruct m.
Qed.

Lemma valid_short n : valid_name n -> exists b e, short_name n b e.
Proof.
  assert (Hc : forall l, Forall file_char l -> Forall name_char l).
  { intros l Hl. eapply Forall_impl; [exact Hl|]. intros c (? & ? & _). done. }
  intros (m & Hm & Hl & Hf & [->|(e & -> & He & Hle & Hfe)]); exists m; [exists []|exists e]; constructor; auto.
Qed.

(** ** What a file system promises *)

(** Opening allocates what the handle owns and nothing on an error; closing releases it. The condition
    [usable] and the handles do not depend on the heap, which the file layer uses as well. What the driver
    keeps in memory may differ from the disk after an error of the drive; when it does not ([synced]),
    a file opened for reading is the one [stored] on the disk under the path, and reading returns its bytes. *)
Class FilesystemLaws {D H : Type} `{AllocatorLaws H} (F : filesystem D H) : Type := {
  usable : fs D H -> Prop;
  opened : fs D H -> Z -> list Z -> Prop;
  usable_heap s h : usable s -> usable (with_heap h s);
  opened_heap s h a l : opened s a l -> opened (with_heap h s) a l;
  open_law A h0 x l md k s r s' : usable s -> owns A h0 k s -> open F x l md s = (r, s') ->
    (md = FILE_MODE_READ -> usable s') /\
    match r with
    | Ok a => exists cells, opened s' a cells /\ owns A h0 (cells ++ k) s'
    | Err _ => owns A h0 k s'
    end;
  read_law a cells size n s r s' : usable s -> opened s a cells -> read F a size n s = (r, s') ->
    usable s' /\ opened s' a cells /\ heap s' = heap s /\
    (0 <= size -> 0 <= n < 2 ^ 32 -> match r with Ok (_, bs) => Z.of_nat (length bs) <= size * n | Err e => e < 0 end);
  close_usable a s r s' : usable s -> close F a s = (r, s') -> usable s';
  close_law A h0 a cells k s r s' : opened s a cells -> owns A h0 (cells ++ k) s -> close F a s = (r, s') ->
    r = 0 /\ owns A h0 k s';
  stat_law a s r s' : stat F a s = (r, s') -> s' = s /\
    match r with Ok (n, _) => 0 <= n < 2 ^ 32 | Err e => e < 0 end;
  (** the contents of the files *)
  synced : fs D H -> Prop;
  stored : fs D H -> list Z -> list (list Z) -> list Z -> Prop;
  stream : fs D H -> Z -> list Z -> Z -> Prop;
  directory_open : fs D H -> Z -> Prop;
  synced_heap s h : synced s -> synced (with_heap h s);
  stored_heap s h x l c : stored (with_heap h s) x l c -> stored s x l c;
  stream_heap s h a c o : stream s a c o -> stream (with_heap h s) a c o;
  directory_heap s h a : directory_open s a -> directory_open (with_heap h s) a;
  stored_bytes s x l c : stored s x l c -> Forall is_byte c;
  open_stream A h0 x l k s a s' : usable s -> synced s -> owns A h0 k s -> open F x l FILE_MODE_READ s = (Ok a, s') ->
    directory_open s' a \/ exists c, stored s x l c /\ stream s' a c 0;
  stat_stream a s n fl s' : stat F a s = (Ok (n, fl), s') ->
    ~ directory_open s a /\ forall c o, stream s a c o -> n = Z.of_nat (length c);
  read_stream a c o size n s k bs s' : stream s a c o -> o <= Z.of_nat (length c) -> 0 < size < 2 ^ 32 -> 0 <= n < 2 ^ 32 ->
    read F a size n s = (Ok (k, bs), s') ->
    bs = take (Z.to_nat (size * n)) (drop (Z.to_nat o) c) /\ k = Z.of_nat (length bs) / size /\
    stream s' a c (o + Z.of_nat (length bs))
}.

#[export] Instance fat16_laws {D H} `{BlockDeviceLaws D} `{AllocatorLaws H} : FilesystemLaws (fat16_init (D := D) (H := H)).
Proof.
  unshelve refine {|
    usable := browsable;
    opened s a l := exists d, desc_store (priv s) !! a = Some d /\ l = a :: item_cells (desc_item d);
    synced s := root_cached (img (dev s)) (priv s);
    stored := fat_stored;
    stream := fat_stream;
    directory_open := fat_directory_open |}; try done.
  - intros s h [[G R] Sh]. constructor; [by constructor|done].
  - intros A h0 x l md k s r s' B Ho E. split; [intros ->; exact (proj1 (open_read_found A h0 k x l s r s' B Ho E))|].
    apply (open_yields A h0 _ _ _ k) in E; [|done|done]. destruct r as [a|e]; [|apply E].
    destruct E as (y & pos & _ & _ & Hs & Ho'). eexists. split; [by exists (FatFd y pos md)|done].
  - intros a cells size n s r s' B (d & Hd & ->) Er. pose proof Er as E. apply read_calm in E; [|apply B].
    split; [by eapply calm_browsable|]. split; [|split; [apply E|]].
    2:{ intros Hs Hn. eapply read_bounds; [apply B|done..|exact Er]. }
    pose proof (ca_item _ _ E a) as Hi. rewrite Hd in Hi. simpl in Hi.
    destruct (desc_store (priv s') !! a) as [d'|] eqn:Hd'; [|done]. injection Hi as Hi. exists d'. by rewrite Hi.
  - intros a s r s' B E. exact (close_browsable a s r s' B E).
  - intros A h0 a cells k s r s' (d & Hd & ->) Ho E. injection E as <- <-. split; [done|].
    by eapply close_owns.
  - intros a s r s' E. simpl in E. unfold fat16_stat, with_file in E. rewrite io_gets in E.
    destruct (_ !! _) as [d|]; [|by injection E as <- <-]. destruct (body _); injection E as <- <-; [done|].
    split; [done|apply u32_range].
  - intros s h a c o (d & it & [] & Hc & Ho). exists d, it. by split; [constructor|].
  - intros s x l c (it & pos & _ & _ & ->). apply file_bytes_byte.
  - intros A h0 x l k s a s' B Hc Ho E. by eapply open_read_stream.
  - intros a s n fl s' E. simpl in E. unfold fat16_stat, with_file in E. rewrite io_gets in E.
    destruct (_ !! a) as [d|] eqn:Hd; [|done]. destruct (body _) as [|ptr it] eqn:Eb; [done|]. injection E as <- _ _. split.
    + intros (d' & p' & dir & Hd' & Hb'). rewrite Hd in Hd'. injection Hd' as <-. by rewrite Eb in Hb'.
    + intros c o (d' & it' & [_ Hd' [p' Hb'] _ Hsz] & -> & _). rewrite Hd in Hd'. injection Hd' as <-. rewrite Eb in Hb'. injection Hb' as <- <-.
      rewrite file_bytes_length, u32_small; lia.
  - intros a c o size n s k bs s' St Ho Hs Hn E. by eapply fat_stream_read.
Defined.

(** ** The tables *)

Lemma free_index_spec {A} (t : list (option A)) i : free_index t = Some i ->
  t !! i = Some None /\ forall j, (j < i)%nat -> exists x, t !! j = Some (Some x).
Proof.
  revert i. induction t as [|[x|] t IH]; intros i E; simpl in E; [done| |].
  - destruct (free_index t) as [k|]; [|done]. injection E as <-. destruct (IH k eq_refl) as [Hk Hl]. split; [done|].
    intros [|j] Hj; [by exists x|]. apply Hl. lia.
  - injection E as <-. split; [done|]. intros j Hj. lia.
Qed.

Lemma free_index_full {A} (t : list (option A)) : free_index t = None -> Forall is_Some t.
Proof.
  induction t as [|[x|] t IH]; intros E; simpl in E; [constructor| |done].
  destruct (free_index t); [done|]. constructor; [by eexists|by apply IH].
Qed.

Lemma lift_inv {D H A} (m : io (fs D H) A) v r v' : lift m v = (r, v') ->
  exists s, m (vol v) = (r, s) /\ v' = with_vol s v.
Proof. unfold lift. destruct (m (vol v)) as [r1 s]. intros [= <- <-]. by exists s. Qed.

Section balance.
Context {D H : Type} `{BlockDeviceLaws D} `{AllocatorLaws H} (F : filesystem D H) `{!FilesystemLaws F}.
Implicit Types v : vfs D H.

(** Between two calls: the table has its length, and the file system of the disk, if any, is [F] with a
    volume it can use. *)
Record vfs_ok v : Prop := VfsOk {
  ok_table : Z.of_nat (length (file_descriptors v)) = RORTHOX_MAX_FILE_DESCRIPTORS;
  ok_disk f : disk_filesystem v = Some f -> f = F /\ usable (vol v)
}.

Section ownership.
Context (A : gmap Z Z) (h0 : H).
Local Abbreviation owns := (owns A h0).

Lemma new_descriptor_spec l v r v' :
  owns l (vol v) -> file_new_descriptor v = (r, v') ->
  match r with
  | Ok d => exists i h, free_index (file_descriptors v) = Some i /\ d = FileDescriptor (fd_addr d) (Z.of_nat i + 1) None 0 /\
      v' = with_table (<[i := Some d]> (file_descriptors v)) (with_vol (with_heap h (vol v)) v) /\
      owns (fd_addr d :: l) (vol v')
  | Err e => e = - ENOMEM /\ v' = v
  end.
Proof.
  intros Ho E. unfold file_new_descriptor in E. rewrite io_gets in E.
  destruct (free_index (file_descriptors v)) as [i|] eqn:Ei; [|injection E as <- <-; done].
  apply io_bind_inv in E as [(e & E & ->)|(a & v1 & E & E1)]; apply lift_inv in E as (s & E & ->);
    pose proof E as Ez; apply (zalloc_owns _ _ _ sizeof_file_descriptor _ _ _ Ho ltac:(done)) in E as (a' & [=] & _ & Ha). subst a'.
  rewrite io_fail_if in E1. destruct Ha as [[-> ->]|[Ha Ho1]].
  { injection E1 as <- <-. split; [done|]. by destruct v. }
  rewrite (proj2 (Z.eqb_neq a 0)), io_modify in E1 by done. injection E1 as <- <-.
  unfold zalloc in Ez. destruct (kmalloc _ _) as [a' h]. injection Ez as -> <-. by exists i, h.
Qed.

Lemma free_descriptor_owns d l v : owns (fd_addr d :: l) (vol v) -> owns l (vol (file_free_descriptor d v)).
Proof. intros Ho. by apply free_owns. Qed.

(** A file opened in the state [v]: its descriptor is in the first free entry, with the handle [p]. *)
Record fopened (l : list Z) v v' (fd : Z) : Prop := Fopened {
  fo_index : free_index (file_descriptors v) = Some (Z.to_nat (fd - 1));
  fo_fd : 1 <= fd;
  fo_disk : disk_filesystem v' = Some F;
  fo_entry : exists a p cells,
    file_descriptors v' = <[Z.to_nat (fd - 1) := Some (FileDescriptor a fd (Some F) p)]> (file_descriptors v) /\
    opened (vol v') p cells /\ owns (a :: cells ++ l) (vol v')
}.

Definition fopen_done (md : Z) (l : list Z) v (r : result Z) v' : Prop :=
  disk_filesystem v' = disk_filesystem v /\ (md = FILE_MODE_READ -> vfs_ok v') /\
  match r with
  | Ok fd => fopened l v v' fd
  | Err _ => file_descriptors v' = file_descriptors v /\ owns l (vol v')
  end.

Lemma vfs_ok_step v v' :
  vfs_ok v -> length (file_descriptors v') = length (file_descriptors v) -> disk_filesystem v' = disk_filesystem v ->
  usable (vol v') -> vfs_ok v'.
Proof. intros [Hl Hd] Ht Hf Hu. constructor; [by rewrite Ht|]. rewrite Hf. intros f Hv. split; [by apply Hd|done]. Qed.

(** The descriptor is allocated first, or last. *)
Lemma fopen_root_spec md root l v r v' :
  vfs_ok v -> owns l (vol v) -> fopen_root md root v = (r, v') -> fopen_done md l v r v'.
Proof.
  intros V Ho E. unfold fopen_root in E. destruct (first root) as [|x xs]; [by injection E as <- <-|].
  rewrite io_fail_if in E. destruct (negb (disk_get _)); [by injection E as <- <-|]. rewrite io_gets in E.
  destruct (disk_filesystem v) as [f|] eqn:Hf; [|by injection E as <- <-]. destruct (ok_disk _ V _ Hf) as [-> Hu].
  rewrite io_fail_if in E. destruct (md =? FILE_MODE_INVALID); [by injection E as <- <-|].
  destruct (Z.eqb_spec md FILE_MODE_READ) as [Hmd|Hmd]; cbn [negb] in E.
  - rewrite io_mret in E. apply on_error_inv in E as (v2 & E & ->).
    enough (fopen_done md l v r v2) by (by destruct r).
    apply io_bind_inv in E as [(e & E & ->)|(p & v1 & E & E1)]; apply lift_inv in E as (s1 & E & ->);
      apply (open_law A h0 _ _ _ l) in E as [Hus E]; try done.
    { split; [done|]. split; [|done]. intros _. eapply vfs_ok_step; [done..|by apply Hus]. }
    destruct E as (cells & Hop & Ho1).
    apply io_bind_inv in E1 as [(e & E1 & ->)|(d & v3 & E1 & E2)]; apply on_error_inv in E1 as (v4 & E1 & ->);
      apply (new_descriptor_spec (cells ++ l)) in E1; [|done| |done].
    + destruct E1 as [_ ->]. simpl. destruct (close F p s1) as [rc s2] eqn:Ec.
      destruct (close_law _ _ _ _ _ _ _ _ Hop Ho1 Ec) as [_ Ho2]. split; [done|]. split; [|done].
      intros _. eapply vfs_ok_step; [done..|]. eapply close_usable; [by apply Hus|done].
    + destruct E1 as (i & h & Hi & Hd & -> & Ho2). injection E2 as <- <-. simpl in *. split; [done|]. split.
      { intros _. eapply vfs_ok_step; [done|by simpl; rewrite !length_insert|done|]. by apply usable_heap, Hus. }
      rewrite Hd. simpl. constructor; [|lia|done|]; replace (Z.to_nat (Z.of_nat i + 1 - 1)) with i by lia; [done|].
      exists (fd_addr d), p, cells. simpl. rewrite list_insert_insert_eq. split; [done|]. split; [by apply opened_heap|done].
  - apply io_bind_inv in E as [(e & E & ->)|(od & v1 & E & E1)];
      [apply io_bind_inv in E as [(e' & E & [= <-])|(d & v1 & E & E2)]; [|done]|
       apply io_bind_inv in E as [(e' & E & [= <-])|(d & v2 & E & [= <- <-])]];
      apply (new_descriptor_spec l) in E; [|done| |done].
    + by destruct E as [_ ->].
    + destruct E as (i & h & Hi & Hd & -> & Ho1). apply on_error_inv in E1 as (v2 & E & ->). simpl in Ho1.
      assert (Hidx : Z.to_nat (index d - 1) = i) by (rewrite Hd; simpl; lia).
      destruct (free_index_spec _ _ Hi) as [Hnone _].
      apply io_bind_inv in E as [(e & E & ->)|(p & v1 & E & E1)]; apply lift_inv in E as (s1 & E & ->);
        apply (open_law A h0 _ _ _ (fd_addr d :: l)) in E as [_ E]; try done; try by apply usable_heap.
      * split; [done|]. split; [done|]. split; [|by apply free_owns].
        simpl. rewrite Hidx, list_insert_insert_eq. by apply list_insert_id.
      * destruct E as (cells & Hop & Ho2). rewrite io_mret in E1. injection E1 as <- <-. split; [done|]. split; [done|].
        rewrite Hd. simpl. constructor; [|lia|done|]; replace (Z.to_nat (Z.of_nat i + 1 - 1)) with i by lia; [done|].
        exists (fd_addr d), p, cells. simpl. rewrite list_insert_insert_eq. split; [done|]. split; [done|].
        eapply owns_perm; [|exact Ho2]. solve_Permutation.
Qed.

Lemma fopened_fd l v v' fd : vfs_ok v -> fopened l v v' fd ->
  1 <= fd <= RORTHOX_MAX_FILE_DESCRIPTORS /\ exists a p cells,
    file_get_descriptor fd v' = Some (FileDescriptor a fd (Some F) p) /\
    opened (vol v') p cells /\ owns (a :: cells ++ l) (vol v').
Proof.
  intros V [Hi Hpos Hdk (a & p & cells & Ht & Hop & Ho)]. destruct (free_index_spec _ _ Hi) as [Hl%lookup_lt_Some _].
  pose proof (ok_table _ V) as Hlen. split; [lia|]. exists a, p, cells. split; [|done].
  unfold file_get_descriptor. rewrite (proj2 (Z.leb_gt fd 0)), (proj2 (Z.ltb_ge _ fd)) by lia. cbn [orb].
  by rewrite Ht, list_lookup_insert_eq.
Qed.

(** Closing releases what opening allocated. *)
Lemma fclose_spec l v v' fd : vfs_ok v -> fopened l v v' fd ->
  exists v'', fclose fd v' = (Ok 0, v'') /\ file_descriptors v'' = file_descriptors v /\ owns l (vol v'').
Proof.
  intros V Fo. destruct (fopened_fd _ _ _ _ V Fo) as (_ & a & p & cells & Hg & Hop & Ho).
  destruct Fo as [Hi Hpos Hdk (a' & p' & cells' & Ht & _ & _)]. destruct (free_index_spec _ _ Hi) as [Hnone _].
  unfold fclose, with_descriptor. rewrite io_gets, Hg. cbn [fd_filesystem private].
  destruct (close F p (vol v')) as [rc s] eqn:Ec.
  assert (Ho' : owns (cells ++ a :: l) (vol v')) by (eapply owns_perm; [|exact Ho]; solve_Permutation).
  destruct (close_law _ _ _ _ _ _ _ _ Hop Ho' Ec) as [-> Ho1]. cbn [Z.eqb]. eexists. split; [reflexivity|]. split.
  - simpl. rewrite Ht, list_insert_insert_eq. by apply list_insert_id.
  - by apply free_owns.
Qed.

(** Reading leaves the open file open. *)
Lemma fread_spec l v v1 fd size n r v2 :
  vfs_ok v -> fopened l v v1 fd -> vfs_ok v1 -> fread size n fd v1 = (r, v2) ->
  fopened l v v2 fd /\ vfs_ok v2 /\ disk_filesystem v2 = disk_filesystem v1 /\ heap (vol v2) = heap (vol v1) /\
  (0 <= size -> 0 <= n < 2 ^ 32 -> match r with Ok (_, bs) => Z.of_nat (length bs) <= size * n | Err e => e < 0 end).
Proof.
  intros V Fo V1 E. pose proof (fo_disk _ _ _ _ Fo) as Hdisk. destruct (fopened_fd _ _ _ _ V Fo) as (Hfd & a & p & cells & Hg & Hop & Ho).
  destruct Fo as [Hi Hpos Hdk (a' & p' & cells' & Ht & Hop' & Ho')]. unfold fread in E. rewrite io_fail_if in E.
  destruct (_ || _); [injection E as <- <-; split; [by constructor; eauto 10|done]|].
  unfold with_descriptor in E. rewrite io_gets, Hg in E. cbn [fd_filesystem private] in E. apply lift_inv in E as (s & E & ->).
  assert (Hp : p' = p).
  { unfold file_get_descriptor in Hg. rewrite (proj2 (Z.leb_gt fd 0)), (proj2 (Z.ltb_ge _ fd)) in Hg by lia. cbn [orb] in Hg.
    destruct (free_index_spec _ _ Hi) as [Hl%lookup_lt_Some _]. rewrite Ht, list_lookup_insert_eq in Hg by done. by injection Hg as <- <-. }
  subst p'. destruct (read_law _ _ _ _ _ _ _ (proj2 (ok_disk _ V1 _ Hdisk)) Hop' E) as (Hu & Hop2 & Hh & Hlen).
  split; [|split; [by eapply vfs_ok_step|done]]. constructor; [done..|]. exists a', p, cells'. split; [done|]. split; [done|].
  unfold FatDirScan.owns in *. simpl. by rewrite Hh.
Qed.

Lemma fclose_ok l v v' fd r v'' : vfs_ok v -> fopened l v v' fd -> vfs_ok v' ->
  fclose fd v' = (r, v'') -> vfs_ok v'' /\ disk_filesystem v'' = disk_filesystem v'.
Proof.
  intros V Fo V' E. pose proof (fo_disk _ _ _ _ Fo) as Hd. destruct (fopened_fd _ _ _ _ V Fo) as (Hfd & a & p & cells & Hg & Hop & Ho).
  unfold fclose, with_descriptor in E. rewrite io_gets, Hg in E. cbn [fd_filesystem private] in E.
  destruct (close F p (vol v')) as [rc s] eqn:Ec. pose proof (close_usable _ _ _ _ (proj2 (ok_disk _ V' _ Hd)) Ec) as Hu.
  assert (Hv : exists t h, v'' = with_table t (with_vol (with_heap h s) v') /\ length t = length (file_descriptors v')).
  { unfold status in E. destruct (rc <? 0), (rc =? 0); injection E as _ <-.
    1, 3: exists (<[Z.to_nat (fd - 1) := None]> (file_descriptors v')), (kfree (heap s) a); split; [reflexivity|apply length_insert].
    all: exists (file_descriptors v'), (heap s); by destruct v', s. }
  destruct Hv as (t & h & -> & Hlen). split; [|done]. eapply vfs_ok_step; [done..|]. by apply usable_heap.
Qed.

(** Another heap under the open file. *)
Lemma fopened_heap l l' v v1 fd h :
  (forall c, owned_by (fun _ => True) A h0 (c ++ l) (heap (vol v1)) -> owned_by (fun _ => True) A h0 (c ++ l') h) ->
  fopened l v v1 fd -> fopened l' v (with_vol (with_heap h (vol v1)) v1) fd.
Proof.
  intros Hc [Hi Hpos Hdk (a & p & cells & Ht & Hop & Ho)]. constructor; [done..|]. exists a, p, cells. split; [done|].
  split; [by apply opened_heap|]. by apply (Hc (a :: cells)).
Qed.
End ownership.

(** Closing releases nothing else. *)
Lemma fclose_runs A h0 l v v' fd r v'' q n :
  vfs_ok v -> fopened A h0 l v v' fd -> fclose fd v' = (r, v'') ->
  run (heap (vol v')) q n -> q ∈ l \/ is_Some (A !! q) -> run (heap (vol v'')) q n.
Proof.
  intros V Fo E Hq Hin. destruct Fo as [Hi Hpos Hdk (a & p & cells & Ht & Hop & Ho)].
  assert (Hnot : q ∉ a :: cells).
  { destruct Ho as (_ & B & _ & _ & Hd & Hn & He & _). change (a :: cells ++ l) with ((a :: cells) ++ l) in *.
    apply NoDup_app in Hn as (_ & Hn & _). intros Hc. destruct Hin as [Hl|[m Hm]]; [by apply (Hn q)|].
    destruct (proj1 (He q) ltac:(set_solver)) as [m' Hm']. by rewrite (map_disjoint_Some_l _ _ _ _ Hd Hm) in Hm'. }
  destruct (owned_rebase _ _ _ (a :: cells) l _ Ho) as (A' & h0' & Ho' & _ & Hr').
  assert (Fo' : fopened A' h0' [] v v' fd).
  { constructor; [done..|]. exists a, p, cells. split; [done|]. split; [done|]. by rewrite app_nil_r. }
  destruct (fclose_spec _ _ _ _ _ _ V Fo') as (v2 & E2 & _ & Ho2). rewrite E in E2. injection E2 as _ <-.
  eapply owned_old; [exact Ho2|]. by apply Hr'.
Qed.

Lemma vfs_ok_heap v h : vfs_ok v -> vfs_ok (with_vol (with_heap h (vol v)) v).
Proof. intros [Hl Hd]. constructor; [done|]. intros f Hf. destruct (Hd f Hf). split; [done|by apply usable_heap]. Qed.

(** The path is released whatever happens. *)
Lemma fopen_status_spec A filename mode_str v r v' :
  vfs_ok v -> live (heap (vol v)) A -> fopen_status filename mode_str v = (r, v') ->
  fopen_done A (heap (vol v)) (file_get_mode_by_string mode_str) [] v r v'.
Proof.
  intros V Hl E. unfold fopen_status in E. rewrite io_fail_if in E.
  assert (Hno : fopen_done A (heap (vol v)) (file_get_mode_by_string mode_str) [] v (Err (- EINVARG)) v) by (do 3 (split; [done|]); by apply owned_nil).
  destruct (_ && _); [by injection E as <- <-|]. unfold mbind, io_bind in E.
  destruct (pathparser_parse filename (heap (vol v))) as [root h] eqn:Ep. apply (parse_owned _ A) in Ep; [|done].
  destruct root as [root|].
  2:{ destruct Ep as [-> _]. injection E as <- <-. destruct v as [[d h p] df t1 t2]. exact Hno. }
  destruct Ep as (_ & _ & _ & Ho). apply (owned_weaken _ (fun _ => True)) in Ho; [|done].
  apply finally_inv in E as (v2 & E & ->).
  destruct (fopen_root_spec A (heap (vol v)) _ _ _ _ _ _ (vfs_ok_heap _ h V) Ho E) as (Hd & Hfs & Hr).
  assert (Hfree : forall k, owns A (heap (vol v)) ((root_addr root :: cells (first root)) ++ k) (vol v2) ->
    owns A (heap (vol v)) k (vol (free_path (Some root) v2))).
  { intros k Hk. by apply pathparser_free_owns. }
  split; [done|]. split; [intros Hm; by apply vfs_ok_heap, Hfs|]. destruct r as [fd|e].
  - destruct Hr as [Hi Hpos Hdk (a & p & cls & Ht & Hop & Hown)]. constructor; [done..|]. exists a, p, cls. split; [done|].
    split; [by apply opened_heap|]. apply Hfree. eapply owns_perm; [|exact Hown]. simpl. rewrite app_nil_r. solve_Permutation.
  - destruct Hr as [Ht Hown]. split; [done|]. apply Hfree. by rewrite app_nil_r.
Qed.
(** *** The contents of an open file *)

(** The descriptor is open on a file with the contents [c], at the position [o]. *)
Definition fstream v (fd : Z) (c : list Z) (o : Z) : Prop :=
  exists d, file_get_descriptor fd v = Some d /\ fd_filesystem d = Some F /\ stream (vol v) (private d) c o.

(** The disk holds a file with the contents [c] under the path. *)
Definition on_disk v (filename c : list Z) : Prop :=
  exists x l, parts_of filename = x :: l /\ stored (vol v) x l c.

Lemma fstream_heap v h fd c o : fstream v fd c o -> fstream (with_vol (with_heap h (vol v)) v) fd c o.
Proof. intros (d & Hd & Hf & Hs). exists d. split; [done|]. split; [done|]. by apply stream_heap. Qed.

(** The file opened for reading: the one of the path, or a directory, of which [fstat] fails. *)
Definition opens v (filename : list Z) v' (fd : Z) : Prop :=
  exists d, file_get_descriptor fd v' = Some d /\ fd_filesystem d = Some F /\
    (directory_open (vol v') (private d) \/ exists c, on_disk v filename c /\ stream (vol v') (private d) c 0).

Lemma opens_heap v filename v' h fd : opens v filename v' fd -> opens v filename (with_vol (with_heap h (vol v')) v') fd.
Proof.
  intros (d & Hd & Hf & Hs). exists d. split; [done|]. split; [done|].
  destruct Hs as [Hs|(c & Hc & Hs)]; [left; by apply directory_heap|right; exists c; split; [done|by apply stream_heap]].
Qed.

Lemma fopen_root_opens A h0 k root x l v fd v' :
  vfs_ok v -> synced (vol v) -> owns A h0 k (vol v) -> map part (first root) = x :: l ->
  fopen_root FILE_MODE_READ root v = (Ok fd, v') ->
  exists d, file_descriptors v' !! Z.to_nat (fd - 1) = Some (Some d) /\ fd_filesystem d = Some F /\
    (directory_open (vol v') (private d) \/ exists c, stored (vol v) x l c /\ stream (vol v') (private d) c 0).
Proof.
  intros V Sy Ho Hp E. unfold fopen_root in E. destruct (first root) as [|y ys]; [done|]. injection Hp as <- <-.
  rewrite io_fail_if in E. destruct (negb (disk_get _)); [done|]. rewrite io_gets in E.
  destruct (disk_filesystem v) as [f|] eqn:Hf; [|done]. destruct (ok_disk _ V _ Hf) as [-> Hu].
  rewrite io_fail_if in E. change (FILE_MODE_READ =? FILE_MODE_INVALID) with false in E.
  change (FILE_MODE_READ =? FILE_MODE_READ) with true in E. cbn [negb] in E. rewrite io_mret in E.
  apply on_error_inv in E as (v2 & E & ->). apply io_bind_ok in E as (p & v1 & E & E1). apply lift_inv in E as (s1 & E & ->).
  pose proof (open_stream A h0 _ _ k _ _ _ Hu Sy Ho E) as Hs. apply (open_law A h0 _ _ _ k) in E as [_ (cells & Hop & Ho1)]; [|done..].
  apply io_bind_ok in E1 as (d & v3 & E1 & E2). apply on_error_inv in E1 as (v4 & E1 & ->).
  apply (new_descriptor_spec A h0 (cells ++ k)) in E1; [|done]. destruct E1 as (i & h & Hi & Hd & -> & _).
  destruct (free_index_spec _ _ Hi) as [Hl%lookup_lt_Some _]. injection E2 as <- <-. rewrite Hd. simpl in *.
  eexists. rewrite list_lookup_insert_eq by (rewrite length_insert; lia). split; [reflexivity|]. split; [done|].
  simpl. destruct Hs as [Hs|(c & Hc & Hs)]; [left; by apply directory_heap|right; exists c; split; [done|by apply stream_heap]].
Qed.

Lemma fopen_opens A filename v fd v' :
  vfs_ok v -> synced (vol v) -> live (heap (vol v)) A -> fopen_status filename [114] v = (Ok fd, v') -> opens v filename v' fd.
Proof.
  intros V Sy Hl E. destruct (fopen_status_spec A _ _ _ _ _ V Hl E) as (_ & _ & Fo).
  destruct (fopened_fd _ _ _ _ _ _ V Fo) as ([Hfd1 Hfd2] & _). unfold fopen_status in E.
  change (file_get_mode_by_string [114]) with FILE_MODE_READ in E. rewrite io_fail_if in E. change (FILE_MODE_READ =? FILE_MODE_READ) with true in E.
  cbn [negb andb] in E. unfold mbind, io_bind in E. destruct (pathparser_parse filename (heap (vol v))) as [root h] eqn:Ep.
  apply (parse_owned _ A) in Ep; [|done]. apply finally_inv in E as (v2 & E & ->). destruct root as [root|]; [|done].
  destruct Ep as (_ & _ & Hp & Ho). apply (owned_weaken _ (fun _ => True)) in Ho; [|done].
  destruct (parts_of filename) as [|x l] eqn:Ex; [destruct (first root) eqn:Er; [unfold fopen_root in E; by rewrite Er in E|done]|].
  apply (fopen_root_opens A (heap (vol v)) _ _ x l _ _ _ (vfs_ok_heap _ h V) (synced_heap _ h Sy) Ho Hp) in E as (d & Hd & Hf & Hs).
  exists d. split; [|split; [done|]].
  - unfold file_get_descriptor. rewrite (proj2 (Z.leb_gt fd 0)), (proj2 (Z.ltb_ge _ fd)) by lia. cbn [orb]. simpl. by rewrite Hd.
  - destruct Hs as [Hs|(c & Hc & Hs)]; [left; by apply directory_heap|]. right. exists c. split; [|by apply stream_heap].
    exists x, l. split; [done|]. exact (stored_heap _ h _ _ _ Hc).
Qed.

Lemma opens_fstat v filename v1 fd n fl v2 :
  opens v filename v1 fd -> fstat fd v1 = (Ok (n, fl), v2) ->
  exists c, on_disk v filename c /\ fstream v1 fd c 0 /\ n = Z.of_nat (length c).
Proof.
  intros (d & Hd & Hf & Hs) E. unfold fstat, with_descriptor in E. rewrite io_gets, Hd, Hf in E. apply lift_inv in E as (s & E & _).
  apply stat_stream in E as [Hn Hlen]. destruct Hs as [Hs|(c & Hc & Hs)]; [done|]. exists c. split; [done|]. split; [by exists d|by eapply Hlen].
Qed.

Lemma fread_stream v fd c o size n k bs v' :
  fstream v fd c o -> o <= Z.of_nat (length c) -> 0 < size < 2 ^ 32 -> 0 <= n < 2 ^ 32 -> fread size n fd v = (Ok (k, bs), v') ->
  bs = take (Z.to_nat (size * n)) (drop (Z.to_nat o) c) /\ k = Z.of_nat (length bs) / size /\
  fstream v' fd c (o + Z.of_nat (length bs)).
Proof.
  intros (d & Hd & Hf & Hs) Ho Hsz Hn E. unfold fread in E. rewrite io_fail_if in E. destruct (_ || _); [done|].
  unfold with_descriptor in E. rewrite io_gets, Hd, Hf in E. apply lift_inv in E as (s & E & ->).
  apply (read_stream _ c o) in E as (Hb & Hk & Hs'); [|done..]. split; [done|]. split; [done|]. by exists d.
Qed.
End balance.

(** ** Properties *)

(** C26: Opening a file through the file layer and closing it again. The path, the table of
    descriptors and the file system are composed: a success takes the first free entry of the table,
    returns its number, between 1 and 512, and changes no other entry; closing it gives the heap and
    the table back. A failure at any point (a bad path, a missing disk or file system, a full table, no memory, an
    error of the file system) leaves the heap and the table as they were. *)
Theorem fopen_fclose_balance {D H} `{BlockDeviceLaws D} `{AllocatorLaws H} (F : filesystem D H) `{!FilesystemLaws F}
    filename mode_str (v : vfs D H) A r v' :
  vfs_ok F v -> live (heap (vol v)) A -> fopen_status filename mode_str v = (r, v') ->
  match r with
  | Ok fd => 1 <= fd <= RORTHOX_MAX_FILE_DESCRIPTORS /\ free_index (file_descriptors v) = Some (Z.to_nat (fd - 1)) /\
      (exists d, file_get_descriptor fd v' = Some d /\ index d = fd /\ fd_filesystem d = Some F) /\
      (forall fd', fd' <> fd -> file_get_descriptor fd' v' = file_get_descriptor fd' v) /\
      exists v'', fclose fd v' = (Ok 0, v'') /\ heap (vol v'') = heap (vol v) /\ file_descriptors v'' = file_descriptors v
  | Err _ => heap (vol v') = heap (vol v) /\ file_descriptors v' = file_descriptors v
  end.
Proof.
  intros V Hl E. destruct (fopen_status_spec F A _ _ _ _ _ V Hl E) as (_ & _ & Hr). destruct r as [fd|e].
  - destruct (fopened_fd F _ _ _ _ _ _ V Hr) as (Hfd & a & p & cells & Hg & _).
    destruct (fclose_spec F _ _ _ _ _ _ V Hr) as (v'' & Ec & Ht & Ho). destruct Hr as [Hi Hpos Hdk (a' & p' & cls & Ht' & _)].
    split; [done|]. split; [done|]. split; [by eexists|]. split.
    + intros fd' Hne. unfold file_get_descriptor. rewrite Ht'. destruct (Z.leb_spec fd' 0); [done|].
      cbn [orb]. destruct (_ <? fd'); [done|]. rewrite list_lookup_insert_ne by lia. done.
    + exists v''. split; [done|]. split; [by eapply owned_done|done].
  - destruct Hr as [Ht Ho]. split; [by eapply owned_done|done].
Qed.

Lemma fstat_state {D H} `{BlockDeviceLaws D} `{AllocatorLaws H} (F : filesystem D H) `{!FilesystemLaws F} fd d (v : vfs D H) r v' :
  file_get_descriptor fd v = Some d -> fd_filesystem d = Some F -> fstat fd v = (r, v') -> v' = v.
Proof.
  intros Hd Hf E. unfold fstat, with_descriptor in E. rewrite io_gets, Hd, Hf in E. apply lift_inv in E as (s & E & ->).
  apply stat_law in E as [-> _]. by destruct v.
Qed.

(** The calls for programs go through file_open. It gives a descriptor only for a path of the
    strict form, for one of the three modes and when the status of the file can be read (so never for
    a directory); closing the descriptor gives the heap and the table back. Every failure, also of the
    status behind an open file, leaves the heap and the table as they were. *)
Theorem file_open_checked {D H} `{BlockDeviceLaws D} `{AllocatorLaws H} (F : filesystem D H) `{!FilesystemLaws F}
    filename mode (v : vfs D H) A r v' :
  vfs_ok F v -> live (heap (vol v)) A -> file_open filename mode v = (r, v') ->
  match r with
  | Ok fd => mode <= FILE_MODE_APPEND /\ file_validate_path (Some filename) = 0 /\
      (exists st, fstat fd v' = (Ok st, v')) /\
      exists v'', fclose fd v' = (Ok 0, v'') /\ heap (vol v'') = heap (vol v) /\ file_descriptors v'' = file_descriptors v
  | Err _ => heap (vol v') = heap (vol v) /\ file_descriptors v' = file_descriptors v
  end.
Proof.
  intros V Hl E. unfold file_open in E. rewrite io_fail_if in E. destruct (validate_path_spec filename) as [_ Hp].
  destruct (Z.ltb_spec FILE_MODE_APPEND mode) as [|Hm]; cbn [orb] in E; [by injection E as <- <-|].
  destruct (Z.ltb_spec (file_validate_path (Some filename)) 0) as [|Hv]; [by injection E as <- <-|].
  destruct Hp as [Hp|Hp]; [|rewrite Hp in Hv; by destruct Hv].
  apply io_bind_inv in E as [(e & E & ->)|(fd & v1 & E & E1)];
    destruct (fopen_status_spec F A _ _ _ _ _ V Hl E) as (_ & _ & Hr).
  { destruct Hr as [Ht Ho]. split; [by eapply owned_done|done]. }
  destruct (fopened_fd F _ _ _ _ _ _ V Hr) as (Hfd & a & p & cells & Hg & _).
  destruct (fclose_spec F _ _ _ _ _ _ V Hr) as (v'' & Ec & Ht & Ho).
  rewrite (proj2 (Z.ltb_lt 0 fd)) in E1 by lia.
  apply io_bind_inv in E1 as [(e & E1 & ->)|(st & v2 & E1 & E2)]; apply on_error_inv in E1 as (v3 & E1 & ->);
    pose proof (fstat_state F _ _ _ _ _ Hg eq_refl E1) as ->.
  - rewrite Ec. split; [by eapply owned_done|done].
  - injection E2 as <- <-. split; [done|]. split; [done|]. split; [by eexists|]. exists v''.
    split; [done|]. split; [by eapply owned_done|done].
Qed.

(** The strict form of a path is decided exactly: 0:/ and names separated by single slashes, each
    of one to eight printable characters without the reserved ones and with an extension of one to three or none, less than 108
    characters in all. The parser then finds exactly the names between the slashes, and each of them
    can be stored in a directory entry. *)
Theorem validate_path_exact filename :
  (file_validate_path (Some filename) = 0 <->
     strlen filename < RORTHOX_MAX_PATH /\ take 3 filename = [48; 58; 47] /\
     Forall valid_name (fields (drop 3 filename))) /\
  (file_validate_path (Some filename) = 0 \/ file_validate_path (Some filename) = - EINVARG) /\
  (file_validate_path (Some filename) = 0 -> parts_of filename = fields (drop 3 filename) /\
     forall n, n ∈ parts_of filename -> exists b e, create_name n [] [] false = Some (map upper b, map upper e)).
Proof.
  destruct (validate_path_spec filename) as [Hv Hr]. split; [done|]. split; [done|]. intros (_ & _ & Hf)%Hv.
  unfold parts_of. rewrite leading_full by done. split; [done|]. intros n Hn. eapply Forall_forall in Hf; [|done].
  destruct (valid_short n Hf) as (b & e & Hs). exists b, e. by eapply create_name_short.
Qed.

(** At the start the tables are cleared, the FAT16 driver is entered and the disk is tried. The
    invariant of the file layer holds from then on: the table of descriptors is empty and the file
    system of the disk, if it has been recognised, is FAT16 with a volume ready for lookup. *)
Theorem boot_file_layer {D H} `{BlockDeviceLaws D} `{AllocatorLaws H} (v : vfs D H) A :
  live (heap (vol v)) A ->
  exists v1, fs_init v = Some v1 /\ let v2 := disk_search_and_init v1 in
    vfs_ok fat16_init v2 /\ (forall a, img (dev (vol v2)) a = img (dev (vol v)) a) /\
    (disk_filesystem v2 = None -> heap (vol v2) = heap (vol v)) /\ exists l, owned_by (fun _ => True) A (heap (vol v)) l (heap (vol v2)).
Proof.
  intros Hl. eexists. split; [reflexivity|]. unfold disk_search_and_init, fs_resolve. cbn [with_disk_filesystem filesystems vol with_filesystems with_table].
  change (<[0%nat:=Some fat16_init]> (replicate (Z.to_nat RORTHOX_MAX_FILESYSTEMS) None)) with (Some (fat16_init (D := D) (H := H)) :: replicate 11 None).
  cbn [resolve_loop resolve fat16_init]. unfold mbind, io_bind.
  destruct (fat16_resolve (vol v)) as [r s] eqn:E. apply (resolve_spec A (heap (vol v)) []) in E as [Sd Hr]; [|by apply owned_nil].
  destruct r as [m|e]; simpl.
  - destruct Hr as [Ho Hf]. split; [|split; [apply Sd|split; [done|by eexists]]]. constructor; [done|]. intros f [= <-]. split; [done|]. by eapply fresh_browsable.
  - destruct Hr as [_ Ho]. split; [|split; [apply Sd|split; [intros _; by eapply owned_done|by eexists]]]. by constructor.
Qed.

(** ** Examples: the volume of FatProps.v *)

Definition demo_vfs : vfs ram_disk Heap.heap :=
  Vfs demo_fs (Some fat16_init) [Some fat16_init] (replicate 512 None).

Lemma demo_vfs_ok : vfs_ok fat16_init demo_vfs.
Proof. constructor; [done|]. intros f [= <-]. split; [done|apply demo_browsable]. Qed.

(** 0:/hello.txt *)
Definition demo_path : list Z := [48; 58; 47; 104; 101; 108; 108; 111; 46; 116; 120; 116].

Lemma fopen_fclose_balance_witness :
  exists v', fopen_status demo_path [114] demo_vfs = (Ok 1, v') /\
    exists v'', fclose 1 v' = (Ok 0, v'') /\ heap (vol v'') = heap (vol demo_vfs).
Proof.
  destruct (fopen_status demo_path [114] demo_vfs) as [r v'] eqn:E.
  pose proof (fopen_fclose_balance fat16_init demo_path [114] demo_vfs ∅ r v' demo_vfs_ok demo_heap_live E) as Hr.
  eval_result E. destruct Hr as (_ & _ & _ & _ & v'' & Hc & Hh & _). exists v'. split; [reflexivity|]. exists v''. exact (conj Hc Hh).
Defined.

(** The name of the volume's file, and a path that is too deep: HELLO.TXT is not a directory. *)
Lemma file_open_checked_witness :
  (exists v', file_open demo_path 0 demo_vfs = (Ok 1, v') /\ exists st, fstat 1 v' = (Ok st, v')) /\
  exists e v', file_open (demo_path ++ [47; 97]) 0 demo_vfs = (Err e, v') /\ heap (vol v') = heap (vol demo_vfs).
Proof.
  split.
  - destruct (file_open demo_path 0 demo_vfs) as [r v'] eqn:E.
    pose proof (file_open_checked fat16_init demo_path 0 demo_vfs ∅ r v' demo_vfs_ok demo_heap_live E) as Hr.
    eval_result E. destruct Hr as (_ & _ & Hs & _). exists v'. exact (conj eq_refl Hs).
  - destruct (file_open (demo_path ++ [47; 97]) 0 demo_vfs) as [r v'] eqn:E.
    pose proof (file_open_checked fat16_init _ 0 demo_vfs ∅ r v' demo_vfs_ok demo_heap_live E) as Hr.
    eval_result E. destruct Hr as [Hh _]. eexists _, v'. exact (conj eq_refl Hh).
Defined.

(** A strict path, and two that are not. *)
Lemma validate_path_exact_witness :
  parts_of demo_path = [[104; 101; 108; 108; 111; 46; 116; 120; 116]] /\
  file_validate_path (Some [48; 58; 47; 97; 47; 47; 98]) = - EINVARG /\ file_validate_path (Some [48; 58; 47; 46; 97]) = - EINVARG.
Proof.
  split; [|done]. destruct (validate_path_exact demo_path) as (_ & _ & Hp). by destruct (Hp eq_refl) as [-> _].
Defined.

Lemma boot_file_layer_witness :
  exists v1, fs_init (Vfs demo_boot None [] []) = Some v1 /\ vfs_ok fat16_init (disk_search_and_init v1).
Proof.
  destruct (boot_file_layer (Vfs demo_boot None [] []) ∅ demo_live) as (v1 & E & Hok & _). exists v1. exact (conj E Hok).
Defined.
