(* ===== verification/Elf.v ===== *)
(** * ELF programs (kernel/loader/formats/elfloader.c, elf.h)

    The headers of an ELF file as they lie in memory, the checks of [elf_validate_loaded], loading the
    segments of a file and releasing them. The file is read through the file layer of Vfs.v into the
    byte memory of Memory.v. *)

From stdpp Require Import base numbers list gmap.
From Stdlib Require Import ZArith Lia Sorted.
From S2P Require Import Prelude Alloc Heap Memory Paging Effects Disk StrLib PathParser Fat FatWrite FatProps.
From S2P Require Import FatDir FatDirScan FatOpen FatMount Vfs.

#[local] Set Default Goal Selector "!".

(** ** Constants and layout (elf.h, config.mk) *)

Definition PF_X : Z := 1.
Definition PF_W : Z := 2.
Definition PT_LOAD : Z := 1.
Definition PT_DYNAMIC : Z := 2.
Definition PT_INTERP : Z := 3.
Definition ET_EXEC : Z := 2.
Definition EI_CLASS : Z := 4.
Definition EI_DATA : Z := 5.
Definition EI_VERSION : Z := 6.
Definition EV_CURRENT : Z := 1.
Definition EM_386 : Z := 3.
Definition ELFCLASS32 : Z := 1.
Definition ELFDATA2LSB : Z := 1.
Definition RORTHOX_PROGRAM_VIRTUAL_ADDRESS : Z := 0x400000.
Definition RORTHOX_PROGRAM_VIRTUAL_ADDRESS_LIMIT : Z := 0x500000.
Definition sizeof_elf_header : Z := 52.
Definition sizeof_elf32_phdr : Z := 32.
Definition sizeof_elf_file : Z := 140.

Definition elf_signature : list Z := [0x7f; 69; 76; 70].

Definition load16 (m : mem) (a : Z) : Z := load8 m a + 256 * load8 m (a + 1).

Record elf32_phdr := Phdr {
  p_type : Z;
  p_offset : Z;
  p_vaddr : Z;
  p_paddr : Z;
  p_filesz : Z;
  p_memsz : Z;
  p_flags : Z;
  p_align : Z
}.

Record elf_header := ElfHeader {
  e_ident : list Z;
  e_type : Z;
  e_machine : Z;
  e_version : Z;
  e_entry : Z;
  e_phoff : Z;
  e_ehsize : Z;
  e_phentsize : Z;
  e_phnum : Z
}.

(** The structs at an address. *)
Definition phdr_at (m : mem) (a : Z) : elf32_phdr :=
  Phdr (load32 m a) (load32 m (a + 4)) (load32 m (a + 8)) (load32 m (a + 12)) (load32 m (a + 16))
    (load32 m (a + 20)) (load32 m (a + 24)) (load32 m (a + 28)).

Definition header_at (m : mem) (a : Z) : elf_header :=
  ElfHeader (bytes_at m a 16) (load16 m (a + 16)) (load16 m (a + 18)) (load32 m (a + 20)) (load32 m (a + 24))
    (load32 m (a + 28)) (load16 m (a + 40)) (load16 m (a + 42)) (load16 m (a + 44)).

(** A loaded file: the struct at [file_addr], with the pointers to the segments that [segment_memory]
    points to. *)
Record elf_file := ElfFile {
  file_addr : Z;
  in_memory_size : Z;
  segment_memory : Z;
  segments : list Z;
  elf_memory : Z;
  virtual_base_address : Z;
  virtual_end_address : Z;
  physical_base_address : Z;
  physical_end_address : Z
}.

(** [segment_count] is the length of the list. *)
Definition blank_file (a : Z) : elf_file := ElfFile a 0 0 [] 0 0 0 0 0.

Definition elf_valid_signature (buffer : list Z) : bool := bool_decide (take 4 buffer = elf_signature).

Definition elf_pheader (m : mem) (header : Z) : Z :=
  let off := e_phoff (header_at m header) in
  if off =? 0 then 0 else u32 (header + off).

Definition elf_program_header (m : mem) (header i : Z) : elf32_phdr :=
  phdr_at m (elf_pheader m header + i * sizeof_elf32_phdr).

(** The program headers in their order. *)
Definition program_headers (m : mem) (header : Z) : list elf32_phdr :=
  map (fun i => elf_program_header m header (Z.of_nat i)) (seq 0 (Z.to_nat (e_phnum (header_at m header)))).

Definition elf_phdr_phys_address (file : elf_file) (index : nat) (phdr : elf32_phdr) : Z :=
  default 0 (segments file !! index) + Z.land (p_vaddr phdr) (PAGING_PAGE_SIZE - 1).

(** ** Validation *)

Definition page_start (phdr : elf32_phdr) : Z := Z.land (p_vaddr phdr) FRAME_MASK.
Definition segment_end (phdr : elf32_phdr) : Z := u32 (p_vaddr phdr + p_memsz phdr).
Definition page_end (phdr : elf32_phdr) : Z := Z.land (u32 (segment_end phdr + PAGING_PAGE_SIZE - 1)) FRAME_MASK.

(** The loop over the program headers. *)
Fixpoint validate_phdrs (size entry : Z) (l : list elf32_phdr) (previous_end : Z) (entry_found : bool) : Z :=
  match l with
  | [] => if entry_found then 0 else - EINVARG
  | phdr :: l =>
    if (p_type phdr =? PT_INTERP) || (p_type phdr =? PT_DYNAMIC) then - EINVARG
    else if negb (p_type phdr =? PT_LOAD) then validate_phdrs size entry l previous_end entry_found
    else if (size <? p_offset phdr) || (size - p_offset phdr <? p_filesz phdr) || (p_memsz phdr <? p_filesz phdr) ||
            negb (Z.land (p_vaddr phdr) (PAGING_PAGE_SIZE - 1) =? Z.land (p_offset phdr) (PAGING_PAGE_SIZE - 1))
    then - EINVARG
    else if (1 <? p_align phdr) && (negb (Z.land (p_align phdr) (p_align phdr - 1) =? 0) ||
            negb (p_vaddr phdr mod p_align phdr =? p_offset phdr mod p_align phdr))
    then - EINVARG
    else if p_memsz phdr =? 0 then validate_phdrs size entry l previous_end entry_found
    else if (p_vaddr phdr <? RORTHOX_PROGRAM_VIRTUAL_ADDRESS) ||
            (RORTHOX_PROGRAM_VIRTUAL_ADDRESS_LIMIT <=? p_vaddr phdr) ||
            (RORTHOX_PROGRAM_VIRTUAL_ADDRESS_LIMIT - p_vaddr phdr <? p_memsz phdr)
    then - EINVARG
    else if (page_start phdr <? previous_end) || (RORTHOX_PROGRAM_VIRTUAL_ADDRESS_LIMIT <? page_end phdr)
    then - EINVARG
    else
      let found := has_flag (p_flags phdr) PF_X && (p_vaddr phdr <=? entry) && (entry <? segment_end phdr) in
      validate_phdrs size entry l (page_end phdr) (entry_found || found)
  end.

Definition ident (h : elf_header) (i : Z) : Z := default 0 (e_ident h !! Z.to_nat i).

Definition elf_validate_loaded (m : mem) (file : elf_file) : Z :=
  let size := in_memory_size file in
  if (size <? 4) || negb (elf_valid_signature (bytes_at m (elf_memory file) 4)) then - EINFORMAT
  else if size <? sizeof_elf_header then - EINVARG
  else
    let h := header_at m (elf_memory file) in
    if negb (ident h EI_CLASS =? ELFCLASS32) || negb (ident h EI_DATA =? ELFDATA2LSB) ||
       negb (ident h EI_VERSION =? EV_CURRENT) || negb (e_version h =? EV_CURRENT) ||
       negb (e_machine h =? EM_386) || negb (e_type h =? ET_EXEC) ||
       negb (e_ehsize h =? sizeof_elf_header) || negb (e_phentsize h =? sizeof_elf32_phdr)
    then - EINVARG
    else if (e_phnum h =? 0) || (e_phoff h <? sizeof_elf_header) || (size <? e_phoff h) ||
            ((size - e_phoff h) / sizeof_elf32_phdr <? e_phnum h)
    then - EINVARG
    else validate_phdrs size (e_entry h) (program_headers m (elf_memory file)) RORTHOX_PROGRAM_VIRTUAL_ADDRESS false.

(** ** The kernel's memory *)

(** The file layer, whose volume holds the heap, and physical memory. *)
Record kern (D H : Type) := Kern { kfiles : vfs D H; kmem : mem }.
Arguments Kern {D H}.
Arguments kfiles {D H}.
Arguments kmem {D H}.

(** Bytes stored from an address on. *)
Fixpoint store_bytes (m : mem) (a : Z) (bs : list Z) : mem :=
  match bs with
  | [] => m
  | b :: bs => store_bytes (store8 m a b) (a + 1) bs
  end.

Section kernel.
Context {D H : Type} `{BlockDevice D} `{Allocator H}.
Local Abbreviation kio := (io (kern D H)).

Definition kheap (k : kern D H) : H := heap (vol (kfiles k)).
Definition with_kheap (h : H) (k : kern D H) : kern D H :=
  Kern (with_vol (with_heap h (vol (kfiles k))) (kfiles k)) (kmem k).
Definition with_kmem (m : mem) (k : kern D H) : kern D H := Kern (kfiles k) m.

(** [kzalloc] and [kfree]; the size is a 32-bit number. *)
Definition kalloc (size : Z) (k : kern D H) : Z * kern D H :=
  let '(p, (h, m)) := kzalloc (kheap k, kmem k) (u32 size) in (p, with_kmem m (with_kheap h k)).
Definition krelease (p : Z) (k : kern D H) : kern D H := with_kheap (kfree (kheap k) p) k.

(** ** Loading

    The computations have the struct of the file beside the state. *)

Definition est : Type := (elf_file * kern D H).
Local Abbreviation eio := (io est).

Definition ealloc (size : Z) : eio Z := fun '(f, k) => let '(p, k) := kalloc size k in (Ok p, (f, k)).
Definition set_file (g : elf_file -> elf_file) : eio unit := modify (fun '(f, k) => (g f, k)).
Definition set_mem (g : mem -> mem) : eio unit := modify (fun '(f, k) => (f, with_kmem (g (kmem k)) k)).
Definition files {A} (c : io (vfs D H) A) : eio A := fun '(f, k) =>
  let '(r, v) := c (kfiles k) in (r, (f, Kern v (kmem k))).

(** The new segment [memory] of the program header with this index. *)
Definition add_segment (index : nat) (phdr : elf32_phdr) (memory : Z) (f : elf_file) : elf_file :=
  let page_offset := Z.land (p_vaddr phdr) (PAGING_PAGE_SIZE - 1) in
  let low := (p_vaddr phdr <=? virtual_base_address f) || (virtual_base_address f =? 0) in
  let end_virtual_address := u32 (p_vaddr phdr + p_memsz phdr) in
  let high := (virtual_end_address f <=? end_virtual_address) || (virtual_end_address f =? 0) in
  ElfFile (file_addr f) (in_memory_size f) (segment_memory f) (<[index := memory]> (segments f)) (elf_memory f)
    (if low then p_vaddr phdr else virtual_base_address f)
    (if high then end_virtual_address else virtual_end_address f)
    (if low then memory + page_offset else physical_base_address f)
    (if high then memory + page_offset + p_memsz phdr else physical_end_address f).

Definition elf_process_phdr_pt_load (index : nat) (phdr : elf32_phdr) : eio unit :=
  if p_memsz phdr =? 0 then mret tt
  else
    let page_offset := Z.land (p_vaddr phdr) (PAGING_PAGE_SIZE - 1) in
    let size := Z.land (u32 (page_offset + p_memsz phdr + PAGING_PAGE_SIZE - 1)) FRAME_MASK in
    memory ← ealloc size;
    _ ← fail_if (memory =? 0) ENOMEM;
    _ ← modify (fun '(f, k) =>
          (f, if negb (p_filesz phdr =? 0)
              then with_kmem (memcpy (kmem k) (memory + page_offset) (elf_memory f + p_offset phdr) (p_filesz phdr)) k
              else k));
    set_file (add_segment index phdr memory).

Definition elf_process_pheader (index : nat) (phdr : elf32_phdr) : eio unit :=
  if p_type phdr =? PT_LOAD then elf_process_phdr_pt_load index phdr else mret tt.

(** The loop from an index on; each header is read from memory when its turn comes. *)
Fixpoint process_pheaders (n : nat) (index : nat) : eio unit :=
  match n with
  | O => mret tt
  | S n =>
    phdr ← gets (fun '(f, k) => elf_program_header (kmem k) (elf_memory f) (Z.of_nat index));
    _ ← elf_process_pheader index phdr;
    process_pheaders n (S index)
  end.

Definition elf_process_pheaders : eio unit :=
  n ← gets (fun '(f, k) => e_phnum (header_at (kmem k) (elf_memory f)));
  process_pheaders (Z.to_nat n) 0.

Definition elf_process_loaded : eio unit :=
  res ← gets (fun '(f, k) => elf_validate_loaded (kmem k) f);
  _ ← status res;
  n ← gets (fun '(f, k) => e_phnum (header_at (kmem k) (elf_memory f)));
  p ← ealloc (n * 4);
  _ ← fail_if (p =? 0) ENOMEM;
  _ ← set_file (fun f => ElfFile (file_addr f) (in_memory_size f) p (replicate (Z.to_nat n) 0) (elf_memory f)
                           (virtual_base_address f) (virtual_end_address f) (physical_base_address f)
                           (physical_end_address f));
  elf_process_pheaders.

(** The contents of the open file: the signature is read first, into a buffer of its own. What a failed read
    has left in the buffer is not recorded: the buffer is released. *)
Definition elf_read (fd : Z) : eio unit :=
  '(filesize, _) ← files (fstat fd);
  _ ← fail_if (filesize <? 4) EINFORMAT;
  '(n, signature) ← files (fread 4 1 fd);
  _ ← fail_if (negb (n =? 1)) EIO;
  _ ← fail_if (negb (elf_valid_signature signature)) EINFORMAT;
  p ← ealloc filesize;
  _ ← set_file (fun f => ElfFile (file_addr f) filesize (segment_memory f) (segments f) p
                           (virtual_base_address f) (virtual_end_address f) (physical_base_address f)
                           (physical_end_address f));
  _ ← fail_if (p =? 0) ENOMEM;
  _ ← set_mem (fun m => store_bytes m p signature);
  _ ← (if 4 <? filesize then
         '(n, bs) ← files (fread (filesize - 4) 1 fd);
         _ ← set_mem (fun m => store_bytes m (p + 4) bs);
         fail_if (negb (n =? 1)) EIO
       else mret tt);
  elf_process_loaded.

Definition close_fd (fd : Z) (st : est) : est := snd (files (fclose fd) st).

(** The file is opened, read and closed; the descriptor is 0 when it could not be opened. *)
Definition elf_open (filename : list Z) : eio unit := fun st =>
  match files (fopen_status filename [114]) st with
  | (Err e, st) => finally (if negb (e =? - ENOENT) then fail EIO else fail ENOENT) (close_fd 0) st
  | (Ok fd, st) => if fd <=? 0 then finally (fail EIO) (close_fd 0) st else finally (elf_read fd) (close_fd fd) st
  end.

(** [elf_load] up to the label [out], with the [fclose] behind it. *)
Definition elf_load_body (filename : list Z) : eio unit :=
  a ← ealloc sizeof_elf_file;
  if a =? 0 then finally (fail ENOMEM) (close_fd 0)
  else
    _ ← set_file (fun _ => blank_file a);
    elf_open filename.

Fixpoint free_segments (l : list Z) (k : kern D H) : kern D H :=
  match l with
  | [] => k
  | p :: l => free_segments l (krelease p k)
  end.

Definition elf_close (file : elf_file) (k : kern D H) : kern D H :=
  if file_addr file =? 0 then k
  else
    let k := free_segments (segments file) k in
    krelease (file_addr file) (krelease (elf_memory file) (krelease (segment_memory file) k)).

Definition elf_load (filename : list Z) : kio elf_file := fun k =>
  match elf_load_body filename (blank_file 0, k) with
  | (Ok _, (file, k)) => (Ok file, k)
  | (Err e, (file, k)) => (Err e, elf_close file k)
  end.
End kernel.

(** ** What validation accepts *)

(** A segment that occupies memory. *)
Definition loaded (ph : elf32_phdr) : bool := (p_type ph =? PT_LOAD) && negb (p_memsz ph =? 0).

(** The pages of a segment, from the first up to the one behind the last. *)
Definition first_page (ph : elf32_phdr) : Z := p_vaddr ph / 4096.
Definition end_page (ph : elf32_phdr) : Z := (p_vaddr ph + p_memsz ph + 4095) / 4096.

Record phdr_ok (size : Z) (ph : elf32_phdr) : Prop := PhdrOk {
  ok_type : p_type ph <> PT_INTERP /\ p_type ph <> PT_DYNAMIC;
  ok_file : p_type ph = PT_LOAD -> p_offset ph + p_filesz ph <= size /\ p_filesz ph <= p_memsz ph;
  ok_congruent : p_type ph = PT_LOAD -> p_vaddr ph mod 4096 = p_offset ph mod 4096;
  ok_align : p_type ph = PT_LOAD -> 1 < p_align ph ->
    Z.land (p_align ph) (p_align ph - 1) = 0 /\ p_vaddr ph mod p_align ph = p_offset ph mod p_align ph;
  ok_window : loaded ph = true ->
    RORTHOX_PROGRAM_VIRTUAL_ADDRESS <= p_vaddr ph /\ p_vaddr ph + p_memsz ph <= RORTHOX_PROGRAM_VIRTUAL_ADDRESS_LIMIT
}.

Definition before (a b : elf32_phdr) : Prop := end_page a <= first_page b.
Definition runs_entry (entry : Z) (ph : elf32_phdr) : Prop :=
  loaded ph = true /\ has_flag (p_flags ph) PF_X = true /\ p_vaddr ph <= entry < p_vaddr ph + p_memsz ph.

#[local] Instance runs_entry_dec entry ph : Decision (runs_entry entry ph).
Proof. unfold runs_entry. apply _. Defined.

(** The fields are 32-bit numbers. *)
Definition phdr_range (ph : elf32_phdr) : Prop :=
  0 <= p_offset ph < 2 ^ 32 /\ 0 <= p_vaddr ph < 2 ^ 32 /\ 0 <= p_filesz ph < 2 ^ 32 /\ 0 <= p_memsz ph < 2 ^ 32.

Lemma phdr_at_range m a : phdr_range (phdr_at m a).
Proof. repeat split; apply load32_range. Qed.

Lemma page_bounds ph : phdr_range ph -> loaded ph = true -> p_vaddr ph + p_memsz ph <= RORTHOX_PROGRAM_VIRTUAL_ADDRESS_LIMIT ->
  page_start ph = 4096 * first_page ph /\ page_end ph = 4096 * end_page ph /\ segment_end ph = p_vaddr ph + p_memsz ph /\
  first_page ph < end_page ph.
Proof.
  intros (_ & Hv & _ & Hm) [_ Hz]%andb_true_iff Hw. apply negb_true_iff, Z.eqb_neq in Hz.
  unfold page_start, page_end, segment_end, first_page, end_page, RORTHOX_PROGRAM_VIRTUAL_ADDRESS_LIMIT, PAGING_PAGE_SIZE in *.
  rewrite (u32_small (p_vaddr ph + p_memsz ph)) by lia. rewrite u32_small by lia. rewrite !land_frame_mask by lia. lia.
Qed.

(** One header: what is checked, and what is carried to the next one. *)
Definition step_ok (size previous_end : Z) (ph : elf32_phdr) : Prop :=
  phdr_ok size ph /\ (loaded ph = true -> previous_end <= 4096 * first_page ph).

Lemma land_page a : 0 <= a < 2 ^ 32 -> Z.land a (PAGING_PAGE_SIZE - 1) = a mod 4096.
Proof. intros Ha. change (PAGING_PAGE_SIZE - 1) with (Z.ones 12). by rewrite land_low_mask. Qed.

Lemma found_iff entry ph : phdr_range ph -> loaded ph = true ->
  p_vaddr ph + p_memsz ph <= RORTHOX_PROGRAM_VIRTUAL_ADDRESS_LIMIT ->
  has_flag (p_flags ph) PF_X && (p_vaddr ph <=? entry) && (entry <? segment_end ph) = true <-> runs_entry entry ph.
Proof.
  intros R Hl Hw. destruct (page_bounds ph R Hl Hw) as (_ & _ & -> & _). rewrite !andb_true_iff, Z.leb_le, Z.ltb_lt.
  unfold runs_entry. intuition.
Qed.

(** A header without a segment leaves the search for the entry point as it is. *)
Lemma found_skip entry ph found (P : bool -> Prop) : loaded ph = false ->
  P found <-> exists f, P f /\ (f = true <-> found = true \/ runs_entry entry ph).
Proof.
  intros Hl. split.
  - intros E. exists found. split; [done|]. split; [by left|]. intros [?|[? _]]; [done|congruence].
  - intros (f & E & Hf). replace found with f; [done|]. apply eq_true_iff_eq. rewrite Hf. split; [|by left].
    intros [?|[? _]]; [done|congruence].
Qed.

Lemma validate_cons size entry ph l prev found : phdr_range ph ->
  validate_phdrs size entry (ph :: l) prev found = 0 <->
  step_ok size prev ph /\
  exists found', validate_phdrs size entry l (if loaded ph then 4096 * end_page ph else prev) found' = 0 /\
    (found' = true <-> found = true \/ runs_entry entry ph).
Proof.
  intros R. pose proof R as (Ro & Rv & Rf & Rm). cbn [validate_phdrs].
  destruct (Z.eqb_spec (p_type ph) PT_INTERP) as [Ht|Hti]; cbn [orb]; [split; [done|]; intros [[[[? _] _ _ _ _] _] _]; done|].
  destruct (Z.eqb_spec (p_type ph) PT_DYNAMIC) as [Ht|Htd]; [split; [done|]; intros [[[[_ ?] _ _ _ _] _] _]; done|].
  unfold loaded at 1. destruct (Z.eqb_spec (p_type ph) PT_LOAD) as [Ht|Ht]; cbn [negb andb].
  2:{ assert (Hl : loaded ph = false) by (unfold loaded; by rewrite (proj2 (Z.eqb_neq _ _) Ht)).
      rewrite <- (found_skip entry ph found (fun f => _ f = 0)) by done. split; [|tauto].
      intros E. split; [|done]. split; [constructor; done || by rewrite Hl|by rewrite Hl]. }
  rewrite !land_page by done.
  destruct (_ || _ || _ || _) eqn:Eb.
  { split; [done|]. intros [[[_ Hf Hc _ _] _] _]. specialize (Hf Ht). specialize (Hc Ht).
    rewrite !orb_true_iff, !Z.ltb_lt, negb_true_iff, Z.eqb_neq in Eb. lia. }
  rewrite !orb_false_iff, !Z.ltb_ge, negb_false_iff, Z.eqb_eq in Eb. destruct Eb as [[[B1 B2] B3] B4].
  destruct (_ && _) eqn:Ea.
  { split; [done|]. intros [[[_ _ _ Hal _] _] _]. rewrite andb_true_iff, Z.ltb_lt, orb_true_iff, !negb_true_iff, !Z.eqb_neq in Ea.
    destruct Ea as [Ea1 Ea2]. destruct (Hal Ht Ea1). intuition. }
  assert (Hal : 1 < p_align ph -> Z.land (p_align ph) (p_align ph - 1) = 0 /\ p_vaddr ph mod p_align ph = p_offset ph mod p_align ph).
  { intros H1. rewrite (proj2 (Z.ltb_lt _ _) H1) in Ea. cbn [andb] in Ea. by rewrite orb_false_iff, !negb_false_iff, !Z.eqb_eq in Ea. }
  destruct (Z.eqb_spec (p_memsz ph) 0) as [Hz|Hz]; cbn [negb].
  { assert (Hl : loaded ph = false) by (unfold loaded; by rewrite Hz, andb_false_r).
    rewrite <- (found_skip entry ph found (fun f => _ f = 0)) by done. split; [|tauto].
    intros E. split; [|done]. split; [constructor; [done|lia|done|done|by rewrite Hl]|by rewrite Hl]. }
  assert (Hl : loaded ph = true) by (unfold loaded; by rewrite Ht, (proj2 (Z.eqb_neq _ _) Hz)).
  destruct (_ || _ || _) eqn:Ew.
  { split; [done|]. intros [[[_ _ _ _ Hw] _] _]. specialize (Hw Hl).
    rewrite !orb_true_iff, !Z.ltb_lt, Z.leb_le in Ew. lia. }
  rewrite !orb_false_iff, !Z.ltb_ge, Z.leb_gt in Ew. destruct Ew as [[W1 W2] W3].
  assert (W4 : p_vaddr ph + p_memsz ph <= RORTHOX_PROGRAM_VIRTUAL_ADDRESS_LIMIT) by lia.
  destruct (page_bounds ph R Hl W4) as (-> & -> & _ & Hlt).
  assert (Hlim : 4096 * end_page ph <= RORTHOX_PROGRAM_VIRTUAL_ADDRESS_LIMIT).
  { unfold end_page, RORTHOX_PROGRAM_VIRTUAL_ADDRESS_LIMIT in *. lia. }
  rewrite (proj2 (Z.ltb_ge _ (4096 * end_page ph))), orb_false_r by done.
  destruct (Z.ltb_spec (4096 * first_page ph) prev) as [Hp|Hp].
  { split; [done|]. intros [[_ Hs] _]. specialize (Hs Hl). lia. }
  split.
  - intros E. split; [split; [constructor; [done|lia|done..]|done]|]. eexists. split; [exact E|].
    by rewrite orb_true_iff, found_iff.
  - intros (_ & f & E & Hf). match goal with |- validate_phdrs _ _ _ _ ?g = 0 => replace g with f; [done|] end.
    apply eq_true_iff_eq. by rewrite orb_true_iff, found_iff.
Qed.

Lemma validate_phdrs_spec size entry l : forall prev found, Forall phdr_range l ->
  validate_phdrs size entry l prev found = 0 <->
  Forall (phdr_ok size) l /\ Forall (fun ph => prev <= 4096 * first_page ph) (List.filter loaded l) /\
  StronglySorted before (List.filter loaded l) /\ (found = true \/ Exists (runs_entry entry) l).
Proof.
  induction l as [|ph l IH]; intros prev found Hr.
  { simpl. rewrite Exists_nil. destruct found; (split; [intros E|intros (_ & _ & _ & [|])]); try done.
    do 3 (split; [constructor|]). by left. }
  apply Forall_cons in Hr as [R Hr]. rewrite validate_cons, Forall_cons, Exists_cons by done. cbn [List.filter].
  destruct (loaded ph) eqn:Hl.
  - split.
    + intros ([Hok Hp] & f & E & Hf). apply IH in E as (E1 & E2 & E3 & E4); [|done]. split; [done|].
      assert (Hlt : first_page ph < end_page ph) by (eapply page_bounds; [done..|by apply (ok_window _ _ Hok)]).
      split; [constructor; [by apply Hp|]; eapply Forall_impl; [exact E2|]; simpl; specialize (Hp Hl); lia|].
      split; [constructor; [done|]; eapply Forall_impl; [exact E2|]; unfold before; simpl; lia|]. rewrite Hf in E4. tauto.
    + intros ([Hok Hoks] & Hp & Hs & He). apply Forall_cons in Hp as [Hp Hps]. apply StronglySorted_inv in Hs as [Hs Hb].
      split; [split; [done|by intros _]|]. exists (found || bool_decide (runs_entry entry ph)).
      rewrite orb_true_iff, bool_decide_eq_true. split; [|done]. apply IH; [done|]. split; [done|].
      split; [eapply Forall_impl; [exact Hb|]; unfold before; simpl; lia|]. split; [done|].
      rewrite orb_true_iff, bool_decide_eq_true. tauto.
  - rewrite <- (found_skip entry ph found (fun f => _ f = 0)), IH by done. unfold step_ok, runs_entry. rewrite Hl.
    intuition congruence.
Qed.

Lemma validate_phdrs_status size entry l : forall prev found,
  validate_phdrs size entry l prev found = 0 \/ validate_phdrs size entry l prev found = - EINVARG.
Proof.
  induction l as [|ph l IH]; intros prev found; cbn [validate_phdrs]; [destruct found; auto|].
  repeat (case_match; [by auto|]); auto.
  all: repeat case_match; auto.
Qed.

(** The file has the signature. *)
Definition has_signature (m : mem) (file : elf_file) : Prop :=
  4 <= in_memory_size file /\ bytes_at m (elf_memory file) 4 = elf_signature.

#[local] Instance has_signature_dec m file : Decision (has_signature m file).
Proof. unfold has_signature. apply _. Defined.

(** A static 32-bit i386 program: the table of program headers lies in the file, every header is in order,
    the segments are in ascending order on pages of their own, and the entry point lies in an executable one. *)
Record elf_ok (m : mem) (file : elf_file) : Prop := ElfOk {
  eo_signature : has_signature m file;
  eo_kind : let h := header_at m (elf_memory file) in
    ident h EI_CLASS = ELFCLASS32 /\ ident h EI_DATA = ELFDATA2LSB /\ ident h EI_VERSION = EV_CURRENT /\
    e_version h = EV_CURRENT /\ e_machine h = EM_386 /\ e_type h = ET_EXEC /\
    e_ehsize h = sizeof_elf_header /\ e_phentsize h = sizeof_elf32_phdr;
  eo_table : let h := header_at m (elf_memory file) in
    0 < e_phnum h /\ sizeof_elf_header <= e_phoff h /\ e_phoff h + sizeof_elf32_phdr * e_phnum h <= in_memory_size file;
  eo_phdrs : Forall (phdr_ok (in_memory_size file)) (program_headers m (elf_memory file));
  eo_order : StronglySorted before (List.filter loaded (program_headers m (elf_memory file)));
  eo_entry : Exists (runs_entry (e_entry (header_at m (elf_memory file)))) (program_headers m (elf_memory file))
}.

Lemma load16_range m a : 0 <= load16 m a < 65536.
Proof. unfold load16. pose proof (load8_range m a). pose proof (load8_range m (a + 1)). lia. Qed.

Lemma signature_iff m file :
  (in_memory_size file <? 4) || negb (elf_valid_signature (bytes_at m (elf_memory file) 4)) = true <-> ~ has_signature m file.
Proof.
  unfold has_signature, elf_valid_signature. rewrite orb_true_iff, Z.ltb_lt, negb_true_iff, bool_decide_eq_false.
  change (take 4 (bytes_at m (elf_memory file) 4)) with (bytes_at m (elf_memory file) 4).
  destruct (decide (bytes_at m (elf_memory file) 4 = elf_signature)); intuition lia.
Qed.

Lemma headers_range m header : Forall phdr_range (program_headers m header).
Proof. apply Forall_forall. intros ph (i & -> & _)%list_elem_of_fmap. apply phdr_at_range. Qed.

Lemma window_start size l : Forall (phdr_ok size) l ->
  Forall (fun ph => RORTHOX_PROGRAM_VIRTUAL_ADDRESS <= 4096 * first_page ph) (List.filter loaded l).
Proof.
  intros Hl. apply Forall_forall. intros ph Hin. apply list_elem_of_In, filter_In in Hin as [Hin Hld].
  apply list_elem_of_In in Hin. eapply Forall_forall in Hl; [|done].
  destruct (ok_window _ _ Hl Hld) as [Hw _]. unfold first_page, RORTHOX_PROGRAM_VIRTUAL_ADDRESS in *. lia.
Qed.

Lemma elf_validate_spec m file :
  0 <= in_memory_size file ->
  (elf_validate_loaded m file = 0 <-> elf_ok m file) /\
  (elf_validate_loaded m file = - EINFORMAT <-> ~ has_signature m file) /\
  (elf_validate_loaded m file = 0 \/ elf_validate_loaded m file = - EINFORMAT \/ elf_validate_loaded m file = - EINVARG).
Proof.
  intros Hs. unfold elf_validate_loaded. pose proof (signature_iff m file) as Hsig. destruct (_ || negb (elf_valid_signature _)).
  { split; [|split; [split; [by intros _; apply Hsig|done]|auto]]. split; [done|]. intros E. destruct (proj1 Hsig eq_refl). apply E. }
  assert (Hsg : has_signature m file) by (destruct (decide (has_signature m file)) as [|Hn]; [done|by apply Hsig in Hn]).
  assert (Hcase : forall r, (r = 0 <-> elf_ok m file) -> (r = 0 \/ r = - EINVARG) ->
    (r = 0 <-> elf_ok m file) /\ (r = - EINFORMAT <-> ~ has_signature m file) /\ (r = 0 \/ r = - EINFORMAT \/ r = - EINVARG)).
  { intros r H1 H2. split; [done|]. split; [|tauto]. split; [|done]. unfold EINFORMAT, EINVARG in *. lia. }
  set (h := header_at m (elf_memory file)). pose proof (load16_range m (elf_memory file + 44)) as Hn.
  change (load16 m (elf_memory file + 44)) with (e_phnum h) in Hn.
  destruct (Z.ltb_spec (in_memory_size file) sizeof_elf_header) as [Hsz|Hsz].
  { apply Hcase; [|by right]. split; [done|]. intros E. pose proof (eo_table _ _ E) as T. fold h in T. cbv zeta in T.
    unfold sizeof_elf_header, sizeof_elf32_phdr in *. lia. }
  destruct (_ || negb (e_phentsize h =? _)) eqn:Ek.
  { apply Hcase; [|by right]. split; [done|]. intros E. pose proof (eo_kind _ _ E) as K. fold h in K. cbv zeta in K.
    destruct K as (K1 & K2 & K3 & K4 & K5 & K6 & K7 & K8). by rewrite K1, K2, K3, K4, K5, K6, K7, K8 in Ek. }
  rewrite !orb_false_iff, !negb_false_iff, !Z.eqb_eq in Ek.
  destruct (_ || (_ <? e_phnum h)) eqn:Et.
  { apply Hcase; [|by right]. split; [done|]. intros E. pose proof (eo_table _ _ E) as T. fold h in T. cbv zeta in T.
    rewrite !orb_true_iff, Z.eqb_eq, !Z.ltb_lt in Et. unfold sizeof_elf_header, sizeof_elf32_phdr in *. lia. }
  rewrite !orb_false_iff, Z.eqb_neq, !Z.ltb_ge in Et. apply Hcase; [|apply validate_phdrs_status].
  rewrite validate_phdrs_spec by apply headers_range. split.
  - intros (P1 & _ & P3 & [?|P4]); [done|]. constructor; [done|fold h; cbv zeta; tauto| |done..]. fold h. cbv zeta.
    unfold sizeof_elf_header, sizeof_elf32_phdr in *. lia.
  - intros [_ _ _ P1 P3 P4]. split; [done|]. split; [by eapply window_start|]. split; [done|by right].
Qed.

(** ** What is allocated for a file *)

Definition nonnull (a : Z) : bool := negb (a =? 0).
Definition elf_cells (f : elf_file) : list Z :=
  List.filter nonnull (file_addr f :: elf_memory f :: segment_memory f :: segments f).

Lemma filter_insert (l : list Z) i p : l !! i = Some 0 -> p <> 0 ->
  List.filter nonnull (<[i := p]> l) ≡ₚ p :: List.filter nonnull l.
Proof.
  intros Hi Hp. rewrite <- (take_drop_middle l i 0) at 2 by done.
  rewrite insert_take_drop by (by eapply lookup_lt_Some). rewrite !List.filter_app. cbn [List.filter].
  change (nonnull 0) with false. unfold nonnull at 2. rewrite (proj2 (Z.eqb_neq p 0)) by done. cbn [negb].
  by rewrite <- Permutation_middle.
Qed.

Lemma cells_segment i phdr p f : segments f !! i = Some 0 -> p <> 0 ->
  elf_cells (add_segment i phdr p f) ≡ₚ p :: elf_cells f.
Proof.
  intros Hi Hp. unfold elf_cells, add_segment. cbn [file_addr elf_memory segment_memory segments].
  change (?a :: ?b :: ?c :: ?l) with ([a; b; c] ++ l). rewrite !List.filter_app, filter_insert by done.
  by rewrite <- Permutation_middle.
Qed.

Lemma nonnull_single p : p <> 0 -> List.filter nonnull [p] = [p].
Proof. intros Hp. unfold nonnull. simpl. by rewrite (proj2 (Z.eqb_neq p 0)). Qed.

Lemma cells_split f : elf_cells f =
  List.filter nonnull [file_addr f] ++ List.filter nonnull [elf_memory f] ++ List.filter nonnull [segment_memory f] ++
  List.filter nonnull (segments f).
Proof. by rewrite <- !List.filter_app. Qed.

Lemma nonnull_zeros n : List.filter nonnull (replicate n 0) = [].
Proof. by induction n. Qed.

(** The table of segments, with null pointers. *)
Lemma cells_table f p n b e pb pe : segment_memory f = 0 -> segments f = [] -> p <> 0 ->
  elf_cells (ElfFile (file_addr f) (in_memory_size f) p (replicate n 0) (elf_memory f) b e pb pe) ≡ₚ p :: elf_cells f.
Proof.
  intros Hm Hs Hp. rewrite !cells_split. cbn [file_addr elf_memory segment_memory segments]. rewrite Hm, Hs, nonnull_zeros, (nonnull_single p Hp).
  change (List.filter nonnull [0]) with (@nil Z). change (List.filter nonnull []) with (@nil Z). solve_Permutation.
Qed.

Section balance.
Context {D H : Type} `{BlockDeviceLaws D} `{AllocatorLaws H} (F : filesystem D H) `{!FilesystemLaws F}.
Context (A : gmap Z Z) (h0 : H).
Local Abbreviation est := (elf_file * kern D H)%type.

Definition kowns (l : list Z) (k : kern D H) : Prop := owned_by (fun _ => True) A h0 l (kheap k).

(** Only the heap of the file layer has changed. *)
Definition heap_only (k k' : kern D H) : Prop := exists h, kfiles k' = with_vol (with_heap h (vol (kfiles k))) (kfiles k).

#[export] Instance heap_only_preorder : PreOrder heap_only.
Proof.
  split.
  - intros [v m]. exists (heap (vol v)). by destruct v as [[] ? ? ?].
  - intros k1 k2 k3 [h1 E1] [h2 E2]. exists h2. by rewrite E2, E1.
Qed.

Lemma kalloc_spec l size k p k' : kowns l k -> kalloc size k = (p, k') ->
  heap_only k k' /\
  ((p = 0 /\ k' = k) \/
   (p <> 0 /\ kowns (p :: l) k' /\ kmem k' = memset (kmem k) p 0 (u32 size) /\ run (kheap k') p (blocks_for (u32 size)) /\
    forall q n, run (kheap k) q n -> run (kheap k') q n /\ apart p (blocks_for (u32 size)) q n)).
Proof.
  intros Ho. unfold kalloc, kzalloc. pose proof (u32_range size) as Hr. destruct (kmalloc (kheap k) (u32 size)) as [q h] eqn:Hm.
  destruct (owned_malloc _ A h0 l (kheap k) (u32 size) q h Ho Hr (fun _ => I) Hm) as [[-> ->]|(Hq & _ & Ho')].
  - intros [= <- <-]. destruct k as [[[] ? ? ?] ?]. split; [by eexists|]. by left.
  - rewrite (proj2 (Z.eqb_neq q 0)) by done. intros [= <- <-]. split; [by eexists|]. right.
    destruct (owned_live _ _ _ _ _ Ho) as [B Hl]. destruct (run_malloc _ _ _ _ _ Hl Hr Hm Hq) as (_ & Hrun & Hold). done.
Qed.

(** Every allocation stays, with its contents. *)
Definition stays (k k' : kern D H) : Prop := forall q n, run (kheap k) q n ->
  run (kheap k') q n /\ same_on (kmem k) (kmem k') q (q + 4096 * n).

#[export] Instance stays_preorder : PreOrder stays.
Proof.
  split; [intros k q n Hq; split; [done|apply same_on_refl]|]. intros k1 k2 k3 S1 S2 q n [Hq H12]%S1.
  apply S2 in Hq as [Hq H23]. split; [done|by eapply same_on_trans].
Qed.

Lemma kalloc_stays l size k p k' : kowns l k -> kalloc size k = (p, k') -> stays k k'.
Proof.
  intros Ho E. destruct (kalloc_spec _ _ _ _ _ Ho E) as [_ [[_ ->]|(Hp & _ & Hm & Hrun & Hold)]]; [reflexivity|].
  intros q n [Hq Ha]%Hold. split; [done|]. rewrite Hm. pose proof (u32_range size). apply same_on_memset; [lia|].
  unfold apart, blocks_for in Ha. lia.
Qed.

Lemma krelease_owns p l k : kowns (p :: l) k -> kowns l (krelease p k).
Proof. apply owned_free. Qed.

Lemma krelease_cell p l k : kowns (List.filter nonnull [p] ++ l) k -> kowns l (krelease p k).
Proof.
  unfold nonnull. simpl. destruct (Z.eqb_spec p 0) as [->|]; simpl; [|apply krelease_owns]. intros Ho.
  change (owned_by (fun _ => True) A h0 l (kfree (kheap k) 0)). by rewrite (proj2 (owned_null _ _ _ _ _ Ho)).
Qed.

Lemma free_segments_owns s : forall l k, kowns (List.filter nonnull s ++ l) k -> kowns l (free_segments s k).
Proof.
  induction s as [|p s IH]; intros l k Ho; [done|]. cbn [free_segments]. apply IH, krelease_cell.
  by rewrite app_assoc, <- List.filter_app.
Qed.

Lemma elf_close_owns f l k : file_addr f <> 0 -> kowns (elf_cells f ++ l) k -> kowns l (elf_close f k).
Proof.
  intros Hf Ho. unfold elf_close. rewrite (proj2 (Z.eqb_neq _ _) Hf).
  apply krelease_cell, krelease_cell, krelease_cell, free_segments_owns. unfold kowns. rewrite !app_assoc, <- !List.filter_app.
  replace (elf_cells f) with (List.filter nonnull ([file_addr f] ++ [elf_memory f] ++ [segment_memory f] ++ segments f)) in Ho by done.
  rewrite !List.filter_app in *. eapply owned_perm; [|reflexivity|exact Ho]. solve_Permutation.
Qed.

(** ** Segments *)

(** The headers lie inside the image, which is inside memory. *)
Lemma headers_same m m' f f' :
  elf_ok m f -> elf_memory f' = elf_memory f -> 0 < elf_memory f -> elf_memory f + in_memory_size f <= 2 ^ 32 ->
  same_on m m' (elf_memory f) (elf_memory f + in_memory_size f) ->
  header_at m' (elf_memory f') = header_at m (elf_memory f) /\
  program_headers m' (elf_memory f') = program_headers m (elf_memory f).
Proof.
  intros Ok -> Hpos Hmax Hs. destruct (eo_table _ _ Ok) as (Hn & Hoff & Hend).
  unfold sizeof_elf_header, sizeof_elf32_phdr in *.
  assert (H16 : forall i, 0 <= i -> i + 2 <= 52 -> load16 m' (elf_memory f + i) = load16 m (elf_memory f + i)).
  { intros i Hi1 Hi2. unfold load16. rewrite !Hs by lia. done. }
  assert (H32 : forall i, 0 <= i -> i + 4 <= 52 -> load32 m' (elf_memory f + i) = load32 m (elf_memory f + i)).
  { intros i Hi1 Hi2. eapply same_on_load32; [exact Hs|lia..]. }
  assert (Hh : header_at m' (elf_memory f) = header_at m (elf_memory f)).
  { unfold header_at. rewrite !H16, !H32 by lia. f_equal. unfold bytes_at. apply map_ext_in. intros i Hi%in_seq. apply Hs. lia. }
  split; [done|]. unfold program_headers, elf_program_header, elf_pheader. rewrite Hh. apply map_ext_in. intros i Hi%in_seq.
  pose proof (load32_range m (elf_memory f + 28)) as Hr. change (load32 m (elf_memory f + 28)) with (e_phoff (header_at m (elf_memory f))) in Hr.
  rewrite (proj2 (Z.eqb_neq _ 0)), u32_small by lia. unfold phdr_at, sizeof_elf32_phdr.
  f_equal; (eapply same_on_load32; [exact Hs|lia..]).
Qed.

Lemma elf_ok_same m m' f f' :
  elf_ok m f -> elf_memory f' = elf_memory f -> in_memory_size f' = in_memory_size f ->
  0 < elf_memory f -> elf_memory f + in_memory_size f <= 2 ^ 32 ->
  same_on m m' (elf_memory f) (elf_memory f + in_memory_size f) -> elf_ok m' f'.
Proof.
  intros Ok Em Es Hpos Hmax Hs. destruct (headers_same _ _ _ f' Ok Em Hpos Hmax Hs) as [Hh Hp].
  destruct Ok as [[S1 S2] K T P O E]. constructor; rewrite ?Hh, ?Hp, ?Es; try done.
  split; rewrite ?Es, ?Em; [done|]. rewrite <- S2. unfold bytes_at. apply map_ext_in. intros i Hi%in_seq. apply Hs. lia.
Qed.

(** The memory of a segment: the bytes of the file at their place, zeros around them. *)
Definition filled (m : mem) (f : elf_file) (ph : elf32_phdr) (p : Z) : Prop :=
  forall x, 0 <= x < 4096 * (end_page ph - first_page ph) ->
    let j := x - p_vaddr ph mod 4096 in
    load8 m (p + x) = if (0 <=? j) && (j <? p_filesz ph) then load8 m (elf_memory f + p_offset ph + j) else 0.

Lemma filled_same m m' f f' ph p :
  filled m f ph p -> elf_memory f' = elf_memory f -> phdr_range ph -> p_offset ph + p_filesz ph <= in_memory_size f ->
  same_on m m' (elf_memory f) (elf_memory f + in_memory_size f) ->
  same_on m m' p (p + 4096 * (end_page ph - first_page ph)) -> filled m' f' ph p.
Proof.
  intros Hf Em (Ho & _) Hsz Hi Hp x Hx. cbv zeta. rewrite Hp by lia. rewrite (Hf x Hx). cbv zeta. rewrite Em.
  destruct (Z.leb_spec 0 (x - p_vaddr ph mod 4096)), (Z.ltb_spec (x - p_vaddr ph mod 4096) (p_filesz ph)); cbn [andb]; try done.
  symmetry. apply Hi. lia.
Qed.

(** What is allocated is what the struct points to, and [c]; the file layer of [k0] has changed in its heap
    only, and what was allocated then is unchanged. *)
Record holding (c : list Z) (k0 : kern D H) (st : est) : Prop := Holding {
  ho_owns : kowns (elf_cells (fst st) ++ c) (snd st);
  ho_files : heap_only k0 (snd st);
  ho_stays : stays k0 (snd st);
  ho_addr : file_addr (fst st) <> 0
}.

(** The pointers from an index on are null. *)
Definition null_from (n i : nat) (f : elf_file) : Prop :=
  length (segments f) = n /\ forall j, (i <= j < n)%nat -> segments f !! j = Some 0.

Definition image_run (f : elf_file) (k : kern D H) : Prop :=
  exists n, run (kheap k) (elf_memory f) n /\ 0 <= in_memory_size f <= 4096 * n.

(** The segments before an index are in place. *)
Record seg_inv (c : list Z) (k0 : kern D H) (i : nat) (st : est) : Prop := SegInv {
  si_hold : holding c k0 st;
  si_image : image_run (fst st) (snd st);
  si_ok : elf_ok (kmem (snd st)) (fst st);
  si_null : null_from (length (program_headers (kmem (snd st)) (elf_memory (fst st)))) i (fst st);
  si_done j ph : (j < i)%nat -> program_headers (kmem (snd st)) (elf_memory (fst st)) !! j = Some ph -> loaded ph = true ->
    exists p, segments (fst st) !! j = Some p /\ run (kheap (snd st)) p (end_page ph - first_page ph) /\
      filled (kmem (snd st)) (fst st) ph p
}.

Lemma image_bounds f k : image_run f k -> 0 < elf_memory f /\ elf_memory f + in_memory_size f <= 2 ^ 32.
Proof. intros (n & Hr%run_bounds & Hs). lia. Qed.

Lemma image_stays f k k' : image_run f k -> stays k k' ->
  image_run f k' /\ same_on (kmem k) (kmem k') (elf_memory f) (elf_memory f + in_memory_size f).
Proof.
  intros (n & Hr & Hs) St. destruct (St _ _ Hr) as [Hr' Hsame]. split; [by exists n|]. intros a Ha. apply Hsame. lia.
Qed.

Lemma header_of c k0 i f k j ph : seg_inv c k0 i (f, k) -> program_headers (kmem k) (elf_memory f) !! j = Some ph ->
  phdr_range ph /\ phdr_ok (in_memory_size f) ph.
Proof.
  intros I Hj. split.
  - eapply Forall_lookup_1; [apply headers_range|exact Hj].
  - eapply Forall_lookup_1; [apply (eo_phdrs _ _ (si_ok _ _ _ _ I))|exact Hj].
Qed.

(** The size allocated is that of the pages. *)
Lemma segment_size ph : phdr_range ph -> loaded ph = true -> p_vaddr ph + p_memsz ph <= RORTHOX_PROGRAM_VIRTUAL_ADDRESS_LIMIT ->
  let size := Z.land (u32 (Z.land (p_vaddr ph) (PAGING_PAGE_SIZE - 1) + p_memsz ph + PAGING_PAGE_SIZE - 1)) FRAME_MASK in
  u32 size = 4096 * (end_page ph - first_page ph) /\ blocks_for (u32 size) = end_page ph - first_page ph /\
  p_vaddr ph mod 4096 + p_memsz ph <= 4096 * (end_page ph - first_page ph).
Proof.
  intros R Hl Hw. pose proof R as (_ & Hv & _ & Hm). destruct (page_bounds ph R Hl Hw) as (_ & _ & _ & Hlt). cbv zeta.
  rewrite land_page by done. unfold PAGING_PAGE_SIZE, RORTHOX_PROGRAM_VIRTUAL_ADDRESS_LIMIT, end_page, first_page, blocks_for in *.
  rewrite (u32_small (_ + 4096 - 1)) by lia. rewrite land_frame_mask by lia. rewrite u32_small by lia. lia.
Qed.

(** The new segment: zeros, then the bytes of the file. *)
Lemma segment_filled m f ph p n :
  phdr_range ph -> phdr_ok (in_memory_size f) ph -> loaded ph = true ->
  0 <= in_memory_size f <= 4096 * n -> apart p (end_page ph - first_page ph) (elf_memory f) n ->
  let size := 4096 * (end_page ph - first_page ph) in
  let m1 := memset m p 0 size in
  let m2 := if negb (p_filesz ph =? 0)
            then memcpy m1 (p + p_vaddr ph mod 4096) (elf_memory f + p_offset ph) (p_filesz ph) else m1 in
  filled m2 f ph p /\ forall a, a < p \/ p + size <= a -> load8 m2 a = load8 m a.
Proof.
  intros R Hok Hl Hn Ha. pose proof R as (Ro & Rv & Rf & Rm).
  assert (Ht : p_type ph = PT_LOAD) by (by apply andb_true_iff in Hl as [?%Z.eqb_eq _]).
  destruct (ok_file _ _ Hok Ht) as [Hf1 Hf2]. destruct (ok_window _ _ Hok Hl) as [_ Hw].
  destruct (segment_size ph R Hl Hw) as (_ & _ & Hsz). intros size m1 m2. fold size in Hsz.
  assert (Hm1 : forall a, load8 m1 a = if decide (p <= a < p + size) then 0 else load8 m a).
  { intros a. subst m1. rewrite memset_load8 by (pose proof (page_bounds ph R Hl Hw); lia). done. }
  assert (Hm2 : forall a, load8 m2 a = if decide (p + p_vaddr ph mod 4096 <= a < p + p_vaddr ph mod 4096 + p_filesz ph)
    then load8 m1 (elf_memory f + p_offset ph + (a - (p + p_vaddr ph mod 4096))) else load8 m1 a).
  { intros a. subst m2. destruct (Z.eqb_spec (p_filesz ph) 0); cbn [negb]; [by rewrite decide_False by lia|].
    rewrite memcpy_load8; [done|lia|]. unfold apart in Ha. lia. }
  unfold apart in Ha. split.
  - intros x Hx. cbv zeta. rewrite !Hm2, !Hm1. pose proof (Z.mod_pos_bound (p_vaddr ph) 4096 ltac:(lia)).
    destruct (Z.leb_spec 0 (x - p_vaddr ph mod 4096)), (Z.ltb_spec (x - p_vaddr ph mod 4096) (p_filesz ph)); cbn [andb];
      repeat case_decide; try lia; try done.
    f_equal. lia.
  - intros a Ho. rewrite Hm2, !Hm1. pose proof (Z.mod_pos_bound (p_vaddr ph) 4096 ltac:(lia)).
    repeat case_decide; lia || done.
Qed.

(** The invariant with one more segment. *)
Lemma segment_added c k0 i f k k2 ph p :
  seg_inv c k0 i (f, k) -> program_headers (kmem k) (elf_memory f) !! i = Some ph -> loaded ph = true ->
  stays k k2 -> heap_only k k2 -> kowns (p :: elf_cells f ++ c) k2 -> p <> 0 ->
  run (kheap k2) p (end_page ph - first_page ph) -> filled (kmem k2) f ph p ->
  seg_inv c k0 (S i) (add_segment i ph p f, k2).
Proof.
  intros I Hi Hl St Hh Ho Hp Hrun Hfill. pose proof I as [[I1 I1' I1'' Ia] I2 I3 [I4 I4'] I5]. cbn [fst snd] in *.
  destruct (image_bounds _ _ I2) as [B1 B2]. destruct (image_stays _ _ _ I2 St) as [I2' Hsame].
  destruct (headers_same _ _ f (add_segment i ph p f) I3 eq_refl B1 B2 Hsame) as [_ Hhs].
  pose proof (lookup_lt_Some _ _ _ Hi) as Hlen.
  constructor; cbn [fst snd]; rewrite ?Hhs.
  - constructor; cbn [fst snd]; [|by etrans|by etrans|done]. unfold kowns. by rewrite cells_segment by (done || apply I4'; lia).
  - done.
  - by eapply elf_ok_same.
  - unfold null_from, add_segment. cbn [segments]. rewrite length_insert. split; [done|].
    intros j Hj. rewrite list_lookup_insert_ne by lia. apply I4'. lia.
  - intros j ph' Hj Hph Hld. unfold add_segment at 1. cbn [segments]. destruct (decide (j = i)) as [->|Hne].
    + rewrite Hi in Hph. injection Hph as <-. exists p. rewrite list_lookup_insert_eq by lia. done.
    + destruct (I5 j ph' ltac:(lia) Hph Hld) as (q & Hq & Hrq & Hfq). exists q. rewrite list_lookup_insert_ne by done.
      destruct (St _ _ Hrq) as [Hrq' Hsq]. split; [done|]. split; [done|].
      destruct (header_of _ _ _ _ _ _ _ I Hph) as [R' Hok'].
      eapply filled_same; [exact Hfq|done|done| |done..]. apply Hok'. by apply andb_true_iff in Hld as [?%Z.eqb_eq _].
Qed.

(** One program header. *)
Lemma process_phdr_spec c k0 i f k ph r st' :
  seg_inv c k0 i (f, k) -> program_headers (kmem k) (elf_memory f) !! i = Some ph ->
  elf_process_pheader i ph (f, k) = (r, st') ->
  match r with
  | Ok _ => seg_inv c k0 (S i) st' /\ length (segments (fst st')) = length (segments f)
  | Err e => e < 0 /\ holding c k0 st'
  end.
Proof.
  intros I Hi E. destruct (header_of _ _ _ _ _ _ _ I Hi) as [R Hok].
  assert (Hskip : loaded ph = false -> seg_inv c k0 (S i) (f, k)).
  { intros Hl. destruct I as [I1 I2 I3 [I4 I4'] I5]. constructor; [done..| |].
    - split; [done|]. intros j Hj. apply I4'. lia.
    - intros j ph' Hj Hph Hld. apply (I5 j ph'); [|done..]. destruct (decide (j = i)) as [->|]; [|lia]. simpl in Hph. congruence. }
  unfold elf_process_pheader in E. destruct (Z.eqb_spec (p_type ph) PT_LOAD) as [Ht|Ht].
  2:{ injection E as <- <-. split; [|done]. apply Hskip. unfold loaded. by rewrite (proj2 (Z.eqb_neq _ _) Ht). }
  unfold elf_process_phdr_pt_load in E. destruct (Z.eqb_spec (p_memsz ph) 0) as [Hz|Hz].
  { injection E as <- <-. split; [|done]. apply Hskip. unfold loaded. by rewrite Hz, andb_false_r. }
  assert (Hl : loaded ph = true) by (unfold loaded; by rewrite Ht, (proj2 (Z.eqb_neq _ _) Hz)). clear Hskip.
  destruct (ok_window _ _ Hok Hl) as [_ Hw]. destruct (segment_size ph R Hl Hw) as (Hsz & Hbl & _).
  rewrite (land_page (p_vaddr ph)) in E, Hsz, Hbl by apply R. cbv zeta in E.
  destruct (si_hold _ _ _ _ I) as [Ho Hfs Hst Hadr]. unfold ealloc in E. cbn [fst snd] in *.
  unfold mbind at 1, io_bind at 1 in E. destruct (kalloc _ k) as [p k1] eqn:Ek.
  pose proof (kalloc_stays _ _ _ _ _ Ho Ek) as St1. destruct (kalloc_spec _ _ _ _ _ Ho Ek) as [Hh [[-> ->]|(Hp & Ho1 & Hm1 & Hrun & Hold)]].
  { injection E as <- <-. done. }
  rewrite io_fail_if, (proj2 (Z.eqb_neq p 0)), io_modify in E by done. injection E as <- <-.
  destruct (si_image _ _ _ _ I) as (n & Hrimg & Hn). cbn [fst snd] in *. rewrite Hbl in Hrun, Hold. rewrite Hsz in Hm1.
  destruct (Hold _ _ Hrimg) as [_ Hap].
  destruct (segment_filled (kmem k) f ph p n R Hok Hl Hn Hap) as [Hfill Hframe]. cbv zeta in Hfill, Hframe. rewrite <- Hm1 in Hfill, Hframe.
  set (m2 := if negb _ then _ else _) in Hfill, Hframe.
  split; [|cbn [fst]; unfold add_segment; cbn [segments]; apply length_insert].
  match goal with |- seg_inv _ _ _ (_, ?x) => set (k2 := x) end.
  assert (Hk2 : kmem k2 = m2 /\ kheap k2 = kheap k1 /\ heap_only k1 k2).
  { subst k2 m2. destruct (negb _); [|split; [done|split; [done|reflexivity]]]. split; [done|]. split; [done|].
    exists (kheap k1). by destruct k1 as [[[] ? ? ?] ?]. }
  destruct Hk2 as (Em2 & Eh2 & Ho2).
  assert (St2 : stays k k2).
  { intros q l [Hq Ha]%Hold. rewrite Eh2, Em2. split; [done|]. intros a Hin. apply Hframe. unfold apart in Ha. lia. }
  clearbody k2 m2. subst m2.
  eapply segment_added; [done..|by etrans|unfold kowns; by rewrite Eh2|done|by rewrite Eh2|done].
Qed.

Lemma process_pheaders_spec c k0 n : forall i st r st',
  seg_inv c k0 i st -> (i + n)%nat = length (segments (fst st)) -> process_pheaders n i st = (r, st') ->
  match r with Ok _ => seg_inv c k0 (length (segments (fst st'))) st' | Err e => e < 0 /\ holding c k0 st' end.
Proof.
  induction n as [|n IH]; intros i [f k] r st' I Hn E; cbn [process_pheaders] in E.
  - injection E as <- <-. rewrite Nat.add_0_r in Hn. by rewrite Hn in I.
  - rewrite io_gets in E. assert (Hi : program_headers (kmem k) (elf_memory f) !! i =
      Some (elf_program_header (kmem k) (elf_memory f) (Z.of_nat i))).
    { destruct (si_null _ _ _ _ I) as [Hlen _]. cbn [fst snd] in *. unfold program_headers in *. rewrite length_map, length_seq in Hlen.
      rewrite list_lookup_fmap, lookup_seq_lt by lia. done. }
    apply io_bind_inv in E as [(e & E & ->)|(u & st1 & E & E1)]; apply (process_phdr_spec _ _ _ _ _ _ _ _ I Hi) in E; [done|].
    destruct E as [I1 Hlen]. eapply IH; [exact I1| |exact E1]. simpl in *. lia.
Qed.

Lemma process_loaded_spec c k0 f k r st' :
  holding c k0 (f, k) -> image_run f k -> segment_memory f = 0 -> segments f = [] ->
  elf_process_loaded (f, k) = (r, st') ->
  match r with Ok _ => seg_inv c k0 (length (segments (fst st'))) st' | Err e => e < 0 /\ holding c k0 st' end.
Proof.
  intros Hh Him Hsm Hsg E. unfold elf_process_loaded in E. rewrite io_gets in E. cbn beta iota in E.
  assert (Hsz : 0 <= in_memory_size f) by (destruct Him as (n & _ & ?); lia).
  destruct (elf_validate_spec (kmem k) f Hsz) as (Hok & _ & Hst).
  apply io_bind_inv in E as [(e & E & ->)|(v & st1 & E & E1)].
  { unfold status in E. destruct (Z.ltb_spec (elf_validate_loaded (kmem k) f) 0); [by injection E as <- <-|done]. }
  apply status_ok in E as (-> & Hv & ->). rewrite io_gets in E1. cbn beta iota in E1.
  assert (Ok : elf_ok (kmem k) f) by (apply Hok; unfold EINFORMAT, EINVARG in Hst; lia).
  destruct Hh as [Ho Hfs St Hadr]. cbn [fst snd] in *. unfold ealloc in E1. unfold mbind at 1, io_bind at 1 in E1.
  destruct (kalloc _ k) as [p k1] eqn:Ek. pose proof (kalloc_stays _ _ _ _ _ Ho Ek) as St1.
  destruct (kalloc_spec _ _ _ _ _ Ho Ek) as [Hh [[-> ->]|(Hp & Ho1 & _)]].
  { injection E1 as <- <-. done. }
  unfold set_file in E1. rewrite io_fail_if, (proj2 (Z.eqb_neq p 0)), io_modify in E1 by done.
  destruct (image_bounds _ _ Him) as [B1 B2]. destruct (image_stays _ _ _ Him St1) as [Him' Hsame].
  set (f1 := ElfFile _ _ _ _ _ _ _ _ _) in E1.
  destruct (headers_same _ _ f f1 Ok eq_refl B1 B2 Hsame) as [Hhd Hps].
  assert (Hlen : length (program_headers (kmem k) (elf_memory f)) = Z.to_nat (e_phnum (header_at (kmem k) (elf_memory f)))).
  { unfold program_headers. by rewrite length_map, length_seq. }
  unfold elf_process_pheaders in E1. rewrite io_gets in E1. cbn beta iota in E1. rewrite Hhd in E1.
  apply (process_pheaders_spec c k0 _ 0 (f1, k1)) in E1; [done| |subst f1; cbn [fst segments]; by rewrite length_replicate].
  constructor; cbn [fst snd]; rewrite ?Hps.
  - constructor; cbn [fst snd]; [|by etrans|by etrans|done]. unfold kowns, f1. by rewrite cells_table.
  - done.
  - by eapply elf_ok_same.
  - split; [by rewrite Hlen; apply length_replicate|]. intros j Hj. apply lookup_replicate. split; [done|lia].
  - intros j ph Hj. lia.
Qed.

(** ** Reading the file *)

Lemma store_bytes_load8 bs : forall m a x,
  load8 (store_bytes m a bs) x = if decide (a <= x < a + Z.of_nat (length bs)) then default 0 (bs !! Z.to_nat (x - a)) mod 256 else load8 m x.
Proof.
  induction bs as [|b bs IH]; intros m a x; cbn [store_bytes length]; [by rewrite decide_False by lia|].
  rewrite IH, load8_store8. repeat case_decide; try lia; try done.
  - by replace (Z.to_nat (x - a)) with (S (Z.to_nat (x - (a + 1)))) by lia.
  - by replace (Z.to_nat (x - a)) with O by lia.
Qed.

(** The bytes [c] are the image of the file in memory. *)
Definition image_at (m : mem) (f : elf_file) (c : list Z) : Prop :=
  in_memory_size f = Z.of_nat (length c) /\ forall i b, c !! i = Some b -> load8 m (elf_memory f + Z.of_nat i) = b.

Lemma image_kept c f f' k k' :
  image_at (kmem k) f c -> image_run f k -> stays k k' -> elf_memory f' = elf_memory f -> in_memory_size f' = in_memory_size f ->
  image_at (kmem k') f' c.
Proof.
  intros [Hl Hb] Hr St Em Es. split; [congruence|]. intros i b Hi. destruct (image_stays _ _ _ Hr St) as [_ Hs].
  apply lookup_lt_Some in Hi as Hlt. rewrite Em, Hs by lia. by apply Hb.
Qed.

(** The two parts of the file in its buffer. *)
Lemma image_stored m p c f : (4 <= length c)%nat -> Forall is_byte c -> elf_memory f = p -> in_memory_size f = Z.of_nat (length c) ->
  image_at (store_bytes (store_bytes m p (take 4 c)) (p + 4) (drop 4 c)) f c.
Proof.
  intros Hl Hc Hp Hs. split; [done|]. intros i b Hi. pose proof (lookup_lt_Some _ _ _ Hi) as Hlt.
  assert (Hb : b mod 256 = b) by (apply Z.mod_small; apply (Forall_lookup_1 _ _ _ _ Hc Hi)).
  rewrite Hp, !store_bytes_load8, length_drop, length_take. case_decide as Hd; [|case_decide; [|lia]].
  - replace (Z.to_nat _) with (i - 4)%nat by lia. rewrite lookup_drop. replace (4 + (i - 4))%nat with i by lia. by rewrite Hi.
  - replace (Z.to_nat _) with i by lia. rewrite lookup_take_lt by lia. by rewrite Hi.
Qed.

(** The segments are added to a struct whose image stays. *)
Lemma process_loaded_image a n : preserves (fun st : est => elf_memory (fst st) = a /\ in_memory_size (fst st) = n) elf_process_loaded.
Proof.
  set (R := fun st : est => _). assert (Ha : forall size, preserves R (ealloc size)).
  { intros size [f k] r st' HR E. unfold ealloc in E. destruct (kalloc size k). by injection E as <- <-. }
  assert (Hp : forall i ph, preserves R (elf_process_pheader i ph)).
  { intros i ph. unfold elf_process_pheader, elf_process_phdr_pt_load, set_file. destruct (_ =? _); [|apply preserves_ret].
    destruct (_ =? 0); [apply preserves_ret|]. apply preserves_bind; [apply Ha|]. intros p.
    apply preserves_bind; [apply preserves_fail_if|]. intros _.
    apply preserves_bind; [by apply preserves_modify; intros []|]. intros _. by apply preserves_modify; intros []. }
  assert (Hps : forall m i, preserves R (process_pheaders m i)).
  { induction m as [|m IH]; intros i; cbn [process_pheaders]; [apply preserves_ret|].
    apply preserves_bind; [apply preserves_gets|]. intros ph. apply preserves_bind; [apply Hp|]. intros _. apply IH. }
  unfold elf_process_loaded, elf_process_pheaders, set_file. apply preserves_bind; [apply preserves_gets|]. intros res.
  apply preserves_bind; [intros st r st' HR E; unfold status in E; destruct (_ <? 0); by injection E as <- <-|]. intros _.
  apply preserves_bind; [apply preserves_gets|]. intros m. apply preserves_bind; [apply Ha|]. intros p.
  apply preserves_bind; [apply preserves_fail_if|]. intros _. apply preserves_bind; [by apply preserves_modify; intros []|]. intros _.
  apply preserves_bind; [apply preserves_gets|]. intros m'. apply Hps.
Qed.

(** The file of descriptor [fd], opened in the state [v0], is being read; the allocations of [ks] are unchanged. *)
Record reading (v0 : vfs D H) (fd : Z) (ks : kern D H) (st : est) : Prop := Reading {
  re_ok : vfs_ok F (kfiles (snd st));
  re_open : fopened F A h0 (elf_cells (fst st)) v0 (kfiles (snd st)) fd;
  re_stays : stays ks (snd st);
  re_addr : file_addr (fst st) <> 0
}.

(** Steps that use the heap and memory only, under the open file. *)
Lemma reading_holding v0 fd ks f k : reading v0 fd ks (f, k) ->
  exists c, holding c k (f, k) /\ forall st', holding c k st' -> reading v0 fd ks st'.
Proof.
  intros [Ro Rf Rs Ra]. pose proof Rf as [Hi Hpos Hdk (a & p & cells & Ht & Hop & Ho)]. exists (a :: cells). split.
  - constructor; [|reflexivity..|done]. unfold kowns. eapply owned_perm; [|reflexivity|exact Ho]. simpl. solve_Permutation.
  - intros [f' k'] [Ho' [h Hk'] Hst Ha']. cbn [fst snd] in *. constructor; cbn [fst snd]; rewrite ?Hk'.
    + by apply vfs_ok_heap.
    + constructor; [done..|]. exists a, p, cells. split; [done|]. split; [by apply opened_heap|].
      unfold kowns, kheap in Ho'. rewrite Hk' in Ho'. eapply owned_perm; [|reflexivity|exact Ho']. simpl. solve_Permutation.
    + by etrans.
    + done.
Qed.

Lemma reading_fread v0 fd ks f k size n r st' :
  vfs_ok F v0 -> reading v0 fd ks (f, k) -> files (fread size n fd) (f, k) = (r, st') ->
  exists k', st' = (f, k') /\ reading v0 fd ks (f, k') /\ kmem k' = kmem k /\ kheap k' = kheap k /\
    (0 <= size -> 0 <= n < 2 ^ 32 -> match r with Ok (_, bs) => Z.of_nat (length bs) <= size * n | Err e => e < 0 end).
Proof.
  intros V [Ro Rf Rs Ra] E. unfold files in E. destruct (fread size n fd (kfiles k)) as [r1 v1] eqn:Er. injection E as <- <-.
  destruct (fread_spec F A h0 _ _ _ _ _ _ _ _ V Rf Ro Er) as (Fo & V1 & Hd & Hh & Hlen).
  exists (Kern v1 (kmem k)). split; [done|]. split; [|done]. constructor; cbn [fst snd kfiles] in *; [done|done| |done].
  etrans; [exact Rs|]. intros q m Hq. split; [|apply same_on_refl]. unfold kheap in *. simpl. by rewrite Hh.
Qed.

(** Bytes stored into a new allocation. *)
Lemma store_stays ks k p n a bs : stays ks k -> (forall q m, run (kheap ks) q m -> apart p n q m) ->
  p <= a -> a + Z.of_nat (length bs) <= p + 4096 * n -> stays ks (with_kmem (store_bytes (kmem k) a bs) k).
Proof.
  intros St Hap H1' H2' q m Hq. destruct (St q m Hq) as [Hq' Hs]. split; [done|]. intros x Hx. simpl.
  rewrite store_bytes_load8, decide_False; [by apply Hs|]. specialize (Hap q m Hq). unfold apart in Hap. lia.
Qed.

(** A loaded file: a valid image in memory and its segments. *)
Record elf_loaded (f : elf_file) (k : kern D H) : Prop := ElfLoaded {
  el_image : image_run f k;
  el_ok : elf_ok (kmem k) f;
  el_count : length (segments f) = length (program_headers (kmem k) (elf_memory f));
  el_segment j ph : program_headers (kmem k) (elf_memory f) !! j = Some ph -> loaded ph = true ->
    exists p, segments f !! j = Some p /\ run (kheap k) p (end_page ph - first_page ph) /\ filled (kmem k) f ph p
}.

Lemma seg_inv_loaded c k0 f k : seg_inv c k0 (length (segments f)) (f, k) -> elf_loaded f k.
Proof.
  intros [_ I2 I3 [I4 _] I5]. cbn [fst snd] in *. constructor; [done..|]. intros j ph Hj Hl.
  apply I5; [|done..]. rewrite I4. by eapply lookup_lt_Some.
Qed.

Lemma files_inv {B} (c : io (vfs D H) B) f k r st' : files c (f, k) = (r, st') ->
  exists v, c (kfiles k) = (r, v) /\ st' = (f, Kern v (kmem k)).
Proof. unfold files. destruct (c (kfiles k)) as [r1 v]. intros [= <- <-]. by exists v. Qed.

(** The file stream that stands behind the signature is what the image has to be. *)
Definition loads (k : kern D H) (fd : Z) (signature : list Z) (st' : est) : Prop :=
  forall c, fstream F (kfiles k) fd c 4 -> Forall is_byte c -> (4 <= length c)%nat -> signature = take 4 c ->
    in_memory_size (fst st') = Z.of_nat (length c) -> image_at (kmem (snd st')) (fst st') c.

Lemma loads_tail k p fd f k3 signature n' bs v :
  fread (in_memory_size f - 4) 1 fd (kfiles k) = (Ok (n', bs), v) -> negb (n' =? 1) = false -> elf_memory f = p ->
  4 < in_memory_size f < 2 ^ 32 -> kmem k3 = store_bytes (store_bytes (kmem k) p signature) (p + 4) bs -> loads k fd signature (f, k3).
Proof.
  intros E Hn Hp Hsz Hm c Hs Hc Hl -> Hlen. cbn [fst snd] in *. apply negb_false_iff, Z.eqb_eq in Hn. subst n'.
  apply (fread_stream F _ _ c 4) in E as (-> & Hk & _); [|done|lia..]. cbn [fst] in *.
  rewrite (take_ge (drop _ c)) in Hm by (rewrite length_drop; lia). rewrite Hm. by apply image_stored.
Qed.

(** The contents are read into the buffer [p], which is new. *)
Lemma elf_read_tail v0 fd ks f k p n filesize r st' signature :
  vfs_ok F v0 -> reading v0 fd ks (f, k) -> elf_memory f = p -> in_memory_size f = filesize -> 4 <= filesize <= 4096 * n -> filesize < 2 ^ 32 ->
  segment_memory f = 0 -> segments f = [] -> run (kheap k) p n -> (forall q m, run (kheap ks) q m -> apart p n q m) ->
  Z.of_nat (length signature) <= 4 ->
  (_ ← set_mem (fun m => store_bytes m p signature);
   _ ← (if 4 <? filesize then
          '(n, bs) ← files (fread (filesize - 4) 1 fd);
          _ ← set_mem (fun m => store_bytes m (p + 4) bs);
          fail_if (negb (n =? 1)) EIO
        else mret tt);
   elf_process_loaded) (f, k) = (r, st') ->
  reading v0 fd ks st' /\ match r with Ok _ => elf_loaded (fst st') (snd st') /\ loads k fd signature st' /\ in_memory_size (fst st') = filesize | Err e => e < 0 end.
Proof.
  intros V Re Hem Hsz Hfs Hmax Hsm Hsg Hrun Hap Hsig E. unfold set_mem in E. rewrite io_modify in E.
  set (k1 := with_kmem _ k) in E. assert (Re1 : reading v0 fd ks (f, k1)).
  { destruct Re as [Ro Rf Rs Ra]. constructor; [done..| |done]. apply (store_stays _ _ p n); [done..|lia|lia]. }
  assert (Hnext : forall k2, reading v0 fd ks (f, k2) -> kheap k2 = kheap k -> loads k fd signature (f, k2) -> elf_process_loaded (f, k2) = (r, st') ->
    reading v0 fd ks st' /\ match r with Ok _ => elf_loaded (fst st') (snd st') /\ loads k fd signature st' /\ in_memory_size (fst st') = filesize | Err e => e < 0 end).
  { intros k2 Re2 Hh2 Hld E2. destruct (process_loaded_image (elf_memory f) (in_memory_size f) (f, k2) r st' (conj eq_refl eq_refl) E2) as [Em Es]. destruct (reading_holding _ _ _ _ _ Re2) as (c & Hc & Hback).
    apply (process_loaded_spec c k2) in E2; [|done|exists n; rewrite Hem, Hsz, Hh2; split; [done|lia]|done..].
    destruct r as [u|e]; [|by destruct E2; split; [apply Hback|]]. destruct st' as [f' k']. cbn [fst snd] in *. split; [apply Hback, E2|]. split; [by eapply seg_inv_loaded|].
    split; [|congruence]. intros b Hb Hby Hl Hsg' Hlen. cbn [fst snd] in *. eapply image_kept; [apply (Hld b); (done || (cbn [fst]; congruence))| |apply (ho_stays _ _ _ (si_hold _ _ _ _ E2))|done..].
    exists n. cbn [fst snd]. rewrite Hem, Hsz, Hh2. split; [done|lia]. }
  destruct (Z.ltb_spec 4 filesize) as [H4|H4].
  2:{ rewrite io_mret in E. apply (Hnext k1); [done..| |done]. intros c Hc Hb Hl -> Hlen. cbn [fst snd] in *.
      assert (Hd : drop 4 c = []) by (apply drop_ge; lia). pose proof (image_stored (kmem k) p c f Hl Hb Hem Hlen) as Him. by rewrite Hd in Him. }
  apply io_bind_inv in E as [(e & E & ->)|(u & st2 & E & E2)].
  - apply io_bind_inv in E as [(e' & E & [= <-])|([n' bs] & st3 & E & E3)];
      apply (reading_fread _ _ _ _ _ _ _ _ _ V Re1) in E as (k3 & -> & Re3 & Hm3 & Hh3 & Hlen);
      [split; [done|]; apply Hlen; lia|].
    rewrite io_modify in E3. unfold fail_if in E3. destruct (negb _); [|done]. injection E3 as <- <-. split; [|done]. destruct Re3 as [Ro Rf Rs Ra]. constructor; [done..| |done].
    apply (store_stays _ _ p n); [done..|lia|]. specialize (Hlen ltac:(lia) ltac:(lia)). lia.
  - apply io_bind_ok in E as ([n' bs] & st3 & E & E3). pose proof E as (v & Ev & _)%files_inv.
    apply (reading_fread _ _ _ _ _ _ _ _ _ V Re1) in E as (k3 & -> & Re3 & Hm3 & Hh3 & Hlen).
    rewrite io_modify in E3. apply fail_if_ok in E3 as [Hn' ->]. refine (Hnext _ _ _ _ E2); [|done|].
    2:{ subst filesize. eapply loads_tail; [exact Ev|done|done|lia|]. simpl. by rewrite Hm3. }
    destruct Re3 as [Ro Rf Rs Ra]. constructor; [done..| |done].
    apply (store_stays _ _ p n); [done..|lia|]. specialize (Hlen ltac:(lia) ltac:(lia)). lia.
Qed.

(** The image is the file that was opened, if the path leads to the file on the disk. *)
Definition from_file (v1 : vfs D H) (fd : Z) (st' : est) : Prop := forall v filename,
  opens F v filename v1 fd -> exists c, on_disk F v filename c /\ image_at (kmem (snd st')) (fst st') c.

Lemma read_from_file fd k k2 k3 filesize fl v1 n signature st' :
  fstat fd (kfiles k) = (Ok (filesize, fl), v1) -> 4 <= filesize ->
  fread 4 1 fd (kfiles k) = (Ok (n, signature), kfiles k2) -> heap_only k2 k3 ->
  loads k3 fd signature st' -> in_memory_size (fst st') = filesize -> from_file (kfiles k) fd st'.
Proof.
  intros Es H4 Er [h Hk3] Hld Hsz v filename Hop. destruct (opens_fstat F _ _ _ _ _ _ _ Hop Es) as (c & Hc & Hs & ->).
  apply (fread_stream F _ _ c 0) in Er as (-> & _ & Hs2); [|done|lia..]. exists c. split; [done|].
  assert (Hlen : length (take (Z.to_nat (4 * 1)) (drop (Z.to_nat 0) c)) = 4%nat) by (rewrite length_take, length_drop; lia).
  rewrite Hlen in Hs2. destruct Hc as (x & l & _ & Hc). apply Hld; [|by eapply stored_bytes|lia|done|done].
  rewrite Hk3. by apply fstream_heap.
Qed.

Lemma elf_read_spec v0 fd ks a k r st' :
  vfs_ok F v0 -> stays ks k -> reading v0 fd ks (blank_file a, k) -> elf_read fd (blank_file a, k) = (r, st') ->
  reading v0 fd ks st' /\
  match r with Ok _ => elf_loaded (fst st') (snd st') /\ from_file (kfiles k) fd st' | Err e => e < 0 end.
Proof.
  intros V Sk Re E. unfold elf_read in E.
  assert (Hstat : forall rs st1, files (fstat fd) (blank_file a, k) = (rs, st1) -> st1 = (blank_file a, k) /\
    match rs with Ok (n, _) => 0 <= n < 2 ^ 32 | Err e => e < 0 end).
  { intros rs st1 Es. destruct (fopened_fd F A h0 _ _ _ _ V (re_open _ _ _ _ Re)) as (_ & d & p & cells & Hg & _).
    unfold files in Es. destruct (fstat fd (kfiles k)) as [r1 v1] eqn:Ef. injection Es as <- <-. pose proof Ef as Ef'.
    unfold fstat, with_descriptor in Ef'. cbn [snd] in Hg. rewrite io_gets, Hg in Ef'. apply lift_inv in Ef' as (s & Es & _).
    rewrite (fstat_state F fd _ _ _ _ Hg eq_refl Ef). apply stat_law in Es as [_ Hn]. split; [by destruct k|done]. }
  apply io_bind_inv in E as [(e & E & ->)|([filesize fl] & st1 & E & E1)]; pose proof E as (v1 & Ev1 & _)%files_inv; apply Hstat in E as [-> Hn]; [done|].
  rewrite io_fail_if in E1. destruct (Z.ltb_spec filesize 4) as [|H4]; [by injection E1 as <- <-|].
  apply io_bind_inv in E1 as [(e & E & ->)|([n signature] & st2 & E & E2)];
    pose proof E as (v2 & Ev2 & Est2)%files_inv; apply (reading_fread _ _ _ _ _ _ _ _ _ V Re) in E as (k2 & -> & Re2 & Hm2 & Hh2 & Hlen);
    [split; [done|]; apply Hlen; lia|].
  do 2 (rewrite io_fail_if in E2; destruct (negb _); [by injection E2 as <- <-|]).
  destruct (reading_holding _ _ _ _ _ Re2) as (c & [Hc _ _ Ha] & Hback). cbn [fst snd] in *.
  unfold ealloc in E2. unfold mbind at 1, io_bind at 1 in E2. destruct (kalloc filesize k2) as [p k3] eqn:Ek.
  pose proof (kalloc_stays _ _ _ _ _ Hc Ek) as St3.
  destruct (kalloc_spec _ _ _ _ _ Hc Ek) as [Hh [[-> ->]|(Hp & Ho3 & _ & Hrun & Hold)]];
    unfold set_file in E2; rewrite io_modify, io_fail_if in E2.
  { injection E2 as <- <-. split; [|done]. apply Hback. by constructor. }
  rewrite (proj2 (Z.eqb_neq p 0)) in E2 by done. rewrite (u32_small filesize) in Hrun, Hold by done.
  eapply elf_read_tail in E2; [|done| |reflexivity|reflexivity| |apply Hn|reflexivity|reflexivity|exact Hrun| |].
  - split; [apply E2|]. destruct E2 as [_ E2]. destruct r as [u|e]; [|done]. destruct E2 as (Hld & Hl & Hs). split; [done|].
    injection Est2 as ->. exact (read_from_file fd _ (Kern v2 (kmem k)) _ _ _ _ _ _ _ Ev1 H4 Ev2 Hh Hl Hs).
  - apply Hback. constructor; [|done..]. cbn [fst snd]. unfold kowns, elf_cells. cbn [file_addr elf_memory segment_memory segments].
    eapply owned_perm; [|reflexivity|exact Ho3]. unfold elf_cells, blank_file. cbn [file_addr elf_memory segment_memory segments List.filter app].
    unfold nonnull at 2. rewrite (proj2 (Z.eqb_neq p 0)) by done. change (nonnull 0) with false. cbn [negb].
    unfold nonnull. rewrite (proj2 (Z.eqb_neq a 0)) by done. cbn [negb app]. solve_Permutation.
  - unfold blocks_for. lia.
  - intros q m Hq. destruct (re_stays _ _ _ _ Re2 q m Hq) as [Hq' _]. by apply Hold.
  - specialize (Hlen ltac:(lia) ltac:(lia)). lia.
Qed.

Lemma loaded_transport f k k' : elf_loaded f k -> kmem k' = kmem k ->
  (forall q n, q ∈ elf_cells f -> run (kheap k) q n -> run (kheap k') q n) -> elf_loaded f k'.
Proof.
  intros [Him Hok Hc Hs] Hm Hr.
  assert (Hin : forall q n, run (kheap k) q n -> q ∈ file_addr f :: elf_memory f :: segment_memory f :: segments f -> q ∈ elf_cells f).
  { intros q n Hq Hl. apply list_elem_of_In, filter_In. split; [by apply list_elem_of_In|]. unfold nonnull.
    rewrite (proj2 (Z.eqb_neq q 0)); [done|]. apply run_bounds in Hq. lia. }
  constructor; rewrite ?Hm; [|done..|].
  - destruct Him as (n & Hn & Hz). exists n. split; [|done]. apply Hr; [|done]. eapply Hin; [exact Hn|]. set_solver.
  - intros j ph Hj Hl. destruct (Hs j ph Hj Hl) as (p & Hp & Hrun & Hf). exists p. split; [done|]. split; [|done].
    apply Hr; [|done]. eapply Hin; [exact Hrun|]. apply list_elem_of_lookup_2 in Hp. set_solver.
Qed.

Lemma close_fd_zero (st : est) : close_fd 0 st = st.
Proof. destruct st as [f [v m]]. done. Qed.

Lemma elf_open_spec filename a k k1 r st' :
  vfs_ok F (kfiles k1) -> kowns [a] k1 -> a <> 0 -> live h0 A -> kheap k = h0 -> stays k k1 ->
  elf_open filename (blank_file a, k1) = (r, st') ->
  vfs_ok F (kfiles (snd st')) /\ file_descriptors (kfiles (snd st')) = file_descriptors (kfiles k1) /\ stays k (snd st') /\
  kowns (elf_cells (fst st')) (snd st') /\ file_addr (fst st') <> 0 /\
  match r with
  | Ok _ => elf_loaded (fst st') (snd st') /\
      (synced (vol (kfiles k1)) -> exists c, on_disk F (kfiles k1) filename c /\ image_at (kmem (snd st')) (fst st') c)
  | Err e => e < 0
  end.
Proof.
  intros V Ho Ha Hl Hk St E. unfold elf_open, files in E. destruct (owned_live _ _ _ _ _ Ho) as [M HM].
  assert (Hcells : elf_cells (blank_file a) = [a]).
  { unfold elf_cells, blank_file. cbn [file_addr elf_memory segment_memory segments List.filter]. unfold nonnull.
    by rewrite (proj2 (Z.eqb_neq a 0)). }
  assert (Hold : forall l v, owned_by (fun _ => True) A h0 l (heap (vol v)) -> stays k (Kern v (kmem k1))).
  { intros l v Hv q n Hq. split; [|by apply St]. destruct Hq as (B & HB & Hq). rewrite Hk in HB. rewrite (live_fun _ _ _ HB Hl) in Hq. by eapply owned_old. }
  destruct (fopen_status filename [114] (kfiles k1)) as [rf v2] eqn:Ef.
  destruct (fopen_status_spec F M _ _ _ _ _ V HM Ef) as (_ & V2 & Hf). specialize (V2 eq_refl). destruct rf as [fd|e].
  - destruct Hf as [Hi Hpos Hdk (d & p & cells & Ht & Hop & Hof)].
    assert (Hof' : owned_by (fun _ => True) A h0 (d :: cells ++ [a]) (heap (vol v2))).
    { pose proof (owned_trans _ _ _ _ _ _ _ _ Ho HM Hof) as Ht'. by rewrite app_nil_r in Ht'. }
    rewrite (proj2 (Z.leb_gt fd 0)) in E by lia. apply finally_inv in E as (st2 & E & ->).
    assert (Re : reading (kfiles k1) fd k (blank_file a, Kern v2 (kmem k1))).
    { constructor; [done| |by eapply Hold|done]. constructor; [done..|]. exists d, p, cells. split; [done|]. split; [done|].
      cbn [fst]. by rewrite Hcells. }
    pose proof (re_stays _ _ _ _ Re) as St2. apply (elf_read_spec _ _ _ _ _ _ _ V St2 Re) in E as [Re2 Hld].
    destruct st2 as [f k2]. cbn [fst snd] in *. destruct Re2 as [Ro Rf Rs Ra]. cbn [fst snd] in *.
    unfold close_fd, files. destruct (fclose fd (kfiles k2)) as [rc v3] eqn:Ec. cbn [fst snd kfiles kmem].
    destruct (fclose_ok F _ _ _ _ _ _ _ _ V Rf Ro Ec) as [V3 _].
    destruct (fclose_spec F _ _ _ _ _ _ V Rf) as (v3' & Ec' & Ht3 & Ho3). rewrite Ec in Ec'. injection Ec' as _ <-.
    assert (Hruns : forall q n, q ∈ elf_cells f \/ is_Some (A !! q) -> run (kheap k2) q n -> run (kheap (Kern v3 (kmem k2))) q n).
    { intros q n Hin Hq. exact (fclose_runs F A h0 _ _ _ _ _ _ q n V Rf Ec Hq Hin). }
    split; [done|]. split; [done|]. split.
    { intros q n Hq. destruct (Rs q n Hq) as [Hq2 Hsame]. split; [|done]. apply Hruns; [|done]. right.
      destruct Hq as (B & HB & Hq). rewrite Hk in HB. rewrite (live_fun _ _ _ HB Hl) in Hq. eauto. }
    split; [done|]. split; [done|]. destruct r; [|done]. destruct Hld as [Hld Hfile]. split.
    + eapply loaded_transport; [exact Hld|done|]. intros q n Hin. apply Hruns. by left.
    + intros Hsy. exact (Hfile _ _ (fopen_opens F M _ _ _ _ V Hsy HM Ef)).
  - destruct Hf as [Ht Hof]. pose proof (owned_done _ _ _ _ Hof) as Hh.
    assert (Hst : st' = (blank_file a, Kern v2 (kmem k1)) /\ match r with Ok _ => False | Err e => e < 0 end).
    { apply finally_inv in E as (st2 & E & ->). rewrite close_fd_zero. destruct (negb _); by injection E as <- <-. }
    destruct Hst as [-> Hr]. cbn [fst snd kfiles]. split; [done|]. split; [done|].
    assert (Hov : owned_by (fun _ => True) A h0 [a] (heap (vol v2))) by (by rewrite Hh).
    split; [by eapply Hold|]. split; [by rewrite Hcells|]. split; [done|]. by destruct r.
Qed.
End balance.

Section load.
Context {D H : Type} `{BlockDeviceLaws D} `{AllocatorLaws H} (F : filesystem D H) `{!FilesystemLaws F}.
Implicit Types k : kern D H.

Lemma krelease_only p k : heap_only k (krelease p k) /\ kmem (krelease p k) = kmem k.
Proof. split; [by eexists|done]. Qed.

Lemma elf_close_only f k : heap_only k (elf_close f k) /\ kmem (elf_close f k) = kmem k.
Proof.
  assert (Hseg : forall l k, heap_only k (free_segments l k) /\ kmem (free_segments l k) = kmem k).
  { induction l as [|p l IH]; intros k1; [split; [reflexivity|done]|]. cbn [free_segments]. destruct (IH (krelease p k1)) as [I1 ->].
    split; [|done]. etrans; [apply krelease_only|done]. }
  unfold elf_close. destruct (_ =? 0); [split; [reflexivity|done]|]. destruct (Hseg (segments f) k) as [S1 S2]. split; [|done].
  etrans; [exact S1|]. do 3 (etrans; [apply krelease_only|]). reflexivity.
Qed.

(** The state before the load, but for contents of memory that was not allocated. *)
Record restored (k k' : kern D H) : Prop := Restored {
  rs_ok : vfs_ok F (kfiles k');
  rs_table : file_descriptors (kfiles k') = file_descriptors (kfiles k);
  rs_stays : stays k k'
}.

Lemma elf_load_spec filename k r k' A :
  vfs_ok F (kfiles k) -> live (kheap k) A -> elf_load filename k = (r, k') ->
  restored k k' /\
  match r with
  | Ok f => elf_loaded f k' /\ file_addr f <> 0 /\ kowns A (kheap k) (elf_cells f) k' /\
      (synced (vol (kfiles k)) -> exists c, on_disk F (kfiles k) filename c /\ image_at (kmem k') f c)
  | Err e => e < 0 /\ kheap k' = kheap k
  end.
Proof.
  intros V Hl E. unfold elf_load, elf_load_body in E. unfold ealloc at 1 in E. unfold mbind at 1, io_bind at 1 in E.
  assert (Ho0 : kowns A (kheap k) [] k) by (by apply owned_nil).
  destruct (kalloc sizeof_elf_file k) as [a k1] eqn:Ek. pose proof (kalloc_stays _ _ _ _ _ _ _ Ho0 Ek) as St.
  destruct (kalloc_spec _ _ _ _ _ _ _ Ho0 Ek) as [Hh [[-> ->]|(Ha & Ho1 & _)]].
  { change (0 =? 0) with true in E. cbv iota in E. unfold finally, fail in E. rewrite close_fd_zero in E. injection E as <- <-.
    split; [by constructor|done]. }
  rewrite (proj2 (Z.eqb_neq a 0)) in E by done. unfold set_file in E. rewrite io_modify in E. cbn beta iota in E.
  assert (V1 : vfs_ok F (kfiles k1) /\ file_descriptors (kfiles k1) = file_descriptors (kfiles k)).
  { destruct Hh as [h ->]. split; [by apply vfs_ok_heap|done]. }
  destruct (elf_open filename (blank_file a, k1)) as [r1 [f k2]] eqn:E1.
  destruct (elf_open_spec F A (kheap k) filename a k k1 _ _ (proj1 V1) Ho1 Ha Hl eq_refl St E1) as (V2 & Ht & St2 & Ho2 & Hf & Hld).
  cbn [fst snd] in *. rewrite (proj2 V1) in Ht. destruct r1 as [u|e]; injection E as <- <-.
  { destruct Hld as [Hld Hfile]. split; [by constructor|]. do 3 (split; [done|]). destruct Hh as [h Hh]. rewrite Hh in Hfile. intros Sy.
    destruct (Hfile (synced_heap _ h Sy)) as (c & (x & l & Hp & Hc) & Him). exists c. split; [|done]. exists x, l.
    split; [done|]. exact (stored_heap _ h _ _ _ Hc). }
  assert (Hback : kheap (elf_close f k2) = kheap k).
  { eapply owned_done, elf_close_owns; [done|]. by rewrite app_nil_r. }
  destruct (elf_close_only f k2) as [[h Hc] Hm]. split; [|done]. constructor; rewrite ?Hc; [by apply vfs_ok_heap|done|].
  intros q n Hq. rewrite Hback, Hm. split; [done|]. by apply St2.
Qed.
End load.

(** ** Properties *)

(** C25: The ELF check accepts exactly the static i386 programs whose tables and segments lie inside
    the file, whose segments occupy disjoint pages in ascending order inside the program window and
    whose entry point lies in an executable segment; it never computes outside 32 bits on the way. The
    status for a missing signature, on which the loader falls back to raw programs, is returned for
    exactly the files without one. *)
Theorem elf_validate_exact m file :
  0 <= in_memory_size file ->
  (elf_validate_loaded m file = 0 <-> elf_ok m file) /\
  (elf_validate_loaded m file = - EINFORMAT <-> ~ has_signature m file) /\
  (elf_validate_loaded m file = 0 \/ elf_validate_loaded m file = - EINFORMAT \/ elf_validate_loaded m file = - EINVARG).
Proof. apply elf_validate_spec. Qed.

(** C24: Loading an ELF program. The file layer is left as before (the file is closed again on every
    path) and nothing that was allocated changes. A success gives a valid image in memory, and for
    every segment whole pages that hold the bytes of the image at their place and zeros everywhere
    else; the image is, byte for byte, the file that the disk holds under the path, if what the file system
    keeps of the disk in memory agrees with it, and closing gives the heap back. Every failure (no memory,
    no file, a read error, a bad header) is a negative status and gives the heap back at once. *)
Theorem elf_load_correct {D H} `{BlockDeviceLaws D} `{AllocatorLaws H} (F : filesystem D H) `{!FilesystemLaws F}
    filename (k : kern D H) A r k' :
  vfs_ok F (kfiles k) -> live (kheap k) A -> elf_load filename k = (r, k') ->
  vfs_ok F (kfiles k') /\ file_descriptors (kfiles k') = file_descriptors (kfiles k) /\
  (forall q n, A !! q = Some n -> same_on (kmem k) (kmem k') q (q + 4096 * n)) /\
  match r with
  | Ok f => elf_ok (kmem k') f /\ kheap (elf_close f k') = kheap k /\
      (forall j ph, program_headers (kmem k') (elf_memory f) !! j = Some ph -> loaded ph = true ->
        exists p, segments f !! j = Some p /\ run (kheap k') p (end_page ph - first_page ph) /\ filled (kmem k') f ph p) /\
      (synced (vol (kfiles k)) -> exists c, on_disk F (kfiles k) filename c /\ image_at (kmem k') f c)
  | Err e => e < 0 /\ kheap k' = kheap k
  end.
Proof.
  intros V Hl E. destruct (elf_load_spec F _ _ _ _ _ V Hl E) as [[V' Ht St] Hr]. split; [done|]. split; [done|].
  split; [intros q n Hq; apply St; by exists A|]. destruct r as [f|e]; [|done]. destruct Hr as ([_ Hok _ Hs] & Hf & Ho & Hi).
  split; [done|]. split; [|by split]. eapply owned_done, elf_close_owns; [done|]. by rewrite app_nil_r.
Qed.

(** ** Examples: a program of one segment *)

(** The header, one program header for the whole file at 0x400000 and six bytes of code at its entry. *)
Definition demo_elf : list Z :=
  [0x7f; 69; 76; 70; 1; 1; 1] ++ replicate 9 0 ++ [2; 0; 3; 0; 1; 0; 0; 0; 84; 0; 64; 0; 52; 0; 0; 0] ++ replicate 8 0 ++
  [52; 0; 32; 0; 1; 0; 0; 0; 0; 0; 0; 0] ++
  [1; 0; 0; 0; 0; 0; 0; 0; 0; 0; 64; 0; 0; 0; 64; 0; 90; 0; 0; 0; 100; 0; 0; 0; 5; 0; 0; 0; 0; 16; 0; 0] ++
  [184; 9; 0; 0; 205; 128].

Definition demo_program : elf_file := ElfFile 4096 90 0 [] 8192 0 0 0 0.

Lemma elf_validate_exact_witness :
  elf_ok (store_bytes ∅ 8192 demo_elf) demo_program /\ ~ has_signature (store_bytes ∅ 8192 [77; 90]) demo_program.
Proof.
  split; [apply (elf_validate_exact (store_bytes ∅ 8192 demo_elf) demo_program)|
          apply (elf_validate_exact (store_bytes ∅ 8192 [77; 90]) demo_program)]; vm_compute; congruence.
Defined.

(** The volume of FatProps.v with the program in place of the text. *)
Definition elf_item : fat_directory_item :=
  FatItem [72; 69; 76; 76; 79; 32; 32; 32] [69; 76; 70] 0x20 0 0 0 0 0 0 0 0 2 90.
Definition elf_kern : kern ram_disk Heap.heap :=
  Kern (Vfs (Fs (RamDisk (put (put (put (put ∅ 512 demo_table) 9216 demo_table) 17920 (encode_item elf_item)) 18432 demo_elf) 4200 ∅)
               (Heap.Heap (Heap.HeapTable (replicate 16 0) 16) 16777216)
               (FatPrivate (header demo_private)
                  (FatDirectory 0 (elf_item :: replicate 15 (decode_item (replicate 32 0))) 0 1 35 36) 0 0 0 [] ∅ false false 0))
            (Some fat16_init) [] (replicate 512 None)) ∅.

Lemma elf_kern_ok : vfs_ok fat16_init (kfiles elf_kern) /\ live (kheap elf_kern) ∅.
Proof.
  split.
  - constructor; [done|]. intros f [= <-]. split; [done|]. constructor.
    + constructor; [constructor; vm_compute; (done || (split; congruence))|done].
    + constructor; [|reflexivity|by left]. apply (root_listing (img (dev (vol (kfiles elf_kern)))) (priv (vol (kfiles elf_kern)))); reflexivity.
  - exists ∅. rewrite kmap_empty. split; [|done]. by apply empty_repr.
Qed.

Lemma elf_kern_synced : synced (F := fat16_init) (vol (kfiles elf_kern)).
Proof.
  set (s := vol (kfiles elf_kern)).
  assert (Hall : Forall (fun k => item (root_directory (priv s)) !! Z.to_nat k = Some (disk_item (img (dev s)) (priv s) 0 k)) (seqZ 0 16)).
  { repeat (constructor; [vm_compute; reflexivity|]). constructor. }
  rewrite Forall_forall in Hall. intros k Hk. apply Hall, elem_of_seqZ. exact Hk.
Qed.

(** 0:/hello.elf *)
Lemma elf_load_correct_witness :
  exists f k' c, elf_load [48; 58; 47; 104; 101; 108; 108; 111; 46; 101; 108; 102] elf_kern = (Ok f, k') /\
    elf_ok (kmem k') f /\ kheap (elf_close f k') = kheap elf_kern /\
    on_disk fat16_init (kfiles elf_kern) [48; 58; 47; 104; 101; 108; 108; 111; 46; 101; 108; 102] c /\
    image_at (kmem k') f c /\ length c = 90%nat.
Proof.
  destruct (elf_load [48; 58; 47; 104; 101; 108; 108; 111; 46; 101; 108; 102] elf_kern) as [r k'] eqn:E.
  pose proof (elf_load_correct fat16_init _ elf_kern ∅ r k' (proj1 elf_kern_ok) (proj2 elf_kern_ok) E) as (_ & _ & _ & Hr).
  eval_result E. destruct Hr as (Hok & Hh & _ & Hc). destruct (Hc elf_kern_synced) as (c & Hd & Hi). eexists _, k', c.
  refine (conj eq_refl (conj Hok (conj Hh (conj Hd (conj Hi _))))). apply proj1 in Hi. cbn [in_memory_size] in Hi. clear -Hi. lia.
Defined.
