(* ===== verification/UserMem.v ===== *)
(** * Access to the memory of a user program (kernel/task/task.c, kernel/task/process.c)

    A system call passes addresses of the program's own address space. The kernel looks up which bytes
    the process owns_byte, translates each page through the task's directory with the rights of a user access, and
    copies fragment by fragment. The theorems show that a copy succeeds exactly when every byte is owned and mapped,
    that it then changes exactly the bytes it has to, and that otherwise it changes nothing. *)

From stdpp Require Import base numbers list gmap.
From Stdlib Require Import ZArith Lia.
From S2P Require Import Prelude Alloc Heap Memory Paging Sched Effects Disk StrLib PathParser Fat FatWrite FatProps.
From S2P Require Import FatDir FatDirScan FatOpen FatMount Vfs Elf.

#[local] Set Default Goal Selector "!".

(** ** Processes (process.h, config.h, config.mk) *)

Definition RORTHOX_PROGRAM_VIRTUAL_STACK_ADDRESS_START : Z := 0x3FF000.
Definition USER_PROGRAM_STACK_SIZE : Z := 16384.
Definition RORTHOX_PROGRAM_VIRTUAL_STACK_ADDRESS_END : Z :=
  RORTHOX_PROGRAM_VIRTUAL_STACK_ADDRESS_START - USER_PROGRAM_STACK_SIZE.
Definition PROCESS_FILETYPE_ELF : Z := 0.
Definition PROCESS_FILETYPE_BINARY : Z := 1.

Record process_allocation := Allocation { alloc_ptr : Z; alloc_size : Z }.

Record keyboard_buffer := KeyboardBuffer { kb_buffer : list Z; kb_tail : Z; kb_head : Z }.

Record process_arguments := ProcessArguments { argc : Z; argv : Z }.

(** [program_ptr] is the union of [ptr] and [elf_file]; [program_elf] is the struct it points to in the second case. *)
Record proc := Proc {
  pid : Z;
  proc_filename : list Z;
  proc_task : Z;
  allocations : list process_allocation;
  filetype : Z;
  program_ptr : Z;
  program_elf : elf_file;
  proc_stack : Z;
  proc_size : Z;
  keyboard : keyboard_buffer;
  arguments : process_arguments;
  handles : list Z
}.

(** ** Ownership *)

(** The bytes from [address] to the end of the region. *)
Definition process_region_span (address start size : Z) : option Z :=
  if (address <? start) || (size <=? address - start) then None else Some (size - (address - start)).

Fixpoint span_allocations (l : list process_allocation) (address : Z) : option Z :=
  match l with
  | [] => None
  | a :: l =>
    match (if alloc_ptr a =? 0 then None else process_region_span address (alloc_ptr a) (alloc_size a)) with
    | Some available => Some available
    | None => span_allocations l address
    end
  end.

(** The segments [l], of which the first has the index [i]. *)
Fixpoint span_segments (m : mem) (header i : Z) (l : list Z) (address : Z) (write : bool) : option Z :=
  match l with
  | [] => None
  | memory :: l =>
    let phdr := elf_program_header m header i in
    match (if (p_type phdr =? PT_LOAD) && negb (memory =? 0) && (negb write || has_flag (p_flags phdr) PF_W)
           then process_region_span address (p_vaddr phdr) (p_memsz phdr) else None) with
    | Some available => Some available
    | None => span_segments m header (i + 1) l address write
    end
  end.

Definition span_program (m : mem) (p : proc) (address : Z) (write : bool) : option Z :=
  if filetype p =? PROCESS_FILETYPE_BINARY
  then process_region_span address RORTHOX_PROGRAM_VIRTUAL_ADDRESS (proc_size p)
  else if (filetype p =? PROCESS_FILETYPE_ELF) && negb (program_ptr p =? 0)
  then span_segments m (elf_memory (program_elf p)) 0 (segments (program_elf p)) address write
  else None.

(** The null pointer is [None]. *)
Definition process_user_span (m : mem) (p : option proc) (address : Z) (write : bool) : result Z :=
  match p with
  | None => Err (- EINVARG)
  | Some p =>
    if address =? 0 then Err (- EINVARG)
    else
      match (if proc_stack p =? 0 then None
             else process_region_span address RORTHOX_PROGRAM_VIRTUAL_STACK_ADDRESS_END USER_PROGRAM_STACK_SIZE) with
      | Some available => Ok available
      | None =>
        match span_allocations (allocations p) address with
        | Some available => Ok available
        | None =>
          match span_program m p address write with
          | Some available => Ok available
          | None => Err (- EINVARG)
          end
        end
      end
  end.

(** ** Checked copies *)

Section copies.
(** The processes by their address. *)
Context (ps : gmap Z proc).

Definition proc_of (t : task) : option proc := if process t =? 0 then None else ps !! process t.

(** [!task || !task->process || !task->page_directory] *)
Definition task_unusable (t : task) : bool :=
  match proc_of t with None => true | Some _ => page_directory t =? 0 end.

(** The physical address and the size of the fragment. *)
Definition task_user_fragment (m : mem) (t : task) (address remaining : Z) (write : bool) : result (Z * Z) :=
  match process_user_span m (proc_of t) address write with
  | Err e => Err e
  | Ok available =>
    match paging_user_translate m (load32 m (page_directory t)) address write with
    | (res, None) => Err res
    | (_, Some physical) =>
      let page_remaining := PAGING_PAGE_SIZE - Z.land address (PAGING_PAGE_SIZE - 1) in
      let size := if available <? remaining then available else remaining in
      let size := if page_remaining <? size then page_remaining else size in
      Ok (physical, size)
    end
  end.

(** One pass of [task_copy_user]. Each round takes at least a byte, so [remaining] rounds are enough. *)
Fixpoint copy_pass (fuel : nat) (copy : bool) (t : task) (write : bool) (remaining current position : Z) (m : mem)
  : Z * mem :=
  if remaining =? 0 then (0, m)
  else
    match fuel with
    | O => (0, m)
    | S fuel =>
      match task_user_fragment m t current remaining write with
      | Err res => (res, m)
      | Ok (physical, fragment) =>
        let m := if copy then (if write then memcpy m physical position fragment
                               else memcpy m position physical fragment) else m in
        let remaining := remaining - fragment in
        if remaining =? 0 then copy_pass fuel copy t write remaining current position m
        else copy_pass fuel copy t write remaining (u32 (current + fragment)) (position + fragment) m
      end
    end.

Definition task_copy_user (m : mem) (task : option task) (address buffer size : Z) (write : bool) : Z * mem :=
  match task with
  | None => (- EINVARG, m)
  | Some t =>
    if task_unusable t || (buffer =? 0) || (address =? 0) || (size =? 0) || (UINT32_MAX - address <? size - 1)
    then (- EINVARG, m)
    else
      try (res, m) := copy_pass (Z.to_nat size) false t write size address buffer m in
      copy_pass (Z.to_nat size) true t write size address buffer m
  end.

Definition task_copy_from_user (m : mem) (task : option task) (destination source size : Z) : Z * mem :=
  task_copy_user m task source destination size false.

Definition task_copy_to_user (m : mem) (task : option task) (destination source size : Z) : Z * mem :=
  task_copy_user m task destination source size true.

(** The inner loop over the pages of one region; gives the status and the new [size] and [address]. *)
Fixpoint validate_region (fuel : nat) (m : mem) (t : task) (write : bool) (available size address : Z) : Z * Z * Z :=
  if available =? 0 then (0, size, address)
  else
    match fuel with
    | O => (0, size, address)
    | S fuel =>
      let res := fst (paging_user_translate m (load32 m (page_directory t)) address write) in
      if res <? 0 then (res, size, address)
      else
        let fragment := PAGING_PAGE_SIZE - Z.land address (PAGING_PAGE_SIZE - 1) in
        let fragment := if available <? fragment then available else fragment in
        let size := size - fragment in
        validate_region fuel m t write (available - fragment) size
          (if size =? 0 then address else u32 (address + fragment))
    end.

Fixpoint validate_regions (fuel : nat) (m : mem) (t : task) (write : bool) (size address : Z) : Z :=
  if size =? 0 then 0
  else
    match fuel with
    | O => 0
    | S fuel =>
      match process_user_span m (proc_of t) address write with
      | Err res => res
      | Ok available =>
        let available := if size <? available then size else available in
        let '(res, size, address) := validate_region (Z.to_nat available) m t write available size address in
        if res <? 0 then res else validate_regions fuel m t write size address
      end
    end.

Definition task_validate_user_span (m : mem) (task : option task) (address size : Z) (write : bool) : Z :=
  match task with
  | None => - EINVARG
  | Some t =>
    if task_unusable t || (address =? 0) || (size =? 0) || (UINT32_MAX - address <? size - 1) then - EINVARG
    else validate_regions (Z.to_nat size) m t write size address
  end.

(** ** Strings *)

(** The bytes of a fragment up to a NUL; whether a NUL was copied. *)
Fixpoint copy_string (n : nat) (m : mem) (out inp : Z) : bool * mem :=
  match n with
  | O => (false, m)
  | S n =>
    let m := store8 m out (load8 m inp) in
    if load8 m inp =? 0 then (true, m) else copy_string n m (out + 1) (inp + 1)
  end.

Fixpoint copy_path_loop (fuel : nat) (m : mem) (t : task) (address out size : Z) : Z * mem :=
  if size =? 0 then (- EINVARG, m)
  else
    match fuel with
    | O => (- EINVARG, m)
    | S fuel =>
      match task_user_fragment m t address size false with
      | Err res => (res, m)
      | Ok (physical, fragment) =>
        let '(nul, m) := copy_string (Z.to_nat fragment) m out physical in
        if nul then (0, m)
        else if UINT32_MAX - address <? fragment then (- EINVARG, m)
        else copy_path_loop fuel m t (address + fragment) (out + fragment) (size - fragment)
      end
    end.

Definition task_copy_path_from_user (m : mem) (task : option task) (address out size : Z) : Z * mem :=
  match task with
  | None => (- EINVARG, m)
  | Some t =>
    if task_unusable t || (address =? 0) || (out =? 0) || (size =? 0) then (- EINVARG, m)
    else copy_path_loop (Z.to_nat size) m t address out size
  end.

Fixpoint copy_string_loop (fuel : nat) (m : mem) (t : task) (address out remaining : Z) : Z * mem :=
  if remaining =? 0 then (0, store8 m out 0)
  else
    match fuel with
    | O => (0, store8 m out 0)
    | S fuel =>
      match task_user_fragment m t address remaining false with
      | Err res => (res, store8 m out 0)
      | Ok (physical, fragment) =>
        let '(nul, m) := copy_string (Z.to_nat fragment) m out physical in
        if nul then (0, m)
        else if UINT32_MAX - address <? fragment then (0, store8 m out 0)
        else copy_string_loop fuel m t (address + fragment) (out + fragment) (remaining - fragment)
      end
    end.

Definition copy_string_from_task (m : mem) (task : option task) (virtual phys max : Z) : Z * mem :=
  match task with
  | None => (- EINVARG, m)
  | Some t =>
    if task_unusable t || (phys =? 0) || (max <=? 0) || (virtual =? 0) then (- EINVARG, m)
    else copy_string_loop (Z.to_nat (max - 1)) m t virtual phys (max - 1)
  end.

(** The word is stored at [value]. *)
Definition task_get_stack_item (m : mem) (task : option task) (index value : Z) : Z * mem :=
  match task with
  | None => (- EINVARG, m)
  | Some t =>
    if (index <? 0) || (value =? 0) then (- EINVARG, m)
    else
      let offset := u32 (index * 4) in
      if UINT32_MAX - r_esp (regs t) <? offset then (- EINVARG, m)
      else task_copy_from_user m (Some t) value (r_esp (regs t) + offset) 4
  end.
End copies.

(** ** Which bytes a process owns_byte *)

Definition in_span (a start size : Z) : Prop := start <= a < start + size.

Inductive owns_byte (m : mem) (p : proc) (write : bool) (a : Z) : Prop :=
  | owns_stack :
    proc_stack p <> 0 -> in_span a RORTHOX_PROGRAM_VIRTUAL_STACK_ADDRESS_END USER_PROGRAM_STACK_SIZE -> owns_byte m p write a
  | owns_allocation al :
    al ∈ allocations p -> alloc_ptr al <> 0 -> in_span a (alloc_ptr al) (alloc_size al) -> owns_byte m p write a
  | owns_binary :
    filetype p = PROCESS_FILETYPE_BINARY -> in_span a RORTHOX_PROGRAM_VIRTUAL_ADDRESS (proc_size p) -> owns_byte m p write a
  | owns_segment (i : nat) memory :
    filetype p = PROCESS_FILETYPE_ELF -> program_ptr p <> 0 ->
    segments (program_elf p) !! i = Some memory -> memory <> 0 ->
    let ph := elf_program_header m (elf_memory (program_elf p)) (Z.of_nat i) in
    p_type ph = PT_LOAD -> (write = true -> has_flag (p_flags ph) PF_W = true) ->
    in_span a (p_vaddr ph) (p_memsz ph) -> owns_byte m p write a.

Lemma region_span_spec a start size :
  process_region_span a start size = if decide (in_span a start size) then Some (start + size - a) else None.
Proof.
  unfold process_region_span, in_span. case_decide; case_Zb; simpl; (lia || (f_equal; lia) || done).
Qed.

Lemma region_span_some a start size n i :
  process_region_span a start size = Some n -> 0 <= i < n -> in_span (a + i) start size.
Proof. rewrite region_span_spec. case_decide as Hi; [|done]. intros [= <-]. unfold in_span in *. lia. Qed.

Lemma region_span_pos a start size n : process_region_span a start size = Some n -> 0 < n.
Proof. rewrite region_span_spec. case_decide as Hi; [|done]. intros [= <-]. unfold in_span in Hi. lia. Qed.

Lemma region_span_in a start size : in_span a start size -> is_Some (process_region_span a start size).
Proof. intros Hi. rewrite region_span_spec, decide_True by done. eauto. Qed.

(** A search result span_covers bytes that satisfy [P], and there is one at each such byte. *)
Definition span_covers (P : Z -> Prop) (a : Z) (r : option Z) : Prop :=
  match r with
  | Some n => 0 < n /\ forall i, 0 <= i < n -> P (a + i)
  | None => ~ P a
  end.

Lemma covers_region P a (b : bool) start size :
  (b = true -> forall x, in_span x start size -> P x) ->
  match (if b then process_region_span a start size else None) with
  | Some n => 0 < n /\ forall i, 0 <= i < n -> P (a + i)
  | None => ~ (b = true /\ in_span a start size)
  end.
Proof.
  intros HP. destruct b; [|by intros []]. destruct (process_region_span a start size) as [n|] eqn:E.
  - split; [by eapply region_span_pos|]. intros i Hi. apply HP; [done|]. by eapply region_span_some.
  - intros [_ Hi]. destruct (region_span_in _ _ _ Hi) as [x Hx]. congruence.
Qed.

Lemma span_allocations_covers l a :
  span_covers (fun a => exists al, al ∈ l /\ alloc_ptr al <> 0 /\ in_span a (alloc_ptr al) (alloc_size al)) a
    (span_allocations l a).
Proof.
  induction l as [|al l IH]; simpl.
  { intros (al & Hal & _). by apply not_elem_of_nil in Hal. }
  pose proof (covers_region
    (fun a => exists x, x ∈ al :: l /\ alloc_ptr x <> 0 /\ in_span a (alloc_ptr x) (alloc_size x))
    a (negb (alloc_ptr al =? 0)) (alloc_ptr al) (alloc_size al)) as Hc.
  destruct (Z.eqb_spec (alloc_ptr al) 0) as [Hz|Hz]; simpl in Hc |- *.
  - destruct (span_allocations l a); simpl in *.
    + destruct IH as [? IH]. split; [done|]. intros i Hi. destruct (IH i Hi) as (x & ? & ?). exists x. set_solver.
    + intros (x & [->|Hx]%elem_of_cons & ? & ?); [done|]. apply IH. eauto.
  - specialize (Hc ltac:(intros _ x Hx; exists al; set_solver)).
    destruct (process_region_span a (alloc_ptr al) (alloc_size al)); [done|].
    destruct (span_allocations l a); simpl in *.
    + destruct IH as [? IH]. split; [done|]. intros i Hi. destruct (IH i Hi) as (x & ? & ?). exists x. set_solver.
    + intros (x & [->|Hx]%elem_of_cons & ? & ?); [by apply Hc|]. apply IH. eauto.
Qed.

(** Segment [j] of the list, whose first one has the index [i]. *)
Definition owned_segment (m : mem) (header i : Z) (l : list Z) (write : bool) (a : Z) : Prop :=
  exists (j : nat) memory, l !! j = Some memory /\ memory <> 0 /\
    let ph := elf_program_header m header (i + Z.of_nat j) in
    p_type ph = PT_LOAD /\ (write = true -> has_flag (p_flags ph) PF_W = true) /\ in_span a (p_vaddr ph) (p_memsz ph).

Lemma owned_segment_cons m header i s l write a :
  owned_segment m header i (s :: l) write a <->
  (let ph := elf_program_header m header i in
   s <> 0 /\ p_type ph = PT_LOAD /\ (write = true -> has_flag (p_flags ph) PF_W = true) /\
   in_span a (p_vaddr ph) (p_memsz ph)) \/
  owned_segment m header (i + 1) l write a.
Proof.
  unfold owned_segment. split.
  - intros ([|j] & x & Hl & Hx & Hr).
    + left. simpl in Hl. injection Hl as <-. rewrite Z.add_0_r in Hr. done.
    + right. exists j, x. replace (i + 1 + Z.of_nat j) with (i + Z.of_nat (S j)) by lia. done.
  - intros [(Hs & Hr)|(j & x & Hl & Hx & Hr)].
    + exists 0%nat, s. rewrite Z.add_0_r. done.
    + exists (S j), x. replace (i + Z.of_nat (S j)) with (i + 1 + Z.of_nat j) by lia. done.
Qed.

Lemma span_segments_covers m header write a l : forall i,
  span_covers (owned_segment m header i l write) a (span_segments m header i l a write).
Proof.
  induction l as [|s l IH]; intros i; cbn [span_segments].
  { intros (j & x & Hl & _). by rewrite lookup_nil in Hl. }
  set (ph := elf_program_header m header i).
  set (b := (p_type ph =? PT_LOAD) && negb (s =? 0) && (negb write || has_flag (p_flags ph) PF_W)).
  assert (Hb : b = true <-> s <> 0 /\ p_type ph = PT_LOAD /\ (write = true -> has_flag (p_flags ph) PF_W = true)).
  { subst b. destruct (Z.eqb_spec (p_type ph) PT_LOAD), (Z.eqb_spec s 0), write, (has_flag (p_flags ph) PF_W);
      simpl; naive_solver. }
  pose proof (covers_region (owned_segment m header i (s :: l) write) a b (p_vaddr ph) (p_memsz ph)) as Hc.
  specialize (Hc ltac:(intros ? x Hx; apply owned_segment_cons; left; subst ph; naive_solver)).
  destruct (if b then _ else None); [exact Hc|]. specialize (IH (i + 1)).
  destruct (span_segments m header (i + 1) l a write) as [n|]; simpl in *.
  - destruct IH as [? IH]. split; [done|]. intros j Hj. apply owned_segment_cons. right. by apply IH.
  - rewrite owned_segment_cons. intros [(? & ? & ? & ?)|Ho]; [|done]. apply Hc. split; [by apply Hb|done].
Qed.

Lemma owns_inv m p write a :
  owns_byte m p write a ->
  (negb (proc_stack p =? 0) = true /\
   in_span a RORTHOX_PROGRAM_VIRTUAL_STACK_ADDRESS_END USER_PROGRAM_STACK_SIZE) \/
  (exists al, al ∈ allocations p /\ alloc_ptr al <> 0 /\ in_span a (alloc_ptr al) (alloc_size al)) \/
  (filetype p = PROCESS_FILETYPE_BINARY /\ in_span a RORTHOX_PROGRAM_VIRTUAL_ADDRESS (proc_size p)) \/
  (filetype p = PROCESS_FILETYPE_ELF /\ program_ptr p <> 0 /\
   owned_segment m (elf_memory (program_elf p)) 0 (segments (program_elf p)) write a).
Proof.
  intros [Hs ?|al ? ? ?|? ?|i x ? ? ? ? ph ? ? ?].
  - left. split; [|done]. by apply negb_true_iff, Z.eqb_neq.
  - right; left. eauto.
  - right; right; left. done.
  - right; right; right. split; [done|]. split; [done|]. by exists i, x.
Qed.

(** The part of the program itself. *)
Lemma span_program_covers m p a write :
  span_covers (fun a =>
    (filetype p = PROCESS_FILETYPE_BINARY /\ in_span a RORTHOX_PROGRAM_VIRTUAL_ADDRESS (proc_size p)) \/
    (filetype p = PROCESS_FILETYPE_ELF /\ program_ptr p <> 0 /\
     owned_segment m (elf_memory (program_elf p)) 0 (segments (program_elf p)) write a)) a (span_program m p a write).
Proof.
  unfold span_program. destruct (Z.eqb_spec (filetype p) PROCESS_FILETYPE_BINARY) as [Hf|Hf].
  { rewrite region_span_spec. unfold in_span. case_decide; simpl.
    - split; [lia|]. intros i Hi. left. split; [done|lia].
    - intros [[_ ?]|[Hf' _]]; [done|]. by rewrite Hf in Hf'. }
  destruct (Z.eqb_spec (filetype p) PROCESS_FILETYPE_ELF) as [He|He]; cbn [andb];
    [destruct (Z.eqb_spec (program_ptr p) 0) as [Hp|Hp]; cbn [negb]|].
  - intros [[? _]|(_ & ? & _)]; done.
  - pose proof (span_segments_covers m (elf_memory (program_elf p)) write a (segments (program_elf p)) 0) as Hg.
    destruct (span_segments _ _ _ _ _ _) as [n|]; simpl in *.
    + destruct Hg as [? Hg]. split; [done|]. intros i Hi. right. auto.
    + intros [[? _]|(_ & _ & ?)]; done.
  - intros [[? _]|(? & _)]; done.
Qed.

(** Ownership as [process_user_span] computes it. *)
Lemma user_span_spec m p a write :
  0 < a ->
  match process_user_span m (Some p) a write with
  | Ok n => 0 < n /\ forall i, 0 <= i < n -> owns_byte m p write (a + i)
  | Err e => e = - EINVARG /\ ~ owns_byte m p write a
  end.
Proof.
  intros Ha. unfold process_user_span. rewrite (proj2 (Z.eqb_neq a 0)) by lia.
  pose proof (covers_region (owns_byte m p write) a (negb (proc_stack p =? 0)) RORTHOX_PROGRAM_VIRTUAL_STACK_ADDRESS_END
    USER_PROGRAM_STACK_SIZE) as Hs.
  specialize (Hs ltac:(intros Hb x Hx; apply owns_stack; [by apply negb_true_iff, Z.eqb_neq in Hb|done])).
  rewrite <- (Bool.if_negb _ (proc_stack p =? 0)). destruct (if negb _ then _ else None) as [n|]; [done|].
  pose proof (span_allocations_covers (allocations p) a) as Hl.
  destruct (span_allocations (allocations p) a) as [n|]; simpl in Hl.
  { destruct Hl as [? Hl]. split; [done|]. intros i Hi. destruct (Hl i Hi) as (al & ? & ? & ?).
    by apply (owns_allocation _ _ _ _ al). }
  pose proof (span_program_covers m p a write) as Hp.
  destruct (span_program m p a write) as [n|]; simpl in Hp.
  - destruct Hp as [? Hp]. split; [done|]. intros i Hi. destruct (Hp i Hi) as [[? ?]|(? & ? & j & x & ? & ? & ? & ? & ?)].
    + by apply owns_binary.
    + by apply (owns_segment _ _ _ _ j x).
  - split; [done|]. intros [?|[?|[?|?]]]%owns_inv; [by apply Hs|by apply Hl|apply Hp; by left|apply Hp; by right].
Qed.

(** ** The fragments of a range *)

(** The physical address of byte [a] for a user access, if its page grants it. *)
Definition leaf_at (m : mem) (dir : Z) (write : bool) (a : Z) : option Z :=
  let leaf := pte m dir (a / 4096) in
  if Z.land leaf (user_flags write) =? user_flags write then Some (Z.land leaf FRAME_MASK + a mod 4096) else None.

Definition phys_at (m : mem) (dir : Z) (write : bool) (a : Z) : Z := default 0 (leaf_at m dir write a).

Definition accessible (m : mem) (p : proc) (dir : Z) (write : bool) (a : Z) : Prop :=
  owns_byte m p write a /\ is_Some (leaf_at m dir write a).

Definition all_accessible (m : mem) (p : proc) (dir : Z) (write : bool) (a n : Z) : Prop :=
  forall i, 0 <= i < n -> accessible m p dir write (a + i).

Lemma leaf_at_range m dir write a x : leaf_at m dir write a = Some x -> 0 <= x < 2 ^ 32.
Proof.
  unfold leaf_at. case_match; [|done]. intros [= <-]. unfold pte.
  pose proof (load32_range m (table_of m dir (a / 4096 / 1024) + 4 * ((a / 4096) mod 1024))).
  rewrite land_frame_mask by done. lia.
Qed.

(** Inside a page the physical address grows with the virtual one. *)
Lemma leaf_at_page m dir write a i x :
  leaf_at m dir write a = Some x -> 0 <= i < 4096 - a mod 4096 -> leaf_at m dir write (a + i) = Some (x + i).
Proof.
  unfold leaf_at. intros Hx Hi. replace ((a + i) / 4096) with (a / 4096) by lia.
  case_match; [|done]. injection Hx as <-. f_equal. lia.
Qed.

Section view.
Context (ps : gmap Z proc).

(** The memory that the checks read: the directory, the chunk that points to it, and the image of an ELF program. *)
Inductive kernel_byte (m : mem) (t : task) (p : proc) (dir a : Z) : Prop :=
  | kernel_directory : in_pd m dir a -> kernel_byte m t p dir a
  | kernel_chunk_byte : page_directory t <= a < page_directory t + 4 -> kernel_byte m t p dir a
  | kernel_image :
    filetype p = PROCESS_FILETYPE_ELF ->
    elf_memory (program_elf p) <= a < elf_memory (program_elf p) + in_memory_size (program_elf p) ->
    kernel_byte m t p dir a.

(** The header and the program headers of an ELF program lie inside its image. *)
Definition image_ok (m : mem) (p : proc) : Prop :=
  filetype p = PROCESS_FILETYPE_ELF -> program_ptr p <> 0 ->
  let f := program_elf p in let h := header_at m (elf_memory f) in
  0 <= elf_memory f /\ elf_memory f + in_memory_size f <= 2 ^ 32 /\ sizeof_elf_header <= in_memory_size f /\
  0 < e_phoff h /\ e_phoff h + Z.of_nat (length (segments f)) * sizeof_elf32_phdr <= in_memory_size f.

(** A task with its process and its directory. *)
Record uview (m : mem) (t : task) (p : proc) (dir : Z) : Prop := UView {
  uv_proc : proc_of ps t = Some p;
  uv_chunk : page_directory t <> 0;
  uv_dir : load32 m (page_directory t) = dir;
  uv_pd : pd_wf m dir;
  uv_elf : image_ok m p
}.

Lemma uview_usable m t p dir : uview m t p dir -> task_unusable ps t = false.
Proof. intros V. unfold task_unusable. rewrite (uv_proc _ _ _ _ V). apply Z.eqb_neq, V. Qed.

Lemma fragment_spec m t p dir a remaining write :
  uview m t p dir -> 0 < a < 2 ^ 32 -> 0 < remaining ->
  match task_user_fragment ps m t a remaining write with
  | Ok (x, n) => 0 < n <= remaining /\ n <= 4096 - a mod 4096 /\
      forall i, 0 <= i < n -> accessible m p dir write (a + i) /\ leaf_at m dir write (a + i) = Some (x + i)
  | Err e => e = - EINVARG /\ ~ accessible m p dir write a
  end.
Proof.
  intros V Ha Hr. unfold task_user_fragment. rewrite (uv_proc _ _ _ _ V), (uv_dir _ _ _ _ V).
  pose proof (user_span_spec m p a write ltac:(lia)) as Ho.
  destruct (process_user_span m (Some p) a write) as [n|e].
  2: { destruct Ho as [-> Ho]. split; [done|]. by intros [? _]. }
  destruct Ho as [Hn Ho]. rewrite paging_user_translate_leaf by (apply V || lia). cbv zeta.
  destruct (Z.land (pte m dir (a / 4096)) (user_flags write) =? user_flags write) eqn:Hf.
  2: { split; [done|]. intros [_ [x Hy]]. unfold leaf_at in Hy. by rewrite Hf in Hy. }
  change (PAGING_PAGE_SIZE - 1) with (Z.ones 12).
  rewrite land_low_mask by lia. change (2 ^ 12) with 4096. unfold PAGING_PAGE_SIZE.
  set (k := if _ <? (if _ <? _ then _ else _) then _ else _).
  assert (Hk : 0 < k <= remaining /\ k <= 4096 - a mod 4096 /\ k <= n) by (subst k; destruct (Z.ltb_spec n remaining); case_Zb; lia).
  split; [lia|]. split; [lia|]. intros i Hi.
  assert (Hl : leaf_at m dir write (a + i) = Some (Z.land (pte m dir (a / 4096)) FRAME_MASK + a mod 4096 + i)).
  { apply leaf_at_page; [|lia]. unfold leaf_at. by rewrite Hf. }
  split; [|done]. split; [apply Ho; lia|by rewrite Hl].
Qed.

(** ** Stores elsewhere *)

Definition ustable (m m' : mem) (t : task) (p : proc) (dir : Z) : Prop :=
  forall a, kernel_byte m t p dir a -> load8 m' a = load8 m a.

Lemma phdr_at_same m m' a : same_on m m' a (a + 32) -> phdr_at m' a = phdr_at m a.
Proof. intros Hs. unfold phdr_at. f_equal; apply (same_on_load32 _ _ _ _ _ Hs); lia. Qed.

Lemma ustable_image m m' t p dir :
  ustable m m' t p dir -> filetype p = PROCESS_FILETYPE_ELF ->
  same_on m m' (elf_memory (program_elf p)) (elf_memory (program_elf p) + in_memory_size (program_elf p)).
Proof. intros S Hf a Ha. by apply S, kernel_image. Qed.

Lemma image_phoff m m' p :
  same_on m m' (elf_memory (program_elf p)) (elf_memory (program_elf p) + in_memory_size (program_elf p)) ->
  sizeof_elf_header <= in_memory_size (program_elf p) ->
  e_phoff (header_at m' (elf_memory (program_elf p))) = e_phoff (header_at m (elf_memory (program_elf p))).
Proof. intros S Hz. unfold sizeof_elf_header in Hz. simpl. apply (same_on_load32 _ _ _ _ _ S); lia. Qed.

Lemma image_phdr m m' p (i : nat) :
  image_ok m p ->
  same_on m m' (elf_memory (program_elf p)) (elf_memory (program_elf p) + in_memory_size (program_elf p)) ->
  filetype p = PROCESS_FILETYPE_ELF -> program_ptr p <> 0 -> (i < length (segments (program_elf p)))%nat ->
  elf_program_header m' (elf_memory (program_elf p)) (Z.of_nat i) =
  elf_program_header m (elf_memory (program_elf p)) (Z.of_nat i).
Proof.
  intros V S Hf Hp Hi. destruct (V Hf Hp) as (H0 & Hend & Hh & Hoff & Hlen).
  unfold elf_program_header, elf_pheader. rewrite (image_phoff _ _ _ S Hh).
  unfold sizeof_elf32_phdr in *. rewrite (proj2 (Z.eqb_neq _ 0)) by lia. rewrite u32_small by lia.
  apply phdr_at_same. intros a Ha. apply S. lia.
Qed.

Lemma image_ok_same m m' p :
  (filetype p = PROCESS_FILETYPE_ELF ->
   same_on m m' (elf_memory (program_elf p)) (elf_memory (program_elf p) + in_memory_size (program_elf p))) ->
  image_ok m p -> image_ok m' p.
Proof.
  intros S V Hf Hp. destruct (V Hf Hp) as (? & ? & Hz & ? & ?). cbv zeta. rewrite (image_phoff _ _ _ (S Hf) Hz). done.
Qed.

Lemma span_segments_ext m m' header a write l : forall i : nat,
  (forall j : nat, (i <= j < i + length l)%nat ->
     elf_program_header m' header (Z.of_nat j) = elf_program_header m header (Z.of_nat j)) ->
  span_segments m' header (Z.of_nat i) l a write = span_segments m header (Z.of_nat i) l a write.
Proof.
  induction l as [|s l IH]; intros i Hs; [done|]. cbn [span_segments length] in *.
  rewrite (Hs i) by lia. replace (Z.of_nat i + 1) with (Z.of_nat (S i)) by lia.
  rewrite IH; [done|]. intros j Hj. apply Hs. lia.
Qed.

Lemma uview_stable m m' t p dir : uview m t p dir -> ustable m m' t p dir -> uview m' t p dir.
Proof.
  intros V S. destruct (pd_same m m' dir) as [W _]; [apply V|intros a Ha; by apply S, kernel_directory|].
  constructor; [apply V|apply V|..].
  - rewrite <- (uv_dir _ _ _ _ V). apply load32_ext. intros i Hi. by apply S, kernel_chunk_byte.
  - done.
  - apply (image_ok_same m); [intros Hf; by eapply ustable_image|apply V].
Qed.

Lemma leaf_at_stable m m' t p dir write a :
  pd_wf m dir -> ustable m m' t p dir -> 0 <= a < 2 ^ 32 -> leaf_at m' dir write a = leaf_at m dir write a.
Proof.
  intros W S Ha. destruct (pd_same m m' dir) as (_ & _ & Hp); [done|intros x Hx; by apply S, kernel_directory|].
  unfold leaf_at. by rewrite Hp by lia.
Qed.

Lemma user_span_stable m m' t p dir a write :
  uview m t p dir -> ustable m m' t p dir ->
  process_user_span m' (Some p) a write = process_user_span m (Some p) a write.
Proof.
  intros V S. unfold process_user_span. destruct (a =? 0); [done|].
  destruct (if proc_stack p =? 0 then _ else _) as [?|]; [done|]. destruct (span_allocations _ _) as [?|]; [done|].
  enough (span_program m' p a write = span_program m p a write) as -> by done.
  unfold span_program. destruct (filetype p =? PROCESS_FILETYPE_BINARY); [done|].
  destruct (Z.eqb_spec (filetype p) PROCESS_FILETYPE_ELF) as [He|He]; [|done].
  destruct (Z.eqb_spec (program_ptr p) 0) as [Hp|Hp]; [done|].
  apply (span_segments_ext _ _ _ _ _ _ 0). intros j Hj. apply image_phdr; [apply V|by eapply ustable_image|done|done|lia].
Qed.

Lemma fragment_stable m m' t p dir a remaining write :
  uview m t p dir -> ustable m m' t p dir -> 0 <= a < 2 ^ 32 ->
  task_user_fragment ps m' t a remaining write = task_user_fragment ps m t a remaining write.
Proof.
  intros V S Ha. pose proof (uview_stable _ _ _ _ _ V S) as V'. unfold task_user_fragment.
  rewrite (uv_proc _ _ _ _ V), (uv_dir _ _ _ _ V), (uv_dir _ _ _ _ V'), (user_span_stable _ _ _ _ _ _ _ V S).
  rewrite (paging_user_translate_leaf m'), (paging_user_translate_leaf m) by (apply V || apply V' || done).
  cbv zeta. destruct (pd_same m m' dir) as (_ & _ & Hp); [apply V|intros x Hx; by apply S, kernel_directory|].
  by rewrite Hp by lia.
Qed.

Lemma ustable_refl m t p dir : ustable m m t p dir.
Proof. by intros a _. Qed.

Lemma kernel_byte_stable m m' t p dir a :
  pd_wf m dir -> ustable m m' t p dir -> kernel_byte m' t p dir a -> kernel_byte m t p dir a.
Proof.
  intros W S. destruct (pd_same m m' dir) as (_ & Ht & _); [done|intros x Hx; by apply S, kernel_directory|].
  intros [[Hd|(d & Hd & Ha)]|Hc|Hf Hi].
  - apply kernel_directory. by left.
  - apply kernel_directory. right. exists d. rewrite Ht in Ha by done. done.
  - by apply kernel_chunk_byte.
  - by apply kernel_image.
Qed.

(** ** The two passes *)

Lemma preflight fuel : forall m t p dir write remaining a position,
  uview m t p dir -> 0 < a -> 0 <= remaining <= Z.of_nat fuel -> a + remaining <= 2 ^ 32 ->
  (copy_pass ps fuel false t write remaining a position m = (0, m) /\ all_accessible m p dir write a remaining) \/
  (copy_pass ps fuel false t write remaining a position m = (- EINVARG, m) /\
   ~ all_accessible m p dir write a remaining).
Proof.
  induction fuel as [|fuel IH]; intros m t p dir write remaining a position V Ha Hf He; cbn [copy_pass];
    (destruct (Z.eqb_spec remaining 0) as [->|Hr]; [left; split; [done|intros i Hi; lia]|]); [lia|].
  pose proof (fragment_spec m t p dir a remaining write V ltac:(lia) ltac:(lia)) as Hfr.
  destruct (task_user_fragment ps m t a remaining write) as [[x n]|e].
  2: { destruct Hfr as [-> Hn]. right. split; [done|]. intros Hall. apply Hn. rewrite <- (Z.add_0_r a). apply Hall. lia. }
  destruct Hfr as (Hn & Hpage & Hacc).
  destruct (Z.eqb_spec (remaining - n) 0) as [Hz|Hz].
  { left. rewrite Hz. split; [by destruct fuel|]. intros i Hi. apply Hacc. lia. }
  rewrite u32_small by lia.
  destruct (IH m t p dir write (remaining - n) (a + n) (position + n) V) as [[-> Hall]|[-> Hall]]; [lia..|left|right];
    (split; [done|]).
  - intros i Hi. destruct (Z.lt_ge_cases i n); [apply Hacc; lia|].
    replace (a + i) with (a + n + (i - n)) by lia. apply Hall. lia.
  - intros Hall'. apply Hall. intros i Hi. rewrite <- Z.add_assoc. apply Hall'. lia.
Qed.

(** Bytes copied one after the other, from the index [i] on. *)
Fixpoint copy_each (n : nat) (dst src : Z -> Z) (i : Z) (m : mem) : mem :=
  match n with
  | O => m
  | S n => copy_each n dst src (i + 1) (store8 m (dst i) (load8 m (src i)))
  end.

Lemma copy_each_app n k dst src : forall i m,
  copy_each (n + k) dst src i m = copy_each k dst src (i + Z.of_nat n) (copy_each n dst src i m).
Proof.
  induction n as [|n IH]; intros i m; [by rewrite Z.add_0_r|].
  cbn [copy_each Nat.add]. rewrite IH. by replace (i + 1 + Z.of_nat n) with (i + Z.of_nat (S n)) by lia.
Qed.

Lemma memcpy_each n dst src : forall i m d s,
  (forall j, i <= j < i + Z.of_nat n -> dst j = d + (j - i) /\ src j = s + (j - i)) ->
  memcpy_loop n m d s = copy_each n dst src i m.
Proof.
  induction n as [|n IH]; intros i m d s Hj; [done|]. simpl.
  destruct (Hj i ltac:(lia)) as [-> ->]. rewrite !Z.sub_diag, !Z.add_0_r. apply IH.
  intros j Hr. destruct (Hj j ltac:(lia)) as [-> ->]. lia.
Qed.

Lemma copy_each_frame n dst src : forall i m a,
  (forall j, i <= j < i + Z.of_nat n -> dst j <> a) -> load8 (copy_each n dst src i m) a = load8 m a.
Proof.
  induction n as [|n IH]; intros i m a Ha; [done|]. simpl.
  rewrite IH by (intros j Hj; apply Ha; lia). rewrite load8_store8, decide_False by (apply Ha; lia). done.
Qed.

Lemma copy_each_load8 n dst src : forall i m,
  (forall j k, i <= j < i + Z.of_nat n -> i <= k < i + Z.of_nat n -> dst j = dst k -> j = k) ->
  (forall j k, i <= j < i + Z.of_nat n -> i <= k < i + Z.of_nat n -> dst j <> src k) ->
  forall j, i <= j < i + Z.of_nat n -> load8 (copy_each n dst src i m) (dst j) = load8 m (src j).
Proof.
  induction n as [|n IH]; intros i m Hi Hd j Hj; [lia|]. simpl.
  destruct (decide (j = i)) as [->|Hne].
  - rewrite copy_each_frame.
    + rewrite load8_store8, decide_True by done. apply Z.mod_small, load8_range.
    + intros k Hk E. apply Hi in E; lia.
  - rewrite IH by (try (intros x y Hx Hy; first [apply Hi|apply Hd]); lia).
    rewrite load8_store8, decide_False; [done|]. apply Hd; lia.
Qed.

Section copying.
Context (m0 : mem) (t : task) (p : proc) (dir address buffer size : Z) (write : bool).

Definition copy_dst (i : Z) : Z := if write then phys_at m0 dir write (address + i) else buffer + i.
Definition copy_src (i : Z) : Z := if write then buffer + i else phys_at m0 dir write (address + i).

(** The bytes written are not those the checks read. *)
Definition copy_apart : Prop := forall i, 0 <= i < size -> ~ kernel_byte m0 t p dir (copy_dst i).

Lemma copy_each_stable n i m :
  copy_apart -> 0 <= i -> i + Z.of_nat n <= size -> ustable m0 m t p dir ->
  ustable m0 (copy_each n copy_dst copy_src i m) t p dir.
Proof.
  intros Ha Hi Hn S a Hk. rewrite copy_each_frame; [by apply S|].
  intros j Hj E. apply (Ha j); [lia|]. by rewrite E.
Qed.

Lemma copy_pass_copies fuel : forall i m,
  uview m0 t p dir -> all_accessible m0 p dir write address size -> copy_apart -> 0 < address ->
  address + size <= 2 ^ 32 -> 0 <= i <= size -> size - i <= Z.of_nat fuel -> ustable m0 m t p dir ->
  copy_pass ps fuel true t write (size - i) (address + i) (buffer + i) m =
  (0, copy_each (Z.to_nat (size - i)) copy_dst copy_src i m).
Proof.
  induction fuel as [|fuel IH]; intros i m V Hall Hap Ha He Hi Hf S; cbn [copy_pass];
    (destruct (Z.eqb_spec (size - i) 0) as [Hz|Hz]; [by rewrite Hz|]); [lia|].
  rewrite (fragment_stable m0 m t p dir) by (done || lia).
  pose proof (fragment_spec m0 t p dir (address + i) (size - i) write V ltac:(lia) ltac:(lia)) as Hfr.
  destruct (task_user_fragment ps m0 t (address + i) (size - i) write) as [[x n]|e].
  2: { destruct Hfr as [_ Hn]. destruct Hn. apply Hall. lia. }
  destruct Hfr as (Hn & Hpage & Hacc).
  set (m1 := if write then _ else _).
  assert (Hm1 : m1 = copy_each (Z.to_nat n) copy_dst copy_src i m).
  { subst m1. unfold memcpy, copy_dst, copy_src.
    assert (Hph : forall j, i <= j < i + n -> phys_at m0 dir write (address + j) = x + (j - i)).
    { intros j Hj. destruct (Hacc (j - i) ltac:(lia)) as [_ Hl]. unfold phys_at.
      replace (address + j) with (address + i + (j - i)) by lia. by rewrite Hl. }
    destruct write; apply memcpy_each; intros j Hj; rewrite Hph by lia; lia. }
  replace (size - i - n) with (size - (i + n)) by lia.
  replace (Z.to_nat (size - i)) with (Z.to_nat n + Z.to_nat (size - (i + n)))%nat by lia.
  rewrite copy_each_app, Z2Nat.id, <- Hm1 by lia.
  destruct (Z.eqb_spec (size - (i + n)) 0) as [Hlast|Hlast].
  { rewrite Hlast. by destruct fuel. }
  rewrite u32_small by lia. rewrite <- !Z.add_assoc. apply IH; try done; [lia..|].
  rewrite Hm1. apply copy_each_stable; [done|lia..|done].
Qed.
End copying.

(** ** A whole copy *)

(** What a copy may rely on, for the bytes that are mapped: it does not write what the checks read, each physical
    byte is written once, and the buffer is not the program's memory. *)
Record copy_frame (m : mem) (t : task) (p : proc) (dir address buffer size : Z) (write : bool) : Prop := CopyFrame {
  cf_apart i : 0 <= i < size -> (write = true -> is_Some (leaf_at m dir write (address + i))) ->
    ~ kernel_byte m t p dir (copy_dst m dir address buffer write i);
  cf_once i j : 0 <= i < size -> 0 <= j < size -> write = true ->
    is_Some (leaf_at m dir write (address + i)) -> is_Some (leaf_at m dir write (address + j)) ->
    phys_at m dir write (address + i) = phys_at m dir write (address + j) -> i = j;
  cf_buffer i j : 0 <= i < size -> 0 <= j < size -> is_Some (leaf_at m dir write (address + j)) ->
    buffer + i <> phys_at m dir write (address + j)
}.

(** The requests that [task_copy_user] has to satisfy. *)
Definition copy_request (m : mem) (p : proc) (dir address buffer size : Z) (write : bool) : Prop :=
  buffer <> 0 /\ 0 < address /\ 0 < size /\ address + size <= 2 ^ 32 /\ all_accessible m p dir write address size.

Lemma request_guard ts address buffer size :
  0 <= address < 2 ^ 32 -> 0 <= size < 2 ^ 32 -> ts = false ->
  ts || (buffer =? 0) || (address =? 0) || (size =? 0) || (UINT32_MAX - address <? size - 1) =
  negb (bool_decide (buffer <> 0 /\ 0 < address /\ 0 < size /\ address + size <= 2 ^ 32)).
Proof.
  intros Ha Hs ->. unfold UINT32_MAX. case_bool_decide; case_Zb; simpl; done || lia.
Qed.

Lemma copy_user_spec m t p dir address buffer size write :
  uview m t p dir -> 0 <= address < 2 ^ 32 -> 0 <= size < 2 ^ 32 ->
  (address + size <= 2 ^ 32 -> copy_frame m t p dir address buffer size write) ->
  let '(res, m') := task_copy_user ps m (Some t) address buffer size write in
  (copy_request m p dir address buffer size write /\ res = 0 /\
   (forall i, 0 <= i < size ->
      load8 m' (copy_dst m dir address buffer write i) = load8 m (copy_src m dir address buffer write i)) /\
   (forall a, (forall i, 0 <= i < size -> copy_dst m dir address buffer write i <> a) -> load8 m' a = load8 m a)) \/
  (~ copy_request m p dir address buffer size write /\ res = - EINVARG /\ m' = m).
Proof.
  intros V Ha Hs F. unfold task_copy_user, copy_request.
  rewrite request_guard by (done || by eapply uview_usable).
  case_bool_decide as Hg; cbn [negb]; [|right; split; [tauto|done]].
  destruct Hg as (Hb & Ha0 & Hs0 & He). destruct (F He) as [Hap Hone Hbuf].
  destruct (preflight (Z.to_nat size) m t p dir write size address buffer V) as [[-> Hall]|[-> Hall]]; [lia..| |].
  2: { right. split; [tauto|done]. }
  change (0 <? 0) with false. cbv iota.
  assert (Hleaf : forall i, 0 <= i < size -> is_Some (leaf_at m dir write (address + i))) by (intros i Hi; by apply Hall).
  assert (Hap' : copy_apart m t p dir address buffer size write) by (intros i Hi; apply Hap; [done|intros _; by apply Hleaf]).
  pose proof (copy_pass_copies m t p dir address buffer size write (Z.to_nat size) 0 m V Hall Hap' Ha0 He
    ltac:(lia) ltac:(lia) (ustable_refl _ _ _ _)) as Hc.
  rewrite Z.sub_0_r, !Z.add_0_r in Hc. rewrite Hc. left. split; [done|]. split; [done|]. split.
  - intros i Hi. apply copy_each_load8; [..|lia].
    + intros j k Hj Hk. unfold copy_dst. destruct write; [|lia]. intros E. apply Hone in E; [done|lia|lia|done|apply Hleaf; lia..].
    + intros j k Hj Hk. unfold copy_dst, copy_src. destruct write; [apply not_eq_sym|]; apply Hbuf; (apply Hleaf || idtac); lia.
  - intros a Hx. apply copy_each_frame. intros j Hj. apply Hx. lia.
Qed.

(** ** Checking a span without copying *)

Lemma validate_region_spec fuel : forall m t p dir write available size a,
  uview m t p dir -> 0 < a -> 0 <= available <= Z.of_nat fuel -> available <= size -> a + size <= 2 ^ 32 ->
  (forall i, 0 <= i < available -> owns_byte m p write (a + i)) ->
  (exists a', validate_region fuel m t write available size a = (0, size - available, a') /\
     (size - available <> 0 -> a' = a + available) /\ all_accessible m p dir write a available) \/
  (exists s' a', validate_region fuel m t write available size a = (- EINVARG, s', a') /\
     ~ all_accessible m p dir write a available).
Proof.
  induction fuel as [|fuel IH]; intros m t p dir write available size a V Ha Hf Hs He Ho; cbn [validate_region];
    (destruct (Z.eqb_spec available 0) as [->|Hr];
     [left; exists a; rewrite Z.sub_0_r; split; [done|]; split; [lia|intros i Hi; lia]|]); [lia|].
  rewrite (uv_dir _ _ _ _ V), paging_user_translate_leaf by (apply V || lia). cbv zeta.
  destruct (Z.land (pte m dir (a / 4096)) (user_flags write) =? user_flags write) eqn:Hl; simpl fst.
  2: { right. do 2 eexists. split; [done|]. intros Hall. destruct (Hall 0 ltac:(lia)) as [_ [x Hx]].
    rewrite Z.add_0_r in Hx. unfold leaf_at in Hx. by rewrite Hl in Hx. }
  change (0 <? 0) with false. cbv iota. change (PAGING_PAGE_SIZE - 1) with (Z.ones 12).
  rewrite land_low_mask by lia. change (2 ^ 12) with 4096. unfold PAGING_PAGE_SIZE.
  set (n := if available <? _ then _ else _).
  assert (Hn : 0 < n <= available /\ n <= 4096 - a mod 4096) by (subst n; case_Zb; lia).
  clearbody n. assert (Hacc : forall i, 0 <= i < n -> accessible m p dir write (a + i)).
  { intros i Hi. split; [apply Ho; lia|]. eexists. apply leaf_at_page; [|lia]. unfold leaf_at. by rewrite Hl. }
  destruct (Z.eq_dec (size - n) 0) as [Hz|Hz].
  { left. exists a. rewrite (proj2 (Z.eqb_eq _ 0) Hz). assert (available = n) as -> by lia.
    rewrite Z.sub_diag. split; [destruct fuel; done|]. split; [lia|done]. }
  rewrite (proj2 (Z.eqb_neq _ 0) Hz).
  destruct (Z.eq_dec (available - n) 0) as [Hend|Hend].
  { left. exists (u32 (a + n)). rewrite Hend. assert (available = n) as -> by lia. split; [destruct fuel; done|].
    split; [intros _; apply u32_small; lia|done]. }
  rewrite u32_small by lia.
  destruct (IH m t p dir write (available - n) (size - n) (a + n) V) as [(a' & -> & Hx & Hall)|(s' & a' & -> & Hall)];
    [lia..|intros i Hi; rewrite <- Z.add_assoc; apply Ho; lia| |].
  - left. exists a'. split; [do 2 f_equal; lia|]. split; [lia|]. intros i Hi.
    destruct (Z.lt_ge_cases i n); [apply Hacc; lia|]. replace (a + i) with (a + n + (i - n)) by lia. apply Hall. lia.
  - right. do 2 eexists. split; [done|]. intros Hall'. apply Hall. intros i Hi. rewrite <- Z.add_assoc. apply Hall'. lia.
Qed.

Lemma validate_regions_spec fuel : forall m t p dir write size a,
  uview m t p dir -> 0 < a -> 0 <= size <= Z.of_nat fuel -> a + size <= 2 ^ 32 ->
  (validate_regions ps fuel m t write size a = 0 /\ all_accessible m p dir write a size) \/
  (validate_regions ps fuel m t write size a = - EINVARG /\ ~ all_accessible m p dir write a size).
Proof.
  induction fuel as [|fuel IH]; intros m t p dir write size a V Ha Hf He; cbn [validate_regions];
    (destruct (Z.eqb_spec size 0) as [->|Hz]; [left; split; [done|intros i Hi; lia]|]); [lia|].
  rewrite (uv_proc _ _ _ _ V). pose proof (user_span_spec m p a write ltac:(lia)) as Ho.
  destruct (process_user_span m (Some p) a write) as [n|e].
  2: { destruct Ho as [-> Ho]. right. split; [done|]. intros Hall. apply Ho. rewrite <- (Z.add_0_r a). apply Hall. lia. }
  destruct Ho as [Hn Ho]. set (k := if size <? n then size else n).
  assert (Hk : 0 < k <= n /\ k <= size) by (subst k; case_Zb; lia). clearbody k.
  destruct (validate_region_spec (Z.to_nat k) m t p dir write k size a V) as
    [(a' & -> & Hx & Hall)|(s' & a' & -> & Hall)]; [lia..|intros i Hi; apply Ho; lia| |]; cbv beta iota.
  2: { change (- EINVARG <? 0) with true. right. split; [done|]. intros Hall'. apply Hall. intros i Hi. apply Hall'. lia. }
  change (0 <? 0) with false. cbv iota. destruct (Z.eq_dec (size - k) 0) as [Hend|Hend].
  { left. rewrite Hend. split; [by destruct fuel|]. by replace size with k by lia. }
  rewrite (Hx Hend). destruct (IH m t p dir write (size - k) (a + k) V) as [[-> Hrest]|[-> Hrest]];
    [lia..|left|right]; (split; [done|]).
  - intros i Hi. destruct (Z.lt_ge_cases i k); [apply Hall; lia|].
    replace (a + i) with (a + k + (i - k)) by lia. apply Hrest. lia.
  - intros Hall'. apply Hrest. intros i Hi. rewrite <- Z.add_assoc. apply Hall'. lia.
Qed.

(** ** Strings *)

(** The loops of the two string copies differ only in what they do at the end: a NUL was copied, the limit was
    reached, the byte to come is not accessible, or it would lie behind the address space. *)
Inductive scan_end := Nul | Full | Bad (e : Z) | Wrap.

Fixpoint scan (fuel : nat) (m : mem) (t : task) (address out remaining : Z) : scan_end * Z * mem :=
  if remaining =? 0 then (Full, out, m)
  else
    match fuel with
    | O => (Full, out, m)
    | S fuel =>
      match task_user_fragment ps m t address remaining false with
      | Err e => (Bad e, out, m)
      | Ok (physical, fragment) =>
        let '(nul, m) := copy_string (Z.to_nat fragment) m out physical in
        if nul then (Nul, out, m)
        else if UINT32_MAX - address <? fragment then (Wrap, out, m)
        else scan fuel m t (address + fragment) (out + fragment) (remaining - fragment)
      end
    end.

Lemma copy_path_scan fuel : forall m t a out n,
  copy_path_loop ps fuel m t a out n =
  match scan fuel m t a out n with
  | (Nul, _, m) => (0, m)
  | (Bad e, _, m) => (e, m)
  | (_, _, m) => (- EINVARG, m)
  end.
Proof.
  induction fuel as [|fuel IH]; intros m t a out n; cbn [copy_path_loop scan]; (destruct (n =? 0); [done|]); [done|].
  destruct (task_user_fragment ps m t a n false) as [[x k]|e]; [|done].
  destruct (copy_string (Z.to_nat k) m out x) as [[] m']; [done|]. destruct (_ <? _); [done|]. apply IH.
Qed.

Lemma copy_string_scan fuel : forall m t a out n,
  copy_string_loop ps fuel m t a out n =
  match scan fuel m t a out n with
  | (Nul, _, m) => (0, m)
  | (Bad e, out, m) => (e, store8 m out 0)
  | (_, out, m) => (0, store8 m out 0)
  end.
Proof.
  induction fuel as [|fuel IH]; intros m t a out n; cbn [copy_string_loop scan]; (destruct (n =? 0); [done|]); [done|].
  destruct (task_user_fragment ps m t a n false) as [[x k]|e]; [|done].
  destruct (copy_string (Z.to_nat k) m out x) as [[] m']; [done|]. destruct (_ <? _); [done|]. apply IH.
Qed.

(** A fragment up to a NUL. *)
Lemma copy_string_spec n dst src o x : forall i m,
  (forall j, i <= j < i + Z.of_nat n -> dst j = o + j /\ src j = x + j) ->
  (forall j k, i <= j < i + Z.of_nat n -> i <= k < i + Z.of_nat n -> o + j <> x + k) ->
  (exists k, i <= k < i + Z.of_nat n /\ load8 m (src k) = 0 /\ (forall j, i <= j < k -> load8 m (src j) <> 0) /\
     copy_string n m (o + i) (x + i) = (true, copy_each (Z.to_nat (k + 1 - i)) dst src i m)) \/
  ((forall j, i <= j < i + Z.of_nat n -> load8 m (src j) <> 0) /\
   copy_string n m (o + i) (x + i) = (false, copy_each n dst src i m)).
Proof.
  induction n as [|n IH]; intros i m Hj Hd; [right; split; [intros; lia|done]|].
  cbn [copy_string]. destruct (Hj i ltac:(lia)) as [Hdi Hsi].
  set (m1 := store8 m (o + i) (load8 m (x + i))).
  assert (Hm1 : forall k, i <= k < i + Z.of_nat (S n) -> load8 m1 (src k) = load8 m (src k)).
  { intros k Hk. destruct (Hj k Hk) as [_ ->]. subst m1. rewrite load8_store8, decide_False; [done|]. apply Hd; lia. }
  rewrite <- Hsi, Hm1 by lia. destruct (Z.eqb_spec (load8 m (src i)) 0) as [Hz|Hz].
  { left. exists i. split; [lia|]. split; [done|]. split; [intros; lia|]. replace (Z.to_nat (i + 1 - i)) with 1%nat by lia.
    cbn [copy_each]. by rewrite Hdi, Hsi. }
  rewrite Hsi, <- !Z.add_assoc.
  assert (Hstep : forall k, copy_each (S k) dst src i m = copy_each k dst src (i + 1) m1).
  { intros k. cbn [copy_each]. by rewrite Hdi, Hsi. }
  destruct (IH (i + 1) m1) as [(k & Hk & Hk0 & Hkn & ->)|[Hkn ->]];
    [intros; apply Hj; lia|intros; apply Hd; lia|left|right].
  - exists k. split; [lia|]. rewrite <- (Hm1 k) by lia. split; [done|]. split.
    + intros j Hr. destruct (Z.eq_dec j i) as [->|]; [done|]. rewrite <- Hm1 by lia. apply Hkn. lia.
    + rewrite <- Hstep. do 2 f_equal. lia.
  - split; [|by rewrite Hstep]. intros j Hr. destruct (Z.eq_dec j i) as [->|]; [done|].
    rewrite <- Hm1 by lia. apply Hkn. lia.
Qed.

Section strings.
Context (m0 : mem) (t : task) (p : proc) (dir address out size : Z).
Hypothesis V : uview m0 t p dir.
Hypothesis Hframe : copy_frame m0 t p dir address out size false.
Hypothesis Haddress : 0 < address.

(** Character [i] of the program's string, the first [k] characters, and a terminated string of length [k]. *)
Definition user_char (i : Z) : Z := load8 m0 (phys_at m0 dir false (address + i)).
Definition clean (k : Z) : Prop :=
  forall i, 0 <= i < k -> accessible m0 p dir false (address + i) /\ user_char i <> 0.
Definition string_at (k : Z) : Prop :=
  0 <= k /\ address + k < 2 ^ 32 /\ clean k /\ accessible m0 p dir false (address + k) /\ user_char k = 0.

(** Memory after [k] characters. *)
Definition copied (k : Z) : mem :=
  copy_each (Z.to_nat k) (copy_dst m0 dir address out false) (copy_src m0 dir address out false) 0 m0.

Lemma copied_stable k : 0 <= k <= size -> ustable m0 (copied k) t p dir.
Proof. intros Hk. apply (copy_each_stable _ _ _ _ _ _ size); [|lia..|apply ustable_refl].
  intros i Hi. by apply (cf_apart _ _ _ _ _ _ _ _ Hframe). Qed.

Lemma copied_source k i :
  0 <= k <= size -> 0 <= i < size -> accessible m0 p dir false (address + i) ->
  load8 (copied k) (copy_src m0 dir address out false i) = user_char i.
Proof.
  intros Hk Hi [_ Hl]. apply copy_each_frame. intros j Hj. apply (cf_buffer _ _ _ _ _ _ _ _ Hframe); [lia|lia|done].
Qed.

Lemma copied_more i k :
  0 <= i -> 0 <= k ->
  copy_each (Z.to_nat k) (copy_dst m0 dir address out false) (copy_src m0 dir address out false) i (copied i) =
  copied (i + k).
Proof.
  intros Hi Hk. unfold copied. rewrite Z2Nat.inj_add by done. rewrite copy_each_app, Z2Nat.id by done. done.
Qed.

(** One fragment of the string. *)
Lemma scan_fragment i x n :
  0 <= i -> i + n <= size -> 0 < n -> address + i + n <= 2 ^ 32 -> clean i ->
  (forall j, 0 <= j < n ->
     accessible m0 p dir false (address + i + j) /\ leaf_at m0 dir false (address + i + j) = Some (x + j)) ->
  (exists k, i <= k < i + n /\ string_at k /\ copy_string (Z.to_nat n) (copied i) (out + i) x = (true, copied (k + 1))) \/
  (clean (i + n) /\ copy_string (Z.to_nat n) (copied i) (out + i) x = (false, copied (i + n))).
Proof.
  intros Hi Hin Hn Hend Hc Hacc.
  assert (Hsrc : forall j, i <= j < i + n -> copy_src m0 dir address out false j = x - i + j).
  { intros j Hj. unfold copy_src, phys_at. destruct (Hacc (j - i) ltac:(lia)) as [_ Hl].
    replace (address + i + (j - i)) with (address + j) in Hl by lia. rewrite Hl. simpl. lia. }
  assert (Hbyte : forall j, i <= j < i + n -> accessible m0 p dir false (address + j)).
  { intros j Hj. destruct (Hacc (j - i) ltac:(lia)) as [Ha _]. by replace (address + i + (j - i)) with (address + j) in Ha by lia. }
  assert (Hclean : forall k, i <= k <= i + n -> (forall j, i <= j < k -> user_char j <> 0) -> clean k).
  { intros k Hk Hnz j Hj. destruct (Z.lt_ge_cases j i); [by apply Hc; lia|]. split; [apply Hbyte; lia|by apply Hnz; lia]. }
  destruct (copy_string_spec (Z.to_nat n) (copy_dst m0 dir address out false) (copy_src m0 dir address out false)
    out (x - i) i (copied i)) as [(k & Hk & Hk0 & Hkn & E)|[Hkn E]].
  - intros j Hj. split; [done|]. apply Hsrc. lia.
  - intros j k Hj Hk. rewrite <- Hsrc by lia. apply (cf_buffer _ _ _ _ _ _ _ _ Hframe); [lia|lia|]. apply Hbyte. lia.
  - left. exists k. rewrite copied_source in Hk0 by (try apply Hbyte; lia). split; [lia|].
    replace (x - i + i) with x in E by lia. rewrite E, copied_more by lia.
    split; [|do 2 f_equal; lia]. split; [lia|]. split; [lia|]. split.
    + apply Hclean; [lia|]. intros j Hj. rewrite <- (copied_source i) by (try apply Hbyte; lia). apply Hkn. lia.
    + split; [|done]. apply Hbyte. lia.
  - right. replace (x - i + i) with x in E by lia. rewrite E, copied_more by lia. split; [|done].
    apply Hclean; [lia|]. intros j Hj. rewrite <- (copied_source i) by (try apply Hbyte; lia). apply Hkn. lia.
Qed.

Lemma scan_spec fuel : forall i,
  0 <= i <= size -> size - i <= Z.of_nat fuel -> address + i < 2 ^ 32 -> clean i ->
  match scan fuel (copied i) t (address + i) (out + i) (size - i) with
  | (Nul, _, m) => exists k, 0 <= k < size /\ string_at k /\ m = copied (k + 1)
  | (Full, o, m) => clean size /\ o = out + size /\ m = copied size
  | (Bad e, o, m) => e = - EINVARG /\ exists k, 0 <= k < size /\ clean k /\
      ~ accessible m0 p dir false (address + k) /\ o = out + k /\ m = copied k
  | (Wrap, _, m) => accessible m0 p dir false (2 ^ 32 - 1) /\ exists k, 0 <= k <= size /\ clean k /\
      address + k = 2 ^ 32 /\ m = copied k
  end.
Proof.
  induction fuel as [|fuel IH]; intros i Hi Hf Ha Hc; cbn [scan];
    (destruct (Z.eqb_spec (size - i) 0) as [Hz|Hz]; [replace i with size in * by lia; done|]); [lia|].
  rewrite (fragment_stable m0 _ t p dir) by (try done; try lia; apply copied_stable; lia).
  pose proof (fragment_spec m0 t p dir (address + i) (size - i) false V ltac:(lia) ltac:(lia)) as Hfr.
  destruct (task_user_fragment ps m0 t (address + i) (size - i) false) as [[x n]|e].
  2: { destruct Hfr as [-> Hn]. split; [done|]. exists i. split; [lia|]. done. }
  destruct Hfr as (Hn & Hpage & Hacc).
  destruct (scan_fragment i x n) as [(k & Hk & Hs & ->)|[Hcn ->]]; [lia..|done|done| |].
  { exists k. split; [lia|]. done. }
  unfold UINT32_MAX. destruct (Z.ltb_spec (4294967295 - (address + i)) n) as [Hw|Hw].
  { destruct (Hacc (2 ^ 32 - 1 - (address + i)) ltac:(lia)) as [Hl _]. split; [|exists (i + n); split; [lia|]; split; [done|]; split; [lia|done]].
    by replace (address + i + (2 ^ 32 - 1 - (address + i))) with (2 ^ 32 - 1) in Hl by lia. }
  rewrite <- !Z.add_assoc. replace (size - i - n) with (size - (i + n)) by lia. apply IH; [lia..|done].
Qed.

Lemma string_at_fun k k' : string_at k -> string_at k' -> k = k'.
Proof.
  intros (Hk & _ & Hc & _ & Hz) (Hk' & _ & Hc' & _ & Hz'). destruct (Z.lt_trichotomy k k') as [Hl|[Hl|Hl]]; [|done|].
  - by destruct (Hc' k ltac:(lia)).
  - by destruct (Hc k' ltac:(lia)).
Qed.

Lemma string_at_bytes k i : string_at k -> 0 <= i < k + 1 -> accessible m0 p dir false (address + i).
Proof.
  intros (_ & _ & Hc & Ha & _) Hi. destruct (decide (i = k)) as [->|]; [done|]. apply Hc. lia.
Qed.

Lemma string_at_clean k n : string_at k -> clean n -> n <= k.
Proof.
  intros (Hk & _ & _ & _ & Hz) Hc. destruct (Z.le_gt_cases n k); [done|]. by destruct (Hc k ltac:(lia)).
Qed.
End strings.

Lemma copy_frame_less m t p dir address buffer size size' write :
  size' <= size -> copy_frame m t p dir address buffer size write -> copy_frame m t p dir address buffer size' write.
Proof.
  intros Hs [Ha Ho Hb]. constructor.
  - intros i Hi. apply Ha. lia.
  - intros i j Hi Hj. apply Ho; lia.
  - intros i j Hi Hj. apply Hb; lia.
Qed.

(** The characters in the buffer, and memory around it. *)
Lemma copied_chars m t p dir address out size k i :
  copy_frame m t p dir address out size false -> 0 <= i < k -> k <= size ->
  (forall j, 0 <= j < k -> accessible m p dir false (address + j)) ->
  load8 (copied m dir address out k) (out + i) = user_char m dir address i.
Proof.
  intros Hf Hi Hk Hacc. unfold copied.
  apply (copy_each_load8 _ (copy_dst m dir address out false) (copy_src m dir address out false)); [..|lia].
  - unfold copy_dst. lia.
  - intros j l Hj Hl. apply (cf_buffer _ _ _ _ _ _ _ _ Hf); [lia|lia|]. apply Hacc. lia.
Qed.

Lemma copied_frame m dir address out k a :
  0 <= k -> ~ (out <= a < out + k) -> load8 (copied m dir address out k) a = load8 m a.
Proof. intros Hk Ha. apply copy_each_frame. intros j Hj. unfold copy_dst. lia. Qed.
End view.

(** ** A process to run the operations on: a stack page at the physical address 0 that holds the string hi *)

Definition demo_proc : proc :=
  Proc 0 [] 0 [] PROCESS_FILETYPE_BINARY 0 (blank_file 0) 4096 0 (KeyboardBuffer [] 0 0) (ProcessArguments 0 0) [].
Definition demo_task (chunk : Z) : task :=
  Task 0 chunk (Registers 0 0 0 0 0 0 0 0 0 0 0x3FB100 0) 1 0 0 0 0 TASK_RUNNABLE 0.
Definition demo_procs : gmap Z proc := {[ 1 := demo_proc ]}.

Record demo_view (m : mem) (c dir : Z) : Prop := DemoView {
  demo_uview : uview demo_procs m (demo_task c) demo_proc dir;
  demo_kernel a : kernel_byte m (demo_task c) demo_proc dir a -> 4096 <= a;
  demo_leaf write o : 0 <= o < 4096 -> leaf_at m dir write (0x3FB000 + o) = Some o;
  demo_text : load8 m 256 = 104 /\ load8 m 257 = 105 /\ load8 m 258 = 0
}.

Lemma demo_directory :
  exists m c, 4096 <= c /\ pd_wf m (load32 m c) /\ chunk_ok m c (load32 m c) /\
    (forall a, in_pd m (load32 m c) a -> 4096 <= a).
Proof.
  destruct kheap_room as (h & Hl & Hcap).
  destruct (paging_new_4gb_spec h ∅ ∅ 3 Hl) as (c & h' & m & E & _ & [(_ & _ & Hu)|(Hc & _ & Ho & [W _] & C)]);
    [lia|done|done|change (used ∅) with 0 in Hu; lia|].
  destruct Ho as (ts & Hlen & Hd & _ & Hlive & Ht). cbv zeta in *.
  exists m, c. split.
  { pose proof (live_bounds h' _ c 1 Hlive ltac:(by rewrite lookup_insert_eq)). lia. }
  split; [done|]. split; [done|]. intros a [Ha|(d & Hd2 & Ha)]; [pose proof (wf_dir _ _ W); lia|].
  destruct (lookup_lt_is_Some_2 ts (Z.to_nat d)) as [x Hx]; [rewrite Hlen; clear -Hd2; lia|].
  pose proof (Ht _ _ Hx) as Htx. rewrite Z2Nat.id in Htx by lia. rewrite Htx in Ha.
  assert (Hxc : x <> c). { intros ->. apply NoDup_cons in Hd as [Hd _]. apply Hd. apply list_elem_of_lookup_2 in Hx. set_solver. }
  pose proof (live_bounds h' _ x 1 Hlive) as Hb. rewrite lookup_insert_ne in Hb by done.
  rewrite add_pages_lookup, decide_True in Hb by (by eapply list_elem_of_lookup_2).
  specialize (Hb eq_refl). lia.
Qed.

Lemma demo_exists : exists m c dir, demo_view m c dir.
Proof.
  destruct demo_directory as (m & c & Hc & W & C & Hk). pose proof (wf_dir _ _ W).
  destruct (paging_map_to_ok 0 m c (load32 m c) 0x3FB000 0 4096 7 W C) as (m1 & _ & U); [lia..|].
  destruct (chunk_ok_update _ _ _ _ _ U C) as [Hd1 _].
  set (dir := load32 m c) in *.
  assert (Hk1 : forall a, kernel_byte m1 (demo_task c) demo_proc dir a -> 4096 <= a).
  { intros a [Ha|Ha|_ Ha]; [apply Hk; by rewrite <- (in_pd_update _ _ _ _ _ U)|simpl in Ha; lia..]. }
  assert (V1 : uview demo_procs m1 (demo_task c) demo_proc dir).
  { constructor; [done|simpl; lia|done|apply U|done]. }
  set (m2 := store8 (store8 (store8 m1 256 104) 257 105) 258 0).
  assert (S : ustable m1 m2 (demo_task c) demo_proc dir).
  { intros a Ha%Hk1. subst m2. rewrite !load8_store8, !decide_False by lia. done. }
  exists m2, c, dir. constructor.
  - by eapply uview_stable.
  - intros a Ha. apply Hk1. by eapply kernel_byte_stable; [apply U|..].
  - intros write o Ho. rewrite (leaf_at_stable m1 m2 (demo_task c) demo_proc) by (apply U || done || lia).
    unfold leaf_at. replace ((0x3FB000 + o) / 4096) with 1019 by lia. rewrite (upd_leaf _ _ _ _ U) by lia.
    replace ((0x3FB000 + o) mod 4096) with o by lia. by destruct write.
  - subst m2. rewrite !load8_store8. done.
Qed.

Lemma demo_accessible m c dir write o :
  demo_view m c dir -> 0 <= o < 4096 -> accessible m demo_proc dir write (0x3FB000 + o).
Proof.
  intros D Ho. split; [|rewrite (demo_leaf _ _ _ D) by done; eauto].
  apply owns_stack; [done|]. unfold in_span, RORTHOX_PROGRAM_VIRTUAL_STACK_ADDRESS_END,
    RORTHOX_PROGRAM_VIRTUAL_STACK_ADDRESS_START, USER_PROGRAM_STACK_SIZE. lia.
Qed.

Lemma demo_frame m c dir o buffer size write :
  demo_view m c dir -> 0 <= o -> o + size <= 4096 -> 0 < buffer -> buffer + size <= 4096 ->
  buffer + size <= o \/ o + size <= buffer -> copy_frame m (demo_task c) demo_proc dir (0x3FB000 + o) buffer size write.
Proof.
  intros D Ho Hos Hb Hbs Hsep.
  assert (Hp : forall i, 0 <= i < size -> phys_at m dir write (0x3FB000 + o + i) = o + i).
  { intros i Hi. unfold phys_at. rewrite <- Z.add_assoc, (demo_leaf _ _ _ D) by lia. done. }
  constructor.
  - intros i Hi _ Hk%(demo_kernel _ _ _ D). unfold copy_dst in Hk. destruct write; [rewrite Hp in Hk by done|]; lia.
  - intros i j Hi Hj _ _ _. rewrite !Hp by done. lia.
  - intros i j Hi Hj _. rewrite Hp by done. lia.
Qed.

(** ** Theorems *)

(** a copy between the kernel and a program is exact and all or nothing. It succeeds if and only if the buffer
    and the address are not null, the range is not empty and does not leave the address space, and the process owns
    every byte of it and has it mapped for the access; it has then copied each byte between the buffer and the
    physical memory behind the page, and changed nothing else. Otherwise it returns -EINVARG and has changed nothing,
    even if only the last byte is out of reach. *)
Theorem task_copy_user_exact ps m t p dir address buffer size write :
  uview ps m t p dir -> 0 <= address < 2 ^ 32 -> 0 <= size < 2 ^ 32 ->
  copy_frame m t p dir address buffer size write ->
  let '(res, m') := task_copy_user ps m (Some t) address buffer size write in
  (copy_request m p dir address buffer size write /\ res = 0 /\
   (forall i, 0 <= i < size ->
      if write then load8 m' (phys_at m dir write (address + i)) = load8 m (buffer + i)
      else load8 m' (buffer + i) = load8 m (phys_at m dir write (address + i))) /\
   (forall a, (forall i, 0 <= i < size -> a <> if write then phys_at m dir write (address + i) else buffer + i) ->
      load8 m' a = load8 m a)) \/
  (~ copy_request m p dir address buffer size write /\ res = - EINVARG /\ m' = m).
Proof.
  intros V Ha Hs F. pose proof (copy_user_spec ps m t p dir address buffer size write V Ha Hs (fun _ => F)) as Hc.
  destruct (task_copy_user ps m (Some t) address buffer size write) as [res m'].
  destruct Hc as [(Hr & -> & Hin & Hout)|Hc]; [left|by right].
  split; [done|]. split; [done|]. split.
  - intros i Hi. specialize (Hin i Hi). unfold copy_dst, copy_src in Hin. by destruct write.
  - intros a Hx. apply Hout. intros i Hi. apply not_eq_sym, Hx. done.
Qed.

Lemma task_copy_user_exact_witness :
  exists m t m', task_copy_user demo_procs m (Some t) 0x3FB100 16 3 false = (0, m') /\ load8 m' 17 = 105.
Proof.
  destruct demo_exists as (m & c & dir & D). exists m, (demo_task c).
  pose proof (task_copy_user_exact demo_procs m (demo_task c) demo_proc dir (0x3FB000 + 256) 16 3 false
    (demo_uview _ _ _ D) ltac:(lia) ltac:(lia) ltac:(apply demo_frame; (done || lia))) as Hc.
  change (0x3FB000 + 256) with 0x3FB100 in Hc.
  destruct (task_copy_user demo_procs m (Some (demo_task c)) 0x3FB100 16 3 false) as [res m'].
  destruct Hc as [(_ & -> & Hin & _)|(Hn & _)].
  - exists m'. split; [reflexivity|]. pose proof (Hin 1 ltac:(lia)) as Hc. cbv iota in Hc.
    change (16 + 1) with 17 in Hc. rewrite Hc. unfold phys_at. change (0x3FB100 + 1) with (0x3FB000 + 257).
    rewrite (demo_leaf _ _ _ D) by lia. apply (demo_text _ _ _ D).
  - destruct Hn. split; [lia|]. split; [lia|]. split; [lia|]. split; [lia|]. intros i Hi.
    replace (0x3FB100 + i) with (0x3FB000 + (256 + i)) by lia. apply (demo_accessible _ c); [exact D|lia].
Defined.

(** [task_validate_user_span] accepts a range if and only if it is not empty, does not contain the null address
    or leave the address space, and every byte of it is owned and mapped for the access, although it looks up
    ownership once per region and translates once per page. *)
Theorem validate_user_span_exact ps m t p dir address size write :
  uview ps m t p dir -> 0 <= address < 2 ^ 32 -> 0 <= size < 2 ^ 32 ->
  (task_validate_user_span ps m (Some t) address size write = 0 /\
   0 < address /\ 0 < size /\ address + size <= 2 ^ 32 /\ all_accessible m p dir write address size) \/
  (task_validate_user_span ps m (Some t) address size write = - EINVARG /\
   ~ (0 < address /\ 0 < size /\ address + size <= 2 ^ 32 /\ all_accessible m p dir write address size)).
Proof.
  intros V Ha Hs. unfold task_validate_user_span. rewrite (uview_usable _ _ _ _ _ V).
  pose proof (request_guard false address 1 size Ha Hs eq_refl) as Hg. cbn [orb Z.eqb] in Hg. cbn [orb]. rewrite Hg.
  case_bool_decide as Hb; cbn [negb]; [|right; split; [done|]; intros (? & ? & ? & _); by destruct Hb].
  destruct (validate_regions_spec ps (Z.to_nat size) m t p dir write size address V) as [[-> Hall]|[-> Hall]];
    [lia..|left|right]; naive_solver.
Qed.

Lemma validate_user_span_exact_witness :
  exists m t, task_validate_user_span demo_procs m (Some t) 0x3FB000 4096 true = 0.
Proof.
  destruct demo_exists as (m & c & dir & D). exists m, (demo_task c).
  destruct (validate_user_span_exact demo_procs m (demo_task c) demo_proc dir 0x3FB000 4096 true
    (demo_uview _ _ _ D) ltac:(lia) ltac:(lia)) as [[E _]|[_ Hn]]; [exact E|].
  destruct Hn. split; [lia|]. split; [lia|]. split; [lia|]. intros i Hi. apply (demo_accessible _ c); [exact D|lia].
Defined.

(** a path is copied from a program if and only if a NUL byte follows within [size] bytes and every byte up to it
    is owned and readable. Then the buffer holds exactly the string with its terminator and nothing else has changed;
    otherwise the result is -EINVARG and at most the buffer has changed. *)
Theorem copy_path_exact ps m t p dir address out size :
  uview ps m t p dir -> 0 <= address < 2 ^ 32 -> 0 <= size < 2 ^ 32 -> 0 < out ->
  copy_frame m t p dir address out size false ->
  let '(res, m') := task_copy_path_from_user ps m (Some t) address out size in
  (exists k, 0 <= k < size /\ 0 < address /\ string_at m p dir address k /\ res = 0 /\
     (forall i, 0 <= i <= k -> load8 m' (out + i) = user_char m dir address i) /\
     (forall a, ~ (out <= a <= out + k) -> load8 m' a = load8 m a)) \/
  ((address = 0 \/ forall k, 0 <= k < size -> ~ string_at m p dir address k) /\ res = - EINVARG /\
   (forall a, ~ (out <= a < out + size) -> load8 m' a = load8 m a)).
Proof.
  intros V Ha Hs Ho F. unfold task_copy_path_from_user. rewrite (uview_usable _ _ _ _ _ V), (proj2 (Z.eqb_neq out 0)) by lia.
  destruct (Z.eqb_spec address 0) as [->|Ha0]; [right; cbn; by auto|].
  destruct (Z.eqb_spec size 0) as [->|Hs0]; cbn [orb]; [right; split; [right; lia|done]|].
  rewrite copy_path_scan.
  pose proof (scan_spec ps m t p dir address out size V F ltac:(lia) (Z.to_nat size) 0 ltac:(lia) ltac:(lia) ltac:(lia)
    ltac:(intros i Hi; lia)) as Hc.
  rewrite Z.sub_0_r, !Z.add_0_r in Hc. change (copied m dir address out 0) with m in Hc.
  assert (Hsame : forall k a, 0 <= k <= size -> ~ (out <= a < out + size) ->
    load8 (copied m dir address out k) a = load8 m a) by (intros k a Hk Hx; apply copied_frame; lia).
  destruct (scan ps (Z.to_nat size) m t address out size) as [[[| |e|] o] m'].
  - left. destruct Hc as (k & Hk & Hstr & ->). exists k. split; [done|]. split; [lia|]. split; [done|]. split; [done|]. split.
    + intros i Hi. eapply copied_chars; [done|lia..|]. intros j. by apply string_at_bytes.
    + intros a Hx. apply copied_frame; lia.
  - right. destruct Hc as (Hcl & _ & ->). split; [|split; [done|intros a Hx; apply Hsame; lia]].
    right. intros k Hk Hstr. pose proof (string_at_clean _ _ _ _ _ _ Hstr Hcl). lia.
  - right. destruct Hc as (-> & k & Hk & Hcl & Hn & _ & ->). split; [|split; [done|intros a Hx; apply Hsame; lia]].
    right. intros k' Hk' Hstr. pose proof (string_at_clean _ _ _ _ _ _ Hstr Hcl) as Hle.
    destruct Hstr as (_ & _ & Hcl' & Hacc & _). destruct (Z.eq_dec k k') as [->|]; [done|].
    apply Hn. apply Hcl'. lia.
  - right. destruct Hc as (_ & k & Hk & Hcl & He & ->). split; [|split; [done|intros a Hx; apply Hsame; lia]].
    right. intros k' Hk' Hstr. pose proof (string_at_clean _ _ _ _ _ _ Hstr Hcl). destruct Hstr as (_ & ? & _). lia.
Qed.

Lemma demo_string m c dir : demo_view m c dir -> string_at m demo_proc dir 0x3FB100 2.
Proof.
  intros D. destruct (demo_text _ _ _ D) as (H0 & H1 & H2).
  assert (Hu : forall i, 0 <= i <= 2 -> accessible m demo_proc dir false (0x3FB100 + i) /\
    user_char m dir 0x3FB100 i = load8 m (256 + i)).
  { intros i Hi. unfold user_char, phys_at. replace (0x3FB100 + i) with (0x3FB000 + (256 + i)) by lia.
    split; [by apply (demo_accessible _ c); [|lia]|]. rewrite (demo_leaf _ _ _ D) by lia. done. }
  split; [lia|]. split; [lia|]. split.
  - intros i Hi. destruct (Hu i ltac:(lia)) as [? ->]. split; [done|].
    assert (i = 0 \/ i = 1) as [-> | ->] by lia; [change (256 + 0) with 256; rewrite H0|change (256 + 1) with 257; rewrite H1]; lia.
  - destruct (Hu 2 ltac:(lia)) as [? ->]. done.
Qed.

Lemma copy_path_exact_witness :
  exists m t m', task_copy_path_from_user demo_procs m (Some t) 0x3FB100 16 108 = (0, m') /\ load8 m' 17 = 105.
Proof.
  destruct demo_exists as (m & c & dir & D). exists m, (demo_task c).
  pose proof (copy_path_exact demo_procs m (demo_task c) demo_proc dir (0x3FB000 + 256) 16 108
    (demo_uview _ _ _ D) ltac:(lia) ltac:(lia) ltac:(lia) ltac:(apply demo_frame; (done || lia))) as Hc.
  change (0x3FB000 + 256) with 0x3FB100 in Hc.
  destruct (task_copy_path_from_user demo_procs m (Some (demo_task c)) 0x3FB100 16 108) as [res m'].
  pose proof (demo_string _ _ _ D) as Hstr.
  destruct Hc as [(k & _ & _ & Hk & -> & Hin & _)|([Hz|Hn] & _)].
  - exists m'. split; [reflexivity|]. rewrite (string_at_fun _ _ _ _ _ _ Hk Hstr) in Hin.
    pose proof (Hin 1 ltac:(lia)) as Hc. change (16 + 1) with 17 in Hc. rewrite Hc.
    unfold user_char, phys_at. change (0x3FB100 + 1) with (0x3FB000 + 257).
    rewrite (demo_leaf _ _ _ D) by lia. apply (demo_text _ _ _ D).
  - lia.
  - destruct (Hn 2 ltac:(lia) Hstr).
Defined.

(** [copy_string_from_task] always leaves a terminated string in the buffer of [max] bytes and changes nothing
    else: the first [k] characters of the program's string, where either the string ends there, or it was cut at
    [max - 1] characters, both with status 0, or its next byte is not readable, with status -EINVARG. *)
Theorem copy_string_terminated ps m t p dir virtual phys max :
  uview ps m t p dir -> 0 < virtual < 2 ^ 32 -> 0 < max < 2 ^ 31 -> 0 < phys ->
  copy_frame m t p dir virtual phys max false -> ~ accessible m p dir false (2 ^ 32 - 1) ->
  let '(res, m') := copy_string_from_task ps m (Some t) virtual phys max in
  exists k, 0 <= k < max /\ clean m p dir virtual k /\
    (forall i, 0 <= i < k -> load8 m' (phys + i) = user_char m dir virtual i) /\ load8 m' (phys + k) = 0 /\
    (forall a, ~ (phys <= a <= phys + k) -> load8 m' a = load8 m a) /\
    ((string_at m p dir virtual k /\ res = 0) \/ (k = max - 1 /\ res = 0) \/
     (~ accessible m p dir false (virtual + k) /\ res = - EINVARG)).
Proof.
  intros V Hv Hm Hp F Hlast. unfold copy_string_from_task.
  rewrite (uview_usable _ _ _ _ _ V), (proj2 (Z.eqb_neq phys 0)), (proj2 (Z.leb_gt max 0)), (proj2 (Z.eqb_neq virtual 0))
    by lia. cbn [orb]. rewrite copy_string_scan. apply (copy_frame_less _ _ _ _ _ _ _ (max - 1)) in F; [|lia].
  pose proof (scan_spec ps m t p dir virtual phys (max - 1) V F ltac:(lia) (Z.to_nat (max - 1)) 0 ltac:(lia) ltac:(lia)
    ltac:(lia) ltac:(intros i Hi; lia)) as Hc.
  rewrite Z.sub_0_r, !Z.add_0_r in Hc. change (copied m dir virtual phys 0) with m in Hc.
  assert (Hend : forall k, 0 <= k <= max - 1 -> clean m p dir virtual k -> let m' := store8 (copied m dir virtual phys k) (phys + k) 0 in
    (forall i, 0 <= i < k -> load8 m' (phys + i) = user_char m dir virtual i) /\ load8 m' (phys + k) = 0 /\
    (forall a, ~ (phys <= a <= phys + k) -> load8 m' a = load8 m a)).
  { intros k Hk Hcl m'. split; [|split].
    - intros i Hi. subst m'. rewrite load8_store8, decide_False by lia. eapply copied_chars; [done|lia..|]. intros j Hj. by apply Hcl.
    - subst m'. by rewrite load8_store8, decide_True.
    - intros a Hx. subst m'. rewrite load8_store8, decide_False by lia. apply copied_frame; lia. }
  destruct (scan ps (Z.to_nat (max - 1)) m t virtual phys (max - 1)) as [[[| |e|] o] m'].
  - destruct Hc as (k & Hk & Hstr & ->). exists k. split; [lia|]. split; [apply Hstr|]. split; [|split; [|split; [|auto]]].
    + intros i Hi. eapply copied_chars; [done|lia..|]. intros j. by apply string_at_bytes.
    + pose proof (fun i => string_at_bytes m p dir virtual k i Hstr) as Hb. pose proof Hstr as (_ & _ & _ & _ & <-). eapply copied_chars; [done|lia..|]. intros j. by apply Hb.
    + intros a Hx. apply copied_frame; lia.
  - destruct Hc as (Hcl & -> & ->). exists (max - 1). split; [lia|]. split; [done|].
    destruct (Hend (max - 1) ltac:(lia) Hcl) as (? & ? & ?). auto 10.
  - destruct Hc as (-> & k & Hk & Hcl & Hn & -> & ->). exists k. split; [lia|]. split; [done|].
    destruct (Hend k ltac:(lia) Hcl) as (? & ? & ?). auto 10.
  - by destruct Hc as [? _].
Qed.

Lemma copy_string_terminated_witness :
  exists m t m', copy_string_from_task demo_procs m (Some t) 0x3FB100 16 2 = (0, m') /\ load8 m' 16 = 104 /\ load8 m' 17 = 0.
Proof.
  destruct demo_exists as (m & c & dir & D). exists m, (demo_task c).
  pose proof (copy_string_terminated demo_procs m (demo_task c) demo_proc dir (0x3FB000 + 256) 16 2
    (demo_uview _ _ _ D) ltac:(lia) ltac:(lia) ltac:(lia) ltac:(apply demo_frame; (done || lia))) as Hc.
  change (0x3FB000 + 256) with 0x3FB100 in Hc. pose proof (demo_string _ _ _ D) as Hstr.
  destruct (copy_string_from_task demo_procs m (Some (demo_task c)) 0x3FB100 16 2) as [res m'].
  destruct Hc as (k & Hk & Hcl & Hin & Hz & _ & Hr).
  { intros [Ho _]. apply owns_inv in Ho as [[_ Hi]|[(al & Hal & _)|[[_ Hi]|(Hf & _)]]].
    - unfold in_span, RORTHOX_PROGRAM_VIRTUAL_STACK_ADDRESS_END, RORTHOX_PROGRAM_VIRTUAL_STACK_ADDRESS_START,
        USER_PROGRAM_STACK_SIZE in Hi. lia.
    - apply not_elem_of_nil in Hal. exact Hal.
    - unfold in_span, RORTHOX_PROGRAM_VIRTUAL_ADDRESS in Hi. simpl in Hi. lia.
    - discriminate Hf. }
  assert (Hk1 : k = 1 /\ res = 0).
  { destruct Hr as [[Hs _]|[?|[Hn _]]].
    - rewrite (string_at_fun _ _ _ _ _ _ Hs Hstr) in Hk. lia.
    - lia.
    - destruct Hn. replace (0x3FB100 + k) with (0x3FB000 + (256 + k)) by lia. apply (demo_accessible _ c); [exact D|lia]. }
  destruct Hk1 as [-> ->]. exists m'. split; [reflexivity|]. split; [|exact Hz].
  pose proof (Hin 0 ltac:(lia)) as Hc. change (16 + 0) with 16 in Hc. rewrite Hc.
  unfold user_char, phys_at. change (0x3FB100 + 0) with (0x3FB000 + 256).
  rewrite (demo_leaf _ _ _ D) by lia. apply (demo_text _ _ _ D).
Defined.
