(* ===== verification/Process.v ===== *)
(** * Processes (kernel/task/process.c, the rest of kernel/task/task.c)

    A process owns the memory of its program, its stack, what it has allocated, a task with a page directory, and
    files. The operations on one process work on its struct and the kernel's memory; those that create and end
    processes also on the task list and the process table. *)

From stdpp Require Import base numbers list gmap.
From Stdlib Require Import ZArith Lia.
From S2P Require Import Prelude Alloc Heap Memory Paging Sched Effects Disk StrLib PathParser Fat FatWrite FatProps.
From S2P Require Import FatDir FatDirScan FatOpen FatMount Vfs Elf UserMem.

#[local] Set Default Goal Selector "!".

(** ** Constants (config.h, config.mk, include/rorthox/file.h) *)

Definition RORTHOX_MAX_PROGRAM_ALLOCATIONS : Z := 1024.
Definition RORTHOX_MAX_PROCESSES : Z := 12.
Definition RORTHOX_KEYBOARD_BUFFER_SIZE : Z := 1024.
Definition RORTHOX_FILE_MAX_OPEN : Z := 16.
Definition RORTHOX_COMMAND_ARGUMENT_SIZE : Z := 512.
Definition RORTHOX_MAX_COMMAND_ARGUMENTS : Z := 32.
Definition USER_CODE_SEGMENT : Z := 0x1b.
Definition USER_DATA_SEGMENT : Z := 0x23.
Definition sizeof_process : Z := 10452.
Definition sizeof_task : Z := 84.

(** ** The struct *)

(** All bytes zero. *)
Definition process_init : proc :=
  Proc 0 (replicate (Z.to_nat RORTHOX_MAX_PATH) 0) 0
    (replicate (Z.to_nat RORTHOX_MAX_PROGRAM_ALLOCATIONS) (Allocation 0 0)) 0 0 (blank_file 0) 0 0
    (KeyboardBuffer (replicate (Z.to_nat RORTHOX_KEYBOARD_BUFFER_SIZE) 0) 0 0) (ProcessArguments 0 0)
    (replicate (Z.to_nat RORTHOX_FILE_MAX_OPEN) 0).

Definition with_allocations (l : list process_allocation) (p : proc) : proc :=
  Proc (pid p) (proc_filename p) (proc_task p) l (filetype p) (program_ptr p) (program_elf p) (proc_stack p)
    (proc_size p) (keyboard p) (arguments p) (handles p).
Definition with_handles (l : list Z) (p : proc) : proc :=
  Proc (pid p) (proc_filename p) (proc_task p) (allocations p) (filetype p) (program_ptr p) (program_elf p)
    (proc_stack p) (proc_size p) (keyboard p) (arguments p) l.
Definition with_arguments (a : process_arguments) (p : proc) : proc :=
  Proc (pid p) (proc_filename p) (proc_task p) (allocations p) (filetype p) (program_ptr p) (program_elf p)
    (proc_stack p) (proc_size p) (keyboard p) a (handles p).
Definition with_keyboard (b : keyboard_buffer) (p : proc) : proc :=
  Proc (pid p) (proc_filename p) (proc_task p) (allocations p) (filetype p) (program_ptr p) (program_elf p)
    (proc_stack p) (proc_size p) b (arguments p) (handles p).
Definition with_program (ft ptr : Z) (f : elf_file) (size : Z) (p : proc) : proc :=
  Proc (pid p) (proc_filename p) (proc_task p) (allocations p) ft ptr f (proc_stack p) size (keyboard p)
    (arguments p) (handles p).
Definition with_stack (stack : Z) (p : proc) : proc :=
  Proc (pid p) (proc_filename p) (proc_task p) (allocations p) (filetype p) (program_ptr p) (program_elf p) stack
    (proc_size p) (keyboard p) (arguments p) (handles p).
Definition with_name (id : Z) (name : list Z) (p : proc) : proc :=
  Proc id name (proc_task p) (allocations p) (filetype p) (program_ptr p) (program_elf p) (proc_stack p)
    (proc_size p) (keyboard p) (arguments p) (handles p).
Definition with_task (t : Z) (p : proc) : proc :=
  Proc (pid p) (proc_filename p) t (allocations p) (filetype p) (program_ptr p) (program_elf p) (proc_stack p)
    (proc_size p) (keyboard p) (arguments p) (handles p).

(** ** Allocations *)

Fixpoint find_allocation (l : list process_allocation) (i ptr : Z) : Z :=
  match l with
  | [] => - ENOMEM
  | a :: l => if alloc_ptr a =? ptr then i else find_allocation l (i + 1) ptr
  end.

Definition process_find_free_allocation_index (p : proc) : Z := find_allocation (allocations p) 0 0.

Fixpoint unjoin (l : list process_allocation) (ptr : Z) : list process_allocation :=
  match l with
  | [] => []
  | a :: l => (if alloc_ptr a =? ptr then Allocation 0 0 else a) :: unjoin l ptr
  end.

Definition process_allocation_unjoin (p : proc) (ptr : Z) : proc := with_allocations (unjoin (allocations p) ptr) p.

Fixpoint get_allocation (l : list process_allocation) (addr : Z) : option process_allocation :=
  match l with
  | [] => None
  | a :: l => if alloc_ptr a =? addr then Some a else get_allocation l addr
  end.

Definition process_get_allocation_by_addr (p : proc) (addr : Z) : option process_allocation :=
  get_allocation (allocations p) addr.

(** The machine stops: no code runs any more, which is neither a result nor a status. *)
Definition panic {S A} : io S A := fun s => (Err 1, s).

Section process.
Context {D H : Type} `{BlockDevice D} `{Allocator H}.

Definition process_zalloc_user (size : Z) (k : kern D H) : Z * kern D H :=
  if (size =? 0) || (UINT32_MAX - (PAGING_PAGE_SIZE - 1) <? size) then (0, k)
  else kalloc ((size + PAGING_PAGE_SIZE - 1) / PAGING_PAGE_SIZE * PAGING_PAGE_SIZE) k.

(** The struct of the process and the kernel's memory. *)
Definition pst : Type := (proc * kern D H).
Local Abbreviation pio := (io pst).

Section mapping.
(** The directory loaded in the processor, and [process->task->page_directory]. *)
Context (cur chunk : Z).

Definition map_to (virt phys phys_end flags : Z) (k : kern D H) : Z * kern D H :=
  let '(res, m) := paging_map_to cur (kmem k) chunk virt phys phys_end flags in (res, with_kmem m k).

Definition process_malloc (size : Z) : pio Z := fun '(p, k) =>
  let '(ptr, k) := process_zalloc_user size k in
  if ptr =? 0 then (Ok 0, (p, k))
  else
    let index := process_find_free_allocation_index p in
    if index <? 0 then (Ok 0, (p, krelease ptr k))
    else
      let end_ := paging_align_address (u32 (ptr + size)) in
      let '(res, k) :=
        map_to ptr ptr end_ (Z.lor (Z.lor PAGING_IS_WRITEABLE PAGING_IS_PRESENT) PAGING_ACCESS_FROM_ALL) k in
      if res <? 0 then
        let '(res, k) := map_to ptr ptr end_ (Z.lor PAGING_IS_PRESENT PAGING_IS_WRITEABLE) k in
        if res <? 0 then panic (p, k) else (Ok 0, (p, krelease ptr k))
      else (Ok ptr, (with_allocations (<[Z.to_nat index := Allocation ptr size]> (allocations p)) p, k)).

Definition process_free (ptr : Z) (st : pst) : pst :=
  let '(p, k) := st in
  if ptr =? 0 then (p, k)
  else
    match process_get_allocation_by_addr p ptr with
    | None => (p, k)
    | Some a =>
      let '(res, k) :=
        map_to (alloc_ptr a) (alloc_ptr a) (paging_align_address (u32 (alloc_ptr a + alloc_size a)))
          (Z.lor PAGING_IS_PRESENT PAGING_IS_WRITEABLE) k in
      if res <? 0 then (p, k) else (process_allocation_unjoin p ptr, krelease ptr k)
    end.

(** The loop from index [i] on, [n] rounds. *)
Fixpoint terminate_loop (n i : nat) (st : pst) : pst :=
  match n with
  | O => st
  | S n =>
    let ptr := default 0 (alloc_ptr <$> allocations (fst st) !! i) in
    terminate_loop n (S i) (if negb (ptr =? 0) then process_free ptr st else st)
  end.

Definition process_terminate_allocation (st : pst) : pst :=
  terminate_loop (Z.to_nat RORTHOX_MAX_PROGRAM_ALLOCATIONS) 0 st.

(** ** Arguments

    A list of command arguments is given by the contents of their buffers. *)

Fixpoint count_loop (l : list (list Z)) (i : Z) : Z :=
  match l with
  | [] => i
  | argument :: l =>
    if (RORTHOX_MAX_COMMAND_ARGUMENTS <=? i) ||
       (strnlen argument RORTHOX_COMMAND_ARGUMENT_SIZE =? RORTHOX_COMMAND_ARGUMENT_SIZE)
    then - EINVARG
    else count_loop l (i + 1)
  end.

Definition process_count_command_arguments (l : list (list Z)) : Z := count_loop l 0.

(** [strncpy] to physical memory. *)
Fixpoint strncpy_to (n : nat) (m : mem) (dest : Z) (src : list Z) : mem :=
  match n with
  | O => store8 m dest 0
  | S n =>
    let '(c, src) := next_char src in
    if c =? 0 then store8 m dest 0 else strncpy_to n (store8 m dest c) (dest + 1) src
  end.

(** The number of arguments stored, and whether all of them were. *)
Fixpoint inject_loop (argv : Z) (l : list (list Z)) (i : Z) : pio (Z * bool) :=
  match l with
  | [] => mret (i, true)
  | argument :: l =>
    argument_str ← process_malloc RORTHOX_COMMAND_ARGUMENT_SIZE;
    if argument_str =? 0 then mret (i, false)
    else
      _ ← modify (fun '(p, k) =>
            let m := strncpy_to (Z.to_nat (RORTHOX_COMMAND_ARGUMENT_SIZE - 1)) (kmem k) argument_str argument in
            (p, with_kmem (store32 m (argv + 4 * i) argument_str) k));
      inject_loop argv l (i + 1)
  end.

(** [while (i > 0) process_free(process, argv[--i])] *)
Fixpoint free_arguments (n : nat) (argv : Z) (st : pst) : pst :=
  match n with
  | O => st
  | S n => free_arguments n argv (process_free (load32 (kmem (snd st)) (argv + 4 * Z.of_nat n)) st)
  end.

Definition process_inject_arguments (l : list (list Z)) : pio unit :=
  let argc := process_count_command_arguments l in
  _ ← status argc;
  _ ← fail_if (argc =? 0) EIO;
  argv ← process_malloc (u32 (4 * argc));
  _ ← fail_if (argv =? 0) ENOMEM;
  '(i, all) ← inject_loop argv l 0;
  if all : bool then modify (fun '(p, k) => (with_arguments (ProcessArguments argc argv) p, k))
  else
    _ ← modify (fun st => process_free argv (free_arguments (Z.to_nat i) argv st));
    fail ENOMEM.

(** ** The address space *)

Definition process_map_binary (p : proc) (k : kern D H) : Z * kern D H :=
  map_to RORTHOX_PROGRAM_VIRTUAL_ADDRESS (program_ptr p) (paging_align_address (u32 (program_ptr p + proc_size p)))
    (Z.lor (Z.lor PAGING_IS_PRESENT PAGING_ACCESS_FROM_ALL) PAGING_IS_WRITEABLE) k.

(** The program headers from index [i] on. *)
Fixpoint map_elf_loop (n i : nat) (res : Z) (file : elf_file) (k : kern D H) : Z * kern D H :=
  match n with
  | O => (res, k)
  | S n =>
    let phdr := elf_program_header (kmem k) (elf_memory file) (Z.of_nat i) in
    if negb (p_type phdr =? PT_LOAD) || (p_memsz phdr =? 0) then map_elf_loop n (S i) res file k
    else
      let phys := elf_phdr_phys_address file i phdr in
      let flags := Z.lor PAGING_IS_PRESENT PAGING_ACCESS_FROM_ALL in
      let flags := if has_flag (p_flags phdr) PF_W then Z.lor flags PAGING_IS_WRITEABLE else flags in
      let '(res, k) :=
        map_to (paging_align_to_lower_page (p_vaddr phdr)) (paging_align_to_lower_page phys)
          (paging_align_address (u32 (phys + p_memsz phdr))) flags k in
      if res <? 0 then (res, k) else map_elf_loop n (S i) res file k
  end.

Definition process_map_elf (p : proc) (k : kern D H) : Z * kern D H :=
  let n := e_phnum (header_at (kmem k) (elf_memory (program_elf p))) in
  map_elf_loop (Z.to_nat n) 0 0 (program_elf p) k.

Definition process_map_memory : pio unit := fun '(p, k) =>
  if negb ((filetype p =? PROCESS_FILETYPE_ELF) || (filetype p =? PROCESS_FILETYPE_BINARY)) then panic (p, k)
  else
    let '(res, k) := if filetype p =? PROCESS_FILETYPE_ELF then process_map_elf p k else process_map_binary p k in
    if res <? 0 then (Err res, (p, k))
    else
      let '(res, k) :=
        map_to RORTHOX_PROGRAM_VIRTUAL_STACK_ADDRESS_END (proc_stack p)
          (paging_align_address (u32 (proc_stack p + USER_PROGRAM_STACK_SIZE)))
          (Z.lor (Z.lor PAGING_IS_PRESENT PAGING_ACCESS_FROM_ALL) PAGING_IS_WRITEABLE) k in
      if res <? 0 then (Err res, (p, k)) else (Ok tt, (p, k)).
End mapping.

(** ** The program *)

Definition process_free_binary_data (st : pst) : pst := let '(p, k) := st in (p, krelease (program_ptr p) k).
Definition process_free_elf_data (st : pst) : pst := let '(p, k) := st in (p, elf_close (program_elf p) k).

(** The status, too. *)
Definition process_free_program_data (st : pst) : Z * pst :=
  if filetype (fst st) =? PROCESS_FILETYPE_BINARY then (0, process_free_binary_data st)
  else if filetype (fst st) =? PROCESS_FILETYPE_ELF then (0, process_free_elf_data st)
  else (- EINVARG, st).

Definition pfiles {A} (c : io (vfs D H) A) : pio A := fun '(p, k) =>
  let '(r, v) := c (kfiles k) in (r, (p, Kern v (kmem k))).
Definition pclose (fd : Z) (st : pst) : pst := snd (pfiles (fclose fd) st).
Definition prelease (ptr : Z) (st : pst) : pst := let '(p, k) := st in (p, krelease ptr k).

(** The file is read into [ptr], which is released on an error; what a failed read has left there is not recorded. *)
Definition read_binary (fd filesize : Z) : pio unit :=
  ptr ← (fun '(p, k) => let '(ptr, k) := process_zalloc_user filesize k in (Ok ptr, (p, k)));
  _ ← fail_if (ptr =? 0) ENOMEM;
  on_error
    (r ← attempt (pfiles (fread filesize 1 fd));
     match r with
     | None => fail EIO
     | Some (n, bs) =>
       _ ← modify (fun '(p, k) => (p, with_kmem (store_bytes (kmem k) ptr bs) k));
       _ ← fail_if (negb (n =? 1)) EIO;
       modify (fun '(p, k) => (with_program PROCESS_FILETYPE_BINARY ptr (program_elf p) filesize p, k))
     end)
    (prelease ptr).

Definition process_load_binary (filename : list Z) : pio unit :=
  fd ← (fun '(p, k) => let '(fd, v) := fopen filename [114] (kfiles k) in (Ok fd, (p, Kern v (kmem k))));
  finally
    (_ ← fail_if (fd =? 0) EIO;
     '(filesize, _) ← pfiles (fstat fd);
     _ ← fail_if ((filesize =? 0) ||
                  (RORTHOX_PROGRAM_VIRTUAL_ADDRESS_LIMIT - RORTHOX_PROGRAM_VIRTUAL_ADDRESS <? filesize)) EINVARG;
     read_binary fd filesize)
    (pclose fd).

Definition process_load_elf (filename : list Z) : pio unit := fun '(p, k) =>
  match elf_load filename k with
  | (Err e, k) => (Err e, (p, k))
  | (Ok f, k) => (Ok tt, (with_program PROCESS_FILETYPE_ELF (file_addr f) f (proc_size p) p, k))
  end.

Definition process_load_data (filename : list Z) : pio unit := fun st =>
  match process_load_elf filename st with
  | (Err e, st) => if e =? - EINFORMAT then process_load_binary filename st else (Err e, st)
  | r => r
  end.

(** ** Files *)

Definition set_handle (i : nat) (fd : Z) : pio unit :=
  modify (fun '(p, k) => (with_handles (<[i := fd]> (handles p)) p, k)).

(** The handle. *)
Definition process_open_file (path : list Z) (mode : Z) : pio Z :=
  l ← gets (fun st => handles (fst st));
  match list_find (eq 0) l with
  | None => fail EMFILE
  | Some (i, _) =>
    _ ← set_handle i (-1);
    fd ← on_error (pfiles (file_open path mode)) (fun st => snd (set_handle i 0 st));
    _ ← set_handle i fd;
    mret (Z.of_nat i + 1)
  end.

Definition process_file_descriptor (handle : Z) : pio Z :=
  l ← gets (fun st => handles (fst st));
  let fd := default 0 (l !! Z.to_nat (handle - 1)) in
  _ ← fail_if ((handle <? 1) || (RORTHOX_FILE_MAX_OPEN <? handle) || (fd <=? 0)) EBADF;
  mret fd.

Definition process_close_file (handle : Z) : pio Z :=
  fd ← process_file_descriptor handle;
  _ ← set_handle (Z.to_nat (handle - 1)) 0;
  pfiles (fclose fd).

Fixpoint close_files (n i : nat) (st : pst) : pst :=
  match n with
  | O => st
  | S n =>
    let fd := default 0 (handles (fst st) !! i) in
    let st := snd (set_handle i 0 st) in
    close_files n (S i) (if 0 <? fd then pclose fd st else st)
  end.

Definition process_close_files (st : pst) : pst := close_files (Z.to_nat RORTHOX_FILE_MAX_OPEN) 0 st.

(** ** Tasks *)

(** The task struct of the process at the address [process]; [id] is the task's number. *)
Definition task_init (process : Z) (p : proc) (k : kern D H) : result task * kern D H :=
  let '(chunk, (h, m)) := paging_new_4gb (kheap k, kmem k) (Z.lor PAGING_IS_PRESENT PAGING_IS_WRITEABLE) in
  let k := with_kmem m (with_kheap h k) in
  if chunk =? 0 then (Err (- EIO), k)
  else
    let ip := if filetype p =? PROCESS_FILETYPE_ELF then e_entry (header_at (kmem k) (elf_memory (program_elf p)))
              else RORTHOX_PROGRAM_VIRTUAL_ADDRESS in
    let r := Registers 0 0 0 0 0 0 0 ip USER_CODE_SEGMENT 0 RORTHOX_PROGRAM_VIRTUAL_STACK_ADDRESS_START
               USER_DATA_SEGMENT in
    (Ok (Task 0 chunk r process 0 0 0 0 TASK_RUNNABLE 0), k).

(** The address and the contents of the new struct; [tasks] counts. *)
Definition task_new (process : Z) (p : proc) (tasks : Z) (k : kern D H) : result (Z * task * Z) * kern D H :=
  let '(ptr, k) := kalloc sizeof_task k in
  if ptr =? 0 then (Err (- ENOMEM), k)
  else
    match task_init process p k with
    | (Err e, k) => (Err e, krelease ptr k)
    | (Ok t, k) =>
      let burstTime := 1000 in
      (Ok (ptr, Task tasks (page_directory t) (regs t) (Sched.process t) burstTime burstTime (next t) (prev t) (state t)
                  (wake_tick t), u32 (tasks + 1)), k)
    end.

(** The struct [t] at [ptr]. *)
Definition task_discard (ptr : Z) (t : task) (k : kern D H) : kern D H :=
  let k := if page_directory t =? 0 then k
           else let '(h, m) := paging_free_4gb (kheap k, kmem k) (page_directory t) in with_kmem m (with_kheap h k) in
  krelease ptr k.

(** ** The process table *)

(** The kernel's memory and files, the tasks, and the statics of process.c with the structs of the processes. *)
Record sys := Sys {
  skern : kern D H;
  ssched : sched;
  procs : gmap Z proc;
  slots : list Z;
  current_process : Z
}.

Local Abbreviation sio := (io sys).

Definition with_skern (k : kern D H) (s : sys) : sys := Sys k (ssched s) (procs s) (slots s) (current_process s).
Definition with_ssched (c : sched) (s : sys) : sys := Sys (skern s) c (procs s) (slots s) (current_process s).
Definition with_procs (ps : gmap Z proc) (s : sys) : sys := Sys (skern s) (ssched s) ps (slots s) (current_process s).
Definition with_slots (l : list Z) (s : sys) : sys := Sys (skern s) (ssched s) (procs s) l (current_process s).
Definition process_switch (ptr : Z) (s : sys) : sys := Sys (skern s) (ssched s) (procs s) (slots s) ptr.

(** The null pointer is 0. *)
Definition process_get (process_id : Z) (s : sys) : Z :=
  if (process_id <? 0) || (RORTHOX_MAX_PROCESSES <=? process_id) then 0
  else default 0 (slots s !! Z.to_nat process_id).

Definition process_switch_to_any : sio unit := fun s =>
  match list_find (fun p => p <> 0) (slots s) with
  | Some (_, p) => (Ok tt, process_switch p s)
  | None => panic s
  end.

(** The struct [p] at [ptr]. *)
Definition process_unlink (ptr : Z) (p : proc) : sio unit :=
  _ ← modify (fun s => with_slots (<[Z.to_nat (pid p) := 0]> (slots s)) s);
  c ← gets current_process;
  if c =? ptr then process_switch_to_any else mret tt.

Fixpoint free_slot (l : list Z) (i : Z) : Z :=
  match l with
  | [] => - EISTKN
  | p :: l => if p =? 0 then i else free_slot l (i + 1)
  end.

Definition process_get_free_slot (s : sys) : Z := free_slot (slots s) 0.

(** ** Loading *)

(** A process under construction: its struct and the kernel's memory, its task, and the number of tasks so far. *)
Record loading := Loading { lproc : proc; lkern : kern D H; ltask : option (Z * task); ltasks : Z }.
Local Abbreviation lio := (io loading).

Definition build {A} (c : pio A) : lio A := fun l =>
  let '(r, (p, k)) := c (lproc l, lkern l) in (r, Loading p k (ltask l) (ltasks l)).

Definition load_stack : lio unit :=
  stack ← build (fun '(p, k) => let '(stack, k) := kalloc USER_PROGRAM_STACK_SIZE k in (Ok stack, (with_stack stack p, k)));
  fail_if (stack =? 0) ENOMEM.

Definition load_name (slot : Z) (filename : list Z) : lio unit :=
  build (modify (fun '(p, k) =>
    (with_name (u16 slot) (default (proc_filename p) (strncpy (proc_filename p) filename RORTHOX_MAX_PATH)) p, k))).

(** [ptr] is the address of the process. *)
Definition load_task (ptr : Z) : lio Z := fun l =>
  match task_new ptr (lproc l) (ltasks l) (lkern l) with
  | (Err e, k) => (Err e, Loading (lproc l) k (ltask l) (ltasks l))
  | (Ok (t, task, n), k) => (Ok (page_directory task), Loading (with_task t (lproc l)) k (Some (t, task)) n)
  end.

Definition load_process (cur ptr slot : Z) (filename : list Z) (root_argument : option (list (list Z))) : lio unit :=
  _ ← build (process_load_data filename);
  _ ← load_stack;
  _ ← load_name slot filename;
  chunk ← load_task ptr;
  _ ← build (process_map_memory cur chunk);
  match root_argument with
  | None => mret tt
  | Some l => build (process_inject_arguments cur chunk l)
  end.

(** The process at [ptr]. *)
Definition process_discard (ptr : Z) (l : loading) : kern D H :=
  let '(p, k) := process_close_files (lproc l, lkern l) in
  let k := match ltask l with None => k | Some (t, task) => task_discard t task k end in
  let k := krelease (proc_stack p) k in
  let '(p, k) := if program_ptr p =? 0 then (p, k) else snd (process_free_program_data (p, k)) in
  krelease ptr k.

Definition process_publish (ptr slot : Z) (l : loading) (s : sys) : sio Z := fun _ =>
  match ltask l with
  | None => panic s
  | Some (t, task) =>
    let c := with_tasks (ltasks l) (ssched s) in
    match task_publish t (with_store (<[t := task]> (task_store c)) c) with
    | None => panic s
    | Some c =>
      (Ok ptr, Sys (lkern l) c (<[ptr := lproc l]> (procs s)) (<[Z.to_nat slot := ptr]> (slots s)) (current_process s))
    end
  end.

(** The address of the new process. *)
Definition process_load_for_slot_with_arguments (filename : list Z) (process_slot : Z)
    (root_argument : option (list (list Z))) : sio Z := fun s =>
  if (process_slot <? 0) || (RORTHOX_MAX_PROCESSES <=? process_slot) then (Err (- EINVARG), s)
  else if negb (process_get process_slot s =? 0) then (Err (- EISTKN), s)
  else
    let '(ptr, k) := kalloc sizeof_process (skern s) in
    if ptr =? 0 then (Err (- ENOMEM), with_skern k s)
    else
      let cur := current_directory (cpu (ssched s)) in
      match load_process cur ptr process_slot filename root_argument (Loading process_init k None (tasks (ssched s))) with
      | (Ok _, l) => process_publish ptr process_slot l s s
      | (Err e, l) =>
        let s := with_ssched (with_tasks (ltasks l) (ssched s)) s in
        if e <? 0 then (Err e, with_skern (process_discard ptr l) s) else (Err e, with_skern (lkern l) s)
      end.

Definition process_load_for_slot (filename : list Z) (process_slot : Z) : sio Z :=
  process_load_for_slot_with_arguments filename process_slot None.

Definition process_load_with_arguments (filename : list Z) (root_argument : option (list (list Z))) : sio Z :=
  process_slot ← gets process_get_free_slot;
  _ ← fail_if (process_slot <? 0) EISTKN;
  process_load_for_slot_with_arguments filename process_slot root_argument.

Definition process_load (filename : list Z) : sio Z := process_load_with_arguments filename None.

Definition process_load_switch (filename : list Z) : sio Z :=
  p ← process_load filename;
  _ ← modify (process_switch p);
  mret p.

(** ** Ending a process *)

(** The task at [ptr], unlinked and destroyed. *)
Definition task_free (ptr : Z) : sio unit := fun s =>
  if ptr =? 0 then (Ok tt, s)
  else
    match task_store (ssched s) !! ptr, task_list_remove ptr (ssched s) with
    | Some t, Some c =>
      (Ok tt, with_skern (task_discard ptr t (skern s)) (with_ssched (with_store (delete ptr (task_store c)) c) s))
    | _, _ => panic s
    end.

(** The files and the allocations of the process at [ptr] whose task has the directory of [chunk]. *)
Definition release_process (chunk ptr : Z) (p : proc) (s : sys) : sys :=
  let '(p, k) := process_close_files (p, skern s) in
  let '(p, k) := process_terminate_allocation (current_directory (cpu (ssched s))) chunk (p, k) in
  with_procs (<[ptr := p]> (procs s)) (with_skern k s).

Definition process_terminate (ptr : Z) : sio Z := fun s =>
  match procs s !! ptr with
  | None => panic s
  | Some p =>
    let chunk := default 0 (page_directory <$> task_store (ssched s) !! proc_task p) in
    let s := release_process chunk ptr p s in
    (_ ← task_free (proc_task p);
     res ← (fun s => let '(res, (_, k)) := process_free_program_data (p, skern s) in (Ok res, with_skern k s));
     _ ← status res;
     _ ← modify (fun s => with_skern (krelease (proc_stack p) (skern s)) s);
     _ ← process_unlink ptr p;
     _ ← modify (fun s => with_procs (delete ptr (procs s)) (with_skern (krelease ptr (skern s)) s));
     mret res) s
  end.
End process.

Arguments sys D H : clear implicits.
Arguments Sys {D H}.
Arguments loading D H : clear implicits.
Arguments Loading {D H}.
