(* ===== verification/AddrSpace.v ===== *)
(** * The address space of a process (kernel/task/process.c)

    The invariant [space] of a running process: its directory maps the pages of its stack, its program and its
    allocations for user access to memory the process owns, and every other page to itself for the kernel only. The
    theorems show that [process_malloc] and [process_free] keep it, and what it means: a program reaches its
    own memory only. *)

From stdpp Require Import base numbers list gmap.
From Stdlib Require Import ZArith Lia.
From S2P Require Import Prelude Alloc Heap Memory Paging Sched Effects Disk StrLib PathParser Fat FatWrite FatProps.
From S2P Require Import FatDir FatDirScan FatOpen FatMount Vfs Elf UserMem Process.

#[local] Set Default Goal Selector "!".

(** ** Regions *)

(** Pages mapped to consecutive memory. *)
Record region := Region { rg_virt : Z; rg_phys : Z; rg_pages : Z; rg_flags : Z }.

Definition in_region (r : region) (pg : Z) : Prop := rg_virt r / 4096 <= pg < rg_virt r / 4096 + rg_pages r.

(** The leaf of a page of the region. *)
Definition region_leaf (r : region) (pg : Z) : Z :=
  Z.lor (rg_phys r + (pg - rg_virt r / 4096) * 4096) (rg_flags r).

Definition stack_region (p : proc) : region := Region RORTHOX_PROGRAM_VIRTUAL_STACK_ADDRESS_END (proc_stack p) 4 7.

Definition alloc_region (a : process_allocation) : region :=
  Region (alloc_ptr a) (alloc_ptr a) (blocks_for (alloc_size a)) 7.

Definition taken (a : process_allocation) : Prop := alloc_ptr a <> 0.
#[global] Instance taken_dec a : Decision (taken a).
Proof. unfold taken. apply _. Defined.

Definition segment_region (ph : elf32_phdr) (memory : Z) : region :=
  Region (first_page ph * 4096) memory (end_page ph - first_page ph) (if has_flag (p_flags ph) PF_W then 7 else 5).

Definition elf_regions (m : mem) (f : elf_file) : list region :=
  omap (fun i => let ph := elf_program_header m (elf_memory f) (Z.of_nat i) in
                 if loaded ph then segment_region ph <$> segments f !! i else None)
    (seq 0 (length (segments f))).

Definition program_regions (m : mem) (p : proc) : list region :=
  if filetype p =? PROCESS_FILETYPE_BINARY
  then [Region RORTHOX_PROGRAM_VIRTUAL_ADDRESS (program_ptr p) (blocks_for (proc_size p)) 7]
  else elf_regions m (program_elf p).

Definition regions (m : mem) (p : proc) : list region :=
  stack_region p :: program_regions m p ++ map alloc_region (filter taken (allocations p)).

(** ** Ownership *)

Definition alloc_ptrs (l : list process_allocation) : list Z := map alloc_ptr (filter taken l).

Definition program_own (p : proc) : list Z :=
  if filetype p =? PROCESS_FILETYPE_BINARY then [program_ptr p]
  else elf_cells (program_elf p).

(** Those of them that the program itself may use. *)
Definition program_data (p : proc) : list Z :=
  if filetype p =? PROCESS_FILETYPE_BINARY then [program_ptr p] else List.filter nonnull (segments (program_elf p)).

(** The rest: the struct of the ELF file, its image and the table of its segments. *)
Definition program_kept (p : proc) : list Z :=
  if filetype p =? PROCESS_FILETYPE_BINARY then []
  else List.filter nonnull [file_addr (program_elf p); elf_memory (program_elf p); segment_memory (program_elf p)].

Lemma program_own_split p : program_own p = program_kept p ++ program_data p.
Proof.
  unfold program_own, program_kept, program_data. destruct (_ =? _); [done|]. unfold elf_cells.
  change (file_addr ?f :: ?a :: ?b :: ?l) with ([file_addr f; a; b] ++ l). apply List.filter_app.
Qed.

Lemma program_data_own p q : q ∈ program_data p -> q ∈ program_own p.
Proof. rewrite program_own_split. intros Hq. apply elem_of_app. by right. Qed.

(** The allocations that hold the memory of the process. *)
Definition own (p : proc) : list Z := proc_stack p :: program_own p ++ alloc_ptrs (allocations p).

(** Of these, the memory that is the program's: its stack, its code and data, and what it has allocated. *)
Definition user_memory (p : proc) : list Z := proc_stack p :: program_data p ++ alloc_ptrs (allocations p).
Lemma user_memory_own p q : q ∈ user_memory p -> q ∈ own p.
Proof.
  intros [->|[Hq|Hq]%elem_of_app]%elem_of_cons; [apply list_elem_of_here| |]; apply list_elem_of_further, elem_of_app; [left|by right].
  by apply program_data_own.
Qed.

(** The pages of a directory and its tables. *)
Definition table_pages (m : mem) (dir : Z) : list Z := dir :: map (fun i => table_of m dir (Z.of_nat i)) (seq 0 (Z.to_nat 1024)).

Lemma in_pd_pages m dir a : in_pd m dir a <-> exists q, q ∈ table_pages m dir /\ q <= a < q + 4096.
Proof.
  unfold in_pd, table_pages. setoid_rewrite elem_of_cons. setoid_rewrite list_elem_of_fmap. split.
  - intros [Ha|(d & Hd & Ha)]; [exists dir; split; [by left|done]|].
    exists (table_of m dir d). split; [|done]. right. exists (Z.to_nat d). rewrite Z2Nat.id by lia.
    split; [done|]. apply elem_of_seq. lia.
  - intros (q & [->|(i & -> & Hi%elem_of_seq)] & Ha); [by left|]. right. exists (Z.of_nat i). lia.
Qed.

Lemma table_pages_ext m m' dir :
  (forall d, 0 <= d < 1024 -> table_of m' dir d = table_of m dir d) -> table_pages m' dir = table_pages m dir.
Proof.
  intros Ht. unfold table_pages. f_equal. apply list_fmap_ext. intros i x [-> Hi]%lookup_seq. apply Ht. lia.
Qed.

Lemma table_pages_list m dir ts :
  length ts = Z.to_nat 1024 -> (forall (k : nat) t, ts !! k = Some t -> table_of m dir (Z.of_nat k) = t) ->
  table_pages m dir = dir :: ts.
Proof.
  intros Hl Ht. unfold table_pages. f_equal. apply list_eq. intros i. rewrite list_lookup_fmap.
  destruct (ts !! i) as [t|] eqn:Hi.
  - rewrite lookup_seq_lt by (rewrite <- Hl; by eapply lookup_lt_Some). simpl. f_equal. by apply Ht.
  - apply lookup_ge_None in Hi. by rewrite lookup_seq_ge by (by rewrite <- Hl).
Qed.

Lemma table_pages_dir m dir : dir ∈ table_pages m dir.
Proof. apply list_elem_of_here. Qed.

(** Releasing the tables of a directory. *)
Lemma table_pages_free `{AllocatorLaws H} P A (h0 h : H) m dir l :
  owned_by P A h0 (table_pages m dir ++ l) h ->
  owned_by P A h0 l (kfree (paging_free_tables (Z.to_nat 1024) 0 dir m h) dir).
Proof.
  assert (Hn : forall n i h l, owned_by P A h0 (map (fun j => table_of m dir (Z.of_nat j)) (seq i n) ++ l) h ->
    owned_by P A h0 l (paging_free_tables n (Z.of_nat i) dir m h)).
  { clear. induction n as [|n IH]; intros i h l Ho; [done|]. cbn [paging_free_tables seq map] in *.
    replace (Z.of_nat i + 1) with (Z.of_nat (S i)) by lia. apply IH. apply owned_free in Ho. exact Ho. }
  intros Ho. apply owned_free. apply (Hn _ 0%nat). unfold table_pages in Ho.
  eapply owned_perm; [|reflexivity|exact Ho]. cbn [app]. symmetry. apply Permutation_middle.
Qed.

#[global] Opaque table_pages.

(** ** The list of allocations *)

Lemma find_allocation_spec l ptr : forall i,
  (find_allocation l i ptr = - ENOMEM /\ forall a, a ∈ l -> alloc_ptr a <> ptr) \/
  (exists (k : nat) a, find_allocation l i ptr = i + Z.of_nat k /\ l !! k = Some a /\ alloc_ptr a = ptr).
Proof.
  induction l as [|a l IH]; intros i; cbn [find_allocation].
  { left. split; [done|]. intros a Ha. by apply not_elem_of_nil in Ha. }
  destruct (Z.eqb_spec (alloc_ptr a) ptr) as [E|E].
  { right. exists 0%nat, a. split; [lia|done]. }
  destruct (IH (i + 1)) as [[-> Hn]|(k & b & -> & Hk & Hb)].
  - left. split; [done|]. intros b [->|Hb]%elem_of_cons; [done|by apply Hn].
  - right. exists (S k), b. split; [lia|done].
Qed.

Lemma taken_insert l (k : nat) old a :
  l !! k = Some old -> ~ taken old -> taken a -> filter taken (<[k := a]> l) ≡ₚ a :: filter taken l.
Proof.
  intros Hk Ho Ha. rewrite (insert_take_drop _ _ a) by (by eapply lookup_lt_Some).
  rewrite <- (take_drop_middle _ _ _ Hk) at 3. rewrite !filter_app, !filter_cons.
  rewrite (decide_True _ _ Ha), (decide_False _ _ Ho). symmetry. apply Permutation_middle.
Qed.

Lemma elem_of_unjoin l ptr a : ptr <> 0 -> a ∈ filter taken (unjoin l ptr) <-> a ∈ filter taken l /\ alloc_ptr a <> ptr.
Proof.
  intros Hp. induction l as [|b l IH]; cbn [unjoin].
  { rewrite filter_nil. split; [intros Ha|intros [Ha _]]; by apply not_elem_of_nil in Ha. }
  rewrite !filter_cons. destruct (Z.eqb_spec (alloc_ptr b) ptr) as [E|E].
  - rewrite (decide_False (P := taken (Allocation 0 0))) by (by intros []). rewrite IH.
    rewrite decide_True by (unfold taken; lia). rewrite elem_of_cons. naive_solver.
  - destruct (decide (taken b)); rewrite ?elem_of_cons, IH; naive_solver.
Qed.

Lemma unjoin_ptrs l ptr :
  ptr <> 0 -> NoDup (alloc_ptrs l) -> ptr ∈ alloc_ptrs l -> alloc_ptrs l ≡ₚ ptr :: alloc_ptrs (unjoin l ptr).
Proof.
  intros Hp. unfold alloc_ptrs. induction l as [|b l IH]; cbn [unjoin].
  { intros _ Ha. by apply not_elem_of_nil in Ha. }
  rewrite !filter_cons. destruct (Z.eqb_spec (alloc_ptr b) ptr) as [E|E].
  - rewrite (decide_False (P := taken (Allocation 0 0))) by (by intros []).
    rewrite decide_True by (unfold taken; lia). cbn [map]. rewrite E. intros [Hn _]%NoDup_cons _.
    assert (filter taken (unjoin l ptr) = filter taken l) as ->; [|done].
    clear -Hn Hp. induction l as [|c l IH]; [done|]. cbn [unjoin]. rewrite filter_cons in Hn. rewrite !filter_cons.
    destruct (Z.eqb_spec (alloc_ptr c) ptr) as [Ec|Ec].
    { rewrite decide_True in Hn by (unfold taken; lia). destruct Hn. rewrite <- Ec. apply list_elem_of_here. }
    destruct (decide (taken c)); rewrite IH; try done. intros Hx. apply Hn. by apply list_elem_of_further.
  - destruct (decide (taken b)) as [Hb|Hb]; [|apply IH]. cbn [map].
    intros [_ Hn]%NoDup_cons [?|Ha]%elem_of_cons; [by subst|]. rewrite IH by done. apply Permutation_swap.
Qed.

Lemma get_allocation_spec l ptr :
  match get_allocation l ptr with
  | Some a => a ∈ l /\ alloc_ptr a = ptr
  | None => forall a, a ∈ l -> alloc_ptr a <> ptr
  end.
Proof.
  induction l as [|a l IH]; cbn [get_allocation].
  { intros a Ha. by apply not_elem_of_nil in Ha. }
  destruct (Z.eqb_spec (alloc_ptr a) ptr) as [E|E]; [split; [apply list_elem_of_here|done]|].
  destruct (get_allocation l ptr).
  - destruct IH. split; [by apply list_elem_of_further|done].
  - intros b [->|Hb]%elem_of_cons; [done|by apply IH].
Qed.

Section space.
Context `{AllocatorLaws H}.
Implicit Types h : H.

(** The heap lies above the program window and ends below the last page. *)
Definition heap_placed h : Prop :=
  RORTHOX_PROGRAM_VIRTUAL_ADDRESS_LIMIT <= fst (arena h) /\ fst (arena h) + 4096 * capacity h < 2 ^ 32.

(** A region of the program. *)
Record program_region_ok (h : H) (p : proc) (r : region) : Prop := {
  pr_virt : rg_virt r mod 4096 = 0;
  pr_window : RORTHOX_PROGRAM_VIRTUAL_ADDRESS <= rg_virt r /\
    rg_virt r + 4096 * rg_pages r <= RORTHOX_PROGRAM_VIRTUAL_ADDRESS_LIMIT;
  pr_own : rg_phys r ∈ program_data p;
  pr_run : exists n, run h (rg_phys r) n /\ 0 <= rg_pages r <= n;
  pr_flags : rg_flags r = 5 \/ rg_flags r = 7
}.

Record space (h : H) (m : mem) (chunk dir : Z) (p : proc) : Prop := Space {
  sp_wf : pd_wf m dir;
  sp_chunk : load32 m chunk = dir;
  sp_type : (filetype p = PROCESS_FILETYPE_BINARY \/ filetype p = PROCESS_FILETYPE_ELF) /\ program_ptr p <> 0;
  sp_length : length (allocations p) = Z.to_nat RORTHOX_MAX_PROGRAM_ALLOCATIONS;
  sp_dup : NoDup (chunk :: table_pages m dir ++ own p);
  sp_run q : q ∈ chunk :: table_pages m dir ++ own p -> exists n, run h q n;
  sp_stack : run h (proc_stack p) 4;
  sp_alloc a : a ∈ allocations p -> taken a ->
    0 < alloc_size a < 2 ^ 32 /\ run h (alloc_ptr a) (blocks_for (alloc_size a));
  sp_program r : r ∈ program_regions m p -> program_region_ok h p r;
  sp_program_dup : NoDup (map rg_phys (program_regions m p));
  sp_image : image_ok m p;
  sp_image_run : filetype p <> PROCESS_FILETYPE_BINARY ->
    exists n, run h (elf_memory (program_elf p)) n /\ 0 <= in_memory_size (program_elf p) <= 4096 * n;
  sp_leaf r pg : r ∈ regions m p -> in_region r pg -> pte m dir pg = region_leaf r pg;
  sp_rest pg : 0 <= pg < 2 ^ 20 -> (forall r, r ∈ regions m p -> ~ in_region r pg) -> pte m dir pg = Z.lor (pg * 4096) 3
}.

(** ** What an operation on the directory leaves alone *)

(** Memory of the allocations other than the tables is the same. *)
Definition keeps (h : H) (m m' : mem) (dir : Z) : Prop :=
  forall q n, run h q n -> q ∉ table_pages m dir -> same_on m m' q (q + 4096 * n).

Lemma elf_regions_same m m' p :
  image_ok m p -> filetype p = PROCESS_FILETYPE_ELF -> program_ptr p <> 0 ->
  same_on m m' (elf_memory (program_elf p)) (elf_memory (program_elf p) + in_memory_size (program_elf p)) ->
  elf_regions m' (program_elf p) = elf_regions m (program_elf p).
Proof.
  intros V Hf Hp S. unfold elf_regions. apply list_omap_ext, Forall2_same_length_lookup. split; [done|].
  intros i x y Hx Hy. rewrite Hx in Hy. injection Hy as <-. apply lookup_seq in Hx as [-> Hx].
  rewrite (image_phdr m m') by (done || lia). done.
Qed.

Section one.
Context (h : H) (m : mem) (chunk dir : Z) (p : proc).
Hypothesis SP : space h m chunk dir p.

Lemma space_own_pages q : q ∈ own p -> q ∉ table_pages m dir.
Proof.
  pose proof (sp_dup _ _ _ _ _ SP) as Hd. apply NoDup_cons in Hd as [_ Hd]. apply NoDup_app in Hd as (_ & Hd & _).
  intros Hq Ht. by apply (Hd q).
Qed.

Lemma space_chunk_pages : chunk ∉ table_pages m dir.
Proof.
  pose proof (sp_dup _ _ _ _ _ SP) as Hd. apply NoDup_cons in Hd as [Hc _]. intros Ht. apply Hc, elem_of_app. by left.
Qed.

Lemma space_run_chunk : exists n, run h chunk n.
Proof. apply (sp_run _ _ _ _ _ SP), list_elem_of_here. Qed.

Lemma space_run_page q : q ∈ table_pages m dir -> exists n, run h q n.
Proof. intros Hq. apply (sp_run _ _ _ _ _ SP), list_elem_of_further, elem_of_app. by left. Qed.

Lemma space_run_own q : q ∈ own p -> exists n, run h q n.
Proof. intros Hq. apply (sp_run _ _ _ _ _ SP), list_elem_of_further, elem_of_app. by right. Qed.

(** An allocation that is not a table does not meet the directory. *)
Lemma space_outside q n a : run h q n -> q ∉ table_pages m dir -> q <= a < q + 4096 * n -> ~ in_pd m dir a.
Proof.
  intros Hq Ht Ha (x & Hx & Hin)%in_pd_pages.
  destruct (space_run_page x Hx) as [k Hk]. pose proof (run_bounds _ _ _ Hk).
  assert (Hne : q <> x) by (by intros ->). pose proof (run_apart _ _ _ _ _ Hq Hk Hne) as Hap. unfold apart in Hap. lia.
Qed.

Lemma space_chunk_ok : chunk_ok m chunk dir.
Proof.
  split; [apply (sp_chunk _ _ _ _ _ SP)|]. intros a Ha. destruct space_run_chunk as [n Hn].
  pose proof (run_bounds _ _ _ Hn). eapply space_outside; [done|apply space_chunk_pages|lia].
Qed.

Lemma update_keeps m' upd : pd_update m m' dir upd -> keeps h m m' dir.
Proof. intros U q n Hq Ht a Ha. apply (upd_frame _ _ _ _ U). by eapply space_outside. Qed.

Lemma update_pages m' upd : pd_update m m' dir upd -> table_pages m' dir = table_pages m dir.
Proof. intros U. apply table_pages_ext. apply (upd_tables _ _ _ _ U). Qed.

Lemma keeps_chunk m' : keeps h m m' dir -> load32 m' chunk = dir.
Proof.
  intros K. destruct space_run_chunk as [n Hn]. pose proof (run_bounds _ _ _ Hn).
  rewrite <- (sp_chunk _ _ _ _ _ SP). apply load32_ext. intros i Hi.
  apply (K _ _ Hn space_chunk_pages). lia.
Qed.

Lemma image_program_own : filetype p <> PROCESS_FILETYPE_BINARY -> elf_memory (program_elf p) ∈ program_own p.
Proof.
  intros Hf. destruct (sp_image_run _ _ _ _ _ SP Hf) as (n & Hn & _). pose proof (run_bounds _ _ _ Hn).
  unfold program_own. rewrite (proj2 (Z.eqb_neq _ _) Hf).
  apply list_elem_of_In, filter_In. split; [right; by left|]. apply negb_true_iff, Z.eqb_neq. lia.
Qed.

Lemma space_image_own : filetype p <> PROCESS_FILETYPE_BINARY -> elf_memory (program_elf p) ∈ own p.
Proof. intros Hf. apply list_elem_of_further, elem_of_app. left. by apply image_program_own. Qed.

Lemma keeps_image m' :
  keeps h m m' dir -> filetype p <> PROCESS_FILETYPE_BINARY ->
  same_on m m' (elf_memory (program_elf p)) (elf_memory (program_elf p) + in_memory_size (program_elf p)).
Proof.
  intros K Hf a Ha. destruct (sp_image_run _ _ _ _ _ SP Hf) as (n & Hn & Hs).
  apply (K _ _ Hn); [by apply space_own_pages, space_image_own|lia].
Qed.

Lemma space_not_binary : filetype p <> PROCESS_FILETYPE_BINARY -> filetype p = PROCESS_FILETYPE_ELF.
Proof. destruct (sp_type _ _ _ _ _ SP) as [[?|?] _]; done. Qed.

Lemma keeps_program m' : keeps h m m' dir -> program_regions m' p = program_regions m p.
Proof.
  intros K. unfold program_regions. destruct (Z.eqb_spec (filetype p) PROCESS_FILETYPE_BINARY) as [Hf|Hf]; [done|].
  apply elf_regions_same; 
    [apply (sp_image _ _ _ _ _ SP)|by apply space_not_binary|apply (sp_type _ _ _ _ _ SP)|by apply keeps_image].
Qed.

Lemma keeps_image_ok m' : keeps h m m' dir -> image_ok m' p.
Proof.
  intros K. destruct (decide (filetype p = PROCESS_FILETYPE_BINARY)) as [Hf|Hf].
  - intros Hf'. by rewrite Hf in Hf'.
  - apply (image_ok_same m); [intros _; by apply keeps_image|apply (sp_image _ _ _ _ _ SP)].
Qed.

(** ** The pages of the regions *)

Lemma space_alloc_own a : a ∈ filter taken (allocations p) -> alloc_ptr a ∈ own p.
Proof.
  intros Ha. apply list_elem_of_further, elem_of_app. right. by apply list_elem_of_fmap_2.
Qed.

(** Where a region lies: low, or at the address of an allocation of the process. *)
Lemma region_place r :
  r ∈ regions m p ->
  0 <= rg_virt r /\ rg_virt r mod 4096 = 0 /\
  (rg_virt r + 4096 * rg_pages r <= RORTHOX_PROGRAM_VIRTUAL_ADDRESS_LIMIT \/
   rg_virt r ∈ own p /\ run h (rg_virt r) (rg_pages r)).
Proof.
  intros [->|[Hr|Hr]%elem_of_app]%elem_of_cons.
  - unfold RORTHOX_PROGRAM_VIRTUAL_ADDRESS_LIMIT. simpl. unfold RORTHOX_PROGRAM_VIRTUAL_STACK_ADDRESS_END,
      RORTHOX_PROGRAM_VIRTUAL_STACK_ADDRESS_START, USER_PROGRAM_STACK_SIZE. lia.
  - destruct (sp_program _ _ _ _ _ SP r Hr) as [Hv Hw _ _ _].
    unfold RORTHOX_PROGRAM_VIRTUAL_ADDRESS in Hw. split; [lia|]. split; [done|]. left. lia.
  - apply list_elem_of_fmap in Hr as (a & -> & Ha). pose proof Ha as [Ht Hin]%list_elem_of_filter.
    destruct (sp_alloc _ _ _ _ _ SP a Hin Ht) as [_ Hrun]. pose proof (run_bounds _ _ _ Hrun). simpl.
    split; [lia|]. split; [lia|]. right. split; [by apply space_alloc_own|done].
Qed.

Lemma region_pages r pg : r ∈ regions m p -> in_region r pg -> 0 <= pg < 2 ^ 20.
Proof.
  intros Hr Hin. destruct (region_place r Hr) as (Hv & Ha & [Hl|[_ Hrun]]); unfold in_region in Hin.
  - unfold RORTHOX_PROGRAM_VIRTUAL_ADDRESS_LIMIT in Hl. lia.
  - pose proof (run_bounds _ _ _ Hrun). lia.
Qed.

(** An allocation of somebody else has no page in the regions. *)
Lemma space_foreign q n r pg :
  heap_placed h -> run h q n -> q ∉ own p -> r ∈ regions m p -> in_region r pg -> ~ (q / 4096 <= pg < q / 4096 + n).
Proof.
  intros [Hlo _] Hq Hown Hr Hin Hpg. pose proof (run_bounds _ _ _ Hq). pose proof (run_arena _ _ _ Hq) as [Hf _].
  destruct (region_place r Hr) as (Hv & Ha & [Hl|[Ho Hrun]]); unfold in_region in Hin; [lia|].
  assert (Hne : q <> rg_virt r) by (by intros ->). pose proof (run_apart _ _ _ _ _ Hq Hrun Hne) as Hap.
  unfold apart in Hap. pose proof (run_bounds _ _ _ Hrun). lia.
Qed.

(** ** Another heap, other memory *)

Lemma program_ok_heap h' r :
  (forall q n, q ∈ own p -> run h q n -> run h' q n) -> program_region_ok h p r -> program_region_ok h' p r.
Proof.
  intros Hh [? ? Ho (n & Hn & Hb) ?]. constructor; try done. exists n. split; [|done]. apply Hh; [|done].
  apply list_elem_of_further, elem_of_app. left. by apply program_data_own.
Qed.

Lemma space_heap h' :
  (forall q n, q ∈ chunk :: table_pages m dir ++ own p -> run h q n -> run h' q n) -> space h' m chunk dir p.
Proof.
  intros Hh. assert (Ho : forall q n, q ∈ own p -> run h q n -> run h' q n).
  { intros q n Hq. apply Hh, list_elem_of_further, elem_of_app. by right. }
  pose proof space_image_own as Himg. destruct SP. constructor; try done.
  - intros q Hq. destruct (sp_run0 q Hq) as [n Hn]. exists n. by apply Hh.
  - apply Ho; [apply list_elem_of_here|done].
  - intros a Ha Ht. destruct (sp_alloc0 a Ha Ht) as [? ?]. split; [done|]. apply Ho; [|done].
    apply space_alloc_own, list_elem_of_filter. done.
  - intros r Hr. by apply program_ok_heap; [|apply sp_program0].
  - intros Hf. destruct (sp_image_run0 Hf) as (n & ? & ?). exists n. split; [|done]. apply Ho; [by apply Himg|done].
Qed.

(** The tables stay where they are if their memory is the same. *)
Lemma space_pages_same m' :
  (forall q n, run h q n -> q ∈ table_pages m dir -> same_on m m' q (q + 4096 * n)) ->
  table_pages m' dir = table_pages m dir.
Proof.
  intros Hs. apply table_pages_ext. intros d Hd.
  destruct (pd_same m m' dir) as (_ & Ht & _); [apply (sp_wf _ _ _ _ _ SP)|..|by apply Ht].
  intros a (q & Hq & Ha)%in_pd_pages. destruct (space_run_page q Hq) as [n Hn].
  pose proof (run_bounds _ _ _ Hn). apply (Hs _ _ Hn Hq). lia.
Qed.

(** Memory that is written outside the tables, the chunk and the image of the program. *)
Lemma space_rewrite m' :
  (forall q n, run h q n ->
     q ∈ chunk :: table_pages m dir \/ filetype p <> PROCESS_FILETYPE_BINARY /\ q = elf_memory (program_elf p) ->
     same_on m m' q (q + 4096 * n)) -> space h m' chunk dir p.
Proof.
  intros Hm. assert (Hch : load32 m' chunk = dir).
  { destruct space_run_chunk as [n Hn]. pose proof (run_bounds _ _ _ Hn). rewrite <- (sp_chunk _ _ _ _ _ SP).
    apply load32_ext. intros i Hi. apply (Hm _ _ Hn); [left; apply list_elem_of_here|lia]. }
  destruct (pd_same m m' dir) as (W & Htb & Hp); [apply (sp_wf _ _ _ _ _ SP)|..].
  { intros a (q & Hq & Ha)%in_pd_pages. destruct (space_run_page q Hq) as [n Hn]. pose proof (run_bounds _ _ _ Hn).
    apply (Hm _ _ Hn); [left; by apply list_elem_of_further|lia]. }
  assert (Himg : filetype p <> PROCESS_FILETYPE_BINARY ->
    same_on m m' (elf_memory (program_elf p)) (elf_memory (program_elf p) + in_memory_size (program_elf p))).
  { intros Hf a Ha. destruct (sp_image_run _ _ _ _ _ SP Hf) as (n & Hn & Hs). apply (Hm _ _ Hn); [by right|lia]. }
  pose proof (table_pages_ext m m' dir Htb) as Hpg.
  assert (Hpr : program_regions m' p = program_regions m p).
  { unfold program_regions. destruct (Z.eqb_spec (filetype p) PROCESS_FILETYPE_BINARY) as [Hf|Hf]; [done|].
    apply elf_regions_same; [apply (sp_image _ _ _ _ _ SP)|by apply space_not_binary|apply (sp_type _ _ _ _ _ SP)|by apply Himg]. }
  assert (image_ok m' p).
  { destruct (decide (filetype p = PROCESS_FILETYPE_BINARY)) as [Hf|Hf]; [intros Hf'; by rewrite Hf in Hf'|].
    apply (image_ok_same m); [intros _; by apply Himg|apply (sp_image _ _ _ _ _ SP)]. }
  assert (Hreg : regions m' p = regions m p) by (unfold regions; by rewrite Hpr).
  pose proof region_pages as Hrange. destruct SP. constructor; rewrite ?Hpg, ?Hpr, ?Hreg; try assumption.
  - intros r pg Hr Hin. rewrite Hp by (by apply (Hrange r pg)). by apply sp_leaf0.
  - intros pg Hpg0 Hno. rewrite Hp by done. by apply sp_rest0.
Qed.

(** Memory that is written in the allocations of the process only. *)
Lemma space_write m' :
  (forall q n, run h q n -> q ∉ alloc_ptrs (allocations p) -> same_on m m' q (q + 4096 * n)) -> space h m' chunk dir p.
Proof.
  intros Hm. pose proof (sp_dup _ _ _ _ _ SP) as Hd. apply NoDup_cons in Hd as [Hc Hd].
  apply NoDup_app in Hd as (_ & Ht & Hd). apply NoDup_cons in Hd as [_ Hd]. apply NoDup_app in Hd as (_ & Ho & _).
  assert (Halloc : forall q, q ∈ alloc_ptrs (allocations p) -> q ∈ own p).
  { intros q Hq. apply list_elem_of_further, elem_of_app. by right. }
  apply space_rewrite. intros q n Hq Hk. apply (Hm _ _ Hq). intros Hin. destruct Hk as [[->|Hk]%elem_of_cons|[Hf ->]].
  - apply Hc, elem_of_app. right. by apply Halloc.
  - apply (Ht q Hk). by apply Halloc.
  - apply (Ho (elf_memory (program_elf p))); [by apply image_program_own|done].
Qed.

Lemma space_mem m' : (forall q n, run h q n -> same_on m m' q (q + 4096 * n)) -> space h m' chunk dir p.
Proof. intros Hm. apply space_write. intros q n Hq _. by apply Hm. Qed.

(** ** One allocation more or less *)

Lemma elem_of_regions l r :
  r ∈ regions m (with_allocations l p) <->
  r ∈ stack_region p :: program_regions m p \/ exists a, r = alloc_region a /\ a ∈ filter taken l.
Proof.
  unfold regions. change (program_regions m (with_allocations l p)) with (program_regions m p).
  change (stack_region (with_allocations l p)) with (stack_region p). simpl.
  rewrite !elem_of_cons, elem_of_app, list_elem_of_fmap. tauto.
Qed.

Lemma elem_of_regions_p r :
  r ∈ regions m p <->
  r ∈ stack_region p :: program_regions m p \/ exists a, r = alloc_region a /\ a ∈ filter taken (allocations p).
Proof. unfold regions. rewrite !elem_of_cons, elem_of_app, list_elem_of_fmap. tauto. Qed.

Lemma own_with l : own (with_allocations l p) = proc_stack p :: program_own p ++ alloc_ptrs l.
Proof. done. Qed.

Lemma own_with_perm l l' ptr :
  alloc_ptrs l ≡ₚ ptr :: alloc_ptrs l' ->
  chunk :: table_pages m dir ++ own (with_allocations l p) ≡ₚ
  ptr :: chunk :: table_pages m dir ++ own (with_allocations l' p).
Proof.
  intros Hp. rewrite !own_with.
  assert (Hpre : forall x, chunk :: table_pages m dir ++ proc_stack p :: program_own p ++ x =
    (chunk :: table_pages m dir ++ proc_stack p :: program_own p) ++ x) by (intros x; simpl; by rewrite <- app_assoc).
  rewrite !Hpre, Hp. symmetry. apply Permutation_middle.
Qed.

(** The parts of the invariant that do not mention the allocations. *)
Lemma space_with m' upd l :
  pd_update m m' dir upd -> length l = length (allocations p) ->
  NoDup (chunk :: table_pages m dir ++ own (with_allocations l p)) ->
  (forall q, q ∈ alloc_ptrs l -> exists n, run h q n) ->
  (forall a, a ∈ l -> taken a -> 0 < alloc_size a < 2 ^ 32 /\ run h (alloc_ptr a) (blocks_for (alloc_size a))) ->
  (forall r pg, r ∈ regions m (with_allocations l p) -> in_region r pg -> pte m' dir pg = region_leaf r pg) ->
  (forall pg, 0 <= pg < 2 ^ 20 -> (forall r, r ∈ regions m (with_allocations l p) -> ~ in_region r pg) ->
     pte m' dir pg = Z.lor (pg * 4096) 3) ->
  space h m' chunk dir (with_allocations l p).
Proof.
  intros U Hlen Hdup Hrun Hal Hleaf Hrest. pose proof (update_keeps m' upd U) as K.
  pose proof (update_pages m' upd U) as Hpg. pose proof (keeps_program m' K) as Hpr.
  pose proof (keeps_image_ok m' K) as Him. pose proof (keeps_chunk m' K) as Hch.
  assert (Hreg : regions m' (with_allocations l p) = regions m (with_allocations l p)).
  { unfold regions. change (program_regions m' (with_allocations l p)) with (program_regions m' p). by rewrite Hpr. }
  destruct SP. constructor; rewrite ?Hpg, ?Hreg; try assumption.
  - apply U.
  - simpl. by rewrite Hlen.
  - intros q Hq. rewrite own_with in Hq.
    apply elem_of_cons in Hq as [->|[Hq|[->|[Hq|Hq]%elem_of_app]%elem_of_cons]%elem_of_app]; [| | | |by apply Hrun].
    all: apply sp_run0; rewrite elem_of_cons, elem_of_app; unfold own; rewrite elem_of_cons, elem_of_app; tauto.
  - change (program_regions m' (with_allocations l p)) with (program_regions m' p). rewrite Hpr.
    intros r Hr. destruct (sp_program0 r Hr). by constructor.
  - change (program_regions m' (with_allocations l p)) with (program_regions m' p). by rewrite Hpr.
Qed.

Lemma space_map ptr size (k : nat) old m' :
  heap_placed h -> run h ptr (blocks_for size) -> ptr ∉ chunk :: table_pages m dir ++ own p -> 0 < size < 2 ^ 32 ->
  allocations p !! k = Some old -> ~ taken old ->
  pd_update m m' dir (mapped ptr ptr (blocks_for size) 7) ->
  space h m' chunk dir (with_allocations (<[k := Allocation ptr size]> (allocations p)) p).
Proof.
  intros Hpl Hrun Hout Hs Hk Hold U. set (a := Allocation ptr size). set (l := <[k := a]> (allocations p)).
  pose proof (run_bounds _ _ _ Hrun) as Hb. assert (Ha : taken a) by (unfold taken; simpl; lia).
  pose proof (taken_insert _ k old a Hk Hold Ha) as Hperm. fold l in Hperm.
  assert (Hptrs : alloc_ptrs l ≡ₚ ptr :: alloc_ptrs (allocations p)) by (unfold alloc_ptrs; by rewrite Hperm).
  assert (Hpo : ptr ∉ own p). { intros Hin. apply Hout, list_elem_of_further, elem_of_app. by right. }
  assert (Helem : forall b, b ∈ filter taken l <-> b = a \/ b ∈ filter taken (allocations p)).
  { intros b. by rewrite Hperm, elem_of_cons. }
  assert (Hupd : forall r pg, r ∈ regions m p -> in_region r pg ->
    mapped ptr ptr (blocks_for size) 7 pg = None).
  { intros r pg Hr Hin. pose proof (space_foreign _ _ r pg Hpl Hrun Hpo Hr Hin). unfold mapped. case_Zb; simpl; (done || lia). }
  apply (space_with m' _ l U).
  - apply length_insert.
  - rewrite (own_with_perm _ (allocations p) ptr) by done. constructor; [done|exact (sp_dup _ _ _ _ _ SP)].
  - intros q. rewrite Hptrs. intros [->|Hq]%elem_of_cons; [by eauto|]. apply space_run_own.
    apply list_elem_of_further, elem_of_app. by right.
  - intros b Hin Ht. assert (b ∈ filter taken l) as [->|[_ Hin']%list_elem_of_filter]%Helem
      by (by apply list_elem_of_filter); [done|]. by apply (sp_alloc _ _ _ _ _ SP).
  - intros r pg [Hr|(b & -> & [->|Hb']%Helem)]%elem_of_regions Hin.
    + assert (Hrp : r ∈ regions m p) by (apply elem_of_regions_p; by left).
      rewrite (upd_leaf _ _ _ _ U), (Hupd r) by (done || by eapply region_pages). by apply (sp_leaf _ _ _ _ _ SP).
    + unfold in_region in Hin. simpl in Hin. rewrite (upd_leaf _ _ _ _ U) by lia. unfold mapped.
      rewrite (proj2 (Z.leb_le _ _)), (proj2 (Z.ltb_lt _ _)) by lia. done.
    + assert (Hrp : alloc_region b ∈ regions m p) by (apply elem_of_regions_p; right; eauto).
      rewrite (upd_leaf _ _ _ _ U), (Hupd (alloc_region b)) by (done || by eapply region_pages).
      by apply (sp_leaf _ _ _ _ _ SP).
  - intros pg Hpg Hno. rewrite (upd_leaf _ _ _ _ U) by done.
    assert (Hn : ~ in_region (alloc_region a) pg).
    { apply Hno, elem_of_regions. right. exists a. split; [done|]. apply Helem. by left. }
    unfold in_region in Hn. simpl in Hn. unfold mapped.
    destruct (_ && _) eqn:Hm; [apply andb_true_iff in Hm; lia|]. apply (sp_rest _ _ _ _ _ SP); [done|].
    intros r Hr. apply Hno, elem_of_regions. apply elem_of_regions_p in Hr as [?|(b & ? & ?)]; [by left|].
    right. exists b. split; [done|]. apply Helem. by right.
Qed.

Lemma space_ptrs_dup : NoDup (alloc_ptrs (allocations p)).
Proof.
  pose proof (sp_dup _ _ _ _ _ SP) as Hd. apply NoDup_cons in Hd as [_ Hd]. apply NoDup_app in Hd as (_ & _ & Hd).
  apply NoDup_cons in Hd as [_ Hd]. by apply NoDup_app in Hd as (_ & _ & Hd).
Qed.

Lemma length_unjoin l ptr : length (unjoin l ptr) = length l.
Proof. induction l as [|a l IH]; [done|]. simpl. by rewrite IH. Qed.

(** An allocation is identified by its address. *)
Lemma space_alloc_fun a b : a ∈ filter taken (allocations p) -> b ∈ filter taken (allocations p) ->
  alloc_ptr a = alloc_ptr b -> a = b.
Proof.
  intros Ha Hb E. apply list_elem_of_lookup in Ha as [i Hi]. apply list_elem_of_lookup in Hb as [j Hj].
  assert (i = j) as ->; [|congruence].
  apply (NoDup_lookup (alloc_ptrs (allocations p)) _ _ (alloc_ptr a) space_ptrs_dup); unfold alloc_ptrs;
    rewrite list_lookup_fmap; [by rewrite Hi|by rewrite Hj, E].
Qed.

Lemma space_unmap a m' :
  heap_placed h -> a ∈ filter taken (allocations p) ->
  pd_update m m' dir (mapped (alloc_ptr a) (alloc_ptr a) (blocks_for (alloc_size a)) 3) ->
  space h m' chunk dir (process_allocation_unjoin p (alloc_ptr a)).
Proof.
  intros Hpl Ha U. pose proof Ha as [Ht Hin]%list_elem_of_filter. destruct (sp_alloc _ _ _ _ _ SP a Hin Ht) as [Hs Hrun].
  pose proof (run_bounds _ _ _ Hrun) as Hb. set (l := unjoin (allocations p) (alloc_ptr a)).
  assert (Helem : forall b, b ∈ filter taken l <-> b ∈ filter taken (allocations p) /\ alloc_ptr b <> alloc_ptr a)
    by (intros b; by apply elem_of_unjoin).
  assert (Hptrs : alloc_ptrs (allocations p) ≡ₚ alloc_ptr a :: alloc_ptrs l)
    by (apply unjoin_ptrs; [done|apply space_ptrs_dup|by apply list_elem_of_fmap_2]).
  assert (Hold : forall r, r ∈ regions m (with_allocations l p) -> r ∈ regions m p).
  { intros r [Hr|(b & -> & [Hb' _]%Helem)]%elem_of_regions; apply elem_of_regions_p; [by left|right; eauto]. }
  assert (Hupd : forall r pg, r ∈ regions m (with_allocations l p) -> in_region r pg ->
    mapped (alloc_ptr a) (alloc_ptr a) (blocks_for (alloc_size a)) 3 pg = None).
  { intros r pg Hr Hpg. unfold mapped. destruct (_ && _) eqn:Hm; [|done]. exfalso.
    apply andb_true_iff in Hm as [Hm1%Z.leb_le Hm2%Z.ltb_lt]. unfold in_region in Hpg.
    destruct (region_place r (Hold r Hr)) as (Hv & Hva & Hplace).
    apply elem_of_regions in Hr as [Hr|(b & -> & [Hb' Hne]%Helem)].
    - assert (Hlow : rg_virt r + 4096 * rg_pages r <= RORTHOX_PROGRAM_VIRTUAL_ADDRESS_LIMIT).
      { apply elem_of_cons in Hr as [->|Hr]; [|apply (sp_program _ _ _ _ _ SP r Hr)].
        unfold RORTHOX_PROGRAM_VIRTUAL_ADDRESS_LIMIT, RORTHOX_PROGRAM_VIRTUAL_STACK_ADDRESS_END,
          RORTHOX_PROGRAM_VIRTUAL_STACK_ADDRESS_START, USER_PROGRAM_STACK_SIZE. simpl. done. }
      destruct Hpl as [Hfl _]. pose proof (run_arena _ _ _ Hrun) as [Hra _]. lia.
    - pose proof Hb' as [Htb Hinb]%list_elem_of_filter. destruct (sp_alloc _ _ _ _ _ SP b Hinb Htb) as [_ Hrunb].
      pose proof (run_bounds _ _ _ Hrunb). pose proof (run_apart _ _ _ _ _ Hrunb Hrun Hne) as Hap. unfold apart in Hap.
      simpl in *. lia. }
  pose proof (own_with_perm _ _ _ Hptrs) as Hperm.
  apply (space_with m' _ l U).
  - apply length_unjoin.
  - pose proof (sp_dup _ _ _ _ _ SP) as Hd.
    assert (own (with_allocations (allocations p) p) = own p) as Hown by done. rewrite Hown in Hperm.
    rewrite Hperm in Hd. by apply NoDup_cons in Hd as [_ Hd].
  - intros q Hq. apply space_run_own, list_elem_of_further, elem_of_app. right. rewrite Hptrs. by apply list_elem_of_further.
  - intros b Hinb Htb. assert (b ∈ filter taken l) as [[_ Hb']%list_elem_of_filter _]%Helem
      by (by apply list_elem_of_filter). by apply (sp_alloc _ _ _ _ _ SP).
  - intros r pg Hr Hpg. rewrite (upd_leaf _ _ _ _ U), (Hupd r) by (done || by eapply region_pages; [apply Hold|]).
    apply (sp_leaf _ _ _ _ _ SP); [by apply Hold|done].
  - intros pg Hpg Hno. rewrite (upd_leaf _ _ _ _ U) by done. unfold mapped. destruct (_ && _) eqn:Hm.
    + simpl. f_equal. lia.
    + apply (sp_rest _ _ _ _ _ SP); [done|]. intros r Hr Hpr. apply elem_of_regions_p in Hr as [Hr|(b & -> & Hb')].
      * apply (Hno r); [|done]. apply elem_of_regions. by left.
      * destruct (decide (alloc_ptr b = alloc_ptr a)) as [E|E].
        { rewrite (space_alloc_fun b a Hb' Ha E) in Hpr. unfold in_region in Hpr. simpl in Hpr.
          rewrite andb_false_iff, Z.leb_gt, Z.ltb_ge in Hm. lia. }
        apply (Hno (alloc_region b)); [|done]. apply elem_of_regions. right. exists b. split; [done|]. by apply Helem.
Qed.
End one.
End space.

(** ** process_malloc and process_free *)

Lemma align_address_end ptr size :
  0 < ptr -> ptr mod 4096 = 0 -> 0 < size -> ptr + 4096 * blocks_for size < 2 ^ 32 ->
  paging_align_address (u32 (ptr + size)) = ptr + 4096 * blocks_for size.
Proof.
  unfold blocks_for. intros Hp Ha Hs He. rewrite u32_small by lia. unfold paging_align_address, PAGING_PAGE_SIZE.
  destruct (Z.eqb_spec ((ptr + size) mod 4096) 0); cbn [negb]; [lia|]. rewrite u32_small by lia. lia.
Qed.

Section operations.
Context {D H : Type} `{BlockDevice D} `{AllocatorLaws H}.
Context (A : gmap Z Z) (h0 : H) (cur chunk : Z).
Implicit Types (k : kern D H) (p : proc).

Lemma placed_owned h l h' : heap_placed h -> owned_by (fun _ => True) A h0 l h -> owned_by (fun _ => True) A h0 l h' -> heap_placed h'.
Proof. intros [? ?] [Ha _] [Ha' _]. unfold heap_placed. rewrite (capacity_arena h' h) by congruence. by rewrite Ha', <- Ha. Qed.

Lemma placed_arena (h h' : H) : arena h' = arena h -> heap_placed h -> heap_placed h'.
Proof. intros Ha. unfold heap_placed. by rewrite (capacity_arena h' h Ha), Ha. Qed.

(** Mapping an allocation of the process to itself. *)
Lemma map_to_ok k dir p ptr size flags :
  space (kheap k) (kmem k) chunk dir p -> heap_placed (kheap k) -> dir <> cur -> 0 <= flags < 4096 -> 0 < size ->
  run (kheap k) ptr (blocks_for size) ->
  exists m', map_to cur chunk ptr ptr (paging_align_address (u32 (ptr + size))) flags k = (0, with_kmem m' k) /\
    pd_update (kmem k) m' dir (mapped ptr ptr (blocks_for size) flags).
Proof.
  intros SP [_ Hhi] Hcur Hf Hs Hrun. pose proof (run_bounds _ _ _ Hrun) as Hb. pose proof (run_arena _ _ _ Hrun) as [_ Hhi'].
  rewrite align_address_end by lia.
  destruct (paging_map_to_ok cur (kmem k) chunk dir ptr ptr (ptr + 4096 * blocks_for size) flags) as (m' & E & U);
    [apply (sp_wf _ _ _ _ _ SP)|by eapply space_chunk_ok|done || lia..|].
  exists m'. unfold map_to. rewrite E. split; [done|].
  by replace ((ptr + 4096 * blocks_for size - ptr) / 4096) with (blocks_for size) in U by lia.
Qed.

Lemma keeps_trans (h : H) m m1 m2 dir :
  (forall q n, run h q n -> same_on m m1 q (q + 4096 * n)) -> table_pages m1 dir = table_pages m dir ->
  keeps h m1 m2 dir -> keeps h m m2 dir.
Proof. intros Hs Ht K q n Hq Hn. eapply same_on_trans; [by apply Hs|]. apply K; [done|]. by rewrite Ht. Qed.

Lemma keeps_mono (h h' : H) m m' dir : (forall q n, run h q n -> run h' q n) -> keeps h' m m' dir -> keeps h m m' dir.
Proof. intros Hh K q n Hq. by apply K, Hh. Qed.

(** Why there is no memory: the size, the heap, or the number of allocations. *)
Definition malloc_refused k p (size : Z) : Prop :=
  size = 0 \/ UINT32_MAX - (PAGING_PAGE_SIZE - 1) < size \/ fst (kalloc (4096 * blocks_for size) k) = 0 \/
  Forall taken (allocations p).

(** What has become of the process and of memory. *)
Record malloc_done (l : list Z) k k' (dir : Z) p p' (size r : Z) : Prop := {
  md_only : heap_only k k';
  md_keeps : keeps (kheap k) (kmem k) (kmem k') dir;
  md_pages : table_pages (kmem k') dir = table_pages (kmem k) dir;
  md_space : space (kheap k') (kmem k') chunk dir p';
  md_placed : heap_placed (kheap k');
  md_result : (r = 0 /\ p' = p /\ kheap k' = kheap k /\ malloc_refused k p size) \/
    (0 < r /\ 0 < size /\ kowns A h0 (r :: l) k' /\ run (kheap k') r (blocks_for size) /\
     (forall q n, run (kheap k) q n -> run (kheap k') q n /\ apart r (blocks_for size) q n) /\
     (forall a, r <= a < r + 4096 * blocks_for size -> load8 (kmem k') a = 0) /\
     exists (i : nat) old, allocations p !! i = Some old /\ ~ taken old /\
       p' = with_allocations (<[i := Allocation r size]> (allocations p)) p)
}.

Lemma kalloc_u32 size k : kalloc (u32 size) k = kalloc size k.
Proof. unfold kalloc. by rewrite (u32_small (u32 size)) by apply u32_range. Qed.


(** The state after a failure that has given the new memory back. *)
Lemma malloc_undone l k k1 dir p size :
  space (kheap k) (kmem k) chunk dir p -> heap_placed (kheap k) -> malloc_refused k p size ->
  heap_only k k1 -> kheap k1 = kheap k -> (forall q n, run (kheap k) q n -> same_on (kmem k) (kmem k1) q (q + 4096 * n)) ->
  malloc_done l k k1 dir p p size 0.
Proof.
  intros SP Hpl Hr Ho Hh Hs. pose proof (space_mem _ _ _ _ _ SP _ Hs) as SP1.
  constructor; rewrite ?Hh; [done|by intros q n Hq _; apply Hs|eapply space_pages_same; [exact SP|intros q n Hq _; by apply Hs]|done|done|by left].
Qed.

Lemma round_pages size :
  0 < size <= UINT32_MAX - (PAGING_PAGE_SIZE - 1) ->
  let n := u32 ((size + PAGING_PAGE_SIZE - 1) / PAGING_PAGE_SIZE * PAGING_PAGE_SIZE) in
  n = 4096 * blocks_for size /\ blocks_for n = blocks_for size.
Proof.
  unfold UINT32_MAX, PAGING_PAGE_SIZE, blocks_for. intros Hs. cbv zeta. rewrite !u32_small by lia. lia.
Qed.

Lemma process_malloc_spec l k dir p size :
  space (kheap k) (kmem k) chunk dir p -> heap_placed (kheap k) -> dir <> cur -> 0 <= size < 2 ^ 32 -> kowns A h0 l k ->
  exists r p' k', process_malloc cur chunk size (p, k) = (Ok r, (p', k')) /\ malloc_done l k k' dir p p' size r.
Proof.
  intros SP Hpl Hcur Hsz Ho. destruct (owned_live _ _ _ _ _ Ho) as [B Hl].
  assert (Hsame : malloc_refused k p size -> malloc_done l k k dir p p size 0) 
    by (intros Hr; apply malloc_undone; [done|done|done|reflexivity|done|intros; apply same_on_refl]).
  unfold process_malloc, process_zalloc_user. destruct (_ || _) eqn:Hg.
  { exists 0, p, k. split; [done|]. apply Hsame. unfold malloc_refused. apply orb_true_iff in Hg as [?%Z.eqb_eq|?%Z.ltb_lt]; tauto. }
  apply orb_false_iff in Hg as [Hz%Z.eqb_neq Hmax%Z.ltb_ge].
  destruct (round_pages size ltac:(lia)) as [Hn Hbl]. set (n := _ * _) in *.
  destruct (kalloc n k) as [ptr k1] eqn:Ek.
  assert (Ho1 : kowns B (kheap k) [] k) by (by apply owned_nil).
  destruct (kalloc_spec _ _ _ _ _ _ _ Ho Ek) as [Hh [[-> ->]|(Hp & Hown & Hm & Hrun & Hold)]].
  { exists 0, p, k. split; [done|]. apply Hsame. do 2 right. left. rewrite <- Hn, kalloc_u32. by rewrite Ek. }
  destruct (kalloc_spec _ _ _ _ _ _ _ Ho1 Ek) as [_ [[? _]|(_ & Hown1 & _)]]; [done|].
  rewrite Hbl in Hrun, Hold. pose proof (run_bounds _ _ _ Hrun) as Hb. rewrite (proj2 (Z.eqb_neq ptr 0)) by done.
  assert (Hs1 : forall q c, run (kheap k) q c -> same_on (kmem k) (kmem k1) q (q + 4096 * c)).
  { intros q c Hq. destruct (Hold q c Hq) as [_ Hap]. rewrite Hm, Hn. apply same_on_memset; [lia|]. unfold apart in Hap. lia. }
  destruct (find_allocation_spec (allocations p) 0 0) as [[Hf Hall]|(i & old & Hf & Hi & Hold0)];
    unfold process_find_free_allocation_index; rewrite Hf.
  { change (- ENOMEM <? 0) with true. cbv iota. exists 0, p, (krelease ptr k1). split; [done|].
    apply malloc_undone; [done|done| | | |exact Hs1].
    - do 3 right. by apply Forall_forall.
    - etrans; [exact Hh|]. apply krelease_only.
    - eapply owned_done, krelease_owns. exact Hown1. }
  rewrite Z.add_0_l. rewrite (proj2 (Z.ltb_ge (Z.of_nat i) 0)) by lia.
  assert (SP1 : space (kheap k1) (kmem k1) chunk dir p).
  { apply (space_heap (kheap k) (kmem k1) chunk dir p); [by apply (space_mem _ (kmem k))|]. intros q c _ Hq. by apply Hold. }
  assert (Hpl1 : heap_placed (kheap k1)).
  { apply (placed_arena (kheap k)); [|done]. destruct Hown as [Ha _], Ho as [Ha' _]. congruence. }
  change (Z.lor (Z.lor PAGING_IS_WRITEABLE PAGING_IS_PRESENT) PAGING_ACCESS_FROM_ALL) with 7.
  destruct (map_to_ok k1 dir p ptr size 7 SP1 Hpl1 Hcur ltac:(lia) ltac:(lia) Hrun) as (m' & -> & U).
  change (0 <? 0) with false. cbv iota. rewrite Nat2Z.id. eexists ptr, _, (with_kmem m' k1). split; [done|].
  assert (Hnt : ~ taken old) by (unfold taken; lia).
  pose proof (space_pages_same _ _ _ _ _ SP (kmem k1) (fun q n Hq _ => Hs1 q n Hq)) as Hpg.
  assert (Hfresh : ptr ∉ chunk :: table_pages (kmem k1) dir ++ own p).
  { rewrite Hpg. intros Hin. destruct (sp_run _ _ _ _ _ SP ptr Hin) as [c Hc].
    destruct (Hold ptr c Hc) as [_ Hap]. pose proof (run_bounds _ _ _ Hc). unfold apart in Hap. lia. }
  assert (Hnp : ptr ∉ table_pages (kmem k1) dir).
  { intros Hin. apply Hfresh, list_elem_of_further, elem_of_app. by left. }
  pose proof (update_keeps _ _ _ _ _ SP1 _ _ U) as K1. constructor.
  - done.
  - eapply keeps_trans; [exact Hs1|done|]. eapply keeps_mono; [|exact K1]. intros q c Hq. by apply Hold.
  - rewrite <- Hpg. by eapply update_pages.
  - apply (space_map _ _ _ _ _ SP1 ptr size i old); (done || lia).
  - done.
  - right. split; [lia|]. split; [lia|]. split; [exact Hown|]. split; [done|]. split; [done|]. split; [|by exists i, old].
    intros a Ha. change (load8 m' a = 0). rewrite (K1 ptr _ Hrun Hnp a Ha), Hm, memset_load8 by lia.
    by rewrite decide_True by lia.
Qed.

Record free_done (l : list Z) k k' (dir : Z) p p' (ptr : Z) : Prop := {
  fd_only : heap_only k k';
  fd_keeps : keeps (kheap k) (kmem k) (kmem k') dir;
  fd_pages : table_pages (kmem k') dir = table_pages (kmem k) dir;
  fd_space : space (kheap k') (kmem k') chunk dir p';
  fd_placed : heap_placed (kheap k');
  fd_owns : kowns A h0 l k';
  fd_runs q n : run (kheap k) q n -> q <> ptr -> run (kheap k') q n;
  fd_proc : p' = process_allocation_unjoin p ptr
}.

Lemma process_free_spec l k dir p a :
  space (kheap k) (kmem k) chunk dir p -> heap_placed (kheap k) -> dir <> cur -> a ∈ filter taken (allocations p) ->
  kowns A h0 (alloc_ptr a :: l) k ->
  exists p' k', process_free cur chunk (alloc_ptr a) (p, k) = (p', k') /\ free_done l k k' dir p p' (alloc_ptr a).
Proof.
  intros SP Hpl Hcur Ha Ho. pose proof Ha as [Ht Hin]%list_elem_of_filter.
  destruct (sp_alloc _ _ _ _ _ SP a Hin Ht) as [Hs Hrun].
  unfold process_free. rewrite (proj2 (Z.eqb_neq _ 0) Ht). unfold process_get_allocation_by_addr.
  pose proof (get_allocation_spec (allocations p) (alloc_ptr a)) as Hg.
  destruct (get_allocation (allocations p) (alloc_ptr a)) as [b|]; [|by destruct (Hg a Hin)].
  destruct Hg as [Hb Eb]. assert (b = a) as ->.
  { apply (space_alloc_fun _ _ _ _ _ SP); [|done..]. apply list_elem_of_filter. split; [|done]. unfold taken. by rewrite Eb. }
  change (Z.lor PAGING_IS_PRESENT PAGING_IS_WRITEABLE) with 3.
  destruct (map_to_ok k dir p (alloc_ptr a) (alloc_size a) 3 SP Hpl Hcur ltac:(lia) ltac:(lia) Hrun) as (m' & -> & U).
  change (0 <? 0) with false. cbv iota. eexists _, _. split; [done|].
  set (p' := process_allocation_unjoin p (alloc_ptr a)).
  pose proof (space_unmap _ _ _ _ _ SP a m' Hpl Ha U) as SP'. fold p' in SP'.
  assert (Hpg : table_pages m' dir = table_pages (kmem k) dir) by (by eapply update_pages).
  constructor; [by eexists|by eapply update_keeps|done| | |by apply krelease_owns| |done].
  - apply (space_heap _ _ _ _ _ SP'). intros q n Hq Hn. apply run_free; [done|]. intros ->.
    assert (Hptrs : alloc_ptrs (allocations p) ≡ₚ alloc_ptr a :: alloc_ptrs (allocations p')).
    { apply unjoin_ptrs; [done|by eapply space_ptrs_dup|by apply list_elem_of_fmap_2]. }
    pose proof (sp_dup _ _ _ _ _ SP) as Hd. change (own p) with (own (with_allocations (allocations p) p)) in Hd.
    rewrite (own_with_perm _ _ _ _ (allocations p) _ _ Hptrs) in Hd. apply NoDup_cons in Hd as [Hd _].
    apply Hd. simpl kmem in Hq. rewrite Hpg in Hq. exact Hq.
  - eapply placed_arena; [|exact Hpl]. apply arena_free.
  - intros q n Hq Hne. by apply run_free.
Qed.

(** Any other pointer is ignored. *)
Lemma process_free_other k p ptr :
  (forall a, a ∈ filter taken (allocations p) -> alloc_ptr a <> ptr) -> process_free cur chunk ptr (p, k) = (p, k).
Proof.
  intros Hn. unfold process_free. destruct (Z.eqb_spec ptr 0) as [->|Hp]; [done|].
  unfold process_get_allocation_by_addr. pose proof (get_allocation_spec (allocations p) ptr) as Hg.
  destruct (get_allocation (allocations p) ptr) as [b|]; [|done]. destruct Hg as [Hb <-].
  destruct (Hn b); [|done]. by apply list_elem_of_filter.
Qed.
End operations.

(** ** What a program reaches *)

Section reach.
Context `{AllocatorLaws H}.
Context (h : H) (m : mem) (chunk dir : Z) (p : proc).
Hypothesis SP : space h m chunk dir p.

(** The memory behind the regions. *)
Definition backing : list Z := map rg_phys (regions m p).

Lemma region_backed r :
  r ∈ regions m p -> rg_phys r ∈ user_memory p /\ (exists n, run h (rg_phys r) n /\ 0 <= rg_pages r <= n) /\
    rg_phys r mod 4096 = 0 /\ (rg_flags r = 5 \/ rg_flags r = 7).
Proof.
  intros Hr. assert (Hrun : rg_phys r ∈ user_memory p /\ (exists n, run h (rg_phys r) n /\ 0 <= rg_pages r <= n) /\
    (rg_flags r = 5 \/ rg_flags r = 7)).
  { apply elem_of_cons in Hr as [->|[Hr|Hr]%elem_of_app].
    - split; [apply list_elem_of_here|]. split; [|by right]. exists 4. split; [apply (sp_stack _ _ _ _ _ SP)|]. simpl. lia.
    - destruct (sp_program _ _ _ _ _ SP r Hr) as [_ _ Ho Hn Hf]. split; [|done].
      apply list_elem_of_further, elem_of_app. by left.
    - apply list_elem_of_fmap in Hr as (a & -> & Ha). pose proof Ha as [Ht Hin]%list_elem_of_filter.
      destruct (sp_alloc _ _ _ _ _ SP a Hin Ht) as [_ Hr]. pose proof (run_bounds _ _ _ Hr).
      split; [apply list_elem_of_further, elem_of_app; right; by apply (list_elem_of_fmap_2 alloc_ptr)|]. split; [|by right]. exists (blocks_for (alloc_size a)). split; [done|]. simpl. lia. }
  destruct Hrun as (Ho & (n & Hn & Hb) & Hf). split; [done|]. split; [by exists n|]. split; [|done].
  by destruct (run_bounds _ _ _ Hn) as (_ & ? & _).
Qed.

Lemma lor_page_flags f g : f mod 4096 = 0 -> 0 <= f < 2 ^ 32 -> 0 <= g < 4096 ->
  Z.land (Z.lor f g) FRAME_MASK = f /\ forall w, 0 <= w < 4096 -> Z.land (Z.lor f g) w = Z.land g w.
Proof.
  intros Hf Hr Hg. split.
  - rewrite (lor_add_disjoint _ _ 12) by lia. rewrite land_frame_mask by lia. lia.
  - intros w Hw. by rewrite Z.land_lor_distr_l, land_aligned_low, Z.lor_0_l.
Qed.

(** A user access goes through a region that grants it. *)
Lemma leaf_region write a x :
  0 <= a < 2 ^ 32 -> leaf_at m dir write a = Some x ->
  exists r n, r ∈ regions m p /\ in_region r (a / 4096) /\ run h (rg_phys r) n /\ rg_pages r <= n /\
    x = rg_phys r + (a - rg_virt r) /\ rg_phys r <= x < rg_phys r + 4096 * rg_pages r /\ (write = true -> rg_flags r = 7).
Proof.
  intros Ha Hl. unfold leaf_at in Hl.
  assert (Hdec : (exists r, r ∈ regions m p /\ in_region r (a / 4096)) \/
                 forall r, r ∈ regions m p -> ~ in_region r (a / 4096)).
  { assert (Hd : forall r, Decision (in_region r (a / 4096))) by (intros r; unfold in_region; apply _).
    destruct (decide (Exists (fun r => in_region r (a / 4096)) (regions m p))) as [He|He].
    - left. by apply Exists_exists in He.
    - right. intros r Hr Hin. apply He, Exists_exists. eauto. }
  destruct Hdec as [(r & Hr & Hin)|Hno].
  - destruct (region_backed r Hr) as (_ & (n & Hn & Hpn) & Hpa & Hfl). pose proof (run_bounds _ _ _ Hn).
    destruct (region_place _ _ _ _ _ SP r Hr) as (Hv & Hva & _). pose proof Hin as Hin'. unfold in_region in Hin'.
    rewrite (sp_leaf _ _ _ _ _ SP r _ Hr Hin) in Hl. unfold region_leaf in Hl.
    destruct (lor_page_flags (rg_phys r + (a / 4096 - rg_virt r / 4096) * 4096) (rg_flags r)) as [Hfr Hfw]; [lia..|].
    rewrite Hfr, Hfw in Hl by (destruct write; simpl; lia).
    destruct (Z.eqb_spec (Z.land (rg_flags r) (user_flags write)) (user_flags write)) as [E|E]; [|done].
    injection Hl as <-. exists r, n. split; [done|]. split; [done|]. split; [done|]. split; [lia|]. split; [lia|]. split; [lia|].
    intros ->. destruct Hfl as [Hfl|Hfl]; [|done]. by rewrite Hfl in E.
  - exfalso. rewrite (sp_rest _ _ _ _ _ SP (a / 4096) ltac:(lia) Hno) in Hl.
    destruct (lor_page_flags (a / 4096 * 4096) 3) as [_ Hfw]; [lia..|].
    rewrite Hfw in Hl by (destruct write; simpl; lia). by destruct write.
Qed.

Lemma backing_dup : NoDup backing.
Proof.
  unfold backing, regions. rewrite List.map_cons, List.map_app, List.map_map. pose proof (sp_dup _ _ _ _ _ SP) as Hd.
  apply NoDup_cons in Hd as [_ Hd]. apply NoDup_app in Hd as (_ & _ & Hd). unfold own in Hd.
  apply NoDup_cons in Hd as [Hs Hd]. apply NoDup_app in Hd as (_ & Hpa & Hal).
  assert (Hprog : forall q, q ∈ map rg_phys (program_regions m p) -> q ∈ program_own p).
  { intros q (r & -> & Hr)%list_elem_of_fmap. destruct (sp_program _ _ _ _ _ SP r Hr). by apply program_data_own. }
  change (map (fun x => rg_phys (alloc_region x)) (filter taken (allocations p))) with (alloc_ptrs (allocations p)).
  constructor.
  - intros [Hq|Hq]%elem_of_app; apply Hs, elem_of_app; [left; by apply Hprog|by right].
  - apply NoDup_app. split; [apply (sp_program_dup _ _ _ _ _ SP)|]. split; [|done].
    intros q Hq Hq'. by apply (Hpa q); [apply Hprog|].
Qed.

Lemma backing_fun r r' : r ∈ regions m p -> r' ∈ regions m p -> rg_phys r = rg_phys r' -> r = r'.
Proof.
  intros Hr Hr' E. apply list_elem_of_lookup in Hr as [i Hi]. apply list_elem_of_lookup in Hr' as [j Hj].
  assert (i = j) as ->; [|congruence].
  apply (NoDup_lookup backing _ _ (rg_phys r) backing_dup); unfold backing; rewrite list_lookup_fmap;
    [by rewrite Hi|by rewrite Hj, E].
Qed.

(** Different addresses are different memory. *)
Lemma leaf_at_inj write a b x :
  0 <= a < 2 ^ 32 -> 0 <= b < 2 ^ 32 -> leaf_at m dir write a = Some x -> leaf_at m dir write b = Some x -> a = b.
Proof.
  intros Ha Hb Hla Hlb.
  destruct (leaf_region _ _ _ Ha Hla) as (r & n & Hr & _ & Hrun & Hpn & E & Hx & _).
  destruct (leaf_region _ _ _ Hb Hlb) as (r' & n' & Hr' & _ & Hrun' & Hpn' & E' & Hx' & _).
  destruct (decide (rg_phys r = rg_phys r')) as [Ep|Ep].
  - rewrite (backing_fun r r' Hr Hr' Ep) in E. lia.
  - pose proof (run_apart _ _ _ _ _ Hrun Hrun' Ep) as Hap. unfold apart in Hap. lia.
Qed.

(** The image of an ELF program is not behind a region. *)
Lemma user_not_kept q : q ∈ user_memory p -> q ∉ chunk :: table_pages m dir ++ program_kept p.
Proof.
  intros Hq. pose proof (sp_dup _ _ _ _ _ SP) as Hd. rewrite app_comm_cons in Hd |- *. apply NoDup_app in Hd as (_ & Hpt & Hd).
  intros [Hp|Hk]%elem_of_app; [by apply (Hpt q Hp), user_memory_own|]. unfold own in Hd. rewrite program_own_split in Hd.
  apply NoDup_cons in Hd as [Hs Hd]. apply elem_of_cons in Hq as [->|Hq]; [by apply Hs, elem_of_app; left; apply elem_of_app; left|].
  rewrite <- app_assoc in Hd. apply NoDup_app in Hd as (_ & Hd & _). by apply (Hd q).
Qed.

Lemma image_in_kept : filetype p <> PROCESS_FILETYPE_BINARY -> elf_memory (program_elf p) ∈ program_kept p.
Proof.
  intros Hf. destruct (sp_image_run _ _ _ _ _ SP Hf) as (n & Hn & _). pose proof (run_bounds _ _ _ Hn) as Hb.
  unfold program_kept. rewrite (proj2 (Z.eqb_neq _ _) Hf). apply list_elem_of_In, filter_In. split; [right; by left|].
  apply negb_true_iff, Z.eqb_neq. lia.
Qed.

Lemma image_not_backing : filetype p <> PROCESS_FILETYPE_BINARY -> elf_memory (program_elf p) ∉ backing.
Proof.
  intros Hf (r & E & Hr)%list_elem_of_fmap. apply (user_not_kept (rg_phys r)); [by apply region_backed|]. rewrite <- E.
  apply list_elem_of_further, elem_of_app. right. by apply image_in_kept.
Qed.
End reach.
