(* ===== verification/ProcLoad.v ===== *)
(** * Loading and ending a process (kernel/task/process.c)

    What the parts of a load do: the program is read into memory of its own, the directory maps the regions of the
    process, the arguments are copied to memory the process can read. A load that fails at any point
    restores the heap and the file layer; a load that succeeds establishes the invariant [space] of AddrSpace.v. *)

From stdpp Require Import base numbers list gmap.
From Stdlib Require Import ZArith Lia Sorted.
From S2P Require Import Prelude Alloc Heap Memory Paging Sched Effects Disk StrLib PathParser Fat FatWrite FatProps.
From S2P Require Import FatDir FatDirScan FatOpen FatMount Vfs Elf UserMem Process AddrSpace.

#[local] Set Default Goal Selector "!".

(** ** An open file and the heap *)

Section files.
Context {D H : Type} `{BlockDeviceLaws D} `{AllocatorLaws H} (F : filesystem D H) `{!FilesystemLaws F}.
Context (A : gmap Z Z) (v0 : vfs D H) (ks : kern D H).
Hypothesis V0 : vfs_ok F v0.
Hypothesis Hks : live (kheap ks) A.
Implicit Types k : kern D H.
Local Abbreviation kowns := (kowns A (kheap ks)).

(** The file of descriptor [fd], opened in the state [v0], is open, and [l] is owned beside it; the allocations
    of [ks] are unchanged. *)
Record busy (fd : Z) (l : list Z) k : Prop := Busy {
  bu_ok : vfs_ok F (kfiles k);
  bu_open : fopened F A (kheap ks) l v0 (kfiles k) fd;
  bu_stays : stays ks k
}.

Lemma busy_step fd l l' k k' :
  busy fd l k -> heap_only k k' -> stays ks k' -> (forall c, kowns (c ++ l) k -> kowns (c ++ l') k') -> busy fd l' k'.
Proof.
  intros [Bo Bf Bs] [h Hk] St Hc. constructor; [|by rewrite Hk; eapply fopened_heap; [|exact Bf]; intros c Hl;
    specialize (Hc c Hl); unfold Elf.kowns, kheap in Hc; by rewrite Hk in Hc|done].
  rewrite Hk. by apply vfs_ok_heap.
Qed.

Lemma busy_owns fd l k : busy fd l k -> exists c, kowns (c ++ l) k.
Proof. intros [_ [_ _ _ (a & p & cells & _ & _ & Ho)] _]. by exists (a :: cells). Qed.

Lemma busy_alloc fd l k size p k' :
  busy fd l k -> kalloc size k = (p, k') ->
  (p = 0 /\ k' = k) \/
  (p <> 0 /\ busy fd (p :: l) k' /\ run (kheap k') p (blocks_for (u32 size)) /\
   forall q n, run (kheap ks) q n -> apart p (blocks_for (u32 size)) q n).
Proof.
  intros B E. destruct (busy_owns _ _ _ B) as [c Hc]. pose proof (kalloc_stays _ _ _ _ _ _ _ Hc E) as St.
  destruct (kalloc_spec _ _ _ _ _ _ _ Hc E) as [Hh [?|(Hp & _ & _ & Hrun & Hold)]]; [by left|right].
  split; [done|]. split; [|split; [done|]].
  - eapply busy_step; [exact B|done|by etrans; [apply (bu_stays _ _ _ B)|]|]. intros c1 Hc1.
    destruct (kalloc_spec _ _ _ _ _ _ _ Hc1 E) as [_ [[? _]|(_ & Ho & _)]]; [done|].
    eapply owned_perm; [|reflexivity|exact Ho]. solve_Permutation.
  - intros q n Hq. destruct (bu_stays _ _ _ B q n Hq) as [Hq' _]. by apply Hold.
Qed.

(** What is owned is not among the allocations at the start. *)
Lemma owned_stays l k k' : kowns l k' -> stays ks k -> kmem k' = kmem k -> stays ks k'.
Proof.
  intros Ho St Hm q n Hq. split; [|rewrite Hm; by apply St]. destruct Hq as (B & HB & Hq).
  rewrite (live_fun _ _ _ HB Hks) in Hq. by eapply owned_old.
Qed.

Lemma busy_release fd l k p : busy fd (p :: l) k -> busy fd l (krelease p k).
Proof.
  intros B. assert (Hc : forall c, kowns (c ++ p :: l) k -> kowns (c ++ l) (krelease p k)).
  { intros c Hc. apply krelease_owns. eapply owned_perm; [|reflexivity|exact Hc]. solve_Permutation. }
  eapply busy_step; [exact B|apply krelease_only| |done]. destruct (busy_owns _ _ _ B) as [c Ho].
  eapply owned_stays; [by apply Hc|apply (bu_stays _ _ _ B)|done].
Qed.

Lemma busy_fread fd l k size n r v1 :
  busy fd l k -> fread size n fd (kfiles k) = (r, v1) ->
  busy fd l (Kern v1 (kmem k)) /\ heap (vol v1) = kheap k /\
  (0 <= size -> 0 <= n < 2 ^ 32 -> match r with Ok (_, bs) => Z.of_nat (length bs) <= size * n | Err e => e < 0 end).
Proof.
  intros [Bo Bf Bs] E. destruct (fread_spec F A _ _ _ _ _ _ _ _ _ V0 Bf Bo E) as (Fo & V1 & _ & Hh & Hlen).
  split; [|done]. constructor; [done|done|]. etrans; [exact Bs|]. intros q m Hq. split; [|apply same_on_refl].
  unfold kheap in *. simpl. by rewrite Hh.
Qed.

Lemma busy_fstat fd l k r v1 :
  busy fd l k -> fstat fd (kfiles k) = (r, v1) ->
  v1 = kfiles k /\ match r with Ok (n, _) => 0 <= n < 2 ^ 32 | Err e => e < 0 end.
Proof.
  intros [Bo Bf Bs] E. destruct (fopened_fd F A _ _ _ _ _ V0 Bf) as (_ & d & p & cells & Hg & _).
  split; [by eapply (fstat_state F)|]. unfold fstat, with_descriptor in E. rewrite io_gets, Hg in E.
  apply lift_inv in E as (s & E & _). apply stat_law in E as [_ Hn]. exact Hn.
Qed.

(** Closing the file. *)
Lemma busy_close fd l k r v1 :
  busy fd l k -> fclose fd (kfiles k) = (r, v1) ->
  vfs_ok F v1 /\ file_descriptors v1 = file_descriptors v0 /\ kowns l (Kern v1 (kmem k)) /\
  stays ks (Kern v1 (kmem k)) /\ forall q n, q ∈ l -> run (kheap k) q n -> run (heap (vol v1)) q n.
Proof.
  intros [Bo Bf Bs] E. destruct (fclose_ok F _ _ _ _ _ _ _ _ V0 Bf Bo E) as [V1 _].
  destruct (fclose_spec F _ _ _ _ _ _ V0 Bf) as (v1' & E' & Ht & Ho). rewrite E in E'. injection E' as _ <-.
  split; [done|]. split; [done|]. split; [exact Ho|]. split; [by eapply owned_stays|].
  intros q n Hq Hrun. eapply (fclose_runs F); [exact V0|exact Bf|exact E|exact Hrun|by left].
Qed.
End files.

(** ** The program *)

Section program.
Context {D H : Type} `{BlockDeviceLaws D} `{AllocatorLaws H} (F : filesystem D H) `{!FilesystemLaws F}.
Implicit Types (k : kern D H) (p : proc).

(** The program of the process is in memory. *)
Inductive program_loaded k p : Prop :=
  | binary_loaded :
    filetype p = PROCESS_FILETYPE_BINARY -> run (kheap k) (program_ptr p) (blocks_for (proc_size p)) ->
    0 < proc_size p <= RORTHOX_PROGRAM_VIRTUAL_ADDRESS_LIMIT - RORTHOX_PROGRAM_VIRTUAL_ADDRESS -> program_loaded k p
  | program_elf_loaded :
    filetype p = PROCESS_FILETYPE_ELF -> program_ptr p = file_addr (program_elf p) -> program_ptr p <> 0 ->
    elf_loaded (program_elf p) k -> program_loaded k p.

(** What loading the program has done, beginning with the allocations [A]. *)
Definition program_done (A : gmap Z Z) k k' p p' (r : result unit) : Prop :=
  restored F k k' /\
  match r with
  | Ok _ => (exists ft ptr f size, p' = with_program ft ptr f size p) /\ program_loaded k' p' /\
      kowns A (kheap k) (program_own p') k'
  | Err e => e < 0 /\ p' = p /\ kheap k' = kheap k
  end.

Lemma load_elf_spec filename p k A r p' k' :
  vfs_ok F (kfiles k) -> live (kheap k) A -> process_load_elf filename (p, k) = (r, (p', k')) ->
  program_done A k k' p p' r.
Proof.
  intros V Hl E. unfold process_load_elf in E. destruct (elf_load filename k) as [[f|e] k1] eqn:El;
    injection E as <- <- <-; destruct (elf_load_spec F _ _ _ _ _ V Hl El) as [R Hr]; (split; [done|]).
  - destruct Hr as (Hld & Hf & Ho & _). split; [by do 4 eexists|]. split; [by apply program_elf_loaded|exact Ho].
  - destruct Hr. done.
Qed.

(** The part behind the file's status. *)
Lemma read_binary_spec A ks v0 fd filesize p k r st' :
  vfs_ok F v0 -> live (kheap ks) A -> busy F A v0 ks fd [] k ->
  0 < filesize <= RORTHOX_PROGRAM_VIRTUAL_ADDRESS_LIMIT - RORTHOX_PROGRAM_VIRTUAL_ADDRESS ->
  read_binary fd filesize (p, k) = (r, st') ->
  match r with
  | Ok _ => exists ptr, fst st' = with_program PROCESS_FILETYPE_BINARY ptr (program_elf p) filesize p /\
      run (kheap (snd st')) ptr (blocks_for filesize) /\ busy F A v0 ks fd [ptr] (snd st')
  | Err e => e < 0 /\ fst st' = p /\ busy F A v0 ks fd [] (snd st')
  end.
Proof.
  intros V0 Hl B Hsz E. unfold RORTHOX_PROGRAM_VIRTUAL_ADDRESS_LIMIT, RORTHOX_PROGRAM_VIRTUAL_ADDRESS in Hsz.
  unfold read_binary, process_zalloc_user in E. unfold mbind at 1, io_bind at 1 in E.
  rewrite (proj2 (Z.eqb_neq filesize 0)), (proj2 (Z.ltb_ge _ _)) in E by (unfold UINT32_MAX, PAGING_PAGE_SIZE; lia).
  cbn [orb] in E. destruct (round_pages filesize) as [Hn Hbl]; [unfold UINT32_MAX, PAGING_PAGE_SIZE; lia|].
  destruct (kalloc _ k) as [ptr k1] eqn:Ek. rewrite io_fail_if in E.
  destruct (busy_alloc F A v0 ks _ _ _ _ _ _ B Ek) as [[-> ->]|(Hp & B1 & Hrun & Hap)]; [by injection E as <- <-|].
  rewrite (proj2 (Z.eqb_neq ptr 0)) in E by done. rewrite Hbl in Hrun, Hap. apply on_error_inv in E as (st2 & E & ->).
  apply io_bind_inv in E as [(e & E & ->)|(o & st3 & E & E2)].
  { apply attempt_inv in E as [(? & _ & [=])|(? & _ & [=])]. }
  assert (Hfr : exists v1, st3 = (p, Kern v1 (kmem k1)) /\ busy F A v0 ks fd [ptr] (Kern v1 (kmem k1)) /\ heap (vol v1) = kheap k1 /\
    forall n bs, o = Some (n, bs) -> Z.of_nat (length bs) <= filesize).
  { assert (Hf : exists x v1, fread filesize 1 fd (kfiles k1) = (x, v1) /\ st3 = (p, Kern v1 (kmem k1)) /\
      forall n bs, o = Some (n, bs) -> x = Ok (n, bs)).
    { unfold pfiles in E. unfold attempt in E. destruct (fread filesize 1 fd (kfiles k1)) as [x v1]. exists x, v1. split; [done|].
      destruct x; injection E as <- <-; (split; [done|]); intros ?? [=]; by subst. }
    destruct Hf as (x & v1 & Ef & -> & Ho). destruct (busy_fread F A v0 ks V0 _ _ _ _ _ _ _ B1 Ef) as (B2 & Hh & Hlen).
    exists v1. split; [done|]. split; [done|]. split; [done|]. intros n bs ->%Ho. specialize (Hlen ltac:(lia) ltac:(lia)). lia. }
  destruct Hfr as (v1 & -> & B2 & Hh & Hlen). destruct o as [[n bs]|].
  2:{ injection E2 as <- <-. split; [done|]. split; [done|]. by apply busy_release. }
  rewrite io_modify, io_fail_if in E2. specialize (Hlen _ _ eq_refl).
  assert (B3 : busy F A v0 ks fd [ptr] (with_kmem (store_bytes (kmem k1) ptr bs) (Kern v1 (kmem k1)))).
  { destruct B2 as [B21 B22 B23]. constructor; [done|done|].
    apply (store_stays ks (Kern v1 (kmem k1)) ptr (blocks_for filesize) ptr bs); [done..|lia|].
    unfold blocks_for. lia. }
  destruct (negb _); injection E2 as <- <-.
  - split; [done|]. split; [done|]. by apply busy_release.
  - exists ptr. split; [done|]. split; [|done]. unfold kheap in *. simpl. by rewrite Hh.
Qed.

Lemma load_binary_spec filename p k A r p' k' :
  vfs_ok F (kfiles k) -> live (kheap k) A -> process_load_binary filename (p, k) = (r, (p', k')) ->
  program_done A k k' p p' r.
Proof.
  intros V Hl E. unfold process_load_binary, fopen in E. unfold mbind at 1, io_bind at 1 in E.
  destruct (fopen_status filename [114] (kfiles k)) as [rf v2] eqn:Ef.
  destruct (fopen_status_spec F A _ _ _ _ _ V Hl Ef) as (_ & V2 & Hf). specialize (V2 eq_refl).
  assert (St : forall l v, owned_by (fun _ => True) A (kheap k) l (heap (vol v)) -> stays k (Kern v (kmem k))).
  { intros l v Hv. eapply (owned_stays A k Hl l k); [exact Hv|reflexivity|done]. }
  destruct rf as [fd|e].
  2:{ destruct Hf as [Ht Hof]. apply finally_inv in E as (st & E & Est). rewrite io_fail_if in E. injection E as <- <-.
      unfold pclose, pfiles in Est. cbn in Est. injection Est as -> ->. pose proof (owned_done _ _ _ _ Hof) as Hh.
      split; [|done]. constructor; [done|done|by eapply St]. }
  assert (B : busy F A (kfiles k) k fd [] (Kern v2 (kmem k))).
  { pose proof Hf as [_ _ _ (a & q & cells & _ & _ & Ho)]. constructor; [done|done|by eapply St]. }
  apply finally_inv in E as (st & E & Est). rewrite io_fail_if in E. pose proof (fo_fd _ _ _ _ _ _ _ Hf) as Hfd.
  rewrite (proj2 (Z.eqb_neq fd 0)) in E by lia.
  assert (Hmid : match r with
    | Ok _ => exists ptr filesize, fst st = with_program PROCESS_FILETYPE_BINARY ptr (program_elf p) filesize p /\
        0 < filesize <= RORTHOX_PROGRAM_VIRTUAL_ADDRESS_LIMIT - RORTHOX_PROGRAM_VIRTUAL_ADDRESS /\
        run (kheap (snd st)) ptr (blocks_for filesize) /\ busy F A (kfiles k) k fd [ptr] (snd st)
    | Err e => e < 0 /\ fst st = p /\ busy F A (kfiles k) k fd [] (snd st)
    end).
  { unfold pfiles in E. unfold mbind at 1, io_bind at 1 in E. destruct (fstat fd (kfiles (Kern v2 (kmem k)))) as [rs v3] eqn:Es.
    destruct (busy_fstat F A _ k V _ _ _ _ _ B Es) as [-> Hn]. destruct rs as [[n fl]|e]; [|injection E as <- <-; done].
    rewrite io_fail_if in E. destruct (_ || _) eqn:Hg; [injection E as <- <-; done|].
    apply orb_false_iff in Hg as [Hz%Z.eqb_neq Hmax%Z.ltb_ge].
    pose proof (read_binary_spec A k (kfiles k) fd n p (Kern v2 (kmem k)) r st V Hl B ltac:(lia) E) as Hr.
    destruct r; [|done]. destruct Hr as (ptr & ? & ? & ?). exists ptr, n. split; [done|]. split; [lia|done]. }
  clear E B. destruct st as [p1 k1]. unfold pclose, pfiles in Est. cbn [fst snd] in *.
  destruct (fclose fd (kfiles k1)) as [rc v3] eqn:Ec. injection Est as -> ->. destruct r as [u|e].
  - destruct Hmid as (ptr & filesize & -> & Hsz & Hrun & B). destruct (busy_close F A _ k V Hl _ _ _ _ _ B Ec) as (V3 & Ht & Ho & St3 & Hr).
    split; [by constructor|]. split; [by do 4 eexists|]. split; [|exact Ho]. apply binary_loaded; [done| |done].
    apply Hr; [apply list_elem_of_here|done].
  - destruct Hmid as (He & -> & B). destruct (busy_close F A _ k V Hl _ _ _ _ _ B Ec) as (V3 & Ht & Ho & St3 & Hr).
    split; [by constructor|]. split; [done|]. split; [done|]. by eapply owned_done.
Qed.

Lemma load_data_spec filename p k A r p' k' :
  vfs_ok F (kfiles k) -> live (kheap k) A -> process_load_data filename (p, k) = (r, (p', k')) ->
  program_done A k k' p p' r.
Proof.
  intros V Hl E. unfold process_load_data in E. destruct (process_load_elf filename (p, k)) as [[u|e] [p1 k1]] eqn:E1;
    apply (load_elf_spec _ _ _ _ _ _ _ V Hl) in E1.
  { injection E as <- <- <-. done. }
  destruct (Z.eqb_spec e (- EINFORMAT)) as [->|He]; [|injection E as <- <- <-; done].
  destruct E1 as ([V1 Ht St] & _ & -> & Hh). assert (Hl1 : live (kheap k1) A) by (by rewrite Hh).
  destruct (load_binary_spec _ _ _ _ _ _ _ V1 Hl1 E) as [[V2 Ht2 St2] Hr]. split; [|by rewrite Hh in Hr].
  constructor; [done|congruence|by etrans].
Qed.
End program.

(** ** Mapping regions *)

(** The directory maps the regions, and every other page to itself for the kernel. *)
Record maps (m : mem) (dir : Z) (rs : list region) : Prop := Maps {
  mp_wf : pd_wf m dir;
  mp_range r pg : r ∈ rs -> in_region r pg -> 0 <= pg < 2 ^ 20;
  mp_leaf r pg : r ∈ rs -> in_region r pg -> pte m dir pg = region_leaf r pg;
  mp_rest pg : 0 <= pg < 2 ^ 20 -> (forall r, r ∈ rs -> ~ in_region r pg) -> pte m dir pg = Z.lor (pg * 4096) 3
}.

Lemma maps_none m dir : identity_mapped m dir 3 -> maps m dir [].
Proof. intros [W I]. constructor; [done|by intros ?? ?%not_elem_of_nil..|]. intros pg Hpg _. by apply I. Qed.

Lemma maps_ext m dir rs rs' : (forall r, r ∈ rs <-> r ∈ rs') -> maps m dir rs -> maps m dir rs'.
Proof. intros He [W R L I]. constructor; [done|intros r pg Hr%He; by apply R|intros r pg Hr%He; by apply L|].
  intros pg Hpg Hno. apply I; [done|]. intros r Hr%He. by apply Hno. Qed.

(** A region that can be mapped beside others. *)
Record fits (r : region) (rs : list region) : Prop := Fits {
  ft_virt : 0 <= rg_virt r /\ rg_virt r mod 4096 = 0 /\ rg_virt r + 4096 * rg_pages r <= 2 ^ 32;
  ft_phys : 0 <= rg_phys r /\ rg_phys r mod 4096 = 0 /\ rg_phys r + 4096 * rg_pages r <= 2 ^ 32;
  ft_pages : 0 <= rg_pages r;
  ft_flags : 0 <= rg_flags r < 4096;
  ft_apart r' pg : r' ∈ rs -> in_region r' pg -> ~ in_region r pg
}.

Lemma maps_add m m' dir r rs :
  maps m dir rs -> fits r rs -> pd_update m m' dir (mapped (rg_virt r) (rg_phys r) (rg_pages r) (rg_flags r)) ->
  maps m' dir (r :: rs).
Proof.
  intros [W R L I] [Fv Fp Fn Ff Fa] U.
  assert (Hr : forall pg, in_region r pg -> 0 <= pg < 2 ^ 20) by (unfold in_region; lia).
  assert (Hm : forall pg, mapped (rg_virt r) (rg_phys r) (rg_pages r) (rg_flags r) pg =
    if decide (in_region r pg) then Some (region_leaf r pg) else None).
  { intros pg. unfold mapped, in_region, region_leaf. case_decide; case_Zb; (done || lia). }
  constructor.
  - apply U.
  - intros r' pg [->|Hin]%elem_of_cons; [apply Hr|by apply R].
  - intros r' pg [->|Hin]%elem_of_cons Hpg; rewrite (upd_leaf _ _ _ _ U), Hm by eauto.
    + by rewrite decide_True.
    + rewrite decide_False by (by eapply Fa). by apply L.
  - intros pg Hpg Hno. rewrite (upd_leaf _ _ _ _ U), Hm by done.
    rewrite decide_False by (apply Hno, list_elem_of_here). apply I; [done|]. intros r' Hr'. apply Hno. by apply list_elem_of_further.
Qed.

Section mapping.
Context {D H : Type} `{BlockDevice D} `{Allocator H}.
Context (cur chunk dir : Z) (m0 : mem).
Hypothesis Hcur : dir <> cur.
Implicit Types k : kern D H.

(** Since [m0] the regions have been mapped, and nothing else has changed. *)
Record mapping (m : mem) (rs : list region) : Prop := Mapping {
  mg_maps : maps m dir rs;
  mg_chunk : chunk_ok m chunk dir;
  mg_tables d : 0 <= d < 1024 -> table_of m dir d = table_of m0 dir d;
  mg_frame a : ~ in_pd m0 dir a -> load8 m a = load8 m0 a
}.

Lemma mapping_add k r rs :
  mapping (kmem k) rs -> fits r rs ->
  exists m', map_to cur chunk (rg_virt r) (rg_phys r) (rg_phys r + 4096 * rg_pages r) (rg_flags r) k = (0, with_kmem m' k) /\
    mapping m' (r :: rs).
Proof.
  intros [M C T Fr] Ft. pose proof Ft as [Fv Fp Fn Ff Fa].
  destruct (paging_map_to_ok cur (kmem k) chunk dir (rg_virt r) (rg_phys r) (rg_phys r + 4096 * rg_pages r) (rg_flags r))
    as (m' & E & U); [apply M|done|done || lia..|].
  replace ((rg_phys r + 4096 * rg_pages r - rg_phys r) / 4096) with (rg_pages r) in U by lia.
  exists m'. unfold map_to. rewrite E. split; [done|]. constructor.
  - by eapply maps_add.
  - by eapply chunk_ok_update.
  - intros d Hd. rewrite (upd_tables _ _ _ _ U) by done. by apply T.
  - intros a Ha. rewrite (upd_frame _ _ _ _ U); [by apply Fr|]. intros Hin. apply Ha.
    destruct Hin as [Hin|(d & Hd & Hin)]; [by left|]. right. exists d. rewrite <- (T d Hd). done.
Qed.
End mapping.

(** ** The address space of a new process *)

(** The headers that occupy memory are in ascending order. *)
Lemma sorted_before l : forall (i j : nat) a b,
  StronglySorted before (List.filter loaded l) -> l !! i = Some a -> l !! j = Some b -> (i < j)%nat ->
  loaded a = true -> loaded b = true -> before a b.
Proof.
  induction l as [|x l IH]; intros i j a b Hs Hi Hj Hij Ha Hb; [done|].
  destruct j as [|j]; [lia|]. cbn [List.filter] in Hs. destruct i as [|i].
  - injection Hi as ->. rewrite Ha in Hs. apply StronglySorted_inv in Hs as [_ Hall]. simpl in Hj.
    rewrite Forall_forall in Hall. apply Hall, list_elem_of_In, filter_In. split; [|done].
    apply list_elem_of_In. by eapply list_elem_of_lookup_2.
  - apply (IH i j); [|done..|lia|done|done]. destruct (loaded x); [|done]. by apply StronglySorted_inv in Hs as [Hs _].
Qed.

Lemma nonnull_lookup l : forall (i j : nat) q,
  NoDup (List.filter nonnull l) -> l !! i = Some q -> l !! j = Some q -> q <> 0 -> i = j.
Proof.
  assert (Hin : forall l (j : nat) q, l !! j = Some q -> q <> 0 -> q ∈ List.filter nonnull l).
  { clear. intros l j q Hj Hq. apply list_elem_of_In, filter_In. split; [apply list_elem_of_In; by eapply list_elem_of_lookup_2|].
    by apply negb_true_iff, Z.eqb_neq. }
  induction l as [|x l IH]; intros i j q Hn Hi Hj Hq; [done|]. cbn [List.filter] in Hn.
  assert (Hn' : NoDup (List.filter nonnull l)) by (destruct (nonnull x); [by apply NoDup_cons in Hn as [_ Hn]|done]).
  destruct i as [|i], j as [|j]; simpl in *; [done| | |f_equal; by eapply IH].
  all: simplify_eq; unfold nonnull at 1 in Hn; rewrite (proj2 (Z.eqb_neq q 0)) in Hn by done; apply NoDup_cons in Hn as [Hn _];
    destruct Hn; by eapply Hin.
Qed.

Section fresh.
Context {D H : Type} `{BlockDevice D} `{AllocatorLaws H}.
Context (cur chunk dir : Z) (k0 : kern D H) (p : proc).
Local Abbreviation h := (kheap k0).
Local Abbreviation m0 := (kmem k0).

(** A process with its program, its stack and a new directory. *)
Record prepared : Prop := Prepared {
  pp_cur : dir <> cur;
  pp_placed : heap_placed h;
  pp_program : program_loaded k0 p;
  pp_identity : identity_mapped m0 dir 3;
  pp_chunk : chunk_ok m0 chunk dir;
  pp_dup : NoDup (chunk :: table_pages m0 dir ++ own p);
  pp_run q : q ∈ chunk :: table_pages m0 dir ++ own p -> exists n, run h q n;
  pp_stack : run h (proc_stack p) 4;
  pp_alloc : allocations p = replicate (Z.to_nat RORTHOX_MAX_PROGRAM_ALLOCATIONS) (Allocation 0 0)
}.

Hypothesis P : prepared.

Lemma prepared_outside q n a : run h q n -> q ∈ own p -> q <= a < q + 4096 * n -> ~ in_pd m0 dir a.
Proof.
  intros Hq Hown Ha (x & Hx & Hin)%in_pd_pages. pose proof (pp_dup P) as Hd. apply NoDup_cons in Hd as [_ Hd].
  apply NoDup_app in Hd as (_ & Hd & _). destruct (pp_run P x) as [c Hc]; [apply list_elem_of_further, elem_of_app; by left|].
  pose proof (run_bounds _ _ _ Hc). assert (Hne : q <> x) by (intros ->; by apply (Hd x)).
  pose proof (run_apart _ _ _ _ _ Hq Hc Hne) as Hap. unfold apart in Hap. lia.
Qed.

(** A run of the heap can be the memory of a region below the heap. *)
Lemma fits_run r rs n :
  run h (rg_phys r) n -> 0 <= rg_pages r <= n -> 0 <= rg_virt r -> rg_virt r mod 4096 = 0 ->
  rg_virt r + 4096 * rg_pages r <= RORTHOX_PROGRAM_VIRTUAL_ADDRESS_LIMIT -> rg_flags r = 5 \/ rg_flags r = 7 ->
  (forall r' pg, r' ∈ rs -> in_region r' pg -> ~ in_region r pg) -> fits r rs.
Proof.
  unfold RORTHOX_PROGRAM_VIRTUAL_ADDRESS_LIMIT. intros Hrun Hn Hv Ha Hl Hf Hd. pose proof (run_bounds _ _ _ Hrun).
  constructor; [lia..|done].
Qed.

Lemma run_below q n : run h q n -> q + 4096 * n < 2 ^ 32.
Proof. intros Hq%run_arena. destruct (pp_placed P). lia. Qed.

Section elf.
Local Abbreviation f := (program_elf p).
Hypothesis Hft : filetype p = PROCESS_FILETYPE_ELF.

Lemma prepared_elf : program_ptr p <> 0 /\ elf_loaded f k0.
Proof. destruct (pp_program P) as [Hb _ _|_ _ Hp Hl]; [by rewrite Hft in Hb|done]. Qed.

Lemma prepared_count : length (segments f) = Z.to_nat (e_phnum (header_at m0 (elf_memory f))).
Proof.
  destruct prepared_elf as [_ [_ _ Hc _]]. rewrite Hc. unfold program_headers. by rewrite length_map, length_seq.
Qed.

Lemma prepared_header (i : nat) : (i < length (segments f))%nat ->
  program_headers m0 (elf_memory f) !! i = Some (elf_program_header m0 (elf_memory f) (Z.of_nat i)).
Proof.
  rewrite prepared_count. intros Hi. unfold program_headers. rewrite list_lookup_fmap, lookup_seq_lt by done. done.
Qed.

Lemma prepared_image : image_ok m0 p.
Proof.
  intros _ _. cbv zeta. destruct prepared_elf as [_ [(n & Hn & Hs) Hok Hc _]]. pose proof (run_bounds _ _ _ Hn).
  destruct (eo_table _ _ Hok) as (Hp & Ho & Hend). unfold sizeof_elf_header, sizeof_elf32_phdr in *.
  rewrite prepared_count. lia.
Qed.

(** The image is not touched by mapping. *)
Lemma mapping_image m rs : mapping chunk dir m0 m rs ->
  same_on m0 m (elf_memory f) (elf_memory f + in_memory_size f).
Proof.
  intros M a Ha. destruct prepared_elf as [_ [(n & Hn & Hs) _ _ _]]. pose proof (run_bounds _ _ _ Hn).
  apply (mg_frame _ _ _ _ _ M). apply (prepared_outside (elf_memory f) n); [done| |lia].
  apply list_elem_of_further, elem_of_app. left. unfold program_own. rewrite Hft.
  apply list_elem_of_In, filter_In. split; [right; by left|]. apply negb_true_iff, Z.eqb_neq. lia.
Qed.

(** The regions of the first [i] headers. *)
Definition elf_upto (i : nat) : list region :=
  omap (fun i => let ph := elf_program_header m0 (elf_memory f) (Z.of_nat i) in
                 if loaded ph then segment_region ph <$> segments f !! i else None) (seq 0 i).

Lemma elf_upto_elem i r :
  r ∈ elf_upto i <-> exists (j : nat) memory, (j < i)%nat /\ segments f !! j = Some memory /\
    let ph := elf_program_header m0 (elf_memory f) (Z.of_nat j) in loaded ph = true /\ r = segment_region ph memory.
Proof.
  unfold elf_upto. rewrite list_elem_of_omap. split.
  - intros (j & [_ Hj]%elem_of_seq & E). simpl in E. destruct (loaded _) eqn:Hl; [|done].
    apply fmap_Some in E as (q & Hq & ->). by exists j, q.
  - intros (j & q & Hj & Hq & Hl & ->). exists j. split; [apply elem_of_seq; lia|]. simpl. by rewrite Hl, Hq.
Qed.

(** What is known of a segment. *)
Lemma prepared_segment (i : nat) :
  (i < length (segments f))%nat -> let ph := elf_program_header m0 (elf_memory f) (Z.of_nat i) in loaded ph = true ->
  phdr_range ph /\ phdr_ok (in_memory_size f) ph /\
  exists memory, segments f !! i = Some memory /\ run h memory (end_page ph - first_page ph).
Proof.
  intros Hi ph Hl. pose proof (prepared_header i Hi) as Hp. destruct prepared_elf as [_ [_ Hok Hc Hs]]. split.
  - eapply Forall_lookup_1; [apply headers_range|exact Hp].
  - split; [eapply Forall_lookup_1; [apply (eo_phdrs _ _ Hok)|exact Hp]|].
    destruct (Hs i ph Hp Hl) as (q & Hq & Hr & _). by exists q.
Qed.

Lemma segment_fits (i : nat) ph memory :
  (i < length (segments f))%nat -> ph = elf_program_header m0 (elf_memory f) (Z.of_nat i) -> loaded ph = true ->
  segments f !! i = Some memory -> run h memory (end_page ph - first_page ph) ->
  fits (segment_region ph memory) (elf_upto i).
Proof.
  intros Hi -> Hl Hm Hrun. destruct (prepared_segment i Hi Hl) as (R & Hok & _). destruct (ok_window _ _ Hok Hl) as [Hlo Hhi].
  pose proof R as (_ & Hv & _ & _). set (ph := elf_program_header _ _ _) in *. pose proof (run_bounds _ _ _ Hrun).
  unfold RORTHOX_PROGRAM_VIRTUAL_ADDRESS, RORTHOX_PROGRAM_VIRTUAL_ADDRESS_LIMIT in *.
  apply (fits_run (segment_region ph memory) _ (end_page ph - first_page ph)); simpl; try done.
  - lia.
  - unfold first_page. lia.
  - lia.
  - unfold RORTHOX_PROGRAM_VIRTUAL_ADDRESS_LIMIT, end_page, first_page in *. lia.
  - destruct (has_flag _ _); [by right|by left].
  - intros r pg (j & q & Hj & Hq & Hlj & ->)%elf_upto_elem Hin Hin2. destruct prepared_elf as [_ [_ Hok' _ _]].
    assert (Hb : before (elf_program_header m0 (elf_memory f) (Z.of_nat j)) ph).
    { apply (sorted_before _ j i _ _ (eo_order _ _ Hok')); [apply prepared_header; lia|by apply prepared_header|done..]. }
    unfold before in Hb. unfold in_region in Hin, Hin2. simpl in *. lia.
Qed.

Lemma map_elf_loop_spec n : forall i res (k : kern D H),
  (i + n)%nat = length (segments f) -> kheap k = h -> mapping chunk dir m0 (kmem k) (elf_upto i) -> 0 <= res ->
  exists res' m', map_elf_loop cur chunk n i res f k = (res', with_kmem m' k) /\ 0 <= res' /\
    mapping chunk dir m0 m' (elf_upto (i + n)).
Proof.
  induction n as [|n IH]; intros i res k Hn Hh M Hres; cbn [map_elf_loop].
  { rewrite Nat.add_0_r. exists res, (kmem k). split; [by destruct k|done]. }
  assert (Hi : (i < length (segments f))%nat) by lia.
  rewrite (image_phdr m0 (kmem k)) by (apply prepared_image || by eapply mapping_image || apply prepared_elf || done).
  assert (Hup : elf_upto (S i) = elf_upto i ++ omap (fun i => let ph := elf_program_header m0 (elf_memory f) (Z.of_nat i) in
                 if loaded ph then segment_region ph <$> segments f !! i else None) [i]).
  { unfold elf_upto. by rewrite seq_S, omap_app. }
  set (ph := elf_program_header m0 (elf_memory f) (Z.of_nat i)) in *.
  replace (negb (p_type ph =? PT_LOAD) || (p_memsz ph =? 0)) with (negb (loaded ph))
    by (unfold loaded; by destruct (_ =? _), (_ =? _)).
  replace (i + S n)%nat with (S i + n)%nat in * by lia. simpl in Hup. fold ph in Hup.
  destruct (loaded ph) eqn:Hl; cbn [negb].
  2:{ apply IH; [done|done| |done]. by rewrite Hup, app_nil_r. }
  destruct (prepared_segment i Hi Hl) as (R & Hok & memory & Hm & Hrun). fold ph in R, Hok, Hrun.
  destruct (ok_window _ _ Hok Hl) as [Hlo Hhi]. pose proof R as (_ & Hv & _ & Hms). rewrite Hm in Hup. simpl in Hup.
  pose proof (segment_fits i ph memory Hi eq_refl Hl Hm Hrun) as Ft. pose proof (run_bounds _ _ _ Hrun) as Hb.
  pose proof (run_below _ _ Hrun) as Hbelow.
  destruct (mapping_add cur chunk dir m0 (pp_cur P) k _ _ M Ft) as (m' & E & M').
  assert (Hphys : elf_phdr_phys_address f i ph = memory + p_vaddr ph mod 4096).
  { unfold elf_phdr_phys_address. rewrite Hm, land_page by done. done. }
  assert (Hsz : 0 < p_memsz ph).
  { unfold loaded in Hl. apply andb_true_iff in Hl as [_ Hl]. apply negb_true_iff, Z.eqb_neq in Hl. lia. }
  rewrite Hphys. unfold paging_align_to_lower_page, PAGING_PAGE_SIZE.
  replace (memory + p_vaddr ph mod 4096 - (memory + p_vaddr ph mod 4096) mod 4096) with memory by lia.
  rewrite <- (Z.add_assoc memory), align_address_end by (unfold blocks_for, end_page, first_page in *; lia).
  replace (p_vaddr ph - p_vaddr ph mod 4096) with (first_page ph * 4096) by (unfold first_page; lia).
  replace (blocks_for (p_vaddr ph mod 4096 + p_memsz ph)) with (end_page ph - first_page ph)
    by (unfold blocks_for, end_page, first_page; lia).
  replace (if has_flag (p_flags ph) PF_W then _ else _) with (rg_flags (segment_region ph memory))
    by (simpl; by destruct (has_flag _ _)).
  simpl rg_virt in E. simpl rg_phys in E. simpl rg_pages in E. rewrite E. change (0 <? 0) with false. cbv iota.
  destruct (IH (S i) 0 (with_kmem m' k)) as (res' & m2 & E2 & Hr2 & M2); [done|done| |lia|].
  { destruct M' as [Mm Mc Mt Mf]. constructor; [|done..]. eapply maps_ext; [|exact Mm]. intros r.
    rewrite Hup, elem_of_app, elem_of_cons, list_elem_of_singleton. tauto. }
  exists res', m2. rewrite E2. by destruct k.
Qed.

Lemma elf_upto_regions m rs : mapping chunk dir m0 m rs -> program_regions m p = elf_upto (length (segments f)).
Proof.
  intros M. unfold program_regions. rewrite Hft. change (_ =? _) with false. cbv iota.
  rewrite (elf_regions_same m0) by (apply prepared_image || by eapply mapping_image || apply prepared_elf || done). done.
Qed.

Lemma elf_program_ok r : r ∈ elf_upto (length (segments f)) -> program_region_ok h p r.
Proof.
  intros (i & q & Hi & Hq & Hl & ->)%elf_upto_elem. destruct (prepared_segment i Hi Hl) as (R & Hok & memory & Hm & Hrun).
  rewrite Hq in Hm. injection Hm as <-. set (ph := elf_program_header _ _ _) in *. pose proof (run_bounds _ _ _ Hrun) as Hb.
  destruct (ok_window _ _ Hok Hl) as [Hlo Hhi].
  unfold RORTHOX_PROGRAM_VIRTUAL_ADDRESS, RORTHOX_PROGRAM_VIRTUAL_ADDRESS_LIMIT in *. constructor; simpl.
  - lia.
  - unfold RORTHOX_PROGRAM_VIRTUAL_ADDRESS, RORTHOX_PROGRAM_VIRTUAL_ADDRESS_LIMIT, end_page, first_page in *. lia.
  - unfold program_data. rewrite Hft. change (_ =? _) with false. cbv iota. apply list_elem_of_In, filter_In.
    split; [apply list_elem_of_In; by eapply list_elem_of_lookup_2|]. apply negb_true_iff, Z.eqb_neq. lia.
  - exists (end_page ph - first_page ph). split; [done|]. lia.
  - destruct (has_flag _ _); [by right|by left].
Qed.

(** The regions of the program use different memory. *)
Lemma elf_phys_dup i : (i <= length (segments f))%nat -> NoDup (map rg_phys (elf_upto i)).
Proof.
  intros Hi. assert (Hnd : NoDup (List.filter nonnull (segments f))).
  { pose proof (pp_dup P) as Hd. apply NoDup_cons in Hd as [_ Hd]. apply NoDup_app in Hd as (_ & _ & Hd).
    apply NoDup_cons in Hd as [_ Hd]. apply NoDup_app in Hd as (Hd & _ & _). unfold program_own in Hd. rewrite Hft in Hd.
    change (_ =? _) with false in Hd. cbv iota in Hd. unfold elf_cells in Hd.
    change (file_addr ?f :: ?a :: ?b :: ?l) with ([file_addr f; a; b] ++ l) in Hd. rewrite List.filter_app in Hd.
    by apply NoDup_app in Hd as (_ & _ & Hd). }
  induction i as [|i IH]; [apply NoDup_nil_2|]. unfold elf_upto. rewrite seq_S, omap_app. fold (elf_upto i).
  rewrite List.map_app. apply NoDup_app. split; [apply IH; lia|]. simpl. destruct (loaded _) eqn:Hl; [|split; [by intros ?? ?%not_elem_of_nil|apply NoDup_nil_2]].
  destruct (prepared_segment i Hi Hl) as (_ & _ & memory & Hm & Hrun). pose proof (run_bounds _ _ _ Hrun). rewrite Hm. simpl.
  split; [|apply NoDup_singleton]. intros x (r & -> & (j & q & Hj & Hq & _ & ->)%elf_upto_elem)%list_elem_of_fmap E%list_elem_of_singleton.
  simpl in E. subst q. assert (j = i); [|lia]. eapply nonnull_lookup; [exact Hnd|done..|lia].
Qed.
End elf.

Lemma prepared_mapping : mapping chunk dir m0 m0 [].
Proof. constructor; [apply maps_none, (pp_identity P)|apply (pp_chunk P)|done..]. Qed.

(** The program is mapped. *)
Lemma map_program_spec :
  exists res m', (if filetype p =? PROCESS_FILETYPE_ELF then process_map_elf cur chunk p k0 else process_map_binary cur chunk p k0)
      = (res, with_kmem m' k0) /\ 0 <= res /\
    mapping chunk dir m0 m' (program_regions m' p) /\ image_ok m' p /\
    (forall r, r ∈ program_regions m' p -> program_region_ok h p r) /\ NoDup (map rg_phys (program_regions m' p)).
Proof.
  destruct (pp_program P) as [Hft Hrun Hsz|Hft _ _ _].
  - pose proof (run_bounds _ _ _ Hrun) as Hb. pose proof (run_below _ _ Hrun) as Hbelow. rewrite Hft. change (_ =? _) with false. cbv iota.
    unfold process_map_binary. rewrite align_address_end by lia. set (r := Region RORTHOX_PROGRAM_VIRTUAL_ADDRESS (program_ptr p) (blocks_for (proc_size p)) 7).
    assert (Hreg : forall m, program_regions m p = [r]) by (intros m; unfold program_regions; by rewrite Hft).
    assert (Hok : program_region_ok h p r).
    { unfold RORTHOX_PROGRAM_VIRTUAL_ADDRESS_LIMIT, RORTHOX_PROGRAM_VIRTUAL_ADDRESS in Hsz. constructor; simpl; try done.
      - unfold RORTHOX_PROGRAM_VIRTUAL_ADDRESS, RORTHOX_PROGRAM_VIRTUAL_ADDRESS_LIMIT, blocks_for. lia.
      - unfold program_data. rewrite Hft. apply list_elem_of_here.
      - exists (blocks_for (proc_size p)). split; [done|]. lia.
      - by right. }
    destruct (mapping_add cur chunk dir m0 (pp_cur P) k0 r [] prepared_mapping) as (m' & E & M).
    { destruct Hok as [Hv Hw _ (n & Hn & Hp) Hf]. eapply fits_run; [exact Hn|done| |done|apply Hw|done|].
      - unfold RORTHOX_PROGRAM_VIRTUAL_ADDRESS in Hw. lia.
      - by intros r' pg Hr%not_elem_of_nil. }
    exists 0, m'. rewrite Hreg. split; [exact E|]. split; [done|]. split; [done|].
    split; [intros Hf; by rewrite Hft in Hf|]. split; [by intros r' ->%list_elem_of_singleton|apply NoDup_singleton].
  - rewrite Hft. change (_ =? _) with true. cbv iota. unfold process_map_elf. rewrite <- (prepared_count Hft).
    destruct (map_elf_loop_spec Hft (length (segments (program_elf p))) 0 0 k0 eq_refl eq_refl prepared_mapping ltac:(lia))
      as (res & m' & E & Hr & M). exists res, m'. cbn [Nat.add] in M.
    rewrite (elf_upto_regions Hft _ _ M). split; [exact E|]. split; [done|]. split; [done|].
    split; [eapply image_ok_same; [intros _; by eapply mapping_image|by apply prepared_image]|].
    split; [intros r; by apply elf_program_ok|by apply elf_phys_dup].
Qed.

Lemma prepared_none a : a ∈ allocations p -> ~ taken a.
Proof. rewrite (pp_alloc P). intros [-> _]%elem_of_replicate. by intros []. Qed.

Lemma prepared_filter : filter taken (allocations p) = [].
Proof.
  assert (Hf : Forall (fun a => ~ taken a) (allocations p)) by (apply Forall_forall; apply prepared_none).
  induction Hf as [|a l Ha _ IH]; [done|]. by rewrite filter_cons, decide_False.
Qed.

Lemma mapping_space m :
  mapping chunk dir m0 m (stack_region p :: program_regions m p) -> image_ok m p ->
  (forall r, r ∈ program_regions m p -> program_region_ok h p r) -> NoDup (map rg_phys (program_regions m p)) ->
  space h m chunk dir p.
Proof.
  intros [M [Hc _] T _] Him Hok Hdup. pose proof (table_pages_ext _ _ _ T) as Hpg.
  assert (Hreg : regions m p = stack_region p :: program_regions m p).
  { unfold regions. rewrite prepared_filter. simpl. by rewrite app_nil_r. }
  constructor; rewrite ?Hpg, ?Hreg; try assumption.
  - apply M.
  - destruct (pp_program P) as [Hf Hr _|Hf _ Hp _]; [|by split; [right|]]. split; [by left|].
    pose proof (run_bounds _ _ _ Hr). lia.
  - rewrite (pp_alloc P). apply length_replicate.
  - apply (pp_dup P).
  - apply (pp_run P).
  - apply (pp_stack P).
  - intros a Ha Ht. by destruct (prepared_none a Ha).
  - intros Hf. destruct (pp_program P) as [Hf' _ _|_ _ _ [Hi _ _ _]]; [done|]. exact Hi.
  - apply M.
  - apply M.
Qed.

(** The address space of a new process is complete. *)
Lemma process_map_memory_spec :
  exists m', process_map_memory cur chunk (p, k0) = (Ok tt, (p, with_kmem m' k0)) /\ space h m' chunk dir p /\
    keeps h m0 m' dir /\ table_pages m' dir = table_pages m0 dir.
Proof.
  destruct map_program_spec as (res & m1 & E & Hres & M1 & Him & Hok & Hdup). unfold process_map_memory.
  assert (Hft : (filetype p =? PROCESS_FILETYPE_ELF) || (filetype p =? PROCESS_FILETYPE_BINARY) = true)
    by (destruct (pp_program P) as [Hf _ _|Hf _ _ _]; by rewrite Hf).
  rewrite Hft. cbn [negb]. rewrite E, (proj2 (Z.ltb_ge res 0)) by done.
  pose proof (pp_stack P) as Hst. pose proof (run_bounds _ _ _ Hst) as Hb. pose proof (run_below _ _ Hst) as Hbelow.
  rewrite align_address_end by (done || unfold blocks_for, USER_PROGRAM_STACK_SIZE; lia).
  change (blocks_for USER_PROGRAM_STACK_SIZE) with 4.
  assert (Ft : fits (stack_region p) (program_regions m1 p)).
  { eapply fits_run; [exact Hst|simpl; lia|done|done|done|by right|]. intros r pg Hr Hin Hs.
    destruct (Hok r Hr) as [Hv Hw _ _ _]. unfold in_region in Hin, Hs. simpl in Hs. unfold RORTHOX_PROGRAM_VIRTUAL_STACK_ADDRESS_END,
      RORTHOX_PROGRAM_VIRTUAL_STACK_ADDRESS_START, USER_PROGRAM_STACK_SIZE, RORTHOX_PROGRAM_VIRTUAL_ADDRESS in *. lia. }
  destruct (mapping_add cur chunk dir m0 (pp_cur P) (with_kmem m1 k0) _ _ M1 Ft) as (m2 & E2 & M2).
  simpl in E2.
  change (Z.lor (Z.lor PAGING_IS_PRESENT PAGING_ACCESS_FROM_ALL) PAGING_IS_WRITEABLE) with 7. rewrite E2. change (0 <? 0) with false. cbv iota. exists m2. split; [by destruct k0|].
  assert (Hpr : program_regions m2 p = program_regions m1 p).
  { destruct (pp_program P) as [Hf _ _|Hf _ _ _].
    - unfold program_regions. by rewrite Hf.
    - by rewrite (elf_upto_regions Hf _ _ M1), (elf_upto_regions Hf _ _ M2). }
  split; [|split; [|apply table_pages_ext, M2]].
  - apply mapping_space; rewrite ?Hpr; try done. destruct (pp_program P) as [Hf _ _|Hf _ _ _].
    + intros Hf'. by rewrite Hf in Hf'.
    + eapply image_ok_same; [intros _; by eapply mapping_image|by apply prepared_image].
  - intros q n Hq Ht a Ha. apply (mg_frame _ _ _ _ _ M2). intros (x & Hx & Hin)%in_pd_pages.
    destruct (pp_run P x) as [c Hcr]; [apply list_elem_of_further, elem_of_app; by left|]. pose proof (run_bounds _ _ _ Hcr).
    assert (Hne : q <> x) by (by intros ->). pose proof (run_apart _ _ _ _ _ Hq Hcr Hne) as Hap. unfold apart in Hap. lia.
Qed.
End fresh.
