(* ===== verification/ProcArgs.v ===== *)
(** * Memory and arguments of a process (kernel/task/process.c)

    What [process_malloc] and [process_free] do to a process with its memory, and from that the copy of the command
    arguments: a success leaves the program an array of strings in memory of its own, a failure gives back
    everything that was allocated on the way. *)

From stdpp Require Import base numbers list gmap.
From Stdlib Require Import ZArith Lia.
From S2P Require Import Prelude Alloc Heap Memory Paging Sched Effects Disk StrLib PathParser Fat FatWrite FatProps.
From S2P Require Import FatDir FatDirScan FatOpen FatMount Vfs Elf UserMem Process AddrSpace.

#[local] Set Default Goal Selector "!".

(** The parts of the struct that the invariant is about. *)
Definition same_memory (p p' : proc) : Prop :=
  allocations p' = allocations p /\ filetype p' = filetype p /\ program_ptr p' = program_ptr p /\
  program_elf p' = program_elf p /\ proc_stack p' = proc_stack p /\ proc_size p' = proc_size p.

Section memory.
Context {D H : Type} `{BlockDevice D} `{AllocatorLaws H}.
Implicit Types (k : kern D H) (p : proc) (h : H).

Lemma space_proc h m chunk dir p p' : same_memory p p' -> space h m chunk dir p -> space h m chunk dir p'.
Proof.
  destruct p as [i1 fn1 t1 al1 ft1 pt1 el1 st1 sz1 kb1 ag1 hd1], p' as [i2 fn2 t2 al2 ft2 pt2 el2 st2 sz2 kb2 ag2 hd2].
  intros (E1 & E2 & E3 & E4 & E5 & E6). simpl in *. subst. intros SP. destruct SP. constructor; try assumption.
  intros r Hr. destruct (sp_program r Hr). by constructor.
Qed.

Context (A : gmap Z Z) (h0 : H) (cur chunk dir : Z) (l : list Z).
Hypothesis Hcur : dir <> cur.

(** The process owns what it has allocated; [l] is owned beside it. *)
Record holds p k : Prop := Holds {
  hd_space : space (kheap k) (kmem k) chunk dir p;
  hd_placed : heap_placed (kheap k);
  hd_owns : kowns A h0 (alloc_ptrs (allocations p) ++ l) k
}.

(** The runs that satisfy [P] are kept, and so is their memory but for the tables. *)
Record steps (P : Z -> Prop) k k' : Prop := Steps {
  st_only : heap_only k k';
  st_keeps q n : run (kheap k) q n -> P q -> q ∉ table_pages (kmem k) dir -> same_on (kmem k) (kmem k') q (q + 4096 * n);
  st_pages : table_pages (kmem k') dir = table_pages (kmem k) dir;
  st_runs q n : run (kheap k) q n -> P q -> run (kheap k') q n
}.

Lemma steps_refl P k : steps P k k.
Proof. constructor; [reflexivity|intros q n _ _ _; apply same_on_refl|done..]. Qed.

Lemma steps_trans (P1 P2 P : Z -> Prop) k1 k2 k3 :
  steps P1 k1 k2 -> steps P2 k2 k3 -> (forall q n, run (kheap k1) q n -> P q -> P1 q /\ P2 q) -> steps P k1 k3.
Proof.
  intros [O1 K1 T1 R1] [O2 K2 T2 R2] HP. constructor; [by etrans| |by rewrite T2|].
  - intros q n Hq Hp Ht. destruct (HP q n Hq Hp). eapply same_on_trans; [by apply K1|]. apply K2; [by apply R1|done|by rewrite T1].
  - intros q n Hq Hp. destruct (HP q n Hq Hp). apply R2; [by apply R1|done].
Qed.

(** A new allocation, or none and nothing changed. *)
Lemma holds_malloc p k size :
  holds p k -> 0 <= size < 2 ^ 32 ->
  exists r p' k', process_malloc cur chunk size (p, k) = (Ok r, (p', k')) /\ holds p' k' /\ steps (fun _ => True) k k' /\
    ((r = 0 /\ p' = p /\ kheap k' = kheap k /\ malloc_refused k p size) \/
     (0 < r /\ 0 < size /\ run (kheap k') r (blocks_for size) /\
      (forall q n, run (kheap k) q n -> apart r (blocks_for size) q n) /\
      (forall a, r <= a < r + 4096 * blocks_for size -> load8 (kmem k') a = 0) /\
      alloc_ptrs (allocations p') ≡ₚ r :: alloc_ptrs (allocations p) /\
      Allocation r size ∈ allocations p' /\ p' = with_allocations (allocations p') p)).
Proof.
  intros [SP Hpl Ho] Hs. destruct (process_malloc_spec A h0 cur chunk _ k dir p size SP Hpl Hcur Hs Ho) as (r & p' & k' & E & [O K T SP' Hpl' Hr]).
  exists r, p', k'. split; [done|]. destruct Hr as [(-> & -> & Hh & Href)|(Hpos & Hs0 & Ho' & Hrun & Hold & Hz & i & old & Hi & Hnt & ->)].
  - split; [constructor; [done..|]; unfold kowns; by rewrite Hh|]. split; [constructor; try done; [intros q n Hq _; by apply K|intros q n Hq _; by rewrite Hh]|].
    left. done.
  - assert (Ht : taken (Allocation r size)) by (unfold taken; simpl; lia).
    assert (Hptrs : alloc_ptrs (<[i := Allocation r size]> (allocations p)) ≡ₚ r :: alloc_ptrs (allocations p)).
    { unfold alloc_ptrs. rewrite (taken_insert _ _ _ _ Hi Hnt Ht). done. }
    split; [constructor; [done..|]|].
    { unfold kowns in *. eapply owned_perm; [|reflexivity|exact Ho']. simpl. by rewrite Hptrs. }
    split; [constructor; try done; [intros q n Hq _; by apply K|intros q n Hq _; by apply Hold]|]. right. split; [done|]. split; [done|]. split; [done|].
    split; [intros q n Hq; by apply Hold|]. split; [done|]. split; [done|]. split; [|done].
    apply list_elem_of_lookup. exists i. apply list_lookup_insert_eq. by eapply lookup_lt_Some.
Qed.

(** An allocation is given back. *)
Lemma holds_free p k ptr :
  holds p k -> ptr ∈ alloc_ptrs (allocations p) ->
  exists p' k', process_free cur chunk ptr (p, k) = (p', k') /\ holds p' k' /\ steps (fun q => q <> ptr) k k' /\
    alloc_ptrs (allocations p) ≡ₚ ptr :: alloc_ptrs (allocations p') /\ p' = process_allocation_unjoin p ptr.
Proof.
  intros [SP Hpl Ho] Hin. apply list_elem_of_fmap in Hin as (a & -> & Ha). pose proof Ha as [Ht _]%list_elem_of_filter.
  assert (Hptrs : alloc_ptrs (allocations p) ≡ₚ alloc_ptr a :: alloc_ptrs (unjoin (allocations p) (alloc_ptr a))).
  { apply unjoin_ptrs; [done|by eapply space_ptrs_dup|by apply list_elem_of_fmap_2]. }
  destruct (process_free_spec A h0 cur chunk (alloc_ptrs (unjoin (allocations p) (alloc_ptr a)) ++ l) k dir p a SP Hpl Hcur Ha)
    as (p' & k' & E & [O K T SP' Hpl' Ho' Hr ->]).
  { unfold kowns in *. eapply owned_perm; [|reflexivity|exact Ho]. by rewrite Hptrs. }
  eexists _, k'. split; [exact E|]. split; [by constructor|]. split; [constructor; try done; intros q n Hq _; by apply K|].
  split; [exact Hptrs|done].
Qed.

(** Every allocation is given back. *)
Lemma unjoin_lookup al ptr (j : nat) :
  unjoin al ptr !! j = (fun a => if alloc_ptr a =? ptr then Allocation 0 0 else a) <$> al !! j.
Proof. revert j. induction al as [|a al IH]; intros [|j]; try done. apply IH. Qed.

Lemma terminate_loop_spec n : forall i p k,
  holds p k -> (forall (j : nat) a, (j < i)%nat -> allocations p !! j = Some a -> ~ taken a) ->
  exists al k', terminate_loop cur chunk n i (p, k) = (with_allocations al p, k') /\
    holds (with_allocations al p) k' /\ steps (fun q => q ∉ alloc_ptrs (allocations p)) k k' /\ length al = length (allocations p) /\
    forall (j : nat) a, (j < i + n)%nat -> al !! j = Some a -> ~ taken a.
Proof.
  induction n as [|n IH]; intros i p k Hh Hfree; cbn [terminate_loop fst].
  { exists (allocations p), k. rewrite Nat.add_0_r. split; [by destruct p|]. split; [by destruct p|]. split; [apply steps_refl|done]. }
  replace (i + S n)%nat with (S i + n)%nat by lia.
  destruct (Z.eqb_spec (default 0 (alloc_ptr <$> allocations p !! i)) 0) as [Hz|Hz]; cbn [negb].
  - apply IH; [done|]. intros j a Hj Ha. destruct (decide (j = i)) as [->|]; [|apply (Hfree j); [lia|done]].
    rewrite Ha in Hz. simpl in Hz. intros Ht. by apply Ht.
  - destruct (allocations p !! i) as [b|] eqn:Hb; [|done]. change (default 0 (alloc_ptr <$> Some b)) with (alloc_ptr b) in *.
    assert (Hin : alloc_ptr b ∈ alloc_ptrs (allocations p)).
    { apply list_elem_of_fmap_2, list_elem_of_filter. split; [done|]. by eapply list_elem_of_lookup_2. }
    destruct (holds_free p k _ Hh Hin) as (p1 & k1 & E & Hh1 & S1 & Hptrs & Hp1). rewrite E.
    assert (Hal : allocations p1 = unjoin (allocations p) (alloc_ptr b)) by (by rewrite Hp1).
    destruct (IH (S i) p1 k1 Hh1) as (al & k2 & E2 & Hh2 & S2 & Hl2 & Hf2).
    { intros j a Hj. rewrite Hal, unjoin_lookup. intros (a' & Ha' & ->)%fmap_Some. destruct (Z.eqb_spec (alloc_ptr a') (alloc_ptr b)) as [|Hne]; [by intros []|].
      destruct (decide (j = i)) as [->|]; [congruence|]. apply (Hfree j); [lia|done]. }
    assert (Hw : with_allocations al p1 = with_allocations al p) by (by rewrite Hp1). rewrite Hw in E2, Hh2.
    exists al, k2. split; [done|]. split; [done|]. split; [|split; [by rewrite Hl2, Hal, length_unjoin|done]].
    eapply steps_trans; [exact S1|exact S2|]. intros q c _ Hq. rewrite Hptrs in Hq. split; [intros ->; apply Hq, list_elem_of_here|].
    intros Hq2. apply Hq. by apply list_elem_of_further.
Qed.

Lemma terminate_allocation_spec p k :
  holds p k -> exists al k', process_terminate_allocation cur chunk (p, k) = (with_allocations al p, k') /\
    holds (with_allocations al p) k' /\ steps (fun q => q ∉ alloc_ptrs (allocations p)) k k' /\ alloc_ptrs al = [].
Proof.
  intros Hh. unfold process_terminate_allocation.
  destruct (terminate_loop_spec (Z.to_nat RORTHOX_MAX_PROGRAM_ALLOCATIONS) 0 p k Hh) as (al & k' & E & Hh' & S & Hl & Hf); [lia|].
  exists al, k'. split; [done|]. split; [done|]. split; [done|]. rewrite (sp_length _ _ _ _ _ (hd_space _ _ Hh)) in Hl.
  unfold alloc_ptrs. replace (filter taken al) with ([] : list process_allocation); [done|]. symmetry.
  assert (Hnone : Forall (fun a => ~ taken a) al).
  { apply Forall_lookup_2. intros j a Hj. apply (Hf j a); [|done]. rewrite Nat.add_0_l, <- Hl. by eapply lookup_lt_Some. }
  clear -Hnone. induction Hnone as [|a l Ha _ IH]; [done|]. by rewrite filter_cons, decide_False.
Qed.

(** Bytes written inside one allocation of the process. *)
Lemma holds_write p k q n m' :
  holds p k -> q ∈ alloc_ptrs (allocations p) -> run (kheap k) q n ->
  (forall a, a < q \/ q + 4096 * n <= a -> load8 m' a = load8 (kmem k) a) ->
  holds p (with_kmem m' k) /\ table_pages m' dir = table_pages (kmem k) dir /\
  forall x c, run (kheap k) x c -> x <> q -> same_on (kmem k) m' x (x + 4096 * c).
Proof.
  intros [SP Hpl Ho] Hq Hrun Hm.
  assert (Hother : forall x c, run (kheap k) x c -> x <> q -> same_on (kmem k) m' x (x + 4096 * c)).
  { intros x c Hx Hne a Ha. apply Hm. pose proof (run_apart _ _ _ _ _ Hx Hrun Hne) as Hap. unfold apart in Hap. lia. }
  split; [|split; [|done]].
  2:{ apply table_pages_ext. intros d Hd. destruct (pd_same (kmem k) m' dir) as (_ & Ht & _); [apply SP| |by apply Ht].
      intros a (x & Hx & Ha)%in_pd_pages. destruct (space_run_page _ _ _ _ _ SP x Hx) as [c Hc]. pose proof (run_bounds _ _ _ Hc).
      apply (Hother x c Hc); [|lia]. intros ->. eapply space_own_pages; [exact SP| |exact Hx].
      apply list_elem_of_further, elem_of_app. by right. }
  constructor; [|done|done]. apply (space_write _ _ _ _ _ SP). intros x c Hx Hne. apply Hother; [done|]. by intros ->.
Qed.
End memory.

(** ** Strings *)

(** The string [s] with its terminator lies at [q]. *)
Definition cstr_at (m : mem) (q : Z) (s : list Z) : Prop :=
  forall (i : nat) c, (s ++ [0]) !! i = Some c -> load8 m (q + Z.of_nat i) = u8 c.

Lemma strncpy_to_load8 n : forall m dest src a,
  load8 (strncpy_to n m dest src) a =
  if decide (dest <= a <= dest + Z.of_nat (length (take n (cstring src))))
  then u8 (default 0 ((take n (cstring src) ++ [0]) !! Z.to_nat (a - dest))) else load8 m a.
Proof.
  induction n as [|n IH]; intros m dest src a; cbn [strncpy_to].
  - rewrite load8_store8. simpl. case_decide as E; case_decide; try lia. by replace (Z.to_nat (a - dest)) with 0%nat by lia.
  - rewrite cstring_next. destruct (next_char src) as [c src']. destruct (Z.eqb_spec c 0) as [->|Hc].
    + rewrite load8_store8. simpl. case_decide as E; case_decide; try lia. by replace (Z.to_nat (a - dest)) with 0%nat by lia.
    + rewrite IH, load8_store8. cbn [take length]. set (t := take n (cstring src')). repeat case_decide; try lia; try done.
      * replace (Z.to_nat (a - dest)) with (S (Z.to_nat (a - (dest + 1)))) by lia. done.
      * by replace (Z.to_nat (a - dest)) with 0%nat by lia.
Qed.

Lemma strncpy_to_cstr n m dest src : Z.of_nat (length (cstring src)) <= Z.of_nat n ->
  cstr_at (strncpy_to n m dest src) dest (cstring src).
Proof.
  intros Hl i c Hi. pose proof (lookup_lt_Some _ _ _ Hi) as Hlt. rewrite length_app in Hlt. simpl in Hlt.
  rewrite strncpy_to_load8, take_ge by lia. rewrite decide_True by lia.
  replace (Z.to_nat (dest + Z.of_nat i - dest)) with i by lia. by rewrite Hi.
Qed.

Lemma cstr_at_same m m' q n s :
  cstr_at m q s -> same_on m m' q (q + n) -> Z.of_nat (length s) < n -> cstr_at m' q s.
Proof.
  intros Hs Hm Hl i c Hi. pose proof (lookup_lt_Some _ _ _ Hi) as Hlt. rewrite length_app in Hlt. simpl in Hlt.
  rewrite Hm by lia. by apply Hs.
Qed.

(** ** Arguments *)

Lemma count_loop_spec l : forall i, 0 <= i ->
  (count_loop l i = - EINVARG \/
   count_loop l i = i + Z.of_nat (length l) /\
   (l <> [] -> i + Z.of_nat (length l) <= RORTHOX_MAX_COMMAND_ARGUMENTS) /\
   Forall (fun s => Z.of_nat (length (cstring s)) < RORTHOX_COMMAND_ARGUMENT_SIZE) l).
Proof.
  induction l as [|s l IH]; intros i Hi; cbn [count_loop].
  { right. split; [simpl; lia|]. split; [done|constructor]. }
  rewrite strnlen_spec by done. destruct (Z.leb_spec RORTHOX_MAX_COMMAND_ARGUMENTS i) as [|Hm]; [by left|].
  destruct (Z.eqb_spec (Z.min (strlen s) RORTHOX_COMMAND_ARGUMENT_SIZE) RORTHOX_COMMAND_ARGUMENT_SIZE) as [|Hs]; [by left|].
  cbn [orb]. destruct (IH (i + 1) ltac:(lia)) as [->|(-> & Hl & Hf)]; [by left|right]. cbn [length].
  split; [lia|]. split.
  - intros _. destruct l as [|s' l]; [simpl; lia|]. specialize (Hl ltac:(done)). lia.
  - constructor; [rewrite cstring_length; lia|done].
Qed.

Section arguments.
Context {D H : Type} `{BlockDevice D} `{AllocatorLaws H}.
Implicit Types (k : kern D H) (p : proc).
Context (A : gmap Z Z) (h0 : H) (cur chunk dir : Z) (l : list Z).
Hypothesis Hcur : dir <> cur.
Context (p0 : proc) (k0 : kern D H).
Local Abbreviation holds := (holds A h0 chunk dir l).
Local Abbreviation steps := (steps dir (fun _ => True)).

(** Since [k0] the array [argv] of [n] pages and the strings [args] have been allocated. *)
Record args_inv (argv n : Z) (args : list Z) (strs : list (list Z)) p k : Prop := ArgsInv {
  ai_holds : holds p k;
  ai_proc : p = with_allocations (allocations p) p0;
  ai_steps : steps k0 k;
  ai_fresh q c : run (kheap k0) q c -> q ∉ argv :: args;
  ai_run : run (kheap k) argv n;
  ai_ptrs : alloc_ptrs (allocations p) ≡ₚ argv :: args ++ alloc_ptrs (allocations p0);
  ai_args (j : nat) q : args !! j = Some q -> load32 (kmem k) (argv + 4 * Z.of_nat j) = q;
  ai_strs : Forall2 (fun q s => run (kheap k) q 1 /\ cstr_at (kmem k) q (cstring s)) args strs;
  ai_short : Forall (fun s => Z.of_nat (length (cstring s)) < RORTHOX_COMMAND_ARGUMENT_SIZE) strs
}.

Lemma args_alloc argv n args strs p k q : args_inv argv n args strs p k -> q ∈ argv :: args -> q ∈ alloc_ptrs (allocations p).
Proof. intros I Hq. rewrite (ai_ptrs _ _ _ _ _ _ I). apply (elem_of_app (argv :: args)). by left. Qed.

Lemma args_dup argv n args strs p k : args_inv argv n args strs p k -> NoDup (argv :: args).
Proof.
  intros I. pose proof (space_ptrs_dup _ _ _ _ _ (hd_space _ _ _ _ _ _ _ (ai_holds _ _ _ _ _ _ I))) as Hd.
  rewrite (ai_ptrs _ _ _ _ _ _ I) in Hd. change (argv :: args ++ ?x) with ((argv :: args) ++ x) in Hd.
  by apply NoDup_app in Hd as (Hd & _ & _).
Qed.

Lemma args_not_table argv n args strs p k q :
  args_inv argv n args strs p k -> q ∈ argv :: args -> q ∉ table_pages (kmem k) dir.
Proof.
  intros I Hq. eapply space_own_pages; [apply (ai_holds _ _ _ _ _ _ I)|]. apply list_elem_of_further, elem_of_app. right.
  by eapply args_alloc.
Qed.

(** What keeps the runs keeps the array and its strings. *)
Lemma args_step argv n args strs p k p' k' ptrs :
  args_inv argv n args strs p k -> steps k k' -> holds p' k' -> p' = with_allocations (allocations p') p ->
  alloc_ptrs (allocations p') ≡ₚ ptrs ++ alloc_ptrs (allocations p) -> 
  holds p' k' /\ p' = with_allocations (allocations p') p0 /\ steps k0 k' /\ run (kheap k') argv n /\
  alloc_ptrs (allocations p') ≡ₚ argv :: args ++ ptrs ++ alloc_ptrs (allocations p0) /\
  (4 * Z.of_nat (length args) <= 4096 * n ->
     forall (j : nat) q, args !! j = Some q -> load32 (kmem k') (argv + 4 * Z.of_nat j) = q) /\
  Forall2 (fun q s => run (kheap k') q 1 /\ cstr_at (kmem k') q (cstring s)) args strs.
Proof.
  intros I S Hh Hp Hptrs. pose proof I as [_ Ip Is If Ir Ipt Ia Istr Ish]. split; [done|]. split; [by rewrite Hp, Ip|].
  split; [by eapply steps_trans|]. split; [by apply (st_runs _ _ _ _ S)|]. split.
  { rewrite Hptrs, Ipt. simpl. solve_Permutation. }
  assert (Hsame : forall q c, q ∈ argv :: args -> run (kheap k) q c -> same_on (kmem k) (kmem k') q (q + 4096 * c)).
  { intros q c Hq Hrun. apply (st_keeps _ _ _ _ S); [done..|]. by eapply args_not_table. }
  split.
  - intros Hn j q Hj. rewrite <- (Ia j q Hj). pose proof (lookup_lt_Some _ _ _ Hj).
    eapply same_on_load32; [apply (Hsame argv n); [apply list_elem_of_here|done]|lia|lia].
  - apply Forall2_same_length_lookup. apply Forall2_same_length_lookup in Istr as [Hlen Istr]. split; [done|].
    intros j q s Hq Hs. destruct (Istr j q s Hq Hs) as [Hrun Hstr]. split; [by apply (st_runs _ _ _ _ S)|].
    eapply cstr_at_same; [exact Hstr|apply Hsame; [|done]|].
    + apply list_elem_of_further. by eapply list_elem_of_lookup_2.
    + eapply Forall_lookup_1 in Ish; [|exact Hs]. unfold RORTHOX_COMMAND_ARGUMENT_SIZE in Ish. lia.
Qed.

(** A string more. *)
Lemma args_put argv n args strs p k s :
  args_inv argv n args strs p k -> Z.of_nat (length (cstring s)) < RORTHOX_COMMAND_ARGUMENT_SIZE ->
  4 * (Z.of_nat (length args) + 1) <= 4096 * n ->
  exists r p1 k1, process_malloc cur chunk RORTHOX_COMMAND_ARGUMENT_SIZE (p, k) = (Ok r, (p1, k1)) /\
    ((r = 0 /\ p1 = p /\ args_inv argv n args strs p1 k1) \/
     (r <> 0 /\
      let m := strncpy_to (Z.to_nat (RORTHOX_COMMAND_ARGUMENT_SIZE - 1)) (kmem k1) r s in
      args_inv argv n (args ++ [r]) (strs ++ [s]) p1
        (with_kmem (store32 m (argv + 4 * Z.of_nat (length args)) r) k1))).
Proof.
  intros I Hs Hn. pose proof I as [Ih Ip Is If Ir Ipt Ia Istr Ish].
  destruct (holds_malloc A h0 cur chunk dir l Hcur p k RORTHOX_COMMAND_ARGUMENT_SIZE Ih ltac:(done)) as (r & p1 & k1 & E & Hh & S & Hr).
  exists r, p1, k1. split; [done|]. destruct Hr as [(-> & -> & Hk)|(Hpos & _ & Hrun & Hap & _ & Hptrs & _ & Hp1)].
  { left. split; [done|]. split; [done|].
    destruct (args_step _ _ _ _ _ _ p k1 [] I S Hh) as (? & ? & ? & ? & ? & Hargs & ?); [by rewrite Ip|done|].
    constructor; try done. apply Hargs. lia. }
  right. split; [lia|]. cbv zeta. change (blocks_for RORTHOX_COMMAND_ARGUMENT_SIZE) with 1 in *.
  destruct (args_step _ _ _ _ _ _ p1 k1 [r] I S Hh Hp1 Hptrs) as (_ & Hp0 & S1 & Hr1 & Hptrs1 & Ha1 & Hstr1).
  specialize (Ha1 ltac:(lia)). set (m2 := strncpy_to _ _ _ _).
  assert (Hne : forall q c, run (kheap k) q c -> q <> r).
  { intros q c Hq ->. specialize (Hap _ _ Hq). pose proof (run_bounds _ _ _ Hq). unfold apart in Hap. lia. }
  assert (Hin : r ∈ alloc_ptrs (allocations p1)) by (rewrite Hptrs; apply list_elem_of_here).
  destruct (holds_write A h0 chunk dir l p1 k1 r 1 m2 Hh Hin Hrun) as (Hh2 & Ht2 & Hm2).
  { intros a Ha. subst m2. rewrite strncpy_to_load8. rewrite decide_False; [done|]. rewrite length_take.
    unfold RORTHOX_COMMAND_ARGUMENT_SIZE. lia. }
  assert (Hin' : argv ∈ alloc_ptrs (allocations p1)) by (rewrite Hptrs1; apply list_elem_of_here).
  destruct (holds_write A h0 chunk dir l p1 (with_kmem m2 k1) argv n (store32 m2 (argv + 4 * Z.of_nat (length args)) r) Hh2 Hin' Hr1)
    as (Hh3 & Ht3 & Hm3).
  { intros a Ha. apply load8_store32_ne. lia. }
  simpl in Ht3, Hm3. set (m3 := store32 _ _ _) in *.
  assert (Hav : argv <> r) by (by eapply Hne).
  assert (Hstrs : forall q s, q ∈ args -> run (kheap k1) q 1 -> Z.of_nat (length (cstring s)) < RORTHOX_COMMAND_ARGUMENT_SIZE ->
    cstr_at (kmem k1) q (cstring s) -> cstr_at m3 q (cstring s)).
  { intros q s' Hq Hrq Hsh Hc. unfold RORTHOX_COMMAND_ARGUMENT_SIZE in Hsh. eapply (cstr_at_same (kmem k1) m3 q (4096 * 1)); [exact Hc| |lia].
    pose proof (args_dup _ _ _ _ _ _ I) as Hd. apply NoDup_cons in Hd as [Hd _].
    eapply same_on_trans; [apply Hm2; [done|]|apply Hm3; [done|by intros ->]].
    apply list_elem_of_lookup in Hq as [j Hj]. apply Forall2_same_length_lookup in Istr as [Hlen Istr].
    destruct (lookup_lt_is_Some_2 strs j) as [s2 Hs2]; [rewrite <- Hlen; by eapply lookup_lt_Some|].
    eapply Hne. by apply (Istr j q s2). }
  constructor.
  - exact Hh3.
  - done.
  - destruct S1 as [O1 K1 T1 R1]. constructor; [|intros q c Hq _ Ht|simpl; by rewrite Ht3, Ht2|done].
    { etrans; [exact O1|]. exists (kheap k1). by destruct k1 as [[[] ? ? ?] ?]. }
    simpl. pose proof (R1 q c Hq Logic.I) as Hq1. eapply same_on_trans; [by apply K1|].
    eapply same_on_trans; [apply Hm2; [done|]|apply Hm3; [done|]].
    + eapply Hne. by apply (st_runs _ _ _ _ Is).
    + intros ->. apply (If _ _ Hq), list_elem_of_here.
  - intros q c Hq. change (argv :: args ++ [r]) with ((argv :: args) ++ [r]).
    intros [Hc|Hc%list_elem_of_singleton]%elem_of_app; [by apply (If _ _ Hq)|]. subst q.
    by apply (Hne r c); [apply (st_runs _ _ _ _ Is)|].
  - exact Hr1.
  - rewrite Hptrs1. simpl. by rewrite <- app_assoc.
  - intros j q. rewrite lookup_snoc_Some. simpl. intros [[Hj Hq]|[-> ->]].
    + rewrite <- (Ha1 j q Hq). unfold m3. rewrite load32_store32_ne by lia.
      apply load32_ext. intros a Ha. apply (Hm2 argv n Hr1 Hav). lia.
    + unfold m3. rewrite load32_store32_eq. pose proof (run_bounds _ _ _ Hrun). lia.
  - apply Forall2_app; [|constructor; [|constructor]].
    + apply Forall2_same_length_lookup. apply Forall2_same_length_lookup in Hstr1 as [Hlen Hstr1]. split; [done|].
      intros j q s' Hq Hs'. destruct (Hstr1 j q s' Hq Hs') as [Hrq Hc]. split; [done|]. simpl.
      apply Hstrs; [by eapply list_elem_of_lookup_2|done|exact (Forall_lookup_1 _ _ _ _ Ish Hs')|done].
    + split; [done|]. simpl. unfold RORTHOX_COMMAND_ARGUMENT_SIZE in Hs.
      apply (cstr_at_same m2 m3 r (4096 * 1)); [|by apply Hm3|lia]. subst m2. apply strncpy_to_cstr.
      unfold RORTHOX_COMMAND_ARGUMENT_SIZE. lia.
  - apply Forall_app. split; [done|]. by constructor.
Qed.

(** All the strings, or as many as there is memory for. *)
Lemma inject_loop_spec argv n todo : forall args strs p k,
  args_inv argv n args strs p k ->
  Forall (fun s => Z.of_nat (length (cstring s)) < RORTHOX_COMMAND_ARGUMENT_SIZE) todo ->
  4 * (Z.of_nat (length args) + Z.of_nat (length todo)) <= 4096 * n ->
  exists args' strs' (all : bool) p' k',
    inject_loop cur chunk argv todo (Z.of_nat (length args)) (p, k) = (Ok (Z.of_nat (length args'), all), (p', k')) /\
    args_inv argv n args' strs' p' k' /\ 4 * Z.of_nat (length args') <= 4096 * n /\ (all = true -> strs' = strs ++ todo).
Proof.
  induction todo as [|s todo IH]; intros args strs p k I Hs Hn; cbn [inject_loop].
  { exists args, strs, true, p, k. split; [done|]. split; [done|]. split; [simpl in Hn; lia|]. intros _. by rewrite app_nil_r. }
  apply Forall_cons in Hs as [Hs Hss]. cbn [length] in Hn.
  destruct (args_put argv n args strs p k s I Hs ltac:(lia)) as (r & p1 & k1 & E & Hr).
  rewrite (io_bind_run _ _ _ _ _ E). destruct Hr as [(-> & -> & I1)|(Hr & I1)].
  { exists args, strs, false, p, k1. split; [done|]. split; [done|]. split; [lia|done]. }
  rewrite (proj2 (Z.eqb_neq r 0)) by done. rewrite io_modify.
  replace (Z.of_nat (length args) + 1) with (Z.of_nat (length (args ++ [r]))) by (rewrite length_app; simpl; lia).
  destruct (IH _ _ _ _ I1 Hss) as (args' & strs' & all & p' & k' & E' & I' & Hn' & Hall).
  { rewrite length_app. simpl. lia. }
  exists args', strs', all, p', k'. split; [exact E'|]. split; [done|]. split; [done|]. intros Ha. rewrite (Hall Ha), <- app_assoc. done.
Qed.

(** The strings are given back, the last one first. *)
Lemma free_arguments_spec argv n : forall strs args p k,
  args_inv argv n args strs p k -> 4 * Z.of_nat (length args) <= 4096 * n ->
  exists p' k', free_arguments cur chunk (length args) argv (p, k) = (p', k') /\ args_inv argv n [] [] p' k'.
Proof.
  intros strs args. revert strs. induction args as [|q args IH] using rev_ind; intros strs p k I Hn.
  { exists p, k. split; [done|]. pose proof (Forall2_length _ _ _ (ai_strs _ _ _ _ _ _ I)) as Hl. by destruct strs. }
  rewrite length_app in *. simpl in Hn. rewrite Nat.add_comm. cbn [length Nat.add free_arguments snd].
  pose proof I as [Ih Ip Is If Ir Ipt Ia Istr Ish]. rewrite (Ia (length args) q) by apply list_lookup_middle, eq_refl.
  assert (Hq : q ∈ alloc_ptrs (allocations p)).
  { eapply args_alloc; [exact I|]. apply list_elem_of_further, elem_of_app. right. apply list_elem_of_here. }
  destruct (holds_free A h0 cur chunk dir l Hcur p k q Ih Hq) as (p1 & k1 & E & Hh1 & S1 & Hptrs & Hp1). rewrite E.
  pose proof (args_dup _ _ _ _ _ _ I) as Hd. change (argv :: args ++ [q]) with ((argv :: args) ++ [q]) in Hd.
  apply NoDup_app in Hd as (_ & Hd & _).
  assert (Hne : forall x, x ∈ argv :: args -> x <> q). { intros x Hx ->. apply (Hd q Hx), list_elem_of_here. }
  apply Forall2_app_inv_l in Istr as (strs1 & strs2 & Hstr & Hlast & ->).
  assert (Hkeep : forall x c, x ∈ argv :: args -> run (kheap k) x c -> same_on (kmem k) (kmem k1) x (x + 4096 * c)).
  { intros x c Hx Hrun. apply (st_keeps _ _ _ _ S1); [done|by apply Hne|]. eapply args_not_table; [exact I|].
    change (argv :: args ++ [q]) with ((argv :: args) ++ [q]). apply elem_of_app. by left. }
  apply (IH strs1); [|lia]. apply Forall_app in Ish as [Ish _]. constructor.
  - done.
  - by rewrite Hp1, Ip.
  - eapply steps_trans; [exact Is|exact S1|]. intros x c Hx _. split; [done|]. intros ->.
    apply (If _ _ Hx), list_elem_of_further, elem_of_app. right. apply list_elem_of_here.
  - intros x c Hx Hin. apply (If _ _ Hx). change (argv :: args ++ [q]) with ((argv :: args) ++ [q]). apply elem_of_app. by left.
  - apply (st_runs _ _ _ _ S1); [done|]. apply Hne, list_elem_of_here.
  - apply (Permutation_cons_inv (a := q)). rewrite <- Hptrs, Ipt. solve_Permutation.
  - intros j x Hj. rewrite <- (Ia j x) by (by apply lookup_app_l_Some). pose proof (lookup_lt_Some _ _ _ Hj).
    eapply same_on_load32; [apply (Hkeep argv n); [apply list_elem_of_here|done]|lia|lia].
  - apply Forall2_same_length_lookup. apply Forall2_same_length_lookup in Hstr as [Hlen Hstr]. split; [done|].
    intros j x s Hx Hs. destruct (Hstr j x s Hx Hs) as [Hrun Hc]. assert (Hin : x ∈ argv :: args).
    { apply list_elem_of_further. by eapply list_elem_of_lookup_2. }
    split; [apply (st_runs _ _ _ _ S1); [done|by apply Hne]|]. eapply cstr_at_same; [exact Hc|by apply Hkeep|].
    pose proof (Forall_lookup_1 _ _ _ _ Ish Hs) as Hsh. cbv beta in Hsh. unfold RORTHOX_COMMAND_ARGUMENT_SIZE in Hsh. lia.
  - done.
Qed.
End arguments.

(** The array [argv] with its strings, in memory the process has allocated. *)
Definition arguments_at {D H} `{AllocatorLaws H} (k : kern D H) (p : proc) (argv : Z) (strs : list (list Z)) : Prop :=
  exists args, length args = length strs /\ (forall q, q ∈ argv :: args -> q ∈ alloc_ptrs (allocations p)) /\
    (forall (j : nat) q, args !! j = Some q -> load32 (kmem k) (argv + 4 * Z.of_nat j) = q) /\
    Forall2 (fun q s => cstr_at (kmem k) q (cstring s)) args strs.

Section inject.
Context {D H : Type} `{BlockDevice D} `{AllocatorLaws H}.
Implicit Types (k : kern D H) (p : proc).
Context (A : gmap Z Z) (h0 : H) (cur chunk dir : Z) (l : list Z).
Hypothesis Hcur : dir <> cur.
Local Abbreviation holds := (holds A h0 chunk dir l).

Lemma space_arguments p k a : holds p k -> holds (with_arguments a p) k.
Proof. intros [SP Hpl Ho]. constructor; [|done|exact Ho]. eapply space_proc; [|exact SP]. done. Qed.

Lemma inject_arguments_spec p k strs :
  holds p k ->
  exists r p' k', process_inject_arguments cur chunk strs (p, k) = (r, (p', k')) /\ holds p' k' /\
    steps dir (fun _ => True) k k' /\
    match r with
    | Ok _ => exists argv al, p' = with_arguments (ProcessArguments (Z.of_nat (length strs)) argv) (with_allocations al p) /\
        arguments_at k' p' argv strs
    | Err e => e < 0 /\ p' = with_allocations (allocations p') p /\
        alloc_ptrs (allocations p') ≡ₚ alloc_ptrs (allocations p)
    end.
Proof.
  intros Hh. pose proof (steps_refl dir (fun _ => True) k) as S0.
  assert (Hp0 : p = with_allocations (allocations p) p) by (by destruct p).
  unfold process_inject_arguments. rewrite io_status. unfold process_count_command_arguments.
  destruct (count_loop_spec strs 0 ltac:(lia)) as [->|(-> & Hmax & Hshort)].
  { exists (Err (- EINVARG)), p, k. done. }
  rewrite Z.add_0_l in *. rewrite (proj2 (Z.ltb_ge _ 0)) by lia. rewrite io_fail_if.
  destruct (Z.eqb_spec (Z.of_nat (length strs)) 0) as [Hz|Hz].
  { exists (Err (- EIO)), p, k. done. }
  specialize (Hmax ltac:(by intros ->)). unfold RORTHOX_MAX_COMMAND_ARGUMENTS in Hmax. rewrite u32_small by lia.
  destruct (holds_malloc A h0 cur chunk dir l Hcur p k (4 * Z.of_nat (length strs)) Hh ltac:(lia))
    as (argv & p1 & k1 & E & Hh1 & S1 & Hr). rewrite (io_bind_run _ _ _ _ _ E), io_fail_if.
  destruct Hr as [(-> & -> & _)|(Hpos & _ & Hrun & Hap & _ & Hptrs & _ & Hp1)].
  { exists (Err (- ENOMEM)), p, k1. done. }
  rewrite (proj2 (Z.eqb_neq argv 0)) by lia. set (n := blocks_for (4 * Z.of_nat (length strs))) in *.
  assert (I1 : args_inv A h0 chunk dir l p k argv n [] [] p1 k1).
  { constructor; try done. intros q c Hq ->%list_elem_of_singleton. specialize (Hap _ _ Hq). pose proof (run_bounds _ _ _ Hq).
    pose proof (run_bounds _ _ _ Hrun). unfold apart in Hap. lia. }
  destruct (inject_loop_spec A h0 cur chunk dir l Hcur p k argv n strs [] [] p1 k1 I1 Hshort) as (args & strs' & all & p2 & k2 & E2 & I2 & Hn & Hall).
  { simpl. unfold n, blocks_for. lia. }
  simpl in E2. rewrite (io_bind_run _ _ _ _ _ E2). pose proof I2 as [Ih Ip Is If Ir Ipt Ia Istr Ish]. destruct all.
  - specialize (Hall eq_refl). simpl in Hall. subst strs'. eexists (Ok tt), _, k2. split; [reflexivity|].
    split; [by apply space_arguments|]. split; [done|]. exists argv, (allocations p2). split; [by rewrite <- Ip|].
    exists args. split; [by eapply Forall2_length|]. split; [intros q Hq; exact (args_alloc A h0 chunk dir l p k _ _ _ _ _ _ q I2 Hq)|].
    split; [exact Ia|].
    eapply Forall2_impl; [exact Istr|]. by intros q s [_ Hs].
  - rewrite io_modify, Nat2Z.id. destruct (free_arguments_spec A h0 cur chunk dir l Hcur p k argv n strs' args p2 k2 I2 Hn) as (p3 & k3 & E3 & I3).
    rewrite E3. pose proof I3 as [Jh Jp Js Jf Jr Jpt Ja _ _].
    assert (Hin : argv ∈ alloc_ptrs (allocations p3)) by (rewrite Jpt; apply list_elem_of_here).
    destruct (holds_free A h0 cur chunk dir l Hcur p3 k3 argv Jh Hin) as (p4 & k4 & E4 & Hh4 & S4 & Hptrs4 & Hp4). rewrite E4.
    exists (Err (- ENOMEM)), p4, k4. split; [done|]. split; [done|]. split.
    { eapply steps_trans; [exact Js|exact S4|]. intros x c Hx _. split; [done|]. intros ->. apply (Jf _ _ Hx), list_elem_of_here. }
    split; [done|]. split; [by rewrite Hp4, Jp|]. apply (Permutation_cons_inv (a := argv)). by rewrite <- Hptrs4, Jpt.
Qed.
End inject.
