(* ===== verification/ProcLife.v ===== *)
(** * The life of a process (kernel/task/process.c, kernel/task/task.c)

    A load goes through its stages with an account of everything it owns, so that [process_discard] gives all of it
    back after a failure; a load that succeeds publishes a process whose address space satisfies the invariant of
    AddrSpace.v, and [process_terminate] gives back what the load and the program have allocated. *)

From stdpp Require Import base numbers list gmap.
From Stdlib Require Import ZArith Lia.
From S2P Require Import Prelude Alloc Heap Memory Paging Sched Effects Disk StrLib PathParser Fat FatWrite FatProps.
From S2P Require Import FatDir FatDirScan FatOpen FatMount Vfs Elf UserMem Process AddrSpace ProcLoad ProcArgs.

#[local] Set Default Goal Selector "!".

(** ** Files of a process without any *)

Definition no_files (p : proc) : Prop := Forall (eq 0) (handles p).

Lemma close_files_none {D H} `{BlockDevice D} `{AllocatorLaws H} n : forall i p (k : kern D H),
  no_files p -> close_files n i (p, k) = (p, k).
Proof.
  induction n as [|n IH]; intros i p k Hn; [done|]. cbn [close_files fst].
  assert (Hz : default 0 (handles p !! i) = 0).
  { destruct (handles p !! i) as [x|] eqn:E; [|done]. simpl. symmetry. exact (Forall_lookup_1 _ _ _ _ Hn E). }
  rewrite Hz. change (0 <? 0) with false. cbv iota. unfold set_handle, modify. cbn [snd].
  assert (Hp : with_handles (<[i := 0]> (handles p)) p = p).
  { rewrite (list_insert_id' (handles p) i 0); [by destruct p|]. intros Hi. apply lookup_lt_is_Some_2 in Hi as [x Hx].
    rewrite Hx in Hz. simpl in Hz. congruence. }
  rewrite Hp. by apply IH.
Qed.

(** ** Tasks *)

Section task.
Context {D H : Type} `{BlockDeviceLaws D} `{AllocatorLaws H}.
Implicit Types (k : kern D H) (p : proc).

(** The allocations of a task: its struct, the chunk and the directory with its tables. *)
Definition task_cells (m : mem) (t : Z) (task : task) : list Z :=
  t :: page_directory task :: table_pages m (load32 m (page_directory task)).

(** A new directory is owned. *)
Lemma directory_owned A (h : H) h' m c :
  live h A -> arena h' = arena h -> owns_directory A h' m c ->
  owned_by (fun _ => True) A h (c :: table_pages m (load32 m c)) h'.
Proof.
  intros Hl Ha (ts & Hlen & Hn & Hnone & Hl' & Ht). rewrite (table_pages_list _ _ ts Hlen Ht). split; [done|].
  set (dir := load32 m c) in *. exists (<[c := 1]> (add_pages (<[dir := 1]> ∅) ts)). split; [done|].
  assert (Hlk : forall x, <[c := 1]> (add_pages (<[dir := 1]> ∅) ts) !! x =
    if decide (x ∈ c :: dir :: ts) then Some 1 else (None : option Z)).
  { intros x. destruct (decide (x = c)) as [->|Hc].
    { rewrite lookup_insert_eq, decide_True; [done|apply list_elem_of_here]. }
    rewrite lookup_insert_ne, add_pages_lookup by done. destruct (decide (x ∈ ts)) as [Hx|Hx].
    { rewrite decide_True; [done|]. by do 2 apply list_elem_of_further. }
    destruct (decide (x = dir)) as [->|Hd].
    { rewrite lookup_insert_eq, decide_True; [done|]. apply list_elem_of_further, list_elem_of_here. }
    rewrite lookup_insert_ne, lookup_empty, decide_False; [done| |done]. rewrite !elem_of_cons. tauto. }
  split.
  { replace (_ ∪ A) with (<[c := 1]> (add_pages (<[dir := 1]> A) ts)); [done|]. apply map_eq. intros x.
    destruct (decide (x ∈ c :: dir :: ts)) as [Hx|Hx].
    - rewrite (lookup_union_Some_l _ _ _ 1) by (by rewrite Hlk, decide_True).
      destruct (decide (x = c)) as [->|Hc]; [by rewrite lookup_insert_eq|]. rewrite lookup_insert_ne, add_pages_lookup by done.
      destruct (decide (x ∈ ts)); [done|]. assert (x = dir) as -> by (rewrite !elem_of_cons in Hx; tauto). by rewrite lookup_insert_eq.
    - rewrite lookup_union_r by (by rewrite Hlk, decide_False).
      assert (Hne : x <> c /\ x <> dir /\ x ∉ ts) by (rewrite !elem_of_cons in Hx; tauto). destruct Hne as (? & ? & ?).
      rewrite lookup_insert_ne, add_pages_lookup, decide_False, lookup_insert_ne by done. done. }
  split.
  { apply map_disjoint_spec. intros x a b Hx. rewrite Hlk. case_decide as Hin; [|done]. by rewrite (Hnone x Hin) in Hx. }
  split; [done|]. split.
  - intros x. rewrite Hlk. case_decide; [by split; [eauto|]|]. split; [done|by intros []].
  - done.
Qed.

(** What [paging_new_4gb] does to the kernel's memory. *)
Lemma new_directory A h0 l k c h' m' :
  kowns A h0 l k -> paging_new_4gb (kheap k, kmem k) 3 = (c, (h', m')) ->
  let k' := with_kmem m' (with_kheap h' k) in
  stays k k' /\
  ((c = 0 /\ h' = kheap k) \/
   (c <> 0 /\ kowns A h0 (c :: table_pages m' (load32 m' c) ++ l) k' /\
    identity_mapped m' (load32 m' c) 3 /\ chunk_ok m' c (load32 m' c))).
Proof.
  intros Ho E. cbv zeta. destruct (owned_live _ _ _ _ _ Ho) as [M HM].
  destruct (paging_new_4gb_spec (kheap k) (kmem k) M 3 HM ltac:(lia) eq_refl eq_refl) as (c1 & h1 & m1 & E1 & Hm & Hc).
  rewrite E in E1. injection E1 as <- <- <-.
  assert (Hrun : forall q n, run (kheap k) q n -> M !! q = Some n).
  { intros q n (B & HB & Hq). by rewrite (live_fun _ _ _ HM HB). }
  destruct Hc as [(-> & -> & _)|(Hc & Ha & Hd & Hi & Hch)].
  - split; [|by left]. intros q n Hq. split; [done|]. by apply Hm, Hrun.
  - pose proof (directory_owned M (kheap k) h' m' c HM Ha Hd) as Ho1. split.
    + intros q n Hq. split; [|by apply Hm, Hrun]. eapply owned_old; [exact Ho1|by apply Hrun].
    + right. split; [done|]. split; [|done]. exact (owned_trans _ _ _ _ _ _ _ _ Ho HM Ho1).
Qed.

Lemma heap_only_heap k h m : heap_only k (with_kmem m (with_kheap h k)).
Proof. by exists h. Qed.

Lemma task_new_spec A h0 l k process p tasks r k' :
  kowns A h0 l k -> task_new process p tasks k = (r, k') ->
  heap_only k k' /\ stays k k' /\
  match r with
  | Ok (t, task, n) =>
      kowns A h0 (task_cells (kmem k') t task ++ l) k' /\ page_directory task <> 0 /\
      Sched.process task = process /\ next task = 0 /\ prev task = 0 /\
      let dir := load32 (kmem k') (page_directory task) in
      identity_mapped (kmem k') dir 3 /\ chunk_ok (kmem k') (page_directory task) dir
  | Err e => e < 0 /\ kowns A h0 l k'
  end.
Proof.
  intros Ho E. unfold task_new, task_init in E. destruct (kalloc sizeof_task k) as [t k1] eqn:Ek.
  pose proof (kalloc_stays _ _ _ _ _ _ _ Ho Ek) as St1.
  destruct (kalloc_spec _ _ _ _ _ _ _ Ho Ek) as [Hh1 [[-> ->]|(Ht & Ho1 & _)]]; [by injection E as <- <-|].
  rewrite (proj2 (Z.eqb_neq t 0)) in E by done. change (Z.lor PAGING_IS_PRESENT PAGING_IS_WRITEABLE) with 3 in E.
  destruct (paging_new_4gb (kheap k1, kmem k1) 3) as [c [h' m']] eqn:Ep.
  destruct (new_directory _ _ _ _ _ _ _ Ho1 Ep) as [St2 Hc].
  assert (Hho : heap_only k (with_kmem m' (with_kheap h' k1))) by (etrans; [exact Hh1|apply heap_only_heap]).
  destruct Hc as [(-> & ->)|(Hc & Ho2 & Hi & Hch)].
  - change (0 =? 0) with true in E. cbv iota in E. injection E as <- <-.
    split; [etrans; [exact Hho|apply krelease_only]|]. split.
    + destruct (owned_live _ _ _ _ _ Ho) as [M HM]. pose proof (owned_nil (fun _ => True) _ _ HM) as Hn.
      destruct (kalloc_spec M (kheap k) [] sizeof_task k t k1 Hn Ek) as [_ [[? _]|(_ & Hn1 & _)]]; [done|].
      pose proof (owned_done _ _ _ _ (krelease_owns M (kheap k) t [] k1 Hn1)) as Hback.
      intros q n Hq. split; [by rewrite <- Hback in Hq|]. eapply same_on_trans; [by apply St1|]. by apply St2, St1.
    + split; [done|]. by apply krelease_owns.
  - rewrite (proj2 (Z.eqb_neq c 0)) in E by done. injection E as <- <-. split; [exact Hho|]. split; [by etrans|].
    split; [|done]. unfold task_cells. cbn [page_directory kmem with_kmem]. unfold kowns in *.
    eapply owned_perm; [|reflexivity|exact Ho2]. cbn [app]. apply (Permutation_middle (c :: table_pages m' (load32 m' c))).
Qed.

Lemma task_discard_owns A h0 l k t task :
  page_directory task <> 0 -> kowns A h0 (task_cells (kmem k) t task ++ l) k -> kowns A h0 l (task_discard t task k).
Proof.
  intros Hc Ho. unfold task_discard. rewrite (proj2 (Z.eqb_neq _ 0) Hc). unfold paging_free_4gb. apply krelease_owns.
  unfold kowns in *. set (c := page_directory task) in *. set (dir := load32 (kmem k) c).
  change (owned_by (fun _ => True) A h0 (t :: l) (kfree (kfree (paging_free_tables (Z.to_nat 1024) 0 dir (kmem k) (kheap k)) dir) c)).
  apply owned_free, table_pages_free. eapply owned_perm; [|reflexivity|exact Ho]. unfold task_cells. fold c. fold dir. cbn [app].
  rewrite (Permutation_swap t c). etrans; [symmetry; apply Permutation_middle|]. constructor. symmetry. apply Permutation_middle.
Qed.

Lemma task_discard_only k t task : heap_only k (task_discard t task k) /\ kmem (task_discard t task k) = kmem k.
Proof.
  unfold task_discard. destruct (page_directory task =? 0); [apply krelease_only|]. unfold paging_free_4gb. split; [|done].
  etrans; [|apply krelease_only]. apply heap_only_heap.
Qed.
End task.

(** ** The program of a process *)

Section stages.
Context {D H : Type} `{BlockDeviceLaws D} `{AllocatorLaws H} (F : filesystem D H) `{!FilesystemLaws F}.
Implicit Types (k : kern D H) (p : proc) (x : loading D H).

Lemma program_loaded_stays k k' p : program_loaded k p -> stays k k' -> program_loaded k' p.
Proof.
  intros [Hf Hr Hs|Hf Hp Hz [Him Hok Hc Hs]] St; [apply binary_loaded; [done|by apply St|done]|].
  apply program_elf_loaded; [done..|]. set (f := program_elf p) in *. destruct (image_bounds _ _ Him) as [B1 B2].
  destruct (image_stays _ _ _ Him St) as [Him' Hsame]. destruct (headers_same _ _ f f Hok eq_refl B1 B2 Hsame) as [Hh Hph].
  constructor; rewrite ?Hph; [done|by eapply elf_ok_same|done|]. intros j ph Hj Hl. destruct (Hs j ph Hj Hl) as (q & Hq & Hr & Hfi).
  destruct (St _ _ Hr) as [Hr' Hsq]. exists q. split; [done|]. split; [done|].
  pose proof (Forall_lookup_1 _ _ _ _ (eo_phdrs _ _ Hok) Hj) as Hpo.
  eapply filled_same; [exact Hfi|done| | |done|done].
  - eapply Forall_lookup_1; [apply headers_range|exact Hj].
  - apply (ok_file _ _ Hpo). by apply andb_true_iff in Hl as [?%Z.eqb_eq _].
Qed.

Lemma program_loaded_ptr k p : program_loaded k p -> program_ptr p <> 0.
Proof. intros [_ Hr _|_ _ Hz _]; [pose proof (run_bounds _ _ _ Hr); lia|done]. Qed.

Lemma free_program_owns A h0 l k p :
  filetype p = PROCESS_FILETYPE_BINARY \/ filetype p = PROCESS_FILETYPE_ELF /\ file_addr (program_elf p) <> 0 ->
  kowns A h0 (program_own p ++ l) k ->
  exists k', process_free_program_data (p, k) = (0, (p, k')) /\ kowns A h0 l k' /\ heap_only k k' /\ kmem k' = kmem k.
Proof.
  intros Hft Ho. unfold process_free_program_data, program_own in *. cbn [fst]. destruct Hft as [Hft|[Hft Hf]]; rewrite Hft in *.
  - exists (krelease (program_ptr p) k). split; [done|]. split; [by apply krelease_owns|]. apply krelease_only.
  - exists (elf_close (program_elf p) k). split; [done|]. split; [by apply elf_close_owns|]. apply elf_close_only.
Qed.

(** ** A process under construction *)

(** What it owns: the task, the stack, the program and the struct itself. *)
Definition part_cells (m : mem) (ptr : Z) (p : proc) (t : option (Z * task)) : list Z :=
  match t with None => [] | Some (t, task) => task_cells m t task end ++
  List.filter nonnull [proc_stack p] ++ (if program_ptr p =? 0 then [] else program_own p) ++ [ptr].

Context (A : gmap Z Z) (k0 : kern D H) (ptr : Z).
Hypothesis Hlive : live (kheap k0) A.

Record partial x : Prop := Partial {
  pa_files : vfs_ok F (kfiles (lkern x));
  pa_table : file_descriptors (kfiles (lkern x)) = file_descriptors (kfiles k0);
  pa_stays : stays k0 (lkern x);
  pa_owns : kowns A (kheap k0) (part_cells (kmem (lkern x)) ptr (lproc x) (ltask x)) (lkern x);
  pa_handles : no_files (lproc x);
  pa_task t task : ltask x = Some (t, task) -> page_directory task <> 0;
  pa_type : program_ptr (lproc x) <> 0 ->
    filetype (lproc x) = PROCESS_FILETYPE_BINARY \/
    filetype (lproc x) = PROCESS_FILETYPE_ELF /\ file_addr (program_elf (lproc x)) <> 0
}.

(** The state before the load. *)
Definition undone k' : Prop :=
  vfs_ok F (kfiles k') /\ file_descriptors (kfiles k') = file_descriptors (kfiles k0) /\ kheap k' = kheap k0 /\
  forall q n, A !! q = Some n -> same_on (kmem k0) (kmem k') q (q + 4096 * n).

Lemma undone_from k k' :
  vfs_ok F (kfiles k) -> file_descriptors (kfiles k) = file_descriptors (kfiles k0) -> stays k0 k ->
  heap_only k k' -> kmem k' = kmem k -> kowns A (kheap k0) [] k' -> undone k'.
Proof.
  intros V Ht St [h Hk] Hm Ho. unfold undone. rewrite Hk. split; [by apply vfs_ok_heap|]. split; [done|].
  split; [by eapply owned_done|]. intros q n Hq. rewrite Hm. apply St. by exists A.
Qed.

(** Everything is given back. *)
Lemma process_discard_spec x : partial x -> undone (process_discard ptr x).
Proof.
  intros [V Ht St Ho Hn Htk Hft]. unfold process_discard. unfold process_close_files. rewrite close_files_none by done.
  destruct x as [p k t n]. cbn [lproc lkern ltask] in *. unfold part_cells in Ho.
  set (k1 := match t with None => k | Some (t, task) => task_discard t task k end).
  assert (H1' : kowns A (kheap k0) (List.filter nonnull [proc_stack p] ++ (if program_ptr p =? 0 then [] else program_own p) ++ [ptr]) k1 /\
    heap_only k k1 /\ kmem k1 = kmem k).
  { subst k1. destruct t as [[t task]|]; [|split; [exact Ho|split; [reflexivity|done]]].
    split; [apply task_discard_owns; [by eapply Htk|exact Ho]|apply task_discard_only]. }
  destruct H1' as (Ho1 & O1 & M1). apply krelease_cell in Ho1. set (k2 := krelease (proc_stack p) k1) in *.
  assert (O2 : heap_only k k2) by (etrans; [exact O1|apply krelease_only]).
  destruct (Z.eqb_spec (program_ptr p) 0) as [Hz|Hz].
  - eapply undone_from; [exact V|done|done| | |by apply krelease_owns]; [etrans; [exact O2|apply krelease_only]|exact M1].
  - destruct (free_program_owns _ _ _ _ _ (Hft Hz) Ho1) as (k3 & E & Ho3 & O3 & M3). rewrite E. cbn [snd].
    eapply undone_from; [exact V|done|done| | |by apply krelease_owns].
    + etrans; [exact O2|]. etrans; [exact O3|]. apply krelease_only.
    + simpl. rewrite M3. exact M1.
Qed.

(** ** The stages *)

Lemma partial_start k n :
  vfs_ok F (kfiles k0) -> heap_only k0 k -> stays k0 k -> kowns A (kheap k0) [ptr] k -> partial (Loading process_init k None n).
Proof.
  intros V [h Hk] St Ho. constructor; cbn [lkern lproc ltask].
  - rewrite Hk. by apply vfs_ok_heap.
  - by rewrite Hk.
  - done.
  - exact Ho.
  - unfold no_files, process_init. cbn [handles]. by apply Forall_replicate.
  - done.
  - by intros [].
Qed.

(** A process without a task and a stack. *)
Lemma stage_data filename x r x' :
  partial x -> program_ptr (lproc x) = 0 -> proc_stack (lproc x) = 0 -> ltask x = None ->
  build (process_load_data filename) x = (r, x') ->
  partial x' /\ ltask x' = None /\
  match r with
  | Ok _ => (exists ft q f size, lproc x' = with_program ft q f size (lproc x)) /\ program_loaded (lkern x') (lproc x')
  | Err e => e < 0
  end.
Proof.
  intros [V Ht St Ho Hn Htk Hft] Hpp Hst Hlt E. destruct x as [p k t n]. cbn [lproc lkern ltask] in *. subst t.
  unfold build in E. cbn [lproc lkern ltask ltasks] in E. destruct (process_load_data filename (p, k)) as [r1 [p1 k1]] eqn:E1.
  injection E as <- <-. cbn [lproc lkern ltask]. destruct (owned_live _ _ _ _ _ Ho) as [M HM].
  destruct (load_data_spec F _ _ _ M _ _ _ V HM E1) as [[V1 Ht1 St1] Hr].
  unfold part_cells in Ho. rewrite Hst, Hpp in Ho. cbn [List.filter app Z.eqb] in Ho. change (nonnull 0) with false in Ho. cbv iota in Ho.
  assert (St2 : stays k0 k1) by (by etrans). destruct r1 as [u|e].
  - destruct Hr as ((ft & q & f & size & ->) & Hld & Ho1). set (p1 := with_program ft q f size p) in *.
    pose proof (owned_trans _ _ _ _ _ _ _ _ Ho HM Ho1) as Ho2.
    pose proof (program_loaded_ptr _ _ Hld) as Hq.
    split; [|split; [done|by split; [do 4 eexists|]]]. constructor; cbn [lproc lkern ltask]; try done.
    + by rewrite Ht1.
    + unfold part_cells. rewrite (proj2 (Z.eqb_neq _ 0) Hq). change (proc_stack p1) with (proc_stack p). rewrite Hst. exact Ho2.
    + intros _. destruct Hld as [Hf _ _|Hf Ha Hz _]; [by left|right]. split; [done|]. by rewrite <- Ha.
  - destruct Hr as (He & -> & Hh). split; [|by split]. constructor; cbn [lproc lkern ltask]; try done.
    + by rewrite Ht1.
    + unfold part_cells. rewrite Hst, Hpp. unfold kowns in *. rewrite Hh. exact Ho.
Qed.

Lemma stage_stack x r x' :
  partial x -> program_loaded (lkern x) (lproc x) -> proc_stack (lproc x) = 0 -> ltask x = None ->
  load_stack x = (r, x') ->
  partial x' /\ ltask x' = None /\
  match r with
  | Ok _ => exists stack, lproc x' = with_stack stack (lproc x) /\ run (kheap (lkern x')) stack 4 /\
      program_loaded (lkern x') (lproc x')
  | Err e => e < 0
  end.
Proof.
  intros [V Ht St Ho Hn Htk Hft] Hld Hst Hlt E. destruct x as [p k t n]. cbn [lproc lkern ltask] in *. subst t.
  unfold load_stack, build in E. unfold mbind, io_bind in E. cbn [lproc lkern ltask ltasks] in E.
  destruct (kalloc USER_PROGRAM_STACK_SIZE k) as [q k1] eqn:Ek. pose proof (kalloc_stays _ _ _ _ _ _ _ Ho Ek) as St1.
  unfold part_cells in Ho. rewrite Hst in Ho. cbn [List.filter app] in Ho. change (nonnull 0) with false in Ho. cbv iota in Ho. cbn [app] in Ho.
  destruct (kalloc_spec _ _ _ _ _ _ _ Ho Ek) as [[h Hk] [[-> ->]|(Hq & Ho1 & _ & Hrun & _)]].
  - unfold fail_if in E. change (0 =? 0) with true in E. injection E as <- <-. split; [|done].
    constructor; cbn [lproc lkern ltask]; try done.
  - unfold fail_if in E. rewrite (proj2 (Z.eqb_neq q 0)) in E by done. injection E as <- <-. cbn [lproc lkern ltask].
    split; [|split; [done|]].
    + constructor; cbn [lproc lkern ltask]; rewrite ?Hk; try done.
      * by apply vfs_ok_heap.
      * by etrans.
      * unfold part_cells. cbn [List.filter proc_stack with_stack]. unfold nonnull.
        rewrite (proj2 (Z.eqb_neq q 0)) by done. exact Ho1.
    + exists q. split; [done|]. split; [done|]. destruct (program_loaded_stays _ _ _ Hld St1); [by apply binary_loaded|by apply program_elf_loaded].
Qed.

Lemma stage_name slot filename x r x' :
  partial x -> load_name slot filename x = (r, x') ->
  r = Ok tt /\ partial x' /\ ltask x' = ltask x /\ lkern x' = lkern x /\ exists name, lproc x' = with_name (u16 slot) name (lproc x).
Proof.
  intros [V Ht St Ho Hn Htk Hft] E. destruct x as [p k t n]. injection E as <- <-. split; [done|].
  split; [by constructor|]. split; [done|]. split; [done|]. by eexists.
Qed.

Lemma owned_not_old l k q : kowns A (kheap k0) l k -> q ∈ l -> A !! q = None.
Proof.
  intros (_ & B & _ & _ & Hd & _ & He & _) [n Hn]%He. by eapply map_disjoint_Some_r.
Qed.

Lemma no_allocations p :
  allocations p = replicate (Z.to_nat RORTHOX_MAX_PROGRAM_ALLOCATIONS) (Allocation 0 0) -> alloc_ptrs (allocations p) = [].
Proof.
  intros ->. unfold alloc_ptrs. replace (filter taken _) with ([] : list process_allocation); [done|]. symmetry.
  generalize (Z.to_nat RORTHOX_MAX_PROGRAM_ALLOCATIONS) as n. induction n as [|n IH]; [done|]. simpl replicate.
  rewrite filter_cons, decide_False; [done|]. by intros [].
Qed.

(** What a process with a task owns, as [space] sees it. *)
Lemma part_cells_own m p t task :
  proc_stack p <> 0 -> program_ptr p <> 0 -> alloc_ptrs (allocations p) = [] ->
  part_cells m ptr p (Some (t, task)) =
  t :: (page_directory task :: table_pages m (load32 m (page_directory task)) ++ own p) ++ [ptr].
Proof.
  intros Hs Hp Ha. unfold part_cells, task_cells, own. rewrite (proj2 (Z.eqb_neq _ 0) Hp), Ha, app_nil_r. cbn [List.filter].
  unfold nonnull. rewrite (proj2 (Z.eqb_neq _ 0) Hs). cbn [negb app]. by rewrite <- app_assoc.
Qed.

Context (cur : Z).
Hypothesis Hcur : cur = 0 \/ is_Some (A !! cur).
Hypothesis Hplaced : heap_placed (kheap k0).

Lemma stage_task x r x' :
  partial x -> program_loaded (lkern x) (lproc x) -> run (kheap (lkern x)) (proc_stack (lproc x)) 4 ->
  allocations (lproc x) = replicate (Z.to_nat RORTHOX_MAX_PROGRAM_ALLOCATIONS) (Allocation 0 0) -> ltask x = None ->
  load_task ptr x = (r, x') ->
  partial x' /\
  match r with
  | Ok chunk => exists t task, ltask x' = Some (t, task) /\ chunk = page_directory task /\ Sched.process task = ptr /\
      next task = 0 /\ prev task = 0 /\ lproc x' = with_task t (lproc x) /\
      prepared cur chunk (load32 (kmem (lkern x')) chunk) (lkern x') (lproc x')
  | Err e => e < 0
  end.
Proof.
  intros [V Ht St Ho Hn Htk Hft] Hld Hrun Hal Hlt E. destruct x as [p k t n]. cbn [lproc lkern ltask] in *. subst t.
  unfold load_task in E. cbn [lproc lkern ltask ltasks] in E. destruct (task_new ptr p n k) as [r1 k1] eqn:E1.
  destruct (task_new_spec _ _ _ _ _ _ _ _ _ Ho E1) as ([h Hk] & St1 & Hr).
  assert (V1 : vfs_ok F (kfiles k1)) by (rewrite Hk; by apply vfs_ok_heap).
  assert (Ht1 : file_descriptors (kfiles k1) = file_descriptors (kfiles k0)) by (by rewrite Hk).
  assert (St2 : stays k0 k1) by (by etrans). destruct r1 as [[[t task] n1]|e].
  2:{ injection E as <- <-. destruct Hr as [He Ho1]. split; [|done]. constructor; try done. }
  injection E as <- <-. cbn [lproc lkern ltask]. destruct Hr as (Ho1 & Hc & Hpr & Hnx & Hpv & Hi & Hch).
  pose proof (program_loaded_stays _ _ _ Hld St1) as Hld1. pose proof (program_loaded_ptr _ _ Hld) as Hpp.
  destruct (St1 _ _ Hrun) as [Hrun1 _]. pose proof (run_bounds _ _ _ Hrun1) as Hb.
  pose proof (part_cells_own (kmem k1) p t task ltac:(lia) Hpp (no_allocations p Hal)) as Hcells.
  assert (Ho2 : kowns A (kheap k0) (part_cells (kmem k1) ptr p (Some (t, task))) k1) by exact Ho1.
  split; [constructor; cbn [lproc lkern ltask]; try assumption; by intros ?? [= <- <-]|].
  exists t, task. do 6 (split; [first [assumption|reflexivity]|]). rewrite Hcells in Ho2.
  set (dir := load32 (kmem k1) (page_directory task)) in *.
  assert (Hin : forall q, q ∈ page_directory task :: table_pages (kmem k1) dir ++ own p ->
    q ∈ t :: (page_directory task :: table_pages (kmem k1) dir ++ own p) ++ [ptr])
    by (intros q Hq; apply list_elem_of_further, elem_of_app; by left).
  constructor.
  - intros ->. destruct Hcur as [Hz|Hs]; [destruct (wf_dir _ _ (proj1 Hi)); lia|].
    rewrite (owned_not_old _ _ _ Ho2) in Hs; [by destruct Hs|]. apply Hin, list_elem_of_further, elem_of_app. left.
    apply table_pages_dir.
  - eapply placed_arena; [|exact Hplaced]. by destruct Ho2.
  - destruct Hld1; [by apply binary_loaded|by apply program_elf_loaded].
  - exact Hi.
  - exact Hch.
  - destruct Ho2 as (_ & B & _ & _ & _ & Hd & _). apply NoDup_cons in Hd as [_ Hd]. by apply NoDup_app in Hd as (Hd & _ & _).
  - intros q Hq. eapply owned_run; [exact Ho2|]. apply Hin, Hq.
  - exact Hrun1.
  - exact Hal.
Qed.

(** ** A complete process *)

(** What it owns besides its allocations. *)
Definition base_cells (m : mem) (p : proc) (t : Z) (task : task) : list Z :=
  task_cells m t task ++ proc_stack p :: program_own p ++ [ptr].

Record process_ok k p (t : Z) (task : task) : Prop := ProcessOk {
  po_holds : holds A (kheap k0) (page_directory task) (load32 (kmem k) (page_directory task)) (base_cells (kmem k) p t task) p k;
  po_program : filetype p = PROCESS_FILETYPE_BINARY \/ filetype p = PROCESS_FILETYPE_ELF /\ file_addr (program_elf p) <> 0;
  po_chunk : page_directory task <> 0
}.

(** The allocations from before the load stay. *)
Lemma stays_keeps k k' dir l :
  stays k0 k -> kowns A (kheap k0) l k -> (forall q, q ∈ table_pages (kmem k) dir -> q ∈ l) ->
  keeps (kheap k) (kmem k) (kmem k') dir -> (forall q n, run (kheap k) q n -> run (kheap k') q n) -> stays k0 k'.
Proof.
  intros St Ho Hl K R q n Hq. destruct (St q n Hq) as [Hq1 Hs]. split; [by apply R|]. eapply same_on_trans; [exact Hs|].
  apply K; [done|]. intros Hin%Hl. destruct Hq as (B & HB & Hq). rewrite (live_fun _ _ _ HB Hlive) in Hq.
  by rewrite (owned_not_old _ _ _ Ho Hin) in Hq.
Qed.

Lemma base_cells_part m p t task :
  proc_stack p <> 0 -> program_ptr p <> 0 -> part_cells m ptr p (Some (t, task)) = base_cells m p t task.
Proof.
  intros Hs Hp. unfold part_cells, base_cells. rewrite (proj2 (Z.eqb_neq _ 0) Hp). cbn [List.filter].
  unfold nonnull. by rewrite (proj2 (Z.eqb_neq _ 0) Hs).
Qed.

Lemma base_cells_pages m p t task q :
  q ∈ table_pages m (load32 m (page_directory task)) -> q ∈ base_cells m p t task.
Proof. intros Hq. apply elem_of_app. left. by do 2 apply list_elem_of_further. Qed.

(** Mapping the memory of the process. *)
Lemma stage_map x t task :
  partial x -> ltask x = Some (t, task) ->
  prepared cur (page_directory task) (load32 (kmem (lkern x)) (page_directory task)) (lkern x) (lproc x) ->
  exists x', build (process_map_memory cur (page_directory task)) x = (Ok tt, x') /\ partial x' /\
    ltask x' = Some (t, task) /\ lproc x' = lproc x /\ process_ok (lkern x') (lproc x) t task.
Proof.
  intros [V Ht St Ho Hn Htk Hft] Hlt P. destruct x as [p k t0 n]. cbn [lproc lkern ltask] in *. subst t0.
  set (c := page_directory task) in *. set (dir := load32 (kmem k) c) in *.
  pose proof (program_loaded_ptr _ _ (pp_program _ _ _ _ _ P)) as Hpp. pose proof (run_bounds _ _ _ (pp_stack _ _ _ _ _ P)) as Hst.
  rewrite base_cells_part in Ho by lia.
  destruct (process_map_memory_spec cur c dir k p P) as (m' & E & SP & K & Hpg). unfold build. cbn [lproc lkern ltask ltasks]. rewrite E.
  eexists. split; [reflexivity|]. cbn [lproc lkern ltask].
  assert (Hdir : load32 m' c = dir) by apply (sp_chunk _ _ _ _ _ SP).
  assert (Hbase : base_cells m' p t task = base_cells (kmem k) p t task).
  { unfold base_cells, task_cells. fold c. by rewrite Hdir, Hpg. }
  split; [|split; [done|split; [done|]]].
  - constructor; cbn [lproc lkern ltask]; try assumption.
    + eapply stays_keeps; [exact St|exact Ho|intros q; apply base_cells_pages|exact K|done].
    + rewrite base_cells_part by lia. change (kmem (with_kmem m' k)) with m'. rewrite Hbase. exact Ho.
  - constructor; [|by apply Hft|by eapply Htk]. change (kmem (with_kmem m' k)) with m'. fold c. rewrite Hdir, Hbase.
    constructor; [exact SP|apply (pp_placed _ _ _ _ _ P)|]. rewrite (no_allocations p (pp_alloc _ _ _ _ _ P)). exact Ho.
Qed.

Lemma process_ok_cur k p t task : process_ok k p t task -> load32 (kmem k) (page_directory task) <> cur.
Proof.
  intros [[SP _ Ho] _ _] E. destruct Hcur as [Hz|[n Hn]].
  - destruct (wf_dir _ _ (sp_wf _ _ _ _ _ SP)). lia.
  - rewrite (owned_not_old _ _ cur Ho) in Hn; [done|]. apply elem_of_app. right. apply base_cells_pages. rewrite E. apply table_pages_dir.
Qed.

(** After a load that has reached its end. *)
Record complete x (args : option (list (list Z))) : Prop := Complete {
  co_files : vfs_ok F (kfiles (lkern x));
  co_table : file_descriptors (kfiles (lkern x)) = file_descriptors (kfiles k0);
  co_stays : stays k0 (lkern x);
  co_handles : no_files (lproc x);
  co_task : exists t task, ltask x = Some (t, task) /\ proc_task (lproc x) = t /\ Sched.process task = ptr /\
    next task = 0 /\ prev task = 0 /\ process_ok (lkern x) (lproc x) t task;
  co_args strs : args = Some strs ->
    argc (arguments (lproc x)) = Z.of_nat (length strs) /\
    arguments_at (lkern x) (lproc x) (argv (arguments (lproc x))) strs
}.

Lemma stage_args x t task strs r x' :
  partial x -> ltask x = Some (t, task) -> proc_task (lproc x) = t -> Sched.process task = ptr -> next task = 0 -> prev task = 0 ->
  allocations (lproc x) = replicate (Z.to_nat RORTHOX_MAX_PROGRAM_ALLOCATIONS) (Allocation 0 0) ->
  process_ok (lkern x) (lproc x) t task ->
  build (process_inject_arguments cur (page_directory task) strs) x = (r, x') ->
  match r with Ok _ => complete x' (Some strs) /\ pid (lproc x') = pid (lproc x) | Err e => e < 0 /\ partial x' end.
Proof.
  intros [V Ht St Ho Hn Htk Hft] Hlt Hpt Hpr Hnx Hpv Hal Pk E. pose proof (process_ok_cur _ _ _ _ Pk) as Hdc.
  destruct Pk as [Hh Hpo Hc]. destruct x as [p k t0 n]. cbn [lproc lkern ltask] in *. subst t0.
  set (c := page_directory task) in *. set (dir := load32 (kmem k) c) in *.
  destruct (inject_arguments_spec A (kheap k0) cur c dir (base_cells (kmem k) p t task) Hdc p k strs Hh)
    as (r1 & p' & k' & Ei & Hh' & [[h Hk] K T R] & Hr).
  unfold build in E. cbn [lproc lkern ltask ltasks] in E. rewrite Ei in E. injection E as <- <-.
  assert (Hdir : load32 (kmem k') c = dir) by apply (sp_chunk _ _ _ _ _ (hd_space _ _ _ _ _ _ _ Hh')).
  assert (Hbase : forall p', proc_stack p' = proc_stack p -> program_own p' = program_own p ->
    base_cells (kmem k') p' t task = base_cells (kmem k) p t task).
  { intros p1 E1 E2. unfold base_cells, task_cells. fold c. by rewrite Hdir, T, E1, E2. }
  assert (V' : vfs_ok F (kfiles k')) by (rewrite Hk; by apply vfs_ok_heap).
  assert (Ht' : file_descriptors (kfiles k') = file_descriptors (kfiles k0)) by (by rewrite Hk).
  assert (St' : stays k0 k').
  { eapply stays_keeps; [exact St|exact (hd_owns _ _ _ _ _ _ _ Hh)| |intros q c' Hq; by apply K|intros q c' Hq; by apply R].
    intros q Hq. apply elem_of_app. right. by apply base_cells_pages. }
  destruct r1 as [u|e].
  - destruct Hr as (av & al & -> & Hargs). split; [|done]. constructor; cbn [lproc lkern ltask]; try assumption.
    + exists t, task. do 5 (split; [first [reflexivity|assumption]|]). constructor; [|assumption..].
      fold c. rewrite Hdir, Hbase by reflexivity. exact Hh'.
    + intros ? [= <-]. split; [reflexivity|exact Hargs].
  - destruct Hr as (He & Hp' & Hptrs). split; [done|]. rewrite (no_allocations p Hal) in Hptrs. apply Permutation_nil_r in Hptrs.
    assert (Hown : program_own p' = program_own p /\ proc_stack p' = proc_stack p /\ program_ptr p' = program_ptr p /\
      handles p' = handles p /\ filetype p' = filetype p /\ program_elf p' = program_elf p)
      by (rewrite Hp'; repeat split; reflexivity).
    destruct Hown as (Eo & Es & Ep & Eh & Ef & Ee).
    destruct (sp_stack _ _ _ _ _ (hd_space _ _ _ _ _ _ _ Hh)) as (B & HB & Hst).
    pose proof (live_bounds _ _ _ _ HB Hst) as Hb. pose proof (proj2 (sp_type _ _ _ _ _ (hd_space _ _ _ _ _ _ _ Hh))) as Hpp.
    constructor; cbn [lproc lkern ltask]; rewrite ?Ep, ?Ef, ?Ee; try assumption.
    + rewrite base_cells_part by (rewrite ?Es, ?Ep; lia || done). rewrite Hbase by done.
      pose proof (hd_owns _ _ _ _ _ _ _ Hh') as Ho'. by rewrite Hptrs in Ho'.
    + unfold no_files. by rewrite Eh.
Qed.

(** The whole load. *)
Lemma load_process_spec k n slot filename args r x' :
  partial (Loading process_init k None n) ->
  load_process cur ptr slot filename args (Loading process_init k None n) = (r, x') ->
  match r with Ok _ => complete x' args /\ pid (lproc x') = u16 slot | Err e => e < 0 /\ partial x' end.
Proof.
  intros P0 E. unfold load_process in E.
  apply io_bind_inv in E as [(e & E1 & ->)|(u1 & x1 & E1 & E)];
    destruct (stage_data _ _ _ _ P0 eq_refl eq_refl eq_refl E1) as (P1 & T1 & Hr1); [done|].
  destruct Hr1 as ((ft & q & f & size & L1) & Ld1). assert (S1 : proc_stack (lproc x1) = 0) by (by rewrite L1).
  apply io_bind_inv in E as [(e & E2 & ->)|(u2 & x2 & E2 & E)];
    destruct (stage_stack _ _ _ P1 Ld1 S1 T1 E2) as (P2 & T2 & Hr2); [done|].
  destruct Hr2 as (stack & L2 & Run2 & Ld2).
  apply io_bind_inv in E as [(e & E3 & ->)|(u3 & x3 & E3 & E)];
    destruct (stage_name _ _ _ _ _ P2 E3) as (R3 & P3 & T3 & K3 & name & L3); [done|].
  assert (Ld3 : program_loaded (lkern x3) (lproc x3)).
  { rewrite K3, L3. destruct Ld2; [by apply binary_loaded|by apply program_elf_loaded]. }
  assert (Run3 : run (kheap (lkern x3)) (proc_stack (lproc x3)) 4) by (rewrite K3, L3, L2; exact Run2).
  assert (Al3 : allocations (lproc x3) = replicate (Z.to_nat RORTHOX_MAX_PROGRAM_ALLOCATIONS) (Allocation 0 0))
    by (by rewrite L3, L2, L1).
  rewrite T2 in T3.
  apply io_bind_inv in E as [(e & E4 & ->)|(c & x4 & E4 & E)];
    destruct (stage_task _ _ _ P3 Ld3 Run3 Al3 T3 E4) as (P4 & Hr4); [done|].
  destruct Hr4 as (t & task & T4 & -> & Hpr & Hnx & Hpv & L4 & Pre).
  destruct (stage_map _ _ _ P4 T4 Pre) as (x5 & E5 & P5 & T5 & L5 & Ok5).
  rewrite (io_bind_run _ _ _ _ _ E5) in E. rewrite <- L5 in Ok5.
  assert (Hpid : pid (lproc x5) = u16 slot) by (by rewrite L5, L4, L3).
  assert (Hpt : proc_task (lproc x5) = t) by (by rewrite L5, L4).
  destruct args as [strs|].
  - pose proof (stage_args x5 t task strs r x' P5 T5 Hpt Hpr Hnx Hpv) as Hs. rewrite Hpid in Hs. apply Hs; [|exact Ok5|exact E].
    rewrite L5, L4. exact Al3.
  - injection E as <- <-. split; [|done]. destruct P5. constructor; try assumption; [|done].
    exists t, task. by do 5 (split; [first [reflexivity|assumption]|]).
Qed.
End stages.

(** ** Publishing and ending *)

(** What publishing and removing leave of a task. *)
Definition same_task (t t' : task) : Prop := page_directory t' = page_directory t /\ Sched.process t' = Sched.process t.

#[export] Instance same_task_preorder : PreOrder same_task.
Proof. split; [by split|]. intros a b c [? ?] [? ?]. split; congruence. Qed.

(** Every task is still there, and the processor uses the same directory. *)
Definition tasks_kept (c c' : sched) : Prop :=
  cpu c' = cpu c /\
  forall x t, task_store c !! x = Some t -> exists t', task_store c' !! x = Some t' /\ same_task t t'.

#[export] Instance tasks_kept_preorder : PreOrder tasks_kept.
Proof.
  split; [intros c; split; [done|]; intros x t Ht; by exists t|]. intros a b c [Cab Hab] [Cbc Hbc]. split; [congruence|].
  intros x t (t1 & Ht1 & S1)%Hab. apply Hbc in Ht1 as (t2 & Ht2 & S2). exists t2. split; [done|by etrans].
Qed.

Lemma update_kept c c' q f : update q f c = Some c' -> (forall t, same_task t (f t)) -> tasks_kept c c'.
Proof.
  unfold update. destruct (task_store c !! q) as [tq|] eqn:Hq; [|done]. intros [= <-] Hf. split; [done|]. intros x t Hx.
  simpl. destruct (decide (q = x)) as [->|Hne].
  - rewrite lookup_insert_eq. exists (f tq). split; [done|]. rewrite Hx in Hq. injection Hq as <-. apply Hf.
  - rewrite lookup_insert_ne by done. exists t. done.
Qed.

Lemma store_kept c c' : cpu c' = cpu c -> task_store c' = task_store c -> tasks_kept c c'.
Proof. intros Ec E. split; [done|]. intros x t Hx. exists t. by rewrite E. Qed.

Lemma task_publish_kept p c c' : task_publish p c = Some c' -> tasks_kept c c'.
Proof.
  unfold task_publish. destruct (_ =? 0); [intros [= <-]; by apply store_kept|].
  destruct (update (task_tail c) _ c) as [c1|] eqn:E1; [|done]. simpl. destruct (update p _ c1) as [c2|] eqn:E2; [|done]. simpl.
  intros [= <-]. transitivity c1; [by eapply update_kept|]. transitivity c2; [by eapply update_kept|]. by apply store_kept.
Qed.

Lemma task_list_remove_kept p c c' : task_list_remove p c = Some c' -> tasks_kept c c'.
Proof.
  unfold task_list_remove. destruct (task_store c !! p) as [t|]; [|done]. cbn [mbind option_bind].
  assert (Hif : forall (b : bool) q f c1 c2, (forall t, same_task t (f t)) ->
    (if b then Some c1 else update q f c1) = Some c2 -> tasks_kept c1 c2).
  { intros [] q f c1 c2 Hf E; [by injection E as <-|by eapply update_kept]. }
  destruct (if prev t =? 0 then _ else _) as [c1|] eqn:E1; [|done]. apply Hif in E1; [|done]. cbn [option_bind mbind].
  destruct (if next t =? 0 then _ else _) as [c2|] eqn:E2; [|done]. apply Hif in E2; [|done]. cbn [option_bind mbind].
  set (c3 := if p =? current_task _ then _ else _). assert (E3 : cpu c3 = cpu c2 /\ task_store c3 = task_store c2).
  { subst c3. by repeat destruct (_ =? _). }
  destruct (update p _ c3) as [c4|] eqn:E4; [|done]. apply update_kept in E4; [|done]. cbn [option_bind mbind].
  intros E5%update_kept; [|done]. etrans; [exact E1|]. etrans; [exact E2|]. transitivity c3; [by apply store_kept; apply E3|by etrans].
Qed.

Lemma publish_new c ts t task :
  sched_wf c ts -> t <> 0 -> t ∉ ts -> next task = 0 -> prev task = 0 ->
  exists c' task', task_publish t (with_store (<[t := task]> (task_store c)) c) = Some c' /\ sched_wf c' (ts ++ [t]) /\
    task_store c' !! t = Some task' /\ same_task task task' /\
    cpu c' = cpu c /\ forall x y, x <> t -> task_store c !! x = Some y -> exists y', task_store c' !! x = Some y' /\ same_task y y'.
Proof.
  intros W Ht Hin Hn Hp. assert (W' : sched_wf (with_store (<[t := task]> (task_store c)) c) ts).
  { destruct W. constructor; simpl; try done.
    - by rewrite lookup_insert_ne.
    - intros i q Hq. destruct (wf_linked i q Hq) as (tq & Htq & Hl). exists tq. split; [|done].
      rewrite lookup_insert_ne; [done|]. intros ->. apply Hin. by eapply list_elem_of_lookup_2. }
  destruct (task_publish_spec _ ts t W') as (c' & E & Wf & _); [|done|].
  { split; [done|]. exists task. simpl. by rewrite lookup_insert_eq. }
  pose proof (task_publish_kept _ _ _ E) as [Ec K]. destruct (K t task) as (task' & Ht' & Hs); [simpl; by rewrite lookup_insert_eq|].
  exists c', task'. split; [done|]. split; [done|]. split; [done|]. split; [done|]. split; [done|].
  intros x y Hx Hy. apply K. simpl. by rewrite lookup_insert_ne.
Qed.

Lemma forget_task c ts t : sched_wf c ts -> t ∉ ts -> sched_wf (with_store (delete t (task_store c)) c) ts.
Proof.
  intros [] Ht. constructor; simpl; try done.
  - by apply lookup_delete_None; right.
  - intros i q Hq. destruct (wf_linked i q Hq) as (tq & Htq & Hl). exists tq. split; [|done].
    rewrite lookup_delete_ne; [done|]. intros ->. apply Ht. by eapply list_elem_of_lookup_2.
Qed.

Section life.
Context {D H : Type} `{BlockDeviceLaws D} `{AllocatorLaws H} (F : filesystem D H) `{!FilesystemLaws F}.
Implicit Types (s : sys D H) (p : proc).

(** The kernel between two calls: the file layer can be used, the tasks [ts] are listed, the structs of the tasks and the
    processes are allocated, and so is the directory in use, if any. *)
Record system_ok s (A : gmap Z Z) (ts : list Z) : Prop := SystemOk {
  so_files : vfs_ok F (kfiles (skern s));
  so_live : live (kheap (skern s)) A;
  so_placed : heap_placed (kheap (skern s));
  so_sched : sched_wf (ssched s) ts;
  so_tasks q : q ∈ ts -> is_Some (A !! q);
  so_cur : current_directory (cpu (ssched s)) = 0 \/ is_Some (A !! current_directory (cpu (ssched s)));
  so_slots : length (slots s) = Z.to_nat RORTHOX_MAX_PROCESSES;
  so_procs q : is_Some (procs s !! q) -> is_Some (A !! q);
  so_current : current_process s = 0 \/ is_Some (A !! current_process s)
}.

(** The process at [ptr] in the table: it was loaded in the state [k0] with the allocations [A]. *)
Record process_in s (A : gmap Z Z) (k0 : kern D H) (ts : list Z) (ptr : Z) p (task : task) : Prop := ProcessIn {
  pi_proc : procs s !! ptr = Some p;
  pi_slot : slots s !! Z.to_nat (pid p) = Some ptr;
  pi_sched : sched_wf (ssched s) ts;
  pi_listed : proc_task p ∈ ts;
  pi_task : task_store (ssched s) !! proc_task p = Some task;
  pi_owner : Sched.process task = ptr;
  pi_ok : process_ok A k0 ptr (skern s) p (proc_task p) task;
  pi_files : no_files p
}.

Lemma process_in_ptr s A k0 ts ptr p task : process_in s A k0 ts ptr p task -> ptr <> 0.
Proof.
  intros Hin ->. destruct (owned_run _ _ _ _ _ 0 (hd_owns _ _ _ _ _ _ _ (po_holds _ _ _ _ _ _ _ (pi_ok _ _ _ _ _ _ _ Hin)))) as [n Hn];
    [|pose proof (run_bounds _ _ _ Hn); lia]. apply elem_of_app. right. apply elem_of_app. right.
  apply list_elem_of_further, elem_of_app. right. apply list_elem_of_here.
Qed.

(** What a load has done. *)
Definition load_done s s' (A : gmap Z Z) (ts : list Z) (slot : Z) (args : option (list (list Z))) (r : result Z) : Prop :=
  vfs_ok F (kfiles (skern s')) /\ file_descriptors (kfiles (skern s')) = file_descriptors (kfiles (skern s)) /\
  (forall q n, A !! q = Some n -> same_on (kmem (skern s)) (kmem (skern s')) q (q + 4096 * n)) /\
  current_process s' = current_process s /\ cpu (ssched s') = cpu (ssched s) /\
  (forall q t, is_Some (A !! q) -> task_store (ssched s) !! q = Some t ->
     exists t', task_store (ssched s') !! q = Some t' /\ same_task t t') /\
  match r with
  | Ok ptr => slots s !! Z.to_nat slot = Some 0 /\ slots s' = <[Z.to_nat slot := ptr]> (slots s) /\ A !! ptr = None /\
      exists p task, procs s' = <[ptr := p]> (procs s) /\ (pid p = slot /\ 0 <= slot) /\
        process_in s' A (skern s) (ts ++ [proc_task p]) ptr p task /\
        forall strs, args = Some strs -> argc (arguments p) = Z.of_nat (length strs) /\
          arguments_at (skern s') p (argv (arguments p)) strs
  | Err e => e < 0 /\ kheap (skern s') = kheap (skern s) /\ procs s' = procs s /\ slots s' = slots s /\
      exists n, ssched s' = with_tasks n (ssched s)
  end.

Lemma with_tasks_same c : with_tasks (tasks c) c = c.
Proof. by destruct c. Qed.

Lemma load_spec s A ts filename slot args r s' :
  system_ok s A ts -> process_load_for_slot_with_arguments filename slot args s = (r, s') -> load_done s s' A ts slot args r.
Proof.
  intros [V Hl Hpl W Hts Hcur Hsl _ _] E. unfold process_load_for_slot_with_arguments in E.
  assert (Hsame : forall e, e < 0 -> load_done s s A ts slot args (Err e)).
  { intros e He. do 2 (split; [done|]). split; [intros q n _; apply same_on_refl|]. do 2 (split; [done|]).
    split; [intros q t _ Hq; exists t; split; [exact Hq|reflexivity]|]. do 4 (split; [done|]).
    exists (tasks (ssched s)). by rewrite with_tasks_same. }
  destruct (_ || _) eqn:Hg; [injection E as <- <-; by apply Hsame|].
  apply orb_false_iff in Hg as [Hg1%Z.ltb_ge Hg2%Z.leb_gt]. unfold RORTHOX_MAX_PROCESSES in Hg2, Hsl.
  assert (Hslot : slots s !! Z.to_nat slot = Some (process_get slot s)).
  { unfold process_get. rewrite (proj2 (Z.ltb_ge slot 0)), (proj2 (Z.leb_gt _ slot)) by (unfold RORTHOX_MAX_PROCESSES; lia). cbn [orb].
    destruct (slots s !! Z.to_nat slot) as [q|] eqn:Eq; [done|]. apply lookup_ge_None in Eq. lia. }
  destruct (Z.eqb_spec (process_get slot s) 0) as [Hz|Hz]; cbn [negb] in E; [|injection E as <- <-; by apply Hsame].
  rewrite Hz in Hslot. destruct (kalloc sizeof_process (skern s)) as [ptr k] eqn:Ek.
  pose proof (owned_nil (fun _ => True) _ _ Hl) as Hn. pose proof (kalloc_stays _ _ _ _ _ _ _ Hn Ek) as St.
  destruct (kalloc_spec _ _ _ _ _ _ _ Hn Ek) as [Hh [[-> ->]|(Hp & Ho & _)]].
  { injection E as <- <-. replace (with_skern (skern s) s) with s by (by destruct s). by apply Hsame. }
  rewrite (proj2 (Z.eqb_neq ptr 0)) in E by done. set (cur := current_directory (cpu (ssched s))) in *.
  pose proof (partial_start F A (skern s) ptr k (tasks (ssched s)) V Hh St Ho) as P0.
  destruct (load_process cur ptr slot filename args _) as [r1 x] eqn:El.
  pose proof (load_process_spec F A (skern s) ptr Hl cur Hcur Hpl _ _ _ _ _ _ _ P0 El) as Hr. destruct r1 as [u|e].
  - destruct Hr as [[V' Ht' St' Hh' (t & task & Hlt & Hpt & Hpr & Hnx & Hpv & Ok') Hargs] Hpid].
    unfold process_publish in E. rewrite Hlt in E. rewrite u16_small in Hpid by lia.
    assert (HA : forall q, q ∈ base_cells ptr (kmem (lkern x)) (lproc x) t task -> A !! q = None).
    { intros q Hq. eapply owned_not_old; [exact (hd_owns _ _ _ _ _ _ _ (po_holds _ _ _ _ _ _ _ Ok'))|]. apply elem_of_app. by right. }
    assert (Htin : t ∈ base_cells ptr (kmem (lkern x)) (lproc x) t task) by (apply elem_of_app; left; apply list_elem_of_here).
    assert (Hpin : ptr ∈ base_cells ptr (kmem (lkern x)) (lproc x) t task).
    { apply elem_of_app. right. apply list_elem_of_further, elem_of_app. right. apply list_elem_of_here. }
    assert (Ht0 : t <> 0).
    { intros ->. destruct (owned_run _ _ _ _ _ 0 (hd_owns _ _ _ _ _ _ _ (po_holds _ _ _ _ _ _ _ Ok'))) as [n Hn0];
        [apply elem_of_app; by right|]. pose proof (run_bounds _ _ _ Hn0). lia. }
    assert (Hnew : t ∉ ts). { intros Hin%Hts. rewrite (HA t Htin) in Hin. by destruct Hin. }
    assert (W' : sched_wf (with_tasks (ltasks x) (ssched s)) ts) by (destruct W; by constructor).
    destruct (publish_new _ ts t task W' Ht0 Hnew Hnx Hpv) as (c' & task' & Ep & Wc & Hst & [Hs1 Hs2] & Hkept).
    rewrite Ep in E. injection E as <- <-. split; [exact V'|]. split; [exact Ht'|].
    split; [intros q n Hq; apply St'; by exists A|]. split; [done|].
    split; [apply Hkept|]. split; [intros y ty Hy; apply Hkept; intros ->; rewrite (HA t Htin) in Hy; by destruct Hy|]. split; [done|]. split; [done|]. split; [by apply HA|].
    exists (lproc x), task'. split; [done|]. split; [split; [exact Hpid|exact Hg1]|]. split; [|exact Hargs]. constructor; cbn [procs slots ssched skern].
    + apply lookup_insert_eq.
    + rewrite Hpid. apply list_lookup_insert_eq. by eapply lookup_lt_Some.
    + by rewrite Hpt.
    + rewrite Hpt. apply elem_of_app. right. apply list_elem_of_here.
    + by rewrite Hpt.
    + congruence.
    + rewrite Hpt. destruct Ok' as [Oh Op Oc]. constructor; [|done|by rewrite Hs1].
      unfold base_cells, task_cells in *. rewrite Hs1. exact Oh.
    + exact Hh'.
  - destruct Hr as [He P1]. rewrite (proj2 (Z.ltb_lt e 0)) in E by done. injection E as <- <-.
    destruct (process_discard_spec F A (skern s) ptr Hl x P1) as (V' & Ht' & Hh' & Hm'). do 5 (split; [done|]).
    split; [intros q t _ Hq; exists t; split; [exact Hq|reflexivity]|]. do 4 (split; [done|]). by eexists.
Qed.

(** Everything the process at [ptr] had is given back: the kernel has the heap of [k0], and the others keep what they have. *)
Record released s s' (A : gmap Z Z) (k0 : kern D H) (ts : list Z) (ptr : Z) p : Prop := Released {
  re_heap : kheap (skern s') = kheap k0;
  re_only : heap_only (skern s) (skern s');
  re_memory q n : A !! q = Some n -> same_on (kmem (skern s)) (kmem (skern s')) q (q + 4096 * n);
  re_procs : procs s' = delete ptr (procs s);
  re_slots : slots s' = <[Z.to_nat (pid p) := 0]> (slots s);
  re_sched : sched_wf (ssched s') ts;
  re_cpu : cpu (ssched s') = cpu (ssched s);
  re_tasks x t : x <> proc_task p -> task_store (ssched s) !! x = Some t ->
    exists t', task_store (ssched s') !! x = Some t' /\ same_task t t'
}.

(** The memory of the process, given back in the order of the code. *)
Lemma release_memory A (k0 : kern D H) ptr (k : kern D H) p t task cur :
  live (kheap k0) A -> process_ok A k0 ptr k p t task -> cur = 0 \/ is_Some (A !! cur) ->
  exists al (k1 k2 : kern D H), process_terminate_allocation cur (page_directory task) (p, k) = (with_allocations al p, k1) /\
    process_free_program_data (p, task_discard t task k1) = (0, (p, k2)) /\
    let k' := krelease ptr (krelease (proc_stack p) k2) in
    kheap k' = kheap k0 /\ heap_only k k' /\
    forall q n, A !! q = Some n -> same_on (kmem k) (kmem k') q (q + 4096 * n).
Proof.
  intros Hl Pk Hcur. pose proof (process_ok_cur A k0 ptr cur Hcur _ _ _ _ Pk) as Hdc. destruct Pk as [Hh Hprog Hc].
  destruct (terminate_allocation_spec A (kheap k0) cur _ _ _ Hdc p k Hh) as (al & k1 & E1 & Hh1 & S1 & Hal).
  pose proof (hd_owns _ _ _ _ _ _ _ Hh1) as Ho1. cbn [with_allocations allocations] in Ho1. rewrite Hal in Ho1. cbn [app] in Ho1.
  assert (Hbase : base_cells ptr (kmem k) p t task = base_cells ptr (kmem k1) p t task).
  { unfold base_cells, task_cells. rewrite (sp_chunk _ _ _ _ _ (hd_space _ _ _ _ _ _ _ Hh1)), (st_pages _ _ _ _ S1). done. }
  rewrite Hbase in Ho1. unfold base_cells in Ho1. apply (task_discard_owns A (kheap k0) _ _ _ _ Hc) in Ho1.
  destruct (task_discard_only k1 t task) as [O2 M2]. set (k2 := task_discard t task k1) in *.
  assert (Ho2 : kowns A (kheap k0) (program_own p ++ [proc_stack p; ptr]) k2).
  { unfold kowns in *. eapply owned_perm; [|reflexivity|exact Ho1]. rewrite (Permutation_middle (program_own p)). done. }
  destruct (free_program_owns A (kheap k0) _ _ _ Hprog Ho2) as (k3 & E3 & Ho3 & O3 & M3).
  exists al, k1, k3. split; [exact E1|]. split; [exact E3|]. cbv zeta. clear E1 E3. do 2 apply krelease_owns in Ho3.
  split; [by eapply owned_done|]. split.
  { etrans; [apply (st_only _ _ _ _ S1)|]. etrans; [exact O2|]. etrans; [exact O3|]. etrans; [apply krelease_only|]. apply krelease_only. }
  intros q n Hq. change (same_on (kmem k) (kmem k3) q (q + 4096 * n)). rewrite M3, M2. pose proof (hd_owns _ _ _ _ _ _ _ Hh) as Ho.
  assert (Hnot : forall x, x ∈ alloc_ptrs (allocations p) ++ base_cells ptr (kmem k) p t task -> x <> q).
  { intros x Hx ->. pose proof (owned_not_old A k0 _ _ _ Ho Hx) as Hnone. by rewrite Hnone in Hq. }
  apply (st_keeps _ _ _ _ S1); [by eapply owned_old| |].
  - intros Hin. apply (Hnot q); [apply elem_of_app; by left|done].
  - intros Hin. apply (Hnot q); [apply elem_of_app; right; by apply base_cells_pages|done].
Qed.

(** The task, unlinked and forgotten. *)
Lemma remove_task c ts1 ts2 t :
  sched_wf c (ts1 ++ t :: ts2) ->
  exists c', task_list_remove t c = Some c' /\ let c'' := with_store (delete t (task_store c')) c' in
    sched_wf c'' (ts1 ++ ts2) /\ cpu c'' = cpu c /\
    forall x y, x <> t -> task_store c !! x = Some y -> exists y', task_store c'' !! x = Some y' /\ same_task y y'.
Proof.
  intros W. destruct (task_list_remove_spec _ ts1 ts2 t W) as (c' & Er & Wc & _). exists c'. split; [done|]. cbv zeta.
  destruct (task_list_remove_kept _ _ _ Er) as [Ec K]. split; [|split; [done|]].
  - apply forget_task; [exact Wc|]. pose proof (wf_nodup _ _ W) as Hd. apply NoDup_app in Hd as (_ & Hd & Hd2).
    apply NoDup_cons in Hd2 as [Hd2 _]. intros [Hx|Hx]%elem_of_app; [|by apply Hd2]. apply (Hd _ Hx), list_elem_of_here.
  - intros x y Hx Hy. simpl. rewrite lookup_delete_ne by done. by apply K.
Qed.

(** Ending a process: everything it owned is given back. *)
Lemma terminate_spec s A k0 ts1 ts2 ptr p task :
  live (kheap k0) A -> process_in s A k0 (ts1 ++ proc_task p :: ts2) ptr p task ->
  current_directory (cpu (ssched s)) = 0 \/ is_Some (A !! current_directory (cpu (ssched s))) ->
  let others := <[Z.to_nat (pid p) := 0]> (slots s) in
  let next := list_find (fun q => q <> 0) others in
  exists s', process_terminate ptr s = ((if decide (current_process s = ptr /\ next = None) then Err 1 else Ok 0), s') /\
    (current_process s <> ptr \/ next <> None ->
     released s s' A k0 (ts1 ++ ts2) ptr p /\
     current_process s' = (if decide (current_process s = ptr) then default 0 (snd <$> next) else current_process s)).
Proof.
  intros Hl [Hpr Hsl W Hin Hst Hpo Pk Hnf] Hcur. cbv zeta.
  assert (Ht0 : proc_task p <> 0) by (intros Hz; rewrite Hz in Hst; by rewrite (wf_store _ _ W) in Hst).
  destruct (release_memory A k0 ptr (skern s) p _ task _ Hl Pk Hcur) as (al & k1 & k2 & E1 & E2 & Hh & Honly & Hmem). clear Pk.
  destruct (remove_task _ ts1 ts2 (proc_task p) W) as (c' & Er & Wd & Hcpu & Hts).
  unfold process_terminate. rewrite Hpr, Hst. change (default 0 (page_directory <$> Some task)) with (page_directory task).
  unfold release_process, process_close_files. rewrite close_files_none by done. rewrite E1. clear E1.
  cbv iota beta. set (s1 := with_procs _ _). unfold task_free at 1.
  unfold mbind at 1, io_bind at 1. rewrite (proj2 (Z.eqb_neq _ 0) Ht0).
  change (ssched s1) with (ssched s). rewrite Hst, Er. change (skern s1) with k1.
  unfold mbind at 1, io_bind at 1. cbn [skern with_skern with_ssched]. rewrite E2. clear E2. rewrite io_status. change (0 <? 0) with false. cbv iota.
  rewrite io_modify. unfold process_unlink. rewrite io_bind_assoc, io_modify, io_bind_assoc, io_gets.
  cbn [current_process with_slots with_skern with_ssched with_procs slots s1].
  assert (Hrel : forall cp, released s (Sys (krelease ptr (krelease (proc_stack p) k2)) (with_store (delete (proc_task p) (task_store c')) c')
    (delete ptr (<[ptr := with_allocations al p]> (procs s))) (<[Z.to_nat (pid p) := 0]> (slots s)) cp) A k0 (ts1 ++ ts2) ptr p).
  { intros cp. constructor; cbn [skern procs slots ssched]; try assumption; [by rewrite delete_insert_eq|done]. }
  destruct (Z.eqb_spec (current_process s) ptr) as [Ecur|Ecur].
  - unfold process_switch_to_any. unfold mbind at 1, io_bind at 1. cbn [slots with_slots with_skern with_ssched with_procs s1].
    destruct (list_find _ _) as [[i q]|] eqn:Hf.
    + rewrite decide_False by (by intros [_ ?]). eexists. split; [reflexivity|]. intros _. rewrite decide_True by done. split; [apply Hrel|done].
    + rewrite decide_True by done. eexists. split; [reflexivity|]. by intros [?|?].
  - rewrite io_mret. rewrite decide_False by (by intros [? _]). eexists. split; [reflexivity|]. intros _.
    rewrite decide_False by done. split; [apply Hrel|done].
Qed.
End life.

(** ** Example: the first file of the volume is loaded *)

(** The heap with one block, the kernel's chunk. *)
Definition life_empty : Heap.heap := Heap.Heap (Heap.HeapTable (replicate (Z.to_nat 4096) 0) 4096) 16777216.
Definition life_old : gmap Z Z := {[ 16777216 := 1 ]}.

Definition life_kern : kern ram_disk Heap.heap := with_kheap (snd (kmalloc life_empty 4)) (Kern demo_vfs ∅).

Lemma life_chunk : fst (kmalloc life_empty 4) = 16777216.
Proof. reflexivity. Qed.

Lemma life_live : live (snd (kmalloc life_empty 4)) life_old.
Proof.
  pose proof life_chunk as Hc. destruct (kmalloc life_empty 4) as [q h] eqn:E. cbn [fst snd] in *. subst q.
  destruct (live_malloc life_empty ∅ 4 16777216 h) as [[? _]|(_ & _ & Hl)]; [|lia|done|done|exact Hl].
  exists ∅. rewrite kmap_empty. split; [|done]. by apply empty_repr.
Qed.

Lemma life_kern_ok : vfs_ok fat16_init (kfiles life_kern) /\ live (kheap life_kern) life_old /\ heap_placed (kheap life_kern).
Proof. split; [apply vfs_ok_heap, demo_vfs_ok|]. split; [exact life_live|]. apply (placed_arena life_empty); [apply arena_malloc|by split]. Qed.

(** Every allocation ends below [top], and there is room behind it. *)
Definition room (h : Heap.heap) (A : gmap Z Z) (top : Z) : Prop :=
  live h A /\ 0 <= top /\ forall p n, A !! p = Some n -> p + 4096 * n <= 16777216 + 4096 * top.

Lemma room_malloc (h : Heap.heap) A top size q h' :
  room h A top -> arena h = (16777216, 4096) -> 0 < size < 2 ^ 32 -> top + blocks_for size <= 4096 -> kmalloc h size = (q, h') ->
  q <> 0 /\ room h' (<[q := blocks_for size]> A) (top + blocks_for size) /\ arena h' = (16777216, 4096) /\
  used (<[q := blocks_for size]> A) = blocks_for size + used A.
Proof.
  intros (Hl & Ht & Hb) Ha Hs Hr Hm. pose proof (arena_malloc h size) as Har. rewrite Hm, Ha in Har. simpl in Har.
  assert (Hq : q <> 0 /\ q + 4096 * blocks_for size <= 16777216 + 4096 * (top + blocks_for size)).
  { destruct Hl as (L & R & ->). injection Ha as Hsa Hto.
    assert (Hfree : free_run (Heap.total (table h)) L top (blocks_for size)).
    { split; [done|]. rewrite Hto. split; [lia|]. intros i b Hi (n & Hn & Hc).
      assert (Hbn : block_addr h b + 4096 * n <= 16777216 + 4096 * top) by (apply Hb, live_lookup; by exists b).
      unfold block_addr in Hbn. lia. }
    destruct (heap_malloc_spec h L size q h' R ltac:(lia) Hm) as [(_ & _ & [?|Hno])|(b & -> & _ & Hfr & Hmin & _)];
      [lia|by apply Hno in Hfree|].
    assert (b <= top) by (destruct (Z.le_gt_cases b top); [done|]; by destruct (Hmin top)). pose proof (repr_addr _ _ R). destruct Hfr as [? _]. lia. }
  destruct Hq as [Hq Hend]. split; [done|]. destruct (live_malloc h A size q h' Hl ltac:(lia) Hm) as [[? _]|(_ & Hf & Hl')]; [done|].
  split; [|split; [done|]]; [|apply used_insert; by eapply fresh_none]. split; [done|].
  split; [unfold blocks_for; lia|]. intros p n. rewrite lookup_insert_Some. intros [[<- <-]|[_ Hp]]; [done|].
  pose proof (Hb p n Hp). unfold blocks_for. lia.
Qed.

Lemma room_kalloc (k : kern ram_disk Heap.heap) A l top size q k' :
  kowns life_old (kheap life_kern) l k -> room (kheap k) A top -> arena (kheap k) = (16777216, 4096) -> 0 < size < 2 ^ 32 ->
  top + blocks_for size <= 4096 -> kalloc size k = (q, k') ->
  kowns life_old (kheap life_kern) (q :: l) k' /\ room (kheap k') (<[q := blocks_for size]> A) (top + blocks_for size) /\
  arena (kheap k') = (16777216, 4096) /\ used (<[q := blocks_for size]> A) = blocks_for size + used A /\
  run (kheap k') q (blocks_for size) /\ stays k k' /\ heap_only k k'.
Proof.
  intros Ho Hr Ha Hs Ht E. pose proof (kalloc_stays _ _ _ _ _ _ _ Ho E) as St.
  destruct (kalloc_spec _ _ _ _ _ _ _ Ho E) as [Hh Hq]. rewrite u32_small in Hq by lia.
  unfold kalloc, kzalloc in E. rewrite u32_small in E by lia. destruct (kmalloc (kheap k) size) as [q1 h1] eqn:Em.
  destruct (room_malloc _ _ _ _ _ _ Hr Ha Hs Ht Em) as (Hq1 & Hr1 & Ha1 & Hu1).
  rewrite (proj2 (Z.eqb_neq q1 0)) in E by done. injection E as -> <-.
  destruct Hq as [[? _]|(_ & Ho1 & _ & Hrun & _)]; [done|]. done.
Qed.

Lemma task_new_room (k : kern ram_disk Heap.heap) A top ptr p n r k' :
  room (kheap k) A top -> arena (kheap k) = (16777216, 4096) -> used A + 1027 <= 4096 -> task_new ptr p n k = (r, k') ->
  exists t, r = Ok t.
Proof.
  intros (Hl & _) Ha Hu E. unfold task_new, task_init, kalloc in E. rewrite u32_small in E by done.
  assert (Hc : capacity (kheap k) = 4096) by (injection Ha as _ Hc; exact Hc).
  destruct (kzalloc (kheap k, kmem k) sizeof_task) as [t [h1 m1]] eqn:Ez. unfold sizeof_task in Ez.
  pose proof (kzalloc_room _ _ _ 84 _ _ _ Hl ltac:(lia) ltac:(lia) Ez) as Ht. rewrite (proj2 (Z.eqb_neq t 0)) in E by done.
  destruct (kzalloc_spec _ _ _ 84 _ _ _ Hl ltac:(lia) Ez) as (Ha1 & [[? _]|(_ & Hf & Hl1 & _)]); [done|].
  change (blocks_for 84) with 1 in *. pose proof (used_insert A t 1 (fresh_none _ _ _ _ Hl Hf)) as Hu1.
  change (Z.lor PAGING_IS_PRESENT PAGING_IS_WRITEABLE) with 3 in E.
  destruct (paging_new_4gb_spec h1 m1 (<[t := 1]> A) 3 Hl1 ltac:(lia) eq_refl eq_refl) as (c & h2 & m2 & Ep & _ & Hc2).
  change (kheap (with_kmem m1 (with_kheap h1 k)), kmem (with_kmem m1 (with_kheap h1 k))) with (h1, m1) in E. rewrite Ep in E.
  destruct Hc2 as [(_ & _ & Hcap)|(Hc2 & _)].
  - rewrite (capacity_arena _ _ Ha1) in Hcap. lia.
  - rewrite (proj2 (Z.eqb_neq c 0)) in E by done. injection E as <- _. by eexists.
Qed.

(** A system without processes. *)
Definition life_sys : sys ram_disk Heap.heap :=
  Sys life_kern (Sched ∅ 0 0 0 0 0 16777216 (PagingCpu 0 0) false []) ∅ (replicate (Z.to_nat RORTHOX_MAX_PROCESSES) 0) 0.

Lemma life_sys_ok : system_ok fat16_init life_sys life_old [].
Proof.
  destruct life_kern_ok as (V & Hl & Hp). constructor; try done; try (by left).
  - constructor; try done; [constructor|by intros ?%not_elem_of_nil].
  - by intros q ?%not_elem_of_nil.
  - intros q [x Hx]. change (procs life_sys !! q) with ((∅ : gmap Z proc) !! q) in Hx. by rewrite lookup_empty in Hx.
Qed.

(** The first file of the volume is a program of five bytes. *)
Lemma life_data :
  let '(r, (p, _)) := process_load_data demo_path (process_init, snd (kalloc sizeof_process life_kern)) in
  (r, program_ptr p, proc_size p, filetype p) = (Ok tt, 16793600, 5, PROCESS_FILETYPE_BINARY).
Proof. exact_no_check (@eq_refl (result unit * Z * Z * Z) (Ok tt, 16793600, 5, PROCESS_FILETYPE_BINARY)). Qed.

Lemma life_struct : exists k, kalloc sizeof_process life_kern = (16781312, k).
Proof. eexists. reflexivity. Qed.

Lemma room_two (k : kern ram_disk Heap.heap) p a q b top :
  kowns life_old (kheap life_kern) [p; q] k -> run (kheap k) p a -> run (kheap k) q b -> 1 <= top ->
  p + 4096 * a <= 16777216 + 4096 * top -> q + 4096 * b <= 16777216 + 4096 * top ->
  exists A, room (kheap k) A top /\ used A = a + b + 1 /\ arena (kheap k) = (16777216, 4096).
Proof.
  intros (Ha & B & _ & Hl & Hdis & Hd & He & _) (B1 & HB1 & Hp) (B2 & HB2 & Hq) Ht Hpe Hqe.
  rewrite (live_fun _ _ _ HB1 Hl) in Hp. rewrite (live_fun _ _ _ HB2 Hl) in Hq. clear B1 B2 HB1 HB2.
  assert (Hold : forall x n, x ∈ [p; q] -> (B ∪ life_old) !! x = Some n -> B !! x = Some n).
  { intros x n Hx Hn. apply lookup_union_Some_raw in Hn as [Hn|[Hn _]]; [done|]. apply He in Hx. by rewrite Hn in Hx; destruct Hx. }
  apply Hold in Hp, Hq; [|set_solver..]. clear Hold.
  apply NoDup_cons in Hd as [Hne%not_elem_of_cons _]. destruct Hne as [Hne _].
  assert (HB : B = <[p := a]> (<[q := b]> ∅)).
  { apply map_eq. intros x. destruct (decide (x = p)) as [->|Hxp]; [by rewrite lookup_insert_eq|]. rewrite lookup_insert_ne by done.
    destruct (decide (x = q)) as [->|Hxq]; [by rewrite lookup_insert_eq|]. rewrite lookup_insert_ne, lookup_empty by done.
    destruct (B !! x) eqn:Ex; [|done]. assert (Hx : x ∈ [p; q]) by (apply He; by rewrite Ex). set_solver. }
  exists (B ∪ life_old). split; [|split].
  - split; [done|]. split; [lia|]. intros x n [Hx|Hx]%lookup_union_Some; [| |by symmetry].
    + revert Hx. rewrite HB, !lookup_insert_Some. intros [[<- <-]|[_ [[<- <-]|[_ Hx]]]]; [done|done|by rewrite lookup_empty in Hx].
    + unfold life_old in Hx. apply lookup_singleton_Some in Hx as [<- <-]. lia.
  - assert (Hp0 : life_old !! p = None) by (by eapply map_disjoint_Some_r). assert (Hq0 : life_old !! q = None) by (by eapply map_disjoint_Some_r).
    rewrite HB, <- !insert_union_l, map_empty_union, !used_insert by (by rewrite ?lookup_insert_ne). change (used life_old) with 1. lia.
  - rewrite Ha. done.
Qed.

(** There is room for the process. *)
Lemma life_load : exists ptr s, process_load_for_slot_with_arguments demo_path 0 None life_sys = (Ok ptr, s).
Proof.
  destruct life_kern_ok as (V & Hl & Hpl). destruct life_struct as [k Ek]. pose proof life_data as Hd. rewrite Ek in Hd.
  cbn [snd] in Hd. pose proof (owned_nil (fun _ => True) _ _ Hl) as O0.
  pose proof (kalloc_stays _ _ _ _ _ _ _ O0 Ek) as S1.
  destruct (kalloc_spec _ _ _ _ _ _ _ O0 Ek) as [H1 [[? _]|(_ & O1 & _ & N1 & _)]]; [done|].
  pose proof (partial_start fat16_init life_old life_kern 16781312 k 0 V H1 S1 O1) as P0.
  destruct (process_load_data demo_path (process_init, k)) as [r1 [p1 k1]] eqn:E1. injection Hd as -> Hp1 Hz1 Hf1.
  destruct (owned_live _ _ _ _ _ O1) as [M HM].
  destruct (load_data_spec fat16_init _ _ _ M _ _ _ (pa_files _ _ _ _ _ P0) HM E1) as [[_ _ S2] _].
  assert (B1 : build (process_load_data demo_path) (Loading process_init k None 0) = (Ok tt, Loading p1 k1 None 0)).
  { unfold build. cbn [lproc lkern]. by rewrite E1. }
  destruct (stage_data fat16_init life_old life_kern 16781312 _ _ _ _ P0 eq_refl eq_refl eq_refl B1) as (P1 & _ & Hr1).
  destruct Hr1 as ((ft & q & f & size & L1) & Ld1). cbn [lproc lkern] in L1, Ld1.
  assert (N2 : run (kheap k1) 16793600 1).
  { destruct Ld1 as [_ Hr _|Hf _ _ _]; [by rewrite Hp1, Hz1 in Hr|by rewrite Hf1 in Hf]. }
  destruct (room_two k1 16793600 1 16781312 3 5) as (A & R & Hu & Ha); [|exact N2|by apply S2|lia|lia|lia|].
  { pose proof (pa_owns _ _ _ _ _ P1) as O. unfold part_cells, program_own in O. cbn [lproc lkern ltask] in O.
    rewrite Hp1, Hf1, L1 in O. exact O. }
  destruct (kalloc USER_PROGRAM_STACK_SIZE k1) as [stack k2] eqn:E2.
  destruct (room_kalloc k1 A _ 5 16384 _ _ (pa_owns _ _ _ _ _ P1) R Ha ltac:(lia) ltac:(done) E2) as (_ & R2 & Ha2 & Hu2 & N3 & _).
  pose proof (run_bounds _ _ _ N3) as Hst.
  assert (B2 : load_stack (Loading p1 k1 None 0) = (Ok tt, Loading (with_stack stack p1) k2 None 0)).
  { unfold load_stack, build, mbind, io_bind. cbn [lproc lkern ltask ltasks]. rewrite E2. unfold fail_if.
    by rewrite (proj2 (Z.eqb_neq stack 0)) by lia. }
  destruct (stage_stack fat16_init life_old life_kern 16781312 _ _ _ P1 Ld1 ltac:(by rewrite L1) eq_refl B2) as (P2 & _ & st & L2 & Run2 & Ld2).
  destruct (load_name 0 demo_path (Loading (with_stack stack p1) k2 None 0)) as [r3 x3] eqn:B3.
  destruct (stage_name fat16_init life_old life_kern 16781312 _ _ _ _ _ P2 B3) as (-> & P3 & T3 & K3 & name & L3).
  destruct (load_task 16781312 x3) as [r4 x4] eqn:B4.
  assert (Ld3 : program_loaded (lkern x3) (lproc x3)).
  { rewrite K3, L3. destruct Ld2; [by apply binary_loaded|by apply program_elf_loaded]. }
  destruct (stage_task fat16_init life_old life_kern 16781312 0 (or_introl eq_refl) Hpl x3 r4 x4 P3 Ld3) as [P4 Hr4];
    [by rewrite K3, L3|by rewrite L3, L1|done|exact B4|].
  assert (Hok : exists c, r4 = Ok c).
  { unfold load_task in B4. rewrite K3 in B4. destruct (task_new _ _ _ _) as [r5 k5] eqn:En.
    destruct (task_new_room k2 _ _ _ _ _ _ _ R2 Ha2 ltac:(rewrite Hu2, Hu; done) En) as [[[t task] n] ->]. injection B4 as <- _. by eexists. }
  destruct Hok as [c ->]. destruct Hr4 as (t & task & T4 & -> & _ & _ & _ & _ & Pre).
  destruct (stage_map fat16_init life_old life_kern 16781312 Hl 0 x4 t task P4 T4 Pre) as (x5 & B5 & _).
  assert (E : load_process 0 16781312 0 demo_path None (Loading process_init k None 0) = (Ok tt, x5)).
  { unfold load_process. rewrite (io_bind_run _ _ _ _ _ B1), (io_bind_run _ _ _ _ _ B2), (io_bind_run _ _ _ _ _ B3),
      (io_bind_run _ _ _ _ _ B4), (io_bind_run _ _ _ _ _ B5). done. }
  destruct (process_load_for_slot_with_arguments demo_path 0 None life_sys) as [r s] eqn:El.
  pose proof (load_spec fat16_init _ _ _ _ _ _ _ _ life_sys_ok El) as (_ & _ & _ & _ & _ & _ & Hr).
  destruct r as [ptr|e]; [exists ptr, s; reflexivity|]. exfalso. destruct Hr as [He _]. clear -El He E Ek.
  unfold process_load_for_slot_with_arguments in El. change (skern life_sys) with life_kern in El. rewrite Ek in El.
  change (process_get 0 life_sys) with 0 in El. cbn [Z.eqb negb Z.ltb Z.leb Z.compare orb RORTHOX_MAX_PROCESSES] in El.
  change (current_directory (cpu (ssched life_sys))) with 0 in El. change (tasks (ssched life_sys)) with 0 in El. rewrite E in El.
  unfold process_publish, panic in El. destruct (ltask x5) as [[]|]; [destruct (task_publish _ _)|]; [|injection El as <- _; lia..].
  apply (f_equal fst) in El. cbn [fst] in El. congruence.
Qed.

(** ** Theorems *)

Section correct.
Context {D H : Type} `{BlockDeviceLaws D} `{AllocatorLaws H} (F : filesystem D H) `{!FilesystemLaws F}.
Implicit Types (s : sys D H) (p : proc).

(** C8: loading a program is all or nothing. A load that fails returns a negative code and leaves the heap, the open
    files, every allocation with its contents, the process table and the scheduler as they were, wherever it failed:
    reading the program, the stack, the task with its directory, or any argument. A load that succeeds has put into the
    free slot a process of its own struct, task, directory, stack and program, all in new memory, with an address space
    that maps exactly that, and the arguments as null-terminated strings behind an array. *)
Theorem process_load_exact s A ts filename slot args :
  system_ok F s A ts ->
  let '(r, s') := process_load_for_slot_with_arguments filename slot args s in load_done F s s' A ts slot args r.
Proof.
  intros Sys. destruct (process_load_for_slot_with_arguments filename slot args s) as [r s'] eqn:E. by eapply load_spec.
Qed.

(** ending a process gives back everything it had. Its allocations, its program, its stack, its task with the
    directory and its struct are freed, so that the heap is the one from before the load; its slot is empty, its task
    is no longer listed and the other tasks stay in order. The process that runs next is the first one left if it was
    the current one; only when no process is left the kernel panics. *)
Theorem process_terminate_releases s A k0 ts1 ts2 ptr p task :
  live (kheap k0) A -> process_in s A k0 (ts1 ++ proc_task p :: ts2) ptr p task ->
  current_directory (cpu (ssched s)) = 0 \/ is_Some (A !! current_directory (cpu (ssched s))) ->
  let others := <[Z.to_nat (pid p) := 0]> (slots s) in
  let next := list_find (fun q => q <> 0) others in
  exists s', process_terminate ptr s = ((if decide (current_process s = ptr /\ next = None) then Err 1 else Ok 0), s') /\
    (current_process s <> ptr \/ next <> None ->
     released s s' A k0 (ts1 ++ ts2) ptr p /\
     current_process s' = (if decide (current_process s = ptr) then default 0 (snd <$> next) else current_process s)).
Proof. apply terminate_spec. Qed.

(** C9: loading a process and ending it leaves nothing behind. After any load that succeeds, ending the new process
    succeeds, and the heap, the table of open files, the process structs, the process table and the list of tasks are
    what they were before the load: no block, page table or descriptor leaks. *)
Theorem process_load_terminate s A ts filename slot args ptr s1 :
  system_ok F s A ts -> process_load_for_slot_with_arguments filename slot args s = (Ok ptr, s1) ->
  exists s2, process_terminate ptr s1 = (Ok 0, s2) /\
    kheap (skern s2) = kheap (skern s) /\ file_descriptors (kfiles (skern s2)) = file_descriptors (kfiles (skern s)) /\
    procs s2 = procs s /\ slots s2 = slots s /\ current_process s2 = current_process s /\ sched_wf (ssched s2) ts.
Proof.
  intros Sys E. pose proof (load_spec F _ _ _ _ _ _ _ _ Sys E) as (V & Ht & Hm & Hcp & Hcpu & _ & Hslot & Hslots & HA & p & task & Hprocs & [Hpid _] & Hin & _).
  assert (Hcur : current_process s1 <> ptr).
  { rewrite Hcp. destruct (so_current _ _ _ _ Sys) as [->|[n Hn]]; [|intros Eq; by rewrite Eq, HA in Hn].
    intros Eq. by apply (process_in_ptr _ _ _ _ _ _ _ Hin). }
  destruct (terminate_spec s1 A (skern s) ts [] ptr p task (so_live _ _ _ _ Sys) Hin) as (s2 & E2 & Hend).
  { rewrite Hcpu. apply (so_cur _ _ _ _ Sys). }
  rewrite decide_False in E2 by tauto. exists s2. split; [exact E2|]. destruct (Hend (or_introl Hcur)) as [[Hh [h Hk] _ Hp Hs W _ _] Hc].
  rewrite Hk, Hp, Hs, Hc, Hprocs, Hslots, Hpid, decide_False, app_nil_r in * by done.
  split; [done|]. split; [exact Ht|]. split.
  { rewrite delete_insert_eq, delete_id; [done|]. destruct (procs s !! ptr) eqn:Eq; [|done].
    destruct (so_procs _ _ _ _ Sys ptr) as [n Hn]; [by rewrite Eq|]. by rewrite HA in Hn. }
  split; [|done]. rewrite list_insert_insert_eq. by apply list_insert_id.
Qed.
End correct.

Lemma process_load_exact_witness :
  exists r s', process_load_for_slot_with_arguments demo_path 0 None life_sys = (r, s') /\
    load_done fat16_init life_sys s' life_old [] 0 None r.
Proof.
  pose proof (process_load_exact fat16_init life_sys life_old [] demo_path 0 None life_sys_ok) as Hw.
  destruct (process_load_for_slot_with_arguments demo_path 0 None life_sys) as [r s']. by exists r, s'.
Defined.

Lemma process_load_terminate_witness :
  exists ptr s1 s2, process_load_for_slot_with_arguments demo_path 0 None life_sys = (Ok ptr, s1) /\
    process_terminate ptr s1 = (Ok 0, s2) /\ kheap (skern s2) = kheap life_kern.
Proof.
  destruct life_load as (ptr & s1 & E). destruct (process_load_terminate fat16_init life_sys life_old [] demo_path 0 None ptr s1 life_sys_ok E) as (s2 & E2 & Hh & _).
  exists ptr, s1, s2. split; [exact E|]. split; [exact E2|exact Hh].
Defined.

Lemma process_terminate_releases_witness :
  exists ptr (s1 s2 : sys ram_disk Heap.heap), process_terminate ptr s1 = (Ok 0, s2) /\ kheap (skern s2) = kheap life_kern.
Proof.
  destruct life_load as (ptr & s1 & E). pose proof (load_spec fat16_init _ _ _ _ _ _ _ _ life_sys_ok E) as Hd.
  destruct Hd as (_ & _ & _ & Hcp & Hcpu & _ & _ & _ & HA & p & task & _ & _ & Hin & _).
  destruct life_kern_ok as (_ & Hl & _).
  destruct (process_terminate_releases s1 life_old life_kern [] [] ptr p task Hl Hin) as (s2 & E2 & H2); [left; by rewrite Hcpu|].
  assert (Hp : current_process s1 <> ptr) by (rewrite Hcp; intros E0; by apply (process_in_ptr _ _ _ _ _ _ _ Hin)).
  exists ptr, s1, s2. rewrite E2. rewrite decide_False by tauto. split; [done|]. destruct (H2 (or_introl Hp)) as [[Hh _ _ _ _ _ _ _] _]. exact Hh.
Defined.
