(* ===== verification/System.v ===== *)
(** * The processes together (kernel/task/process.c)

    The invariant [system] of the whole process table: the processes have separate structs, tasks, directories and
    memory, all of it live allocations of the kernel heap, and each of them has its address space. It holds when the
    table is empty, and loading a process, ending one, and the memory calls of any of them keep it; a step relation
    puts these operations in any order. *)

From stdpp Require Import base numbers list gmap.
From Stdlib Require Import ZArith Lia.
From S2P Require Import Prelude Alloc Heap Memory Paging Sched Effects Disk StrLib PathParser Fat FatWrite FatProps.
From S2P Require Import FatDir FatDirScan FatOpen FatMount Vfs Elf UserMem Process AddrSpace ProcLoad ProcArgs ProcLife.

#[local] Set Default Goal Selector "!".

(** A process of the table: the address of its struct, the struct, and the chunk of its task. *)
Record member := Member { mb_ptr : Z; mb_proc : proc; mb_chunk : Z }.

(** All its allocations. *)
Definition mb_base (m : mem) (x : member) : list Z :=
  proc_task (mb_proc x) :: mb_chunk x :: table_pages m (load32 m (mb_chunk x)) ++
  proc_stack (mb_proc x) :: program_own (mb_proc x) ++ [mb_ptr x].
Definition mb_cells (m : mem) (x : member) : list Z := alloc_ptrs (allocations (mb_proc x)) ++ mb_base m x.

Definition all_cells (m : mem) (l : list member) : list Z := concat (map (mb_cells m) l).

Lemma elem_of_cells m l q : q ∈ all_cells m l <-> exists x, x ∈ l /\ q ∈ mb_cells m x.
Proof.
  unfold all_cells. induction l as [|x l IH]; cbn [map concat].
  - split; [by intros ?%not_elem_of_nil|]. by intros (x & ?%not_elem_of_nil & _).
  - rewrite elem_of_app, IH. setoid_rewrite elem_of_cons. naive_solver.
Qed.

Lemma all_cells_app m l1 l2 : all_cells m (l1 ++ l2) = all_cells m l1 ++ all_cells m l2.
Proof. unfold all_cells. by rewrite List.map_app, concat_app. Qed.

Lemma all_cells_ext m m' l : (forall x, x ∈ l -> mb_cells m' x = mb_cells m x) -> all_cells m' l = all_cells m l.
Proof.
  intros E. unfold all_cells. induction l as [|x l IH]; [done|]. cbn [map concat]. rewrite E by apply list_elem_of_here.
  rewrite IH; [done|]. intros y Hy. by apply E, list_elem_of_further.
Qed.

Section system.
Context {D H : Type} `{BlockDeviceLaws D} `{AllocatorLaws H} (F : filesystem D H) `{!FilesystemLaws F}.
(** The kernel heap before the first process, with what the kernel keeps there. *)
Context (A0 : gmap Z Z) (h0 : H).
Implicit Types (s : sys D H) (x : member) (l : list member).

Record member_ok s x : Prop := MemberOk {
  mo_proc : procs s !! mb_ptr x = Some (mb_proc x);
  mo_slot : slots s !! Z.to_nat (pid (mb_proc x)) = Some (mb_ptr x);
  mo_task : exists t, task_store (ssched s) !! proc_task (mb_proc x) = Some t /\
    page_directory t = mb_chunk x /\ Sched.process t = mb_ptr x;
  mo_space : space (kheap (skern s)) (kmem (skern s)) (mb_chunk x) (load32 (kmem (skern s)) (mb_chunk x)) (mb_proc x);
  mo_program : filetype (mb_proc x) = PROCESS_FILETYPE_BINARY \/
    filetype (mb_proc x) = PROCESS_FILETYPE_ELF /\ file_addr (program_elf (mb_proc x)) <> 0;
  mo_chunk : mb_chunk x <> 0;
  mo_files : no_files (mb_proc x);
  mo_pid : 0 <= pid (mb_proc x)
}.

Record system s l : Prop := System {
  sy_files : vfs_ok F (kfiles (skern s));
  sy_placed : heap_placed (kheap (skern s));
  sy_members x : x ∈ l -> member_ok s x;
  sy_owns : kowns A0 h0 (all_cells (kmem (skern s)) l) (skern s);
  sy_sched : exists ts, sched_wf (ssched s) ts /\ ts ≡ₚ map (fun x => proc_task (mb_proc x)) l;
  sy_procs q : is_Some (procs s !! q) -> q ∈ map mb_ptr l;
  sy_slots : length (slots s) = Z.to_nat RORTHOX_MAX_PROCESSES;
  sy_slot (i : nat) q : slots s !! i = Some q -> q <> 0 ->
    exists x, x ∈ l /\ mb_ptr x = q /\ Z.to_nat (pid (mb_proc x)) = i;
  sy_current : current_process s = 0 \/ current_process s ∈ map mb_ptr l;
  sy_cur : current_directory (cpu (ssched s)) = 0 \/ is_Some (A0 !! current_directory (cpu (ssched s)))
}.

(** ** Cells *)

Lemma mb_own_cells m x q : q ∈ own (mb_proc x) -> q ∈ mb_cells m x.
Proof.
  unfold own, mb_cells, mb_base. intros [->|[Hq|Hq]%elem_of_app]%elem_of_cons; apply elem_of_app; [right|right|by left];
    do 2 apply list_elem_of_further; apply elem_of_app; right; [apply list_elem_of_here|].
  apply list_elem_of_further, elem_of_app. by left.
Qed.

Lemma mb_space_cells m x q :
  q ∈ mb_chunk x :: table_pages m (load32 m (mb_chunk x)) ++ own (mb_proc x) -> q ∈ mb_cells m x.
Proof.
  intros [->|[Hq|Hq]%elem_of_app]%elem_of_cons; [| |by apply mb_own_cells]; apply elem_of_app; right; apply list_elem_of_further;
    [apply list_elem_of_here|]. apply list_elem_of_further, elem_of_app. by left.
Qed.

(** What the kernel keeps for a process: its struct, its task, its chunk, directory and tables, and the ELF file. *)
Definition mb_kept (m : mem) (x : member) : list Z :=
  mb_ptr x :: proc_task (mb_proc x) :: mb_chunk x :: table_pages m (load32 m (mb_chunk x)) ++ program_kept (mb_proc x).

Lemma mb_cells_split m x : mb_cells m x ≡ₚ user_memory (mb_proc x) ++ mb_kept m x.
Proof.
  unfold mb_cells, mb_base, user_memory, mb_kept. rewrite program_own_split. solve_Permutation.
Qed.

Lemma mb_ptr_cells m x : mb_ptr x ∈ mb_cells m x.
Proof.
  unfold mb_cells, mb_base. rewrite !app_comm_cons, !app_assoc. apply elem_of_app. right. apply list_elem_of_here.
Qed.

Lemma mb_task_cells m x : proc_task (mb_proc x) ∈ mb_cells m x.
Proof. apply elem_of_app. right. apply list_elem_of_here. Qed.

(** A process whose memory and entries are the same. *)
Lemma member_kept s s' x :
  member_ok s x ->
  (forall q n, q ∈ mb_cells (kmem (skern s)) x -> run (kheap (skern s)) q n ->
     run (kheap (skern s')) q n /\ same_on (kmem (skern s)) (kmem (skern s')) q (q + 4096 * n)) ->
  procs s' !! mb_ptr x = procs s !! mb_ptr x ->
  slots s' !! Z.to_nat (pid (mb_proc x)) = slots s !! Z.to_nat (pid (mb_proc x)) ->
  (forall t, task_store (ssched s) !! proc_task (mb_proc x) = Some t ->
     exists t', task_store (ssched s') !! proc_task (mb_proc x) = Some t' /\ same_task t t') ->
  member_ok s' x /\ mb_cells (kmem (skern s')) x = mb_cells (kmem (skern s)) x.
Proof.
  intros [Hpr Hsl (t & Ht & Hpd & Hown) SP Hprog Hc Hf Hid] Hm Ep Es Et.
  assert (SP' : space (kheap (skern s')) (kmem (skern s')) (mb_chunk x) (load32 (kmem (skern s)) (mb_chunk x)) (mb_proc x)).
  { apply (space_heap (kheap (skern s))).
    - apply (space_rewrite _ _ _ _ _ SP). intros q n Hq Hk. apply Hm; [|done]. apply mb_space_cells. rewrite app_comm_cons.
      apply elem_of_app. destruct Hk as [Hk|[Hk ->]]; [by left|right]. by eapply space_image_own.
    - intros q n Hq Hr. rewrite (space_pages_same _ _ _ _ _ SP) in Hq.
      + apply Hm; [by apply mb_space_cells|done].
      + intros y c Hy Hin. apply Hm; [|done]. apply mb_space_cells, list_elem_of_further, elem_of_app. by left. }
  pose proof (sp_chunk _ _ _ _ _ SP') as Hdir. split.
  - constructor; [by rewrite Ep|by rewrite Es| |by rewrite Hdir|done..]. destruct (Et t Ht) as (t' & Ht' & E1 & E2).
    exists t'. split; [done|]. split; congruence.
  - unfold mb_cells, mb_base. rewrite Hdir. rewrite (space_pages_same _ _ _ _ _ SP); [done|].
    intros y c Hy Hin. apply Hm; [|done]. apply mb_space_cells, list_elem_of_further, elem_of_app. by left.
Qed.

(** ** What the operations need *)

Lemma cells_run s l q : system s l -> q ∈ all_cells (kmem (skern s)) l -> exists n, run (kheap (skern s)) q n.
Proof. intros S Hq. by eapply owned_run; [apply (sy_owns _ _ S)|]. Qed.

Lemma system_view s l :
  system s l -> exists M ts, system_ok F s M ts /\ ts ≡ₚ map (fun x => proc_task (mb_proc x)) l /\
    forall q n, run (kheap (skern s)) q n -> M !! q = Some n.
Proof.
  intros S. destruct (owned_live _ _ _ _ _ (sy_owns _ _ S)) as [M HM]. destruct (sy_sched _ _ S) as (ts & W & Hts).
  assert (Hrun : forall q n, run (kheap (skern s)) q n -> M !! q = Some n).
  { intros q n (B & HB & Hq). by rewrite (live_fun _ _ _ HM HB). }
  assert (Hin : forall q f, (forall x, f x ∈ mb_cells (kmem (skern s)) x) -> q ∈ map f l -> is_Some (M !! q)).
  { intros q f Hf (x & -> & Hx)%list_elem_of_fmap. destruct (cells_run s l (f x) S) as [n Hn]; [|exists n; by apply Hrun].
    apply elem_of_cells. by exists x. }
  exists M, ts. split; [|done]. destruct S. constructor; try assumption.
  - intros q Hq. rewrite Hts in Hq. by apply (Hin q _ (mb_task_cells _)).
  - destruct sy_cur0 as [?|[n Hn]]; [by left|right]. exists n. by apply Hrun; eapply owned_old.
  - intros q Hq%sy_procs0. by apply (Hin q _ (mb_ptr_cells _)).
  - destruct sy_current0 as [?|Hc]; [by left|right]. by apply (Hin _ _ (mb_ptr_cells _)).
Qed.

(** One of the processes beside the others. *)
Record focus s (l1 l2 : list member) x (A : gmap Z Z) (k0 : kern D H) (ts1 ts2 : list Z) (task : task) : Prop := Focus {
  fo_live : live (kheap k0) A;
  fo_process : process_in s A k0 (ts1 ++ proc_task (mb_proc x) :: ts2) (mb_ptr x) (mb_proc x) task;
  fo_chunk : page_directory task = mb_chunk x;
  fo_cur : current_directory (cpu (ssched s)) = 0 \/ is_Some (A !! current_directory (cpu (ssched s)));
  fo_others : kowns A0 h0 (all_cells (kmem (skern s)) (l1 ++ l2)) k0;
  fo_runs q n : run (kheap (skern s)) q n -> q ∉ mb_cells (kmem (skern s)) x -> A !! q = Some n;
  fo_apart q : q ∈ mb_cells (kmem (skern s)) x -> q ∉ all_cells (kmem (skern s)) (l1 ++ l2);
  fo_tasks : ts1 ++ ts2 ≡ₚ map (fun x => proc_task (mb_proc x)) (l1 ++ l2)
}.

Lemma system_focus s l1 x l2 : system s (l1 ++ x :: l2) -> exists A k0 ts1 ts2 task, focus s l1 l2 x A k0 ts1 ts2 task.
Proof.
  intros S. set (m := kmem (skern s)). pose proof (sy_owns _ _ S) as Ho.
  assert (Ho' : kowns A0 h0 (mb_cells m x ++ all_cells m (l1 ++ l2)) (skern s)).
  { unfold kowns in *. eapply owned_perm; [|reflexivity|exact Ho]. rewrite !all_cells_app. unfold all_cells at 4.
    cbn [map concat]. fold (all_cells m l2). rewrite !app_assoc. apply Permutation_app_tail, Permutation_app_comm. }
  destruct (owned_rebase _ _ _ (mb_cells m x) (all_cells m (l1 ++ l2)) _ Ho') as (A & hb & Hox & Hrest & Hruns).
  destruct (sy_members _ _ S x) as [Hpr Hsl (t & Ht & Hpd & Hown) SP Hprog Hc Hf]; [apply elem_of_app; right; apply list_elem_of_here|].
  destruct (sy_sched _ _ S) as (ts & W & Hts).
  assert (Hin : proc_task (mb_proc x) ∈ ts).
  { rewrite Hts. apply list_elem_of_fmap. exists x. split; [done|]. apply elem_of_app. right. apply list_elem_of_here. }
  apply list_elem_of_split in Hin as (ts1 & ts2 & ->). exists A, (with_kheap hb (skern s)), ts1, ts2, t. constructor; try done.
  - by destruct Hox as (_ & B & Hl & _).
  - constructor; try assumption; [apply elem_of_app; right; apply list_elem_of_here|].
    constructor; rewrite ?Hpd; [|done|done]. constructor; [done|apply (sy_placed _ _ S)|].
    unfold base_cells, task_cells. rewrite Hpd. exact Hox.
  - destruct (sy_cur _ _ S) as [?|[n Hn]]; [by left|right]. exists n.
    assert (Hold : run (kheap (skern s)) (current_directory (cpu (ssched s))) n) by (eapply owned_old; [exact Ho|done]).
    apply Hruns; [exact Hold|]. intros Hx. destruct Ho' as (_ & B & _ & _ & Hd & _ & He & _).
    assert (Hb : is_Some (B !! current_directory (cpu (ssched s)))) by (apply He, elem_of_app; by left). destruct Hb as [b Hb].
    by rewrite (map_disjoint_Some_l _ _ _ _ Hd Hn) in Hb.
  - destruct Ho' as (_ & _ & _ & _ & _ & Hd & _). apply NoDup_app in Hd as (_ & Hd & _). exact Hd.
  - rewrite !List.map_app in *. cbn [map] in Hts. rewrite <- !Permutation_middle in Hts. by apply Permutation_cons_inv in Hts.
Qed.

(** ** Loading *)

Lemma cells_live s l M ts y q :
  system s l -> system_ok F s M ts -> y ∈ l -> q ∈ mb_cells (kmem (skern s)) y -> is_Some (M !! q).
Proof.
  intros S Sok Hy Hq. destruct (cells_run s l q S) as (n & B & HB & Hn); [apply elem_of_cells; by exists y|].
  exists n. by rewrite (live_fun _ _ _ (so_live _ _ _ _ Sok) HB).
Qed.

(** A process that was there before a load. *)
Lemma load_member s l M ts slot args r s' y :
  system s l -> system_ok F s M ts -> load_done F s s' M ts slot args r -> y ∈ l ->
  (forall q n, run (kheap (skern s)) q n -> run (kheap (skern s')) q n) ->
  procs s' !! mb_ptr y = procs s !! mb_ptr y ->
  slots s' !! Z.to_nat (pid (mb_proc y)) = slots s !! Z.to_nat (pid (mb_proc y)) ->
  member_ok s' y /\ mb_cells (kmem (skern s')) y = mb_cells (kmem (skern s)) y.
Proof.
  intros S Sok (_ & _ & Hm & _ & _ & Htk & _) Hy HR Ep Es. apply member_kept; [by apply (sy_members _ _ S)| |done|done|].
  - intros q n Hq Hn. split; [by apply HR|]. apply Hm. destruct Hn as (B & HB & Hn).
    by rewrite (live_fun _ _ _ (so_live _ _ _ _ Sok) HB).
  - intros t Ht. apply Htk; [|done]. by eapply cells_live; [..|apply mb_task_cells].
Qed.

Lemma load_failed s l M ts slot args e s' :
  system s l -> system_ok F s M ts -> ts ≡ₚ map (fun x => proc_task (mb_proc x)) l ->
  load_done F s s' M ts slot args (Err e) -> system s' l.
Proof.
  intros S Sok Hts Hd. pose proof Hd as (V & _ & _ & Hcp & Hcpu & _ & _ & Hh & Hps & Hss & n & Hsc).
  assert (Hmem : forall y, y ∈ l -> member_ok s' y /\ mb_cells (kmem (skern s')) y = mb_cells (kmem (skern s)) y).
  { intros y Hy. eapply load_member; [exact S|exact Sok|exact Hd|done|by rewrite Hh|by rewrite Hps|by rewrite Hss]. }
  constructor; rewrite ?Hh, ?Hps, ?Hss, ?Hcp, ?Hcpu; try apply S; [done|intros y Hy; by apply Hmem| |].
  - rewrite (all_cells_ext (kmem (skern s))) by (intros y Hy; by apply Hmem). unfold kowns. rewrite Hh. apply (sy_owns _ _ S).
  - exists ts. split; [|done]. rewrite Hsc. destruct (so_sched _ _ _ _ Sok). by constructor.
Qed.

Lemma load_added s l M ts slot args ptr s' :
  system s l -> system_ok F s M ts -> ts ≡ₚ map (fun x => proc_task (mb_proc x)) l ->
  load_done F s s' M ts slot args (Ok ptr) -> exists x, mb_ptr x = ptr /\ system s' (l ++ [x]).
Proof.
  intros S Sok Hts Hd. pose proof Hd as (V & _ & _ & Hcp & Hcpu & _ & Hs0 & Hss & HA & p & task & Hps & [Hpid Hid] & Pin & _).
  destruct Pin as [Ip Is Iw Il It Io [[SP Hpl Ho] Iprog Ic] If]. exists (Member ptr p (page_directory task)). split; [done|].
  assert (Hmem : forall y, y ∈ l -> member_ok s' y /\ mb_cells (kmem (skern s')) y = mb_cells (kmem (skern s)) y).
  { intros y Hy. pose proof (mo_slot _ _ (sy_members _ _ S y Hy)) as Hsy.
    destruct (cells_live s l M ts y (mb_ptr y) S Sok Hy (mb_ptr_cells _ _)) as [n Hn].
    eapply load_member; [exact S|exact Sok|exact Hd|done|..].
    - intros q c (B & HB & Hq). eapply owned_old; [exact Ho|]. by rewrite (live_fun _ _ _ (so_live _ _ _ _ Sok) HB).
    - rewrite Hps. apply lookup_insert_ne. intros Eq. by rewrite <- Eq, HA in Hn.
    - rewrite Hss. apply list_lookup_insert_ne. intros Eq. rewrite <- Eq, Hs0 in Hsy. injection Hsy as Hz.
      rewrite <- Hz, (live_null _ _ (so_live _ _ _ _ Sok)) in Hn. done. }
  constructor; try done.
  - intros y Hy. apply elem_of_app in Hy as [Hy|Hy]; [by apply Hmem|]. apply list_elem_of_singleton in Hy as ->.
    constructor; try done; [by exists task|]. cbn [mb_proc]. by rewrite Hpid.
  - pose proof (owned_trans _ _ _ _ _ _ _ _ (sy_owns _ _ S) (so_live _ _ _ _ Sok) Ho) as Hall. unfold kowns.
    rewrite all_cells_app, (all_cells_ext (kmem (skern s))) by (intros y Hy; by apply Hmem).
    eapply owned_perm; [|reflexivity|exact Hall]. rewrite Permutation_app_comm. apply Permutation_app_tail.
    unfold all_cells. cbn [map concat]. by rewrite app_nil_r.
  - exists (ts ++ [proc_task p]). split; [done|]. rewrite List.map_app. by rewrite Hts.
  - intros q [c Hq]. rewrite List.map_app. apply elem_of_app. rewrite Hps in Hq. apply lookup_insert_Some in Hq as [[<- _]|[_ Hq]].
    + right. apply list_elem_of_here.
    + left. apply (sy_procs _ _ S). by exists c.
  - rewrite Hss, length_insert. apply (sy_slots _ _ S).
  - intros i q Hi Hq. rewrite Hss in Hi. apply list_lookup_insert_Some in Hi as [(<- & <- & _)|[_ Hi]].
    + eexists. split; [apply elem_of_app; right; apply list_elem_of_here|]. split; [done|]. by rewrite <- Hpid.
    + destruct (sy_slot _ _ S i q Hi Hq) as (y & Hy & ?). exists y. split; [apply elem_of_app; by left|done].
  - rewrite Hcp, List.map_app. destruct (sy_current _ _ S) as [?|?]; [by left|right]. apply elem_of_app. by left.
  - rewrite Hcpu. apply (sy_cur _ _ S).
Qed.

Lemma load_keeps s l filename slot args r s' :
  system s l -> process_load_for_slot_with_arguments filename slot args s = (r, s') ->
  match r with Ok ptr => exists x, mb_ptr x = ptr /\ system s' (l ++ [x]) | Err e => system s' l end.
Proof.
  intros S E. destruct (system_view s l S) as (M & ts & Sok & Hts & Hrun). pose proof (load_spec F _ _ _ _ _ _ _ _ Sok E) as Hd.
  destruct r as [ptr|e]; [by eapply load_added|by eapply load_failed].
Qed.

(** ** Ending *)

Lemma focus_member l1 x l2 y : y ∈ l1 ++ l2 -> y ∈ l1 ++ x :: l2.
Proof. rewrite !elem_of_app. intros [?|?]; [by left|right]. by apply list_elem_of_further. Qed.

(** The other processes have other structs and other slots. *)
Lemma focus_other s l1 x l2 A k0 ts1 ts2 task y :
  system s (l1 ++ x :: l2) -> focus s l1 l2 x A k0 ts1 ts2 task -> y ∈ l1 ++ l2 ->
  mb_ptr y <> mb_ptr x /\ proc_task (mb_proc y) <> proc_task (mb_proc x) /\ mb_ptr y <> 0 /\
  Z.to_nat (pid (mb_proc y)) <> Z.to_nat (pid (mb_proc x)).
Proof.
  intros S Fo Hy. assert (Hin : forall q, q ∈ mb_cells (kmem (skern s)) y -> q ∈ all_cells (kmem (skern s)) (l1 ++ l2)).
  { intros q Hq. apply elem_of_cells. by exists y. }
  assert (Hp : mb_ptr y <> mb_ptr x).
  { intros E. apply (fo_apart _ _ _ _ _ _ _ _ _ Fo (mb_ptr x)); [apply mb_ptr_cells|]. rewrite <- E. apply Hin, mb_ptr_cells. }
  split; [done|]. split; [|split].
  - intros E. apply (fo_apart _ _ _ _ _ _ _ _ _ Fo (proc_task (mb_proc x))); [apply mb_task_cells|]. rewrite <- E. apply Hin, mb_task_cells.
  - intros E. destruct (owned_run _ _ _ _ _ 0 (fo_others _ _ _ _ _ _ _ _ _ Fo)) as [n Hn]; [rewrite <- E; apply Hin, mb_ptr_cells|].
    pose proof (run_bounds _ _ _ Hn). lia.
  - intros E. pose proof (mo_slot _ _ (sy_members _ _ S y (focus_member _ x _ _ Hy))) as Hsy. rewrite E in Hsy.
    rewrite (pi_slot _ _ _ _ _ _ _ (fo_process _ _ _ _ _ _ _ _ _ Fo)) in Hsy. congruence.
Qed.

Lemma released_keeps s l1 x l2 A k0 ts1 ts2 task s' :
  system s (l1 ++ x :: l2) -> focus s l1 l2 x A k0 ts1 ts2 task ->
  released s s' A k0 (ts1 ++ ts2) (mb_ptr x) (mb_proc x) ->
  current_process s' = 0 \/ current_process s' ∈ map mb_ptr (l1 ++ l2) -> system s' (l1 ++ l2).
Proof.
  intros S Fo [Rh [h Rk] Rm Rp Rs Rw Rc Rt] Hcp.
  assert (Hmem : forall y, y ∈ l1 ++ l2 -> member_ok s' y /\ mb_cells (kmem (skern s')) y = mb_cells (kmem (skern s)) y).
  { intros y Hy. destruct (focus_other _ _ _ _ _ _ _ _ _ _ S Fo Hy) as (Hp & Ht & _ & Hi).
    apply member_kept; [by apply (sy_members _ _ S), focus_member| | | |].
    - intros q n Hq Hn. assert (HA : A !! q = Some n).
      { apply (fo_runs _ _ _ _ _ _ _ _ _ Fo); [done|]. intros Hx. apply (fo_apart _ _ _ _ _ _ _ _ _ Fo q Hx).
        apply elem_of_cells. by exists y. }
      split; [|by apply Rm]. exists A. split; [|done]. rewrite Rh. apply (fo_live _ _ _ _ _ _ _ _ _ Fo).
    - rewrite Rp. by rewrite lookup_delete_ne.
    - rewrite Rs. by rewrite list_lookup_insert_ne.
    - intros t. by apply Rt. }
  constructor; try done.
  - rewrite Rk. apply vfs_ok_heap, (sy_files _ _ S).
  - eapply placed_arena; [|apply (sy_placed _ _ S)]. rewrite Rh. destruct (fo_others _ _ _ _ _ _ _ _ _ Fo) as [Ha _].
    destruct (sy_owns _ _ S) as [Ha' _]. congruence.
  - intros y Hy. by apply Hmem.
  - rewrite (all_cells_ext (kmem (skern s))) by (intros y Hy; by apply Hmem). unfold kowns. rewrite Rh.
    apply (fo_others _ _ _ _ _ _ _ _ _ Fo).
  - exists (ts1 ++ ts2). split; [done|apply (fo_tasks _ _ _ _ _ _ _ _ _ Fo)].
  - intros q [c Hq]. rewrite Rp in Hq. apply lookup_delete_Some in Hq as [Hne Hq].
    assert (Hin : q ∈ map mb_ptr (l1 ++ x :: l2)) by (apply (sy_procs _ _ S); by exists c).
    apply list_elem_of_fmap in Hin as (y & -> & Hy). apply list_elem_of_fmap_2. apply elem_of_app in Hy as [Hy|[->|Hy]%elem_of_cons];
      [apply elem_of_app; by left|done|apply elem_of_app; by right].
  - rewrite Rs, length_insert. apply (sy_slots _ _ S).
  - intros i q Hi Hq. rewrite Rs in Hi. apply list_lookup_insert_Some in Hi as [(_ & <- & _)|[Hne Hi]]; [done|].
    destruct (sy_slot _ _ S i q Hi Hq) as (y & Hy & E1 & E2). exists y. split; [|done].
    apply elem_of_app in Hy as [Hy|[->|Hy]%elem_of_cons]; [apply elem_of_app; by left|by rewrite E2 in Hne|apply elem_of_app; by right].
  - rewrite Rc. apply (sy_cur _ _ S).
Qed.

Lemma cons_middle_other l1 x l2 y : y ∈ l1 ++ x :: l2 -> y <> x -> y ∈ l1 ++ l2.
Proof. rewrite !elem_of_app, elem_of_cons. naive_solver. Qed.

(** The slots that are left are those of the other processes. *)
Lemma next_process s l1 x l2 A k0 ts1 ts2 task :
  system s (l1 ++ x :: l2) -> focus s l1 l2 x A k0 ts1 ts2 task ->
  match list_find (fun q => q <> 0) (<[Z.to_nat (pid (mb_proc x)) := 0]> (slots s)) with
  | Some (_, q) => q ∈ map mb_ptr (l1 ++ l2)
  | None => l1 ++ l2 = []
  end.
Proof.
  intros S Fo. destruct (list_find _ _) as [[i q]|] eqn:E.
  - apply list_find_Some in E as (Hi & Hq & _). apply list_lookup_insert_Some in Hi as [(_ & <- & _)|[Hne Hi]]; [done|].
    destruct (sy_slot _ _ S i q Hi Hq) as (y & Hy & <- & E2). apply list_elem_of_fmap_2. apply (cons_middle_other _ x); [done|]. by intros ->.
  - apply list_find_None in E. destruct (l1 ++ l2) as [|y l] eqn:El; [done|]. exfalso.
    assert (Hy : y ∈ l1 ++ l2) by (rewrite El; apply list_elem_of_here).
    destruct (focus_other _ _ _ _ _ _ _ _ _ _ S Fo Hy) as (_ & _ & Hnz & Hi).
    pose proof (mo_slot _ _ (sy_members _ _ S y (focus_member _ x _ _ Hy))) as Hsy.
    rewrite Forall_lookup in E. apply (E (Z.to_nat (pid (mb_proc y))) (mb_ptr y)); [|done]. by rewrite list_lookup_insert_ne.
Qed.

Lemma terminate_keeps s l1 x l2 :
  system s (l1 ++ x :: l2) ->
  let last := current_process s = mb_ptr x /\ l1 ++ l2 = [] in
  exists r s', process_terminate (mb_ptr x) s = (r, s') /\ ((r = Err 1 /\ last) \/ (r = Ok 0 /\ ~ last /\ system s' (l1 ++ l2))).
Proof.
  intros S. cbv zeta. destruct (system_focus s l1 x l2 S) as (A & k0 & ts1 & ts2 & task & Fo).
  pose proof (next_process _ _ _ _ _ _ _ _ _ S Fo) as Hnext.
  destruct (terminate_spec s A k0 ts1 ts2 _ _ task (fo_live _ _ _ _ _ _ _ _ _ Fo) (fo_process _ _ _ _ _ _ _ _ _ Fo) (fo_cur _ _ _ _ _ _ _ _ _ Fo))
    as (s' & E & Hrel). cbv zeta in E, Hrel. eexists _, s'. split; [exact E|]. clear E.
  destruct (list_find _ _) as [[i q]|] eqn:El.
  - right. rewrite decide_False by (by intros []). split; [done|]. split; [intros [_ Hn]; rewrite Hn in Hnext; by apply not_elem_of_nil in Hnext|].
    destruct Hrel as [Hr Hcp]; [by right|]. eapply released_keeps; [done|done|done|]. rewrite Hcp. case_decide as Hc; [by right|].
    destruct (sy_current _ _ S) as [?|Hin]; [by left|right]. apply list_elem_of_fmap in Hin as (y & Ey & Hy). rewrite Ey in Hc |- *.
    apply list_elem_of_fmap_2. apply (cons_middle_other _ x); [done|]. by intros ->.
  - destruct (decide (current_process s = mb_ptr x)) as [Hc|Hc].
    + left. rewrite decide_True by done. done.
    + right. rewrite decide_False by (by intros [? _]). split; [done|]. split; [by intros [? _]|].
      destruct Hrel as [Hr Hcp]; [by left|]. eapply released_keeps; [done|done|done|]. rewrite Hcp. left.
      destruct (sy_current _ _ S) as [?|Hin]; [done|]. apply list_elem_of_fmap in Hin as (y & Ey & Hy). exfalso.
      assert (Hy' : y ∈ l1 ++ l2) by (apply (cons_middle_other _ x); [done|]; by intros ->).
      rewrite Hnext in Hy'. by apply not_elem_of_nil in Hy'.
Qed.

(** ** Memory calls *)

(** The process [x] with another struct and another kernel. *)
Definition put_process (ptr : Z) (p : proc) (k : kern D H) (s : sys D H) : sys D H := with_procs (<[ptr := p]> (procs s)) (with_skern k s).

(** The other processes do not notice. *)
Lemma memory_member s l1 x l2 (P : Z -> Prop) p' k' y :
  system s (l1 ++ x :: l2) -> steps (load32 (kmem (skern s)) (mb_chunk x)) P (skern s) k' ->
  (forall q, P q \/ q ∈ alloc_ptrs (allocations (mb_proc x))) -> y ∈ l1 ++ l2 ->
  member_ok (put_process (mb_ptr x) p' k' s) y /\ mb_cells (kmem k') y = mb_cells (kmem (skern s)) y.
Proof.
  intros S [_ K T R] HP Hy. destruct (system_focus s l1 x l2 S) as (A & k0 & ts1 & ts2 & task & Fo).
  destruct (focus_other _ _ _ _ _ _ _ _ _ _ S Fo Hy) as (Hp & _ & _ & _).
  apply (member_kept s (put_process (mb_ptr x) p' k' s)); [by apply (sy_members _ _ S), focus_member| | |done|].
  - intros q n Hq Hn. assert (Hnx : q ∉ mb_cells (kmem (skern s)) x).
    { intros Hx. apply (fo_apart _ _ _ _ _ _ _ _ _ Fo q Hx). apply elem_of_cells. by exists y. }
    assert (HPq : P q) by (destruct (HP q); [done|]; destruct Hnx; apply elem_of_app; by left).
    split; [by apply R|]. apply K; [done|done|]. intros Ht. apply Hnx, mb_space_cells, list_elem_of_further, elem_of_app. by left.
  - simpl. by rewrite lookup_insert_ne.
  - intros t Ht. exists t. done.
Qed.

Lemma memory_keeps s l1 x l2 (P : Z -> Prop) p' k' :
  system s (l1 ++ x :: l2) ->
  let dir := load32 (kmem (skern s)) (mb_chunk x) in
  let base := mb_base (kmem (skern s)) x ++ all_cells (kmem (skern s)) (l1 ++ l2) in
  holds A0 h0 (mb_chunk x) dir base p' k' -> steps dir P (skern s) k' ->
  (forall q, P q \/ q ∈ alloc_ptrs (allocations (mb_proc x))) ->
  p' = with_allocations (allocations p') (mb_proc x) ->
  system (put_process (mb_ptr x) p' k' s) (l1 ++ Member (mb_ptr x) p' (mb_chunk x) :: l2).
Proof.
  intros S. cbv zeta. set (dir := load32 (kmem (skern s)) (mb_chunk x)). intros [SP' Hpl' Ho'] St HP Hp'.
  pose proof (memory_member s l1 x l2 P p' k') as Hmem0. pose proof (fun y Hy => Hmem0 y S St HP Hy) as Hmem. clear Hmem0.
  destruct St as [[h Hk] _ T _].
  pose proof (sy_members _ _ S x ltac:(apply elem_of_app; right; apply list_elem_of_here)) as Ox.
  assert (Hdir : load32 (kmem k') (mb_chunk x) = dir) by apply (sp_chunk _ _ _ _ _ SP').
  assert (Hsame : pid p' = pid (mb_proc x) /\ proc_task p' = proc_task (mb_proc x) /\ filetype p' = filetype (mb_proc x) /\
    program_elf p' = program_elf (mb_proc x) /\ handles p' = handles (mb_proc x) /\ proc_stack p' = proc_stack (mb_proc x) /\
    program_own p' = program_own (mb_proc x)) by (rewrite Hp'; repeat split; reflexivity). destruct Hsame as (E1 & E2 & E3 & E4 & E5 & E6 & E7).
  assert (Hf : forall f : proc -> Z, f p' = f (mb_proc x) -> map (fun y => f (mb_proc y)) (l1 ++ Member (mb_ptr x) p' (mb_chunk x) :: l2) =
    map (fun y => f (mb_proc y)) (l1 ++ x :: l2)) by (intros f Ef; rewrite !List.map_app; cbn [map mb_proc]; by rewrite Ef).
  assert (Hptrs : map mb_ptr (l1 ++ Member (mb_ptr x) p' (mb_chunk x) :: l2) = map mb_ptr (l1 ++ x :: l2))
    by (rewrite !List.map_app; done).
  constructor; rewrite ?Hptrs, ?Hf by done; try apply S.
  - simpl. rewrite Hk. apply vfs_ok_heap, (sy_files _ _ S).
  - exact Hpl'.
  - intros y [Hy|[->|Hy]%elem_of_cons]%elem_of_app; [apply Hmem, elem_of_app; by left| |apply Hmem, elem_of_app; by right].
    destruct Ox. constructor; cbn [mb_ptr mb_proc mb_chunk]; change (skern (put_process (mb_ptr x) p' k' s)) with k';
      rewrite ?E1, ?E2, ?E3, ?E4; [by apply lookup_insert_eq|done|done|by rewrite Hdir|done|done| |done]. unfold no_files. by rewrite E5.
  - change (skern (put_process (mb_ptr x) p' k' s)) with k'. unfold kowns in *. eapply owned_perm; [|reflexivity|exact Ho'].
    rewrite !all_cells_app. unfold all_cells at 2. cbn [map concat]. fold (all_cells (kmem k') l2).
    rewrite !(all_cells_ext (kmem (skern s)) (kmem k')) by (intros y Hy; apply (Hmem y), elem_of_app; auto).
    assert (Hb : mb_cells (kmem k') (Member (mb_ptr x) p' (mb_chunk x)) = alloc_ptrs (allocations p') ++ mb_base (kmem (skern s)) x).
    { unfold mb_cells, mb_base. cbn [mb_ptr mb_proc mb_chunk]. rewrite Hdir, T, E2, E6, E7. done. }
    rewrite Hb, (app_assoc (alloc_ptrs (allocations p')) (mb_base (kmem (skern s)) x)).
    generalize (alloc_ptrs (allocations p') ++ mb_base (kmem (skern s)) x) as c. intros c. rewrite !app_assoc.
    apply Permutation_app_tail, Permutation_app_comm.
  - intros q [c Hq]. change (procs (put_process (mb_ptr x) p' k' s)) with (<[mb_ptr x := p']> (procs s)) in Hq.
    apply lookup_insert_Some in Hq as [[<- _]|[_ Hq]]; [|apply (sy_procs _ _ S); by exists c].
    apply list_elem_of_fmap_2, elem_of_app. right. apply list_elem_of_here.
  - intros i q Hi Hq. destruct (sy_slot _ _ S i q Hi Hq) as (y & Hy & Ey & Hpid).
    apply elem_of_app in Hy as [Hy|[->|Hy]%elem_of_cons]; [exists y; split; [apply elem_of_app; by left|done]| |].
    + eexists. split; [apply elem_of_app; right; apply list_elem_of_here|]. split; [done|]. cbn [mb_proc]. by rewrite E1.
    + exists y. split; [apply elem_of_app; right; by apply list_elem_of_further|done].
Qed.

Lemma system_holds s l1 x l2 :
  system s (l1 ++ x :: l2) ->
  let dir := load32 (kmem (skern s)) (mb_chunk x) in
  holds A0 h0 (mb_chunk x) dir (mb_base (kmem (skern s)) x ++ all_cells (kmem (skern s)) (l1 ++ l2)) (mb_proc x) (skern s) /\
  dir <> current_directory (cpu (ssched s)).
Proof.
  intros S. cbv zeta. destruct (system_focus s l1 x l2 S) as (A & k0 & ts1 & ts2 & task & Fo).
  pose proof (sy_members _ _ S x ltac:(apply elem_of_app; right; apply list_elem_of_here)) as Ox. split.
  - constructor; [apply Ox|apply (sy_placed _ _ S)|]. unfold kowns. eapply owned_perm; [|reflexivity|exact (sy_owns _ _ S)].
    rewrite !all_cells_app. unfold all_cells at 4. cbn [map concat]. fold (all_cells (kmem (skern s)) l2).
    rewrite app_assoc. change (alloc_ptrs _ ++ mb_base _ x) with (mb_cells (kmem (skern s)) x).
    rewrite !app_assoc. apply Permutation_app_tail, Permutation_app_comm.
  - rewrite <- (fo_chunk _ _ _ _ _ _ _ _ _ Fo). eapply (process_ok_cur A k0 (mb_ptr x)); [apply (fo_cur _ _ _ _ _ _ _ _ _ Fo)|].
    apply (pi_ok _ _ _ _ _ _ _ (fo_process _ _ _ _ _ _ _ _ _ Fo)).
Qed.

Lemma system_member s l ptr p :
  system s l -> procs s !! ptr = Some p ->
  exists l1 x l2, l = l1 ++ x :: l2 /\ mb_ptr x = ptr /\ mb_proc x = p /\
    forall t, task_store (ssched s) !! proc_task p = Some t -> page_directory t = mb_chunk x.
Proof.
  intros S Hp. assert (Hin : ptr ∈ map mb_ptr l) by (apply (sy_procs _ _ S); by exists p).
  apply list_elem_of_fmap in Hin as (x & -> & Hx). pose proof (sy_members _ _ S x Hx) as Ox.
  apply list_elem_of_split in Hx as (l1 & l2 & ->). exists l1, x, l2. split; [done|]. split; [done|].
  pose proof (mo_proc _ _ Ox) as Hp'. rewrite Hp in Hp'. injection Hp' as ->. split; [done|]. intros t Ht.
  destruct (mo_task _ _ Ox) as (t' & Ht' & E & _). rewrite Ht in Ht'. by injection Ht' as ->.
Qed.

Lemma malloc_keeps s l1 x l2 size :
  system s (l1 ++ x :: l2) -> 0 <= size < 2 ^ 32 ->
  exists r p' k', process_malloc (current_directory (cpu (ssched s))) (mb_chunk x) size (mb_proc x, skern s) = (Ok r, (p', k')) /\
    system (put_process (mb_ptr x) p' k' s) (l1 ++ Member (mb_ptr x) p' (mb_chunk x) :: l2).
Proof.
  intros S Hs. destruct (system_holds s l1 x l2 S) as [Hh Hcur].
  destruct (holds_malloc A0 h0 _ _ _ _ Hcur _ _ size Hh Hs) as (r & p' & k' & E & Hh' & St & Hr). exists r, p', k'. split; [done|].
  eapply memory_keeps; [done|exact Hh'|exact St|by left|].
  destruct Hr as [(_ & -> & _)|(_ & _ & _ & _ & _ & _ & _ & Hp)]; [by destruct (mb_proc x)|exact Hp].
Qed.

Lemma free_keeps s l1 x l2 ptr :
  system s (l1 ++ x :: l2) ->
  exists p' k', process_free (current_directory (cpu (ssched s))) (mb_chunk x) ptr (mb_proc x, skern s) = (p', k') /\
    system (put_process (mb_ptr x) p' k' s) (l1 ++ Member (mb_ptr x) p' (mb_chunk x) :: l2).
Proof.
  intros S. destruct (system_holds s l1 x l2 S) as [Hh Hcur].
  destruct (decide (ptr ∈ alloc_ptrs (allocations (mb_proc x)))) as [Hin|Hin].
  - destruct (holds_free A0 h0 _ _ _ _ Hcur _ _ ptr Hh Hin) as (p' & k' & E & Hh' & St & _ & Hp). exists p', k'. split; [done|].
    eapply memory_keeps; [done|exact Hh'|exact St| |by rewrite Hp].
    intros q. destruct (decide (q = ptr)) as [->|]; [by right|by left].
  - exists (mb_proc x), (skern s). split.
    + apply process_free_other. intros a Ha <-. apply Hin. by apply list_elem_of_fmap_2.
    + eapply memory_keeps; [done|exact Hh|apply (steps_refl _ (fun _ => True))|by left|by destruct (mb_proc x)].
Qed.

(** ** Steps *)

(** What the kernel does with the process table, in any order. *)
Inductive kernel_step s : sys D H -> Prop :=
  | step_load filename slot args :
    kernel_step s (snd (process_load_for_slot_with_arguments filename slot args s))
  | step_terminate ptr p :
    procs s !! ptr = Some p -> fst (process_terminate ptr s) = Ok 0 -> kernel_step s (snd (process_terminate ptr s))
  | step_switch ptr p :
    procs s !! ptr = Some p -> kernel_step s (process_switch ptr s)
  | step_malloc ptr p t size r p' k' :
    procs s !! ptr = Some p -> task_store (ssched s) !! proc_task p = Some t -> 0 <= size < 2 ^ 32 ->
    process_malloc (current_directory (cpu (ssched s))) (page_directory t) size (p, skern s) = (r, (p', k')) ->
    kernel_step s (put_process ptr p' k' s)
  | step_free ptr p t addr p' k' :
    procs s !! ptr = Some p -> task_store (ssched s) !! proc_task p = Some t ->
    process_free (current_directory (cpu (ssched s))) (page_directory t) addr (p, skern s) = (p', k') ->
    kernel_step s (put_process ptr p' k' s).

Lemma step_keeps s l s' : system s l -> kernel_step s s' -> exists l', system s' l'.
Proof.
  intros S [filename slot args|ptr p Hp Ht|ptr p Hp|ptr p t size r p' k' Hp Ht Hs E|ptr p t addr p' k' Hp Ht E].
  - destruct (process_load_for_slot_with_arguments filename slot args s) as [r s1] eqn:E. pose proof (load_keeps _ _ _ _ _ _ _ S E) as Hr.
    destruct r; [destruct Hr as (x & _ & Hr)|]; eauto.
  - destruct (system_member _ _ _ _ S Hp) as (l1 & x & l2 & -> & <- & _ & _).
    destruct (terminate_keeps s l1 x l2 S) as (r & s1 & E & [[-> _]|(_ & _ & S1)]); rewrite E in *; [done|eauto].
  - exists l. assert (Hin : ptr ∈ map mb_ptr l) by (apply (sy_procs _ _ S); by exists p). destruct S. constructor; try assumption; [|by right].
    intros x Hx. destruct (sy_members0 x Hx). by constructor.
  - destruct (system_member _ _ _ _ S Hp) as (l1 & x & l2 & -> & <- & <- & Hc). rewrite (Hc t Ht) in E.
    destruct (malloc_keeps s l1 x l2 size S Hs) as (r1 & p1 & k1 & E1 & S1). rewrite E1 in E. injection E as <- <- <-. eauto.
  - destruct (system_member _ _ _ _ S Hp) as (l1 & x & l2 & -> & <- & <- & Hc). rewrite (Hc t Ht) in E.
    destruct (free_keeps s l1 x l2 addr S) as (p1 & k1 & E1 & S1). rewrite E1 in E. injection E as <- <-. eauto.
Qed.

Lemma steps_keep s l s' : system s l -> rtc kernel_step s s' -> exists l', system s' l'.
Proof.
  intros S R. revert l S. induction R as [s|s s1 s2 Hs _ IH]; intros l S; [eauto|].
  destruct (step_keeps s l s1 S Hs) as [l1 S1]. by eapply IH.
Qed.

(** ** The start *)

(** No process yet; [A0] is what the kernel has allocated. *)
Record fresh_system s : Prop := FreshSystem {
  fs_files : vfs_ok F (kfiles (skern s));
  fs_live : live (kheap (skern s)) A0;
  fs_heap : kheap (skern s) = h0;
  fs_placed : heap_placed h0;
  fs_sched : sched_wf (ssched s) [];
  fs_procs : procs s = ∅;
  fs_slots : slots s = replicate (Z.to_nat RORTHOX_MAX_PROCESSES) 0;
  fs_current : current_process s = 0;
  fs_cur : current_directory (cpu (ssched s)) = 0 \/ is_Some (A0 !! current_directory (cpu (ssched s)))
}.

Lemma fresh_system_ok s : fresh_system s -> system s [].
Proof.
  intros [V Hl Hh Hp W Ep Es Ec Hc]. constructor; try done.
  - by rewrite Hh.
  - by intros x ?%not_elem_of_nil.
  - unfold kowns. rewrite Hh. apply owned_nil. by rewrite <- Hh.
  - by exists [].
  - intros q [x Hq]. by rewrite Ep, lookup_empty in Hq.
  - by rewrite Es, length_replicate.
  - intros i q Hi Hq. rewrite Es in Hi. apply lookup_replicate in Hi as [-> _]. done.
  - by left.
Qed.

Lemma reachable_system s s' : fresh_system s -> rtc kernel_step s s' -> exists l, system s' l.
Proof. intros Fs R. eapply steps_keep; [by apply fresh_system_ok|done]. Qed.
End system.

(** ** Theorems *)

(** C6: the process table keeps its invariant in every history. After any sequence of loads that succeed or fail, ends
    of processes, switches and memory calls of any process, the processes have separate structs, tasks, directories and
    memory, each with its address space, and the kernel's own allocations are intact. Nothing leaks: whenever no
    process is left, the kernel heap is the one from the start. *)
Theorem process_table_invariant {D H} `{BlockDeviceLaws D} `{AllocatorLaws H} (F : filesystem D H) `{!FilesystemLaws F} A0 (h0 : H) s s' :
  fresh_system F A0 h0 s -> rtc kernel_step s s' ->
  exists l, system F A0 h0 s' l /\ (procs s' = ∅ -> kheap (skern s') = h0).
Proof.
  intros Fs R. destruct (reachable_system F A0 h0 s s' Fs R) as [l S]. exists l. split; [done|]. intros Hp.
  destruct l as [|x l]; [by eapply owned_done, (sy_owns _ _ _ _ _ S)|]. exfalso.
  pose proof (mo_proc _ _ (sy_members _ _ _ _ _ S x (list_elem_of_here _ _))) as Hx. by rewrite Hp, lookup_empty in Hx.
Qed.

Lemma life_fresh : fresh_system fat16_init life_old (kheap life_kern) life_sys.
Proof.
  destruct life_kern_ok as (V & Hl & Hp). constructor; try done; [|by left]. apply (so_sched _ _ _ _ life_sys_ok).
Qed.

Lemma process_table_invariant_witness :
  exists l, system fat16_init life_old (kheap life_kern) (snd (process_load_for_slot_with_arguments demo_path 0 None life_sys)) l.
Proof.
  destruct (process_table_invariant fat16_init life_old (kheap life_kern) life_sys
    (snd (process_load_for_slot_with_arguments demo_path 0 None life_sys)) life_fresh) as (l & S & _).
  - apply rtc_once, step_load.
  - by exists l.
Defined.
