(* ===== verification/Isolation.v ===== *)
(** * Isolation of the processes (kernel/task/process.c, kernel/task/task.c, kernel/memory/paging/paging.c)

    What the invariant [space] of AddrSpace.v gives to the rest of the kernel. The bytes that [process_user_span] grants
    are mapped, a user access never leaves the memory of the process, two processes share nothing, and a copy between
    the kernel and a program needs no condition but that the program owns the range. *)

From stdpp Require Import base numbers list gmap.
From Stdlib Require Import ZArith Lia.
From S2P Require Import Prelude Alloc Heap Memory Paging Sched Effects Disk StrLib PathParser Fat FatWrite FatProps.
From S2P Require Import FatDir FatDirScan FatOpen FatMount Vfs Elf UserMem Process AddrSpace ProcLoad ProcArgs ProcLife System.

#[local] Set Default Goal Selector "!".

Section reach.
Context `{AllocatorLaws H}.
Context (h : H) (m : mem) (chunk dir : Z) (p : proc).
Hypothesis SP : space h m chunk dir p.

(** A byte of a region that grants the access is mapped. *)
Lemma region_leaf_at r write a :
  r ∈ regions m p -> in_region r (a / 4096) -> (write = true -> rg_flags r = 7) -> is_Some (leaf_at m dir write a).
Proof.
  intros Hr Hin Hw. destruct (region_backed _ _ _ _ _ SP r Hr) as (_ & (n & Hn & Hpn) & Hpa & Hfl).
  pose proof (run_bounds _ _ _ Hn). unfold in_region in *. unfold leaf_at. rewrite (sp_leaf _ _ _ _ _ SP r _ Hr Hin). unfold region_leaf.
  destruct (lor_page_flags (rg_phys r + (a / 4096 - rg_virt r / 4096) * 4096) (rg_flags r)) as [_ Hfw]; [lia..|].
  rewrite Hfw by (destruct write; simpl; lia).
  assert (E : Z.land (rg_flags r) (user_flags write) = user_flags write).
  { destruct write; [by rewrite Hw|]. by destruct Hfl as [->| ->]. }
  rewrite E, Z.eqb_refl. eauto.
Qed.

(** A byte that the process owns lies in a region that grants the access. *)
Lemma owned_region write a :
  owns_byte m p write a -> exists r, r ∈ regions m p /\ in_region r (a / 4096) /\ (write = true -> rg_flags r = 7).
Proof.
  intros [Hs Ha|al Hal Hp Ha|Hf Ha|i q Hf Hp Hi Hq ph Ht Hw Ha]; unfold in_span in Ha.
  - exists (stack_region p). split; [apply list_elem_of_here|]. split; [|done]. unfold in_region. simpl.
    unfold RORTHOX_PROGRAM_VIRTUAL_STACK_ADDRESS_END, RORTHOX_PROGRAM_VIRTUAL_STACK_ADDRESS_START, USER_PROGRAM_STACK_SIZE in *. lia.
  - exists (alloc_region al). split; [|split; [|done]].
    + apply list_elem_of_further, elem_of_app. right. apply list_elem_of_fmap_2, list_elem_of_filter. done.
    + destruct (sp_alloc _ _ _ _ _ SP al Hal Hp) as [_ Hrun]. pose proof (run_bounds _ _ _ Hrun).
      unfold in_region. simpl. unfold blocks_for in *. lia.
  - eexists. split; [apply list_elem_of_further, elem_of_app; left; unfold program_regions; rewrite Hf; apply list_elem_of_here|].
    split; [|done]. unfold in_region. simpl. unfold blocks_for, RORTHOX_PROGRAM_VIRTUAL_ADDRESS in *. lia.
  - exists (segment_region ph q). split; [|split].
    + apply list_elem_of_further, elem_of_app. left. unfold program_regions. rewrite Hf. cbn [Z.eqb PROCESS_FILETYPE_ELF PROCESS_FILETYPE_BINARY].
      unfold elf_regions. apply list_elem_of_omap. exists i. split; [apply elem_of_seq; apply lookup_lt_Some in Hi; lia|].
      fold ph. unfold loaded. rewrite Ht, Z.eqb_refl, (proj2 (Z.eqb_neq (p_memsz ph) 0)) by lia. cbn [andb negb]. by rewrite Hi.
    + unfold in_region, segment_region, first_page, end_page. cbn [rg_virt rg_pages]. clearbody ph. lia.
    + intros Hwr. unfold segment_region. cbn [rg_flags]. by rewrite (Hw Hwr).
Qed.

Lemma owned_mapped write a : owns_byte m p write a -> is_Some (leaf_at m dir write a).
Proof. intros (r & Hr & Hin & Hw)%owned_region. by eapply region_leaf_at. Qed.

Lemma accessible_owned write a : accessible m p dir write a <-> owns_byte m p write a.
Proof. split; [by intros []|]. intros Ho. split; [done|by apply owned_mapped]. Qed.

(** The memory behind a user access. *)
Lemma leaf_user write a x :
  0 <= a < 2 ^ 32 -> leaf_at m dir write a = Some x -> exists q n, q ∈ user_memory p /\ run h q n /\ q <= x < q + 4096 * n.
Proof.
  intros Ha Hl. destruct (leaf_region _ _ _ _ _ SP _ _ _ Ha Hl) as (r & n & Hr & _ & Hrun & Hn & _ & Hx & _).
  exists (rg_phys r), n. split; [by apply (region_backed _ _ _ _ _ SP r)|]. split; [done|]. lia.
Qed.

Lemma leaf_own write a x :
  0 <= a < 2 ^ 32 -> leaf_at m dir write a = Some x ->
  exists q n, q ∈ own p /\ run h q n /\ q <= x < q + 4096 * n /\
    (filetype p <> PROCESS_FILETYPE_BINARY -> q <> elf_memory (program_elf p)).
Proof.
  intros Ha Hl. destruct (leaf_user _ _ _ Ha Hl) as (q & n & Hq & Hn & Hx). exists q, n. split; [by apply user_memory_own|].
  split; [done|]. split; [done|]. intros Hf E. apply (user_not_kept _ _ _ _ _ SP q Hq), list_elem_of_further, elem_of_app. right.
  rewrite E. by eapply image_in_kept.
Qed.

(** A run that holds a byte is the only one. *)
Lemma run_unique q n q' n' x :
  run h q n -> run h q' n' -> q <= x < q + 4096 * n -> q' <= x < q' + 4096 * n' -> q = q'.
Proof.
  intros Hq Hq' Hx Hx'. destruct (decide (q = q')) as [|Hne]; [done|].
  pose proof (run_apart _ _ _ _ _ Hq Hq' Hne) as Hap. unfold apart in Hap. lia.
Qed.

Lemma own_not_pages q : q ∈ own p -> q ∉ chunk :: table_pages m dir.
Proof.
  pose proof (sp_dup _ _ _ _ _ SP) as Hd. rewrite app_comm_cons in Hd. apply NoDup_app in Hd as (_ & Hd & _). intros Ho Hp. by apply (Hd q).
Qed.

(** Which memory the checks of the kernel read. *)
Lemma kernel_byte_cell t x :
  page_directory t = chunk -> kernel_byte m t p dir x ->
  exists q n, run h q n /\ q <= x < q + 4096 * n /\
    (q ∈ chunk :: table_pages m dir \/ filetype p <> PROCESS_FILETYPE_BINARY /\ q = elf_memory (program_elf p)).
Proof.
  intros Ht [(q & Hq & Hx)%in_pd_pages|Hx|Hf Hx].
  - destruct (space_run_page _ _ _ _ _ SP q Hq) as [n Hn]. pose proof (run_bounds _ _ _ Hn). exists q, n.
    split; [done|]. split; [lia|]. left. by apply list_elem_of_further.
  - rewrite Ht in Hx. destruct (space_run_chunk _ _ _ _ _ SP) as [n Hn]. pose proof (run_bounds _ _ _ Hn). exists chunk, n.
    split; [done|]. split; [lia|]. left. apply list_elem_of_here.
  - assert (Hb : filetype p <> PROCESS_FILETYPE_BINARY) by (by rewrite Hf).
    destruct (sp_image_run _ _ _ _ _ SP Hb) as (n & Hn & Hs). exists (elf_memory (program_elf p)), n. split; [done|].
    split; [lia|]. by right.
Qed.

(** The memory behind a user access is not memory the checks of the kernel read. *)
Lemma leaf_not_kernel t write a x :
  page_directory t = chunk -> 0 <= a < 2 ^ 32 -> leaf_at m dir write a = Some x -> ~ kernel_byte m t p dir x.
Proof.
  intros Ht Ha Hl Hk. destruct (leaf_own _ _ _ Ha Hl) as (q & n & Ho & Hn & Hx & Him).
  destruct (kernel_byte_cell t x Ht Hk) as (q' & n' & Hn' & Hx' & Hq').
  pose proof (run_unique _ _ _ _ _ Hn Hn' Hx Hx') as ->. destruct Hq' as [Hq'|[Hf ->]]; [by apply (own_not_pages q')|by apply Him].
Qed.

Lemma translate_leaf a write x :
  0 <= a < 2 ^ 32 -> paging_user_translate m dir a write = (0, Some x) <-> leaf_at m dir write a = Some x.
Proof.
  intros Ha. rewrite paging_user_translate_leaf by (done || apply (sp_wf _ _ _ _ _ SP)). unfold leaf_at. cbv zeta.
  destruct (_ =? _); split; intros E; try done; by injection E as <-.
Qed.

(** ** Copies *)

Context (ps : gmap Z proc) (t : task) (address buffer size : Z) (write : bool).
Hypothesis Hchunk : page_directory t = chunk.
Hypothesis Hproc : proc_of ps t = Some p.
Hypothesis Haddress : 0 <= address < 2 ^ 32.
Hypothesis Hsize : 0 <= size < 2 ^ 32.
(** The buffer is not memory of the process. *)
Hypothesis Hbuffer : forall q n i, q ∈ chunk :: table_pages m dir ++ own p -> run h q n -> 0 <= i < size -> ~ (q <= buffer + i < q + 4096 * n).

Lemma space_uview : uview ps m t p dir.
Proof.
  constructor; rewrite ?Hchunk; [done| |apply (sp_chunk _ _ _ _ _ SP)|apply (sp_wf _ _ _ _ _ SP)|apply (sp_image _ _ _ _ _ SP)].
  destruct (space_run_chunk _ _ _ _ _ SP) as [n Hn]. pose proof (run_bounds _ _ _ Hn). lia.
Qed.

Lemma buffer_not_kernel i : 0 <= i < size -> ~ kernel_byte m t p dir (buffer + i).
Proof.
  intros Hi Hk. destruct (kernel_byte_cell t _ Hchunk Hk) as (q & n & Hn & Hx & Hq). apply (Hbuffer q n i); [|done..].
  rewrite app_comm_cons. apply elem_of_app. destruct Hq as [Hq|[Hf ->]]; [by left|right]. by eapply space_image_own.
Qed.

(** A page behind the range; addresses past the end of the address space are not in it. *)
Lemma copy_leaf i x : address + size <= 2 ^ 32 -> 0 <= i < size -> leaf_at m dir write (address + i) = Some x ->
  exists q n, q ∈ own p /\ run h q n /\ q <= x < q + 4096 * n /\ (filetype p <> PROCESS_FILETYPE_BINARY -> q <> elf_memory (program_elf p)).
Proof. intros He Hi. apply leaf_own. lia. Qed.

Lemma space_copy_frame : address + size <= 2 ^ 32 -> copy_frame m t p dir address buffer size write.
Proof.
  intros He. constructor.
  - intros i Hi Hw. unfold copy_dst. destruct write; [|by apply buffer_not_kernel]. destruct (Hw eq_refl) as [x Hx].
    unfold phys_at. rewrite Hx. eapply leaf_not_kernel; [done| |exact Hx]. lia.
  - intros i j Hi Hj _ [x Hx] [y Hy]. unfold phys_at. rewrite Hx, Hy. simpl. intros ->.
    assert (address + i = address + j); [|lia]. eapply leaf_at_inj; [exact SP| | |exact Hx|exact Hy]; lia.
  - intros i j Hi Hj [x Hx]. unfold phys_at. rewrite Hx. simpl. intros E.
    destruct (copy_leaf j x He Hj Hx) as (q & n & Ho & Hn & Hin & _). apply (Hbuffer q n i); [|done|done|lia].
    apply list_elem_of_further, elem_of_app. by right.
Qed.

Definition owned_request : Prop :=
  buffer <> 0 /\ 0 < address /\ 0 < size /\ address + size <= 2 ^ 32 /\ forall i, 0 <= i < size -> owns_byte m p write (address + i).

Lemma owned_request_copy : owned_request <-> copy_request m p dir address buffer size write.
Proof.
  unfold owned_request, copy_request, all_accessible. split; intros (? & ? & ? & ? & Ho); (do 4 (split; [done|])); intros i Hi; by apply accessible_owned, Ho.
Qed.

(** What the copy leaves of the invariant. *)
Lemma space_copied m' :
  (forall a, (forall i, 0 <= i < size -> copy_dst m dir address buffer write i <> a) -> load8 m' a = load8 m a) ->
  owned_request -> space h m' chunk dir p.
Proof.
  intros Hm (_ & _ & _ & He & Ho). apply (space_rewrite _ _ _ _ _ SP). intros q n Hn Hq a Ha. apply Hm. intros i Hi <-.
  assert (Hk : q ∈ chunk :: table_pages m dir ++ own p).
  { rewrite app_comm_cons. apply elem_of_app. destruct Hq as [Hq|[Hf ->]]; [by left|right]. by eapply space_image_own. }
  unfold copy_dst in Ha. destruct write; [|by apply (Hbuffer q n i)].
  destruct (owned_mapped true (address + i) (Ho i Hi)) as [x Hx]. unfold phys_at in Ha. rewrite Hx in Ha. simpl in Ha.
  destruct (leaf_own true (address + i) x ltac:(lia) Hx) as (q' & n' & Ho' & Hn' & Hx' & Him). pose proof (run_unique _ _ _ _ _ Hn Hn' Ha Hx') as ->.
  destruct Hq as [Hq|[Hf ->]]; [by apply (own_not_pages q')|by apply Him].
Qed.
End reach.

(** ** Allocations *)

Section allocations.
Context `{AllocatorLaws H}.
Context (h : H) (m : mem) (chunk dir : Z) (p : proc).
Hypothesis SP : space h m chunk dir p.

(** An allocation is at the address of its memory. *)
Lemma allocation_leaf al write a :
  al ∈ allocations p -> taken al -> in_span a (alloc_ptr al) (alloc_size al) ->
  owns_byte m p write a /\ leaf_at m dir write a = Some a.
Proof.
  intros Hal Ht Ha. split; [by apply (owns_allocation _ _ _ _ al)|]. unfold in_span in Ha.
  destruct (sp_alloc _ _ _ _ _ SP al Hal Ht) as [Hs Hrun]. pose proof (run_bounds _ _ _ Hrun).
  assert (Hr : alloc_region al ∈ regions m p).
  { apply list_elem_of_further, elem_of_app. right. by apply list_elem_of_fmap_2, list_elem_of_filter. }
  assert (Hin : in_region (alloc_region al) (a / 4096)) by (unfold in_region; cbn [alloc_region rg_virt rg_pages]; unfold blocks_for in *; lia).
  unfold leaf_at. rewrite (sp_leaf _ _ _ _ _ SP _ _ Hr Hin). unfold region_leaf. cbn [rg_phys rg_virt rg_flags alloc_region].
  replace (alloc_ptr al + (a / 4096 - alloc_ptr al / 4096) * 4096) with (a / 4096 * 4096) by lia.
  destruct (lor_page_flags (a / 4096 * 4096) 7) as [Hfr Hfw]; [unfold blocks_for in *; lia..|].
  rewrite Hfr, Hfw by (destruct write; simpl; lia). destruct write; cbn [user_flags]; (change (_ =? _) with true || idtac); simpl; f_equal; lia.
Qed.

(** Memory of the heap that is not an allocation of the process is out of reach. *)
Lemma outside_leaf q n write a :
  heap_placed h -> fst (arena h) <= a < fst (arena h) + 4096 * capacity h -> 
  (forall al, al ∈ allocations p -> taken al -> apart (alloc_ptr al) (blocks_for (alloc_size al)) q n) ->
  q <= a < q + 4096 * n -> leaf_at m dir write a = None.
Proof.
  intros [Hl Hh] Ha Hap Hq. unfold RORTHOX_PROGRAM_VIRTUAL_ADDRESS_LIMIT in Hl.
  destruct (leaf_at m dir write a) as [x|] eqn:E; [|done]. exfalso.
  destruct (leaf_region _ _ _ _ _ SP write a x ltac:(lia) E) as (r & c & Hr & Hin & _). unfold in_region in Hin.
  destruct (region_place _ _ _ _ _ SP r Hr) as (_ & Hv & Hp). 
  apply elem_of_cons in Hr as [->|[Hr|Hr]%elem_of_app].
  - simpl in Hin. unfold RORTHOX_PROGRAM_VIRTUAL_STACK_ADDRESS_END, RORTHOX_PROGRAM_VIRTUAL_STACK_ADDRESS_START, USER_PROGRAM_STACK_SIZE in Hin. lia.
  - destruct (sp_program _ _ _ _ _ SP r Hr) as [_ [_ Hw] _ _ _]. unfold RORTHOX_PROGRAM_VIRTUAL_ADDRESS_LIMIT in Hw. lia.
  - apply list_elem_of_fmap in Hr as (al & -> & [Ht Hal]%list_elem_of_filter). specialize (Hap al Hal Ht). unfold apart in Hap.
    cbn [alloc_region rg_virt rg_pages] in *. lia.
Qed.
End allocations.

(** ** Processes of the table *)

Section table.
Context {D H : Type} `{BlockDeviceLaws D} `{AllocatorLaws H} (F : filesystem D H) `{!FilesystemLaws F}.
Context (A0 : gmap Z Z) (h0 : H) (s : sys D H) (l : list member) (ptr : Z) (p : proc) (t : task).
Hypothesis S : system F A0 h0 s l.
Hypothesis Hp : procs s !! ptr = Some p.
Hypothesis Ht : task_store (ssched s) !! proc_task p = Some t.

Lemma table_space :
  space (kheap (skern s)) (kmem (skern s)) (page_directory t) (load32 (kmem (skern s)) (page_directory t)) p /\
  proc_of (procs s) t = Some p.
Proof.
  destruct (system_member F A0 h0 s l ptr p S Hp) as (l1 & x & l2 & E & <- & <- & Hc).
  assert (Hx : x ∈ l) by (rewrite E; apply elem_of_app; right; apply list_elem_of_here).
  pose proof (sy_members _ _ _ _ _ S x Hx) as Ox. rewrite (Hc t Ht). split; [apply Ox|].
  destruct (mo_task _ _ Ox) as (t' & Ht' & _ & Ho). rewrite Ht in Ht'. injection Ht' as <-. unfold proc_of. rewrite Ho.
  destruct (cells_run F A0 h0 s l (mb_ptr x) S) as [n Hn]; [apply elem_of_cells; exists x; split; [done|apply mb_ptr_cells]|].
  pose proof (run_bounds _ _ _ Hn). rewrite (proj2 (Z.eqb_neq _ 0)) by lia. done.
Qed.

(** What a program may use is nothing that the kernel keeps, and not another process's. *)
Lemma table_user q :
  q ∈ user_memory p -> A0 !! q = None /\ ~ (q ∈ mb_kept (kmem (skern s)) (Member ptr p (page_directory t))) /\
  forall ptr' p' t', procs s !! ptr' = Some p' -> task_store (ssched s) !! proc_task p' = Some t' -> ptr' <> ptr ->
    q ∉ mb_cells (kmem (skern s)) (Member ptr' p' (page_directory t')).
Proof.
  intros Hq. destruct (system_member F A0 h0 s l ptr p S Hp) as (l1 & x & l2 & E & Ex & Epx & Hc). rewrite E in S.
  assert (Hx : Member ptr p (page_directory t) = x) by (destruct x; cbn in *; subst; by rewrite (Hc t Ht)).
  rewrite <- Epx in Hq. destruct (system_focus F A0 h0 s l1 x l2 S) as (A & k0 & ts1 & ts2 & task & Fo).
  assert (Hin : q ∈ mb_cells (kmem (skern s)) x) by (rewrite mb_cells_split; apply elem_of_app; by left).
  destruct (sy_owns _ _ _ _ _ S) as (_ & B & _ & _ & Hd & Hdup & He & _). split; [|split].
  - assert (Hb : is_Some (B !! q)) by (apply He, elem_of_cells; exists x; split; [apply elem_of_app; right; apply list_elem_of_here|done]).
    destruct Hb as [n Hb]. by eapply map_disjoint_Some_r.
  - rewrite Hx, all_cells_app in *. apply NoDup_app in Hdup as (_ & _ & Hdup). unfold all_cells in Hdup. cbn [map concat] in Hdup.
    apply NoDup_app in Hdup as (Hdup & _). rewrite mb_cells_split in Hdup. apply NoDup_app in Hdup as (_ & Hdup & _). by apply Hdup.
  - intros ptr' p' t' Hp' Ht' Hne Hq'. apply (fo_apart _ _ _ _ _ _ _ _ _ _ _ Fo q Hin). apply elem_of_cells.
    destruct (system_member F A0 h0 s _ ptr' p' S Hp') as (m1 & y & m2 & E' & Ey & Epy & Hc').
    exists y. split.
    + apply (cons_middle_other _ x); [rewrite E'; apply elem_of_app; right; apply list_elem_of_here|]. intros ->. congruence.
    + rewrite (Hc' t' Ht') in Hq'. destruct y as [yp yq yc]. cbn [mb_ptr mb_proc mb_chunk] in *. by subst.
Qed.
End table.

(** ** Theorems *)

Section theorems.
Context {D H : Type} `{BlockDeviceLaws D} `{AllocatorLaws H} (F : filesystem D H) `{!FilesystemLaws F}.
Implicit Types (s : sys D H) (p : proc) (t : task).

(** A state after some history from an empty process table. *)
Definition reachable (A0 : gmap Z Z) (h0 : H) s : Prop := exists s0, fresh_system F A0 h0 s0 /\ rtc kernel_step s0 s.

(** The process at [ptr] of the table, and its task. *)
Definition in_table s (ptr : Z) p t : Prop := procs s !! ptr = Some p /\ task_store (ssched s) !! proc_task p = Some t.

Definition directory_of s t : Z := load32 (kmem (skern s)) (page_directory t).

(** C1: a program reaches its own memory only. In every state of every history, an access with the rights of a user
    program that the directory of a process lets through goes to the memory of that program: its stack, its code and
    data, or one of its own allocations. This is the only live allocation at that address. It is none that the kernel had
    before the first process, none that the kernel keeps for this process (the struct, the task, the directory and its
    tables, the struct of the ELF file, its image and its table of segments), and none of any other process. *)
Theorem user_access_confined A0 (h0 : H) s ptr p t a write x :
  reachable A0 h0 s -> in_table s ptr p t -> 0 <= a < 2 ^ 32 ->
  paging_user_translate (kmem (skern s)) (directory_of s t) a write = (0, Some x) ->
  exists q n, q ∈ user_memory p /\ run (kheap (skern s)) q n /\ q <= x < q + 4096 * n /\
    (forall q' n', run (kheap (skern s)) q' n' -> q' <= x < q' + 4096 * n' -> q' = q) /\
    A0 !! q = None /\ ~ (q ∈ mb_kept (kmem (skern s)) (Member ptr p (page_directory t))) /\
    forall ptr' p' t', in_table s ptr' p' t' -> ptr' <> ptr ->
      q ∉ mb_cells (kmem (skern s)) (Member ptr' p' (page_directory t')).
Proof.
  intros (s0 & Fs & R) [Hp Ht] Ha E. destruct (reachable_system F A0 h0 s0 s Fs R) as [l S].
  destruct (table_space F A0 h0 s l ptr p t S Hp Ht) as [SP _]. apply (translate_leaf _ _ _ _ _ SP) in E; [|done].
  destruct (leaf_user _ _ _ _ _ SP _ _ _ Ha E) as (q & n & Hq & Hn & Hx).
  destruct (table_user F A0 h0 s l ptr p t S Hp Ht q Hq) as (HA & Hk & Hother). exists q, n. do 3 (split; [done|]).
  split; [intros q' n' Hn' Hx'; by eapply run_unique|]. do 2 (split; [done|]). intros ptr' p' t' [Hp' Ht'] Hne. by eapply Hother.
Qed.

(** C7: in every state of every history, the kernel copies exactly what the program owns. A copy between a buffer that
    is not memory of the process and a range of the program succeeds if and only if the range is a real one and the
    process owns every byte of it with the right to write for a copy to the program; no page need be checked for,
    since everything a process owns is mapped. It then has copied each byte and nothing else, and otherwise it has
    changed nothing. The process keeps its address space in either case. *)
Theorem user_copy_owned A0 (h0 : H) s ptr p t address buffer size write :
  reachable A0 h0 s -> in_table s ptr p t -> 0 <= address < 2 ^ 32 -> 0 <= size < 2 ^ 32 ->
  (forall q n i, q ∈ page_directory t :: table_pages (kmem (skern s)) (directory_of s t) ++ own p ->
     run (kheap (skern s)) q n -> 0 <= i < size -> ~ (q <= buffer + i < q + 4096 * n)) ->
  let m := kmem (skern s) in
  let '(res, m') := task_copy_user (procs s) m (Some t) address buffer size write in
  space (kheap (skern s)) m' (page_directory t) (directory_of s t) p /\
  ((owned_request m p address buffer size write /\ res = 0 /\
    (forall i, 0 <= i < size -> exists x, paging_user_translate m (directory_of s t) (address + i) write = (0, Some x) /\
       if write then load8 m' x = load8 m (buffer + i) else load8 m' (buffer + i) = load8 m x) /\
    (forall a, (forall i, 0 <= i < size -> a <> if write then phys_at m (directory_of s t) write (address + i) else buffer + i) ->
       load8 m' a = load8 m a)) \/
   (~ owned_request m p address buffer size write /\ res = - EINVARG /\ m' = m)).
Proof.
  intros (s0 & Fs & R) [Hp Ht] Ha Hs Hb. cbv zeta. destruct (reachable_system F A0 h0 s0 s Fs R) as [l S].
  destruct (table_space F A0 h0 s l ptr p t S Hp Ht) as [SP Hproc]. fold (directory_of s t) in SP. set (m := kmem (skern s)) in *.
  assert (V : uview (procs s) m t p (directory_of s t)) by (eapply space_uview; [exact SP|done..]).
  assert (Hf : address + size <= 2 ^ 32 -> copy_frame m t p (directory_of s t) address buffer size write)
    by (eapply space_copy_frame; [exact SP|done..]).
  pose proof (copy_user_spec (procs s) m t p (directory_of s t) address buffer size write V Ha Hs Hf) as Hc. clear Hf V.
  destruct (task_copy_user (procs s) m (Some t) address buffer size write) as [res m'].
  destruct Hc as [(Hr & -> & Hin & Hout)|(Hr & -> & ->)]; rewrite <- (owned_request_copy _ _ _ _ _ SP) in Hr.
  - split; [exact (space_copied _ _ _ _ _ SP _ _ _ _ Ha Hs Hb _ Hout Hr)|]. left. split; [done|]. split; [done|]. split.
    + intros i Hi. pose proof Hr as (_ & _ & _ & He & Ho). destruct (owned_mapped _ _ _ _ _ SP write (address + i) (Ho i Hi)) as [x Hx].
      exists x. split; [apply (translate_leaf _ _ _ _ _ SP); [lia|done]|]. specialize (Hin i Hi). unfold copy_dst, copy_src, phys_at in Hin.
      rewrite Hx in Hin. by destruct write.
    + intros a Hx. apply Hout. intros i Hi. apply not_eq_sym, Hx. done.
  - split; [done|]. by right.
Qed.

(** C10: a memory call of a program. In every state of every history [process_malloc] returns null only for a size of
    zero, a size that cannot be rounded to pages, when the kernel heap has no room, or when all slots of the process
    are in use; it has then changed no allocation. Otherwise the program gets memory that overlaps no other allocation
    of the kernel, is all zero, and that it can read and write at the very address returned. Every allocation stays,
    and only the tables of the process's directory are written besides the new memory. *)
Theorem process_malloc_exact A0 (h0 : H) s ptr p t size :
  reachable A0 h0 s -> in_table s ptr p t -> 0 <= size < 2 ^ 32 ->
  exists r p' k',
    process_malloc (current_directory (cpu (ssched s))) (page_directory t) size (p, skern s) = (Ok r, (p', k')) /\
    (forall q n, run (kheap (skern s)) q n -> run (kheap k') q n /\
       (q ∉ table_pages (kmem (skern s)) (directory_of s t) -> same_on (kmem (skern s)) (kmem k') q (q + 4096 * n))) /\
    ((r = 0 /\ p' = p /\ kheap k' = kheap (skern s) /\ malloc_refused (skern s) p size) \/
     (0 < size /\ run (kheap k') r (blocks_for size) /\
      (forall q n, run (kheap (skern s)) q n -> apart r (blocks_for size) q n) /\
      alloc_ptrs (allocations p') ≡ₚ r :: alloc_ptrs (allocations p) /\
      forall a, r <= a < r + size -> load8 (kmem k') a = 0 /\
        forall write, owns_byte (kmem k') p' write a /\
          paging_user_translate (kmem k') (directory_of s t) a write = (0, Some a))).
Proof.
  intros (s0 & Fs & R) [Hp Ht] Hs. destruct (reachable_system F A0 h0 s0 s Fs R) as [l S].
  destruct (system_member F A0 h0 s l ptr p S Hp) as (l1 & x & l2 & -> & <- & <- & Hc). rewrite (Hc t Ht) in *.
  unfold directory_of. rewrite (Hc t Ht). destruct (system_holds F A0 h0 s l1 x l2 S) as [Hh Hcur].
  destruct (holds_malloc A0 h0 _ _ _ _ Hcur _ _ size Hh Hs) as (r & p' & k' & E & Hh' & [_ K _ Rn] & Hr).
  exists r, p', k'. split; [done|]. split; [intros q n Hq; split; [by apply Rn|by apply K]|].
  destruct Hr as [Hr|(Hr & Hs0 & Hrun & Hap & Hz & Hptrs & Hin & _)]; [by left|right].
  split; [done|]. split; [done|]. split; [done|]. split; [done|]. intros a Ha. pose proof (run_bounds _ _ _ Hrun) as Hb.
  split; [apply Hz; unfold blocks_for in *; lia|]. intros write. pose proof (hd_space _ _ _ _ _ _ _ Hh') as SP.
  destruct (allocation_leaf _ _ _ _ _ SP _ write a Hin) as [Ho Hl]; [unfold taken; simpl; lia|unfold in_span; simpl; lia|].
  split; [done|]. apply (translate_leaf _ _ _ _ _ SP); [unfold blocks_for in *; lia|done].
Qed.

(** C11: giving memory back. In every state of every history [process_free] ignores a pointer that is not one of the
    process's allocations, changing nothing at all. For one of them it releases exactly this block: the process no
    longer lists it, the kernel heap no longer has it, no user access through the directory reaches any byte of it,
    and every other allocation stays with its contents, the tables of the directory apart. *)
Theorem process_free_exact A0 (h0 : H) s ptr p t addr :
  reachable A0 h0 s -> in_table s ptr p t ->
  let free := process_free (current_directory (cpu (ssched s))) (page_directory t) addr (p, skern s) in
  (addr ∉ alloc_ptrs (allocations p) -> free = (p, skern s)) /\
  (addr ∈ alloc_ptrs (allocations p) ->
   let '(p', k') := free in
   alloc_ptrs (allocations p) ≡ₚ addr :: alloc_ptrs (allocations p') /\ (forall n, ~ run (kheap k') addr n) /\
   (forall n a write, run (kheap (skern s)) addr n -> addr <= a < addr + 4096 * n ->
      fst (paging_user_translate (kmem k') (directory_of s t) a write) = - EINVARG) /\
   forall q n, run (kheap (skern s)) q n -> q <> addr -> run (kheap k') q n /\
     (q ∉ table_pages (kmem (skern s)) (directory_of s t) -> same_on (kmem (skern s)) (kmem k') q (q + 4096 * n))).
Proof.
  intros (s0 & Fs & R) [Hp Ht]. destruct (reachable_system F A0 h0 s0 s Fs R) as [l S].
  destruct (system_member F A0 h0 s l ptr p S Hp) as (l1 & x & l2 & -> & <- & <- & Hc).
  destruct (system_holds F A0 h0 s l1 x l2 S) as [Hh Hcur]. unfold directory_of. rewrite (Hc t Ht) in *. cbv zeta. split.
  { intros Hin. apply process_free_other. intros a Ha <-. apply Hin. by apply list_elem_of_fmap_2. }
  intros Hin. destruct (holds_free A0 h0 _ _ _ _ Hcur _ _ addr Hh Hin) as (p' & k' & E & Hh' & [_ K _ Rn] & Hptrs & _). rewrite E. clear E.
  pose proof (hd_owns _ _ _ _ _ _ _ Hh) as Ho. pose proof (hd_owns _ _ _ _ _ _ _ Hh') as Ho'.
  assert (Hnot : forall n, ~ run (kheap k') addr n).
  { intros n (M & HM & Hn). destruct Ho as (_ & B & _ & _ & Hd & Hdup & He & _). destruct Ho' as (_ & B' & _ & Hl' & _ & _ & He' & _).
    rewrite (live_fun _ _ _ HM Hl') in Hn. apply lookup_union_Some_raw in Hn as [Hn|[_ Hn]].
    - rewrite Hptrs in Hdup. apply NoDup_cons in Hdup as [Hdup _]. apply Hdup, He'. by exists n.
    - assert (Hb : is_Some (B !! addr)) by (apply He, elem_of_app; by left). destruct Hb as [b Hb].
      by rewrite (map_disjoint_Some_l _ _ _ _ Hd Hn) in Hb. }
  split; [done|]. split; [done|]. split.
  - intros n a write Hrun Ha. pose proof (hd_space _ _ _ _ _ _ _ Hh') as SP. pose proof (hd_placed _ _ _ _ _ _ _ Hh') as Hpl.
    pose proof (run_bounds _ _ _ Hrun) as Hb. pose proof (run_arena _ _ _ Hrun) as Har.
    assert (Hare : arena (kheap k') = arena (kheap (skern s))) by (destruct Ho as [-> _], Ho' as [-> _]; done).
    rewrite paging_user_translate_leaf by (lia || apply (sp_wf _ _ _ _ _ SP)).
    assert (Hl : leaf_at (kmem k') (load32 (kmem (skern s)) (mb_chunk x)) write a = None).
    { apply (outside_leaf _ _ _ _ _ SP addr n); [done|rewrite Hare, (capacity_arena _ _ Hare); lia| |done].
      intros al Hal Htk. destruct (sp_alloc _ _ _ _ _ SP al Hal Htk) as [_ Hra].
      assert (Hne : alloc_ptr al <> addr) by (intros Ea; rewrite Ea in Hra; by eapply Hnot).
      assert (Hold : exists c, run (kheap (skern s)) (alloc_ptr al) c).
      { eapply owned_run; [exact Ho|]. rewrite Hptrs. apply list_elem_of_further, elem_of_app. left. by apply list_elem_of_fmap_2, list_elem_of_filter. }
      destruct Hold as [c Hold]. rewrite (run_fun _ _ _ _ Hra (Rn _ _ Hold Hne)). by apply (run_apart (kheap (skern s))). }
    unfold leaf_at in Hl. cbv zeta. by destruct (_ =? _).
  - intros q n Hq Hne. split; [by apply Rn|by apply K].
Qed.
End theorems.

(** ** The process of the example *)

Lemma life_running :
  exists s ptr p t, reachable fat16_init life_old (kheap life_kern) s /\ in_table s ptr p t /\
    space (kheap (skern s)) (kmem (skern s)) (page_directory t) (directory_of s t) p /\
    fst (arena (kheap (skern s))) = 16777216.
Proof.
  destruct life_load as (ptr & s & E). pose proof (load_spec fat16_init _ _ _ _ _ _ _ _ life_sys_ok E) as Hd.
  destruct Hd as (_ & _ & _ & _ & _ & _ & _ & _ & _ & p & t & _ & _ & Hin & _). destruct Hin as [Hp _ _ _ Ht _ Hok _].
  exists s, ptr, p, t. split; [|split; [split; [exact Hp|exact Ht]|]].
  - exists life_sys. split; [apply life_fresh|]. pose proof (step_load life_sys demo_path 0 None) as Hs. rewrite E in Hs. apply rtc_once. exact Hs.
  - destruct Hok as [[SP _ Ho] _ _]. split; [exact SP|]. destruct Ho as [-> _]. reflexivity.
Qed.

(** The last page of the stack. *)
Lemma life_stack {H} `{AllocatorLaws H} (h : H) m chunk dir p write i :
  space h m chunk dir p -> 0 <= i < 4096 -> owns_byte m p write (0x3FB000 + i).
Proof.
  intros SP Hi. apply owns_stack.
  - pose proof (run_bounds _ _ _ (sp_stack _ _ _ _ _ SP)). lia.
  - unfold in_span, RORTHOX_PROGRAM_VIRTUAL_STACK_ADDRESS_END, RORTHOX_PROGRAM_VIRTUAL_STACK_ADDRESS_START, USER_PROGRAM_STACK_SIZE. lia.
Qed.

Lemma user_access_confined_witness :
  exists (s : sys ram_disk Heap.heap) t x p, paging_user_translate (kmem (skern s)) (directory_of s t) 0x3FB000 true = (0, Some x) /\
    exists q n, q ∈ user_memory p /\ run (kheap (skern s)) q n /\ q <= x < q + 4096 * n.
Proof.
  destruct life_running as (s & ptr & p & t & R & I & SP & _).
  destruct (owned_mapped _ _ _ _ _ SP true _ (life_stack _ _ _ _ _ true 0 SP ltac:(lia))) as [x Hx].
  change (0x3FB000 + 0) with 0x3FB000 in Hx. apply (translate_leaf _ _ _ _ _ SP) in Hx; [|lia].
  destruct (user_access_confined fat16_init life_old (kheap life_kern) s ptr p t 0x3FB000 true x R I ltac:(lia) Hx) as (q & n & Hq & Hn & Hin & _).
  exists s, t, x, p. split; [exact Hx|]. exists q, n. done.
Defined.

Lemma user_copy_owned_witness :
  exists (s : sys ram_disk Heap.heap) t m', task_copy_user (procs s) (kmem (skern s)) (Some t) 0x3FB000 4096 3 true = (0, m').
Proof.
  destruct life_running as (s & ptr & p & t & R & I & SP & Ha). exists s, t.
  pose proof (user_copy_owned fat16_init life_old (kheap life_kern) s ptr p t 0x3FB000 4096 3 true R I ltac:(lia) ltac:(lia)) as Hc.
  cbv zeta in Hc. destruct (task_copy_user (procs s) (kmem (skern s)) (Some t) 0x3FB000 4096 3 true) as [res m'].
  destruct Hc as [_ [(_ & -> & _)|(Hn & _)]].
  - intros q n i _ Hrun Hi. pose proof (run_arena _ _ _ Hrun). lia.
  - by exists m'.
  - destruct Hn. unfold owned_request. do 4 (split; [lia|]). intros i Hi. apply (life_stack _ _ _ _ _ true i SP). lia.
Defined.

Lemma process_malloc_exact_witness :
  exists (s : sys ram_disk Heap.heap) t p r p' k',
    process_malloc (current_directory (cpu (ssched s))) (page_directory t) 100 (p, skern s) = (Ok r, (p', k')).
Proof.
  destruct life_running as (s & ptr & p & t & R & I & _).
  destruct (process_malloc_exact fat16_init life_old (kheap life_kern) s ptr p t 100 R I ltac:(lia)) as (r & p' & k' & E & _).
  by exists s, t, p, r, p', k'.
Defined.

Lemma process_free_exact_witness :
  exists (s : sys ram_disk Heap.heap) t p,
    process_free (current_directory (cpu (ssched s))) (page_directory t) 0 (p, skern s) = (p, skern s).
Proof.
  destruct life_running as (s & ptr & p & t & R & I & _).
  destruct (process_free_exact fat16_init life_old (kheap life_kern) s ptr p t 0 R I) as [Hf _]. exists s, t, p. apply Hf.
  intros (a & Ea & [Ht _]%list_elem_of_filter)%list_elem_of_fmap. by apply Ht.
Defined.
