(* ===== verification/Descriptors.v ===== *)
(** * Descriptor tables (kernel/gdt/gdt.c, kernel/idt/idt.c, kernel/kernel.c)

    The encoding of segment descriptors and interrupt gates, and the tables that the kernel builds from them. A
    descriptor is its eight bytes; what the processor reads from them is written out as the reference. *)

From stdpp Require Import base numbers list gmap.
From Stdlib Require Import ZArith Lia.
From S2P Require Import Prelude.
From S2P Require Import Process.

#[local] Set Default Goal Selector "!".

(** ** Segment descriptors *)

Record gdt_structured := GdtStructured { gs_base : Z; gs_limit : Z; gs_type : Z }.

(** The bytes of the descriptor; [None] is the panic on a limit that cannot be encoded. *)
Definition encodeGdtEntry (source : gdt_structured) : option (list Z) :=
  let limit := gs_limit source in
  if (65536 <? limit) && negb (Z.land limit 0xFFF =? 0xFFF) then None
  else
    let '(limit, flags) := if 65536 <? limit then (Z.shiftr limit 12, 0xC0) else (limit, 0x40) in
    let flags := Z.lor flags (Z.land (Z.shiftr limit 16) 0x0F) in
    let base := gs_base source in
    let flags := if Z.land (gs_type source) 0x1F =? 0x09 then Z.land flags (Z.lnot 0x40) else flags in
    Some [Z.land limit 0xFF; Z.land (Z.shiftr limit 8) 0xFF;
          Z.land base 0xFF; Z.land (Z.shiftr base 8) 0xFF; Z.land (Z.shiftr base 16) 0xFF;
          gs_type source; flags; Z.land (Z.shiftr base 24) 0xFF].

Fixpoint gdt_structured_to_gdt (structured : list gdt_structured) : option (list (list Z)) :=
  match structured with
  | [] => Some []
  | s :: l => d ← encodeGdtEntry s; ds ← gdt_structured_to_gdt l; Some (d :: ds)
  end.

Definition sizeof_tss : Z := 104.

(** The table of kernel.c; [tss] is the address of the task state segment. *)
Definition kernel_gdt (tss : Z) : list gdt_structured :=
  [GdtStructured 0x00 0x00 0x00;
   GdtStructured 0x00 0xffffffff 0x9A;
   GdtStructured 0x00 0xffffffff 0x92;
   GdtStructured 0x00 0xffffffff 0xF8;
   GdtStructured 0x00 0xffffffff 0xF2;
   GdtStructured tss (sizeof_tss - 1) 0x89].

Definition KERNEL_CODE_SELECTOR : Z := 0x08.
Definition KERNEL_DATA_SELECTOR : Z := 0x10.
Definition RORTHOX_TSS_SELECTOR : Z := 0x28.
Definition RORTHOX_KERNEL_TSS_STACK_TOP : Z := 0x600000.

(** The fields of the task state segment that the kernel sets; all others are zero. *)
Record tss := Tss { tss_esp0 : Z; tss_ss0 : Z; tss_iomap_base : Z }.
Definition kernel_tss : tss := Tss RORTHOX_KERNEL_TSS_STACK_TOP KERNEL_DATA_SELECTOR sizeof_tss.

(** ** Interrupt gates *)

Definition RORTHOX_TOTAL_INTERRUPTS : Z := 256.
Definition RORTHOX_SYSCALL_VECTOR : Z := 0x80.

Record idt_desc := IdtDesc { offset_1 : Z; selector : Z; zero : Z; type_attr : Z; offset_2 : Z }.

Definition idt_set (interrupt_no address : Z) (idt : list idt_desc) : list idt_desc :=
  let user_gate := (interrupt_no =? RORTHOX_SYSCALL_VECTOR) || (interrupt_no =? 3) || (interrupt_no =? 4) in
  <[Z.to_nat interrupt_no :=
      IdtDesc (Z.land address 0x0000ffff) KERNEL_CODE_SELECTOR 0x00 (if user_gate then 0xEE else 0x8E)
        (Z.shiftr address 16)]> idt.

(** The loop over the vectors from [i] on; [interrupt_pointer_table] is the table of stubs in idt.asm. *)
Fixpoint idt_init_loop (n : nat) (i : Z) (interrupt_pointer_table : list Z) (idt : list idt_desc) : list idt_desc :=
  match n with
  | O => idt
  | S n => idt_init_loop n (i + 1) interrupt_pointer_table
             (idt_set i (default 0 (interrupt_pointer_table !! Z.to_nat i)) idt)
  end.

Definition idt_init (interrupt_pointer_table : list Z) (isr80h_wrapper : Z) : list idt_desc :=
  let idt := replicate (Z.to_nat RORTHOX_TOTAL_INTERRUPTS) (IdtDesc 0 0 0 0 0) in
  let idt := idt_init_loop (Z.to_nat RORTHOX_TOTAL_INTERRUPTS) 0 interrupt_pointer_table idt in
  idt_set RORTHOX_SYSCALL_VECTOR isr80h_wrapper idt.

(** ** What the processor reads *)

Definition byte_at (d : list Z) (i : nat) : Z := default 0 (d !! i).

Definition gdt_base (d : list Z) : Z :=
  byte_at d 2 + 2 ^ 8 * byte_at d 3 + 2 ^ 16 * byte_at d 4 + 2 ^ 24 * byte_at d 7.

(** Bit 7 of byte 6 is the granularity: the limit counts pages, and the last page is whole. *)
Definition gdt_limit (d : list Z) : Z :=
  let raw := byte_at d 0 + 2 ^ 8 * byte_at d 1 + 2 ^ 16 * (byte_at d 6 mod 16) in
  if Z.testbit (byte_at d 6) 7 then raw * 4096 + 4095 else raw.

Definition gdt_access (d : list Z) : Z := byte_at d 5.

(** Bit 6 of byte 6: 32-bit operations. Byte 5 holds the privilege level in bits 5 and 6, and whether the segment is
    present in bit 7. *)
Definition gdt_default_32 (d : list Z) : bool := Z.testbit (byte_at d 6) 6.
Definition gdt_dpl (d : list Z) : Z := byte_at d 5 / 32 mod 4.

(** What a selector refers to: the descriptor at its offset, the low three bits being the privilege and the table. *)
Definition segment (gdt : list (list Z)) (selector : Z) : option (list Z) := gdt !! Z.to_nat (selector / 8).

(** The target of a gate, and the least privilege that may raise it by an instruction. *)
Definition gate_target (d : idt_desc) : Z := offset_1 d + 2 ^ 16 * offset_2 d.
Definition gate_dpl (d : idt_desc) : Z := type_attr d / 32 mod 4.
Definition gate_present (d : idt_desc) : bool := Z.testbit (type_attr d) 7.

(** ** Lemmas *)

Lemma land_byte z : Z.land z 0xFF = z mod 256.
Proof. change 0xFF with (Z.ones 8). by rewrite land_low_mask. Qed.

Lemma bytes_of_word z : 0 <= z < 2 ^ 32 ->
  z mod 256 + 2 ^ 8 * (z / 2 ^ 8 mod 256) + 2 ^ 16 * (z / 2 ^ 16 mod 256) + 2 ^ 24 * (z / 2 ^ 24 mod 256) = z.
Proof. lia. Qed.

(** The flags byte: a flag of the upper half beside four bits of the limit. *)
Lemma flags_byte f n : f = 0xC0 \/ f = 0x40 -> 0 <= n < 16 ->
  let b := Z.lor f n in
  let b' := Z.land b (Z.lnot 0x40) in
  ((0 <= b < 256 /\ b mod 16 = n) /\ Z.testbit b 7 = (f =? 0xC0) /\ Z.testbit b 6 = true) /\
  ((0 <= b' < 256 /\ b' mod 16 = n) /\ Z.testbit b' 7 = (f =? 0xC0) /\ Z.testbit b' 6 = false).
Proof.
  intros Hf Hn. cbv zeta.
  assert (Hc : n ∈ seqZ 0 16) by (apply elem_of_seqZ; lia). cbn in Hc.
  destruct Hf as [->| ->]; repeat (apply elem_of_cons in Hc as [->|Hc]; [repeat split; done|]); by apply not_elem_of_nil in Hc.
Qed.

(** A descriptor with a 20-bit limit, in bytes or in pages. *)
Lemma descriptor_decode base raw type f :
  0 <= base < 2 ^ 32 -> 0 <= raw < 2 ^ 20 -> 0 <= type < 2 ^ 8 -> f = 0xC0 \/ f = 0x40 ->
  let flags := Z.lor f (Z.land (Z.shiftr raw 16) 0x0F) in
  let flags := if Z.land type 0x1F =? 0x09 then Z.land flags (Z.lnot 0x40) else flags in
  let d := [Z.land raw 0xFF; Z.land (Z.shiftr raw 8) 0xFF;
            Z.land base 0xFF; Z.land (Z.shiftr base 8) 0xFF; Z.land (Z.shiftr base 16) 0xFF;
            type; flags; Z.land (Z.shiftr base 24) 0xFF] in
  Forall (fun b => 0 <= b < 256) d /\ gdt_base d = base /\
  gdt_limit d = (if f =? 0xC0 then raw * 4096 + 4095 else raw) /\ gdt_default_32 d = negb (type mod 32 =? 9).
Proof.
  intros Hb Hr Ht Hf. cbv zeta. rewrite !land_byte.
  change 0x0F with (Z.ones 4). change 0x1F with (Z.ones 5). rewrite (land_low_mask _ 4), (land_low_mask _ 5) by lia.
  rewrite !Z.shiftr_div_pow2 by lia. change (2 ^ 5) with 32. change (2 ^ 4) with 16.
  destruct (flags_byte f (raw / 2 ^ 16 mod 16) Hf ltac:(lia)) as [Hno Htss].
  set (b := Z.lor _ _) in *. set (b' := Z.land b _) in *. clearbody b' b.
  assert (Hfl : exists g, g = (if type mod 32 =? 9 then b' else b) /\ (0 <= g < 256 /\ g mod 16 = raw / 2 ^ 16 mod 16) /\
    Z.testbit g 7 = (f =? 0xC0) /\ Z.testbit g 6 = negb (type mod 32 =? 9)) by (destruct (_ =? 9); eauto).
  destruct Hfl as (g & <- & [Hg Hg16] & Hg7 & Hg6). cbv [gdt_base gdt_limit gdt_default_32 byte_at lookup list_lookup from_option id].
  rewrite Hg7, Hg6, Hg16. repeat split.
  - repeat constructor; lia.
  - apply bytes_of_word. done.
  - assert (raw mod 256 + 2 ^ 8 * (raw / 2 ^ 8 mod 256) + 2 ^ 16 * (raw / 2 ^ 16 mod 16) = raw) as -> by lia. done.
Qed.

Lemma idt_init_loop_lookup n : forall i table idt v,
  0 <= i -> 0 <= v < Z.of_nat (length idt) -> i + Z.of_nat n <= Z.of_nat (length idt) ->
  length (idt_init_loop n i table idt) = length idt /\
  idt_init_loop n i table idt !! Z.to_nat v =
    (if (i <=? v) && (v <? i + Z.of_nat n)
     then idt_set v (default 0 (table !! Z.to_nat v)) idt else idt) !! Z.to_nat v.
Proof.
  induction n as [|n IH]; intros i table idt v Hi Hv Hn; cbn [idt_init_loop].
  { split; [done|]. by rewrite (proj2 (andb_false_iff _ _)) by (rewrite Z.leb_gt, Z.ltb_ge; lia). }
  set (idt' := idt_set i _ idt). assert (Hl : length idt' = length idt) by apply length_insert.
  destruct (IH (i + 1) table idt' v ltac:(lia)) as [IHl IHv]; [lia..|]. split; [by rewrite IHl|]. rewrite IHv. clear IHl IHv.
  destruct (Z.eq_dec v i) as [->|Hne].
  - case_Zb; try lia. done.
  - assert (Hne' : Z.to_nat i <> Z.to_nat v) by lia.
    case_Zb; cbn [andb]; try lia; unfold idt', idt_set;
      rewrite ?list_lookup_insert_eq by (rewrite ?length_insert; lia); rewrite ?list_lookup_insert_ne by done; done.
Qed.

Lemma gate_roundtrip address : 0 <= address < 2 ^ 32 ->
  Z.land address 0x0000ffff + 2 ^ 16 * Z.shiftr address 16 = address.
Proof. intros. change 0x0000ffff with (Z.ones 16). rewrite land_low_mask, Z.shiftr_div_pow2 by lia. lia. Qed.

(** ** Properties *)

(** A segment descriptor decodes to what was encoded: for every base, limit and access byte, [encodeGdtEntry]
    panics exactly on a limit above 64 KiB that does not end a page, and otherwise the processor reads the same base, the
    same limit in bytes and the same access byte from the eight bytes, all of them bytes, with the 32-bit flag clear exactly
    for a task state segment. *)
Theorem encode_gdt_roundtrip s :
  0 <= gs_base s < 2 ^ 32 -> 0 <= gs_limit s < 2 ^ 32 -> 0 <= gs_type s < 2 ^ 8 ->
  match encodeGdtEntry s with
  | None => 65536 < gs_limit s /\ gs_limit s mod 4096 <> 4095
  | Some d =>
      length d = 8%nat /\ Forall (fun b => 0 <= b < 256) d /\
      gdt_base d = gs_base s /\ gdt_limit d = gs_limit s /\ gdt_access d = gs_type s /\
      gdt_default_32 d = negb (gs_type s mod 32 =? 9)
  end.
Proof.
  destruct s as [base limit type]. cbn [gs_base gs_limit gs_type]. intros Hb Hl Ht. unfold encodeGdtEntry.
  cbn [gs_base gs_limit gs_type]. change 0xFFF with (Z.ones 12). rewrite (land_low_mask _ 12) by lia.
  change (Z.ones 12) with 4095. change (2 ^ 12) with 4096.
  destruct (Z.ltb_spec 65536 limit) as [Hbig|Hsmall]; cbn [andb].
  - destruct (Z.eqb_spec (limit mod 4096) 4095) as [Hp|Hp]; cbn [negb]; [|done].
    rewrite (Z.shiftr_div_pow2 limit 12) by lia.
    destruct (descriptor_decode base (limit / 2 ^ 12) type 0xC0) as (? & ? & Hlim & ?); [lia..|auto|].
    repeat split; try done. rewrite Hlim. cbn. lia.
  - destruct (descriptor_decode base limit type 0x40) as (? & ? & Hlim & ?); [lia..|auto|]. repeat split; done.
Qed.

Lemma encode_gdt_roundtrip_witness :
  exists d, encodeGdtEntry (GdtStructured 0x12345678 0xabcdefff 0x92) = Some d /\ gdt_limit d = 0xabcdefff.
Proof.
  eexists. split; [vm_compute; reflexivity|].
  exact (proj1 (proj2 (proj2 (proj2 (encode_gdt_roundtrip (GdtStructured 0x12345678 0xabcdefff 0x92)
    ltac:(cbn; lia) ltac:(cbn; lia) ltac:(cbn; lia)))))).
Defined.

(** The boot tables protect the kernel: whatever the address of the task state segment, [kernel_gdt] encodes without
    a panic; code and data of both rings are flat 4 GiB segments, of privilege 0 under the kernel selectors and 3 under the
    user selectors; the task state segment is the one the kernel filled in, to its last byte, not open to ring 3, takes the
    kernel data segment for the stack of ring 0, and has its I/O map past its limit, so ring 3 has no port. *)
Theorem kernel_gdt_protects tss_address : 0 <= tss_address < 2 ^ 32 ->
  exists gdt, gdt_structured_to_gdt (kernel_gdt tss_address) = Some gdt /\ length gdt = 6%nat /\
  (forall sel access, (sel, access) ∈ [(KERNEL_CODE_SELECTOR, 0x9A); (KERNEL_DATA_SELECTOR, 0x92);
                                       (USER_CODE_SEGMENT, 0xF8); (USER_DATA_SEGMENT, 0xF2)] ->
    exists d, segment gdt sel = Some d /\ gdt_base d = 0 /\ gdt_limit d = 2 ^ 32 - 1 /\ gdt_access d = access /\
      gdt_dpl d = sel mod 4) /\
  (exists d, segment gdt RORTHOX_TSS_SELECTOR = Some d /\ gdt_base d = tss_address /\ gdt_limit d = sizeof_tss - 1 /\
    gdt_dpl d = 0 /\ gdt_limit d < tss_iomap_base kernel_tss) /\
  tss_ss0 kernel_tss = KERNEL_DATA_SELECTOR.
Proof.
  intros Ht. destruct (descriptor_decode tss_address (sizeof_tss - 1) 0x89 0x40) as (_ & Hb & Hl & _); [done..|by right|].
  eexists. split; [reflexivity|]. split; [reflexivity|]. split; [|split; [|reflexivity]].
  - intros sel access Hin. rewrite !elem_of_cons, elem_of_nil in Hin.
    destruct Hin as [E|[E|[E|[E|[]]]]]; injection E as -> ->; eexists; (split; [reflexivity|]); done.
  - eexists. split; [reflexivity|]. split; [exact Hb|]. split; [exact Hl|]. done.
Qed.

Lemma kernel_gdt_protects_witness :
  exists gdt, gdt_structured_to_gdt (kernel_gdt 0x10e3a0) = Some gdt /\ length gdt = 6%nat.
Proof. destruct (kernel_gdt_protects 0x10e3a0) as (gdt & H & Hl & _); [lia|]. exists gdt. done. Defined.

(** C33: The gates of [idt_init]: for every table of stubs, each of the 256 vectors is a present gate into the kernel code
    segment whose target is the vector's own stub, the system call vector's being the system call wrapper; and a program in
    ring 3 can raise by an instruction exactly the system call and the debugging traps 3 and 4. *)
Theorem idt_init_gates table wrapper v :
  length table = 256%nat -> Forall (fun a => 0 <= a < 2 ^ 32) table -> 0 <= wrapper < 2 ^ 32 -> 0 <= v < 256 ->
  exists d, idt_init table wrapper !! Z.to_nat v = Some d /\
    gate_present d = true /\ selector d = KERNEL_CODE_SELECTOR /\ zero d = 0 /\
    gate_target d = (if v =? RORTHOX_SYSCALL_VECTOR then wrapper else default 0 (table !! Z.to_nat v)) /\
    gate_dpl d = (if decide (v ∈ [3; 4; RORTHOX_SYSCALL_VECTOR]) then 3 else 0).
Proof.
  intros Hlen Ht Hw Hv. set (idt := replicate 256 (IdtDesc 0 0 0 0 0)).
  destruct (idt_init_loop_lookup 256 0 table idt v) as [Hl Hlook]; [unfold idt; rewrite ?length_replicate; lia..|].
  rewrite (proj2 (andb_true_iff _ _)) in Hlook by (rewrite Z.leb_le, Z.ltb_lt; lia).
  unfold idt in Hl. rewrite length_replicate in Hl.
  assert (Ha : 0 <= default 0 (table !! Z.to_nat v) < 2 ^ 32).
  { destruct (lookup_lt_is_Some_2 table (Z.to_nat v)) as [a Ha]; [lia|]. rewrite Ha. exact (Forall_lookup_1 _ _ _ _ Ht Ha). }
  set (a := if v =? RORTHOX_SYSCALL_VECTOR then wrapper else default 0 (table !! Z.to_nat v)).
  assert (Hau : 0 <= a < 2 ^ 32) by (unfold a; destruct (v =? _); assumption).
  exists (IdtDesc (Z.land a 0x0000ffff) KERNEL_CODE_SELECTOR 0
    (if decide (v ∈ [3; 4; RORTHOX_SYSCALL_VECTOR]) then 0xEE else 0x8E) (Z.shiftr a 16)).
  split; [|unfold gate_present, gate_dpl, gate_target; cbn [offset_1 offset_2 selector zero type_attr]; rewrite gate_roundtrip by exact Hau;
    destruct (decide _); repeat split; reflexivity].
  clear Ht Ha Hau. unfold a. clear a.
  unfold idt_init. change (Z.to_nat RORTHOX_TOTAL_INTERRUPTS) with 256%nat.
  destruct (Z.eqb_spec v RORTHOX_SYSCALL_VECTOR) as [->|Hne].
  - unfold idt_set at 1. rewrite list_lookup_insert_eq by (rewrite Hl; lia). done.
  - unfold idt_set at 1. rewrite list_lookup_insert_ne by (unfold RORTHOX_SYSCALL_VECTOR in *; lia). fold idt. rewrite Hlook.
    unfold idt_set. rewrite list_lookup_insert_eq by (unfold idt; rewrite length_replicate; lia). clear Hlook Hl idt. do 2 f_equal.
    unfold RORTHOX_SYSCALL_VECTOR in *. case_Zb; case_decide as D; rewrite !elem_of_cons, elem_of_nil in D; try done; lia.
Qed.

Lemma idt_init_gates_witness :
  exists d, idt_init (map (fun i => 0x100000 + 16 * Z.of_nat i) (seq 0 256)) 0x101234 !! 14%nat = Some d /\
    gate_target d = 0x1000e0 /\ gate_dpl d = 0.
Proof.
  destruct (idt_init_gates (map (fun i => 0x100000 + 16 * Z.of_nat i) (seq 0 256)) 0x101234 14) as (d & Hd & _ & _ & _ & Ht & Hp).
  - reflexivity.
  - apply Forall_map, Forall_seq. intros. cbn. lia.
  - lia.
  - lia.
  - exists d. exact (conj Hd (conj Ht Hp)).
Defined.
