(* ===== verification/Tty.v ===== *)
(** * The text terminal (kernel/arch/i686/tty.c, sys.c, include/kernel/vga.h)

    The screen is the list of its 16-bit cells, row by row; port writes are a log. The reference is an endless tape of
    cells of which the screen shows 25 rows: printing writes the tape, and scrolling moves the window. The last part is
    the panic screen of sys.c. *)

From stdpp Require Import base numbers list.
From Stdlib Require Import ZArith Lia.
From S2P Require Import Prelude Effects StrLib.

#[local] Set Default Goal Selector "!".

Definition VGA_WIDTH : Z := 80.
Definition VGA_HEIGHT : Z := 25.
Definition VGA_COLOR_BLACK : Z := 0.
Definition VGA_COLOR_RED : Z := 4.
Definition VGA_COLOR_WHITE : Z := 15.

Definition vga_entry_color (fg bg : Z) : Z := u8 (Z.lor fg (Z.shiftl bg 4)).
Definition vga_entry (uc color : Z) : Z := u16 (Z.lor uc (Z.shiftl color 8)).

(** The statics of tty.c, the cells of the text page, and the port writes so far, the latest first. *)
Record tty := Tty {
  terminal_count : Z;
  cursor_pos : Z;
  video_mem : list Z;
  terminal_row : Z;
  terminal_col : Z;
  terminal_color : Z;
  termianl_background_color : Z;
  tty_ports : list (Z * Z)
}.

Definition with_video (v : list Z) (t : tty) : tty :=
  Tty (terminal_count t) (cursor_pos t) v (terminal_row t) (terminal_col t) (terminal_color t)
    (termianl_background_color t) (tty_ports t).
Definition with_row (r : Z) (t : tty) : tty :=
  Tty (terminal_count t) (cursor_pos t) (video_mem t) (u16 r) (terminal_col t) (terminal_color t)
    (termianl_background_color t) (tty_ports t).
Definition with_col (c : Z) (t : tty) : tty :=
  Tty (terminal_count t) (cursor_pos t) (video_mem t) (terminal_row t) (u16 c) (terminal_color t)
    (termianl_background_color t) (tty_ports t).
Definition with_colors (c bg : Z) (t : tty) : tty :=
  Tty (terminal_count t) (cursor_pos t) (video_mem t) (terminal_row t) (terminal_col t) (u8 c) (u8 bg) (tty_ports t).
Definition with_counters (n pos : Z) (t : tty) : tty :=
  Tty n pos (video_mem t) (terminal_row t) (terminal_col t) (terminal_color t) (termianl_background_color t) (tty_ports t).
Definition tty_outb (port v : Z) (t : tty) : tty :=
  Tty (terminal_count t) (cursor_pos t) (video_mem t) (terminal_row t) (terminal_col t) (terminal_color t)
    (termianl_background_color t) ((port, v) :: tty_ports t).

(** [video_mem[index] = cell] *)
Definition set_cell (index cell : Z) (t : tty) : tty := with_video (<[Z.to_nat index := cell]> (video_mem t)) t.

(** ** The cursor and the cells *)

Definition update_cursor (x y : Z) (t : tty) : tty :=
  let pos := u8 y * VGA_WIDTH + u8 x in
  let t := tty_outb 0x3D4 0x0F t in
  let t := tty_outb 0x3D5 (u8 (Z.land pos 0xFF)) t in
  let t := tty_outb 0x3D4 0x0E t in
  tty_outb 0x3D5 (u8 (Z.land (Z.shiftr pos 8) 0xFF)) t.

Definition console_sync_cursor (t : tty) : tty :=
  let t := tty_outb 0x3D4 0x0F t in
  let t := tty_outb 0x3D5 (u8 (Z.land (cursor_pos t) 0xFF)) t in
  let t := tty_outb 0x3D4 0x0E t in
  tty_outb 0x3D5 (u8 (Z.land (Z.shiftr (cursor_pos t) 8) 0xFF)) t.

Definition terminal_putchar (x y c colour : Z) (t : tty) : tty :=
  if (x <? 0) || (VGA_WIDTH <=? x) || (y <? 0) || (VGA_HEIGHT <=? y) then t
  else
    let index := y * VGA_WIDTH + x in
    let t := set_cell index (vga_entry (u8 c) (vga_entry_color (i8 colour) (termianl_background_color t))) t in
    update_cursor x y t.

Definition terminal_backspace (t : tty) : tty :=
  if (terminal_row t =? 0) && (terminal_col t =? 0) then t
  else
    let t := if terminal_col t =? 0 then with_col (VGA_WIDTH - 1) (with_row (terminal_row t - 1) t)
             else with_col (terminal_col t - 1) t in
    let t := terminal_putchar (terminal_col t) (terminal_row t) 32 (terminal_color t) t in
    update_cursor (terminal_col t) (terminal_row t) t.

Definition terminal_move_cursor (delta : Z) (t : tty) : Z * tty :=
  let last_cell := VGA_WIDTH * VGA_HEIGHT - 1 in
  let position := terminal_row t * VGA_WIDTH + terminal_col t in
  if (delta <? - position) || (last_cell - position <? delta) then (- EINVARG, t)
  else
    let new_position := position + delta in
    let t := with_row (Z.quot new_position VGA_WIDTH) t in
    let t := with_col (Z.rem new_position VGA_WIDTH) t in
    (0, update_cursor (terminal_col t) (terminal_row t) t).

(** ** Scrolling *)

Fixpoint scroll_copy (n : nat) (i : Z) (t : tty) : tty :=
  match n with
  | O => t
  | S n => scroll_copy n (i + 1) (set_cell i (default 0 (video_mem t !! Z.to_nat (i + VGA_WIDTH))) t)
  end.

Fixpoint scroll_clear (n : nat) (i : Z) (t : tty) : tty :=
  match n with
  | O => t
  | S n => scroll_clear n (i + 1) (set_cell i (vga_entry 32 (terminal_color t)) t)
  end.

Definition terminal_scroll (t : tty) : tty :=
  let t := scroll_copy (Z.to_nat ((VGA_HEIGHT - 1) * VGA_WIDTH)) 0 t in
  let t := scroll_clear (Z.to_nat VGA_WIDTH) ((VGA_HEIGHT - 1) * VGA_WIDTH) t in
  with_row (VGA_HEIGHT - 1) t.

Definition checkIndent (t : tty) : tty :=
  let t := if VGA_WIDTH <=? terminal_col t then with_row (terminal_row t + 1) (with_col 0 t) else t in
  if VGA_HEIGHT <=? terminal_row t then terminal_scroll t else t.

(** ** Printing *)

Definition terminal_writechar (c colour : Z) (t : tty) : tty :=
  if c =? 10 then
    let t := with_col 0 (with_row (terminal_row t + 1) t) in
    let t := checkIndent t in
    update_cursor (terminal_col t) (terminal_row t) t
  else if c =? 0x08 then terminal_backspace t
  else
    let t := terminal_putchar (terminal_col t) (terminal_row t) c colour t in
    let t := with_col (terminal_col t + 1) t in
    let t := checkIndent t in
    update_cursor (terminal_col t) (terminal_row t) t.

(** The [len] characters from the pointer on. *)
Fixpoint writechars (len : nat) (str : list Z) (colour : Z) (t : tty) : tty :=
  match len with
  | O => t
  | S len => let '(c, str) := next_char str in writechars len str colour (terminal_writechar c colour t)
  end.

Definition print (str : list Z) (t : tty) : tty := writechars (Z.to_nat (strlen str)) str 15 t.
Definition printc (str : list Z) (color : Z) (t : tty) : tty := writechars (Z.to_nat (strlen str)) str (i8 color) t.

Definition print_bool (b : Z) (t : tty) : tty :=
  if negb (b =? 0) then print [84; 114; 117; 101] t else print [70; 97; 108; 115; 101] t.

(** The low [n] digits of [x] in base 2^[bits], the first digit first. *)
Fixpoint digits_buf (n : nat) (bits : Z) (digit : Z -> Z) (x : Z) (buf : list Z) : list Z :=
  match n with
  | O => buf
  | S n => digits_buf n bits digit (Z.shiftr x bits) (digit (Z.land x (Z.ones bits)) :: buf)
  end.

Definition print_bin (x : Z) (t : tty) : tty :=
  let t := print [48; 98] t in print (digits_buf 32 1 (fun d => d + 48) x [0]) t.

(** The characters of the string literal of digits. *)
Definition hex_char (d : Z) : Z :=
  default 0 ([48; 49; 50; 51; 52; 53; 54; 55; 56; 57; 65; 66; 67; 68; 69; 70] !! Z.to_nat d).

Definition print_hex (x : Z) (t : tty) : tty :=
  let t := print [48; 120] t in print (digits_buf 8 4 hex_char x [0]) t.

(** A character that [vprintf] puts itself. *)
Definition vprintf_putc (c : Z) (t : tty) : tty :=
  let t := terminal_putchar (terminal_col t) (terminal_row t) c 15 t in
  checkIndent (with_col (terminal_col t + 1) t).

(** One conversion: the number of characters to count and the arguments left. A missing argument, one of another type or
    a null string is undefined. *)
Definition vprintf_conv (conv : Z) (args : list va_arg) (t : tty) : option (Z * list va_arg * tty) :=
  if conv =? 105 then
    match args with VaInt z :: args => Some (strlen (itoa z), args, print (itoa z) t) | _ => None end
  else if conv =? 115 then
    match args with VaStr (Some s) :: args => Some (strlen s, args, print s t) | _ => None end
  else if conv =? 98 then
    match args with VaInt z :: args => Some (if negb (z =? 0) then 4 else 5, args, print_bool z t) | _ => None end
  else if conv =? 120 then
    match args with VaInt z :: args => Some (10, args, print_hex (u32 z) t) | _ => None end
  else if conv =? 66 then
    match args with VaInt z :: args => Some (32, args, print_bin (u32 z) t) | _ => None end
  else Some (1, args, vprintf_putc conv t).

Definition vprintf_plain (c count : Z) (t : tty) : Z * tty :=
  if c =? 10 then (count, checkIndent (with_col 0 (with_row (terminal_row t + 1) t)))
  else (count + 1, vprintf_putc c t).

Fixpoint vprintf_loop (format : list Z) (args : list va_arg) (count : Z) (t : tty) : option (Z * tty) :=
  match format with
  | [] => Some (count, t)
  | c :: p =>
    if c =? 0 then Some (count, t)
    else if negb (c =? 37) then let '(count, t) := vprintf_plain c count t in vprintf_loop p args count t
    else
      match p with
      | [] => Some (vprintf_plain c count t)
      | conv :: p =>
        if conv =? 0 then Some (vprintf_plain c count t)
        else '(n, args, t) ← vprintf_conv conv args t; vprintf_loop p args (count + n) t
      end
  end.

Definition vprintf (format : list Z) (args : list va_arg) (t : tty) : option (Z * tty) := vprintf_loop format args 0 t.
Definition printf (format : list Z) (args : list va_arg) (t : tty) : option (Z * tty) := vprintf format args t.

(** ** Initialisation *)

(** The bytes of the string literal, its terminator included. *)
Definition copyright : list Z :=
  [67; 111; 112; 121; 114; 105; 103; 104; 116; 32; 40; 67; 41; 32; 82; 32; 67; 32; 78; 44; 32; 71; 80; 76; 45; 50; 46; 48; 0].

Definition init_cell (x y : Z) (t : tty) : tty :=
  let index := y * VGA_WIDTH + x in
  let t := set_cell index (vga_entry 0x00 (terminal_color t)) t in
  if (x <? Z.of_nat (length copyright)) && (y =? 0) then
    let t := set_cell index (vga_entry (default 0 (copyright !! Z.to_nat x)) (terminal_color t)) t in
    with_col (terminal_col t + 1) t
  else if (x <=? Z.of_nat (length copyright)) && (y =? 0) then
    let t := with_col 0 t in
    let t := with_row (terminal_row t + 1) t in
    with_counters (terminal_count t) (cursor_pos t + 1) t
  else t.

Fixpoint init_row (n : nat) (x y : Z) (t : tty) : tty :=
  match n with
  | O => t
  | S n => init_row n (x + 1) y (init_cell x y t)
  end.

Fixpoint init_rows (n : nat) (y : Z) (t : tty) : tty :=
  match n with
  | O => t
  | S n => init_rows n (y + 1) (init_row (Z.to_nat VGA_WIDTH) 0 y t)
  end.

Definition terminal_initialize (bg_colour : Z) (t : tty) : tty :=
  let t := with_row 0 t in
  let t := with_col 0 t in
  let t := with_colors (vga_entry_color 15 (u8 bg_colour)) bg_colour t in
  let t := init_rows (Z.to_nat VGA_HEIGHT) 0 t in
  with_counters (terminal_count t + 1) (cursor_pos t) t.

Definition terminal_panic (bg_colour : Z) (t : tty) : tty := terminal_initialize bg_colour t.

(** ** Debug output *)

Definition dbg_putc (c : Z) (t : tty) : tty := tty_outb 0xE9 c t.

Fixpoint dbg_puts (str : list Z) (t : tty) : tty :=
  match str with
  | [] => t
  | c :: str => if negb (c =? 0) then dbg_puts str (dbg_putc c t) else t
  end.

(** ** The reference: a window on an endless tape *)

(** The cell of a character, and a blank one. *)
Definition cell (bg c colour : Z) : Z := vga_entry (u8 c) (vga_entry_color (i8 colour) bg).
Definition blank (bg : Z) : Z := vga_entry 32 (vga_entry_color 15 bg).

(** The tape, the row of it at the top of the screen, and where the next character goes. *)
Record screen := Screen { tape : Z -> Z; top : Z; at_cell : Z }.

(** The window follows the cursor down. *)
Definition follow (tp : Z -> Z) (top at_cell : Z) : screen :=
  Screen tp (Z.max top (at_cell / VGA_WIDTH - (VGA_HEIGHT - 1))) at_cell.

Definition screen_char (bg c colour : Z) (s : screen) : screen :=
  if c =? 10 then follow (tape s) (top s) (VGA_WIDTH * (at_cell s / VGA_WIDTH + 1))
  else if c =? 8 then
    if at_cell s =? VGA_WIDTH * top s then s
    else Screen (fun a => if a =? at_cell s - 1 then blank bg else tape s a) (top s) (at_cell s - 1)
  else follow (fun a => if a =? at_cell s then cell bg c colour else tape s a) (top s) (at_cell s + 1).

(** What the CRT controller makes of the port writes: a write to [0x3D4] selects a register, one to [0x3D5] stores to it;
    registers 0x0E and 0x0F are the high and the low byte of the cursor. *)
Fixpoint crtc (log : list (Z * Z)) : Z * Z * Z :=
  match log with
  | [] => (0, 0, 0)
  | (port, v) :: log =>
    let '(sel, hi, lo) := crtc log in
    if port =? 0x3D4 then (v, hi, lo)
    else if port =? 0x3D5 then (sel, if sel =? 0x0E then v else hi, if sel =? 0x0F then v else lo)
    else (sel, hi, lo)
  end.
Definition hw_cursor (t : tty) : Z := let '(_, hi, lo) := crtc (tty_ports t) in 256 * hi + lo.

(** What every operation keeps. *)
Record tty_wf (t : tty) : Prop := TtyWf {
  wf_cells : length (video_mem t) = 2000%nat;
  wf_words : Forall (fun c => 0 <= c < 2 ^ 16) (video_mem t);
  wf_row : 0 <= terminal_row t < VGA_HEIGHT;
  wf_col : 0 <= terminal_col t < VGA_WIDTH;
  wf_background : 0 <= termianl_background_color t < 16;
  wf_color : terminal_color t = vga_entry_color 15 (termianl_background_color t)
}.

Definition position (t : tty) : Z := terminal_row t * VGA_WIDTH + terminal_col t.

(** The screen shows the window. *)
Record shows (t : tty) (s : screen) : Prop := Shows {
  sh_wf : tty_wf t;
  sh_at : at_cell s = VGA_WIDTH * top s + position t;
  sh_cells : forall i, 0 <= i < 2000 -> video_mem t !! Z.to_nat i = Some (tape s (VGA_WIDTH * top s + i));
  sh_blank : forall a, VGA_WIDTH * (top s + VGA_HEIGHT) <= a -> tape s a = blank (termianl_background_color t)
}.

(** ** Lemmas *)

Lemma cell_word bg c colour : 0 <= cell bg c colour < 2 ^ 16.
Proof. apply u16_range. Qed.

Lemma scroll_copy_spec n : forall i t, 0 <= i -> i + Z.of_nat n + VGA_WIDTH <= Z.of_nat (length (video_mem t)) ->
  exists v, scroll_copy n i t = with_video v t /\ length v = length (video_mem t) /\
    forall j, 0 <= j -> v !! Z.to_nat j =
      video_mem t !! Z.to_nat (if (i <=? j) && (j <? i + Z.of_nat n) then j + VGA_WIDTH else j).
Proof.
  unfold VGA_WIDTH. induction n as [|n IH]; intros i t Hi Hn; cbn [scroll_copy].
  { exists (video_mem t). split; [by destruct t|]. split; [done|]. intros j Hj. do 2 f_equal. case_Zb; cbn; lia. }
  destruct (IH (i + 1) (set_cell i (default 0 (video_mem t !! Z.to_nat (i + VGA_WIDTH))) t)) as (v & -> & Hl & Hv).
  { lia. } { cbn. rewrite length_insert. lia. }
  cbn in Hl. rewrite length_insert in Hl. exists v. split; [done|]. split; [done|]. intros j Hj.
  rewrite Hv by done. clear Hv. cbn [set_cell with_video video_mem].
  destruct (Z.eq_dec j i) as [->|Hne].
  - case_Zb; cbn [andb]; try lia. rewrite list_lookup_insert_eq by lia.
    destruct (lookup_lt_is_Some_2 (video_mem t) (Z.to_nat (i + 80))) as [x Hx]; [lia|]. unfold VGA_WIDTH. by rewrite Hx.
  - rewrite list_lookup_insert_ne by (case_Zb; cbn [andb]; lia). do 2 f_equal. case_Zb; cbn [andb]; lia.
Qed.

Lemma scroll_clear_spec n : forall i t, 0 <= i -> i + Z.of_nat n <= Z.of_nat (length (video_mem t)) ->
  exists v, scroll_clear n i t = with_video v t /\ length v = length (video_mem t) /\
    forall j, 0 <= j -> v !! Z.to_nat j =
      if (i <=? j) && (j <? i + Z.of_nat n) then Some (vga_entry 32 (terminal_color t)) else video_mem t !! Z.to_nat j.
Proof.
  induction n as [|n IH]; intros i t Hi Hn; cbn [scroll_clear].
  { exists (video_mem t). split; [by destruct t|]. split; [done|]. intros j Hj. case_Zb; cbn; try lia; done. }
  destruct (IH (i + 1) (set_cell i (vga_entry 32 (terminal_color t)) t)) as (v & -> & Hl & Hv).
  { lia. } { cbn. rewrite length_insert. lia. }
  cbn in Hl. rewrite length_insert in Hl. exists v. split; [done|]. split; [done|]. intros j Hj.
  rewrite Hv by done. clear Hv. cbn [set_cell with_video video_mem terminal_color].
  destruct (Z.eq_dec j i) as [->|Hne].
  - case_Zb; cbn [andb]; try lia. by rewrite list_lookup_insert_eq by lia.
  - case_Zb; cbn [andb]; try lia; rewrite ?list_lookup_insert_ne by lia; done.
Qed.

(** Scrolling drops the top row and adds a blank one. *)
Lemma terminal_scroll_spec t : length (video_mem t) = 2000%nat ->
  exists v, terminal_scroll t = with_row (VGA_HEIGHT - 1) (with_video v t) /\ length v = 2000%nat /\
    forall j, 0 <= j < 2000 -> v !! Z.to_nat j =
      if j <? 1920 then video_mem t !! Z.to_nat (j + VGA_WIDTH) else Some (vga_entry 32 (terminal_color t)).
Proof.
  intros Hl. unfold terminal_scroll.
  destruct (scroll_copy_spec (Z.to_nat ((VGA_HEIGHT - 1) * VGA_WIDTH)) 0 t) as (v1 & -> & Hl1 & Hv1); [lia|rewrite Hl; unfold VGA_HEIGHT, VGA_WIDTH; lia|].
  destruct (scroll_clear_spec (Z.to_nat VGA_WIDTH) ((VGA_HEIGHT - 1) * VGA_WIDTH) (with_video v1 t)) as (v2 & -> & Hl2 & Hv2).
  { done. } { cbn [video_mem with_video]. rewrite Hl1, Hl. unfold VGA_HEIGHT, VGA_WIDTH. lia. }
  cbn [video_mem with_video] in Hl2. exists v2. split; [done|]. split; [congruence|]. intros j Hj.
  rewrite Hv2 by lia. cbn [with_video video_mem terminal_color]. rewrite Hv1 by lia.
  rewrite !Z2Nat.id by done. change ((VGA_HEIGHT - 1) * VGA_WIDTH) with 1920. change (1920 + VGA_WIDTH) with 2000.
  change (0 + 1920) with 1920. case_Zb; cbn [andb]; try lia; done.
Qed.

(** The state between the write of a character and [checkIndent]: the cursor may be one past its row or its screen. *)
Record near (t : tty) (s : screen) : Prop := Near {
  nr_cells : length (video_mem t) = 2000%nat;
  nr_words : Forall (fun c => 0 <= c < 2 ^ 16) (video_mem t);
  nr_cursor : (0 <= terminal_row t < 25 /\ 0 <= terminal_col t <= 80) \/ (terminal_row t = 25 /\ terminal_col t = 0);
  nr_background : 0 <= termianl_background_color t < 16;
  nr_color : terminal_color t = vga_entry_color 15 (termianl_background_color t);
  nr_at : at_cell s = VGA_WIDTH * top s + position t;
  nr_shown : forall i, 0 <= i < 2000 -> video_mem t !! Z.to_nat i = Some (tape s (VGA_WIDTH * top s + i));
  nr_blank : forall a, VGA_WIDTH * (top s + VGA_HEIGHT) <= a -> tape s a = blank (termianl_background_color t)
}.

Lemma near_shows t s : near t s -> terminal_row t < 25 -> terminal_col t < 80 ->
  shows t (follow (tape s) (top s) (at_cell s)).
Proof.
  intros [N1 N2 N3 N4 N5 N6 N7 N8] Hr Hc. unfold follow, position, VGA_WIDTH, VGA_HEIGHT in *.
  assert (Htop : Z.max (top s) (at_cell s / 80 - (25 - 1)) = top s) by lia. rewrite Htop.
  split; [split; unfold VGA_WIDTH, VGA_HEIGHT; done || lia|exact N6|exact N7|exact N8].
Qed.

Lemma scroll_shows t s : near t s -> terminal_row t = 25 -> terminal_col t = 0 ->
  shows (terminal_scroll t) (follow (tape s) (top s) (at_cell s)).
Proof.
  intros [N1 N2 N3 N4 N5 N6 N7 N8] Hr Hc. destruct (terminal_scroll_spec t N1) as (v & -> & Hl & Hv).
  unfold follow, position, VGA_WIDTH, VGA_HEIGHT in *.
  assert (Htop : Z.max (top s) (at_cell s / 80 - (25 - 1)) = top s + 1) by lia. rewrite Htop.
  assert (Hshow : forall i, 0 <= i < 2000 -> v !! Z.to_nat i = Some (tape s (80 * (top s + 1) + i))).
  { intros i Hi. rewrite Hv by done. case_Zb; cbn [andb].
    - rewrite N7 by lia. do 2 f_equal. lia.
    - rewrite N5. fold (blank (termianl_background_color t)). rewrite N8 by lia. done. }
  split; cbn [with_row with_video video_mem terminal_row terminal_col tape top at_cell termianl_background_color].
  - split; cbn [with_row with_video video_mem terminal_row terminal_col terminal_color termianl_background_color]; try done.
    + apply Forall_lookup_2. intros i x Hx. assert (i < 2000)%nat by (apply lookup_lt_Some in Hx; lia).
      specialize (Hv (Z.of_nat i) ltac:(lia)). rewrite Nat2Z.id, Hx in Hv. revert Hv. case_Zb; intros Hv.
      * symmetry in Hv. exact (Forall_lookup_1 _ _ _ _ N2 Hv).
      * injection Hv as ->. apply u16_range.
    + rewrite Hc. unfold VGA_WIDTH. lia.
  - unfold position. cbn [with_row with_video terminal_row terminal_col]. rewrite N6, Hr, Hc. change (u16 (25 - 1)) with 24. unfold VGA_WIDTH. lia.
  - exact Hshow.
  - intros a Ha. apply N8. unfold VGA_WIDTH, VGA_HEIGHT in *. lia.
Qed.

Lemma checkIndent_shows t s : near t s ->
  shows (checkIndent t) (follow (tape s) (top s) (at_cell s)) /\
  termianl_background_color (checkIndent t) = termianl_background_color t.
Proof.
  intros N. unfold checkIndent.
  assert (N' : near (if VGA_WIDTH <=? terminal_col t then with_row (terminal_row t + 1) (with_col 0 t) else t) s /\
    terminal_col (if VGA_WIDTH <=? terminal_col t then with_row (terminal_row t + 1) (with_col 0 t) else t) < 80 /\
    termianl_background_color (if VGA_WIDTH <=? terminal_col t then with_row (terminal_row t + 1) (with_col 0 t) else t)
      = termianl_background_color t).
  { destruct N as [N1 N2 N3 N4 N5 N6 N7 N8]. unfold VGA_WIDTH. case_Zb; [|split; [split; done|split; [lia|done]]].
    destruct N3 as [N3|N3]; [|lia]. cbn [with_row with_col terminal_row terminal_col].
    split; [|split; [by cbn|done]]. split; try done; cbn [with_row with_col terminal_row terminal_col].
    - rewrite (u16_small (_ + 1)) by lia. change (u16 0) with 0. lia.
    - unfold position in *. cbn [with_row with_col terminal_row terminal_col]. rewrite (u16_small (_ + 1)) by lia.
      change (u16 0) with 0. unfold VGA_WIDTH in *. lia. }
  set (t' := if VGA_WIDTH <=? terminal_col t then _ else t) in *. clearbody t'. destruct N' as (N' & Hc & Hbg).
  unfold VGA_HEIGHT. case_Zb.
  - pose proof (nr_cursor _ _ N'). split; [apply scroll_shows; [done|lia..]|].
    destruct (terminal_scroll_spec t' (nr_cells _ _ N')) as (v & -> & _). exact Hbg.
  - split; [apply near_shows; [done|lia..]|done].
Qed.

(** ** The cursor register *)

Lemma update_cursor_shows x y t s : shows t s -> shows (update_cursor x y t) s.
Proof. intros [[? ? ? ? ? ?] ? ? ?]. split; [split|..]; done. Qed.

Lemma update_cursor_crtc x y t : 0 <= x < 80 -> 0 <= y < 25 -> hw_cursor (update_cursor x y t) = y * VGA_WIDTH + x.
Proof.
  intros Hx Hy. unfold hw_cursor, update_cursor, VGA_WIDTH. cbn [tty_outb tty_ports crtc].
  rewrite (u8_small y), (u8_small x) by lia. destruct (crtc (tty_ports t)) as [[sel hi] lo]. cbn [Z.eqb Pos.eqb].
  change 0xFF with (Z.ones 8). rewrite !land_low_mask by lia. rewrite Z.shiftr_div_pow2 by lia. unfold u8. lia.
Qed.

Lemma update_cursor_hw t : tty_wf t ->
  hw_cursor (update_cursor (terminal_col t) (terminal_row t) t) = position t.
Proof. intros [_ _ Hr Hc _ _]. apply update_cursor_crtc; assumption. Qed.

(** ** Characters *)

Lemma putchar_inside x y c colour t : 0 <= x < 80 -> 0 <= y < 25 ->
  terminal_putchar x y c colour t =
    update_cursor x y (set_cell (y * VGA_WIDTH + x) (cell (termianl_background_color t) c colour) t).
Proof. intros. unfold terminal_putchar, VGA_WIDTH, VGA_HEIGHT. case_Zb; try lia. done. Qed.

(** One cell of the window replaced. *)
Lemma set_cell_shows p x t s : shows t s -> 0 <= p < 2000 -> 0 <= x < 2 ^ 16 ->
  shows (set_cell p x t) (Screen (fun a => if a =? VGA_WIDTH * top s + p then x else tape s a) (top s) (at_cell s)).
Proof.
  intros [[W1 W2 W3 W4 W5 W6] S2 S3 S4] Hp Hx. split; cbn [tape top at_cell set_cell with_video video_mem termianl_background_color].
  - split; cbn [set_cell with_video video_mem terminal_row terminal_col terminal_color termianl_background_color]; try done.
    + by rewrite length_insert.
    + by apply Forall_insert.
  - exact S2.
  - intros i Hi. destruct (Z.eq_dec i p) as [->|Hne].
    + rewrite list_lookup_insert_eq by lia. by rewrite Z.eqb_refl.
    + rewrite list_lookup_insert_ne by lia. rewrite S3 by done. case_Zb; [lia|done].
  - intros a Ha. pose proof (S4 a Ha). unfold VGA_WIDTH, VGA_HEIGHT in *. case_Zb; [lia|done].
Qed.

Lemma position_range t : tty_wf t -> 0 <= position t < 2000.
Proof. intros [_ _ Hr Hc _ _]. unfold position, VGA_WIDTH, VGA_HEIGHT in *. lia. Qed.

(** The character at the cursor, before [checkIndent]. *)
Lemma putchar_near c colour t s : shows t s ->
  let t' := terminal_putchar (terminal_col t) (terminal_row t) c colour t in
  near (with_col (terminal_col t' + 1) t')
    (Screen (fun a => if a =? at_cell s then cell (termianl_background_color t) c colour else tape s a) (top s) (at_cell s + 1)) /\
  termianl_background_color t' = termianl_background_color t.
Proof.
  intros S t'. pose proof (position_range t (sh_wf _ _ S)) as Hp. pose proof (sh_at _ _ S) as Hat.
  destruct (sh_wf _ _ S) as [_ _ Hr Hc _ _]. unfold VGA_HEIGHT, VGA_WIDTH in Hr, Hc.
  unfold t'. rewrite putchar_inside by lia. split; [|done].
  destruct (set_cell_shows (position t) (cell (termianl_background_color t) c colour) t s S Hp (cell_word _ _ _))
    as [[W1 W2 W3 W4 W5 W6] S2 S3 S4].
  split; try done; cbn [with_col update_cursor tty_outb terminal_col terminal_row set_cell with_video].
  - rewrite u16_small by lia. lia.
  - unfold position. cbn [at_cell top with_col update_cursor tty_outb terminal_col terminal_row set_cell with_video].
    rewrite u16_small by lia. unfold position in Hat. lia.
  - intros i Hi. rewrite Hat. exact (S3 i Hi).
  - intros a Ha. cbn [tape]. rewrite Hat. exact (S4 a Ha).
Qed.

Lemma newline_near t s : shows t s ->
  near (with_col 0 (with_row (terminal_row t + 1) t)) (Screen (tape s) (top s) (VGA_WIDTH * (at_cell s / VGA_WIDTH + 1))).
Proof.
  intros [[W1 W2 W3 W4 W5 W6] S2 S3 S4]. unfold VGA_HEIGHT, VGA_WIDTH in W3, W4.
  split; try done; cbn [with_col with_row terminal_row terminal_col].
  - rewrite u16_small by lia. change (u16 0) with 0. lia.
  - unfold position in *. cbn [with_col with_row terminal_row terminal_col at_cell top]. rewrite u16_small by lia.
    change (u16 0) with 0. unfold VGA_WIDTH in *. lia.
Qed.

Lemma blank_cell bg : 0 <= bg < 16 -> cell bg 32 (vga_entry_color 15 bg) = blank bg.
Proof.
  intros H. assert (Hc : bg = 0 \/ bg = 1 \/ bg = 2 \/ bg = 3 \/ bg = 4 \/ bg = 5 \/ bg = 6 \/ bg = 7 \/ bg = 8 \/ bg = 9 \/
    bg = 10 \/ bg = 11 \/ bg = 12 \/ bg = 13 \/ bg = 14 \/ bg = 15) by lia.
  repeat destruct Hc as [->|Hc]; try subst; reflexivity.
Qed.

Lemma with_cursor_shows r c t s : shows t s -> 0 <= r < 25 -> 0 <= c < 80 ->
  shows (with_col c (with_row r t)) (Screen (tape s) (top s) (VGA_WIDTH * top s + (r * VGA_WIDTH + c))).
Proof.
  intros [[W1 W2 W3 W4 W5 W6] S2 S3 S4] Hr Hc.
  split; [split|..]; try done; unfold position; cbn [with_col with_row terminal_row terminal_col at_cell top];
    rewrite ?(u16_small r), ?(u16_small c) by lia; done.
Qed.

(** The window on this background, and the cursor register in step. *)
Definition shows_on (bg : Z) (t : tty) (s : screen) : Prop := shows t s /\ termianl_background_color t = bg.
Definition synced (t : tty) : Prop := hw_cursor t = position t.

(** Where the cursor is after a backspace. *)
Definition back_row (t : tty) : Z := if terminal_col t =? 0 then terminal_row t - 1 else terminal_row t.
Definition back_col (t : tty) : Z := if terminal_col t =? 0 then 79 else terminal_col t - 1.

Lemma back_range t : tty_wf t -> position t <> 0 ->
  (0 <= back_row t < 25 /\ 0 <= back_col t < 80) /\ back_row t * VGA_WIDTH + back_col t = position t - 1.
Proof. intros [_ _ Hr Hc _ _] Hp. unfold back_row, back_col, position, VGA_HEIGHT, VGA_WIDTH in *. case_Zb; lia. Qed.

Lemma backspace_step t : tty_wf t -> position t <> 0 ->
  let t1 := set_cell (position t - 1) (blank (termianl_background_color t)) (with_col (back_col t) (with_row (back_row t) t)) in
  terminal_backspace t = update_cursor (back_col t) (back_row t) (update_cursor (back_col t) (back_row t) t1).
Proof.
  intros W Hp. destruct (back_range t W Hp) as [[Hr' Hc'] Hpos]. destruct W as [_ _ Hr Hc Hbg Hcol]. cbv zeta. unfold terminal_backspace.
  assert (Hnz : (terminal_row t =? 0) && (terminal_col t =? 0) = false).
  { unfold position in Hp. case_Zb; try done. exfalso. apply Hp. nia. }
  rewrite Hnz.
  assert (Et : (if terminal_col t =? 0 then with_col (VGA_WIDTH - 1) (with_row (terminal_row t - 1) t) else with_col (terminal_col t - 1) t)
    = with_col (back_col t) (with_row (back_row t) t)).
  { unfold back_row, back_col, VGA_HEIGHT, VGA_WIDTH in *. destruct (terminal_col t =? 0); [done|]. unfold with_col, with_row. cbn.
    rewrite (u16_small (terminal_row t)) by lia. by destruct t. }
  rewrite Et. cbn [with_col with_row terminal_row terminal_col terminal_color]. rewrite !u16_small by lia. rewrite putchar_inside by lia.
  change (terminal_color (with_col _ (with_row _ t))) with (terminal_color t).
  change (termianl_background_color (with_col _ (with_row _ t))) with (termianl_background_color t).
  rewrite Hcol, blank_cell by done. rewrite Hpos. cbn [update_cursor tty_outb set_cell with_video with_col with_row terminal_col terminal_row].
  rewrite !u16_small by lia. reflexivity.
Qed.

Lemma backspace_shows bg t s : shows_on bg t s ->
  shows_on bg (terminal_backspace t) (screen_char bg 8 15 s) /\ (synced t -> synced (terminal_backspace t)).
Proof.
  intros [S Hbg]. unfold screen_char. cbn [Z.eqb Pos.eqb]. pose proof (sh_at _ _ S) as Hat. pose proof (sh_wf _ _ S) as W.
  destruct (Z.eqb_spec (at_cell s) (VGA_WIDTH * top s)) as [Hz|Hz].
  { destruct W as [_ _ Hr Hc _ _]. unfold terminal_backspace, position, VGA_HEIGHT, VGA_WIDTH in *.
    rewrite (proj2 (Z.eqb_eq (terminal_row t) 0)), (proj2 (Z.eqb_eq (terminal_col t) 0)) by lia. done. }
  destruct (back_range t W) as [[Hr Hc] Hpos]; [lia|]. rewrite backspace_step by (done || lia).
  pose proof (with_cursor_shows (back_row t) (back_col t) t s S Hr Hc) as S'.
  apply (set_cell_shows (position t - 1) (blank (termianl_background_color t))) in S'; [|pose proof (position_range t W); lia|apply u16_range].
  cbn [tape top at_cell] in S'. rewrite Hpos in S'. replace (VGA_WIDTH * top s + (position t - 1)) with (at_cell s - 1) in S' by lia.
  rewrite Hbg in *. split; [split; [by do 2 apply update_cursor_shows|exact Hbg]|]. intros _. unfold synced.
  rewrite update_cursor_crtc by lia. unfold position.
  cbn [update_cursor tty_outb set_cell with_video with_col with_row terminal_col terminal_row]. by rewrite !u16_small by lia.
Qed.

Lemma checkIndent_at bg t s : near t s -> termianl_background_color t = bg ->
  let t' := checkIndent t in
  let t'' := update_cursor (terminal_col t') (terminal_row t') t' in
  shows_on bg t'' (follow (tape s) (top s) (at_cell s)) /\ synced t''.
Proof.
  intros N Hbg t' t''. destruct (checkIndent_shows t s N) as [S E]. fold t' in S, E.
  split; [split; [by apply update_cursor_shows|cbn; congruence]|]. exact (update_cursor_hw t' (sh_wf _ _ S)).
Qed.

Lemma writechar_shows bg c colour t s : shows_on bg t s ->
  shows_on bg (terminal_writechar c colour t) (screen_char bg c colour s) /\
  (synced t \/ c <> 8 -> synced (terminal_writechar c colour t)).
Proof.
  intros [S Hbg]. unfold terminal_writechar, screen_char.
  destruct (Z.eqb_spec c 10) as [->|H10]; [destruct (checkIndent_at bg _ _ (newline_near t s S) Hbg); done|].
  destruct (Z.eqb_spec c 8) as [->|H8]; [destruct (backspace_shows bg t s (conj S Hbg)) as [? Hs]; split; [done|intros [?|?]; auto; done]|].
  destruct (putchar_near c colour t s S) as [N E]. rewrite Hbg in N. apply (checkIndent_at bg) in N; [destruct N; done|]. cbn. congruence.
Qed.

(** The reference for a string. *)
Definition screen_string (bg colour : Z) (l : list Z) (s : screen) : screen := foldl (fun s c => screen_char bg c colour s) s l.

Lemma writechars_shows bg colour str : forall t s, shows_on bg t s ->
  let t' := writechars (Z.to_nat (strlen str)) str colour t in
  shows_on bg t' (screen_string bg colour (cstring str) s) /\ (synced t -> synced t').
Proof.
  induction str as [|c str IH]; intros t s Hs; [done|]. rewrite cstring_cons. cbn [strlen].
  destruct (c =? 0); cbn [negb]; [done|]. pose proof (strlen_nonneg str).
  replace (Z.to_nat (1 + strlen str)) with (S (Z.to_nat (strlen str))) by lia. cbn [writechars next_char].
  destruct (writechar_shows bg c colour t s Hs) as [Hs' Hc]. destruct (IH _ _ Hs') as [Hi Hi']. split; [exact Hi|auto].
Qed.

(** ** Text *)

(** Characters that take a cell. *)
Definition text (l : list Z) : Prop := Forall (fun c => c <> 10 /\ c <> 8) l.

(** The tape with the cells of [l] from [a] on. *)
Definition tape_write (bg colour : Z) (a : Z) (l : list Z) (tp : Z -> Z) (x : Z) : Z :=
  match l !! Z.to_nat (x - a) with
  | Some c => if a <=? x then cell bg c colour else tp x
  | None => tp x
  end.

Lemma screen_text bg colour l : text l -> forall s, top s <= at_cell s / VGA_WIDTH <= top s + (VGA_HEIGHT - 1) ->
  let s' := screen_string bg colour l s in
  at_cell s' = at_cell s + Z.of_nat (length l) /\
  top s' = Z.max (top s) (at_cell s' / VGA_WIDTH - (VGA_HEIGHT - 1)) /\
  forall x, tape s' x = tape_write bg colour (at_cell s) l (tape s) x.
Proof.
  unfold VGA_WIDTH, VGA_HEIGHT. induction 1 as [|c l [H10 H8] Hl IH]; intros s Hs.
  { cbn. split; [lia|]. split; [lia|]. done. }
  change (screen_string bg colour (c :: l) s) with (screen_string bg colour l (screen_char bg c colour s)).
  set (s1 := screen_char bg c colour s).
  assert (E : s1 = follow (fun a => if a =? at_cell s then cell bg c colour else tape s a) (top s) (at_cell s + 1)).
  { unfold s1, screen_char. by rewrite (proj2 (Z.eqb_neq c 10)), (proj2 (Z.eqb_neq c 8)) by done. }
  assert (Eat : at_cell s1 = at_cell s + 1) by by rewrite E.
  assert (Etop : top s1 = Z.max (top s) ((at_cell s + 1) / 80 - 24)) by by rewrite E.
  assert (Etape : forall x, tape s1 x = if x =? at_cell s then cell bg c colour else tape s x) by by rewrite E.
  clearbody s1. destruct (IH s1) as (I1 & I2 & I3); [lia|]. cbn zeta. rewrite I1, Eat in *.
  split; [cbn [length]; lia|]. split; [rewrite I2; cbn [length]; lia|].
  intros x. rewrite I3. unfold tape_write. rewrite Etape.
  destruct (Z.eqb_spec x (at_cell s)) as [->|Hne].
  - rewrite Z.sub_diag. cbn [Z.to_nat lookup list_lookup]. rewrite (proj2 (Z.leb_gt _ _)) by lia. rewrite Z.leb_refl. by destruct (_ !! _).
  - destruct (Z.leb_spec (at_cell s) x).
    + replace (Z.to_nat (x - at_cell s)) with (S (Z.to_nat (x - (at_cell s + 1)))) by lia.
      change ((c :: l) !! S ?n) with (l !! n). destruct (l !! _); [|done]. case_Zb; [done|lia].
    + destruct (l !! _), ((c :: l) !! _); case_Zb; try lia; done.
Qed.

(** ** The screen after initialisation *)

Definition init_char (k : Z) : Z := default 0 (copyright !! Z.to_nat k).

(** The first [k] cells are done. *)
Record inited (t0 : tty) (k : Z) (t : tty) : Prop := Inited {
  in_video : length (video_mem t) = 2000%nat /\
    forall j, 0 <= j < k -> video_mem t !! Z.to_nat j = Some (vga_entry (init_char j) (terminal_color t0));
  in_cursor : (terminal_row t, terminal_col t) = if k <=? 29 then (0, k) else (1, 0);
  in_colors : terminal_color t = terminal_color t0 /\ termianl_background_color t = termianl_background_color t0;
  in_ports : tty_ports t = tty_ports t0
}.

Lemma inited_cell t0 x y t : 0 <= x < 80 -> 0 <= y < 25 -> inited t0 (y * 80 + x) t ->
  inited t0 (y * 80 + x + 1) (init_cell x y t).
Proof.
  intros Hx Hy [[I1 I2] I3 [I4 I4'] I5]. unfold init_cell. change (Z.of_nat (length copyright)) with 29. change VGA_WIDTH with 80.
  set (k := y * 80 + x) in *.
  assert (Hv : exists v, length v = 2000%nat /\
    (forall j, 0 <= j < k + 1 -> v !! Z.to_nat j = Some (vga_entry (init_char j) (terminal_color t0))) /\
    v = (if (x <? 29) && (y =? 0) then <[Z.to_nat k := vga_entry (init_char x) (terminal_color t)]>
           (<[Z.to_nat k := vga_entry 0 (terminal_color t)]> (video_mem t))
         else <[Z.to_nat k := vga_entry 0 (terminal_color t)]> (video_mem t))).
  { eexists. split; [|split; [|reflexivity]]; [by destruct (_ && _); rewrite ?length_insert|].
    intros j Hj. destruct (Z.eq_dec j k) as [->|Hne].
    - destruct ((x <? 29) && (y =? 0)) eqn:E.
      + apply andb_prop in E as [_ E%Z.eqb_eq]. replace k with x by (unfold k; lia).
        rewrite list_lookup_insert_eq by (rewrite length_insert; lia). by rewrite I4.
      + rewrite list_lookup_insert_eq by lia. rewrite I4. unfold init_char. rewrite lookup_ge_None_2; [done|].
        change (length copyright) with 29%nat. apply andb_false_iff in E as [E%Z.ltb_ge|E%Z.eqb_neq]; unfold k; lia.
    - destruct (_ && _); rewrite !list_lookup_insert_ne by lia; apply I2; lia. }
  destruct Hv as (v & V1 & V2 & V3). destruct ((x <? 29) && (y =? 0)) eqn:E1; [|destruct ((x <=? 29) && (y =? 0)) eqn:E2].
  - apply andb_prop in E1 as [E1%Z.ltb_lt E1'%Z.eqb_eq]. rewrite (proj2 (Z.leb_le _ _)) in I3 by lia. injection I3 as Er Ec.
    split; try done.
    + split; [by rewrite V3 in V1|]. intros j Hj. rewrite <- (V2 j Hj), V3. done.
    + cbn. rewrite Er, Ec, (proj2 (Z.leb_le _ _)), u16_small by lia. done.
  - apply andb_prop in E2 as [E2%Z.leb_le E2'%Z.eqb_eq]. assert (x = 29) by (revert E1; case_Zb; cbn [andb]; intros; try done; lia).
    rewrite (proj2 (Z.leb_le _ _)) in I3 by lia. injection I3 as Er Ec. split; try done.
    + split; [by rewrite V3 in V1|]. intros j Hj. rewrite <- (V2 j Hj), V3. done.
    + cbn. rewrite Er, (proj2 (Z.leb_gt _ _)) by lia. done.
  - assert (Hk : 29 < k) by (revert E1 E2; unfold k; case_Zb; cbn [andb]; intros; try done; lia).
    rewrite (proj2 (Z.leb_gt _ _)) in I3 by lia. split; try done.
    + split; [by rewrite V3 in V1|]. intros j Hj. rewrite <- (V2 j Hj), V3. done.
    + rewrite (proj2 (Z.leb_gt _ _)) by lia. exact I3.
Qed.

Lemma inited_row t0 n : forall x y t, 0 <= x -> x + Z.of_nat n <= 80 -> 0 <= y < 25 -> inited t0 (y * 80 + x) t ->
  inited t0 (y * 80 + (x + Z.of_nat n)) (init_row n x y t).
Proof.
  induction n as [|n IH]; intros x y t Hx Hn Hy I; cbn [init_row].
  { by replace (x + Z.of_nat 0) with x by lia. }
  replace (x + Z.of_nat (S n)) with (x + 1 + Z.of_nat n) by lia. apply IH; try lia.
  replace (y * 80 + (x + 1)) with (y * 80 + x + 1) by lia. by apply inited_cell; [lia..|].
Qed.

Lemma inited_rows t0 n : forall y t, 0 <= y -> y + Z.of_nat n <= 25 -> inited t0 (y * 80) t ->
  inited t0 ((y + Z.of_nat n) * 80) (init_rows n y t).
Proof.
  induction n as [|n IH]; intros y t Hy Hn I; cbn [init_rows].
  { by replace (y + Z.of_nat 0) with y by lia. }
  replace (y + Z.of_nat (S n)) with (y + 1 + Z.of_nat n) by lia. apply IH; try lia.
  replace ((y + 1) * 80) with (y * 80 + (0 + Z.of_nat (Z.to_nat VGA_WIDTH))) by (change VGA_WIDTH with 80; lia).
  apply inited_row; change VGA_WIDTH with 80; try lia. by replace (y * 80 + 0) with (y * 80) by lia.
Qed.

Lemma inited_screen t : length (video_mem t) = 2000%nat -> terminal_row t = 0 -> terminal_col t = 0 ->
  inited t 2000 (init_rows (Z.to_nat VGA_HEIGHT) 0 t).
Proof.
  intros Hl Hr Hc. replace 2000 with ((0 + Z.of_nat (Z.to_nat VGA_HEIGHT)) * 80) by reflexivity.
  apply inited_rows; [lia|change VGA_HEIGHT with 25; lia|]. split; [split; [exact Hl|lia]|by rewrite Hr, Hc|done..].
Qed.

(** The cleared screen: the copyright in the first row, the cursor at the start of the second. *)
Definition fresh_screen (bg : Z) : screen :=
  Screen (fun a => if a <? 2000 then vga_entry (init_char a) (vga_entry_color 15 bg) else blank bg) 0 80.

Lemma initialize_shows bg t : 0 <= bg < 16 -> length (video_mem t) = 2000%nat ->
  shows (terminal_initialize bg t) (fresh_screen bg) /\ termianl_background_color (terminal_initialize bg t) = bg /\
  tty_ports (terminal_initialize bg t) = tty_ports t.
Proof.
  intros Hbg Hl. unfold terminal_initialize. rewrite (u8_small bg) by lia.
  set (t0 := with_colors _ _ _).
  assert (C0 : terminal_color t0 = vga_entry_color 15 bg).
  { unfold t0. cbn. unfold vga_entry_color. apply u8_small, u8_range. }
  assert (C1 : termianl_background_color t0 = bg) by (unfold t0; cbn; apply u8_small; lia).
  assert (P0 : tty_ports t0 = tty_ports t) by reflexivity.
  pose proof (inited_screen t0 Hl eq_refl eq_refl) as I. clearbody t0.
  generalize dependent (init_rows (Z.to_nat VGA_HEIGHT) 0 t0). intros t1 [[I1 I2] I3 [I4 I5] I6].
  change (2000 <=? 29) with false in I3. injection I3 as Er Ec. split; [|split; [cbn; congruence|cbn; congruence]].
  split.
  - split; cbn; rewrite ?Er, ?Ec, ?I4, ?I5, ?C0, ?C1; try done.
    apply Forall_lookup_2. intros i c Hc. assert (i < 2000)%nat by (apply lookup_lt_Some in Hc; lia).
    specialize (I2 (Z.of_nat i) ltac:(lia)). rewrite Nat2Z.id, Hc in I2. injection I2 as ->. apply u16_range.
  - unfold position. cbn. by rewrite Er, Ec.
  - intros i Hi. cbn. rewrite (I2 i Hi), C0. rewrite (proj2 (Z.ltb_lt _ _)) by lia. done.
  - intros a Ha. unfold VGA_WIDTH, VGA_HEIGHT in Ha. cbn [top fresh_screen] in Ha. cbn [tape fresh_screen with_counters termianl_background_color].
    rewrite I5, C1. rewrite (proj2 (Z.ltb_ge _ _)) by lia. reflexivity.
Qed.

(** ** [vprintf] *)

(** The terminal on its background, whatever it shows. *)
Definition on (bg : Z) (t : tty) : Prop := tty_wf t /\ termianl_background_color t = bg.

(** Every terminal shows a window. *)
Definition window (t : tty) : screen :=
  Screen (fun a => default (blank (termianl_background_color t)) (video_mem t !! Z.to_nat a)) 0 (position t).

Lemma window_shows t : tty_wf t -> shows t (window t).
Proof.
  intros W. pose proof (wf_cells _ W) as Hl. split; cbn [window tape top at_cell]; [done|lia|intros i Hi|intros a Ha].
  - destruct (lookup_lt_is_Some_2 (video_mem t) (Z.to_nat i)) as [x Hx]; [lia|]. rewrite Z.mul_0_r, Z.add_0_l, Hx. done.
  - unfold VGA_WIDTH, VGA_HEIGHT in Ha. rewrite lookup_ge_None_2 by lia. done.
Qed.

Lemma shows_wf bg t s : shows_on bg t s -> on bg t.
Proof. intros [S Hbg]. split; [exact (sh_wf _ _ S)|done]. Qed.

Lemma on_shows bg t : on bg t -> exists s, shows_on bg t s.
Proof. intros [W Hbg]. exists (window t). split; [by apply window_shows|done]. Qed.

Lemma writechar_on bg c colour t : on bg t -> on bg (terminal_writechar c colour t).
Proof. intros [s Hs]%on_shows. exact (shows_wf _ _ _ (proj1 (writechar_shows bg c colour t s Hs))). Qed.

Lemma writechars_on bg colour str t : on bg t -> on bg (writechars (Z.to_nat (strlen str)) str colour t).
Proof. intros [s Hs]%on_shows. exact (shows_wf _ _ _ (proj1 (writechars_shows bg colour str t s Hs))). Qed.

Lemma checkIndent_on bg t s : near t s -> termianl_background_color t = bg -> on bg (checkIndent t).
Proof. intros N Hbg. destruct (checkIndent_shows t s N) as [S E]. split; [exact (sh_wf _ _ S)|congruence]. Qed.

Lemma vprintf_putc_on bg c t : on bg t -> on bg (vprintf_putc c t).
Proof.
  intros [s [S Hbg]]%on_shows. destruct (putchar_near c 15 t s S) as [N E].
  eapply checkIndent_on; [exact N|]. cbn. congruence.
Qed.

Lemma vprintf_plain_on bg c count t : on bg t -> on bg (snd (vprintf_plain c count t)).
Proof.
  intros H. unfold vprintf_plain. destruct (c =? 10); cbn [snd]; [|by apply vprintf_putc_on].
  apply on_shows in H as [s [S Hbg]]. eapply checkIndent_on; [exact (newline_near t s S)|done].
Qed.

Lemma print_on bg str t : on bg t -> on bg (print str t).
Proof. apply writechars_on. Qed.

Lemma print_bool_on bg b t : on bg t -> on bg (print_bool b t).
Proof. intros H. unfold print_bool. destruct (negb _); by apply print_on. Qed.

Lemma print_hex_on bg x t : on bg t -> on bg (print_hex x t).
Proof. intros H. by apply print_on, print_on. Qed.

Lemma print_bin_on bg x t : on bg t -> on bg (print_bin x t).
Proof. intros H. by apply print_on, print_on. Qed.

#[local] Hint Resolve print_on print_bool_on print_hex_on print_bin_on vprintf_putc_on : core.

Lemma vprintf_conv_on bg conv args t n args' t' : on bg t -> vprintf_conv conv args t = Some (n, args', t') -> on bg t'.
Proof.
  intros H. unfold vprintf_conv.
  repeat match goal with |- (if ?b then _ else _) = _ -> _ => destruct b end;
    try (destruct args as [|[z|[s|]] args]; try discriminate); intros E; injection E as _ _ <-; auto.
Qed.

Lemma vprintf_loop_on bg n : forall format args count t count' t', (length format <= n)%nat -> on bg t ->
  vprintf_loop format args count t = Some (count', t') -> on bg t'.
Proof.
  induction n as [|n IH]; intros [|c p] args count t count' t' Hn H; try (cbn in Hn; lia); cbn [vprintf_loop];
    [by intros [= <- <-]..|].
  cbn [length] in Hn. destruct (c =? 0); [by intros [= <- <-]|]. pose proof (vprintf_plain_on bg c count t H) as Hp.
  destruct (negb (c =? 37)).
  { destruct (vprintf_plain c count t) as [cnt t1]. cbn [snd] in Hp. apply IH; [lia|done]. }
  destruct p as [|conv p]; [by intros [= E]; rewrite E in Hp|].
  destruct (conv =? 0); [by intros [= E]; rewrite E in Hp|].
  destruct (vprintf_conv conv args t) as [[[k args'] t1]|] eqn:E; [|done]. cbn [mbind option_bind].
  apply IH; [cbn [length] in Hn; lia|exact (vprintf_conv_on bg conv args t _ _ _ H E)].
Qed.

Lemma move_cursor_on bg delta t : on bg t -> on bg (snd (terminal_move_cursor delta t)).
Proof.
  intros [W Hbg]. pose proof (position_range t W) as Hp. fold (position t). unfold terminal_move_cursor. fold (position t).
  destruct (_ || _) eqn:E; [done|]. cbn [snd]. apply orb_false_iff in E as [E1%Z.ltb_ge E2%Z.ltb_ge].
  change (VGA_WIDTH * VGA_HEIGHT - 1) with 1999 in E2. rewrite Z.quot_div_nonneg, Z.rem_mod_nonneg by (unfold VGA_WIDTH; lia).
  unfold VGA_WIDTH. split; [|done]. destruct W as [W1 W2 W3 W4 W5 W6]. split; try done; cbn; unfold VGA_HEIGHT, VGA_WIDTH, u16; lia.
Qed.

Lemma putchar_on bg x y c colour t : on bg t -> on bg (terminal_putchar x y c colour t).
Proof.
  intros [W Hbg]. unfold terminal_putchar. destruct (_ || _) eqn:E; [done|]. split; [|done].
  destruct W as [W1 W2 W3 W4 W5 W6]. split; cbn; try done; [by rewrite length_insert|apply Forall_insert; [done|apply u16_range]].
Qed.

(** ** Properties *)

(** The entry points of the terminal. *)
Inductive tty_op :=
| OpPutchar (x y c colour : Z) | OpWritechar (c colour : Z) | OpBackspace | OpMoveCursor (delta : Z)
| OpPrint (str : list Z) | OpPrintc (str : list Z) (color : Z) | OpPrintf (format : list Z) (args : list va_arg)
| OpInitialize (bg_colour : Z).

Definition tty_run (op : tty_op) (t : tty) : option tty :=
  match op with
  | OpPutchar x y c colour => Some (terminal_putchar x y c colour t)
  | OpWritechar c colour => Some (terminal_writechar c colour t)
  | OpBackspace => Some (terminal_backspace t)
  | OpMoveCursor delta => Some (snd (terminal_move_cursor delta t))
  | OpPrint str => Some (print str t)
  | OpPrintc str color => Some (printc str color t)
  | OpPrintf format args => snd <$> printf format args t
  | OpInitialize bg => Some (terminal_initialize bg t)
  end.

Definition op_ok (op : tty_op) : Prop := match op with OpInitialize bg => 0 <= bg < 16 | _ => True end.

(** The terminal keeps its types whatever it is asked to do: after any sequence of its entry points, with arbitrary
    coordinates, characters, colours, cursor moves, strings and format strings, the screen is 25 rows of 80 words, the
    cursor is on it and the blank attribute is white on the background; so no operation stores outside the text page. *)
Theorem tty_ops_wf ops t t' : tty_wf t -> Forall op_ok ops ->
  foldl (fun o op => t ← o; tty_run op t) (Some t) ops = Some t' -> tty_wf t'.
Proof.
  intros W Hok. revert t W. induction Hok as [|op ops Hop _ IH]; intros t W; cbn [foldl]; [by intros [= <-]|].
  assert (H : on (termianl_background_color t) t) by done.
  assert (Hnone : forall ops, foldl (fun o op => t ← o; tty_run op t) (None : option tty) ops = None) by (clear; induction ops; done).
  cbn [mbind option_bind]. destruct (tty_run op t) as [t1|] eqn:E; [|by rewrite Hnone]. apply IH. clear IH Hnone.
  destruct op; cbn [tty_run] in E; try injection E as <-.
  - exact (proj1 (putchar_on _ x y c colour t H)).
  - exact (proj1 (writechar_on _ c colour t H)).
  - exact (proj1 (writechar_on _ 8 15 t H)).
  - exact (proj1 (move_cursor_on _ delta t H)).
  - exact (proj1 (writechars_on _ 15 str t H)).
  - exact (proj1 (writechars_on _ (i8 color) str t H)).
  - destruct (printf format args t) as [[n t2]|] eqn:Ep; [|done]. injection E as <-.
    exact (proj1 (vprintf_loop_on _ (length format) format args 0 t n t2 (le_n _) H Ep)).
  - exact (sh_wf _ _ (proj1 (initialize_shows bg_colour t Hop (wf_cells _ W)))).
Qed.

(** The terminal before [kernel_main] clears it, on a blank page. *)
Definition boot_tty : tty := Tty 0 0 (replicate 2000 0) 0 0 (vga_entry_color 15 VGA_COLOR_BLACK) VGA_COLOR_BLACK [].

Lemma boot_tty_wf : tty_wf boot_tty.
Proof.
  split; cbn [boot_tty video_mem terminal_row terminal_col terminal_color termianl_background_color]; try done.
  apply Forall_replicate. lia.
Qed.

Lemma tty_ops_wf_witness :
  exists t', foldl (fun o op => t ← o; tty_run op t) (Some boot_tty)
    [OpInitialize 0; OpPrint [72; 105; 10]; OpMoveCursor (-3); OpPrintf [37; 120] [VaInt 255]; OpPutchar 200 (-7) 65 3; OpBackspace]
    = Some t' /\ tty_wf t'.
Proof.
  eexists. split; [reflexivity|].
  refine (tty_ops_wf [OpInitialize 0; OpPrint [72; 105; 10]; OpMoveCursor (-3); OpPrintf [37; 120] [VaInt 255];
    OpPutchar 200 (-7) 65 3; OpBackspace] boot_tty _ boot_tty_wf _ eq_refl).
  repeat constructor; cbn; lia.
Defined.

(** C31: Printing refines the tape: [print] and [printc] of any string, and [terminal_writechar] of any character, newline
    and backspace included, do to the screen what the reference does to an endless tape with a 25-row window: a screen that
    shows the window before shows it after, scrolled as far as the cursor went, and the cursor register of the video
    controller stays at the cursor. *)
Theorem print_refines_tape bg str color t s : shows_on bg t s -> synced t ->
  (shows_on bg (print str t) (screen_string bg 15 (cstring str) s) /\ synced (print str t)) /\
  (shows_on bg (printc str color t) (screen_string bg (i8 color) (cstring str) s) /\ synced (printc str color t)).
Proof.
  intros Hs Hc. split.
  - destruct (writechars_shows bg 15 str t s Hs) as [H1 H2]. split; [exact H1|exact (H2 Hc)].
  - destruct (writechars_shows bg (i8 color) str t s Hs) as [H1 H2]. split; [exact H1|exact (H2 Hc)].
Qed.

Lemma print_refines_tape_witness :
  exists s, shows_on 0 (print [72; 105; 10; 8; 33] boot_tty) s /\ at_cell s = 80 /\ synced (print [72; 105; 10; 8; 33] boot_tty).
Proof.
  destruct (print_refines_tape 0 [72; 105; 10; 8; 33] 7 boot_tty (window boot_tty) (conj (window_shows _ boot_tty_wf) eq_refl) eq_refl)
    as [[H1 H2] _].
  exists (screen_string 0 15 (cstring [72; 105; 10; 8; 33]) (window boot_tty)). exact (conj H1 (conj eq_refl H2)).
Defined.

(** Text is shown where the cursor was: [print] of a string without newline and backspace puts its characters in the
    cells from the cursor on, row after row, each with the colour white, moves the cursor behind them, scrolls by exactly
    the rows that are missing, and leaves every other cell of the screen as it was, moved up by the rows scrolled, the new
    rows being blank. *)
Theorem print_text_exact str t : tty_wf t -> text (cstring str) ->
  let n := strlen str in
  let bg := termianl_background_color t in
  let up := Z.max 0 ((position t + n) / VGA_WIDTH - (VGA_HEIGHT - 1)) in
  position (print str t) = position t + n - VGA_WIDTH * up /\
  forall i, 0 <= i < 2000 -> video_mem (print str t) !! Z.to_nat i =
    Some (match (guard (position t <= i + VGA_WIDTH * up);; cstring str !! Z.to_nat (i + VGA_WIDTH * up - position t)) with
          | Some c => cell bg c 15
          | None => default (blank bg) (video_mem t !! Z.to_nat (i + VGA_WIDTH * up))
          end).
Proof.
  intros W Ht n bg up. destruct (writechars_shows bg 15 str t (window t)) as [[S _] _]; [split; [by apply window_shows|done]|].
  pose proof (position_range t W) as Hp. pose proof (cstring_length str) as Hn. fold n in Hn.
  destruct (screen_text bg 15 (cstring str) Ht (window t)) as (T1 & T2 & T3).
  { cbn [window top at_cell]. unfold VGA_WIDTH, VGA_HEIGHT. lia. }
  change (writechars _ str 15 t) with (print str t) in S. set (s' := screen_string _ _ _ _) in *. clearbody s'.
  cbn [window top at_cell tape] in T1, T2. rewrite Hn in T1. rewrite T1 in T2. fold up in T2. destruct S as [_ S2 S3 _].
  split; [rewrite T1, T2 in S2; lia|]. intros i Hi. rewrite (S3 i Hi), T3. f_equal. unfold tape_write.
  cbn [window at_cell tape]. rewrite T2, (Z.add_comm _ i). fold bg. case_guard as G; cbn [mbind option_bind].
  - rewrite (proj2 (Z.leb_le _ _)) by lia. by destruct (cstring str !! _).
  - rewrite (proj2 (Z.leb_gt _ _)) by lia. by destruct (cstring str !! _).
Qed.

Lemma print_text_exact_witness :
  position (print [72; 105] boot_tty) = 2 /\ video_mem (print [72; 105] boot_tty) !! 1%nat = Some (cell 0 105 15).
Proof.
  destruct (print_text_exact [72; 105] boot_tty boot_tty_wf) as [H1 H2]; [repeat constructor; lia|].
  split; [exact H1|exact (H2 1 ltac:(lia))].
Defined.

(** [terminal_move_cursor] moves exactly within the page: for every [int], the least and the greatest included, the move
    is refused with [-EINVARG] and nothing changed exactly when its target is not one of the 2000 cells, and otherwise the
    cursor and its register are at the target, with no cell of the screen changed. *)
Theorem move_cursor_exact delta t : tty_wf t -> - 2 ^ 31 <= delta < 2 ^ 31 ->
  let '(r, t') := terminal_move_cursor delta t in
  if bool_decide (0 <= position t + delta < 2000)
  then r = 0 /\ position t' = position t + delta /\ synced t' /\ tty_wf t' /\ video_mem t' = video_mem t
  else r = - EINVARG /\ t' = t.
Proof.
  intros W Hd. pose proof (position_range t W) as Hp. destruct (move_cursor_on _ delta t (conj W eq_refl)) as [W' _]. revert W'.
  unfold terminal_move_cursor. fold (position t). change (VGA_WIDTH * VGA_HEIGHT - 1) with 1999.
  case_bool_decide as E.
  - assert (Hg : (delta <? - position t) || (1999 - position t <? delta) = false) by (apply orb_false_iff; rewrite !Z.ltb_ge; lia).
    rewrite Hg. cbn [snd]. intros W'. split; [done|].
    set (t1 := with_col _ _) in *. assert (W1 : tty_wf t1) by (destruct W'; by split).
    split; [|split; [exact (update_cursor_hw t1 W1)|split; [exact W'|done]]].
    change (position t1 = position t + delta). unfold position, t1. cbn [with_col with_row terminal_row terminal_col].
    rewrite Z.quot_div_nonneg, Z.rem_mod_nonneg by (unfold VGA_WIDTH; lia). fold (position t). unfold VGA_WIDTH, u16. lia.
  - assert (Hg : (delta <? - position t) || (1999 - position t <? delta) = true) by (apply orb_true_iff; rewrite !Z.ltb_lt; lia).
    rewrite Hg. done.
Qed.

Lemma move_cursor_exact_witness :
  terminal_move_cursor (- 2 ^ 31) boot_tty = (- EINVARG, boot_tty) /\ position (snd (terminal_move_cursor 1999 boot_tty)) = 1999.
Proof.
  pose proof (move_cursor_exact (- 2 ^ 31) boot_tty boot_tty_wf ltac:(lia)) as H1.
  pose proof (move_cursor_exact 1999 boot_tty boot_tty_wf ltac:(lia)) as H2.
  destruct (terminal_move_cursor (- 2 ^ 31) boot_tty) as [r1 t1]. destruct (terminal_move_cursor 1999 boot_tty) as [r2 t2].
  destruct H1 as [-> ->]. destruct H2 as (_ & H2 & _). split; [reflexivity|exact H2].
Defined.

(** A backspace takes back a character: when the cursor is on a blank cell that is not the last of the screen, writing
    any character that takes a cell and then a backspace gives the same screen, the same cursor and the same register. *)
Theorem backspace_undoes c colour t : tty_wf t -> c <> 8 -> c <> 10 -> position t < 1999 ->
  video_mem t !! Z.to_nat (position t) = Some (blank (termianl_background_color t)) ->
  let t' := terminal_writechar 8 15 (terminal_writechar c colour t) in
  position t' = position t /\ synced t' /\ video_mem t' = video_mem t.
Proof.
  intros W H8 H10 Hp Hb t'. set (bg := termianl_background_color t) in *. pose proof (position_range t W) as Hr.
  assert (S0 : shows_on bg t (window t)) by (split; [by apply window_shows|done]).
  destruct (writechar_shows bg c colour t _ S0) as [S1 C1]. destruct (writechar_shows bg 8 15 _ _ S1) as [S2 C2].
  fold t' in S2, C2. assert (E : exists tp, screen_char bg 8 15 (screen_char bg c colour (window t)) = Screen tp 0 (position t) /\
    forall a, tp a = if a =? position t then blank bg else tape (window t) a).
  { unfold screen_char at 2. rewrite (proj2 (Z.eqb_neq c 10)), (proj2 (Z.eqb_neq c 8)) by done.
    unfold follow. cbn [window at_cell top tape]. assert (Z.max 0 ((position t + 1) / VGA_WIDTH - (VGA_HEIGHT - 1)) = 0) as ->
      by (unfold VGA_WIDTH, VGA_HEIGHT; lia).
    unfold screen_char. cbn [Z.eqb Pos.eqb at_cell top tape]. rewrite (proj2 (Z.eqb_neq _ _)) by (unfold VGA_WIDTH; lia).
    replace (position t + 1 - 1) with (position t) by lia. eexists. split; [reflexivity|]. intros a. cbn beta. by destruct (a =? position t). }
  destruct E as (tp & E & Htp). rewrite E in S2. destruct S2 as [[W2 S2 S3 _] _]. cbn [tape top at_cell] in S2, S3.
  split; [lia|]. split; [auto|]. apply list_eq_same_length with 2000%nat; [exact (wf_cells _ W)|exact (wf_cells _ W2)|].
  intros i x y Hi Hx Hy. specialize (S3 (Z.of_nat i) ltac:(lia)). rewrite Nat2Z.id, Hx in S3. injection S3 as ->.
  rewrite Htp. destruct (Z.eqb_spec (VGA_WIDTH * 0 + Z.of_nat i) (position t)) as [Ei|Ei].
  - replace (Z.to_nat (position t)) with i in Hb by lia. congruence.
  - cbn [window tape]. replace (VGA_WIDTH * 0 + Z.of_nat i) with (Z.of_nat i) by lia. by rewrite Nat2Z.id, Hy.
Qed.

(** A blank page. *)
Definition blank_tty : tty := Tty 0 0 (replicate 2000 (blank 1)) 3 79 (vga_entry_color 15 1) 1 [].

Lemma backspace_undoes_witness :
  position (terminal_writechar 8 15 (terminal_writechar 65 15 blank_tty)) = 319 /\
  video_mem (terminal_writechar 8 15 (terminal_writechar 65 15 blank_tty)) = video_mem blank_tty.
Proof.
  destruct (backspace_undoes 65 15 blank_tty) as (H1 & _ & H2).
  - split; cbn [blank_tty video_mem terminal_row terminal_col terminal_color termianl_background_color]; try done.
    apply Forall_replicate, u16_range.
  - lia.
  - lia.
  - reflexivity.
  - apply lookup_replicate_2. change (Z.to_nat (position blank_tty)) with 319%nat. lia.
  - exact (conj H1 H2).
Defined.
