(* ===== verification/Panic.v ===== *)
(** * The stop screen (kernel/arch/i686/sys.c)

    [PANIC] clears the terminal and prints a fixed text, the message, and the place, cut to the screen. The theorem shows
    where each part is, for every message, file name and line. *)

From stdpp Require Import base numbers list strings.
From Stdlib Require Import ZArith Lia.
From S2P Require Import Prelude Effects StrLib Tty.

#[local] Set Default Goal Selector "!".

(** The bytes of a literal. *)
Fixpoint literal (s : string) : list Z :=
  match s with
  | EmptyString => []
  | String c s => Z.of_N (Ascii.N_of_ascii c) :: literal s
  end.

Definition whatToDo : list (list Z) :=
  [literal "A problem has been detected and RorthOX has been shut down to prevent damage to your computer." ++ [10];
   literal "If this is the first time you've seen this stop error screen, restart your computer. If this screen appears again, follow these steps: " ++ [10];
   literal "Check to make sure any new hardware or software is properly installed." ++ [10];
   literal "If this is a new install, check your software/hardware vendor for" ++ [10];
   literal "any drivers or OS updates you may need." ++ [10];
   literal "If problems continue, remove any newly installed hardware or software." ++ [10];
   literal "Disable BIOS memory options such as caching or shadowing." ++ [10];
   [10];
   literal "Finally, if all else fails, go to https://github.com/oriapp/RorthOX/issues" ++ [10];
   literal "and submit an issue with the information below." ++ [10];
   [10];
   literal "Reason: "].

(** The byte at index [i] of the string. *)
Definition char_at (str : list Z) (i : Z) : Z := default 0 (str !! Z.to_nat i).

(** [n] rounds at most. *)
Fixpoint debug_field_loop (n : nat) (i : Z) (str : list Z) (t : tty) : Z * tty :=
  match n with
  | O => (i, t)
  | S n => if negb (char_at str i =? 0) then debug_field_loop n (i + 1) str (dbg_putc (char_at str i) t) else (i, t)
  end.

Definition panic_debug_field (str : list Z) (t : tty) : tty :=
  let '(i, t) := debug_field_loop 1023 0 str t in
  if (i =? 1023) && negb (char_at str i =? 0) then dbg_puts (literal "...") t else t.

Fixpoint field_length (n : nat) (length : Z) (str : list Z) : Z :=
  match n with
  | O => length
  | S n => if negb (char_at str length =? 0) then field_length n (length + 1) str else length
  end.

Definition field_char (c : Z) : Z := if (c <? 32) || (c =? 127) then 32 else c.

Fixpoint field_write (n : nat) (i : Z) (str : list Z) (t : tty) : tty :=
  match n with
  | O => t
  | S n => field_write n (i + 1) str (terminal_writechar (field_char (char_at str i)) VGA_COLOR_WHITE t)
  end.

Definition panic_screen_field (str : list Z) (max : Z) (t : tty) : tty :=
  let length := field_length (Z.to_nat max) 0 str in
  let truncated := (length =? max) && negb (char_at str length =? 0) in
  let length := if truncated then length - 3 else length in
  let t := field_write (Z.to_nat length) 0 str t in
  if truncated then print (literal "...") t else t.

(** The lines from index [i] on. *)
Fixpoint panic_lines (lines : list (list Z)) (i : Z) (msg file num : list Z) (t : tty) : tty :=
  match lines with
  | [] => t
  | line :: lines =>
    let t := print line t in
    let t :=
      if i =? 11 then
        let t := panic_screen_field msg 71 t in
        let t := print (10 :: literal "at ") t in
        let t := panic_screen_field file 64 t in
        let t := print (literal ":") t in
        let t := print num t in
        print [10] t
      else t in
    panic_lines lines (i + 1) msg file num t
  end.

(** The terminal when the machine halts for good; [num] is what the stack holds where the buffer is. *)
Definition PANIC (num : list Z) (msg file : option (list Z)) (line : Z) (t : tty) : option tty :=
  let msg := default (literal "(no message)") msg in
  let file := default (literal "(no file)") file in
  '(_, num) ← snprintf (Some num) 12 (Some [37; 100]) [VaInt line];
  let t := dbg_puts ([27] ++ literal "[31m" ++ [10]) t in
  let t := dbg_puts ([27] ++ literal "[1m[PANIC]: ") t in
  let t := panic_debug_field msg t in
  let t := dbg_puts (literal " at ") t in
  let t := panic_debug_field file t in
  let t := dbg_puts (literal ":") t in
  let t := dbg_puts num t in
  let t := dbg_puts ([27] ++ literal "[0m" ++ [10]) t in
  let t := terminal_initialize VGA_COLOR_RED t in
  Some (panic_lines whatToDo 0 msg file num t).

(** ** Lemmas *)

(** What a field shows: the characters, control characters as blanks, cut with dots. *)
Definition panic_text (max : Z) (str : list Z) : list Z :=
  let s := cstring str in
  if Z.of_nat (length s) <=? max then map field_char s else map field_char (take (Z.to_nat (max - 3)) s) ++ literal "...".

(** The terminal after [f] is the reference after printing [l] in white. *)
Definition prints (l : list Z) (f : tty -> tty) : Prop :=
  forall bg t s, shows_on bg t s -> shows_on bg (f t) (screen_string bg 15 l s).

Lemma prints_print str : prints (cstring str) (print str).
Proof. intros bg t s H. apply (writechars_shows bg 15 str t s H). Qed.

Lemma prints_app l1 l2 f g : prints l1 f -> prints l2 g -> prints (l1 ++ l2) (fun t => g (f t)).
Proof. intros H1 H2 bg t s H. unfold screen_string. rewrite foldl_app. apply H2, H1, H. Qed.

Lemma prints_field_write str n : forall i, 0 <= i -> i + Z.of_nat n <= Z.of_nat (length str) ->
  prints (map field_char (take n (drop (Z.to_nat i) str))) (field_write n i str).
Proof.
  induction n as [|n IH]; intros i Hi Hn bg t s H; cbn [field_write]; [exact H|].
  destruct (lookup_lt_is_Some_2 str (Z.to_nat i)) as [c Hc]; [lia|]. rewrite (drop_S _ _ _ Hc). cbn [take map].
  unfold char_at. rewrite Hc. cbn [default from_option id]. replace (S (Z.to_nat i)) with (Z.to_nat (i + 1)) by lia.
  apply (IH (i + 1) ltac:(lia) ltac:(lia)). apply (writechar_shows bg (field_char c) 15 t s H).
Qed.

Lemma char_at_cstring str i : 0 <= i ->
  (char_at str i = 0 <-> Z.of_nat (length (cstring str)) <= i) \/ Z.of_nat (length (cstring str)) < i.
Proof.
  intros Hi. unfold char_at. rewrite <- (Z2Nat.id i) at 2 3 by done. generalize (Z.to_nat i) as k. clear i Hi.
  induction str as [|c str IH]; intros k.
  { left. rewrite lookup_nil. change (length (cstring [])) with 0%nat. split; [lia|done]. }
  rewrite cstring_cons. destruct (Z.eqb_spec c 0) as [->|Hc].
  - destruct k as [|k]; [left|right]; cbn [length]; [split; [lia|done]|lia].
  - destruct k as [|k]; [left; cbn [length]; split; [intros E; by cbn in E|lia]|]. cbn [length].
    change ((c :: str) !! S k) with (str !! k). destruct (IH k) as [E|E]; [left|right]; lia.
Qed.

Lemma field_length_spec str n : forall i, 0 <= i <= Z.of_nat (length (cstring str)) ->
  field_length n i str = Z.min (Z.of_nat (length (cstring str))) (i + Z.of_nat n).
Proof.
  induction n as [|n IH]; intros i Hi; cbn [field_length]; [lia|]. pose proof (char_at_cstring str i (proj1 Hi)) as Hc.
  destruct (Z.eqb_spec (char_at str i) 0) as [E|E]; cbn [negb]; [lia|]. rewrite IH by lia. lia.
Qed.

Lemma cstring_prefix str : exists rest, str = cstring str ++ rest.
Proof. exists (drop (Z.to_nat (strlen str)) str). symmetry. apply take_drop. Qed.

Lemma prints_field str max : 3 <= max -> prints (panic_text max str) (panic_screen_field str max).
Proof.
  intros Hmax. unfold panic_screen_field, panic_text. rewrite field_length_spec by lia. rewrite Z2Nat.id, Z.add_0_l by lia.
  destruct (cstring_prefix str) as [rest Hrest]. assert (Hle : (length (cstring str) <= length str)%nat) by (unfold cstring; rewrite length_take; lia).
  assert (Htake : forall n, (n <= length (cstring str))%nat -> take n str = take n (cstring str)).
  { intros n Hn. rewrite Hrest at 1. apply take_app_le, Hn. }
  pose proof (char_at_cstring str max ltac:(lia)) as Hc.
  destruct (Z.leb_spec (Z.of_nat (length (cstring str))) max) as [Hs|Hs].
  - rewrite Z.min_l by done. assert (E : (Z.of_nat (length (cstring str)) =? max) && negb (char_at str (Z.of_nat (length (cstring str))) =? 0) = false).
    { destruct (Z.eqb_spec (Z.of_nat (length (cstring str))) max) as [Em|]; [rewrite Em|done]. destruct (Z.eqb_spec (char_at str max) 0); [done|lia]. }
    rewrite E, Nat2Z.id. pose proof (prints_field_write str (length (cstring str)) 0 ltac:(lia) ltac:(lia)) as P.
    rewrite drop_0, Htake, firstn_all in P by lia. exact P.
  - rewrite Z.min_r by lia. assert (E : (max =? max) && negb (char_at str max =? 0) = true).
    { rewrite Z.eqb_refl. destruct (Z.eqb_spec (char_at str max) 0); [lia|done]. }
    rewrite E. pose proof (prints_field_write str (Z.to_nat (max - 3)) 0 ltac:(lia) ltac:(lia)) as P.
    rewrite drop_0, Htake in P by lia. exact (prints_app _ _ _ _ P (prints_print (literal "..."))).
Qed.

Lemma cstring_literal s : Forall (fun c => c <> 0) s -> cstring s = s.
Proof. induction 1 as [|c s Hc _ IH]; [done|]. rewrite cstring_cons, (proj2 (Z.eqb_neq c 0)) by done. by rewrite IH. Qed.

Lemma cstring_terminated s rest : Forall (fun c => c <> 0) s -> cstring (s ++ 0 :: rest) = s.
Proof. induction 1 as [|c s Hc _ IH]; [done|]. cbn [app]. rewrite cstring_cons, (proj2 (Z.eqb_neq c 0)) by done. by rewrite IH. Qed.

Lemma screen_string_app bg colour a b s : screen_string bg colour (a ++ b) s = screen_string bg colour b (screen_string bg colour a s).
Proof. apply foldl_app. Qed.

Lemma print_shows bg str t s : Forall (fun c => c <> 0) str -> shows_on bg t s -> shows_on bg (print str t) (screen_string bg 15 str s).
Proof. intros Hz Hs. destruct (writechars_shows bg 15 str t s Hs) as [Hp _]. by rewrite cstring_literal in Hp. Qed.

Lemma itoa_nonzero i : - 2 ^ 31 <= i < 2 ^ 31 -> Forall (fun c => c <> 0) (itoa i).
Proof. intros Hi. eapply Forall_impl; [by apply itoa_chars|]. cbn. lia. Qed.

(** The number in its buffer. *)
Lemma panic_number num line : length num = 12%nat -> - 2 ^ 31 <= line < 2 ^ 31 ->
  exists buf, snprintf (Some num) 12 (Some [37; 100]) [VaInt line] = Some (Z.of_nat (length (itoa line)), buf) /\ cstring buf = itoa line.
Proof.
  intros Hn Hl. pose proof (itoa_length line) as Hlen. exists (terminated 12 (itoa line) num). split.
  - apply vsnprintf_text; [rewrite Hn; lia| |unfold INT_MAX; lia]. change (render [37; 100] [VaInt line]) with (Some (render_int 100 0 line ++ [])).
    by rewrite <- itoa_render, app_nil_r.
  - unfold terminated. cbn [Z.eqb]. rewrite take_ge by (change (Z.to_nat (12 - 1)) with 11%nat; lia). apply cstring_terminated.
    eapply Forall_impl; [by apply itoa_chars|]. cbn. lia.
Qed.

(** Nothing of the debug output is on the screen. *)
Definition same_screen (t t' : tty) : Prop := video_mem t' = video_mem t.

Lemma dbg_puts_screen str : forall t, same_screen t (dbg_puts str t).
Proof.
  induction str as [|c str IH]; intros t; [done|]. cbn [dbg_puts]. destruct (negb _); [|done].
  unfold same_screen in *. by rewrite IH.
Qed.

Lemma debug_field_loop_screen str n : forall i t, same_screen t (snd (debug_field_loop n i str t)).
Proof.
  induction n as [|n IH]; intros i t; [done|]. cbn [debug_field_loop]. destruct (negb _); [|done]. unfold same_screen in *. by rewrite IH.
Qed.

Lemma debug_field_screen str t : same_screen t (panic_debug_field str t).
Proof.
  unfold panic_debug_field. pose proof (debug_field_loop_screen str 1023 0 t) as H. destruct (debug_field_loop _ _ _ _) as [i t1]. cbn [snd] in H.
  destruct (_ && _); [|done]. unfold same_screen in *. by rewrite dbg_puts_screen.
Qed.

(** All that is printed. *)
Definition panic_string (msg file num : list Z) : list Z :=
  concat (map cstring whatToDo) ++ panic_text 71 msg ++ (10 :: literal "at ") ++ panic_text 64 file ++ literal ":" ++ num ++ [10].

Lemma panic_lines_app l1 : forall l2 i msg file num t,
  panic_lines (l1 ++ l2) i msg file num t = panic_lines l2 (i + Z.of_nat (length l1)) msg file num (panic_lines l1 i msg file num t).
Proof.
  induction l1 as [|x l1 IH]; intros; cbn [app panic_lines length]; [by rewrite Z.add_0_r|]. rewrite IH. f_equal. lia.
Qed.

Lemma prints_first_lines msg file num lines : forall i, i + Z.of_nat (length lines) <= 11 ->
  prints (concat (map cstring lines)) (panic_lines lines i msg file num).
Proof.
  induction lines as [|x lines IH]; intros i Hi; cbn [map concat panic_lines]; [intros bg t s H; exact H|]. cbn [length] in Hi.
  rewrite (proj2 (Z.eqb_neq i 11)) by lia. exact (prints_app _ _ _ _ (prints_print x) (IH (i + 1) ltac:(lia))).
Qed.

Lemma prints_lines msg file num : prints (panic_string msg file (cstring num)) (panic_lines whatToDo 0 msg file num).
Proof.
  unfold panic_string. change whatToDo with (take 11 whatToDo ++ [literal "Reason: "]). rewrite map_app, concat_app, <- app_assoc.
  intros bg t s H. rewrite panic_lines_app.
  apply (prints_app _ _ _ (fun t => panic_lines [literal "Reason: "] (0 + Z.of_nat (length (take 11 whatToDo))) msg file num t)
    (prints_first_lines msg file num (take 11 whatToDo) 0 ltac:(reflexivity))); [|exact H].
  clear. change (0 + Z.of_nat (length (take 11 whatToDo))) with 11. cbn [panic_lines Z.eqb Pos.eqb map concat]. rewrite app_nil_r.
  pose proof (prints_app _ _ _ _ (prints_print num) (prints_print [10])) as P.
  pose proof (prints_app _ _ _ _ (prints_print (literal ":")) P) as P1.
  pose proof (prints_app _ _ _ _ (prints_field file 64 ltac:(lia)) P1) as P2.
  pose proof (prints_app _ _ _ _ (prints_print (10 :: literal "at ")) P2) as P3.
  pose proof (prints_app _ _ _ _ (prints_field msg 71 ltac:(lia)) P3) as P4.
  exact (prints_app _ _ _ _ (prints_print (literal "Reason: ")) P4).
Qed.

(** ** The layout *)

(** The screen with the fixed text, up to the reason. *)
Definition panic_head : screen :=
  screen_string VGA_COLOR_RED 15 (concat (map cstring (take 11 whatToDo))) (fresh_screen VGA_COLOR_RED).

Definition reason_line (msg : list Z) : list Z := literal "Reason: " ++ panic_text 71 msg.
Definition place_line (file : list Z) (line : Z) : list Z := literal "at " ++ panic_text 64 file ++ literal ":" ++ itoa line.

Lemma panic_head_at : at_cell panic_head = 1120 /\ top panic_head = 0.
Proof. vm_compute. done. Qed.

Lemma field_char_text c : field_char c <> 10 /\ field_char c <> 8.
Proof. unfold field_char. case_Zb; cbn [orb]; lia. Qed.

Lemma panic_text_text max str : text (panic_text max str).
Proof.
  unfold panic_text, text. assert (H : forall l, Forall (fun c => c <> 10 /\ c <> 8) (map field_char l)).
  { intros l. apply Forall_map, Forall_true. intros c. apply field_char_text. }
  destruct (_ <=? _); [apply H|]. apply Forall_app. split; [apply H|]. apply (bool_decide_unpack _); exact I.
Qed.

Lemma panic_text_length max str : 3 <= max -> Z.of_nat (length (panic_text max str)) <= max.
Proof.
  intros Hm. unfold panic_text. case_Zb; [by rewrite length_map|]. rewrite length_app, length_map, length_take. cbn [length literal]. lia.
Qed.

Lemma reason_line_ok msg : text (reason_line msg) /\ Z.of_nat (length (reason_line msg)) <= 79.
Proof.
  pose proof (panic_text_length 71 msg ltac:(lia)). split.
  - apply Forall_app. split; [apply (bool_decide_unpack _); exact I|apply panic_text_text].
  - unfold reason_line. rewrite length_app. cbn [length literal]. lia.
Qed.

Lemma place_line_ok file line : - 2 ^ 31 <= line < 2 ^ 31 -> text (place_line file line) /\ Z.of_nat (length (place_line file line)) <= 79.
Proof.
  intros Hl. pose proof (panic_text_length 64 file ltac:(lia)). pose proof (itoa_length line). split.
  - unfold text, place_line. rewrite !Forall_app. split; [apply (bool_decide_unpack _); exact I|]. split; [apply panic_text_text|].
    split; [apply (bool_decide_unpack _); exact I|]. eapply Forall_impl; [by apply itoa_chars|]. cbn. lia.
  - unfold place_line. rewrite !length_app. cbn [length literal]. lia.
Qed.

(** A line of text and a newline, in a row with another one below. *)
Lemma screen_line bg l s r : text l -> Z.of_nat (length l) <= 79 -> at_cell s = 80 * r -> top s = 0 -> 0 <= r < 24 ->
  let s' := screen_string bg 15 (l ++ [10]) s in
  at_cell s' = 80 * (r + 1) /\ top s' = 0 /\ forall x, tape s' x = tape_write bg 15 (80 * r) l (tape s) x.
Proof.
  intros Ht Hl Ha H0 Hr s'. destruct (screen_text bg 15 l Ht s) as (T1 & T2 & T3); [unfold VGA_WIDTH, VGA_HEIGHT; lia|].
  unfold s', screen_string in *. rewrite foldl_app. cbn [foldl]. unfold screen_char at 1 3 5. cbn [Z.eqb Pos.eqb].
  rewrite Ha in *. unfold follow, VGA_WIDTH, VGA_HEIGHT in *. cbn [at_cell top tape]. split; [lia|]. split; [lia|done].
Qed.

Lemma panic_screen msg file line : - 2 ^ 31 <= line < 2 ^ 31 ->
  let s := screen_string VGA_COLOR_RED 15 (panic_string msg file (itoa line)) (fresh_screen VGA_COLOR_RED) in
  at_cell s = 1280 /\ top s = 0 /\
  forall x, tape s x = tape_write VGA_COLOR_RED 15 1200 (place_line file line)
                         (tape_write VGA_COLOR_RED 15 1120 (reason_line msg) (tape panic_head)) x.
Proof.
  intros Hl s. destruct panic_head_at as [Ha H0]. destruct (reason_line_ok msg) as [R1 R2]. destruct (place_line_ok file line Hl) as [P1 P2].
  assert (E : s = screen_string VGA_COLOR_RED 15 (place_line file line ++ [10])
                    (screen_string VGA_COLOR_RED 15 (reason_line msg ++ [10]) panic_head)).
  { unfold s, panic_head, screen_string. rewrite <- !foldl_app. f_equal. unfold panic_string, reason_line, place_line.
    change whatToDo with (take 11 whatToDo ++ [literal "Reason: "]) at 1. rewrite map_app, concat_app.
    change (concat (map cstring [literal "Reason: "])) with (literal "Reason: "). rewrite <- !app_assoc. done. }
  rewrite E. clear E s. destruct (screen_line VGA_COLOR_RED (reason_line msg) panic_head 14 R1 R2 Ha H0 ltac:(lia)) as (A1 & A2 & A3).
  set (s1 := screen_string VGA_COLOR_RED 15 (reason_line msg ++ [10]) panic_head) in *. clearbody s1.
  destruct (screen_line VGA_COLOR_RED (place_line file line) s1 15 P1 P2 A1 A2 ltac:(lia)) as (B1 & B2 & B3).
  split; [done|]. split; [done|]. intros x. rewrite B3. unfold tape_write at 1 3. rewrite A3. done.
Qed.

Lemma tape_write_in bg colour a l tp i c : l !! i = Some c -> tape_write bg colour a l tp (a + Z.of_nat i) = cell bg c colour.
Proof. intros H. unfold tape_write. replace (Z.to_nat (a + Z.of_nat i - a)) with i by lia. rewrite H. by rewrite (proj2 (Z.leb_le _ _)) by lia. Qed.

Lemma tape_write_out bg colour a l tp x : x < a \/ a + Z.of_nat (length l) <= x -> tape_write bg colour a l tp x = tp x.
Proof.
  intros H. unfold tape_write. destruct (l !! Z.to_nat (x - a)) as [c|] eqn:E; [|done]. apply lookup_lt_Some in E.
  case_Zb; [lia|done].
Qed.

(** ** Properties *)

(** C32: The stop screen shows why and where: for every message and file name, null, of any length and with any control
    characters, every [int] line and whatever was on the screen and on the stack, [PANIC] reaches its halt; nothing has
    scrolled off: the first fourteen rows hold the fixed text, row 14 the reason and row 15 the place, each complete or cut
    with dots and with control characters as blanks; and the cursor is in row 16. *)
Theorem panic_screen_complete num msg file line t :
  length num = 12%nat -> length (video_mem t) = 2000%nat -> - 2 ^ 31 <= line < 2 ^ 31 ->
  let m := default (literal "(no message)") msg in
  let f := default (literal "(no file)") file in
  exists t', PANIC num msg file line t = Some t' /\ tty_wf t' /\ position t' = 16 * VGA_WIDTH /\
    (forall i, 0 <= i < 14 * VGA_WIDTH -> video_mem t' !! Z.to_nat i = Some (tape panic_head i)) /\
    (forall i c, reason_line m !! i = Some c ->
      video_mem t' !! Z.to_nat (14 * VGA_WIDTH + Z.of_nat i) = Some (cell VGA_COLOR_RED c VGA_COLOR_WHITE)) /\
    (forall i c, place_line f line !! i = Some c ->
      video_mem t' !! Z.to_nat (15 * VGA_WIDTH + Z.of_nat i) = Some (cell VGA_COLOR_RED c VGA_COLOR_WHITE)).
Proof.
  intros Hn Ht Hl m f. unfold PANIC. fold m f. destruct (panic_number num line Hn Hl) as (buf & -> & Hbuf). cbn [mbind option_bind].
  set (t1 := dbg_puts ([27] ++ literal "[0m" ++ [10]) _).
  assert (Ht1 : length (video_mem t1) = 2000%nat).
  { unfold t1. rewrite !dbg_puts_screen, debug_field_screen, !dbg_puts_screen, debug_field_screen, !dbg_puts_screen. exact Ht. }
  clearbody t1. destruct (initialize_shows VGA_COLOR_RED t1 ltac:(done) Ht1) as (S0 & B0 & _).
  pose proof (prints_lines m f buf VGA_COLOR_RED _ _ (conj S0 B0)) as [S _]. rewrite Hbuf in S.
  destruct (panic_screen m f line Hl) as (P1 & P2 & P3). set (s := screen_string _ _ _ _) in *. clearbody s.
  generalize dependent (panic_lines whatToDo 0 m f buf (terminal_initialize VGA_COLOR_RED t1)). intros t' S.
  exists t'. destruct S as [W S2 S3 _]. rewrite P2 in *. destruct (reason_line_ok m) as [_ R2]. destruct (place_line_ok f line Hl) as [_ L2].
  split; [done|]. split; [done|]. split; [unfold VGA_WIDTH in *; lia|]. unfold VGA_WIDTH in *. split; [|split].
  - intros i Hi. rewrite (S3 i) by lia. f_equal. rewrite P3, !tape_write_out by lia. reflexivity.
  - intros i c Hc. pose proof (lookup_lt_Some _ _ _ Hc). rewrite S3 by lia. f_equal. rewrite P3, tape_write_out by lia.
    replace (80 * 0 + (14 * 80 + Z.of_nat i)) with (1120 + Z.of_nat i) by lia. by apply tape_write_in.
  - intros i c Hc. pose proof (lookup_lt_Some _ _ _ Hc). rewrite S3 by lia. f_equal. rewrite P3.
    replace (80 * 0 + (15 * 80 + Z.of_nat i)) with (1200 + Z.of_nat i) by lia. by apply tape_write_in.
Qed.

Lemma panic_screen_complete_witness :
  exists t', PANIC (replicate 12 170) (Some (literal "Kernel exception")) None (-7) boot_tty = Some t' /\
    position t' = 1280 /\ video_mem t' !! Z.to_nat (15 * 80 + 14) = Some (cell 4 55 15).
Proof.
  destruct (panic_screen_complete (replicate 12 170) (Some (literal "Kernel exception")) None (-7) boot_tty)
    as (t' & H1 & _ & H2 & _ & _ & H3); [reflexivity|reflexivity|lia|].
  exists t'. split; [exact H1|]. split; [exact H2|exact (H3 14%nat 55 eq_refl)].
Defined.
