(* ===== verification/Rtc.v ===== *)
(** * The real time clock (kernel/time/rtc/rtc.h)

    [read_rtc] reads the time registers of the CMOS clock until two readings agree, and converts them; [printtime] shows
    the time at start. The clock is the class [CmosClock], after the data sheet: an update replaces the registers at any
    moment, while the registers read as anything, but not within the time promised by a clear update flag, and not again
    before a gap that is longer than two readings. The loops of the code have no bound of their own: [flags] and
    [rounds] bound them, and the theorems show that [longest_wait + 1] and [2] are enough. *)

From stdpp Require Import base numbers list strings relations.
From Stdlib Require Import ZArith Lia.
From S2P Require Import Prelude Alloc Memory Effects Disk StrLib Tty Panic.

#[local] Set Default Goal Selector "!".

Definition CURRENT_YEAR : Z := 2023.
Definition cmos_address : Z := 0x70.
Definition cmos_data : Z := 0x71.
Definition VGA_COLOR_LIGHT_GREEN : Z := 10.

Class CmosPorts (D : Type) : Type := {
  cmos_in : Z -> D -> Z * D;
  cmos_out : Z -> Z -> D -> D
}.

(** The variables of the header. *)
Record time := Time { second : Z; minute : Z; hour : Z; day : Z; month : Z; year : Z }.

#[export] Instance time_eq_dec : EqDecision time.
Proof. solve_decision. Defined.

Definition bcd (v : Z) : Z := Z.land v 0x0F + v / 16 * 10.

(** The conversion of what has been read; [century] is used with a century register only. *)
Definition convert_bcd (t : time) : time :=
  Time (u8 (bcd (second t))) (u8 (bcd (minute t)))
    (u8 (Z.lor (Z.land (hour t) 0x0F + Z.land (hour t) 0x70 / 16 * 10) (Z.land (hour t) 0x80)))
    (u8 (bcd (day t))) (u8 (bcd (month t))) (u32 (bcd (year t))).

Definition convert_hour (registerB hour : Z) : Z :=
  if (Z.land registerB 0x02 =? 0) && negb (Z.land hour 0x80 =? 0) then (Z.land hour 0x7F + 12) mod 24 else hour.

Definition full_year (century_register century year : Z) : Z :=
  if negb (century_register =? 0) then u32 (year + century * 100)
  else
    let year := u32 (year + CURRENT_YEAR / 100 * 100) in
    if year <? CURRENT_YEAR then u32 (year + 100) else year.

Definition convert (century_register registerB : Z) (read : time * Z) : time :=
  let '(t, century) := read in
  let '(t, century) :=
    if Z.land registerB 0x04 =? 0 then (convert_bcd t, if negb (century_register =? 0) then u8 (bcd century) else century)
    else (t, century) in
  Time (second t) (minute t) (convert_hour registerB (hour t)) (day t) (month t) (full_year century_register century (year t)).

Section driver.
Context {D : Type} `{CmosPorts D}.

Definition get_RTC_register (reg : Z) (d : D) : Z * D := cmos_in cmos_data (cmos_out cmos_address (u8 reg) d).

Definition get_update_in_progress_flag (d : D) : Z * D :=
  let '(v, d) := cmos_in cmos_data (cmos_out cmos_address 0x0A d) in (Z.land v 0x80, d).

(** [while (get_update_in_progress_flag());] *)
Fixpoint wait_update (flags : nat) (d : D) : option D :=
  match flags with
  | O => None
  | S flags => let '(flag, d) := get_update_in_progress_flag d in if flag =? 0 then Some d else wait_update flags d
  end.

(** The variables and the century after a reading; the century stays as it is without its register. *)
Definition read_registers (century_register century : Z) (d : D) : time * Z * D :=
  let '(s, d) := get_RTC_register 0x00 d in
  let '(m, d) := get_RTC_register 0x02 d in
  let '(h, d) := get_RTC_register 0x04 d in
  let '(dd, d) := get_RTC_register 0x07 d in
  let '(mm, d) := get_RTC_register 0x08 d in
  let '(y, d) := get_RTC_register 0x09 d in
  let '(c, d) := if negb (century_register =? 0) then get_RTC_register century_register d else (century, d) in
  (Time s m h dd mm y, c, d).

Definition rtc_reading (flags : nat) (century_register century : Z) (d : D) : option (time * Z * D) :=
  d ← wait_update flags d; Some (read_registers century_register century d).

(** The [do] loop: [last] is the reading before. *)
Fixpoint read_until_same (rounds flags : nat) (century_register : Z) (last : time * Z) (d : D) : option (time * Z * D) :=
  match rounds with
  | O => None
  | S rounds =>
    '(now, d) ← rtc_reading flags century_register (snd last) d;
    if bool_decide (now = last) then Some (now, d) else read_until_same rounds flags century_register now d
  end.

(** [century] is the value that the local variable happens to have. *)
Definition read_rtc (rounds flags : nat) (century_register century : Z) (d : D) : option (time * D) :=
  '(first, d) ← rtc_reading flags century_register century d;
  '(now, d) ← read_until_same rounds flags century_register first d;
  let '(registerB, d) := get_RTC_register 0x0B d in Some (convert century_register registerB now, d).

Definition printtime (rounds flags : nat) (century_register century : Z) (d : D) (t : tty) : option (time * D * tty) :=
  '(now, d) ← read_rtc rounds flags century_register century d;
  let t := printc (literal "System Time: ") VGA_COLOR_LIGHT_GREEN t in
  let t := print (itoa (hour now)) t in
  let t := print (literal ":") t in
  let t := print (itoa (minute now)) t in
  let t := print (literal ":") t in
  let t := print (itoa (second now)) t in
  Some (now, d, print [10] t).
End driver.

(** ** The clock *)

(** What is known about the state of a clock: its registers, the register that is selected, the number of accesses since
    the last update (or more), and a number of accesses for which no update will come. *)
Class CmosView (D : Type) : Type := {
  regs : D -> Z -> Z;
  selected : D -> Z;
  age : D -> nat;
  quiet : D -> nat;
  longest_wait : nat;
  update_gap : nat
}.

Arguments longest_wait D {_}.
Arguments update_gap D {_}.

(** The accesses of a wait, and of one reading. *)
Definition wait_time (D : Type) `{CmosView D} : nat := 2 * (longest_wait D + 1).
Definition reading_time (D : Type) `{CmosView D} : nat := wait_time D + 14.

(** The effect of an access: time goes on, or an update replaces the registers, but not the format in register B. An
    update comes only outside the quiet time. *)
Definition clock_moved `{CmosView D} (d d' : D) : Prop :=
  regs d' 0x0B = regs d 0x0B /\ (quiet d <= S (quiet d'))%nat /\
  ((forall r, regs d' r = regs d r) /\ (age d' <= S (age d))%nat \/ quiet d = 0%nat /\ (update_gap D <= age d)%nat /\ age d' = 0%nat).

(** The update flag is asked for once. *)
Definition poll `{CmosPorts D} (d : D) : Z * D := cmos_in cmos_data (cmos_out cmos_address 0x0A d).

(** What the data sheet of the clock (MC146818) says: a flag that is clear promises that no update comes soon, long enough
    for seven registers; the flag is not seen for ever; the registers of the time may read as anything outside the quiet
    time, the format register reads at any time; updates are a second apart. *)
Class CmosClock (D : Type) `{CmosPorts D, CmosView D} : Type := {
  gap_long : (2 * reading_time D < update_gap D)%nat;
  select_law r d : is_byte r -> let d' := cmos_out cmos_address r d in clock_moved d d' /\ selected d' = r;
  data_law d : let '(v, d') := cmos_in cmos_data d in
    clock_moved d d' /\ (selected d = 0x0B -> v = regs d 0x0B) /\
    (selected d <> 0x0A -> (0 < quiet d)%nat -> v = regs d (selected d)) /\
    (selected d = 0x0A -> Z.land v 0x80 = 0 -> (14 <= quiet d')%nat);
  wait_law d : exists n, (n <= longest_wait D)%nat /\ Z.land (fst (poll (Nat.iter n (fun d => snd (poll d)) d))) 0x80 = 0
}.

(** The registers that a reading takes. *)
Definition snapshot (century_register : Z) (f : Z -> Z) (century : Z) : time * Z :=
  (Time (f 0x00) (f 0x02) (f 0x04) (f 0x07) (f 0x08) (f 0x09), if negb (century_register =? 0) then f century_register else century).

Section clock.
Context `{CmosClock D}.

Definition clock_access (d d' : D) : Prop := (exists r, d' = cmos_out cmos_address r d) \/ d' = snd (cmos_in cmos_data d).

(** [k] accesses, without an update or with one. *)
Definition saw (k : nat) (d d' : D) : Prop :=
  rtc clock_access d d' /\ regs d' 0x0B = regs d 0x0B /\
  ((forall r, regs d' r = regs d r) /\ (age d' <= age d + k)%nat \/ (update_gap D <= age d + k)%nat /\ (age d' <= k)%nat).

(** [k] accesses in a quiet time: the registers stay. *)
Definition steady (k : nat) (d d' : D) : Prop :=
  rtc clock_access d d' /\ (forall r, regs d' r = regs d r) /\ (age d' <= age d + k)%nat /\ (quiet d <= quiet d' + k)%nat.

Lemma saw_trans (j k : nat) d1 d2 d3 : saw j d1 d2 -> saw k d2 d3 -> saw (j + k) d1 d3.
Proof.
  intros (P1 & B1 & S1) (P2 & B2 & S2). split; [by etrans|]. split; [congruence|].
  destruct S1 as [[E1 A1]|[G1 A1]], S2 as [[E2 A2]|[G2 A2]]; [left|right; lia..]. split; [intros r; by rewrite E2|lia].
Qed.

Lemma saw_weaken (j k : nat) d d' : (j <= k)%nat -> saw j d d' -> saw k d d'.
Proof. intros Hk (P & B & [[E A]|[G A]]); (split; [done|]); (split; [done|]); [left|right]; (split; [done || lia|lia]). Qed.

Lemma moved_saw d d' : clock_access d d' -> clock_moved d d' -> saw 1 d d'.
Proof. intros Ha (HB & _ & Hm). split; [by apply rtc_once|]. split; [done|]. destruct Hm as [[E A]|(_ & G & A)]; [left|right]; (split; [done || lia|lia]). Qed.

Lemma moved_steady d d' : clock_access d d' -> clock_moved d d' -> (0 < quiet d)%nat -> steady 1 d d'.
Proof. intros Ha (_ & Hq & [[E A]|(Hz & _)]) Hp; [|lia]. split; [by apply rtc_once|]. split; [done|lia]. Qed.

Lemma steady_trans (j k : nat) d1 d2 d3 : steady j d1 d2 -> steady k d2 d3 -> steady (j + k) d1 d3.
Proof. intros (P1 & E1 & A1 & Q1) (P2 & E2 & A2 & Q2). split; [by etrans|]. split; [intros r; by rewrite E2|lia]. Qed.

Lemma access_saw r d : is_byte r -> saw 2 d (snd (cmos_in cmos_data (cmos_out cmos_address r d))).
Proof.
  intros Hr. pose proof (select_law r d Hr) as [M1 _]. set (d1 := cmos_out cmos_address r d) in *. pose proof (data_law d1) as Hd.
  assert (A2 : clock_access d1 (snd (cmos_in cmos_data d1))) by (by right). destruct (cmos_in cmos_data d1) as [v d2]. destruct Hd as (M2 & _).
  apply (saw_trans 1 1 d d1); [|by apply moved_saw]. apply moved_saw; [left; by exists r|done].
Qed.

(** A register in the quiet time. *)
Lemma register_steady r d : is_byte r -> r <> 0x0A -> (2 <= quiet d)%nat ->
  let '(v, d') := get_RTC_register r d in steady 2 d d' /\ v = regs d r.
Proof.
  intros Hr Hn Hq. unfold get_RTC_register. replace (u8 r) with r by (unfold is_byte, u8 in *; lia).
  pose proof (select_law r d Hr) as [M1 E1]. set (d1 := cmos_out cmos_address r d) in *.
  assert (S1 : steady 1 d d1) by (apply moved_steady; [left; by exists r|done|lia]). pose proof S1 as (_ & Er & _ & Q1).
  pose proof (data_law d1) as Hd. assert (A2 : clock_access d1 (snd (cmos_in cmos_data d1))) by (by right).
  destruct (cmos_in cmos_data d1) as [v d2]. destruct Hd as (M2 & _ & Hv & _). rewrite E1 in Hv. split; [|by rewrite Hv, Er by lia].
  apply (steady_trans 1 1 d d1); [done|]. apply moved_steady; [done..|lia].
Qed.

(** The wait ends, at the start of a quiet time. *)
Lemma wait_ends n : forall d flags, Z.land (fst (poll (Nat.iter n (fun d => snd (poll d)) d))) 0x80 = 0 -> (n < flags)%nat ->
  exists d', wait_update flags d = Some d' /\ saw (2 * (n + 1)) d d' /\ (14 <= quiet d')%nat.
Proof.
  induction n as [|n IH]; intros d flags Hp Hf; (destruct flags as [|flags]; [lia|]); cbn [wait_update]; unfold get_update_in_progress_flag;
    pose proof (access_saw 0x0A d ltac:(done)) as S1.
  - cbn [Nat.iter] in Hp. unfold poll in Hp. pose proof (select_law 0x0A d ltac:(done)) as [_ E1]. pose proof (data_law (cmos_out cmos_address 0x0A d)) as Hd.
    destruct (cmos_in _ _) as [v d1]. cbn [fst snd] in *. rewrite Hp. cbn [Z.eqb]. exists d1. split; [done|]. split; [done|]. by apply Hd.
  - rewrite Nat.iter_succ_r in Hp. unfold poll at 3 in Hp. pose proof (select_law 0x0A d ltac:(done)) as [_ E1].
    pose proof (data_law (cmos_out cmos_address 0x0A d)) as Hd. destruct (cmos_in _ (cmos_out cmos_address 0x0A d)) as [v d1]. cbn [fst snd] in *.
    destruct (Z.eqb_spec (Z.land v 0x80) 0) as [E|E].
    { exists d1. split; [done|]. split; [apply (saw_weaken 2); [lia|done]|]. by apply Hd. }
    destruct (IH d1 flags Hp ltac:(lia)) as (d2 & -> & S2 & Hq). exists d2. split; [done|]. split; [|done].
    replace (2 * (S n + 1))%nat with (2 + 2 * (n + 1))%nat by lia. by eapply saw_trans.
Qed.

Section century.
Context (cr : Z) (Hcr : is_byte cr) (Hcr' : cr <> 0x0A).

(** One register more. *)
Lemma next_register (j : nat) d0 d r : steady j d0 d -> (j + 2 <= quiet d0)%nat -> is_byte r -> r <> 0x0A ->
  let '(v, d') := get_RTC_register r d in steady (j + 2) d0 d' /\ v = regs d0 r.
Proof.
  intros HS Hq Hr Hn. pose proof HS as (_ & E & _ & Q). pose proof (register_steady r d Hr Hn ltac:(lia)) as Hv.
  destruct (get_RTC_register r d) as [v d']. destruct Hv as [S2 ->]. split; [by eapply steady_trans|apply E].
Qed.

Lemma read_registers_steady century d : (14 <= quiet d)%nat ->
  let '(now, d') := read_registers cr century d in steady 14 d d' /\ now = snapshot cr (regs d) century.
Proof.
  intros Hq. unfold read_registers. assert (S0 : steady 0 d d) by (split; [done|split; [done|lia]]).
  pose proof (next_register _ _ _ 0x00 S0 ltac:(lia) ltac:(done) ltac:(done)) as S1. destruct (get_RTC_register 0x00 _) as [v1 d1]. destruct S1 as [S1 ->].
  pose proof (next_register _ _ _ 0x02 S1 ltac:(lia) ltac:(done) ltac:(done)) as S2. destruct (get_RTC_register 0x02 _) as [v2 d2]. destruct S2 as [S2 ->].
  pose proof (next_register _ _ _ 0x04 S2 ltac:(lia) ltac:(done) ltac:(done)) as S3. destruct (get_RTC_register 0x04 _) as [v3 d3]. destruct S3 as [S3 ->].
  pose proof (next_register _ _ _ 0x07 S3 ltac:(lia) ltac:(done) ltac:(done)) as S4. destruct (get_RTC_register 0x07 _) as [v4 d4]. destruct S4 as [S4 ->].
  pose proof (next_register _ _ _ 0x08 S4 ltac:(lia) ltac:(done) ltac:(done)) as S5. destruct (get_RTC_register 0x08 _) as [v5 d5]. destruct S5 as [S5 ->].
  pose proof (next_register _ _ _ 0x09 S5 ltac:(lia) ltac:(done) ltac:(done)) as S6. destruct (get_RTC_register 0x09 _) as [v6 d6]. destruct S6 as [S6 ->].
  unfold snapshot. destruct (negb (cr =? 0)).
  - pose proof (next_register _ _ _ cr S6 ltac:(lia) Hcr Hcr') as S7. by destruct (get_RTC_register cr d6) as [c d7]; destruct S7 as [S7 ->].
  - split; [|done]. destruct S6 as (P & E & A & Q). split; [done|]. split; [done|lia].
Qed.

(** A reading comes to an end, with the registers as they are when the flag was seen clear. *)
Lemma reading_ends flags century d : (longest_wait D < flags)%nat -> exists d1 d2,
  rtc_reading flags cr century d = Some (snapshot cr (regs d1) century, d2) /\ saw (wait_time D) d d1 /\ steady 14 d1 d2.
Proof.
  intros Hf. destruct (wait_law d) as (n & Hn & Hp). destruct (wait_ends n d flags Hp ltac:(lia)) as (d1 & E & S1 & Hq).
  unfold rtc_reading. rewrite E. cbn [mbind option_bind]. pose proof (read_registers_steady century d1 Hq) as S2.
  destruct (read_registers cr century d1) as [now d2]. destruct S2 as [S2 ->]. exists d1, d2. split; [done|]. split; [|done].
  eapply saw_weaken; [|exact S1]. unfold wait_time. lia.
Qed.

(** The registers of one state of the clock. *)
Definition consistent (d0 : D) (now : time * Z) (d' : D) : Prop :=
  exists d century, rtc clock_access d0 d /\ rtc clock_access d d' /\ regs d' 0x0B = regs d 0x0B /\ now = snapshot cr (regs d) century.

Section rounds.
Context (flags : nat) (Hflags : (longest_wait D < flags)%nat).

Lemma snapshot_same f g c : (forall r, f r = g r) -> snapshot cr f (snd (snapshot cr g c)) = snapshot cr g c.
Proof. intros E. unfold snapshot. cbn [snd]. rewrite !E. by destruct (negb (cr =? 0)). Qed.

(** A round behind a reading of the registers of [d0]: it ends the loop with the registers of one state, or an update has come in its wait. *)
Lemma round_ends rounds century d0 d1 : steady 14 d0 d1 -> exists d2 d3,
  saw (wait_time D) d1 d2 /\ steady 14 d2 d3 /\
  let last := snapshot cr (regs d0) century in let now := snapshot cr (regs d2) (snd last) in
  (read_until_same (S rounds) flags cr last d1 = Some (now, d3) \/
   read_until_same (S rounds) flags cr last d1 = read_until_same rounds flags cr now d3 /\ (update_gap D <= age d1 + wait_time D)%nat /\ (age d2 <= wait_time D)%nat).
Proof.
  intros S1. destruct (reading_ends flags (snd (snapshot cr (regs d0) century)) d1 Hflags) as (d2 & d3 & Er & S2 & S3).
  exists d2, d3. split; [done|]. split; [done|]. intros last now. fold last now in Er. cbn [read_until_same]. rewrite Er. cbn [mbind option_bind].
  case_bool_decide as E; [by left|]. right. split; [done|]. destruct S2 as (_ & _ & [[E2 _]|S2]); [|done]. destruct E.
  apply snapshot_same. intros r. rewrite E2. apply S1.
Qed.

Lemma consistent_at c d0 d1 d2 d3 : rtc clock_access d0 d1 -> saw (wait_time D) d1 d2 -> steady 14 d2 d3 -> consistent d0 (snapshot cr (regs d2) c) d3.
Proof. intros P S2 S3. exists d2, c. split; [etrans; [exact P|apply S2]|]. split; [apply S3|]. split; [apply S3|done]. Qed.

(** Two rounds are enough: the second falls between two updates. *)
Lemma rounds_end rounds century d0 d1 : steady 14 d0 d1 -> (2 <= rounds)%nat -> exists now d2,
  read_until_same rounds flags cr (snapshot cr (regs d0) century) d1 = Some (now, d2) /\ consistent d1 now d2.
Proof.
  intros S1 Hr. destruct rounds as [|[|rounds]]; [lia..|]. pose proof gap_long as Hg. unfold reading_time in Hg.
  destruct (round_ends (S rounds) century d0 d1 S1) as (d2 & d3 & S2 & S3 & [E|(E & G & A)]); cbv zeta in E.
  { do 2 eexists. split; [exact E|]. by eapply consistent_at. }
  destruct (round_ends rounds (snd (snapshot cr (regs d0) century)) d2 d3 S3) as (d4 & d5 & S4 & S5 & [E'|(_ & G' & _)]).
  - do 2 eexists. rewrite E, E'. split; [done|]. eapply consistent_at; [|done..]. etrans; [apply S2|apply S3].
  - destruct S3 as (_ & _ & A3 & _). lia.
Qed.

(** The time does not depend on the local variable [century]. *)
Lemma convert_snapshot registerB f c c' : convert cr registerB (snapshot cr f c) = convert cr registerB (snapshot cr f c').
Proof. unfold snapshot, convert, full_year. destruct (cr =? 0); cbn [negb]; by destruct (Z.land registerB 4 =? 0). Qed.

Lemma read_rtc_spec rounds century d0 : (2 <= rounds)%nat -> exists d d',
  read_rtc rounds flags cr century d0 = Some (convert cr (regs d 0x0B) (snapshot cr (regs d) century), d') /\ rtc clock_access d0 d /\ rtc clock_access d d'.
Proof.
  intros Hr. destruct (reading_ends flags century d0 Hflags) as (d1 & d2 & E1 & S1 & S2). unfold read_rtc. rewrite E1. cbn [mbind option_bind].
  destruct (rounds_end _ century _ _ S2 Hr) as (now & d3 & -> & d & c & P1 & P2 & B & ->). cbn [mbind option_bind].
  unfold get_RTC_register. change (u8 0x0B) with 0x0B. pose proof (access_saw 0x0B d3 ltac:(done)) as (P3 & _).
  pose proof (select_law 0x0B d3 ltac:(done)) as ((B3 & _) & E3). pose proof (data_law (cmos_out cmos_address 0x0B d3)) as Hd.
  destruct (cmos_in _ _) as [v d4]. destruct Hd as (_ & Hv & _). exists d, d4. rewrite Hv by done.
  rewrite B3, B, (convert_snapshot _ _ c century). split; [done|]. split; [|by etrans].
  etrans; [apply S1|]. etrans; [apply S2|done].
Qed.
End rounds.
End century.
End clock.

(** ** The registers of a time *)

(** A number in the format of register B: binary, or two decimal digits. *)
Definition digits (registerB v : Z) : Z := if Z.land registerB 0x04 =? 0 then v / 10 * 16 + v mod 10 else v.

(** An hour: with 12 hours, 12 stands for 0 and bit 7 for the afternoon. *)
Definition hour_code (registerB h : Z) : Z :=
  if Z.land registerB 0x02 =? 0
  then Z.lor (digits registerB (if h mod 12 =? 0 then 12 else h mod 12)) (if 12 <=? h then 0x80 else 0)
  else digits registerB h.

Record keeps_time (f : Z -> Z) (s m h dd mm yy : Z) : Prop := Keeps {
  k_ranges : 0 <= s < 60 /\ 0 <= m < 60 /\ 0 <= h < 24 /\ 1 <= dd <= 31 /\ 1 <= mm <= 12 /\ 0 <= yy < 100;
  k_second : f 0x00 = digits (f 0x0B) s;
  k_minute : f 0x02 = digits (f 0x0B) m;
  k_hour : f 0x04 = hour_code (f 0x0B) h;
  k_day : f 0x07 = digits (f 0x0B) dd;
  k_month : f 0x08 = digits (f 0x0B) mm;
  k_year : f 0x09 = digits (f 0x0B) yy
}.

(** The hour that the code makes of it: with 12 hours, noon and midnight are swapped. *)
Definition hour_read (registerB h : Z) : Z :=
  if (Z.land registerB 0x02 =? 0) && (h mod 12 =? 0) then 12 - h else h.

Definition year_read (yy : Z) : Z := if 2000 + yy <? CURRENT_YEAR then 2100 + yy else 2000 + yy.

Lemma for_range (n : nat) (P : Z -> Prop) `{!forall h, Decision (P h)} :
  forallb (fun i => bool_decide (P (Z.of_nat i))) (seq 0 n) = true -> forall h, 0 <= h < Z.of_nat n -> P h.
Proof.
  intros Hall h Hh. rewrite forallb_forall in Hall. specialize (Hall (Z.to_nat h)). rewrite Z2Nat.id in Hall by lia.
  apply (bool_decide_eq_true_1 _), Hall, in_seq. lia.
Qed.

Lemma bcd_digits v : 0 <= v < 100 -> bcd (v / 10 * 16 + v mod 10) = v.
Proof. intros Hv. unfold bcd. change 0x0F with (Z.ones 4). rewrite Z.land_ones by lia. lia. Qed.

Lemma hour_converts b h : 0 <= h < 24 ->
  convert_hour b (if Z.land b 0x04 =? 0 then hour (convert_bcd (Time 0 0 (hour_code b h) 0 0 0)) else hour_code b h) = hour_read b h.
Proof.
  unfold convert_hour, hour_code, hour_read, digits, convert_bcd. cbn [hour]. revert h.
  destruct (Z.land b 0x04 =? 0), (Z.land b 0x02 =? 0); cbn [andb]; apply (for_range 24 (fun h => _ = _)); vm_compute; reflexivity.
Qed.

Lemma convert_keeps f s m h dd mm yy c : keeps_time f s m h dd mm yy ->
  convert 0 (f 0x0B) (snapshot 0 f c) = Time s m (hour_read (f 0x0B) h) dd mm (year_read yy).
Proof.
  intros [(Rs & Rm & Rh & Rd & Rmm & Ry) Es Em Eh Ed Emm Ey]. pose proof (hour_converts (f 0x0B) h Rh) as Hh. revert Hh.
  unfold snapshot. rewrite Es, Em, Eh, Ed, Emm, Ey. set (b := f 0x0B). unfold convert, convert_bcd, digits, year_read, full_year.
  cbn [Z.eqb negb second minute hour day month year]. destruct (Z.land b 4 =? 0); cbn [second minute hour day month year]; intros ->.
  - rewrite !bcd_digits by lia. change (CURRENT_YEAR / 100 * 100) with 2000. unfold u8, u32, CURRENT_YEAR.
    f_equal; try lia. case_Zb; lia.
  - change (CURRENT_YEAR / 100 * 100) with 2000. unfold u32, CURRENT_YEAR. f_equal. case_Zb; lia.
Qed.

(** What the conversion makes of noon on a clock with 12 hours. *)
Lemma noon_is_midnight f m s dd mm yy c : keeps_time f s m 12 dd mm yy -> Z.land (f 0x0B) 0x02 = 0 -> hour (convert 0 (f 0x0B) (snapshot 0 f c)) = 0.
Proof. intros K E. rewrite (convert_keeps _ _ _ _ _ _ _ _ K). cbn [hour]. unfold hour_read. by rewrite E. Qed.

Lemma midnight_is_noon f m s dd mm yy c : keeps_time f s m 0 dd mm yy -> Z.land (f 0x0B) 0x02 = 0 -> hour (convert 0 (f 0x0B) (snapshot 0 f c)) = 12.
Proof. intros K E. rewrite (convert_keeps _ _ _ _ _ _ _ _ K). cbn [hour]. unfold hour_read. by rewrite E. Qed.

Definition century_register : Z := 0x00.

(** The text after the label: the numbers in decimal, without leading zeros. *)
Definition time_text (h m s : Z) : list Z :=
  numeral false 10 h ++ literal ":" ++ numeral false 10 m ++ literal ":" ++ numeral false 10 s ++ [10].

Lemma itoa_numeral v : 0 <= v < 60 -> itoa v = numeral false 10 v.
Proof. intros Hv. destruct (itoa_decimal v ltac:(lia)) as (-> & _). rewrite Z.abs_eq by lia. by rewrite (proj2 (Z.ltb_ge v 0)) by lia. Qed.

Lemma year_full yy : 0 <= yy < 100 -> year_read yy mod 100 = yy /\ CURRENT_YEAR <= year_read yy < CURRENT_YEAR + 100.
Proof. intros Hy. unfold year_read, CURRENT_YEAR. case_Zb; lia. Qed.

(** C40: showing the time at start. Whenever the updates of the clock come, and whatever its registers read as during an
    update, [printtime] comes to an end, after at most three readings. The registers that it has read, in whatever format
    the clock uses, are those of one moment between its start and its end, never a mixture of the time before and after an
    update; the variables are the date and the time of that moment, the year in the hundred years from [CURRENT_YEAR] on,
    and the screen shows the label and the time in decimal. The hour is not claimed for the hours of noon and midnight on a
    clock with 12 hours. *)
Theorem printtime_shows `{CmosClock D} rounds flags century (d0 : D) bg t scr :
  (2 <= rounds)%nat -> (longest_wait D < flags)%nat -> shows_on bg t scr ->
  (forall d, rtc clock_access d0 d -> exists s m h dd mm yy, keeps_time (regs d) s m h dd mm yy) ->
  exists d s m h dd mm yy now d' t', rtc clock_access d0 d /\ rtc clock_access d d' /\ keeps_time (regs d) s m h dd mm yy /\
  printtime rounds flags century_register century d0 t = Some (now, d', t') /\
  second now = s /\ minute now = m /\ day now = dd /\ month now = mm /\
  year now mod 100 = yy /\ CURRENT_YEAR <= year now < CURRENT_YEAR + 100 /\
  (Z.land (regs d 0x0B) 0x02 <> 0 \/ h mod 12 <> 0 -> hour now = h) /\
  shows_on bg t' (screen_string bg 15 (time_text (hour now) m s) (screen_string bg VGA_COLOR_LIGHT_GREEN (literal "System Time: ") scr)).
Proof.
  intros Hr Hf Hs Hk. destruct (read_rtc_spec 0 ltac:(done) ltac:(done) flags Hf rounds century d0 Hr) as (d & d' & E & P1 & P2).
  destruct (Hk d P1) as (s & m & h & dd & mm & yy & K). rewrite (convert_keeps _ _ _ _ _ _ _ _ K) in E.
  destruct (k_ranges _ _ _ _ _ _ _ K) as (Rs & Rm & Rh & _ & _ & Ry). exists d, s, m, h, dd, mm, yy. do 3 eexists.
  split; [done|]. split; [done|]. split; [done|]. unfold printtime, century_register. rewrite E. cbn [mbind option_bind].
  split; [reflexivity|]. cbn [second minute hour day month year]. do 4 (split; [done|]). split; [by apply year_full|]. split; [by apply year_full|].
  assert (R : 0 <= hour_read (regs d 0x0B) h < 24) by (unfold hour_read; case_match; lia). split.
  { intros Hh. unfold hour_read. destruct (Z.eqb_spec (Z.land (regs d 0x0B) 0x02) 0), (Z.eqb_spec (h mod 12) 0); try done. by destruct Hh. }
  unfold time_text. rewrite !screen_string_app, <- !itoa_numeral by lia.
  repeat (apply print_shows; [first [by repeat constructor|apply itoa_nonzero; lia]|]).
  pose proof (proj1 (writechars_shows bg VGA_COLOR_LIGHT_GREEN (literal "System Time: ") t scr Hs)) as Hp.
  rewrite cstring_literal in Hp; [exact Hp|]. apply (bool_decide_unpack _). exact I.
Qed.

(** A clock with 24 hours in decimal digits, at [tick] seconds after midnight; there is an update every 100 accesses, and
    the flag is set for the last 16 of them. *)
Record sim_clock := SimClock { tick : Z; sim_selected : Z; sim_age : nat }.

Definition sim_regs (n r : Z) : Z :=
  if r =? 0x00 then digits 2 (n mod 60) else if r =? 0x02 then digits 2 (n / 60 mod 60)
  else if r =? 0x04 then digits 2 (n / 3600 mod 24) else if r =? 0x07 then 1 else if r =? 0x08 then 1
  else if r =? 0x09 then digits 2 24 else if r =? 0x0B then 2 else 0.

(** An access later. *)
Definition sim_advance (selected : Z) (d : sim_clock) : sim_clock :=
  if (100 <=? sim_age d)%nat then SimClock (tick d + 1) selected 0 else SimClock (tick d) selected (S (sim_age d)).

(** What a register reads as: nothing of use when the update is taking place. *)
Definition sim_value (d : sim_clock) : Z :=
  if sim_selected d =? 0x0A then if (84 <=? sim_age d)%nat then 0x80 else 0
  else if (100 <=? sim_age d)%nat && negb (sim_selected d =? 0x0B) then 0xFF
  else sim_regs (tick d) (sim_selected d).

#[export] Instance sim_cmos : CmosPorts sim_clock := {|
  cmos_in port d := (sim_value d, sim_advance (sim_selected d) d);
  cmos_out port v d := sim_advance v d
|}.

#[export] Instance sim_cmos_view : CmosView sim_clock := {|
  regs d := sim_regs (tick d);
  selected := sim_selected;
  age := sim_age;
  quiet d := (100 - sim_age d)%nat;
  longest_wait := 10;
  update_gap := 100
|}.

Lemma sim_moved selected d : clock_moved d (sim_advance selected d) /\ sim_selected (sim_advance selected d) = selected.
Proof.
  unfold sim_advance. destruct (Nat.leb_spec 100 (sim_age d)); (split; [|done]); unfold clock_moved; cbn [regs sim_cmos_view quiet age tick sim_age update_gap].
  - split; [done|]. split; [lia|]. right. lia.
  - split; [done|]. split; [lia|]. left. split; [done|lia].
Qed.

(** A poll: clear but for the time before an update. *)
Lemma sim_poll n sel a :
  ((a < 83 \/ 100 <= a)%nat -> Z.land (fst (poll (SimClock n sel a))) 0x80 = 0) /\
  ((a < 99)%nat -> snd (poll (SimClock n sel a)) = SimClock n 0x0A (a + 2)) /\ (a = 99%nat -> snd (poll (SimClock n sel a)) = SimClock (n + 1) 0x0A 0).
Proof.
  unfold poll. cbn -[Nat.leb Z.land]. unfold sim_value, sim_advance. cbn -[Nat.leb Z.land].
  destruct (Nat.leb_spec 100 a); cbn -[Nat.leb Z.land]; [split; [done|]; split; lia|].
  destruct (Nat.leb_spec 84 (S a)), (Nat.leb_spec 100 (S a)); cbn; (split; [lia || done|]); (split; [|lia || done]); intros; try lia; f_equal; lia.
Qed.

Lemma sim_wait (m : nat) : forall d, (100 - sim_age d <= 2 * m)%nat ->
  exists n, (n <= m)%nat /\ Z.land (fst (poll (Nat.iter n (fun d => snd (poll d)) d))) 0x80 = 0.
Proof.
  induction m as [|m IH]; intros [n sel a] Ha; cbn [sim_age] in Ha; destruct (sim_poll n sel a) as (Hc & Hs & Hu).
  { exists 0%nat. split; [done|]. apply Hc. lia. }
  destruct (decide (100 <= a)%nat); [exists 0%nat; split; [lia|]; apply Hc; lia|].
  destruct (decide (a = 99%nat)) as [E|E].
  { exists 1%nat. split; [lia|]. rewrite Nat.iter_succ_r, (Hu E). apply sim_poll. lia. }
  destruct (IH (SimClock n 0x0A (a + 2)) ltac:(cbn; lia)) as (k & Hk & Ek). exists (S k). split; [lia|].
  rewrite Nat.iter_succ_r, Hs by lia. exact Ek.
Qed.

#[export] Instance sim_cmos_clock : CmosClock sim_clock.
Proof.
  split.
  - cbn. unfold reading_time, wait_time. cbn. lia.
  - intros r d _. apply sim_moved.
  - intros d. cbn. split; [apply sim_moved|]. unfold sim_value. split; [intros ->; by rewrite andb_false_r|]. split.
    + intros Hs Hq. rewrite (proj2 (Z.eqb_neq _ _) Hs). destruct (Nat.leb_spec 100 (sim_age d)); [lia|done].
    + intros ->. cbn [Z.eqb Pos.eqb]. destruct (Nat.leb_spec 84 (sim_age d)); [done|]. intros _. unfold sim_advance.
      destruct (Nat.leb_spec 100 (sim_age d)); cbn; lia.
  - intros d. destruct (Nat.ltb_spec (sim_age d) 83).
    + exists 0%nat. split; [lia|]. unfold poll. cbn. unfold sim_advance. destruct (Nat.leb_spec 100 (sim_age d)); [lia|]. unfold sim_value. cbn -[Nat.leb].
      by destruct (Nat.leb_spec 84 (S (sim_age d))); [lia|].
    + destruct (sim_wait 10 d ltac:(lia)) as (n & Hn & E). by exists n.
Qed.

Lemma sim_keeps d : keeps_time (regs d) (tick d mod 60) (tick d / 60 mod 60) (tick d / 3600 mod 24) 1 1 24.
Proof. split; [lia|done..]. Qed.

(** One second before midnight, with the update due during the first reading. *)
Lemma printtime_shows_witness : exists now d' t', printtime 2 11 century_register 77 (SimClock 86399 0 70) boot_tty = Some (now, d', t') /\
  CURRENT_YEAR <= year now < CURRENT_YEAR + 100 /\ year now mod 100 = 24.
Proof.
  destruct (printtime_shows 2 11 77 (SimClock 86399 0 70) 0 boot_tty (window boot_tty) ltac:(lia) ltac:(cbn; lia)
    (conj (window_shows _ boot_tty_wf) eq_refl) (fun d _ => ex_intro _ _ (ex_intro _ _ (ex_intro _ _ (ex_intro _ _ (ex_intro _ _ (ex_intro _ _ (sim_keeps d))))))))
    as (d & s & m & h & dd & mm & yy & now & d' & t' & _ & _ & [_ _ _ _ _ _ Ey] & E & _ & _ & _ & _ & Hm & Hy & _).
  exists now, d', t'. split; [exact E|]. split; [exact Hy|]. assert (R : 0 <= yy < 100) by (rewrite <- Hm; apply Z.mod_pos_bound; reflexivity).
  rewrite Hm. cbn in Ey. unfold digits in Ey. change (Z.land 2 4 =? 0) with true in Ey. cbv iota in Ey. lia.
Defined.
