(* ===== verification/Keyboard.v ===== *)
(** * The keyboard (kernel/keyboard/keyboard.c, classic.c)

    The driver is a state machine over the scan codes of the controller, and each process has a ring buffer of keys. The
    ring buffer is compared with a bounded queue, the driver with the meaning of key events. *)

From stdpp Require Import base numbers list gmap.
From Stdlib Require Import ZArith Lia.
From S2P Require Import Prelude Effects Sched UserMem Process.

#[local] Set Default Goal Selector "!".

(** ** The ring buffer *)

Definition keyboard_buffer_index (counter : Z) : Z := u32 counter mod RORTHOX_KEYBOARD_BUFFER_SIZE.
Definition keyboard_get_tail_index (b : keyboard_buffer) : Z := keyboard_buffer_index (kb_tail b).

(** [keyboard_push] and [keyboard_pop] on the buffer of the process. *)
Definition buffer_push (c : Z) (b : keyboard_buffer) : keyboard_buffer :=
  if c =? 0 then b
  else if RORTHOX_KEYBOARD_BUFFER_SIZE <=? i32 (kb_tail b - kb_head b) then b
  else
    let real_index := keyboard_get_tail_index b in
    KeyboardBuffer (<[Z.to_nat real_index := c]> (kb_buffer b)) (i32 (kb_tail b + 1)) (kb_head b).

Definition buffer_pop (b : keyboard_buffer) : Z * keyboard_buffer :=
  let real_index := keyboard_buffer_index (kb_head b) in
  let c := default 0 (kb_buffer b !! Z.to_nat real_index) in
  if c =? 0x00 then (0, b)
  else (c, KeyboardBuffer (<[Z.to_nat real_index := 0]> (kb_buffer b)) (kb_tail b) (i32 (kb_head b + 1))).

Section keys.
Context {D H : Type}.

(** The key goes to the process in the foreground; [None] is a dangling pointer. *)
Definition keyboard_push (c : Z) (s : sys D H) : option (sys D H) :=
  if current_process s =? 0 then Some s
  else
    p ← procs s !! current_process s;
    Some (with_procs (<[current_process s := with_keyboard (buffer_push c (keyboard p)) p]> (procs s)) s).

(** The key comes from the process of the running task. *)
Definition keyboard_pop (s : sys D H) : option (Z * sys D H) :=
  if current_task (ssched s) =? 0 then Some (0, s)
  else
    t ← task_store (ssched s) !! current_task (ssched s);
    p ← procs s !! process t;
    let '(c, b) := buffer_pop (keyboard p) in
    Some (c, with_procs (<[process t := with_keyboard b p]> (procs s)) s).
End keys.

(** ** Scan codes *)

Definition CLASSIC_KEYBOARD_CAPSLOCK : Z := 0x3A.
Definition CLASSIC_KEYBOARD_LSHIFT : Z := 0x2A.
Definition CLASSIC_KEYBOARD_LSHIFT_R : Z := 0xAA.
Definition CLASSIC_KEYBOARD_RSHIFT : Z := 0x36.
Definition CLASSIC_KEYBOARD_RSHIFT_R : Z := 0xB6.
Definition CLASSIC_KEYBOARD_NUMLOCK : Z := 0x45.
Definition CLASSIC_KEYBOARD_NUMLOCK_R : Z := 0xC5.
Definition CLASSIC_KEYBOARD_EXTENDED : Z := 0xE0.
Definition CLASSIC_KEYBOARD_PAUSE : Z := 0xE1.
Definition CLASSIC_KEYBOARD_PAUSE_PAYLOAD : Z := 2.
Definition CLASSIC_KEYBOARD_KEY_RELEASED : Z := 0x80.
Definition PS2_PORT : Z := 0x64.
Definition PS2_COMMAND_ENABLE_FIRST_PORT : Z := 0xAE.

Definition regular_scancodes : list (Z * Z) :=
  [(0x01, 0x1B); (0x02, 49); (0x03, 50); (0x04, 51); (0x05, 52); (0x06, 53); (0x07, 54); (0x08, 55); (0x09, 56); (0x0A, 57);
   (0x0B, 48); (0x0C, 45); (0x0D, 61); (0x0E, 8); (0x0F, 9); (0x10, 113); (0x11, 119); (0x12, 101); (0x13, 114); (0x14, 116);
   (0x15, 121); (0x16, 117); (0x17, 105); (0x18, 111); (0x19, 112); (0x1A, 91); (0x1B, 93); (0x1C, 0x0D); (0x1E, 97); (0x1F, 115);
   (0x20, 100); (0x21, 102); (0x22, 103); (0x23, 104); (0x24, 106); (0x25, 107); (0x26, 108); (0x27, 59); (0x28, 39); (0x29, 96);
   (0x2B, 92); (0x2C, 122); (0x2D, 120); (0x2E, 99); (0x2F, 118); (0x30, 98); (0x31, 110); (0x32, 109); (0x33, 44); (0x34, 46);
   (0x35, 47); (0x37, 42); (0x39, 32); (0x47, 55); (0x48, 56); (0x49, 57); (0x4A, 45); (0x4B, 52); (0x4C, 53); (0x4D, 54);
   (0x4E, 43); (0x4F, 49); (0x50, 50); (0x51, 51); (0x52, 48); (0x53, 46); (0x00, 0)].

Definition uppercase_scancodes : list (Z * Z) :=
  [(0x01, 0x1B); (0x02, 49); (0x03, 50); (0x04, 51); (0x05, 52); (0x06, 53); (0x07, 54); (0x08, 55); (0x09, 56); (0x0A, 57);
   (0x0B, 48); (0x0C, 45); (0x0D, 61); (0x0E, 8); (0x0F, 9); (0x10, 81); (0x11, 87); (0x12, 69); (0x13, 82); (0x14, 84);
   (0x15, 89); (0x16, 85); (0x17, 73); (0x18, 79); (0x19, 80); (0x1A, 91); (0x1B, 93); (0x1C, 0x0D); (0x1E, 65); (0x1F, 83);
   (0x20, 68); (0x21, 70); (0x22, 71); (0x23, 72); (0x24, 74); (0x25, 75); (0x26, 76); (0x27, 59); (0x28, 39); (0x29, 96);
   (0x2B, 92); (0x2C, 90); (0x2D, 88); (0x2E, 67); (0x2F, 86); (0x30, 66); (0x31, 78); (0x32, 77); (0x33, 44); (0x34, 46);
   (0x35, 47); (0x37, 42); (0x39, 32); (0x47, 55); (0x48, 56); (0x49, 57); (0x4A, 45); (0x4B, 52); (0x4C, 53); (0x4D, 54);
   (0x4E, 43); (0x4F, 49); (0x50, 50); (0x51, 51); (0x52, 48); (0x53, 46); (0x00, 0)].

Definition shift_modified_scancodes : list (Z * Z) :=
  [(0x01, 0x1B); (0x02, 33); (0x03, 64); (0x04, 35); (0x05, 36); (0x06, 37); (0x07, 94); (0x08, 38); (0x09, 42); (0x0A, 40);
   (0x0B, 41); (0x0C, 95); (0x0D, 43); (0x0E, 8); (0x0F, 9); (0x10, 81); (0x11, 87); (0x12, 69); (0x13, 82); (0x14, 84);
   (0x15, 89); (0x16, 85); (0x17, 73); (0x18, 79); (0x19, 80); (0x1A, 123); (0x1B, 125); (0x1C, 0x0D); (0x1E, 65); (0x1F, 83);
   (0x20, 68); (0x21, 70); (0x22, 71); (0x23, 72); (0x24, 74); (0x25, 75); (0x26, 76); (0x27, 58); (0x28, 34); (0x29, 126);
   (0x2B, 124); (0x2C, 90); (0x2D, 88); (0x2E, 67); (0x2F, 86); (0x30, 66); (0x31, 78); (0x32, 77); (0x33, 60); (0x34, 62);
   (0x35, 63); (0x37, 42); (0x39, 32); (0x47, 55); (0x48, 56); (0x49, 57); (0x4A, 45); (0x4B, 52); (0x4C, 53); (0x4D, 54);
   (0x4E, 43); (0x4F, 49); (0x50, 50); (0x51, 51); (0x52, 48); (0x53, 46); (0x00, 0)].

Definition RORTHOX_KEY_UP : Z := 0x100.
Definition RORTHOX_KEY_DOWN : Z := 0x101.
Definition RORTHOX_KEY_LEFT : Z := 0x102.
Definition RORTHOX_KEY_RIGHT : Z := 0x103.
Definition RORTHOX_KEY_HOME : Z := 0x104.
Definition RORTHOX_KEY_END : Z := 0x105.
Definition RORTHOX_KEY_INSERT : Z := 0x106.
Definition RORTHOX_KEY_DELETE : Z := 0x107.
Definition RORTHOX_KEY_PAGE_UP : Z := 0x108.
Definition RORTHOX_KEY_PAGE_DOWN : Z := 0x109.

Definition extended_scancodes : list (Z * Z) :=
  [(0x1C, 0x0D); (0x35, 47); (0x48, RORTHOX_KEY_UP); (0x50, RORTHOX_KEY_DOWN); (0x4B, RORTHOX_KEY_LEFT); (0x4D, RORTHOX_KEY_RIGHT);
   (0x47, RORTHOX_KEY_HOME); (0x4F, RORTHOX_KEY_END); (0x52, RORTHOX_KEY_INSERT); (0x53, RORTHOX_KEY_DELETE);
   (0x49, RORTHOX_KEY_PAGE_UP); (0x51, RORTHOX_KEY_PAGE_DOWN); (0x00, 0)].

(** ** The driver *)

(** The statics of classic.c and the Caps Lock state of its keyboard struct. *)
Record kybd := Kybd {
  lshift : bool;
  rshift : bool;
  extended : bool;
  pause_bytes_left : Z;
  numlock : bool;
  numlock_down : bool;
  capslock : bool
}.

Definition with_shifts (l r : bool) (k : kybd) : kybd :=
  Kybd l r (extended k) (pause_bytes_left k) (numlock k) (numlock_down k) (capslock k).
Definition with_extended (e : bool) (k : kybd) : kybd :=
  Kybd (lshift k) (rshift k) e (pause_bytes_left k) (numlock k) (numlock_down k) (capslock k).
Definition with_pause (n : Z) (k : kybd) : kybd :=
  Kybd (lshift k) (rshift k) (extended k) n (numlock k) (numlock_down k) (capslock k).
Definition with_numlock (n d : bool) (k : kybd) : kybd :=
  Kybd (lshift k) (rshift k) (extended k) (pause_bytes_left k) n d (capslock k).
Definition keyboard_set_capslock (c : bool) (k : kybd) : kybd :=
  Kybd (lshift k) (rshift k) (extended k) (pause_bytes_left k) (numlock k) (numlock_down k) c.
Definition keyboard_get_capslock (k : kybd) : bool := capslock k.
Definition keyboard_toggle_capslock (k : kybd) : kybd := keyboard_set_capslock (negb (keyboard_get_capslock k)) k.

(** The driver's state after it, and the port writes. *)
Definition classic_keyboard_init (k : kybd) : kybd * list (Z * Z) :=
  let k := keyboard_set_capslock false k in
  let k := with_shifts false false k in
  let k := with_extended false k in
  let k := with_pause 0 k in
  let k := with_numlock true false k in
  (k, [(PS2_PORT, PS2_COMMAND_ENABLE_FIRST_PORT)]).

(** The entry of a table up to its terminator. *)
Fixpoint scan_table (table : list (Z * Z)) (scancode : Z) : option Z :=
  match table with
  | [] => None
  | (code, v) :: table => if code =? 0 then None else if code =? scancode then Some v else scan_table table scancode
  end.

Definition classic_keyboard_scancode_to_char (scancode : Z) (k : kybd) : Z :=
  let shift := lshift k || rshift k in
  let caps := keyboard_get_capslock k in
  let table := if shift then shift_modified_scancodes else if caps then uppercase_scancodes else regular_scancodes in
  match scan_table table scancode with
  | Some c => if shift && caps && (65 <=? c) && (c <=? 90) then c + (97 - 65) else c
  | None => 0
  end.

Definition classic_keyboard_is_keypad_digit (scancode : Z) : bool :=
  (0x47 <=? scancode) && (scancode <=? 0x53) && negb (scancode =? 0x4A) && negb (scancode =? 0x4E).

(** The part of the interrupt handler that keeps the modifier keys. *)
Definition handle_modifiers (scancode : Z) (k : kybd) : kybd :=
  if scancode =? CLASSIC_KEYBOARD_NUMLOCK then
    with_numlock (if negb (numlock_down k) then negb (numlock k) else numlock k) true k
  else if scancode =? CLASSIC_KEYBOARD_NUMLOCK_R then with_numlock (numlock k) false k
  else if scancode =? CLASSIC_KEYBOARD_CAPSLOCK then keyboard_toggle_capslock k
  else if scancode =? CLASSIC_KEYBOARD_LSHIFT then with_shifts true (rshift k) k
  else if scancode =? CLASSIC_KEYBOARD_LSHIFT_R then with_shifts false (rshift k) k
  else if scancode =? CLASSIC_KEYBOARD_RSHIFT then with_shifts (lshift k) true k
  else if scancode =? CLASSIC_KEYBOARD_RSHIFT_R then with_shifts (lshift k) false k
  else k.

Section driver.
(** What the keys are pushed to. *)
Context {S : Type} (keyboard_push : Z -> S -> option S).

Definition classic_keyboard_handle_extended (scancode : Z) (s : S) : option S :=
  if has_flag scancode CLASSIC_KEYBOARD_KEY_RELEASED then Some s
  else
    match scan_table extended_scancodes scancode with
    | Some key => keyboard_push key s
    | None => Some s
    end.

(** [scancode] is the byte read from the controller. *)
Definition classic_keyboard_handle_interrupt (scancode : Z) (k : kybd) (s : S) : option (kybd * S) :=
  if 0 <? pause_bytes_left k then Some (with_pause (pause_bytes_left k - 1) k, s)
  else if extended k then
    let k := with_extended false k in
    s ← classic_keyboard_handle_extended scancode s; Some (k, s)
  else if scancode =? CLASSIC_KEYBOARD_EXTENDED then Some (with_extended true k, s)
  else if scancode =? CLASSIC_KEYBOARD_PAUSE then Some (with_pause CLASSIC_KEYBOARD_PAUSE_PAYLOAD k, s)
  else
    let k := handle_modifiers scancode k in
    let suppressed := negb (numlock k) && classic_keyboard_is_keypad_digit scancode in
    if negb (has_flag scancode CLASSIC_KEYBOARD_KEY_RELEASED) && negb suppressed then
      let c := classic_keyboard_scancode_to_char scancode k in
      if negb (c =? 0) then s ← keyboard_push c s; Some (k, s) else Some (k, s)
    else Some (k, s).

Fixpoint handle_bytes (l : list Z) (k : kybd) (s : S) : option (kybd * S) :=
  match l with
  | [] => Some (k, s)
  | b :: l => '(k, s) ← classic_keyboard_handle_interrupt b k s; handle_bytes l k s
  end.

(** The driver changes nothing of the system that [keyboard_push] leaves alone. *)
Lemma handle_interrupt_map (f : S -> S) : (forall c s, keyboard_push c (f s) = f <$> keyboard_push c s) -> forall scancode k s,
  classic_keyboard_handle_interrupt scancode k (f s) = (fun r => (fst r, f (snd r))) <$> classic_keyboard_handle_interrupt scancode k s.
Proof.
  intros Hf scancode k s. unfold classic_keyboard_handle_interrupt, classic_keyboard_handle_extended. destruct (0 <? _); [done|].
  destruct (extended k); [destruct (has_flag _ _); [done|]; destruct (scan_table _ _); [|done]; rewrite Hf; by destruct (keyboard_push _ s)|].
  destruct (_ =? _); [done|]. destruct (_ =? _); [done|]. cbv zeta. destruct (_ && _); [|done]. destruct (negb _); [|done].
  rewrite Hf. by destruct (keyboard_push _ s).
Qed.

Lemma handle_bytes_map (f : S -> S) : (forall c s, keyboard_push c (f s) = f <$> keyboard_push c s) -> forall l k s,
  handle_bytes l k (f s) = (fun r => (fst r, f (snd r))) <$> handle_bytes l k s.
Proof.
  intros Hf l. induction l as [|b l IH]; intros k s; cbn [handle_bytes]; [done|]. rewrite (handle_interrupt_map f Hf).
  destruct (classic_keyboard_handle_interrupt b k s) as [[k1 s1]|]; [|done]. cbn. apply IH.
Qed.

(** The handler pushes one character or none. *)
Lemma handle_interrupt_result scancode k s :
  (forall c, exists s', keyboard_push c s = Some s') ->
  exists k' s', classic_keyboard_handle_interrupt scancode k s = Some (k', s') /\
    (s' = s \/ exists c, keyboard_push c s = Some s').
Proof.
  intros Hp. unfold classic_keyboard_handle_interrupt. destruct (0 <? _); [do 2 eexists; split; [done|by left]|].
  destruct (extended k).
  { unfold classic_keyboard_handle_extended. destruct (has_flag _ _); [do 2 eexists; split; [done|by left]|].
    destruct (scan_table _ _) as [c|]; [|do 2 eexists; split; [done|by left]].
    destruct (Hp c) as (s' & E). rewrite E. do 2 eexists. split; [done|right; by exists c]. }
  destruct (_ =? _); [do 2 eexists; split; [done|by left]|]. destruct (_ =? _); [do 2 eexists; split; [done|by left]|]. cbv zeta.
  destruct (_ && _); [|do 2 eexists; split; [done|by left]]. destruct (negb _); [|do 2 eexists; split; [done|by left]].
  set (c := classic_keyboard_scancode_to_char _ _). destruct (Hp c) as (s' & E). rewrite E. do 2 eexists. split; [done|right; by exists c].
Qed.
End driver.

(** ** The queue *)

(** A bounded queue. *)
Definition queue_push (c : Z) (q : list Z) : list Z :=
  if (c =? 0) || (RORTHOX_KEYBOARD_BUFFER_SIZE <=? Z.of_nat (length q)) then q else q ++ [c].
Definition queue_pop (q : list Z) : Z * list Z := match q with [] => (0, []) | c :: q => (c, q) end.

Record queued (b : keyboard_buffer) (q : list Z) : Prop := Queued {
  qd_size : length (kb_buffer b) = 1024%nat;
  qd_head : - 2 ^ 31 <= kb_head b < 2 ^ 31;
  qd_tail : kb_tail b = i32 (kb_head b + Z.of_nat (length q));
  qd_bound : Z.of_nat (length q) <= 1024;
  qd_cells : forall i, 0 <= i < 1024 ->
    kb_buffer b !! Z.to_nat (keyboard_buffer_index (kb_head b + i)) = Some (default 0 (q !! Z.to_nat i));
  qd_keys : Forall (fun c => c <> 0) q
}.

Lemma buffer_index_mod c : keyboard_buffer_index c = c mod 1024.
Proof. unfold keyboard_buffer_index, u32, RORTHOX_KEYBOARD_BUFFER_SIZE. lia. Qed.

Lemma i32_mod c : i32 c mod 1024 = c mod 1024.
Proof. unfold i32. lia. Qed.

Lemma queued_count b q : queued b q -> i32 (kb_tail b - kb_head b) = Z.of_nat (length q).
Proof. intros [_ Hh Ht Hb _ _]. rewrite Ht. unfold i32. lia. Qed.

Lemma queued_init : queued (keyboard process_init) [].
Proof.
  split; cbn [process_init keyboard kb_buffer kb_head kb_tail length]; try done; [lia..|].
  intros i Hi. rewrite lookup_nil. apply lookup_replicate_2. rewrite buffer_index_mod. unfold RORTHOX_KEYBOARD_BUFFER_SIZE. lia.
Qed.

Lemma queued_push c b q : queued b q -> queued (buffer_push c b) (queue_push c q).
Proof.
  intros Q. pose proof (queued_count b q Q) as Hc. destruct Q as [Q1 Q2 Q3 Q4 Q5 Q6]. unfold buffer_push, queue_push. rewrite Hc.
  destruct (Z.eqb_spec c 0) as [->|Hz]; cbn [orb]; [by split|]. unfold RORTHOX_KEYBOARD_BUFFER_SIZE.
  destruct (Z.leb_spec 1024 (Z.of_nat (length q))) as [Hf|Hf]; [by split|].
  unfold keyboard_get_tail_index. rewrite buffer_index_mod, Q3, i32_mod.
  split; cbn [kb_buffer kb_head kb_tail].
  - by rewrite length_insert.
  - done.
  - rewrite length_app. cbn [length]. unfold i32. lia.
  - rewrite length_app. cbn [length]. lia.
  - intros i Hi. rewrite buffer_index_mod. destruct (Z.eq_dec i (Z.of_nat (length q))) as [->|Hne].
    + rewrite list_lookup_insert_eq by lia. rewrite Nat2Z.id, lookup_app_r, Nat.sub_diag by lia. done.
    + rewrite list_lookup_insert_ne by lia. rewrite <- buffer_index_mod, Q5 by done. do 2 f_equal.
      destruct (decide (Z.to_nat i < length q)%nat); [by rewrite lookup_app_l|]. rewrite lookup_ge_None_2 by lia.
      rewrite lookup_ge_None_2; [done|]. rewrite length_app. cbn [length]. lia.
  - apply Forall_app. split; [done|by constructor].
Qed.

Lemma queued_pop b q : queued b q ->
  fst (buffer_pop b) = fst (queue_pop q) /\ queued (snd (buffer_pop b)) (snd (queue_pop q)).
Proof.
  intros [Q1 Q2 Q3 Q4 Q5 Q6]. unfold buffer_pop. pose proof (Q5 0 ltac:(lia)) as E0. rewrite Z.add_0_r in E0. rewrite E0.
  destruct q as [|c q]; [by split|]. change (default 0 (Some (default 0 ((c :: q) !! Z.to_nat 0)))) with c.
  apply Forall_cons in Q6 as [Hc Q6]. cbn [queue_pop]. rewrite (proj2 (Z.eqb_neq c 0)) by done.
  cbn [fst snd]. split; [done|]. cbn [length] in Q3, Q4. rewrite buffer_index_mod. split; cbn [kb_buffer kb_head kb_tail].
  - by rewrite length_insert.
  - apply i32_range.
  - rewrite Q3. unfold i32. lia.
  - lia.
  - intros i Hi. rewrite buffer_index_mod. rewrite <- Z.add_mod_idemp_l, i32_mod, Z.add_mod_idemp_l by lia.
    destruct (Z.eq_dec i 1023) as [->|Hne].
    + replace ((kb_head b + 1 + 1023) mod 1024) with (kb_head b mod 1024) by lia. rewrite list_lookup_insert_eq by lia.
      rewrite lookup_ge_None_2; [done|lia].
    + rewrite list_lookup_insert_ne by lia. replace (kb_head b + 1 + i) with (kb_head b + (i + 1)) by lia.
      rewrite <- buffer_index_mod, Q5 by lia. replace (Z.to_nat (i + 1)) with (S (Z.to_nat i)) by lia. done.
  - done.
Qed.

(** Keys typed and keys read. *)
Inductive key_op := KeyPush (c : Z) | KeyPop.

Fixpoint run_buffer (ops : list key_op) (b : keyboard_buffer) : list Z * keyboard_buffer :=
  match ops with
  | [] => ([], b)
  | KeyPush c :: ops => run_buffer ops (buffer_push c b)
  | KeyPop :: ops => let '(c, b) := buffer_pop b in let '(l, b) := run_buffer ops b in (c :: l, b)
  end.

Fixpoint run_queue (ops : list key_op) (q : list Z) : list Z * list Z :=
  match ops with
  | [] => ([], q)
  | KeyPush c :: ops => run_queue ops (queue_push c q)
  | KeyPop :: ops => let '(c, q) := queue_pop q in let '(l, q) := run_queue ops q in (c :: l, q)
  end.

(** ** Key events *)

(** What happens on the keyboard; keys are named by their make code, those of the second group come with a prefix. *)
Inductive key_event :=
| Press (code : Z) | Release (code : Z) | PressExtended (code : Z) | ReleaseExtended (code : Z) | PressPause.

(** What the controller sends. *)
Definition event_bytes (e : key_event) : list Z :=
  match e with
  | Press c => [c]
  | Release c => [c + 0x80]
  | PressExtended c => [0xE0; c]
  | ReleaseExtended c => [0xE0; c + 0x80]
  | PressPause => [0xE1; 0x1D; 0x45; 0xE1; 0x9D; 0xC5]
  end.

(** Make codes have seven bits, and the break code of a plain key is not a prefix. *)
Definition event_ok (e : key_event) : Prop :=
  match e with
  | Press c | PressExtended c | ReleaseExtended c => 1 <= c < 128
  | Release c => 1 <= c < 128 /\ c <> 0x60 /\ c <> 0x61
  | PressPause => True
  end.

(** The keys that are held and the locks. *)
Record modifiers := Modifiers { left_held : bool; right_held : bool; num_on : bool; num_held : bool; caps_on : bool }.

(** The character of a key: a letter is in upper case when exactly one of Shift and Caps Lock is on, any other key
    follows Shift alone. *)
Definition letter (c : Z) : bool := (97 <=? c) && (c <=? 122).
Definition key_char (shift caps : bool) (code : Z) : Z :=
  match scan_table regular_scancodes code with
  | None => 0
  | Some c => if letter c then (if xorb shift caps then c - 32 else c)
              else if shift then default 0 (scan_table shift_modified_scancodes code) else c
  end.

Definition press (code : Z) (m : modifiers) : modifiers :=
  Modifiers (left_held m || (code =? 0x2A)) (right_held m || (code =? 0x36))
    (if (code =? 0x45) && negb (num_held m) then negb (num_on m) else num_on m) (num_held m || (code =? 0x45))
    (if code =? 0x3A then negb (caps_on m) else caps_on m).
Definition release (code : Z) (m : modifiers) : modifiers :=
  Modifiers (left_held m && negb (code =? 0x2A)) (right_held m && negb (code =? 0x36)) (num_on m)
    (num_held m && negb (code =? 0x45)) (caps_on m).

(** The key that is typed, if any. *)
Definition typed (code : Z) (m : modifiers) : list Z :=
  let c := key_char (left_held m || right_held m) (caps_on m) code in
  if (c =? 0) || (negb (num_on m) && classic_keyboard_is_keypad_digit code) then [] else [c].

Definition meaning (e : key_event) (m : modifiers) : modifiers * list Z :=
  match e with
  | Press c => (press c m, typed c (press c m))
  | Release c => (release c m, [])
  | PressExtended c => (m, match scan_table extended_scancodes c with Some k => [k] | None => [] end)
  | ReleaseExtended _ | PressPause => (m, [])
  end.

Fixpoint meanings (es : list key_event) (m : modifiers) : modifiers * list Z :=
  match es with
  | [] => (m, [])
  | e :: es => let '(m, l1) := meaning e m in let '(m, l2) := meanings es m in (m, l1 ++ l2)
  end.

(** The driver between two events. *)
Definition between (m : modifiers) : kybd :=
  Kybd (left_held m) (right_held m) false 0 (num_on m) (num_held m) (caps_on m).

(** Every code below [n]. *)
Lemma codes_below (P : Z -> bool) n : forallb P (Z.of_nat <$> seq 0 n) = true -> forall c, 0 <= c < Z.of_nat n -> P c = true.
Proof.
  intros H c Hc. rewrite forallb_forall in H. apply H. rewrite <- list_elem_of_In. apply list_elem_of_fmap.
  exists (Z.to_nat c). split; [lia|]. apply elem_of_seq. lia.
Qed.

Lemma scancode_to_char k c : 0 <= c < 256 ->
  classic_keyboard_scancode_to_char c k = key_char (lshift k || rshift k) (capslock k) c.
Proof.
  intros Hc. unfold classic_keyboard_scancode_to_char, keyboard_get_capslock. generalize (lshift k || rshift k) as sh. generalize (capslock k) as ca.
  intros ca sh. apply Z.eqb_eq. revert c Hc. destruct ca, sh; apply (codes_below _ 256); vm_compute; reflexivity.
Qed.

(** What the handler does between two events, for a push that cannot fail. *)
Section pushing.
Context {S : Type} (push : Z -> S -> S).

Definition pushes (l : list Z) (s : S) : S := foldl (fun s c => push c s) s l.
Local Abbreviation handle := (classic_keyboard_handle_interrupt (fun c s => Some (push c s))).

Lemma modifiers_press c m : 1 <= c < 128 -> handle_modifiers c (between m) = between (press c m).
Proof.
  intros Hc. unfold handle_modifiers, press. destruct m as [l r n h ca]. cbn [left_held right_held num_on num_held caps_on].
  unfold CLASSIC_KEYBOARD_NUMLOCK, CLASSIC_KEYBOARD_NUMLOCK_R, CLASSIC_KEYBOARD_CAPSLOCK, CLASSIC_KEYBOARD_LSHIFT,
    CLASSIC_KEYBOARD_LSHIFT_R, CLASSIC_KEYBOARD_RSHIFT, CLASSIC_KEYBOARD_RSHIFT_R.
  case_Zb; try lia; destruct l, r, n, h, ca; reflexivity.
Qed.

Lemma modifiers_release c m : 1 <= c < 128 -> handle_modifiers (c + 0x80) (between m) = between (release c m).
Proof.
  intros Hc. unfold handle_modifiers, release. destruct m as [l r n h ca]. cbn [left_held right_held num_on num_held caps_on].
  unfold CLASSIC_KEYBOARD_NUMLOCK, CLASSIC_KEYBOARD_NUMLOCK_R, CLASSIC_KEYBOARD_CAPSLOCK, CLASSIC_KEYBOARD_LSHIFT,
    CLASSIC_KEYBOARD_LSHIFT_R, CLASSIC_KEYBOARD_RSHIFT, CLASSIC_KEYBOARD_RSHIFT_R.
  case_Zb; try lia; destruct l, r, n, h, ca; reflexivity.
Qed.

Lemma make_flag c : 1 <= c < 128 -> has_flag c 0x80 = false /\ has_flag (c + 0x80) 0x80 = true.
Proof.
  intros Hc. assert (H : (negb (has_flag c 0x80) && has_flag (c + 0x80) 0x80) = true).
  { revert c Hc. assert (H : forall c, 0 <= c < 128 -> negb (has_flag c 0x80) && has_flag (c + 0x80) 0x80 = true)
      by (apply (codes_below _ 128); vm_compute; reflexivity). intros c Hc. apply H. lia. }
  by apply andb_prop in H as [H1%negb_true_iff H2].
Qed.

Lemma handle_press c m s : 1 <= c < 128 ->
  handle c (between m) s = Some (between (press c m), pushes (typed c (press c m)) s).
Proof.
  intros Hc. destruct (make_flag c Hc) as [Hf _]. unfold classic_keyboard_handle_interrupt. change (pause_bytes_left (between m)) with 0.
  change (extended (between m)) with false. unfold CLASSIC_KEYBOARD_EXTENDED, CLASSIC_KEYBOARD_PAUSE, CLASSIC_KEYBOARD_KEY_RELEASED.
  rewrite (proj2 (Z.eqb_neq c 0xE0)), (proj2 (Z.eqb_neq c 0xE1)) by lia. cbn [Z.ltb Z.compare]. rewrite modifiers_press by done.
  set (m' := press c m). rewrite Hf, scancode_to_char by lia. cbn [negb andb]. unfold typed.
  change (lshift (between m')) with (left_held m'). change (rshift (between m')) with (right_held m').
  change (capslock (between m')) with (caps_on m'). change (numlock (between m')) with (num_on m').
  destruct (negb (num_on m') && _); cbn [negb orb]; [by rewrite orb_true_r|]. rewrite orb_false_r. by destruct (_ =? 0).
Qed.

Lemma handle_prefix m s : handle 0xE0 (between m) s = Some (with_extended true (between m), s).
Proof. reflexivity. Qed.

Lemma handle_prefixed c m s : handle c (with_extended true (between m)) s =
  (s ← classic_keyboard_handle_extended (fun c s => Some (push c s)) c s; Some (between m, s)).
Proof. reflexivity. Qed.

Lemma handle_event e m s : event_ok e ->
  handle_bytes (fun c s => Some (push c s)) (event_bytes e) (between m) s =
    Some (between (fst (meaning e m)), pushes (snd (meaning e m)) s).
Proof.
  destruct e as [c|c|c|c|]; cbn [event_ok event_bytes handle_bytes meaning fst snd]; intros Hc.
  - by rewrite handle_press.
  - destruct Hc as (Hc & H60 & H61). unfold classic_keyboard_handle_interrupt. change (pause_bytes_left (between m)) with 0.
    change (extended (between m)) with false. unfold CLASSIC_KEYBOARD_EXTENDED, CLASSIC_KEYBOARD_PAUSE, CLASSIC_KEYBOARD_KEY_RELEASED.
    rewrite (proj2 (Z.eqb_neq (c + 0x80) 0xE0)), (proj2 (Z.eqb_neq (c + 0x80) 0xE1)) by lia. cbn [Z.ltb Z.compare].
    rewrite modifiers_release by done. rewrite (proj2 (make_flag c Hc)). reflexivity.
  - rewrite handle_prefix. cbn [mbind option_bind]. rewrite handle_prefixed. unfold classic_keyboard_handle_extended.
    unfold CLASSIC_KEYBOARD_KEY_RELEASED. rewrite (proj1 (make_flag c Hc)). by destruct (scan_table extended_scancodes c).
  - rewrite handle_prefix. cbn [mbind option_bind]. rewrite handle_prefixed. unfold classic_keyboard_handle_extended.
    unfold CLASSIC_KEYBOARD_KEY_RELEASED. by rewrite (proj2 (make_flag c Hc)).
  - by destruct m.
Qed.
End pushing.

Lemma handle_bytes_app {S} (push : Z -> S -> option S) l1 : forall l2 k s,
  handle_bytes push (l1 ++ l2) k s = '(k, s) ← handle_bytes push l1 k s; handle_bytes push l2 k s.
Proof.
  induction l1 as [|b l1 IH]; intros l2 k s; [done|]. cbn [app handle_bytes].
  destruct (classic_keyboard_handle_interrupt push b k s) as [[k1 s1]|]; [|done]. cbn [mbind option_bind]. apply IH.
Qed.

Lemma handle_events {S} (push : Z -> S -> S) es : Forall event_ok es -> forall m s,
  handle_bytes (fun c s => Some (push c s)) (concat (map event_bytes es)) (between m) s =
    Some (between (fst (meanings es m)), pushes push (snd (meanings es m)) s).
Proof.
  induction 1 as [|e es He _ IH]; intros m s; [done|]. cbn [map concat meanings]. rewrite handle_bytes_app, handle_event by done.
  cbn [mbind option_bind]. rewrite IH. destruct (meaning e m) as [m1 l1]. cbn [fst snd]. destruct (meanings es m1) as [m2 l2].
  cbn [fst snd]. unfold pushes. by rewrite foldl_app.
Qed.

Lemma run_refines ops : forall b q, queued b q ->
  fst (run_buffer ops b) = fst (run_queue ops q) /\ queued (snd (run_buffer ops b)) (snd (run_queue ops q)).
Proof.
  induction ops as [|[c|] ops IH]; intros b q Q; cbn [run_buffer run_queue]; [done|by apply IH, queued_push|].
  destruct (queued_pop b q Q) as [E Q']. destruct (buffer_pop b) as [c b'], (queue_pop q) as [c' q']. cbn [fst snd] in E, Q'. subst c'.
  destruct (IH b' q' Q') as [E' Q'']. destruct (run_buffer ops b') as [l b''], (run_queue ops q') as [l' q'']. cbn [fst snd] in *.
  by subst l'.
Qed.

(** ** Properties *)

(** The tail counter about to wrap around. *)
Definition wrapping_buffer : keyboard_buffer := KeyboardBuffer (replicate 1024 0) INT_MAX INT_MAX.

(** C29: The key buffer of a process is a bounded queue: the zeroed struct holds the empty queue, and from any buffer, wherever
    its counters are and also when they wrap around, whatever keys are pushed and however reads come between them, reads
    give the keys in the order they were typed; a push to a full queue of 1024 keys is dropped and loses no other key; a
    read of an empty queue gives 0. *)
Theorem keyboard_buffer_queue ops b q : queued b q ->
  queued (keyboard process_init) [] /\
  fst (run_buffer ops b) = fst (run_queue ops q) /\ queued (snd (run_buffer ops b)) (snd (run_queue ops q)).
Proof. intros Q. split; [exact queued_init|by apply run_refines]. Qed.

Lemma keyboard_buffer_queue_witness :
  fst (run_buffer [KeyPush 65; KeyPush 0; KeyPush 0x100; KeyPop; KeyPop; KeyPop] wrapping_buffer) = [65; 0x100; 0].
Proof.
  assert (Q : queued wrapping_buffer []).
  { split; cbn [wrapping_buffer kb_buffer kb_head kb_tail length]; try done.
    intros i Hi. rewrite lookup_nil. apply lookup_replicate_2. rewrite buffer_index_mod. lia. }
  exact (proj1 (proj2 (keyboard_buffer_queue [KeyPush 65; KeyPush 0; KeyPush 0x100; KeyPop; KeyPop; KeyPop] wrapping_buffer [] Q))).
Defined.


