(* ===== verification/Readline.v ===== *)
(** * The line editor of the user library (programs/stdlib/src/rorthox.c)

    [rorthox_terminal_readline] edits a line in a buffer of the program and, with echo, on the shared screen, through the
    system calls that put a character and move the cursor; their effect on the terminal is that of [Syscall.v]. The keys
    are what [rorthox_getkey] gives, call after call, with 0 for no key. The theorem compares buffer and screen with an
    editor on a list. *)

From stdpp Require Import base numbers list strings.
From Stdlib Require Import ZArith Lia.
From S2P Require Import Prelude Effects StrLib Tty Panic Keyboard.

#[local] Set Default Goal Selector "!".

Definition RORTHOX_READLINE_ECHO_LIMIT : Z := 1023.

(** ** System calls on the terminal *)

Definition rorthox_putchar (c : Z) (t : tty) : tty := terminal_writechar (u8 c) 15 t.
Definition rorthox_terminal_move_cursor (delta : Z) (t : tty) : Z * tty := terminal_move_cursor (i32 delta) t.

(** ** Reading a line *)

(** A key and the calls after it; [None] waits for ever. *)
Fixpoint rorthox_getkeyblock (keys : list Z) : option (Z * list Z) :=
  match keys with
  | [] => None
  | val :: keys => if val =? 0 then rorthox_getkeyblock keys else Some (val, keys)
  end.

(** The variables of the loop, and the screen. *)
Record line := Line { l_out : list Z; l_length : Z; l_position : Z; l_term : tty }.

(** [if (output_while_typing) rorthox_terminal_move_cursor(delta);] *)
Definition echo_move (echo : bool) (delta : Z) (t : tty) : tty := if echo then snd (rorthox_terminal_move_cursor delta t) else t.

(** [for (int i = i; i < i + n; i++) rorthox_putchar(out[i]);] *)
Fixpoint echo_loop (n : nat) (i : Z) (out : list Z) (t : tty) : tty :=
  match n with
  | O => t
  | S n => echo_loop n (i + 1) out (rorthox_putchar (default 0 (out !! Z.to_nat i)) t)
  end.

Definition move_key (echo : bool) (key : Z) (l : line) : line :=
  let next_position :=
    if key =? RORTHOX_KEY_LEFT then (if 0 <? l_position l then l_position l - 1 else l_position l)
    else if key =? RORTHOX_KEY_RIGHT then (if l_position l <? l_length l then l_position l + 1 else l_position l)
    else if key =? RORTHOX_KEY_HOME then 0
    else if key =? RORTHOX_KEY_END then l_length l
    else l_position l in
  if negb (next_position =? l_position l) then
    Line (l_out l) (l_length l) next_position (echo_move echo (next_position - l_position l) (l_term l))
  else l.

(** [for (int i = i; i < i + n; i++) out[i] = out[i + 1];] *)
Fixpoint shift_left (n : nat) (i : Z) (out : list Z) : option (list Z) :=
  match n with
  | O => Some out
  | S n => out ← put_char out (Z.to_nat i) (default 0 (out !! Z.to_nat (i + 1))); shift_left n (i + 1) out
  end.

(** The character at the position is taken out. *)
Definition erase_at (echo : bool) (l : line) : option line :=
  out' ← shift_left (Z.to_nat (l_length l - l_position l)) (l_position l) (l_out l);
  let length' := l_length l - 1 in
  let t :=
    if echo then
      let t := echo_loop (Z.to_nat (length' - l_position l)) (l_position l) out' (l_term l) in
      let t := rorthox_putchar 32 t in
      snd (rorthox_terminal_move_cursor (l_position l - length' - 1) t)
    else l_term l in
  Some (Line out' length' (l_position l) t).

(** Backspace and Delete. *)
Definition erase_key (echo : bool) (key : Z) (l : line) : option line :=
  if (key =? 0x08) && (l_position l =? 0) then Some l
  else
    let l := if key =? 0x08 then Line (l_out l) (l_length l) (l_position l - 1) (echo_move echo (- 1) (l_term l)) else l in
    if l_position l =? l_length l then Some l else erase_at echo l.

(** [for (int i = i; i > i - n; i--) out[i] = out[i - 1];] *)
Fixpoint shift_right (n : nat) (i : Z) (out : list Z) : option (list Z) :=
  match n with
  | O => Some out
  | S n => out ← put_char out (Z.to_nat i) (default 0 (out !! Z.to_nat (i - 1))); shift_right n (i - 1) out
  end.

Definition insert_key (echo : bool) (key : Z) (l : line) : option line :=
  out' ← shift_right (Z.to_nat (l_length l - l_position l)) (l_length l) (l_out l);
  out' ← put_char out' (Z.to_nat (l_position l)) (u8 key);
  let length' := l_length l + 1 in
  out' ← put_char out' (Z.to_nat length') 0;
  let t := if echo then echo_loop (Z.to_nat (length' - l_position l)) (l_position l) out' (l_term l) else l_term l in
  let position' := l_position l + 1 in
  let t := if echo && (position' <? length') then snd (rorthox_terminal_move_cursor (position' - length') t) else t in
  Some (Line out' length' position' t).

Definition readline_key (echo : bool) (key : Z) (l : line) : option line :=
  let l := move_key echo key l in
  if (key =? 0x08) || (key =? RORTHOX_KEY_DELETE) then erase_key echo key l
  else if (key <=? 0) || (255 <? key) || (key =? 10) then Some l
  else insert_key echo key l.

(** The function has returned, with the keys left, or waits for a key. *)
Inductive typing :=
  | Returned (out : list Z) (keys : list Z) (t : tty)
  | Waiting (l : line).

(** A round takes at least one of the keys. *)
Fixpoint readline_loop (rounds : nat) (echo : bool) (capacity : Z) (keys : list Z) (l : line) : option (line * option (list Z)) :=
  if l_length l <? capacity then
    match rounds, rorthox_getkeyblock keys with
    | _, None => Some (l, None)
    | O, _ => None
    | S rounds, Some (key, keys) =>
      if key =? 13 then Some (l, Some keys)
      else l ← readline_key echo key l; readline_loop rounds echo capacity keys l
    end
  else Some (l, Some keys).

(** The buffer is not null. *)
Definition rorthox_terminal_readline (out : list Z) (max : Z) (echo : bool) (keys : list Z) (t : tty) : option typing :=
  if max <=? 0 then Some (Returned out keys t)
  else
    let capacity := max - 1 in
    let capacity := if echo && (RORTHOX_READLINE_ECHO_LIMIT <? capacity) then RORTHOX_READLINE_ECHO_LIMIT else capacity in
    out ← put_char out 0 0;
    '(l, rest) ← readline_loop (length keys) echo capacity keys (Line out 0 0 t);
    Some (match rest with
          | None => Waiting l
          | Some keys =>
            Returned (l_out l) keys
              (if echo && (l_position l <? l_length l) then snd (rorthox_terminal_move_cursor (l_length l - l_position l) (l_term l)) else l_term l)
          end).

(** ** The reference editor: a line and a position in it *)

Definition is_text (key : Z) : Prop := 1 <= key <= 255 /\ key <> 8 /\ key <> 10 /\ key <> 13.

Definition edit (key : Z) (l : list Z) (p : nat) : list Z * nat :=
  if key =? RORTHOX_KEY_LEFT then (l, (p - 1)%nat)
  else if key =? RORTHOX_KEY_RIGHT then (l, (S p `min` length l)%nat)
  else if key =? RORTHOX_KEY_HOME then (l, 0%nat)
  else if key =? RORTHOX_KEY_END then (l, length l)
  else if key =? 8 then match p with O => (l, O) | S p => (delete p l, p) end
  else if key =? RORTHOX_KEY_DELETE then (delete p l, p)
  else if bool_decide (1 <= key <= 255) && negb (key =? 10) then (take p l ++ key :: drop p l, S p)
  else (l, p).

(** The keys up to CR or a full line; the keys left, if it came to that. *)
Fixpoint edit_keys (capacity : nat) (keys : list Z) (l : list Z) (p : nat) : list Z * nat * option (list Z) :=
  if (length l <? capacity)%nat then
    match keys with
    | [] => (l, p, None)
    | key :: keys => if key =? 13 then (l, p, Some keys) else let '(l, p) := edit key l p in edit_keys capacity keys l p
    end
  else (l, p, Some keys).

(** ** The buffer *)

Lemma put_char_middle a x c rest : put_char (a ++ x :: rest) (length a) c = Some (a ++ c :: rest).
Proof.
  unfold put_char. rewrite (proj2 (Nat.ltb_lt _ _)) by (rewrite length_app; cbn; lia).
  by rewrite <- (Nat.add_0_r (length a)), insert_app_r.
Qed.

Lemma lookup_middle (a : list Z) x rest : (a ++ x :: rest) !! length a = Some x.
Proof. by apply list_lookup_middle. Qed.

Lemma shift_left_S n i buf : shift_left (S n) i buf =
  (buf' ← put_char buf (Z.to_nat i) (default 0 (buf !! Z.to_nat (i + 1))); shift_left n (i + 1) buf').
Proof. done. Qed.

Lemma shift_left_spec b : forall a c rest,
  shift_left (S (length b)) (Z.of_nat (length a)) (a ++ c :: b ++ 0 :: rest) = Some (a ++ b ++ 0 :: 0 :: rest).
Proof.
  induction b as [|d b IH]; intros a c rest; rewrite shift_left_S; cbn [app].
  - replace (Z.to_nat (Z.of_nat (length a) + 1)) with (length (a ++ [c])) by (rewrite length_app; cbn; lia).
    rewrite Nat2Z.id, (cons_middle c a (0 :: rest)), app_assoc, lookup_middle, <- app_assoc. cbn [default app].
    rewrite put_char_middle. reflexivity.
  - replace (Z.to_nat (Z.of_nat (length a) + 1)) with (length (a ++ [c])) by (rewrite length_app; cbn; lia).
    rewrite Nat2Z.id, (cons_middle c a (d :: _)), app_assoc, lookup_middle, <- app_assoc. cbn [default app].
    rewrite put_char_middle. cbn [mbind option_bind]. rewrite (cons_middle d a), app_assoc.
    replace (Z.of_nat (length a) + 1) with (Z.of_nat (length (a ++ [d]))) by (rewrite length_app; cbn; lia).
    rewrite IH. by rewrite <- app_assoc.
Qed.

Lemma shift_right_spec b : forall a x rest, exists y,
  shift_right (length b) (Z.of_nat (length a + length b)) (a ++ b ++ x :: rest) = Some (a ++ y :: b ++ rest).
Proof.
  induction b as [|e b IH] using rev_ind; intros a x rest; [by exists x|].
  rewrite length_app. cbn [length]. replace (length b + 1)%nat with (S (length b)) by lia. cbn [shift_right].
  replace (Z.to_nat (Z.of_nat (length a + S (length b)) - 1)) with (length (a ++ b)) by (rewrite length_app; lia).
  replace (Z.to_nat (Z.of_nat (length a + S (length b)))) with (length (a ++ b ++ [e])) by (rewrite !length_app; cbn; lia).
  replace (a ++ (b ++ [e]) ++ x :: rest) with ((a ++ b) ++ e :: x :: rest) by (by rewrite <- !app_assoc).
  rewrite lookup_middle. change (default 0 (Some e)) with e. replace ((a ++ b) ++ e :: x :: rest) with ((a ++ b ++ [e]) ++ x :: rest) by (by rewrite <- !app_assoc).
  rewrite put_char_middle. cbn [mbind option_bind]. destruct (IH a e (e :: rest)) as [y Hy]. exists y.
  replace (Z.of_nat (length a + S (length b)) - 1) with (Z.of_nat (length a + length b)) by lia.
  replace ((a ++ b ++ [e]) ++ e :: rest) with (a ++ b ++ e :: e :: rest) by (by rewrite <- !app_assoc).
  rewrite Hy. by rewrite <- app_assoc.
Qed.

(** ** The screen *)

Lemma move_shows bg delta t s : shows_on bg t s -> VGA_WIDTH * top s <= at_cell s + delta < VGA_WIDTH * (top s + VGA_HEIGHT) ->
  let t' := snd (rorthox_terminal_move_cursor delta t) in
  shows_on bg t' (Screen (tape s) (top s) (at_cell s + delta)) /\ synced t'.
Proof.
  intros [S Hbg] Hd. pose proof (sh_at _ _ S) as Ha. pose proof (position_range _ (sh_wf _ _ S)) as Hp. unfold VGA_WIDTH, VGA_HEIGHT in *.
  unfold rorthox_terminal_move_cursor. rewrite i32_small by lia. pose proof (move_cursor_exact delta t (sh_wf _ _ S) ltac:(lia)) as Hm.
  pose proof (move_cursor_on bg delta t (conj (sh_wf _ _ S) Hbg)) as [_ Hbg'].
  destruct (terminal_move_cursor delta t) as [r t']. cbn [snd] in *. rewrite bool_decide_true in Hm by lia.
  destruct Hm as (_ & Hpos & Hs & W & V). split; [|done]. split; [|done]. destruct S as [_ _ S3 S4].
  split; cbn [tape top at_cell]; [done|unfold VGA_WIDTH; lia|by rewrite V|]. intros a Hl. rewrite Hbg', <- Hbg. by apply S4.
Qed.

Definition put_chars (w : list Z) (t : tty) : tty := foldl (fun t c => rorthox_putchar c t) t w.

Lemma put_chars_shows bg w : Forall is_text w -> forall t s, shows_on bg t s -> synced t ->
  shows_on bg (put_chars w t) (screen_string bg 15 w s) /\ synced (put_chars w t).
Proof.
  induction 1 as [|c w Hc _ IH]; intros t s Hs Hy; [done|]. unfold is_text in Hc.
  cbn [put_chars foldl screen_string]. unfold rorthox_putchar at 2 4. rewrite u8_small by lia.
  destruct (writechar_shows bg c 15 t s Hs) as [Hs' Hy']. apply IH; [exact Hs'|auto].
Qed.

Lemma echo_loop_put w : forall a rest t, echo_loop (length w) (Z.of_nat (length a)) (a ++ w ++ rest) t = put_chars w t.
Proof.
  induction w as [|c w IH]; intros a rest t; [done|]. cbn [length echo_loop app put_chars foldl]. rewrite Nat2Z.id, lookup_middle.
  replace (Z.of_nat (length a) + 1) with (Z.of_nat (length (a ++ [c]))) by (rewrite length_app; cbn; lia).
  replace (a ++ c :: w ++ rest) with ((a ++ [c]) ++ w ++ rest) by (by rewrite <- app_assoc). by rewrite IH.
Qed.

Section screen.
Context (bg : Z) (s0 : screen).

(** The tape with the line [m] at the start cell, and blanks behind it where there have been characters. *)
Definition line_tape (m : list Z) (high : Z) (x : Z) : Z :=
  if x <? at_cell s0 then tape s0 x
  else match m !! Z.to_nat (x - at_cell s0) with
       | Some c => cell bg c 15
       | None => if x <? at_cell s0 + high then blank bg else tape s0 x
       end.

(** The line is on the screen, the start cell included, and the cursor is at [p] in it; it has been as far as [high]. *)
Definition at_line (m : list Z) (p : nat) (t : tty) : Prop := exists s high,
  shows_on bg t s /\ synced t /\ at_cell s = at_cell s0 + Z.of_nat p /\ Z.of_nat p <= high <= RORTHOX_READLINE_ECHO_LIMIT /\ Z.of_nat (length m) <= high /\
  VGA_WIDTH * top s <= at_cell s0 /\ at_cell s0 + high < VGA_WIDTH * (top s + VGA_HEIGHT) /\
  forall x, tape s x = line_tape m high x.

Lemma at_line_start t : shows_on bg t s0 -> synced t -> at_line [] 0 t.
Proof.
  intros Hs Hy. exists s0, 0. pose proof (sh_at _ _ (proj1 Hs)). pose proof (position_range _ (sh_wf _ _ (proj1 Hs))).
  unfold RORTHOX_READLINE_ECHO_LIMIT, VGA_WIDTH, VGA_HEIGHT in *. cbn [length]. repeat split; try done; try lia; try apply Hs.
  intros x. unfold line_tape. rewrite lookup_nil. case_Zb; done || lia.
Qed.

Lemma at_line_move m p q t : at_line m p t -> (q <= length m)%nat -> at_line m q (snd (rorthox_terminal_move_cursor (Z.of_nat q - Z.of_nat p) t)).
Proof.
  intros (s & high & Hs & Hy & Ha & Hh & Hm & Ht & Hb & Hx) Hq. unfold VGA_WIDTH, VGA_HEIGHT in *.
  destruct (move_shows bg (Z.of_nat q - Z.of_nat p) t s Hs) as [Hs' Hy']; [unfold VGA_WIDTH, VGA_HEIGHT; lia|].
  exists (Screen (tape s) (top s) (at_cell s + (Z.of_nat q - Z.of_nat p))), high. cbn [at_cell top tape]. unfold VGA_WIDTH, VGA_HEIGHT.
  split; [done|]. split; [done|]. repeat split; (done || lia).
Qed.

Lemma write_lookup (m w : list Z) p i : (p <= length m)%nat ->
  (take p m ++ w ++ drop (p + length w) m) !! i =
  if (p <=? i)%nat then match w !! (i - p)%nat with Some c => Some c | None => m !! i end else m !! i.
Proof.
  intros Hp. assert (Ht : length (take p m) = p) by (rewrite length_take; lia). destruct (Nat.leb_spec p i).
  - rewrite lookup_app_r by lia. rewrite Ht. destruct (w !! (i - p)%nat) eqn:E; [by apply lookup_app_l_Some|].
    apply lookup_ge_None in E. rewrite lookup_app_r by lia. rewrite lookup_drop. f_equal. lia.
  - rewrite lookup_app_l by lia. by apply lookup_take_lt.
Qed.

Lemma line_tape_write m w p high x : (p <= length m)%nat ->
  tape_write bg 15 (at_cell s0 + Z.of_nat p) w (line_tape m high) x =
  line_tape (take p m ++ w ++ drop (p + length w) m) (Z.max high (Z.of_nat (p + length w))) x.
Proof.
  intros Hp. unfold line_tape at 2. rewrite write_lookup by done. unfold tape_write. destruct (Z.ltb_spec x (at_cell s0)) as [Hx|Hx].
  { rewrite (proj2 (Z.leb_gt _ _)) by lia. unfold line_tape. rewrite (proj2 (Z.ltb_lt _ _)) by lia. by destruct (w !! _). }
  unfold line_tape. rewrite (proj2 (Z.ltb_ge x _)) by lia.
  replace (Z.to_nat (x - (at_cell s0 + Z.of_nat p))) with (Z.to_nat (x - at_cell s0) - p)%nat by lia.
  destruct (Nat.leb_spec p (Z.to_nat (x - at_cell s0))) as [Hi|Hi].
  - rewrite (proj2 (Z.leb_le _ _)) by lia. destruct (w !! _) eqn:E; [done|]. apply lookup_ge_None in E.
    destruct (m !! _); [done|]. case_Zb; done || lia.
  - rewrite (proj2 (Z.leb_gt _ _)) by lia. destruct (lookup_lt_is_Some_2 m (Z.to_nat (x - at_cell s0))) as [c ->]; [lia|]. by destruct (w !! _).
Qed.

Lemma at_line_write m p w t : at_line m p t -> (p <= length m)%nat -> Forall is_text w -> Z.of_nat (p + length w) <= RORTHOX_READLINE_ECHO_LIMIT ->
  at_line (take p m ++ w ++ drop (p + length w) m) (p + length w) (put_chars w t).
Proof.
  intros (s & high & Hs & Hy & Ha & Hh & Hm & Ht & Hb & Hx) Hp Hw Hl. destruct (put_chars_shows bg w Hw t s Hs Hy) as [Hs' Hy'].
  assert (Htext : text w) by (eapply Forall_impl; [exact Hw|]; unfold is_text; naive_solver). unfold RORTHOX_READLINE_ECHO_LIMIT, VGA_WIDTH, VGA_HEIGHT in *.
  destruct (screen_text bg 15 w Htext s) as (T1 & T2 & T3); [unfold VGA_WIDTH, VGA_HEIGHT; lia|].
  set (s' := screen_string bg 15 w s) in *. clearbody s'. unfold VGA_WIDTH, VGA_HEIGHT in T2.
  exists s', (Z.max high (Z.of_nat (p + length w))). unfold RORTHOX_READLINE_ECHO_LIMIT, VGA_WIDTH, VGA_HEIGHT.
  split; [done|]. split; [done|]. repeat split; try lia.
  - rewrite !length_app, length_take, length_drop. lia.
  - intros x. rewrite T3, Ha, <- line_tape_write by done. unfold tape_write. by rewrite Hx.
Qed.

(** A blank at the end is no character of the line. *)
Lemma at_line_blank m p t : at_line (m ++ [32]) p t -> (p <= length m)%nat -> at_line m p t.
Proof.
  intros (s & high & Hs & Hy & Ha & Hh & Hm & Ht & Hb & Hx) Hp. rewrite length_app in Hm. cbn [length] in Hm. exists s, high.
  repeat (split; [done || lia|]). intros x. rewrite Hx. unfold line_tape. destruct (x <? at_cell s0) eqn:E; [done|].
  apply Z.ltb_ge in E. destruct (m !! Z.to_nat (x - at_cell s0)) eqn:El; [by rewrite (lookup_app_l_Some _ _ _ _ El)|].
  apply lookup_ge_None in El. rewrite lookup_app_r by lia. destruct (Z.to_nat (x - at_cell s0) - length m)%nat eqn:Ei; [|done].
  cbn [lookup list_lookup]. rewrite (proj2 (Z.ltb_lt _ _)) by lia. done.
Qed.
End screen.

(** ** Editing *)

Section editing.
Context (bg : Z) (s0 : screen) (echo : bool) (t0 : tty) (size : nat).

(** The variables hold the line; the screen shows it, or has not been touched. *)
Record edits (l : list Z) (p : nat) (ln : line) : Prop := Edits {
  ed_out : exists rest, l_out ln = l ++ 0 :: rest;
  ed_size : length (l_out ln) = size;
  ed_length : l_length ln = Z.of_nat (length l);
  ed_position : l_position ln = Z.of_nat p;
  ed_inside : (p <= length l)%nat;
  ed_text : Forall is_text l;
  ed_screen : if echo then at_line bg s0 l p (l_term ln) else l_term ln = t0
}.

Lemma edits_move l p q ln : edits l p ln -> (q <= length l)%nat ->
  edits l q (Line (l_out ln) (l_length ln) (Z.of_nat q) (echo_move echo (Z.of_nat q - Z.of_nat p) (l_term ln))).
Proof. intros [E1 E2 E3 E4 E5 E6 E7] Hq. split; try done. unfold echo_move. cbn [l_term]. destruct echo; [by apply at_line_move|done]. Qed.

(** The position after a key of the first [switch]. *)
Definition move_of (key : Z) (l : list Z) (p : nat) : nat :=
  if key =? RORTHOX_KEY_LEFT then (p - 1)%nat
  else if key =? RORTHOX_KEY_RIGHT then (S p `min` length l)%nat
  else if key =? RORTHOX_KEY_HOME then 0%nat
  else if key =? RORTHOX_KEY_END then length l
  else p.

Lemma move_key_ok key l p ln : edits l p ln -> edits l (move_of key l p) (move_key echo key ln).
Proof.
  intros E. pose proof (ed_inside _ _ _ E). unfold move_key. set (next := if key =? RORTHOX_KEY_LEFT then _ else _).
  assert (Hn : next = Z.of_nat (move_of key l p)).
  { unfold next, move_of. rewrite (ed_length _ _ _ E), (ed_position _ _ _ E). case_Zb; lia. }
  assert (Hq : (move_of key l p <= length l)%nat) by (unfold move_of; repeat case_match; lia). clearbody next.
  destruct (Z.eqb_spec next (l_position ln)) as [Ep|Ep]; cbn [negb].
  - rewrite Hn, (ed_position _ _ _ E) in Ep. by replace (move_of key l p) with p by lia.
  - rewrite Hn, (ed_position _ _ _ E). by apply edits_move.
Qed.

Lemma erase_ok a c b ln : edits (a ++ c :: b) (length a) ln -> exists ln',
  erase_at echo ln = Some ln' /\ edits (a ++ b) (length a) ln'.
Proof.
  intros [(rest & E1) E2 E3 E4 E5 E6 E7]. rewrite length_app in E3. cbn [length] in E3. unfold erase_at. rewrite E4, E3, E1, <- app_assoc. cbn [app].
  replace (Z.to_nat (Z.of_nat (length a + S (length b)) - Z.of_nat (length a))) with (S (length b)) by lia.
  rewrite shift_left_spec. cbn [mbind option_bind]. eexists. split; [reflexivity|].
  apply Forall_app in E6 as [Ha Hb]. apply Forall_cons in Hb as [Hc Hb].
  split; cbn [l_out l_length l_position l_term].
  - exists (0 :: rest). by rewrite <- app_assoc.
  - rewrite <- E2, E1, <- app_assoc, !length_app. cbn [app length]. rewrite ?length_app. cbn [length]. lia.
  - rewrite length_app. lia.
  - done.
  - rewrite length_app. lia.
  - by apply Forall_app.
  - destruct echo; [|done]. replace (Z.to_nat _) with (length b) by lia. rewrite echo_loop_put.
    change (rorthox_putchar 32 (put_chars b (l_term ln))) with (foldl (fun t c => rorthox_putchar c t) (put_chars b (l_term ln)) [32]).
    unfold put_chars. rewrite <- foldl_app. fold (put_chars (b ++ [32]) (l_term ln)).
    replace (Z.of_nat (length a) - _ - 1) with (Z.of_nat (length a) - Z.of_nat (length a + length (b ++ [32]))) by (rewrite length_app; cbn [length]; lia).
    apply at_line_blank; [|rewrite length_app; lia]. apply at_line_move; [|rewrite !length_app; lia].
    pose proof E7 as (s & high & _ & _ & _ & Hh & Hm & _). rewrite length_app in Hm. cbn [length] in Hm.
    pose proof (at_line_write bg s0 _ _ (b ++ [32]) _ E7 E5) as Hw. rewrite length_app in Hw |- *. cbn [length] in Hw |- *.
    rewrite take_app_length, drop_ge, app_nil_r in Hw by (rewrite length_app; cbn [length]; lia).
    rewrite <- app_assoc. apply Hw; [|lia]. apply Forall_app. split; [done|]. repeat constructor; lia.
Qed.

(** A line around a position in it. *)
Lemma split_at (l : list Z) p : (p < length l)%nat -> exists a c b, l = a ++ c :: b /\ length a = p /\ delete p l = a ++ b.
Proof.
  intros Hp. destruct (lookup_lt_is_Some_2 l p Hp) as [c Hc]. exists (take p l), c, (drop (S p) l).
  split; [by rewrite take_drop_middle|]. split; [rewrite length_take; lia|apply delete_take_drop].
Qed.

Lemma erase_position_ok l p ln : edits l p ln -> exists ln',
  (if l_position ln =? l_length ln then Some ln else erase_at echo ln) = Some ln' /\ edits (delete p l) p ln'.
Proof.
  intros E. rewrite (ed_position _ _ _ E), (ed_length _ _ _ E). destruct (Z.eqb_spec (Z.of_nat p) (Z.of_nat (length l))) as [Ep|Ep].
  - exists ln. split; [done|]. rewrite delete_take_drop, take_ge, drop_ge, app_nil_r by lia. done.
  - pose proof (ed_inside _ _ _ E). destruct (split_at l p) as (a & c & b & -> & <- & ->); [lia|]. by apply erase_ok in E.
Qed.

Lemma erase_key_ok key l p ln : edits l p ln -> key = 8 \/ key = RORTHOX_KEY_DELETE -> exists ln',
  erase_key echo key ln = Some ln' /\ let '(l', p') := edit key l p in edits l' p' ln'.
Proof.
  intros E Hk. unfold erase_key. rewrite (ed_position _ _ _ E). destruct Hk as [->| ->].
  - destruct p as [|p]; [by exists ln|]. cbn [Z.eqb Pos.eqb andb]. rewrite (proj2 (Z.eqb_neq _ _)) by lia.
    pose proof (ed_inside _ _ _ E). pose proof (edits_move l (S p) p ln E ltac:(lia)) as E'.
    replace (Z.of_nat p - Z.of_nat (S p)) with (-1) in E' by lia. replace (Z.of_nat (S p) - 1) with (Z.of_nat p) by lia.
    by apply erase_position_ok in E'.
  - by apply erase_position_ok in E.
Qed.

Lemma insert_key_ok key l p ln : edits l p ln -> is_text key -> (S (length l) < size)%nat ->
  (echo = true -> Z.of_nat (length l) < RORTHOX_READLINE_ECHO_LIMIT) -> exists ln',
  insert_key echo key ln = Some ln' /\ edits (take p l ++ key :: drop p l) (S p) ln'.
Proof.
  intros [(rest & E1) E2 E3 E4 E5 E6 E7] Hk Hs Hlim. set (a := take p l). set (b := drop p l).
  assert (Hl : l = a ++ b) by (symmetry; apply take_drop). assert (Hp : length a = p) by (unfold a; rewrite length_take; lia). clearbody a b. subst l p.
  rewrite length_app in *. unfold insert_key. rewrite E4, E3, E1, <- app_assoc. cbn [app].
  replace (Z.to_nat (Z.of_nat (length a + length b) - Z.of_nat (length a))) with (length b) by lia.
  destruct (shift_right_spec b a 0 rest) as [y ->]. cbn [mbind option_bind]. rewrite Nat2Z.id, put_char_middle. cbn [mbind option_bind].
  destruct rest as [|r rest].
  { exfalso. rewrite E1, !length_app in E2. cbn in E2. lia. }
  replace (a ++ u8 key :: b ++ r :: rest) with ((a ++ u8 key :: b) ++ r :: rest) by (by rewrite <- app_assoc).
  replace (Z.to_nat (Z.of_nat (length a + length b) + 1)) with (length (a ++ u8 key :: b)) by (rewrite length_app; cbn; lia).
  rewrite put_char_middle. cbn [mbind option_bind]. unfold is_text in Hk. rewrite u8_small by lia.
  eexists. split; [reflexivity|]. split; cbn [l_out l_length l_position l_term].
  - by exists rest.
  - rewrite <- E2, E1, !length_app. cbn. lia.
  - rewrite length_app. cbn. lia.
  - lia.
  - rewrite length_app. cbn. lia.
  - apply Forall_app in E6 as [Ha Hb]. apply Forall_app. split; [done|]. constructor; done.
  - destruct echo; [|done]. specialize (Hlim eq_refl).
    replace (Z.to_nat _) with (length (key :: b)) by (cbn [length]; lia). rewrite <- app_assoc, echo_loop_put.
    pose proof (at_line_write bg s0 _ _ (key :: b) _ E7 ltac:(rewrite length_app; lia) ltac:(apply Forall_app in E6 as [_ Hb]; by constructor)
      ltac:(cbn [length]; lia)) as Hw.
    rewrite take_app_length, drop_ge, app_nil_r in Hw by (rewrite length_app; cbn [length]; lia). cbn [andb].
    destruct (Z.ltb_spec (Z.of_nat (length a) + 1) (Z.of_nat (length a + length b) + 1)) as [Hb|Hb].
    + replace (Z.of_nat (length a) + 1 - _) with (Z.of_nat (S (length a)) - Z.of_nat (length a + length (key :: b))) by (cbn [length]; lia).
      apply at_line_move; [exact Hw|rewrite length_app; cbn; lia].
    + destruct b; [|cbn in Hb; lia]. cbn [length] in Hw. by replace (S (length a)) with (length a + 1)%nat by lia.
Qed.

Lemma readline_key_ok key l p ln : edits l p ln -> key <> 13 -> (S (length l) < size)%nat ->
  (echo = true -> Z.of_nat (length l) < RORTHOX_READLINE_ECHO_LIMIT) -> exists ln',
  readline_key echo key ln = Some ln' /\ let '(l', p') := edit key l p in edits l' p' ln'.
Proof.
  intros E Hk Hs Hlim. unfold readline_key. pose proof (move_key_ok key l p ln E) as Em. set (ln1 := move_key echo key ln) in *. clearbody ln1.
  destruct (Z.eqb_spec key 8) as [->|H8]; [apply (erase_key_ok 8 l p); [exact Em|by left]|].
  destruct (Z.eqb_spec key RORTHOX_KEY_DELETE) as [->|Hd]; [apply (erase_key_ok RORTHOX_KEY_DELETE l p); [exact Em|by right]|].
  cbn [orb]. unfold move_of in Em. unfold edit. rewrite (proj2 (Z.eqb_neq key 8) H8), (proj2 (Z.eqb_neq _ _) Hd).
  destruct ((key <=? 0) || (255 <? key) || (key =? 10)) eqn:Et.
  - exists ln1. split; [done|]. assert (Hn : bool_decide (1 <= key <= 255) && negb (key =? 10) = false).
    { case_bool_decide; [|done]. destruct (key =? 10); [done|]. exfalso. rewrite orb_false_r in Et. apply orb_true_iff in Et as [Et%Z.leb_le|Et%Z.ltb_lt]; lia. }
    rewrite Hn. repeat case_match; simplify_eq; done.
  - apply orb_false_iff in Et as [[E1%Z.leb_gt E2%Z.ltb_ge]%orb_false_iff E3%Z.eqb_neq].
    rewrite bool_decide_true by lia. unfold RORTHOX_KEY_LEFT, RORTHOX_KEY_RIGHT, RORTHOX_KEY_HOME, RORTHOX_KEY_END in *.
    rewrite !(proj2 (Z.eqb_neq key _)) in Em |- * by lia. rewrite (proj2 (Z.eqb_neq key 10) E3). cbn [andb negb].
    apply insert_key_ok; [done|unfold is_text; lia|done|done].
Qed.

(** Keys that are no keys. *)
Lemma edit_keys_block capacity l p keys : (length l < capacity)%nat -> edit_keys capacity keys l p =
  match rorthox_getkeyblock keys with
  | None => (l, p, None)
  | Some (key, keys) => if key =? 13 then (l, p, Some keys) else let '(l, p) := edit key l p in edit_keys capacity keys l p
  end.
Proof.
  intros Hl. induction keys as [|key keys IH]; cbn [edit_keys rorthox_getkeyblock]; rewrite (proj2 (Nat.ltb_lt _ _) Hl); [done|].
  destruct (Z.eqb_spec key 0) as [->|Hk]; [|done]. exact IH.
Qed.

Lemma getkeyblock_shorter keys key rest : rorthox_getkeyblock keys = Some (key, rest) -> (length rest < length keys)%nat.
Proof.
  induction keys as [|k keys IH]; cbn [rorthox_getkeyblock length]; [done|].
  destruct (k =? 0); [intros E; apply IH in E; lia|]. intros [= _ <-]. lia.
Qed.

Lemma readline_loop_ok capacity rounds : (capacity < size)%nat -> (echo = true -> Z.of_nat capacity <= RORTHOX_READLINE_ECHO_LIMIT) ->
  forall keys l p ln, (length keys <= rounds)%nat -> edits l p ln -> let '(l', p', rest) := edit_keys capacity keys l p in
  exists ln', readline_loop rounds echo (Z.of_nat capacity) keys ln = Some (ln', rest) /\ edits l' p' ln'.
Proof.
  intros Hsize Hlim. induction rounds as [|rounds IH]; intros keys l p ln Hr E; cbn [readline_loop]; rewrite (ed_length _ _ _ E).
  all: destruct (Z.ltb_spec (Z.of_nat (length l)) (Z.of_nat capacity)) as [Hl|Hl].
  2,4: destruct keys; cbn [edit_keys]; rewrite (proj2 (Nat.ltb_ge _ _)) by lia; by exists ln.
  - destruct keys; [|cbn in Hr; lia]. cbn [edit_keys rorthox_getkeyblock]. rewrite (proj2 (Nat.ltb_lt _ _)) by lia. by exists ln.
  - rewrite edit_keys_block by lia. destruct (rorthox_getkeyblock keys) as [[key rest]|] eqn:Eg; [|by exists ln].
    apply getkeyblock_shorter in Eg. destruct (Z.eqb_spec key 13) as [->|Hk]; [by exists ln|].
    destruct (readline_key_ok key l p ln E Hk ltac:(lia)) as (ln1 & -> & E1); [intros He; specialize (Hlim He); lia|].
    cbn [mbind option_bind]. destruct (edit key l p) as [l1 p1]. apply IH; [lia|done].
Qed.
End editing.

(** The room for characters. *)
Definition room (max : Z) (echo : bool) : nat :=
  Z.to_nat (if echo && (RORTHOX_READLINE_ECHO_LIMIT <? max - 1) then RORTHOX_READLINE_ECHO_LIMIT else max - 1).

Lemma cstring_out l rest : Forall is_text l -> cstring (l ++ 0 :: rest) = l.
Proof. intros Hl. apply cstring_terminated. eapply Forall_impl; [exact Hl|]. unfold is_text. intros c. cbn. lia. Qed.

(** C27: reading a line. For every sequence of keys, [rorthox_terminal_readline] edits the line like an editor on a list:
    cursor keys, Home, End, Backspace and Delete, with every other special key and LF ignored. It returns after CR or with
    a full line, never touching a byte outside of the buffer, with exactly the edited line in it, terminated; otherwise it
    waits for a key. With echo, and the line started at any cell of the screen, the screen shows the text before, the line
    from that cell on, also across rows and when it had to scroll, and blanks where characters were removed, with the
    cursor and its register behind the line; without echo the screen is not touched. *)
Theorem readline_edits out max echo keys t bg s0 : 0 < max -> max <= Z.of_nat (length out) -> shows_on bg t s0 -> synced t ->
  let '(l, p, rest) := edit_keys (room max echo) keys [] 0 in
  match rest with
  | Some keys' => exists out' t', rorthox_terminal_readline out max echo keys t = Some (Returned out' keys' t') /\
    length out' = length out /\ cstring out' = l /\ if echo then at_line bg s0 l (length l) t' else t' = t
  | None => exists ln, rorthox_terminal_readline out max echo keys t = Some (Waiting ln) /\ edits bg s0 echo t (length out) l p ln
  end.
Proof.
  intros Hm Hlen Hs Hy. destruct out as [|o out]; [cbn in Hlen; lia|]. unfold rorthox_terminal_readline.
  rewrite (proj2 (Z.leb_gt _ _)) by lia. change (put_char (o :: out) 0 0) with (Some (0 :: out)). cbn [mbind option_bind].
  assert (Hc : (if echo && (RORTHOX_READLINE_ECHO_LIMIT <? max - 1) then RORTHOX_READLINE_ECHO_LIMIT else max - 1) = Z.of_nat (room max echo)).
  { unfold room, RORTHOX_READLINE_ECHO_LIMIT. destruct (echo && _); lia. }
  assert (Hr : (room max echo < length (o :: out))%nat).
  { unfold room, RORTHOX_READLINE_ECHO_LIMIT. destruct (echo && (1023 <? max - 1)) eqn:E; [apply andb_true_iff in E as [_ E%Z.ltb_lt]|]; lia. }
  assert (Hl : echo = true -> Z.of_nat (room max echo) <= RORTHOX_READLINE_ECHO_LIMIT).
  { intros ->. rewrite <- Hc. cbn [andb]. case_Zb; lia. }
  assert (E0 : edits bg s0 echo t (length (o :: out)) [] 0 (Line (0 :: out) 0 0 t)).
  { split; try done; [by exists out|]. destruct echo; [by apply at_line_start|done]. }
  rewrite Hc. pose proof (readline_loop_ok bg s0 echo t _ _ (length keys) Hr Hl keys [] 0%nat _ (le_n _) E0) as Hk.
  destruct (edit_keys (room max echo) keys [] 0) as [[l p] rest]. destruct Hk as (ln & -> & E). cbn [mbind option_bind].
  destruct rest as [keys'|]; [|by exists ln]. eexists _, _. split; [reflexivity|]. split; [apply (ed_size _ _ _ _ _ _ _ _ E)|].
  destruct E as [(rest & E1) E2 E3 E4 E5 E6 E7]. split; [rewrite E1; by apply cstring_out|]. rewrite E4, E3.
  destruct echo; [|done]. cbn [andb]. destruct (Z.ltb_spec (Z.of_nat p) (Z.of_nat (length l))); [by apply at_line_move|].
  by replace (length l) with p by lia.
Qed.

(** The keys a, b, Left, c, Backspace, d, and Return, the first two calls without a key. *)
Lemma readline_edits_witness :
  exists out' t', rorthox_terminal_readline (replicate 16 7) 16 true [0; 0; 97; 98; RORTHOX_KEY_LEFT; 99; 8; 100; 13] boot_tty = Some (Returned out' [] t') /\
  cstring out' = [97; 100; 98].
Proof.
  pose proof (readline_edits (replicate 16 7) 16 true [0; 0; 97; 98; RORTHOX_KEY_LEFT; 99; 8; 100; 13] boot_tty 0 (window boot_tty)
    ltac:(lia) ltac:(rewrite length_replicate; lia) (conj (window_shows _ boot_tty_wf) eq_refl) eq_refl) as Hr.
  change (edit_keys _ _ _ _) with ([97; 100; 98], 2%nat, Some (@nil Z)) in Hr. cbv beta iota in Hr.
  destruct Hr as (out' & t' & E & _ & Ho & _). exists out', t'. exact (conj E Ho).
Defined.
