(* ===== verification/UserLib.v ===== *)
(** * The user library and the shell (programs/stdlib/src, programs/shell/src/shell.c)

    [strtok] and the splitting of a command into its arguments, [printf], and a round of the shell. A program's calls of
    the terminal are those of [Readline.v]; [rorthox_malloc] and [rorthox_system] are the system calls that allocate memory
    and run a command, and are variables here with what the library relies on. The string functions of the library that are
    not here ([strlen], [strncpy], [itoa] and the like) have the same text as the kernel's, in [StrLib.v]. *)

From stdpp Require Import base numbers list strings gmap.
From Stdlib Require Import ZArith Lia.
From S2P Require Import Prelude Effects StrLib Tty Panic Process Keyboard Readline.

#[local] Set Default Goal Selector "!".

(** ** Tokens (string.c) *)

(** The character at an index; the string ends inside of its buffer. *)
Definition char (buf : list Z) (i : nat) : Z := default 0 (buf !! i).

(** Whether the loop over the delimiters finds the character. *)
Definition is_delimiter (delimiters : list Z) (c : Z) : bool := existsb (Z.eqb c) (cstring delimiters).

(** The first [while]: behind the delimiters at [p_start]. *)
Fixpoint skip_delimiters (rounds : nat) (delimiters buf : list Z) (p_start : nat) : nat :=
  match rounds with
  | O => p_start
  | S rounds => if is_delimiter delimiters (char buf p_start) then skip_delimiters rounds delimiters buf (S p_start) else p_start
  end.

(** The second [while]: a delimiter becomes the end of the token. *)
Fixpoint end_token (rounds : nat) (delimiters buf : list Z) (sp : nat) : nat * list Z :=
  match rounds with
  | O => (sp, buf)
  | S rounds =>
    if char buf sp =? 0 then (sp, buf)
    else if is_delimiter delimiters (char buf sp) then (S sp, <[sp := 0]> buf)
    else end_token rounds delimiters buf (S sp)
  end.

(** [sp], the static pointer, and the string are the state; pointers are indexes into the string. *)
Definition strtok (str : option nat) (delimiters : list Z) (state : option nat * list Z) : option nat * (option nat * list Z) :=
  let '(sp, buf) := state in
  match (match str with Some _ => str | None => sp end) with
  | None => (None, (None, buf))
  | Some sp =>
    let p_start := skip_delimiters (S (length buf)) delimiters buf sp in
    if char buf p_start =? 0 then (None, (None, buf))
    else let '(sp, buf) := end_token (S (length buf)) delimiters buf p_start in (Some p_start, (Some sp, buf))
  end.

(** ** Commands (rorthox.c) *)

Definition sizeof_scommand : Z := 1025.
Definition sizeof_argument_node : Z := RORTHOX_COMMAND_ARGUMENT_SIZE + 4.

Record command_argument := CommandArgument { argument : list Z; next : Z }.

Section commands.
Context {W : Type} (rorthox_malloc : Z -> W -> Z * W) (rorthox_system : Z -> gmap Z command_argument -> W -> Z * W).

(** A block of [rorthox_malloc] is zero; [strncpy] into its argument. *)
Definition new_argument (token : list Z) : option command_argument :=
  text ← strncpy (replicate (Z.to_nat RORTHOX_COMMAND_ARGUMENT_SIZE) 0) token RORTHOX_COMMAND_ARGUMENT_SIZE;
  Some (CommandArgument text 0).

Definition link (current new : Z) (store : gmap Z command_argument) : gmap Z command_argument :=
  alter (fun a => CommandArgument (argument a) new) current store.

(** The [while] over the tokens after the first. *)
Fixpoint parse_tokens (rounds : nat) (current : Z) (tokens : option nat * list Z) (store : gmap Z command_argument) (s : W) :
    option (gmap Z command_argument * W) :=
  match rounds with
  | O => None
  | S rounds =>
    let '(token, tokens) := strtok None [32] tokens in
    match token with
    | None => Some (store, s)
    | Some token =>
      let '(new_command, s) := rorthox_malloc sizeof_argument_node s in
      if new_command =? 0 then Some (store, s)
      else
        node ← new_argument (drop token (snd tokens));
        parse_tokens rounds new_command tokens (link current new_command (<[new_command := node]> store)) s
    end
  end.

(** [scommand] is what the stack happens to hold. *)
Definition rorthox_parse_command (scommand command : list Z) (max : Z) (store : gmap Z command_argument) (s : W) :
    option (Z * gmap Z command_argument * W) :=
  if sizeof_scommand <=? max then Some (0, store, s)
  else
    scommand ← strncpy scommand command sizeof_scommand;
    let '(token, tokens) := strtok (Some 0%nat) [32] (None, scommand) in
    match token with
    | None => Some (0, store, s)
    | Some token =>
      let '(root_command, s) := rorthox_malloc sizeof_argument_node s in
      if root_command =? 0 then Some (0, store, s)
      else
        node ← new_argument (drop token (snd tokens));
        '(store, s) ← parse_tokens (Z.to_nat sizeof_scommand) root_command tokens (<[root_command := node]> store) s;
        Some (root_command, store, s)
    end.

Definition rorthox_system_run (buf scommand command : list Z) (store : gmap Z command_argument) (s : W) :
    option (Z * gmap Z command_argument * W) :=
  buf ← strncpy buf command 1024;
  '(root_command_argument, store, s) ← rorthox_parse_command scommand buf 1024 store s;
  if root_command_argument =? 0 then Some (- 1, store, s)
  else let '(res, s) := rorthox_system root_command_argument store s in Some (res, store, s).
End commands.

(** ** The reference: words *)

(** The words of a text, at blanks. *)
Fixpoint words (u : list Z) : list (list Z) :=
  match u with
  | [] => []
  | c :: u =>
    if c =? 32 then words u
    else match u with
         | [] => [[c]]
         | d :: _ => if d =? 32 then [c] :: words u else match words u with w :: ws => (c :: w) :: ws | [] => [[c]] end
         end
  end.

(** What a text without blanks begins. *)
Lemma words_word w u : w <> [] -> Forall (fun c => c <> 32) w -> words (w ++ 32 :: u) = w :: words u /\ words w = [w].
Proof.
  intros Hne Hw. induction Hw as [|c w Hc Hw IH]; [done|]. cbn [app words]. rewrite (proj2 (Z.eqb_neq c 32) Hc).
  destruct w as [|d w]; [done|]. destruct IH as [IH1 IH2]; [done|]. apply Forall_cons in Hw as [Hd _].
  rewrite IH1, IH2. cbn [app]. by rewrite (proj2 (Z.eqb_neq d 32) Hd).
Qed.

Lemma words_length u : (length (words u) <= length u)%nat.
Proof.
  induction u as [|c u IH]; [done|]. cbn [words length]. destruct (c =? 32); [lia|]. destruct u as [|d u]; [done|].
  destruct (d =? 32); [cbn [length] in *; lia|]. destruct (words (d :: u)); cbn [length] in *; lia.
Qed.

(** ** Tokens *)

Lemma blank_delimiter c : is_delimiter [32] c = (c =? 32).
Proof. change (is_delimiter [32] c) with ((c =? 32) || false). apply orb_false_r. Qed.

Lemma char_middle a c rest : char (a ++ c :: rest) (length a) = c.
Proof. unfold char. by rewrite list_lookup_middle. Qed.

(** Behind the blanks. *)
Lemma skip_ok u : forall pre post rounds, (length u < rounds)%nat -> exists pre' v,
  skip_delimiters rounds [32] (pre ++ u ++ 0 :: post) (length pre) = length pre' /\ pre ++ u ++ 0 :: post = pre' ++ v ++ 0 :: post /\
  words v = words u /\ hd 0 v <> 32 /\ exists k, u = k ++ v.
Proof.
  induction u as [|c u IH]; intros pre post [|rounds] Hr; cbn [length] in Hr; [lia| |lia|]; cbn [skip_delimiters app].
  - rewrite char_middle, blank_delimiter. by exists pre, []; repeat split; [|exists []].
  - rewrite char_middle, blank_delimiter. destruct (Z.eqb_spec c 32) as [->|Hc]; [|by exists pre, (c :: u); repeat split; [|exists []]].
    destruct (IH (pre ++ [32]) post rounds ltac:(lia)) as (pre' & v & E1 & E2 & E3 & E4 & k & ->). exists pre', v.
    rewrite <- app_assoc in E1, E2. rewrite length_app, Nat.add_1_r in E1. split; [exact E1|]. split; [exact E2|].
    split; [exact E3|]. split; [done|]. by exists (32 :: k).
Qed.

(** To the end of a word: the end of the text, or a blank that is overwritten. *)
Lemma end_ok w d rest : d = 0 \/ d = 32 -> forall pre rounds, (length w < rounds)%nat -> Forall (fun c => c <> 0 /\ c <> 32) w ->
  end_token rounds [32] (pre ++ w ++ d :: rest) (length pre) =
  if d =? 0 then (length (pre ++ w), pre ++ w ++ d :: rest) else (length (pre ++ w ++ [d]), pre ++ w ++ 0 :: rest).
Proof.
  intros Hd. induction w as [|c w IH]; intros pre [|rounds] Hr Hw; cbn [length] in Hr; [lia| |lia|]; cbn [end_token app].
  - rewrite char_middle, blank_delimiter, app_nil_r. destruct Hd as [->| ->]; [done|]. cbn [Z.eqb Pos.eqb].
    rewrite length_app, Nat.add_1_r. f_equal. rewrite <- (Nat.add_0_r (length pre)). by rewrite insert_app_r.
  - apply Forall_cons in Hw as [[Hc0 Hc] Hw]. rewrite char_middle, blank_delimiter, (proj2 (Z.eqb_neq c 0) Hc0), (proj2 (Z.eqb_neq c 32) Hc).
    specialize (IH (pre ++ [c]) rounds ltac:(lia) Hw). rewrite length_app, Nat.add_1_r in IH. by rewrite <- !app_assoc in IH.
Qed.

Lemma split_word u : exists w rest, u = w ++ rest /\ Forall (fun c => c <> 32) w /\ (rest = [] \/ exists v, rest = 32 :: v).
Proof.
  induction u as [|c u (w & rest & -> & Hw & Hr)]; [exists [], []; auto|]. destruct (Z.eq_dec c 32) as [->|Hc].
  - exists [], (32 :: w ++ rest). split; [done|]. split; [done|]. right. by eexists.
  - exists (c :: w), rest. split; [done|]. split; [by constructor|done].
Qed.

(** A text that has not been read, in a string: what is before it, and behind its end. *)
Definition unread (pre u post buf : list Z) : Prop := buf = pre ++ u ++ 0 :: post /\ Forall (fun c => c <> 0) u.

Lemma unread_length pre u post buf : unread pre u post buf -> (length u < length buf)%nat.
Proof. intros [-> _]. rewrite !length_app. cbn. lia. Qed.

(** [strtok] gives the first word and leaves the others. *)
Lemma strtok_ok str sp pre u post buf : unread pre u post buf -> match str with Some _ => str | None => sp end = Some (length pre) ->
  match words u with
  | [] => strtok str [32] (sp, buf) = (None, (None, buf))
  | w :: ws => exists token pre' u' buf', strtok str [32] (sp, buf) = (Some token, (Some (length pre'), buf')) /\
    cstring (drop token buf') = w /\ unread pre' u' post buf' /\ words u' = ws
  end.
Proof.
  intros U Hsp. pose proof (unread_length _ _ _ _ U) as Hlen. destruct U as [-> Hz]. unfold strtok. rewrite Hsp.
  destruct (skip_ok u pre post (S (length (pre ++ u ++ 0 :: post))) ltac:(lia)) as (pre1 & v & -> & Eb & Ew & Hh & k & ->).
  rewrite Eb, <- Ew. apply Forall_app in Hz as [_ Hz]. destruct (split_word v) as (w & rest & -> & Hw & Hr).
  destruct w as [|c w].
  { destruct Hr as [->|(u' & ->)]; [|by destruct Hh]. cbn [app words]. by rewrite char_middle. }
  cbn [app]. rewrite char_middle. apply Forall_app in Hz as [Hzw Hzr]. rewrite (proj2 (Z.eqb_neq c 0)) by (by apply Forall_cons in Hzw as [? _]).
  assert (Hcw : Forall (fun c => c <> 0 /\ c <> 32) (c :: w)) by (by apply Forall_and).
  assert (Hst : forall t post', t = w ++ 0 :: post' -> cstring (c :: t) = c :: w).
  { intros t post' ->. by apply (cstring_terminated (c :: w)). }
  destruct Hr as [->|(u' & ->)].
  - rewrite app_nil_r. destruct (words_word (c :: w) [] ltac:(done) Hw) as [_ ->]. cbn [app].
    pose proof (end_ok (c :: w) 0 post (or_introl eq_refl) pre1 (S (length (pre1 ++ c :: w ++ 0 :: post)))) as Ee. cbn [app] in Ee.
    rewrite Ee; [|rewrite !length_app; cbn [length]; rewrite length_app; lia|done]. cbn [Z.eqb].
    exists (length pre1), (pre1 ++ c :: w), [], (pre1 ++ c :: w ++ 0 :: post). split; [done|].
    split; [rewrite drop_app_length; by eapply Hst|]. split; [|done]. split; [by rewrite <- app_assoc|done].
  - destruct (words_word (c :: w) u' ltac:(done) Hw) as [E1 _]. cbn [app] in E1. rewrite E1, <- app_assoc. cbn [app].
    pose proof (end_ok (c :: w) 32 (u' ++ 0 :: post) (or_intror eq_refl) pre1 (S (length (pre1 ++ c :: w ++ 32 :: u' ++ 0 :: post)))) as Ee. cbn [app] in Ee.
    rewrite Ee; [|rewrite !length_app; cbn [length]; rewrite length_app; lia|done]. cbn [Z.eqb].
    exists (length pre1), (pre1 ++ c :: w ++ [0]), u', (pre1 ++ c :: w ++ 0 :: u' ++ 0 :: post). split; [f_equal; f_equal; f_equal; rewrite !length_app; cbn; rewrite !length_app; done|].
    split; [rewrite drop_app_length; by eapply Hst|]. split; [|done]. split; [by rewrite <- app_assoc; cbn [app]; rewrite <- app_assoc|]. by apply Forall_cons in Hzr as [_ ?].
Qed.

(** ** Arguments *)

(** A list of arguments in memory, from a pointer on. *)
Fixpoint holds (store : gmap Z command_argument) (p : Z) (args : list (list Z)) : Prop :=
  match args with
  | [] => p = 0
  | w :: args => p <> 0 /\ exists a, store !! p = Some a /\ cstring (argument a) = w /\ holds store (next a) args
  end.

(** What an argument keeps of a word. *)
Definition clip (w : list Z) : list Z := take 511 w.

Lemma cstring_nonzero s : Forall (fun c => c <> 0) (cstring s).
Proof.
  induction s as [|c s IH]; [by vm_compute; constructor|]. rewrite cstring_cons. destruct (Z.eqb_spec c 0); [done|]. by constructor.
Qed.

Lemma strncpy_clip dest src (n : nat) : (S n <= length dest)%nat ->
  exists post, strncpy dest src (Z.of_nat (S n)) = Some (take n (cstring src) ++ 0 :: post) /\ Forall (fun c => c <> 0) (take n (cstring src)).
Proof.
  intros Hn. unfold strncpy. replace (Z.to_nat (Z.of_nat (S n) - 1)) with n by lia. rewrite strncpy_loop_spec. cbv zeta. pose proof (length_take_le (cstring src) n).
  rewrite decide_True by (rewrite length_take; lia). eexists. split; [reflexivity|]. apply Forall_take, cstring_nonzero.
Qed.

Lemma new_argument_ok token : exists text, new_argument token = Some (CommandArgument text 0) /\ cstring text = clip (cstring token).
Proof.
  destruct (strncpy_clip (replicate 512 0) token 511) as (post & E & Hz); [by rewrite length_replicate|].
  unfold new_argument. change (Z.to_nat RORTHOX_COMMAND_ARGUMENT_SIZE) with 512%nat. change RORTHOX_COMMAND_ARGUMENT_SIZE with (Z.of_nat 512).
  rewrite E. eexists. split; [reflexivity|]. by apply cstring_terminated.
Qed.

Section parsing.
Context {W : Type} (rorthox_malloc : Z -> W -> Z * W) (live : W -> gset Z).

(** A block that is not null is new. *)
Definition malloc_new : Prop := forall n s, let '(p, s') := rorthox_malloc n s in
  p = 0 /\ live s' = live s \/ p <> 0 /\ ~ (p ∈ live s) /\ live s' = {[p]} ∪ live s.

(** What every allocation keeps. *)
Context (Hnew : malloc_new) (I : W -> Prop) (Hkeep : forall n s, I s -> I (snd (rorthox_malloc n s))).

(** [k] of [n] words: all, or up to a failed allocation. *)
Definition as_many (k n : nat) : Prop := k = n \/ exists s, fst (rorthox_malloc sizeof_argument_node s) = 0.

Lemma parse_tokens_ok rounds : forall current text pre u post buf store s,
  (length (words u) < rounds)%nat -> unread pre u post buf -> current ∈ live s -> store !! current = Some (CommandArgument text 0) -> I s ->
  exists store' s' q k, parse_tokens rorthox_malloc rounds current (Some (length pre), buf) store s = Some (store', s') /\ I s' /\
  store' !! current = Some (CommandArgument text q) /\ holds store' q (clip <$> take k (words u)) /\ as_many k (length (words u)) /\
  forall p, p ∈ live s -> p <> current -> store' !! p = store !! p.
Proof.
  induction rounds as [|rounds IH]; intros current text pre u post buf store s Hr U Hc Hs HI; [lia|]. cbn [parse_tokens].
  pose proof (strtok_ok None (Some (length pre)) pre u post buf U eq_refl) as Ht. destruct (words u) as [|w ws] eqn:Ew.
  { rewrite Ht. exists store, s, 0, 0%nat. repeat split; try done. by left. }
  destruct Ht as (token & pre' & u' & buf' & -> & Hw & U' & Ews). cbn [snd length] in *. pose proof (Hnew sizeof_argument_node s) as Hn.
  pose proof (Hkeep sizeof_argument_node s HI) as HI1. destruct (rorthox_malloc sizeof_argument_node s) as [q s1] eqn:Em. destruct (Z.eqb_spec q 0) as [->|Hq].
  { exists store, s1, 0, 0%nat. repeat split; try done. right. exists s. by rewrite Em. }
  destruct Hn as [[? _]|(_ & Hf & Hlive)]; [done|]. assert (Hcq : current <> q) by (by intros ->).
  destruct (new_argument_ok (drop token buf')) as (t & -> & Et). cbn [mbind option_bind]. rewrite Hw in Et.
  assert (Hl : link current q (<[q:=CommandArgument t 0]> store) !! q = Some (CommandArgument t 0)).
  { unfold link. rewrite lookup_alter_ne by done. apply lookup_insert_eq. }
  destruct (IH q t pre' u' post buf' (link current q (<[q:=CommandArgument t 0]> store)) s1) as (store' & s' & q' & k & -> & HI2 & E1 & E2 & E3 & E4);
    [rewrite Ews; lia|done|set_solver|done|exact HI1|].
  exists store', s', q, (S k). split; [done|]. split; [done|]. split; [|split; [|split]].
  - rewrite E4 by set_solver. unfold link. rewrite lookup_alter_eq, lookup_insert_ne by done. by rewrite Hs.
  - cbn [take fmap list_fmap holds]. split; [done|]. exists (CommandArgument t q'). rewrite <- Ews. by rewrite E1.
  - rewrite Ews in E3. destruct E3 as [->|Hx]; [by left|by right].
  - intros p Hp Hpc. rewrite E4 by set_solver. unfold link. rewrite lookup_alter_ne by done. apply lookup_insert_ne. set_solver.
Qed.

Lemma parse_command_ok scommand command max store s : max < sizeof_scommand -> (1025 <= length scommand)%nat -> I s ->
  exists root store' s' k, rorthox_parse_command rorthox_malloc scommand command max store s = Some (root, store', s') /\ I s' /\
  holds store' root (clip <$> take k (words (take 1024 (cstring command)))) /\ as_many k (length (words (take 1024 (cstring command)))) /\
  forall p, p ∈ live s -> store' !! p = store !! p.
Proof.
  intros Hm Hl HI. unfold rorthox_parse_command. rewrite (proj2 (Z.leb_gt _ _)) by done.
  destruct (strncpy_clip scommand command 1024 ltac:(lia)) as (post & Ec & Hz). change sizeof_scommand with (Z.of_nat 1025). rewrite Ec. cbn [mbind option_bind].
  set (u := take 1024 (cstring command)) in *. assert (Hu : (length u <= 1024)%nat) by (unfold u; rewrite length_take; lia). clearbody u.
  pose proof (strtok_ok (Some 0%nat) None [] u post (u ++ 0 :: post) (conj eq_refl Hz) eq_refl) as Ht. pose proof (words_length u) as Hwl.
  destruct (words u) as [|w ws] eqn:Ew; [rewrite Ht; exists 0, store, s, 0%nat; repeat split; try done; by left|].
  destruct Ht as (token & pre' & u' & buf' & -> & Hw & U' & Ews). cbn [snd length] in *. pose proof (Hnew sizeof_argument_node s) as Hn.
  pose proof (Hkeep sizeof_argument_node s HI) as HI1. destruct (rorthox_malloc sizeof_argument_node s) as [q s1] eqn:Em. destruct (Z.eqb_spec q 0) as [->|Hq].
  { exists 0, store, s1, 0%nat. repeat split; try done. right. exists s. by rewrite Em. }
  destruct Hn as [[? _]|(_ & Hf & Hlive)]; [done|]. destruct (new_argument_ok (drop token buf')) as (t & -> & Et). cbn [mbind option_bind].
  destruct (parse_tokens_ok (Z.to_nat (Z.of_nat 1025)) q t pre' u' post buf' (<[q:=CommandArgument t 0]> store) s1) as (store' & s' & q' & k & -> & HI2 & E1 & E2 & E3 & E4);
    [rewrite Ews; lia|done|set_solver|apply lookup_insert_eq|exact HI1|]. cbn [mbind option_bind].
  exists q, store', s', (S k). split; [done|]. split; [done|]. split; [|split].
  - cbn [take fmap list_fmap holds]. split; [done|]. exists (CommandArgument t q'). rewrite <- Ews, E1. split; [done|]. by rewrite <- Hw.
  - rewrite Ews in E3. destruct E3 as [->|Hx]; [by left|by right].
  - intros p Hp. assert (p <> q) by (by intros ->). rewrite E4 by set_solver. by apply lookup_insert_ne.
Qed.
End parsing.

(** ** The shell (shell.c) *)

Section shell.
Context {W : Type} (rorthox_malloc : Z -> W -> Z * W).
Context (rorthox_system : Z -> gmap Z command_argument -> W * tty -> Z * (W * tty)).

(** An allocation does not touch the screen. *)
Definition malloc_beside (n : Z) (s : W * tty) : Z * (W * tty) := let '(p, w) := rorthox_malloc n (fst s) in (p, (w, snd s)).

(** A round of the loop of [main], with what the stack holds in the buffers; [None] for the keys: it waits for one. *)
Definition shell_round (buf run_buf scommand keys : list Z) (store : gmap Z command_argument) (s : W * tty) :
    option (option (list Z) * gmap Z command_argument * (W * tty)) :=
  let '(w, t) := s in
  typed ← rorthox_terminal_readline buf 1024 true keys (print (literal "> ") t);
  match typed with
  | Waiting l => Some (None, store, (w, l_term l))
  | Returned buf keys t =>
    let t := print [10] t in
    '(_, store, s) ← rorthox_system_run malloc_beside rorthox_system run_buf scommand buf store (w, t);
    Some (Some keys, store, s)
  end.

Lemma malloc_beside_new live : malloc_new rorthox_malloc live -> malloc_new malloc_beside (fun s => live (fst s)).
Proof. intros Hn n [w t]. unfold malloc_beside. cbn [fst snd]. specialize (Hn n w). by destruct (rorthox_malloc n w) as [p w']. Qed.

Lemma as_many_beside k n : as_many malloc_beside k n -> as_many rorthox_malloc k n.
Proof.
  intros [->|([w t] & E)]; [by left|right]. exists w. unfold malloc_beside in E. cbn [fst snd] in E. by destruct (rorthox_malloc _ w).
Qed.

(** A command is run with its words. *)
Lemma system_run_ok live buf scommand command store s :
  malloc_new rorthox_malloc live -> (1024 <= length buf)%nat -> (1025 <= length scommand)%nat -> exists root store' s' k,
  rorthox_system_run malloc_beside rorthox_system buf scommand command store s =
    (if root =? 0 then Some (- 1, store', s') else let '(res, s) := rorthox_system root store' s' in Some (res, store', s)) /\
  snd s' = snd s /\ holds store' root (clip <$> take k (words (take 1023 (cstring command)))) /\
  as_many rorthox_malloc k (length (words (take 1023 (cstring command)))) /\ forall p, p ∈ live (fst s) -> store' !! p = store !! p.
Proof.
  intros Hn Hb Hs. unfold rorthox_system_run. destruct (strncpy_clip buf command 1023 Hb) as (post & E & Hz). change (Z.of_nat 1024) with 1024 in E.
  rewrite E. cbn [mbind option_bind]. set (u := take 1023 (cstring command)) in *.
  assert (Ec : take 1024 (cstring (u ++ 0 :: post)) = u).
  { rewrite cstring_terminated by done. apply take_ge. unfold u. rewrite length_take. lia. }
  destruct (parse_command_ok malloc_beside (fun s => live (fst s)) (malloc_beside_new live Hn) (fun s' => snd s' = snd s)
    ltac:(intros n [w t] Ht; unfold malloc_beside; cbn [fst snd] in *; by destruct (rorthox_malloc n w)) scommand (u ++ 0 :: post) 1024 store s ltac:(done) Hs eq_refl)
    as (root & store' & s' & k & -> & Es & H1 & H2%as_many_beside & H3). rewrite Ec in H1, H2.
  exists root, store', s', k. cbn [mbind option_bind]. done.
Qed.
End shell.

Lemma edit_keys_length capacity keys : forall l p, (length l <= capacity)%nat -> (length (fst (fst (edit_keys capacity keys l p))) <= capacity)%nat.
Proof.
  assert (He : forall key l p, (length (fst (edit key l p)) <= S (length l))%nat).
  { intros key l p. unfold edit. repeat case_match; cbn [fst]; rewrite ?delete_take_drop, ?length_app; cbn [length];
      rewrite ?length_take, ?length_drop; lia. }
  induction keys as [|key keys IH]; intros l p Hl; cbn [edit_keys]; destruct (Nat.ltb_spec (length l) capacity); try done.
  destruct (key =? 13); [done|]. specialize (He key l p). destruct (edit key l p) as [l' p']. cbn [fst] in He. apply IH. lia.
Qed.

(** C28: a round of the shell, from the keys to the command. After the prompt, the keys up to Return edit a line, which is on
    the screen behind the prompt, and the words of that line, and nothing else, are the arguments in the list that the
    shell passes to the system call: each cut to 511 characters, all of them unless an allocation has failed, in new blocks
    of its memory with every other block as it was. Without a word nothing is run. No buffer is overrun on the way. *)
Theorem shell_runs_line {W} (rorthox_malloc : Z -> W -> Z * W) rorthox_system live buf run_buf scommand keys l p keys' store w t bg s0 :
  malloc_new rorthox_malloc live -> (1024 <= length buf)%nat -> (1024 <= length run_buf)%nat -> (1025 <= length scommand)%nat ->
  shows_on bg t s0 -> synced t -> edit_keys 1023 keys [] 0 = (l, p, Some keys') ->
  exists t1 root store' w' k,
  at_line bg (screen_string bg 15 (literal "> ") s0) l (length l) t1 /\
  holds store' root (clip <$> take k (words l)) /\ as_many rorthox_malloc k (length (words l)) /\
  (forall q, q ∈ live w -> store' !! q = store !! q) /\
  let s := (w', print [10] t1) in
  shell_round rorthox_malloc rorthox_system buf run_buf scommand keys store (w, t) =
    Some (Some keys', store', if root =? 0 then s else snd (rorthox_system root store' s)).
Proof.
  intros Hn Hb Hrb Hsc Hs Hy He. destruct (writechars_shows bg 15 (literal "> ") t s0 Hs) as [Hp Hpy]. specialize (Hpy Hy).
  pose proof (readline_edits buf 1024 true keys (print (literal "> ") t) bg _ ltac:(lia) ltac:(lia) Hp Hpy) as Hr.
  change (room 1024 true) with 1023%nat in Hr. pose proof (edit_keys_length 1023 keys [] 0 ltac:(cbn; lia)) as Hlen.
  rewrite He in Hr, Hlen. cbn [fst] in Hlen. destruct Hr as (out' & t1 & Er & _ & <- & Ha).
  destruct (system_run_ok rorthox_malloc rorthox_system live run_buf scommand out' store (w, print [10] t1) Hn Hrb Hsc) as (root & store' & [w' t'] & k & Es & Et & Hh & Hm & Hk).
  cbn [fst snd] in Et, Hk. subst t'. rewrite (take_ge (cstring out')) in Hh, Hm by lia.
  exists t1, root, store', w', k. split; [exact Ha|]. split; [done|]. split; [done|]. split; [done|]. cbv zeta.
  unfold shell_round. rewrite Er. cbn [mbind option_bind]. rewrite Es. destruct (root =? 0); [done|].
  by destruct (rorthox_system root store' (w', print [10] t1)) as [res s].
Qed.

(** Blocks one after the other, of which none fails. *)
Definition next_block (n : Z) (w : Z) : Z * Z := (4096 * (Z.max w 0 + 1), Z.max w 0 + 1).
Definition blocks (w : Z) : gset Z := list_to_set ((fun i => 4096 * i) <$> seqZ 1 (Z.max w 0)).

Lemma next_block_new : malloc_new next_block blocks.
Proof.
  intros n w. unfold next_block, blocks. right. split; [lia|]. split.
  - intros Hin. apply elem_of_list_to_set, list_elem_of_fmap in Hin as (i & Ei & Hi). apply elem_of_seqZ in Hi. lia.
  - rewrite (Z.max_l (Z.max w 0 + 1)) by lia. apply set_eq. intros x. rewrite elem_of_union, elem_of_singleton, !elem_of_list_to_set, !list_elem_of_fmap.
    setoid_rewrite elem_of_seqZ. split.
    + intros (i & -> & Hi). destruct (Z.eq_dec i (Z.max w 0 + 1)) as [->|]; [by left|right]. exists i. lia.
    + intros [->|(i & -> & Hi)]; [exists (Z.max w 0 + 1); lia|exists i; lia].
Qed.

(** The command [ls  a], with two blanks. *)
Lemma shell_runs_line_witness : exists root store', holds store' root [[108; 115]; [97]] /\
  shell_round next_block (fun root _ s => (0, s)) (replicate 1024 7) (replicate 1024 7) (replicate 1025 7) [108; 115; 32; 32; 97; 13] ∅ (0, boot_tty) <> None.
Proof.
  destruct (shell_runs_line next_block (fun root _ s => (0, s)) blocks (replicate 1024 7) (replicate 1024 7) (replicate 1025 7)
    [108; 115; 32; 32; 97; 13] [108; 115; 32; 32; 97] 5 [] ∅ 0 boot_tty 0 (window boot_tty) next_block_new
    ltac:(by rewrite length_replicate) ltac:(by rewrite length_replicate) ltac:(by rewrite length_replicate)
    (conj (window_shows _ boot_tty_wf) eq_refl) eq_refl eq_refl) as (t1 & root & store' & w' & k & _ & Hh & Hm & _ & E).
  exists root, store'. destruct Hm as [->|(s & Hs)]; [|exfalso; unfold next_block in Hs; cbn [fst] in Hs; lia].
  split; [exact Hh|]. rewrite E. done.
Defined.

(** ** Formatted output (stdio.c) *)

Definition lib_putchar (c : Z) (t : tty) : tty := rorthox_putchar c t.

(** A format that ends in a percent sign is read behind its end: [None]. So is a call with too few arguments. *)
Fixpoint lib_printf (format : list Z) (ap : list va_arg) (t : tty) : option tty :=
  match format with
  | [] => Some t
  | c :: p =>
    if c =? 0 then Some t
    else if negb (c =? 37) then lib_printf p ap (lib_putchar c t)
    else match p with
         | [] => None
         | c :: p =>
           if c =? 0 then None
           else if c =? 105 then match ap with VaInt ival :: ap => lib_printf p ap (print (itoa ival) t) | _ => None end
           else if c =? 115 then match ap with VaStr (Some sval) :: ap => lib_printf p ap (print sval t) | _ => None end
           else lib_printf p ap (lib_putchar c t)
         end
  end.

(** The text of a format that is a list of pieces. *)
Inductive piece := PText (c : Z) | PInt (i : Z) | PStr (s : list Z) | PEscape (c : Z).

Definition piece_ok (x : piece) : Prop :=
  match x with
  | PText c => 1 <= c <= 255 /\ c <> 37
  | PInt i => - 2 ^ 31 <= i < 2 ^ 31
  | PStr s => True
  | PEscape c => 1 <= c <= 255 /\ c <> 105 /\ c <> 115
  end.
Definition piece_format (x : piece) : list Z := match x with PText c => [c] | PInt _ => [37; 105] | PStr _ => [37; 115] | PEscape c => [37; c] end.
Definition piece_args (x : piece) : list va_arg := match x with PInt i => [VaInt i] | PStr s => [VaStr (Some s)] | _ => [] end.
Definition piece_text (x : piece) : list Z := match x with PText c | PEscape c => [c] | PInt i => itoa i | PStr s => cstring s end.

(** [printf] writes the text of its format: literal characters, decimal numbers for [%i], strings for [%s] and the
    character itself behind every other percent sign. *)
Theorem lib_printf_shows bg l t s : Forall piece_ok l -> shows_on bg t s ->
  exists t', lib_printf (concat (piece_format <$> l)) (concat (piece_args <$> l)) t = Some t' /\
  shows_on bg t' (screen_string bg 15 (concat (piece_text <$> l)) s).
Proof.
  intros Hl. revert t s. induction Hl as [|x l Hx _ IH]; intros t s Hs; [by exists t|].
  assert (Hchar : forall c, 1 <= c <= 255 -> shows_on bg (lib_putchar c t) (screen_string bg 15 [c] s)).
  { intros c Hc. unfold lib_putchar, rorthox_putchar. rewrite u8_small by lia. apply (writechar_shows bg c 15 t s Hs). }
  cbn [fmap list_fmap concat]. rewrite screen_string_app. destruct x as [c|i|str|c]; cbn [piece_ok piece_format piece_args piece_text app] in *; cbn [lib_printf].
  - rewrite (proj2 (Z.eqb_neq c 0)), (proj2 (Z.eqb_neq c 37)) by lia. apply IH, Hchar. lia.
  - apply IH, print_shows; [by apply itoa_nonzero|done].
  - apply IH, (writechars_shows bg 15 str t s Hs).
  - change (37 =? 0) with false. change (negb (37 =? 37)) with false. cbv iota. rewrite (proj2 (Z.eqb_neq c 0)), (proj2 (Z.eqb_neq c 105)), (proj2 (Z.eqb_neq c 115)) by lia.
    apply IH, Hchar. lia.
Qed.

Lemma lib_printf_trailing t : lib_printf [37] [] t = None.
Proof. done. Qed.
