(* ===== verification/Syscall.v ===== *)
(** * System calls (kernel/isr80h/isr80h.c, io.c, heap.c, misc.c, process.c, file.c; kernel/idt/idt.c)

    Each command is a computation on the system and the terminal. A command gives a value for the caller, or leaves the
    kernel through another task and never returns. The local variables that the checked copies fill are places on the
    kernel's stack, parameters of the model. *)

From stdpp Require Import base numbers list gmap.
From Stdlib Require Import ZArith Lia.
From S2P Require Import Prelude Alloc Heap Memory Paging Sched Effects Disk StrLib PathParser Fat FatWrite FatProps.
From S2P Require Import FatDir FatDirScan FatOpen FatMount Vfs Elf UserMem Process AddrSpace ProcLoad ProcArgs ProcLife.
From S2P Require Import System Isolation Tty Keyboard.

#[local] Set Default Goal Selector "!".

Definition RORTHOX_MAX_ISR80H_COMMANDS : Z := 1024.
Definition FILE_TRANSFER_SIZE : Z := 4096.
Definition sizeof_command_argument : Z := 516.
Definition sizeof_rorthox_file_stat : Z := 8.

(** The places of a handler's locals: words, and the largest of its buffers and structs. *)
Record locals := Locals { word0 : Z; word1 : Z; word2 : Z; area : Z }.

(** How a command ends. *)
Inductive control := CReturn (result : Z) | CEnter (o : next_outcome).

Inductive command :=
| Sum | Print | Getkey | Putchar | Malloc | Free | ProcessLoadStart | InvokeSystemCommand | GetProgramArguments | Exit
| Printc | TerminalMoveCursor | Sleep | FileOpen | FileRead | FileWrite | FileSeek | FileStat | FileClose | GetTicks.

#[export] Instance command_eq_dec : EqDecision command.
Proof. solve_decision. Defined.

(** ** The command table (isr80h.c, idt.c) *)

(** [None] is the panic. *)
Definition isr80h_register_command (command_id : Z) (c : command) (table : gmap Z command) : option (gmap Z command) :=
  if (command_id <? 0) || (RORTHOX_MAX_ISR80H_COMMANDS <=? command_id) then None
  else
    match table !! command_id with
    | Some _ => None
    | None => Some (<[command_id := c]> table)
    end.

Definition isr80h_register_commands (t : gmap Z command) : option (gmap Z command) :=
  t ← isr80h_register_command 0 Sum t;
  t ← isr80h_register_command 1 Print t;
  t ← isr80h_register_command 2 Getkey t;
  t ← isr80h_register_command 3 Putchar t;
  t ← isr80h_register_command 4 Malloc t;
  t ← isr80h_register_command 5 Free t;
  t ← isr80h_register_command 6 ProcessLoadStart t;
  t ← isr80h_register_command 7 InvokeSystemCommand t;
  t ← isr80h_register_command 8 GetProgramArguments t;
  t ← isr80h_register_command 9 Exit t;
  t ← isr80h_register_command 10 Printc t;
  t ← isr80h_register_command 11 TerminalMoveCursor t;
  t ← isr80h_register_command 12 Sleep t;
  t ← isr80h_register_command 13 FileOpen t;
  t ← isr80h_register_command 14 FileRead t;
  t ← isr80h_register_command 15 FileWrite t;
  t ← isr80h_register_command 16 FileSeek t;
  t ← isr80h_register_command 17 FileStat t;
  t ← isr80h_register_command 18 FileClose t;
  isr80h_register_command 19 GetTicks t.

Section syscalls.
Context {D H : Type} `{BlockDevice D} `{Allocator H}.
(** The locals, what the stack holds where the path is built, and the interrupts of the idle loop. *)
Context (loc : locals) (stack : list Z) (halts : list (list irq)).

(** The system, the terminal, and the state of the keyboard driver. *)
Record mach := Mach { msys : sys D H; mtty : tty; mkeyboard : kybd }.
Local Abbreviation mio := (io mach).

(** ** Access to the parts *)

Definition mmem (m : mach) : mem := kmem (skern (msys m)).
Definition with_mkern (k : kern D H) (m : mach) : mach := Mach (with_skern k (msys m)) (mtty m) (mkeyboard m).
Definition with_mmem (mm : mem) (m : mach) : mach := with_mkern (with_kmem mm (skern (msys m))) m.
Definition with_msched (c : sched) (m : mach) : mach := Mach (with_ssched c (msys m)) (mtty m) (mkeyboard m).

Definition on_sys {A} (c : io (sys D H) A) : mio A := fun m => let '(r, s) := c (msys m) in (r, Mach s (mtty m) (mkeyboard m)).
Definition on_tty (f : tty -> tty) : mio unit := modify (fun m => Mach (msys m) (f (mtty m)) (mkeyboard m)).

(** A call that changes memory and gives a status. *)
Definition on_mem (f : sys D H -> mem -> Z * mem) : mio Z := fun m =>
  let '(res, mm) := f (msys m) (mmem m) in status res (with_mmem mm m).

Definition task_current (s : sys D H) : option task :=
  if current_task (ssched s) =? 0 then None else task_store (ssched s) !! current_task (ssched s).

(** [task_current()->process] *)
Definition current_process_ptr : mio Z := fun m =>
  match task_current (msys m) with
  | Some t => (Ok (process t), m)
  | None => panic m
  end.

(** An operation on the struct of the process at [ptr] with the kernel's memory; the directory in the processor and the
    page directory of its task are at hand. *)
Definition on_process {A} (ptr : Z) (c : Z -> Z -> io (pst (D := D) (H := H)) A) : mio A := fun m =>
  match procs (msys m) !! ptr with
  | None => panic m
  | Some p =>
    let s := msys m in
    let chunk := default 0 (page_directory <$> task_store (ssched s) !! proc_task p) in
    let '(r, (p, k)) := c (current_directory (cpu (ssched s))) chunk (p, skern s) in
    (r, Mach (put_process ptr p k s) (mtty m) (mkeyboard m))
  end.

(** [uint32_t x = 0;] *)
Definition declare (a : Z) : mio unit := modify (fun m => with_mmem (store32 (mmem m) a 0) m).

(** [task_get_stack_item(task_current(), index, &x)], then the value of [x]. *)
Definition stack_item (index a : Z) : mio Z :=
  _ ← on_mem (fun s mm => task_get_stack_item (procs s) mm (task_current s) index a);
  gets (fun m => load32 (mmem m) a).

(** [copy_string_from_task(task_current(), virtual, buf, max)], then the bytes of [buf]. *)
Definition user_string (virtual max : Z) : mio (list Z) :=
  _ ← on_mem (fun s mm => copy_string_from_task (procs s) mm (task_current s) virtual (area loc) max);
  gets (fun m => bytes_at (mmem m) (area loc) (Z.to_nat max)).

(** Any status for an error, but not the stop of the machine. *)
Definition tolerate {A} (c : mio A) : mio (option A) := fun m =>
  match c m with
  | (Ok a, m) => (Ok (Some a), m)
  | (Err e, m) => if e <? 0 then (Ok None, m) else (Err e, m)
  end.

(** ** misc.c and io.c *)

Definition isr80h_command0_sum : mio control :=
  _ ← declare (word0 loc);
  _ ← declare (word1 loc);
  v1 ← stack_item 0 (word0 loc);
  v2 ← stack_item 1 (word1 loc);
  mret (CReturn (u32 (v1 + v2))).

Definition isr80h_command19_get_ticks : mio control :=
  ticks ← gets (fun m => pit_get_ticks (ssched (msys m))); mret (CReturn ticks).

Definition isr80h_command1_print : mio control :=
  _ ← declare (word0 loc);
  user_space_msg_buffer ← stack_item 0 (word0 loc);
  buf ← user_string user_space_msg_buffer 1024;
  _ ← on_tty (print buf);
  mret (CReturn 0).

Definition isr80h_command11_printc : mio control :=
  _ ← declare (word0 loc);
  color ← stack_item 1 (word0 loc);
  _ ← fail_if (VGA_COLOR_WHITE <? color) EINVARG;
  _ ← declare (word1 loc);
  user_space_msg_buffer ← stack_item 0 (word1 loc);
  buf ← user_string user_space_msg_buffer 1024;
  _ ← on_tty (printc buf color);
  mret (CReturn 0).

Definition isr80h_command2_getkey : mio control := fun m =>
  match keyboard_pop (msys m) with
  | Some (key, s) => (Ok (CReturn key), Mach s (mtty m) (mkeyboard m))
  | None => panic m
  end.

Definition isr80h_command3_putchar : mio control :=
  _ ← declare (word0 loc);
  c ← stack_item 0 (word0 loc);
  _ ← on_tty (terminal_writechar (u8 c) 15);
  mret (CReturn 0).

Definition isr80h_command_terminal_move_cursor : mio control :=
  _ ← declare (word0 loc);
  delta ← stack_item 0 (word0 loc);
  res ← ((fun m => let '(res, t) := terminal_move_cursor (i32 delta) (mtty m) in (Ok res, Mach (msys m) t (mkeyboard m))) : mio Z);
  mret (CReturn (u32 res)).

(** ** heap.c *)

Definition isr80h_command4_malloc : mio control :=
  _ ← declare (word0 loc);
  r ← tolerate (stack_item 0 (word0 loc));
  match r with
  | None => mret (CReturn 0)
  | Some size =>
    p ← current_process_ptr;
    ptr ← on_process p (fun cur chunk => process_malloc cur chunk size);
    mret (CReturn ptr)
  end.

Definition isr80h_command5_free : mio control :=
  _ ← declare (word0 loc);
  ptr_to_free ← stack_item 0 (word0 loc);
  p ← current_process_ptr;
  _ ← on_process p (fun cur chunk => modify (process_free cur chunk ptr_to_free));
  mret (CReturn 0).

(** ** process.c *)

(** [0:/] and [0:/bin/]. *)
Definition program_search_paths : list (list Z) := [[48; 58; 47]; [48; 58; 47; 98; 105; 110; 47]].

(** [strcpy(path, prefix); strncpy(path + prefix_length, name, sizeof(path) - prefix_length);] *)
Definition join_path (prefix name : list Z) (prefix_length : Z) : option (list Z) :=
  path ← strcpy stack prefix;
  rest ← strncpy (drop (Z.to_nat prefix_length) path) name (RORTHOX_MAX_PATH - prefix_length);
  Some (take (Z.to_nat prefix_length) path ++ rest).

Fixpoint load_program_loop (prefixes : list (list Z)) (name : list Z) (name_length : Z) (arguments : option (list (list Z)))
  : io (sys D H) Z :=
  match prefixes with
  | [] => fail EIO
  | prefix :: prefixes =>
    let prefix_length := strnlen prefix RORTHOX_MAX_PATH in
    if (RORTHOX_MAX_PATH <=? prefix_length) || (RORTHOX_MAX_PATH - prefix_length <=? name_length)
    then load_program_loop prefixes name name_length arguments
    else
      match join_path prefix name prefix_length with
      | None => panic
      | Some path => fun s =>
        match process_load_with_arguments path arguments s with
        | (Ok p, s) => (Ok p, s)
        | (Err e, s) => if e =? - ENOENT then load_program_loop prefixes name name_length arguments s else (Err e, s)
        end
      end
  end.

(** The address of the new process. *)
Definition isr80h_load_program (name : list Z) (arguments : option (list (list Z))) : io (sys D H) Z :=
  let name_length := strnlen name RORTHOX_MAX_PATH in
  let bare := (0 <? name_length) && forallb (fun c => negb ((c =? 47) || (c =? 58))) (take (Z.to_nat name_length) name) in
  load_program_loop (if bare then program_search_paths else [[48; 58; 47]]) name name_length arguments.

(** The kernel is left for the task, or stops. *)
Definition leave (o : option next_outcome) : mio control := fun m =>
  match o with
  | Some (NextRun p r c) => (Ok (CEnter (NextRun p r c)), with_msched c m)
  | Some (NextHalted c) => (Ok (CEnter (NextHalted c)), with_msched c m)
  | Some NextPanic | None => panic m
  end.

(** [process_switch(process); task_switch(process->task); task_return(&process->task->registers);] *)
Definition enter_process (ptr : Z) : mio control :=
  _ ← modify (fun m => Mach (process_switch ptr (msys m)) (mtty m) (mkeyboard m));
  o ← gets (fun m => p ← procs (msys m) !! ptr;
                     c ← task_switch (mmem m) (proc_task p) (ssched (msys m));
                     task_return (proc_task p) c);
  leave o.

Definition isr80h_command6_process_load_start : mio control :=
  _ ← declare (word0 loc);
  r ← tolerate (filename_user_ptr ← stack_item 0 (word0 loc); user_string filename_user_ptr RORTHOX_MAX_PATH);
  match r with
  | None => mret (CReturn 0)
  | Some filename =>
    _ ← fail_if (RORTHOX_MAX_PATH <? 3 + strnlen filename RORTHOX_MAX_PATH + 1) EINVARG;
    r ← tolerate (on_sys (isr80h_load_program filename None));
    match r with
    | None => mret (CReturn 0)
    | Some process => enter_process process
    end
  end.

(** The rounds from [count] on; 32 are enough, since the next one is refused. *)
Fixpoint copy_arguments_loop (n : nat) (arguments address count : Z) : mio unit :=
  if address =? 0 then mret tt
  else if RORTHOX_MAX_COMMAND_ARGUMENTS <=? count then fail EINVARG
  else
    match n with
    | O => diverge
    | S n =>
      let argument := arguments + count * sizeof_command_argument in
      _ ← on_mem (fun s mm => task_copy_from_user (procs s) mm (task_current s) argument address sizeof_command_argument);
      text ← gets (fun m => bytes_at (mmem m) argument (Z.to_nat RORTHOX_COMMAND_ARGUMENT_SIZE));
      _ ← fail_if (strnlen text RORTHOX_COMMAND_ARGUMENT_SIZE =? RORTHOX_COMMAND_ARGUMENT_SIZE) EINVARG;
      address ← gets (fun m => load32 (mmem m) (argument + RORTHOX_COMMAND_ARGUMENT_SIZE));
      _ ← modify (fun m => with_mmem (store32 (mmem m) (argument + RORTHOX_COMMAND_ARGUMENT_SIZE) 0) m);
      _ ← modify (fun m =>
            if 0 <? count
            then with_mmem (store32 (mmem m) (argument - sizeof_command_argument + RORTHOX_COMMAND_ARGUMENT_SIZE) argument) m
            else m);
      copy_arguments_loop n arguments address (count + 1)
    end.

Definition release (ptr : Z) (m : mach) : mach := with_mkern (krelease ptr (skern (msys m))) m.

Definition isr80h_copy_command_arguments (address : Z) : mio Z :=
  _ ← fail_if (address =? 0) EINVARG;
  arguments ← ((fun m => let '(ptr, k) := kalloc (RORTHOX_MAX_COMMAND_ARGUMENTS * sizeof_command_argument) (skern (msys m)) in
                         (Ok ptr, with_mkern k m)) : mio Z);
  _ ← fail_if (arguments =? 0) ENOMEM;
  _ ← on_error (copy_arguments_loop (Z.to_nat RORTHOX_MAX_COMMAND_ARGUMENTS) arguments address 0) (release arguments);
  mret arguments.

(** The nodes of a list of arguments, [n] at most. *)
Fixpoint argument_chain (n : nat) (mm : mem) (ptr : Z) : list (list Z) :=
  match n with
  | O => []
  | S n =>
    if ptr =? 0 then []
    else bytes_at mm ptr (Z.to_nat RORTHOX_COMMAND_ARGUMENT_SIZE) ::
           argument_chain n mm (load32 mm (ptr + RORTHOX_COMMAND_ARGUMENT_SIZE))
  end.

(** [task_copy_from_user(task, &x, task->registers.esp, sizeof(x))], then [x]. *)
Definition stack_top (a : Z) : mio Z :=
  _ ← on_mem (fun s mm => task_copy_from_user (procs s) mm (task_current s) a
                            (default 0 (r_esp ∘ regs <$> task_current s)) 4);
  gets (fun m => load32 (mmem m) a).

Definition isr80h_command7_invoke_system_command : mio control :=
  _ ← declare (word0 loc);
  root ← stack_top (word0 loc);
  arguments ← isr80h_copy_command_arguments root;
  program_name ← gets (fun m => bytes_at (mmem m) arguments (Z.to_nat RORTHOX_COMMAND_ARGUMENT_SIZE));
  if (default 0 (program_name !! 0%nat) =? 0) ||
     (RORTHOX_MAX_PATH <? 3 + strnlen program_name RORTHOX_COMMAND_ARGUMENT_SIZE + 1)
  then
    _ ← modify (release arguments);
    fail EINVARG
  else
    chain ← gets (fun m => argument_chain (S (Z.to_nat RORTHOX_MAX_COMMAND_ARGUMENTS)) (mmem m) arguments);
    process ← finally (on_sys (isr80h_load_program program_name (Some chain))) (release arguments);
    enter_process process.

Definition isr80h_command8_get_program_arguments : mio control :=
  _ ← declare (word0 loc);
  destination ← stack_top (word0 loc);
  p ← current_process_ptr;
  args ← on_process p (fun _ _ => gets (fun st => arguments (fst st)));
  _ ← modify (fun m => with_mmem (store32 (store32 (mmem m) (area loc) (argc args)) (area loc + 4) (argv args)) m);
  _ ← on_mem (fun s mm => task_copy_to_user (procs s) mm (task_current s) destination (area loc) 8);
  mret (CReturn 0).

(** The keys of the idle loop go to their handler, and the kernel is left. *)
Definition press_keys (keys : list Z) : mio unit := fun m =>
  match handle_bytes keyboard_push keys (mkeyboard m) (msys m) with
  | Some (k, s) => (Ok tt, Mach s (mtty m) k)
  | None => panic m
  end.

Definition leave_idle (r : option (next_outcome * list Z)) : mio control :=
  match r with
  | Some (o, keys) => _ ← press_keys keys; leave (Some o)
  | None => panic
  end.

(** [task_next();], which does not return. *)
Definition next_task : mio control := r ← gets (fun m => task_next (mmem m) halts (ssched (msys m))); leave_idle r.

Definition isr80h_command9_exit : mio control :=
  p ← current_process_ptr;
  _ ← tolerate (on_sys (process_terminate p));
  next_task.

Definition set_eax (v : Z) (t : task) : task :=
  let r := regs t in
  set_regs (Registers (r_edi r) (r_esi r) (r_ebp r) (r_ebx r) (r_edx r) (r_ecx r) v (r_ip r) (r_cs r) (r_flags r) (r_esp r)
              (r_ss r)) t.

Definition isr80h_command_sleep : mio control :=
  _ ← declare (word0 loc);
  milliseconds ← stack_item 0 (word0 loc);
  _ ← fail_if (INT_MAX <? milliseconds) EINVARG;
  if milliseconds =? 0 then mret (CReturn 0)
  else
    deadline ← gets (fun m => u32 (pit_get_ticks (ssched (msys m)) + pit_ms_to_ticks milliseconds));
    r ← gets (fun m => let c := ssched (msys m) in
                       c ← update (current_task c) (set_eax 0) c; task_sleep_until (mmem m) deadline halts c);
    leave_idle r.

(** ** file.c *)

(** [task_get_stack_item(...) < 0] with any error for [-EINVARG]. *)
Definition operand (index a : Z) : mio Z :=
  r ← tolerate (stack_item index a);
  match r with Some v => mret v | None => fail EINVARG end.

Definition on_files {A} (c : io (vfs D H) A) : mio A := fun m =>
  let k := skern (msys m) in
  let '(r, v) := c (kfiles k) in (r, with_mkern (Kern v (kmem k)) m).

Definition isr80h_command_file_open : mio control :=
  _ ← declare (word0 loc);
  _ ← declare (word1 loc);
  path_address ← operand 0 (word0 loc);
  mode ← operand 1 (word1 loc);
  _ ← fail_if (FILE_MODE_APPEND <? mode) EINVARG;
  _ ← on_mem (fun s mm => task_copy_path_from_user (procs s) mm (task_current s) path_address (area loc) RORTHOX_MAX_PATH);
  path ← gets (fun m => bytes_at (mmem m) (area loc) (Z.to_nat RORTHOX_MAX_PATH));
  p ← current_process_ptr;
  handle ← on_process p (fun _ _ => process_open_file path mode);
  mret (CReturn (u32 handle)).

(** One transfer through the buffer; the number of bytes. *)
Definition transfer_write (fd buffer address chunk : Z) : mio Z :=
  _ ← on_mem (fun s mm => task_copy_from_user (procs s) mm (task_current s) buffer address chunk);
  data ← gets (fun m => bytes_at (mmem m) buffer (Z.to_nat chunk));
  on_files (file_write fd buffer data).

Definition transfer_read (fd buffer address chunk : Z) : mio Z :=
  bs ← on_files (file_read fd buffer chunk);
  _ ← modify (fun m => with_mmem (store_bytes (mmem m) buffer bs) m);
  let res := Z.of_nat (length bs) in
  _ ← (if 0 <? res
       then on_mem (fun s mm => task_copy_to_user (procs s) mm (task_current s) address buffer res)
       else mret 0);
  mret res.

(** [process_file_descriptor(task->process, (int)handle)] *)
Definition user_descriptor (handle : Z) : mio Z :=
  p ← current_process_ptr; on_process p (fun _ _ => process_file_descriptor (i32 handle)).

Definition isr80h_file_transfer (write : bool) : mio Z :=
  _ ← declare (word0 loc);
  _ ← declare (word1 loc);
  _ ← declare (word2 loc);
  handle ← operand 0 (word0 loc);
  address ← operand 1 (word1 loc);
  count ← operand 2 (word2 loc);
  _ ← fail_if (INT_MAX <? count) EINVARG;
  fd ← user_descriptor handle;
  res ← on_files (if write then file_write fd 0 [] else bs ← file_read fd 0 0; mret (Z.of_nat (length bs)));
  if count =? 0 then mret res
  else
    span ← gets (fun m => task_validate_user_span (procs (msys m)) (mmem m) (task_current (msys m)) address count (negb write));
    _ ← status span;
    buffer ← ((fun m => let k := skern (msys m) in
                        let '(ptr, h) := kmalloc (kheap k) FILE_TRANSFER_SIZE in (Ok ptr, with_mkern (with_kheap h k) m)) : mio Z);
    _ ← fail_if (buffer =? 0) ENOMEM;
    let chunk := if FILE_TRANSFER_SIZE <? count then FILE_TRANSFER_SIZE else count in
    finally (if write then transfer_write fd buffer address chunk else transfer_read fd buffer address chunk) (release buffer).

Definition isr80h_command_file_read : mio control := res ← isr80h_file_transfer false; mret (CReturn (u32 res)).
Definition isr80h_command_file_write : mio control := res ← isr80h_file_transfer true; mret (CReturn (u32 res)).

Definition isr80h_command_file_seek : mio control :=
  _ ← declare (word0 loc);
  _ ← declare (word1 loc);
  _ ← declare (word2 loc);
  handle ← operand 0 (word0 loc);
  offset ← operand 1 (word1 loc);
  whence ← operand 2 (word2 loc);
  fd ← user_descriptor handle;
  res ← on_files (file_seek fd (i32 offset) whence);
  mret (CReturn (u32 res)).

Definition isr80h_command_file_stat : mio control :=
  _ ← declare (word0 loc);
  _ ← declare (word1 loc);
  handle ← operand 0 (word0 loc);
  address ← operand 1 (word1 loc);
  fd ← user_descriptor handle;
  span ← gets (fun m => task_validate_user_span (procs (msys m)) (mmem m) (task_current (msys m)) address
                          sizeof_rorthox_file_stat true);
  _ ← status span;
  '(filesize, flags) ← on_files (fstat fd);
  _ ← modify (fun m => with_mmem (store32 (store32 (mmem m) (area loc) flags) (area loc + 4) filesize) m);
  res ← on_mem (fun s mm => task_copy_to_user (procs s) mm (task_current s) address (area loc) sizeof_rorthox_file_stat);
  mret (CReturn (u32 res)).

Definition isr80h_command_file_close : mio control :=
  _ ← declare (word0 loc);
  handle ← operand 0 (word0 loc);
  p ← current_process_ptr;
  res ← on_process p (fun _ _ => process_close_file (i32 handle));
  mret (CReturn (u32 res)).

(** ** The handler (idt.c) *)

Definition run_command (c : command) : mio control :=
  match c with
  | Sum => isr80h_command0_sum
  | Print => isr80h_command1_print
  | Getkey => isr80h_command2_getkey
  | Putchar => isr80h_command3_putchar
  | Malloc => isr80h_command4_malloc
  | Free => isr80h_command5_free
  | ProcessLoadStart => isr80h_command6_process_load_start
  | InvokeSystemCommand => isr80h_command7_invoke_system_command
  | GetProgramArguments => isr80h_command8_get_program_arguments
  | Exit => isr80h_command9_exit
  | Printc => isr80h_command11_printc
  | TerminalMoveCursor => isr80h_command_terminal_move_cursor
  | Sleep => isr80h_command_sleep
  | FileOpen => isr80h_command_file_open
  | FileRead => isr80h_command_file_read
  | FileWrite => isr80h_command_file_write
  | FileSeek => isr80h_command_file_seek
  | FileStat => isr80h_command_file_stat
  | FileClose => isr80h_command_file_close
  | GetTicks => isr80h_command19_get_ticks
  end.

(** [return ERROR(res)]: a status is a value for the caller. *)
Definition answer (c : mio control) : mio control := fun m =>
  match c m with
  | (Err e, m) => if e <? 0 then (Ok (CReturn (u32 e)), m) else (Err e, m)
  | r => r
  end.

Definition isr80h_handle_command (table : gmap Z command) (c : Z) : mio control :=
  if (c <? 0) || (RORTHOX_MAX_ISR80H_COMMANDS <=? c) then mret (CReturn 0)
  else
    match table !! c with
    | None => mret (CReturn 0)
    | Some command => answer (run_command command)
    end.

Definition on_sched (f : mem -> sched -> option sched) : mio unit := fun m =>
  match f (mmem m) (ssched (msys m)) with
  | Some c => (Ok tt, with_msched c m)
  | None => panic m
  end.

(** A command that returns goes back to the caller's address space. *)
Definition isr80h_handler (table : gmap Z command) (c : Z) (frame : interrupt_frame) : mio control :=
  _ ← on_sched (fun mm s => Some (kernel_page mm s));
  _ ← on_sched (fun _ s => task_current_save_state frame s);
  res ← isr80h_handle_command table c;
  match res with
  | CReturn v => _ ← on_sched task_page; mret (CReturn v)
  | CEnter o => mret (CEnter o)
  end.
End syscalls.

Arguments mach D H : clear implicits.
Arguments Mach {D H}.
