(* ===== verification/SysFrame.v ===== *)
(** * What a system call leaves alone

    The kernel runs for one process. Each step it takes in a system call keeps the table of processes well formed, the
    memory and the structs of the other processes, and what was allocated before all of them. *)

From stdpp Require Import base numbers list gmap.
From Stdlib Require Import ZArith Lia.
From S2P Require Import Prelude Alloc Heap Memory Paging Sched Effects Disk StrLib PathParser Fat FatWrite FatProps.
From S2P Require Import FatDir FatDirScan FatOpen FatMount Vfs Elf UserMem Process AddrSpace ProcLoad ProcArgs ProcLife.
From S2P Require Import System Isolation Tty Keyboard Syscall.

#[local] Set Default Goal Selector "!".

Section frames.
Context {D H : Type} `{BlockDeviceLaws D} `{AllocatorLaws H} (F : filesystem D H) `{!FilesystemLaws F}.
Implicit Types (s : sys D H) (x y : member) (l : list member).
Context (A0 : gmap Z Z) (h0 : H).
Local Abbreviation memory s := (kmem (skern s)).
Local Abbreviation heap_of s := (kheap (skern s)).

(** From [s] with the processes [l] to [s'] with [l'], on behalf of the process at [ptr]. *)
Record undisturbed (ptr : Z) s l s' l' : Prop := Undisturbed {
  un_old q n : A0 !! q = Some n -> same_on (memory s) (memory s') q (q + 4096 * n);
  un_chunk : kernel_chunk (ssched s') = kernel_chunk (ssched s);
  un_other y : y ∈ l -> mb_ptr y <> ptr -> y ∈ l' /\ mb_cells (memory s') y = mb_cells (memory s) y /\
    forall q n, q ∈ mb_cells (memory s) y -> run (heap_of s) q n ->
      run (heap_of s') q n /\ same_on (memory s) (memory s') q (q + 4096 * n)
}.

Lemma undisturbed_refl ptr s l : undisturbed ptr s l s l.
Proof.
  split; [intros; apply same_on_refl|done|]. intros y Hy _. split; [done|]. split; [done|]. intros q n _ Hq.
  split; [done|apply same_on_refl].
Qed.

Lemma undisturbed_trans ptr s1 l1 s2 l2 s3 l3 :
  undisturbed ptr s1 l1 s2 l2 -> undisturbed ptr s2 l2 s3 l3 -> undisturbed ptr s1 l1 s3 l3.
Proof.
  intros [O1 C1 Y1] [O2 C2 Y2]. split; [|congruence|].
  - intros q n Hq. eapply same_on_trans; [by apply O1|by apply O2].
  - intros y Hy Hp. destruct (Y1 y Hy Hp) as (Hy2 & E1 & R1). destruct (Y2 y Hy2 Hp) as (Hy3 & E2 & R2).
    split; [done|]. split; [congruence|]. intros q n Hq Hn. destruct (R1 q n Hq Hn) as [Hn2 M1].
    rewrite <- E1 in Hq. destruct (R2 q n Hq Hn2) as [Hn3 M2]. split; [done|]. by eapply same_on_trans.
Qed.

(** Nothing the processes have was there before them. *)
Lemma old_not_cell s l q n : system F A0 h0 s l -> A0 !! q = Some n -> q ∉ all_cells (memory s) l.
Proof.
  intros S Hq Hin. destruct (sy_owns _ _ _ _ _ S) as (_ & B & _ & _ & Hd & _ & He & _).
  apply He in Hin. rewrite (map_disjoint_Some_l _ _ _ _ Hd Hq) in Hin. by destruct Hin.
Qed.

Lemma old_run s l q n : system F A0 h0 s l -> A0 !! q = Some n -> run (heap_of s) q n.
Proof. intros S Hq. by eapply owned_old; [exact (sy_owns _ _ _ _ _ S)|]. Qed.

Lemma middle_in l1 x l2 : x ∈ l1 ++ x :: l2.
Proof. apply elem_of_app. right. apply list_elem_of_here. Qed.

Lemma member_cells m l x q : x ∈ l -> q ∈ mb_cells m x -> q ∈ all_cells m l.
Proof. intros Hx Hq. apply elem_of_cells. by exists x. Qed.

(** The process at [fg] may have got keys. *)
Definition keyed (fg : Z) y y' : Prop :=
  y' = y \/ mb_ptr y = fg /\ exists b, y' = Member (mb_ptr y) (with_keyboard b (mb_proc y)) (mb_chunk y).

Lemma keyed_trans fg l1 l2 l3 : Forall2 (keyed fg) l1 l2 -> Forall2 (keyed fg) l2 l3 -> Forall2 (keyed fg) l1 l3.
Proof.
  intros H12. revert l3. induction H12 as [|y1 y2 l1 l2 K12 _ IH]; intros l3 H23; inversion H23 as [|y2' y3 l2' l3' K23 Hr E1 E2]; subst; constructor; [|by apply IH].
  destruct K12 as [->|(E & b & ->)]; [done|]. destruct K23 as [->|(_ & b' & ->)]; right; (split; [done|]); [by exists b|by exists b'].
Qed.

Lemma keyed_refl fg l : Forall2 (keyed fg) l l.
Proof. apply Forall_Forall2_diag, Forall_forall. intros y _. by left. Qed.

(** ** Changes to one process *)

(** Memory outside the process is kept, and so are the tasks. *)
Record local_change s x s' (p' : proc) : Prop := LocalChange {
  lc_heap : heap_of s' = heap_of s;
  lc_files : kfiles (skern s') = kfiles (skern s);
  lc_memory q n : run (heap_of s) q n -> q ∉ mb_cells (memory s) x -> same_on (memory s) (memory s') q (q + 4096 * n);
  lc_procs : procs s' = <[mb_ptr x := p']> (procs s);
  lc_slots : slots s' = slots s;
  lc_current : current_process s' = current_process s;
  lc_chunk : kernel_chunk (ssched s') = kernel_chunk (ssched s);
  lc_sched ts : sched_wf (ssched s) ts -> sched_wf (ssched s') ts;
  lc_tasks q t : task_store (ssched s) !! q = Some t -> exists t', task_store (ssched s') !! q = Some t' /\ same_task t t';
  lc_cur : current_directory (cpu (ssched s')) = 0 \/ is_Some (A0 !! current_directory (cpu (ssched s')));
  lc_pid : pid p' = pid (mb_proc x);
  lc_task : proc_task p' = proc_task (mb_proc x)
}.

Lemma change_others s l1 x l2 s' p' y :
  system F A0 h0 s (l1 ++ x :: l2) -> local_change s x s' p' -> y ∈ l1 ++ l2 ->
  member_ok s' y /\ mb_cells (memory s') y = mb_cells (memory s) y /\
  forall q n, q ∈ mb_cells (memory s) y -> run (heap_of s) q n -> same_on (memory s) (memory s') q (q + 4096 * n).
Proof.
  intros S C Hy. destruct (system_focus F A0 h0 s l1 x l2 S) as (A & k0 & ts1 & ts2 & task & Fo).
  destruct (focus_other F A0 h0 _ _ _ _ _ _ _ _ _ _ S Fo Hy) as (Hp & _ & _ & _).
  assert (Hm : forall q n, q ∈ mb_cells (memory s) y -> run (heap_of s) q n -> same_on (memory s) (memory s') q (q + 4096 * n)).
  { intros q n Hq Hn. apply (lc_memory _ _ _ _ C); [done|]. intros Hx. apply (fo_apart _ _ _ _ _ _ _ _ _ _ _ Fo q Hx). by eapply member_cells. }
  destruct (member_kept s s' y) as [Ho Hc]; [by apply (sy_members _ _ _ _ _ S), focus_member| | | | |by split].
  - intros q n Hq Hn. split; [by rewrite (lc_heap _ _ _ _ C)|by apply Hm].
  - rewrite (lc_procs _ _ _ _ C). by rewrite lookup_insert_ne.
  - by rewrite (lc_slots _ _ _ _ C).
  - intros t. apply (lc_tasks _ _ _ _ C).
Qed.

Lemma change_keeps s l1 x l2 s' p' :
  let x' := Member (mb_ptr x) p' (mb_chunk x) in
  system F A0 h0 s (l1 ++ x :: l2) -> local_change s x s' p' -> member_ok s' x' ->
  mb_cells (memory s') x' = mb_cells (memory s) x ->
  system F A0 h0 s' (l1 ++ x' :: l2) /\ undisturbed (mb_ptr x) s (l1 ++ x :: l2) s' (l1 ++ x' :: l2).
Proof.
  intros x' S C Ox Hcx. pose proof (fun y Hy => change_others s l1 x l2 s' p' y S C Hy) as Hoth.
  assert (Hf : forall {X} (f : member -> X), f x' = f x -> map f (l1 ++ x' :: l2) = map f (l1 ++ x :: l2))
    by (intros X f Ef; rewrite !List.map_app; cbn [map]; by rewrite Ef).
  assert (Hcells : all_cells (memory s') (l1 ++ x' :: l2) = all_cells (memory s) (l1 ++ x :: l2)).
  { rewrite !all_cells_app. change (all_cells (memory s') (x' :: l2)) with (mb_cells (memory s') x' ++ all_cells (memory s') l2).
    change (all_cells (memory s) (x :: l2)) with (mb_cells (memory s) x ++ all_cells (memory s) l2). rewrite Hcx.
    rewrite !(all_cells_ext (memory s) (memory s')) by (intros y Hy; apply Hoth, elem_of_app; auto). done. }
  split; [|split].
  - constructor; rewrite ?(lc_slots _ _ _ _ C), ?(lc_current _ _ _ _ C), ?(lc_heap _ _ _ _ C), ?(lc_files _ _ _ _ C),
      ?(Hf _ mb_ptr eq_refl), ?Hcells; try apply S.
    + intros y [Hy|[->|Hy]%elem_of_cons]%elem_of_app; [apply Hoth, elem_of_app; by left|done|apply Hoth, elem_of_app; by right].
    + unfold kowns. rewrite (lc_heap _ _ _ _ C). apply (sy_owns _ _ _ _ _ S).
    + destruct (sy_sched _ _ _ _ _ S) as (ts & W & Hts). exists ts. split; [by apply (lc_sched _ _ _ _ C)|].
      by rewrite (Hf _ (fun x => proc_task (mb_proc x)) (lc_task _ _ _ _ C)).
    + intros q [c Hq]. rewrite (lc_procs _ _ _ _ C) in Hq. apply lookup_insert_Some in Hq as [[<- _]|[_ Hq]];
        [apply list_elem_of_fmap_2, middle_in|apply (sy_procs _ _ _ _ _ S); by exists c].
    + intros i q Hi Hq. destruct (sy_slot _ _ _ _ _ S i q Hi Hq) as (y & Hy & Ey & Hpid).
      apply elem_of_app in Hy as [Hy|[->|Hy]%elem_of_cons]; [exists y; split; [apply elem_of_app; by left|done]| |].
      * exists x'. split; [apply middle_in|]. split; [done|]. cbn [mb_proc x']. by rewrite (lc_pid _ _ _ _ C).
      * exists y. split; [apply elem_of_app; right; by apply list_elem_of_further|done].
    + apply (lc_cur _ _ _ _ C).
  - intros q n Hq. apply (lc_memory _ _ _ _ C); [by eapply old_run|]. intros Hin.
    apply (old_not_cell s _ q n S Hq). eapply member_cells; [apply middle_in|done].
  - apply (lc_chunk _ _ _ _ C).
  - intros y Hy Hp. assert (Hy' : y ∈ l1 ++ l2) by (apply (cons_middle_other _ x); [done|by intros ->]).
    destruct (Hoth y Hy') as (_ & Ec & Hm). split; [apply (focus_member l1 x' l2), Hy'|]. split; [done|].
    intros q n Hq Hn. split; [by rewrite (lc_heap _ _ _ _ C)|by apply Hm].
Qed.

(** The steps that change neither the struct nor the tables of the process. *)
Definition with_smem (m : mem) s : sys D H := with_skern (with_kmem m (skern s)) s.

Lemma member_split s l x : system F A0 h0 s l -> x ∈ l -> exists l1 l2, l = l1 ++ x :: l2 /\ member_ok s x.
Proof.
  intros S Hx. pose proof (sy_members _ _ _ _ _ S x Hx) as Ox. by apply list_elem_of_split in Hx as (l1 & l2 & ->); eauto.
Qed.

Lemma smem_change s l x m :
  system F A0 h0 s l -> x ∈ l ->
  (forall q n, run (heap_of s) q n -> q ∉ mb_cells (memory s) x -> same_on (memory s) m q (q + 4096 * n)) ->
  local_change s x (with_smem m s) (mb_proc x).
Proof.
  intros S Hx Hm. destruct (sy_members _ _ _ _ _ S x Hx). constructor; try done.
  - cbn. by rewrite insert_id.
  - intros q t Hq. exists t. by split.
  - apply (sy_cur _ _ _ _ _ S).
Qed.

Lemma cells_same s m x :
  member_ok s x -> (forall q n, q ∈ mb_cells (memory s) x -> run (heap_of s) q n -> same_on (memory s) m q (q + 4096 * n)) ->
  mb_cells m x = mb_cells (memory s) x.
Proof.
  intros Ox Hm. destruct (member_kept s (with_smem m s) x Ox) as [_ Hc]; [|done|done|intros t Ht; by exists t|done].
  intros q n Hq Hn. split; [done|by apply Hm].
Qed.

Lemma member_eta x : Member (mb_ptr x) (mb_proc x) (mb_chunk x) = x.
Proof. by destruct x. Qed.

(** Memory that is not on the heap. *)
Lemma stack_keeps s l x m :
  system F A0 h0 s l -> x ∈ l -> (forall q n, run (heap_of s) q n -> same_on (memory s) m q (q + 4096 * n)) ->
  system F A0 h0 (with_smem m s) l /\ undisturbed (mb_ptr x) s l (with_smem m s) l.
Proof.
  intros S Hx Hm. destruct (member_split s l x S Hx) as (l1 & l2 & E & Ox).
  destruct (member_kept s (with_smem m s) x Ox) as [Ox' Hc]; [intros q n _ Hn; split; [done|by apply Hm]|done|done|intros t Ht; by exists t|].
  pose proof (smem_change s l x m S Hx (fun q n Hn _ => Hm q n Hn)) as C. rewrite E in S |- *.
  pose proof (change_keeps s l1 x l2 (with_smem m s) (mb_proc x)) as K. cbv zeta in K. rewrite member_eta in K. by apply K.
Qed.

(** The pages of the process. *)
Lemma pages_keeps s l x m :
  system F A0 h0 s l -> x ∈ l ->
  (forall q n, run (heap_of s) q n -> q ∉ mb_cells (memory s) x -> same_on (memory s) m q (q + 4096 * n)) ->
  space (heap_of s) m (mb_chunk x) (load32 (memory s) (mb_chunk x)) (mb_proc x) ->
  table_pages m (load32 (memory s) (mb_chunk x)) = table_pages (memory s) (load32 (memory s) (mb_chunk x)) ->
  system F A0 h0 (with_smem m s) l /\ undisturbed (mb_ptr x) s l (with_smem m s) l.
Proof.
  intros S Hx Hm SP Ht. destruct (member_split s l x S Hx) as (l1 & l2 & E & Ox).
  pose proof (smem_change s l x m S Hx Hm) as C. pose proof (sp_chunk _ _ _ _ _ SP) as Hd. rewrite E in S |- *.
  pose proof (change_keeps s l1 x l2 (with_smem m s) (mb_proc x)) as K. cbv zeta in K. rewrite member_eta in K. apply K; [done|done| |].
  - destruct Ox as [Hp Hsl Htk _ Hpr Hc Hf Hid]. constructor; [exact Hp|exact Hsl|exact Htk|cbn; by rewrite Hd|exact Hpr|exact Hc|exact Hf|exact Hid].
  - unfold mb_cells, mb_base. cbn. by rewrite Hd, Ht.
Qed.

(** The scheduler. *)
Lemma sched_keeps s l x c :
  system F A0 h0 s l -> x ∈ l -> kernel_chunk c = kernel_chunk (ssched s) ->
  (forall ts, sched_wf (ssched s) ts -> sched_wf c ts) ->
  (forall q t, task_store (ssched s) !! q = Some t -> exists t', task_store c !! q = Some t' /\ same_task t t') ->
  current_directory (cpu c) = 0 \/ is_Some (A0 !! current_directory (cpu c)) ->
  system F A0 h0 (with_ssched c s) l /\ undisturbed (mb_ptr x) s l (with_ssched c s) l.
Proof.
  intros S Hx Hk Hw Ht Hcur. destruct (member_split s l x S Hx) as (l1 & l2 & E & Ox).
  destruct (member_kept s (with_ssched c s) x Ox) as [Ox' Hc];
    [intros q n _ Hn; split; [done|apply same_on_refl]|done|done|intros t; apply Ht|]. rewrite E in S |- *.
  pose proof (change_keeps s l1 x l2 (with_ssched c s) (mb_proc x)) as K. cbv zeta in K. rewrite member_eta in K.
  apply K; [done| |done|done]. destruct Ox. constructor; try done. cbn. by rewrite insert_id.
Qed.

(** The keyboard buffer. *)
Lemma keyboard_keeps s l x b :
  system F A0 h0 s l -> x ∈ l ->
  let s' := with_procs (<[mb_ptr x := with_keyboard b (mb_proc x)]> (procs s)) s in
  exists l', system F A0 h0 s' l' /\ undisturbed (mb_ptr x) s l s' l' /\ Member (mb_ptr x) (with_keyboard b (mb_proc x)) (mb_chunk x) ∈ l' /\
    Forall2 (keyed (mb_ptr x)) l l'.
Proof.
  intros S Hx s'. destruct (member_split s l x S Hx) as (l1 & l2 & E & Ox). rewrite E in S |- *.
  exists (l1 ++ Member (mb_ptr x) (with_keyboard b (mb_proc x)) (mb_chunk x) :: l2). refine ((fun K => conj (proj1 K) (conj (proj2 K) (conj (middle_in _ _ _) _))) _).
  { apply Forall2_app; [apply keyed_refl|]. constructor; [right; split; [done|by exists b]|apply keyed_refl]. }
  apply (change_keeps s l1 x l2 s' (with_keyboard b (mb_proc x))); [done| | |done].
  - constructor; try done; [intros q t Hq; by exists t|apply (sy_cur _ _ _ _ _ S)].
  - destruct Ox as [Hp Hsl Ht SP Hpr Hc Hf Hid]. constructor; [by apply lookup_insert_eq|exact Hsl|exact Ht| |exact Hpr|exact Hc|exact Hf|exact Hid].
    destruct SP. constructor; try done. intros r Hr. destruct (sp_program r Hr). by constructor.
Qed.

(** ** Loading and ending *)

Lemma update_chunk q f c c' : update q f c = Some c' -> kernel_chunk c' = kernel_chunk c.
Proof. unfold update. destruct (task_store c !! q); [|done]. by intros [= <-]. Qed.

Lemma update_if_chunk (b : bool) q f c c' : (if b then Some c else update q f c) = Some c' -> kernel_chunk c' = kernel_chunk c.
Proof. destruct b; [by intros [= <-]|apply update_chunk]. Qed.

Lemma task_publish_chunk q c c' : task_publish q c = Some c' -> kernel_chunk c' = kernel_chunk c.
Proof.
  unfold task_publish. destruct (_ =? _); [by intros [= <-]|]. intros (c1 & E1 & (c2 & E2 & [= <-])%bind_Some)%bind_Some.
  rewrite <- (update_chunk _ _ _ _ E1). exact (update_chunk _ _ _ _ E2).
Qed.

Lemma task_list_remove_chunk q c c' : task_list_remove q c = Some c' -> kernel_chunk c' = kernel_chunk c.
Proof.
  unfold task_list_remove. intros (t & _ & (c1 & E1%update_if_chunk & (c2 & E2%update_if_chunk & E)%bind_Some)%bind_Some)%bind_Some.
  rewrite <- E1, <- E2. cbv zeta in E. apply bind_Some in E as (c3 & E3%update_chunk & E4%update_chunk). rewrite E4, E3.
  by destruct (_ =? current_task _), (_ =? task_tail _), (_ =? task_head _).
Qed.

Lemma load_chunk filename slot args s :
  kernel_chunk (ssched (snd (process_load_for_slot_with_arguments filename slot args s))) = kernel_chunk (ssched s).
Proof.
  unfold process_load_for_slot_with_arguments. destruct (_ || _); [done|]. destruct (negb _); [done|].
  destruct (kalloc _ _) as [q k]. destruct (q =? 0); [done|]. destruct (load_process _ _ _ _ _ _) as [[u|e] x]; [|by destruct (e <? 0)].
  unfold process_publish. destruct (ltask x) as [[t task]|]; [|done]. destruct (task_publish _ _) as [c|] eqn:E; [|done].
  apply task_publish_chunk in E. exact E.
Qed.

Lemma load_undisturbed s l filename slot args r s' ptr :
  system F A0 h0 s l -> process_load_for_slot_with_arguments filename slot args s = (r, s') ->
  cpu (ssched s') = cpu (ssched s) /\
  match r with
  | Ok q => exists x, mb_ptr x = q /\ system F A0 h0 s' (l ++ [x]) /\ undisturbed ptr s l s' (l ++ [x])
  | Err e => e < 0 /\ system F A0 h0 s' l /\ undisturbed ptr s l s' l /\ exists n, ssched s' = with_tasks n (ssched s)
  end.
Proof.
  intros S E. destruct (system_view F A0 h0 s l S) as (M & ts & Sok & Hts & Hrun).
  pose proof (load_spec F _ _ _ _ _ _ _ _ Sok E) as Hd. pose proof (load_chunk filename slot args s) as Hk. rewrite E in Hk. cbn [snd] in Hk.
  pose proof Hd as (_ & _ & Hm & _ & Hcpu & _ & Hr). split; [done|].
  assert (U : forall l', (forall q n, run (heap_of s) q n -> run (heap_of s') q n) -> l ⊆ l' -> undisturbed ptr s l s' l').
  { intros l' HR Hl. split; [intros q n Hq; apply Hm, Hrun; by eapply old_run|done|]. intros y Hy _. split; [by apply Hl|].
    split; [eapply cells_same; [by apply (sy_members _ _ _ _ _ S)|]; intros q n _ Hn; by apply Hm, Hrun|].
    intros q n _ Hn. split; [by apply HR|by apply Hm, Hrun]. }
  destruct r as [q|e].
  - destruct (load_added F A0 h0 _ _ _ _ _ _ _ _ S Sok Hts Hd) as (x & Ex & S'). exists x. split; [done|]. split; [done|].
    apply U; [|intros y Hy; apply elem_of_app; by left]. intros q' n Hn%Hrun. destruct Hr as (_ & _ & _ & p & task & _ & _ & Pin & _).
    eapply owned_old; [exact (hd_owns _ _ _ _ _ _ _ (po_holds _ _ _ _ _ _ _ (pi_ok _ _ _ _ _ _ _ Pin)))|exact Hn].
  - destruct Hr as (He & Hh & _ & _ & Hs). split; [done|]. split; [by eapply load_failed|]. split; [|done]. apply U; [by rewrite Hh|done].
Qed.

Lemma task_free_chunk q s : kernel_chunk (ssched (snd (task_free q s))) = kernel_chunk (ssched s).
Proof.
  unfold task_free. destruct (q =? 0); [done|]. destruct (task_store _ !! q); [|done].
  destruct (task_list_remove _ _) as [c|] eqn:E; [|done]. apply task_list_remove_chunk in E. exact E.
Qed.

Lemma terminate_chunk ptr s : kernel_chunk (ssched (snd (process_terminate ptr s))) = kernel_chunk (ssched s).
Proof.
  unfold process_terminate. destruct (procs s !! ptr) as [p|]; [|done].
  assert (Hr : forall c, kernel_chunk (ssched (release_process c ptr p s)) = kernel_chunk (ssched s)).
  { intros c. unfold release_process. destruct (process_close_files _) as [p1 k1].
    by destruct (process_terminate_allocation _ _ _) as [p2 k2]. }
  rewrite <- (Hr (default 0 (page_directory <$> task_store (ssched s) !! proc_task p))).
  set (s1 := release_process _ ptr p s). pose proof (task_free_chunk (proc_task p) s1) as Hf. revert Hf.
  unfold mbind, io_bind. destruct (task_free (proc_task p) s1) as [[u|e] s2]; cbn [snd]; intros <-; [|done].
  destruct (process_free_program_data _) as [res [p1 k1]]. unfold status. destruct (res <? 0); [done|].
  unfold modify, process_unlink, mbind, io_bind, gets. cbn. destruct (_ =? ptr); [|done]. unfold process_switch_to_any.
  by destruct (list_find _ _) as [[i q]|].
Qed.

Lemma terminate_undisturbed s l1 x l2 :
  system F A0 h0 s (l1 ++ x :: l2) ->
  let last := current_process s = mb_ptr x /\ l1 ++ l2 = [] in
  exists r s', process_terminate (mb_ptr x) s = (r, s') /\
    ((r = Err 1 /\ last) \/
     (r = Ok 0 /\ ~ last /\ system F A0 h0 s' (l1 ++ l2) /\ undisturbed (mb_ptr x) s (l1 ++ x :: l2) s' (l1 ++ l2) /\
      cpu (ssched s') = cpu (ssched s))).
Proof.
  intros S. cbv zeta. pose proof (terminate_chunk (mb_ptr x) s) as Hk.
  destruct (terminate_keeps F A0 h0 s l1 x l2 S) as (r & s' & E & Hr). cbv zeta in Hr. exists r, s'. split; [done|].
  destruct Hr as [Hr|(-> & Hl & S')]; [by left|right]. split; [done|]. split; [done|]. split; [done|]. rewrite E in Hk. cbn [snd] in Hk.
  destruct (system_focus F A0 h0 s l1 x l2 S) as (A & k0 & ts1 & ts2 & task & Fo).
  destruct (terminate_spec s A k0 ts1 ts2 _ _ task (fo_live _ _ _ _ _ _ _ _ _ _ _ Fo) (fo_process _ _ _ _ _ _ _ _ _ _ _ Fo)
    (fo_cur _ _ _ _ _ _ _ _ _ _ _ Fo)) as (s1 & E1 & Hrel). cbv zeta in E1, Hrel. rewrite E in E1. injection E1 as Eq <-.
  destruct Hrel as [R _]; [destruct (decide (current_process s = mb_ptr x)); [right; intros Hn; by rewrite decide_True in Eq|by left]|].
  split; [|apply (re_cpu _ _ _ _ _ _ _ R)].
  assert (Hm : forall q n, run (heap_of s) q n -> q ∉ mb_cells (memory s) x -> A !! q = Some n /\ same_on (memory s) (memory s') q (q + 4096 * n)).
  { intros q n Hn Hq. pose proof (fo_runs _ _ _ _ _ _ _ _ _ _ _ Fo q n Hn Hq) as HA. split; [done|by apply (re_memory _ _ _ _ _ _ _ R)]. }
  split; [|done|].
  - intros q n Hq. apply Hm; [by eapply old_run|]. intros Hin. eapply old_not_cell; [exact S|done|]. eapply member_cells; [apply middle_in|done].
  - intros y Hy Hp. assert (Hy' : y ∈ l1 ++ l2) by (apply (cons_middle_other _ x); [done|by intros ->]).
    assert (Hn : forall q, q ∈ mb_cells (memory s) y -> q ∉ mb_cells (memory s) x).
    { intros q Hq Hx. apply (fo_apart _ _ _ _ _ _ _ _ _ _ _ Fo q Hx). by eapply member_cells. }
    split; [done|]. split; [eapply cells_same; [by apply (sy_members _ _ _ _ _ S)|]; intros q n Hq Hr; by apply Hm, Hn|].
    intros q n Hq Hr. destruct (Hm q n Hr (Hn q Hq)) as [HA HM]. split; [|done]. exists A. split; [|done].
    rewrite (re_heap _ _ _ _ _ _ _ R). apply (fo_live _ _ _ _ _ _ _ _ _ _ _ Fo).
Qed.

Lemma switch_undisturbed s l q ptr :
  system F A0 h0 s l -> q ∈ map mb_ptr l -> system F A0 h0 (process_switch q s) l /\ undisturbed ptr s l (process_switch q s) l.
Proof.
  intros S Hq. split.
  - destruct S. constructor; try assumption; [|by right]. intros x Hx. destruct (sy_members x Hx). by constructor.
  - destruct (undisturbed_refl ptr s l). by constructor.
Qed.

(** ** The memory calls *)

Lemma memory_undisturbed s l1 x l2 (P : Z -> Prop) p' k' :
  system F A0 h0 s (l1 ++ x :: l2) -> steps (load32 (memory s) (mb_chunk x)) P (skern s) k' ->
  (forall q, P q \/ q ∈ alloc_ptrs (allocations (mb_proc x))) ->
  undisturbed (mb_ptr x) s (l1 ++ x :: l2) (put_process (mb_ptr x) p' k' s) (l1 ++ Member (mb_ptr x) p' (mb_chunk x) :: l2).
Proof.
  intros S St HP. pose proof St as [_ K _ R].
  assert (Hm : forall q n, run (heap_of s) q n -> q ∉ mb_cells (memory s) x ->
    run (kheap k') q n /\ same_on (memory s) (kmem k') q (q + 4096 * n)).
  { intros q n Hn Hq. assert (HPq : P q) by (destruct (HP q); [done|]; destruct Hq; apply elem_of_app; by left).
    split; [by apply R|]. apply K; [done|done|]. intros Ht. apply Hq, mb_space_cells, list_elem_of_further, elem_of_app. by left. }
  split; [|done|].
  - intros q n Hq. apply Hm; [by eapply old_run|]. intros Hin. eapply old_not_cell; [exact S|done|]. eapply member_cells; [apply middle_in|done].
  - intros y Hy Hp. assert (Hy' : y ∈ l1 ++ l2) by (apply (cons_middle_other _ x); [done|by intros ->]).
    destruct (memory_member F A0 h0 s l1 x l2 P p' k' y S St HP Hy') as [_ Hc].
    split; [by apply (focus_member l1 _ l2)|]. split; [done|]. intros q n Hq Hn. apply Hm; [done|]. intros Hx.
    destruct (system_focus F A0 h0 s l1 x l2 S) as (A & k0 & ts1 & ts2 & task & Fo).
    apply (fo_apart _ _ _ _ _ _ _ _ _ _ _ Fo q Hx). by eapply member_cells.
Qed.

Lemma malloc_undisturbed s l1 x l2 size :
  system F A0 h0 s (l1 ++ x :: l2) -> 0 <= size < 2 ^ 32 ->
  exists r p' k', let s' := put_process (mb_ptr x) p' k' s in let x' := Member (mb_ptr x) p' (mb_chunk x) in
    process_malloc (current_directory (cpu (ssched s))) (mb_chunk x) size (mb_proc x, skern s) = (Ok r, (p', k')) /\
    system F A0 h0 s' (l1 ++ x' :: l2) /\ undisturbed (mb_ptr x) s (l1 ++ x :: l2) s' (l1 ++ x' :: l2) /\
    proc_task p' = proc_task (mb_proc x).
Proof.
  intros S Hs. destruct (system_holds F A0 h0 s l1 x l2 S) as [Hh Hcur].
  destruct (holds_malloc A0 h0 _ _ _ _ Hcur _ _ size Hh Hs) as (r & p' & k' & E & Hh' & St & Hr). exists r, p', k'. cbv zeta.
  assert (Hp : p' = with_allocations (allocations p') (mb_proc x))
    by (destruct Hr as [(_ & -> & _)|(_ & _ & _ & _ & _ & _ & _ & Hp)]; [by destruct (mb_proc x)|exact Hp]).
  split; [done|]. split; [|split; [|by rewrite Hp]].
  - eapply memory_keeps; [done|exact Hh'|exact St|by left|exact Hp].
  - eapply memory_undisturbed; [done|exact St|by left].
Qed.

Lemma free_undisturbed s l1 x l2 ptr :
  system F A0 h0 s (l1 ++ x :: l2) ->
  exists p' k', let s' := put_process (mb_ptr x) p' k' s in let x' := Member (mb_ptr x) p' (mb_chunk x) in
    process_free (current_directory (cpu (ssched s))) (mb_chunk x) ptr (mb_proc x, skern s) = (p', k') /\
    system F A0 h0 s' (l1 ++ x' :: l2) /\ undisturbed (mb_ptr x) s (l1 ++ x :: l2) s' (l1 ++ x' :: l2) /\
    proc_task p' = proc_task (mb_proc x).
Proof.
  intros S. destruct (system_holds F A0 h0 s l1 x l2 S) as [Hh Hcur].
  destruct (decide (ptr ∈ alloc_ptrs (allocations (mb_proc x)))) as [Hin|Hin].
  - destruct (holds_free A0 h0 _ _ _ _ Hcur _ _ ptr Hh Hin) as (p' & k' & E & Hh' & St & _ & Hp). exists p', k'. cbv zeta.
    assert (HP : forall q, q <> ptr \/ q ∈ alloc_ptrs (allocations (mb_proc x))) by (intros q; destruct (decide (q = ptr)) as [->|]; auto).
    split; [done|]. split; [eapply memory_keeps; [done|exact Hh'|exact St|exact HP|by rewrite Hp]|].
    split; [eapply memory_undisturbed; [done|exact St|exact HP]|by rewrite Hp].
  - exists (mb_proc x), (skern s). cbv zeta. pose proof (steps_refl (load32 (memory s) (mb_chunk x)) (fun _ => True) (skern s)) as St.
    split; [apply process_free_other; intros a Ha <-; apply Hin; by apply list_elem_of_fmap_2|].
    split; [eapply memory_keeps; [done|exact Hh|exact St|by left|by destruct (mb_proc x)]|].
    split; [eapply memory_undisturbed; [done|exact St|by left]|done].
Qed.
End frames.

(** ** The scheduler *)

(** The same tasks in the same order, with the directories and the processes they had. *)
Record sched_kept (c c' : sched) : Prop := SchedKept {
  sk_wf ts : sched_wf c ts -> sched_wf c' ts;
  sk_tasks q t : task_store c !! q = Some t -> exists t', task_store c' !! q = Some t' /\ same_task t t';
  sk_chunk : kernel_chunk c' = kernel_chunk c
}.

#[export] Instance sched_kept_preorder : PreOrder sched_kept.
Proof.
  split; [intros c; split; [done|intros q t Hq; by exists t|done]|]. intros a b c [W1 T1 C1] [W2 T2 C2].
  split; [auto| |congruence]. intros q t (t1 & Ht1 & E1)%T1. destruct (T2 q t1 Ht1) as (t2 & Ht2 & E2). exists t2. split; [done|by etrans].
Qed.

(** The pointers determine the list. *)
Lemma default_null (o o' : option Z) : (o <> Some 0) -> (o' <> Some 0) -> default 0 o = default 0 o' -> o = o'.
Proof. destruct o, o'; cbn; congruence. Qed.

Lemma sched_wf_fun c ts ts' : sched_wf c ts -> sched_wf c ts' -> ts = ts'.
Proof.
  intros W W'. assert (Hz : forall i, ts !! i <> Some 0) by (intros i Hi; apply (wf_null _ _ W); by eapply list_elem_of_lookup_2).
  assert (Hz' : forall i, ts' !! i <> Some 0) by (intros i Hi; apply (wf_null _ _ W'); by eapply list_elem_of_lookup_2).
  apply list_eq. induction i as [|i IH].
  - apply default_null; [done|done|]. by rewrite <- (wf_head _ _ W), <- (wf_head _ _ W').
  - destruct (ts !! i) as [p|] eqn:Ei.
    + destruct (wf_linked _ _ W i p Ei) as (t & Ht & En & _). destruct (wf_linked _ _ W' i p (eq_sym IH)) as (t' & Ht' & En' & _).
      apply default_null; [done|done|]. unfold link_next in *. congruence.
    + apply lookup_ge_None in Ei. symmetry in IH. apply lookup_ge_None in IH. rewrite !lookup_ge_None_2 by lia. done.
Qed.

(** The clock, the processor and the ports. *)
Lemma kept_fields c c' :
  task_store c' = task_store c -> task_head c' = task_head c -> task_tail c' = task_tail c -> current_task c' = current_task c ->
  kernel_chunk c' = kernel_chunk c -> sched_kept c c'.
Proof.
  intros E1 E2 E3 E4 E5. split; [|intros q t Hq; exists t; by rewrite E1|done]. intros ts W. by apply (sched_wf_fields c).
Qed.

Lemma kept_update q f c c' :
  update q f c = Some c' -> (forall t, same_task t (f t) /\ next (f t) = next t /\ prev (f t) = prev t) -> sched_kept c c'.
Proof.
  intros E Hf. pose proof (update_kept c c' q f E (fun t => proj1 (Hf t))) as [_ Ht]. pose proof (update_chunk q f c c' E) as Hk.
  split; [|done|done]. intros ts W. unfold update in E. destruct (task_store c !! q) as [tq|] eqn:Eq; [|done]. injection E as <-.
  apply sched_wf_store; [done|]. intros p. destruct (decide (p = q)) as [->|Hne].
  - rewrite Eq, lookup_insert_eq. eexists. split; [done|]. apply (Hf tq).
  - rewrite lookup_insert_ne by done. destruct (task_store c !! p) as [tp|]; [by exists tp|done].
Qed.

Lemma update_there q f c ts : sched_wf c ts -> q ∈ ts -> exists c', update q f c = Some c'.
Proof.
  intros W Hq. apply list_elem_of_lookup_1 in Hq as [i Hi]. destruct (wf_linked _ _ W i q Hi) as (t & Ht & _).
  unfold update. rewrite Ht. by eexists.
Qed.

Lemma wake_kept now c ts : sched_wf c ts -> exists c', task_wake_sleepers now c = Some c' /\ sched_kept c c' /\ cpu c' = cpu c.
Proof.
  intros W. destruct (task_wake_sleepers_spec c ts now W) as [E W']. eexists. split; [exact E|]. split; [|done].
  assert (Hst : forall ts', sched_wf c ts' -> ts' = ts -> sched_wf (with_store (wake_store now ts (task_store c)) c) ts') by (by intros ? _ ->).
  split; [|intros q t Hq|done].
  - intros ts' Hw. apply sched_wf_store; [done|]. intros p. rewrite wake_store_lookup by apply W.
    destruct (task_store c !! p) as [t|]; [|by case_decide]. case_decide; simpl; eauto using wake_task_links.
  - cbn. rewrite wake_store_lookup by apply W. rewrite Hq. case_decide; [|by exists t]. eexists. split; [done|].
    unfold wake_task. by destruct (_ && _).
Qed.

Lemma eoi_kept v c : sched_kept c (pic_send_eoi v c) /\ cpu (pic_send_eoi v c) = cpu c.
Proof. unfold pic_send_eoi. split; [apply kept_fields|]; by destruct (_ && _), (_ && _). Qed.

Section idle.
Context (m : mem) (ts : list Z).

Lemma kernel_page_kept c : sched_kept c (kernel_page m c).
Proof. by apply kept_fields. Qed.

Lemma irq_idle_kept e c : sched_wf c ts -> exists c', irq_idle m e c = Some c' /\ sched_kept c c' /\ cpu c' = paging_switch m (kernel_chunk c).
Proof.
  intros W. unfold irq_idle. pose proof (kernel_page_kept c) as K. destruct e as [|sc|v].
  - unfold pit_tick_idle. set (c1 := with_jiffies _ (kernel_page m c)).
    assert (K1 : sched_kept c c1) by (etrans; [exact K|by apply kept_fields]).
    destruct (wake_kept (jiffies c1) c1 ts (sk_wf _ _ K1 ts W)) as (c2 & E & K2 & Ecpu). rewrite E. cbn [mbind option_bind].
    destruct (eoi_kept RORTHOX_PIC_MASTER_VECTOR_BASE c2) as [K3 Ecpu3]. eexists. split; [done|].
    split; [etrans; [exact K1|]; by etrans|]. rewrite Ecpu3, Ecpu. done.
  - destruct (eoi_kept (RORTHOX_PIC_MASTER_VECTOR_BASE + 1) (kernel_page m c)) as [K3 Ecpu3]. eexists. split; [done|]. split; [by etrans|]. by rewrite Ecpu3.
  - destruct (eoi_kept v (kernel_page m c)) as [K3 Ecpu3]. eexists. split; [done|]. split; [by etrans|]. by rewrite Ecpu3.
Qed.

Lemma irqs_idle_kept es : forall c, sched_wf c ts -> cpu c = paging_switch m (kernel_chunk c) ->
  exists c', irqs_idle m es c = Some c' /\ sched_kept c c' /\ cpu c' = paging_switch m (kernel_chunk c').
Proof.
  induction es as [|e es IH]; intros c W Hc; cbn [irqs_idle]; [by exists c|].
  destruct (irq_idle_kept e c W) as (c1 & -> & K1 & E1). cbn [mbind option_bind].
  destruct (IH c1) as (c2 & -> & K2 & E2); [by apply (sk_wf _ _ K1)|by rewrite (sk_chunk _ _ K1)|]. exists c2. split; [done|].
  split; [by etrans|done].
Qed.

Lemma task_idle_kept halts : forall c, sched_wf c ts -> cpu c = paging_switch m (kernel_chunk c) ->
  exists q c' keys, task_idle m halts c = Some (q, c', keys) /\ sched_kept c c' /\ cpu c' = paging_switch m (kernel_chunk c') /\ (q = 0 \/ q ∈ ts).
Proof.
  induction halts as [|es halts IH]; intros c W Hc; cbn [task_idle];
    destruct (task_get_next_choice c ts W) as (q & -> & Hq); cbn [mbind option_bind];
    (destruct (Z.eqb_spec q 0) as [->|Hq0]; [|exists q, c, []; destruct Hq as [[? _]|(_ & ? & _)]; [done|]; split; [done|]; split; [done|auto]]).
  - exists 0, c, []. split; [done|]. split; [done|auto].
  - destruct (irqs_idle_kept es c W Hc) as (c1 & -> & K1 & E1). cbn [mbind option_bind].
    destruct (IH c1) as (q & c2 & keys & E & K2 & E2 & Hin); [by apply (sk_wf _ _ K1)|done|]. rewrite E. cbn [mbind option_bind]. do 3 eexists. split; [reflexivity|]. split; [by etrans|done].
Qed.

(** What the processor goes on with. *)
Definition resumed (c : sched) (o : next_outcome) : Prop :=
  match o with
  | NextPanic => False
  | NextHalted c' => sched_kept c c'
  | NextRun p r c' => sched_kept c c' /\ p ∈ ts /\ current_task c' = p /\
      exists t, task_store c' !! p = Some t /\ r = regs t /\ cpu c' = paging_switch m (page_directory t)
  end.

Lemma switch_resumed p c0 c : sched_kept c0 c -> sched_wf c ts -> p ∈ ts ->
  exists o, (s ← task_switch m p c; task_return p s) = Some o /\ resumed c0 o.
Proof.
  intros K W Hp. unfold task_switch. pose proof Hp as Hq. apply list_elem_of_lookup_1 in Hq as [i Hi]. destruct (wf_linked _ _ W i p Hi) as (t & Ht & _).
  rewrite Ht. cbn [mbind option_bind]. unfold task_return. cbn. rewrite Ht. cbn. eexists. split; [done|]. cbn.
  split; [|split; [done|]; split; [done|]; by exists t].
  etrans; [exact K|]. split; [|intros q t' Hq; by exists t'|done]. intros ts' W'. constructor; cbn; try apply W'.
  rewrite (sched_wf_fun _ _ _ W' W). destruct ts; [set_solver|done].
Qed.

Lemma idle_switch p c0 c (keys : list Z) : sched_kept c0 c -> sched_wf c ts -> p ∈ ts ->
  exists o keys', (s ← task_switch m p c; o ← task_return p s; Some (o, keys)) = Some (o, keys') /\ resumed c0 o.
Proof.
  intros K W Hp. destruct (switch_resumed p c0 c K W Hp) as (o & E & Ho). exists o, keys. split; [|done].
  destruct (task_switch m p c) as [c1|]; [|done]. cbn [mbind option_bind] in *. by rewrite E.
Qed.

Lemma task_next_resumed halts c : sched_wf c ts -> ts <> [] -> exists o keys, task_next m halts c = Some (o, keys) /\ resumed c o.
Proof.
  intros W Hne. unfold task_next. rewrite (proj2 (Z.eqb_neq (task_head c) 0)) by (by rewrite (wf_empty _ _ W)).
  destruct (task_get_next_choice c ts W) as (q & -> & Hq). cbn [mbind option_bind].
  destruct (Z.eqb_spec q 0) as [->|Hq0].
  - pose proof (kernel_page_kept c) as K. destruct (task_idle_kept halts (kernel_page m c)) as (q & c' & keys & -> & K' & _ & Hin);
      [by apply (sk_wf _ _ K)|done|]. cbn [mbind option_bind].
    assert (K2 : sched_kept c c') by (by etrans). destruct (Z.eqb_spec q 0) as [->|Hq1]; [by exists (NextHalted c'), keys|].
    destruct Hin as [?|Hin]; [done|]. apply (idle_switch _ c c' keys); [done|by apply (sk_wf _ _ K2)|done].
  - cbn [mbind option_bind]. rewrite (proj2 (Z.eqb_neq q 0) Hq0). destruct Hq as [[? _]|(_ & Hin & _)]; [done|].
    by apply (idle_switch _ c c []).
Qed.

Lemma resumed_kept c c' o : sched_kept c c' -> resumed c' o -> resumed c o.
Proof. intros K. destruct o as [|c1|p r c1]; cbn; [done|by etrans|]. intros [K' Ho]. split; [by etrans|done]. Qed.

Lemma task_sleep_resumed deadline halts c :
  sched_wf c ts -> ts <> [] -> exists o keys, task_sleep_until m deadline halts c = Some (o, keys) /\ resumed c o.
Proof.
  intros W Hne. assert (Hin : current_task c ∈ ts) by (pose proof (wf_current _ _ W) as Hc; by destruct ts).
  unfold task_sleep_until. rewrite (proj2 (Z.eqb_neq _ 0)) by (intros E; rewrite E in Hin; by apply (wf_null _ _ W)).
  destruct (update_there (current_task c) (set_wake_tick deadline) c ts W Hin) as (c1 & E1). rewrite E1. cbn [mbind option_bind].
  pose proof (kept_update _ _ _ _ E1 (fun t => conj (conj eq_refl eq_refl) (conj eq_refl eq_refl))) as K1.
  destruct (update_there (current_task c) (set_state TASK_SLEEPING) c1 ts (sk_wf _ _ K1 _ W) Hin) as (c2 & E2). rewrite E2. cbn [mbind option_bind].
  pose proof (kept_update _ _ _ _ E2 (fun t => conj (conj eq_refl eq_refl) (conj eq_refl eq_refl))) as K2.
  assert (K : sched_kept c c2) by (by etrans). destruct (task_next_resumed halts c2 (sk_wf _ _ K _ W) Hne) as (o & keys & -> & Ho).
  exists o, keys. split; [done|]. by eapply resumed_kept.
Qed.
End idle.
