(* ===== verification/SysCalls.v ===== *)
(** * Every system call keeps the kernel (kernel/isr80h/*.c, kernel/idt/idt.c)

    The invariant of a system call in progress, a rule for each of the steps the commands are made of, and the commands.
    A step may fail with a status, which the caller gets, but the machine does not stop. *)

From stdpp Require Import base numbers list gmap.
From Stdlib Require Import ZArith Lia.
From S2P Require Import Prelude Alloc Heap Memory Paging Sched Effects Disk StrLib PathParser Fat FatWrite FatProps.
From S2P Require Import FatDir FatDirScan FatOpen FatMount Vfs Elf UserMem Process AddrSpace ProcLoad ProcArgs ProcLife.
From S2P Require Import System Isolation Tty Keyboard Syscall SysFrame.

#[local] Set Default Goal Selector "!".

(** ** Bounds of the string copy *)

Section strings.
Context (ps : gmap Z proc) (p : proc) (t : task).
Hypothesis Hp : proc_of ps t = Some p.

Lemma translate_fails mm dir a write : match paging_user_translate mm dir a write with (e, None) => e < 0 | (_, Some _) => True end.
Proof. unfold paging_user_translate. destruct (dir =? 0); [done|]. cbv zeta. destruct (_ || _); [done|]. by destruct (negb _). Qed.

Lemma fragment_bounds mm a n write : 0 < a -> 0 < n ->
  match task_user_fragment ps mm t a n write with Ok (_, k) => 0 < k <= n | Err e => e < 0 end.
Proof.
  intros Ha Hn. unfold task_user_fragment. rewrite Hp. pose proof (user_span_spec mm p a write Ha) as Hs.
  destruct (process_user_span mm (Some p) a write) as [av|e]; [|destruct Hs as [-> _]; done].
  pose proof (translate_fails mm (load32 mm (page_directory t)) a write) as Ht.
  destruct (paging_user_translate _ _ _ _) as [r [phys|]]; [|done].
  change (PAGING_PAGE_SIZE - 1) with (Z.ones 12). rewrite Z.land_ones by lia. unfold PAGING_PAGE_SIZE.
  pose proof (Z.mod_pos_bound a (2 ^ 12) ltac:(lia)). destruct (Z.ltb_spec av n); case_match; case_Zb; lia.
Qed.

Lemma copy_string_footprint n : forall mm out inp b, ~ (out <= b < out + Z.of_nat n) -> load8 (snd (copy_string n mm out inp)) b = load8 mm b.
Proof.
  induction n as [|n IH]; intros mm out inp b Hb; cbn [copy_string]; [done|].
  assert (Hne : load8 (store8 mm out (load8 mm inp)) b = load8 mm b) by (rewrite load8_store8, decide_False by lia; done).
  destruct (_ =? 0); [done|]. rewrite IH by lia. done.
Qed.

Lemma copy_string_loop_footprint fuel : forall mm a out n, 0 < a -> 0 <= n ->
  let '(res, mm') := copy_string_loop ps fuel mm t a out n in
  res <= 0 /\ forall b, ~ (out <= b < out + n + 1) -> load8 mm' b = load8 mm b.
Proof.
  induction fuel as [|fuel IH]; intros mm a out n Ha Hn; cbn [copy_string_loop].
  { destruct (n =? 0); (split; [done|]; intros b Hb; rewrite load8_store8, decide_False by lia; done). }
  destruct (Z.eqb_spec n 0) as [->|Hn0]; [split; [done|]; intros b Hb; rewrite load8_store8, decide_False by lia; done|].
  pose proof (fragment_bounds mm a n false Ha ltac:(lia)) as Hf.
  destruct (task_user_fragment ps mm t a n false) as [[phys k]|e]; [|split; [lia|]; intros b Hb; rewrite load8_store8, decide_False by lia; done].
  pose proof (fun b Hb => copy_string_footprint (Z.to_nat k) mm out phys b Hb) as Hc.
  destruct (copy_string (Z.to_nat k) mm out phys) as [nul mm1]. cbn [snd] in Hc.
  destruct nul; [split; [done|]; intros b Hb; apply Hc; lia|].
  destruct (_ <? k); [split; [done|]; intros b Hb; rewrite load8_store8, decide_False by lia; apply Hc; lia|].
  specialize (IH mm1 (a + k) (out + k) (n - k) ltac:(lia) ltac:(lia)). destruct (copy_string_loop _ _ _ _ _ _ _) as [res mm2].
  destruct IH as [Hr Hm]. split; [done|]. intros b Hb. rewrite Hm by lia. apply Hc. lia.
Qed.

Lemma copy_string_from_task_footprint mm virtual phys max : 0 <= virtual -> 0 < max ->
  let '(res, mm') := copy_string_from_task ps mm (Some t) virtual phys max in
  res <= 0 /\ forall b, ~ (phys <= b < phys + max) -> load8 mm' b = load8 mm b.
Proof.
  intros Hv Hm. unfold copy_string_from_task. destruct (_ || _) eqn:E; [done|]. apply orb_false_iff in E as [_ Ev%Z.eqb_neq].
  pose proof (copy_string_loop_footprint (Z.to_nat (max - 1)) mm virtual phys (max - 1) ltac:(lia) ltac:(lia)) as Hl.
  destruct (copy_string_loop _ _ _ _ _ _ _) as [res mm1]. destruct Hl as [Hr Hb]. split; [done|]. intros b Hb'. apply Hb. lia.
Qed.
End strings.

Section calls.
Context {D H : Type} `{BlockDeviceLaws D} `{AllocatorLaws H} (F : filesystem D H) `{!FilesystemLaws F}.
Implicit Types (m : mach D H) (s : sys D H) (x y : member) (l : list member).
Context (loc : locals) (stack : list Z) (halts : list (list irq)).
(** What was allocated before the processes; the state in which the call began, and the process that made it. *)
Context (A0 : gmap Z Z) (h0 : H) (s0 : sys D H) (l0 : list member) (ptr : Z).
Local Abbreviation mio := (io (mach D H)).
Local Abbreviation memory s := (kmem (skern s)).
Local Abbreviation heap_of s := (kheap (skern s)).

(** The kernel's stack is below the heap. *)
Definition on_stack (a n : Z) : Prop := 0 < a /\ a + n <= fst (arena h0).

Record placed : Prop := Placed {
  pl_word0 : on_stack (word0 loc) 4;
  pl_word1 : on_stack (word1 loc) 4;
  pl_word2 : on_stack (word2 loc) 4;
  pl_area : on_stack (area loc) 1024
}.

(** A call in progress. The allocations [A] beside the processes are [A0] and what the call holds. *)
Record inside (A : gmap Z Z) (h : H) m l x (t : task) : Prop := Inside {
  in_system : system F A h (msys m) l;
  in_base : A0 ⊆ A /\ arena h = arena h0;
  in_other : undisturbed A0 ptr s0 l0 (msys m) l;
  in_x : x ∈ l;
  in_ptr : mb_ptr x = ptr;
  in_task : task_store (ssched (msys m)) !! proc_task (mb_proc x) = Some t;
  in_current : current_task (ssched (msys m)) = proc_task (mb_proc x);
  in_esp : 0 <= r_esp (regs t) < 2 ^ 32;
  in_chunk : is_Some (A0 !! kernel_chunk (ssched (msys m)));
  in_dir : current_directory (cpu (ssched (msys m))) = load32 (mmem m) (kernel_chunk (ssched (msys m)));
  in_old : current_directory (cpu (ssched (msys m))) = 0 \/ is_Some (A0 !! current_directory (cpu (ssched (msys m))));
  in_tty : tty_wf (mtty m)
}.

(** The result of a step: a value, or a status. *)
Definition served {X} (A : gmap Z Z) (h : H) (r : result X * mach D H) (Q : X -> mach D H -> Prop) : Prop :=
  match r with
  | (Ok a, m) => Q a m
  | (Err e, m) => e < 0 /\ exists l x t, inside A h m l x t
  end.

Definition serves {X} (A : gmap Z Z) (h : H) (c : mio X) (Q : X -> mach D H -> Prop) : Prop :=
  forall m l x t, inside A h m l x t -> served A h (c m) Q.

(** The call goes on. *)
Definition going (A : gmap Z Z) (h : H) m : Prop := exists l x t, inside A h m l x t.

Definition gives {X} (A : gmap Z Z) (h : H) (c : mio X) (P : X -> Prop) : Prop := serves A h c (fun a m => going A h m /\ P a).

(** ** Rules *)

Section rules.
Context (A : gmap Z Z) (h : H).

Lemma serves_bind {X Y} (c : mio X) (k : X -> mio Y) (P : X -> Prop) Q :
  gives A h c P -> (forall a, P a -> serves A h (k a) Q) -> serves A h (x ← c; k x) Q.
Proof.
  intros Hc Hk m l x t I. specialize (Hc m l x t I). unfold mbind, io_bind. destruct (c m) as [[a|e] m']; [|done].
  destruct Hc as [(l' & x' & t' & I') HP]. by eapply Hk.
Qed.

Lemma serves_ret {X} (a : X) (Q : X -> mach D H -> Prop) : (forall m, going A h m -> Q a m) -> serves A h (mret a) Q.
Proof. intros HQ m l x t I. apply HQ. by exists l, x, t. Qed.

Lemma gives_ret {X} (a : X) (P : X -> Prop) : P a -> gives A h (mret a) P.
Proof. intros HP. by apply serves_ret. Qed.

Lemma serves_fail {X} e (Q : X -> mach D H -> Prop) : 0 < e -> serves A h (fail e) Q.
Proof. intros He m l x t I. split; [lia|]. by exists l, x, t. Qed.

Lemma gives_fail_if b e : 0 < e -> gives A h (fail_if b e) (fun _ => b = false).
Proof. intros He. destruct b; [by apply serves_fail|by apply gives_ret]. Qed.

Lemma gives_gets {X} (f : mach D H -> X) : gives A h (gets f) (fun a => exists m, going A h m /\ a = f m).
Proof. intros m l x t I. cbn. assert (G : going A h m) by (by exists l, x, t). eauto. Qed.

Lemma gives_weaken {X} (c : mio X) (P P' : X -> Prop) : gives A h c P -> (forall a, P a -> P' a) -> gives A h c P'.
Proof. intros Hc HP m l x t I. specialize (Hc m l x t I). destruct (c m) as [[a|e] m']; [|done]. destruct Hc. split; [done|by apply HP]. Qed.

Lemma gives_modify f : (forall m l x t, inside A h m l x t -> going A h (f m)) -> gives A h (modify f) (fun _ => True).
Proof. intros Hf m l x t I. split; [by eapply Hf|done]. Qed.

Lemma gives_tolerate {X} (c : mio X) (P : X -> Prop) :
  gives A h c P -> gives A h (tolerate c) (fun r => forall a, r = Some a -> P a).
Proof.
  intros Hc m l x t I. specialize (Hc m l x t I). unfold tolerate. destruct (c m) as [[a|e] m'].
  - destruct Hc as [G HP]. split; [done|]. by intros a' [= <-].
  - destruct Hc as [He G]. rewrite (proj2 (Z.ltb_lt e 0) He). by split.
Qed.

(** ** Changes of the state *)

(** A change that keeps the processor and the running task. *)
Lemma inside_step m l x t s' l' x' t' :
  inside A h m l x t -> system F A h s' l' -> undisturbed A0 ptr (msys m) l s' l' -> x' ∈ l' -> mb_ptr x' = ptr ->
  proc_task (mb_proc x') = proc_task (mb_proc x) -> cpu (ssched s') = cpu (ssched (msys m)) ->
  current_task (ssched s') = current_task (ssched (msys m)) ->
  task_store (ssched s') !! proc_task (mb_proc x) = Some t' -> 0 <= r_esp (regs t') < 2 ^ 32 ->
  inside A h (Mach s' (mtty m) (mkeyboard m)) l' x' t'.
Proof.
  intros I S' U Hx' Hp Ht Hcpu Hcur Hst Hesp. pose proof I as [S B Uo Hx _ _ Hc _ [n Hn] Hd Hold Htty].
  assert (Hk : kernel_chunk (ssched s') = kernel_chunk (ssched (msys m))) by apply (un_chunk _ _ _ _ _ _ U).
  constructor; cbn [msys mtty mmem]; rewrite ?Hcpu, ?Hk, ?Ht, ?Hcur; try done; [by eapply undisturbed_trans|].
  unfold mmem in Hd |- *. cbn. rewrite Hd. symmetry. apply load32_ext. intros i Hi.
  pose proof (un_old _ _ _ _ _ _ U _ _ Hn) as Hsame. apply Hsame.
  assert (Hr : run (heap_of (msys m)) (kernel_chunk (ssched (msys m))) n)
    by (eapply (old_run F A h); [exact S|]; destruct B as [B _]; by eapply lookup_weaken).
  pose proof (run_bounds _ _ _ Hr). lia.
Qed.

Lemma undisturbed_weaken (A' : gmap Z Z) p s l s' l' : A' ⊆ A -> undisturbed A p s l s' l' -> undisturbed A' p s l s' l'.
Proof. intros Hs [O C Y]. split; [|done|done]. intros q n Hq. apply O. by eapply lookup_weaken. Qed.

(** Memory of neither the processes nor the kernel's old allocations. *)
Lemma inside_scratch m l x t mm :
  inside A h m l x t ->
  (forall q n, run (heap_of (msys m)) q n -> q ∈ all_cells (mmem m) l \/ is_Some (A0 !! q) -> same_on (mmem m) mm q (q + 4096 * n)) ->
  inside A h (with_mmem mm m) l x t.
Proof.
  intros I Hm. pose proof (in_system _ _ _ _ _ _ I) as S. set (s' := with_skern (with_kmem mm (skern (msys m))) (msys m)).
  assert (Hk : forall y, y ∈ l -> member_ok s' y /\ mb_cells mm y = mb_cells (mmem m) y).
  { intros y Hy. apply (member_kept (msys m) s' y); [by apply (sy_members _ _ _ _ _ S)| |done|done|intros u Hu; by exists u].
    intros q n Hq Hn. split; [done|]. apply Hm; [done|]. left. by eapply member_cells. }
  eapply (inside_step m l x t s' l x t); [exact I| | |exact (in_x _ _ _ _ _ _ I)|exact (in_ptr _ _ _ _ _ _ I)|done|done|done|
    exact (in_task _ _ _ _ _ _ I)|exact (in_esp _ _ _ _ _ _ I)].
  - destruct S. constructor; try assumption; [intros y Hy; by apply Hk|]. cbn. unfold kowns. cbn.
    rewrite (all_cells_ext (mmem m) mm); [exact sy_owns|]. intros y Hy. by apply Hk.
  - split; [|done|].
    + intros q n Hq. apply Hm; [|right; by exists n]. eapply (old_run F A h); [exact S|]. eapply lookup_weaken; [exact Hq|apply I].
    + intros y Hy _. split; [done|]. split; [by apply Hk|]. intros q n Hq Hn. split; [done|]. apply Hm; [done|]. left. by eapply member_cells.
Qed.

Lemma run_above m l x t q n : inside A h m l x t -> run (heap_of (msys m)) q n -> fst (arena h0) <= q.
Proof.
  intros I Hn. pose proof (run_arena _ _ _ Hn) as [Hq _]. destruct (sy_owns _ _ _ _ _ (in_system _ _ _ _ _ _ I)) as [Ha _].
  destruct (in_base _ _ _ _ _ _ I) as [_ Hb]. rewrite Ha, Hb in Hq. done.
Qed.

(** The kernel's stack. *)
Lemma inside_stack m l x t mm a n :
  inside A h m l x t -> on_stack a n -> (forall b, ~ (a <= b < a + n) -> load8 mm b = load8 (mmem m) b) ->
  inside A h (with_mmem mm m) l x t.
Proof.
  intros I [Ha Hs] Hm. eapply inside_scratch; [exact I|]. intros q k Hk _ b Hb. apply Hm.
  pose proof (run_above _ _ _ _ _ _ I Hk). lia.
Qed.

(** ** Copies from the caller *)

Lemma caller m l x t :
  inside A h m l x t -> task_current (msys m) = Some t /\ procs (msys m) !! ptr = Some (mb_proc x) /\ Sched.process t = ptr /\
  page_directory t = mb_chunk x /\ proc_of (procs (msys m)) t = Some (mb_proc x) /\
  space (heap_of (msys m)) (mmem m) (page_directory t) (load32 (mmem m) (page_directory t)) (mb_proc x).
Proof.
  intros I. pose proof (in_system _ _ _ _ _ _ I) as S. pose proof (sy_members _ _ _ _ _ S x (in_x _ _ _ _ _ _ I)) as Ox.
  destruct (sy_sched _ _ _ _ _ S) as (ts & W & _). pose proof (in_task _ _ _ _ _ _ I) as Ht.
  pose proof (mo_proc _ _ Ox) as Hp. destruct (mo_task _ _ Ox) as (t' & Ht' & E1 & E2). rewrite Ht in Ht'. injection Ht' as <-.
  rewrite (in_ptr _ _ _ _ _ _ I) in Hp, E2.
  destruct (table_space F A h (msys m) l ptr (mb_proc x) t S Hp Ht) as [SP Hpo].
  split; [|done]. unfold task_current. rewrite (in_current _ _ _ _ _ _ I), (proj2 (Z.eqb_neq _ 0)); [done|].
  intros E. rewrite E, (wf_store _ _ W) in Ht. done.
Qed.

(** The bytes are not a process's. *)
Definition no_cell m l (a n : Z) : Prop := forall q k i, q ∈ all_cells (mmem m) l -> run (heap_of (msys m)) q k -> 0 <= i < n -> ~ (q <= a + i < q + 4096 * k).

Lemma stack_no_cell m l x t a n k : inside A h m l x t -> on_stack a n -> k <= n -> no_cell m l a k.
Proof. intros I [Ha Hs] Hk q c i _ Hc Hi Hin. pose proof (run_above _ _ _ _ _ _ I Hc). lia. Qed.

Lemma copy_in m l x t buffer address size :
  inside A h m l x t -> 0 <= address < 2 ^ 32 -> 0 <= size < 2 ^ 32 -> no_cell m l buffer size ->
  let '(res, mm) := task_copy_from_user (procs (msys m)) (mmem m) (task_current (msys m)) buffer address size in
  res <= 0 /\ forall b, ~ (buffer <= b < buffer + size) -> load8 mm b = load8 (mmem m) b.
Proof.
  intros I Ha Hs Hb. destruct (caller _ _ _ _ I) as (-> & _ & _ & Ec & Hpo & SP). unfold task_copy_from_user.
  assert (Hbuf : forall q n i, q ∈ page_directory t :: table_pages (mmem m) (load32 (mmem m) (page_directory t)) ++ own (mb_proc x) ->
    run (heap_of (msys m)) q n -> 0 <= i < size -> ~ (q <= buffer + i < q + 4096 * n)).
  { intros q n i Hq. apply Hb. rewrite Ec in Hq. eapply member_cells; [exact (in_x _ _ _ _ _ _ I)|]. by apply mb_space_cells. }
  pose proof (copy_user_spec (procs (msys m)) (mmem m) t (mb_proc x) _ address buffer size false
    (space_uview _ _ _ _ _ SP _ t address size eq_refl Hpo Ha Hs) Ha Hs
    (fun He => space_copy_frame _ _ _ _ _ SP t address buffer size false eq_refl Ha Hs Hbuf He)) as Hc.
  destruct (task_copy_user _ _ _ _ _ _ _) as [res mm]. destruct Hc as [(_ & -> & _ & Hm)|(_ & -> & ->)]; [|done].
  split; [done|]. intros b Hb'. apply Hm. intros i Hi. unfold copy_dst. lia.
Qed.

(** ** Steps *)

Lemma gives_on_mem (f : sys D H -> mem -> Z * mem) :
  (forall m l x t, inside A h m l x t -> let '(_, mm) := f (msys m) (mmem m) in going A h (with_mmem mm m)) ->
  gives A h (on_mem f) (fun _ => True).
Proof.
  intros Hf m l x t I. specialize (Hf m l x t I). unfold on_mem. destruct (f (msys m) (mmem m)) as [res mm]. unfold status.
  destruct (Z.ltb_spec res 0); [by split|done].
Qed.

Lemma gives_declare a : on_stack a 4 -> gives A h (declare a) (fun _ => True).
Proof.
  intros Ha. apply gives_modify. intros m l x t I. exists l, x, t. eapply inside_stack; [exact I|exact Ha|].
  intros b Hb. apply load8_store32_ne. lia.
Qed.

Lemma gives_copy_in buffer (address : sys D H -> Z) size :
  0 <= size < 2 ^ 32 -> on_stack buffer size -> (forall m l x t, inside A h m l x t -> 0 <= address (msys m) < 2 ^ 32) ->
  gives A h (on_mem (fun s mm => task_copy_from_user (procs s) mm (task_current s) buffer (address s) size)) (fun _ => True).
Proof.
  intros Hs Hb Ha. apply gives_on_mem. intros m l x t I.
  pose proof (copy_in m l x t buffer (address (msys m)) size I (Ha _ _ _ _ I) Hs (stack_no_cell _ _ _ _ _ _ _ I Hb (Z.le_refl _))) as Hc.
  destruct (task_copy_from_user _ _ _ _ _ _) as [res mm]. destruct Hc as [_ Hm]. exists l, x, t. by eapply inside_stack.
Qed.

Lemma gives_word (a : Z) : gives A h (gets (fun m => load32 (mmem m) a)) (fun v => 0 <= v < 2 ^ 32).
Proof. eapply gives_weaken; [apply gives_gets|]. intros v (m & _ & ->). apply load32_range. Qed.

Lemma gives_stack_item index a : on_stack a 4 -> gives A h (stack_item index a) (fun v => 0 <= v < 2 ^ 32).
Proof.
  intros Ha. eapply serves_bind; [|intros _ _; apply gives_word]. apply gives_on_mem. intros m l x t I.
  destruct (caller _ _ _ _ I) as (Et & _). rewrite Et. unfold task_get_stack_item.
  assert (Hsame : going A h (with_mmem (mmem m) m)) by (exists l, x, t; by eapply inside_stack).
  destruct (_ || _); [done|]. cbv zeta. pose proof (u32_range (index * 4)) as Hu. pose proof (in_esp _ _ _ _ _ _ I) as He.
  unfold UINT32_MAX. destruct (Z.ltb_spec (4294967295 - r_esp (regs t)) (u32 (index * 4))); [done|].
  pose proof (copy_in m l x t a (r_esp (regs t) + u32 (index * 4)) 4 I ltac:(lia) ltac:(lia) (stack_no_cell _ _ _ _ _ _ _ I Ha (Z.le_refl _))) as Hc.
  rewrite Et in Hc. destruct (task_copy_from_user _ _ _ _ _ _) as [res mm]. destruct Hc as [_ Hm]. exists l, x, t. by eapply inside_stack.
Qed.

Lemma gives_stack_top a : on_stack a 4 -> gives A h (stack_top a) (fun v => 0 <= v < 2 ^ 32).
Proof.
  intros Ha. eapply serves_bind; [|intros _ _; apply gives_word].
  apply (gives_copy_in a (fun s => default 0 (r_esp ∘ regs <$> task_current s)) 4); [lia|done|]. intros m l x t I.
  destruct (caller _ _ _ _ I) as (-> & _). apply (in_esp _ _ _ _ _ _ I).
Qed.

Lemma gives_string virtual max : on_stack (area loc) max -> 0 <= virtual -> 0 < max -> gives A h (user_string loc virtual max) (fun _ => True).
Proof.
  intros Ha Hv Hm. eapply serves_bind; [|intros _ _; eapply gives_weaken; [apply gives_gets|done]]. apply gives_on_mem. intros m l x t I.
  destruct (caller _ _ _ _ I) as (-> & _ & _ & _ & Hpo & _).
  pose proof (copy_string_from_task_footprint _ _ t Hpo (mmem m) virtual (area loc) max Hv Hm) as Hc.
  destruct (copy_string_from_task _ _ _ _ _ _) as [res mm]. destruct Hc as [_ Hb]. exists l, x, t. by eapply inside_stack.
Qed.

Lemma inside_tty m l x t t' : inside A h m l x t -> tty_wf t' -> inside A h (Mach (msys m) t' (mkeyboard m)) l x t.
Proof. intros [] W. by constructor. Qed.

Lemma gives_tty f : (forall t, tty_wf t -> tty_wf (f t)) -> gives A h (on_tty f) (fun _ => True).
Proof. intros Hf. apply gives_modify. intros m l x t I. exists l, x, t. apply inside_tty; [done|]. apply Hf, (in_tty _ _ _ _ _ _ I). Qed.
End rules.

(** ** The commands that return *)

Hypothesis Hloc : placed.
Local Abbreviation ends c := (gives A0 h0 c (fun r => exists v, r = CReturn v)).

#[local] Hint Resolve pl_word0 pl_word1 pl_word2 pl_area : core.
#[local] Hint Resolve gives_declare gives_stack_item gives_stack_top : core.

Lemma ends_return v : ends (mret (CReturn v)).
Proof. apply gives_ret. by exists v. Qed.

Lemma stack_prefix a n k : on_stack a n -> k <= n -> on_stack a k.
Proof. unfold on_stack. lia. Qed.

Lemma sum_ends : ends (isr80h_command0_sum loc).
Proof.
  eapply serves_bind; [eauto|intros _ _]. eapply serves_bind; [eauto|intros _ _]. eapply serves_bind; [eauto|intros v1 _].
  eapply serves_bind; [eauto|intros v2 _]. apply ends_return.
Qed.

Lemma ticks_ends : ends isr80h_command19_get_ticks.
Proof. eapply serves_bind; [apply gives_gets|intros v _]. apply ends_return. Qed.

Lemma printing_ends virtual f : 0 <= virtual -> (forall b t, tty_wf t -> tty_wf (f b t)) ->
  ends (buf ← user_string loc virtual 1024; _ ← on_tty (f buf); mret (CReturn 0)).
Proof.
  intros Hv Hf. eapply serves_bind; [apply gives_string; [eauto|done|lia]|intros buf _].
  eapply serves_bind; [apply gives_tty; apply Hf|intros _ _]. apply ends_return.
Qed.

Lemma print_ends : ends (isr80h_command1_print loc).
Proof.
  eapply serves_bind; [eauto|intros _ _]. eapply serves_bind; [eauto|intros v [Hv _]]. apply printing_ends; [exact Hv|].
  intros b t W. exact (proj1 (print_on _ b t (conj W eq_refl))).
Qed.

Lemma printc_ends : ends (isr80h_command11_printc loc).
Proof.
  eapply serves_bind; [eauto|intros _ _]. eapply serves_bind; [eauto|intros color _].
  eapply serves_bind; [apply gives_fail_if; done|intros _ _]. eapply serves_bind; [eauto|intros _ _].
  eapply serves_bind; [eauto|intros v [Hv _]]. apply (printing_ends v (fun b => printc b color)); [exact Hv|].
  intros b t W. exact (proj1 (writechars_on _ (i8 color) b t (conj W eq_refl))).
Qed.

Lemma putchar_ends : ends (isr80h_command3_putchar loc).
Proof.
  eapply serves_bind; [eauto|intros _ _]. eapply serves_bind; [eauto|intros c _].
  eapply serves_bind; [apply gives_tty|intros _ _; apply ends_return]. intros t W. exact (proj1 (writechar_on _ (u8 c) 15 t (conj W eq_refl))).
Qed.

Lemma move_cursor_ends : ends (isr80h_command_terminal_move_cursor loc).
Proof.
  eapply serves_bind; [eauto|intros _ _]. eapply serves_bind; [eauto|intros delta _].
  eapply (serves_bind _ _ _ _ (fun _ => True)); [|intros res _; apply ends_return]. intros m l x t I.
  pose proof (move_cursor_on _ (i32 delta) (mtty m) (conj (in_tty _ _ _ _ _ _ I) eq_refl)) as [W _].
  destruct (terminal_move_cursor (i32 delta) (mtty m)) as [res t']. split; [|done]. exists l, x, t. by apply inside_tty.
Qed.

Lemma getkey_ends : ends isr80h_command2_getkey.
Proof.
  intros m l x t I. unfold isr80h_command2_getkey, keyboard_pop. destruct (caller _ _ _ _ _ _ I) as (Et & Hp & Ho & _).
  unfold task_current in Et. destruct (current_task (ssched (msys m)) =? 0); [done|]. rewrite Et. cbn [mbind option_bind].
  rewrite Ho, Hp. cbn [mbind option_bind]. destruct (buffer_pop (keyboard (mb_proc x))) as [c b]. split; [|by eexists].
  pose proof (in_ptr _ _ _ _ _ _ I) as Ex. destruct (keyboard_keeps F A0 h0 (msys m) l x b (in_system _ _ _ _ _ _ I) (in_x _ _ _ _ _ _ I)) as (l' & S' & U & Hx' & _).
  rewrite Ex in S', U, Hx'. exists l', (Member ptr (with_keyboard b (mb_proc x)) (mb_chunk x)), t.
  eapply (inside_step A0 h0 m l x t _ l'); [exact I|exact S'|exact U|exact Hx'|done|done|done|done|apply I|apply I].
Qed.

(** ** The memory of the caller *)

Lemma gives_current A h : gives A h current_process_ptr (fun p => p = ptr).
Proof.
  intros m l x t I. unfold current_process_ptr. destruct (caller _ _ _ _ _ _ I) as (-> & _ & Ho & _). split; [by exists l, x, t|done].
Qed.

Lemma on_process_caller {X} A h m l x t (c : Z -> Z -> io (pst (D := D) (H := H)) X) :
  inside A h m l x t ->
  on_process ptr c m =
  (let '(r, (p, k)) := c (current_directory (cpu (ssched (msys m)))) (mb_chunk x) (mb_proc x, skern (msys m)) in
   (r, Mach (put_process ptr p k (msys m)) (mtty m) (mkeyboard m))).
Proof.
  intros I. unfold on_process. destruct (caller _ _ _ _ _ _ I) as (_ & -> & _ & <- & _). rewrite (in_task _ _ _ _ _ _ I). done.
Qed.

Lemma inside_put m l1 x l2 t p' k' :
  let s' := put_process ptr p' k' (msys m) in let x' := Member ptr p' (mb_chunk x) in
  inside A0 h0 m (l1 ++ x :: l2) x t -> system F A0 h0 s' (l1 ++ x' :: l2) ->
  undisturbed A0 ptr (msys m) (l1 ++ x :: l2) s' (l1 ++ x' :: l2) -> proc_task p' = proc_task (mb_proc x) ->
  inside A0 h0 (Mach s' (mtty m) (mkeyboard m)) (l1 ++ x' :: l2) x' t.
Proof.
  intros s' x' I S' U Ht. eapply (inside_step A0 h0 m _ x t); [exact I|exact S'|exact U|apply middle_in|done|done|done|done|..].
  - apply (in_task _ _ _ _ _ _ I).
  - apply (in_esp _ _ _ _ _ _ I).
Qed.

Lemma gives_malloc size : 0 <= size < 2 ^ 32 -> gives A0 h0 (on_process ptr (fun cur chunk => process_malloc cur chunk size)) (fun _ => True).
Proof.
  intros Hs m l x t I. rewrite (on_process_caller _ _ _ _ _ _ _ I). pose proof (in_x _ _ _ _ _ _ I) as Hx.
  apply list_elem_of_split in Hx as (l1 & l2 & ->). pose proof (in_ptr _ _ _ _ _ _ I) as Ep.
  destruct (malloc_undisturbed F A0 h0 (msys m) l1 x l2 size (in_system _ _ _ _ _ _ I) Hs) as (r & p' & k' & E & S' & U & Ht).
  rewrite E. split; [|done]. rewrite Ep in S', U. eexists _, _, t. by apply inside_put.
Qed.

Lemma gives_free addr : gives A0 h0 (on_process ptr (fun cur chunk => modify (process_free cur chunk addr))) (fun _ => True).
Proof.
  intros m l x t I. rewrite (on_process_caller _ _ _ _ _ _ _ I). pose proof (in_x _ _ _ _ _ _ I) as Hx.
  apply list_elem_of_split in Hx as (l1 & l2 & ->). pose proof (in_ptr _ _ _ _ _ _ I) as Ep.
  destruct (free_undisturbed F A0 h0 (msys m) l1 x l2 addr (in_system _ _ _ _ _ _ I)) as (p' & k' & E & S' & U & Ht).
  unfold modify. rewrite E. split; [|done]. rewrite Ep in S', U. eexists _, _, t. by apply inside_put.
Qed.

Lemma malloc_ends : ends (isr80h_command4_malloc loc).
Proof.
  eapply serves_bind; [eauto|intros _ _]. eapply serves_bind; [apply gives_tolerate; eauto|].
  intros [size|] Hs; [|apply ends_return]. eapply serves_bind; [apply gives_current|intros p ->].
  eapply serves_bind; [apply gives_malloc, (Hs size eq_refl)|intros v _]. apply ends_return.
Qed.

Lemma free_ends : ends (isr80h_command5_free loc).
Proof.
  eapply serves_bind; [eauto|intros _ _]. eapply serves_bind; [eauto|intros a _]. eapply serves_bind; [apply gives_current|intros p ->].
  eapply serves_bind; [apply gives_free|intros _ _]. apply ends_return.
Qed.

(** ** Copies to the caller *)

Lemma inside_pages A h m l x t mm : A0 ⊆ A ->
  inside A h m l x t ->
  (forall q n, run (heap_of (msys m)) q n -> q ∉ own (mb_proc x) -> same_on (mmem m) mm q (q + 4096 * n)) ->
  space (heap_of (msys m)) mm (mb_chunk x) (load32 (mmem m) (mb_chunk x)) (mb_proc x) -> inside A h (with_mmem mm m) l x t.
Proof.
  intros Hsub I Hm SP. pose proof (in_system _ _ _ _ _ _ I) as S. pose proof (sy_members _ _ _ _ _ S x (in_x _ _ _ _ _ _ I)) as Ox.
  destruct (pages_keeps F A h (msys m) l x mm S (in_x _ _ _ _ _ _ I)) as [S' U]; [|exact SP| |].
  - intros q n Hn Hq. apply Hm; [done|]. intros Ho. by apply Hq, mb_own_cells.
  - apply (space_pages_same _ _ _ _ _ (mo_space _ _ Ox)). intros q n Hn Hq. apply Hm; [done|]. intros Ho.
    apply (own_not_pages _ _ _ _ _ (mo_space _ _ Ox) q Ho). by apply list_elem_of_further.
  - rewrite (in_ptr _ _ _ _ _ _ I) in U.
    exact (inside_step A h m l x t _ l x t I S' (undisturbed_weaken _ _ _ _ _ _ _ Hsub U) (in_x _ _ _ _ _ _ I) (in_ptr _ _ _ _ _ _ I)
      eq_refl eq_refl eq_refl (in_task _ _ _ _ _ _ I) (in_esp _ _ _ _ _ _ I)).
Qed.

Lemma copy_out A h m l x t address buffer size : A0 ⊆ A ->
  inside A h m l x t -> 0 <= address < 2 ^ 32 -> 0 <= size < 2 ^ 32 -> no_cell m l buffer size ->
  let '(_, mm) := task_copy_to_user (procs (msys m)) (mmem m) (task_current (msys m)) address buffer size in going A h (with_mmem mm m).
Proof.
  intros Hsub I Ha Hs Hb. pose proof I as I'. destruct (caller _ _ _ _ _ _ I) as (-> & _ & _ & Ec & Hpo & SP). unfold task_copy_to_user.
  assert (Hbuf : forall q n i, q ∈ page_directory t :: table_pages (mmem m) (load32 (mmem m) (page_directory t)) ++ own (mb_proc x) ->
    run (heap_of (msys m)) q n -> 0 <= i < size -> ~ (q <= buffer + i < q + 4096 * n)).
  { intros q n i Hq. apply Hb. rewrite Ec in Hq. eapply member_cells; [exact (in_x _ _ _ _ _ _ I)|]. by apply mb_space_cells. }
  pose proof (copy_user_spec (procs (msys m)) (mmem m) t (mb_proc x) _ address buffer size true
    (space_uview _ _ _ _ _ SP _ t address size eq_refl Hpo Ha Hs) Ha Hs
    (fun He => space_copy_frame _ _ _ _ _ SP t address buffer size true eq_refl Ha Hs Hbuf He)) as Hc.
  destruct (task_copy_user _ _ _ _ _ _ _) as [res mm]. exists l, x, t.
  destruct Hc as [(Hr & _ & _ & Hm)|(_ & _ & ->)]; [|destruct m as [[[]] ?]; exact I]. rewrite <- (owned_request_copy _ _ _ _ _ SP) in Hr.
  pose proof (space_copied _ _ _ _ _ SP _ _ _ _ Ha Hs Hbuf _ Hm Hr) as SP'. rewrite Ec in SP, SP', Hm.
  apply (inside_pages A h m l x t mm Hsub I); [|done]. intros q n Hn Hq b Hb'. apply Hm. intros i Hi <-.
  destruct Hr as (_ & _ & _ & He & Ho). unfold copy_dst, phys_at in Hb'.
  destruct (owned_mapped _ _ _ _ _ SP true (address + i) (Ho i Hi)) as [b Hl]. rewrite Hl in Hb'. cbn in Hb'.
  destruct (leaf_own _ _ _ _ _ SP true (address + i) b ltac:(lia) Hl) as (q' & n' & Ho' & Hn' & Hx' & _).
  by rewrite (run_unique _ _ _ _ _ _ Hn Hn' Hb' Hx') in Hq.
Qed.

Lemma arguments_ends : ends (isr80h_command8_get_program_arguments loc).
Proof.
  eapply serves_bind; [eauto|intros _ _]. eapply serves_bind; [eauto|intros destination Hd]. eapply serves_bind; [apply gives_current|intros p ->].
  eapply (serves_bind _ _ _ _ (fun _ => True)).
  { intros m l x t I. rewrite (on_process_caller _ _ _ _ _ _ _ I). unfold gets. split; [|done]. cbn [fst].
    destruct (caller _ _ _ _ _ _ I) as (_ & Hp & _). exists l, x, t.
    replace (Mach (put_process ptr (mb_proc x) (skern (msys m)) (msys m)) (mtty m) (mkeyboard m)) with m; [exact I|].
    destruct m as [[k c ps sl cp] tt]. unfold put_process, with_procs, with_skern. cbn in *. by rewrite insert_id. }
  intros args _. eapply (serves_bind _ _ _ _ (fun _ => True)).
  { apply gives_modify. intros m l x t I. exists l, x, t. eapply inside_stack; [exact I|exact (pl_area Hloc)|].
    intros b Hb. rewrite !load8_store32_ne by lia. done. }
  intros _ _. eapply (serves_bind _ _ _ _ (fun _ => True)); [|intros _ _; apply ends_return].
  apply gives_on_mem. intros m l x t I.
  apply (copy_out A0 h0 m l x t destination (area loc) 8); [done|exact I|exact Hd|lia|].
  eapply stack_no_cell; [exact I|exact (pl_area Hloc)|lia].
Qed.

(** ** Leaving the kernel *)

(** The kernel itself is in order, whichever task runs. *)
Record settled (A : gmap Z Z) (h : H) m l : Prop := Settled {
  st_system : system F A h (msys m) l;
  st_other : undisturbed A0 ptr s0 l0 (msys m) l;
  st_chunk : is_Some (A0 !! kernel_chunk (ssched (msys m)));
  st_dir : current_directory (cpu (ssched (msys m))) = load32 (mmem m) (kernel_chunk (ssched (msys m)));
  st_old : current_directory (cpu (ssched (msys m))) = 0 \/ is_Some (A0 !! current_directory (cpu (ssched (msys m))));
  st_tty : tty_wf (mtty m)
}.

Lemma inside_settled A h m l x t : inside A h m l x t -> settled A h m l.
Proof. intros []. by constructor. Qed.

(** The state of a machine between two calls, with the processor in any address space: the invariant holds when the
    kernel's is loaded. *)
Definition in_kernel s : sys D H := with_ssched (kernel_page (memory s) (ssched s)) s.

Record between m l : Prop := Between {
  bt_system : system F A0 h0 (in_kernel (msys m)) l;
  bt_chunk : is_Some (A0 !! kernel_chunk (ssched (msys m)));
  bt_tty : tty_wf (mtty m)
}.

(** The processor continues with the task of a process, in its address space. *)
Definition left_at (o : next_outcome) m l : Prop :=
  between m l /\ undisturbed A0 ptr s0 l0 (msys m) l /\
  match o with
  | NextPanic => False
  | NextHalted c => ssched (msys m) = c
  | NextRun p r c => ssched (msys m) = c /\ current_task c = p /\ exists y t, y ∈ l /\ proc_task (mb_proc y) = p /\
      task_store c !! p = Some t /\ r = regs t /\ cpu c = paging_switch (mmem m) (mb_chunk y)
  end.

(** Then the handler of the keyboard has seen the bytes that came in while the kernel waited; it has changed nothing but
    the key buffer of the process in the foreground. *)
Definition pressed m l m' : Prop :=
  exists keys l', press_keys keys m = (Ok tt, m') /\ between m' l' /\ Forall2 (keyed (current_process (msys m))) l l'.

Definition left_with (o : next_outcome) m' : Prop := exists m l, left_at o m l /\ pressed m l m'.

Lemma push_between m l c k : between m l -> exists s', keyboard_push c (msys m) = Some s' /\ current_process s' = current_process (msys m) /\
  exists l', between (Mach s' (mtty m) k) l' /\ Forall2 (keyed (current_process (msys m))) l l'.
Proof.
  intros [S Hc Ht]. unfold keyboard_push. destruct (Z.eqb_spec (current_process (msys m)) 0) as [Hz|Hz].
  { eexists. split; [done|]. split; [done|]. exists l. split; [by constructor|apply keyed_refl]. }
  destruct (sy_current _ _ _ _ _ S) as [?|Hin]; [done|]. apply list_elem_of_fmap in Hin as (y & E & Hy).
  change (current_process (in_kernel (msys m))) with (current_process (msys m)) in E.
  pose proof (mo_proc _ _ (sy_members _ _ _ _ _ S y Hy)) as Hp. change (procs (in_kernel (msys m))) with (procs (msys m)) in Hp.
  rewrite E, Hp. cbn [mbind option_bind]. eexists. split; [done|]. split; [done|].
  destruct (keyboard_keeps F A0 h0 _ l y (buffer_push c (keyboard (mb_proc y))) S Hy) as (l' & S' & _ & _ & K).
  exists l'. split; [|done]. constructor; [exact S'|exact Hc|exact Ht].
Qed.

Lemma press_between keys : forall m l, between m l -> exists m', pressed m l m' /\ press_keys keys m = (Ok tt, m').
Proof.
  unfold press_keys. induction keys as [|c keys IH]; intros m l B; cbn [handle_bytes].
  { exists m. assert (E : Mach (msys m) (mtty m) (mkeyboard m) = m) by (by destruct m). rewrite E. split; [|done].
    exists [], l. unfold press_keys. cbn [handle_bytes]. rewrite E. split; [done|]. split; [done|apply keyed_refl]. }
  destruct (handle_interrupt_result keyboard_push c (mkeyboard m) (msys m)) as (k1 & s1 & E1 & Hs).
  { intros c'. destruct (push_between m l c' (mkeyboard m) B) as (s' & E & _). by exists s'. }
  assert (B1 : current_process s1 = current_process (msys m) /\ exists l1, between (Mach s1 (mtty m) k1) l1 /\ Forall2 (keyed (current_process (msys m))) l l1).
  { destruct Hs as [->|(c' & Ec)].
    - split; [done|]. exists l. split; [destruct B; by constructor|apply keyed_refl].
    - destruct (push_between m l c' k1 B) as (s' & E & Hc & Hl). rewrite Ec in E. by injection E as <-. }
  destruct B1 as (Hcp & l1 & B1 & K1). destruct (IH _ _ B1) as (m' & (keys' & l' & E' & B' & K') & Em). cbn [msys mtty mkeyboard] in *. rewrite Hcp in K'.
  exists m'. rewrite E1. cbn [mbind option_bind]. destruct (handle_bytes keyboard_push keys k1 s1) as [[k2 s2]|] eqn:Eb; [|done].
  assert (Er : press_keys (c :: keys) m = (Ok tt, m')).
  { unfold press_keys. cbn [handle_bytes]. rewrite E1. cbn [mbind option_bind]. by rewrite Eb. }
  split; [|exact Em]. exists (c :: keys), l'. split; [exact Er|]. split; [done|]. by eapply keyed_trans.
Qed.

(** The keys do not touch the scheduler. *)
Lemma press_sched keys c m m' : press_keys keys (with_msched c m) = (Ok tt, m') -> exists m1, press_keys keys m = (Ok tt, m1) /\ m' = with_msched c m1.
Proof.
  unfold press_keys. cbn [msys mtty mkeyboard with_msched].
  rewrite (handle_bytes_map keyboard_push (with_ssched c)).
  - destruct (handle_bytes _ _ _ _) as [[k s]|]; [|done]. cbn. intros [= <-]. by eexists.
  - intros c' s. unfold keyboard_push. cbn. destruct (current_process s =? 0); [done|]. by destruct (procs s !! current_process s).
Qed.

Lemma sched_undisturbed s l c : kernel_chunk c = kernel_chunk (ssched s) -> undisturbed A0 ptr s l (with_ssched c s) l.
Proof. intros Hk. destruct (undisturbed_refl A0 ptr s l). by constructor. Qed.

Lemma kept_between m l x c : settled A0 h0 m l -> x ∈ l -> sched_kept (ssched (msys m)) c -> between (with_msched c m) l.
Proof.
  intros [S _ Hc Hd Ho Ht] Hx K. pose proof (sk_chunk _ _ K) as Hk. constructor; cbn; [|by rewrite Hk|done].
  apply (sched_keeps F A0 h0 (msys m) l x (kernel_page (mmem m) c)); [done|done|done| | |].
  - intros ts W%(sk_wf _ _ K). by apply (sched_wf_fields c).
  - intros q t Hq. by apply (sk_tasks _ _ K).
  - cbn. rewrite Hk. unfold mmem in Hd. rewrite Hd in Ho. exact Ho.
Qed.

Lemma leave_ok m l ts o :
  settled A0 h0 m l -> l <> [] -> ts ≡ₚ map (fun x => proc_task (mb_proc x)) l -> resumed (mmem m) ts (ssched (msys m)) o ->
  exists m', leave (Some o) m = (Ok (CEnter o), m') /\ left_at o m' l.
Proof.
  intros St Hne Hts Hr. destruct l as [|x0 l1] eqn:El; [done|]. rewrite <- El in *.
  assert (Hx0 : x0 ∈ l) by (rewrite El; apply list_elem_of_here). clear El.
  destruct o as [|c|p r c]; [done| |]; (eexists; split; [done|]).
  - cbn in Hr. split; [by eapply kept_between|]. split; [|done]. eapply undisturbed_trans; [exact (st_other _ _ _ _ St)|].
    by apply sched_undisturbed, sk_chunk.
  - destruct Hr as (K & Hp & Hcur & t & Ht & Er & Ecpu). split; [by eapply kept_between|].
    split; [eapply undisturbed_trans; [exact (st_other _ _ _ _ St)|]; by apply sched_undisturbed, sk_chunk|].
    split; [done|]. split; [done|]. rewrite Hts in Hp. apply list_elem_of_fmap in Hp as (y & -> & Hy). exists y, t.
    do 4 (split; [done|]). destruct (mo_task _ _ (sy_members _ _ _ _ _ (st_system _ _ _ _ St) y Hy)) as (t1 & Ht1 & E1 & _).
    destruct (sk_tasks _ _ K _ _ Ht1) as (t2 & Ht2 & E2 & _). rewrite Ht in Ht2. injection Ht2 as <-. rewrite Ecpu. by rewrite E2, E1.
Qed.

Lemma leave_idle_ok m l ts o keys :
  settled A0 h0 m l -> l <> [] -> ts ≡ₚ map (fun x => proc_task (mb_proc x)) l -> resumed (mmem m) ts (ssched (msys m)) o ->
  exists m1 m', leave_idle (Some (o, keys)) m = (Ok (CEnter o), m') /\ left_at o m1 l /\ pressed m1 l m'.
Proof.
  intros St Hne Hts Hr. destruct (leave_ok m l ts o St Hne Hts Hr) as (m1 & E & Hl).
  destruct (press_between keys m1 l (proj1 Hl)) as (m' & Hp & Em). exists m1, m'. split; [|done]. unfold leave_idle.
  destruct o as [|c|p r c]; [done|..]; injection E as <-; destruct (press_sched _ _ _ _ Em) as (m2 & E2 & ->);
    rewrite (io_bind_run _ _ _ _ _ E2); reflexivity.
Qed.

Lemma left_nothing o m l : left_at o m l -> left_with o m.
Proof. intros Hl. exists m, l. split; [done|]. destruct (press_between [] m l (proj1 Hl)) as (m' & Hp & E). injection E as <-. by destruct m. Qed.

Definition outcome (r : control) m : Prop :=
  match r with CReturn _ => going A0 h0 m | CEnter o => left_with o m end.

Lemma ends_outcome c : ends c -> serves A0 h0 c outcome.
Proof.
  intros Hc m l x t I. specialize (Hc m l x t I). destruct (c m) as [[r|e] m']; [|done]. destruct Hc as [G [v ->]]. exact G.
Qed.

(** ** Sleep *)

Lemma serves_leave (f : mach D H -> option (next_outcome * list Z)) :
  (forall m l x t, inside A0 h0 m l x t -> exists ts o keys, f m = Some (o, keys) /\ sched_wf (ssched (msys m)) ts /\
     ts ≡ₚ map (fun x => proc_task (mb_proc x)) l /\ resumed (mmem m) ts (ssched (msys m)) o) ->
  serves A0 h0 (r ← gets f; leave_idle r) outcome.
Proof.
  intros Hf m l x t I. rewrite io_gets. destruct (Hf m l x t I) as (ts & o & keys & -> & _ & Hts & Hr).
  destruct (leave_idle_ok m l ts o keys (inside_settled _ _ _ _ _ _ I)) as (m1 & m' & -> & Hl); [|done|done|by exists m1, l].
  intros ->. by apply (not_elem_of_nil x), (in_x _ _ _ _ _ _ I).
Qed.

Lemma inside_tasks A h m l x t : inside A h m l x t ->
  exists ts, sched_wf (ssched (msys m)) ts /\ ts ≡ₚ map (fun x => proc_task (mb_proc x)) l /\ current_task (ssched (msys m)) ∈ ts.
Proof.
  intros I. destruct (sy_sched _ _ _ _ _ (in_system _ _ _ _ _ _ I)) as (ts & W & Hts). exists ts. split; [done|]. split; [done|].
  rewrite Hts, (in_current _ _ _ _ _ _ I). apply (list_elem_of_fmap_2 (fun x => proc_task (mb_proc x))), (in_x _ _ _ _ _ _ I).
Qed.

Lemma sleep_serves : serves A0 h0 (isr80h_command_sleep loc halts) outcome.
Proof.
  eapply serves_bind; [eauto|intros _ _]. eapply serves_bind; [eauto|intros ms _].
  eapply serves_bind; [apply gives_fail_if; done|intros _ _]. destruct (ms =? 0); [apply ends_outcome, ends_return|].
  eapply serves_bind; [apply gives_gets|intros deadline _]. apply serves_leave. intros m l x t I.
  destruct (inside_tasks _ _ _ _ _ _ I) as (ts & W & Hts & Hin). cbv zeta.
  destruct (update_there _ (set_eax 0) _ ts W Hin) as (c1 & E1). rewrite E1. cbn [mbind option_bind].
  pose proof (kept_update _ _ _ _ E1 (fun t => conj (conj eq_refl eq_refl) (conj eq_refl eq_refl))) as K1.
  destruct (task_sleep_resumed (mmem m) ts deadline halts c1 (sk_wf _ _ K1 _ W)) as (o & keys & Eo & Ho); [by intros ->; apply not_elem_of_nil in Hin|].
  exists ts, o, keys. split; [exact Eo|]. split; [done|]. split; [done|].
  by eapply resumed_kept.
Qed.

(** ** Exit *)

Lemma settled_step A h m l s' l' :
  A0 ⊆ A -> settled A h m l -> system F A h s' l' -> undisturbed A0 ptr (msys m) l s' l' -> cpu (ssched s') = cpu (ssched (msys m)) ->
  settled A h (Mach s' (mtty m) (mkeyboard m)) l'.
Proof.
  intros Hsub [S U [n Hn] Hd Ho Ht] S' U' Hcpu. pose proof (un_chunk _ _ _ _ _ _ U') as Hk.
  constructor; cbn [msys mtty]; rewrite ?Hcpu, ?Hk; try done; [by eapply undisturbed_trans|].
  unfold mmem in Hd |- *. cbn. rewrite Hd. symmetry. apply load32_ext. intros i Hi. apply (un_old _ _ _ _ _ _ U' _ _ Hn).
  assert (Hr : run (heap_of (msys m)) (kernel_chunk (ssched (msys m))) n)
    by (eapply (old_run F A h); [exact S|]; by eapply lookup_weaken). pose proof (run_bounds _ _ _ Hr). lia.
Qed.

Lemma settled_terminate m l1 x l2 : settled A0 h0 m (l1 ++ x :: l2) -> mb_ptr x = ptr ->
  exists r m', tolerate (on_sys (process_terminate ptr)) m = (r, m') /\
    (r = Err 1 /\ l1 ++ l2 = [] \/ exists v, r = Ok (Some v) /\ settled A0 h0 m' (l1 ++ l2) /\ mtty m' = mtty m).
Proof.
  intros St Ep. destruct (terminate_undisturbed F A0 h0 (msys m) l1 x l2 (st_system _ _ _ _ St)) as (r & s' & E & Hr). rewrite Ep in E, Hr.
  unfold tolerate, on_sys. rewrite E. destruct Hr as [(-> & _ & Hl)|(-> & _ & S' & U & Hcpu)].
  - do 2 eexists. split; [reflexivity|]. by left.
  - do 2 eexists. split; [reflexivity|]. right. exists 0. split; [done|]. split; [|done].
    exact (settled_step A0 h0 m _ s' _ ltac:(reflexivity) St S' U Hcpu).
Qed.

Lemma settled_next m l : settled A0 h0 m l ->
  match next_task halts m with
  | (Ok r, m') => exists o m1, r = CEnter o /\ left_at o m1 l /\ pressed m1 l m'
  | (Err e, _) => e = 1 /\ l = []
  end.
Proof.
  intros St. unfold next_task. rewrite io_gets. destruct (sy_sched _ _ _ _ _ (st_system _ _ _ _ St)) as (ts & W & Hts). destruct (decide (ts = [])) as [->|Hts0].
  - assert (Hnil : l = []) by (apply Permutation_nil in Hts; by destruct l).
    unfold task_next. rewrite (proj2 (Z.eqb_eq _ 0) (proj2 (wf_empty _ _ W) eq_refl)). done.
  - destruct (task_next_resumed (mmem m) ts halts (ssched (msys m)) W Hts0) as (o & keys & Eo & Ho). rewrite Eo.
    destruct (leave_idle_ok m l ts o keys St) as (m1 & m2 & -> & Hleft); [|done|done|by exists o, m1].
    intros Hn. rewrite Hn in Hts. cbn in Hts. by apply Hts0, Permutation_nil.
Qed.

Lemma exit_result m l x t :
  inside A0 h0 m l x t ->
  match isr80h_command9_exit halts m with
  | (Ok r, m') => exists o, r = CEnter o /\ left_with o m'
  | (Err e, _) => e = 1 /\ l = [x]
  end.
Proof.
  intros I. pose proof (in_ptr _ _ _ _ _ _ I) as Ep. pose proof (in_x _ _ _ _ _ _ I) as Hx. apply list_elem_of_split in Hx as (l1 & l2 & ->).
  unfold isr80h_command9_exit. destruct (caller _ _ _ _ _ _ I) as (Et & _ & Ho & _). unfold mbind at 1, io_bind at 1.
  unfold current_process_ptr. rewrite Et, Ho. clear Et Ho.
  destruct (settled_terminate m l1 x l2 (inside_settled _ _ _ _ _ _ I) Ep) as (r & m' & E & Hr).
  unfold mbind at 1, io_bind at 1. rewrite E. destruct Hr as [[-> Hl]|(v & -> & St & _)]; [split; [done|]; by destruct l1, l2|].
  cbv iota beta. pose proof (settled_next m' _ St) as Hn. destruct (next_task halts m') as [[r|e] m2].
  - destruct Hn as (o & m1 & -> & Hn). exists o. split; [done|]. by exists m1, (l1 ++ l2).
  - destruct Hn as [-> Hn]. split; [done|]. by destruct l1, l2.
Qed.

(** ** Loading *)

(** The new process, in a kernel that is in order. *)
Definition loaded (A : gmap Z Z) (h : H) (q : Z) m : Prop := exists l, settled A h m l /\ q ∈ map mb_ptr l.

Lemma loads_path A h path args :
  A0 ⊆ A -> serves A h (on_sys (process_load_with_arguments path args)) (loaded A h).
Proof.
  intros Hsub m l x t I. pose proof (in_system _ _ _ _ _ _ I) as S. unfold on_sys, process_load_with_arguments. rewrite io_gets.
  destruct (process_get_free_slot (msys m) <? 0); [split; [done|]; exists l, x, t; by destruct m|]. unfold fail_if. rewrite io_mret.
  destruct (process_load_for_slot_with_arguments path _ args (msys m)) as [r s'] eqn:E.
  destruct (load_undisturbed F A h (msys m) l _ _ _ _ _ ptr S E) as [Hcpu Hr]. destruct r as [q|e].
  - destruct Hr as (y & Ey & S' & U). exists (l ++ [y]). split; [|rewrite List.map_app; apply elem_of_app; right; by rewrite <- Ey; apply list_elem_of_here].
    eapply settled_step; [done|by eapply inside_settled|done|by eapply undisturbed_weaken|done].
  - destruct Hr as (He & S' & U & n & Hs). split; [done|]. exists l, x, t.
    eapply (inside_step A h m l x t s' l x t I S'); [by eapply undisturbed_weaken|exact (in_x _ _ _ _ _ _ I)|exact (in_ptr _ _ _ _ _ _ I)|done|done|
      by rewrite Hs|rewrite Hs; exact (in_task _ _ _ _ _ _ I)|exact (in_esp _ _ _ _ _ _ I)].
Qed.

Hypothesis Hstack : length stack = Z.to_nat RORTHOX_MAX_PATH.

Lemma join_path_some prefix name : prefix ∈ program_search_paths -> exists path, join_path stack prefix name (strnlen prefix RORTHOX_MAX_PATH) = Some path.
Proof.
  intros Hp. assert (Hl : exists n, (0 < n < 10)%nat /\ strnlen prefix RORTHOX_MAX_PATH = Z.of_nat n /\ length (cstring prefix) = n).
  { apply elem_of_cons in Hp as [->|[->|Hp]%elem_of_cons]; [exists 3%nat|exists 7%nat|by apply not_elem_of_nil in Hp]; (split; [lia|done]). }
  destruct Hl as (n & Hn & -> & Hc). unfold join_path, strcpy. rewrite strcpy_loop_spec, Hc, Hstack. unfold RORTHOX_MAX_PATH.
  rewrite decide_True by lia. cbn [mbind option_bind]. rewrite Nat2Z.id. set (path := take 0 stack ++ _).
  assert (Hpath : length path = 108%nat).
  { subst path. rewrite !length_app, length_take, length_drop, Hc, Hstack. unfold RORTHOX_MAX_PATH. cbn [length]. lia. }
  unfold strncpy. rewrite strncpy_loop_spec. cbv zeta. rewrite length_drop, Hpath, decide_True; [by eexists|]. rewrite length_take. lia.
Qed.

Lemma loads_loop A h args name n prefixes : A0 ⊆ A -> Forall (.∈ program_search_paths) prefixes ->
  serves A h (on_sys (load_program_loop stack prefixes name n args)) (loaded A h).
Proof.
  intros Hsub Hf. induction Hf as [|prefix prefixes Hp _ IH].
  { intros m l x t I. split; [done|]. exists l, x, t. by destruct m. }
  cbn [load_program_loop]. destruct (_ || _); [exact IH|]. destruct (join_path_some prefix name Hp) as [path ->].
  intros m l x t I. pose proof (loads_path A h path args Hsub m l x t I) as Hl. unfold on_sys in Hl |- *.
  destruct (process_load_with_arguments path args (msys m)) as [[q|e] s']; [exact Hl|]. destruct Hl as [He (l' & x' & t' & I')].
  destruct (e =? - ENOENT); [|split; [done|by exists l', x', t']]. exact (IH (Mach s' (mtty m) (mkeyboard m)) l' x' t' I').
Qed.

Lemma loads_program A h name args : A0 ⊆ A -> serves A h (on_sys (isr80h_load_program stack name args)) (loaded A h).
Proof.
  intros Hsub. apply loads_loop; [done|]. destruct (_ && _); repeat (apply Forall_cons; split; [|]); try apply Forall_nil; try done;
    [apply list_elem_of_here|apply list_elem_of_further, list_elem_of_here|apply list_elem_of_here].
Qed.

Lemma enter_left q m l : settled A0 h0 m l -> q ∈ map mb_ptr l -> exists o m', enter_process q m = (Ok (CEnter o), m') /\ left_with o m'.
Proof.
  intros St Hq. destruct (switch_undisturbed F A0 h0 (msys m) l q ptr (st_system _ _ _ _ St) Hq) as [S' U].
  unfold enter_process. rewrite io_modify, io_gets. set (m1 := Mach (process_switch q (msys m)) (mtty m) (mkeyboard m)).
  assert (St1 : settled A0 h0 m1 l) by (eapply settled_step; [reflexivity|exact St|exact S'|exact U|done]).
  apply list_elem_of_fmap in Hq as (y & -> & Hy). pose proof (sy_members _ _ _ _ _ S' y Hy) as Oy.
  change (procs (msys m1)) with (procs (process_switch (mb_ptr y) (msys m))). rewrite (mo_proc _ _ Oy). cbn [mbind option_bind].
  destruct (sy_sched _ _ _ _ _ S') as (ts & W & Hts).
  destruct (switch_resumed (mmem m1) ts (proc_task (mb_proc y)) (ssched (msys m1)) (ssched (msys m1))) as (o & Eo & Ho); [done|exact W| |].
  { rewrite Hts. by apply (list_elem_of_fmap_2 (fun x => proc_task (mb_proc x))). }
  cbn [mbind option_bind] in Eo. rewrite Eo.
  destruct (leave_ok m1 l ts o St1) as (m' & -> & Hl); [by intros ->; apply not_elem_of_nil in Hy|done|done|exists o, m'; split; [done|by eapply left_nothing]].
Qed.

Lemma process_start_serves : serves A0 h0 (isr80h_command6_process_load_start loc stack) outcome.
Proof.
  eapply serves_bind; [eauto|intros _ _]. eapply serves_bind.
  { apply gives_tolerate. eapply serves_bind; [eauto|intros v [Hv _]]. apply gives_string; [|exact Hv|done].
    eapply stack_prefix; [exact (pl_area Hloc)|done]. }
  intros [filename|] _; [|apply ends_outcome, ends_return]. eapply serves_bind; [apply gives_fail_if; done|intros _ _].
  intros m l x t I. pose proof (loads_program A0 h0 filename None ltac:(reflexivity) m l x t I) as Hl.
  unfold mbind at 1, io_bind at 1, tolerate. destruct (on_sys _ m) as [[q|e] m'].
  - destruct Hl as (l' & St & Hq). destruct (enter_left q m' l' St Hq) as (o & m2 & -> & Ho). exact Ho.
  - destruct Hl as [He G]. rewrite (proj2 (Z.ltb_lt e 0) He). exact G.
Qed.

(** ** The buffer of the arguments *)

(** The allocation [a] of the call. *)
Definition held (a : Z) (h : H) : Prop := owned_by (fun _ => True) A0 h0 [a] h.

Lemma system_alloc A' h' s l k :
  system F A0 h0 s l -> (forall q n, run (heap_of s) q n -> run (kheap k) q n /\ same_on (memory s) (kmem k) q (q + 4096 * n)) ->
  vfs_ok F (kfiles k) -> arena (kheap k) = arena (heap_of s) -> A0 ⊆ A' -> owned_by (fun _ => True) A' h' (all_cells (memory s) l) (kheap k) ->
  system F A' h' (with_skern k s) l /\ all_cells (kmem k) l = all_cells (memory s) l.
Proof.
  intros S Hm V Ha Hsub Ho.
  assert (Hk : forall y, y ∈ l -> member_ok (with_skern k s) y /\ mb_cells (kmem k) y = mb_cells (memory s) y).
  { intros y Hy. apply (member_kept s (with_skern k s) y); [by apply (sy_members _ _ _ _ _ S)| |done|done|intros u Hu; by exists u].
    intros q n Hq Hn. by apply Hm. }
  assert (Hc : all_cells (kmem k) l = all_cells (memory s) l) by (apply all_cells_ext; intros y Hy; by apply Hk).
  split; [|done]. destruct S. constructor; try assumption.
  - by eapply placed_arena.
  - intros y Hy. by apply Hk.
  - unfold kowns. cbn. by rewrite Hc.
  - destruct sy_cur as [?|[n Hn]]; [by left|right]. exists n. by eapply lookup_weaken.
Qed.

Lemma inside_alloc m l x t size a k :
  inside A0 h0 m l x t -> kalloc size (skern (msys m)) = (a, k) ->
  (a = 0 /\ inside A0 h0 (with_mkern k m) l x t) \/
  (a <> 0 /\ exists A h, held a h /\ A !! a = Some (blocks_for (u32 size)) /\ inside A h (with_mkern k m) l x t).
Proof.
  intros I E. pose proof (in_system _ _ _ _ _ _ I) as S. pose proof (sy_owns _ _ _ _ _ S) as Ho.
  pose proof (kalloc_stays _ _ _ _ _ _ _ Ho E) as St. destruct (kalloc_spec _ _ _ _ _ _ _ Ho E) as [[h Hh] [[-> ->]|(Ha & Ho' & _ & Hrun & _)]].
  { left. split; [done|]. by destruct m as [[] ?]. }
  right. split; [done|]. unfold kowns in Ho'. rewrite Permutation_cons_append in Ho'.
  destruct (owned_rebase _ _ _ _ _ _ Ho') as (A' & h' & Hc & Ha' & HA'). exists A', h'. split; [exact Ha'|].
  split; [apply HA'; [done|]; destruct Ho' as (_ & B & _ & _ & _ & Hd & _); apply NoDup_app in Hd as (_ & Hd & _); intros Hin; by apply (Hd a Hin), list_elem_of_here|].
  assert (Hsub : A0 ⊆ A').
  { apply map_subseteq_spec. intros q n Hq. apply HA'; [eapply owned_old; [exact Ho'|exact Hq]|]. by eapply (old_not_cell F A0 h0). }
  assert (Harena : arena h' = arena h0 /\ arena (kheap k) = arena (heap_of (msys m))).
  { destruct Ha' as [E1 _], Hc as [E2 _], Ho as [E3 _]. split; congruence. }
  destruct (system_alloc A' h' (msys m) l k S St) as [S' Hcells]; [rewrite Hh; by apply vfs_ok_heap, (sy_files _ _ _ _ _ S)|apply Harena|done|exact Hc|].
  assert (U : undisturbed A0 ptr (msys m) l (with_skern k (msys m)) l).
  { split; [|done|].
    - intros q n Hq. apply St. by eapply old_run.
    - intros y Hy _. split; [done|]. split; [|intros q n _ Hn; by apply St].
      eapply cells_same; [by apply (sy_members _ _ _ _ _ S)|]. intros q n _ Hn. by apply St. }
  pose proof I as [_ _ Uo Hx Hp Ht Hcur He [n Hn] Hd Hold Htty]. constructor; try done; [split; [done|apply Harena]|by eapply undisturbed_trans|].
  - unfold mmem in Hd |- *. cbn. rewrite Hd. symmetry. apply load32_ext. intros i Hi. pose proof (old_run F A0 h0 _ _ _ _ S Hn) as Hr.
    pose proof (run_bounds _ _ _ Hr). destruct (St _ _ Hr) as [_ Hs]. apply Hs. lia.
Qed.

Lemma system_release A h s l a :
  system F A h s l -> held a h -> current_directory (cpu (ssched s)) = 0 \/ is_Some (A0 !! current_directory (cpu (ssched s))) ->
  system F A0 h0 (with_skern (krelease a (skern s)) s) l /\ undisturbed A0 ptr s l (with_skern (krelease a (skern s)) s) l.
Proof.
  intros S Hh Hcur. pose proof (sy_owns _ _ _ _ _ S) as Ho. assert (Hl : live h A) by (by destruct Ho as (_ & B & Hl & _)).
  pose proof (owned_trans _ _ _ _ _ _ _ _ Hh Hl Ho) as Hall. rewrite <- Permutation_cons_append in Hall.
  assert (Hna : a ∉ all_cells (memory s) l) by (destruct Hall as (_ & B & _ & _ & _ & Hd & _); by apply NoDup_cons in Hd as [? _]).
  assert (Hrun : forall q n, run (heap_of s) q n -> q <> a -> run (kfree (heap_of s) a) q n).
  { intros q n (M & HM & Hq) Hne. destruct (owned_run _ _ _ _ _ a Hall (list_elem_of_here _ _)) as (c & M' & HM' & Hc).
    rewrite (live_fun _ _ _ HM' HM) in Hc. exists (delete a M). split; [by eapply live_free|]. by rewrite lookup_delete_ne. }
  assert (Hk : forall y, y ∈ l -> member_ok (with_skern (krelease a (skern s)) s) y).
  { intros y Hy. apply (member_kept s); [by apply (sy_members _ _ _ _ _ S)| |done|done|intros u Hu; by exists u].
    intros q n Hq Hn. split; [|apply same_on_refl]. apply Hrun; [done|]. intros ->. apply Hna. by eapply member_cells. }
  split.
  - destruct S. constructor; try assumption; [by apply vfs_ok_heap|by eapply placed_arena; [apply arena_free|]|]. by eapply owned_free.
  - split; [intros q n _; apply same_on_refl|done|]. intros y Hy _. split; [done|]. split; [done|]. intros q n Hq Hn.
    split; [|apply same_on_refl]. apply Hrun; [done|]. intros ->. apply Hna. by eapply member_cells.
Qed.

Lemma settled_release A h a m l : settled A h m l -> held a h -> settled A0 h0 (release a m) l.
Proof.
  intros [S U Hc Hd Ho Ht] Hh. destruct (system_release A h (msys m) l a S Hh Ho) as [S' U'].
  constructor; try done. by eapply undisturbed_trans.
Qed.

Lemma inside_release A h a m l x t : inside A h m l x t -> held a h -> inside A0 h0 (release a m) l x t.
Proof.
  intros I Hh. destruct (settled_release A h a m l (inside_settled _ _ _ _ _ _ I) Hh) as [S U _ _ _ _].
  destruct I. by constructor.
Qed.

Section buffer.
Context (A : gmap Z Z) (h : H) (a n : Z).
Hypothesis Hheld : held a h.
Hypothesis Hbuf : A !! a = Some n.

Lemma buffer_apart m l x t q k :
  inside A h m l x t -> run (heap_of (msys m)) q k -> q ∈ all_cells (mmem m) l \/ is_Some (A0 !! q) -> apart a n q k.
Proof.
  intros I Hk Hq. pose proof (old_run F A h _ _ _ _ (in_system _ _ _ _ _ _ I) Hbuf) as Ha. eapply run_apart; [exact Ha|exact Hk|].
  intros ->. destruct Hq as [Hq|[c Hc]]; [by eapply old_not_cell; [exact (in_system _ _ _ _ _ _ I)|exact Hbuf|]|].
  destruct Hheld as (_ & B & _ & _ & Hd & _ & He & _). destruct (proj1 (He q) (list_elem_of_here _ _)) as [b Hb].
  by rewrite (map_disjoint_Some_l _ _ _ _ Hd Hc) in Hb.
Qed.

Lemma inside_buffer m l x t mm :
  inside A h m l x t -> (forall b, ~ (a <= b < a + 4096 * n) -> load8 mm b = load8 (mmem m) b) -> inside A h (with_mmem mm m) l x t.
Proof.
  intros I Hm. eapply inside_scratch; [exact I|]. intros q k Hk Hq b Hb. apply Hm.
  pose proof (buffer_apart m l x t q k I Hk Hq) as Hap. unfold apart in Hap. lia.
Qed.

Lemma copy_arguments_gives fuel : forall address count,
  4096 * n >= RORTHOX_MAX_COMMAND_ARGUMENTS * sizeof_command_argument -> 0 <= address < 2 ^ 32 -> 0 <= count ->
  RORTHOX_MAX_COMMAND_ARGUMENTS <= count + Z.of_nat fuel -> gives A h (copy_arguments_loop fuel a address count) (fun _ => True).
Proof.
  induction fuel as [|fuel IH]; intros address count Hn Ha Hc Hf; cbn [copy_arguments_loop];
    (destruct (address =? 0); [by apply gives_ret|]); (destruct (Z.leb_spec RORTHOX_MAX_COMMAND_ARGUMENTS count); [by apply serves_fail|]);
    [exfalso; lia|].
  unfold RORTHOX_MAX_COMMAND_ARGUMENTS, sizeof_command_argument in *. set (argument := a + count * 516) in *.
  assert (Hin : a <= argument /\ argument + 516 <= a + 4096 * n) by lia.
  eapply (serves_bind _ _ _ _ (fun _ => True)).
  { apply gives_on_mem. intros m l x t I. assert (Hno : no_cell m l argument 516).
    { intros q k i Hq Hk Hi Hb. pose proof (buffer_apart m l x t q k I Hk (or_introl Hq)) as Hap. unfold apart in Hap. lia. }
    pose proof (copy_in A h m l x t argument address 516 I Ha ltac:(lia) Hno) as Hcp.
    destruct (task_copy_from_user _ _ _ _ _ _) as [res mm]. destruct Hcp as [_ Hm]. exists l, x, t. apply inside_buffer; [done|].
    intros b Hb. apply Hm. lia. }
  intros _ _. eapply serves_bind; [apply gives_gets|intros text _]. eapply serves_bind; [apply gives_fail_if; done|intros _ _].
  eapply serves_bind; [apply gives_word|intros address' Ha']. unfold RORTHOX_COMMAND_ARGUMENT_SIZE.
  eapply (serves_bind _ _ _ _ (fun _ => True)).
  { apply gives_modify. intros m l x t I. exists l, x, t. apply inside_buffer; [done|]. intros b Hb. apply load8_store32_ne. lia. }
  intros _ _. eapply (serves_bind _ _ _ _ (fun _ => True)).
  { apply gives_modify. intros m l x t I. exists l, x, t. destruct (Z.ltb_spec 0 count); [|done]. apply inside_buffer; [done|].
    intros b Hb. apply load8_store32_ne. lia. }
  intros _ _. apply IH; [lia|exact Ha'|lia|unfold RORTHOX_MAX_COMMAND_ARGUMENTS; lia].
Qed.
End buffer.

Lemma copied_arguments address m l x t : 0 <= address < 2 ^ 32 -> inside A0 h0 m l x t ->
  match isr80h_copy_command_arguments address m with
  | (Ok a, m') => exists A h, A0 ⊆ A /\ held a h /\ going A h m'
  | (Err e, m') => e < 0 /\ going A0 h0 m'
  end.
Proof.
  intros Ha I. unfold isr80h_copy_command_arguments. destruct (Z.eqb_spec address 0) as [Hz|Hz]; [split; [done|]; by exists l, x, t|].
  unfold fail_if. rewrite io_mret. unfold mbind at 1, io_bind at 1.
  destruct (kalloc _ (skern (msys m))) as [a k] eqn:Ek.
  destruct (inside_alloc m l x t _ a k I Ek) as [[-> I1]|(Hne & A & h & Hh & HA & I1)].
  { cbn. split; [done|]. by exists l, x, t. }
  rewrite (proj2 (Z.eqb_neq a 0) Hne). rewrite io_mret. set (m1 := with_mkern k m) in *.
  destruct (in_base _ _ _ _ _ _ I1) as [Hsub _].
  pose proof (copy_arguments_gives A h a _ Hh HA (Z.to_nat RORTHOX_MAX_COMMAND_ARGUMENTS) address 0 ltac:(done) Ha ltac:(lia) ltac:(done) m1 l x t I1) as Hc.
  unfold mbind, io_bind, on_error. destruct (copy_arguments_loop _ _ _ _ m1) as [[u|e] m2].
  - exists A, h. split; [done|]. split; [done|]. apply Hc.
  - destruct Hc as [He (l2 & x2 & t2 & I2)]. split; [done|]. exists l2, x2, t2. by eapply inside_release.
Qed.

Lemma invoke_serves : serves A0 h0 (isr80h_command7_invoke_system_command loc stack) outcome.
Proof.
  eapply serves_bind; [eauto|intros _ _]. eapply serves_bind; [eauto|intros root Hroot]. intros m l x t I.
  pose proof (copied_arguments root m l x t Hroot I) as Hc. unfold mbind at 1, io_bind at 1.
  destruct (isr80h_copy_command_arguments root m) as [[a|e] m1]; [|exact Hc]. destruct Hc as (A & h & Hsub & Hh & l1 & x1 & t1 & I1).
  rewrite io_gets. destruct (_ || _).
  { rewrite io_modify. split; [done|]. exists l1, x1, t1. by eapply inside_release. }
  rewrite io_gets. unfold mbind, io_bind, finally.
  pose proof (loads_program A h (bytes_at (mmem m1) a (Z.to_nat RORTHOX_COMMAND_ARGUMENT_SIZE))
    (Some (argument_chain (S (Z.to_nat RORTHOX_MAX_COMMAND_ARGUMENTS)) (mmem m1) a)) Hsub m1 l1 x1 t1 I1) as Hl.
  destruct (on_sys _ m1) as [[q|e] m2].
  - destruct Hl as (l2 & St & Hq). pose proof (settled_release _ _ _ _ _ St Hh) as St2.
    destruct (enter_left q (release a m2) l2 St2 Hq) as (o & m3 & -> & Ho). exact Ho.
  - destruct Hl as [He (l2 & x2 & t2 & I2)]. split; [done|]. exists l2, x2, t2. by eapply inside_release.
Qed.

(** ** The handler *)

Definition file_command (c : command) : bool :=
  match c with FileOpen | FileRead | FileWrite | FileSeek | FileStat | FileClose => true | _ => false end.

Lemma command_serves c : file_command c = false -> c <> Exit -> serves A0 h0 (run_command loc stack halts c) outcome.
Proof.
  intros Hf He. destruct c; try discriminate Hf; cbn [run_command].
  - apply ends_outcome, sum_ends.
  - apply ends_outcome, print_ends.
  - apply ends_outcome, getkey_ends.
  - apply ends_outcome, putchar_ends.
  - apply ends_outcome, malloc_ends.
  - apply ends_outcome, free_ends.
  - exact process_start_serves.
  - exact invoke_serves.
  - apply ends_outcome, arguments_ends.
  - by destruct He.
  - apply ends_outcome, printc_ends.
  - apply ends_outcome, move_cursor_ends.
  - exact sleep_serves.
  - apply ends_outcome, ticks_ends.
Qed.

Lemma answer_result c m l x t : file_command c = false -> inside A0 h0 m l x t ->
  match answer (run_command loc stack halts c) m with
  | (Ok r, m') => outcome r m'
  | (Err _, _) => c = Exit /\ l = [x]
  end.
Proof.
  intros Hf I. unfold answer. destruct (decide (c = Exit)) as [->|He].
  - pose proof (exit_result m l x t I) as Hr. cbn [run_command]. destruct (isr80h_command9_exit halts m) as [[r|e] m'].
    + by destruct Hr as (o & -> & Ho).
    + by destruct Hr as [-> ->].
  - pose proof (command_serves c Hf He m l x t I) as Hr. destruct (run_command loc stack halts c m) as [[r|e] m']; [done|].
    destruct Hr as [Hneg G]. rewrite (proj2 (Z.ltb_lt e 0) Hneg). exact G.
Qed.

(** The way back to the program that was running. *)
Lemma return_settled m l x :
  settled A0 h0 m l -> x ∈ l -> current_task (ssched (msys m)) = proc_task (mb_proc x) ->
  exists m', on_sched task_page m = (Ok tt, m') /\ between m' l /\ undisturbed A0 ptr s0 l0 (msys m') l /\
    current_task (ssched (msys m')) = proc_task (mb_proc x) /\ cpu (ssched (msys m')) = paging_switch (mmem m') (mb_chunk x).
Proof.
  intros St Hx Hcur. destruct (mo_task _ _ (sy_members _ _ _ _ _ (st_system _ _ _ _ St) x Hx)) as (t & Ht & Ec & _).
  set (c := with_cpu (paging_switch (mmem m) (page_directory t)) true (ssched (msys m))).
  assert (E : task_page (mmem m) (ssched (msys m)) = Some c).
  { unfold task_page, task_switch. cbn. rewrite Hcur, Ht. cbn. rewrite <- Hcur. unfold c. by destruct (ssched (msys m)). }
  unfold on_sched. rewrite E. eexists. split; [done|]. assert (K : sched_kept (ssched (msys m)) c) by (by apply kept_fields).
  split; [eapply kept_between; [exact St|exact Hx|exact K]|].
  split; [eapply undisturbed_trans; [exact (st_other _ _ _ _ St)|by apply sched_undisturbed]|]. cbn. split; [done|by rewrite Ec].
Qed.

Lemma return_caller m l x t :
  inside A0 h0 m l x t ->
  exists m', on_sched task_page m = (Ok tt, m') /\ between m' l /\ undisturbed A0 ptr s0 l0 (msys m') l /\
    current_task (ssched (msys m')) = proc_task (mb_proc x) /\ cpu (ssched (msys m')) = paging_switch (mmem m') (mb_chunk x).
Proof. intros I. exact (return_settled m l x (inside_settled _ _ _ _ _ _ I) (in_x _ _ _ _ _ _ I) (in_current _ _ _ _ _ _ I)). Qed.
End calls.

Section handler.
Context {D H : Type} `{BlockDeviceLaws D} `{AllocatorLaws H} (F : filesystem D H) `{!FilesystemLaws F}.
Context (A0 : gmap Z Z) (h0 : H).

(** The beginning of the handler: the kernel's address space, and the registers of the caller in its task. *)
Lemma enter_kernel (m : mach D H) l frame :
  between F A0 h0 m l -> l <> [] -> 0 <= f_esp frame < 2 ^ 32 ->
  exists x t m1 m2, x ∈ l /\ proc_task (mb_proc x) = current_task (ssched (msys m)) /\
    on_sched (fun mm s => Some (kernel_page mm s)) m = (Ok tt, m1) /\
    on_sched (fun _ s => task_current_save_state frame s) m1 = (Ok tt, m2) /\
    inside F A0 h0 (msys m) l (mb_ptr x) A0 h0 m2 l x t /\
    r_esp (regs t) = f_esp frame /\ mmem m2 = mmem m /\ mtty m2 = mtty m.
Proof.
  intros [S Hc Ht] Hne He. destruct (sy_sched _ _ _ _ _ S) as (ts & W & Hts).
  assert (Hin : current_task (ssched (msys m)) ∈ ts).
  { pose proof (wf_current _ _ W) as Hcur. destruct ts; [|done]. apply Permutation_nil in Hts. by destruct l. }
  pose proof Hin as Hx. rewrite Hts in Hx. apply list_elem_of_fmap in Hx as (x & Ex & Hx).
  set (c1 := kernel_page (mmem m) (ssched (msys m))). set (s1 := in_kernel (msys m)).
  assert (Hz : (current_task c1 =? 0) = false) by (apply Z.eqb_neq; intros E; apply (wf_null _ _ W); by rewrite <- E).
  destruct (update_there (current_task c1) (set_regs (Registers (f_edi frame) (f_esi frame) (f_ebp frame) (f_ebx frame)
    (f_edx frame) (f_ecx frame) (f_eax frame) (f_ip frame) (f_cs frame) (f_flags frame) (f_esp frame) (f_ss frame))) c1 ts W Hin) as (c2 & E2).
  pose proof (kept_update _ _ _ _ E2 (fun t => conj (conj eq_refl eq_refl) (conj eq_refl eq_refl))) as K.
  assert (Hcpu : cpu c2 = cpu c1 /\ current_task c2 = current_task c1 /\ exists t, task_store c2 !! current_task c1 = Some t /\ r_esp (regs t) = f_esp frame).
  { unfold update in E2. destruct (task_store c1 !! current_task c1) as [t|]; [|done]. injection E2 as <-. cbn.
    split; [done|]. split; [done|]. eexists. split; [apply lookup_insert_eq|done]. }
  destruct Hcpu as (Hcpu & Hcur & t & Hst & Hesp). exists x, t, (with_msched c1 m), (with_msched c2 m).
  split; [done|]. split; [done|]. split; [done|]. split.
  { unfold on_sched, task_current_save_state. cbn [msys with_msched ssched with_ssched]. fold c1. rewrite Hz. unfold task_save_state. by rewrite E2. }
  assert (Hdir : current_directory (cpu c2) = load32 (mmem m) (kernel_chunk (ssched (msys m)))) by (by rewrite Hcpu).
  destruct (sched_keeps F A0 h0 s1 l x c2 S Hx (sk_chunk _ _ K) (sk_wf _ _ K) (sk_tasks _ _ K)) as [S2 _];
    [rewrite Hcpu; exact (sy_cur _ _ _ _ _ S)|].
  pose proof (sk_chunk _ _ K) as Hk. change (kernel_chunk c1) with (kernel_chunk (ssched (msys m))) in Hk.
  split; [|done]. constructor; cbn [msys mtty with_msched ssched with_ssched].
  - exact S2.
  - split; [reflexivity|done].
  - by apply sched_undisturbed.
  - done.
  - done.
  - by rewrite <- Ex.
  - by rewrite <- Ex.
  - by rewrite Hesp.
  - by rewrite Hk.
  - by rewrite Hk.
  - rewrite Hcpu. exact (sy_cur _ _ _ _ _ S).
  - done.
Qed.
End handler.
