(* ===== verification/SysProps.v ===== *)
(** * The promises of the system calls *)

From stdpp Require Import base numbers list gmap.
From Stdlib Require Import ZArith Lia.
From S2P Require Import Prelude Alloc Heap Memory Paging Sched Effects Disk StrLib PathParser Fat FatWrite FatProps.
From S2P Require Import FatDir FatDirScan FatOpen FatMount Vfs Elf UserMem Process AddrSpace ProcLoad ProcArgs ProcLife.
From S2P Require Import System Isolation Tty Panic Keyboard Syscall SysFrame SysCalls.

#[local] Set Default Goal Selector "!".

(** The number of a command in its eax register. *)
Definition command_id (c : command) : Z :=
  match c with
  | Sum => 0 | Print => 1 | Getkey => 2 | Putchar => 3 | Malloc => 4 | Free => 5 | ProcessLoadStart => 6
  | InvokeSystemCommand => 7 | GetProgramArguments => 8 | Exit => 9 | Printc => 10 | TerminalMoveCursor => 11 | Sleep => 12
  | FileOpen => 13 | FileRead => 14 | FileWrite => 15 | FileSeek => 16 | FileStat => 17 | FileClose => 18 | GetTicks => 19
  end.

Definition all_commands : list command :=
  [Sum; Print; Getkey; Putchar; Malloc; Free; ProcessLoadStart; InvokeSystemCommand; GetProgramArguments; Exit; Printc;
   TerminalMoveCursor; Sleep; FileOpen; FileRead; FileWrite; FileSeek; FileStat; FileClose; GetTicks].

(** ** The table *)

Definition full_table : gmap Z command := list_to_map (map (fun c => (command_id c, c)) all_commands).

Lemma commands_table : isr80h_register_commands ∅ = Some full_table.
Proof. vm_compute. reflexivity. Qed.

Lemma in_all_commands c : c ∈ all_commands.
Proof. apply (bool_decide_unpack _). by destruct c. Qed.

Lemma full_table_lookup i c : full_table !! i = Some c <-> command_id c = i.
Proof.
  unfold full_table. rewrite <- elem_of_list_to_map by (apply (bool_decide_unpack _); vm_compute; exact I).
  rewrite list_elem_of_fmap. split; [by intros (c' & [= -> ->] & _)|]. intros <-. exists c. split; [done|apply in_all_commands].
Qed.

(** ** Safety *)

Section safety.
Context {D H : Type} `{BlockDeviceLaws D} `{AllocatorLaws H} (F : filesystem D H) `{!FilesystemLaws F}.
Context (A0 : gmap Z Z) (h0 : H).

Lemma handled (m : mach D H) l x t s0 l0 ptr loc stack halts c :
  placed loc h0 -> length stack = Z.to_nat RORTHOX_MAX_PATH -> inside F A0 h0 s0 l0 ptr A0 h0 m l x t ->
  (forall k, full_table !! c = Some k -> file_command k = false) ->
  match isr80h_handle_command loc stack halts full_table c m with
  | (Ok r, m') => outcome F A0 h0 s0 l0 ptr r m'
  | (Err _, _) => c = 9 /\ l = [x]
  end.
Proof.
  intros Hl Hs I Hf. assert (G : outcome F A0 h0 s0 l0 ptr (CReturn 0) m) by (by exists l, x, t).
  unfold isr80h_handle_command. destruct (_ || _); [exact G|]. destruct (full_table !! c) as [k|] eqn:Ek; [|exact G].
  pose proof (answer_result F loc stack halts A0 h0 s0 l0 ptr Hl Hs k m l x t (Hf k eq_refl) I) as Hr.
  destruct (answer _ m) as [[r|e] m']; [exact Hr|]. destruct Hr as [-> ->]. split; [|done]. by apply full_table_lookup in Ek.
Qed.

End safety.

(** ** Example: the process of the volume's first file *)

Definition life_kybd : kybd := Kybd false false false 0 true false false.
Definition life_locals : locals := Locals 4096 4100 4104 8192.
Definition life_frame : interrupt_frame := InterruptFrame 0 0 0 0 0 0 0 0 0 0x400000 0x1B 0x202 0x3FEF00 0x23.
Definition life_path : list Z := replicate (Z.to_nat RORTHOX_MAX_PATH) 0.

Lemma life_placed : placed life_locals (kheap life_kern).
Proof.
  assert (Ha : fst (arena (kheap life_kern)) = 16777216).
  { unfold life_kern. change (kheap _) with (snd (kmalloc life_empty 4)). rewrite arena_malloc. done. }
  split; unfold on_stack; rewrite Ha; cbn; lia.
Qed.

(** A machine with one process, before it has run. *)
Lemma life_between s x :
  system fat16_init life_old (kheap life_kern) s [x] -> undisturbed life_old 0 life_sys [] s [x] ->
  between fat16_init life_old (kheap life_kern) (Mach s boot_tty life_kybd) [x].
Proof.
  intros S U. pose proof (un_chunk _ _ _ _ _ _ U) as Hk. change (kernel_chunk (ssched life_sys)) with 16777216 in Hk.
  assert (Hz : load32 (kmem (skern s)) 16777216 = 0).
  { rewrite (load32_ext (kmem (skern life_sys))); [done|]. intros i Hi. apply (un_old _ _ _ _ _ _ U 16777216 1); [done|lia]. }
  pose proof (kernel_page_kept (kmem (skern s)) (ssched s)) as K.
  constructor; cbn [msys mtty]; [|rewrite Hk; by exists 1|apply boot_tty_wf].
  apply (sched_keeps _ _ _ s [x] x _ S (list_elem_of_here _ _) (sk_chunk _ _ K) (sk_wf _ _ K) (sk_tasks _ _ K)).
  left. cbn. by rewrite Hk.
Qed.

Lemma life_loaded : exists s x, system fat16_init life_old (kheap life_kern) s [x] /\ undisturbed life_old 0 life_sys [] s [x].
Proof.
  destruct life_load as (ptr & s & E). pose proof (fresh_system_ok _ _ _ _ life_fresh) as S0.
  destruct (load_undisturbed _ _ _ _ _ _ _ _ _ _ 0 S0 E) as [Hcpu (x & _ & S & U)]. exists s, x.
  split; [exact S|exact U].
Qed.


(** ** Printing *)

Lemma writechars_prefix n : forall str colour t, (n <= length str)%nat -> writechars n str colour t = writechars n (take n str) colour t.
Proof.
  induction n as [|n IH]; intros str colour t Hn; [done|]. destruct str as [|c str]; [cbn in Hn; lia|]. cbn [writechars next_char take].
  apply IH. cbn in Hn. lia.
Qed.

Lemma strlen_length str : (Z.to_nat (strlen str) <= length str)%nat.
Proof. pose proof (cstring_length str) as Hl. unfold cstring in Hl. rewrite length_take in Hl. lia. Qed.

Lemma print_cstring str t : print str t = writechars (length (cstring str)) (cstring str) 15 t.
Proof.
  unfold print. rewrite writechars_prefix by apply strlen_length. fold (cstring str). f_equal. pose proof (cstring_length str). lia.
Qed.

Lemma bytes_text mm a (f : Z -> Z) k n :
  0 <= k < Z.of_nat n -> (forall i, 0 <= i < k -> load8 mm (a + i) = f i /\ f i <> 0) -> load8 mm (a + k) = 0 ->
  cstring (bytes_at mm a n) = map f (seqZ 0 k).
Proof.
  intros Hk Hf Hz. unfold bytes_at. replace n with (Z.to_nat k + (1 + (n - Z.to_nat k - 1)))%nat by lia.
  rewrite seq_app, seq_app, !List.map_app. change (map (fun i => load8 mm (a + Z.of_nat i)) (seq (0 + Z.to_nat k) 1)) with [load8 mm (a + Z.of_nat (Z.to_nat k))].
  rewrite Z2Nat.id, Hz by lia. cbn [app].
  assert (E : map (fun i => load8 mm (a + Z.of_nat i)) (seq 0 (Z.to_nat k)) = map f (seqZ 0 k)).
  { unfold seqZ. rewrite map_map. apply map_ext_in. intros i Hi%in_seq. rewrite Z.add_0_r. apply Hf. lia. }
  rewrite E. apply cstring_terminated. apply Forall_forall. intros c (i & -> & Hi)%list_elem_of_fmap. apply elem_of_seqZ in Hi. apply Hf. lia.
Qed.

(** *** What the kernel reads of a program *)

Section reading.
Context `{AllocatorLaws H} (h : H) (mm : mem) (chunk dir : Z) (p : proc).
Hypothesis SP : space h mm chunk dir p.

(** Programs own nothing in the last page of the address space. *)
Lemma owned_low write a : heap_placed h -> owns_byte mm p write a -> a + 4096 <= 2 ^ 32.
Proof.
  intros [Hlow Hhigh] Ho. destruct (owned_region _ _ _ _ _ SP write a Ho) as (r & Hr & Hin & _). unfold in_region in Hin.
  apply elem_of_cons in Hr as [->|[Hr|Hr]%elem_of_app].
  - unfold stack_region in Hin. cbn [rg_virt rg_pages] in Hin.
    unfold RORTHOX_PROGRAM_VIRTUAL_STACK_ADDRESS_END, RORTHOX_PROGRAM_VIRTUAL_STACK_ADDRESS_START, USER_PROGRAM_STACK_SIZE in Hin. lia.
  - pose proof (pr_window _ _ _ (sp_program _ _ _ _ _ SP r Hr)) as Hw. pose proof (pr_virt _ _ _ (sp_program _ _ _ _ _ SP r Hr)) as Hv.
    unfold RORTHOX_PROGRAM_VIRTUAL_ADDRESS_LIMIT in Hw. lia.
  - apply list_elem_of_fmap in Hr as (al & -> & [Htk Hal]%list_elem_of_filter). destruct (sp_alloc _ _ _ _ _ SP al Hal Htk) as [Hs Hrun].
    pose proof (run_bounds _ _ _ Hrun). pose proof (run_arena _ _ _ Hrun). unfold alloc_region in Hin. cbn [rg_virt rg_pages] in Hin. lia.
Qed.

Context (mm' : mem) (ps : gmap Z proc) (t : task).
Hypothesis Hchunk : page_directory t = chunk.
Hypothesis Hproc : proc_of ps t = Some p.
Hypothesis Hsame : forall q n, run h q n -> same_on mm mm' q (q + 4096 * n).

Lemma heap_stable : ustable mm mm' t p dir.
Proof.
  intros a Ha. destruct (kernel_byte_cell _ _ _ _ _ SP t a Hchunk Ha) as (q & n & Hn & Hin & _). by apply (Hsame q n).
Qed.

Lemma view_stable write a : 0 < a < 2 ^ 32 ->
  leaf_at mm' dir write a = leaf_at mm dir write a /\ (owns_byte mm' p write a <-> owns_byte mm p write a) /\
  forall x, leaf_at mm dir write a = Some x -> load8 mm' x = load8 mm x.
Proof.
  intros Ha. pose proof (space_uview _ _ _ _ _ SP ps t a 0 Hchunk Hproc ltac:(lia) ltac:(lia)) as V.
  split; [eapply leaf_at_stable; [apply (sp_wf _ _ _ _ _ SP)|exact heap_stable|lia]|]. split.
  - pose proof (user_span_stable _ _ _ _ _ _ a write V heap_stable) as E.
    pose proof (user_span_spec mm p a write ltac:(lia)) as Hs1. pose proof (user_span_spec mm' p a write ltac:(lia)) as Hs2. rewrite E in Hs2.
    destruct (process_user_span mm (Some p) a write) as [n|e].
    + destruct Hs1 as [Hn Hs1], Hs2 as [_ Hs2]. specialize (Hs1 0 ltac:(lia)). specialize (Hs2 0 ltac:(lia)). rewrite Z.add_0_r in Hs1, Hs2. done.
    + destruct Hs1 as [_ Hs1], Hs2 as [_ Hs2]. done.
  - intros x Hx. destruct (leaf_own _ _ _ _ _ SP write a x ltac:(lia) Hx) as (q & n & _ & Hn & Hin & _). by apply (Hsame q n).
Qed.

Lemma chunk_stable : load32 mm' chunk = dir.
Proof.
  rewrite <- Hchunk. apply (uv_dir ps mm' t p dir). eapply uview_stable; [|exact heap_stable].
  apply (space_uview _ _ _ _ _ SP ps t 0 0 Hchunk Hproc); lia.
Qed.

Lemma char_stable address i : 0 < address + i < 2 ^ 32 -> owns_byte mm p false (address + i) ->
  user_char mm' dir address i = user_char mm dir address i.
Proof.
  intros Ha Ho. destruct (view_stable false (address + i) Ha) as (El & _ & Eb). destruct (owned_mapped _ _ _ _ _ SP _ _ Ho) as [x Hx].
  unfold user_char, phys_at. rewrite El, Hx. cbn. by apply Eb.
Qed.

Lemma string_stable address k : 0 < address -> string_at mm p dir address k ->
  string_at mm' p dir address k /\ forall i, 0 <= i <= k -> user_char mm' dir address i = user_char mm dir address i.
Proof.
  intros Ha (Hk & He & Hc & Hacc & Hz).
  assert (Hv : forall i, 0 <= i <= k -> accessible mm p dir false (address + i) ->
    accessible mm' p dir false (address + i) /\ user_char mm' dir address i = user_char mm dir address i).
  { intros i Hi [Ho [x Hx]]. destruct (view_stable false (address + i) ltac:(lia)) as (El & Eo & Eb).
    split; [split; [by apply Eo|rewrite El; by exists x]|]. unfold user_char, phys_at. rewrite El, Hx. cbn. by apply Eb. }
  assert (Hall : forall i, 0 <= i <= k -> accessible mm p dir false (address + i)).
  { intros i Hi. destruct (decide (i = k)) as [->|]; [done|]. apply Hc. lia. }
  split; [|intros i Hi; apply Hv; [done|by apply Hall]]. split; [done|]. split; [done|]. split; [|split].
  - intros i Hi. destruct (Hc i Hi) as [Hai Hn]. destruct (Hv i ltac:(lia) Hai) as [Hai' E]. split; [done|by rewrite E].
  - by apply Hv; [lia|].
  - rewrite (proj2 (Hv k ltac:(lia) Hacc)). done.
Qed.
End reading.

(** The word at [a] of the program. *)
Definition user_word (mm : mem) (dir a : Z) : Z :=
  user_char mm dir a 0 + 256 * user_char mm dir a 1 + 65536 * user_char mm dir a 2 + 16777216 * user_char mm dir a 3.

Lemma word_stable `{AllocatorLaws H} (h : H) mm mm' chunk dir p ps t a :
  space h mm chunk dir p -> page_directory t = chunk -> proc_of ps t = Some p ->
  (forall q n, run h q n -> same_on mm mm' q (q + 4096 * n)) -> 0 < a -> a + 4 <= 2 ^ 32 ->
  (forall i, 0 <= i < 4 -> owns_byte mm p false (a + i)) ->
  user_word mm' dir a = user_word mm dir a /\ forall i, 0 <= i < 4 -> owns_byte mm' p false (a + i).
Proof.
  intros SP Hc Hp Hs Ha He Ho. split.
  - assert (E : forall i, 0 <= i < 4 -> user_char mm' dir a i = user_char mm dir a i).
    { intros i Hi. apply (char_stable h mm chunk dir p SP mm' ps t Hc Hp Hs); [lia|by apply Ho]. }
    unfold user_word. by rewrite !E by lia.
  - intros i Hi. apply (view_stable h mm chunk dir p SP mm' ps t Hc Hp Hs); [lia|by apply Ho].
Qed.

Section printing.
Context {D H : Type} `{BlockDeviceLaws D} `{AllocatorLaws H} (F : filesystem D H) `{!FilesystemLaws F}.
Context (A0 : gmap Z Z) (h0 : H) (s0 : sys D H) (l0 : list member) (ptr : Z) (loc : locals).
Hypothesis Hloc : placed loc h0.
Local Abbreviation inside_call m l x t := (inside F A0 h0 s0 l0 ptr A0 h0 m l x t).
Local Abbreviation heap_of m := (kheap (skern (msys m))).

(** Writing on the stack changes nothing on the heap. *)
Lemma stack_heap (m : mach D H) l x t a n mm :
  inside_call m l x t -> on_stack h0 a n -> (forall b, ~ (a <= b < a + n) -> load8 mm b = load8 (mmem m) b) ->
  forall q k, run (heap_of m) q k -> same_on (mmem m) mm q (q + 4096 * k).
Proof.
  intros I [Ha Hs] Hm q k Hk b Hb. apply Hm. pose proof (run_above F A0 h0 s0 l0 ptr A0 h0 _ _ _ _ _ _ I Hk). lia.
Qed.

Lemma stack_item_value (m : mach D H) l x t a index :
  let p := mb_proc x in let dir := load32 (mmem m) (mb_chunk x) in let address := r_esp (regs t) + 4 * index in
  inside_call m l x t -> on_stack h0 a 4 -> 0 <= index < 2 ^ 30 -> 0 < address -> address + 4 <= 2 ^ 32 ->
  (forall i, 0 <= i < 4 -> owns_byte (mmem m) p false (address + i)) ->
  exists mm, stack_item index a m = (Ok (user_word (mmem m) dir address), with_mmem mm m) /\
    forall b, ~ (a <= b < a + 4) -> load8 mm b = load8 (mmem m) b.
Proof.
  intros p dir address I Ha Hi Hp He Ho. destruct (caller F A0 h0 s0 l0 ptr A0 h0 m l x t I) as (Et & _ & _ & Ec & Hpo & SP).
  unfold stack_item, on_mem, mbind, io_bind. rewrite Et. unfold task_get_stack_item.
  rewrite (proj2 (Z.ltb_ge index 0)), (proj2 (Z.eqb_neq a 0)) by (destruct Ha; lia). cbn [orb]. cbv zeta.
  replace (u32 (index * 4)) with (4 * index) by (rewrite u32_small; lia). unfold UINT32_MAX.
  rewrite (proj2 (Z.ltb_ge _ _)) by (subst address; lia). fold address.
  assert (Hbuf : forall q n i, q ∈ page_directory t :: table_pages (mmem m) (load32 (mmem m) (page_directory t)) ++ own (mb_proc x) ->
    run (heap_of m) q n -> 0 <= i < 4 -> ~ (q <= a + i < q + 4096 * n)).
  { intros q n i _ Hn Hi' Hb. pose proof (run_above F A0 h0 s0 l0 ptr A0 h0 _ _ _ _ _ _ I Hn). destruct Ha. lia. }
  assert (Hr4 : 0 <= 4 < 2 ^ 32) by lia. assert (Hra : 0 <= address < 2 ^ 32) by lia.
  pose proof (copy_user_spec (procs (msys m)) (mmem m) t (mb_proc x) _ address a 4 false
    (space_uview _ _ _ _ _ SP _ t address 4 eq_refl Hpo Hra Hr4) Hra Hr4
    (fun He' => space_copy_frame _ _ _ _ _ SP t address a 4 false eq_refl Hra Hr4 Hbuf He')) as Hc.
  unfold task_copy_from_user. destruct (task_copy_user _ _ _ _ _ _ _) as [res mm].
  destruct Hc as [(_ & -> & Hv & Hm)|(Hn & _)].
  - exists mm. change (status 0 (with_mmem mm m)) with (Ok 0 : result Z, with_mmem mm m). cbv iota beta. split.
    + unfold gets. do 2 f_equal. unfold load32, user_word, user_char. cbn [mmem with_mmem msys with_mkern skern with_skern kmem with_kmem].
      unfold copy_dst, copy_src in Hv. rewrite Ec in Hv. fold dir in Hv. pose proof (Hv 0 ltac:(lia)) as H0'.
      rewrite (Hv 1), (Hv 2), (Hv 3) by lia. rewrite !Z.add_0_r in *. rewrite H0'. lia.
    + intros b Hb. apply Hm. intros i Hi'. unfold copy_dst. lia.
  - destruct Hn. unfold copy_request. destruct Ha. do 4 (split; [lia|]). intros i Hi'. apply (accessible_owned _ _ _ _ _ SP). by apply Ho.
Qed.

Lemma user_string_value (m : mach D H) l x t virtual k :
  let p := mb_proc x in let dir := load32 (mmem m) (mb_chunk x) in
  inside_call m l x t -> 0 < virtual -> string_at (mmem m) p dir virtual k ->
  exists mm, user_string loc virtual 1024 m = (Ok (bytes_at mm (area loc) (Z.to_nat 1024)), with_mmem mm m) /\
    cstring (bytes_at mm (area loc) (Z.to_nat 1024)) = map (user_char (mmem m) dir virtual) (seqZ 0 (Z.min k 1023)) /\
    forall b, ~ (area loc <= b < area loc + 1024) -> load8 mm b = load8 (mmem m) b.
Proof.
  intros p dir I Hv Hstr. destruct (caller F A0 h0 s0 l0 ptr A0 h0 m l x t I) as (Et & _ & _ & Ec & Hpo & SP). rewrite Ec in SP. fold dir p in SP.
  destruct (pl_area _ _ Hloc) as [Hpos Hend]. pose proof (sy_placed _ _ _ _ _ (in_system _ _ _ _ _ _ _ _ _ _ _ _ I)) as Hpl.
  assert (Hlow : virtual + 4096 <= 2 ^ 32).
  { destruct Hstr as (Hk & _ & Hc & [Ho _] & _). eapply (owned_low _ _ _ _ _ SP); [exact Hpl|].
    destruct (decide (k = 0)) as [->|]; [by rewrite Z.add_0_r in Ho|]. destruct (Hc 0 ltac:(lia)) as [[Ho' _] _]. by rewrite Z.add_0_r in Ho'. }
  assert (Hbuf : forall q n i, q ∈ mb_chunk x :: table_pages (mmem m) dir ++ own p -> run (heap_of m) q n -> 0 <= i < 1024 -> ~ (q <= area loc + i < q + 4096 * n)).
  { intros q n i _ Hn Hi Hb. pose proof (run_above F A0 h0 s0 l0 ptr A0 h0 _ _ _ _ _ _ I Hn). lia. }
  assert (Hr : 0 <= 1024 < 2 ^ 32) by lia. assert (Hra : 0 <= virtual < 2 ^ 32) by lia.
  pose proof (copy_string_terminated (procs (msys m)) (mmem m) t p dir virtual (area loc) 1024
    (space_uview _ _ _ _ _ SP _ t virtual 1024 Ec Hpo Hra Hr) ltac:(lia) ltac:(lia) Hpos
    (space_copy_frame _ _ _ _ _ SP t virtual (area loc) 1024 false Ec Hra Hr Hbuf ltac:(lia))) as Hc.
  unfold user_string, on_mem, mbind, io_bind. rewrite Et. destruct (copy_string_from_task _ _ _ _ _ _) as [res mm].
  destruct Hc as (j & Hj & Hclean & Htext & Hz & Hm & Hcase); [intros [Ho _]; apply (owned_low _ _ _ _ _ SP _ _ Hpl) in Ho; lia|].
  assert (Hjk : j <= k) by (by eapply string_at_clean).
  assert (Hres : res = 0 /\ j = Z.min k 1023).
  { destruct Hcase as [[Hs ->]|[[-> ->]|[Hn _]]].
    - rewrite (string_at_fun _ _ _ _ _ _ Hs Hstr) in *. split; [done|lia].
    - split; [done|lia].
    - destruct Hn. destruct Hstr as (_ & _ & Hcl & Hacc & _). destruct (decide (j = k)) as [->|]; [exact Hacc|]. apply Hcl. lia. }
  destruct Hres as [-> <-]. exists mm. split; [done|]. split; [|intros b Hb; apply Hm; lia].
  apply bytes_text; [lia| |exact Hz]. intros i Hi. split; [by apply Htext|by apply Hclean].
Qed.

Lemma print_value (m : mach D H) l x t k :
  let p := mb_proc x in let dir := load32 (mmem m) (mb_chunk x) in let s := user_word (mmem m) dir (r_esp (regs t)) in
  inside_call m l x t -> 0 < r_esp (regs t) -> r_esp (regs t) + 4 <= 2 ^ 32 ->
  (forall i, 0 <= i < 4 -> owns_byte (mmem m) p false (r_esp (regs t) + i)) -> 0 < s -> string_at (mmem m) p dir s k ->
  exists m', isr80h_command1_print loc m = (Ok (CReturn 0), m') /\
    mtty m' = print (map (user_char (mmem m) dir s) (seqZ 0 (Z.min k 1023))) (mtty m).
Proof.
  intros p dir s I He1 He2 Ho Hs Hstr.
  destruct (caller F A0 h0 s0 l0 ptr A0 h0 m l x t I) as (_ & _ & _ & Ec & Hpo & SP). rewrite Ec in SP. fold dir p in SP.
  set (mm1 := store32 (mmem m) (word0 loc) 0).
  assert (Hm1 : forall b, ~ (word0 loc <= b < word0 loc + 4) -> load8 mm1 b = load8 (mmem m) b) by (intros b Hb; apply load8_store32_ne; lia).
  pose proof (inside_stack F A0 h0 s0 l0 ptr A0 h0 m l x t mm1 _ 4 I (pl_word0 _ _ Hloc) Hm1) as I1.
  pose proof (stack_heap m l x t _ 4 mm1 I (pl_word0 _ _ Hloc) Hm1) as Hs1.
  pose proof (fun w a => view_stable _ _ _ _ _ SP mm1 _ t Ec Hpo Hs1 w a) as Hv1.
  destruct (word_stable _ _ mm1 _ _ _ _ t _ SP Ec Hpo Hs1 He1 He2 Ho) as [Ew1 Ho1].
  pose proof (chunk_stable _ _ _ _ _ SP mm1 _ t Ec Hpo Hs1) as Hd1.
  destruct (stack_item_value (with_mmem mm1 m) l x t (word0 loc) 0 I1 (pl_word0 _ _ Hloc)) as (mm2 & E2 & Hm2); [lia|lia|lia| |].
  { rewrite Z.mul_0_r, Z.add_0_r. exact Ho1. }
  rewrite Z.mul_0_r, Z.add_0_r in E2. change (mmem (with_mmem mm1 m)) with mm1 in E2, Hm2. rewrite Hd1, Ew1 in E2. fold s in E2.
  change (with_mmem mm2 (with_mmem mm1 m)) with (with_mmem mm2 m) in E2.
  assert (Hm : forall b, ~ (word0 loc <= b < word0 loc + 4) -> load8 mm2 b = load8 (mmem m) b) by (intros b Hb; by rewrite Hm2, Hm1).
  pose proof (inside_stack F A0 h0 s0 l0 ptr A0 h0 m l x t mm2 _ 4 I (pl_word0 _ _ Hloc) Hm) as I2.
  pose proof (stack_heap m l x t _ 4 mm2 I (pl_word0 _ _ Hloc) Hm) as Hs2.
  destruct (string_stable _ _ _ _ _ SP mm2 _ t Ec Hpo Hs2 s k Hs Hstr) as [Hstr2 Hch].
  pose proof (chunk_stable _ _ _ _ _ SP mm2 _ t Ec Hpo Hs2) as Hd2.
  destruct (user_string_value (with_mmem mm2 m) l x t s k I2 Hs) as (mm3 & E3 & Htext & _);
    change (mmem (with_mmem mm2 m)) with mm2 in *; rewrite Hd2 in *; [exact Hstr2|].
  unfold isr80h_command1_print. unfold declare. rewrite io_modify. fold mm1. rewrite (io_bind_run _ _ _ _ _ E2), (io_bind_run _ _ _ _ _ E3).
  eexists. split; [reflexivity|]. cbn [mtty with_mmem with_mkern]. rewrite !print_cstring, Htext.
  assert (Emap : map (user_char mm2 dir s) (seqZ 0 (Z.min k 1023)) = map (user_char (mmem m) dir s) (seqZ 0 (Z.min k 1023))).
  { apply map_ext_in. intros i Hi%list_elem_of_In%elem_of_seqZ. apply Hch. lia. }
  rewrite Emap. f_equal; symmetry; [f_equal|]; apply cstring_literal; apply Forall_forall; intros c (i & -> & Hi)%list_elem_of_fmap; apply elem_of_seqZ in Hi;
    destruct Hstr as (_ & _ & Hcl & _); apply Hcl; lia.
Qed.

End printing.

Section print_call.
Context {D H : Type} `{BlockDeviceLaws D} `{AllocatorLaws H} (F : filesystem D H) `{!FilesystemLaws F}.
Context (A0 : gmap Z Z) (h0 : H).

(** C5: the print call shows the caller's string. Let the word on top of the caller's stack be a pointer and both the
    word and the string behind it, up to its terminator, memory of the caller. Then the call returns 0 and the screen is
    what [print] makes of the characters of the string, read through the caller's page tables, the first 1023 of them
    if there are more. The page, the stack and the string may cross page boundaries anywhere. *)
Theorem print_call_shows loc stack halts (m : mach D H) l frame :
  between F A0 h0 m l -> l <> [] -> placed loc h0 -> 0 < f_esp frame -> f_esp frame + 4 <= 2 ^ 32 ->
  exists x, x ∈ l /\ proc_task (mb_proc x) = current_task (ssched (msys m)) /\
  let mm := mmem m in let dir := load32 mm (mb_chunk x) in let s := user_word mm dir (f_esp frame) in
  forall k, (forall i, 0 <= i < 4 -> owns_byte mm (mb_proc x) false (f_esp frame + i)) -> 0 < s -> string_at mm (mb_proc x) dir s k ->
  exists m', isr80h_handler loc stack halts full_table 1 frame m = (Ok (CReturn 0), m') /\
    mtty m' = print (map (user_char mm dir s) (seqZ 0 (Z.min k 1023))) (mtty m).
Proof.
  intros B Hne Hl He1 He2.
  destruct (enter_kernel F A0 h0 m l frame B Hne ltac:(lia)) as (x & t & m1 & m2 & Hx & Hcur & E1 & E2 & I & Hesp & Hmm & Htt). exists x. split; [done|].
  split; [done|]. cbv zeta. rewrite <- Hmm, <- Hesp in *. clear Hmm. intros k Ho Hs Hstr.
  destruct (print_value F A0 h0 _ _ _ loc Hl m2 l x t k I He1 He2 Ho Hs Hstr) as (m3 & E3 & Ht3).
  unfold isr80h_handler. rewrite (io_bind_run _ _ _ _ _ E1), (io_bind_run _ _ _ _ _ E2).
  assert (Eh : isr80h_handle_command loc stack halts full_table 1 m2 = (Ok (CReturn 0), m3)).
  { unfold isr80h_handle_command. change ((1 <? 0) || (RORTHOX_MAX_ISR80H_COMMANDS <=? 1)) with false. cbv iota.
    rewrite (proj2 (full_table_lookup 1 Print) eq_refl). unfold answer. cbn [run_command]. by rewrite E3. }
  rewrite (io_bind_run _ _ _ _ _ Eh). pose proof (print_ends F loc A0 h0 _ _ _ Hl m2 l x t I) as Hp. rewrite E3 in Hp.
  destruct Hp as [(l' & x' & t' & I') _]. destruct (return_caller F A0 h0 _ _ _ m3 l' x' t' I') as (m4 & E4 & _).
  rewrite (io_bind_run _ _ _ _ _ E4). exists m4. split; [reflexivity|]. rewrite <- Htt, <- Ht3.
  unfold on_sched in E4. destruct (task_page _ _) as [c|]; [|done]. by injection E4 as <-.
Qed.
End print_call.

(** *** Example: a program prints *)

Section stack_write.
Context `{AllocatorLaws H} (h : H) (mm : mem) (chunk dir : Z) (p : proc).
Hypothesis SP : space h mm chunk dir p.

(** The pages of the user's stack. *)
Lemma stack_leaf write i : 0 <= i < 16384 -> leaf_at mm dir write (0x3FB000 + i) = Some (proc_stack p + i).
Proof.
  intros Hi. pose proof (sp_stack _ _ _ _ _ SP) as Hrun. pose proof (run_bounds _ _ _ Hrun) as Hb.
  assert (Hin : in_region (stack_region p) ((0x3FB000 + i) / 4096)).
  { unfold in_region, stack_region. cbn [rg_virt rg_pages].
    unfold RORTHOX_PROGRAM_VIRTUAL_STACK_ADDRESS_END, RORTHOX_PROGRAM_VIRTUAL_STACK_ADDRESS_START, USER_PROGRAM_STACK_SIZE. lia. }
  unfold leaf_at. rewrite (sp_leaf _ _ _ _ _ SP _ _ (list_elem_of_here _ _) Hin). unfold region_leaf, stack_region. cbn [rg_phys rg_virt rg_flags].
  change (RORTHOX_PROGRAM_VIRTUAL_STACK_ADDRESS_END / 4096) with 1019.
  destruct (lor_page_flags (proc_stack p + ((0x3FB000 + i) / 4096 - 1019) * 4096) 7) as [-> E2]; [lia..|].
  rewrite E2 by (by destruct write). replace (Z.land 7 (user_flags write) =? user_flags write) with true by (by destruct write).
  f_equal. lia.
Qed.

Lemma stack_write mm' : (forall a, ~ (proc_stack p <= a < proc_stack p + 16384) -> load8 mm' a = load8 mm a) ->
  space h mm' chunk dir p /\ table_pages mm' dir = table_pages mm dir /\
  forall q n, run h q n -> q <> proc_stack p -> same_on mm mm' q (q + 4096 * n).
Proof.
  intros Hm. pose proof (sp_stack _ _ _ _ _ SP) as Hrun.
  assert (Hs : forall q n, run h q n -> q <> proc_stack p -> same_on mm mm' q (q + 4096 * n)).
  { intros q n Hn Hne a Ha. apply Hm. pose proof (run_apart _ _ _ _ _ Hn Hrun Hne) as Hap. unfold apart in Hap. lia. }
  assert (Hpg : forall q, q ∈ chunk :: table_pages mm dir -> q <> proc_stack p).
  { intros q Hq ->. eapply own_not_pages; [exact SP|apply list_elem_of_here|exact Hq]. }
  split; [|split; [|done]].
  - apply (space_rewrite _ _ _ _ _ SP). intros q n Hn [Hq|[Hf ->]]; (apply Hs; [done|]); [by apply Hpg|].
    intros E. apply (image_not_backing _ _ _ _ _ SP Hf). rewrite E. apply list_elem_of_here.
  - apply (space_pages_same _ _ _ _ _ SP). intros q n Hn Hq. apply Hs; [done|]. by apply Hpg, list_elem_of_further.
Qed.
End stack_write.

(** The program has put the string H on its stack and a pointer to it on top. *)
Lemma life_text :
  exists s x, between fat16_init life_old (kheap life_kern) (Mach s boot_tty life_kybd) [x] /\
  let mm := kmem (skern s) in let dir := load32 mm (mb_chunk x) in
  user_word mm dir 0x3FEE80 = 0x3FB000 /\ (forall i, 0 <= i < 4 -> owns_byte mm (mb_proc x) false (0x3FEE80 + i)) /\
  string_at mm (mb_proc x) dir 0x3FB000 1 /\ user_char mm dir 0x3FB000 0 = 72.
Proof.
  destruct life_loaded as (s & x & S & U). pose proof (mo_space _ _ (sy_members _ _ _ _ _ S x (list_elem_of_here _ _))) as SP.
  set (b := proc_stack (mb_proc x)). set (dir := load32 (kmem (skern s)) (mb_chunk x)) in SP.
  set (mm := store8 (store8 (store32 (kmem (skern s)) (b + 16000) 0x3FB000) b 72) (b + 1) 0).
  assert (Hout : forall a, ~ (b <= a < b + 16384) -> load8 mm a = load8 (kmem (skern s)) a).
  { intros a Ha. subst mm. rewrite !load8_store8, !decide_False by lia. apply load8_store32_ne. lia. }
  destruct (stack_write _ _ _ _ _ SP mm Hout) as (SP' & Ht & Hs).
  destruct (pages_keeps fat16_init life_old (kheap life_kern) s [x] x mm S (list_elem_of_here _ _)) as [S' U']; [|exact SP'|exact Ht|].
  { intros q n Hn Hq. apply Hs; [done|]. intros ->. apply Hq, mb_own_cells, list_elem_of_here. }
  pose proof (sp_chunk _ _ _ _ _ SP') as Hd. exists (with_smem mm s), x. split.
  - apply life_between; [exact S'|]. destruct U as [Uo Uc Uy], U' as [Uo' Uc' _]. split; [|by rewrite Uc', Uc|by intros y ?%not_elem_of_nil].
    intros q n Hq. eapply same_on_trans; [by apply Uo|by apply Uo'].
  - cbv zeta. change (kmem (skern (with_smem mm s))) with mm. rewrite Hd.
    assert (Hch : forall a i, 0 <= a + i < 16384 -> user_char mm dir (0x3FB000 + a) i = load8 mm (b + (a + i))).
    { intros a i Ha. unfold user_char, phys_at. rewrite <- Z.add_assoc, (stack_leaf _ _ _ _ _ SP' false (a + i)) by lia. done. }
    assert (Hown : forall i, 0 <= i < 16384 -> owns_byte mm (mb_proc x) false (0x3FB000 + i)).
    { intros i Hi. apply owns_stack; [pose proof (run_bounds _ _ _ (sp_stack _ _ _ _ _ SP)); lia|].
      unfold in_span, RORTHOX_PROGRAM_VIRTUAL_STACK_ADDRESS_END, RORTHOX_PROGRAM_VIRTUAL_STACK_ADDRESS_START, USER_PROGRAM_STACK_SIZE. lia. }
    pose proof (Hch 0) as Hch0. rewrite Z.add_0_r in Hch0.
    assert (H72 : load8 mm b = 72) by (subst mm; rewrite !load8_store8, decide_False, decide_True by lia; done).
    assert (Hnul : load8 mm (b + 1) = 0) by (subst mm; rewrite load8_store8, decide_True by lia; done).
    split; [|split; [|split]].
    + change 0x3FEE80 with (0x3FB000 + 16000). unfold user_word. rewrite !Hch by lia.
      transitivity (load32 mm (b + 16000)); [unfold load32; rewrite !Z.add_assoc, Z.add_0_r; reflexivity|].
      subst mm. rewrite (load32_ext (store32 (kmem (skern s)) (b + 16000) 0x3FB000)); [by rewrite load32_store32_eq|].
      intros a Ha. rewrite !load8_store8, !decide_False by lia. done.
    + intros i Hi. replace (0x3FEE80 + i) with (0x3FB000 + (16000 + i)) by lia. apply Hown. lia.
    + assert (Hacc : forall i, 0 <= i < 16384 -> accessible mm (mb_proc x) dir false (0x3FB000 + i))
        by (intros i Hi; apply (accessible_owned _ _ _ _ _ SP'), Hown, Hi).
      split; [lia|]. split; [lia|]. split; [|split; [by apply Hacc|]].
      * intros i Hi. assert (i = 0) as -> by lia. split; [by apply Hacc|]. rewrite Hch0, Z.add_0_r, H72 by lia. done.
      * rewrite Hch0 by lia. exact Hnul.
    + rewrite Hch0, Z.add_0_r by lia. exact H72.
Qed.

Lemma print_call_shows_witness :
  exists (m m' : mach ram_disk Heap.heap),
    isr80h_handler life_locals life_path [] full_table 1 (InterruptFrame 0 0 0 0 0 0 0 1 0 0x400000 0x1B 0x202 0x3FEE80 0x23) m = (Ok (CReturn 0), m') /\
    mtty m' = print [72] boot_tty.
Proof.
  destruct life_text as (s & x & B & Hw & Ho & Hstr & Hc). exists (Mach s boot_tty life_kybd).
  destruct (print_call_shows fat16_init life_old (kheap life_kern) life_locals life_path [] (Mach s boot_tty life_kybd) [x]
    (InterruptFrame 0 0 0 0 0 0 0 1 0 0x400000 0x1B 0x202 0x3FEE80 0x23) B ltac:(done) life_placed ltac:(cbn; lia) ltac:(cbn; lia))
    as (y & Hy & _ & Hp). apply list_elem_of_singleton in Hy as ->. cbv zeta in Hp. cbn [f_esp] in Hp.
  change (mmem (Mach s boot_tty life_kybd)) with (kmem (skern s)) in Hp. rewrite Hw in Hp.
  destruct (Hp 1 Ho ltac:(lia) Hstr) as (m' & E & Ht). exists m'. split; [exact E|]. rewrite Ht.
  change (seqZ 0 (Z.min 1 1023)) with [0]. cbn [map]. rewrite Hc. reflexivity.
Defined.
