(* ===== verification/Interrupt.v ===== *)
(** * Interrupts and exceptions (kernel/idt/idt.c, kernel/arch/i686/pit.c, kernel/keyboard)

    The dispatch of the 256 vectors: exceptions end the process that caused them or stop the machine, other vectors
    run the registered callback, which are those of the timer and of the keyboard. A handler returns to the code that
    was interrupted, leaves the kernel through another task, or halts for good. The byte of the keyboard controller,
    the interrupts of the idle loop and the bytes on the stack under the panic's number are parameters. *)

From Stdlib Require Import String.
From stdpp Require Import base numbers list gmap.
From Stdlib Require Import ZArith Lia.
From S2P Require Import Prelude Alloc Heap Memory Paging Sched Effects Disk StrLib PathParser Fat FatWrite FatProps.
From S2P Require Import FatDir FatDirScan FatOpen FatMount Vfs Elf UserMem Process AddrSpace ProcLoad ProcArgs ProcLife.
From S2P Require Import System Isolation Descriptors Tty Panic Keyboard Syscall SysFrame SysCalls.

#[local] Set Default Goal Selector "!".

Definition ISR_KEYBOARD_INTERRUPT : Z := RORTHOX_PIC_MASTER_VECTOR_BASE + 1.

(** The functions that the kernel registers. *)
Inductive callback := PitTick | KeyboardInterrupt.

(** How a handler ends. *)
Inductive after := Resume | Entered (o : next_outcome) | Stopped.

(** ** Reporting (idt.c) *)

Definition exception_digit (d : Z) : Z := default 0 (literal "0123456789abcdef" !! Z.to_nat d).

(** The digits with [n] at the front still to come. *)
Fixpoint put_hex_loop (n : nat) (value : Z) (t : tty) : tty :=
  match n with
  | O => t
  | S n => put_hex_loop n value (dbg_putc (exception_digit (Z.land (Z.shiftr value (4 * Z.of_nat n)) 0xf)) t)
  end.

Definition exception_put_hex (value : Z) (t : tty) : tty := put_hex_loop 8 value t.

(** What is on the debug port before the panic. *)
Definition exception_report (interrupt : Z) (frame : interrupt_frame) (cr2 : Z) (t : tty) : tty :=
  let t := dbg_puts (literal "exception: vector=0x") t in
  let t := exception_put_hex (u32 interrupt) t in
  let t := dbg_puts (literal " error=0x") t in
  let t := exception_put_hex (f_error_code frame) t in
  let t := if interrupt =? 14 then exception_put_hex cr2 (dbg_puts (literal " cr2=0x") t) else t in
  dbg_puts [10] t.

Definition idt_file : list Z := literal "./kernel/idt/idt.c".

Definition idt_register_interrupt_callback (interrupt : Z) (c : callback) (callbacks : gmap Z callback) : Z * gmap Z callback :=
  if (interrupt <? 0) || (RORTHOX_TOTAL_INTERRUPTS <=? interrupt) then (- EINVARG, callbacks)
  else (0, <[interrupt := c]> callbacks).

Section interrupts.
Context {D H : Type} `{BlockDevice D} `{Allocator H}.
(** The stack under the number of a panic, the interrupts of the idle loop, and the controller's byte. *)
Context (num : list Z) (halts : list (list irq)) (scancode : Z).

(** The machine with the statics of idt.c. *)
Record board := Board {
  bmach : mach D H;
  exception_fatal : bool;
  interrupt_callbacks : gmap Z callback
}.
Local Abbreviation bio := (io board).

Definition with_bmach (m : mach D H) (b : board) : board := Board m (exception_fatal b) (interrupt_callbacks b).

Definition on_mach {A} (c : io (mach D H) A) : bio A := fun b => let '(r, m) := c (bmach b) in (r, with_bmach m b).

Definition kernel_registers (_ : mem) (s : sched) : option sched := Some (with_cpu (cpu s) false s).

Definition entered (r : control) : bio after :=
  match r with CEnter o => mret (Entered o) | CReturn _ => panic end.

Definition exception_fatal_stop (interrupt : Z) (frame : interrupt_frame) (cr2 : Z) (msg : string) : bio after := fun b =>
  let m := bmach b in
  match PANIC num (Some (literal msg)) (Some idt_file) 72 (exception_report interrupt frame cr2 (mtty m)) with
  | Some t => (Ok Stopped, Board (Mach (msys m) t (mkeyboard m)) true (interrupt_callbacks b))
  | None => panic b
  end.

(** [!task || !task->process || task->process->task != task || process_get(task->process->id) != task->process]; [None] is
    a dangling pointer. *)
Definition invalid_task (s : sys D H) : option bool :=
  match task_current s with
  | None => Some true
  | Some t =>
    if process t =? 0 then Some true
    else
      p ← procs s !! process t;
      Some (negb (proc_task p =? current_task (ssched s)) || negb (process_get (pid p) s =? process t))
  end.

(** *** Exceptions *)

Definition idt_handle_exception (interrupt : Z) (frame : interrupt_frame) (cr2 : Z) : bio after :=
  _ ← on_mach (on_sched kernel_registers);
  fatal ← gets exception_fatal;
  if fatal : bool then mret Stopped
  else
    let from_user := Z.land (f_cs frame) 3 =? 3 in
    if interrupt =? 2 then
      if from_user then
        _ ← on_mach (on_sched (fun mm s => Some (kernel_page mm s)));
        _ ← on_mach (on_sched (fun _ s => task_current_save_state frame s));
        r ← on_mach (next_task halts); entered r
      else mret Resume
    else if (interrupt =? 8) || negb from_user then exception_fatal_stop interrupt frame cr2 "Kernel exception"
    else
      invalid ← gets (fun b => invalid_task (msys (bmach b)));
      match invalid with
      | None => panic
      | Some true => exception_fatal_stop interrupt frame cr2 "Invalid faulting task"
      | Some false =>
        p ← on_mach current_process_ptr;
        _ ← on_mach (on_sched (fun mm s => Some (kernel_page mm s)));
        res ← on_mach (tolerate (on_sys (process_terminate p)));
        match res with
        | None => exception_fatal_stop interrupt frame cr2 "Failed to terminate faulting process"
        | Some _ => r ← on_mach (next_task halts); entered r
        end
      end.

(** *** Callbacks *)

Definition pit_tick_callback (frame : interrupt_frame) : bio after :=
  r ← gets (fun b => let m := bmach b in pit_tick (mmem m) frame halts (ssched (msys m)));
  match r with
  | None => panic
  | Some (inl c) => _ ← modify (fun b => with_bmach (with_msched c (bmach b)) b); mret Resume
  | Some (inr r) => r ← on_mach (leave_idle (Some r)); entered r
  end.

Definition keyboard_callback : bio after := fun b =>
  let m := bmach b in
  match classic_keyboard_handle_interrupt keyboard_push scancode (mkeyboard m) (msys m) with
  | Some (k, s) => (Ok Resume, with_bmach (Mach s (mtty m) k) b)
  | None => panic b
  end.

Definition run_callback (c : callback) (frame : interrupt_frame) : bio after :=
  match c with PitTick => pit_tick_callback frame | KeyboardInterrupt => keyboard_callback end.

Definition interrupt_handler (interrupt : Z) (frame : interrupt_frame) (cr2 : Z) : bio after :=
  if interrupt <? 0x20 then idt_handle_exception interrupt frame cr2
  else
    let from_user := Z.land (f_cs frame) 3 =? 3 in
    _ ← on_mach (on_sched (fun mm s => Some (kernel_page mm s)));
    c ← gets (fun b => interrupt_callbacks b !! interrupt);
    r ← match c with
        | Some c =>
          _ ← (if from_user then on_mach (on_sched (fun _ s => task_current_save_state frame s)) else mret tt);
          run_callback c frame
        | None => mret Resume
        end;
    match r with
    | Resume =>
      _ ← (if from_user then on_mach (on_sched task_page) else mret tt);
      _ ← on_mach (on_sched (fun _ s => Some (pic_send_eoi interrupt s)));
      mret Resume
    | r => mret r
    end.

(** ** Setting up *)

Definition register (interrupt : Z) (c : callback) (b : board) : board :=
  Board (bmach b) (exception_fatal b) (snd (idt_register_interrupt_callback interrupt c (interrupt_callbacks b))).

Definition outb_board (port v : Z) (b : board) : board :=
  with_bmach (with_msched (outb port v (ssched (msys (bmach b)))) (bmach b)) b.

Definition pit_init (b : board) : board :=
  let b := register RORTHOX_PIC_MASTER_VECTOR_BASE PitTick b in
  with_bmach (with_msched (pit_set_frequency (ssched (msys (bmach b)))) (bmach b)) b.

(** The init function of the keyboard struct, with the callback and the ports. *)
Definition classic_init_board (b : board) : Z * board :=
  let b := register ISR_KEYBOARD_INTERRUPT KeyboardInterrupt b in
  let m := bmach b in
  let '(k, writes) := classic_keyboard_init (mkeyboard m) in
  (0, foldl (fun b w => outb_board (fst w) (snd w) b) (with_bmach (Mach (msys m) (mtty m) k) b) writes).

(** The list of keyboards; the address of a struct and its [next]. *)
Record keyboards := Keyboards { keyboard_list_head : Z; keyboard_list_last : Z; keyboard_next : gmap Z Z }.

Definition keyboard_insert (keyboard : Z) (init : option (board -> Z * board)) (l : keyboards) (b : board) : Z * keyboards * board :=
  match init with
  | None => (- EINVARG, l, b)
  | Some init =>
    let l :=
      if negb (keyboard_list_last l =? 0)
      then Keyboards (keyboard_list_head l) keyboard (<[keyboard_list_last l := keyboard]> (keyboard_next l))
      else Keyboards keyboard keyboard (keyboard_next l) in
    let '(res, b) := init b in (res, l, b)
  end.

(** [classic_init()] gives the address of the struct. *)
Definition keyboard_init (classic_keyboard : Z) (l : keyboards) (b : board) : keyboards * board :=
  let '(_, l, b) := keyboard_insert classic_keyboard (Some classic_init_board) l b in (l, b).
End interrupts.
