(* ===== verification/IntProps.v ===== *)
(** * Interrupts cannot damage the kernel (kernel/idt/idt.c)

    The invariant of the system under every interrupt and exception: a fault ends the process that caused it and no
    other, a device interrupt goes back to the program or on to another task, and an exception of the kernel itself
    stops the machine with a report. *)

From Stdlib Require Import String.
From stdpp Require Import base numbers list gmap.
From Stdlib Require Import ZArith Lia.
From S2P Require Import Prelude Alloc Heap Memory Paging Sched Effects Disk StrLib PathParser Fat FatWrite FatProps.
From S2P Require Import FatDir FatDirScan FatOpen FatMount Vfs Elf UserMem Process AddrSpace ProcLoad ProcArgs ProcLife.
From S2P Require Import System Isolation Descriptors Tty Panic Keyboard Syscall SysFrame SysCalls SysProps Interrupt.

#[local] Set Default Goal Selector "!".

(** The callbacks after the initialisation. *)
Definition ready_callbacks : gmap Z callback := <[33 := KeyboardInterrupt]> (<[32 := PitTick]> ∅).

Section safe.
Context {D H : Type} `{BlockDeviceLaws D} `{AllocatorLaws H} (F : filesystem D H) `{!FilesystemLaws F}.
Context (A0 : gmap Z Z) (h0 : H) (num : list Z) (halts : list (list irq)) (scancode : Z).
Implicit Types (b : board (D := D) (H := H)) (m : mach D H) (l : list member).

Lemma callbacks_ready b classic ks :
  interrupt_callbacks b = ∅ -> interrupt_callbacks (snd (keyboard_init classic ks (pit_init b))) = ready_callbacks.
Proof. intros E. cbn. by rewrite E. Qed.

(** ** Entering the kernel *)

Definition paged m : mach D H := with_msched (kernel_page (mmem m) (ssched (msys m))) m.

Lemma enter_settled m l ptr : between F A0 h0 m l -> settled F A0 (msys m) l ptr A0 h0 (paged m) l.
Proof.
  intros [S Hc Ht]. constructor; [exact S|by apply sched_undisturbed|exact Hc|done|exact (sy_cur _ _ _ _ _ S)|exact Ht].
Qed.

Lemma running m l : between F A0 h0 m l -> l <> [] ->
  exists l1 x l2, l = l1 ++ x :: l2 /\ proc_task (mb_proc x) = current_task (ssched (msys m)).
Proof.
  intros [S _ _] Hne. destruct (sy_sched _ _ _ _ _ S) as (ts & W & Hts). assert (Hin : current_task (ssched (msys m)) ∈ ts).
  { pose proof (wf_current _ _ W) as Hcur. destruct ts; [|done]. apply Permutation_nil in Hts. by destruct l. }
  rewrite Hts in Hin. apply list_elem_of_fmap in Hin as (x & Ex & (l1 & l2 & ->)%list_elem_of_split). by exists l1, x, l2.
Qed.

Lemma registers_between m l : between F A0 h0 m l -> between F A0 h0 (with_msched (with_cpu (cpu (ssched (msys m))) false (ssched (msys m))) m) l.
Proof. intros [S Hc Ht]. constructor; [exact S|exact Hc|exact Ht]. Qed.

(** ** Faults *)

Lemma valid_task m l1 x l2 : between F A0 h0 m (l1 ++ x :: l2) -> proc_task (mb_proc x) = current_task (ssched (msys m)) ->
  invalid_task (msys m) = Some false /\ current_process_ptr m = (Ok (mb_ptr x), m).
Proof.
  intros [S _ _] Hcur. pose proof (middle_in l1 x l2) as Hx. pose proof (sy_members _ _ _ _ _ S x Hx) as [Hp Hsl (t & Ht & _ & Ho) _ _ _ _ Hid].
  cbn in Hp, Hsl, Ht. rewrite Hcur in Ht. destruct (sy_sched _ _ _ _ _ S) as (ts & W & Hts).
  assert (Hz : current_task (ssched (msys m)) <> 0).
  { intros E. apply (wf_null _ _ W). rewrite <- E, Hts, <- Hcur. apply (list_elem_of_fmap_2 (fun x => proc_task (mb_proc x))), Hx. }
  assert (Hpz : mb_ptr x <> 0).
  { destruct (cells_run F A0 h0 _ _ (mb_ptr x) S) as [n Hn]; [eapply member_cells; [exact Hx|apply mb_ptr_cells]|].
    pose proof (run_bounds _ _ _ Hn). lia. }
  assert (Etc : task_current (msys m) = Some t) by (unfold task_current; rewrite (proj2 (Z.eqb_neq _ _) Hz); exact Ht).
  split; [|unfold current_process_ptr; by rewrite Etc, Ho].
  unfold invalid_task. rewrite Etc, Ho, (proj2 (Z.eqb_neq _ _) Hpz), Hp. cbn [mbind option_bind].
  rewrite Hcur, Z.eqb_refl. cbn [negb orb]. unfold process_get.
  assert (Hlt := lookup_lt_Some _ _ _ Hsl). pose proof (sy_slots _ _ _ _ _ S) as Hlen. cbn in Hlen. rewrite Hlen in Hlt. unfold RORTHOX_MAX_PROCESSES in *.
  rewrite (proj2 (Z.ltb_ge _ _) Hid), (proj2 (Z.leb_gt _ _)) by lia. cbn [orb]. by rewrite Hsl, Z.eqb_refl.
Qed.

Lemma on_mach_run {X} (c : io (mach D H) X) b r m' : c (bmach b) = (r, m') -> on_mach c b = (r, with_bmach m' b).
Proof. intros E. unfold on_mach. by rewrite E. Qed.

Lemma step_mach {X Y} (c : io (mach D H) X) (k : X -> io (board (D := D) (H := H)) Y) b a m' :
  c (bmach b) = (Ok a, m') -> (x ← on_mach c; k x) b = k a (with_bmach m' b).
Proof. intros E. unfold mbind, io_bind, on_mach. by rewrite E. Qed.

(** The next task is entered, and the rest of the board is as before. *)
Definition entered_at s0 l0 ptr l (r : result after * board (D := D) (H := H)) b : Prop :=
  match r with
  | (Ok (Entered o), b') => b' = with_bmach (bmach b') b /\ exists m, left_at F A0 h0 s0 l0 ptr o m l /\ pressed F A0 h0 m l (bmach b')
  | (Ok _, _) => False
  | (Err _, _) => l = []
  end.

Lemma next_entered s0 l0 ptr l b :
  settled F A0 s0 l0 ptr A0 h0 (bmach b) l -> entered_at s0 l0 ptr l ((r ← on_mach (next_task halts); entered r) b) b.
Proof.
  intros St. pose proof (settled_next F halts A0 h0 s0 l0 ptr (bmach b) l St) as Hn. unfold mbind, io_bind, on_mach.
  destruct (next_task halts (bmach b)) as [[r|e] m']; [|by destruct Hn]. destruct Hn as (o & m1 & -> & Hn). split; [done|by exists m1].
Qed.

Lemma fault_user b l1 x l2 v frame cr2 :
  let l := l1 ++ x :: l2 in
  between F A0 h0 (bmach b) l -> proc_task (mb_proc x) = current_task (ssched (msys (bmach b))) -> exception_fatal b = false ->
  Z.land (f_cs frame) 3 = 3 -> v <> 2 -> v <> 8 ->
  entered_at (msys (bmach b)) l (mb_ptr x) (l1 ++ l2) (idt_handle_exception num halts v frame cr2 b) b.
Proof.
  intros l B Hcur Hf Hcs Hv2 Hv8. unfold idt_handle_exception. set (m := bmach b). set (m1 := with_msched (with_cpu (cpu (ssched (msys m))) false (ssched (msys m))) m).
  assert (E1 : on_sched kernel_registers m = (Ok tt, m1)) by done. rewrite (step_mach _ _ _ _ _ E1). clear E1. rewrite io_gets.
  change (exception_fatal (with_bmach m1 b)) with (exception_fatal b). rewrite Hf, Hcs, (proj2 (Z.eqb_neq v 2)), (proj2 (Z.eqb_neq v 8)) by done.
  cbn [Z.eqb Pos.eqb orb negb]. rewrite io_gets. change (bmach (with_bmach m1 b)) with m1.
  destruct (valid_task m1 l1 x l2 (registers_between _ _ B) Hcur) as [-> Ep].
  rewrite (step_mach _ _ (with_bmach m1 b) _ m1 Ep). clear Ep.
  assert (E2 : on_sched (fun mm s => Some (kernel_page mm s)) m1 = (Ok tt, paged m)) by done.
  rewrite (step_mach _ _ (with_bmach m1 (with_bmach m1 b)) _ (paged m) E2). clear E2. pose proof (enter_settled m l (mb_ptr x) B) as St.
  set (b2 := with_bmach (paged m) (with_bmach m1 (with_bmach m1 b))).
  destruct (settled_terminate F A0 h0 _ _ _ (paged m) l1 x l2 St eq_refl) as (r & m3 & E3 & Hr).
  unfold mbind at 1, io_bind at 1. rewrite (on_mach_run _ b2 r m3 E3).
  destruct Hr as [[-> Hl]|(v' & -> & St3 & _)]; [exact Hl|]. exact (next_entered _ _ _ _ (with_bmach m3 b2) St3).
Qed.

(** ** Interrupts of a program *)

Lemma kept_settled s0 l0 ptr m l x c :
  settled F A0 s0 l0 ptr A0 h0 m l -> x ∈ l -> sched_kept (ssched (msys m)) c -> cpu c = cpu (ssched (msys m)) ->
  settled F A0 s0 l0 ptr A0 h0 (with_msched c m) l.
Proof.
  intros [S U Hc Hd Ho Ht] Hx K Ecpu. pose proof (sk_chunk _ _ K) as Hk.
  destruct (sched_keeps F A0 h0 (msys m) l x c S Hx Hk (sk_wf _ _ K) (sk_tasks _ _ K)) as [S' _]; [by rewrite Ecpu|].
  constructor; cbn [msys mtty with_msched ssched with_ssched]; [exact S'| |by rewrite Hk|by rewrite Ecpu, Hk|by rewrite Ecpu|exact Ht].
  eapply undisturbed_trans; [exact U|by apply sched_undisturbed].
Qed.

Lemma saved_settled s0 l0 ptr m l x frame :
  settled F A0 s0 l0 ptr A0 h0 m l -> x ∈ l -> proc_task (mb_proc x) = current_task (ssched (msys m)) ->
  exists m', on_sched (fun _ s => task_current_save_state frame s) m = (Ok tt, m') /\
    settled F A0 s0 l0 ptr A0 h0 m' l /\ current_task (ssched (msys m')) = current_task (ssched (msys m)).
Proof.
  intros St Hx Hcur. destruct (sy_sched _ _ _ _ _ (st_system _ _ _ _ _ _ _ _ _ St)) as (ts & W & Hts).
  assert (Hin : current_task (ssched (msys m)) ∈ ts) by (rewrite Hts, <- Hcur; apply (list_elem_of_fmap_2 (fun x => proc_task (mb_proc x))), Hx).
  unfold on_sched, task_current_save_state. rewrite (proj2 (Z.eqb_neq _ 0)) by (intros E; rewrite E in Hin; by apply (wf_null _ _ W)).
  unfold task_save_state. destruct (update_there (current_task (ssched (msys m))) (set_regs (Registers (f_edi frame) (f_esi frame) (f_ebp frame)
    (f_ebx frame) (f_edx frame) (f_ecx frame) (f_eax frame) (f_ip frame) (f_cs frame) (f_flags frame) (f_esp frame) (f_ss frame))) _ ts W Hin) as (c & E).
  rewrite E. eexists. split; [done|]. pose proof (kept_update _ _ _ _ E (fun t => conj (conj eq_refl eq_refl) (conj eq_refl eq_refl))) as K.
  unfold update in E. destruct (task_store _ !! _); [|done]. injection E as <-. split; [|done]. by eapply kept_settled.
Qed.

Lemma nmi_user b l1 x l2 frame cr2 :
  let l := l1 ++ x :: l2 in
  between F A0 h0 (bmach b) l -> proc_task (mb_proc x) = current_task (ssched (msys (bmach b))) -> exception_fatal b = false ->
  Z.land (f_cs frame) 3 = 3 ->
  entered_at (msys (bmach b)) l (mb_ptr x) l (idt_handle_exception num halts 2 frame cr2 b) b.
Proof.
  intros l B Hcur Hf Hcs. unfold idt_handle_exception. set (m := bmach b).
  set (m1 := with_msched (with_cpu (cpu (ssched (msys m))) false (ssched (msys m))) m).
  assert (E1 : on_sched kernel_registers m = (Ok tt, m1)) by done. rewrite (step_mach _ _ _ _ _ E1). clear E1. rewrite io_gets.
  change (exception_fatal (with_bmach m1 b)) with (exception_fatal b). rewrite Hf, Hcs. cbn [Z.eqb Pos.eqb].
  assert (E2 : on_sched (fun mm s => Some (kernel_page mm s)) m1 = (Ok tt, paged m)) by done.
  rewrite (step_mach _ _ (with_bmach m1 b) _ (paged m) E2). clear E2.
  destruct (saved_settled _ _ _ (paged m) l x frame (enter_settled m l (mb_ptr x) B) (middle_in _ _ _) Hcur) as (m3 & E3 & St3 & _).
  rewrite (step_mach _ _ (with_bmach (paged m) (with_bmach m1 b)) _ m3 E3). exact (next_entered _ _ _ _ (with_bmach m3 _) St3).
Qed.

(** The beginning of the handler of a device. *)
Lemma tick_resumed mm ts frame c : sched_wf c ts -> ts <> [] -> Z.land (f_cs frame) 3 = 3 ->
  exists o keys, pit_tick mm frame halts c = Some (inr (o, keys)) /\ resumed mm ts c o.
Proof.
  intros W Hne Hcs. unfold pit_tick. rewrite Hcs. cbn [Z.eqb Pos.eqb negb]. destruct (eoi_kept RORTHOX_PIC_MASTER_VECTOR_BASE c) as [K1 _].
  set (c1 := pic_send_eoi _ c) in *. set (c2 := with_jiffies (u32 (jiffies c1 + 1)) c1).
  assert (K2 : sched_kept c c2) by (etrans; [exact K1|by apply kept_fields]).
  destruct (wake_kept (jiffies c2) c2 ts (sk_wf _ _ K2 ts W)) as (c3 & -> & K3 & _). cbn [mbind option_bind].
  assert (K : sched_kept c c3) by (by etrans). destruct (task_next_resumed mm ts halts c3 (sk_wf _ _ K ts W) Hne) as (o & keys & -> & Ho).
  cbn [mbind option_bind]. exists o, keys. split; [done|]. by eapply resumed_kept.
Qed.

Lemma timer_user b l1 x l2 frame cr2 :
  let l := l1 ++ x :: l2 in
  between F A0 h0 (bmach b) l -> proc_task (mb_proc x) = current_task (ssched (msys (bmach b))) ->
  interrupt_callbacks b = ready_callbacks -> Z.land (f_cs frame) 3 = 3 ->
  entered_at (msys (bmach b)) l (mb_ptr x) l (interrupt_handler num halts scancode 32 frame cr2 b) b.
Proof.
  intros l B Hcur Hcb Hcs. unfold interrupt_handler. cbn [Z.ltb Z.compare Pos.compare Pos.compare_cont]. set (m := bmach b).
  assert (E2 : on_sched (fun mm s => Some (kernel_page mm s)) m = (Ok tt, paged m)) by done.
  rewrite (step_mach _ _ b _ (paged m) E2). clear E2. rewrite io_gets. cbn [with_bmach interrupt_callbacks]. rewrite Hcb.
  change (ready_callbacks !! 32) with (Some PitTick). cbv iota. rewrite Hcs. cbn [Z.eqb Pos.eqb].
  destruct (saved_settled _ _ _ (paged m) l x frame (enter_settled m l (mb_ptr x) B) (middle_in _ _ _) Hcur) as (m3 & E3 & St3 & _).
  set (b3 := with_bmach m3 b).
  assert (Ht : run_callback halts scancode PitTick frame b3 = pit_tick_callback halts frame b3) by done.
  destruct (sy_sched _ _ _ _ _ (st_system _ _ _ _ _ _ _ _ _ St3)) as (ts & W & Hts).
  assert (Hne : ts <> []) by (intros ->; apply Permutation_nil in Hts; by destruct l1).
  destruct (tick_resumed (mmem m3) ts frame _ W Hne Hcs) as (o & keys & Eo & Ho).
  destruct (leave_idle_ok F A0 h0 _ _ _ m3 l ts o keys St3) as (m4' & m4 & E4 & Hl); [by destruct l1|done|done|].
  assert (Ec : pit_tick_callback halts frame b3 = (Ok (Entered o), with_bmach m4 b3)).
  { unfold pit_tick_callback. rewrite io_gets. cbv zeta. change (bmach b3) with m3. rewrite Eo. rewrite (step_mach _ _ b3 _ m4 E4). done. }
  unfold mbind at 1, io_bind at 1. rewrite (step_mach _ _ (with_bmach (paged m) b) _ m3 E3).
  change (with_bmach m3 (with_bmach (paged m) b)) with b3. rewrite Ht, Ec. split; [done|by exists m4'].
Qed.

(** *** The keyboard *)

(** The same process, up to its key buffer. *)
Definition same_process (x x' : member) : Prop :=
  mb_ptr x' = mb_ptr x /\ proc_task (mb_proc x') = proc_task (mb_proc x) /\ mb_chunk x' = mb_chunk x.

Lemma foreground s l : system F A0 h0 s l -> current_process s <> 0 ->
  exists y, y ∈ l /\ mb_ptr y = current_process s /\ procs s !! current_process s = Some (mb_proc y).
Proof.
  intros S Hz. destruct (sy_current _ _ _ _ _ S) as [?|Hin]; [done|]. apply list_elem_of_fmap in Hin as (y & E & Hy).
  exists y. split; [done|]. split; [done|]. rewrite E. apply (mo_proc _ _ (sy_members _ _ _ _ _ S y Hy)).
Qed.

Lemma keyboard_settled s0 l0 ptr m l k : settled F A0 s0 l0 ptr A0 h0 m l -> settled F A0 s0 l0 ptr A0 h0 (Mach (msys m) (mtty m) k) l.
Proof. intros []. by constructor. Qed.

Lemma push_settled s0 l0 m l c x :
  settled F A0 s0 l0 (current_process (msys m)) A0 h0 m l -> x ∈ l ->
  exists s', keyboard_push c (msys m) = Some s' /\ ssched s' = ssched (msys m) /\ forall k,
  exists l' x', settled F A0 s0 l0 (current_process (msys m)) A0 h0 (Mach s' (mtty m) k) l' /\ x' ∈ l' /\ same_process x x'.
Proof.
  intros St Hx. unfold keyboard_push. destruct (Z.eqb_spec (current_process (msys m)) 0) as [Hz|Hz].
  { eexists. split; [done|]. split; [done|]. intros k. exists l, x. split; [|done]. by apply keyboard_settled. }
  destruct (foreground _ _ (st_system _ _ _ _ _ _ _ _ _ St) Hz) as (y & Hy & Ey & Hp). rewrite Hp. cbn [mbind option_bind].
  eexists. split; [done|]. split; [done|]. intros k.
  destruct (keyboard_keeps F A0 h0 (msys m) l y (buffer_push c (keyboard (mb_proc y))) (st_system _ _ _ _ _ _ _ _ _ St) Hy) as (l' & S' & U & Hy' & _).
  rewrite Ey in S', U, Hy'. exists l'.
  assert (St' : settled F A0 s0 l0 (current_process (msys m)) A0 h0 (Mach (with_procs (<[current_process (msys m) := with_keyboard (buffer_push c (keyboard (mb_proc y))) (mb_proc y)]> (procs (msys m))) (msys m)) (mtty m) k) l').
  { apply (keyboard_settled _ _ _ (Mach _ _ (mkeyboard m))), (settled_step F A0 s0 l0 _ A0 h0 m l _ l'); [reflexivity|exact St|exact S'|exact U|done]. }
  destruct (decide (mb_ptr x = current_process (msys m))) as [E|E].
  - eexists. split; [exact St'|]. split; [exact Hy'|]. assert (Exy : mb_proc x = mb_proc y).
    { pose proof (mo_proc _ _ (sy_members _ _ _ _ _ (st_system _ _ _ _ _ _ _ _ _ St) x Hx)) as Hpx. rewrite E, Hp in Hpx. by injection Hpx. }
    split; [done|]. cbn [mb_proc mb_chunk]. split; [by rewrite Exy|].
    destruct (mo_task _ _ (sy_members _ _ _ _ _ (st_system _ _ _ _ _ _ _ _ _ St) x Hx)) as (t1 & Ht1 & <- & _).
    destruct (mo_task _ _ (sy_members _ _ _ _ _ (st_system _ _ _ _ _ _ _ _ _ St) y Hy)) as (t2 & Ht2 & <- & _). rewrite Exy, Ht2 in Ht1. by injection Ht1 as ->.
  - exists x. split; [exact St'|]. split; [by apply (un_other _ _ _ _ _ _ U)|done].
Qed.

(** The callback of the keyboard. *)
Lemma keyboard_runs s0 l0 l x b :
  settled F A0 s0 l0 (current_process (msys (bmach b))) A0 h0 (bmach b) l -> x ∈ l ->
  exists m', keyboard_callback scancode b = (Ok Resume, with_bmach m' b) /\ press_keys [scancode] (bmach b) = (Ok tt, m') /\
    ssched (msys m') = ssched (msys (bmach b)) /\ exists l' x', settled F A0 s0 l0 (current_process (msys (bmach b))) A0 h0 m' l' /\
    x' ∈ l' /\ same_process x x'.
Proof.
  intros St Hx. destruct (handle_interrupt_result keyboard_push scancode (mkeyboard (bmach b)) (msys (bmach b))) as (k' & s' & Ek & Hs').
  { intros c. destruct (push_settled _ _ _ _ c x St Hx) as (s1 & E1 & _). by exists s1. }
  exists (Mach s' (mtty (bmach b)) k'). split; [unfold keyboard_callback; cbv zeta; by rewrite Ek|].
  split; [unfold press_keys; cbn [handle_bytes]; by rewrite Ek|]. destruct Hs' as [->|(c & Ec)].
  - split; [done|]. exists l, x. split; [by apply keyboard_settled|done].
  - destruct (push_settled _ _ _ _ c x St Hx) as (s1 & E1 & Es & Hl). rewrite Ec in E1. injection E1 as <-. by split.
Qed.

(** ** Going back *)

Lemma between_kept m l x c : between F A0 h0 m l -> x ∈ l -> sched_kept (ssched (msys m)) c -> between F A0 h0 (with_msched c m) l.
Proof.
  intros [S Hc Ht] Hx K. pose proof (sk_chunk _ _ K) as Hk. constructor; cbn; [|by rewrite Hk|done].
  destruct (sched_keeps F A0 h0 (in_kernel (msys m)) l x (kernel_page (mmem m) c) S Hx) as [S' _].
  - exact Hk.
  - intros ts W. apply (sched_wf_fields c); [..|done|done]; [|done..]. apply (sk_wf _ _ K). by apply (sched_wf_fields (ssched (in_kernel (msys m)))).
  - exact (sk_tasks _ _ K).
  - cbn. rewrite Hk. exact (sy_cur _ _ _ _ _ S).
  - exact S'.
Qed.

(** The program goes on, in its address space. *)
Definition back_at s0 l0 ptr x (r : result after * board (D := D) (H := H)) b : Prop :=
  match r with
  | (Ok Resume, b') => exists l x', between F A0 h0 (bmach b') l /\ undisturbed A0 ptr s0 l0 (msys (bmach b')) l /\ x' ∈ l /\ same_process x x' /\
      current_task (ssched (msys (bmach b'))) = proc_task (mb_proc x') /\
      cpu (ssched (msys (bmach b'))) = paging_switch (mmem (bmach b')) (mb_chunk x') /\
      exception_fatal b' = exception_fatal b /\ interrupt_callbacks b' = interrupt_callbacks b
  | _ => False
  end.

Lemma resume_back s0 l0 ptr l x x' v b :
  settled F A0 s0 l0 ptr A0 h0 (bmach b) l -> x' ∈ l -> same_process x x' ->
  current_task (ssched (msys (bmach b))) = proc_task (mb_proc x') ->
  back_at s0 l0 ptr x ((_ ← on_mach (on_sched task_page); _ ← on_mach (on_sched (fun _ s => Some (pic_send_eoi v s))); mret Resume) b) b.
Proof.
  intros St Hx Hs Hcur. destruct (return_settled F A0 h0 s0 l0 ptr (bmach b) l x' St Hx Hcur) as (m1 & E1 & B1 & U1 & C1 & D1).
  rewrite (step_mach _ _ b _ m1 E1). destruct (eoi_kept v (ssched (msys m1))) as [K Ecpu].
  assert (Ec : current_task (pic_send_eoi v (ssched (msys m1))) = current_task (ssched (msys m1))) by (unfold pic_send_eoi; by repeat case_match).
  set (m2 := with_msched (pic_send_eoi v (ssched (msys m1))) m1).
  assert (E2 : on_sched (fun _ s => Some (pic_send_eoi v s)) m1 = (Ok tt, m2)) by done. rewrite (step_mach _ _ (with_bmach m1 b) _ m2 E2).
  exists l, x'. split; [by eapply between_kept|]. split; [eapply undisturbed_trans; [exact U1|]; apply sched_undisturbed, K|].
  split; [done|]. split; [done|]. split; [by rewrite <- C1|]. split; [|done]. change (cpu (ssched (msys m2)) = paging_switch (mmem m1) (mb_chunk x')).
  rewrite <- D1. exact Ecpu.
Qed.

Lemma device_user b l x v frame cr2 :
  between F A0 h0 (bmach b) l -> x ∈ l -> proc_task (mb_proc x) = current_task (ssched (msys (bmach b))) ->
  interrupt_callbacks b = ready_callbacks -> Z.land (f_cs frame) 3 = 3 -> 33 < v ->
  back_at (msys (bmach b)) l (mb_ptr x) x (interrupt_handler num halts scancode v frame cr2 b) b.
Proof.
  intros B Hx Hcur Hcb Hcs Hv. unfold interrupt_handler. rewrite (proj2 (Z.ltb_ge v 0x20)) by lia. set (m := bmach b).
  assert (E2 : on_sched (fun mm s => Some (kernel_page mm s)) m = (Ok tt, paged m)) by done.
  rewrite (step_mach _ _ b _ (paged m) E2). clear E2. rewrite io_gets. cbn [with_bmach interrupt_callbacks].
  assert (Hn : interrupt_callbacks b !! v = None) by (rewrite Hcb; unfold ready_callbacks; rewrite !lookup_insert_ne by lia; apply lookup_empty).
  rewrite Hn, Hcs, io_mret. cbn [Z.eqb Pos.eqb]. exact (resume_back _ _ _ l x x v (with_bmach (paged m) b) (enter_settled m l (mb_ptr x) B) Hx (conj eq_refl (conj eq_refl eq_refl)) (eq_sym Hcur)).
Qed.

Lemma keyboard_user b l x frame cr2 :
  between F A0 h0 (bmach b) l -> x ∈ l -> proc_task (mb_proc x) = current_task (ssched (msys (bmach b))) ->
  interrupt_callbacks b = ready_callbacks -> Z.land (f_cs frame) 3 = 3 ->
  back_at (msys (bmach b)) l (current_process (msys (bmach b))) x (interrupt_handler num halts scancode 33 frame cr2 b) b.
Proof.
  intros B Hx Hcur Hcb Hcs. unfold interrupt_handler. cbn [Z.ltb Z.compare Pos.compare Pos.compare_cont]. set (m := bmach b).
  assert (E2 : on_sched (fun mm s => Some (kernel_page mm s)) m = (Ok tt, paged m)) by done.
  rewrite (step_mach _ _ b _ (paged m) E2). clear E2. rewrite io_gets. cbn [with_bmach interrupt_callbacks]. rewrite Hcb.
  change (ready_callbacks !! 33) with (Some KeyboardInterrupt). cbv iota. rewrite Hcs. cbn [Z.eqb Pos.eqb]. set (ptr := current_process (msys m)).
  destruct (saved_settled _ _ _ (paged m) l x frame (enter_settled m l ptr B) Hx Hcur) as (m3 & E3 & St3 & C3).
  assert (Hp : current_process (msys m3) = ptr).
  { unfold on_sched in E3. destruct (task_current_save_state _ _); [|done]. by injection E3 as <-. }
  rewrite <- Hp in St3 |- *. clear Hp ptr. set (b3 := with_bmach m3 b).
  destruct (keyboard_runs _ _ l x b3 St3 Hx) as (m4 & Ek & _ & Es & l' & x' & St' & Hx' & Hsame).
  set (b4 := with_bmach m4 b3).
  unfold mbind at 1, io_bind at 1. rewrite (step_mach _ _ (with_bmach (paged m) b) _ m3 E3).
  change (with_bmach m3 (with_bmach (paged m) b)) with b3. cbn [run_callback]. rewrite Ek.
  exact (resume_back _ _ _ l' x x' 33 b4 St' Hx' Hsame ltac:(cbn; rewrite Es; change (msys (bmach b3)) with (msys m3); rewrite C3, (proj1 (proj2 Hsame)); symmetry; exact Hcur)).
Qed.

(** ** Interrupts of the idle loop *)

(** The interrupt of the loop with vector [v]. *)
Definition irq_of (v : Z) : irq := if v =? 32 then IrqTimer else if v =? 33 then IrqKeyboard scancode else IrqOther v.

(** The scheduler and the keyboard as the loop has them, and the rest in order. *)
Definition idled b l v (r : result after * board (D := D) (H := H)) : Prop :=
  let s := msys (bmach b) in
  match r with
  | (Ok Resume, b') => irq_idle (mmem (bmach b)) (irq_of v) (ssched s) = Some (ssched (msys (bmach b'))) /\
      (exists m1, press_keys (scancodes [irq_of v]) (paged (bmach b)) = (Ok tt, m1) /\ b' = with_bmach (with_msched (ssched (msys (bmach b'))) m1) b) /\
      exists l', between F A0 h0 (bmach b') l' /\ undisturbed A0 (current_process s) s l (msys (bmach b')) l'
  | _ => False
  end.

Lemma idle_finish b l l' x m1 v c' :
  settled F A0 (msys (bmach b)) l (current_process (msys (bmach b))) A0 h0 m1 l' -> x ∈ l' -> sched_kept (ssched (msys m1)) c' ->
  irq_idle (mmem (bmach b)) (irq_of v) (ssched (msys (bmach b))) = Some c' ->
  press_keys (scancodes [irq_of v]) (paged (bmach b)) = (Ok tt, m1) -> idled b l v (Ok Resume, with_bmach (with_msched c' m1) b).
Proof.
  intros St Hx K E Ep. split; [exact E|]. split; [by exists m1|].
  exists l'. split; [exact (kept_between F A0 h0 _ _ _ m1 l' x c' St Hx K)|].
  eapply undisturbed_trans; [exact (st_other _ _ _ _ _ _ _ _ _ St)|]. by apply sched_undisturbed, K.
Qed.

Lemma idle_timer b l x frame cr2 :
  between F A0 h0 (bmach b) l -> x ∈ l -> interrupt_callbacks b = ready_callbacks -> Z.land (f_cs frame) 3 <> 3 ->
  idled b l 32 (interrupt_handler num halts scancode 32 frame cr2 b).
Proof.
  intros B Hx Hcb Hcs. set (m := bmach b). pose proof (enter_settled m l (current_process (msys m)) B) as St.
  destruct (sy_sched _ _ _ _ _ (bt_system _ _ _ _ _ B)) as (ts & W & _). set (c1 := kernel_page (mmem m) (ssched (msys m))) in *.
  set (c2 := with_jiffies (u32 (jiffies c1 + 1)) c1). assert (K2 : sched_kept c1 c2) by (by apply kept_fields).
  destruct (wake_kept (jiffies c2) c2 ts (sk_wf _ _ K2 ts W)) as (c3 & E3 & K3 & _).
  destruct (eoi_kept 32 c3) as [K4 _]. set (c4 := pic_send_eoi 32 c3) in *.
  assert (E : interrupt_handler num halts scancode 32 frame cr2 b =
    (Ok Resume, with_bmach (with_msched c4 (paged m)) b)).
  { unfold interrupt_handler. cbn [Z.ltb Z.compare Pos.compare Pos.compare_cont].
    assert (E2 : on_sched (fun mm s => Some (kernel_page mm s)) m = (Ok tt, paged m)) by done. rewrite (step_mach _ _ b _ (paged m) E2).
    rewrite io_gets. cbn [with_bmach interrupt_callbacks]. rewrite Hcb. change (ready_callbacks !! 32) with (Some PitTick). cbv iota.
    rewrite (proj2 (Z.eqb_neq _ 3) Hcs). unfold mbind at 1, io_bind at 1. rewrite io_mret. cbn [run_callback]. unfold pit_tick_callback. rewrite io_gets.
    cbv zeta. change (bmach (with_bmach (paged m) b)) with (paged m). change (ssched (msys (paged m))) with c1. unfold pit_tick.
    rewrite (proj2 (Z.eqb_neq _ 3) Hcs). cbn [negb]. unfold pit_tick_idle. fold c2. rewrite E3. cbn [mbind option_bind]. done. }
  rewrite E. apply (idle_finish b l l x (paged m)); [exact St|done|etrans; [exact K2|]; by etrans| |reflexivity].
  unfold irq_idle. fold m c1. cbn [irq_of Z.eqb Pos.eqb]. unfold pit_tick_idle. fold c2. rewrite E3. done.
Qed.

Lemma settled_between s0 l0 ptr m l x : settled F A0 s0 l0 ptr A0 h0 m l -> x ∈ l -> between F A0 h0 m l.
Proof.
  intros St Hx. pose proof (kept_between F A0 h0 s0 l0 ptr m l x (ssched (msys m)) St Hx ltac:(reflexivity)) as B.
  by destruct m as [[] ].
Qed.

Lemma idle_device b l x v frame cr2 :
  between F A0 h0 (bmach b) l -> x ∈ l -> interrupt_callbacks b = ready_callbacks -> Z.land (f_cs frame) 3 <> 3 -> 32 < v ->
  idled b l v (interrupt_handler num halts scancode v frame cr2 b).
Proof.
  intros B Hx Hcb Hcs Hv. set (m := bmach b). set (b1 := with_bmach (paged m) b).
  pose proof (enter_settled m l (current_process (msys m)) B) as St.
  assert (E2 : on_sched (fun mm s => Some (kernel_page mm s)) m = (Ok tt, paged m)) by done.
  assert (Hr : exists m3 l' x', settled F A0 (msys m) l (current_process (msys m)) A0 h0 m3 l' /\ x' ∈ l' /\
    ssched (msys m3) = ssched (msys (paged m)) /\ press_keys (scancodes [irq_of v]) (paged m) = (Ok tt, m3) /\
    match interrupt_callbacks b !! v with Some c => _ ← mret tt; run_callback halts scancode c frame | None => mret Resume end b1 =
      (Ok Resume, with_bmach m3 b)).
  { rewrite Hcb. unfold irq_of. rewrite (proj2 (Z.eqb_neq v 32)) by lia. destruct (Z.eqb_spec v 33) as [->|H33].
    - destruct (keyboard_runs _ _ l x b1 St Hx) as (m3 & Ek & Ep & Es & l' & x' & St' & Hx' & _). exists m3, l', x'.
      split; [exact St'|]. split; [done|]. split; [done|]. split; [exact Ep|]. exact Ek.
    - exists (paged m), l, x. split; [exact St|]. split; [done|]. split; [done|]. split; [reflexivity|]. unfold ready_callbacks.
      by rewrite !lookup_insert_ne, lookup_empty by lia. }
  destruct Hr as (m3 & l' & x' & St' & Hx' & Es & Ep & Er). set (c4 := pic_send_eoi v (ssched (msys m3))).
  assert (E : interrupt_handler num halts scancode v frame cr2 b = (Ok Resume, with_bmach (with_msched c4 m3) b)).
  { unfold interrupt_handler. rewrite (proj2 (Z.ltb_ge v 0x20)) by lia. rewrite (step_mach _ _ b _ (paged m) E2), io_gets.
    change (interrupt_callbacks (with_bmach (paged m) b)) with (interrupt_callbacks b). rewrite (proj2 (Z.eqb_neq _ 3) Hcs).
    unfold mbind at 1, io_bind at 1. fold b1. rewrite Er. done. }
  rewrite E. apply (idle_finish b l l' x' m3); [exact St'|done|apply eoi_kept| |exact Ep].
  unfold irq_idle, irq_of, c4. rewrite Es, (proj2 (Z.eqb_neq v 32)) by lia. by destruct (Z.eqb_spec v 33) as [->|].
Qed.

(** ** The stop *)

Lemma fatal_stop_run b v frame cr2 msg : length num = 12%nat ->
  exists t', PANIC num (Some (literal msg)) (Some idt_file) 72 (exception_report v frame cr2 (mtty (bmach b))) = Some t' /\
    exception_fatal_stop num v frame cr2 msg b = (Ok Stopped, Board (Mach (msys (bmach b)) t' (mkeyboard (bmach b))) true (interrupt_callbacks b)).
Proof.
  intros Hn. unfold exception_fatal_stop. destruct (panic_number num 72 Hn ltac:(lia)) as (buf & E & _). unfold PANIC at 1 2.
  rewrite E. cbn [mbind option_bind]. by eexists.
Qed.

Definition in_registers m : mach D H := with_msched (with_cpu (cpu (ssched (msys m))) false (ssched (msys m))) m.

Lemma stop_run b v frame cr2 : length num = 12%nat -> v < 32 -> v <> 2 -> v = 8 \/ Z.land (f_cs frame) 3 <> 3 -> exception_fatal b = false ->
  exists t', PANIC num (Some (literal "Kernel exception")) (Some idt_file) 72 (exception_report v frame cr2 (mtty (bmach b))) = Some t' /\
    interrupt_handler num halts scancode v frame cr2 b =
      (Ok Stopped, Board (Mach (msys (in_registers (bmach b))) t' (mkeyboard (bmach b))) true (interrupt_callbacks b)).
Proof.
  intros Hn Hv Hv2 Hk Hf. unfold interrupt_handler. rewrite (proj2 (Z.ltb_lt v 0x20)) by lia. unfold idt_handle_exception. set (m := bmach b).
  assert (E1 : on_sched kernel_registers m = (Ok tt, in_registers m)) by done. rewrite (step_mach _ _ _ _ _ E1). clear E1. rewrite io_gets.
  change (exception_fatal (with_bmach (in_registers m) b)) with (exception_fatal b). rewrite Hf, (proj2 (Z.eqb_neq v 2)) by done.
  assert (Hs : (v =? 8) || negb (Z.land (f_cs frame) 3 =? 3) = true) by (case_Zb; cbn; lia). rewrite Hs.
  destruct (fatal_stop_run (with_bmach (in_registers m) b) v frame cr2 "Kernel exception" Hn) as (t' & E & ->). exists t'.
  split; [exact E|reflexivity].
Qed.
End safe.

(** *** The report *)

(** Eight hexadecimal digits. *)
Definition hex8 (v : Z) : list Z := map (fun i => exception_digit (v / 16 ^ (7 - Z.of_nat i) mod 16)) (seq 0 8).

Definition report_text (v error cr2 : Z) : list Z :=
  literal "exception: vector=0x" ++ hex8 v ++ literal " error=0x" ++ hex8 error ++
  (if v =? 14 then literal " cr2=0x" ++ hex8 cr2 else []) ++ [10].

(** The terminal with the bytes [l] on the debug port. *)
Definition debug_out (l : list Z) (t : tty) : tty :=
  Tty (terminal_count t) (cursor_pos t) (video_mem t) (terminal_row t) (terminal_col t) (terminal_color t)
    (termianl_background_color t) (rev (map (pair 0xE9) l) ++ tty_ports t).

Lemma debug_out_nil t : debug_out [] t = t.
Proof. by destruct t. Qed.

Lemma debug_out_app l1 l2 t : debug_out l2 (debug_out l1 t) = debug_out (l1 ++ l2) t.
Proof. unfold debug_out. cbn. f_equal. by rewrite map_app, rev_app_distr, app_assoc. Qed.

Lemma dbg_putc_out c t : dbg_putc c t = debug_out [c] t.
Proof. done. Qed.

Lemma dbg_puts_out l : forallb (fun c => negb (c =? 0)) l = true -> forall t, dbg_puts l t = debug_out l t.
Proof.
  induction l as [|c l IH]; intros Hl t; [by rewrite debug_out_nil|]. cbn [forallb] in Hl. apply andb_prop in Hl as [Hc Hl].
  cbn [dbg_puts]. rewrite Hc, (IH Hl), dbg_putc_out, debug_out_app. done.
Qed.

Lemma nibble v k : 0 <= k -> Z.land (Z.shiftr v (4 * k)) 0xf = v / 16 ^ k mod 16.
Proof. intros Hk. change 0xf with (Z.ones 4). rewrite Z.land_ones, Z.shiftr_div_pow2, Z.pow_mul_r by lia. done. Qed.

Lemma put_hex_out v t : exception_put_hex v t = debug_out (hex8 v) t.
Proof.
  unfold exception_put_hex. cbn [put_hex_loop]. rewrite !dbg_putc_out, !debug_out_app, !nibble by lia. reflexivity.
Qed.

Lemma report_out v frame cr2 t : 0 <= v < 2 ^ 32 -> exception_report v frame cr2 t = debug_out (report_text v (f_error_code frame) cr2) t.
Proof.
  intros Hv. unfold report_text, exception_report. cbv zeta. rewrite (u32_small v) by lia. rewrite (dbg_puts_out [10]) by done.
  rewrite !(dbg_puts_out (literal _)) by done. rewrite !put_hex_out, !debug_out_app.
  destruct (v =? 14); rewrite ?debug_out_app, <- ?app_assoc; done.
Qed.

(** ** Properties *)

Section theorems.
Context {D H : Type} `{BlockDeviceLaws D} `{AllocatorLaws H} (F : filesystem D H) `{!FilesystemLaws F}.
Context (A0 : gmap Z Z) (h0 : H) (num : list Z) (halts : list (list irq)) (scancode : Z).
Implicit Types (b : board (D := D) (H := H)) (l : list member).

(** Faults: the exceptions that are the program's doing. *)
Definition is_fault (v : Z) : bool := (v <? 32) && negb (v =? 2) && negb (v =? 8).


(** an exception of the kernel is reported once and for good. An exception raised in the kernel (or a double fault
    anywhere) writes its vector, its error code and, for a page fault, the faulting address to the debug port in
    hexadecimal, shows the stop screen with the place, and halts; no process, file or allocation changes, and any
    exception that comes in later halts at once and leaves the screen alone. *)
Theorem kernel_exception_stops b v frame cr2 :
  length num = 12%nat -> 0 <= v < 32 -> v <> 2 -> v = 8 \/ Z.land (f_cs frame) 3 <> 3 -> exception_fatal b = false ->
  exists t' b', interrupt_handler num halts scancode v frame cr2 b = (Ok Stopped, b') /\
    PANIC num (Some (literal "Kernel exception")) (Some (literal "./kernel/idt/idt.c")) 72
      (debug_out (report_text v (f_error_code frame) cr2) (mtty (bmach b))) = Some t' /\
    mtty (bmach b') = t' /\ skern (msys (bmach b')) = skern (msys (bmach b)) /\ procs (msys (bmach b')) = procs (msys (bmach b)) /\
    forall v' frame' cr2', v' < 32 ->
      exists b2, interrupt_handler num halts scancode v' frame' cr2' b' = (Ok Stopped, b2) /\ mtty (bmach b2) = t'.
Proof.
  intros Hn Hv H2v Hk Hf. destruct (stop_run num halts scancode b v frame cr2 Hn ltac:(lia) H2v Hk Hf) as (t' & Ep & Er).
  rewrite report_out in Ep by lia. exists t'. eexists. split; [exact Er|]. split; [exact Ep|]. do 3 (split; [done|]). intros v' frame' cr2' Hv'.
  unfold interrupt_handler. rewrite (proj2 (Z.ltb_lt v' 0x20)) by lia. eexists. split; [reflexivity|done].
Qed.

(** while no task can run, the interrupts of the idle loop do exactly what the model of the loop in [task_next] and
    [leave_idle] has them do: the timer counts and wakes the sleepers that are due, the keyboard gives its byte to the
    driver, and every other device leaves everything alone. The handler returns to the loop each time, and everything but the key buffer of the process in the foreground
    is as it was. *)
Theorem idle_interrupt_refines b l v frame cr2 :
  between F A0 h0 (bmach b) l -> l <> [] -> interrupt_callbacks b = ready_callbacks -> Z.land (f_cs frame) 3 <> 3 -> 32 <= v < 256 ->
  exists b' l', interrupt_handler num halts scancode v frame cr2 b = (Ok Resume, b') /\
    irq_idle (mmem (bmach b)) (irq_of scancode v) (ssched (msys (bmach b))) = Some (ssched (msys (bmach b'))) /\
    (exists m1, press_keys (scancodes [irq_of scancode v]) (paged (bmach b)) = (Ok tt, m1) /\
       b' = with_bmach (with_msched (ssched (msys (bmach b'))) m1) b) /\
    between F A0 h0 (bmach b') l' /\ undisturbed A0 (current_process (msys (bmach b))) (msys (bmach b)) l (msys (bmach b')) l'.
Proof.
  intros B Hne Hcb Hcs Hv. destruct l as [|x l]; [done|]. pose proof (list_elem_of_here x l) as Hx.
  assert (Hi : idled F A0 h0 scancode b (x :: l) v (interrupt_handler num halts scancode v frame cr2 b)).
  { destruct (Z.eq_dec v 32) as [->|H32]; [by eapply idle_timer|]. eapply idle_device; [exact B|exact Hx|exact Hcb|exact Hcs|lia]. }
  destruct (interrupt_handler _ _ _ _ _ _ b) as [[[]|e] b']; [|done..]. destruct Hi as [E [Ep (l' & B' & U)]]. by exists b', l'.
Qed.
End theorems.

(** ** Example *)

Definition life_board (s : sys ram_disk Heap.heap) : board :=
  Board (Mach s boot_tty life_kybd) false ready_callbacks.


Definition kernel_frame : interrupt_frame := InterruptFrame 0 0 0 0 0 0 0 0 2 0x100000 0x8 0x2 0 0.

Lemma kernel_exception_stops_witness :
  exists b', interrupt_handler (replicate 12 0) [] 0 14 kernel_frame 0xDEADBEEF (life_board life_sys) = (Ok Stopped, b').
Proof.
  destruct (kernel_exception_stops (D := ram_disk) (H := Heap.heap) (replicate 12 0) [] 0 (life_board life_sys) 14 kernel_frame 0xDEADBEEF) as (t' & b' & E & _);
    [reflexivity|lia|lia|right; discriminate|reflexivity|]. exists b'. exact E.
Defined.

Lemma idle_interrupt_refines_witness :
  exists (s : sys ram_disk Heap.heap) b', interrupt_handler (replicate 12 0) [] 0 32 kernel_frame 0 (life_board s) = (Ok Resume, b').
Proof.
  destruct life_loaded as (s & x & S & U). exists s.
  destruct (idle_interrupt_refines fat16_init life_old (kheap life_kern) (replicate 12 0) [] 0 (life_board s) [x] 32 kernel_frame 0
    (life_between s x S U) ltac:(discriminate) eq_refl ltac:(discriminate) ltac:(lia)) as (b' & l' & E & _). exists b'. exact E.
Defined.
