(* ===== verification/Boot.v ===== *)
(** * Starting the kernel (kernel/kernel.c)

    [kernel_main] sets up the tables, the heap, the file system, paging, the commands and the keyboard, loads the shell and
    starts its task. The theorem shows that it ends in the state that the theorems about system calls and interrupts start
    from, or on the stop screen. The variables of the C program are zero before; what is in memory, on the screen and in
    the clock is arbitrary. *)

From stdpp Require Import base numbers list gmap strings.
From Stdlib Require Import ZArith Lia.
From S2P Require Import Prelude Alloc Heap Memory Paging Sched Effects Disk StrLib PathParser Fat FatWrite FatProps.
From S2P Require Import FatDir FatDirScan FatOpen FatMount Vfs Elf UserMem Process AddrSpace ProcLoad ProcArgs ProcLife.
From S2P Require Import System Isolation Descriptors Tty Panic Rtc Keyboard Syscall SysFrame SysCalls SysProps Interrupt IntProps.

#[local] Set Default Goal Selector "!".

Definition KERNEL_BACKGROUND_COLOR : Z := VGA_COLOR_BLACK.
Definition VGA_COLOR_LIGHT_CYAN : Z := 11.
Definition VGA_COLOR_LIGHT_MAGENTA : Z := 13.
Definition kernel_file : list Z := literal "./kernel/kernel.c".

Section boot.
Context {D C : Type} `{BlockDevice D} `{CmosPorts C}.

(** The kernel with its tables. *)
Record kernel := Kernel {
  k_board : board (D := D) (H := Heap.heap);
  k_gdt : list (list Z);
  k_idt : list idt_desc;
  k_tss : tss;
  k_commands : gmap Z command;
  k_keyboards : keyboards;
  k_clock : C
}.

(** [panic] shows a message and stops; otherwise the processor goes to user mode. *)
Inductive startup :=
  | BootPanic (msg : list Z) (t : tty)
  | BootRun (o : next_outcome) (k : kernel).

(** Addresses and tables of the image, the time of its build, and what the stack and the clock hold. *)
Context (interrupt_pointer_table : list Z) (isr80h_wrapper tss_address classic_keyboard : Z) (timestamp num : list Z).
Context (rounds flags : nat) (century : Z) (keyboard : kybd).

Definition boot_panic (msg : list Z) (t : tty) : option startup :=
  t ← PANIC num (Some msg) (Some kernel_file) 33 t; Some (BootPanic msg t).

(** The variables of the kernel before [kernel_main]. *)
Definition zero_heap : Heap.heap := Heap.Heap (HeapTable [] 0) 0.
Definition zero_sched : sched := Sched ∅ 0 0 0 0 0 0 (PagingCpu 0 0) false [].
Definition zero_sys (files : vfs D Heap.heap) (mm : mem) : sys D Heap.heap :=
  Sys (Kern files mm) zero_sched ∅ (replicate (Z.to_nat RORTHOX_MAX_PROCESSES) 0) 0.

Definition on_tty_of (f : tty -> tty) (b : board (D := D) (H := Heap.heap)) : board := with_bmach (Mach (msys (bmach b)) (f (mtty (bmach b))) (mkeyboard (bmach b))) b.

(** [kernel_chunk = paging_new_4gb(...); paging_switch(kernel_chunk);] *)
Definition set_kernel_chunk (chunk : Z) (h : Heap.heap) (mm : mem) (b : board (D := D) (H := Heap.heap)) : board :=
  let s := msys (bmach b) in
  let c := ssched s in
  let c := Sched (task_store c) (task_head c) (task_tail c) (current_task c) (tasks c) (jiffies c) chunk (paging_switch mm chunk) (user_segments c) (ports c) in
  with_bmach (Mach (with_ssched c (with_skern (with_kmem mm (with_kheap h (skern s))) s)) (mtty (bmach b)) (mkeyboard (bmach b))) b.

(** From the loading of the shell on. *)
Definition start_shell (k : kernel) : option startup :=
  let b := k_board k in
  let t := mtty (bmach b) in
  match process_load_switch (literal "0:/shell.elf") (msys (bmach b)) with
  | (Err _, _) => boot_panic (literal "Failed to load shell.elf" ++ [10]) t
  | (Ok _, s) =>
    let t := printc (literal ";- >") VGA_COLOR_LIGHT_CYAN t in
    '(_, t) ← printf (literal "%s") [VaStr (Some timestamp)] t;
    let t := printc (literal "< -;" ++ [10]) VGA_COLOR_LIGHT_MAGENTA t in
    '(_, clock, t) ← printtime rounds flags century_register century (k_clock k) t;
    o ← task_run_first_ever_task (kmem (skern s)) (ssched s);
    let s := match o with NextRun _ _ c => with_ssched c s | _ => s end in
    Some (BootRun o (Kernel (with_bmach (Mach s t (mkeyboard (bmach b))) b) (k_gdt k) (k_idt k) (k_tss k) (k_commands k) (k_keyboards k) clock))
  end.

Definition kernel_main (heap_table : list Z) (dev : D) (mm : mem) (t : tty) (clock : C) : option startup :=
  let t := terminal_initialize KERNEL_BACKGROUND_COLOR t in
  gdt_real ← gdt_structured_to_gdt (kernel_gdt tss_address);
  let '(res, h) := kheap_init zero_heap heap_table in
  let t := if res <? 0 then print (literal "Falied to create heap" ++ [10]) t else t in
  files ← fs_init (Vfs (Fs dev h blank_private) None [] []);
  let files := disk_search_and_init files in
  let idt := idt_init interrupt_pointer_table isr80h_wrapper in
  let b := pit_init (Board (Mach (zero_sys files mm) t keyboard) false ∅) in
  let '(chunk, (h, mm)) := paging_new_4gb (kheap (skern (msys (bmach b))), kmem (skern (msys (bmach b)))) (Z.lor PAGING_IS_WRITEABLE PAGING_IS_PRESENT) in
  if chunk =? 0 then boot_panic (literal "Failed to set up kernel paging") (mtty (bmach b))
  else
    let b := set_kernel_chunk chunk h mm b in
    commands ← isr80h_register_commands ∅;
    let '(ks, b) := keyboard_init classic_keyboard (Keyboards 0 0 ∅) b in
    let b := on_tty_of (dbg_puts ([27] ++ literal "[31m")) b in
    let b := on_tty_of (dbg_puts (literal "Thats cool")) b in
    let b := on_tty_of (dbg_puts ([27] ++ literal "[0m" ++ [10])) b in
    start_shell (Kernel b gdt_real idt kernel_tss commands ks clock).
End boot.

Arguments kernel D C : clear implicits.
Arguments startup D C : clear implicits.

(** ** The state that is reached *)

Section reached.
Context {D : Type} `{BlockDeviceLaws D}.

Lemma heap_start bytes : length bytes = Z.to_nat 25600 -> exists h, kheap_init zero_heap bytes = (0, h) /\ live h ∅ /\ heap_placed h.
Proof.
  intros Hl. destruct (kheap_init_repr zero_heap bytes) as (h & E & R & Ha & Ht); [lia|]. exists h. split; [done|].
  split; [by exists ∅|]. unfold heap_placed. cbn. rewrite Ha, Ht. unfold RORTHOX_HEAP_ADDRESS, RORTHOX_PROGRAM_VIRTUAL_ADDRESS_LIMIT. lia.
Qed.

(** The file system, mounted or not. *)
Lemma files_start (dev : D) h : live h ∅ -> heap_placed h -> exists files A,
  fs_init (Vfs (Fs dev h blank_private) None [] []) = Some files /\ let files := disk_search_and_init files in
  vfs_ok fat16_init files /\ live (heap (vol files)) A /\ heap_placed (heap (vol files)).
Proof.
  intros Hl Hp. destruct (boot_file_layer (Vfs (Fs dev h blank_private) None [] []) ∅ Hl) as (files & E & V & _ & _ & l & Ho).
  destruct (owned_live _ _ _ _ _ Ho) as [A HA]. exists files, A. split; [exact E|]. split; [exact V|]. split; [exact HA|].
  eapply placed_arena; [|exact Hp]. apply Ho.
Qed.

Lemma add_pages_kept A ts q n : A !! q = Some n -> q ∉ ts -> add_pages A ts !! q = Some n.
Proof. intros Hq Hn. by rewrite add_pages_lookup, decide_False. Qed.

(** The kernel's directory, in the heap that the first process finds. *)
Lemma paging_start h mm A : live h A -> heap_placed h ->
  let '(chunk, (h', mm')) := paging_new_4gb (h, mm) (Z.lor PAGING_IS_WRITEABLE PAGING_IS_PRESENT) in
  chunk = 0 /\ capacity h < used A + 1026 \/
  chunk <> 0 /\ heap_placed h' /\ exists A0, live h' A0 /\ is_Some (A0 !! chunk) /\ is_Some (A0 !! load32 mm' chunk) /\
    forall p, 0 <= p < 2 ^ 20 -> pte mm' (load32 mm' chunk) p = Z.lor (p * 4096) (Z.lor PAGING_IS_WRITEABLE PAGING_IS_PRESENT).
Proof.
  intros Hl Hp. destruct (paging_new_4gb_spec h mm A (Z.lor PAGING_IS_WRITEABLE PAGING_IS_PRESENT) Hl) as (c & h' & mm' & -> & _ & Hr); [done..|].
  destruct Hr as [(-> & _ & Hc)|(Hc & Ha & (ts & _ & Hn & _ & Hl' & _) & [_ Hm] & _)]; [by left|right].
  split; [done|]. split; [by eapply placed_arena|]. eexists. split; [exact Hl'|]. apply NoDup_cons in Hn as [Hcn Hn]. apply NoDup_cons in Hn as [Hdn _].
  split; [by rewrite lookup_insert_eq|]. split; [|exact Hm]. rewrite lookup_insert_ne by (intros E; apply Hcn; rewrite <- E; apply list_elem_of_here).
  rewrite (add_pages_kept _ _ _ 1); [done|apply lookup_insert_eq|done].
Qed.

Context {C : Type} `{CmosClock C}.

(** What [kernel_main] has set up when it loads the shell. *)
Record ready (A0 : gmap Z Z) (h0 : Heap.heap) (k : kernel D C) : Prop := Ready {
  rd_fresh : fresh_system fat16_init A0 h0 (msys (bmach (k_board k)));
  rd_chunk : is_Some (A0 !! kernel_chunk (ssched (msys (bmach (k_board k)))));
  rd_dir : cpu (ssched (msys (bmach (k_board k)))) = paging_switch (mmem (bmach (k_board k))) (kernel_chunk (ssched (msys (bmach (k_board k)))));
  rd_old : is_Some (A0 !! current_directory (cpu (ssched (msys (bmach (k_board k))))));
  rd_identity p : 0 <= p < 2 ^ 20 ->
    pte (mmem (bmach (k_board k))) (current_directory (cpu (ssched (msys (bmach (k_board k)))))) p = Z.lor (p * 4096) (Z.lor PAGING_IS_WRITEABLE PAGING_IS_PRESENT);
  rd_tty : tty_wf (mtty (bmach (k_board k)));
  rd_callbacks : interrupt_callbacks (k_board k) = ready_callbacks;
  rd_fatal : exception_fatal (k_board k) = false;
  rd_commands : isr80h_register_commands ∅ = Some (k_commands k)
}.

Context (interrupt_pointer_table : list Z) (isr80h_wrapper tss_address classic_keyboard : Z) (timestamp num : list Z).
Context (rounds flags : nat) (century : Z) (keyboard : kybd).
Local Abbreviation main := (kernel_main interrupt_pointer_table isr80h_wrapper tss_address classic_keyboard timestamp num rounds flags century keyboard).
Local Abbreviation shell := (start_shell timestamp num rounds flags century).

Lemma zero_sched_wf (c : sched) : task_store c = ∅ -> task_head c = 0 -> task_tail c = 0 -> current_task c = 0 -> sched_wf c [].
Proof.
  intros Es Eh Et Ec. constructor; try done.
  - apply NoDup_nil_2.
  - apply not_elem_of_nil.
  - by rewrite Es.
Qed.

Lemma debug_wf str : forall t, tty_wf t -> tty_wf (dbg_puts str t).
Proof.
  induction str as [|c str IH]; intros t W; [done|]. cbn [dbg_puts]. destruct (negb _); [|done]. apply IH. destruct W. by constructor.
Qed.

Lemma boot_panic_screen msg t : length num = 12%nat -> length (video_mem t) = 2000%nat ->
  exists t', boot_panic (D := D) (C := C) num msg t = Some (BootPanic msg t') /\ PANIC num (Some msg) (Some kernel_file) 33 t = Some t'.
Proof.
  intros Hn Ht. unfold boot_panic, PANIC. destruct (panic_number num 33 Hn ltac:(lia)) as (buf & -> & _). cbn [mbind option_bind]. by eexists.
Qed.

(** Mounting the disk has left too few blocks of the heap for a directory. *)
Definition no_room_for_paging (heap_table : list Z) (dev : D) : Prop := exists h files A,
  kheap_init zero_heap heap_table = (0, h) /\ fs_init (Vfs (Fs dev h blank_private) None [] []) = Some files /\
  live (heap (vol (disk_search_and_init files))) A /\ capacity (heap (vol (disk_search_and_init files))) < used A + 1026.

(** The stop screen with a message, after a screen in order. *)
Definition stops_with (msg : list Z) (r : option (startup D C)) : Prop := exists t t',
  tty_wf t /\ PANIC num (Some msg) (Some kernel_file) 33 t = Some t' /\ r = Some (BootPanic msg t').

Lemma boot_panic_stops msg t : length num = 12%nat -> tty_wf t -> stops_with msg (boot_panic num msg t).
Proof. intros Hn W. destruct (boot_panic_screen msg t Hn (wf_cells _ W)) as (t' & E & E'). exists t, t'. exact (conj W (conj E' E)). Qed.

(** Everything before the shell. *)
Lemma main_ready heap_table (dev : D) mm t clock :
  length heap_table = Z.to_nat 25600 -> length num = 12%nat -> length (video_mem t) = 2000%nat ->
  no_room_for_paging heap_table dev /\ stops_with (literal "Failed to set up kernel paging") (main heap_table dev mm t clock) \/
  exists A0 h0 k, ready A0 h0 k /\ k_clock k = clock /\ main heap_table dev mm t clock = shell k.
Proof.
  intros Hh Hn Ht. destruct (initialize_shows KERNEL_BACKGROUND_COLOR t ltac:(unfold KERNEL_BACKGROUND_COLOR, VGA_COLOR_BLACK; lia) Ht) as ([W _ _ _] & _).
  unfold kernel_main. cbv zeta. set (t1 := terminal_initialize KERNEL_BACKGROUND_COLOR t) in *. clearbody t1.
  destruct (gdt_structured_to_gdt (kernel_gdt tss_address)) as [gdt|] eqn:Eg; [|discriminate Eg]. cbn [mbind option_bind].
  destruct (heap_start heap_table Hh) as (h & Eh & Hl & Hp). rewrite Eh. change (0 <? 0) with false. cbv iota.
  destruct (files_start dev h Hl Hp) as (files & A & Ef & V & Hl1 & Hp1). rewrite Ef. cbn [mbind option_bind]. set (files1 := disk_search_and_init files) in *.
  pose proof (paging_start (heap (vol files1)) mm A Hl1 Hp1) as Hpg.
  change (kheap (skern (msys (bmach (pit_init (Board (Mach (zero_sys files1 mm) t1 keyboard) false ∅)))))) with (heap (vol files1)).
  change (kmem (skern (msys (bmach (pit_init (Board (Mach (zero_sys files1 mm) t1 keyboard) false ∅)))))) with mm.
  destruct (paging_new_4gb _ _) as [chunk [h2 mm2]]. destruct Hpg as [[-> Hc]|(Hc & Hp2 & A0 & Hl2 & Hin & Hd & Hid)].
  - left. rewrite Z.eqb_refl. split; [by exists h, files, A|by apply boot_panic_stops].
  - right. rewrite (proj2 (Z.eqb_neq _ _) Hc), commands_table. cbn [mbind option_bind]. eexists A0, h2, _. split; [|split; [|reflexivity]]; [|done].
    constructor; [|exact Hin|reflexivity|exact Hd|exact Hid|by do 3 apply debug_wf|reflexivity|reflexivity|exact commands_table].
    constructor; [|exact Hl2|reflexivity|exact Hp2|by apply zero_sched_wf|reflexivity|reflexivity|reflexivity|right; exact Hd].
    destruct V as [V1 V2]. constructor; [exact V1|]. intros f Hf. destruct (V2 f Hf) as [Ev Hu]. split; [exact Ev|]. by apply usable_heap.
Qed.

(** ** The shell *)

Lemma printtime_on bg clock t : (2 <= rounds)%nat -> (longest_wait C < flags)%nat -> on bg t ->
  exists now clock' t', printtime rounds flags century_register century clock t = Some (now, clock', t') /\ on bg t'.
Proof.
  intros Hr Hf Ht. destruct (read_rtc_spec century_register ltac:(done) ltac:(done) flags Hf rounds century clock Hr) as (d & d' & E & _).
  unfold printtime. rewrite E. cbn [mbind option_bind]. do 3 eexists. split; [reflexivity|]. do 6 apply print_on. by apply writechars_on.
Qed.

(** The greeting of [kernel_main]. *)
Lemma greeting_on bg t : on bg t -> exists n t', printf (literal "%s") [VaStr (Some timestamp)] (printc (literal ";- >") VGA_COLOR_LIGHT_CYAN t) = Some (n, t') /\
  on bg (printc (literal "< -;" ++ [10]) VGA_COLOR_LIGHT_MAGENTA t').
Proof. intros Ht. do 2 eexists. split; [reflexivity|]. by apply writechars_on, print_on, writechars_on. Qed.

(** The load of the first process, and the switch to it. *)
Lemma load_first A0 h0 k : ready A0 h0 k -> let m := bmach (k_board k) in
  match process_load_switch (literal "0:/shell.elf") (msys m) with
  | (Ok q, s) => exists x, mb_ptr x = q /\ current_process s = q /\ settled fat16_init A0 (msys m) [] 0 A0 h0 (Mach s (mtty m) (mkeyboard m)) [x]
  | (Err e, _) => e < 0
  end.
Proof.
  intros R m. pose proof (fresh_system_ok _ _ _ _ (rd_fresh _ _ _ R)) as S0.
  assert (St : settled fat16_init A0 (msys m) [] 0 A0 h0 m []).
  { constructor; [exact S0|apply undisturbed_refl|exact (rd_chunk _ _ _ R)| |right; exact (rd_old _ _ _ R)|exact (rd_tty _ _ _ R)].
    unfold m. rewrite (rd_dir _ _ _ R). done. }
  unfold process_load_switch, process_load, process_load_with_arguments. rewrite io_bind_assoc, io_gets, io_bind_assoc.
  replace (process_get_free_slot (msys m)) with 0 by (unfold process_get_free_slot, m; rewrite (fs_slots _ _ _ _ (rd_fresh _ _ _ R)); reflexivity).
  change (fail_if (0 <? 0) EISTKN) with (mret tt : io (sys D Heap.heap) unit). rewrite io_mret. unfold mbind at 1, io_bind at 1.
  destruct (process_load_for_slot_with_arguments _ 0 None (msys m)) as [r s1] eqn:E.
  destruct (load_undisturbed _ A0 h0 (msys m) [] _ _ _ _ _ 0 S0 E) as [Hcpu Hr]. destruct r as [q|e]; [|by destruct Hr].
  destruct Hr as (x & <- & S1 & U1). exists x. split; [done|]. split; [done|].
  destruct (switch_undisturbed _ A0 h0 s1 [x] (mb_ptr x) 0 S1 (list_elem_of_here _ _)) as [S2 U2].
  apply (settled_step fat16_init A0 (msys m) [] 0 A0 h0 m [] (process_switch (mb_ptr x) s1) [x] ltac:(reflexivity) St S2); [|exact Hcpu].
  exact (undisturbed_trans _ _ _ _ _ _ _ _ U1 U2).
Qed.

(** A machine that runs the first process: the invariants of system calls and interrupts hold, and the processor is in
    user mode in the address space of the process. *)
Record runs_first (A0 : gmap Z Z) (h0 : Heap.heap) (x : member) (o : next_outcome) (k : kernel D C) : Prop := RunsFirst {
  rf_between : between fat16_init A0 h0 (bmach (k_board k)) [x];
  rf_foreground : current_process (msys (bmach (k_board k))) = mb_ptr x;
  rf_user : exists r t, o = NextRun (proc_task (mb_proc x)) r (ssched (msys (bmach (k_board k)))) /\
    task_store (ssched (msys (bmach (k_board k)))) !! proc_task (mb_proc x) = Some t /\ r = Sched.regs t;
  rf_space : cpu (ssched (msys (bmach (k_board k)))) = paging_switch (mmem (bmach (k_board k))) (mb_chunk x);
  rf_task : current_task (ssched (msys (bmach (k_board k)))) = proc_task (mb_proc x);
  rf_callbacks : interrupt_callbacks (k_board k) = ready_callbacks;
  rf_fatal : exception_fatal (k_board k) = false;
  rf_commands : isr80h_register_commands ∅ = Some (k_commands k)
}.

(** The task that [task_run_first_ever_task] starts is the only one. *)
Lemma first_task m0 l0 A0 h0 (m : mach D Heap.heap) x : settled fat16_init A0 m0 l0 0 A0 h0 m [x] -> exists r t c,
  task_run_first_ever_task (mmem m) (ssched (msys m)) = Some (NextRun (proc_task (mb_proc x)) r c) /\
  left_at fat16_init A0 h0 m0 l0 0 (NextRun (proc_task (mb_proc x)) r c) (with_msched c m) [x] /\ task_store c !! proc_task (mb_proc x) = Some t /\ r = Sched.regs t /\
  cpu c = paging_switch (mmem m) (mb_chunk x) /\ current_task c = proc_task (mb_proc x).
Proof.
  intros St. destruct (sy_sched _ _ _ _ _ (st_system _ _ _ _ _ _ _ _ _ St)) as (ts & W & Hts). cbn [map] in Hts.
  apply Permutation_singleton_r in Hts. subst ts. unfold task_run_first_ever_task.
  pose proof (wf_current _ _ W) as Hc. apply list_elem_of_singleton in Hc.
  assert (Hn : proc_task (mb_proc x) <> 0) by (intros E; apply (wf_null _ _ W); rewrite E; apply list_elem_of_here).
  assert (Eh : task_head (ssched (msys m)) = proc_task (mb_proc x)) by (by rewrite (wf_head _ _ W)).
  rewrite Hc, (proj2 (Z.eqb_neq _ _) Hn), Eh.
  destruct (switch_resumed (mmem m) [proc_task (mb_proc x)] (proc_task (mb_proc x)) (ssched (msys m)) (ssched (msys m))) as (o & Eo & Ho); [done|exact W|apply list_elem_of_here|].
  destruct (leave_ok _ A0 h0 m0 l0 0 m [x] _ o St ltac:(done) ltac:(reflexivity) Ho) as (m' & El & L).
  assert (Er : (s ← task_switch (mmem m) (proc_task (mb_proc x)) (ssched (msys m)); task_return (task_head s) s) = Some o).
  { rewrite <- Eo. unfold task_switch. destruct (task_store (ssched (msys m)) !! proc_task (mb_proc x)); [|done]. cbn. by rewrite Eh. }
  rewrite Er.
  destruct o as [|c|p r c]; [done| |].
  { exfalso. clear -Eo. unfold task_switch in Eo. destruct (task_store (ssched (msys m)) !! _) eqn:Et in Eo; [|discriminate Eo].
    cbn in Eo. unfold task_return in Eo. cbn in Eo. rewrite Et in Eo. discriminate Eo. }
  destruct Ho as (_ & Hp & Hcur & t & Ht & Hr & _). apply list_elem_of_singleton in Hp as ->. injection El as <-. exists r, t, c. split; [done|].
  destruct L as (B & U & Es & L2 & y & t' & Hy & Ey & Ht' & _ & Hcpu). apply list_elem_of_singleton in Hy as ->.
  split; [|done]. split; [exact B|]. split; [exact U|]. split; [exact Es|]. split; [exact L2|]. exists x, t'. split; [apply list_elem_of_here|].
  rewrite Ht in Ht'. injection Ht' as <-. done.
Qed.

Lemma shell_runs A0 h0 k : ready A0 h0 k -> length num = 12%nat -> (2 <= rounds)%nat -> (longest_wait C < flags)%nat ->
  match process_load_switch (literal "0:/shell.elf") (msys (bmach (k_board k))) with
  | (Err _, _) => stops_with (literal "Failed to load shell.elf" ++ [10]) (shell k)
  | (Ok q, _) => exists x o k', mb_ptr x = q /\ shell k = Some (BootRun o k') /\ runs_first A0 h0 x o k'
  end.
Proof.
  intros R Hn Hr Hf. pose proof (load_first A0 h0 k R) as Hl. cbv zeta in Hl. unfold start_shell.
  destruct (process_load_switch (literal "0:/shell.elf") (msys (bmach (k_board k)))) as [[q|e] s]; [|by apply boot_panic_stops; [|apply R]].
  destruct Hl as (x & Hx & Hq & St). pose proof (rd_tty _ _ _ R) as W. set (t := mtty (bmach (k_board k))) in *.
  destruct (greeting_on _ t (conj W eq_refl)) as (n & t1 & E1 & O1). cbv zeta. rewrite E1. cbn [mbind option_bind].
  destruct (printtime_on _ (k_clock k) _ Hr Hf O1) as (now & clock & t2 & -> & W2 & _). cbn [mbind option_bind].
  assert (St2 : settled fat16_init A0 (msys (bmach (k_board k))) [] 0 A0 h0 (Mach s t2 (mkeyboard (bmach (k_board k)))) [x]) by (destruct St; by constructor).
  destruct (first_task _ _ _ _ (Mach s t2 (mkeyboard (bmach (k_board k)))) x St2) as (r & tk & c & E & (B & _ & _) & Ht & -> & Hc & Hcur).
  change (mmem (Mach s t2 (mkeyboard (bmach (k_board k))))) with (kmem (skern s)) in E, Hc. change (msys (Mach s t2 (mkeyboard (bmach (k_board k))))) with s in E. rewrite E. cbn [mbind option_bind].
  exists x. do 2 eexists. split; [exact Hx|]. split; [reflexivity|].
  constructor; [exact B|exact (eq_trans Hq (eq_sym Hx))|exists (Sched.regs tk), tk; by split|exact Hc|exact Hcur|exact (rd_callbacks _ _ _ R)|exact (rd_fatal _ _ _ R)|exact (rd_commands _ _ _ R)].
Qed.

(** C4: the kernel starts in order. Whatever is on the disk, in memory, on the screen and in the clock, [kernel_main] comes
    to an end. Either mounting the disk has left less than a directory's room in the heap, and the machine stops with that
    message; or the kernel is set up (the heap and the file layer in order, the kernel's directory mapping every page to
    itself and loaded, the callbacks and all commands registered), and then it runs the shell exactly when the shell can be
    loaded: the machine is in user mode in the shell's address space, and everything that the theorems about system calls
    and interrupts ask for holds. Otherwise it stops with the message about the shell. *)
Theorem kernel_main_starts heap_table (dev : D) mm t clock :
  length heap_table = Z.to_nat 25600 -> length num = 12%nat -> length (video_mem t) = 2000%nat -> (2 <= rounds)%nat -> (longest_wait C < flags)%nat ->
  no_room_for_paging heap_table dev /\ stops_with (literal "Failed to set up kernel paging") (main heap_table dev mm t clock) \/
  exists A0 h0 k, ready A0 h0 k /\
  match process_load_switch (literal "0:/shell.elf") (msys (bmach (k_board k))) with
  | (Err _, _) => stops_with (literal "Failed to load shell.elf" ++ [10]) (main heap_table dev mm t clock)
  | (Ok q, _) => exists x o k', mb_ptr x = q /\ main heap_table dev mm t clock = Some (BootRun o k') /\ runs_first A0 h0 x o k'
  end.
Proof.
  intros Hh Hn Ht Hr Hf. destruct (main_ready heap_table dev mm t clock Hh Hn Ht) as [Hp|(A0 & h0 & k & R & _ & E)]; [by left|right].
  exists A0, h0, k. split; [exact R|]. rewrite E. exact (shell_runs A0 h0 k R Hn Hr Hf).
Qed.
End reached.

(** An empty disk, and the clock of Rtc.v: the machine stops or runs. *)
Lemma kernel_main_starts_witness :
  kernel_main (D := ram_disk) (C := sim_clock) [] 0 0 4096 [] (replicate 12 0) 2 11 77 (Kybd false false false 0 true false false)
    (replicate (Z.to_nat 25600) 0) (RamDisk ∅ 1000 ∅) ∅ boot_tty (SimClock 0 0 0) <> None.
Proof.
  destruct (kernel_main_starts (D := ram_disk) (C := sim_clock) [] 0 0 4096 [] (replicate 12 0) 2 11 77 (Kybd false false false 0 true false false)
    (replicate (Z.to_nat 25600) 0) (RamDisk ∅ 1000 ∅) ∅ boot_tty (SimClock 0 0 0)
    ltac:(apply length_replicate) eq_refl eq_refl ltac:(lia) ltac:(cbn; lia)) as [[_ (t & t' & _ & _ & E)]|(A0 & h0 & k & _ & E)]; [rewrite E; discriminate|].
  destruct (process_load_switch _ _) as [[q|e] s]; [destruct E as (x & o & k' & _ & E & _)|destruct E as (t & t' & _ & _ & E)]; rewrite E; discriminate.
Defined.
